(* ===== verification/_CoqProject ===== *)
-Q . S2P
Prelude.v
RingBuffer.v
SplInl.v
Energy.v
MinMax.v
Sqrt.v
VectorOps.v
VadGmm.v
ResampleBy2.v
ResampleFrac.v
Resample48.v
Resample22.v
SampleBy2.v
Resampler.v
ResamplerPush.v
SeqNum.v
Units.v
Rtcp.v
CcFeedback.v
CcTracker.v
CcGenerator.v
OrderedMap.v
ArrivalMap.v
TransportChunk.v
TransportFb.v
TransportCodec.v
WideGenerator.v
WideSession.v
ExtNumber.v
Demuxer.v
TransportAdapter.v
AdapterSession.v
InterArrival.v
L4sLoop.v
WideLoop.v
VadSp.v
VadFilterbank.v
VadCore.v
VadInvariant.v
VadDecision.v
WebRtcVad.v
RembThrottler.v
ReceiveSide.v
G711.v
G722.v
G722Stream.v
Random.v
Hanning.v
Correlation.v
BitReverse.v
Fft.v
RealFft.v
Splitting.v
Filters.v
FilterAr.v
Lpc.v
Levinson.v
PaRing.v
