(* ===== verification/Prelude.v ===== *)
(** * WebRTC: the congestion feedback path and the fixed-point audio core

    A verification development for parts of src/libwebrtc/src that carry logic of their
    own: the feedback a receiver sends for congestion control (RFC 8888 for L4S, and
    transport-wide feedback), the integer signal processing of common_audio with the
    voice activity detector and the resampler, and small C components around them (the
    G.711 and G.722 codecs, the lock-free ring buffer).

    ** The parts and their files

    Congestion feedback. Received RTP packets go to the generator, which keeps a
    tracker per stream; when feedback is due the trackers turn what they received
    into reports, the generator puts them into one message and charges its size to a
    debt that limits the rate; the message is written to an RTCP buffer and parsed at
    the other end, where the adapter matches the reports with its history of sent
    packets and hands the results to the congestion controller. Transport-wide
    feedback is the other format the adapter takes: packets are numbered over
    all streams, a second generator keeps their arrival times in a map and reports
    them at intervals or on request, and the message codes their fate in chunks and
    arrival times as differences.
    - SeqNum.v: rtc_base/numerics (mod_ops.h, sequence_number_util.h,
      sequence_number_unwrapper.h): [Add], [Subtract], [ForwardDiff], [AheadOf],
      [Unwrap].
    - Units.v: time, size and rate (rtc_base/units/unit_base.h, api/units), rounded
      division, compact NTP intervals (modules/rtp_rtcp/source/ntp_time_util.cc).
    - Rtcp.v: byte order (byte_io.h), header writing (rtcp_packet.cc) and parsing
      (rtcp_packet/common_header.cc).
    - CcFeedback.v: rtcp_packet/congestion_control_feedback.cc: [BlockLength],
      [Create], [Parse].
    - CcTracker.v: congestion_control_feedback_tracker.cc: [ReceivedPacket],
      [AddPacketsToFeedback]; the interface [Sorts] is what it needs of std::sort.
    - CcGenerator.v: congestion_control_feedback_generator.cc: [OnReceivedPacket],
      [Process], [SendFeedback], [CalculateNextPossibleSendTime].
    - OrderedMap.v: std::map with integer keys, as the adapter uses it.
    - ArrivalMap.v: packet_arrival_map.cc: [AddPacket], [RemoveOldPackets], [EraseTo],
      [FindNextAtOrAfter] on a circular buffer of changing capacity.
    - TransportChunk.v: rtcp_packet/transport_feedback.cc, class LastChunk: the codes
      of up to 8191 packets in 16 bits ([CanAdd], [Add], [Emit], [EncodeLast],
      [Decode]).
    - TransportFb.v: rtcp_packet/transport_feedback.cc, the message: [SetBase],
      [AddReceivedPacket], [ForAllPackets], [GetBaseDelta], [Create], [Parse],
      [IsConsistent]; TransportCodec.v: the theorems on writing and parsing.
    - WideGenerator.v: transport_sequence_number_feedback_generator.cc:
      [OnReceivedPacket], [Process], [MaybeBuildFeedbackPacket],
      [SendFeedbackOnRequest], [OnSendBandwidthEstimateChanged]; WideSession.v: the
      theorems on sessions of the generator. ExtNumber.v: the header extensions with the
      transport-wide number and the request (rtp_header_extensions.cc).
    - TransportAdapter.v: congestion_controller/rtp/transport_feedback_adapter.cc:
      [AddPacket], [ProcessSentPacket], [ProcessCongestionControlFeedback],
      [ProcessTransportFeedback] and the InFlightBytesTracker; the interface
      [SortsResults] is its use of std::sort. AdapterSession.v: the theorems on
      sequences of calls.
    - L4sLoop.v: the composition of generator, RFC 8888 message and adapter.
      WideLoop.v: the composition of transport-wide message and adapter.
    - Demuxer.v: rtp/transport_feedback_demuxer.cc: [AddPacket], [OnTransportFeedback],
      the fate of packets for the observers of their streams.
    - InterArrival.v: goog_cc/inter_arrival_delta.cc: [ComputeDeltas], the first stage
      of the delay-based control, on the results of the adapter.
    - RembThrottler.v: congestion_controller/remb_throttler.cc, which limits how often
      the receiver's estimate is sent.
    - ReceiveSide.v: receive_side_congestion_controller.cc: the object the receiver
      calls; it owns the two generators, the throttler and a bitrate estimator, which
      is an arbitrary object behind the interface [RemoteBitrateEstimator].

    Fixed-point audio (common_audio). The detector decimates a frame to 8 kHz, splits
    it into bands, and tests their energies against two mixture models; the resampler
    chains the filters below it.
    - RingBuffer.v: ring_buffer.c. SplInl.v, Energy.v, MinMax.v, Sqrt.v, VectorOps.v:
      signal_processing/ primitives, named after the files they model.
    - ResampleBy2.v, ResampleFrac.v, Resample48.v, Resample22.v, SampleBy2.v: the
      filters and converters of signal_processing/resample*.c.
    - Resampler.v: resampler/resampler.cc, the object; ResamplerPush.v: its theorems.
    - VadGmm.v, VadSp.v, VadFilterbank.v, VadCore.v, WebRtcVad.v: vad/*.c;
      VadInvariant.v and VadDecision.v hold theorems on VadCore.v.
    - Correlation.v, Lpc.v, Levinson.v: correlations and linear prediction
      (auto_correlation.c, cross_correlation.c, dot_product_with_scale.cc,
      auto_corr_to_refl_coef.c, refl_coef_to_lpc.c, lpc_to_refl_coef.c,
      levinson_durbin.c, sqrt_of_one_minus_x_squared.c).
    - BitReverse.v, Fft.v, RealFft.v: complex_bit_reverse.c, complex_fft.c, real_fft.c.
    - Splitting.v: splitting_filter.c. Filters.v: filter_ma_fast_q12.c,
      filter_ar_fast_q12.c, downsample_fast.c. FilterAr.v: filter_ar.c.
    - Random.v, Hanning.v: randomization_functions.c, get_hanning_window.c.

    Other components.
    - G711.v: modules/third_party/g711 and audio_coding/codecs/g711, and the 16-bit
      codec of codecs/pcm16b.
    - G722.v: modules/third_party/g722 and audio_coding/codecs/g722, encoder and decoder;
      G722Stream.v: the theorems on sequences of their calls.
    - PaRing.v: modules/third_party/portaudio/pa_ringbuffer.c, a ring buffer shared by
      two threads without a lock.

    Prelude.v (this file): machine integers, the error monad, loops, and the lemmas
    and tactics the components share.

    ** Conventions

    A machine integer is a [Z]; casts are [u8], [u16], [s32], ..., signed 32-bit
    arithmetic is written [+i], [-i], [*i], [<<i], [>>i] and wraps, 64-bit arithmetic
    wraps with [s64] and [u64]. Arrays are lists; a pointer is an offset. An operation
    that can fail returns an option: [None] is an access outside an array, a shift or
    division without a value, or a failed RTC_DCHECK; error codes are values. [wp m Q]
    says that [m] succeeds with a result in [Q], so that every theorem with it states
    the absence of these. A signed overflow is not an error of the model, it wraps, as
    the code expects where it switches the sanitizer off (vad_core.c,
    resample_by_2_internal.c, levinson_durbin.c); where no overflow happens and that
    matters, a theorem says so by equality with unbounded integers. Memory the code does
    not initialise is an argument with arbitrary contents. A counted loop is [for_loop];
    a loop without a counter has fuel, and the theorems show that the fuel given is
    enough: the
    Euclidean loop of the resampler mode (the second rate and one more), the block loop
    of the feedback parser (as many steps as payload bytes, every block takes eight),
    the chunk loop of the transport-wide parser (as many steps as payload bytes, every
    chunk takes two), the loop of [ForAllPackets] over 16-bit numbers (65535 steps, the
    most packets a message describes), the room-making loop of [Create] (two steps, the
    buffer is empty after one), the search of the arrival map (as many steps as the
    buffer has places, which then repeat), its doubling and halving of the capacity (32
    steps, an int has no more bits), the loops of the transport-wide generator over
    numbers and messages (as many steps as numbers in the range, each advances), the
    search for a bit in the bit reversal (32 steps), the passes of the transforms (10,
    the most a size of 1024 has), the loop of [WebRtcSpl_DownsampleFastC] (as many steps
    as outputs), the loops of the G.722 codec (one step for each sample of the encoder; twice
    the bytes and one more for the decoder, which takes at least six bits in a step). In
    Levinson.v the cells of local arrays are options, so that reading a cell before it is
    written is [None]. Fft.v and G722.v have their routines twice from one text, with the
    casts of C and without, to state that they agree. PaRing.v steps two threads one
    access at a time in any order; the memory barriers of the source are taken to make
    accesses take effect in program order; the indices have the width of the platform.

    ** What the theorems show

    - Feedback messages: what [Create] writes is the RFC 8888 format
      (Create_correct) and is read back by [Parse] (feedback_roundtrip,
      header_roundtrip) with the accuracy of To13bitAto_accuracy; parsing arbitrary
      bytes is safe and reads the payload only (Parse_safe, ParseHeader_safe).
    - Feedback reports: each report describes the packets received since the last one
      (AddPacketsToFeedback_correct, with reported_again_as_lost where RFC 8888 asks for
      more); in every session of packets and timer calls no
      check fails, every message is well formed, and messages keep their distance and
      the rate limit (generator_session_safe, feedback_rate_limited,
      OnReceivedPacket_correct, Process_due); what was received arrives at the other
      end (feedback_end_to_end). Sequence numbers: AheadOf_total, Unwrap_correct.
      Limits: feedback_gap_skips, first_feedback_overflow, and oversized_feedback, a
      message too long for an RTCP header.
    - The sender: in every session the bytes in flight on a route are the sizes of
      the packets sent there and not acknowledged (in_flight_exact), and a feedback
      gives each matched packet its arrival and ECN mark, also when packets are reported
      several times (ProcessCongestionControlFeedback_correct). The whole loop: the mark and the
      arrival time of a received packet reach the sender with that packet
      (l4s_feedback_loop), except where unmeasured_arrival_lost shows a loss.
    - Transport-wide feedback: every sequence of calls keeps the documented
      consistency condition (session_consistent), each packet is accepted or refused as
      it should be and its time recorded to half a tick (AddReceivedPacket_correct),
      what is written is read back exactly (transport_roundtrip, transport_end_to_end),
      parsing arbitrary bytes is safe (transport_parse_safe), the adapter turns a
      message into results for exactly the known packets
      (ProcessTransportFeedback_correct), the map of arrival times implements a bounded
      map (arrival_map_refines), its generator never fails (wide_generator_safe),
      reports at each interval exactly the packets that arrived (wide_process_correct),
      every packet at the next interval (packet_reported) and those asked for at once
      (request_answered), numbers and requests survive the header extension
      (extension_roundtrip), and the whole loop preserves the arrival times
      (wide_feedback_loop). Every observer of streams is told the fate of its packets
      that were sent in a session, and of no others (demux_correct). Limits: negative_arrival, new_object_inconsistent,
      overlong_delta_rewrite, move_feedback_spec.
    - Delay-based control: the deltas of a stream are those of its consecutive groups of
      packets sent together (deltas_correct; send_delta_negative is a limit).
    - The receive side: in either mode the packets and timer calls reach the generators
      so that their messages are those of the generators alone, up to a call in which an
      estimator itself fails (receive_side_refines),
      the estimator is switched as documented (estimator_in_use), and every REMB message
      stays below the limit that was asked for (remb_within_cap).
    - Ring buffers: refinement of a queue with undo and FIFO order; for the lock-free one
      under all interleavings of its two threads, without races (pa_ring_queue).
    - Detector: an invariant of the models under which no access and no shift is out of
      range (GmmProbability_invariant), the value of every call (Process_correct) and the
      refusals (Process_refuses_iff), safety of sessions (vad_session_safe), the
      feature tree, the minimum tracker, the hangover.
    - Resampling: the converters and the resampler object compute filters on whole
      signals, however they are cut into blocks (Resample48khzTo8khz_stream,
      Push_stream_correct, Push_mono_correct, Push_stereo_correct,
      resampler_session_safe); the choice of the mode (ComputeResamplerMode_iff).
    - Square roots: exact and with an error bound.
    - Transforms: the tables and the counting loop reverse bits (bit_reverse_correct);
      the inverse transform never overflows (ifft_exact), the forward one does not for
      bounded moduli (fft_exact); the wrappers for real signals compute them on the
      symmetric extension (RealForwardFFT_correct, RealInverseFFT_correct;
      conjugate_overflow is a limit).
    - Filters: the splitting filter and the auto-regressive and moving-average filters
      compute recurrences on whole signals in unbounded integers (splitting_exact,
      FilterAR_stream, FilterARFast_exact, FilterMA_exact, DownsampleFast_correct).
    - Linear prediction: autocorrelation without overflow (autocorrelation_exact), the
      recursion of Schur in place (AutoCorrToReflCoef_correct) and its inverse
      (ReflCoefToLpc_correct), the accesses of the others (LpcToReflCoef_safe,
      LevinsonDurbin_safe, up to a shift that may be out of range).
    - Codecs: the error of G.711 (g711_accuracy), its codes (g711_codes), the 16-bit codec
      (pcm16b_roundtrip); the decoder of G.722 stays in step with the encoder, in packed
      streams too (g722_follows), restores the bands up to half a quantiser step
      (g722_accuracy) and is safe on arbitrary bytes (g722_decode_safe). Random numbers:
      the full period (random_full_period). The window: hanning_window.
    Theorems named ..._overrun, ..._overflow(s), ..._odd, ..._first_block, ..._skips,
    ..._off_by_one and ..._half_range exhibit behaviour the code's documentation does not announce.

    Bounds of the theorems on sessions and on the loops: times up to 115 days and up to twelve million
    calls for the feedback generator, so that 64-bit quantities stay in range
    (first_feedback_overflow shows what happens behind 213 days); a hundred million
    calls of the adapter, for the same reason; times below 2^61 microseconds for
    transport-wide messages; 2^43 events for their generator, so that unwrapped numbers
    stay in range; none for the detector and the resampler. A message fits the buffer it
    is written to: this is a condition on the message at hand, not on a largest one.

    ** Not modelled

    The clock, field trials, the RTCP sender and the network are inputs and outputs
    of the feedback model; std::sort is a parameter with its contract; logging is left
    out. The RtcpPacket::Build wrappers, other RTCP packets, floating-point overloads
    of the units; the member all_packets_ of the transport-wide message, which is only
    cleared and moved; the other header extensions; the floating-point estimators behind
    the inter-arrival deltas, and the receive-side estimators, which are a parameter of
    ReceiveSide.v. NEON, MIPS and other assembly variants of the audio routines. The
    large codecs (iLBC, the pitch analysis of iSAC). Weak memory: PaRing.v
    assumes what the barriers are for. The rest of the media stack (sessions, ICE,
    video): threads, sockets, callbacks and floating-point code. *)

From stdpp Require Export base tactics list option numbers.
From Stdlib Require Export ZArith Lia.
#[global] Open Scope Z_scope.

(** ** 1. Machine integers *)

Definition u8 (z : Z) : Z := z mod 256.
Definition u16 (z : Z) : Z := z mod 65536.
Definition u32 (z : Z) : Z := z mod 4294967296.
Definition u64 (z : Z) : Z := z mod 18446744073709551616.
Definition s8 (z : Z) : Z := (z + 128) mod 256 - 128.
Definition s16 (z : Z) : Z := (z + 32768) mod 65536 - 32768.
Definition s32 (z : Z) : Z := (z + 2147483648) mod 4294967296 - 2147483648.

Definition int16 (z : Z) : Prop := -32768 ≤ z ≤ 32767.
Definition int32 (z : Z) : Prop := -2147483648 ≤ z ≤ 2147483647.
Definition uint16 (z : Z) : Prop := 0 ≤ z ≤ 65535.
Definition uint32 (z : Z) : Prop := 0 ≤ z ≤ 4294967295.
Definition uint8 (z : Z) : Prop := 0 ≤ z ≤ 255.

(** Arithmetic of the C type [int] (32 bits): every operation wraps to 32 bits,
    the two's-complement result the supported compilers produce. *)
Declare Scope cint_scope.
Delimit Scope cint_scope with cint.
Notation "a +i b" := (s32 (a + b)) (at level 50, left associativity) : cint_scope.
Notation "a -i b" := (s32 (a - b)) (at level 50, left associativity) : cint_scope.
Notation "a *i b" := (s32 (a * b)) (at level 40, left associativity) : cint_scope.
Notation "-i a" := (s32 (- a)) (at level 35, right associativity) : cint_scope.
Notation "a <<i n" := (s32 (Z.shiftl a n)) (at level 54, left associativity) : cint_scope.
Notation "a >>i n" := (Z.shiftr a n) (at level 54, left associativity) : cint_scope.
#[global] Open Scope cint_scope.

(** Variable shift amounts: undefined behaviour outside [0, 31]. *)
Definition shl32 (a n : Z) : option Z :=
  if (0 <=? n) && (n <? 32) then Some (s32 (Z.shiftl a n)) else None.
Definition shr32 (a n : Z) : option Z :=
  if (0 <=? n) && (n <? 32) then Some (Z.shiftr a n) else None.
Definition shlu32 (a n : Z) : option Z :=
  if (0 <=? n) && (n <? 32) then Some (u32 (Z.shiftl a n)) else None.

(** The division of C truncates towards zero; by zero it is undefined. *)
Definition div32 (a b : Z) : option Z :=
  if b =? 0 then None else Some (s32 (Z.quot a b)).

Lemma shiftr_div (a : Z) (n : Z) : 0 ≤ n → Z.shiftr a n = a / 2 ^ n.
Proof. apply Z.shiftr_div_pow2. Qed.

(** ** 2. Undefined behaviour as an error

    A C function that can run into an access outside an array, a shift by an amount
    outside the width, a division by zero or a failed RTC_DCHECK is a function into
    [option]: [None] is such an error. [wp m Q] says that [m] runs to completion
    without it and that its result satisfies [Q]. (Signed overflow is not one of
    them: it wraps.) *)

Definition wp {A} (m : option A) (Q : A → Prop) : Prop :=
  match m with Some a => Q a | None => False end.

Definition dcheck (b : bool) : option unit := if b then Some tt else None.

(** The store [a[i] = v]. *)
Definition wr {A} (a : list A) (i : nat) (v : A) : option (list A) :=
  if decide (i < length a)%nat then Some (<[i:=v]> a) else None.

(** Loads and stores through a pointer that may have moved below the array. *)
Definition rdz (m : list Z) (p : Z) : option Z :=
  if 0 <=? p then m !! Z.to_nat p else None.
Definition wrz (m : list Z) (p v : Z) : option (list Z) :=
  if 0 <=? p then wr m (Z.to_nat p) v else None.

(** [memcpy(dst + doff, src + soff, n)] on distinct arrays, counted in
    elements, and [memset]. *)
Definition memcpy {A} (dst : list A) (doff : nat) (src : list A) (soff n : nat)
  : option (list A) :=
  if decide (doff + n ≤ length dst ∧ soff + n ≤ length src)%nat
  then Some (take doff dst ++ take n (drop soff src) ++ drop (doff + n) dst)
  else None.

Definition memset {A} (dst : list A) (doff : nat) (v : A) (n : nat)
  : option (list A) :=
  if decide (doff + n ≤ length dst)%nat
  then Some (take doff dst ++ replicate n v ++ drop (doff + n) dst)
  else None.

(** [for (i = lo; i < lo + n; i++) body] with the loop state threaded. *)
Fixpoint for_loop {S} (n lo : nat) (body : nat → S → option S) (s : S) : option S :=
  match n with
  | O => Some s
  | Datatypes.S n' => s' ← body lo s; for_loop n' (Datatypes.S lo) body s'
  end.

(** Running the first step of a sequence. *)
Lemma bind_eq {A B} (m : option A) (a : A) (f : A → option B) (r : option B) :
  m = Some a → f a = r → m ≫= f = r.
Proof. by intros -> <-. Qed.

Lemma wp_bind {A B} (m : option A) (f : A → option B) (Q : B → Prop) :
  wp m (λ a, wp (f a) Q) → wp (m ≫= f) Q.
Proof. by destruct m. Qed.

Section wp.
Context {A : Type}.
Implicit Types (m : option A) (Q : A → Prop).

Lemma wp_ret (a : A) Q : Q a → wp (Some a) Q.
Proof. done. Qed.

Lemma wp_mono m Q Q' : wp m Q → (∀ a, Q a → Q' a) → wp m Q'.
Proof. destruct m; simpl; auto. Qed.

Lemma wp_exists m Q : wp m Q ↔ ∃ a, m = Some a ∧ Q a.
Proof.
  destruct m as [a|]; simpl; split.
  - intros. by exists a.
  - by intros (? & [= ->] & ?).
  - done.
  - by intros (? & ? & ?).
Qed.

Lemma wp_run m Q a : m = Some a → wp m Q → Q a.
Proof. intros ->. done. Qed.

Lemma wp_conj m Q Q' : wp m Q → wp m Q' → wp m (λ a, Q a ∧ Q' a).
Proof. destruct m; simpl; auto. Qed.

Lemma wp_dcheck (b : bool) (Q : unit → Prop) :
  b = true → Q tt → wp (dcheck b) Q.
Proof. by intros ->. Qed.

Lemma wp_lookup (l : list A) (i : nat) Q :
  (i < length l)%nat → (∀ x, l !! i = Some x → Q x) → wp (l !! i) Q.
Proof. intros [x Hx]%lookup_lt_is_Some_2 H. rewrite Hx. simpl. auto. Qed.

Lemma wp_lookup_Forall (P : A → Prop) (l : list A) (i : nat) Q :
  Forall P l → (i < length l)%nat →
  (∀ x, l !! i = Some x → P x → Q x) → wp (l !! i) Q.
Proof.
  intros HP Hi H. apply wp_lookup; [done|]. intros x Hx.
  apply H; [done|]. by eapply Forall_lookup_1.
Qed.

Lemma wr_lt (l : list A) (i : nat) (v : A) : (i < length l)%nat → wr l i v = Some (<[i:=v]> l).
Proof. intros. unfold wr. by rewrite decide_True. Qed.

Lemma wp_wr (l : list A) (i : nat) (v : A) (Q : list A → Prop) :
  (i < length l)%nat → Q (<[i:=v]> l) → wp (wr l i v) Q.
Proof. intros Hi H. unfold wr. by rewrite decide_True by done. Qed.

Lemma wp_memcpy (dst src : list A) (doff soff n : nat) (Q : list A → Prop) :
  (doff + n ≤ length dst)%nat → (soff + n ≤ length src)%nat →
  Q (take doff dst ++ take n (drop soff src) ++ drop (doff + n) dst) →
  wp (memcpy dst doff src soff n) Q.
Proof. intros ?? H. unfold memcpy. by rewrite decide_True by done. Qed.

Lemma wp_memset (dst : list A) (doff n : nat) (v : A) (Q : list A → Prop) :
  (doff + n ≤ length dst)%nat →
  Q (take doff dst ++ replicate n v ++ drop (doff + n) dst) →
  wp (memset dst doff v n) Q.
Proof. intros ? H. unfold memset. by rewrite decide_True by done. Qed.

(** Loop rule: an invariant that holds initially and that every iteration,
    run to completion, carries to the next index. *)
Lemma wp_for (I : nat → A → Prop) (n lo : nat) (body : nat → A → option A)
    (s : A) Q :
  I lo s →
  (∀ i s, (lo ≤ i < lo + n)%nat → I i s → wp (body i s) (I (S i))) →
  (∀ s, I (lo + n)%nat s → Q s) →
  wp (for_loop n lo body s) Q.
Proof.
  revert lo s. induction n as [|n IH]; intros lo s H0 Hstep Hend; simpl.
  { apply Hend. by rewrite Nat.add_0_r. }
  apply wp_bind. eapply wp_mono; [apply Hstep; [lia|done]|].
  intros s' Hs'. apply IH; [done| |].
  - intros i s'' Hi. apply Hstep. lia.
  - intros s'' Hs''. apply Hend. by rewrite Nat.add_succ_r.
Qed.

Lemma for_loop_app (n m lo : nat) (body : nat → A → option A) (s : A) :
  for_loop (n + m) lo body s =
  (s' ← for_loop n lo body s; for_loop m (lo + n)%nat body s').
Proof.
  revert lo s. induction n as [|n IH]; intros lo s; simpl.
  { by rewrite Nat.add_0_r. }
  destruct (body lo s); simpl; [|done]. by rewrite IH, Nat.add_succ_r.
Qed.

Lemma for_loop_ext (n lo : nat) (b1 b2 : nat → A → option A) (s : A) :
  (∀ i s, (lo ≤ i < lo + n)%nat → b1 i s = b2 i s) →
  for_loop n lo b1 s = for_loop n lo b2 s.
Proof.
  revert lo s. induction n as [|n IH]; intros lo s H; simpl; [done|].
  rewrite H by lia. destruct (b2 lo s); simpl; [|done].
  apply IH. intros. apply H. lia.
Qed.
Lemma for_loop_shift (n o lo : nat) (body : nat → A → option A) (s : A) :
  for_loop n lo (λ i, body (o + i)%nat) s = for_loop n (o + lo) body s.
Proof.
  revert lo s. induction n as [|n IH]; intros lo s; simpl; [done|].
  destruct (body (o + lo)%nat s); simpl; [|done]. by rewrite IH, Nat.add_succ_r.
Qed.

(** What every iteration that completes preserves. *)
Lemma for_loop_inv (I : A → Prop) (n lo : nat) (body : nat → A → option A) (s s' : A) :
  I s → (∀ i s s', I s → body i s = Some s' → I s') → for_loop n lo body s = Some s' → I s'.
Proof.
  intros H0 Hstep. revert lo s H0. induction n as [|n IH]; intros lo s H0; simpl.
  { by intros [= <-]. }
  destruct (body lo s) as [s1|] eqn:E; simpl; [|done]. apply IH. by eapply Hstep.
Qed.

(** A loop of loops is one loop. *)
Lemma for_loop_nest (n k lo : nat) (body : nat → A → option A) (s : A) :
  for_loop n lo (λ b s, for_loop k 0 (λ j, body (k * b + j)%nat) s) s =
  for_loop (k * n) (k * lo) body s.
Proof.
  revert lo s. induction n as [|n IH]; intros lo s; cbn [for_loop].
  { by rewrite Nat.mul_0_r. }
  rewrite Nat.mul_succ_r, (Nat.add_comm (k * n)), for_loop_app.
  rewrite for_loop_shift, Nat.add_0_r.
  destruct (for_loop k (k * lo) body s); cbn [mbind option_bind]; [|done].
  rewrite IH. by rewrite Nat.mul_succ_r.
Qed.

End wp.

(** Two loops that do the same while an invariant holds. *)
Lemma for_both {S} (I : nat → S → Prop) (n lo : nat) (b1 b2 : nat → S → option S) (s : S) :
  I lo s →
  (∀ i s, (lo ≤ i < lo + n)%nat → I i s → ∃ s', b1 i s = Some s' ∧ b2 i s = Some s' ∧ I (Datatypes.S i) s') →
  ∃ s', for_loop n lo b1 s = Some s' ∧ for_loop n lo b2 s = Some s' ∧ I (lo + n)%nat s'.
Proof.
  revert lo s. induction n as [|n IH]; intros lo s H0 Hstep; cbn [for_loop].
  { exists s. by rewrite Nat.add_0_r. }
  destruct (Hstep lo s ltac:(lia) H0) as (s1 & -> & -> & H1). cbn [mbind option_bind].
  destruct (IH (Datatypes.S lo) s1 H1) as (s' & E1 & E2 & H'). { intros i t Hi. apply Hstep. lia. }
  exists s'. split_and!; [done|done|]. by rewrite Nat.add_succ_r.
Qed.

(** ** 3. Lemmas and automation *)

Lemma s16_range z : int16 (s16 z).
Proof. unfold int16, s16. Z.to_euclidean_division_equations; lia. Qed.
Lemma s32_range z : int32 (s32 z).
Proof. unfold int32, s32. Z.to_euclidean_division_equations; lia. Qed.
Lemma u32_range z : uint32 (u32 z).
Proof. unfold uint32, u32. Z.to_euclidean_division_equations; lia. Qed.
Lemma u16_range z : uint16 (u16 z).
Proof. unfold uint16, u16. Z.to_euclidean_division_equations; lia. Qed.
Lemma u8_range z : uint8 (u8 z).
Proof. unfold uint8, u8. Z.to_euclidean_division_equations; lia. Qed.

Lemma s16_id z : int16 z → s16 z = z.
Proof. unfold int16, s16. intros. rewrite Z.mod_small; lia. Qed.
Lemma s32_id z : int32 z → s32 z = z.
Proof. unfold int32, s32. intros. rewrite Z.mod_small; lia. Qed.
Lemma u16_id z : uint16 z → u16 z = z.
Proof. unfold uint16, u16. intros. rewrite Z.mod_small; lia. Qed.
Lemma u32_id z : uint32 z → u32 z = z.
Proof. unfold uint32, u32. intros. rewrite Z.mod_small; lia. Qed.
Lemma u64_id z : 0 ≤ z < 18446744073709551616 → u64 z = z.
Proof. unfold u64. intros. rewrite Z.mod_small; lia. Qed.

Lemma int16_int32 z : int16 z → int32 z.
Proof. unfold int16, int32. lia. Qed.

(** An arithmetic right shift keeps any interval around zero. *)
Lemma shiftr_bounds a n lo hi :
  0 ≤ n → lo ≤ 0 → 0 ≤ hi → lo ≤ a ≤ hi → lo ≤ Z.shiftr a n ≤ hi.
Proof.
  intros Hn Hlo Hhi Ha. rewrite Z.shiftr_div_pow2 by done.
  pose proof (Z.pow_pos_nonneg 2 n ltac:(lia) Hn).
  split.
  - apply Z.div_le_lower_bound; nia.
  - apply Z.div_le_upper_bound; nia.
Qed.

Lemma shiftr_int32 a n : 0 ≤ n → int32 a → int32 (Z.shiftr a n).
Proof. intros. apply shiftr_bounds; unfold int32 in *; lia. Qed.

Create HintDb cint.
#[export] Hint Resolve s16_range s32_range u32_range u16_range u8_range
  int16_int32 shiftr_int32 : cint.

(** [shift_const] turns shifts by literals into divisions and products by the
    power of two, [cunfold] exposes the intervals and the wrap-around, [clia]
    and [cnia] then decide. *)
Ltac shift_const :=
  repeat match goal with
  | |- context [Z.shiftr ?a (Zpos ?p)] =>
      rewrite (Z.shiftr_div_pow2 a (Zpos p)) by lia
  | H : context [Z.shiftr ?a (Zpos ?p)] |- _ =>
      rewrite (Z.shiftr_div_pow2 a (Zpos p)) in H by lia
  | |- context [Z.shiftl ?a (Zpos ?p)] =>
      rewrite (Z.shiftl_mul_pow2 a (Zpos p)) by lia
  | H : context [Z.shiftl ?a (Zpos ?p)] |- _ =>
      rewrite (Z.shiftl_mul_pow2 a (Zpos p)) in H by lia
  | |- context [2 ^ Zpos ?p] =>
      let v := eval vm_compute in (2 ^ Zpos p) in change (2 ^ Zpos p) with v
  | H : context [2 ^ Zpos ?p] |- _ =>
      let v := eval vm_compute in (2 ^ Zpos p) in change (2 ^ Zpos p) with v in H
  end.

Ltac cranges :=
  unfold int16, int32, uint16, uint32, uint8 in *.
Ltac clia := cranges; shift_const; Z.to_euclidean_division_equations; lia.
Ltac cnia := cranges; shift_const; Z.to_euclidean_division_equations; nia.

(** Removes the wrap-arounds of the goal whose argument is provably in range. *)
Ltac cexact :=
  repeat match goal with
  | |- context [s32 ?z] => rewrite (s32_id z) by (solve [clia | cnia])
  | |- context [s16 ?z] => rewrite (s16_id z) by (solve [clia | cnia])
  | |- context [u32 ?z] => rewrite (u32_id z) by (solve [clia | cnia])
  end.

(** The same from the inside out, by linear arithmetic only. *)
Ltac cinner :=
  repeat match goal with
  | |- context [s32 ?z] =>
      lazymatch z with
      | context [s32 _] => fail
      | _ => rewrite (s32_id z) by (cranges; lia)
      end
  end.

(** One step of symbolic execution. *)
Ltac wp_step :=
  match goal with
  | |- wp (mbind _ _) _ => apply wp_bind
  | |- wp (Some _) _ => apply wp_ret
  | |- wp (wr _ _ _) _ => apply wp_wr; [rewrite ?length_insert; try lia|]
  | |- wp (dcheck _) _ => apply wp_dcheck
  | |- wp (let '_ := ?x in _) _ => destruct x
  end.

(** Using a specification of the call at the head of the goal. *)
Tactic Notation "wp_use" uconstr(H) := eapply wp_mono; [refine H|cbv beta].
Tactic Notation "wp_call" tactic3(t) := eapply wp_mono; [t|cbv beta].

(** A bitwise or of numbers without common bits. *)
Lemma lor_shiftl a k b : 0 ≤ k → 0 ≤ b < 2 ^ k → Z.lor (Z.shiftl a k) b = a * 2 ^ k + b.
Proof.
  intros Hk Hb. rewrite <- Z.shiftl_mul_pow2 by done.
  assert (Hl : Z.land (Z.shiftl a k) b = 0).
  { apply Z.bits_inj'. intros n Hn. rewrite Z.land_spec, Z.bits_0.
    destruct (Z.ltb_spec n k); [by rewrite Z.shiftl_spec_low by done|].
    pose proof (Z.pow_le_mono_r 2 k n ltac:(lia) ltac:(lia)).
    rewrite (Z.testbit_eqb b n), Z.div_small by lia. apply andb_false_r. }
  pose proof (Z.add_lor_land (Z.shiftl a k) b). lia.
Qed.

(** A property of the numbers below a bound, by computation. *)
Lemma check_below (P : Z → bool) (n : nat) :
  forallb (λ i, P (Z.of_nat i)) (seq 0 n) = true → ∀ c, 0 ≤ c < Z.of_nat n → P c = true.
Proof.
  intros H c Hc. rewrite forallb_forall in H.
  rewrite <- (Z2Nat.id c) by lia. apply H, in_seq. lia.
Qed.

(** List lemmas shared by the components. *)
Lemma Forall_take_drop {A} (P : A → Prop) (l : list A) (i n : nat) :
  Forall P l → Forall P (take n (drop i l)).
Proof. intros. by apply Forall_take, Forall_drop. Qed.

Lemma Forall_weaken {A} (P Q : A → Prop) (l : list A) :
  Forall P l → (∀ x, P x → Q x) → Forall Q l.
Proof. induction 1; constructor; auto. Qed.

Lemma length_memcpy {A} (dst src out : list A) (doff soff n : nat) :
  memcpy dst doff src soff n = Some out → length out = length dst.
Proof.
  unfold memcpy. case_decide as H; [|done]. intros [= <-].
  rewrite !length_app, !length_take, !length_drop. lia.
Qed.

(** Cutting a list at given lengths, and [take]/[drop] at a cut. *)
Ltac len :=
  rewrite ?length_app, ?length_take, ?length_drop, ?length_replicate in *; simpl; lia.

Lemma split3 {A} (l : list A) (i j : nat) : (i + j ≤ length l)%nat →
  ∃ a b c, l = a ++ b ++ c ∧ length a = i ∧ length b = j.
Proof.
  exists (take i l), (take j (drop i l)), (drop j (drop i l)).
  rewrite !take_drop. repeat split; len.
Qed.

Lemma split4 {A} (l : list A) (i j k : nat) : (i + j + k ≤ length l)%nat →
  ∃ a b c d, l = a ++ b ++ c ++ d ∧ length a = i ∧ length b = j ∧ length c = k.
Proof.
  intros. destruct (split3 l i j) as (a & b & c' & -> & ? & ?); [lia|].
  destruct (split3 c' 0 k) as (? & c & d & -> & ?%nil_length_inv & ?); [len|].
  subst. by exists a, b, c, d.
Qed.

Lemma take_app2 {A} (a b c : list A) n :
  n = (length a + length b)%nat → take n (a ++ b ++ c) = a ++ b.
Proof. intros ->. rewrite app_assoc. by rewrite take_app_length' by len. Qed.

Lemma drop_app2 {A} (a b c : list A) n :
  n = (length a + length b)%nat → drop n (a ++ b ++ c) = c.
Proof. intros ->. rewrite app_assoc. by rewrite drop_app_length' by len. Qed.

Lemma drop_app3 {A} (a b c d : list A) n :
  n = (length a + length b + length c)%nat → drop n (a ++ b ++ c ++ d) = d.
Proof. intros ->. rewrite (app_assoc b). rewrite drop_app2; [done|len]. Qed.

(** Total look-up, for positions known to be in range. *)
Lemma lookup_total_Some (l : list Z) (i : nat) :
  (i < length l)%nat → l !! i = Some (l !!! i).
Proof. apply list_lookup_lookup_total_lt. Qed.

Lemma rdz_nat m (p i : nat) : (i ≤ p)%nat → rdz m (Z.of_nat p - Z.of_nat i) = m !! (p - i)%nat.
Proof.
  intros. unfold rdz. rewrite (proj2 (Z.leb_le 0 _)) by lia. f_equal. lia.
Qed.

Lemma wrz_nat m (p i : nat) v :
  (i ≤ p)%nat → wrz m (Z.of_nat p - Z.of_nat i) v = wr m (p - i) v.
Proof.
  intros. unfold wrz. rewrite (proj2 (Z.leb_le 0 _)) by lia. f_equal. lia.
Qed.

(** [m'] is [m] with the [n] cells from [o] on set to [f 0, f 1, ...]. *)
Definition wrote (m : list Z) (o n : nat) (f : nat → Z) (m' : list Z) : Prop :=
  length m' = length m ∧
  (∀ i, (i < n)%nat → m' !! (o + i)%nat = Some (f i)) ∧
  (∀ p, (p < o ∨ o + n ≤ p)%nat → m' !! p = m !! p).

Lemma wrote_length m o n f m' : wrote m o n f m' → length m' = length m.
Proof. by intros []. Qed.

Lemma wrote_take m o n f m' :
  (o + n ≤ length m)%nat → wrote m o n f m' → take n (drop o m') = map f (seq 0 n).
Proof.
  intros Hn (Hl & Hw & _). apply list_eq. intros i.
  rewrite list_lookup_fmap. destruct (decide (i < n)%nat).
  - rewrite lookup_take_lt, lookup_drop, Hw by done.
    by rewrite lookup_seq_lt by done.
  - rewrite lookup_take_ge by lia. rewrite lookup_seq_ge by lia. done.
Qed.

(** The two phases of a signal and their interleaving. *)
Definition interleave (a b : nat → Z) (i : nat) : Z :=
  if Nat.even i then a (i / 2)%nat else b (i / 2)%nat.

Lemma interleave_even a b i : interleave a b (2 * i) = a i.
Proof.
  unfold interleave. rewrite (proj2 (Nat.even_spec (2 * i))) by (exists i; lia).
  by rewrite Nat.mul_comm, Nat.div_mul by lia.
Qed.

Lemma interleave_odd a b i : interleave a b (2 * i + 1) = b i.
Proof.
  unfold interleave. rewrite <- Nat.negb_odd, (proj2 (Nat.odd_spec (2 * i + 1)))
    by (exists i; lia). cbn [negb].
  rewrite Nat.mul_comm, Nat.div_add_l by lia. by rewrite Nat.add_0_r.
Qed.

Lemma half_double (n : nat) : (2 * n / 2 = n)%nat.
Proof. by rewrite Nat.mul_comm, Nat.div_mul by lia. Qed.

Lemma half_double_S (n : nat) : ((2 * n + 1) / 2 = n)%nat.
Proof. rewrite Nat.mul_comm, Nat.div_add_l by lia. by rewrite Nat.add_0_r. Qed.

Lemma wrote_nil m o f : wrote m o 0 f m.
Proof. split_and!; [done|lia|done]. Qed.

(** Writing the same region again. *)
Lemma wrote_over m o n f g m' m'' :
  wrote m o n f m' → wrote m' o n g m'' → wrote m o n g m''.
Proof.
  intros (Hl & Hw & Hu) (Hl' & Hw' & Hu'). split_and!; [congruence|done|].
  intros p Hp. rewrite Hu' by done. by apply Hu.
Qed.

(** Extending the written region by its next cell. *)
Lemma wrote_snoc m o n f m' :
  wrote m o n f m' → (o + n < length m)%nat → wrote m o (S n) f (<[(o + n)%nat := f n]> m').
Proof.
  intros (Hl & Hw & Hu) Hn. split_and!; [by rewrite length_insert| |].
  - intros i Hi. destruct (decide (i = n)) as [->|].
    + by rewrite list_lookup_insert_eq by lia.
    + rewrite list_lookup_insert_ne by lia. apply Hw. lia.
  - intros p Hp. rewrite list_lookup_insert_ne by lia. apply Hu. lia.
Qed.

Lemma wp_wrote_snoc m o n f m' v (Q : list Z → Prop) :
  wrote m o n f m' → (o + n < length m)%nat → v = f n →
  (∀ m'', wrote m o (S n) f m'' → Q m'') → wp (wr m' (o + n) v) Q.
Proof.
  intros Hw Hn -> HQ. apply wp_wr; [by rewrite (wrote_length _ _ _ _ _ Hw)|].
  by apply HQ, wrote_snoc.
Qed.

(** Signals with three and with eight phases. *)
Definition phase (fs : list (nat → Z)) (i : nat) : Z :=
  match fs !! (i mod length fs)%nat with
  | Some f => f (i / length fs)%nat
  | None => 0
  end.

Lemma phase_at fs n i j f :
  length fs = n → fs !! j = Some f → phase fs (n * i + j) = f i.
Proof.
  intros <- Hj. pose proof (lookup_lt_Some _ _ _ Hj). unfold phase.
  rewrite (Nat.add_comm _ j), (Nat.mul_comm _ i), Nat.Div0.mod_add, Nat.mod_small by lia.
  rewrite Hj, Nat.div_add, Nat.div_small by lia. done.
Qed.

Lemma phase_ext fs gs n i :
  length fs = n → Forall2 (λ f g, f (i / n)%nat = g (i / n)%nat) fs gs →
  phase fs i = phase gs i.
Proof.
  intros <- H. unfold phase. rewrite <- (Forall2_length H).
  pose proof (proj1 (Forall2_lookup _ _ _) H (i mod length fs)%nat) as Hi.
  by destruct Hi.
Qed.

Lemma list_lookup_insert_eq' {A} (l : list A) (i j : nat) (x : A) :
  i = j → (j < length l)%nat → <[i:=x]> l !! j = Some x.
Proof. intros ->. apply list_lookup_insert_eq. Qed.
