(* ===== verification/RingBuffer.v ===== *)
(** * Ring buffer (common_audio/ring_buffer.c, ring_buffer.h)

    The circular byte buffer with its wrap flag: creation, initialisation,
    write, read (copying or by pointer), moving the read position in both
    directions. The memory block is a list of bytes, [size_t] fields are [Z]
    with the 64-bit wrap-around of the unsigned subtractions written out, the
    casts to [int] are [s32]; [NULL] is [None].

    [Spec] is the abstract object, a queue of the readable bytes together with
    the already consumed bytes that a negative move can bring back; the
    theorems show that every operation refines it and keeps [rb_wf]. *)

From S2P Require Import Prelude.

Module RingBuffer.

Inductive Wrap := SAME_WRAP | DIFF_WRAP.

Record RingBuffer := mkRingBuffer {
  read_pos : Z;
  write_pos : Z;
  element_count : Z;
  element_size : Z;
  rw_wrap : Wrap;
  data : list Z
}.

(** Where the pointer stored through [data_ptr] leads. *)
Inductive DataPtr := NullPtr | InBuffer (off : Z) | InData.

Definition WebRtc_available_read (self : option RingBuffer) : Z :=
  match self with
  | None => 0
  | Some self =>
      match rw_wrap self with
      | SAME_WRAP => u64 (write_pos self - read_pos self)
      | DIFF_WRAP => u64 (u64 (element_count self - read_pos self) + write_pos self)
      end
  end.

Definition WebRtc_available_write (self : option RingBuffer) : Z :=
  match self with
  | None => 0
  | Some self => u64 (element_count self - WebRtc_available_read (Some self))
  end.

Record Regions := mkRegions {
  data_ptr_1 : Z;
  data_ptr_bytes_1 : Z;
  data_ptr_2 : option Z;
  data_ptr_bytes_2 : Z;
  read_elements : Z
}.

Definition GetBufferReadRegions (buf : RingBuffer) (count : Z) : Regions :=
  let readable_elements := WebRtc_available_read (Some buf) in
  let read_elements :=
    if readable_elements <? count then readable_elements else count in
  let margin := u64 (element_count buf - read_pos buf) in
  if margin <? read_elements then
    {| data_ptr_1 := u64 (read_pos buf * element_size buf);
       data_ptr_bytes_1 := u64 (margin * element_size buf);
       data_ptr_2 := Some 0;
       data_ptr_bytes_2 := u64 (u64 (read_elements - margin) * element_size buf);
       read_elements := read_elements |}
  else
    {| data_ptr_1 := u64 (read_pos buf * element_size buf);
       data_ptr_bytes_1 := u64 (read_elements * element_size buf);
       data_ptr_2 := None;
       data_ptr_bytes_2 := 0;
       read_elements := read_elements |}.

Definition WebRtc_InitBuffer (self : RingBuffer) : option RingBuffer :=
  d ← memset (data self) 0 0 (Z.to_nat (u64 (element_count self * element_size self)));
  Some (mkRingBuffer 0 0 (element_count self) (element_size self) SAME_WRAP d).

(** [malloc_self] tells whether the allocation of the header succeeds and
    [malloc] gives the block returned for a request, with its indeterminate
    contents, or [None]. The outer option is undefined behaviour, the inner one
    the returned pointer. *)
Definition WebRtc_CreateBuffer (malloc_self : bool) (malloc : Z → option (list Z))
    (count size : Z) : option (option RingBuffer) :=
  if (count =? 0) || (size =? 0) then Some None
  else if negb malloc_self then Some None
  else match malloc (u64 (count * size)) with
       | None => Some None
       | Some block =>
           b ← WebRtc_InitBuffer (mkRingBuffer 0 0 count size SAME_WRAP block);
           Some (Some b)
       end.

Definition WebRtc_MoveReadPtr (self : option RingBuffer) (count : Z)
  : option RingBuffer * Z :=
  match self with
  | None => (None, 0)
  | Some b =>
      let free_elements := s32 (WebRtc_available_write self) in
      let readable_elements := s32 (WebRtc_available_read self) in
      let rp := s32 (read_pos b) in
      let c := if readable_elements <? count then readable_elements else count in
      let c := if c <? -i free_elements then -i free_elements else c in
      let rp := rp +i c in
      let '(rp, w) := if s32 (element_count b) <? rp
                      then (rp -i s32 (element_count b), SAME_WRAP)
                      else (rp, rw_wrap b) in
      let '(rp, w) := if rp <? 0
                      then (rp +i s32 (element_count b), DIFF_WRAP)
                      else (rp, w) in
      (Some (mkRingBuffer (u64 rp) (write_pos b) (element_count b)
               (element_size b) w (data b)), c)
  end.

Record ReadResult := mkReadResult {
  rr_self : option RingBuffer;
  rr_data : option (list Z);       (* the caller's memory after the call *)
  rr_ptr : option DataPtr;         (* what was stored through data_ptr *)
  rr_count : Z
}.

(** [data_ptr] tells whether the caller passed a non-null [data_ptr]; [data] is
    the caller's memory, [None] when null. *)
Definition WebRtc_ReadBuffer (self : option RingBuffer) (data_ptr : bool)
    (dst : option (list Z)) (count : Z) : option ReadResult :=
  match self with
  | None => Some (mkReadResult None dst None 0)
  | Some b =>
      match dst with
      | None => Some (mkReadResult self None None 0)
      | Some dmem =>
          let r := GetBufferReadRegions b count in
          '(dmem, ptr) ←
            (if 0 <? data_ptr_bytes_2 r then
               p2 ← data_ptr_2 r;
               dmem ← memcpy dmem 0 (data b) (Z.to_nat (data_ptr_1 r))
                        (Z.to_nat (data_ptr_bytes_1 r));
               dmem ← memcpy dmem (Z.to_nat (data_ptr_bytes_1 r)) (data b)
                        (Z.to_nat p2) (Z.to_nat (data_ptr_bytes_2 r));
               Some (dmem, InData)
             else if negb data_ptr then
               dmem ← memcpy dmem 0 (data b) (Z.to_nat (data_ptr_1 r))
                        (Z.to_nat (data_ptr_bytes_1 r));
               Some (dmem, InBuffer (data_ptr_1 r))
             else Some (dmem, InBuffer (data_ptr_1 r)));
          let out := if data_ptr
                     then Some (if read_elements r =? 0 then NullPtr else ptr)
                     else None in
          let '(self', _) := WebRtc_MoveReadPtr self (s32 (read_elements r)) in
          Some (mkReadResult self' (Some dmem) out (read_elements r))
      end
  end.

Definition WebRtc_WriteBuffer (self : option RingBuffer) (src : option (list Z))
    (count : Z) : option (option RingBuffer * Z) :=
  match self with
  | None => Some (None, 0)
  | Some b =>
      match src with
      | None => Some (self, 0)
      | Some src =>
          let free_elements := WebRtc_available_write self in
          let write_elements := if free_elements <? count then free_elements else count in
          let margin := u64 (element_count b - write_pos b) in
          '(d, wp, n, w) ←
            (if margin <? write_elements then
               d ← memcpy (data b) (Z.to_nat (u64 (write_pos b * element_size b)))
                     src 0 (Z.to_nat (u64 (margin * element_size b)));
               Some (d, 0, u64 (write_elements - margin), DIFF_WRAP)
             else Some (data b, write_pos b, write_elements, rw_wrap b));
          d ← memcpy d (Z.to_nat (u64 (wp * element_size b))) src
                (Z.to_nat (u64 (u64 (write_elements - n) * element_size b)))
                (Z.to_nat (u64 (n * element_size b)));
          Some (Some (mkRingBuffer (read_pos b) (u64 (wp + n)) (element_count b)
                        (element_size b) w d), write_elements)
      end
  end.

Example rb_demo :
  (b ← WebRtc_CreateBuffer true (λ n, Some (replicate (Z.to_nat n) 7)) 3 2;
   '(b, n1) ← WebRtc_WriteBuffer b (Some [1;2;3;4]) 2;
   r ← WebRtc_ReadBuffer b false (Some (replicate 2 0)) 1;
   '(b, n2) ← WebRtc_WriteBuffer (rr_self r) (Some [5;6;8;9]) 2;
   r2 ← WebRtc_ReadBuffer b true (Some (replicate 6 0)) 9;
   Some (n1, rr_data r, n2, rr_data r2, rr_ptr r2, rr_count r2)) =
  Some (2, Some [1;2], 2, Some [3;4;5;6;8;9], Some InData, 3).
Proof. vm_compute. reflexivity. Qed.

(** ** Invariant *)

Record rb_wf (b : RingBuffer) : Prop := {
  wf_count : 0 < element_count b ≤ 1073741823;
  wf_size : 0 < element_size b;
  wf_bytes : element_count b * element_size b < 18446744073709551616;
  wf_data : Z.of_nat (length (data b)) = element_count b * element_size b;
  wf_read : 0 ≤ read_pos b ≤ element_count b;
  wf_write : 0 ≤ write_pos b ≤ element_count b;
  wf_wrap : match rw_wrap b with
            | SAME_WRAP => read_pos b ≤ write_pos b
            | DIFF_WRAP => write_pos b ≤ read_pos b
            end
}.

(** The number of readable elements, without the machine arithmetic. *)
Definition avail (b : RingBuffer) : Z :=
  match rw_wrap b with
  | SAME_WRAP => write_pos b - read_pos b
  | DIFF_WRAP => element_count b - read_pos b + write_pos b
  end.

(** The block read circularly from the read position; its readable prefix and
    the rest, oldest first. *)
Definition bytes (es k : Z) : nat := Z.to_nat (k * es).
Definition from (r : nat) (d : list Z) : list Z := drop r d ++ take r d.
Definition ring (b : RingBuffer) : list Z :=
  from (bytes (element_size b) (read_pos b)) (data b).
Definition content (b : RingBuffer) : list Z :=
  take (bytes (element_size b) (avail b)) (ring b).
Definition history (b : RingBuffer) : list Z :=
  drop (bytes (element_size b) (avail b)) (ring b).

(** ** Abstract specification: a queue with rewind *)
Module Spec.
Record queue := mkQueue { q_content : list Z; q_history : list Z }.

Section ops.
Context (es : Z).   (* bytes per element *)

Definition elements (l : list Z) : Z := Z.of_nat (length l) / es.

Definition write (q : queue) (src : list Z) (count : Z) : queue * Z :=
  let k := Z.min (elements (q_history q)) count in
  (mkQueue (q_content q ++ take (bytes es k) src) (drop (bytes es k) (q_history q)), k).

Definition move (q : queue) (count : Z) : queue * Z :=
  let c := Z.max (- elements (q_history q)) (Z.min (elements (q_content q)) count) in
  (if 0 <=? c then
     mkQueue (drop (bytes es c) (q_content q))
             (q_history q ++ take (bytes es c) (q_content q))
   else
     let keep := (length (q_history q) - bytes es (- c))%nat in
     mkQueue (drop keep (q_history q) ++ q_content q) (take keep (q_history q)),
   c).

Definition read (q : queue) (count : Z) : list Z * queue * Z :=
  let k := Z.min (elements (q_content q)) count in
  (take (bytes es k) (q_content q), fst (move q k), k).
End ops.
End Spec.

Definition absq (b : RingBuffer) : Spec.queue := Spec.mkQueue (content b) (history b).

(** ** Circular views of a block *)
Section from.
Local Open Scope nat_scope.

Lemma from_app a l r : length a = r → from r (a ++ l) = l ++ a.
Proof. intros. unfold from. by rewrite drop_app_length', take_app_length' by done. Qed.

(** Writing in front of the end of the block, the reader being behind. *)
Lemma from_write_same d r w new : r ≤ w → w + length new ≤ length d →
  from r (take w d ++ new ++ drop (w + length new) d)
  = take (w - r) (from r d) ++ new ++ drop (w - r + length new) (from r d).
Proof.
  intros. destruct (split4 d r (w - r) (length new))
    as (a & b & c & e & -> & ? & ? & ?); [lia|].
  rewrite take_app2, drop_app3 by lia. rewrite <- app_assoc, !from_app by done.
  by rewrite <- !app_assoc, take_app_length', drop_app2 by lia.
Qed.

(** Writing up to the reader, the writer having wrapped. *)
Lemma from_write_diff d r w new : w + length new ≤ r → r ≤ length d →
  from r (take w d ++ new ++ drop (w + length new) d)
  = take (length d - r + w) (from r d) ++ new
    ++ drop (length d - r + w + length new) (from r d).
Proof.
  intros. destruct (split4 d w (length new) (r - (w + length new)))
    as (a & b & c & e & -> & ? & ? & ?); [lia|].
  rewrite take_app_length', drop_app2 by lia. rewrite !length_app in *.
  replace (a ++ new ++ c ++ e) with ((a ++ new ++ c) ++ e) by by rewrite <- !app_assoc.
  replace (a ++ b ++ c ++ e) with ((a ++ b ++ c) ++ e) by by rewrite <- !app_assoc.
  rewrite !from_app by len. rewrite take_app2, drop_app3 by lia.
  by rewrite <- !app_assoc.
Qed.

(** Moving the reader by [n], modulo the size of the block. *)
Lemma from_from d r r' n :
  r ≤ length d → r' ≤ length d → n ≤ length d →
  r' = r + n ∨ r' + length d = r + n →
  from r' d = from n (from r d).
Proof.
  intros ??? [->|?].
  - destruct (split3 d r n) as (a & b & c & -> & <- & <-); [lia|].
    rewrite (from_app a (b ++ c) (length a)) by done.
    rewrite <- app_assoc, (from_app b) by done.
    rewrite app_assoc, from_app by len. by rewrite <- app_assoc.
  - destruct (split3 d r' (r - r')) as (a & b & c & -> & <- & ?); [lia|].
    rewrite !length_app in *. rewrite (from_app a (b ++ c) (length a)) by done.
    rewrite (app_assoc a b c), (from_app (a ++ b)) by len.
    rewrite (app_assoc c a b), from_app by len. by rewrite <- app_assoc.
Qed.
End from.

(** ** Arithmetic of the invariant *)
Lemma bytes_mono es a c : 0 ≤ es → a ≤ c → (bytes es a ≤ bytes es c)%nat.
Proof. intros. unfold bytes. assert (a * es ≤ c * es) by nia. lia. Qed.

Lemma bytes_add es a c : 0 ≤ es → 0 ≤ a → 0 ≤ c →
  bytes es (a + c) = (bytes es a + bytes es c)%nat.
Proof. intros. unfold bytes. nia. Qed.

Lemma bytes_sub es a c : 0 ≤ es → 0 ≤ c → c ≤ a →
  bytes es (a - c) = (bytes es a - bytes es c)%nat.
Proof. intros. unfold bytes. nia. Qed.

Section arith.
Context (b : RingBuffer) (Hb : rb_wf b).

Lemma avail_bounds : 0 ≤ avail b ≤ element_count b.
Proof using Hb.
  destruct Hb as [_ _ _ _ ? ? Hw]. unfold avail. destruct (rw_wrap b); lia.
Qed.

Lemma available_read_wf : WebRtc_available_read (Some b) = avail b.
Proof using Hb.
  pose proof avail_bounds as Ha. revert Ha. destruct Hb as [? _ _ _ ? ? Hw].
  unfold WebRtc_available_read, avail. destruct (rw_wrap b); intros.
  - rewrite u64_id; lia.
  - rewrite (u64_id (_ - _)), u64_id; lia.
Qed.

Lemma available_write_wf :
  WebRtc_available_write (Some b) = element_count b - avail b.
Proof using Hb.
  pose proof avail_bounds. destruct Hb as [? _ _ _ ? ? _].
  unfold WebRtc_available_write. rewrite available_read_wf, u64_id; lia.
Qed.

(** Any count of elements below the capacity, in bytes. *)
Lemma bytes_u64 k : 0 ≤ k ≤ element_count b →
  u64 (k * element_size b) = k * element_size b.
Proof using Hb. destruct Hb. intros. apply u64_id. nia. Qed.

Lemma length_data : length (data b) = bytes (element_size b) (element_count b).
Proof using Hb. destruct Hb. unfold bytes. lia. Qed.

Lemma bytes_le k : 0 ≤ k ≤ element_count b →
  (bytes (element_size b) k ≤ length (data b))%nat.
Proof using Hb. rewrite length_data. destruct Hb. intros. apply bytes_mono; lia. Qed.

Lemma length_ring : length (ring b) = length (data b).
Proof. unfold ring, from. rewrite length_app, length_drop, length_take. lia. Qed.

Lemma length_content : Z.of_nat (length (content b)) = avail b * element_size b.
Proof using Hb.
  pose proof avail_bounds. pose proof (bytes_le (avail b) ltac:(lia)).
  unfold content. rewrite length_take, length_ring. destruct Hb. unfold bytes in *. nia.
Qed.

Lemma length_history :
  Z.of_nat (length (history b)) = (element_count b - avail b) * element_size b.
Proof using Hb.
  pose proof avail_bounds. pose proof (bytes_le (avail b) ltac:(lia)).
  unfold history. rewrite length_drop, length_ring. destruct Hb. unfold bytes in *. nia.
Qed.

Lemma elements_content : Spec.elements (element_size b) (content b) = avail b.
Proof using Hb.
  unfold Spec.elements. rewrite length_content. destruct Hb. apply Z.div_mul. lia.
Qed.

Lemma elements_history :
  Spec.elements (element_size b) (history b) = element_count b - avail b.
Proof using Hb.
  unfold Spec.elements. rewrite length_history. destruct Hb. apply Z.div_mul. lia.
Qed.
End arith.

(** ** Writing *)
Lemma if_min a c : (if a <? c then a else c) = Z.min a c.
Proof. destruct (Z.ltb_spec a c); lia. Qed.

Lemma if_max a c : (if c <? a then a else c) = Z.max a c.
Proof. destruct (Z.ltb_spec c a); lia. Qed.

Section write.
Context (b : RingBuffer) (Hb : rb_wf b) (src : list Z) (count : Z).
Hypothesis Hcount : 0 ≤ count.
Hypothesis Hsrc : count * element_size b ≤ Z.of_nat (length src).

#[local] Abbreviation es := (element_size b).
#[local] Abbreviation ec := (element_count b).
#[local] Abbreviation k := (Z.min (ec - avail b) count).
#[local] Abbreviation nb := (bytes (element_size b)).

(** What a write of [k] elements leaves, seen from the read position. *)
Definition written (b' : RingBuffer) : Prop :=
  rb_wf b' ∧ element_size b' = es ∧ element_count b' = ec ∧
  avail b' = avail b + k ∧
  ring b' = take (nb (avail b)) (ring b) ++ take (nb k) src
            ++ drop (nb (avail b) + nb k) (ring b).

Lemma written_absq b' : written b' →
  (absq b', k) = Spec.write es (absq b) src count.
Proof using Hb Hcount Hsrc.
  intros (Hwf & Hes & Hec & Hav & Hring). pose proof (avail_bounds b Hb).
  unfold Spec.write. simpl. rewrite elements_history by done. f_equal.
  unfold absq, content, history. rewrite Hav, Hring, Hes.
  destruct Hb. rewrite bytes_add by lia.
  assert (length (take (nb (avail b)) (ring b)) = nb (avail b)) as Ht.
  { rewrite length_take, length_ring. pose proof (bytes_le b Hb (avail b)). lia. }
  assert (length (take (nb k) src) = nb k) as Hk.
  { rewrite length_take. pose proof (bytes_mono es k count). unfold bytes in *. lia. }
  by rewrite take_app2, drop_app2, drop_drop by lia.
Qed.

Lemma k_bounds : 0 ≤ k ≤ ec - avail b ∧ (nb k ≤ length src)%nat.
Proof using Hb Hcount Hsrc.
  pose proof (avail_bounds b Hb). destruct Hb. split; [lia|].
  etrans; [apply (bytes_mono _ _ count); lia|]. unfold bytes. lia.
Qed.

Lemma write_no_wrap :
  k ≤ ec - write_pos b →
  wp (memcpy (data b) (nb (write_pos b)) src 0 (nb k))
     (λ d, written (mkRingBuffer (read_pos b) (write_pos b + k) ec es (rw_wrap b) d)).
Proof using Hb Hcount Hsrc.
  intros Hk. pose proof k_bounds as [Hk0 Hks]. pose proof (avail_bounds b Hb).
  pose proof (length_data b Hb) as Hlen. pose proof Hb as [? ? ? ? ? ? Hw].
  pose proof (bytes_add es (write_pos b) k) as Hwk.
  pose proof (bytes_mono es (write_pos b + k) ec) as Hwe.
  apply wp_memcpy; [lia|lia|]. rewrite drop_0.
  assert (Hn : length (take (nb k) src) = nb k) by (rewrite length_take; lia).
  split_and!.
  - constructor; simpl; try done; [|lia|].
    + rewrite !length_app, Hn, length_take, length_drop. lia.
    + destruct (rw_wrap b) eqn:E; unfold avail in *; rewrite E in *; lia.
  - done.
  - done.
  - unfold avail; simpl. destruct (rw_wrap b); lia.
  - unfold ring; simpl. rewrite <- Hn at 2 4. unfold avail in *.
    destruct (rw_wrap b) eqn:E.
    + rewrite bytes_sub by lia. apply from_write_same; rewrite ?Hn; [|lia].
      apply bytes_mono; lia.
    + rewrite bytes_add, bytes_sub, <- Hlen by lia.
      apply from_write_diff; rewrite ?Hn; [|by apply bytes_le].
      rewrite <- bytes_add by lia. apply bytes_mono; lia.
Qed.

(** Two copies: up to the end of the block, then from its start. *)
Lemma write_wrapped :
  ec - write_pos b < k →
  wp (d ← memcpy (data b) (nb (write_pos b)) src 0 (nb (ec - write_pos b));
      memcpy d 0 src (nb (ec - write_pos b)) (nb (k - (ec - write_pos b))))
     (λ d, written (mkRingBuffer (read_pos b) (k - (ec - write_pos b)) ec es
                      DIFF_WRAP d)).
Proof using Hb Hcount Hsrc.
  intros Hk. pose proof k_bounds as [Hk0 Hks]. pose proof (avail_bounds b Hb).
  pose proof (length_data b Hb) as Hlen. pose proof Hb as [? ? ? ? ? ? Hw].
  assert (rw_wrap b = SAME_WRAP) as E.
  { destruct (rw_wrap b) eqn:E; [done|]. unfold avail in *; rewrite E in *; lia. }
  rewrite E in Hw.
  assert (avail b = write_pos b - read_pos b) as Ha by (unfold avail; by rewrite E).
  set (m := ec - write_pos b) in *.
  assert (nb (write_pos b) + nb m = nb ec)%nat as Hm
    by (rewrite <- bytes_add by lia; f_equal; lia).
  assert (nb k = nb m + nb (k - m))%nat as Hkm
    by (rewrite <- bytes_add by lia; f_equal; lia).
  pose proof (bytes_mono es (k - m) (read_pos b) ltac:(lia) ltac:(lia)).
  pose proof (bytes_le b Hb (read_pos b) ltac:(lia)).
  pose proof (bytes_mono es (read_pos b) (write_pos b) ltac:(lia) ltac:(lia)).
  apply wp_bind, wp_memcpy; [lia|lia|]. rewrite drop_0.
  set (n1 := take (nb m) src).
  assert (length n1 = nb m) as Hn1 by (unfold n1; rewrite length_take; lia).
  rewrite <- Hn1 at 1. set (d1 := _ ++ n1 ++ _).
  assert (length d1 = length (data b)) as Hd1 by (unfold d1; len).
  apply wp_memcpy; [lia|lia|]. rewrite take_0, app_nil_l.
  set (n2 := take _ (drop _ src)).
  assert (length n2 = nb (k - m)) as Hn2 by (unfold n2; len).
  split_and!; try done.
  - constructor; simpl; try done; try lia. len.
  - unfold avail at 1; simpl. lia.
  - unfold ring; simpl.
    replace (nb (avail b)) with (nb (write_pos b) - nb (read_pos b))%nat
      by (rewrite Ha, bytes_sub by lia; done).
    pose proof (from_write_diff d1 (nb (read_pos b)) 0 n2) as Hd.
    rewrite take_0, app_nil_l, Hn2 in Hd. simpl in Hd. rewrite Hd by lia. clear Hd.
    rewrite Hd1. unfold d1. rewrite from_write_same by lia. rewrite Hn1.
    assert (take (nb k) src = n1 ++ n2) as ->.
    { unfold n1, n2. rewrite Hkm. by rewrite take_take_drop. }
    set (x := take (nb (write_pos b) - nb (read_pos b)) (from (nb (read_pos b)) (data b))).
    assert (length x = nb (write_pos b) - nb (read_pos b))%nat.
    { unfold x. rewrite length_take. pose proof (length_ring b). unfold ring in *. len. }
    rewrite take_app2 by lia. rewrite <- !app_assoc. do 3 f_equal.
    rewrite (app_assoc x n1), drop_app_ge by len. rewrite drop_drop. f_equal. len.
Qed.

Lemma write_written :
  wp (WebRtc_WriteBuffer (Some b) (Some src) count)
     (λ '(b', n), n = k ∧ wp b' written).
Proof using Hb Hcount Hsrc.
  pose proof k_bounds as [Hk0 Hks]. pose proof (avail_bounds b Hb).
  pose proof Hb as [? ? ? ? ? ? Hw].
  unfold WebRtc_WriteBuffer. rewrite available_write_wf, if_min by done.
  rewrite (u64_id (ec - write_pos b)) by lia.
  destruct (Z.ltb_spec (ec - write_pos b) k) as [Hlt|Hge].
  - pose proof (write_wrapped Hlt) as Hwr.
    rewrite !(bytes_u64 b Hb) by lia.
    unfold bytes in Hwr. apply wp_bind. apply wp_bind.
    destruct (memcpy (data b) _ _ _ _) as [d1|]; [|done]. simpl in *.
    rewrite Z.mul_0_l, (u64_id (k - _)) by lia.
    replace (k - (k - (ec - write_pos b))) with (ec - write_pos b) by lia.
    rewrite (u64_id (ec - _)), !(bytes_u64 b Hb) by lia. simpl.
    apply wp_bind. eapply wp_mono; [exact Hwr|]. intros d Hd. simpl.
    rewrite u64_id by lia. done.
  - pose proof (write_no_wrap ltac:(lia)) as Hwr. unfold bytes in Hwr. simpl.
    rewrite Z.sub_diag. change (u64 0) with 0. rewrite Z.mul_0_l.
    change (Z.to_nat (u64 0)) with O. rewrite !(bytes_u64 b Hb) by lia.
    apply wp_bind. eapply wp_mono; [exact Hwr|]. intros d Hd. simpl.
    rewrite u64_id by lia. done.
Qed.
End write.

(** ** Moving the read position *)
Ltac wrap_cases b :=
  let E := fresh in
  unfold avail in *; simpl in *; destruct (rw_wrap b) eqn:E; rewrite ?E in *; lia.

Section move.
Context (b : RingBuffer) (Hb : rb_wf b) (count : Z).

#[local] Abbreviation es := (element_size b).
#[local] Abbreviation ec := (element_count b).
#[local] Abbreviation nb := (bytes (element_size b)).
#[local] Abbreviation c := (Z.max (- (ec - avail b)) (Z.min (avail b) count)).

Definition moved (b' : RingBuffer) : Prop :=
  rb_wf b' ∧ element_size b' = es ∧ element_count b' = ec ∧ data b' = data b ∧
  avail b' = avail b - c ∧
  ring b' = from (nb (if 0 <=? c then c else ec + c)) (ring b).

Lemma c_bounds : - (ec - avail b) ≤ c ≤ avail b.
Proof using Hb. pose proof (avail_bounds b Hb). lia. Qed.

(** The new position, reduced modulo the size as the code reduces it. *)
Lemma moved_to rp w :
  0 ≤ rp ≤ ec →
  match w with SAME_WRAP => rp ≤ write_pos b | DIFF_WRAP => write_pos b ≤ rp end →
  avail (mkRingBuffer rp (write_pos b) ec es w (data b)) = avail b - c →
  rp = read_pos b + c ∨ rp = read_pos b + c - ec ∨
  (read_pos b + c < 0 ∧ rp = read_pos b + c + ec) →
  moved (mkRingBuffer rp (write_pos b) ec es w (data b)).
Proof using Hb.
  intros Hrp Hw Hav Hcase. pose proof c_bounds. pose proof (avail_bounds b Hb).
  pose proof (length_data b Hb) as Hlen. pose proof Hb as [? ? ? ? ? ? _].
  split_and!; try done.
  unfold ring. simpl. pose proof (bytes_le b Hb) as Hle.
  apply from_from; [apply Hle; lia..| |].
  { destruct (Z.leb_spec 0 c); apply Hle; lia. }
  rewrite Hlen. destruct (Z.leb_spec 0 c).
  all: rewrite <- !bytes_add by lia.
  - destruct Hcase as [-> | [-> | [? ->]]]; [by left|right; f_equal; lia|lia].
  - destruct Hcase as [-> | [-> | [? ->]]]; [right; f_equal; lia|lia|left; f_equal; lia].
Qed.

Lemma move_moved : ∃ b',
  WebRtc_MoveReadPtr (Some b) count = (Some b', c) ∧ moved b'.
Proof using Hb.
  pose proof c_bounds. pose proof (avail_bounds b Hb).
  pose proof Hb as [? ? ? ? ? ? Hw].
  unfold WebRtc_MoveReadPtr. rewrite available_write_wf, available_read_wf by done.
  rewrite (s32_id (ec - avail b)), (s32_id (avail b)), (s32_id (read_pos b)),
    (s32_id ec), (s32_id (- _)) by (unfold int32; lia).
  rewrite if_min, if_max. set (m := c) in *.
  assert (Hs : ∀ z, - 1073741824 ≤ z ≤ 2147483646 → s32 z = z)
    by (intros; apply s32_id; unfold int32; lia).
  assert (- 1073741823 ≤ read_pos b + m ≤ 2147483646) by (wrap_cases b).
  rewrite (Hs (read_pos b + m)) by lia.
  destruct (Z.ltb_spec ec (read_pos b + m)).
  - rewrite (Hs (_ - ec)) by lia. destruct (Z.ltb_spec (read_pos b + m - ec) 0); [lia|].
    rewrite u64_id by lia. eexists. split; [done|].
    apply moved_to; [lia|wrap_cases b| |auto].
    wrap_cases b.
  - destruct (Z.ltb_spec (read_pos b + m) 0).
    + rewrite (Hs (_ + ec)), u64_id by lia. eexists. split; [done|].
      apply moved_to; [lia|wrap_cases b| |auto].
      wrap_cases b.
    + rewrite u64_id by lia. eexists. split; [done|].
      apply moved_to; [lia|wrap_cases b| |auto].
      wrap_cases b.
Qed.

Lemma moved_absq b' : moved b' → (absq b', c) = Spec.move es (absq b) count.
Proof using Hb.
  intros (Hwf & Hes & Hec & Hd & Hav & Hring).
  pose proof c_bounds. pose proof (avail_bounds b Hb) as Ha.
  pose proof (length_data b Hb) as Hlen. pose proof Hb as [? ? ? ? ? ? _].
  unfold Spec.move. simpl. rewrite elements_history, elements_content by done.
  f_equal. unfold absq, content, history. rewrite Hav, Hring, Hes.
  assert (length (ring b) = nb ec) as Hr by (by rewrite length_ring).
  pose proof (bytes_mono es (avail b) ec ltac:(lia) ltac:(lia)).
  unfold from. destruct (Z.leb_spec 0 c) as [Hc|Hc].
  - pose proof (bytes_mono es c (avail b) ltac:(lia) ltac:(lia)).
    rewrite bytes_sub by lia. f_equal.
    + rewrite take_app_le by len. rewrite skipn_firstn_comm. f_equal. 
    + rewrite drop_app_le by len. rewrite drop_drop, take_take. f_equal; f_equal; lia.
  - assert (nb ec = nb (ec + c) + nb (- c))%nat as Hm
      by (rewrite <- bytes_add by lia; f_equal; lia).
    assert (nb (avail b - c) = nb (avail b) + nb (- c))%nat as Hk
      by (rewrite <- bytes_add by lia; f_equal; lia).
    pose proof (bytes_mono es (avail b) (ec + c) ltac:(lia) ltac:(lia)).
    f_equal.
    + rewrite take_app_ge by len. rewrite Hk, take_take, drop_drop, length_drop, Hr.
      f_equal; f_equal; len.
    + rewrite drop_app_ge by len. rewrite Hk, length_drop, Hr, firstn_skipn_comm.
      f_equal; [|f_equal]; len.
Qed.
End move.

(** ** Reading *)
#[local] Arguments WebRtc_MoveReadPtr : simpl never.

Section read.
Context (b : RingBuffer) (Hb : rb_wf b) (dst : list Z) (count : Z) (ptr : bool).
Hypothesis Hcount : 0 ≤ count.
Hypothesis Hdst : count * element_size b ≤ Z.of_nat (length dst).

#[local] Abbreviation es := (element_size b).
#[local] Abbreviation ec := (element_count b).
#[local] Abbreviation nb := (bytes (element_size b)).
#[local] Abbreviation k := (Z.min (avail b) count).
#[local] Abbreviation margin := (ec - read_pos b).

Lemma ring_prefix_near j : 0 ≤ j ≤ margin →
  take (nb j) (ring b) = take (nb j) (drop (nb (read_pos b)) (data b)).
Proof using All.
  intros. pose proof Hb as [? ? ? ? ? ? _]. unfold ring, from.
  rewrite take_app_le; [done|]. rewrite length_drop, length_data by done.
  rewrite <- bytes_sub by lia. apply bytes_mono; lia.
Qed.

Lemma ring_prefix_far j : margin ≤ j ≤ ec →
  take (nb j) (ring b) = drop (nb (read_pos b)) (data b) ++ take (nb (j - margin)) (data b).
Proof using All.
  intros. pose proof Hb as [? ? ? ? ? ? _]. unfold ring, from.
  assert (length (drop (nb (read_pos b)) (data b)) = nb margin) as Hl
    by (rewrite length_drop, length_data, bytes_sub by (done || lia); done).
  rewrite take_app_ge; rewrite Hl; [|apply bytes_mono; lia].
  rewrite <- bytes_sub, take_take by lia. do 2 f_equal.
  pose proof (bytes_mono es (j - margin) (read_pos b)). lia.
Qed.

Lemma spec_out : take (nb k) (content b) = take (nb k) (ring b).
Proof using All.
  pose proof Hb as [? ? ? ? ? ? _]. unfold content. rewrite take_take. f_equal.
  pose proof (bytes_mono es k (avail b)). lia.
Qed.

(** Where the caller finds the bytes after the call. *)
Definition delivered (r : ReadResult) : list Z :=
  match rr_ptr r, rr_self r, rr_data r with
  | None, _, Some mem => take (nb k) mem
  | Some NullPtr, _, _ => []
  | Some (InBuffer off), Some b', _ => take (nb k) (drop (Z.to_nat off) (data b'))
  | Some InData, _, Some mem => take (nb k) mem
  | _, _, _ => []
  end.

Lemma read_copied :
  margin < k →
  wp (d ← memcpy dst 0 (data b) (nb (read_pos b)) (nb margin);
      memcpy d (nb margin) (data b) 0 (nb (k - margin)))
     (λ d, take (nb k) d = take (nb k) (ring b) ∧ drop (nb k) d = drop (nb k) dst).
Proof using All.
  intros Hk. pose proof (avail_bounds b Hb). pose proof (length_data b Hb) as Hlen.
  pose proof Hb as [? ? ? ? ? ? _].
  assert (nb (read_pos b) + nb margin = nb ec)%nat as Hm
    by (rewrite <- bytes_add by lia; f_equal; lia).
  assert (nb k = nb margin + nb (k - margin))%nat as Hkm
    by (rewrite <- bytes_add by lia; f_equal; lia).
  assert (nb k ≤ length dst)%nat.
  { pose proof (bytes_mono es k count). unfold bytes in *. lia. }
  pose proof (bytes_mono es (k - margin) ec).
  apply wp_bind, wp_memcpy; [lia|lia|]. rewrite take_0, app_nil_l. simpl.
  rewrite (take_ge (drop _ (data b))) by len.
  set (d1 := drop _ (data b)).
  assert (length d1 = nb margin) as Hd1 by (unfold d1; len).
  apply wp_memcpy; [len|lia|]. rewrite drop_0.
  rewrite (take_app_length' d1) by done. rewrite ring_prefix_far by lia. fold d1.
  set (d2 := take _ (data b)).
  assert (length d2 = nb (k - margin)) as Hd2 by (unfold d2; len).
  rewrite take_app2, drop_app2 by lia. split; [done|].
  rewrite drop_app_ge, drop_drop by len. f_equal. len.
Qed.

Lemma read_near :
  k ≤ margin →
  wp (memcpy dst 0 (data b) (nb (read_pos b)) (nb k))
     (λ d, take (nb k) d = take (nb k) (ring b) ∧ drop (nb k) d = drop (nb k) dst).
Proof using All.
  intros Hk. pose proof (avail_bounds b Hb). pose proof (length_data b Hb) as Hlen.
  pose proof Hb as [? ? ? ? ? ? _].
  pose proof (bytes_add es (read_pos b) k).
  pose proof (bytes_mono es (read_pos b + k) ec).
  assert (nb k ≤ length dst)%nat.
  { pose proof (bytes_mono es k count). unfold bytes in *. lia. }
  apply wp_memcpy; [lia|lia|]. rewrite take_0, app_nil_l, ring_prefix_near by lia.
  rewrite take_app_length', drop_app_length' by len. done.
Qed.

Lemma read_run :
  wp (WebRtc_ReadBuffer (Some b) ptr (Some dst) count)
     (λ r, rr_count r = k ∧ rr_self r = fst (WebRtc_MoveReadPtr (Some b) k) ∧
           delivered r = take (nb k) (content b) ∧
           (ptr = false → ∃ mem, rr_data r = Some mem ∧ drop (nb k) mem = drop (nb k) dst)).
Proof using All.
  pose proof (avail_bounds b Hb). pose proof Hb as [? ? ? ? ? ? _].
  destruct (move_moved b Hb k) as (b' & Hmv & Hm). pose proof Hm as (_ & _ & _ & Hd & _).
  rewrite spec_out. unfold WebRtc_ReadBuffer, GetBufferReadRegions.
  rewrite available_read_wf, if_min, (u64_id margin) by (done || lia).
  destruct (Z.ltb_spec margin k) as [Hlt|Hge]; simpl.
  - pose proof (read_copied Hlt) as Hcp. unfold bytes in Hcp.
    rewrite (u64_id (k - margin)), !(bytes_u64 b Hb), s32_id by (unfold int32; lia).
    destruct (Z.ltb_spec 0 ((k - margin) * es)); [|nia]. rewrite Hmv.
    apply wp_bind, wp_bind. destruct (memcpy dst _ _ _ _) as [d1|]; [|done]. simpl in *.
    apply wp_bind. eapply wp_mono; [exact Hcp|]. intros d [H1 H2]. simpl.
    split_and!; try done; [|by eauto]. unfold delivered; simpl.
    destruct ptr; [|done]. destruct (Z.eqb_spec k 0); [lia|done].
  - rewrite !(bytes_u64 b Hb), s32_id by (unfold int32; lia). rewrite Hmv.
    destruct ptr; simpl.
    + split_and!; try done. unfold delivered; simpl. rewrite Hd.
      destruct (Z.eqb_spec k 0) as [->|]; [done|]. by rewrite ring_prefix_near by lia.
    + pose proof (read_near Hge) as Hcp. unfold bytes in Hcp.
      apply wp_bind, wp_bind. eapply wp_mono; [exact Hcp|]. intros d [H1 H2]. simpl.
      split_and!; try done. by eauto.
Qed.
End read.

(** Writing. On a well-formed buffer a write of [count] elements whose
    source holds them runs without undefined behaviour, keeps the invariant,
    accepts exactly [min count free] elements, and appends those bytes to the
    readable content, overwriting the oldest of the consumed bytes. *)
Theorem WriteBuffer_refines (b : RingBuffer) (src : list Z) (count : Z) :
  rb_wf b → 0 ≤ count → count * element_size b ≤ Z.of_nat (length src) →
  ∃ b' k, WebRtc_WriteBuffer (Some b) (Some src) count = Some (Some b', k) ∧
    rb_wf b' ∧ element_size b' = element_size b ∧
    element_count b' = element_count b ∧
    (absq b', k) = Spec.write (element_size b) (absq b) src count.
Proof.
  intros Hb Hc Hs. pose proof (write_written b Hb src count Hc Hs) as H.
  apply wp_exists in H as ([b0 k] & Hrun & -> & H).
  apply wp_exists in H as (b' & -> & Hwf & Hes & Hec & Hav & Hring).
  eexists b', _. split_and!; try done.
  by apply written_absq.
Qed.

Definition demo_buffer : RingBuffer :=
  mkRingBuffer 2 1 3 2 DIFF_WRAP [10; 11; 12; 13; 14; 15].

Lemma demo_buffer_wf : rb_wf demo_buffer.
Proof. constructor; simpl; lia. Qed.

Lemma WriteBuffer_refines_witness :
  ∃ b' k, WebRtc_WriteBuffer (Some demo_buffer) (Some [1; 2; 3; 4]) 2 = Some (Some b', k) ∧
    rb_wf b' ∧ element_size b' = 2 ∧ element_count b' = 3 ∧
    (absq b', k) = Spec.write 2 (absq demo_buffer) [1; 2; 3; 4] 2.
Proof.
  apply (WriteBuffer_refines demo_buffer [1; 2; 3; 4] 2 demo_buffer_wf); simpl; lia.
Defined.

(** Reading. A read of [count] elements into memory that can hold them runs
    without undefined behaviour, keeps the invariant, returns
    [min count readable], and the bytes the caller finds, in its own memory or
    behind the pointer it gets, are the oldest readable ones; they are consumed
    and nothing else of the caller's memory changes. *)
Theorem ReadBuffer_refines (b : RingBuffer) (ptr : bool) (dst : list Z) (count : Z) :
  rb_wf b → 0 ≤ count → count * element_size b ≤ Z.of_nat (length dst) →
  ∃ r b', WebRtc_ReadBuffer (Some b) ptr (Some dst) count = Some r ∧
    rr_self r = Some b' ∧ rb_wf b' ∧ element_size b' = element_size b ∧
    element_count b' = element_count b ∧
    (delivered b count r, absq b', rr_count r) = Spec.read (element_size b) (absq b) count ∧
    (ptr = false → ∃ mem, rr_data r = Some mem ∧
       drop (bytes (element_size b) (rr_count r)) mem
       = drop (bytes (element_size b) (rr_count r)) dst).
Proof.
  intros Hb Hc Hd. pose proof (read_run b Hb dst count ptr Hc Hd) as H.
  apply wp_exists in H as (r & Hrun & Hk & Hself & Hdel & Hrest).
  set (k := Z.min (avail b) count) in *.
  destruct (move_moved b Hb k) as (b' & Hmv & Hm). rewrite Hmv in Hself. simpl in Hself.
  pose proof (moved_absq b Hb k b' Hm) as Habs. destruct Hm as (? & ? & ? & _).
  exists r, b'. split_and!; try done.
  - unfold Spec.read. cbn [absq Spec.q_content]. rewrite elements_content by done.
    fold k. by rewrite <- Habs, Hk, Hdel.
  - by rewrite Hk.
Qed.

Lemma ReadBuffer_refines_witness :
  ∃ r b', WebRtc_ReadBuffer (Some demo_buffer) true (Some [0; 0; 0; 0]) 2 = Some r ∧
    rr_self r = Some b' ∧ rb_wf b' ∧ element_size b' = 2 ∧ element_count b' = 3 ∧
    (delivered demo_buffer 2 r, absq b', rr_count r) = Spec.read 2 (absq demo_buffer) 2 ∧
    (true = false → ∃ mem, rr_data r = Some mem ∧
       drop (bytes 2 (rr_count r)) mem = drop (bytes 2 (rr_count r)) [0; 0; 0; 0]).
Proof.
  apply (ReadBuffer_refines demo_buffer true [0; 0; 0; 0] 2 demo_buffer_wf); simpl; lia.
Defined.

(** Moving the read position. The request is clamped to the readable and to
    the free elements; moving forwards drops the oldest readable bytes, moving
    backwards makes the most recently consumed bytes readable again, and the
    invariant is kept. *)
Theorem MoveReadPtr_refines (b : RingBuffer) (count : Z) :
  rb_wf b →
  ∃ b' c, WebRtc_MoveReadPtr (Some b) count = (Some b', c) ∧ rb_wf b' ∧
    element_size b' = element_size b ∧ element_count b' = element_count b ∧
    (absq b', c) = Spec.move (element_size b) (absq b) count.
Proof.
  intros Hb. destruct (move_moved b Hb count) as (b' & Hmv & Hm).
  eexists b', _. split; [done|]. pose proof Hm as (? & ? & ? & _).
  split_and!; try done. by apply moved_absq.
Qed.

Lemma MoveReadPtr_refines_witness :
  ∃ b' c, WebRtc_MoveReadPtr (Some demo_buffer) (-1) = (Some b', c) ∧ rb_wf b' ∧
    element_size b' = 2 ∧ element_count b' = 3 ∧
    (absq b', c) = Spec.move 2 (absq demo_buffer) (-1).
Proof. apply (MoveReadPtr_refines demo_buffer (-1) demo_buffer_wf). Defined.

(** ** Creation *)

(** Creation. With an allocator that returns a block of the requested size,
    WebRtc_CreateBuffer returns NULL exactly when an argument is zero or an
    allocation fails, and otherwise an empty well-formed buffer of the requested
    geometry whose whole capacity is free. *)
Theorem CreateBuffer_correct (malloc_self : bool) (malloc : Z → option (list Z))
    (count size : Z) :
  (∀ n blk, 0 ≤ n → malloc n = Some blk → Z.of_nat (length blk) = n) →
  0 ≤ count ≤ 1073741823 → 0 ≤ size → count * size < 18446744073709551616 →
  wp (WebRtc_CreateBuffer malloc_self malloc count size) (λ r,
    (r = None ↔ count = 0 ∨ size = 0 ∨ malloc_self = false ∨ malloc (count * size) = None) ∧
    ∀ b, r = Some b → rb_wf b ∧ element_count b = count ∧ element_size b = size ∧
      content b = [] ∧ history b = replicate (bytes size count) 0).
Proof.
  intros Hm Hc Hs Hcs. unfold WebRtc_CreateBuffer.
  rewrite u64_id by nia.
  destruct (Z.eqb_spec count 0); [simpl; split; [naive_solver|done]|].
  destruct (Z.eqb_spec size 0); [simpl; split; [naive_solver|done]|].
  destruct malloc_self; [|simpl; split; [naive_solver|done]]. simpl.
  destruct (malloc (count * size)) as [blk|] eqn:E; [|simpl; split; [naive_solver|done]].
  apply Hm in E as Hlen; [|nia]. apply wp_bind. unfold WebRtc_InitBuffer. simpl.
  rewrite u64_id by nia. apply wp_bind, wp_memset; [lia|]. simpl.
  assert (drop (Z.to_nat (count * size)) blk = []) as -> by (apply drop_ge; lia).
  rewrite app_nil_r. split; [naive_solver|]. intros b [= <-].
  assert (Hz : 0 ≤ count * size) by nia. split_and!; try done.
  - constructor; simpl; try lia. rewrite length_replicate. lia.
  - unfold history, ring, from; simpl. by rewrite app_nil_r.
Qed.

Lemma CreateBuffer_correct_witness :
  wp (WebRtc_CreateBuffer true (λ n, Some (replicate (Z.to_nat n) 85)) 3 2) (λ r,
    (r = None ↔ 3 = 0 ∨ 2 = 0 ∨ true = false ∨
       Some (replicate (Z.to_nat (3 * 2)) 85) = None) ∧
    ∀ b, r = Some b → rb_wf b ∧ element_count b = 3 ∧ element_size b = 2 ∧
      content b = [] ∧ history b = replicate (bytes 2 3) 0).
Proof.
  apply (CreateBuffer_correct true (λ n, Some (replicate (Z.to_nat n) 85)) 3 2); [|lia..].
  intros n blk Hn [= <-]. rewrite length_replicate. lia.
Defined.

(** ** Sequences of operations *)

Inductive op :=
  | OpWrite (src : list Z) (count : Z)
  | OpRead (ptr : bool) (dst : list Z) (count : Z)
  | OpMove (count : Z).

(** The caller's side of the contract: buffers as large as the request. *)
Definition op_ok (es : Z) (o : op) : Prop :=
  match o with
  | OpWrite src count => 0 ≤ count ∧ count * es ≤ Z.of_nat (length src)
  | OpRead _ dst count => 0 ≤ count ∧ count * es ≤ Z.of_nat (length dst)
  | OpMove _ => True
  end.

(** One call with what the caller observes: returned count and bytes read. *)
Definition call (b : RingBuffer) (o : op) : option (RingBuffer * (Z * list Z)) :=
  match o with
  | OpWrite src count =>
      '(b', n) ← WebRtc_WriteBuffer (Some b) (Some src) count;
      b' ← b'; Some (b', (n, []))
  | OpRead ptr dst count =>
      r ← WebRtc_ReadBuffer (Some b) ptr (Some dst) count;
      b' ← rr_self r; Some (b', (rr_count r, delivered b count r))
  | OpMove count =>
      let '(b', n) := WebRtc_MoveReadPtr (Some b) count in
      b' ← b'; Some (b', (n, []))
  end.

Definition spec_call (es : Z) (q : Spec.queue) (o : op) : Spec.queue * (Z * list Z) :=
  match o with
  | OpWrite src count => let '(q', n) := Spec.write es q src count in (q', (n, []))
  | OpRead _ _ count => let '(out, q', n) := Spec.read es q count in (q', (n, out))
  | OpMove count => let '(q', n) := Spec.move es q count in (q', (n, []))
  end.

Fixpoint calls (b : RingBuffer) (os : list op) : option (RingBuffer * list (Z * list Z)) :=
  match os with
  | [] => Some (b, [])
  | o :: os => '(b, x) ← call b o; '(b, xs) ← calls b os; Some (b, x :: xs)
  end.

Fixpoint spec_calls (es : Z) (q : Spec.queue) (os : list op)
  : Spec.queue * list (Z * list Z) :=
  match os with
  | [] => (q, [])
  | o :: os => let '(q, x) := spec_call es q o in
               let '(q, xs) := spec_calls es q os in (q, x :: xs)
  end.

Lemma call_simulates b o :
  rb_wf b → op_ok (element_size b) o →
  wp (call b o) (λ '(b', x), rb_wf b' ∧ element_size b' = element_size b ∧
    (absq b', x) = spec_call (element_size b) (absq b) o).
Proof.
  intros Hb Ho. destruct o as [src count|ptr dst count|count]; unfold op_ok, call, spec_call in *.
  - destruct Ho as [Hc Hs]. pose proof (write_written b Hb src count Hc Hs) as H.
    apply wp_bind. eapply wp_mono; [exact H|]. intros [b' n] [-> Hw].
    apply wp_exists in Hw as (b'' & -> & Hw).
    cbn [mbind option_bind wp].
    pose proof Hw as (? & ? & _). split_and!; [done..|].
    by rewrite <- (written_absq b Hb src count Hc Hs b'' Hw).
  - destruct Ho as [Hc Hd]. pose proof (read_run b Hb dst count ptr Hc Hd) as H.
    apply wp_bind. eapply wp_mono; [exact H|]. intros r (Hk & Hself & Hdel & _).
    destruct (move_moved b Hb (Z.min (avail b) count)) as (b' & Hmv & Hm).
    rewrite Hself, Hmv. cbn [mbind option_bind wp]. pose proof Hm as (? & ? & _). split_and!; [done..|].
    unfold Spec.read. cbn [absq Spec.q_content]. rewrite elements_content by done.
    by rewrite <- (moved_absq b Hb _ b' Hm), Hk, Hdel.
  - destruct (move_moved b Hb count) as (b' & -> & Hm).
    cbn [mbind option_bind wp].
    pose proof Hm as (? & ? & _). split_and!; [done..|].
    by rewrite <- (moved_absq b Hb count b' Hm).
Qed.

Lemma calls_simulate os b :
  rb_wf b → Forall (op_ok (element_size b)) os →
  wp (calls b os) (λ '(b', xs), rb_wf b' ∧ element_size b' = element_size b ∧
    (absq b', xs) = spec_calls (element_size b) (absq b) os).
Proof.
  revert b. induction os as [|o os IH]; intros b Hb Hos; simpl; [done|].
  apply Forall_cons_1 in Hos as [Ho Hos].
  apply wp_bind. eapply wp_mono; [by apply call_simulates|].
  intros [b1 x] (Hb1 & He1 & Hx). simpl. rewrite <- Hx.
  apply wp_bind. eapply wp_mono; [apply IH; [done|by rewrite He1]|].
  intros [b2 xs] (Hb2 & He2 & Hxs). simpl. rewrite He1 in *. rewrite <- Hxs. done.
Qed.

Lemma fresh_simulates (count size : Z) (blk : list Z) (os : list op) :
  0 < count ≤ 1073741823 → 0 < size → count * size < 18446744073709551616 →
  Z.of_nat (length blk) = count * size → Forall (op_ok size) os →
  wp (b ← WebRtc_CreateBuffer true (λ _, Some blk) count size; b ← b; calls b os)
     (λ '(b', xs), rb_wf b' ∧
        (absq b', xs) = spec_calls size (Spec.mkQueue [] (replicate (bytes size count) 0)) os).
Proof.
  intros Hc Hs Hcs Hblk Hos. unfold WebRtc_CreateBuffer.
  destruct (Z.eqb_spec count 0); [lia|]. destruct (Z.eqb_spec size 0); [lia|]. simpl.
  unfold WebRtc_InitBuffer. simpl. rewrite u64_id by nia.
  apply wp_bind, wp_bind, wp_bind, wp_memset; [lia|]. simpl.
  rewrite drop_ge, app_nil_r by lia. set (b0 := mkRingBuffer _ _ _ _ _ _).
  assert (rb_wf b0) as Hb0.
  { constructor; simpl; try lia. rewrite length_replicate. lia. }
  replace (Spec.mkQueue _ _) with (absq b0).
  - eapply wp_mono; [by apply (calls_simulate os b0)|]. intros [b' xs]. naive_solver.
  - unfold absq, content, history, ring, from; simpl. by rewrite app_nil_r.
Qed.

(** C13: refinement of whole runs. Whatever sequence of writes, reads (copying or
    by pointer) and moves is run on a freshly created buffer of up to 2^30 - 1
    elements, the calls never make an access out of range, the invariant holds at the end, and the counts and
    bytes the caller observes are those of the abstract queue. *)
Theorem ring_buffer_refines_queue (count size : Z) (blk : list Z) (os : list op) :
  0 < count ≤ 1073741823 → 0 < size → count * size < 18446744073709551616 →
  Z.of_nat (length blk) = count * size → Forall (op_ok size) os →
  wp (b ← WebRtc_CreateBuffer true (λ _, Some blk) count size; b ← b; calls b os)
     (λ '(b', xs), rb_wf b' ∧
        (absq b', xs) = spec_calls size (Spec.mkQueue [] (replicate (bytes size count) 0)) os).
Proof. apply fresh_simulates. Qed.

Lemma ring_buffer_refines_queue_witness :
  wp (b ← WebRtc_CreateBuffer true (λ _, Some [9; 9; 9; 9]) 2 2; b ← b;
      calls b [OpWrite [1; 2; 3; 4] 2; OpRead false [0; 0] 1; OpMove (-1); OpMove 2])
     (λ '(b', xs), rb_wf b' ∧
        (absq b', xs) = spec_calls 2 (Spec.mkQueue [] (replicate (bytes 2 2) 0))
          [OpWrite [1; 2; 3; 4] 2; OpRead false [0; 0] 1; OpMove (-1); OpMove 2]).
Proof.
  apply (ring_buffer_refines_queue 2 2 [9; 9; 9; 9]); try (simpl; lia).
  repeat constructor; simpl; lia.
Defined.

(** The bytes accepted by the writes of a run, in order, and those delivered. *)
Definition accepted (es : Z) (o : op) (x : Z * list Z) : list Z :=
  match o with OpWrite src _ => take (bytes es (fst x)) src | _ => [] end.

Definition is_fifo (o : op) : bool :=
  match o with OpMove _ => false | _ => true end.

Lemma spec_read_fifo es q count out q' n :
  0 < es → 0 ≤ count → Spec.read es q count = (out, q', n) →
  out ++ Spec.q_content q' = Spec.q_content q.
Proof.
  intros Hes Hc [= <- <- <-]. unfold Spec.move, Spec.elements.
  set (k := Z.min _ count). assert (0 ≤ k).
  { pose proof (Z.div_pos (Z.of_nat (length (Spec.q_content q))) es). lia. }
  assert (0 ≤ Z.of_nat (length (Spec.q_history q)) / es) by (apply Z.div_pos; lia).
  rewrite (Z.min_r _ k), Z.max_r by lia. destruct (Z.leb_spec 0 k); [|lia].
  apply take_drop.
Qed.

Lemma spec_fifo es q os q' xs :
  0 < es → Forall (op_ok es) os → Forall is_fifo os → spec_calls es q os = (q', xs) →
  concat (map snd xs) ++ Spec.q_content q'
  = Spec.q_content q ++ concat (zip_with (accepted es) os xs).
Proof.
  intros Hes. revert q xs. induction os as [|o os IH]; intros q xs Hok Hos; simpl.
  { intros [= -> <-]. simpl. by rewrite app_nil_r. }
  apply Forall_cons_1 in Hos as [Ho Hos]. apply Forall_cons_1 in Hok as [Hk Hok].
  destruct (spec_call es q o) as [q1 x] eqn:E1.
  destruct (spec_calls es q1 os) as [q2 ys] eqn:E2. intros [= -> <-].
  apply IH in E2; [|done..]. simpl. rewrite <- app_assoc, E2.
  destruct o as [src count|ptr dst count|count]; [| |done]; simpl in E1.
  - injection E1 as <- <-. simpl. by rewrite <- app_assoc.
  - destruct (Spec.read es q count) as [[out q0] n] eqn:E. injection E1 as <- <-.
    simpl. rewrite app_assoc. f_equal. eapply spec_read_fifo; [done| |done]. apply Hk.
Qed.

(** First in, first out, nothing lost. In any run of writes and reads from a
    fresh buffer, the bytes delivered so far followed by the bytes still
    readable are exactly the bytes the writes accepted, in order. *)
Theorem ring_buffer_fifo (count size : Z) (blk : list Z) (os : list op) :
  0 < count ≤ 1073741823 → 0 < size → count * size < 18446744073709551616 →
  Z.of_nat (length blk) = count * size → Forall (op_ok size) os → Forall is_fifo os →
  wp (b ← WebRtc_CreateBuffer true (λ _, Some blk) count size; b ← b; calls b os)
     (λ '(b', xs), concat (map snd xs) ++ content b'
                   = concat (zip_with (accepted size) os xs)).
Proof.
  intros Hc Hs Hcs Hblk Hos Hf. eapply wp_mono; [by apply fresh_simulates|].
  intros [b' xs] [_ H]. symmetry in H. apply spec_fifo in H; done.
Qed.

Lemma ring_buffer_fifo_witness :
  wp (b ← WebRtc_CreateBuffer true (λ _, Some [9; 9; 9; 9]) 2 2; b ← b;
      calls b [OpWrite [1; 2; 3; 4] 2; OpRead false [0; 0] 1; OpWrite [5; 6; 7; 8] 2])
     (λ '(b', xs), concat (map snd xs) ++ content b'
        = concat (zip_with (accepted 2)
            [OpWrite [1; 2; 3; 4] 2; OpRead false [0; 0] 1; OpWrite [5; 6; 7; 8] 2] xs)).
Proof.
  apply (ring_buffer_fifo 2 2 [9; 9; 9; 9]); try (simpl; lia).
  - repeat constructor; simpl; lia.
  - repeat constructor.
Defined.

End RingBuffer.
