(* ===== verification/SplInl.v ===== *)
(** * Signal-processing integer primitives
    (common_audio/signal_processing: include/spl_inl.h, spl_inl.c,
    division_operations.c)

    Counting leading zeros by multiplication and table look-up, bit
    normalisation, saturating addition and subtraction, and the guarded
    divisions. The functions take and return integers of the C type named in
    the source; the theorems state what they compute without machine
    arithmetic. *)

From S2P Require Import Prelude.

Module SplInl.

Definition kWebRtcSpl_CountLeadingZeros32_Table : list Z :=
  [32; 8;  17; -1; -1; 14; -1; -1; -1; 20; -1; -1; -1; 28; -1; 18;
   -1; -1; -1; -1; -1; -1; -1; -1; -1; -1; -1; -1; 0;  26; 25; 24;
   4;  11; 23; 31; 3;  7;  10; 16; 22; 30; -1; -1; 2;  6;  13; 9;
   -1; 15; -1; 21; -1; 29; 19; -1; -1; -1; -1; -1; 1;  27; 5;  12].

(** One step of [n |= n >> k]. *)
Definition smear (k n : Z) : Z := Z.lor n (Z.shiftr n k).

Definition WebRtcSpl_CountLeadingZeros32_NotBuiltin (n : Z) : option Z :=
  let n := smear 1 n in
  let n := smear 2 n in
  let n := smear 4 n in
  let n := smear 8 n in
  let n := smear 16 n in
  kWebRtcSpl_CountLeadingZeros32_Table !! Z.to_nat (Z.shiftr (u32 (n * 0x8c0b2891)) 26).

Definition WebRtcSpl_CountLeadingZeros64_NotBuiltin (n : Z) : option Z :=
  let leading_zeros := if Z.shiftr n 32 =? 0 then 32 else 0 in
  z ← WebRtcSpl_CountLeadingZeros32_NotBuiltin (u32 (Z.shiftr n (32 - leading_zeros)));
  Some (leading_zeros + z).

(** [__builtin_clz], undefined at 0. *)
Definition builtin_clz (n : Z) : Z := 31 - Z.log2 n.

Definition WebRtcSpl_CountLeadingZeros32 (n : Z) : Z :=
  if n =? 0 then 32 else builtin_clz n.

Definition WebRtcSpl_SatW32ToW16 (value32 : Z) : Z :=
  let out16 := s16 value32 in
  if 32767 <? value32 then 32767
  else if value32 <? -32768 then -32768
  else out16.

Definition WebRtcSpl_AddSatW32 (a b : Z) : Z :=
  let sum := s32 (u32 (u32 a + u32 b)) in
  if eqb (a <? 0) (b <? 0) && negb (eqb (a <? 0) (sum <? 0))
  then (if sum <? 0 then 2147483647 else -2147483648)
  else sum.

Definition WebRtcSpl_SubSatW32 (a b : Z) : Z :=
  let diff := s32 (u32 (u32 a - u32 b)) in
  if negb (eqb (a <? 0) (b <? 0)) && negb (eqb (a <? 0) (diff <? 0))
  then (if diff <? 0 then 2147483647 else -2147483648)
  else diff.

Definition WebRtcSpl_AddSatW16 (a b : Z) : Z := WebRtcSpl_SatW32ToW16 (a +i b).
Definition WebRtcSpl_SubSatW16 (a b : Z) : Z := WebRtcSpl_SatW32ToW16 (a -i b).

Definition WebRtcSpl_GetSizeInBits (n : Z) : Z :=
  s16 (32 - WebRtcSpl_CountLeadingZeros32 n).

Definition WebRtcSpl_NormW32 (a : Z) : Z :=
  if a =? 0 then 0
  else s16 (WebRtcSpl_CountLeadingZeros32 (u32 (if a <? 0 then Z.lnot a else a)) - 1).

Definition WebRtcSpl_NormU32 (a : Z) : Z :=
  if a =? 0 then 0 else s16 (WebRtcSpl_CountLeadingZeros32 a).

Definition WebRtcSpl_NormW16 (a : Z) : Z :=
  if a =? 0 then 0
  else s16 (WebRtcSpl_CountLeadingZeros32 (u32 (if a <? 0 then Z.lnot a else a)) - 17).

Definition WebRtc_MulAccumW16 (a b c : Z) : Z := a *i b +i c.

(** ** division_operations.c *)

Definition WebRtcSpl_DivU32U16 (num den : Z) : Z :=
  if negb (den =? 0) then u32 (num / den) else 0xFFFFFFFF.

Definition WebRtcSpl_DivW32W16 (num den : Z) : Z :=
  if negb (den =? 0) then s32 (Z.quot num den) else 0x7FFFFFFF.

Definition WebRtcSpl_DivW32W16ResW16 (num den : Z) : Z :=
  if negb (den =? 0) then s16 (s32 (Z.quot num den)) else 0x7FFF.

(** One iteration of the long division: [div], [L_num]. *)
Definition q31_step (L_den : Z) (s : Z * Z) : Z * Z :=
  let '(div, L_num) := s in
  let div := div <<i 1 in
  let L_num := L_num <<i 1 in
  if L_den <=? L_num then (div +i 1, L_num -i L_den) else (div, L_num).

Definition WebRtcSpl_DivResultInQ31 (num den : Z) : Z :=
  if num =? 0 then 0
  else
    let '(change_sign, L_num) := if num <? 0 then (1, -i num) else (0, num) in
    let '(change_sign, L_den) :=
      if den <? 0 then (change_sign + 1, -i den) else (change_sign, den) in
    let '(div, _) := Nat.iter 31 (q31_step L_den) (0, L_num) in
    if change_sign =? 1 then -i div else div.

(** The high and low halves of a 32-bit value: [x == (hi << 16) + (low << 1)]. *)
Definition hi_low (x : Z) : Z * Z :=
  let hi := s16 (x >>i 16) in
  (hi, s16 ((x -i (hi <<i 16)) >>i 1)).

Definition WebRtcSpl_DivW32HiLow (num den_hi den_low : Z) : Z :=
  let approx := s16 (WebRtcSpl_DivW32W16 0x1FFFFFFF den_hi) in
  let tmpW32 := (den_hi *i approx <<i 1) +i ((den_low *i approx >>i 15) <<i 1) in
  let tmpW32 := s32 (0x7fffffff - tmpW32) in
  let '(tmp_hi, tmp_low) := hi_low tmpW32 in
  let tmpW32 := (tmp_hi *i approx +i (tmp_low *i approx >>i 15)) <<i 1 in
  let '(tmp_hi, tmp_low) := hi_low tmpW32 in
  let '(num_hi, num_low) := hi_low num in
  let tmpW32 := num_hi *i tmp_hi +i (num_hi *i tmp_low >>i 15)
                +i (num_low *i tmp_hi >>i 15) in
  tmpW32 <<i 3.

(** ** Leading zeros *)

(** [m] has at bit [i] the disjunction of the [k] bits of [n] from [i] on. *)
Definition smeared (k n m : Z) : Prop :=
  0 ≤ m ∧ ∀ i, 0 ≤ i → Z.testbit m i = true ↔ ∃ j, 0 ≤ j < k ∧ Z.testbit n (i + j) = true.

Lemma smeared_start n : 0 ≤ n → smeared 1 n n.
Proof.
  split; [done|]. intros i Hi. split.
  - intros H'. exists 0. by rewrite Z.add_0_r.
  - intros (j & Hj & H'). by replace (i + j) with i in H' by lia.
Qed.

Lemma smeared_double k n m : 0 ≤ k → smeared k n m → smeared (k + k) n (smear k m).
Proof.
  intros Hk [Hm H]. unfold smear. split; [by apply Z.lor_nonneg, conj, Z.shiftr_nonneg|].
  intros i Hi. rewrite Z.lor_spec, Z.shiftr_spec, orb_true_iff by lia.
  rewrite !H by lia. split.
  - intros [(j & ? & ?)|(j & ? & Hj)]; [exists j; split; [lia|done]|].
    exists (j + k). split; [lia|]. by rewrite (Z.add_comm j), Z.add_assoc.
  - intros (j & ? & Hj). destruct (Z_lt_le_dec j k); [left; exists j; split; [lia|done]|].
    right. exists (j - k). split; [lia|]. by replace (i + k + (j - k)) with (i + j) by lia.
Qed.

Lemma smear_ones n : 0 < n < 4294967296 →
  smear 16 (smear 8 (smear 4 (smear 2 (smear 1 n)))) = Z.ones (Z.log2 n + 1).
Proof.
  intros Hn. pose proof (Z.log2_nonneg n).
  assert (Z.log2 n < 32) by (apply Z.log2_lt_pow2; lia).
  assert (smeared 32 n (smear 16 (smear 8 (smear 4 (smear 2 (smear 1 n)))))) as [_ H'].
  { apply (smeared_double 16), (smeared_double 8), (smeared_double 4),
      (smeared_double 2), (smeared_double 1); try done.
    apply smeared_start. lia. }
  apply Z.bits_inj'. intros i Hi. rewrite Z.testbit_ones_nonneg by lia.
  apply eq_true_iff_eq. rewrite H', Z.ltb_lt by done. split.
  - intros (j & Hj & Hb). destruct (Z_lt_le_dec i (Z.log2 n + 1)); [done|].
    rewrite Z.bits_above_log2 in Hb by lia. done.
  - intros Hi'. exists (Z.log2 n - i). split; [lia|].
    replace (i + (Z.log2 n - i)) with (Z.log2 n) by lia. apply Z.bit_log2. lia.
Qed.

Lemma clz_table_ones :
  Forall (λ k : nat, kWebRtcSpl_CountLeadingZeros32_Table
            !! Z.to_nat (Z.shiftr (u32 (Z.ones (Z.of_nat k + 1) * 0x8c0b2891)) 26)
          = Some (31 - Z.of_nat k)) (seq 0 32).
Proof. repeat constructor. Qed.

(** The portable leading-zero count. For every 32-bit [n] the multiply and
    table look-up stays inside the table and returns the number of leading zero
    bits, the value of the compiler builtin used elsewhere. *)
Theorem CountLeadingZeros32_NotBuiltin_correct (n : Z) :
  uint32 n →
  WebRtcSpl_CountLeadingZeros32_NotBuiltin n = Some (WebRtcSpl_CountLeadingZeros32 n).
Proof.
  intros Hn. unfold WebRtcSpl_CountLeadingZeros32.
  destruct (Z.eqb_spec n 0) as [->|]; [reflexivity|].
  unfold WebRtcSpl_CountLeadingZeros32_NotBuiltin. unfold uint32 in Hn.
  rewrite smear_ones by lia. pose proof (Z.log2_nonneg n).
  assert (Z.log2 n < 32) by (apply Z.log2_lt_pow2; lia).
  pose proof clz_table_ones as H'. rewrite Forall_forall in H'.
  specialize (H' (Z.to_nat (Z.log2 n))). rewrite Z2Nat.id in H' by done.
  apply H', in_seq. lia.
Qed.

Lemma CountLeadingZeros32_NotBuiltin_correct_witness :
  WebRtcSpl_CountLeadingZeros32_NotBuiltin 0x00012345 = Some 15.
Proof.
  rewrite (CountLeadingZeros32_NotBuiltin_correct 0x00012345); [reflexivity|].
  unfold uint32. lia.
Defined.

(** ** Normalisation *)

Lemma clz32_log2 m : 0 < m < 4294967296 → WebRtcSpl_CountLeadingZeros32 m = 31 - Z.log2 m.
Proof.
  intros. unfold WebRtcSpl_CountLeadingZeros32. by rewrite (proj2 (Z.eqb_neq m 0)) by lia.
Qed.

Lemma log2_small m k : 0 < m < 2 ^ k → 0 ≤ Z.log2 m < k.
Proof. intros. split; [apply Z.log2_nonneg|]. apply Z.log2_lt_pow2; lia. Qed.

(** The magnitude NormW32 normalises. *)
Definition norm_mag (a : Z) : Z := if a <? 0 then Z.lnot a else a.

Lemma NormW32_eq a : int32 a → a ≠ 0 →
  WebRtcSpl_NormW32 a = if norm_mag a =? 0 then 31 else 30 - Z.log2 (norm_mag a).
Proof.
  unfold int32. intros Ha H0. unfold WebRtcSpl_NormW32. fold (norm_mag a).
  rewrite (proj2 (Z.eqb_neq a 0)) by done.
  assert (0 ≤ norm_mag a < 2 ^ 31).
  { unfold norm_mag. destruct (Z.ltb_spec a 0); rewrite ?Z.lnot_eq_pred_opp; lia. }
  rewrite u32_id by (unfold uint32; lia).
  destruct (Z.eqb_spec (norm_mag a) 0) as [->|]; [reflexivity|].
  rewrite clz32_log2 by lia. pose proof (log2_small (norm_mag a) 31).
  rewrite s16_id; [lia|]. unfold int16. lia.
Qed.

(** Multiplying the powers of a normalisation: [2^(30-l)] fills [2^l] to [2^30]. *)
Lemma pow2_fill l : 0 ≤ l ≤ 30 → 2 ^ l * 2 ^ (30 - l) = 1073741824.
Proof.
  intros. rewrite <- Z.pow_add_r by lia. by replace (l + (30 - l)) with 30 by lia.
Qed.

(** NormW32 returns the largest left shift that keeps a non-zero 32-bit
    value in range: shifting by it does not overflow, shifting once more does. *)
Theorem NormW32_maximal (a : Z) :
  int32 a → a ≠ 0 →
  0 ≤ WebRtcSpl_NormW32 a ≤ 31 ∧ int32 (a * 2 ^ WebRtcSpl_NormW32 a) ∧
  ¬ int32 (a * 2 ^ (WebRtcSpl_NormW32 a + 1)).
Proof.
  intros Ha H0. rewrite NormW32_eq by done. unfold int32 in *.
  destruct (Z.eqb_spec (norm_mag a) 0) as [Hm|Hm].
  - assert (a = -1) as ->.
    { unfold norm_mag in Hm. destruct (Z.ltb_spec a 0); [|lia].
      rewrite Z.lnot_eq_pred_opp in Hm. lia. }
    simpl. lia.
  - assert (0 < norm_mag a < 2 ^ 31).
    { unfold norm_mag in *. destruct (Z.ltb_spec a 0);
        rewrite ?Z.lnot_eq_pred_opp in *; lia. }
    pose proof (log2_small (norm_mag a) 31 ltac:(lia)) as Hl.
    pose proof (Z.log2_spec (norm_mag a) ltac:(lia)) as Hs.
    set (l := Z.log2 (norm_mag a)) in *. pose proof (pow2_fill l ltac:(lia)).
    rewrite Z.pow_succ_r in Hs by lia. rewrite Z.pow_add_r by lia. change (2 ^ 1) with 2.
    assert (0 < 2 ^ (30 - l)) by (apply Z.pow_pos_nonneg; lia).
    unfold norm_mag in *. destruct (Z.ltb_spec a 0); rewrite ?Z.lnot_eq_pred_opp in *.
    + split; [lia|]. split; nia.
    + split; [lia|]. split; nia.
Qed.

Lemma NormW32_maximal_witness :
  0 ≤ WebRtcSpl_NormW32 (-70000) ≤ 31 ∧
  int32 (-70000 * 2 ^ WebRtcSpl_NormW32 (-70000)) ∧
  ¬ int32 (-70000 * 2 ^ (WebRtcSpl_NormW32 (-70000) + 1)).
Proof. apply (NormW32_maximal (-70000)); unfold int32; lia. Defined.

(** ** Saturation *)

Definition clamp (lo hi z : Z) : Z := Z.max lo (Z.min hi z).

Lemma SatW32ToW16_clamp z : WebRtcSpl_SatW32ToW16 z = clamp (-32768) 32767 z.
Proof.
  unfold WebRtcSpl_SatW32ToW16, clamp.
  destruct (Z.ltb_spec 32767 z); [lia|]. destruct (Z.ltb_spec z (-32768)); [lia|].
  rewrite s16_id; unfold int16; lia.
Qed.

Lemma wrap_add_u32 a b : s32 (u32 (u32 a + u32 b)) = s32 (a + b).
Proof.
  unfold s32, u32. f_equal. rewrite <- Zplus_mod.
  rewrite <- (Zplus_mod_idemp_l (_ mod _)), Zmod_mod, Zplus_mod_idemp_l. done.
Qed.

Lemma wrap_sub_u32 a b : s32 (u32 (u32 a - u32 b)) = s32 (a - b).
Proof.
  unfold s32, u32. f_equal. rewrite <- Zminus_mod.
  rewrite <- (Zplus_mod_idemp_l (_ mod _)), Zmod_mod, Zplus_mod_idemp_l. done.
Qed.

Ltac sat_cases :=
  repeat match goal with |- context [?a <? ?b] => destruct (Z.ltb_spec a b) end;
  simpl; clia.

(** The saturating 32-bit addition and subtraction return the exact result
    clamped to the int32 range, whatever the wrapped intermediate. *)
Theorem AddSub_SatW32_clamp (a b : Z) :
  int32 a → int32 b →
  WebRtcSpl_AddSatW32 a b = clamp (-2147483648) 2147483647 (a + b) ∧
  WebRtcSpl_SubSatW32 a b = clamp (-2147483648) 2147483647 (a - b).
Proof.
  intros Ha Hb. unfold WebRtcSpl_AddSatW32, WebRtcSpl_SubSatW32, clamp.
  pose proof (s32_range (a + b)). pose proof (s32_range (a - b)).
  rewrite wrap_add_u32, wrap_sub_u32. split.
  - assert (s32 (a + b) = a + b ∨ s32 (a + b) = a + b - 4294967296 ∧ 2147483647 < a + b
            ∨ s32 (a + b) = a + b + 4294967296 ∧ a + b < -2147483648)
      by (unfold s32; clia).
    sat_cases.
  - assert (s32 (a - b) = a - b ∨ s32 (a - b) = a - b - 4294967296 ∧ 2147483647 < a - b
            ∨ s32 (a - b) = a - b + 4294967296 ∧ a - b < -2147483648)
      by (unfold s32; clia).
    sat_cases.
Qed.

Lemma AddSub_SatW32_clamp_witness :
  WebRtcSpl_AddSatW32 2000000000 2000000000 = clamp (-2147483648) 2147483647 (2000000000 + 2000000000) ∧
  WebRtcSpl_SubSatW32 2000000000 2000000000 = clamp (-2147483648) 2147483647 (2000000000 - 2000000000).
Proof. apply (AddSub_SatW32_clamp 2000000000 2000000000); unfold int32; lia. Defined.

(** ** Division *)

(** The long division keeps [num * 2^i = div * den + L_num]. *)
Lemma q31_iter num den i :
  0 ≤ num < den → den ≤ 1073741824 → (i ≤ 31)%nat →
  let '(div, L_num) := Nat.iter i (q31_step den) (0, num) in
  num * 2 ^ Z.of_nat i = div * den + L_num ∧ 0 ≤ L_num < den ∧
  0 ≤ div < 2 ^ Z.of_nat i.
Proof.
  intros Hn Hd. induction i as [|i IH]; intros Hi; [simpl; lia|].
  specialize (IH ltac:(lia)). rewrite Nat.iter_succ.
  destruct (Nat.iter i (q31_step den) (0, num)) as [div L]. destruct IH as (Heq & HL & Hdiv).
  assert (2 ^ Z.of_nat i ≤ 2 ^ 30) by (apply Z.pow_le_mono_r; lia).
  unfold q31_step. rewrite Nat2Z.inj_succ, Z.pow_succ_r by lia.
  shift_const. rewrite (s32_id (div * 2)), (s32_id (L * 2)) by (unfold int32; lia).
  destruct (Z.leb_spec den (L * 2)).
  - rewrite !s32_id by (unfold int32; lia). split_and!; lia.
  - split_and!; lia.
Qed.

(** DivResultInQ31 is the exact truncated quotient in Q31 whenever the
    denominator is larger in magnitude than the numerator and at most 2^30. *)
Theorem DivResultInQ31_exact (num den : Z) :
  Z.abs num < Z.abs den ≤ 1073741824 →
  WebRtcSpl_DivResultInQ31 num den = Z.quot (num * 2 ^ 31) den.
Proof.
  intros H. unfold WebRtcSpl_DivResultInQ31.
  destruct (Z.eqb_spec num 0) as [->|H0]; [done|].
  assert (Hs : ∀ n d, 0 ≤ n < d → d ≤ 1073741824 →
     0 ≤ Z.quot (n * 2 ^ 31) d < 2 ^ 31 ∧
     fst (Nat.iter 31 (q31_step d) (0, n)) = Z.quot (n * 2 ^ 31) d).
  { intros n d Hn Hd. pose proof (q31_iter n d 31 Hn Hd ltac:(lia)) as Hi.
    destruct (Nat.iter 31 _ _) as [div L]. destruct Hi as (Heq & HL & Hdiv).
    change (2 ^ Z.of_nat 31) with (2 ^ 31) in *.
    rewrite Z.quot_div_nonneg by lia. cbn [fst].
    assert (n * 2 ^ 31 / d = div) as ->.
    { symmetry. apply Z.div_unique with L; lia. } lia. }
  destruct (Z.ltb_spec num 0), (Z.ltb_spec den 0);
    rewrite ?(s32_id (- num)), ?(s32_id (- den)) by (unfold int32; lia).
  - destruct (Hs (- num) (- den)) as [? E]; [lia..|].
    revert E. destruct (Nat.iter 31 _ _). cbn [fst]. intros ->.
    cbn [Z.eqb Z.add Pos.eqb Pos.add].
    by rewrite Z.mul_opp_l, Z.quot_opp_opp by lia.
  - destruct (Hs (- num) den) as [? E]; [lia..|].
    revert E. destruct (Nat.iter 31 _ _). cbn [fst]. intros ->.
    cbn [Z.eqb Z.add Pos.eqb Pos.add].
    rewrite s32_id by (unfold int32; lia). rewrite Z.mul_opp_l, Z.quot_opp_l by lia. lia.
  - destruct (Hs num (- den)) as [? E]; [lia..|].
    revert E. destruct (Nat.iter 31 _ _). cbn [fst]. intros ->.
    cbn [Z.eqb Z.add Pos.eqb Pos.add].
    rewrite s32_id by (unfold int32; lia). rewrite Z.quot_opp_r by lia. simpl. lia.
  - destruct (Hs num den) as [? E]; [lia..|].
    revert E. destruct (Nat.iter 31 _ _). cbn [fst]. by intros ->.
Qed.

Lemma DivResultInQ31_exact_witness :
  WebRtcSpl_DivResultInQ31 (-3) 7 = Z.quot (-3 * 2 ^ 31) 7.
Proof. apply (DivResultInQ31_exact (-3) 7). lia. Defined.

(** Beyond 2^30 the shifted numerator overflows: although the denominator
    is larger than the numerator, as the library header asks, the quotient of
    two adjacent large values comes out as zero instead of almost one. *)
Theorem DivResultInQ31_large_denominator :
  WebRtcSpl_DivResultInQ31 0x7FFFFFFE 0x7FFFFFFF = 0 ∧
  Z.quot (0x7FFFFFFE * 2 ^ 31) 0x7FFFFFFF = 0x7FFFFFFE.
Proof. split; vm_compute; reflexivity. Qed.

Lemma DivW32W16_bound num den : int32 num → den ≠ 0 → den ≠ -1 →
  WebRtcSpl_DivW32W16 num den = Z.quot num den ∧ Z.abs (Z.quot num den) ≤ Z.abs num.
Proof.
  intros Hn Hd Hm. unfold WebRtcSpl_DivW32W16. rewrite (proj2 (Z.eqb_neq den 0)) by done.
  assert (Z.abs (Z.quot num den) ≤ Z.abs num) as H.
  { rewrite <- Z.quot_abs by done. rewrite Z.quot_div_nonneg by lia.
    apply Z.div_le_upper_bound; nia. }
  split; [|done]. simpl. apply s32_id. unfold int32 in *.
  destruct (Z.eq_dec num (-2147483648)) as [->|]; [|lia].
  split; [lia|]. destruct (Z_lt_le_dec den 0).
  - rewrite <- (Z.opp_involutive den), Z.quot_opp_r by lia.
    change (-2147483648) with (Z.opp 2147483648). rewrite Z.quot_opp_l, Z.opp_involutive by lia.
    rewrite Z.quot_div_nonneg by lia. apply Z.div_le_upper_bound; nia.
  - pose proof (Z.quot_pos 2147483648 den). change (-2147483648) with (Z.opp 2147483648).
    rewrite Z.quot_opp_l by lia. lia.
Qed.

End SplInl.
