(* ===== verification/Energy.v ===== *)
(** * Energy of a vector
    (common_audio/signal_processing: get_scaling_square.c, energy.c)

    The number of right shifts that keeps a sum of squares inside 32 bits, and
    the scaled sum itself. The theorem states that the sum is exact and cannot
    overflow when no sample is the most negative value; [energy_min_overflows]
    shows what happens when one is. *)

From S2P Require Import Prelude SplInl.
Import SplInl.

Module Energy.

Definition scaling_max (vec : list Z) (len : nat) : option Z :=
  for_loop len 0 (λ i smax,
    x ← vec !! i;
    let sabs := s16 (if 0 <? x then x else -i x) in
    Some (if smax <? sabs then sabs else smax)) (-1).

Definition WebRtcSpl_GetScalingSquare (in_vector : list Z) (len : nat) (times : Z)
  : option Z :=
  let nbits := WebRtcSpl_GetSizeInBits (u32 times) in
  smax ← scaling_max in_vector len;
  let t := WebRtcSpl_NormW32 (smax *i smax) in
  Some (if smax =? 0 then 0 else if nbits <? t then 0 else s16 (nbits - t)).

(** Returns the energy and the value stored through [scale_factor]. *)
Definition WebRtcSpl_Energy (vector : list Z) (len : nat) : option (Z * Z) :=
  scaling ← WebRtcSpl_GetScalingSquare vector len (Z.of_nat len);
  en ← for_loop len 0 (λ i en,
         x ← vector !! i;
         sq ← shr32 (x *i x) scaling;
         Some (en +i sq)) 0;
  Some (en, scaling).

(** ** The scaling *)

Definition max_abs (l : list Z) : Z := fold_right (λ x m, Z.max (Z.abs x) m) (-1) l.

Lemma max_abs_app l x : max_abs (l ++ [x]) = Z.max (max_abs l) (Z.abs x).
Proof. induction l as [|y l IH]; simpl; [lia|]. rewrite IH. lia. Qed.

Lemma max_abs_ge l x : x ∈ l → Z.abs x ≤ max_abs l.
Proof. induction 1; simpl; lia. Qed.

Lemma max_abs_le l b : Forall (λ x, -b ≤ x ≤ b) l → -1 ≤ b → max_abs l ≤ b.
Proof. induction 1; simpl; lia. Qed.

Lemma take_S_snoc {A} (l : list A) i x : l !! i = Some x → take (S i) l = take i l ++ [x].
Proof. intros. by apply take_S_r. Qed.

(** The running maximum is a value of [int16] from -1 up. *)
Lemma scaling_max_range vec len :
  Forall int16 vec → (len ≤ length vec)%nat →
  wp (scaling_max vec len) (λ smax, -1 ≤ smax ≤ 32767).
Proof.
  intros Hv Hl. apply (wp_for (λ _ s, -1 ≤ s ≤ 32767)); [lia| |done].
  intros i s Hi Hs. apply wp_bind, (wp_lookup_Forall int16); [done|lia|].
  intros x _ Hx. pose proof (s16_range (if 0 <? x then x else -i x)).
  simpl. destruct (Z.ltb_spec s (s16 (if 0 <? x then x else -i x))); clia.
Qed.

(** Away from -32768 it is the maximal magnitude. *)
Lemma scaling_max_exact vec :
  Forall (λ x, -32767 ≤ x ≤ 32767) vec →
  wp (scaling_max vec (length vec)) (λ smax, smax = max_abs vec).
Proof.
  intros Hv. apply (wp_for (λ i s, s = max_abs (take i vec))); [done| |].
  - intros i s Hi ->. apply wp_bind, (wp_lookup_Forall (λ x, -32767 ≤ x ≤ 32767)); [done|lia|].
    intros x Hx Hr. simpl. rewrite (take_S_snoc _ _ _ Hx), max_abs_app.
    assert (s16 (if 0 <? x then x else -i x) = Z.abs x) as ->.
    { destruct (Z.ltb_spec 0 x); cexact; clia. }
    destruct (Z.ltb_spec (max_abs (take i vec)) (Z.abs x)); lia.
  - intros s ->. simpl. by rewrite take_ge by lia.
Qed.

Lemma size_in_bits_log2 n : 0 < n < 4294967296 → WebRtcSpl_GetSizeInBits n = Z.log2 n + 1.
Proof.
  intros. unfold WebRtcSpl_GetSizeInBits. rewrite clz32_log2 by lia.
  pose proof (log2_small n 32). rewrite s16_id; unfold int16; lia.
Qed.

Lemma norm_square m : m ≠ 0 → Z.abs m ≤ 32767 →
  1 ≤ WebRtcSpl_NormW32 (m *i m) ≤ 30 ∧ m * m * 2 ^ WebRtcSpl_NormW32 (m *i m) < 2147483648.
Proof.
  intros H0 Hm. rewrite s32_id by (unfold int32; nia).
  pose proof (NormW32_eq (m * m) ltac:(unfold int32; nia) ltac:(nia)) as E.
  unfold norm_mag in E. rewrite (proj2 (Z.ltb_ge (m * m) 0)) in E by nia.
  rewrite (proj2 (Z.eqb_neq (m * m) 0)) in E by nia. rewrite E.
  pose proof (log2_small (m * m) 30 ltac:(nia)).
  pose proof (Z.log2_spec (m * m) ltac:(nia)) as Hs.
  pose proof (pow2_fill (Z.log2 (m * m)) ltac:(lia)).
  rewrite Z.pow_succ_r in Hs by lia.
  assert (0 < 2 ^ (30 - Z.log2 (m * m))) by (apply Z.pow_pos_nonneg; lia).
  split; [lia|]. nia.
Qed.

Lemma scaling_range vec len times :
  Forall int16 vec → (len ≤ length vec)%nat → 0 < times < 4294967296 →
  wp (WebRtcSpl_GetScalingSquare vec len times) (λ s, 0 ≤ s ≤ Z.log2 times).
Proof.
  intros Hv Hl Ht. unfold WebRtcSpl_GetScalingSquare.
  apply wp_bind. wp_call (by apply scaling_max_range). intros smax Hs. simpl.
  pose proof (log2_small times 32 ltac:(lia)) as Hlog.
  rewrite u32_id by (unfold uint32; lia). rewrite size_in_bits_log2 by lia.
  destruct (Z.eqb_spec smax 0); [lia|].
  pose proof (norm_square smax ltac:(lia) ltac:(lia)) as [Hn _].
  destruct (Z.ltb_spec (Z.log2 times + 1) (WebRtcSpl_NormW32 (smax *i smax))); [lia|].
  rewrite s16_id; unfold int16; lia.
Qed.

(** The scaled square of every sample leaves room for [len] additions. *)
Lemma scaled_square_bound len m s x :
  0 < len < 4294967296 → 0 < m ≤ 32767 → Z.abs x ≤ m →
  s = (let t := WebRtcSpl_NormW32 (m *i m) in
       if Z.log2 len + 1 <? t then 0 else Z.log2 len + 1 - t) →
  0 ≤ Z.shiftr (x * x) s ∧ Z.shiftr (x * x) s * len ≤ 2147483647.
Proof.
  intros Hl Hm Hx Hs. cbv zeta in Hs.
  pose proof (norm_square m ltac:(lia) ltac:(lia)) as [Ht Hp].
  set (t := WebRtcSpl_NormW32 (m *i m)) in *.
  pose proof (log2_small len 32 ltac:(lia)) as Hk.
  pose proof (Z.log2_spec len ltac:(lia)) as Hspec.
  set (k := Z.log2 len) in *. rewrite Z.pow_succ_r in Hspec by lia.
  assert (0 ≤ s) by (destruct (Z.ltb_spec (k + 1) t); lia).
  assert (0 < 2 ^ s) by (apply Z.pow_pos_nonneg; lia).
  assert (0 < 2 ^ k) by (apply Z.pow_pos_nonneg; lia).
  assert (0 < 2 ^ t) by (apply Z.pow_pos_nonneg; lia).
  rewrite Z.shiftr_div_pow2 by lia.
  pose proof (Z.div_mod (x * x) (2 ^ s) ltac:(lia)) as Hdm.
  pose proof (Z.mod_pos_bound (x * x) (2 ^ s) ltac:(lia)).
  set (q := x * x / 2 ^ s) in *. assert (0 ≤ q) by (apply Z.div_pos; nia).
  assert (2 ^ s * q ≤ m * m) as Hq by nia.
  split; [done|].
  assert (2 * 2 ^ k ≤ 2 ^ s * 2 ^ t) as Hle.
  { change 2 with (2 ^ 1) at 1. rewrite <- !Z.pow_add_r by lia.
    apply Z.pow_le_mono_r; [lia|]. destruct (Z.ltb_spec (k + 1) t); lia. }
  assert (q * len ≤ q * (2 ^ s * 2 ^ t)) by nia.
  assert (q * (2 ^ s * 2 ^ t) ≤ m * m * 2 ^ t) by nia. lia.
Qed.

(** ** The energy *)

Definition sum (l : list Z) : Z := fold_right Z.add 0 l.

Lemma sum_map_snoc (f : Z → Z) l x : sum (map f (l ++ [x])) = sum (map f l) + f x.
Proof. induction l as [|y l IH]; simpl; [lia|]. rewrite IH. lia. Qed.

Lemma sum_bound l b : Forall (λ x, 0 ≤ x ≤ b) l → 0 ≤ sum l ≤ b * Z.of_nat (length l).
Proof. induction 1; simpl; lia. Qed.

Lemma energy_scaling vec :
  Forall (λ x, -32767 ≤ x ≤ 32767) vec → 0 < Z.of_nat (length vec) < 4294967296 →
  wp (WebRtcSpl_GetScalingSquare vec (length vec) (Z.of_nat (length vec))) (λ s,
    0 ≤ s ≤ 31 ∧ ∀ x, x ∈ vec →
      0 ≤ Z.shiftr (x * x) s ∧ Z.shiftr (x * x) s * Z.of_nat (length vec) ≤ 2147483647).
Proof.
  intros Hv Hl.
  pose proof (scaling_range vec (length vec) (Z.of_nat (length vec))
    ltac:(eapply Forall_weaken; [exact Hv|unfold int16; simpl; lia]) ltac:(lia) Hl) as Hr.
  pose proof (log2_small (Z.of_nat (length vec)) 32 ltac:(lia)).
  unfold WebRtcSpl_GetScalingSquare in *.
  pose proof (scaling_max_exact vec Hv) as Hm.
  apply wp_exists in Hm as (smax & Hrun & ->). rewrite Hrun in *. simpl in *.
  rewrite u32_id in * by (unfold uint32; lia). rewrite size_in_bits_log2 in * by lia.
  split; [lia|]. intros x Hx. pose proof (max_abs_ge vec x Hx).
  rewrite Forall_forall in Hv. pose proof (Hv x ltac:(by apply list_elem_of_In)).
  assert (max_abs vec ≤ 32767) by (apply max_abs_le; [by apply Forall_forall|lia]).
  destruct (Z.eqb_spec (max_abs vec) 0) as [E0|E0].
  { assert (x = 0) as -> by lia. change (Z.shiftr (0 * 0) 0) with 0. lia. }
  apply (scaled_square_bound _ (max_abs vec)); [lia|lia|lia|]. cbv zeta.
  pose proof (norm_square (max_abs vec) ltac:(lia) ltac:(lia)) as [Hn _].
  destruct (Z.ltb_spec (Z.log2 (Z.of_nat (length vec)) + 1)
    (WebRtcSpl_NormW32 (max_abs vec *i max_abs vec))); [done|].
  apply s16_id. unfold int16. lia.
Qed.

Lemma scaled_sum_bound vec s i :
  (∀ x, x ∈ vec → 0 ≤ Z.shiftr (x * x) s ∧
     Z.shiftr (x * x) s * Z.of_nat (length vec) ≤ 2147483647) →
  0 ≤ sum (map (λ x, Z.shiftr (x * x) s) (take i vec)) ≤ 2147483647.
Proof.
  intros H. destruct vec as [|y vec]; [destruct i; simpl; lia|].
  set (v := y :: vec) in *. assert (0 < Z.of_nat (length v)) by (simpl; lia).
  pose proof (sum_bound (map (λ x, Z.shiftr (x * x) s) (take i v))
    (2147483647 / Z.of_nat (length v))) as Hb.
  rewrite length_map, length_take in Hb.
  pose proof (Z.mul_div_le 2147483647 (Z.of_nat (length v)) ltac:(lia)).
  assert (0 ≤ 2147483647 / Z.of_nat (length v)) by (apply Z.div_pos; lia).
  destruct Hb; [|nia]. apply Forall_map, Forall_forall. intros x Hx.
  destruct (H x) as [? ?].
  { apply list_elem_of_In in Hx. by eapply subseteq_take. }
  split; [done|]. apply Z.div_le_lower_bound; lia.
Qed.

(** Energy without overflow. For a non-empty vector of 16-bit samples other
    than -32768, WebRtcSpl_Energy returns a scale factor in [0, 31] and exactly
    the sum of the squares, each shifted right by that factor; the sum fits
    int32, so no addition overflows. *)
Theorem Energy_exact (vec : list Z) :
  Forall (λ x, -32767 ≤ x ≤ 32767) vec → 0 < Z.of_nat (length vec) < 4294967296 →
  wp (WebRtcSpl_Energy vec (length vec)) (λ '(en, scaling),
    0 ≤ scaling ≤ 31 ∧ en = sum (map (λ x, Z.shiftr (x * x) scaling) vec) ∧
    0 ≤ en ≤ 2147483647).
Proof.
  intros Hv Hl. pose proof (energy_scaling vec Hv Hl) as Hs.
  unfold WebRtcSpl_Energy. apply wp_bind. wp_use Hs. intros s (Hs31 & Hsq).
  assert (Hsum : ∀ i, 0 ≤ sum (map (λ x, Z.shiftr (x * x) s) (take i vec)) ≤ 2147483647).
  { intros i. by apply scaled_sum_bound. }
  apply wp_bind, (wp_for (λ i en, en = sum (map (λ x, Z.shiftr (x * x) s) (take i vec)))).
  - done.
  - intros i en Hi ->. apply wp_bind.
    apply (wp_lookup_Forall (λ x, -32767 ≤ x ≤ 32767)); [done|lia|]. intros x Hx Hr.
    unfold shr32. rewrite (s32_id (x * x)) by (unfold int32; nia).
    rewrite (proj2 (Z.leb_le 0 s)), (proj2 (Z.ltb_lt s 32)) by lia. simpl.
    pose proof (Hsum (S i)) as HS.
    rewrite (take_S_snoc _ _ _ Hx), sum_map_snoc in HS |- *.
    apply s32_id. unfold int32. lia.
  - intros en ->. simpl. pose proof (Hsum (length vec)) as HS.
    rewrite take_ge in HS |- * by lia. split_and!; lia.
Qed.

Lemma Energy_exact_witness :
  wp (WebRtcSpl_Energy [32767; -32767; 12; -5] 4) (λ '(en, scaling),
    0 ≤ scaling ≤ 31 ∧
    en = sum (map (λ x, Z.shiftr (x * x) scaling) [32767; -32767; 12; -5]) ∧
    0 ≤ en ≤ 2147483647).
Proof.
  apply (Energy_exact [32767; -32767; 12; -5]); [|simpl; lia].
  repeat (constructor; [lia|]). constructor.
Defined.

(** The most negative sample defeats the scaling. Its magnitude is computed
    in 16 bits, where it is again negative, so it never raises the maximum: for
    two samples -32768 the scale factor is 0 although the sum of the squares is
    2^31, which int32 cannot hold. *)
Theorem energy_min_overflows :
  WebRtcSpl_GetScalingSquare [-32768; -32768] 2 2 = Some 0 ∧
  WebRtcSpl_Energy [-32768; -32768] 2 = Some (-2147483648, 0) ∧
  sum (map (λ x, x * x) [-32768; -32768]) = 2147483648.
Proof. split_and!; reflexivity. Qed.

(** For all inputs the call is free of undefined shifts and accesses. *)
Lemma Energy_safe vec len :
  Forall int16 vec → (0 < len ≤ length vec)%nat → Z.of_nat len < 4294967296 →
  wp (WebRtcSpl_Energy vec len) (λ '(en, scaling),
    int32 en ∧ 0 ≤ scaling ≤ Z.log2 (Z.of_nat len)).
Proof.
  intros Hv Hl Hb. unfold WebRtcSpl_Energy. apply wp_bind.
  wp_call (apply scaling_range; [done|lia|lia]). intros s Hs.
  pose proof (log2_small (Z.of_nat len) 32 ltac:(lia)).
  apply wp_bind, (wp_for (λ _ en, int32 en)); [unfold int32; lia| |].
  - intros i en Hi He. apply wp_bind, wp_lookup; [lia|]. intros x _.
    unfold shr32. rewrite (proj2 (Z.leb_le 0 s)), (proj2 (Z.ltb_lt s 32)) by lia.
    simpl. apply s32_range.
  - intros en He. simpl. done.
Qed.

End Energy.
