(* ===== verification/MinMax.v ===== *)
(** * Extreme values of a vector
    (common_audio/signal_processing/min_max_operations.c)

    The generic C versions of the maxima, minima and their positions. All scans
    are instances of two patterns, a running extremum and a running extremum
    with its index, which [scan_value] and [scan_index] verify once for any
    order ([wt]) and any key ([key]); the theorems instantiate them. *)

From S2P Require Import Prelude.

Module MinMax.

Definition WEBRTC_SPL_WORD16_MAX : Z := 32767.
Definition WEBRTC_SPL_WORD16_MIN : Z := -32768.
Definition WEBRTC_SPL_WORD32_MAX : Z := 2147483647.
Definition WEBRTC_SPL_WORD32_MIN : Z := -2147483648.

Definition WebRtcSpl_MaxAbsValueW16C (vector : list Z) (length : nat) : option Z :=
  _ ← dcheck (0 <? length)%nat;
  maximum ← for_loop length 0 (λ i maximum,
    x ← vector !! i;
    let absolute := s32 (Z.abs x) in
    Some (if maximum <? absolute then absolute else maximum)) 0;
  let maximum :=
    if WEBRTC_SPL_WORD16_MAX <? maximum then WEBRTC_SPL_WORD16_MAX else maximum in
  Some (s16 maximum).

(** The locals are unsigned, to hold the magnitude of INT_MIN. *)
Definition WebRtcSpl_MaxAbsValueW32C (vector : list Z) (length : nat) : option Z :=
  _ ← dcheck (0 <? length)%nat;
  maximum ← for_loop length 0 (λ i maximum,
    x ← vector !! i;
    let absolute :=
      if negb (x =? WEBRTC_SPL_WORD32_MIN) then u32 (s32 (Z.abs x))
      else u32 (WEBRTC_SPL_WORD32_MAX + 1) in
    Some (if maximum <? absolute then absolute else maximum)) 0;
  let maximum :=
    if maximum <? WEBRTC_SPL_WORD32_MAX then maximum else WEBRTC_SPL_WORD32_MAX in
  Some (s32 maximum).

Definition WebRtcSpl_MaxValueW16C (vector : list Z) (length : nat) : option Z :=
  _ ← dcheck (0 <? length)%nat;
  for_loop length 0 (λ i maximum,
    x ← vector !! i; Some (if maximum <? x then x else maximum)) WEBRTC_SPL_WORD16_MIN.

Definition WebRtcSpl_MaxValueW32C (vector : list Z) (length : nat) : option Z :=
  _ ← dcheck (0 <? length)%nat;
  for_loop length 0 (λ i maximum,
    x ← vector !! i; Some (if maximum <? x then x else maximum)) WEBRTC_SPL_WORD32_MIN.

Definition WebRtcSpl_MinValueW16C (vector : list Z) (length : nat) : option Z :=
  _ ← dcheck (0 <? length)%nat;
  for_loop length 0 (λ i minimum,
    x ← vector !! i; Some (if x <? minimum then x else minimum)) WEBRTC_SPL_WORD16_MAX.

Definition WebRtcSpl_MinValueW32C (vector : list Z) (length : nat) : option Z :=
  _ ← dcheck (0 <? length)%nat;
  for_loop length 0 (λ i minimum,
    x ← vector !! i; Some (if x <? minimum then x else minimum)) WEBRTC_SPL_WORD32_MAX.

(** The loop state of the index scans is the pair (index, extremum). *)
Definition WebRtcSpl_MaxAbsIndexW16 (vector : list Z) (length : nat) : option nat :=
  _ ← dcheck (0 <? length)%nat;
  r ← for_loop length 0 (λ i '(index, maximum),
    x ← vector !! i;
    let absolute := s32 (Z.abs x) in
    Some (if maximum <? absolute then (i, absolute) else (index, maximum))) (0%nat, 0);
  Some r.1.

Definition WebRtcSpl_MaxIndexW16 (vector : list Z) (length : nat) : option nat :=
  _ ← dcheck (0 <? length)%nat;
  r ← for_loop length 0 (λ i '(index, maximum),
    x ← vector !! i;
    Some (if maximum <? x then (i, x) else (index, maximum))) (0%nat, WEBRTC_SPL_WORD16_MIN);
  Some r.1.

Definition WebRtcSpl_MaxIndexW32 (vector : list Z) (length : nat) : option nat :=
  _ ← dcheck (0 <? length)%nat;
  r ← for_loop length 0 (λ i '(index, maximum),
    x ← vector !! i;
    Some (if maximum <? x then (i, x) else (index, maximum))) (0%nat, WEBRTC_SPL_WORD32_MIN);
  Some r.1.

Definition WebRtcSpl_MinIndexW16 (vector : list Z) (length : nat) : option nat :=
  _ ← dcheck (0 <? length)%nat;
  r ← for_loop length 0 (λ i '(index, minimum),
    x ← vector !! i;
    Some (if x <? minimum then (i, x) else (index, minimum))) (0%nat, WEBRTC_SPL_WORD16_MAX);
  Some r.1.

Definition WebRtcSpl_MinIndexW32 (vector : list Z) (length : nat) : option nat :=
  _ ← dcheck (0 <? length)%nat;
  r ← for_loop length 0 (λ i '(index, minimum),
    x ← vector !! i;
    Some (if x <? minimum then (i, x) else (index, minimum))) (0%nat, WEBRTC_SPL_WORD32_MAX);
  Some r.1.

(** Returns the values stored through [min_val] and [max_val]. *)
Definition WebRtcSpl_MinMaxW16 (vector : list Z) (length : nat) : option (Z * Z) :=
  _ ← dcheck (0 <? length)%nat;
  for_loop length 0 (λ i '(minimum, maximum),
    x ← vector !! i;
    Some (if x <? minimum then x else minimum, if maximum <? x then x else maximum))
    (WEBRTC_SPL_WORD16_MAX, WEBRTC_SPL_WORD16_MIN).

Definition WebRtcSpl_MaxAbsElementW16 (vector : list Z) (length : nat) : option Z :=
  '(min_val, max_val) ← WebRtcSpl_MinMaxW16 vector length;
  Some (if (min_val =? max_val) || (min_val <? -i max_val) then min_val else max_val).

(** ** The two scans *)

(** [r] is the extremum of the keys of [l]: attained, and no key beats it. *)
Definition extremum (wt key : Z → Z) (l : list Z) (r : Z) : Prop :=
  (∃ x, x ∈ l ∧ r = key x) ∧ ∀ x, x ∈ l → wt (key x) ≤ wt r.

(** [i] is the first position of [l] whose key is extremal. *)
Definition first_best (wt key : Z → Z) (l : list Z) (i : nat) : Prop :=
  ∃ x, l !! i = Some x ∧ ∀ j y, l !! j = Some y →
    wt (key y) ≤ wt (key x) ∧ ((j < i)%nat → wt (key y) < wt (key x)).

Section scan.
Context (wt key : Z → Z) (better : Z → Z → bool) (init : Z) (vec : list Z).
Context (Hinj : ∀ a b, wt a = wt b → a = b).
Context (Hbetter : ∀ a b, better a b = (wt b <? wt a)).
Context (Hinit : ∀ x, x ∈ vec → wt init ≤ wt (key x)).
Context (Hlen : (0 < length vec)%nat).

Definition value_inv (i : nat) (m : Z) : Prop :=
  (m = init ∨ ∃ x, x ∈ vec ∧ m = key x) ∧ wt init ≤ wt m ∧
  ∀ j y, (j < i)%nat → vec !! j = Some y → wt (key y) ≤ wt m.

Lemma value_step i x m :
  vec !! i = Some x → value_inv i m →
  value_inv (S i) (if better (key x) m then key x else m).
Proof using All.
  intros Hx (Hm & Hge & Hall). rewrite Hbetter.
  assert (x ∈ vec) by (by eapply list_elem_of_lookup_2).
  destruct (Z.ltb_spec (wt m) (wt (key x))); (split; [|split]).
  - right. eauto.
  - lia.
  - intros j y Hj Hy. destruct (decide (j = i)) as [->|]; [naive_solver lia|].
    specialize (Hall j y ltac:(lia) Hy). lia.
  - done.
  - done.
  - intros j y Hj Hy. destruct (decide (j = i)) as [->|]; [naive_solver lia|].
    apply (Hall j y); [lia|done].
Qed.

Lemma value_end m : value_inv (length vec) m → extremum wt key vec m.
Proof using All.
  intros (Hm & Hge & Hall). split.
  - destruct Hm as [-> | ?]; [|done].
    destruct (lookup_lt_is_Some_2 vec 0 Hlen) as [y Hy]. exists y.
    assert (y ∈ vec) by (by eapply list_elem_of_lookup_2). split; [done|].
    apply Hinj. specialize (Hall 0%nat y Hlen Hy). specialize (Hinit y). naive_solver lia.
  - intros x [j Hj]%list_elem_of_lookup_1. apply (Hall j); [by eapply lookup_lt_Some|done].
Qed.

Lemma scan_value :
  wp (for_loop (length vec) 0 (λ i m,
        x ← vec !! i; Some (if better (key x) m then key x else m)) init)
     (extremum wt key vec).
Proof using All.
  apply (wp_for value_inv).
  - split; [by left|]. split; [lia|]. intros; lia.
  - intros i m Hi Hm. apply wp_bind, wp_lookup; [lia|]. intros x Hx.
    apply wp_ret. by apply value_step.
  - intros m. apply value_end.
Qed.

(** Position 0 until some key beats the initial value. *)
Definition index_inv (i : nat) (s : nat * Z) : Prop :=
  (s = (0%nat, init) ∧ ∀ j y, (j < i)%nat → vec !! j = Some y → key y = init) ∨
  (∃ x, vec !! s.1 = Some x ∧ s.2 = key x ∧ ∀ j y, (j < i)%nat → vec !! j = Some y →
     wt (key y) ≤ wt (key x) ∧ ((j < s.1)%nat → wt (key y) < wt (key x))) ∧ (s.1 < i)%nat.

Lemma index_step i x s :
  vec !! i = Some x → index_inv i s →
  index_inv (S i) (if better (key x) s.2 then (i, key x) else s).
Proof using All.
  intros Hx Hs. rewrite Hbetter.
  assert (Hxi : wt init ≤ wt (key x)) by (apply Hinit; by eapply list_elem_of_lookup_2).
  destruct (Z.ltb_spec (wt s.2) (wt (key x))) as [Hlt|Hge].
  - right. split; [|simpl; lia]. exists x. split_and!; [done|done|]. simpl.
    intros j y Hj Hy. destruct (decide (j = i)) as [->|].
    { naive_solver lia. }
    destruct Hs as [[-> Hall]|[(x0 & _ & E & Hall) _]]; simpl in *.
    + rewrite (Hall j y) by (done || lia). lia.
    + rewrite E in Hlt. destruct (Hall j y ltac:(lia) Hy). lia.
  - destruct Hs as [[-> Hall]|[(x0 & Hx0 & E & Hall) Hsi]]; simpl in *.
    + left. split; [done|]. intros j y Hj Hy. destruct (decide (j = i)) as [->|].
      * simplify_eq. apply Hinj. lia.
      * apply (Hall j y); [lia|done].
    + right. split; [|lia]. exists x0. split_and!; [done|done|].
      intros j y Hj Hy. destruct (decide (j = i)) as [->|].
      * simplify_eq. rewrite E in Hge. lia.
      * apply (Hall j y); [lia|done].
Qed.

Lemma index_end s : index_inv (length vec) s → first_best wt key vec s.1.
Proof using All.
  intros [[-> Hall]|[(x & Hx & _ & Hall) _]].
  - destruct (lookup_lt_is_Some_2 vec 0 Hlen) as [y Hy]. exists y. split; [done|].
    intros j z Hz. rewrite (Hall 0%nat y Hlen Hy), (Hall j z) by (done || by eapply lookup_lt_Some).
    simpl. lia.
  - exists x. split; [done|]. intros j y Hy. apply (Hall j y); [by eapply lookup_lt_Some|done].
Qed.

Lemma scan_index :
  wp (for_loop (length vec) 0 (λ i '(index, m),
        x ← vec !! i; Some (if better (key x) m then (i, key x) else (index, m))) (0%nat, init))
     (λ s, first_best wt key vec s.1).
Proof using All.
  apply (wp_for index_inv).
  - left. split; [done|]. intros; lia.
  - intros i [index m] Hi Hm. apply wp_bind, wp_lookup; [lia|]. intros x Hx.
    apply wp_ret. by apply (index_step i x (index, m)).
  - intros s. apply index_end.
Qed.
End scan.

Lemma extremum_ext wt k k' l r :
  (∀ x, x ∈ l → k x = k' x) → extremum wt k l r → extremum wt k' l r.
Proof.
  intros E [(x & Hx & ->) Hall]. split.
  - exists x. split; [done|]. by apply E.
  - intros y Hy. rewrite <- E by done. auto.
Qed.

Lemma first_best_ext wt k k' l i :
  (∀ x, x ∈ l → k x = k' x) → first_best wt k l i → first_best wt k' l i.
Proof.
  intros E (x & Hx & Hall). exists x. split; [done|]. intros j y Hy.
  rewrite <- !E by (by eapply list_elem_of_lookup_2). eauto.
Qed.

Lemma range_elem (P : Z → Prop) (l : list Z) x : Forall P l → x ∈ l → P x.
Proof. intros H Hx. rewrite Forall_forall in H. by apply H, list_elem_of_In. Qed.

(** Discharges the side conditions of the scans: injectivity and range. *)
Ltac scan_side H :=
  unfold id; first [ intros; lia
        | intros ? ?; reflexivity
        | intros ? ?;
          match goal with |- (?a <? ?b) = (- ?b' <? - ?a') =>
            destruct (Z.ltb_spec a b); destruct (Z.ltb_spec (- b') (- a')); lia end
        | let y := fresh in let Hy := fresh in intros y Hy;
          pose proof (range_elem _ _ _ H Hy); cranges;
          unfold WEBRTC_SPL_WORD16_MAX, WEBRTC_SPL_WORD16_MIN,
            WEBRTC_SPL_WORD32_MAX, WEBRTC_SPL_WORD32_MIN;
          rewrite ?s32_id by (cranges; lia); lia
        | done ].

Ltac run_scan H lem wt key better :=
  apply wp_bind, wp_dcheck; [by apply Nat.ltb_lt|];
  first [ apply (lem wt key better); scan_side H
        | apply wp_bind; wp_call (apply (lem wt key better); scan_side H);
          intros ? ?; apply wp_ret; done ].

(** Extreme values: on a non-empty vector the maximum and minimum functions
    return an element of the vector that is no smaller, respectively no larger,
    than every element, for 16-bit and for 32-bit elements. *)
Lemma MaxMinValue_correct (vec : list Z) :
  (0 < length vec)%nat →
  (Forall int16 vec →
     wp (WebRtcSpl_MaxValueW16C vec (length vec)) (λ r, r ∈ vec ∧ ∀ x, x ∈ vec → x ≤ r) ∧
     wp (WebRtcSpl_MinValueW16C vec (length vec)) (λ r, r ∈ vec ∧ ∀ x, x ∈ vec → r ≤ x)) ∧
  (Forall int32 vec →
     wp (WebRtcSpl_MaxValueW32C vec (length vec)) (λ r, r ∈ vec ∧ ∀ x, x ∈ vec → x ≤ r) ∧
     wp (WebRtcSpl_MinValueW32C vec (length vec)) (λ r, r ∈ vec ∧ ∀ x, x ∈ vec → r ≤ x)).
Proof.
  intros Hl.
  assert (Hmax : ∀ r, extremum id id vec r → r ∈ vec ∧ ∀ x, x ∈ vec → x ≤ r).
  { intros r [(x & Hx & ->) Hle]. split; [done|]. apply Hle. }
  assert (Hmin : ∀ r, extremum Z.opp id vec r → r ∈ vec ∧ ∀ x, x ∈ vec → r ≤ x).
  { intros r [(x & Hx & ->) Hle]. split; [done|]. intros y Hy. specialize (Hle y Hy). unfold id in *. lia. }
  split; intros H; split; (eapply wp_mono; [|eauto]).
  - run_scan H scan_value (@id Z) (@id Z) (λ a b, b <? a).
  - run_scan H scan_value Z.opp (@id Z) Z.ltb.
  - run_scan H scan_value (@id Z) (@id Z) (λ a b, b <? a).
  - run_scan H scan_value Z.opp (@id Z) Z.ltb.
Qed.

(** The magnitude as the 16-bit scans compute it is exact. *)
Lemma abs_key (vec : list Z) x : Forall int16 vec → x ∈ vec → s32 (Z.abs x) = Z.abs x.
Proof. intros H Hx. apply s32_id. pose proof (range_elem _ _ _ H Hx). cranges. lia. Qed.

(** Positions of the extreme values. On a non-empty vector each of the five
    index functions returns the FIRST position of the extremum: the value there
    is extremal, and strictly better than every value at a smaller position.
    That includes the vectors in which no element improves on the initial value
    of the scan, where the answer is 0. *)
Theorem index_first (vec : list Z) :
  (0 < length vec)%nat →
  (Forall int16 vec →
     wp (WebRtcSpl_MaxAbsIndexW16 vec (length vec)) (first_best id Z.abs vec) ∧
     wp (WebRtcSpl_MaxIndexW16 vec (length vec)) (first_best id id vec) ∧
     wp (WebRtcSpl_MinIndexW16 vec (length vec)) (first_best Z.opp id vec)) ∧
  (Forall int32 vec →
     wp (WebRtcSpl_MaxIndexW32 vec (length vec)) (first_best id id vec) ∧
     wp (WebRtcSpl_MinIndexW32 vec (length vec)) (first_best Z.opp id vec)).
Proof.
  intros Hl. split; intros H; (split; [|first [split | idtac]]).
  - apply (wp_mono _ (first_best id (λ x, s32 (Z.abs x)) vec)).
    + run_scan H scan_index (@id Z) (λ x, s32 (Z.abs x)) (λ a b, b <? a).
    + intros i. apply first_best_ext. intros x Hx. by eapply abs_key.
  - run_scan H scan_index (@id Z) (@id Z) (λ a b, b <? a).
  - run_scan H scan_index Z.opp (@id Z) Z.ltb.
  - run_scan H scan_index (@id Z) (@id Z) (λ a b, b <? a).
  - run_scan H scan_index Z.opp (@id Z) Z.ltb.
Qed.

Lemma index_first_witness :
  wp (WebRtcSpl_MaxAbsIndexW16 [3; -32768; 7; -32768] 4)
     (first_best id Z.abs [3; -32768; 7; -32768]) ∧
  wp (WebRtcSpl_MinIndexW32 [2147483647; 2147483647] 2)
     (first_best Z.opp id [2147483647; 2147483647]).
Proof.
  split.
  - apply (proj1 (index_first [3; -32768; 7; -32768] ltac:(simpl; lia))).
    repeat constructor; unfold int16; lia.
  - apply (proj2 (index_first [2147483647; 2147483647] ltac:(simpl; lia))).
    repeat constructor; unfold int32; lia.
Defined.

(** Maximal magnitudes saturate. On a non-empty vector the two functions
    return the largest magnitude of an element, except that the magnitude of
    the most negative value, which the return type cannot hold, is returned as
    the largest value of the type. *)
Theorem MaxAbsValue_saturates (vec : list Z) :
  (0 < length vec)%nat →
  (Forall int16 vec →
     wp (WebRtcSpl_MaxAbsValueW16C vec (length vec)) (λ r,
       ∃ m, extremum id Z.abs vec m ∧ r = Z.min m 32767)) ∧
  (Forall int32 vec →
     wp (WebRtcSpl_MaxAbsValueW32C vec (length vec)) (λ r,
       ∃ m, extremum id Z.abs vec m ∧ r = Z.min m 2147483647)).
Proof.
  intros Hl. split; intros H; apply wp_bind, wp_dcheck; try (by apply Nat.ltb_lt); apply wp_bind.
  - wp_call (apply (scan_value (@id Z) (λ x, s32 (Z.abs x)) (λ a b, b <? a)); scan_side H).
    intros m Hm. eapply extremum_ext in Hm; [|intros x Hx; by eapply abs_key].
    apply wp_ret. exists m. split; [done|]. destruct Hm as [(x & Hx & ->) _].
    pose proof (range_elem _ _ _ H Hx). unfold WEBRTC_SPL_WORD16_MAX.
    destruct (Z.ltb_spec 32767 (Z.abs x)); rewrite s16_id by (cranges; lia); lia.
  - set (k := λ x, if negb (x =? WEBRTC_SPL_WORD32_MIN) then u32 (s32 (Z.abs x))
                   else u32 (WEBRTC_SPL_WORD32_MAX + 1)).
    assert (Hk : ∀ x, x ∈ vec → k x = Z.abs x).
    { intros x Hx. pose proof (range_elem _ _ _ H Hx). unfold k, WEBRTC_SPL_WORD32_MIN.
      destruct (Z.eqb_spec x (-2147483648)) as [->|]; [done|]. simpl.
      rewrite s32_id by (cranges; lia). apply u32_id. cranges. lia. }
    wp_call (apply (scan_value (@id Z) k (λ a b, b <? a));
      [scan_side H|scan_side H|intros x Hx; rewrite Hk by done; unfold id; lia|done]).
    intros m Hm. apply (extremum_ext _ k Z.abs) in Hm; [|done].
    apply wp_ret. exists m. split; [done|]. destruct Hm as [(x & Hx & ->) _].
    pose proof (range_elem _ _ _ H Hx). unfold WEBRTC_SPL_WORD32_MAX.
    destruct (Z.ltb_spec (Z.abs x) 2147483647); rewrite s32_id by (cranges; lia); lia.
Qed.

Lemma MaxAbsValue_saturates_witness :
  wp (WebRtcSpl_MaxAbsValueW16C [5; -32768] 2) (λ r,
    ∃ m, extremum id Z.abs [5; -32768] m ∧ r = Z.min m 32767).
Proof.
  apply (proj1 (MaxAbsValue_saturates [5; -32768] ltac:(simpl; lia))).
  repeat constructor; unfold int16; lia.
Defined.

(** Both extrema in one pass. *)
Lemma MinMaxW16_correct (vec : list Z) :
  (0 < length vec)%nat → Forall int16 vec →
  wp (WebRtcSpl_MinMaxW16 vec (length vec)) (λ '(mn, mx),
    extremum Z.opp id vec mn ∧ extremum id id vec mx).
Proof.
  intros Hl H. apply wp_bind, wp_dcheck; [by apply Nat.ltb_lt|].
  apply (wp_for (λ i '(mn, mx),
    value_inv Z.opp id WEBRTC_SPL_WORD16_MAX vec i mn ∧
    value_inv id id WEBRTC_SPL_WORD16_MIN vec i mx)).
  - split; (split; [by left|]; split; [lia|intros; lia]).
  - intros i [mn mx] Hi [Hmn Hmx]. apply wp_bind, wp_lookup; [lia|]. intros x Hx.
    apply wp_ret. split.
    + apply (value_step Z.opp id Z.ltb _ vec) with (i := i) (x := x); try done; scan_side H.
    + apply (value_step id id (λ a b, b <? a) _ vec) with (i := i) (x := x); try done; scan_side H.
  - intros [mn mx] [Hmn Hmx]. split.
    + apply (value_end Z.opp id Z.ltb WEBRTC_SPL_WORD16_MAX); try done; scan_side H.
    + apply (value_end id id (λ a b, b <? a) WEBRTC_SPL_WORD16_MIN); try done; scan_side H.
Qed.

(** The element of largest magnitude. WebRtcSpl_MaxAbsElementW16 returns an
    element of the vector whose magnitude is the largest, with its sign; of two
    elements of opposite sign that tie it returns the positive one. *)
Theorem MaxAbsElementW16_correct (vec : list Z) :
  (0 < length vec)%nat → Forall int16 vec →
  wp (WebRtcSpl_MaxAbsElementW16 vec (length vec)) (λ r,
    r ∈ vec ∧ (∀ x, x ∈ vec → Z.abs x ≤ Z.abs r) ∧ (-r ∈ vec → 0 ≤ r)).
Proof.
  intros Hl H. apply wp_bind. wp_call (by apply MinMaxW16_correct).
  intros [mn mx] [[(a & Ha & ->) Hmn] [(b & Hb & ->) Hmx]]. unfold id in *. apply wp_ret.
  pose proof (range_elem _ _ _ H Ha). pose proof (range_elem _ _ _ H Hb).
  rewrite s32_id by (cranges; lia).
  pose proof (Hmn b Hb).
  destruct (Z.eqb_spec a b), (Z.ltb_spec a (- b)); simpl;
    (split; [done|]; split; [intros x Hx; specialize (Hmn x Hx); specialize (Hmx x Hx); lia|]);
    intros Hr; specialize (Hmn _ Hr); specialize (Hmx _ Hr); lia.
Qed.

Lemma MaxAbsElementW16_correct_witness :
  wp (WebRtcSpl_MaxAbsElementW16 [-7; 7; 3] 3) (λ r,
    r ∈ [-7; 7; 3] ∧ (∀ x, x ∈ [-7; 7; 3] → Z.abs x ≤ Z.abs r) ∧
    (-r ∈ [-7; 7; 3] → 0 ≤ r)).
Proof.
  apply (MaxAbsElementW16_correct [-7; 7; 3]); [simpl; lia|].
  repeat constructor; unfold int16; lia.
Defined.

End MinMax.
