(* ===== verification/Sqrt.v ===== *)
(** * Square roots
    (common_audio/third_party/spl_sqrt_floor/spl_sqrt_floor.c,
    common_audio/signal_processing/spl_sqrt.c)

    The exact integer square root by successive approximation, and the faster
    approximation by a Taylor polynomial in fixed point. The first is proved
    equal to [Z.sqrt]; for the second the theorem bounds the relative error. *)

From S2P Require Import Prelude SplInl.
Import SplInl.

Module Sqrt.

(** ** spl_sqrt_floor.c *)

(** The macro WEBRTC_SPL_SQRT_ITER on the state (value, root). *)
Definition WEBRTC_SPL_SQRT_ITER (N : Z) (s : Z * Z) : Z * Z :=
  let '(value, root) := s in
  let try1 := root +i (1 <<i N) in
  if (try1 <<i N) <=? value
  then (value -i (try1 <<i N), Z.lor root (2 <<i N))
  else (value, root).

Definition WebRtcSpl_SqrtFloor (value : Z) : Z :=
  let s := (value, 0) in
  let s := WEBRTC_SPL_SQRT_ITER 15 s in
  let s := WEBRTC_SPL_SQRT_ITER 14 s in
  let s := WEBRTC_SPL_SQRT_ITER 13 s in
  let s := WEBRTC_SPL_SQRT_ITER 12 s in
  let s := WEBRTC_SPL_SQRT_ITER 11 s in
  let s := WEBRTC_SPL_SQRT_ITER 10 s in
  let s := WEBRTC_SPL_SQRT_ITER 9 s in
  let s := WEBRTC_SPL_SQRT_ITER 8 s in
  let s := WEBRTC_SPL_SQRT_ITER 7 s in
  let s := WEBRTC_SPL_SQRT_ITER 6 s in
  let s := WEBRTC_SPL_SQRT_ITER 5 s in
  let s := WEBRTC_SPL_SQRT_ITER 4 s in
  let s := WEBRTC_SPL_SQRT_ITER 3 s in
  let s := WEBRTC_SPL_SQRT_ITER 2 s in
  let s := WEBRTC_SPL_SQRT_ITER 1 s in
  let s := WEBRTC_SPL_SQRT_ITER 0 s in
  s.2 >>i 1.

(** ** spl_sqrt.c *)

Definition WebRtcSpl_SqrtLocal (inp : Z) : Z :=
  let B := Z.quot inp 2 in
  let B := B -i 0x40000000 in
  let x_half := s16 (B >>i 16) in
  let B := B +i 0x40000000 in
  let B := B +i 0x40000000 in
  let x2 := x_half *i x_half *i 2 in
  let A := -i x2 in
  let B := B +i (A >>i 1) in
  let A := A >>i 16 in
  let A := A *i A *i 2 in
  let t16 := s16 (A >>i 16) in
  let B := B +i (-20480 *i t16 *i 2) in
  let A := x_half *i t16 *i 2 in
  let t16 := s16 (A >>i 16) in
  let B := B +i (28672 *i t16 *i 2) in
  let t16 := s16 (x2 >>i 16) in
  let A := x_half *i t16 *i 2 in
  let B := B +i (A >>i 1) in
  B +i 32768.

(** The part of WebRtcSpl_Sqrt from the normalised high word on: [even] tells
    whether the number of normalising shifts is even. *)
Definition sqrt_scaled (x_norm : Z) (even : bool) : Z :=
  let k_sqrt_2 := 23170 in
  let A := x_norm <<i 16 in
  let A := if 0 <=? A then A else -i A in
  let A := WebRtcSpl_SqrtLocal A in
  let A :=
    if even then
      let t16 := s16 (A >>i 16) in
      let A := k_sqrt_2 *i t16 *i 2 in
      let A := A +i 32768 in
      let A := Z.land A 0x7fff0000 in
      A >>i 15
    else A >>i 16 in
  Z.land A 0x0000ffff.

Definition WebRtcSpl_Sqrt (value : Z) : option Z :=
  if value =? 0 then Some 0
  else
    let A := if value <? 0
             then (if value =? -2147483648 then 2147483647 else -i value)
             else value in
    let sh := WebRtcSpl_NormW32 A in
    A ← shl32 A sh;
    let A := if A <? 2147483647 -i 32767 then A +i 32768 else 2147483647 in
    let x_norm := s16 (A >>i 16) in
    let nshift := s16 (Z.quot sh 2) in
    _ ← dcheck (0 <=? nshift);
    shr32 (sqrt_scaled x_norm (2 *i nshift =? sh)) nshift.

(** ** The integer square root *)

(** [root] is twice an approximation [R] from below with the bits from [N] on
    decided; [value] is the remainder [V - R^2]. *)
Definition approx (V N : Z) (s : Z * Z) : Prop :=
  ∃ R, s.2 = 2 * R ∧ s.1 = V - R * R ∧ 0 ≤ R ∧ (2 ^ N | R) ∧
       R * R ≤ V < (R + 2 ^ N) * (R + 2 ^ N).

Lemma lor_next_bit (R N : Z) : 0 ≤ N → (2 ^ (N + 1) | R) →
  Z.lor (2 * R) (2 ^ (N + 1)) = 2 * R + 2 ^ (N + 1).
Proof.
  intros HN [k ->]. rewrite <- (Z.add_lor_land (2 * (k * 2 ^ (N + 1)))).
 
  assert (Z.land (2 * (k * 2 ^ (N + 1))) (2 ^ (N + 1)) = 0) as ->; [|lia].
  apply Z.bits_inj'. intros i Hi. rewrite Z.land_spec, Z.bits_0, Z.pow2_bits_eqb by lia.
  destruct (Z.eqb_spec (N + 1) i) as [<-|]; [|by rewrite andb_false_r].
  replace (2 * (k * 2 ^ (N + 1))) with (k * 2 ^ (N + 2))
    by (rewrite (Z.pow_add_r 2 N 2), (Z.pow_add_r 2 N 1) by lia; lia).
  by rewrite Z.mul_pow2_bits_low by lia.
Qed.

(** The trial value [(R + 2^N)^2 - R^2] fits 32 bits. *)
Lemma trial_bound (R N V : Z) :
  0 ≤ N ≤ 15 → 0 ≤ R → (2 ^ (N + 1) | R) → R * R ≤ V → V ≤ 2147483647 →
  1 ≤ 2 ^ N ≤ 32768 ∧ 2 * R + 2 ^ N ≤ 2147483647 ∧
  0 ≤ (2 * R + 2 ^ N) * 2 ^ N ≤ 2147483647.
Proof.
  intros HN HR [k Hk] Hsq HV. assert (R ≤ 46340) by nia.
  assert (1 ≤ 2 ^ N ≤ 32768).
  { split; [pose proof (Z.pow_pos_nonneg 2 N); lia|].
    change 32768 with (2 ^ 15). apply Z.pow_le_mono_r; lia. }
  destruct (decide (N = 15)) as [-> |].
  - assert (R = 0) as -> by lia. simpl. lia.
  - assert (2 ^ N ≤ 16384).
    { change 16384 with (2 ^ 14). apply Z.pow_le_mono_r; lia. }
    split; [lia|]. split; [lia|]. clear Hk Hsq. nia.
Qed.

Lemma sqrt_iter_approx (V N : Z) (s : Z * Z) :
  0 ≤ N ≤ 15 → V ≤ 2147483647 →
  approx V (N + 1) s → approx V N (WEBRTC_SPL_SQRT_ITER N s).
Proof.
  intros HN HV (R & Hr & Hv & HR & Hd & Hlo & Hhi). destruct s as [value root].
  cbn [fst snd] in *. subst.
  destruct (trial_bound R N V) as (Hp & Ht & HT); [done..|].
  rewrite Z.pow_add_r in Hhi by lia. change (2 ^ 1) with 2 in Hhi.
  unfold WEBRTC_SPL_SQRT_ITER. rewrite !Z.shiftl_mul_pow2, Z.mul_1_l by lia.
  rewrite (s32_id (2 ^ N)), (s32_id (2 * R + 2 ^ N)), (s32_id ((2 * R + 2 ^ N) * 2 ^ N))
    by (cranges; lia).
  assert (2 * 2 ^ N = 2 ^ (N + 1)) as E by (rewrite Z.pow_add_r by lia; lia).
  assert (Hd' : (2 ^ N | R)).
  { eapply Z.divide_trans; [|exact Hd]. rewrite <- E. exists 2. lia. }
  destruct (Z.leb_spec ((2 * R + 2 ^ N) * 2 ^ N) (V - R * R)).
  - rewrite (s32_id (2 * 2 ^ N)) by (cranges; lia). rewrite s32_id by (cranges; nia).
    exists (R + 2 ^ N). cbn [fst snd]. rewrite E, lor_next_bit by (lia || done).
    split; [lia|]. split; [lia|]. split; [lia|]. split; [|lia].
    apply Z.divide_add_r; [done|apply Z.divide_refl].
  - exists R. cbn [fst snd]. split_and!; lia || done.
Qed.

(** For a negative argument no trial succeeds. *)
Lemma sqrt_iter_negative (value N : Z) :
  value < 0 → 0 ≤ N ≤ 15 → WEBRTC_SPL_SQRT_ITER N (value, 0) = (value, 0).
Proof.
  intros Hv HN. destruct (trial_bound 0 N 0) as (Hp & _ & HT); [lia|lia|apply Z.divide_0_r|lia|lia|].
  unfold WEBRTC_SPL_SQRT_ITER. rewrite !Z.shiftl_mul_pow2, Z.mul_1_l by lia.
  rewrite (s32_id (2 ^ N)), (s32_id (0 + 2 ^ N)), (s32_id ((0 + 2 ^ N) * 2 ^ N))
    by (cranges; lia).
  destruct (Z.leb_spec ((0 + 2 ^ N) * 2 ^ N) value); [lia|done].
Qed.

(** The integer square root is exact. For every 32-bit argument
    WebRtcSpl_SqrtFloor returns the largest integer whose square does not
    exceed it, and 0 for a negative argument; no trial value overflows. *)
Theorem SqrtFloor_exact (value : Z) :
  int32 value → WebRtcSpl_SqrtFloor value = if value <? 0 then 0 else Z.sqrt value.
Proof.
  intros Hv. unfold WebRtcSpl_SqrtFloor. cbv zeta.
  destruct (Z.ltb_spec value 0).
  { by rewrite !sqrt_iter_negative by lia. }
  assert (Hend : ∀ s, approx value 0 s → s.2 >>i 1 = Z.sqrt value).
  { intros s (R & -> & _ & HR & _ & Hlo & Hhi). rewrite Z.shiftr_div_pow2 by lia.
    change (2 ^ 1) with 2. rewrite (Z.mul_comm 2 R), Z.div_mul by lia.
    symmetry. apply Z.sqrt_unique. change (2 ^ 0) with 1 in Hhi. lia. }
  apply Hend. do 16 (apply sqrt_iter_approx; [lia|cranges; lia|]; simpl Z.add).
  exists 0. cbn [fst snd]. cranges. split_and!; try lia.
  apply Z.divide_0_r.
Qed.

Lemma SqrtFloor_exact_witness : WebRtcSpl_SqrtFloor 2147483647 = Z.sqrt 2147483647.
Proof. apply (SqrtFloor_exact 2147483647). unfold int32. lia. Defined.

(** ** The polynomial approximation

    On a normalised high word [x = 32768 - 2*v + d] with [1 <= v <= 8192] and
    [d] in {0, 1}, the code evaluates the polynomial [p] of the comment at
    [y = -v/2^15]; [poly] is [2^78 * p], with all terms integral. *)
Definition poly (v : Z) : Z :=
  2 ^ 78 - 2 ^ 63 * v - 2 ^ 47 * v ^ 2 - 2 ^ 32 * v ^ 3 - 5 * 2 ^ 15 * v ^ 4 - 7 * v ^ 5.

(** What WebRtcSpl_SqrtLocal computes, with its truncations and without
    wrap-around. *)
Definition local_value (v d : Z) : Z :=
  let a := - (- (2 * (v * v)) / 65536) in
  let t1 := 2 * (a * a) / 65536 in
  let t2 := - (2 * (v * t1)) / 65536 in
  let t3 := 2 * (v * v) / 65536 in
  2147483648 - 65536 * v + 32768 * d + 32768 - v * v - 40960 * t1 + 57344 * t2 - v * t3.

Lemma local_value_eq v d :
  1 ≤ v ≤ 8192 → 0 ≤ d ≤ 1 →
  WebRtcSpl_SqrtLocal ((32768 - 2 * v + d) * 65536) = local_value v d ∧
  0 ≤ local_value v d ≤ 2147483647.
Proof.
  intros Hv Hd. unfold WebRtcSpl_SqrtLocal, local_value. cbv zeta.
  rewrite !shiftr_div by lia.
  change (2 ^ 16) with 65536. change (2 ^ 1) with 2.
  replace (Z.quot ((32768 - 2 * v + d) * 65536) 2) with (1073741824 - 65536 * v + 32768 * d)
    by (rewrite Z.quot_div_nonneg by lia; apply Z.div_unique with 0; lia).
  rewrite (s32_id (1073741824 - 65536 * v + 32768 * d - 1073741824)) by (cranges; lia).
  replace ((1073741824 - 65536 * v + 32768 * d - 1073741824) / 65536) with (- v)
    by (apply Z.div_unique with (32768 * d); lia).
  rewrite (s16_id (- v)) by (cranges; lia).
  assert (1 ≤ v * v ≤ 67108864) by nia.
  rewrite (s32_id (- v * - v)) by (cranges; lia).
  replace (- v * - v * 2) with (2 * (v * v)) by lia.
  rewrite (s32_id (2 * (v * v))), (s32_id (- (2 * (v * v)))) by (cranges; lia).
  set (a := - (- (2 * (v * v)) / 65536)).
  replace (- (2 * (v * v)) / 65536) with (- a) by lia.
  assert (0 ≤ a ≤ 2048) by (subst a; Z.to_euclidean_division_equations; lia).
  assert (0 ≤ a * a ≤ 4194304) by nia.
  rewrite (s32_id (- a * - a)) by (cranges; lia).
  replace (- a * - a * 2) with (2 * (a * a)) by lia.
  rewrite (s32_id (2 * (a * a))) by (cranges; lia).
  set (t1 := 2 * (a * a) / 65536).
  assert (0 ≤ t1 ≤ 128) by (subst t1; Z.to_euclidean_division_equations; lia).
  rewrite (s16_id t1) by (cranges; lia).
  assert (0 ≤ v * t1 ≤ 1048576) by nia.
  rewrite (s32_id (- v * t1)) by (cranges; lia).
  replace (- v * t1 * 2) with (- (2 * (v * t1))) by lia.
  rewrite (s32_id (- (2 * (v * t1)))) by (cranges; lia).
  set (t2 := - (2 * (v * t1)) / 65536).
  assert (-32 ≤ t2 ≤ 0) by (subst t2; Z.to_euclidean_division_equations; lia).
  rewrite (s16_id t2) by (cranges; lia).
  set (t3 := 2 * (v * v) / 65536).
  assert (0 ≤ t3 ≤ 2048) by (subst t3; Z.to_euclidean_division_equations; lia).
  rewrite (s16_id t3) by (cranges; lia).
  assert (0 ≤ v * t3 ≤ 16777216) by nia.
  rewrite (s32_id (- v * t3)) by (cranges; lia).
  rewrite (s32_id (- v * t3 * 2)), Z.div_mul by (cranges; lia).
  replace (- (2 * (v * v)) / 2) with (- (v * v)) by (apply Z.div_unique with 0; lia).
  cinner. lia.
Qed.

(** The powers of [v] and their truncations. *)
Section powers.
Context (v : Z) (Hv : 1 ≤ v ≤ 8192).

Lemma pow_bound k m : 0 ≤ k → 8192 ^ k = m → 1 ≤ v ^ k ≤ m.
Proof using Hv.
  intros Hk <-. split; [pose proof (Z.pow_pos_nonneg v k); lia|].
  apply Z.pow_le_mono_l. lia.
Qed.

(** [poly] squared is [2^156 * (1 + 2y)] and a small positive remainder. *)
Lemma poly_square :
  0 ≤ 1300 * (poly v * poly v - (2 ^ 156 - 2 ^ 142 * v)) ≤ 2 ^ 156.
Proof using Hv.
  assert (poly v * poly v = 2 ^ 156 - 2 ^ 142 * v + (21 * 2 ^ 63 * v ^ 6 + 3 * 2 ^ 50 * v ^ 7
            + 81 * 2 ^ 30 * v ^ 8 + 35 * 2 ^ 16 * v ^ 9 + 49 * v ^ 10)) as -> by (unfold poly; ring).
  pose proof (pow_bound 6 (2 ^ 78) ltac:(lia) eq_refl). pose proof (pow_bound 7 (2 ^ 91) ltac:(lia) eq_refl).
  pose proof (pow_bound 8 (2 ^ 104) ltac:(lia) eq_refl). pose proof (pow_bound 9 (2 ^ 117) ltac:(lia) eq_refl).
  pose proof (pow_bound 10 (2 ^ 130) ltac:(lia) eq_refl). lia.
Qed.

Lemma poly_range : 2 ^ 77 ≤ poly v ≤ 2 ^ 78.
Proof using Hv.
  unfold poly.
  pose proof (pow_bound 2 (2 ^ 26) ltac:(lia) eq_refl). pose proof (pow_bound 3 (2 ^ 39) ltac:(lia) eq_refl).
  pose proof (pow_bound 4 (2 ^ 52) ltac:(lia) eq_refl). pose proof (pow_bound 5 (2 ^ 65) ltac:(lia) eq_refl). lia.
Qed.

(** The truncated evaluation is close to the polynomial. *)
Lemma local_value_poly d : 0 ≤ d ≤ 1 →
  poly v - 2 ^ 47 * 31500 ≤ 2 ^ 47 * local_value v d ≤ poly v + 2 ^ 47 * 129024.
Proof using Hv.
  intros Hd. unfold poly, local_value. cbv zeta.
  set (a := - (- (2 * (v * v)) / 65536)).
  assert (Ha : v * v ≤ 32768 * a < v * v + 32768)
    by (subst a; Z.to_euclidean_division_equations; lia).
  set (t1 := 2 * (a * a) / 65536).
  assert (Ht1 : 32768 * t1 ≤ a * a < 32768 * t1 + 32768)
    by (subst t1; Z.to_euclidean_division_equations; lia).
  set (t2 := - (2 * (v * t1)) / 65536).
  assert (Ht2 : 32768 * t2 ≤ - (v * t1) < 32768 * t2 + 32768)
    by (subst t2; Z.to_euclidean_division_equations; lia).
  set (t3 := 2 * (v * v) / 65536).
  assert (Ht3 : 32768 * t3 ≤ v * v < 32768 * t3 + 32768)
    by (subst t3; Z.to_euclidean_division_equations; lia).
  clearbody a t1 t2 t3.
  assert (Hv2 : 1 ≤ v * v ≤ 67108864) by nia.
  assert (Ha4 : v * v * (v * v) ≤ 1073741824 * (a * a) ≤
                v * v * (v * v) + 65536 * (v * v) + 1073741824) by nia.
  assert (Hvt1 : v * (a * a) - 32768 * v ≤ 32768 * (v * t1) ≤ v * (a * a)) by nia.
  assert (Hv5 : v * (v * v * (v * v)) ≤ 1073741824 * (v * (a * a)) ≤
                v * (v * v * (v * v)) + 65536 * (v * (v * v)) + 1073741824 * v) by nia.
  assert (Hv3 : v * (v * v) - 32768 * v ≤ 32768 * (v * t3) ≤ v * (v * v)) by nia.
  assert (Hv3' : v * (v * v) ≤ 67108864 * v) by nia.
  replace (v ^ 2) with (v * v) by ring. replace (v ^ 3) with (v * (v * v)) by ring.
  replace (v ^ 4) with (v * v * (v * v)) by ring.
  replace (v ^ 5) with (v * (v * v * (v * v))) by ring.
  lia.
Qed.
End powers.

Lemma square_le a b : 0 ≤ a ≤ b → a * a ≤ b * b.
Proof. nia. Qed.

(** The square of the high word of the result, against the argument. *)
Lemma local_root v d :
  1 ≤ v ≤ 8192 → 0 ≤ d ≤ 1 →
  let T := local_value v d / 65536 in let x := 32768 - 2 * v + d in
  0 ≤ T ≤ 32767 ∧ 2 * (T * T) ≤ 65536 * x + 1950000 ∧ 65536 * x ≤ 2 * (T * T) + 260000.
Proof.
  intros Hv Hd. cbv zeta. destruct (local_value_eq v d Hv Hd) as [_ HL].
  pose proof (local_value_poly v Hv d Hd) as HP. pose proof (poly_square v Hv) as Hsq.
  pose proof (poly_range v Hv) as Hr. set (L := local_value v d) in *.
  set (T := L / 65536). assert (65536 * T ≤ L < 65536 * T + 65536)
    by (subst T; Z.to_euclidean_division_equations; lia).
  clearbody L T. set (P := poly v) in *. clearbody P.
  assert (0 ≤ T ≤ 32767) by lia. split; [done|].
  pose proof (square_le (2 ^ 63 * T) (P + 2 ^ 47 * 129024) ltac:(lia)) as Hup.
  pose proof (square_le P (2 ^ 63 * T + 2 ^ 47 * 97036) ltac:(lia)) as Hlo.
  replace ((P + 2 ^ 47 * 129024) * (P + 2 ^ 47 * 129024))
    with (P * P + 2 ^ 48 * 129024 * P + 2 ^ 94 * 129024 * 129024) in Hup by ring.
  replace (2 ^ 63 * T * (2 ^ 63 * T)) with (2 ^ 126 * (T * T)) in Hup by ring.
  replace ((2 ^ 63 * T + 2 ^ 47 * 97036) * (2 ^ 63 * T + 2 ^ 47 * 97036))
    with (2 ^ 126 * (T * T) + 2 ^ 111 * 97036 * T + 2 ^ 94 * 97036 * 97036) in Hlo by ring.
  lia.
Qed.

Lemma land_high A : 0 ≤ A < 2147483648 → Z.land A 0x7fff0000 = 65536 * (A / 65536).
Proof.
  intros HA. change 0x7fff0000 with (Z.shiftl (Z.ones 15) 16).
  assert (Z.land A (Z.shiftl (Z.ones 15) 16) = Z.shiftl (Z.land (Z.shiftr A 16) (Z.ones 15)) 16) as ->.
  { apply Z.bits_inj'. intros i Hi. rewrite Z.land_spec.
    destruct (Z.ltb_spec i 16).
    - by rewrite !Z.shiftl_spec_low, andb_false_r by lia.
    - rewrite !Z.shiftl_spec, Z.land_spec, Z.shiftr_spec by lia.
      by replace (i - 16 + 16) with i by lia. }
  rewrite Z.land_ones, Z.shiftl_mul_pow2, Z.shiftr_div_pow2 by lia.
  change (2 ^ 16) with 65536. change (2 ^ 15) with 32768.
  rewrite Z.mod_small; Z.to_euclidean_division_equations; lia.
Qed.

Lemma land_low A : 0 ≤ A < 65536 → Z.land A 0x0000ffff = A.
Proof. intros. change 0x0000ffff with (Z.ones 16). rewrite Z.land_ones by lia. by apply Z.mod_small. Qed.

(** The scaled root in closed form. *)
Lemma sqrt_scaled_eq v d even :
  1 ≤ v ≤ 8192 → 0 ≤ d ≤ 1 →
  sqrt_scaled (32768 - 2 * v + d) even =
  let T := local_value v d / 65536 in
  if even then 2 * ((46340 * T + 32768) / 65536) else T.
Proof.
  intros Hv Hd. destruct (local_root v d Hv Hd) as [HT _]. cbv zeta in *.
  unfold sqrt_scaled. rewrite !Z.shiftl_mul_pow2, !Z.shiftr_div_pow2 by lia.
  change (2 ^ 16) with 65536. change (2 ^ 15) with 32768.
  rewrite (s32_id (_ * 65536)) by (cranges; lia).
  rewrite (proj2 (Z.leb_le 0 _)) by lia.
  rewrite (proj1 (local_value_eq v d Hv Hd)).
  set (T := local_value v d / 65536) in *. clearbody T.
  destruct even; [|apply land_low; lia].
  rewrite (s16_id T) by (cranges; lia). rewrite (s32_id (23170 * T)) by (cranges; lia).
  rewrite (s32_id (23170 * T * 2)), (s32_id (23170 * T * 2 + 32768)) by (cranges; lia).
  replace (23170 * T * 2) with (46340 * T) by lia. rewrite land_high by lia.
  rewrite land_low; Z.to_euclidean_division_equations; lia.
Qed.

Lemma sqrt_scaled_bounds x even :
  16384 ≤ x ≤ 32767 →
  let f := if even : bool then 1 else 2 in let S := sqrt_scaled x even in
  0 ≤ S < 65536 ∧
  512 * (f * (S * S)) ≤ 513 * Z.max 1073741824 (x * 65536 - 32768) ∧
  2048 * (x * 65536 + 65535) < 2049 * (f * (S * S)).
Proof.
  intros Hx. cbv zeta.
  assert (∃ v d, 1 ≤ v ≤ 8192 ∧ 0 ≤ d ≤ 1 ∧ x = 32768 - 2 * v + d) as (v & d & Hv & Hd & ->).
  { exists ((32769 - x) / 2), (1 - (32769 - x) mod 2).
    Z.to_euclidean_division_equations; lia. }
  rewrite (sqrt_scaled_eq v d) by lia.
  destruct (local_root v d Hv Hd) as (HT & Hup & Hlo). cbv zeta in *.
  set (T := local_value v d / 65536) in *. clearbody T.
  set (x := 32768 - 2 * v + d) in *. clearbody x.
  destruct even; [|lia].
  set (h := (46340 * T + 32768) / 65536).
  assert (Hh : 46340 * T - 32768 ≤ 65536 * h ≤ 46340 * T + 32768)
    by (subst h; Z.to_euclidean_division_equations; lia).
  clearbody h. assert (0 ≤ h ≤ 23170) by lia. assert (22000 ≤ T) by nia.
  pose proof (square_le (65536 * h) (46340 * T + 32768) ltac:(lia)) as Hsu.
  pose proof (square_le (46340 * T - 32768) (65536 * h) ltac:(lia)) as Hsl.
  split; [lia|]. split; lia.
Qed.

(** Normalisation: [m * 2^sh] has its highest bit at position 30. *)
Lemma norm_fill m : 0 < m ≤ 2147483647 →
  let sh := WebRtcSpl_NormW32 m in
  0 ≤ sh ≤ 30 ∧ 1073741824 ≤ m * 2 ^ sh ≤ 2147483647.
Proof.
  intros Hm. cbv zeta. rewrite NormW32_eq by (cranges; lia). unfold norm_mag.
  rewrite (proj2 (Z.ltb_ge m 0)), (proj2 (Z.eqb_neq m 0)) by lia.
  pose proof (log2_small m 31 ltac:(lia)) as Hl.
  pose proof (Z.log2_spec m ltac:(lia)) as Hs. rewrite Z.pow_succ_r in Hs by lia.
  pose proof (pow2_fill (Z.log2 m) ltac:(lia)).
  pose proof (Z.pow_pos_nonneg 2 (30 - Z.log2 m)). split; [lia|]. nia.
Qed.

(** Rounding to the high word keeps it within the interval of [sqrt_scaled_bounds]. *)
Lemma round_high N : 1073741824 ≤ N ≤ 2147483647 →
  let A := if N <? 2147483647 -i 32767 then N +i 32768 else 2147483647 in
  let x := s16 (A >>i 16) in
  16384 ≤ x ≤ 32767 ∧ Z.max 1073741824 (x * 65536 - 32768) ≤ N ≤ x * 65536 + 65535.
Proof.
  intros HN. cbv zeta. change (2147483647 -i 32767) with 2147450880.
  destruct (Z.ltb_spec N 2147450880).
  - rewrite (s32_id (N + 32768)) by (cranges; lia).
    rewrite shiftr_div by lia. change (2 ^ 16) with 65536.
    rewrite s16_id by (cranges; Z.to_euclidean_division_equations; lia).
    Z.to_euclidean_division_equations; lia.
  - change (s16 (2147483647 >>i 16)) with 32767. lia.
Qed.

(** De-normalising divides the root by [2^n] and the square by [4^n]. *)
Lemma denormalise S m f q N :
  0 < q → 0 < f → 0 ≤ S → N = m * (f * (q * q)) →
  512 * (f * (S * S)) ≤ 513 * N → 2048 * N < 2049 * (f * (S * S)) →
  let r := S / q in 0 ≤ r ∧ 512 * (r * r) ≤ 513 * m ∧ 2048 * m < 2049 * ((r + 1) * (r + 1)).
Proof.
  intros Hq Hf HS -> Hup Hlo. cbv zeta. pose proof (Z.div_pos S q HS Hq) as Hr.
  pose proof (Z.mul_div_le S q Hq) as H1. pose proof (Z.mul_succ_div_gt S q Hq) as H2.
  set (r := S / q) in *. clearbody r.
  pose proof (square_le (q * r) S ltac:(nia)) as Hr1.
  pose proof (square_le S (q * (r + 1)) ltac:(lia)) as Hr2.
  assert (0 < f * (q * q)) by nia.
  split; [done|]. split.
  - apply (Z.mul_le_mono_pos_r _ _ (f * (q * q))); [done|].
    apply (Z.mul_le_mono_nonneg_l _ _ f) in Hr1; lia.
  - apply (Z.mul_lt_mono_pos_r (f * (q * q))); [done|].
    apply (Z.mul_le_mono_nonneg_l _ _ f) in Hr2; lia.
Qed.

(** The magnitude whose root is taken: INT_MIN counts as INT_MAX. *)
Definition magnitude (value : Z) : Z := Z.min (Z.abs value) 2147483647.

(** Accuracy of the approximate square root. For every 32-bit argument
    WebRtcSpl_Sqrt runs without an undefined shift and returns a non-negative
    [r] that approximates the root of the magnitude [m] of the argument: the
    square of [r] is at most 1/512 larger than [m], and [m] is less than 1/2048
    larger than the square of [r + 1]. *)
Theorem Sqrt_accuracy (value : Z) :
  int32 value →
  wp (WebRtcSpl_Sqrt value) (λ r,
    0 ≤ r ∧ 512 * (r * r) ≤ 513 * magnitude value ∧
    2048 * magnitude value < 2049 * ((r + 1) * (r + 1))).
Proof.
  intros Hv. unfold WebRtcSpl_Sqrt, magnitude.
  destruct (Z.eqb_spec value 0) as [-> |]; [simpl; lia|]. cbv zeta.
  assert ((if value <? 0 then (if value =? -2147483648 then 2147483647 else -i value) else value)
          = Z.min (Z.abs value) 2147483647) as ->.
  { destruct (Z.ltb_spec value 0); [|cranges; lia].
    destruct (Z.eqb_spec value (-2147483648)) as [-> |]; [done|].
    rewrite s32_id by (cranges; lia). cranges; lia. }
  assert (Hm : 0 < Z.min (Z.abs value) 2147483647 ≤ 2147483647) by (cranges; lia).
  set (m := Z.min (Z.abs value) 2147483647) in *. clearbody m.
  destruct (norm_fill m Hm) as [Hsh HN]. set (sh := WebRtcSpl_NormW32 m) in *. clearbody sh.
  unfold shl32. rewrite (proj2 (Z.leb_le 0 sh)), (proj2 (Z.ltb_lt sh 32)) by lia.
  rewrite Z.shiftl_mul_pow2, (s32_id (m * 2 ^ sh)) by (cranges; lia). apply wp_bind, wp_ret.
  destruct (round_high (m * 2 ^ sh) HN) as [Hx Hint].
  set (x := s16 _) in *. clearbody x.
  assert (Hn : s16 (Z.quot sh 2) = sh / 2).
  { rewrite Z.quot_div_nonneg by lia. apply s16_id. cranges. Z.to_euclidean_division_equations; lia. }
  rewrite Hn. assert (Hn0 : 0 ≤ sh / 2 ≤ 15) by (Z.to_euclidean_division_equations; lia).
  apply wp_bind, wp_dcheck; [apply Z.leb_le; lia|].
  unfold shr32. rewrite (proj2 (Z.leb_le 0 (sh / 2))), (proj2 (Z.ltb_lt (sh / 2) 32)) by lia.
  apply wp_ret. rewrite Z.shiftr_div_pow2, (s32_id (2 * (sh / 2))) by (cranges; lia).
  set (even := 2 * (sh / 2) =? sh).
  destruct (sqrt_scaled_bounds x even Hx) as (HS & Hup & Hlo).
  eapply (denormalise _ m (if even then 1 else 2) _ (m * 2 ^ sh));
    [apply Z.pow_pos_nonneg; lia|by destruct even|apply HS| |lia|lia].
  f_equal. rewrite <- Z.pow_add_r by lia.
  subst even. destruct (Z.eqb_spec (2 * (sh / 2)) sh).
  - rewrite Z.mul_1_l. f_equal. lia.
  - rewrite <- Z.pow_succ_r by lia. f_equal. Z.to_euclidean_division_equations; lia.
Qed.

Lemma Sqrt_accuracy_witness :
  wp (WebRtcSpl_Sqrt (-73632)) (λ r,
    0 ≤ r ∧ 512 * (r * r) ≤ 513 * magnitude (-73632) ∧
    2048 * magnitude (-73632) < 2049 * ((r + 1) * (r + 1))).
Proof. apply (Sqrt_accuracy (-73632)). unfold int32. lia. Defined.

(** The worked example of the source comment. *)
Example Sqrt_73632 : WebRtcSpl_Sqrt 73632 = Some 271.
Proof. reflexivity. Qed.

End Sqrt.
