(* ===== verification/VectorOps.v ===== *)
(** * Element-wise vector operations
    (common_audio/signal_processing: copy_set_operations.c,
    vector_operations.c, vector_scaling_operations.c)

    The routines take pointers, and their callers pass overlapping ones (an
    output that is also an input). A pointer into the 16-bit (or 32-bit) memory
    [m] is an offset; loads and stores outside the memory are undefined. The
    lemma [stream_loop] verifies the common loop once: a loop that stores to
    consecutive cells and loads no cell it has overwritten computes an
    element-wise function of the memory it started from. *)

From S2P Require Import Prelude SplInl.
Import SplInl.

Module VectorOps.

(** ** copy_set_operations.c *)

Definition WebRtcSpl_MemSetW16 (m : list Z) (ptr : nat) (set_value : Z) (length : nat)
  : option (list Z) :=
  for_loop length 0 (λ j m, wr m (ptr + j) set_value) m.

Definition WebRtcSpl_MemSetW32 (m : list Z) (ptr : nat) (set_value : Z) (length : nat)
  : option (list Z) :=
  for_loop length 0 (λ j m, wr m (ptr + j) set_value) m.

(** The destination pointer moves down. *)
Definition WebRtcSpl_MemCpyReversedOrder (m : list Z) (dest source length : nat)
  : option (list Z) :=
  for_loop length 0 (λ j m,
    x ← m !! (source + j)%nat;
    wrz m (Z.of_nat dest - Z.of_nat j) x) m.

(** [length - samples] is computed in size_t: below 0 it wraps to an address
    outside every array. *)
Definition WebRtcSpl_CopyFromEndW16 (vector_in : list Z) (length samples : nat)
    (vector_out : list Z) : option (list Z) :=
  if decide (samples ≤ length)%nat
  then memcpy vector_out 0 vector_in (length - samples) samples
  else None.

Definition WebRtcSpl_ZerosArrayW16 (m : list Z) (vector length : nat) : option (list Z) :=
  WebRtcSpl_MemSetW16 m vector 0 length.

Definition WebRtcSpl_ZerosArrayW32 (m : list Z) (vector length : nat) : option (list Z) :=
  WebRtcSpl_MemSetW32 m vector 0 length.

(** ** vector_operations.c *)

Definition WebRtcSpl_ReverseOrderMultArrayElements (m : list Z) (out inp win vector_length : nat)
    (right_shifts : Z) : option (list Z) :=
  for_loop vector_length 0 (λ i m,
    x ← m !! (inp + i)%nat;
    w ← rdz m (Z.of_nat win - Z.of_nat i);
    y ← shr32 (x *i w) right_shifts;
    wr m (out + i) (s16 y)) m.

Definition WebRtcSpl_ElementwiseVectorMult (m : list Z) (out inp win vector_length : nat)
    (right_shifts : Z) : option (list Z) :=
  for_loop vector_length 0 (λ i m,
    x ← m !! (inp + i)%nat;
    w ← m !! (win + i)%nat;
    y ← shr32 (x *i w) right_shifts;
    wr m (out + i) (s16 y)) m.

Definition WebRtcSpl_AddVectorsAndShift (m : list Z) (out in1 in2 vector_length : nat)
    (right_shifts : Z) : option (list Z) :=
  for_loop vector_length 0 (λ i m,
    x ← m !! (in1 + i)%nat;
    w ← m !! (in2 + i)%nat;
    y ← shr32 (x +i w) right_shifts;
    wr m (out + i) (s16 y)) m.

Definition WebRtcSpl_AddAffineVectorToVector (m : list Z) (out inp : nat)
    (gain add_constant right_shifts : Z) (vector_length : nat) : option (list Z) :=
  for_loop vector_length 0 (λ i m,
    x ← m !! (inp + i)%nat;
    y ← shr32 (x *i gain +i add_constant) right_shifts;
    o ← m !! (out + i)%nat;
    wr m (out + i) (s16 (o +i s16 y))) m.

Definition WebRtcSpl_AffineTransformVector (m : list Z) (out inp : nat)
    (gain add_constant right_shifts : Z) (vector_length : nat) : option (list Z) :=
  for_loop vector_length 0 (λ i m,
    x ← m !! (inp + i)%nat;
    y ← shr32 (x *i gain +i add_constant) right_shifts;
    wr m (out + i) (s16 y)) m.

(** ** vector_scaling_operations.c *)

Definition WebRtcSpl_VectorBitShiftW16 (m : list Z) (res length inp : nat) (right_shifts : Z)
  : option (list Z) :=
  if 0 <? right_shifts then
    for_loop length 0 (λ i m,
      x ← m !! (inp + i)%nat;
      y ← shr32 x right_shifts;
      wr m (res + i) (s16 y)) m
  else
    for_loop length 0 (λ i m,
      x ← m !! (inp + i)%nat;
      p ← shl32 1 (-i right_shifts);
      wr m (res + i) (s16 (x *i p))) m.

Definition WebRtcSpl_VectorBitShiftW32 (m : list Z) (out_vector vector_length in_vector : nat)
    (right_shifts : Z) : option (list Z) :=
  if 0 <? right_shifts then
    for_loop vector_length 0 (λ i m,
      x ← m !! (in_vector + i)%nat;
      y ← shr32 x right_shifts;
      wr m (out_vector + i) y) m
  else
    for_loop vector_length 0 (λ i m,
      x ← m !! (in_vector + i)%nat;
      y ← shl32 x (-i right_shifts);
      wr m (out_vector + i) y) m.

(** The input is a 32-bit array, the output another array of 16-bit words. *)
Definition WebRtcSpl_VectorBitShiftW32ToW16 (out : list Z) (length : nat) (inp : list Z)
    (right_shifts : Z) : option (list Z) :=
  if 0 <=? right_shifts then
    for_loop length 0 (λ i out,
      x ← inp !! i;
      tmp_w32 ← shr32 x right_shifts;
      wr out i (WebRtcSpl_SatW32ToW16 tmp_w32)) out
  else
    let left_shifts := -i right_shifts in
    for_loop length 0 (λ i out,
      x ← inp !! i;
      tmp_w32 ← shl32 x left_shifts;
      wr out i (WebRtcSpl_SatW32ToW16 tmp_w32)) out.

Definition WebRtcSpl_ScaleVector (m : list Z) (in_vector out_vector : nat) (gain : Z)
    (in_vector_length : nat) (right_shifts : Z) : option (list Z) :=
  for_loop in_vector_length 0 (λ i m,
    x ← m !! (in_vector + i)%nat;
    y ← shr32 (x *i gain) right_shifts;
    wr m (out_vector + i) (s16 y)) m.

Definition WebRtcSpl_ScaleVectorWithSat (m : list Z) (in_vector out_vector : nat) (gain : Z)
    (in_vector_length : nat) (right_shifts : Z) : option (list Z) :=
  for_loop in_vector_length 0 (λ i m,
    x ← m !! (in_vector + i)%nat;
    y ← shr32 (x *i gain) right_shifts;
    wr m (out_vector + i) (WebRtcSpl_SatW32ToW16 y)) m.

Definition WebRtcSpl_ScaleAndAddVectors (m : list Z) (in1 : nat) (gain1 shift1 : Z)
    (in2 : nat) (gain2 shift2 : Z) (out vector_length : nat) : option (list Z) :=
  for_loop vector_length 0 (λ i m,
    x ← m !! (in1 + i)%nat;
    y ← shr32 (gain1 *i x) shift1;
    w ← m !! (in2 + i)%nat;
    z ← shr32 (gain2 *i w) shift2;
    wr m (out + i) (s16 (s16 y +i s16 z))) m.

(** Returns the status and the memory; NULL is [None]. The rounding constant is
    computed before the arguments are checked. *)
Definition WebRtcSpl_ScaleAndAddVectorsWithRoundC (m : list Z)
    (in_vector1 : option nat) (in_vector1_scale : Z)
    (in_vector2 : option nat) (in_vector2_scale : Z)
    (right_shifts : Z) (out_vector : option nat) (length : nat) : option (Z * list Z) :=
  one ← shl32 1 right_shifts;
  let round_value := one >>i 1 in
  match in_vector1, in_vector2, out_vector with
  | Some in1, Some in2, Some out =>
      if (length =? 0)%nat || (right_shifts <? 0) then Some (-1, m)
      else
        m ← for_loop length 0 (λ i m,
              x ← m !! (in1 + i)%nat;
              w ← m !! (in2 + i)%nat;
              y ← shr32 (x *i in_vector1_scale +i w *i in_vector2_scale +i round_value)
                        right_shifts;
              wr m (out + i) (s16 y)) m;
        Some (0, m)
  | _, _, _ => Some (-1, m)
  end.

(** ** The common loop *)

(** A pointer [p] read in step with the stores at [o]: its cells are read before
    they are overwritten. Equal pointers and disjoint ranges qualify. *)
Definition reads_ahead (p o n : nat) : Prop := (o ≤ p ∨ p + n ≤ o)%nat.

(** [m'] is [m] but for the cells [o, o + i). *)
Definition agrees_outside (m m' : list Z) (o i : nat) : Prop :=
  length m' = length m ∧ ∀ p, (p < o ∨ o + i ≤ p)%nat → m' !! p = m !! p.

Lemma stream_loop (m : list Z) (o n : nat) (g : nat → Z)
    (body : nat → list Z → option (list Z)) :
  (o + n ≤ length m)%nat →
  (∀ i m', (i < n)%nat → agrees_outside m m' o i → body i m' = wr m' (o + i) (g i)) →
  wp (for_loop n 0 body m) (wrote m o n g).
Proof.
  intros Hn Hbody. apply (wp_for (λ i m', wrote m o i g m')).
  - apply wrote_nil.
  - intros i m' Hi Hw. rewrite Hbody; [|lia|by destruct Hw as (? & _ & ?)].
    eapply wp_wrote_snoc; [exact Hw|lia|done|done].
  - done.
Qed.

Lemma read_ahead (m m' : list Z) (p o n i : nat) :
  reads_ahead p o n → (i < n)%nat → (p + n ≤ length m)%nat → agrees_outside m m' o i →
  m' !! (p + i)%nat = Some (m !!! (p + i)%nat).
Proof.
  intros Hp Hi Hl [_ Hag]. unfold reads_ahead in *.
  rewrite Hag by lia. apply lookup_total_Some. lia.
Qed.

Lemma shr32_val a n : 0 ≤ n < 32 → shr32 a n = Some (Z.shiftr a n).
Proof.
  intros. unfold shr32. by rewrite (proj2 (Z.leb_le 0 n)), (proj2 (Z.ltb_lt n 32)) by lia.
Qed.

Lemma shl32_val a n : 0 ≤ n < 32 → shl32 a n = Some (s32 (Z.shiftl a n)).
Proof.
  intros. unfold shl32. by rewrite (proj2 (Z.leb_le 0 n)), (proj2 (Z.ltb_lt n 32)) by lia.
Qed.

(** One iteration: the loads see the original memory, the shifts are defined. *)
Ltac stream_step :=
  let i := fresh "i" in let Hi := fresh "Hi" in let Hag := fresh "Hag" in
  intros i ? Hi Hag;
  repeat match goal with
  | Hr : reads_ahead ?p ?o ?n, H : agrees_outside ?m ?m' ?o i |- context [?m' !! (?p + i)%nat] =>
      rewrite (read_ahead m m' p o n i Hr Hi ltac:(lia) H); cbn [mbind option_bind]
  end;
  rewrite ?shr32_val, ?shl32_val by lia; cbn [mbind option_bind];
  rewrite ?SatW32ToW16_clamp.

Ltac run_stream := apply stream_loop; [lia|stream_step; try done].

Section in_place.
Context (m : list Z) (Hm : Forall int16 m).

Lemma mem_int16 p : int16 (m !!! p).
Proof using Hm.
  destruct (decide (p < length m)%nat) as [Hp|Hp].
  - apply (Forall_lookup_1 int16 m p); [done|]. by apply lookup_total_Some.
  - rewrite list_lookup_total_alt, lookup_ge_None_2 by lia. unfold int16. simpl. lia.
Qed.

(** A product of two 16-bit values fits 32 bits. *)
Lemma mul16 p g : int16 g → s32 (m !!! p * g) = m !!! p * g.
Proof using Hm. intros Hg. pose proof (mem_int16 p). apply s32_id. cranges. nia. Qed.
End in_place.

(** Scaling in place. With 16-bit samples and gain, a shift in [0, 31] and an
    input that is read ahead of the stores (in particular out = in), the two
    scaling routines store for every sample the product with the gain, shifted
    right - reduced modulo 2^16 by ScaleVector, saturated to the 16-bit range by
    ScaleVectorWithSat - and change no other cell. *)
Theorem ScaleVector_in_place (m : list Z) (inp out n : nat) (gain shift : Z) :
  Forall int16 m → int16 gain → 0 ≤ shift < 32 →
  (inp + n ≤ length m)%nat → (out + n ≤ length m)%nat → reads_ahead inp out n →
  wp (WebRtcSpl_ScaleVector m inp out gain n shift)
     (wrote m out n (λ i, s16 (Z.shiftr (m !!! (inp + i)%nat * gain) shift))) ∧
  wp (WebRtcSpl_ScaleVectorWithSat m inp out gain n shift)
     (wrote m out n (λ i, clamp (-32768) 32767 (Z.shiftr (m !!! (inp + i)%nat * gain) shift))).
Proof.
  intros Hm Hg Hs Hi Ho Hr. split; run_stream; by rewrite mul16.
Qed.

Lemma ScaleVector_in_place_witness :
  wp (WebRtcSpl_ScaleVectorWithSat [100; -32768; 7] 0 0 32767 3 1)
     (wrote [100; -32768; 7] 0 3
        (λ i, clamp (-32768) 32767 (Z.shiftr ([100; -32768; 7] !!! (0 + i)%nat * 32767) 1))).
Proof.
  apply (ScaleVector_in_place [100; -32768; 7] 0 0 3 32767 1);
    unfold reads_ahead, int16; simpl; try lia.
  repeat constructor; lia.
Defined.

Lemma MemSet_wrote (m : list Z) (ptr n : nat) (v : Z) :
  (ptr + n ≤ length m)%nat →
  wp (WebRtcSpl_MemSetW16 m ptr v n) (wrote m ptr n (λ _, v)) ∧
  wp (WebRtcSpl_MemSetW32 m ptr v n) (wrote m ptr n (λ _, v)).
Proof. intros. split; run_stream. Qed.

Lemma ZerosArray_wrote (m : list Z) (ptr n : nat) :
  (ptr + n ≤ length m)%nat →
  wp (WebRtcSpl_ZerosArrayW16 m ptr n) (wrote m ptr n (λ _, 0)) ∧
  wp (WebRtcSpl_ZerosArrayW32 m ptr n) (wrote m ptr n (λ _, 0)).
Proof. apply MemSet_wrote. Qed.

Lemma CopyFromEnd_last (vector_in vector_out : list Z) (samples : nat) :
  (samples ≤ length vector_in)%nat → (samples ≤ length vector_out)%nat →
  wp (WebRtcSpl_CopyFromEndW16 vector_in (length vector_in) samples vector_out) (λ out,
    take samples out = drop (length vector_in - samples) vector_in ∧
    drop samples out = drop samples vector_out).
Proof.
  intros Hi Ho. unfold WebRtcSpl_CopyFromEndW16. rewrite decide_True by done.
  apply wp_memcpy; [lia|lia|]. cbn [take app Nat.add].
  rewrite take_0, (take_ge (drop _ _)) by len. cbn [app]. split.
  - by rewrite take_app_length' by len.
  - by rewrite drop_app_length' by len.
Qed.

Section two_inputs.
Context (m : list Z) (in1 in2 out n : nat) (shift : Z).
Context (Hm : Forall int16 m) (Hs : 0 ≤ shift < 32).
Context (H1 : (in1 + n ≤ length m)%nat) (H2 : (in2 + n ≤ length m)%nat).
Context (Ho : (out + n ≤ length m)%nat).
Context (Hr1 : reads_ahead in1 out n) (Hr2 : reads_ahead in2 out n).

Lemma ElementwiseVectorMult_wrote :
  wp (WebRtcSpl_ElementwiseVectorMult m out in1 in2 n shift)
     (wrote m out n (λ i, s16 (Z.shiftr (m !!! (in1 + i)%nat * m !!! (in2 + i)%nat) shift))).
Proof using All. run_stream. by rewrite mul16 by (done || by apply mem_int16). Qed.

Lemma AddVectorsAndShift_wrote :
  wp (WebRtcSpl_AddVectorsAndShift m out in1 in2 n shift)
     (wrote m out n (λ i, s16 (Z.shiftr (m !!! (in1 + i)%nat + m !!! (in2 + i)%nat) shift))).
Proof using All.
  run_stream. pose proof (mem_int16 m Hm (in1 + i)). pose proof (mem_int16 m Hm (in2 + i)).
  rewrite s32_id by (cranges; lia). done.
Qed.

Lemma ScaleAndAddVectors_wrote gain1 gain2 shift2 :
  int16 gain1 → int16 gain2 → 0 ≤ shift2 < 32 →
  wp (WebRtcSpl_ScaleAndAddVectors m in1 gain1 shift in2 gain2 shift2 out n)
     (wrote m out n (λ i,
        s16 (s16 (Z.shiftr (m !!! (in1 + i)%nat * gain1) shift) +
             s16 (Z.shiftr (m !!! (in2 + i)%nat * gain2) shift2)))).
Proof using All.
  intros Hg1 Hg2 Hs2. run_stream.
  rewrite !(Z.mul_comm _ (m !!! _)), !mul16 by done.
  pose proof (s16_range (Z.shiftr (m !!! (in1 + i)%nat * gain1) shift)).
  pose proof (s16_range (Z.shiftr (m !!! (in2 + i)%nat * gain2) shift2)).
  rewrite (s32_id (_ + _)) by (cranges; lia). done.
Qed.
End two_inputs.

Section one_input.
Context (m : list Z) (inp out n : nat) (shift : Z).
Context (Hi : (inp + n ≤ length m)%nat) (Ho : (out + n ≤ length m)%nat).
Context (Hr : reads_ahead inp out n).

Lemma AffineTransformVector_wrote gain add_constant : 0 ≤ shift < 32 →
  wp (WebRtcSpl_AffineTransformVector m out inp gain add_constant shift n)
     (wrote m out n (λ i,
        s16 (Z.shiftr (m !!! (inp + i)%nat *i gain +i add_constant) shift))).
Proof using All. intros Hs. run_stream. Qed.

Lemma AddAffineVectorToVector_wrote gain add_constant : 0 ≤ shift < 32 →
  wp (WebRtcSpl_AddAffineVectorToVector m out inp gain add_constant shift n)
     (wrote m out n (λ i, s16 (m !!! (out + i)%nat +i
        s16 (Z.shiftr (m !!! (inp + i)%nat *i gain +i add_constant) shift)))).
Proof using All.
  intros Hs. assert (Hro : reads_ahead out out n) by (unfold reads_ahead; lia).
  run_stream.
Qed.

(** Right shifts are exact; left shifts are products modulo the width. *)
Lemma VectorBitShiftW16_wrote : Forall int16 m → -32 < shift < 32 →
  wp (WebRtcSpl_VectorBitShiftW16 m out n inp shift)
     (wrote m out n (λ i, s16 (if 0 <? shift then Z.shiftr (m !!! (inp + i)%nat) shift
                               else m !!! (inp + i)%nat *i s32 (2 ^ (- shift))))).
Proof using All.
  intros Hm Hs. unfold WebRtcSpl_VectorBitShiftW16.
  destruct (Z.ltb_spec 0 shift); [run_stream|].
  rewrite (s32_id (- shift)) by (cranges; lia). run_stream.
  by rewrite Z.shiftl_mul_pow2, Z.mul_1_l by lia.
Qed.

Lemma VectorBitShiftW32_wrote : -32 < shift < 32 →
  wp (WebRtcSpl_VectorBitShiftW32 m out n inp shift)
     (wrote m out n (λ i, if 0 <? shift then Z.shiftr (m !!! (inp + i)%nat) shift
                          else s32 (m !!! (inp + i)%nat * 2 ^ (- shift)))).
Proof using All.
  intros Hs. unfold WebRtcSpl_VectorBitShiftW32.
  destruct (Z.ltb_spec 0 shift); [run_stream|].
  rewrite (s32_id (- shift)) by (cranges; lia). run_stream.
  by rewrite Z.shiftl_mul_pow2 by lia.
Qed.
End one_input.

(** Saturating narrowing: exact up to saturation for right shifts; a left shift
    wraps to 32 bits before it saturates. *)
Lemma VectorBitShiftW32ToW16_wrote (out inp : list Z) (n : nat) (shift : Z) :
  (n ≤ length inp)%nat → (n ≤ length out)%nat → -32 < shift < 32 →
  wp (WebRtcSpl_VectorBitShiftW32ToW16 out n inp shift)
     (wrote out 0 n (λ i, clamp (-32768) 32767
        (if 0 <=? shift then Z.shiftr (inp !!! i) shift else s32 (inp !!! i * 2 ^ (- shift))))).
Proof.
  intros Hi Ho Hs. unfold WebRtcSpl_VectorBitShiftW32ToW16.
  destruct (Z.leb_spec 0 shift).
  2: rewrite (s32_id (- shift)) by (cranges; lia).
  all: apply stream_loop; [lia|]; intros i out' Hlt _;
    rewrite (lookup_total_Some inp i) by lia; cbn [mbind option_bind];
    rewrite ?shr32_val, ?shl32_val by lia; cbn [mbind option_bind];
    rewrite SatW32ToW16_clamp; [done || by rewrite Z.shiftl_mul_pow2 by lia].
Qed.

(** ** Reversed traversals *)

(** The window is read backwards from its last element; it must not overlap the
    output. *)
Lemma ReverseOrderMult_wrote (m : list Z) (out inp win n : nat) (shift : Z) :
  Forall int16 m → 0 ≤ shift < 32 →
  (inp + n ≤ length m)%nat → (out + n ≤ length m)%nat → reads_ahead inp out n →
  (n ≤ win + 1)%nat → (win < length m)%nat → (win < out ∨ out + n + n ≤ win + 1)%nat →
  wp (WebRtcSpl_ReverseOrderMultArrayElements m out inp win n shift)
     (wrote m out n (λ i,
        s16 (Z.shiftr (m !!! (inp + i)%nat * m !!! (win - i)%nat) shift))).
Proof.
  intros Hm Hs Hi Ho Hr Hw Hwl Hd. apply stream_loop; [done|].
  intros i m' Hlt [Hl Hag]. rewrite (read_ahead m m' inp out n i) by done.
  cbn [mbind option_bind]. rewrite rdz_nat by lia.
  rewrite (Hag (win - i)%nat), lookup_total_Some by lia. cbn [mbind option_bind].
  rewrite mul16 by (done || by apply mem_int16). rewrite shr32_val by lia. done.
Qed.

(** State of the reversed copy after [j] steps. *)
Definition reversed_upto (m : list Z) (dest source j : nat) (m' : list Z) : Prop :=
  length m' = length m ∧
  (∀ k, (k < j)%nat → m' !! (dest - k)%nat = m !! (source + k)%nat) ∧
  (∀ p, (p + j ≤ dest ∨ dest < p)%nat → m' !! p = m !! p).

Lemma reversed_step (m m' : list Z) (dest source j : nat) x :
  (j ≤ dest)%nat → (dest < length m)%nat → m !! (source + j)%nat = Some x →
  reversed_upto m dest source j m' →
  reversed_upto m dest source (S j) (<[(dest - j)%nat := x]> m').
Proof.
  intros Hj Hd Hx (Hl & Hw & Hu). split; [by rewrite length_insert|]. split.
  - intros k Hk. destruct (decide (k = j)) as [-> |].
    + by rewrite list_lookup_insert_eq by lia.
    + rewrite list_lookup_insert_ne by lia. apply Hw. lia.
  - intros p Hp. rewrite list_lookup_insert_ne by lia. apply Hu. lia.
Qed.

(** Reversed copy. When the source does not overlap the destination, the
    [length] cells that END at the destination pointer hold the source in
    reverse order afterwards, and every other cell is unchanged. *)
Theorem MemCpyReversedOrder_correct (m : list Z) (dest source n : nat) :
  (n ≤ dest + 1)%nat → (dest < length m)%nat → (source + n ≤ length m)%nat →
  (source + n + n ≤ dest + 1 ∨ dest < source)%nat →
  wp (WebRtcSpl_MemCpyReversedOrder m dest source n) (λ m',
    length m' = length m ∧
    take n (drop (dest + 1 - n) m') = reverse (take n (drop source m)) ∧
    ∀ p, (p + n ≤ dest ∨ dest < p)%nat → m' !! p = m !! p).
Proof.
  intros Hn Hd Hs Hdis. apply (wp_for (reversed_upto m dest source)).
  - split; [done|]. split; [lia|done].
  - intros j m' Hj Hinv. pose proof Hinv as (Hl & _ & Hu).
    rewrite Hu by lia. apply wp_bind, wp_lookup; [lia|]. intros x Hx.
    rewrite wrz_nat by lia. apply wp_wr; [lia|]. apply reversed_step; [lia|done|done|done].
  - intros m' (Hl & Hw & Hu). split; [done|]. split; [|done].
    apply list_eq. intros i. destruct (decide (i < n)%nat).
    + rewrite lookup_take_lt, lookup_drop by done.
      rewrite reverse_lookup by len. rewrite length_take, length_drop.
      rewrite lookup_take_lt, lookup_drop by lia.
      replace (dest + 1 - n + i)%nat with (dest - (n - 1 - i))%nat by lia.
      rewrite Hw by lia. f_equal. lia.
    + rewrite lookup_take_ge by lia. symmetry. apply lookup_ge_None_2.
      rewrite length_reverse. len.
Qed.

Lemma MemCpyReversedOrder_correct_witness :
  wp (WebRtcSpl_MemCpyReversedOrder [1; 2; 3; 0; 0; 0; 9] 5 0 3) (λ m',
    length m' = 7%nat ∧
    take 3 (drop 3 m') = reverse (take 3 (drop 0 [1; 2; 3; 0; 0; 0; 9])) ∧
    ∀ p, (p + 3 ≤ 5 ∨ 5 < p)%nat → m' !! p = [1; 2; 3; 0; 0; 0; 9] !! p).
Proof.
  apply (MemCpyReversedOrder_correct [1; 2; 3; 0; 0; 0; 9] 5 0 3); simpl; lia.
Defined.

(** The rounded weighted sum reports bad arguments. For a shift in [0, 31]
    the routine returns -1 and leaves the memory alone exactly when a pointer is
    NULL or the length is 0; otherwise it returns 0 and every output cell holds
    the rounded, shifted weighted sum. A negative shift is undefined before the
    check that should reject it. *)
Theorem ScaleAndAddVectorsWithRound_status (m : list Z) (p1 p2 po : option nat)
    (s1 s2 shift : Z) (n : nat) :
  Forall int16 m → int16 s1 → int16 s2 →
  (∀ p, p1 = Some p ∨ p2 = Some p ∨ po = Some p → (p + n ≤ length m)%nat) →
  (∀ p o, p1 = Some p ∨ p2 = Some p → po = Some o → reads_ahead p o n) →
  (shift < 0 → WebRtcSpl_ScaleAndAddVectorsWithRoundC m p1 s1 p2 s2 shift po n = None) ∧
  (0 ≤ shift < 32 →
   match p1, p2, po with
   | Some in1, Some in2, Some out =>
       if (n =? 0)%nat
       then WebRtcSpl_ScaleAndAddVectorsWithRoundC m p1 s1 p2 s2 shift po n = Some (-1, m)
       else wp (WebRtcSpl_ScaleAndAddVectorsWithRoundC m p1 s1 p2 s2 shift po n) (λ '(r, m'),
              r = 0 ∧ wrote m out n (λ i,
                s16 (Z.shiftr (s32 (m !!! (in1 + i)%nat * s1 + m !!! (in2 + i)%nat * s2 +
                                    s32 (2 ^ shift) / 2)) shift)) m')
   | _, _, _ =>
       WebRtcSpl_ScaleAndAddVectorsWithRoundC m p1 s1 p2 s2 shift po n = Some (-1, m)
   end).
Proof.
  intros Hm H1 H2 Hlen Hrd. unfold WebRtcSpl_ScaleAndAddVectorsWithRoundC. split.
  { intros Hneg. unfold shl32. by rewrite (proj2 (Z.leb_gt 0 shift)) by lia. }
  intros Hs. rewrite shl32_val by done. cbn [mbind option_bind].
  rewrite (Z.shiftl_mul_pow2 1), Z.mul_1_l, (Z.shiftr_div_pow2 _ 1) by lia.
  change (2 ^ 1) with 2. rewrite (proj2 (Z.ltb_ge shift 0)) by lia.
  destruct p1 as [in1|], p2 as [in2|], po as [out|]; try done.
  rewrite orb_false_r. destruct (Nat.eqb_spec n 0); [done|].
  assert (reads_ahead in1 out n ∧ reads_ahead in2 out n) as [? ?] by (split; apply Hrd; auto).
  assert ((in1 + n ≤ length m ∧ in2 + n ≤ length m ∧ out + n ≤ length m)%nat)
    as (? & ? & ?) by (split_and!; apply Hlen; auto).
  apply wp_bind. eapply wp_mono; [|intros m' Hw; apply wp_ret; split; [done|exact Hw]].
  run_stream. rewrite !mul16 by done. do 3 f_equal.
  unfold s32. Z.to_euclidean_division_equations; lia.
Qed.

Lemma ScaleAndAddVectorsWithRound_status_witness :
  wp (WebRtcSpl_ScaleAndAddVectorsWithRoundC [10; 20; 30; 40] (Some 0%nat) 3 (Some 2%nat) 5 2
        (Some 0%nat) 2) (λ '(r, m'),
    r = 0 ∧ wrote [10; 20; 30; 40] 0 2 (λ i,
      s16 (Z.shiftr (s32 ([10; 20; 30; 40] !!! (0 + i)%nat * 3 +
                          [10; 20; 30; 40] !!! (2 + i)%nat * 5 + s32 (2 ^ 2) / 2)) 2)) m').
Proof.
  refine (proj2 (ScaleAndAddVectorsWithRound_status [10; 20; 30; 40] (Some 0%nat) (Some 2%nat)
    (Some 0%nat) 3 5 2 2 _ _ _ _ _) _).
  - repeat constructor; unfold int16; lia.
  - unfold int16. lia.
  - unfold int16. lia.
  - intros p [ [= <-] | [ [= <-] | [= <-] ] ]; simpl; lia.
  - intros p o [ [= <-] | [= <-] ] [= <-]; unfold reads_ahead; lia.
  - lia.
Defined.

End VectorOps.
