(* ===== verification/VadGmm.v ===== *)
(** * Gaussian probability of the voice activity detector
    (common_audio/vad/vad_gmm.c)

    [WebRtcVad_GaussianProbability] in 16- and 32-bit arithmetic, together with
    what it computes: a piecewise linear power of two of the squared distance,
    scaled by the inverse standard deviation. The theorems show that inside the
    operating range of the detector no intermediate leaves its type and the
    variable shift stays in [0, 31]. *)

From S2P Require Import Prelude SplInl.
Import SplInl.

Module VadGmm.

Definition kCompVar : Z := 22005.
Definition kLog2Exp : Z := 5909.

(** Returns the probability and the value stored through [delta]. *)
Definition WebRtcVad_GaussianProbability (input mean std : Z) : option (Z * Z) :=
  let tmp32 := 131072 +i (std >>i 1) in
  let inv_std := s16 (WebRtcSpl_DivW32W16 tmp32 std) in
  let tmp16 := s16 (inv_std >>i 2) in
  let inv_std2 := s16 (tmp16 *i tmp16 >>i 2) in
  let tmp16 := s16 (input <<i 3) in
  let tmp16 := s16 (tmp16 -i mean) in
  let delta := s16 (inv_std2 *i tmp16 >>i 10) in
  let tmp32 := delta *i tmp16 >>i 9 in
  exp_value ←
    (if tmp32 <? kCompVar then
       let tmp16 := s16 (kLog2Exp *i tmp32 >>i 12) in
       let tmp16 := s16 (-i tmp16) in
       let exp_value := s16 (Z.lor 0x0400 (Z.land tmp16 0x03FF)) in
       let tmp16 := s16 (Z.lxor tmp16 0xFFFF) in
       let tmp16 := s16 (tmp16 >>i 10) in
       let tmp16 := s16 (tmp16 +i 1) in
       e ← shr32 exp_value tmp16;
       Some (s16 e)
     else Some 0);
  Some (inv_std *i exp_value, delta).

(** ** Bit manipulations *)

Lemma lxor_ffff t : int16 t → s16 (Z.lxor t 0xFFFF) = - t - 1.
Proof.
  intros Ht. assert (Z.lxor t 0xFFFF mod 65536 = Z.lnot t mod 65536) as E.
  { change 65536 with (2 ^ 16). rewrite <- !Z.land_ones by lia.
    apply Z.bits_inj'. intros i Hi. rewrite !Z.land_spec, Z.lxor_spec, Z.lnot_spec by done.
    change 0xFFFF with (Z.ones 16). rewrite Z.testbit_ones_nonneg by lia.
    destruct (i <? 16); [|by rewrite !andb_false_r]. rewrite !andb_true_r.
    apply xorb_true_r. }
  rewrite Z.lnot_eq_pred_opp in E. unfold s16.
  rewrite <- Zplus_mod_idemp_l, E, Zplus_mod_idemp_l. clia.
Qed.

Lemma lor_400 t : s16 (Z.lor 0x0400 (Z.land t 0x03FF)) = 1024 + t mod 1024.
Proof.
  change 0x03FF with (Z.ones 10). rewrite Z.land_ones by lia. change (2 ^ 10) with 1024.
  assert (Hm : 0 ≤ t mod 1024 < 1024) by (apply Z.mod_pos_bound; lia).
  set (m := t mod 1024) in *.
  assert (Z.land 1024 m = 0) as E.
  { apply Z.bits_inj'. intros i Hi. rewrite Z.land_spec, Z.bits_0.
    change 1024 with (2 ^ 10). rewrite Z.pow2_bits_eqb by lia.
    destruct (Z.eqb_spec 10 i) as [<-|]; [|done]. rewrite andb_true_l.
    destruct (Z.eq_dec m 0) as [->|]; [apply Z.bits_0|].
    apply Z.bits_above_log2; [lia|]. apply Z.log2_lt_pow2; lia. }
  rewrite <- Z.lxor_lor by done. rewrite <- Z.add_nocarry_lxor by done.
  apply s16_id. unfold int16. lia.
Qed.

(** ** What is computed *)

(** 2^(-k/1024) in Q10, linear between powers of two. *)
Definition exp2_neg (k : Z) : Z :=
  let n := (k + 1023) / 1024 in (1024 + (1024 * n - k)) / 2 ^ n.

Lemma exp_block k : 0 ≤ k ≤ 31744 →
  (let tmp16 := s16 (-i k) in
   let exp_value := s16 (Z.lor 0x0400 (Z.land tmp16 0x03FF)) in
   let tmp16 := s16 (Z.lxor tmp16 0xFFFF) in
   let tmp16 := s16 (tmp16 >>i 10) in
   let tmp16 := s16 (tmp16 +i 1) in
   e ← shr32 exp_value tmp16; Some (s16 e)) = Some (exp2_neg k).
Proof.
  intros Hk. cbv zeta. rewrite (s32_id (- k)), (s16_id (- k)) by clia.
  rewrite lxor_ffff by clia. rewrite lor_400.
  replace (- - k - 1) with (k - 1) by lia.
  rewrite (s16_id (_ >>i 10)) by clia. rewrite (s32_id (_ + 1)), (s16_id (_ + 1)) by clia.
  assert (((k - 1) >>i 10) + 1 = (k + 1023) / 1024) as ->.
  { shift_const. replace (k + 1023) with (k - 1 + 1 * 1024) by lia.
    rewrite Z.div_add by lia. done. }
  set (n := (k + 1023) / 1024). assert (0 ≤ n ≤ 31) by (unfold n; clia).
  assert (- k mod 1024 = 1024 * n - k) as ->.
  { unfold n. clia. }
  unfold shr32. rewrite (proj2 (Z.leb_le 0 n)), (proj2 (Z.ltb_lt n 32)) by lia. simpl.
  unfold exp2_neg. fold n. rewrite Z.shiftr_div_pow2 by lia. f_equal. apply s16_id.
  assert (0 < 2 ^ n) by (apply Z.pow_pos_nonneg; lia).
  assert (0 ≤ 1024 * n - k < 1024) by (unfold n; clia).
  unfold int16. split; [apply Z.le_trans with 0; [lia|]; apply Z.div_pos; lia|].
  apply Z.div_le_upper_bound; nia.
Qed.

Lemma exp2_neg_bounds k : 0 ≤ k → 0 ≤ exp2_neg k ≤ 1024.
Proof.
  intros Hk. unfold exp2_neg. set (n := (k + 1023) / 1024).
  assert (0 ≤ n ∧ 0 ≤ 1024 * n - k < 1024) as [Hn Hf] by (unfold n; clia).
  assert (0 < 2 ^ n) by (apply Z.pow_pos_nonneg; lia).
  split; [apply Z.div_pos; lia|]. apply Z.div_le_upper_bound; [lia|].
  destruct (Z.eq_dec n 0) as [->|]; [lia|].
  assert (2 ^ 1 ≤ 2 ^ n) by (apply Z.pow_le_mono_r; lia). nia.
Qed.

Definition inv_std (std : Z) : Z := (131072 + std / 2) / std.
Definition inv_std2 (std : Z) : Z := (inv_std std / 4) ^ 2 / 4.
Definition delta_of (input mean std : Z) : Z := inv_std2 std * (8 * input - mean) / 1024.
Definition exponent (input mean std : Z) : Z :=
  delta_of input mean std * (8 * input - mean) / 512.

Lemma inv_std_bounds std : 378 ≤ std ≤ 32767 →
  4 ≤ inv_std std ≤ 347 ∧ 0 ≤ inv_std2 std ≤ 1849.
Proof.
  intros Hs. assert (4 ≤ inv_std std ≤ 347) as Hi.
  { unfold inv_std. split; [apply Z.div_le_lower_bound; clia|].
    apply Z.lt_succ_r, Z.div_lt_upper_bound; clia. }
  split; [done|]. unfold inv_std2. assert (0 ≤ inv_std std / 4 ≤ 86) by clia.
  rewrite Z.pow_2_r. split; [apply Z.div_pos; nia|].
  apply Z.lt_succ_r, Z.div_lt_upper_bound; nia.
Qed.

Lemma delta_bounds input mean std :
  378 ≤ std ≤ 32767 → Z.abs (8 * input - mean) ≤ 18000 →
  -32502 ≤ delta_of input mean std ≤ 32501 ∧ 0 ≤ exponent input mean std ≤ 1142649.
Proof.
  intros Hs Hd. destruct (inv_std_bounds std Hs) as [_ H2]. unfold exponent, delta_of.
  set (t := 8 * input - mean) in *. set (c := inv_std2 std) in *.
  assert (-18000 ≤ t ≤ 18000) as Ht by lia.
  assert (-33282000 ≤ c * t ≤ 33282000) as Hct by nia.
  assert (-32502 ≤ c * t / 1024 ≤ 32501) as Hb.
  { split; [apply Z.div_le_lower_bound; lia|].
    apply Z.lt_succ_r, Z.div_lt_upper_bound; lia. }
  split; [done|]. assert (0 ≤ c * t / 1024 * t) as H0.
  { destruct (Z_lt_le_dec t 0).
    - assert (c * t / 1024 ≤ 0) by (apply Z.div_le_upper_bound; nia). nia.
    - assert (0 ≤ c * t / 1024) by (apply Z.div_pos; nia). nia. }
  split; [apply Z.div_pos; lia|]. apply Z.div_le_upper_bound; [lia|].
  assert (c * t / 1024 * t ≤ 32502 * 18000); nia.
Qed.

Lemma gaussian_eq input mean std :
  int16 input → int16 mean → 378 ≤ std ≤ 32767 → Z.abs (8 * input - mean) ≤ 18000 →
  int16 (8 * input) →
  WebRtcVad_GaussianProbability input mean std =
    Some (inv_std std *
            (if exponent input mean std <? kCompVar
             then exp2_neg (5909 * exponent input mean std / 4096) else 0),
          delta_of input mean std).
Proof.
  intros Hi Hm Hs Hd H8. pose proof (inv_std_bounds std Hs) as [Hv Hv2].
  pose proof (delta_bounds input mean std Hs Hd) as [Hdb Heb].
  unfold WebRtcVad_GaussianProbability.
  assert (WebRtcSpl_DivW32W16 (131072 +i (std >>i 1)) std = inv_std std) as ->.
  { rewrite s32_id by clia. unfold WebRtcSpl_DivW32W16.
    rewrite (proj2 (Z.eqb_neq std 0)) by lia. cbn [negb]. shift_const.
    rewrite Z.quot_div_nonneg by clia. apply s32_id. unfold inv_std in *. clia. }
  rewrite (s16_id (inv_std std)) by (unfold int16; lia).
  assert (s16 (inv_std std >>i 2) = inv_std std / 4) as -> by (shift_const; apply s16_id; clia).
  assert (s16 (inv_std std / 4 *i (inv_std std / 4) >>i 2) = inv_std2 std) as ->.
  { rewrite s32_id by cnia. shift_const. unfold inv_std2 in *. rewrite <- Z.pow_2_r.
    apply s16_id. unfold int16. lia. }
  assert (s16 (s16 (input <<i 3) -i mean) = 8 * input - mean) as ->.
  { shift_const. replace (input * 8) with (8 * input) by lia.
    rewrite (s32_id (8 * input)), (s16_id (8 * input)) by clia.
    rewrite s32_id, s16_id by clia. done. }
  set (t := 8 * input - mean) in *.
  assert (s16 (inv_std2 std *i t >>i 10) = delta_of input mean std) as ->.
  { rewrite s32_id by (unfold int32; nia). shift_const. unfold delta_of. fold t.
    apply s16_id. unfold delta_of in Hdb. fold t in Hdb. unfold int16. lia. }
  assert (delta_of input mean std *i t >>i 9 = exponent input mean std) as ->.
  { rewrite s32_id by (unfold int32; nia). shift_const. done. }
  set (e := exponent input mean std) in *.
  destruct (Z.ltb_spec e kCompVar) as [He|He]; unfold kCompVar in He.
  - unfold kLog2Exp. assert (s16 (5909 *i e >>i 12) = 5909 * e / 4096) as ->.
    { rewrite s32_id by clia. shift_const. apply s16_id. clia. }
    pose proof (exp_block (5909 * e / 4096) ltac:(clia)) as Hex. cbv zeta in Hex |- *.
    rewrite Hex. simpl. pose proof (exp2_neg_bounds (5909 * e / 4096) ltac:(clia)).
    rewrite s32_id by (unfold int32; nia). done.
  - simpl. by rewrite Z.mul_0_r.
Qed.

(** The range the callers rely on. *)
Lemma gaussian_safe input mean std :
  int16 input → int16 mean → 378 ≤ std ≤ 32767 → Z.abs (8 * input - mean) ≤ 18000 →
  int16 (8 * input) →
  wp (WebRtcVad_GaussianProbability input mean std) (λ '(p, delta),
    0 ≤ p ≤ 355328 ∧ -32502 ≤ delta ≤ 32501).
Proof.
  intros Hi Hm Hs Hd H8. rewrite gaussian_eq by done. simpl.
  pose proof (inv_std_bounds std Hs) as [Hv _].
  pose proof (delta_bounds input mean std Hs Hd) as [Hdb Heb]. split; [|done].
  destruct (_ <? _); [|lia].
  pose proof (exp2_neg_bounds (5909 * exponent input mean std / 4096)
    ltac:(apply Z.div_pos; lia)). nia.
Qed.

(** The probability inside the operating range. For a standard deviation of
    at least 378 (the smallest initial value of the detector; kMinStd is 384) and
    a distance of at most 18000 between the scaled
    input and the mean, no intermediate wraps, the variable shift is defined,
    and the function returns the inverse standard deviation times the piecewise
    linear power of two of the exponent, or zero when the exponent reaches
    kCompVar. *)
Theorem GaussianProbability_exact (input mean std : Z) :
  int16 input → int16 mean → 378 ≤ std ≤ 32767 → Z.abs (8 * input - mean) ≤ 18000 →
  int16 (8 * input) →
  WebRtcVad_GaussianProbability input mean std =
    Some (inv_std std *
            (if exponent input mean std <? kCompVar
             then exp2_neg (5909 * exponent input mean std / 4096) else 0),
          delta_of input mean std).
Proof. apply gaussian_eq. Qed.

Lemma GaussianProbability_exact_witness :
  WebRtcVad_GaussianProbability 700 5000 400 =
    Some (inv_std 400 *
            (if exponent 700 5000 400 <? kCompVar
             then exp2_neg (5909 * exponent 700 5000 400 / 4096) else 0),
          delta_of 700 5000 400).
Proof. apply (GaussianProbability_exact 700 5000 400); unfold int16; lia. Defined.

End VadGmm.
