(* ===== verification/ResampleBy2.v ===== *)
(** * Two-phase all-pass resamplers
    (common_audio/signal_processing/resample_by_2_internal.c)

    Decimation, interpolation and low-pass filtering by two. Every function of
    the file runs the same three-section all-pass cascade over two or four
    phases of the signal; the source repeats its body inline, here it is
    [allpass] on four consecutive words of the state array, and the loop around
    it is [allpass_loop]. The arrays the functions write are threaded, buffers
    that may share memory are one list with offsets.

    The theorems give the output of each function as a function of its input,
    sample by sample, and show that the functions stay inside their buffers. *)

From S2P Require Import Prelude.

Module ResampleBy2.

(** kResampleAllpass[0] and [1]: upper and lower branch. *)
Definition coefs : Type := Z * Z * Z.
Definition kResampleAllpass0 : coefs := (821, 6110, 12382).
Definition kResampleAllpass1 : coefs := (3050, 9368, 15063).

(** [diff = diff >> 14; if (diff < 0) diff += 1;] *)
Definition scale_trunc (diff : Z) : Z :=
  let diff := diff >>i 14 in if diff <? 0 then diff +i 1 else diff.

Definition quad : Type := Z * Z * Z * Z.

(** The body of every filter loop on the four state words of its branch. *)
Definition ap (k : coefs) (tmp0 : Z) (q : quad) : quad :=
  let '(k0, k1, k2) := k in
  let '(s0, s1, s2, s3) := q in
  let diff := tmp0 -i s1 in
  let diff := (diff +i 8192) >>i 14 in
  let tmp1 := s0 +i diff *i k0 in
  let s0' := tmp0 in
  let diff := scale_trunc (tmp1 -i s2) in
  let tmp0 := s1 +i diff *i k1 in
  let s1' := tmp1 in
  let diff := scale_trunc (tmp0 -i s3) in
  let s3' := s2 +i diff *i k2 in
  let s2' := tmp0 in
  (s0', s1', s2', s3').

Definition get4 (st : list Z) (j : nat) : option quad :=
  s0 ← st !! j; s1 ← st !! (j + 1)%nat; s2 ← st !! (j + 2)%nat; s3 ← st !! (j + 3)%nat;
  Some (s0, s1, s2, s3).

Definition set4 (st : list Z) (j : nat) (q : quad) : option (list Z) :=
  let '(s0, s1, s2, s3) := q in
  st ← wr st j s0; st ← wr st (j + 1) s1; st ← wr st (j + 2) s2; wr st (j + 3) s3.

(** Runs the branch at [state[j..j+3]] on one sample; returns the output word
    [state[j+3]] with the state. *)
Definition allpass (k : coefs) (j : nat) (tmp0 : Z) (st : list Z) : option (Z * list Z) :=
  q ← get4 st j;
  let q' := ap k tmp0 q in
  st ← set4 st j q';
  Some (q'.2, st).

(** One filter loop: sample [i] comes from [src mem i], the output word goes
    through [post] to [mem[dst + stride * i]], which [post] may first read. *)
Definition allpass_loop (k : coefs) (j len : nat) (src : list Z → nat → option Z)
    (dst stride : nat) (post : Z → Z → Z) (s : list Z * list Z)
  : option (list Z * list Z) :=
  for_loop len 0 (λ i '(mem, st),
    x ← src mem i;
    '(y, st) ← allpass k j x st;
    old ← mem !! (dst + stride * i)%nat;
    mem ← wr mem (dst + stride * i) (post old y);
    Some (mem, st)) s.

(** [((int32_t)in[i] << 15) + (1 << 14)] *)
Definition to_q15 (x : Z) : Z := (x <<i 15) +i 16384.

(** The saturation to int16 at the end of the decimators and interpolators. *)
Definition sat16 (tmp : Z) : Z :=
  let tmp := if 0x7FFF <? tmp then 0x7FFF else tmp in
  let tmp := if tmp <? -32768 then -32768 else tmp in
  s16 tmp.

Definition half (_old y : Z) : Z := y >>i 1.
Definition add_half (old y : Z) : Z := old +i (y >>i 1).
Definition avg15 (old y : Z) : Z := (old +i (y >>i 1)) >>i 15.

(** [in] (overwritten) at [inm + ip], [out] at [outm + op]. *)
Definition WebRtcSpl_DownBy2IntToShort (inm : list Z) (ip len : nat)
    (outm : list Z) (op : nat) (state : list Z) : option (list Z * list Z * list Z) :=
  let len := (len / 2)%nat in
  '(inm, state) ← allpass_loop kResampleAllpass1 0 len
     (λ m i, m !! (ip + 2 * i)%nat) ip 2 half (inm, state);
  '(inm, state) ← allpass_loop kResampleAllpass0 4 len
     (λ m i, m !! (ip + 1 + 2 * i)%nat) (ip + 1) 2 half (inm, state);
  outm ← for_loop ((len + 1) / 2) 0 (λ h outm,
     let i := (2 * h)%nat in
     a ← inm !! (ip + 2 * i)%nat; b ← inm !! (ip + 2 * i + 1)%nat;
     c ← inm !! (ip + 2 * i + 2)%nat; d ← inm !! (ip + 2 * i + 3)%nat;
     outm ← wr outm (op + i) (sat16 ((a +i b) >>i 15));
     wr outm (op + i + 1) (sat16 ((c +i d) >>i 15))) outm;
  Some (inm, outm, state).

Definition WebRtcSpl_DownBy2ShortToInt (inm : list Z) (ip len : nat)
    (outm : list Z) (op : nat) (state : list Z) : option (list Z * list Z) :=
  let len := (len / 2)%nat in
  s ← allpass_loop kResampleAllpass1 0 len
     (λ _ i, x ← inm !! (ip + 2 * i)%nat; Some (to_q15 x)) op 1 half (outm, state);
  allpass_loop kResampleAllpass0 4 len
     (λ _ i, x ← inm !! (ip + 1 + 2 * i)%nat; Some (to_q15 x)) op 1 add_half s.

Definition WebRtcSpl_UpBy2ShortToInt (inm : list Z) (ip len : nat)
    (outm : list Z) (op : nat) (state : list Z) : option (list Z * list Z) :=
  s ← allpass_loop kResampleAllpass0 4 len
     (λ _ i, x ← inm !! (ip + i)%nat; Some (to_q15 x)) op 2 (λ _ y, y >>i 15) (outm, state);
  allpass_loop kResampleAllpass1 0 len
     (λ _ i, x ← inm !! (ip + i)%nat; Some (to_q15 x)) (op + 1) 2 (λ _ y, y >>i 15) s.

(** Input and output in the same memory. *)
Definition WebRtcSpl_UpBy2IntToInt (mem : list Z) (ip len op : nat) (state : list Z)
  : option (list Z * list Z) :=
  s ← allpass_loop kResampleAllpass0 4 len
     (λ m i, m !! (ip + i)%nat) op 2 (λ _ y, y) (mem, state);
  allpass_loop kResampleAllpass1 0 len
     (λ m i, m !! (ip + i)%nat) (op + 1) 2 (λ _ y, y) s.

Definition WebRtcSpl_UpBy2IntToShort (inm : list Z) (ip len : nat)
    (outm : list Z) (op : nat) (state : list Z) : option (list Z * list Z) :=
  s ← allpass_loop kResampleAllpass0 4 len
     (λ _ i, inm !! (ip + i)%nat) op 2 (λ _ y, sat16 (y >>i 15)) (outm, state);
  allpass_loop kResampleAllpass1 0 len
     (λ _ i, inm !! (ip + i)%nat) (op + 1) 2 (λ _ y, sat16 (y >>i 15)) s.

(** The first loop of the low-pass filters: the sample of iteration [i] is the
    one fetched at the end of iteration [i - 1], initially [tmp0]. *)
Definition delay_loop (k : coefs) (j len : nat) (fetch : list Z → nat → option Z)
    (dst stride : nat) (post : Z → Z → Z) (tmp0 : Z) (s : list Z * list Z)
  : option (Z * list Z * list Z) :=
  for_loop len 0 (λ i '(tmp0, mem, st),
    '(y, st) ← allpass k j tmp0 st;
    old ← mem !! (dst + stride * i)%nat;
    mem ← wr mem (dst + stride * i) (post old y);
    tmp0 ← fetch mem i;
    Some (tmp0, mem, st)) (tmp0, s.1, s.2).

Definition WebRtcSpl_LPBy2ShortToInt (inm : list Z) (ip len : nat)
    (outm : list Z) (op : nat) (state : list Z) : option (list Z * list Z) :=
  let len := (len / 2)%nat in
  let even := λ (_ : list Z) i, x ← inm !! (ip + 2 * i)%nat; Some (to_q15 x) in
  let odd := λ (_ : list Z) i, x ← inm !! (ip + 1 + 2 * i)%nat; Some (to_q15 x) in
  tmp0 ← state !! 12%nat;
  '(_, outm, state) ← delay_loop kResampleAllpass1 0 len odd op 2 half tmp0 (outm, state);
  s ← allpass_loop kResampleAllpass0 4 len even op 2 avg15 (outm, state);
  s ← allpass_loop kResampleAllpass1 8 len even (op + 1) 2 half s;
  allpass_loop kResampleAllpass0 12 len odd (op + 1) 2 avg15 s.

Definition WebRtcSpl_LPBy2IntToInt (mem : list Z) (ip len op : nat) (state : list Z)
  : option (list Z * list Z) :=
  let len := (len / 2)%nat in
  let even := λ (m : list Z) i, m !! (ip + 2 * i)%nat in
  let odd := λ (m : list Z) i, m !! (ip + 1 + 2 * i)%nat in
  tmp0 ← state !! 12%nat;
  '(_, mem, state) ← delay_loop kResampleAllpass1 0 len odd op 2 half tmp0 (mem, state);
  s ← allpass_loop kResampleAllpass0 4 len even op 2 avg15 (mem, state);
  s ← allpass_loop kResampleAllpass1 8 len even (op + 1) 2 half s;
  allpass_loop kResampleAllpass0 12 len odd (op + 1) 2 avg15 s.

Example down_demo :
  (let inm := map Z.of_nat (seq 0 16) in
   '(out, st) ← WebRtcSpl_DownBy2ShortToInt inm 0 16 (replicate 8 0) 0 (replicate 8 0);
   '(inm, out16, st) ← WebRtcSpl_DownBy2IntToShort out 0 8 (replicate 4 0) 0 (replicate 8 0);
   Some (out16, length st)) = Some ([0; 0; 1; 6], 8%nat).
Proof. vm_compute. reflexivity. Qed.

(** ** The cascade as a function of its input signal *)

Fixpoint ap_state (k : coefs) (q : quad) (x : nat → Z) (n : nat) : quad :=
  match n with
  | O => q
  | S n => ap k (x n) (ap_state k q x n)
  end.

Definition ap_out (k : coefs) (q : quad) (x : nat → Z) (n : nat) : Z :=
  (ap_state k q x (S n)).2.

Lemma ap_state_ext k q x x' n :
  (∀ i, (i < n)%nat → x i = x' i) → ap_state k q x n = ap_state k q x' n.
Proof. induction n as [|n IH]; intros H; simpl; [done|]. rewrite IH, H by auto. done. Qed.

Lemma get4_Some st j : (j + 3 < length st)%nat → ∃ q, get4 st j = Some q.
Proof.
  intros. unfold get4.
  destruct (lookup_lt_is_Some_2 st j) as [? ->]; [lia|].
  destruct (lookup_lt_is_Some_2 st (j + 1)) as [? ->]; [lia|].
  destruct (lookup_lt_is_Some_2 st (j + 2)) as [? ->]; [lia|].
  destruct (lookup_lt_is_Some_2 st (j + 3)) as [? ->]; [lia|].
  simpl. eauto.
Qed.

Lemma get4_length st j q : get4 st j = Some q → (j + 3 < length st)%nat.
Proof.
  unfold get4. destruct (st !! j); [|done]. destruct (st !! (j + 1)%nat); [|done].
  destruct (st !! (j + 2)%nat); [|done].
  destruct (st !! (j + 3)%nat) eqn:E; [|done]. intros _. by eapply lookup_lt_Some.
Qed.

Lemma get4_ext st st' j :
  (∀ i, (j ≤ i ≤ j + 3)%nat → st !! i = st' !! i) → get4 st j = get4 st' j.
Proof. intros H. unfold get4. by rewrite !H by lia. Qed.

Lemma set4_spec st j q : (j + 3 < length st)%nat →
  wp (set4 st j q) (λ st', length st' = length st ∧ get4 st' j = Some q ∧
    ∀ j', (j' + 4 ≤ j ∨ j + 4 ≤ j')%nat → get4 st' j' = get4 st j').
Proof.
  intros Hl. destruct q as [[[s0 s1] s2] s3]. unfold set4.
  repeat first [apply wp_bind | apply wp_wr; [rewrite ?length_insert; lia|]].
  split_and!; [by rewrite !length_insert| |].
  - unfold get4.
    repeat first [ rewrite list_lookup_insert_ne by lia
                 | rewrite list_lookup_insert_eq by (rewrite ?length_insert; lia) ].
    done.
  - intros j' Hj. apply get4_ext. intros i Hi. by rewrite !list_lookup_insert_ne by lia.
Qed.

Lemma allpass_spec k j x st q : get4 st j = Some q →
  wp (allpass k j x st) (λ '(y, st'), y = (ap k x q).2 ∧ length st' = length st ∧
    get4 st' j = Some (ap k x q) ∧
    ∀ j', (j' + 4 ≤ j ∨ j + 4 ≤ j')%nat → get4 st' j' = get4 st j').
Proof.
  intros Hq. unfold allpass. rewrite Hq. simpl. apply wp_bind.
  wp_call (apply set4_spec; by eapply get4_length). intros st' H. simpl. split; [done|apply H].
Qed.

(** A filter loop, provided what it reads is not what it has already written. *)
Section loop.
Context (k : coefs) (j len : nat) (src : list Z → nat → option Z).
Context (dst stride : nat) (post : Z → Z → Z).
Context (mem st : list Z) (q : quad) (x old : nat → Z).
#[local] Abbreviation at_ i := (dst + stride * i)%nat (only parsing).

Hypothesis Hstride : (0 < stride)%nat.
Hypothesis Hq : get4 st j = Some q.
Hypothesis Hold : ∀ i, (i < len)%nat → mem !! (at_ i) = Some (old i).
Hypothesis Hsrc : ∀ i m, (i < len)%nat → length m = length mem →
  (∀ n, (∀ i', (i' < i)%nat → n ≠ at_ i') → m !! n = mem !! n) → src m i = Some (x i).

(** Memory after [i] iterations. *)
Definition filtered (i : nat) (m : list Z) : Prop :=
  length m = length mem ∧
  (∀ i', (i' < i)%nat → m !! (at_ i') = Some (post (old i') (ap_out k q x i'))) ∧
  (∀ n, (∀ i', (i' < i)%nat → n ≠ at_ i') → m !! n = mem !! n).

(** State array after [i] iterations. *)
Definition advanced (i : nat) (st' : list Z) : Prop :=
  length st' = length st ∧ get4 st' j = Some (ap_state k q x i) ∧
  ∀ j', (j' + 4 ≤ j ∨ j + 4 ≤ j')%nat → get4 st' j' = get4 st j'.

Lemma filtered_step i m y : (i < len)%nat → y = ap_out k q x i → filtered i m →
  (at_ i < length m)%nat ∧ m !! (at_ i) = Some (old i) ∧
  filtered (S i) (<[at_ i := post (old i) y]> m).
Proof using Hstride Hold.
  intros Hi -> (Hl & Hw & Hu).
  assert (m !! (at_ i) = Some (old i)) as Ho.
  { rewrite Hu by (intros; nia). by apply Hold. }
  pose proof (lookup_lt_Some _ _ _ Ho). split_and!; [done|done|].
  split_and!; [by rewrite length_insert| |].
  - intros i' Hi'. destruct (decide (i' = i)) as [->|].
    + by rewrite list_lookup_insert_eq by lia.
    + rewrite list_lookup_insert_ne by nia. apply Hw. lia.
  - intros n Hn. rewrite list_lookup_insert_ne by (intros <-; apply (Hn i); [lia|done]).
    apply Hu. intros i' Hi'. apply Hn. lia.
Qed.

Lemma advanced_step i st' : advanced i st' →
  wp (allpass k j (x i) st') (λ '(y, st''), y = ap_out k q x i ∧ advanced (S i) st'').
Proof.
  intros (Hl & Hg & Ho). wp_call (by apply allpass_spec).
  intros [y st''] (-> & Hl' & Hg' & Ho'). split; [done|].
  split_and!; [congruence|done|]. intros j' Hj'. rewrite Ho' by done. by apply Ho.
Qed.

Lemma allpass_loop_spec :
  wp (allpass_loop k j len src dst stride post (mem, st))
     (λ '(m, st'), filtered len m ∧ advanced len st').
Proof using Hstride Hq Hold Hsrc.
  unfold allpass_loop.
  apply (wp_for (λ i '(m, st'), filtered i m ∧ advanced i st')).
  - split; [split_and!; [done|lia|done]|done].
  - intros i [m st'] Hi [Hf Ha]. apply wp_bind.
    rewrite (Hsrc i m); [|lia|apply Hf|apply Hf]. simpl. apply wp_bind.
    wp_call (by apply advanced_step). intros [y st''] (Hy & Ha').
    destruct (filtered_step i m y) as (? & Ho & Hf'); [lia|done|done|].
    apply wp_bind. rewrite Ho. simpl. apply wp_bind, wp_wr; [done|]. done.
  - intros [m st']. done.
Qed.

(** The same with the one-sample delay: [x 0] is the initial [tmp0]. *)
Lemma delay_loop_spec fetch :
  (∀ i m, (i < len)%nat → length m = length mem →
    (∀ n, (∀ i', (i' ≤ i)%nat → n ≠ at_ i') → m !! n = mem !! n) →
    fetch m i = Some (x (S i))) →
  wp (delay_loop k j len fetch dst stride post (x 0%nat) (mem, st))
     (λ '(_, m, st'), filtered len m ∧ advanced len st').
Proof using Hstride Hq Hold.
  intros Hfetch. unfold delay_loop. simpl.
  apply (wp_for (λ i '(t, m, st'), t = x i ∧ filtered i m ∧ advanced i st')).
  - split; [done|]. split; [split_and!; [done|lia|done]|done].
  - intros i [[t m] st'] Hi (-> & Hf & Ha). apply wp_bind.
    wp_call (by apply advanced_step). intros [y st''] (Hy & Ha').
    destruct (filtered_step i m y) as (? & Ho & Hf'); [lia|done|done|].
    apply wp_bind. rewrite Ho. simpl. apply wp_bind, wp_wr; [done|].
    apply wp_bind. rewrite Hfetch; [|lia|apply Hf'|].
    + simpl. done.
    + intros n Hn. apply Hf'. intros i' Hi'. apply Hn. lia.
  - intros [[t m] st'] (_ & ?). done.
Qed.
End loop.

(** ** The functions *)

(** Two branches written to the same cells: the result of a decimator. *)
Lemma filtered_wrote k q x old mem dst len post m :
  filtered k dst 1 post mem q x old len m →
  wrote mem dst len (λ i, post (old i) (ap_out k q x i)) m.
Proof.
  intros (Hl & Hw & Hu). split_and!; [done| |].
  - intros i Hi. rewrite <- (Hw i) by done. f_equal. lia.
  - intros p Hp. apply Hu. lia.
Qed.

Section down_short_int.
Context (inm outm st : list Z) (ip op len : nat) (q0 q4 : quad).
Hypothesis Hin : (ip + 2 * (len / 2) ≤ length inm)%nat.
Hypothesis Hout : (op + len / 2 ≤ length outm)%nat.
Hypothesis Hq0 : get4 st 0 = Some q0.
Hypothesis Hq4 : get4 st 4 = Some q4.

Definition dsi_even (i : nat) : Z := to_q15 (inm !!! (ip + 2 * i)%nat).
Definition dsi_odd (i : nat) : Z := to_q15 (inm !!! (ip + 1 + 2 * i)%nat).
Definition dsi_out (i : nat) : Z :=
  add_half (half 0 (ap_out kResampleAllpass1 q0 dsi_even i))
           (ap_out kResampleAllpass0 q4 dsi_odd i).

Lemma DownBy2ShortToInt_spec :
  wp (WebRtcSpl_DownBy2ShortToInt inm ip len outm op st) (λ '(m, st'),
    wrote outm op (len / 2) dsi_out m ∧ length st' = length st ∧
    get4 st' 0 = Some (ap_state kResampleAllpass1 q0 dsi_even (len / 2)) ∧
    get4 st' 4 = Some (ap_state kResampleAllpass0 q4 dsi_odd (len / 2))).
Proof using All.
  unfold WebRtcSpl_DownBy2ShortToInt. apply wp_bind.
  wp_call (apply (allpass_loop_spec _ _ _ _ _ _ _ _ _ q0 dsi_even
             (λ i, outm !!! (op + 1 * i)%nat)); [lia|done|..]).
  { intros i Hi. apply lookup_total_Some. lia. }
  { intros i m Hi _ _. rewrite lookup_total_Some by lia. done. }
  intros [m1 st1] (Hf1 & Hl1 & Hg1 & Ho1).
  pose proof Hf1 as (Hlm & Hw1 & Hu1).
  wp_call (apply (allpass_loop_spec _ _ _ _ _ _ _ _ _ q4 dsi_odd
             (λ i, half 0 (ap_out kResampleAllpass1 q0 dsi_even i))); [lia|..]).
  { rewrite Ho1 by lia. done. }
  { intros i Hi. by rewrite Hw1. }
  { intros i m Hi _ _. rewrite lookup_total_Some by lia. done. }
  intros [m2 st2] (Hf2 & Hl2 & Hg2 & Ho2).
  apply filtered_wrote in Hf2 as (Hlm2 & Hw2 & Hu2).
  split_and!; [|congruence| |done].
  - split_and!; [congruence|done|]. intros p Hp. rewrite Hu2 by done.
    apply Hu1. lia.
  - rewrite Ho2 by lia. done.
Qed.
End down_short_int.

Section down_int_short.
Context (inm outm st : list Z) (ip op len hlen : nat) (q0 q4 : quad).
Hypothesis Heven : (len / 2 = 2 * hlen)%nat.
Hypothesis Hin : (ip + 2 * (len / 2) ≤ length inm)%nat.
Hypothesis Hout : (op + len / 2 ≤ length outm)%nat.
Hypothesis Hq0 : get4 st 0 = Some q0.
Hypothesis Hq4 : get4 st 4 = Some q4.

Definition dis_even (i : nat) : Z := inm !!! (ip + 2 * i)%nat.
Definition dis_odd (i : nat) : Z := inm !!! (ip + 1 + 2 * i)%nat.
Definition dis_out (i : nat) : Z :=
  sat16 ((half 0 (ap_out kResampleAllpass1 q0 dis_even i)
          +i half 0 (ap_out kResampleAllpass0 q4 dis_odd i)) >>i 15).

(** The two in-place filter loops. *)
Lemma dis_filters :
  wp (s ← allpass_loop kResampleAllpass1 0 (len / 2)
            (λ m i, m !! (ip + 2 * i)%nat) ip 2 half (inm, st);
      allpass_loop kResampleAllpass0 4 (len / 2)
            (λ m i, m !! (ip + 1 + 2 * i)%nat) (ip + 1) 2 half s)
     (λ '(m, st'), length m = length inm ∧ length st' = length st ∧
       (∀ i, (i < len / 2)%nat →
          m !! (ip + 2 * i)%nat = Some (half 0 (ap_out kResampleAllpass1 q0 dis_even i)) ∧
          m !! (ip + 2 * i + 1)%nat = Some (half 0 (ap_out kResampleAllpass0 q4 dis_odd i))) ∧
       get4 st' 0 = Some (ap_state kResampleAllpass1 q0 dis_even (len / 2)) ∧
       get4 st' 4 = Some (ap_state kResampleAllpass0 q4 dis_odd (len / 2))).
Proof using All.
  apply wp_bind.
  wp_call (apply (allpass_loop_spec _ _ _ _ _ _ _ _ _ q0 dis_even dis_even); [lia|done|..]).
  { intros i Hi. apply lookup_total_Some. lia. }
  { intros i m Hi _ Hm. rewrite Hm by lia. apply lookup_total_Some. lia. }
  intros [m1 st1] ((Hlm & Hw1 & Hu1) & Hl1 & Hg1 & Ho1).
  assert (∀ i, (i < len / 2)%nat → m1 !! (ip + 1 + 2 * i)%nat = Some (dis_odd i)) as Hodd.
  { intros i Hi. rewrite Hu1 by lia. apply lookup_total_Some. lia. }
  wp_call (apply (allpass_loop_spec _ _ _ _ _ _ _ _ _ q4 dis_odd dis_odd); [lia|..]).
  { rewrite Ho1 by lia. done. }
  { intros i Hi. by apply Hodd. }
  { intros i m Hi _ Hm. rewrite Hm by lia. by apply Hodd. }
  intros [m2 st2] ((Hlm2 & Hw2 & Hu2) & Hl2 & Hg2 & Ho2).
  split_and!; [congruence|congruence| | |done].
  - intros i Hi. split.
    + rewrite Hu2 by lia. by apply Hw1.
    + replace (ip + 2 * i + 1)%nat with (ip + 1 + 2 * i)%nat by lia. by apply Hw2.
  - rewrite Ho2 by lia. done.
Qed.

Lemma DownBy2IntToShort_spec :
  wp (WebRtcSpl_DownBy2IntToShort inm ip len outm op st) (λ '(m, o, st'),
    length m = length inm ∧ wrote outm op (len / 2) dis_out o ∧ length st' = length st ∧
    get4 st' 0 = Some (ap_state kResampleAllpass1 q0 dis_even (len / 2)) ∧
    get4 st' 4 = Some (ap_state kResampleAllpass0 q4 dis_odd (len / 2))).
Proof using All.
  unfold WebRtcSpl_DownBy2IntToShort. pose proof dis_filters as Hf.
  destruct (allpass_loop kResampleAllpass1 0 _ _ _ _ _ _) as [[m1 st1]|]; [|done].
  cbn [mbind option_bind wp] in Hf |- *. destruct (allpass_loop _ 4 _ _ _ _ _ _) as [[m2 st2]|]; [|done].
  cbn [mbind option_bind wp] in Hf |- *. destruct Hf as (Hlm & Hls & Hm & Hg0 & Hg4).
  apply wp_bind, (wp_for (λ h o, wrote outm op (2 * h) dis_out o)).
  - split_and!; [done|lia|done].
  - intros h o Hh (Hlo & Hw & Hu).
    rewrite Heven, half_double_S in Hh.
    destruct (Hm (2 * h)%nat) as [Ha Hb]; [lia|].
    destruct (Hm (2 * h + 1)%nat) as [Hc Hd]; [lia|].
    replace (ip + 2 * (2 * h + 1))%nat with (ip + 2 * (2 * h) + 2)%nat in Hc, Hd by lia.
    replace (ip + 2 * (2 * h) + 2 + 1)%nat with (ip + 2 * (2 * h) + 3)%nat in Hd by lia.
    rewrite Ha, Hb, Hc, Hd. simpl mbind. apply wp_bind, wp_wr; [lia|].
    apply wp_wr; [rewrite length_insert; lia|].
    split_and!; [by rewrite !length_insert| |].
    + intros i Hi. destruct (decide (i = 2 * h + 1)%nat) as [->|].
      { rewrite Nat.add_assoc, list_lookup_insert_eq by (rewrite length_insert; lia). done. }
      rewrite list_lookup_insert_ne by lia. destruct (decide (i = 2 * h)%nat) as [->|].
      { by rewrite list_lookup_insert_eq by lia. }
      rewrite list_lookup_insert_ne by lia. apply Hw. lia.
    + intros p Hp. rewrite !list_lookup_insert_ne by lia. apply Hu. lia.
  - intros o Ho. split_and!; try done.
    rewrite Heven in Ho |- *. by rewrite half_double_S in Ho.
Qed.
End down_int_short.

(** Cells written two apart from [op] and from [op + 1]. *)
Lemma interleave_wrote mem m op len a b :
  length m = length mem →
  (∀ i, (i < len)%nat → m !! (op + 2 * i)%nat = Some (a i)) →
  (∀ i, (i < len)%nat → m !! (op + 1 + 2 * i)%nat = Some (b i)) →
  (∀ p, (p < op ∨ op + 2 * len ≤ p)%nat → m !! p = mem !! p) →
  wrote mem op (2 * len) (interleave a b) m.
Proof.
  intros Hl Ha Hb Hu. split_and!; [done| |done]. intros i Hi.
  destruct (Nat.Even_or_Odd i) as [[h ->]|[h ->]].
  - rewrite interleave_even. apply Ha. lia.
  - rewrite interleave_odd, <- Hb by lia. f_equal. lia.
Qed.

(** Interpolators: both branches read the same signal. *)
Section up.
Context (mem st : list Z) (op len : nat) (src : list Z → nat → option Z).
Context (post : Z → Z) (x : nat → Z) (q0 q4 : quad).
Hypothesis Hout : (op + 2 * len ≤ length mem)%nat.
Hypothesis Hq0 : get4 st 0 = Some q0.
Hypothesis Hq4 : get4 st 4 = Some q4.
Hypothesis Hsrc : ∀ i m, (i < len)%nat → length m = length mem →
  (∀ n, (n < op ∨ op + 2 * len ≤ n)%nat → m !! n = mem !! n) → src m i = Some (x i).

Definition up_out : nat → Z :=
  interleave (λ i, post (ap_out kResampleAllpass0 q4 x i))
             (λ i, post (ap_out kResampleAllpass1 q0 x i)).

Lemma up_spec :
  wp (s ← allpass_loop kResampleAllpass0 4 len src op 2 (λ _ y, post y) (mem, st);
      allpass_loop kResampleAllpass1 0 len src (op + 1) 2 (λ _ y, post y) s)
     (λ '(m, st'), wrote mem op (2 * len) up_out m ∧ length st' = length st ∧
       get4 st' 0 = Some (ap_state kResampleAllpass1 q0 x len) ∧
       get4 st' 4 = Some (ap_state kResampleAllpass0 q4 x len)).
Proof using All.
  apply wp_bind.
  wp_call (apply (allpass_loop_spec _ _ _ _ _ _ _ _ _ q4 x
             (λ i, mem !!! (op + 2 * i)%nat)); [lia|done|..]).
  { intros i Hi. apply lookup_total_Some. lia. }
  { intros i m Hi Hlm Hm. apply Hsrc; [done|done|]. intros n Hn. apply Hm. lia. }
  intros [m1 st1] ((Hlm & Hw1 & Hu1) & Hl1 & Hg1 & Ho1).
  wp_call (apply (allpass_loop_spec _ _ _ _ _ _ _ _ _ q0 x
             (λ i, m1 !!! (op + 1 + 2 * i)%nat)); [lia|..]).
  { rewrite Ho1 by lia. done. }
  { intros i Hi. apply lookup_total_Some. lia. }
  { intros i m Hi Hlm' Hm. apply Hsrc; [done|congruence|]. intros n Hn.
    rewrite Hm by lia. apply Hu1. lia. }
  intros [m2 st2] ((Hlm2 & Hw2 & Hu2) & Hl2 & Hg2 & Ho2).
  split_and!; [|congruence|done|].
  - apply interleave_wrote; [congruence| |done|].
    + intros i Hi. rewrite Hu2 by lia. by apply Hw1.
    + intros p Hp. rewrite Hu2 by lia. apply Hu1. lia.
  - rewrite Ho2 by lia. done.
Qed.
End up.

(** Low-pass filters: four branches, the first on the delayed odd samples. *)
Section lp.
Context (mem st : list Z) (op len : nat) (even odd : list Z → nat → option Z).
Context (xe xo : nat → Z) (q0 q4 q8 q12 : quad).
Hypothesis Hout : (op + 2 * len ≤ length mem)%nat.
Hypothesis Hq0 : get4 st 0 = Some q0.
Hypothesis Hq4 : get4 st 4 = Some q4.
Hypothesis Hq8 : get4 st 8 = Some q8.
Hypothesis Hq12 : get4 st 12 = Some q12.

Definition untouched (m : list Z) : Prop :=
  length m = length mem ∧ ∀ n, (n < op ∨ op + 2 * len ≤ n)%nat → m !! n = mem !! n.
Hypothesis Heven : ∀ i m, (i < len)%nat → untouched m → even m i = Some (xe i).
Hypothesis Hodd : ∀ i m, (i < len)%nat → untouched m → odd m i = Some (xo i).

Definition delayed (i : nat) : Z := match i with O => q12.1.1.1 | S i => xo i end.

Definition lp_out : nat → Z :=
  interleave
    (λ i, avg15 (half 0 (ap_out kResampleAllpass1 q0 delayed i))
                (ap_out kResampleAllpass0 q4 xe i))
    (λ i, avg15 (half 0 (ap_out kResampleAllpass1 q8 xe i))
                (ap_out kResampleAllpass0 q12 xo i)).

Definition lp_state (st' : list Z) : Prop :=
  length st' = length st ∧
  get4 st' 0 = Some (ap_state kResampleAllpass1 q0 delayed len) ∧
  get4 st' 4 = Some (ap_state kResampleAllpass0 q4 xe len) ∧
  get4 st' 8 = Some (ap_state kResampleAllpass1 q8 xe len) ∧
  get4 st' 12 = Some (ap_state kResampleAllpass0 q12 xo len).

Lemma lp_spec :
  wp (tmp0 ← st !! 12%nat;
      '(_, m, st') ← delay_loop kResampleAllpass1 0 len odd op 2 half tmp0 (mem, st);
      s ← allpass_loop kResampleAllpass0 4 len even op 2 avg15 (m, st');
      s ← allpass_loop kResampleAllpass1 8 len even (op + 1) 2 half s;
      allpass_loop kResampleAllpass0 12 len odd (op + 1) 2 avg15 s)
     (λ '(m, st'), wrote mem op (2 * len) lp_out m ∧ lp_state st').
Proof using All.
  assert (st !! 12%nat = Some (delayed 0)) as ->.
  { unfold get4 in Hq12. destruct (st !! 12%nat) as [z|]; [|done].
    destruct (st !! (12 + 1)%nat), (st !! (12 + 2)%nat), (st !! (12 + 3)%nat);
      by simplify_eq/=. }
  cbn [mbind option_bind]. apply wp_bind.
  wp_call (apply (delay_loop_spec _ _ _ _ _ _ _ _ q0 delayed
             (λ i, mem !!! (op + 2 * i)%nat)); [lia|done|..]).
  { intros i Hi. apply lookup_total_Some. lia. }
  { intros i m Hi Hlm Hm. apply Hodd; [done|]. split; [done|]. intros. apply Hm. lia. }
  intros [[t m1] st1] ((Hlm1 & Hw1 & Hu1) & Hl1 & Hg1 & Ho1). apply wp_bind.
  wp_call (apply (allpass_loop_spec _ _ _ _ _ _ _ _ _ q4 xe
             (λ i, half 0 (ap_out kResampleAllpass1 q0 delayed i))); [lia|..]).
  { rewrite Ho1 by lia. done. }
  { intros i Hi. by apply Hw1. }
  { intros i m Hi Hlm Hm. apply Heven; [done|]. split; [congruence|]. intros.
    rewrite Hm by lia. apply Hu1. lia. }
  intros [m2 st2] ((Hlm2 & Hw2 & Hu2) & Hl2 & Hg2 & Ho2). apply wp_bind.
  assert (∀ n, (n < op ∨ op + 2 * len ≤ n)%nat → m2 !! n = mem !! n) as Hn2.
  { intros. rewrite Hu2 by lia. apply Hu1. lia. }
  wp_call (apply (allpass_loop_spec _ _ _ _ _ _ _ _ _ q8 xe
             (λ i, m2 !!! (op + 1 + 2 * i)%nat)); [lia|..]).
  { rewrite Ho2, Ho1 by lia. done. }
  { intros i Hi. apply lookup_total_Some. lia. }
  { intros i m Hi Hlm Hm. apply Heven; [done|]. split; [congruence|]. intros.
    rewrite Hm by lia. by apply Hn2. }
  intros [m3 st3] ((Hlm3 & Hw3 & Hu3) & Hl3 & Hg3 & Ho3).
  wp_call (apply (allpass_loop_spec _ _ _ _ _ _ _ _ _ q12 xo
             (λ i, half 0 (ap_out kResampleAllpass1 q8 xe i))); [lia|..]).
  { rewrite Ho3, Ho2, Ho1 by lia. done. }
  { intros i Hi. by apply Hw3. }
  { intros i m Hi Hlm Hm. apply Hodd; [done|]. split; [congruence|]. intros.
    rewrite Hm by lia. rewrite Hu3 by lia. by apply Hn2. }
  intros [m4 st4] ((Hlm4 & Hw4 & Hu4) & Hl4 & Hg4 & Ho4). split.
  - apply interleave_wrote; [congruence| |done|].
    + intros i Hi. rewrite Hu4, Hu3 by lia. by apply Hw2.
    + intros p Hp. rewrite Hu4, Hu3 by lia. by apply Hn2.
  - split_and!; [congruence| | | |done].
    + by rewrite Ho4, Ho3, Ho2 by lia.
    + by rewrite Ho4, Ho3 by lia.
    + by rewrite Ho4 by lia.
Qed.
End lp.

(** ** Claims *)

(** Decimation by two in place. For an even number of outputs, the function
    stays inside its buffers and writes to the output the saturated sum of the
    two all-pass branches of the even and of the odd input samples, as they were
    before the call (the input is overwritten on the way); the state array keeps
    the two branch memories for the next block. *)
Theorem DownBy2IntToShort_correct (inm outm st : list Z) (ip op len hlen : nat) (q0 q4 : quad) :
  (len / 2 = 2 * hlen)%nat → (ip + 2 * (len / 2) ≤ length inm)%nat →
  (op + len / 2 ≤ length outm)%nat → get4 st 0 = Some q0 → get4 st 4 = Some q4 →
  wp (WebRtcSpl_DownBy2IntToShort inm ip len outm op st) (λ '(m, o, st'),
    wrote outm op (len / 2) (λ i,
      sat16 ((half 0 (ap_out kResampleAllpass1 q0 (dis_even inm ip) i)
              +i half 0 (ap_out kResampleAllpass0 q4 (dis_odd inm ip) i)) >>i 15)) o ∧
    length st' = length st ∧
    get4 st' 0 = Some (ap_state kResampleAllpass1 q0 (dis_even inm ip) (len / 2)) ∧
    get4 st' 4 = Some (ap_state kResampleAllpass0 q4 (dis_odd inm ip) (len / 2))).
Proof.
  intros H1 H2 H3 H4 H5.
  wp_call (by apply (DownBy2IntToShort_spec inm outm st ip op len hlen q0 q4)).
  intros [[m o] st'] (_ & ? & ? & ? & ?). by split_and!.
Qed.

Lemma DownBy2IntToShort_correct_witness :
  let inm := [5; 6; 7; 8; 100000; 200000; -300000; 70] in
  wp (WebRtcSpl_DownBy2IntToShort inm 0 8 (replicate 4 0) 0 (replicate 8 1)) (λ '(m, o, st'),
    wrote (replicate 4 0) 0 (8 / 2) (λ i,
      sat16 ((half 0 (ap_out kResampleAllpass1 (1, 1, 1, 1) (dis_even inm 0) i)
              +i half 0 (ap_out kResampleAllpass0 (1, 1, 1, 1) (dis_odd inm 0) i)) >>i 15)) o ∧
    length st' = length (replicate 8 1) ∧
    get4 st' 0 = Some (ap_state kResampleAllpass1 (1, 1, 1, 1) (dis_even inm 0) (8 / 2)) ∧
    get4 st' 4 = Some (ap_state kResampleAllpass0 (1, 1, 1, 1) (dis_odd inm 0) (8 / 2))).
Proof.
  intros inm. apply (DownBy2IntToShort_correct inm _ _ 0 0 8 2); (reflexivity || (vm_compute; lia)).
Defined.

(** The low-pass filter at the full rate. When the input and the output
    regions of the shared memory do not overlap, each even output is the average
    of the first branch on the odd samples delayed by one and the second on the
    even samples, each odd output that of the third branch on the even and the
    fourth on the odd samples; everything outside the output region is kept. *)
Theorem LPBy2IntToInt_correct (mem st : list Z) (ip op n : nat) (q0 q4 q8 q12 : quad) :
  (ip + 2 * n ≤ length mem)%nat → (op + 2 * n ≤ length mem)%nat →
  (op + 2 * n ≤ ip ∨ ip + 2 * n ≤ op)%nat →
  get4 st 0 = Some q0 → get4 st 4 = Some q4 → get4 st 8 = Some q8 → get4 st 12 = Some q12 →
  let xe := λ i, mem !!! (ip + 2 * i)%nat in
  let xo := λ i, mem !!! (ip + 1 + 2 * i)%nat in
  wp (WebRtcSpl_LPBy2IntToInt mem ip (2 * n) op st) (λ '(m, st'),
    wrote mem op (2 * n) (interleave
      (λ i, avg15 (half 0 (ap_out kResampleAllpass1 q0 (delayed xo q12) i))
                  (ap_out kResampleAllpass0 q4 xe i))
      (λ i, avg15 (half 0 (ap_out kResampleAllpass1 q8 xe i))
                  (ap_out kResampleAllpass0 q12 xo i))) m ∧
    lp_state st n xe xo q0 q4 q8 q12 st').
Proof.
  intros Hi Ho Hd H0 H4 H8 H12 xe xo. unfold WebRtcSpl_LPBy2IntToInt. rewrite half_double.
  cbv zeta. apply (lp_spec mem st op n _ _ xe xo q0 q4 q8 q12); [done..| |].
  - intros i m Hn [_ Hm]. rewrite Hm by lia. apply lookup_total_Some. lia.
  - intros i m Hn [_ Hm]. rewrite Hm by lia. apply lookup_total_Some. lia.
Qed.

Lemma LPBy2IntToInt_correct_witness :
  let mem := [1000; -2000; 3000; 40000; 0; 0; 0; 0] in
  let z := (7, 7, 7, 7) in
  let xe := λ i, mem !!! (0 + 2 * i)%nat in
  let xo := λ i, mem !!! (0 + 1 + 2 * i)%nat in
  wp (WebRtcSpl_LPBy2IntToInt mem 0 (2 * 2) 4 (replicate 16 7)) (λ '(m, st'),
    wrote mem 4 (2 * 2) (interleave
      (λ i, avg15 (half 0 (ap_out kResampleAllpass1 z (delayed xo z) i))
                  (ap_out kResampleAllpass0 z xe i))
      (λ i, avg15 (half 0 (ap_out kResampleAllpass1 z xe i))
                  (ap_out kResampleAllpass0 z xo i))) m ∧
    lp_state (replicate 16 7) 2 xe xo z z z z st').
Proof.
  intros mem z. apply (LPBy2IntToInt_correct mem (replicate 16 7) 0 4 2 z z z z);
    (reflexivity || (vm_compute; lia)).
Defined.

End ResampleBy2.
