(* ===== verification/ResampleFrac.v ===== *)
(** * Fractional resamplers
    (common_audio/signal_processing/resample_fractional.c)

    The 2/3, 3/4 and 8/11 rate converters: short FIR filters with one
    coefficient set per output phase. The callers run them in place, the output
    starting some cells below the input in the same scratch memory, so input and
    output are two offsets into one list and every store is seen by the reads
    that follow it. The theorems show that nothing is read after it has been
    overwritten: the result is the filter of the original input. *)

From S2P Require Import Prelude.

Module ResampleFrac.

Definition kCoefficients48To32_0 : list Z := [778; -2050; 1087; 23285; 12903; -3783; 441; 222].
Definition kCoefficients48To32_1 : list Z := [222; 441; -3783; 12903; 23285; 1087; -2050; 778].

Definition kCoefficients32To24_0 : list Z := [767; -2362; 2434; 24406; 10620; -3838; 721; 90].
Definition kCoefficients32To24_1 : list Z := [386; -381; -2646; 19062; 19062; -2646; -381; 386].
Definition kCoefficients32To24_2 : list Z := [90; 721; -3838; 10620; 24406; 2434; -2362; 767].

Definition kCoefficients44To32_0 : list Z :=
  [117; -669; 2245; -6183; 26267; 13529; -3245; 845; -138].
Definition kCoefficients44To32_1 : list Z :=
  [-101; 612; -2283; 8532; 29790; -5138; 1789; -524; 91].
Definition kCoefficients44To32_2 : list Z :=
  [50; -292; 1016; -3064; 32010; 3933; -1147; 315; -53].
Definition kCoefficients44To32_3 : list Z :=
  [-156; 974; -3863; 18603; 21691; -6246; 2353; -712; 126].

(** [tmp += coef[0] * p[0]; tmp += coef[1] * p[1]; ...] *)
Fixpoint mac (mem : list Z) (p : nat) (coef : list Z) (tmp : Z) : option Z :=
  match coef with
  | [] => Some tmp
  | c :: coef => x ← mem !! p; mac mem (S p) coef (tmp +i c *i x)
  end.

Definition WebRtcSpl_Resample48khzTo32khz (mem : list Z) (In Out K : nat) : option (list Z) :=
  for_loop K 0 (λ m mem,
    let In := (In + 3 * m)%nat in
    let Out := (Out + 2 * m)%nat in
    tmp ← mac mem (In + 0) kCoefficients48To32_0 (1 <<i 14);
    mem ← wr mem (Out + 0) tmp;
    tmp ← mac mem (In + 1) kCoefficients48To32_1 (1 <<i 14);
    wr mem (Out + 1) tmp) mem.

Definition WebRtcSpl_Resample32khzTo24khz (mem : list Z) (In Out K : nat) : option (list Z) :=
  for_loop K 0 (λ m mem,
    let In := (In + 4 * m)%nat in
    let Out := (Out + 3 * m)%nat in
    tmp ← mac mem (In + 0) kCoefficients32To24_0 (1 <<i 14);
    mem ← wr mem (Out + 0) tmp;
    tmp ← mac mem (In + 1) kCoefficients32To24_1 (1 <<i 14);
    mem ← wr mem (Out + 1) tmp;
    tmp ← mac mem (In + 2) kCoefficients32To24_2 (1 <<i 14);
    wr mem (Out + 2) tmp) mem.

(** [tmp += coef[0] * p[0]; tmp += coef[1] * p[-1]; ...] *)
Fixpoint mac_back (mem : list Z) (p : Z) (coef : list Z) (tmp : Z) : option Z :=
  match coef with
  | [] => Some tmp
  | c :: coef => x ← rdz mem p; mac_back mem (p - 1) coef (tmp +i c *i x)
  end.

(** The last two products are computed as the results are stored, so that
    [in2[-8]] is read after the store to [out1]. *)
Definition WebRtcSpl_ResampDotProduct (mem : list Z) (in1 in2 : nat) (coef : list Z)
    (out1 out2 : nat) : option (list Z) :=
  tmp1 ← mac mem in1 (take 8 coef) 16384;
  tmp2 ← mac_back mem (Z.of_nat in2) (take 8 coef) 16384;
  c ← coef !! 8%nat;
  x ← mem !! (in1 + 8)%nat;
  mem ← wr mem out1 (tmp1 +i c *i x);
  y ← rdz mem (Z.of_nat in2 - 8);
  wr mem out2 (tmp2 +i c *i y).

Definition WebRtcSpl_Resample44khzTo32khz (mem : list Z) (In Out K : nat) : option (list Z) :=
  for_loop K 0 (λ m mem,
    let In := (In + 11 * m)%nat in
    let Out := (Out + 8 * m)%nat in
    let tmp := 1 <<i 14 in
    x ← mem !! (In + 3)%nat;
    mem ← wr mem (Out + 0) ((x <<i 15) +i tmp);
    tmp ← mac mem (In + 5) kCoefficients44To32_3 tmp;
    mem ← wr mem (Out + 4) tmp;
    mem ← WebRtcSpl_ResampDotProduct mem (In + 0) (In + 17) kCoefficients44To32_0
            (Out + 1) (Out + 7);
    mem ← WebRtcSpl_ResampDotProduct mem (In + 2) (In + 15) kCoefficients44To32_1
            (Out + 2) (Out + 6);
    WebRtcSpl_ResampDotProduct mem (In + 3) (In + 14) kCoefficients44To32_2
            (Out + 3) (Out + 5)) mem.

(** ** Reference: a FIR filter of a signal *)

Fixpoint fir (coef : list Z) (x : nat → Z) (p : nat) (acc : Z) : Z :=
  match coef with
  | [] => acc
  | c :: coef => fir coef x (S p) (acc +i c *i x p)
  end.

Fixpoint fir_back (coef : list Z) (x : nat → Z) (p : nat) (acc : Z) : Z :=
  match coef with
  | [] => acc
  | c :: coef => fir_back coef x (p - 1) (acc +i c *i x p)
  end.

Lemma fir_snoc l c x p acc :
  fir (l ++ [c]) x p acc = fir l x p acc +i c *i x (p + length l)%nat.
Proof.
  revert p acc. induction l as [|c' l IH]; intros p acc; cbn [app fir length].
  - by rewrite Nat.add_0_r.
  - by rewrite IH, <- plus_n_Sm.
Qed.

Lemma fir_back_snoc l c x p acc :
  fir_back (l ++ [c]) x p acc = fir_back l x p acc +i c *i x (p - length l)%nat.
Proof.
  revert p acc. induction l as [|c' l IH]; intros p acc; cbn [app fir_back length].
  - by rewrite Nat.sub_0_r.
  - rewrite IH. by replace (p - 1 - length l)%nat with (p - S (length l))%nat by lia.
Qed.

Lemma last_of_nine (coef : list Z) :
  length coef = 9%nat → ∃ l c, coef = l ++ [c] ∧ length l = 8%nat.
Proof.
  intros H. destruct coef as [|c l _] using rev_ind; [done|].
  exists l, c. rewrite length_app in H. simpl in H. split; [done|lia].
Qed.

Lemma mac_fir mem x p coef acc :
  (∀ i, (i < length coef)%nat → mem !! (p + i)%nat = Some (x (p + i)%nat)) →
  mac mem p coef acc = Some (fir coef x p acc).
Proof.
  revert p acc. induction coef as [|c coef IH]; intros p acc H; simpl; [done|].
  pose proof (H 0%nat ltac:(simpl; lia)) as H0. rewrite Nat.add_0_r in H0. rewrite H0. simpl.
  apply IH. intros i Hi. pose proof (H (S i) ltac:(simpl; lia)) as HS.
  by rewrite <- plus_n_Sm in HS.
Qed.

(** Reading behind the cells written so far. *)
Lemma mac_behind mem m' o n f p coef acc :
  wrote mem o n f m' → (o + n ≤ p)%nat → (p + length coef ≤ length mem)%nat →
  mac m' p coef acc = Some (fir coef (λ i, mem !!! i) p acc).
Proof.
  intros (Hl & _ & Hu) Hp Hc. apply mac_fir. intros i Hi. rewrite Hu by lia.
  apply lookup_total_Some. lia.
Qed.

(** The value of phase [j] of [n] in block [m]. *)
Ltac phase_eq n m j :=
  match goal with
  | |- _ = ?f ?i => replace i with (n * m + j)%nat by lia
  end;
  symmetry; etrans; [by apply (phase_at _ n)|]; cbv beta; f_equal; lia.

Section in_place.
Context (mem : list Z) (In Out K : nat).

Definition out48 : nat → Z :=
  phase [λ m, fir kCoefficients48To32_0 (λ i, mem !!! i) (In + 3 * m) 16384;
         λ m, fir kCoefficients48To32_1 (λ i, mem !!! i) (In + 3 * m + 1) 16384].

Lemma Resample48khzTo32khz_spec :
  (Out + 2 ≤ In)%nat → (In + 3 * K + 6 ≤ length mem)%nat →
  wp (WebRtcSpl_Resample48khzTo32khz mem In Out K) (wrote mem Out (2 * K) out48).
Proof.
  intros Hio Hl. apply (wp_for (λ m, wrote mem Out (2 * m) out48)); [apply wrote_nil| |done].
  intros m m0 Hm H0. cbv zeta. apply wp_bind.
  rewrite (mac_behind mem m0 Out (2 * m) out48) by first [done | simpl; lia]. apply wp_ret.
  apply wp_bind. rewrite Nat.add_0_r.
  apply (wp_wrote_snoc mem Out (2 * m) out48); [done|lia| |].
  { phase_eq 2%nat m 0%nat. }
  intros m1 H1. apply wp_bind.
  rewrite (mac_behind mem m1 Out (S (2 * m)) out48) by first [done | simpl; lia]. apply wp_ret.
  replace (Out + 2 * m + 1)%nat with (Out + S (2 * m))%nat by lia.
  apply (wp_wrote_snoc mem Out (S (2 * m)) out48); [done|lia| |].
  { phase_eq 2%nat m 1%nat. }
  intros m2 H2. by replace (2 * S m)%nat with (S (S (2 * m))) by lia.
Qed.

Definition out32 : nat → Z :=
  phase [λ m, fir kCoefficients32To24_0 (λ i, mem !!! i) (In + 4 * m) 16384;
         λ m, fir kCoefficients32To24_1 (λ i, mem !!! i) (In + 4 * m + 1) 16384;
         λ m, fir kCoefficients32To24_2 (λ i, mem !!! i) (In + 4 * m + 2) 16384].

Lemma Resample32khzTo24khz_spec :
  (Out + 3 ≤ In)%nat → (In + 4 * K + 6 ≤ length mem)%nat →
  wp (WebRtcSpl_Resample32khzTo24khz mem In Out K) (wrote mem Out (3 * K) out32).
Proof.
  intros Hio Hl. apply (wp_for (λ m, wrote mem Out (3 * m) out32)); [apply wrote_nil| |done].
  intros m m0 Hm H0. cbv zeta. apply wp_bind.
  rewrite (mac_behind mem m0 Out (3 * m) out32) by first [done | simpl; lia]. apply wp_ret.
  apply wp_bind. rewrite Nat.add_0_r.
  apply (wp_wrote_snoc mem Out (3 * m) out32); [done|lia|phase_eq 3%nat m 0%nat|].
  intros m1 H1. apply wp_bind.
  rewrite (mac_behind mem m1 Out (S (3 * m)) out32) by first [done | simpl; lia].
  apply wp_ret, wp_bind.
  replace (Out + 3 * m + 1)%nat with (Out + S (3 * m))%nat by lia.
  apply (wp_wrote_snoc mem Out (S (3 * m)) out32); [done|lia|phase_eq 3%nat m 1%nat|].
  intros m2 H2. apply wp_bind.
  rewrite (mac_behind mem m2 Out (S (S (3 * m))) out32) by first [done | simpl; lia].
  apply wp_ret.
  replace (Out + 3 * m + 2)%nat with (Out + S (S (3 * m)))%nat by lia.
  apply (wp_wrote_snoc mem Out (S (S (3 * m))) out32); [done|lia|phase_eq 3%nat m 2%nat|].
  intros m3 H3. by replace (3 * S m)%nat with (S (S (S (3 * m)))) by lia.
Qed.
(** The 8/11 filter writes the eight cells of a block out of order, but all of
    them below everything it still reads. *)
#[local] Abbreviation sig := (λ i, mem !!! i).
Definition out44 : nat → Z :=
  phase [λ m, (sig (In + 11 * m + 3)%nat <<i 15) +i 16384;
         λ m, fir kCoefficients44To32_0 sig (In + 11 * m + 0) 16384;
         λ m, fir kCoefficients44To32_1 sig (In + 11 * m + 2) 16384;
         λ m, fir kCoefficients44To32_2 sig (In + 11 * m + 3) 16384;
         λ m, fir kCoefficients44To32_3 sig (In + 11 * m + 5) 16384;
         λ m, fir_back kCoefficients44To32_2 sig (In + 11 * m + 14) 16384;
         λ m, fir_back kCoefficients44To32_1 sig (In + 11 * m + 15) 16384;
         λ m, fir_back kCoefficients44To32_0 sig (In + 11 * m + 17) 16384].

(** Cells from [lo] on still hold the input. *)
Definition intact (lo : nat) (m' : list Z) : Prop :=
  length m' = length mem ∧ ∀ p, (lo ≤ p)%nat → m' !! p = mem !! p.

Lemma intact_insert lo m' p v : intact lo m' → (p < lo)%nat → intact lo (<[p := v]> m').
Proof.
  intros [Hl Hu] Hp. split; [by rewrite length_insert|].
  intros q Hq. rewrite list_lookup_insert_ne by lia. by apply Hu.
Qed.

Lemma mac_intact lo m' p coef acc :
  intact lo m' → (lo ≤ p)%nat → (p + length coef ≤ length mem)%nat →
  mac m' p coef acc = Some (fir coef sig p acc).
Proof.
  intros [Hl Hu] Hp Hc. apply mac_fir. intros i Hi. rewrite Hu by lia.
  apply lookup_total_Some. lia.
Qed.

Lemma mac_back_intact lo m' p coef acc :
  intact lo m' → (lo + length coef ≤ S p)%nat → (p < length mem)%nat →
  mac_back m' (Z.of_nat p) coef acc = Some (fir_back coef sig p acc).
Proof.
  intros [Hl Hu]. revert p acc. induction coef as [|c coef IH]; intros p acc Hp Hc; [done|].
  cbn [mac_back fir_back length] in *. rewrite <- (Z.sub_0_r (Z.of_nat p)) at 1.
  change 0 with (Z.of_nat 0). rewrite rdz_nat, Nat.sub_0_r, Hu, lookup_total_Some by lia.
  cbn [mbind option_bind]. destruct coef as [|c' coef]; [done|].
  replace (Z.of_nat p - 1) with (Z.of_nat (p - 1)) by (simpl in Hp; lia).
  apply IH; simpl in *; lia.
Qed.

Lemma dot_intact lo m' p1 p2 coef o1 o2 (Q : list Z → Prop) :
  length coef = 9%nat →
  intact lo m' → (lo ≤ p1)%nat → (p1 + 9 ≤ length mem)%nat →
  (lo + 9 ≤ S p2)%nat → (p2 < length mem)%nat →
  (o1 < length mem)%nat → (o2 < length mem)%nat → (p2 - 8 ≠ o1)%nat →
  Q (<[o2 := fir_back coef sig p2 16384]> (<[o1 := fir coef sig p1 16384]> m')) →
  wp (WebRtcSpl_ResampDotProduct m' p1 p2 coef o1 o2) Q.
Proof.
  intros Hc Hi H1 H2 H3 H4 H5 H6 Hne HQ. pose proof Hi as [Hl Hu].
  destruct (last_of_nine coef Hc) as (l & c & -> & H8). unfold WebRtcSpl_ResampDotProduct.
  rewrite take_app_length' by done. rewrite lookup_app_r, H8 by lia.
  rewrite fir_snoc, fir_back_snoc, H8 in HQ by lia.
  rewrite (mac_intact lo m' p1), (mac_back_intact lo m' p2) by (done || lia).
  apply wp_bind, wp_ret, wp_bind, wp_ret, wp_bind, wp_ret.
  rewrite Hu, lookup_total_Some by lia. apply wp_bind, wp_ret, wp_bind, wp_wr; [by rewrite Hl|].
  rewrite (rdz_nat _ p2 8), list_lookup_insert_ne by lia.
  rewrite Hu, lookup_total_Some by lia. apply wp_bind, wp_ret, wp_wr; [by rewrite length_insert, Hl|].
  exact HQ.
Qed.

#[local] Ltac intact := repeat (apply intact_insert; [|lia]); assumption.

Lemma Resample44khzTo32khz_spec :
  (Out + 8 ≤ In)%nat → (In + 11 * K + 7 ≤ length mem)%nat →
  wp (WebRtcSpl_Resample44khzTo32khz mem In Out K) (wrote mem Out (8 * K) out44).
Proof.
  intros Hio Hl. apply (wp_for (λ m, wrote mem Out (8 * m) out44)); [apply wrote_nil| |done].
  intros m m0 Hm H0. cbv zeta. pose proof H0 as (Hl0 & Hw0 & Hu0).
  set (lo := (Out + 8 * m + 8)%nat).
  assert (intact lo m0) as I0 by (split; [done|]; intros; apply Hu0; lia).
  apply wp_bind. rewrite (proj2 I0), lookup_total_Some by lia. apply wp_ret.
  apply wp_bind, wp_wr; [lia|]. apply wp_bind.
  rewrite (mac_intact lo) by first [intact | simpl; lia]. apply wp_ret.
  apply wp_bind, wp_wr; [rewrite !length_insert; lia|]. apply wp_bind.
  apply (dot_intact lo); [done|intact|lia..|]. apply wp_bind.
  apply (dot_intact lo); [done|intact|lia..|].
  apply (dot_intact lo); [done|intact|lia..|].
  split_and!; [by rewrite !length_insert| |].
  - intros i Hi. destruct (decide (i < 8 * m)%nat).
    { rewrite !list_lookup_insert_ne by lia. by apply Hw0. }
    assert (∃ j, (i = 8 * m + j ∧ j < 8)%nat) as (j & -> & Hj)
      by (exists (i - 8 * m)%nat; lia).
    do 8 (destruct j as [|j];
      [ repeat first [ rewrite list_lookup_insert_ne by lia
                     | rewrite list_lookup_insert_eq' by (rewrite ?length_insert; lia) ];
        f_equal; symmetry; (etrans; [by apply (phase_at _ 8)|]); done
      | ]). lia.
  - intros p Hp. rewrite !list_lookup_insert_ne by lia. apply Hu0. lia.
Qed.
End in_place.

(** ** Claims *)

(** The 2/3 and the 3/4 converters in place. When the output starts two
    (three) cells below the input, each output is the FIR filter of its phase on
    the original input, although the outputs overwrite input cells, and no cell
    outside the output region changes. *)
Theorem resample_in_place (mem : list Z) (In Out K : nat) :
  (Out + 3 ≤ In)%nat → (In + 4 * K + 6 ≤ length mem)%nat →
  wp (WebRtcSpl_Resample48khzTo32khz mem In Out K) (wrote mem Out (2 * K)
    (phase [λ m, fir kCoefficients48To32_0 (λ i, mem !!! i) (In + 3 * m) 16384;
            λ m, fir kCoefficients48To32_1 (λ i, mem !!! i) (In + 3 * m + 1) 16384])) ∧
  wp (WebRtcSpl_Resample32khzTo24khz mem In Out K) (wrote mem Out (3 * K)
    (phase [λ m, fir kCoefficients32To24_0 (λ i, mem !!! i) (In + 4 * m) 16384;
            λ m, fir kCoefficients32To24_1 (λ i, mem !!! i) (In + 4 * m + 1) 16384;
            λ m, fir kCoefficients32To24_2 (λ i, mem !!! i) (In + 4 * m + 2) 16384])).
Proof.
  intros. split; [apply Resample48khzTo32khz_spec|apply Resample32khzTo24khz_spec]; lia.
Qed.

Lemma resample_in_place_witness :
  let mem := map (λ i, 100 * Z.of_nat i) (seq 0 25) in
  wp (WebRtcSpl_Resample48khzTo32khz mem 8 0 2) (wrote mem 0 (2 * 2)
    (phase [λ m, fir kCoefficients48To32_0 (λ i, mem !!! i) (8 + 3 * m) 16384;
            λ m, fir kCoefficients48To32_1 (λ i, mem !!! i) (8 + 3 * m + 1) 16384])) ∧
  wp (WebRtcSpl_Resample32khzTo24khz mem 8 0 2) (wrote mem 0 (3 * 2)
    (phase [λ m, fir kCoefficients32To24_0 (λ i, mem !!! i) (8 + 4 * m) 16384;
            λ m, fir kCoefficients32To24_1 (λ i, mem !!! i) (8 + 4 * m + 1) 16384;
            λ m, fir kCoefficients32To24_2 (λ i, mem !!! i) (8 + 4 * m + 2) 16384])).
Proof. intros mem. apply (resample_in_place mem 8 0 2); vm_compute; lia. Defined.

(** The 8/11 converter in place. When the output starts eight cells below
    the input, the eight outputs of every block, which are written out of order
    and in mirrored pairs, are the copy and the seven FIR filters of the original
    input. *)
Theorem Resample44khzTo32khz_in_place (mem : list Z) (In Out K : nat) :
  (Out + 8 ≤ In)%nat → (In + 11 * K + 7 ≤ length mem)%nat →
  wp (WebRtcSpl_Resample44khzTo32khz mem In Out K) (wrote mem Out (8 * K) (out44 mem In)).
Proof. apply Resample44khzTo32khz_spec. Qed.

Lemma Resample44khzTo32khz_in_place_witness :
  let mem := map (λ i, 100 * Z.of_nat i) (seq 0 37) in
  wp (WebRtcSpl_Resample44khzTo32khz mem 8 0 2) (wrote mem 0 (8 * 2) (out44 mem 8)).
Proof. intros mem. apply (Resample44khzTo32khz_in_place mem 8 0 2); vm_compute; lia. Defined.

End ResampleFrac.
