(* ===== verification/Resample48.v ===== *)
(** * Resampling between 48 kHz and 8 or 16 kHz
    (common_audio/signal_processing/resample_48khz.c)

    Each converter handles one 10 ms block: it chains the filters of
    resample_by_2_internal.c and resample_fractional.c through one scratch
    array [tmpmem], in which the input and the output of a stage are two
    regions, and keeps the last words of a block for the next one.

    The theorems show that with a scratch array of the size the callers provide
    no stage reads a cell another stage has overwritten, and give the output of
    a whole converter as the composition of the stage filters on the signal. *)

From S2P Require Import Prelude ResampleBy2 ResampleFrac.
Import ResampleBy2 ResampleFrac.

Module Resample48.

Record WebRtcSpl_State48khzTo16khz := {
  S_48_48 : list Z; (* 16 *)
  S_48_32 : list Z; (* 8 *)
  S_32_16 : list Z; (* 8 *)
}.

Record WebRtcSpl_State16khzTo48khz := {
  S_16_32 : list Z; (* 8 *)
  S_32_24 : list Z; (* 8 *)
  S_24_48 : list Z; (* 8 *)
}.

Record WebRtcSpl_State48khzTo8khz := {
  S_48_24 : list Z; (* 8 *)
  S_24_24 : list Z; (* 16 *)
  S_24_16 : list Z; (* 8 *)
  S_16_8 : list Z;  (* 8 *)
}.

Record WebRtcSpl_State8khzTo48khz := {
  S_8_16 : list Z;   (* 8 *)
  S_16_12 : list Z;  (* 8 *)
  S_12_24 : list Z;  (* 8 *)
  S8_24_48 : list Z; (* 8 *)
}.

(** [in] and [out] are the arrays the pointers designate, from their cells
    [ip] and [op] on. Each converter returns [out], [state] and [tmpmem]. *)
Definition WebRtcSpl_Resample48khzTo16khz (inm : list Z) (ip : nat) (outm : list Z) (op : nat)
    (state : WebRtcSpl_State48khzTo16khz) (tmpmem : list Z)
  : option (list Z * WebRtcSpl_State48khzTo16khz * list Z) :=
  '(tmpmem, s_48_48) ← WebRtcSpl_LPBy2ShortToInt inm ip 480 tmpmem 16 (S_48_48 state);
  tmpmem ← memcpy tmpmem 8 (S_48_32 state) 0 8;
  s_48_32 ← memcpy (S_48_32 state) 0 tmpmem 488 8;
  tmpmem ← WebRtcSpl_Resample48khzTo32khz tmpmem 8 0 160;
  '(tmpmem, outm, s_32_16) ← WebRtcSpl_DownBy2IntToShort tmpmem 0 320 outm op (S_32_16 state);
  Some (outm, {| S_48_48 := s_48_48; S_48_32 := s_48_32; S_32_16 := s_32_16 |}, tmpmem).

Definition WebRtcSpl_ResetResample48khzTo16khz (state : WebRtcSpl_State48khzTo16khz)
  : option WebRtcSpl_State48khzTo16khz :=
  s_48_48 ← memset (S_48_48 state) 0 0 16;
  s_48_32 ← memset (S_48_32 state) 0 0 8;
  s_32_16 ← memset (S_32_16 state) 0 0 8;
  Some {| S_48_48 := s_48_48; S_48_32 := s_48_32; S_32_16 := s_32_16 |}.

Definition WebRtcSpl_Resample16khzTo48khz (inm : list Z) (ip : nat) (outm : list Z) (op : nat)
    (state : WebRtcSpl_State16khzTo48khz) (tmpmem : list Z)
  : option (list Z * WebRtcSpl_State16khzTo48khz * list Z) :=
  '(tmpmem, s_16_32) ← WebRtcSpl_UpBy2ShortToInt inm ip 160 tmpmem 16 (S_16_32 state);
  tmpmem ← memcpy tmpmem 8 (S_32_24 state) 0 8;
  s_32_24 ← memcpy (S_32_24 state) 0 tmpmem 328 8;
  tmpmem ← WebRtcSpl_Resample32khzTo24khz tmpmem 8 0 80;
  '(outm, s_24_48) ← WebRtcSpl_UpBy2IntToShort tmpmem 0 240 outm op (S_24_48 state);
  Some (outm, {| S_16_32 := s_16_32; S_32_24 := s_32_24; S_24_48 := s_24_48 |}, tmpmem).

Definition WebRtcSpl_ResetResample16khzTo48khz (state : WebRtcSpl_State16khzTo48khz)
  : option WebRtcSpl_State16khzTo48khz :=
  s_16_32 ← memset (S_16_32 state) 0 0 8;
  s_32_24 ← memset (S_32_24 state) 0 0 8;
  s_24_48 ← memset (S_24_48 state) 0 0 8;
  Some {| S_16_32 := s_16_32; S_32_24 := s_32_24; S_24_48 := s_24_48 |}.

Definition WebRtcSpl_Resample48khzTo8khz (inm : list Z) (ip : nat) (outm : list Z) (op : nat)
    (state : WebRtcSpl_State48khzTo8khz) (tmpmem : list Z)
  : option (list Z * WebRtcSpl_State48khzTo8khz * list Z) :=
  '(tmpmem, s_48_24) ← WebRtcSpl_DownBy2ShortToInt inm ip 480 tmpmem 256 (S_48_24 state);
  '(tmpmem, s_24_24) ← WebRtcSpl_LPBy2IntToInt tmpmem 256 240 16 (S_24_24 state);
  tmpmem ← memcpy tmpmem 8 (S_24_16 state) 0 8;
  s_24_16 ← memcpy (S_24_16 state) 0 tmpmem 248 8;
  tmpmem ← WebRtcSpl_Resample48khzTo32khz tmpmem 8 0 80;
  '(tmpmem, outm, s_16_8) ← WebRtcSpl_DownBy2IntToShort tmpmem 0 160 outm op (S_16_8 state);
  Some (outm, {| S_48_24 := s_48_24; S_24_24 := s_24_24; S_24_16 := s_24_16; S_16_8 := s_16_8 |},
        tmpmem).

Definition WebRtcSpl_ResetResample48khzTo8khz (state : WebRtcSpl_State48khzTo8khz)
  : option WebRtcSpl_State48khzTo8khz :=
  s_48_24 ← memset (S_48_24 state) 0 0 8;
  s_24_24 ← memset (S_24_24 state) 0 0 16;
  s_24_16 ← memset (S_24_16 state) 0 0 8;
  s_16_8 ← memset (S_16_8 state) 0 0 8;
  Some {| S_48_24 := s_48_24; S_24_24 := s_24_24; S_24_16 := s_24_16; S_16_8 := s_16_8 |}.

Definition WebRtcSpl_Resample8khzTo48khz (inm : list Z) (ip : nat) (outm : list Z) (op : nat)
    (state : WebRtcSpl_State8khzTo48khz) (tmpmem : list Z)
  : option (list Z * WebRtcSpl_State8khzTo48khz * list Z) :=
  '(tmpmem, s_8_16) ← WebRtcSpl_UpBy2ShortToInt inm ip 80 tmpmem 264 (S_8_16 state);
  tmpmem ← memcpy tmpmem 256 (S_16_12 state) 0 8;
  s_16_12 ← memcpy (S_16_12 state) 0 tmpmem 416 8;
  tmpmem ← WebRtcSpl_Resample32khzTo24khz tmpmem 256 240 40;
  '(tmpmem, s_12_24) ← WebRtcSpl_UpBy2IntToInt tmpmem 240 120 0 (S_12_24 state);
  '(outm, s_24_48) ← WebRtcSpl_UpBy2IntToShort tmpmem 0 240 outm op (S8_24_48 state);
  Some (outm, {| S_8_16 := s_8_16; S_16_12 := s_16_12; S_12_24 := s_12_24;
                 S8_24_48 := s_24_48 |}, tmpmem).

Definition WebRtcSpl_ResetResample8khzTo48khz (state : WebRtcSpl_State8khzTo48khz)
  : option WebRtcSpl_State8khzTo48khz :=
  s_8_16 ← memset (S_8_16 state) 0 0 8;
  s_16_12 ← memset (S_16_12 state) 0 0 8;
  s_12_24 ← memset (S_12_24 state) 0 0 8;
  s_24_48 ← memset (S8_24_48 state) 0 0 8;
  Some {| S_8_16 := s_8_16; S_16_12 := s_16_12; S_12_24 := s_12_24; S8_24_48 := s_24_48 |}.

(** ** The stages on signals *)

(** [m] holds the signal [x] in the [n] cells from [o] on. *)
Definition holds (m : list Z) (o n : nat) (x : nat → Z) : Prop :=
  ∀ i, (i < n)%nat → m !! (o + i)%nat = Some (x i).

(** Filter memories: two or four branches. *)
Definition mem2 (st : list Z) (q : quad * quad) : Prop :=
  length st = 8%nat ∧ get4 st 0 = Some q.1 ∧ get4 st 4 = Some q.2.
Definition mem4 (st : list Z) (q : quad * quad * quad * quad) : Prop :=
  let '(q0, q4, q8, q12) := q in
  length st = 16%nat ∧ get4 st 0 = Some q0 ∧ get4 st 4 = Some q4 ∧
  get4 st 8 = Some q8 ∧ get4 st 12 = Some q12.

Definition evens (x : nat → Z) (i : nat) : Z := x (2 * i)%nat.
Definition odds (x : nat → Z) (i : nat) : Z := x (2 * i + 1)%nat.

(** Decimation by two: the two branches of the half-band filter, summed. *)
Definition decim (q : quad * quad) (x : nat → Z) (i : nat) : Z :=
  half 0 (ap_out kResampleAllpass1 q.1 (evens x) i)
  +i half 0 (ap_out kResampleAllpass0 q.2 (odds x) i).
Definition decim_mem (q : quad * quad) (x : nat → Z) (n : nat) : quad * quad :=
  (ap_state kResampleAllpass1 q.1 (evens x) n, ap_state kResampleAllpass0 q.2 (odds x) n).

(** Interpolation by two. *)
Definition interp (post : Z → Z) (q : quad * quad) (x : nat → Z) : nat → Z :=
  up_out post x q.1 q.2.
Definition interp_mem (q : quad * quad) (x : nat → Z) (n : nat) : quad * quad :=
  (ap_state kResampleAllpass1 q.1 x n, ap_state kResampleAllpass0 q.2 x n).

(** The half-band low-pass filter at the full rate. *)
Definition lowpass (q : quad * quad * quad * quad) (x : nat → Z) : nat → Z :=
  let '(q0, q4, q8, q12) := q in lp_out (evens x) (odds x) q0 q4 q8 q12.
Definition lowpass_mem (q : quad * quad * quad * quad) (x : nat → Z) (n : nat)
  : quad * quad * quad * quad :=
  let '(q0, q4, q8, q12) := q in
  (ap_state kResampleAllpass1 q0 (delayed (odds x) q12) n,
   ap_state kResampleAllpass0 q4 (evens x) n,
   ap_state kResampleAllpass1 q8 (evens x) n,
   ap_state kResampleAllpass0 q12 (odds x) n).

(** A block preceded by the last eight words of the block before. *)
Definition with_history (h : list Z) (x : nat → Z) (i : nat) : Z :=
  if (i <? 8)%nat then h !!! i else x (i - 8)%nat.

(** The fractional filters on a signal. *)
Definition two_thirds (x : nat → Z) : nat → Z :=
  phase [λ m, fir kCoefficients48To32_0 x (3 * m) 16384;
         λ m, fir kCoefficients48To32_1 x (3 * m + 1) 16384].
Definition three_quarters (x : nat → Z) : nat → Z :=
  phase [λ m, fir kCoefficients32To24_0 x (4 * m) 16384;
         λ m, fir kCoefficients32To24_1 x (4 * m + 1) 16384;
         λ m, fir kCoefficients32To24_2 x (4 * m + 2) 16384].

(** *** Extensionality *)

Lemma ap_out_ext k q x x' i :
  (∀ j, (j ≤ i)%nat → x j = x' j) → ap_out k q x i = ap_out k q x' i.
Proof. intros H. unfold ap_out. f_equal. apply ap_state_ext. intros. apply H. lia. Qed.

Lemma fir_ext coef x x' p p' acc :
  (∀ i, (i < length coef)%nat → x (p + i)%nat = x' (p' + i)%nat) →
  fir coef x p acc = fir coef x' p' acc.
Proof.
  revert p p' acc. induction coef as [|c coef IH]; intros p p' acc H; [done|]. cbn [fir].
  pose proof (H 0%nat ltac:(simpl; lia)) as H0. rewrite !Nat.add_0_r in H0. rewrite H0.
  apply IH. intros i Hi. rewrite !Nat.add_succ_comm. apply H. simpl. lia.
Qed.

Lemma wrote_ext m o n f g m' :
  wrote m o n f m' → (∀ i, (i < n)%nat → f i = g i) → wrote m o n g m'.
Proof.
  intros (Hl & Hw & Hu) E. split_and!; [done| |done]. intros i Hi. rewrite <- E by done. auto.
Qed.

Lemma wrote_holds m o n f m' : wrote m o n f m' → holds m' o n f.
Proof. intros (_ & H & _). exact H. Qed.

Lemma wrote_keeps m o n f m' o' n' x :
  wrote m o n f m' → (o' + n' ≤ o ∨ o + n ≤ o')%nat → holds m o' n' x → holds m' o' n' x.
Proof. intros (_ & _ & Hu) Ho H i Hi. rewrite Hu by lia. by apply H. Qed.

Lemma holds_ext m o n x x' :
  holds m o n x → (∀ i, (i < n)%nat → x i = x' i) → holds m o n x'.
Proof. intros H E i Hi. rewrite <- E by done. by apply H. Qed.

Lemma holds_total m o n x i : holds m o n x → (i < n)%nat → m !!! (o + i)%nat = x i.
Proof. intros H Hi. by apply list_lookup_total_correct, H. Qed.

Lemma holds_length m o n x : holds m o n x → (0 < n)%nat → (o + n ≤ length m)%nat.
Proof.
  intros H Hn. pose proof (lookup_lt_Some _ _ _ (H (n - 1)%nat ltac:(lia))). lia.
Qed.

(** *** Every stage as a signal transformer *)

Lemma down_short_int_stage inm ip n outm op st q x :
  mem2 st q → holds inm ip (2 * n) x → (0 < n)%nat → (op + n ≤ length outm)%nat →
  wp (WebRtcSpl_DownBy2ShortToInt inm ip (2 * n) outm op st) (λ '(m, st'),
    wrote outm op n (decim q (λ i, to_q15 (x i))) m ∧
    mem2 st' (decim_mem q (λ i, to_q15 (x i)) n)).
Proof.
  intros (Hl & Hq0 & Hq4) Hx Hn Ho. pose proof (holds_length _ _ _ _ Hx ltac:(lia)).
  assert (∀ i, (i < n)%nat → dsi_even inm ip i = evens (λ i, to_q15 (x i)) i) as Ee.
  { intros i Hi. unfold dsi_even, evens. by rewrite (holds_total _ _ _ _ _ Hx) by lia. }
  assert (∀ i, (i < n)%nat → dsi_odd inm ip i = odds (λ i, to_q15 (x i)) i) as Eo.
  { intros i Hi. unfold dsi_odd, odds. f_equal. rewrite <- (holds_total _ _ _ _ _ Hx) by lia.
    f_equal. lia. }
  wp_call (apply (DownBy2ShortToInt_spec inm outm st ip op (2 * n) q.1 q.2);
           rewrite ?half_double; done || lia).
  intros [m st']. rewrite !half_double. intros (Hw & Hls & Hg0 & Hg4). split.
  - eapply wrote_ext; [exact Hw|]. intros i Hi. unfold dsi_out, decim, add_half.
    rewrite (ap_out_ext _ _ (dsi_even _ _) (evens (λ i, to_q15 (x i)))) by (intros; apply Ee; lia).
    by rewrite (ap_out_ext _ _ (dsi_odd _ _) (odds (λ i, to_q15 (x i)))) by (intros; apply Eo; lia).
  - split_and!; [congruence| |]; simpl.
    + rewrite Hg0. f_equal. by apply ap_state_ext.
    + rewrite Hg4. f_equal. by apply ap_state_ext.
Qed.

Lemma down_int_short_stage inm ip h outm op st q x :
  let n := (2 * h)%nat in
  mem2 st q → holds inm ip (2 * n) x → (0 < n)%nat → (op + n ≤ length outm)%nat →
  wp (WebRtcSpl_DownBy2IntToShort inm ip (2 * n) outm op st) (λ '(m, o, st'),
    length m = length inm ∧ wrote outm op n (λ i, sat16 (decim q x i >>i 15)) o ∧
    mem2 st' (decim_mem q x n)).
Proof.
  intros n (Hl & Hq0 & Hq4) Hx Hn Ho. pose proof (holds_length _ _ _ _ Hx ltac:(lia)).
  assert (∀ i, (i < n)%nat → dis_even inm ip i = evens x i) as Ee.
  { intros i Hi. unfold dis_even, evens. by rewrite (holds_total _ _ _ _ _ Hx) by lia. }
  assert (∀ i, (i < n)%nat → dis_odd inm ip i = odds x i) as Eo.
  { intros i Hi. unfold dis_odd, odds. rewrite <- (holds_total _ _ _ _ _ Hx) by lia.
    f_equal. lia. }
  wp_call (apply (DownBy2IntToShort_spec inm outm st ip op (2 * n) h q.1 q.2);
           rewrite ?half_double; done || lia).
  intros [[m o] st']. rewrite !half_double. intros (Hm & Hw & Hls & Hg0 & Hg4).
  split_and!; [done| |].
  - eapply wrote_ext; [exact Hw|]. intros i Hi. unfold dis_out, decim.
    rewrite (ap_out_ext _ _ (dis_even _ _) (evens x)) by (intros; apply Ee; lia).
    by rewrite (ap_out_ext _ _ (dis_odd _ _) (odds x)) by (intros; apply Eo; lia).
  - split_and!; [congruence| |]; simpl.
    + rewrite Hg0. f_equal. by apply ap_state_ext.
    + rewrite Hg4. f_equal. by apply ap_state_ext.
Qed.

Lemma up_short_int_stage inm ip n outm op st q x :
  mem2 st q → holds inm ip n x → (op + 2 * n ≤ length outm)%nat →
  wp (WebRtcSpl_UpBy2ShortToInt inm ip n outm op st) (λ '(m, st'),
    wrote outm op (2 * n) (interp (λ y, y >>i 15) q (λ i, to_q15 (x i))) m ∧
    mem2 st' (interp_mem q (λ i, to_q15 (x i)) n)).
Proof.
  intros (Hl & Hq0 & Hq4) Hx Ho.
  wp_call (apply (up_spec outm st op n _ (λ y, y >>i 15) (λ i, to_q15 (x i)) q.1 q.2);
           [done..|]).
  { intros i m Hi _ _. by rewrite (Hx i Hi). }
  intros [m st'] (Hw & Hls & Hg0 & Hg4). split; [done|]. split_and!; [congruence|done|done].
Qed.

Lemma up_int_short_stage inm ip n outm op st q x :
  mem2 st q → holds inm ip n x → (op + 2 * n ≤ length outm)%nat →
  wp (WebRtcSpl_UpBy2IntToShort inm ip n outm op st) (λ '(m, st'),
    wrote outm op (2 * n) (interp (λ y, sat16 (y >>i 15)) q x) m ∧
    mem2 st' (interp_mem q x n)).
Proof.
  intros (Hl & Hq0 & Hq4) Hx Ho.
  wp_call (apply (up_spec outm st op n _ (λ y, sat16 (y >>i 15)) x q.1 q.2); [done..|]).
  { intros i m Hi _ _. by rewrite (Hx i Hi). }
  intros [m st'] (Hw & Hls & Hg0 & Hg4). split; [done|]. split_and!; [congruence|done|done].
Qed.

Lemma up_int_int_stage mem ip n op st q x :
  mem2 st q → holds mem ip n x → (op + 2 * n ≤ length mem)%nat →
  (op + 2 * n ≤ ip ∨ ip + n ≤ op)%nat →
  wp (WebRtcSpl_UpBy2IntToInt mem ip n op st) (λ '(m, st'),
    wrote mem op (2 * n) (interp (λ y, y) q x) m ∧ mem2 st' (interp_mem q x n)).
Proof.
  intros (Hl & Hq0 & Hq4) Hx Ho Hd.
  wp_call (apply (up_spec mem st op n _ (λ y, y) x q.1 q.2); [done..|]).
  { intros i m Hi _ Hm. rewrite Hm by lia. by apply Hx. }
  intros [m st'] (Hw & Hls & Hg0 & Hg4). split; [done|]. split_and!; [congruence|done|done].
Qed.

Lemma lp_short_int_stage inm ip n outm op st q x :
  mem4 st q → holds inm ip (2 * n) x → (op + 2 * n ≤ length outm)%nat →
  wp (WebRtcSpl_LPBy2ShortToInt inm ip (2 * n) outm op st) (λ '(m, st'),
    wrote outm op (2 * n) (lowpass q (λ i, to_q15 (x i))) m ∧
    mem4 st' (lowpass_mem q (λ i, to_q15 (x i)) n)).
Proof.
  destruct q as [[[q0 q4] q8] q12]. intros (Hl & Hq0 & Hq4 & Hq8 & Hq12) Hx Ho.
  unfold WebRtcSpl_LPBy2ShortToInt. rewrite half_double. cbv zeta.
  wp_call (apply (lp_spec outm st op n _ _ (evens (λ i, to_q15 (x i)))
                    (odds (λ i, to_q15 (x i))) q0 q4 q8 q12); [done..| |]).
  { intros i m Hi _. by rewrite (Hx (2 * i)%nat) by lia. }
  { intros i m Hi _. replace (ip + 1 + 2 * i)%nat with (ip + (2 * i + 1))%nat by lia.
    by rewrite Hx by lia. }
  intros [m st'] (Hw & Hls & H0 & H4 & H8 & H12). split; [done|].
  split_and!; [congruence|done..].
Qed.

Lemma lp_int_int_stage mem ip n op st q x :
  mem4 st q → holds mem ip (2 * n) x → (op + 2 * n ≤ length mem)%nat →
  (op + 2 * n ≤ ip ∨ ip + 2 * n ≤ op)%nat →
  wp (WebRtcSpl_LPBy2IntToInt mem ip (2 * n) op st) (λ '(m, st'),
    wrote mem op (2 * n) (lowpass q x) m ∧ mem4 st' (lowpass_mem q x n)).
Proof.
  destruct q as [[[q0 q4] q8] q12]. intros (Hl & Hq0 & Hq4 & Hq8 & Hq12) Hx Ho Hd.
  unfold WebRtcSpl_LPBy2IntToInt. rewrite half_double. cbv zeta.
  wp_call (apply (lp_spec mem st op n _ _ (evens x) (odds x) q0 q4 q8 q12); [done..| |]).
  { intros i m Hi [_ Hm]. rewrite Hm by lia. apply Hx. lia. }
  { intros i m Hi [_ Hm]. replace (ip + 1 + 2 * i)%nat with (ip + (2 * i + 1))%nat by lia.
    rewrite Hm by lia. apply Hx. lia. }
  intros [m st'] (Hw & Hls & H0 & H4 & H8 & H12). split; [done|].
  split_and!; [congruence|done..].
Qed.

Lemma two_thirds_stage mem ip op K x :
  holds mem ip (3 * K + 6) x → (op + 2 ≤ ip)%nat →
  wp (WebRtcSpl_Resample48khzTo32khz mem ip op K) (wrote mem op (2 * K) (two_thirds x)).
Proof.
  intros Hx Ho. pose proof (holds_length _ _ _ _ Hx ltac:(lia)).
  wp_call (apply Resample48khzTo32khz_spec; lia). intros m Hw.
  eapply wrote_ext; [exact Hw|]. intros i Hi.
  assert (i / 2 < K)%nat by (apply Nat.Div0.div_lt_upper_bound; lia).
  apply (phase_ext _ _ 2); [done|].
  repeat first [apply Forall2_nil_2 | apply Forall2_cons_2];
    apply fir_ext; intros j Hj; change (length _) with 8%nat in Hj;
    rewrite <- !Nat.add_assoc, (holds_total _ _ _ _ _ Hx) by lia; f_equal; lia.
Qed.

Lemma three_quarters_stage mem ip op K x :
  holds mem ip (4 * K + 6) x → (op + 3 ≤ ip)%nat →
  wp (WebRtcSpl_Resample32khzTo24khz mem ip op K) (wrote mem op (3 * K) (three_quarters x)).
Proof.
  intros Hx Ho. pose proof (holds_length _ _ _ _ Hx ltac:(lia)).
  wp_call (apply Resample32khzTo24khz_spec; lia). intros m Hw.
  eapply wrote_ext; [exact Hw|]. intros i Hi.
  assert (i / 3 < K)%nat by (apply Nat.Div0.div_lt_upper_bound; lia).
  apply (phase_ext _ _ 3); [done|].
  repeat first [apply Forall2_nil_2 | apply Forall2_cons_2];
    apply fir_ext; intros j Hj; change (length _) with 8%nat in Hj;
    rewrite <- !Nat.add_assoc, (holds_total _ _ _ _ _ Hx) by lia; f_equal; lia.
Qed.

(** Storing the eight words of history in front of a block, and saving the
    last eight words of the block. *)
Lemma history_in mem h o n x (Q : list Z → Prop) :
  length h = 8%nat → holds mem (o + 8) n x → (o + 8 ≤ length mem)%nat →
  (∀ m, length m = length mem → holds m o (n + 8) (with_history h x) → Q m) →
  wp (memcpy mem o h 0 8) Q.
Proof.
  intros Hh Hx Hl HQ. apply wp_memcpy; [lia|lia|]. rewrite drop_0, (take_ge h) by lia.
  apply HQ; [rewrite !length_app, length_take, length_drop; lia|]. intros i Hi.
  rewrite lookup_app_r by (rewrite length_take; lia). rewrite length_take.
  replace (o + i - o `min` length mem)%nat with i by lia. unfold with_history.
  destruct (Nat.ltb_spec i 8) as [H8|H8].
  - rewrite lookup_app_l by lia. apply lookup_total_Some. lia.
  - rewrite lookup_app_r, lookup_drop, Hh by lia. rewrite <- Hx by lia. f_equal; lia.
Qed.

Lemma history_out mem h o n x (Q : list Z → Prop) :
  length h = 8%nat → holds mem o (n + 8) x →
  Q (map (λ i, x (n + i)%nat) (seq 0 8)) → wp (memcpy h 0 mem (o + n) 8) Q.
Proof.
  intros Hh Hx HQ. pose proof (holds_length _ _ _ _ Hx ltac:(lia)).
  apply wp_memcpy; [lia|lia|]. rewrite take_0, (drop_ge h) by lia.
  rewrite app_nil_r, app_nil_l. assert (take 8 (drop (o + n) mem) =
    map (λ i, x (n + i)%nat) (seq 0 8)) as ->; [|done].
  apply list_eq. intros i. rewrite list_lookup_fmap. destruct (decide (i < 8)%nat).
  - rewrite lookup_take_lt, lookup_drop, lookup_seq_lt by done. simpl.
    rewrite <- Hx by lia. f_equal. lia.
  - rewrite lookup_take_ge, lookup_seq_ge by lia. done.
Qed.

(** ** The converters *)

(** The 48 to 8 kHz chain on a block [x], from the filter memories [q2] (first
    decimator), [q4] (low-pass), [h] (history) and [r2] (last decimator). *)
Section chain48to8.
Context (q2 r2 : quad * quad) (q4 : quad * quad * quad * quad) (h : list Z) (x : nat → Z).
Definition c8_half : nat → Z := decim q2 (λ i, to_q15 (x i)).
Definition c8_lp : nat → Z := lowpass q4 c8_half.
Definition c8_frac : nat → Z := two_thirds (with_history h c8_lp).
Definition c8_out (i : nat) : Z := sat16 (decim r2 c8_frac i >>i 15).

Definition c8_next (state' : WebRtcSpl_State48khzTo8khz) : Prop :=
  mem2 (S_48_24 state') (decim_mem q2 (λ i, to_q15 (x i)) 240) ∧
  mem4 (S_24_24 state') (lowpass_mem q4 c8_half 120) ∧
  S_24_16 state' = map (λ i, c8_lp (232 + i)%nat) (seq 0 8) ∧
  mem2 (S_16_8 state') (decim_mem r2 c8_frac 80).
End chain48to8.

Lemma Resample48khzTo8khz_chain inm ip outm op state tmpmem q2 q4 r2 x :
  holds inm ip 480 x → (op + 80 ≤ length outm)%nat → (496 ≤ length tmpmem)%nat →
  mem2 (S_48_24 state) q2 → mem4 (S_24_24 state) q4 → length (S_24_16 state) = 8%nat →
  mem2 (S_16_8 state) r2 →
  wp (WebRtcSpl_Resample48khzTo8khz inm ip outm op state tmpmem) (λ '(out, state', tmpmem'),
    wrote outm op 80 (c8_out q2 r2 q4 (S_24_16 state) x) out ∧
    c8_next q2 r2 q4 (S_24_16 state) x state' ∧ length tmpmem' = length tmpmem).
Proof.
  intros Hx Ho Ht M2 M4 Hh R2. unfold WebRtcSpl_Resample48khzTo8khz.
  apply wp_bind. wp_call (by apply (down_short_int_stage inm ip 240); [..|lia|lia]).
  intros [t1 s1] [W1 N1]. pose proof (wrote_length _ _ _ _ _ W1).
  apply wp_bind. wp_call (by apply (lp_int_int_stage t1 256 120);
    [|apply (wrote_holds _ _ _ _ _ W1)|lia|lia]).
  intros [t2 s2] [W2 N2]. pose proof (wrote_length _ _ _ _ _ W2).
  apply wp_bind. apply (history_in t2 _ 8 240 (c8_lp q2 q4 x));
    [done|apply (wrote_holds _ _ _ _ _ W2)|lia|].
  intros t3 Hl3 H3.
  apply wp_bind. eapply (history_out t3 _ 8 240); [done|done|]. cbv beta.
  apply wp_bind. wp_call (apply (two_thirds_stage t3 8 0 80 (with_history (S_24_16 state)
    (c8_lp q2 q4 x))); [intros i Hi; apply H3; lia|lia]).
  intros t4 W4. pose proof (wrote_length _ _ _ _ _ W4).
  apply wp_bind. wp_call (by apply (down_int_short_stage t4 0 40);
    [|apply (wrote_holds _ _ _ _ _ W4)|lia|lia]).
  intros [[t5 o] s5] (Hl5 & W5 & N5). apply wp_ret. split_and!; [done| |lia].
  by split_and!.
Qed.

Section chain48to16.
Context (r2 : quad * quad) (q4 : quad * quad * quad * quad) (h : list Z) (x : nat → Z).
Definition c16_lp : nat → Z := lowpass q4 (λ i, to_q15 (x i)).
Definition c16_frac : nat → Z := two_thirds (with_history h c16_lp).
Definition c16_out (i : nat) : Z := sat16 (decim r2 c16_frac i >>i 15).

Definition c16_next (state' : WebRtcSpl_State48khzTo16khz) : Prop :=
  mem4 (S_48_48 state') (lowpass_mem q4 (λ i, to_q15 (x i)) 240) ∧
  S_48_32 state' = map (λ i, c16_lp (472 + i)%nat) (seq 0 8) ∧
  mem2 (S_32_16 state') (decim_mem r2 c16_frac 160).
End chain48to16.

Lemma Resample48khzTo16khz_chain inm ip outm op state tmpmem q4 r2 x :
  holds inm ip 480 x → (op + 160 ≤ length outm)%nat → (496 ≤ length tmpmem)%nat →
  mem4 (S_48_48 state) q4 → length (S_48_32 state) = 8%nat → mem2 (S_32_16 state) r2 →
  wp (WebRtcSpl_Resample48khzTo16khz inm ip outm op state tmpmem) (λ '(out, state', tmpmem'),
    wrote outm op 160 (c16_out r2 q4 (S_48_32 state) x) out ∧
    c16_next r2 q4 (S_48_32 state) x state' ∧ length tmpmem' = length tmpmem).
Proof.
  intros Hx Ho Ht M4 Hh R2. unfold WebRtcSpl_Resample48khzTo16khz.
  apply wp_bind. wp_call (by apply (lp_short_int_stage inm ip 240); [..|lia]).
  intros [t1 s1] [W1 N1]. pose proof (wrote_length _ _ _ _ _ W1).
  apply wp_bind. apply (history_in t1 _ 8 480 (c16_lp q4 x));
    [done|apply (wrote_holds _ _ _ _ _ W1)|lia|].
  intros t2 Hl2 H2.
  apply wp_bind. eapply (history_out t2 _ 8 480); [done|done|]. cbv beta.
  apply wp_bind. wp_call (apply (two_thirds_stage t2 8 0 160 (with_history (S_48_32 state)
    (c16_lp q4 x))); [intros i Hi; apply H2; lia|lia]).
  intros t3 W3. pose proof (wrote_length _ _ _ _ _ W3).
  apply wp_bind. wp_call (by apply (down_int_short_stage t3 0 80);
    [|apply (wrote_holds _ _ _ _ _ W3)|lia|lia]).
  intros [[t4 o] s4] (Hl4 & W4 & N4). apply wp_ret. split_and!; [done| |lia].
  by split_and!.
Qed.

Section chain16to48.
Context (q2 r2 : quad * quad) (h : list Z) (x : nat → Z).
Definition u16_up : nat → Z := interp (λ y, y >>i 15) q2 (λ i, to_q15 (x i)).
Definition u16_frac : nat → Z := three_quarters (with_history h u16_up).
Definition u16_out : nat → Z := interp (λ y, sat16 (y >>i 15)) r2 u16_frac.

Definition u16_next (state' : WebRtcSpl_State16khzTo48khz) : Prop :=
  mem2 (S_16_32 state') (interp_mem q2 (λ i, to_q15 (x i)) 160) ∧
  S_32_24 state' = map (λ i, u16_up (312 + i)%nat) (seq 0 8) ∧
  mem2 (S_24_48 state') (interp_mem r2 u16_frac 240).
End chain16to48.

Lemma Resample16khzTo48khz_chain inm ip outm op state tmpmem q2 r2 x :
  holds inm ip 160 x → (op + 480 ≤ length outm)%nat → (336 ≤ length tmpmem)%nat →
  mem2 (S_16_32 state) q2 → length (S_32_24 state) = 8%nat → mem2 (S_24_48 state) r2 →
  wp (WebRtcSpl_Resample16khzTo48khz inm ip outm op state tmpmem) (λ '(out, state', tmpmem'),
    wrote outm op 480 (u16_out q2 r2 (S_32_24 state) x) out ∧
    u16_next q2 r2 (S_32_24 state) x state' ∧ length tmpmem' = length tmpmem).
Proof.
  intros Hx Ho Ht M2 Hh R2. unfold WebRtcSpl_Resample16khzTo48khz.
  apply wp_bind. wp_call (by apply (up_short_int_stage inm ip 160); [..|lia]).
  intros [t1 s1] [W1 N1]. pose proof (wrote_length _ _ _ _ _ W1).
  apply wp_bind. apply (history_in t1 _ 8 320 (u16_up q2 x));
    [done|apply (wrote_holds _ _ _ _ _ W1)|lia|].
  intros t2 Hl2 H2.
  apply wp_bind. eapply (history_out t2 _ 8 320); [done|done|]. cbv beta.
  apply wp_bind. wp_call (apply (three_quarters_stage t2 8 0 80 (with_history (S_32_24 state)
    (u16_up q2 x))); [intros i Hi; apply H2; lia|lia]).
  intros t3 W3. pose proof (wrote_length _ _ _ _ _ W3).
  apply wp_bind. wp_call (by apply (up_int_short_stage t3 0 240);
    [|apply (wrote_holds _ _ _ _ _ W3)|lia]).
  intros [o s4] (W4 & N4). apply wp_ret. split_and!; [done| |lia].
  by split_and!.
Qed.

Section chain8to48.
Context (q2 p2 r2 : quad * quad) (h : list Z) (x : nat → Z).
Definition u8_up : nat → Z := interp (λ y, y >>i 15) q2 (λ i, to_q15 (x i)).
Definition u8_frac : nat → Z := three_quarters (with_history h u8_up).
Definition u8_up2 : nat → Z := interp (λ y, y) p2 u8_frac.
Definition u8_out : nat → Z := interp (λ y, sat16 (y >>i 15)) r2 u8_up2.

Definition u8_next (state' : WebRtcSpl_State8khzTo48khz) : Prop :=
  mem2 (S_8_16 state') (interp_mem q2 (λ i, to_q15 (x i)) 80) ∧
  S_16_12 state' = map (λ i, u8_up (152 + i)%nat) (seq 0 8) ∧
  mem2 (S_12_24 state') (interp_mem p2 u8_frac 120) ∧
  mem2 (S8_24_48 state') (interp_mem r2 u8_up2 240).
End chain8to48.

Lemma Resample8khzTo48khz_chain inm ip outm op state tmpmem q2 p2 r2 x :
  holds inm ip 80 x → (op + 480 ≤ length outm)%nat → (424 ≤ length tmpmem)%nat →
  mem2 (S_8_16 state) q2 → length (S_16_12 state) = 8%nat →
  mem2 (S_12_24 state) p2 → mem2 (S8_24_48 state) r2 →
  wp (WebRtcSpl_Resample8khzTo48khz inm ip outm op state tmpmem) (λ '(out, state', tmpmem'),
    wrote outm op 480 (u8_out q2 p2 r2 (S_16_12 state) x) out ∧
    u8_next q2 p2 r2 (S_16_12 state) x state' ∧ length tmpmem' = length tmpmem).
Proof.
  intros Hx Ho Ht M2 Hh P2 R2. unfold WebRtcSpl_Resample8khzTo48khz.
  apply wp_bind. wp_call (by apply (up_short_int_stage inm ip 80); [..|lia]).
  intros [t1 s1] [W1 N1]. pose proof (wrote_length _ _ _ _ _ W1).
  apply wp_bind. apply (history_in t1 _ 256 160 (u8_up q2 x));
    [done|apply (wrote_holds _ _ _ _ _ W1)|lia|].
  intros t2 Hl2 H2.
  apply wp_bind. eapply (history_out t2 _ 256 160); [done|done|]. cbv beta.
  apply wp_bind. wp_call (apply (three_quarters_stage t2 256 240 40 (with_history (S_16_12 state)
    (u8_up q2 x))); [intros i Hi; apply H2; lia|lia]).
  intros t3 W3. pose proof (wrote_length _ _ _ _ _ W3).
  apply wp_bind. wp_call (by apply (up_int_int_stage t3 240 120 0);
    [|apply (wrote_holds _ _ _ _ _ W3)|lia|lia]).
  intros [t4 s4] (W4 & N4). pose proof (wrote_length _ _ _ _ _ W4).
  apply wp_bind. wp_call (by apply (up_int_short_stage t4 0 240);
    [|apply (wrote_holds _ _ _ _ _ W4)|lia]).
  intros [o s5] (W5 & N5). apply wp_ret. split_and!; [done| |lia].
  by split_and!.
Qed.

(** ** Streams

    What code that converts block by block relies on: a converter turns a block
    of [cv_in] samples into [cv_out] samples, and running it on the blocks of a
    signal one after the other is one filter on the whole signal. *)
Class Converter (St : Type) := {
  cv_in : nat;
  cv_out : nat;
  cv_tmp : nat;
  cv_run : list Z → nat → list Z → nat → St → list Z → option (list Z * St * list Z);
  cv_mem : Type;
  cv_rep : St → cv_mem → Prop;
  cv_sig : cv_mem → (nat → Z) → nat → Z;
  cv_next : cv_mem → (nat → Z) → cv_mem;
  cv_spec inm ip outm op state tmpmem μ x :
    cv_rep state μ → holds inm ip cv_in x → (op + cv_out ≤ length outm)%nat →
    (cv_tmp ≤ length tmpmem)%nat →
    wp (cv_run inm ip outm op state tmpmem) (λ '(out, state', tmpmem'),
      wrote outm op cv_out (cv_sig μ x) out ∧ cv_rep state' (cv_next μ x) ∧
      length tmpmem' = length tmpmem);
  cv_shift μ x i : cv_sig (cv_next μ x) (λ j, x (cv_in + j)%nat) i = cv_sig μ x (cv_out + i)%nat;
  cv_proper :: Proper (eq ==> pointwise_relation nat eq ==> eq ==> eq) cv_sig;
}.

Section stream.
Context {St : Type} `{!Converter St}.

(** [for (b = 0; b < n; b++) convert(in + cv_in * b, out + cv_out * b, state, tmpmem);] *)
Definition convert_blocks (n : nat) (inm : list Z) (ip : nat) (outm : list Z) (op : nat)
    (state : St) (tmpmem : list Z) : option (list Z * St * list Z) :=
  for_loop n 0 (λ b '(outm, state, tmpmem),
    cv_run inm (ip + cv_in * b) outm (op + cv_out * b) state tmpmem) (outm, state, tmpmem).

(** The signal from sample [k] on. *)
Definition from (x : nat → Z) (k i : nat) : Z := x (k + i)%nat.

(** Memory after [b] blocks of the signal. *)
Fixpoint mem_after (μ : cv_mem) (x : nat → Z) (b : nat) : cv_mem :=
  match b with
  | O => μ
  | S b => cv_next (mem_after μ x b) (from x (cv_in * b))
  end.

Lemma sig_after μ x b i :
  cv_sig (mem_after μ x b) (from x (cv_in * b)) i = cv_sig μ x (cv_out * b + i)%nat.
Proof.
  revert i. induction b as [|b IH]; intros i; cbn [mem_after].
  { rewrite !Nat.mul_0_r. apply cv_proper; [done| |done]. intros j. unfold from. done. }
  replace (cv_out * S b + i)%nat with (cv_out * b + (cv_out + i))%nat by lia.
  rewrite <- IH, <- cv_shift. apply cv_proper; [done| |done].
  intros j. unfold from. f_equal. lia.
Qed.

Lemma wrote_block m o n k f g m' m'' :
  wrote m o n f m' → wrote m' (o + n) k g m'' → (∀ i, (i < k)%nat → g i = f (n + i)%nat) →
  wrote m o (n + k) f m''.
Proof.
  intros (Hl & Hw & Hu) (Hl' & Hw' & Hu') E. split_and!; [congruence| |].
  - intros i Hi. destruct (decide (i < n)%nat).
    + rewrite Hu' by lia. by apply Hw.
    + replace (o + i)%nat with (o + n + (i - n))%nat by lia.
      rewrite Hw', E by lia. do 2 f_equal. lia.
  - intros p Hp. rewrite Hu' by lia. apply Hu. lia.
Qed.

Lemma convert_blocks_spec n inm ip outm op state tmpmem μ x :
  cv_rep state μ → holds inm ip (cv_in * n) x → (op + cv_out * n ≤ length outm)%nat →
  (cv_tmp ≤ length tmpmem)%nat →
  wp (convert_blocks n inm ip outm op state tmpmem) (λ '(out, state', tmpmem'),
    wrote outm op (cv_out * n) (cv_sig μ x) out ∧ cv_rep state' (mem_after μ x n) ∧
    length tmpmem' = length tmpmem).
Proof.
  intros Hr Hx Ho Ht. unfold convert_blocks.
  apply (wp_for (λ b '(out, st, t), wrote outm op (cv_out * b) (cv_sig μ x) out ∧
    cv_rep st (mem_after μ x b) ∧ length t = length tmpmem)).
  - rewrite Nat.mul_0_r. split_and!; [apply wrote_nil|done|done].
  - intros b [[out st] t] Hb (Hw & Hrb & Hlt). pose proof (wrote_length _ _ _ _ _ Hw).
    wp_call (apply (cv_spec _ _ _ _ _ _ (mem_after μ x b) (from x (cv_in * b)));
             [done| |nia|lia]).
    { intros i Hi. rewrite <- Nat.add_assoc. apply Hx. nia. }
    intros [[out' st'] t'] (Hw' & Hr' & Hlt'). split_and!; [|done|lia].
    rewrite Nat.mul_succ_r. eapply wrote_block; [done..|]. intros i Hi. apply sig_after.
  - by intros [[out st] t].
Qed.
End stream.

(** *** The stage filters over consecutive blocks *)

Lemma ap_state_shift k q x n i :
  ap_state k (ap_state k q x n) (from x n) i = ap_state k q x (n + i).
Proof.
  induction i as [|i IH]; simpl; [by rewrite Nat.add_0_r|].
  rewrite Nat.add_succ_r. simpl. by rewrite IH.
Qed.

Lemma ap_out_shift k q x n i : ap_out k (ap_state k q x n) (from x n) i = ap_out k q x (n + i).
Proof. unfold ap_out. by rewrite ap_state_shift, Nat.add_succ_r. Qed.

#[export] Instance ap_out_proper k q :
  Proper (pointwise_relation nat eq ==> eq ==> eq) (ap_out k q).
Proof. intros x x' E i _ <-. by apply ap_out_ext. Qed.
#[export] Instance evens_proper :
  Proper (pointwise_relation nat eq ==> pointwise_relation nat eq) evens.
Proof. intros x x' E i. apply E. Qed.
#[export] Instance odds_proper :
  Proper (pointwise_relation nat eq ==> pointwise_relation nat eq) odds.
Proof. intros x x' E i. apply E. Qed.
#[export] Instance delayed_proper :
  Proper (pointwise_relation nat eq ==> eq ==> pointwise_relation nat eq) delayed.
Proof. intros x x' E q _ <- [|i]; [done|]. apply E. Qed.
#[export] Instance interleave_proper :
  Proper (pointwise_relation nat eq ==> pointwise_relation nat eq ==>
          pointwise_relation nat eq) interleave.
Proof. intros a a' Ea b b' Eb i. unfold interleave. by rewrite (Ea _), (Eb _). Qed.
#[export] Instance fir_proper coef :
  Proper (pointwise_relation nat eq ==> eq ==> eq ==> eq) (fir coef).
Proof. intros x x' E p _ <- a _ <-. apply fir_ext. intros. apply E. Qed.

#[export] Instance decim_proper q :
  Proper (pointwise_relation nat eq ==> pointwise_relation nat eq) (decim q).
Proof. intros x x' E i. unfold decim. by setoid_rewrite E. Qed.
#[export] Instance interp_proper post q :
  Proper (pointwise_relation nat eq ==> pointwise_relation nat eq) (interp post q).
Proof.
  intros x x' E. unfold interp, up_out.
  apply interleave_proper; intros i; by setoid_rewrite E.
Qed.
#[export] Instance lowpass_proper q :
  Proper (pointwise_relation nat eq ==> pointwise_relation nat eq) (lowpass q).
Proof.
  destruct q as [[[q0 q4] q8] q12]. intros x x' E. unfold lowpass, lp_out.
  apply interleave_proper; intros i; by setoid_rewrite E.
Qed.
#[export] Instance with_history_proper h :
  Proper (pointwise_relation nat eq ==> pointwise_relation nat eq) (with_history h).
Proof. intros x x' E i. unfold with_history. by rewrite (E _). Qed.
#[export] Instance two_thirds_proper :
  Proper (pointwise_relation nat eq ==> pointwise_relation nat eq) two_thirds.
Proof.
  intros x x' E i. apply (phase_ext _ _ 2); [done|].
  repeat first [apply Forall2_nil_2 | apply Forall2_cons_2]; by setoid_rewrite E.
Qed.
#[export] Instance three_quarters_proper :
  Proper (pointwise_relation nat eq ==> pointwise_relation nat eq) three_quarters.
Proof.
  intros x x' E i. apply (phase_ext _ _ 3); [done|].
  repeat first [apply Forall2_nil_2 | apply Forall2_cons_2]; by setoid_rewrite E.
Qed.

Lemma evens_from x n i : evens (from x (2 * n)) i = from (evens x) n i.
Proof. unfold evens, from. f_equal. lia. Qed.
Lemma odds_from x n i : odds (from x (2 * n)) i = from (odds x) n i.
Proof. unfold odds, from. f_equal. lia. Qed.

Lemma decim_shift q x n i :
  decim (decim_mem q x n) (from x (2 * n)) i = decim q x (n + i).
Proof.
  unfold decim, decim_mem. simpl fst. simpl snd.
  rewrite (ap_out_proper _ _ _ _ (evens_from x n) _ _ eq_refl).
  rewrite (ap_out_proper _ _ _ _ (odds_from x n) _ _ eq_refl). by rewrite !ap_out_shift.
Qed.

Lemma interleave_from a b a' b' n i :
  (∀ i, a' i = a (n + i)%nat) → (∀ i, b' i = b (n + i)%nat) →
  interleave a' b' i = interleave a b (2 * n + i)%nat.
Proof.
  intros Ha Hb. destruct (Nat.Even_or_Odd i) as [[h ->]|[h ->]].
  - rewrite <- Nat.mul_add_distr_l, !interleave_even. apply Ha.
  - rewrite Nat.add_assoc, <- Nat.mul_add_distr_l, !interleave_odd. apply Hb.
Qed.

Lemma interp_shift post q x n i :
  interp post (interp_mem q x n) (from x n) i = interp post q x (2 * n + i).
Proof.
  apply interleave_from; intros j; cbn [interp_mem fst snd]; by rewrite ap_out_shift.
Qed.

(** The delay element holds the last odd sample of the block before. *)
Lemma delayed_from q x n i : (0 < n)%nat →
  delayed (from x n) (ap_state kResampleAllpass0 q x n) i = from (delayed x q) n i.
Proof.
  intros Hn. destruct n as [|n]; [lia|]. destruct i as [|i]; unfold from; simpl.
  - rewrite Nat.add_0_r. by destruct (ap_state kResampleAllpass0 q x n) as [[[??]?]?].
  - by rewrite Nat.add_succ_r.
Qed.

Lemma lowpass_shift q x n i : (0 < n)%nat →
  lowpass (lowpass_mem q x n) (from x (2 * n)) i = lowpass q x (2 * n + i).
Proof.
  intros Hn. destruct q as [[[q0 q4] q8] q12]. unfold lowpass, lowpass_mem, lp_out.
  apply interleave_from; intros j.
  - rewrite (ap_out_proper _ _ _ _ (delayed_proper _ _ (odds_from x n) _ _ eq_refl) _ _ eq_refl).
    rewrite (ap_out_proper _ _ _ _ (evens_from x n) _ _ eq_refl), ap_out_shift.
    rewrite (ap_out_proper _ _ _ _ (λ i, delayed_from q12 (odds x) n i Hn) _ _ eq_refl).
    by rewrite ap_out_shift.
  - rewrite (ap_out_proper _ _ _ _ (evens_from x n) _ _ eq_refl), ap_out_shift.
    rewrite (ap_out_proper _ _ _ _ (odds_from x n) _ _ eq_refl), ap_out_shift. done.
Qed.

(** The history of the next block: the last eight words of this one. *)
Definition last8 (x : nat → Z) (n : nat) : list Z := map (λ i, x (n + i)%nat) (seq 0 8).

Lemma last8_lookup x n i : (i < 8)%nat → last8 x n !!! i = x (n + i)%nat.
Proof.
  intros Hi. apply list_lookup_total_correct. unfold last8.
  rewrite list_lookup_fmap, lookup_seq_lt by done. done.
Qed.

Lemma history_shift h x n i : (8 ≤ n)%nat →
  with_history (last8 x (n - 8)) (from x n) i = with_history h x (n + i).
Proof.
  intros Hn. unfold with_history, from. rewrite (proj2 (Nat.ltb_ge (n + i) 8)) by lia.
  destruct (Nat.ltb_spec i 8) as [Hi|Hi]; [rewrite last8_lookup by done|]; f_equal; lia.
Qed.

Lemma phase_from fs gs n k i :
  length fs = n → Forall2 (λ f g, g (i / n)%nat = f (k + i / n)%nat) fs gs →
  phase gs i = phase fs (n * k + i).
Proof.
  intros Hn H. unfold phase. rewrite <- (Forall2_length H), Hn.
  destruct (decide (n = 0)%nat) as [->|].
  { destruct fs; [|done]. by inversion H. }
  rewrite (Nat.mul_comm n k), (Nat.add_comm (k * n)), Nat.Div0.mod_add, Nat.div_add by done.
  pose proof (proj1 (Forall2_lookup _ _ _) H (i mod n)%nat) as Hi.
  destruct Hi as [f g E|]; [|done]. rewrite E. f_equal. lia.
Qed.

Lemma two_thirds_shift x y k i :
  (∀ i, y i = x (3 * k + i)%nat) → two_thirds y i = two_thirds x (2 * k + i).
Proof.
  intros E. apply phase_from; [done|].
  repeat first [apply Forall2_nil_2 | apply Forall2_cons_2];
    apply fir_ext; intros j _; rewrite E; f_equal; lia.
Qed.

Lemma three_quarters_shift x y k i :
  (∀ i, y i = x (4 * k + i)%nat) → three_quarters y i = three_quarters x (3 * k + i).
Proof.
  intros E. apply phase_from; [done|].
  repeat first [apply Forall2_nil_2 | apply Forall2_cons_2];
    apply fir_ext; intros j _; rewrite E; f_equal; lia.
Qed.

(** *** The four converters implement the interface *)

Definition c8_mem : Type := (quad * quad) * (quad * quad) * (quad * quad * quad * quad) * list Z.
Definition c8_rep (st : WebRtcSpl_State48khzTo8khz) (μ : c8_mem) : Prop :=
  let '(q2, r2, q4, h) := μ in
  mem2 (S_48_24 st) q2 ∧ mem4 (S_24_24 st) q4 ∧ S_24_16 st = h ∧ length h = 8%nat ∧
  mem2 (S_16_8 st) r2.
Definition c8_sig (μ : c8_mem) (x : nat → Z) : nat → Z :=
  let '(q2, r2, q4, h) := μ in c8_out q2 r2 q4 h x.
Definition c8_nextmem (μ : c8_mem) (x : nat → Z) : c8_mem :=
  let '(q2, r2, q4, h) := μ in
    (decim_mem q2 (λ i, to_q15 (x i)) 240, decim_mem r2 (c8_frac q2 q4 h x) 80,
     lowpass_mem q4 (c8_half q2 x) 120, last8 (c8_lp q2 q4 x) 232).

#[export] Program Instance conv48to8 : Converter WebRtcSpl_State48khzTo8khz := {|
  cv_in := 480; cv_out := 80; cv_tmp := 496;
  cv_run := WebRtcSpl_Resample48khzTo8khz;
  cv_mem := c8_mem; cv_rep := c8_rep; cv_sig := c8_sig; cv_next := c8_nextmem;
|}.
Next Obligation.
  intros inm ip outm op state tmpmem [[[q2 r2] q4] h] x (M2 & M4 & <- & Hh & R2) Hx Ho Ht.
  wp_call (by eapply Resample48khzTo8khz_chain).
  intros [[out st'] t'] (Hw & (N2 & N4 & Nh & NR) & Hl). by split_and!.
Qed.
Next Obligation.
  intros [[[q2 r2] q4] h] x i. apply (f_equal (λ z, sat16 (z >>i 15))).
  assert (∀ i, c8_half (decim_mem q2 (λ i, to_q15 (x i)) 240) (λ j, x (480 + j)%nat) i =
               from (c8_half q2 x) 240 i) as E1.
  { intros j. exact (decim_shift q2 (λ i, to_q15 (x i)) 240 j). }
  assert (∀ i, c8_lp (decim_mem q2 (λ i, to_q15 (x i)) 240) (lowpass_mem q4 (c8_half q2 x) 120)
                 (λ j, x (480 + j)%nat) i = from (c8_lp q2 q4 x) 240 i) as E2.
  { intros j. unfold c8_lp at 1. etrans; [exact (lowpass_proper _ _ _ E1 j)|].
    exact (lowpass_shift q4 (c8_half q2 x) 120 j ltac:(lia)). }
  etrans; [|exact (decim_shift r2 (c8_frac q2 q4 h x) 80 i)].
  apply decim_proper. intros j. unfold c8_frac at 1.
  apply (two_thirds_shift (with_history h (c8_lp q2 q4 x)) _ 80). intros l.
  etrans; [exact (with_history_proper _ _ _ E2 l)|].
  exact (history_shift h (c8_lp q2 q4 x) 240 l ltac:(lia)).
Qed.
Next Obligation.
  intros [[[q2 r2] q4] h] _ <- x x' E i _ <-. apply (f_equal (λ z, sat16 (z >>i 15))).
  apply decim_proper, two_thirds_proper, with_history_proper, lowpass_proper, decim_proper.
  intros j. by rewrite (E j).
Qed.

Definition c16_mem : Type := (quad * quad) * (quad * quad * quad * quad) * list Z.
Definition c16_rep (st : WebRtcSpl_State48khzTo16khz) (μ : c16_mem) : Prop :=
  let '(r2, q4, h) := μ in
  mem4 (S_48_48 st) q4 ∧ S_48_32 st = h ∧ length h = 8%nat ∧ mem2 (S_32_16 st) r2.
Definition c16_sig (μ : c16_mem) (x : nat → Z) : nat → Z :=
  let '(r2, q4, h) := μ in c16_out r2 q4 h x.
Definition c16_nextmem (μ : c16_mem) (x : nat → Z) : c16_mem :=
  let '(r2, q4, h) := μ in
    (decim_mem r2 (c16_frac q4 h x) 160, lowpass_mem q4 (λ i, to_q15 (x i)) 240,
     last8 (c16_lp q4 x) 472).

#[export] Program Instance conv48to16 : Converter WebRtcSpl_State48khzTo16khz := {|
  cv_in := 480; cv_out := 160; cv_tmp := 496;
  cv_run := WebRtcSpl_Resample48khzTo16khz;
  cv_mem := c16_mem; cv_rep := c16_rep; cv_sig := c16_sig; cv_next := c16_nextmem;
|}.
Next Obligation.
  intros inm ip outm op state tmpmem [[r2 q4] h] x (M4 & <- & Hh & R2) Hx Ho Ht.
  wp_call (by eapply Resample48khzTo16khz_chain).
  intros [[out st'] t'] (Hw & (N4 & Nh & NR) & Hl). by split_and!.
Qed.
Next Obligation.
  intros [[r2 q4] h] x i. apply (f_equal (λ z, sat16 (z >>i 15))).
  etrans; [|exact (decim_shift r2 (c16_frac q4 h x) 160 i)].
  apply decim_proper. intros j. unfold c16_frac at 1.
  apply (two_thirds_shift (with_history h (c16_lp q4 x)) _ 160). intros l.
  etrans; [|exact (history_shift h (c16_lp q4 x) 480 l ltac:(lia))].
  apply with_history_proper. intros m. exact (lowpass_shift q4 (λ i, to_q15 (x i)) 240 m ltac:(lia)).
Qed.
Next Obligation.
  intros [[r2 q4] h] _ <- x x' E i _ <-. apply (f_equal (λ z, sat16 (z >>i 15))).
  apply decim_proper, two_thirds_proper, with_history_proper, lowpass_proper.
  intros j. by rewrite (E j).
Qed.

Definition u16_mem : Type := (quad * quad) * (quad * quad) * list Z.
Definition u16_rep (st : WebRtcSpl_State16khzTo48khz) (μ : u16_mem) : Prop :=
  let '(q2, r2, h) := μ in
  mem2 (S_16_32 st) q2 ∧ S_32_24 st = h ∧ length h = 8%nat ∧ mem2 (S_24_48 st) r2.
Definition u16_sig (μ : u16_mem) (x : nat → Z) : nat → Z :=
  let '(q2, r2, h) := μ in u16_out q2 r2 h x.
Definition u16_nextmem (μ : u16_mem) (x : nat → Z) : u16_mem :=
  let '(q2, r2, h) := μ in
    (interp_mem q2 (λ i, to_q15 (x i)) 160, interp_mem r2 (u16_frac q2 h x) 240,
     last8 (u16_up q2 x) 312).

#[export] Program Instance conv16to48 : Converter WebRtcSpl_State16khzTo48khz := {|
  cv_in := 160; cv_out := 480; cv_tmp := 336;
  cv_run := WebRtcSpl_Resample16khzTo48khz;
  cv_mem := u16_mem; cv_rep := u16_rep; cv_sig := u16_sig; cv_next := u16_nextmem;
|}.
Next Obligation.
  intros inm ip outm op state tmpmem [[q2 r2] h] x (M2 & <- & Hh & R2) Hx Ho Ht.
  wp_call (by eapply Resample16khzTo48khz_chain).
  intros [[out st'] t'] (Hw & (N2 & Nh & NR) & Hl). by split_and!.
Qed.
Next Obligation.
  intros [[q2 r2] h] x i. unfold u16_out.
  etrans; [|exact (interp_shift _ r2 (u16_frac q2 h x) 240 i)].
  apply interp_proper. intros j. unfold u16_frac at 1.
  apply (three_quarters_shift (with_history h (u16_up q2 x)) _ 80). intros l.
  etrans; [|exact (history_shift h (u16_up q2 x) 320 l ltac:(lia))].
  apply with_history_proper. intros m. exact (interp_shift _ q2 (λ i, to_q15 (x i)) 160 m).
Qed.
Next Obligation.
  intros [[q2 r2] h] _ <- x x' E i _ <-.
  apply interp_proper, three_quarters_proper, with_history_proper, interp_proper.
  intros j. by rewrite (E j).
Qed.

Definition u8_mem : Type := (quad * quad) * (quad * quad) * (quad * quad) * list Z.
Definition u8_rep (st : WebRtcSpl_State8khzTo48khz) (μ : u8_mem) : Prop :=
  let '(q2, p2, r2, h) := μ in
  mem2 (S_8_16 st) q2 ∧ S_16_12 st = h ∧ length h = 8%nat ∧
  mem2 (S_12_24 st) p2 ∧ mem2 (S8_24_48 st) r2.
Definition u8_sig (μ : u8_mem) (x : nat → Z) : nat → Z :=
  let '(q2, p2, r2, h) := μ in u8_out q2 p2 r2 h x.
Definition u8_nextmem (μ : u8_mem) (x : nat → Z) : u8_mem :=
  let '(q2, p2, r2, h) := μ in
    (interp_mem q2 (λ i, to_q15 (x i)) 80, interp_mem p2 (u8_frac q2 h x) 120,
     interp_mem r2 (u8_up2 q2 p2 h x) 240, last8 (u8_up q2 x) 152).

#[export] Program Instance conv8to48 : Converter WebRtcSpl_State8khzTo48khz := {|
  cv_in := 80; cv_out := 480; cv_tmp := 424;
  cv_run := WebRtcSpl_Resample8khzTo48khz;
  cv_mem := u8_mem; cv_rep := u8_rep; cv_sig := u8_sig; cv_next := u8_nextmem;
|}.
Next Obligation.
  intros inm ip outm op state tmpmem [[[q2 p2] r2] h] x (M2 & <- & Hh & P2 & R2) Hx Ho Ht.
  wp_call (by eapply Resample8khzTo48khz_chain).
  intros [[out st'] t'] (Hw & (N2 & Nh & NP & NR) & Hl). by split_and!.
Qed.
Next Obligation.
  intros [[[q2 p2] r2] h] x i. unfold u8_out.
  etrans; [|exact (interp_shift _ r2 (u8_up2 q2 p2 h x) 240 i)].
  apply interp_proper. intros j. unfold u8_up2 at 1.
  etrans; [|exact (interp_shift _ p2 (u8_frac q2 h x) 120 j)].
  apply interp_proper. intros k. unfold u8_frac at 1.
  apply (three_quarters_shift (with_history h (u8_up q2 x)) _ 40). intros l.
  etrans; [|exact (history_shift h (u8_up q2 x) 160 l ltac:(lia))].
  apply with_history_proper. intros m. exact (interp_shift _ q2 (λ i, to_q15 (x i)) 80 m).
Qed.
Next Obligation.
  intros [[[q2 p2] r2] h] _ <- x x' E i _ <-.
  apply interp_proper, interp_proper, three_quarters_proper, with_history_proper, interp_proper.
  intros j. by rewrite (E j).
Qed.

(** A state with arrays of the declared sizes has a memory. *)
Lemma mem2_exists st : length st = 8%nat → ∃ q, mem2 st q.
Proof.
  intros Hl. destruct (get4_Some st 0) as [q0 H0]; [lia|].
  destruct (get4_Some st 4) as [q4 H4]; [lia|]. by exists (q0, q4).
Qed.

Lemma mem4_exists st : length st = 16%nat → ∃ q, mem4 st q.
Proof.
  intros Hl. destruct (get4_Some st 0) as [q0 H0]; [lia|].
  destruct (get4_Some st 4) as [q4 H4]; [lia|]. destruct (get4_Some st 8) as [q8 H8]; [lia|].
  destruct (get4_Some st 12) as [q12 H12]; [lia|]. by exists (q0, q4, q8, q12).
Qed.

Definition sized48to8 (st : WebRtcSpl_State48khzTo8khz) : Prop :=
  length (S_48_24 st) = 8%nat ∧ length (S_24_24 st) = 16%nat ∧
  length (S_24_16 st) = 8%nat ∧ length (S_16_8 st) = 8%nat.
Definition sized48to16 (st : WebRtcSpl_State48khzTo16khz) : Prop :=
  length (S_48_48 st) = 16%nat ∧ length (S_48_32 st) = 8%nat ∧ length (S_32_16 st) = 8%nat.
Definition sized16to48 (st : WebRtcSpl_State16khzTo48khz) : Prop :=
  length (S_16_32 st) = 8%nat ∧ length (S_32_24 st) = 8%nat ∧ length (S_24_48 st) = 8%nat.
Definition sized8to48 (st : WebRtcSpl_State8khzTo48khz) : Prop :=
  length (S_8_16 st) = 8%nat ∧ length (S_16_12 st) = 8%nat ∧
  length (S_12_24 st) = 8%nat ∧ length (S8_24_48 st) = 8%nat.

Lemma sized48to8_rep st : sized48to8 st ↔ ∃ μ, cv_rep st μ.
Proof.
  split.
  - intros (H1 & H2 & H3 & H4). destruct (mem2_exists _ H1) as [q2 ?].
    destruct (mem4_exists _ H2) as [q4 ?]. destruct (mem2_exists _ H4) as [r2 ?].
    by exists (q2, r2, q4, S_24_16 st).
  - intros [[[[q2 r2] [[[q0 q4] q8] q12]] h] ([] & [] & <- & ? & [])]. by split_and!.
Qed.

(** What a client that only needs safety may use. *)
Lemma Resample48khzTo8khz_safe inm ip outm op state tmpmem :
  sized48to8 state → (ip + 480 ≤ length inm)%nat → (op + 80 ≤ length outm)%nat →
  (496 ≤ length tmpmem)%nat →
  wp (WebRtcSpl_Resample48khzTo8khz inm ip outm op state tmpmem) (λ '(out, state', tmpmem'),
    (∃ f, (∀ i, int16 (f i)) ∧ wrote outm op 80 f out) ∧ sized48to8 state' ∧
    length tmpmem' = length tmpmem).
Proof.
  intros [μ Hr]%sized48to8_rep Hi Ho Ht.
  wp_call (apply (cv_spec (Converter:=conv48to8) inm ip outm op state tmpmem μ
                    (λ i, inm !!! (ip + i)%nat)); [done| |done..]).
  { intros i ?. apply lookup_total_Some. simpl in *. lia. }
  intros [[out st'] t'] (Hw & Hr' & Hl). split_and!; [|apply sized48to8_rep; by eexists|done].
  exists (cv_sig μ (λ i, inm !!! (ip + i)%nat)). split; [|exact Hw].
  intros i. destruct μ as [[[q2 r2] q4] h]. apply s16_range.
Qed.

(** *** Resetting *)

Lemma memset_all (l : list Z) n (Q : list Z → Prop) :
  length l = n → Q (replicate n 0) → wp (memset l 0 0 n) Q.
Proof.
  intros Hl HQ. apply wp_memset; [lia|]. simpl. rewrite drop_ge by lia.
  by rewrite app_nil_r.
Qed.

Definition zero2 : quad * quad := ((0, 0, 0, 0), (0, 0, 0, 0)).
Definition zero4 : quad * quad * quad * quad := (zero2, (0, 0, 0, 0), (0, 0, 0, 0)).
Definition zeros8 : list Z := replicate 8 0.

#[local] Ltac reset_tac :=
  repeat (apply wp_bind, memset_all; [assumption|]); apply wp_ret; by split_and!.

Lemma Reset48khzTo8khz_spec st : sized48to8 st →
  wp (WebRtcSpl_ResetResample48khzTo8khz st) (λ st', cv_rep st' (zero2, zero2, zero4, zeros8)).
Proof. intros (? & ? & ? & ?). reset_tac. Qed.
Lemma Reset48khzTo16khz_spec st : sized48to16 st →
  wp (WebRtcSpl_ResetResample48khzTo16khz st) (λ st', cv_rep st' (zero2, zero4, zeros8)).
Proof. intros (? & ? & ?). reset_tac. Qed.
Lemma Reset16khzTo48khz_spec st : sized16to48 st →
  wp (WebRtcSpl_ResetResample16khzTo48khz st) (λ st', cv_rep st' (zero2, zero2, zeros8)).
Proof. intros (? & ? & ?). reset_tac. Qed.
Lemma Reset8khzTo48khz_spec st : sized8to48 st →
  wp (WebRtcSpl_ResetResample8khzTo48khz st) (λ st', cv_rep st' (zero2, zero2, zero2, zeros8)).
Proof. intros (? & ? & ? & ?). reset_tac. Qed.

(** ** Claims *)

(** 48 to 8 kHz. After a reset, converting the [n] blocks of 480 samples of
    a signal one after the other, with a scratch array of 496 words, runs without
    leaving any buffer and writes exactly 80 samples per block: the decimation,
    low-pass, 2/3 and decimation filters of the whole signal, started at zero,
    as if it had been one block. All other cells of the output are unchanged. *)
Theorem Resample48khzTo8khz_stream (n : nat) (inm : list Z) (ip : nat) (outm : list Z) (op : nat)
    (state : WebRtcSpl_State48khzTo8khz) (tmpmem : list Z) (x : nat → Z) :
  sized48to8 state → holds inm ip (480 * n) x → (op + 80 * n ≤ length outm)%nat →
  (496 ≤ length tmpmem)%nat →
  wp (state ← WebRtcSpl_ResetResample48khzTo8khz state;
      convert_blocks n inm ip outm op state tmpmem)
     (λ '(out, state', tmpmem'),
       wrote outm op (80 * n) (c8_out zero2 zero2 zero4 zeros8 x) out ∧ sized48to8 state').
Proof.
  intros Hs Hx Ho Ht. apply wp_bind. wp_call (by apply Reset48khzTo8khz_spec). intros st0 H0.
  wp_call (by apply (convert_blocks_spec n inm ip outm op st0 tmpmem _ x H0)).
  intros [[out st'] t'] (Hw & Hr & _). split; [exact Hw|]. apply sized48to8_rep. by eexists.
Qed.

Lemma Resample48khzTo8khz_stream_witness :
  let inm := map (λ i, 7 * Z.of_nat i mod 1000) (seq 0 960) in
  let st := {| S_48_24 := replicate 8 1; S_24_24 := replicate 16 2; S_24_16 := replicate 8 3;
               S_16_8 := replicate 8 4 |} in
  wp (state ← WebRtcSpl_ResetResample48khzTo8khz st;
      convert_blocks 2 inm 0 (replicate 160 0) 0 state (replicate 496 0))
     (λ '(out, state', tmpmem'),
       wrote (replicate 160 0) 0 (80 * 2)
         (c8_out zero2 zero2 zero4 zeros8 (λ i, inm !!! i)) out ∧ sized48to8 state').
Proof.
  intros inm st. apply (Resample48khzTo8khz_stream 2 inm 0); [done| |by vm_compute; lia..].
  intros i Hi. apply lookup_total_Some. unfold inm. rewrite length_map, length_seq. lia.
Defined.

(** 48 to 16 kHz, in the same sense: 160 samples per block of 480, low-pass,
    2/3 and decimation. *)
Theorem Resample48khzTo16khz_stream (n : nat) (inm : list Z) (ip : nat) (outm : list Z) (op : nat)
    (state : WebRtcSpl_State48khzTo16khz) (tmpmem : list Z) (x : nat → Z) :
  sized48to16 state → holds inm ip (480 * n) x → (op + 160 * n ≤ length outm)%nat →
  (496 ≤ length tmpmem)%nat →
  wp (state ← WebRtcSpl_ResetResample48khzTo16khz state;
      convert_blocks n inm ip outm op state tmpmem)
     (λ '(out, state', tmpmem'),
       wrote outm op (160 * n) (c16_out zero2 zero4 zeros8 x) out).
Proof.
  intros Hs Hx Ho Ht. apply wp_bind. wp_call (by apply Reset48khzTo16khz_spec). intros st0 H0.
  wp_call (by apply (convert_blocks_spec n inm ip outm op st0 tmpmem _ x H0)).
  intros [[out st'] t'] (Hw & _). exact Hw.
Qed.

Lemma Resample48khzTo16khz_stream_witness :
  let inm := map (λ i, 7 * Z.of_nat i mod 1000) (seq 0 960) in
  let st := {| S_48_48 := replicate 16 1; S_48_32 := replicate 8 2; S_32_16 := replicate 8 3 |} in
  wp (state ← WebRtcSpl_ResetResample48khzTo16khz st;
      convert_blocks 2 inm 0 (replicate 320 0) 0 state (replicate 496 0))
     (λ '(out, state', tmpmem'),
       wrote (replicate 320 0) 0 (160 * 2) (c16_out zero2 zero4 zeros8 (λ i, inm !!! i)) out).
Proof.
  intros inm st. apply (Resample48khzTo16khz_stream 2 inm 0); [done| |by vm_compute; lia..].
  intros i Hi. apply lookup_total_Some. unfold inm. rewrite length_map, length_seq. lia.
Defined.

(** 16 to 48 kHz: 480 samples per block of 160, interpolation by two, 3/4 and
    interpolation by two, with a scratch array of 336 words. *)
Theorem Resample16khzTo48khz_stream (n : nat) (inm : list Z) (ip : nat) (outm : list Z) (op : nat)
    (state : WebRtcSpl_State16khzTo48khz) (tmpmem : list Z) (x : nat → Z) :
  sized16to48 state → holds inm ip (160 * n) x → (op + 480 * n ≤ length outm)%nat →
  (336 ≤ length tmpmem)%nat →
  wp (state ← WebRtcSpl_ResetResample16khzTo48khz state;
      convert_blocks n inm ip outm op state tmpmem)
     (λ '(out, state', tmpmem'),
       wrote outm op (480 * n) (u16_out zero2 zero2 zeros8 x) out).
Proof.
  intros Hs Hx Ho Ht. apply wp_bind. wp_call (by apply Reset16khzTo48khz_spec). intros st0 H0.
  wp_call (by apply (convert_blocks_spec n inm ip outm op st0 tmpmem _ x H0)).
  intros [[out st'] t'] (Hw & _). exact Hw.
Qed.

Lemma Resample16khzTo48khz_stream_witness :
  let inm := map (λ i, 7 * Z.of_nat i mod 1000) (seq 0 320) in
  let st := {| S_16_32 := replicate 8 1; S_32_24 := replicate 8 2; S_24_48 := replicate 8 3 |} in
  wp (state ← WebRtcSpl_ResetResample16khzTo48khz st;
      convert_blocks 2 inm 0 (replicate 960 0) 0 state (replicate 336 0))
     (λ '(out, state', tmpmem'),
       wrote (replicate 960 0) 0 (480 * 2) (u16_out zero2 zero2 zeros8 (λ i, inm !!! i)) out).
Proof.
  intros inm st. apply (Resample16khzTo48khz_stream 2 inm 0); [done| |by vm_compute; lia..].
  intros i Hi. apply lookup_total_Some. unfold inm. rewrite length_map, length_seq. lia.
Defined.

(** 8 to 48 kHz: 480 samples per block of 80, interpolation by two, 3/4 and
    twice interpolation by two, with a scratch array of 424 words. *)
Theorem Resample8khzTo48khz_stream (n : nat) (inm : list Z) (ip : nat) (outm : list Z) (op : nat)
    (state : WebRtcSpl_State8khzTo48khz) (tmpmem : list Z) (x : nat → Z) :
  sized8to48 state → holds inm ip (80 * n) x → (op + 480 * n ≤ length outm)%nat →
  (424 ≤ length tmpmem)%nat →
  wp (state ← WebRtcSpl_ResetResample8khzTo48khz state;
      convert_blocks n inm ip outm op state tmpmem)
     (λ '(out, state', tmpmem'),
       wrote outm op (480 * n) (u8_out zero2 zero2 zero2 zeros8 x) out).
Proof.
  intros Hs Hx Ho Ht. apply wp_bind. wp_call (by apply Reset8khzTo48khz_spec). intros st0 H0.
  wp_call (by apply (convert_blocks_spec n inm ip outm op st0 tmpmem _ x H0)).
  intros [[out st'] t'] (Hw & _). exact Hw.
Qed.

Lemma Resample8khzTo48khz_stream_witness :
  let inm := map (λ i, 7 * Z.of_nat i mod 1000) (seq 0 160) in
  let st := {| S_8_16 := replicate 8 1; S_16_12 := replicate 8 2; S_12_24 := replicate 8 3;
               S8_24_48 := replicate 8 4 |} in
  wp (state ← WebRtcSpl_ResetResample8khzTo48khz st;
      convert_blocks 2 inm 0 (replicate 960 0) 0 state (replicate 424 0))
     (λ '(out, state', tmpmem'),
       wrote (replicate 960 0) 0 (480 * 2)
         (u8_out zero2 zero2 zero2 zeros8 (λ i, inm !!! i)) out).
Proof.
  intros inm st. apply (Resample8khzTo48khz_stream 2 inm 0); [done| |by vm_compute; lia..].
  intros i Hi. apply lookup_total_Some. unfold inm. rewrite length_map, length_seq. lia.
Defined.

End Resample48.
