(* ===== verification/Resample22.v ===== *)
(** * Resampling between 22 kHz and 8 or 16 kHz
    (common_audio/signal_processing/resample.c)

    The 22 kHz converters split a 10 ms block into sub-blocks, and chain the
    half-band filters and a fractional filter through one scratch array for each
    of them. The 11/16 filter of the 8 to 22 kHz converter runs in place with an
    output that starts only ten cells below the input: the last output of a block
    overwrites its first input. Every sub-block implements the [Converter]
    interface of Resample48.v, so the theorems on streams come from it. *)

From S2P Require Import Prelude ResampleBy2 ResampleFrac Resample48.
Import ResampleBy2 ResampleFrac Resample48.

Module Resample22.

Definition kCoefficients32To22_0 : list Z :=
  [127; -712; 2359; -6333; 23456; 16775; -3695; 945; -154].
Definition kCoefficients32To22_1 : list Z :=
  [-39; 230; -830; 2785; 32366; -2324; 760; -218; 38].
Definition kCoefficients32To22_2 : list Z :=
  [117; -663; 2222; -6133; 26634; 13070; -3174; 831; -137].
Definition kCoefficients32To22_3 : list Z :=
  [-77; 457; -1677; 5958; 31175; -4136; 1405; -408; 71].
Definition kCoefficients32To22_4 : list Z :=
  [98; -560; 1900; -5406; 29240; 9423; -2480; 663; -110].

Record WebRtcSpl_State22khzTo16khz := {
  S_22_44 : list Z; (* 8 *)
  S_44_32 : list Z; (* 8 *)
  S_32_16 : list Z; (* 8 *)
}.

Record WebRtcSpl_State16khzTo22khz := {
  S_16_32 : list Z; (* 8 *)
  S_32_22 : list Z; (* 8 *)
}.

Record WebRtcSpl_State22khzTo8khz := {
  S_22_22 : list Z; (* 16 *)
  S_22_16 : list Z; (* 8 *)
  S_16_8 : list Z;  (* 8 *)
}.

Record WebRtcSpl_State8khzTo22khz := {
  S_8_16 : list Z;  (* 8 *)
  S_16_11 : list Z; (* 8 *)
  S_11_22 : list Z; (* 8 *)
}.

(** The last two products are computed as the results are stored. *)
Definition WebRtcSpl_DotProdIntToInt (mem : list Z) (in1 in2 : nat) (coef_ptr : list Z)
    (out1 out2 : nat) : option (list Z) :=
  tmp1 ← mac mem in1 (take 8 coef_ptr) 16384;
  tmp2 ← mac_back mem (Z.of_nat in2) (take 8 coef_ptr) 16384;
  coef ← coef_ptr !! 8%nat;
  x ← mem !! (in1 + 8)%nat;
  mem ← wr mem out1 (tmp1 +i coef *i x);
  y ← rdz mem (Z.of_nat in2 - 8);
  wr mem out2 (tmp2 +i coef *i y).

(** The output is another array, of 16-bit words. *)
Definition WebRtcSpl_DotProdIntToShort (inm : list Z) (in1 in2 : nat) (coef_ptr : list Z)
    (outm : list Z) (out1 out2 : nat) : option (list Z) :=
  tmp1 ← mac inm in1 coef_ptr 16384;
  tmp2 ← mac_back inm (Z.of_nat in2) coef_ptr 16384;
  outm ← wr outm out1 (sat16 (tmp1 >>i 15));
  wr outm out2 (sat16 (tmp2 >>i 15)).

(** [In] and [Out] are offsets into the same memory. *)
Definition WebRtcSpl_32khzTo22khzIntToInt (mem : list Z) (In Out K : nat) : option (list Z) :=
  for_loop K 0 (λ m mem,
    let In := (In + 16 * m)%nat in
    let Out := (Out + 11 * m)%nat in
    x ← mem !! (In + 3)%nat;
    mem ← wr mem (Out + 0) ((x <<i 15) +i (1 <<i 14));
    mem ← WebRtcSpl_DotProdIntToInt mem (In + 0) (In + 22) kCoefficients32To22_0
            (Out + 1) (Out + 10);
    mem ← WebRtcSpl_DotProdIntToInt mem (In + 2) (In + 20) kCoefficients32To22_1
            (Out + 2) (Out + 9);
    mem ← WebRtcSpl_DotProdIntToInt mem (In + 3) (In + 19) kCoefficients32To22_2
            (Out + 3) (Out + 8);
    mem ← WebRtcSpl_DotProdIntToInt mem (In + 5) (In + 17) kCoefficients32To22_3
            (Out + 4) (Out + 7);
    WebRtcSpl_DotProdIntToInt mem (In + 6) (In + 16) kCoefficients32To22_4
            (Out + 5) (Out + 6)) mem.

Definition WebRtcSpl_32khzTo22khzIntToShort (inm : list Z) (In : nat) (outm : list Z) (Out K : nat)
  : option (list Z) :=
  for_loop K 0 (λ m outm,
    let In := (In + 16 * m)%nat in
    let Out := (Out + 11 * m)%nat in
    tmp ← inm !! (In + 3)%nat;
    outm ← wr outm (Out + 0) (sat16 tmp);
    outm ← WebRtcSpl_DotProdIntToShort inm (In + 0) (In + 22) kCoefficients32To22_0
             outm (Out + 1) (Out + 10);
    outm ← WebRtcSpl_DotProdIntToShort inm (In + 2) (In + 20) kCoefficients32To22_1
             outm (Out + 2) (Out + 9);
    outm ← WebRtcSpl_DotProdIntToShort inm (In + 3) (In + 19) kCoefficients32To22_2
             outm (Out + 3) (Out + 8);
    outm ← WebRtcSpl_DotProdIntToShort inm (In + 5) (In + 17) kCoefficients32To22_3
             outm (Out + 4) (Out + 7);
    WebRtcSpl_DotProdIntToShort inm (In + 6) (In + 16) kCoefficients32To22_4
             outm (Out + 5) (Out + 6)) outm.

(** The eight assignments that copy the state into the scratch array, and the
    eight that save the end of the block, are written as copies of eight words
    between the two arrays. *)
Definition block22khzTo16khz (inm : list Z) (ip : nat) (outm : list Z) (op : nat)
    (state : WebRtcSpl_State22khzTo16khz) (tmpmem : list Z)
  : option (list Z * WebRtcSpl_State22khzTo16khz * list Z) :=
  '(tmpmem, s_22_44) ← WebRtcSpl_UpBy2ShortToInt inm ip 44 tmpmem 16 (S_22_44 state);
  tmpmem ← memcpy tmpmem 8 (S_44_32 state) 0 8;
  s_44_32 ← memcpy (S_44_32 state) 0 tmpmem 96 8;
  tmpmem ← WebRtcSpl_Resample44khzTo32khz tmpmem 8 0 8;
  '(tmpmem, outm, s_32_16) ← WebRtcSpl_DownBy2IntToShort tmpmem 0 64 outm op (S_32_16 state);
  Some (outm, {| S_22_44 := s_22_44; S_44_32 := s_44_32; S_32_16 := s_32_16 |}, tmpmem).

Definition WebRtcSpl_Resample22khzTo16khz (inm : list Z) (ip : nat) (outm : list Z) (op : nat)
    (state : WebRtcSpl_State22khzTo16khz) (tmpmem : list Z)
  : option (list Z * WebRtcSpl_State22khzTo16khz * list Z) :=
  for_loop 5 0 (λ k '(outm, state, tmpmem),
    block22khzTo16khz inm (ip + 44 * k) outm (op + 32 * k) state tmpmem) (outm, state, tmpmem).

(** [for (k = 0; k < 8; k++) a[k] = 0;] *)
Definition zero_loop (a : list Z) : option (list Z) := for_loop 8 0 (λ k a, wr a k 0) a.

Definition WebRtcSpl_ResetResample22khzTo16khz (state : WebRtcSpl_State22khzTo16khz)
  : option WebRtcSpl_State22khzTo16khz :=
  s_22_44 ← zero_loop (S_22_44 state);
  s_44_32 ← zero_loop (S_44_32 state);
  s_32_16 ← zero_loop (S_32_16 state);
  Some {| S_22_44 := s_22_44; S_44_32 := s_44_32; S_32_16 := s_32_16 |}.

Definition block16khzTo22khz (inm : list Z) (ip : nat) (outm : list Z) (op : nat)
    (state : WebRtcSpl_State16khzTo22khz) (tmpmem : list Z)
  : option (list Z * WebRtcSpl_State16khzTo22khz * list Z) :=
  '(tmpmem, s_16_32) ← WebRtcSpl_UpBy2ShortToInt inm ip 40 tmpmem 8 (S_16_32 state);
  tmpmem ← memcpy tmpmem 0 (S_32_22 state) 0 8;
  s_32_22 ← memcpy (S_32_22 state) 0 tmpmem 80 8;
  outm ← WebRtcSpl_32khzTo22khzIntToShort tmpmem 0 outm op 5;
  Some (outm, {| S_16_32 := s_16_32; S_32_22 := s_32_22 |}, tmpmem).

Definition WebRtcSpl_Resample16khzTo22khz (inm : list Z) (ip : nat) (outm : list Z) (op : nat)
    (state : WebRtcSpl_State16khzTo22khz) (tmpmem : list Z)
  : option (list Z * WebRtcSpl_State16khzTo22khz * list Z) :=
  for_loop 4 0 (λ k '(outm, state, tmpmem),
    block16khzTo22khz inm (ip + 40 * k) outm (op + 55 * k) state tmpmem) (outm, state, tmpmem).

Definition WebRtcSpl_ResetResample16khzTo22khz (state : WebRtcSpl_State16khzTo22khz)
  : option WebRtcSpl_State16khzTo22khz :=
  s_16_32 ← zero_loop (S_16_32 state);
  s_32_22 ← zero_loop (S_32_22 state);
  Some {| S_16_32 := s_16_32; S_32_22 := s_32_22 |}.

Definition block22khzTo8khz (inm : list Z) (ip : nat) (outm : list Z) (op : nat)
    (state : WebRtcSpl_State22khzTo8khz) (tmpmem : list Z)
  : option (list Z * WebRtcSpl_State22khzTo8khz * list Z) :=
  '(tmpmem, s_22_22) ← WebRtcSpl_LPBy2ShortToInt inm ip 110 tmpmem 16 (S_22_22 state);
  tmpmem ← memcpy tmpmem 8 (S_22_16 state) 0 8;
  s_22_16 ← memcpy (S_22_16 state) 0 tmpmem 118 8;
  tmpmem ← WebRtcSpl_Resample44khzTo32khz tmpmem 8 0 10;
  '(tmpmem, outm, s_16_8) ← WebRtcSpl_DownBy2IntToShort tmpmem 0 80 outm op (S_16_8 state);
  Some (outm, {| S_22_22 := s_22_22; S_22_16 := s_22_16; S_16_8 := s_16_8 |}, tmpmem).

Definition WebRtcSpl_Resample22khzTo8khz (inm : list Z) (ip : nat) (outm : list Z) (op : nat)
    (state : WebRtcSpl_State22khzTo8khz) (tmpmem : list Z)
  : option (list Z * WebRtcSpl_State22khzTo8khz * list Z) :=
  for_loop 2 0 (λ k '(outm, state, tmpmem),
    block22khzTo8khz inm (ip + 110 * k) outm (op + 40 * k) state tmpmem) (outm, state, tmpmem).

Definition WebRtcSpl_ResetResample22khzTo8khz (state : WebRtcSpl_State22khzTo8khz)
  : option WebRtcSpl_State22khzTo8khz :=
  s_22_22 ← for_loop 8 0 (λ k a, a ← wr a k 0; wr a (k + 8) 0) (S_22_22 state);
  s_22_16 ← zero_loop (S_22_16 state);
  s_16_8 ← zero_loop (S_16_8 state);
  Some {| S_22_22 := s_22_22; S_22_16 := s_22_16; S_16_8 := s_16_8 |}.

Definition block8khzTo22khz (inm : list Z) (ip : nat) (outm : list Z) (op : nat)
    (state : WebRtcSpl_State8khzTo22khz) (tmpmem : list Z)
  : option (list Z * WebRtcSpl_State8khzTo22khz * list Z) :=
  '(tmpmem, s_8_16) ← WebRtcSpl_UpBy2ShortToInt inm ip 40 tmpmem 18 (S_8_16 state);
  tmpmem ← memcpy tmpmem 10 (S_16_11 state) 0 8;
  s_16_11 ← memcpy (S_16_11 state) 0 tmpmem 90 8;
  tmpmem ← WebRtcSpl_32khzTo22khzIntToInt tmpmem 10 0 5;
  '(outm, s_11_22) ← WebRtcSpl_UpBy2IntToShort tmpmem 0 55 outm op (S_11_22 state);
  Some (outm, {| S_8_16 := s_8_16; S_16_11 := s_16_11; S_11_22 := s_11_22 |}, tmpmem).

Definition WebRtcSpl_Resample8khzTo22khz (inm : list Z) (ip : nat) (outm : list Z) (op : nat)
    (state : WebRtcSpl_State8khzTo22khz) (tmpmem : list Z)
  : option (list Z * WebRtcSpl_State8khzTo22khz * list Z) :=
  for_loop 2 0 (λ k '(outm, state, tmpmem),
    block8khzTo22khz inm (ip + 40 * k) outm (op + 110 * k) state tmpmem) (outm, state, tmpmem).

Definition WebRtcSpl_ResetResample8khzTo22khz (state : WebRtcSpl_State8khzTo22khz)
  : option WebRtcSpl_State8khzTo22khz :=
  s_8_16 ← zero_loop (S_8_16 state);
  s_16_11 ← zero_loop (S_16_11 state);
  s_11_22 ← zero_loop (S_11_22 state);
  Some {| S_8_16 := s_8_16; S_16_11 := s_16_11; S_11_22 := s_11_22 |}.

(** ** The fractional filters on a signal *)

Definition eight_elevenths (x : nat → Z) : nat → Z :=
  phase [λ m, (x (11 * m + 3)%nat <<i 15) +i 16384;
         λ m, fir kCoefficients44To32_0 x (11 * m) 16384;
         λ m, fir kCoefficients44To32_1 x (11 * m + 2) 16384;
         λ m, fir kCoefficients44To32_2 x (11 * m + 3) 16384;
         λ m, fir kCoefficients44To32_3 x (11 * m + 5) 16384;
         λ m, fir_back kCoefficients44To32_2 x (11 * m + 14) 16384;
         λ m, fir_back kCoefficients44To32_1 x (11 * m + 15) 16384;
         λ m, fir_back kCoefficients44To32_0 x (11 * m + 17) 16384].

(** [first] scales the sample copied through, [post] the sums. *)
Definition eleven_sixteenths (first post : Z → Z) (x : nat → Z) : nat → Z :=
  phase [λ m, first (x (16 * m + 3)%nat);
         λ m, post (fir kCoefficients32To22_0 x (16 * m) 16384);
         λ m, post (fir kCoefficients32To22_1 x (16 * m + 2) 16384);
         λ m, post (fir kCoefficients32To22_2 x (16 * m + 3) 16384);
         λ m, post (fir kCoefficients32To22_3 x (16 * m + 5) 16384);
         λ m, post (fir kCoefficients32To22_4 x (16 * m + 6) 16384);
         λ m, post (fir_back kCoefficients32To22_4 x (16 * m + 16) 16384);
         λ m, post (fir_back kCoefficients32To22_3 x (16 * m + 17) 16384);
         λ m, post (fir_back kCoefficients32To22_2 x (16 * m + 19) 16384);
         λ m, post (fir_back kCoefficients32To22_1 x (16 * m + 20) 16384);
         λ m, post (fir_back kCoefficients32To22_0 x (16 * m + 22) 16384)].

Lemma fir_back_ext coef x x' p p' acc :
  (length coef ≤ S p)%nat → (length coef ≤ S p')%nat →
  (∀ i, (i < length coef)%nat → x (p - i)%nat = x' (p' - i)%nat) →
  fir_back coef x p acc = fir_back coef x' p' acc.
Proof.
  revert p p' acc. induction coef as [|c coef IH]; intros p p' acc Hp Hp' H; [done|].
  cbn [fir_back]. pose proof (H 0%nat ltac:(simpl; lia)) as H0. rewrite !Nat.sub_0_r in H0.
  rewrite H0. destruct coef as [|c' coef]; [done|]. simpl in Hp, Hp'.
  apply IH; [simpl; lia..|]. intros i Hi.
  rewrite <- !Nat.sub_add_distr. apply (H (1 + i)%nat). simpl in *. lia.
Qed.

(** [m] holds the samples [lo, n) of the signal [x], cell [o] being sample 0. *)
Definition holds_from (m : list Z) (o lo n : nat) (x : nat → Z) : Prop :=
  ∀ i, (lo ≤ i < n)%nat → m !! (o + i)%nat = Some (x i).

Lemma holds_from_mono m o lo lo' n x :
  holds_from m o lo n x → (lo ≤ lo')%nat → holds_from m o lo' n x.
Proof. intros H Hl i Hi. apply H. lia. Qed.

Lemma holds_from_insert m o lo n x p v :
  holds_from m o lo n x → (p < o + lo)%nat → holds_from (<[p := v]> m) o lo n x.
Proof. intros H Hp i Hi. rewrite list_lookup_insert_ne by lia. by apply H. Qed.

Lemma mac_from m o lo n x p q coef acc :
  holds_from m o lo n x → q = (o + p)%nat → (lo ≤ p)%nat → (p + length coef ≤ n)%nat →
  mac m q coef acc = Some (fir coef x p acc).
Proof.
  intros H ->. revert p acc. induction coef as [|c coef IH]; intros p acc Hp Hn; [done|].
  cbn [mac fir length] in *. rewrite H by lia. cbn [mbind option_bind].
  rewrite <- IH by lia. f_equal. lia.
Qed.

Lemma mac_back_from m o lo n x p q coef acc :
  holds_from m o lo n x → q = (o + p)%nat → (lo + length coef ≤ S p)%nat → (p < n)%nat →
  mac_back m (Z.of_nat q) coef acc = Some (fir_back coef x p acc).
Proof.
  intros H ->. revert p acc. induction coef as [|c coef IH]; intros p acc Hp Hn; [done|].
  cbn [mac_back fir_back length] in *. rewrite <- (Z.sub_0_r (Z.of_nat (o + p))) at 1.
  rewrite (rdz_nat _ _ 0), Nat.sub_0_r, H by lia. cbn [mbind option_bind].
  destruct coef as [|c' coef]; [done|]. simpl in Hp.
  replace (Z.of_nat (o + p) - 1) with (Z.of_nat (o + (p - 1))) by lia.
  apply IH; simpl; lia.
Qed.

Section stages.
Context (o lo n : nat) (x : nat → Z).

Lemma dot_int_int m p1 p2 q1 q2 coef o1 o2 (Q : list Z → Prop) :
  length coef = 9%nat → holds_from m o lo n x →
  q1 = (o + p1)%nat → q2 = (o + p2)%nat → (lo ≤ p1)%nat → (p1 + 9 ≤ n)%nat →
  (lo + 9 ≤ S p2)%nat → (p2 < n)%nat → (o1 < length m)%nat → (o2 < length m)%nat →
  (q2 - 8 ≠ o1)%nat →
  Q (<[o2 := fir_back coef x p2 16384]> (<[o1 := fir coef x p1 16384]> m)) →
  wp (WebRtcSpl_DotProdIntToInt m q1 q2 coef o1 o2) Q.
Proof.
  intros Hc H Hq1 Hq2 H1 H2 H3 H4 H5 H6 Hne HQ.
  destruct (last_of_nine coef Hc) as (l & c & -> & H8). unfold WebRtcSpl_DotProdIntToInt.
  rewrite take_app_length' by done. rewrite lookup_app_r, H8 by lia.
  rewrite fir_snoc, fir_back_snoc, H8 in HQ by lia.
  rewrite (mac_from m o lo n x p1), (mac_back_from m o lo n x p2) by (done || lia).
  apply wp_bind, wp_ret, wp_bind, wp_ret, wp_bind, wp_ret.
  replace (q1 + 8)%nat with (o + (p1 + 8))%nat by lia. rewrite H by lia.
  apply wp_bind, wp_ret, wp_bind, wp_wr; [done|].
  rewrite (rdz_nat _ q2 8), list_lookup_insert_ne by lia.
  replace (q2 - 8)%nat with (o + (p2 - 8))%nat by lia. rewrite H by lia.
  apply wp_bind, wp_ret, wp_wr; [by rewrite length_insert|]. exact HQ.
Qed.

Lemma dot_int_short m p1 p2 q1 q2 coef outm o1 o2 (Q : list Z → Prop) :
  length coef = 9%nat → holds_from m o lo n x →
  q1 = (o + p1)%nat → q2 = (o + p2)%nat → (lo ≤ p1)%nat → (p1 + 9 ≤ n)%nat →
  (lo + 9 ≤ S p2)%nat → (p2 < n)%nat → (o1 < length outm)%nat → (o2 < length outm)%nat →
  Q (<[o2 := sat16 (fir_back coef x p2 16384 >>i 15)]>
      (<[o1 := sat16 (fir coef x p1 16384 >>i 15)]> outm)) →
  wp (WebRtcSpl_DotProdIntToShort m q1 q2 coef outm o1 o2) Q.
Proof.
  intros Hc H Hq1 Hq2 H1 H2 H3 H4 H5 H6 HQ. unfold WebRtcSpl_DotProdIntToShort.
  rewrite (mac_from m o lo n x p1), (mac_back_from m o lo n x p2) by (done || lia).
  apply wp_bind, wp_ret, wp_bind, wp_ret, wp_bind, wp_wr; [done|].
  apply wp_wr; [by rewrite length_insert|]. exact HQ.
Qed.
End stages.

(** Reads the eleven cells of a block back from the stores. *)
Ltac read_block m :=
  let j := fresh "j" in
  match goal with |- ?mm !! (?oo + ?i)%nat = _ =>
    assert (∃ j, (i = 11 * m + j ∧ j < 11)%nat) as (j & -> & ?)
      by (exists (i - 11 * m)%nat; lia)
  end;
  do 11 (destruct j as [|j];
    [ repeat first [ rewrite list_lookup_insert_ne by lia
                   | rewrite list_lookup_insert_eq' by (rewrite ?length_insert; lia) ];
      f_equal; symmetry; (etrans; [by apply (phase_at _ 11)|]); cbv beta;
      rewrite ?Nat.add_0_r; done
    | ]); lia.

#[local] Ltac still := repeat (apply holds_from_insert; [|lia]); eassumption.

Lemma eleven_int_stage mem In Out K x :
  holds mem In (16 * K + 7) x → (Out + 10 ≤ In)%nat →
  wp (WebRtcSpl_32khzTo22khzIntToInt mem In Out K)
     (wrote mem Out (11 * K) (eleven_sixteenths (λ v, (v <<i 15) +i 16384) id x)).
Proof.
  intros Hx Ho. pose proof (holds_length _ _ _ _ Hx ltac:(lia)).
  set (f := eleven_sixteenths (λ v, (v <<i 15) +i 16384) id x).
  apply (wp_for (λ m, wrote mem Out (11 * m) f)); [apply wrote_nil| |done].
  intros m m0 Hm H0. cbv zeta. pose proof H0 as (Hl0 & Hw0 & Hu0).
  assert (I0 : holds_from m0 In (16 * m) (16 * K + 7) x).
  { intros i Hi. rewrite Hu0 by lia. apply Hx. lia. }
  apply wp_bind. replace (In + 16 * m + 3)%nat with (In + (16 * m + 3))%nat by lia.
  rewrite I0 by lia. apply wp_ret, wp_bind, wp_wr; [lia|].
  assert (I1 : holds_from m0 In (16 * m + 1) (16 * K + 7) x)
    by (eapply holds_from_mono; [exact I0|lia]).
  apply wp_bind, (dot_int_int In (16 * m) (16 * K + 7) x _ (16 * m) (16 * m + 22));
    [done|still|rewrite ?length_insert; lia..|].
  apply wp_bind, (dot_int_int In (16 * m + 1) (16 * K + 7) x _ (16 * m + 2) (16 * m + 20));
    [done|still|rewrite ?length_insert; lia..|].
  apply wp_bind, (dot_int_int In (16 * m + 1) (16 * K + 7) x _ (16 * m + 3) (16 * m + 19));
    [done|still|rewrite ?length_insert; lia..|].
  apply wp_bind, (dot_int_int In (16 * m + 1) (16 * K + 7) x _ (16 * m + 5) (16 * m + 17));
    [done|still|rewrite ?length_insert; lia..|].
  apply (dot_int_int In (16 * m + 1) (16 * K + 7) x _ (16 * m + 6) (16 * m + 16));
    [done|still|rewrite ?length_insert; lia..|].
  split_and!; [by rewrite !length_insert| |].
  - intros i Hi. destruct (decide (i < 11 * m)%nat).
    { rewrite !list_lookup_insert_ne by lia. by apply Hw0. }
    read_block m.
  - intros p Hp. rewrite !list_lookup_insert_ne by lia. apply Hu0. lia.
Qed.

Lemma eleven_short_stage inm In outm Out K x :
  holds inm In (16 * K + 7) x → (Out + 11 * K ≤ length outm)%nat →
  wp (WebRtcSpl_32khzTo22khzIntToShort inm In outm Out K)
     (wrote outm Out (11 * K) (eleven_sixteenths sat16 (λ y, sat16 (y >>i 15)) x)).
Proof.
  intros Hx Ho. pose proof (holds_length _ _ _ _ Hx ltac:(lia)).
  set (f := eleven_sixteenths sat16 (λ y, sat16 (y >>i 15)) x).
  assert (I0 : holds_from inm In 0 (16 * K + 7) x) by (intros i Hi; apply Hx; lia).
  apply (wp_for (λ m, wrote outm Out (11 * m) f)); [apply wrote_nil| |done].
  intros m m0 Hm H0. cbv zeta. pose proof H0 as (Hl0 & Hw0 & Hu0).
  apply wp_bind. replace (In + 16 * m + 3)%nat with (In + (16 * m + 3))%nat by lia.
  rewrite I0 by lia. apply wp_ret, wp_bind, wp_wr; [lia|].
  apply wp_bind, (dot_int_short In 0 (16 * K + 7) x _ (16 * m) (16 * m + 22));
    [done|done|rewrite ?length_insert; lia..|].
  apply wp_bind, (dot_int_short In 0 (16 * K + 7) x _ (16 * m + 2) (16 * m + 20));
    [done|done|rewrite ?length_insert; lia..|].
  apply wp_bind, (dot_int_short In 0 (16 * K + 7) x _ (16 * m + 3) (16 * m + 19));
    [done|done|rewrite ?length_insert; lia..|].
  apply wp_bind, (dot_int_short In 0 (16 * K + 7) x _ (16 * m + 5) (16 * m + 17));
    [done|done|rewrite ?length_insert; lia..|].
  apply (dot_int_short In 0 (16 * K + 7) x _ (16 * m + 6) (16 * m + 16));
    [done|done|rewrite ?length_insert; lia..|].
  split_and!; [by rewrite !length_insert| |].
  - intros i Hi. destruct (decide (i < 11 * m)%nat).
    { rewrite !list_lookup_insert_ne by lia. by apply Hw0. }
    read_block m.
  - intros p Hp. rewrite !list_lookup_insert_ne by lia. apply Hu0. lia.
Qed.

Lemma eight_elevenths_stage mem ip op K x :
  holds mem ip (11 * K + 7) x → (op + 8 ≤ ip)%nat →
  wp (WebRtcSpl_Resample44khzTo32khz mem ip op K) (wrote mem op (8 * K) (eight_elevenths x)).
Proof.
  intros Hx Ho. pose proof (holds_length _ _ _ _ Hx ltac:(lia)).
  wp_call (apply Resample44khzTo32khz_spec; lia). intros m Hw.
  eapply wrote_ext; [exact Hw|]. intros i Hi.
  assert (i / 8 < K)%nat by (apply Nat.Div0.div_lt_upper_bound; lia).
  apply (phase_ext _ _ 8); [done|].
  repeat first [apply Forall2_nil_2 | apply Forall2_cons_2].
  { rewrite <- Nat.add_assoc. by rewrite (holds_total _ _ _ _ _ Hx) by lia. }
  all: first [apply fir_ext | apply fir_back_ext; [simpl; lia..|]]; intros j Hj;
    change (length _) with 9%nat in Hj; rewrite <- (holds_total _ _ _ _ _ Hx) by lia; f_equal; lia.
Qed.

Lemma eight_elevenths_shift x y k i :
  (∀ i, y i = x (11 * k + i)%nat) → eight_elevenths y i = eight_elevenths x (8 * k + i).
Proof.
  intros E. apply phase_from; [done|].
  repeat first [apply Forall2_nil_2 | apply Forall2_cons_2].
  { rewrite E. by replace (11 * k + (11 * (i / 8) + 3))%nat with (11 * (k + i / 8) + 3)%nat by lia. }
  all: first [apply fir_ext | apply fir_back_ext; [simpl; lia..|]]; intros j Hj;
    change (length _) with 9%nat in Hj; rewrite E; f_equal; lia.
Qed.

Lemma eleven_sixteenths_shift first post x y k i :
  (∀ i, y i = x (16 * k + i)%nat) →
  eleven_sixteenths first post y i = eleven_sixteenths first post x (11 * k + i).
Proof.
  intros E. apply phase_from; [done|].
  repeat first [apply Forall2_nil_2 | apply Forall2_cons_2].
  { rewrite E. by replace (16 * k + (16 * (i / 11) + 3))%nat with (16 * (k + i / 11) + 3)%nat by lia. }
  all: f_equal; first [apply fir_ext | apply fir_back_ext; [simpl; lia..|]]; intros j Hj;
    change (length _) with 9%nat in Hj; rewrite E; f_equal; lia.
Qed.

#[export] Instance eight_elevenths_proper :
  Proper (pointwise_relation nat eq ==> pointwise_relation nat eq) eight_elevenths.
Proof. intros x x' E i. apply (eight_elevenths_shift x' x 0). intros j. apply E. Qed.
#[export] Instance eleven_sixteenths_proper first post :
  Proper (pointwise_relation nat eq ==> pointwise_relation nat eq) (eleven_sixteenths first post).
Proof. intros x x' E i. apply (eleven_sixteenths_shift first post x' x 0). intros j. apply E. Qed.

(** ** The converters *)

(** 22 to 16 kHz: interpolation, 8/11, decimation. *)
Section chain22to16.
Context (q2 r2 : quad * quad) (h : list Z) (x : nat → Z).
Definition d16_up : nat → Z := interp (λ y, y >>i 15) q2 (λ i, to_q15 (x i)).
Definition d16_frac : nat → Z := eight_elevenths (with_history h d16_up).
Definition d16_out (i : nat) : Z := sat16 (decim r2 d16_frac i >>i 15).
End chain22to16.

Definition d16_mem : Type := (quad * quad) * (quad * quad) * list Z.
Definition d16_rep (st : WebRtcSpl_State22khzTo16khz) (μ : d16_mem) : Prop :=
  let '(q2, r2, h) := μ in
  mem2 (S_22_44 st) q2 ∧ S_44_32 st = h ∧ length h = 8%nat ∧ mem2 (S_32_16 st) r2.
Definition d16_sig (μ : d16_mem) (x : nat → Z) : nat → Z :=
  let '(q2, r2, h) := μ in d16_out q2 r2 h x.
Definition d16_next (μ : d16_mem) (x : nat → Z) : d16_mem :=
  let '(q2, r2, h) := μ in
    (interp_mem q2 (λ i, to_q15 (x i)) 44, decim_mem r2 (d16_frac q2 h x) 32,
     last8 (d16_up q2 x) 80).

Lemma block22khzTo16khz_chain inm ip outm op state tmpmem μ x :
  d16_rep state μ → holds inm ip 44 x → (op + 32 ≤ length outm)%nat →
  (104 ≤ length tmpmem)%nat →
  wp (block22khzTo16khz inm ip outm op state tmpmem) (λ '(out, state', tmpmem'),
    wrote outm op 32 (d16_sig μ x) out ∧ d16_rep state' (d16_next μ x) ∧
    length tmpmem' = length tmpmem).
Proof.
  destruct μ as [[q2 r2] h]. intros (M2 & <- & Hh & R2) Hx Ho Ht. unfold block22khzTo16khz.
  apply wp_bind. wp_call (by apply (up_short_int_stage inm ip 44); [..|lia]).
  intros [t1 s1] [W1 N1]. pose proof (wrote_length _ _ _ _ _ W1).
  apply wp_bind. apply (history_in t1 _ 8 88 (d16_up q2 x));
    [done|apply (wrote_holds _ _ _ _ _ W1)|lia|].
  intros t2 Hl2 H2.
  apply wp_bind. eapply (history_out t2 _ 8 88); [done|done|]. cbv beta.
  apply wp_bind. wp_call (apply (eight_elevenths_stage t2 8 0 8 (with_history (S_44_32 state)
    (d16_up q2 x))); [intros i Hi; apply H2; lia|lia]).
  intros t3 W3. pose proof (wrote_length _ _ _ _ _ W3).
  apply wp_bind. wp_call (by apply (down_int_short_stage t3 0 16);
    [|apply (wrote_holds _ _ _ _ _ W3)|lia|lia]).
  intros [[t4 o] s4] (Hl4 & W4 & N4). apply wp_ret. split; [done|]. split; [|lia].
  by split_and!.
Qed.

#[export] Program Instance conv22to16 : Converter WebRtcSpl_State22khzTo16khz := {|
  cv_in := 44; cv_out := 32; cv_tmp := 104;
  cv_run := block22khzTo16khz;
  cv_mem := d16_mem; cv_rep := d16_rep; cv_sig := d16_sig; cv_next := d16_next;
|}.
Next Obligation. intros. by apply block22khzTo16khz_chain. Qed.
Next Obligation.
  intros [[q2 r2] h] x i. apply (f_equal (λ z, sat16 (z >>i 15))).
  etrans; [|exact (decim_shift r2 (d16_frac q2 h x) 32 i)].
  apply decim_proper. intros j. unfold d16_frac at 1.
  apply (eight_elevenths_shift (with_history h (d16_up q2 x)) _ 8). intros l.
  etrans; [|exact (history_shift h (d16_up q2 x) 88 l ltac:(lia))].
  apply with_history_proper. intros m. exact (interp_shift _ q2 (λ i, to_q15 (x i)) 44 m).
Qed.
Next Obligation.
  intros [[q2 r2] h] _ <- x x' E i _ <-. apply (f_equal (λ z, sat16 (z >>i 15))).
  apply decim_proper, eight_elevenths_proper, with_history_proper, interp_proper.
  intros j. by rewrite (E j).
Qed.

(** 16 to 22 kHz: interpolation, 11/16. *)
Section chain16to22.
Context (q2 : quad * quad) (h : list Z) (x : nat → Z).
Definition e16_up : nat → Z := interp (λ y, y >>i 15) q2 (λ i, to_q15 (x i)).
Definition e16_out : nat → Z :=
  eleven_sixteenths sat16 (λ y, sat16 (y >>i 15)) (with_history h e16_up).
End chain16to22.

Definition e16_mem : Type := (quad * quad) * list Z.
Definition e16_rep (st : WebRtcSpl_State16khzTo22khz) (μ : e16_mem) : Prop :=
  let '(q2, h) := μ in mem2 (S_16_32 st) q2 ∧ S_32_22 st = h ∧ length h = 8%nat.
Definition e16_sig (μ : e16_mem) (x : nat → Z) : nat → Z :=
  let '(q2, h) := μ in e16_out q2 h x.
Definition e16_next (μ : e16_mem) (x : nat → Z) : e16_mem :=
  let '(q2, h) := μ in (interp_mem q2 (λ i, to_q15 (x i)) 40, last8 (e16_up q2 x) 72).

Lemma block16khzTo22khz_chain inm ip outm op state tmpmem μ x :
  e16_rep state μ → holds inm ip 40 x → (op + 55 ≤ length outm)%nat →
  (88 ≤ length tmpmem)%nat →
  wp (block16khzTo22khz inm ip outm op state tmpmem) (λ '(out, state', tmpmem'),
    wrote outm op 55 (e16_sig μ x) out ∧ e16_rep state' (e16_next μ x) ∧
    length tmpmem' = length tmpmem).
Proof.
  destruct μ as [q2 h]. intros (M2 & <- & Hh) Hx Ho Ht. unfold block16khzTo22khz.
  apply wp_bind. wp_call (by apply (up_short_int_stage inm ip 40); [..|lia]).
  intros [t1 s1] [W1 N1]. pose proof (wrote_length _ _ _ _ _ W1).
  apply wp_bind. apply (history_in t1 _ 0 80 (e16_up q2 x));
    [done|apply (wrote_holds _ _ _ _ _ W1)|lia|].
  intros t2 Hl2 H2.
  apply wp_bind. eapply (history_out t2 _ 0 80); [done|done|]. cbv beta.
  apply wp_bind. wp_call (apply (eleven_short_stage t2 0 outm op 5 (with_history (S_32_22 state)
    (e16_up q2 x))); [intros i Hi; apply H2; lia|lia]).
  intros o W3. apply wp_ret. split; [done|]. split; [|lia]. by split_and!.
Qed.

#[export] Program Instance conv16to22 : Converter WebRtcSpl_State16khzTo22khz := {|
  cv_in := 40; cv_out := 55; cv_tmp := 88;
  cv_run := block16khzTo22khz;
  cv_mem := e16_mem; cv_rep := e16_rep; cv_sig := e16_sig; cv_next := e16_next;
|}.
Next Obligation. intros. by apply block16khzTo22khz_chain. Qed.
Next Obligation.
  intros [q2 h] x i. unfold e16_out.
  apply (eleven_sixteenths_shift _ _ (with_history h (e16_up q2 x)) _ 5). intros l.
  etrans; [|exact (history_shift h (e16_up q2 x) 80 l ltac:(lia))].
  apply with_history_proper. intros m. exact (interp_shift _ q2 (λ i, to_q15 (x i)) 40 m).
Qed.
Next Obligation.
  intros [q2 h] _ <- x x' E i _ <-.
  apply eleven_sixteenths_proper, with_history_proper, interp_proper.
  intros j. by rewrite (E j).
Qed.

(** 22 to 8 kHz: low-pass, 8/11, decimation. *)
Section chain22to8.
Context (q4 : quad * quad * quad * quad) (r2 : quad * quad) (h : list Z) (x : nat → Z).
Definition d8_lp : nat → Z := lowpass q4 (λ i, to_q15 (x i)).
Definition d8_frac : nat → Z := eight_elevenths (with_history h d8_lp).
Definition d8_out (i : nat) : Z := sat16 (decim r2 d8_frac i >>i 15).
End chain22to8.

Definition d8_mem : Type := (quad * quad * quad * quad) * (quad * quad) * list Z.
Definition d8_rep (st : WebRtcSpl_State22khzTo8khz) (μ : d8_mem) : Prop :=
  let '(q4, r2, h) := μ in
  mem4 (S_22_22 st) q4 ∧ S_22_16 st = h ∧ length h = 8%nat ∧ mem2 (S_16_8 st) r2.
Definition d8_sig (μ : d8_mem) (x : nat → Z) : nat → Z :=
  let '(q4, r2, h) := μ in d8_out q4 r2 h x.
Definition d8_next (μ : d8_mem) (x : nat → Z) : d8_mem :=
  let '(q4, r2, h) := μ in
    (lowpass_mem q4 (λ i, to_q15 (x i)) 55, decim_mem r2 (d8_frac q4 h x) 40,
     last8 (d8_lp q4 x) 102).

Lemma block22khzTo8khz_chain inm ip outm op state tmpmem μ x :
  d8_rep state μ → holds inm ip 110 x → (op + 40 ≤ length outm)%nat →
  (126 ≤ length tmpmem)%nat →
  wp (block22khzTo8khz inm ip outm op state tmpmem) (λ '(out, state', tmpmem'),
    wrote outm op 40 (d8_sig μ x) out ∧ d8_rep state' (d8_next μ x) ∧
    length tmpmem' = length tmpmem).
Proof.
  destruct μ as [[q4 r2] h]. intros (M4 & <- & Hh & R2) Hx Ho Ht. unfold block22khzTo8khz.
  apply wp_bind. wp_call (by apply (lp_short_int_stage inm ip 55); [..|lia]).
  intros [t1 s1] [W1 N1]. pose proof (wrote_length _ _ _ _ _ W1).
  apply wp_bind. apply (history_in t1 _ 8 110 (d8_lp q4 x));
    [done|apply (wrote_holds _ _ _ _ _ W1)|lia|].
  intros t2 Hl2 H2.
  apply wp_bind. eapply (history_out t2 _ 8 110); [done|done|]. cbv beta.
  apply wp_bind. wp_call (apply (eight_elevenths_stage t2 8 0 10 (with_history (S_22_16 state)
    (d8_lp q4 x))); [intros i Hi; apply H2; lia|lia]).
  intros t3 W3. pose proof (wrote_length _ _ _ _ _ W3).
  apply wp_bind. wp_call (by apply (down_int_short_stage t3 0 20);
    [|apply (wrote_holds _ _ _ _ _ W3)|lia|lia]).
  intros [[t4 o] s4] (Hl4 & W4 & N4). apply wp_ret. split; [done|]. split; [|lia].
  by split_and!.
Qed.

#[export] Program Instance conv22to8 : Converter WebRtcSpl_State22khzTo8khz := {|
  cv_in := 110; cv_out := 40; cv_tmp := 126;
  cv_run := block22khzTo8khz;
  cv_mem := d8_mem; cv_rep := d8_rep; cv_sig := d8_sig; cv_next := d8_next;
|}.
Next Obligation. intros. by apply block22khzTo8khz_chain. Qed.
Next Obligation.
  intros [[q4 r2] h] x i. apply (f_equal (λ z, sat16 (z >>i 15))).
  etrans; [|exact (decim_shift r2 (d8_frac q4 h x) 40 i)].
  apply decim_proper. intros j. unfold d8_frac at 1.
  apply (eight_elevenths_shift (with_history h (d8_lp q4 x)) _ 10). intros l.
  etrans; [|exact (history_shift h (d8_lp q4 x) 110 l ltac:(lia))].
  apply with_history_proper. intros m. exact (lowpass_shift q4 (λ i, to_q15 (x i)) 55 m ltac:(lia)).
Qed.
Next Obligation.
  intros [[q4 r2] h] _ <- x x' E i _ <-. apply (f_equal (λ z, sat16 (z >>i 15))).
  apply decim_proper, eight_elevenths_proper, with_history_proper, lowpass_proper.
  intros j. by rewrite (E j).
Qed.

(** 8 to 22 kHz: interpolation, 11/16 in place, interpolation. *)
Section chain8to22.
Context (q2 r2 : quad * quad) (h : list Z) (x : nat → Z).
Definition e8_up : nat → Z := interp (λ y, y >>i 15) q2 (λ i, to_q15 (x i)).
Definition e8_frac : nat → Z :=
  eleven_sixteenths (λ v, (v <<i 15) +i 16384) id (with_history h e8_up).
Definition e8_out : nat → Z := interp (λ y, sat16 (y >>i 15)) r2 e8_frac.
End chain8to22.

Definition e8_mem : Type := (quad * quad) * (quad * quad) * list Z.
Definition e8_rep (st : WebRtcSpl_State8khzTo22khz) (μ : e8_mem) : Prop :=
  let '(q2, r2, h) := μ in
  mem2 (S_8_16 st) q2 ∧ S_16_11 st = h ∧ length h = 8%nat ∧ mem2 (S_11_22 st) r2.
Definition e8_sig (μ : e8_mem) (x : nat → Z) : nat → Z :=
  let '(q2, r2, h) := μ in e8_out q2 r2 h x.
Definition e8_next (μ : e8_mem) (x : nat → Z) : e8_mem :=
  let '(q2, r2, h) := μ in
    (interp_mem q2 (λ i, to_q15 (x i)) 40, interp_mem r2 (e8_frac q2 h x) 55,
     last8 (e8_up q2 x) 72).

Lemma block8khzTo22khz_chain inm ip outm op state tmpmem μ x :
  e8_rep state μ → holds inm ip 40 x → (op + 110 ≤ length outm)%nat →
  (98 ≤ length tmpmem)%nat →
  wp (block8khzTo22khz inm ip outm op state tmpmem) (λ '(out, state', tmpmem'),
    wrote outm op 110 (e8_sig μ x) out ∧ e8_rep state' (e8_next μ x) ∧
    length tmpmem' = length tmpmem).
Proof.
  destruct μ as [[q2 r2] h]. intros (M2 & <- & Hh & R2) Hx Ho Ht. unfold block8khzTo22khz.
  apply wp_bind. wp_call (by apply (up_short_int_stage inm ip 40); [..|lia]).
  intros [t1 s1] [W1 N1]. pose proof (wrote_length _ _ _ _ _ W1).
  apply wp_bind. apply (history_in t1 _ 10 80 (e8_up q2 x));
    [done|apply (wrote_holds _ _ _ _ _ W1)|lia|].
  intros t2 Hl2 H2.
  apply wp_bind. eapply (history_out t2 _ 10 80); [done|done|]. cbv beta.
  apply wp_bind. wp_call (apply (eleven_int_stage t2 10 0 5 (with_history (S_16_11 state)
    (e8_up q2 x))); [intros i Hi; apply H2; lia|lia]).
  intros t3 W3. pose proof (wrote_length _ _ _ _ _ W3).
  apply wp_bind. wp_call (by apply (up_int_short_stage t3 0 55);
    [|apply (wrote_holds _ _ _ _ _ W3)|lia]).
  intros [o s4] (W4 & N4). apply wp_ret. split; [done|]. split; [|lia].
  by split_and!.
Qed.

#[export] Program Instance conv8to22 : Converter WebRtcSpl_State8khzTo22khz := {|
  cv_in := 40; cv_out := 110; cv_tmp := 98;
  cv_run := block8khzTo22khz;
  cv_mem := e8_mem; cv_rep := e8_rep; cv_sig := e8_sig; cv_next := e8_next;
|}.
Next Obligation. intros. by apply block8khzTo22khz_chain. Qed.
Next Obligation.
  intros [[q2 r2] h] x i. unfold e8_out.
  etrans; [|exact (interp_shift _ r2 (e8_frac q2 h x) 55 i)].
  apply interp_proper. intros j. unfold e8_frac at 1.
  apply (eleven_sixteenths_shift _ _ (with_history h (e8_up q2 x)) _ 5). intros l.
  etrans; [|exact (history_shift h (e8_up q2 x) 80 l ltac:(lia))].
  apply with_history_proper. intros m. exact (interp_shift _ q2 (λ i, to_q15 (x i)) 40 m).
Qed.
Next Obligation.
  intros [[q2 r2] h] _ <- x x' E i _ <-.
  apply interp_proper, eleven_sixteenths_proper, with_history_proper, interp_proper.
  intros j. by rewrite (E j).
Qed.

(** ** Calls and resets *)

(** [n] calls of a converter on consecutive 10 ms blocks. *)
Definition call_sequence {St : Type}
    (run : list Z → nat → list Z → nat → St → list Z → option (list Z * St * list Z))
    (len_in len_out n : nat) (inm : list Z) (ip : nat) (outm : list Z) (op : nat)
    (state : St) (tmpmem : list Z) : option (list Z * St * list Z) :=
  for_loop n 0 (λ b '(outm, state, tmpmem),
    run inm (ip + len_in * b)%nat outm (op + len_out * b)%nat state tmpmem) (outm, state, tmpmem).

(** A converter that splits each call into [k] sub-blocks is the sub-block
    converter on [k] times as many blocks. *)
Section calls.
Context {St : Type} `{!Converter St} (k : nat).

Lemma split_calls_blocks n inm ip outm op state tmpmem :
  call_sequence (convert_blocks k) (cv_in * k) (cv_out * k) n inm ip outm op state tmpmem =
  convert_blocks (k * n) inm ip outm op state tmpmem.
Proof.
  unfold call_sequence. unfold convert_blocks at 2.
  rewrite <- (Nat.mul_0_r k) at 2. rewrite <- for_loop_nest. apply for_loop_ext.
  intros b [[o st] t] _. unfold convert_blocks. apply for_loop_ext.
  intros j [[o' st'] t'] _. f_equal; lia.
Qed.

Lemma split_calls_spec n inm ip outm op state tmpmem μ x :
  cv_rep state μ → holds inm ip (cv_in * k * n) x → (op + cv_out * k * n ≤ length outm)%nat →
  (cv_tmp ≤ length tmpmem)%nat →
  wp (call_sequence (convert_blocks k) (cv_in * k) (cv_out * k) n inm ip outm op state tmpmem)
     (λ '(out, state', tmpmem'), wrote outm op (cv_out * k * n) (cv_sig μ x) out).
Proof.
  intros Hr Hx Ho Ht. rewrite split_calls_blocks. rewrite <- Nat.mul_assoc in *.
  wp_call (by apply (convert_blocks_spec (k * n) inm ip outm op state tmpmem μ x)).
  intros [[out st'] t'] (Hw & _). exact Hw.
Qed.
End calls.

Definition sized22to16 (st : WebRtcSpl_State22khzTo16khz) : Prop :=
  length (S_22_44 st) = 8%nat ∧ length (S_44_32 st) = 8%nat ∧ length (S_32_16 st) = 8%nat.
Definition sized16to22 (st : WebRtcSpl_State16khzTo22khz) : Prop :=
  length (S_16_32 st) = 8%nat ∧ length (S_32_22 st) = 8%nat.
Definition sized22to8 (st : WebRtcSpl_State22khzTo8khz) : Prop :=
  length (S_22_22 st) = 16%nat ∧ length (S_22_16 st) = 8%nat ∧ length (S_16_8 st) = 8%nat.
Definition sized8to22 (st : WebRtcSpl_State8khzTo22khz) : Prop :=
  length (S_8_16 st) = 8%nat ∧ length (S_16_11 st) = 8%nat ∧ length (S_11_22 st) = 8%nat.

Lemma zero_loop_spec a : length a = 8%nat → zero_loop a = Some zeros8.
Proof. intros H. do 8 (destruct a as [|? a]; [done|]). by destruct a. Qed.

Lemma zero_loop16_spec (a : list Z) : length a = 16%nat →
  for_loop 8 0 (λ k a, a ← wr a k 0; wr a (k + 8) 0) a = Some (replicate 16 0).
Proof. intros H. do 16 (destruct a as [|? a]; [done|]). by destruct a. Qed.

#[local] Ltac reset_tac := rewrite ?zero_loop16_spec, ?zero_loop_spec by done; by split_and!.

Lemma Reset22khzTo16khz_spec st : sized22to16 st →
  wp (WebRtcSpl_ResetResample22khzTo16khz st) (λ st', cv_rep st' (zero2, zero2, zeros8)).
Proof. intros (? & ? & ?). unfold WebRtcSpl_ResetResample22khzTo16khz. reset_tac. Qed.
Lemma Reset16khzTo22khz_spec st : sized16to22 st →
  wp (WebRtcSpl_ResetResample16khzTo22khz st) (λ st', cv_rep st' (zero2, zeros8)).
Proof. intros (? & ?). unfold WebRtcSpl_ResetResample16khzTo22khz. reset_tac. Qed.
Lemma Reset22khzTo8khz_spec st : sized22to8 st →
  wp (WebRtcSpl_ResetResample22khzTo8khz st) (λ st', cv_rep st' (zero4, zero2, zeros8)).
Proof. intros (? & ? & ?). unfold WebRtcSpl_ResetResample22khzTo8khz. reset_tac. Qed.
Lemma Reset8khzTo22khz_spec st : sized8to22 st →
  wp (WebRtcSpl_ResetResample8khzTo22khz st) (λ st', cv_rep st' (zero2, zero2, zeros8)).
Proof. intros (? & ? & ?). unfold WebRtcSpl_ResetResample8khzTo22khz. reset_tac. Qed.

(** ** Streams *)

(** 8 to 22 kHz. After a reset, [n] calls on consecutive blocks of 80 samples
    write exactly 220 samples per call: the interpolation, 11/16 and
    interpolation filters of the whole signal started at zero, although every call
    works in two sub-blocks and the 11/16 filter overwrites the first input of a
    block with its last output. All other cells of the output are unchanged. *)
Theorem Resample8khzTo22khz_stream (n : nat) (inm : list Z) (ip : nat) (outm : list Z) (op : nat)
    (state : WebRtcSpl_State8khzTo22khz) (tmpmem : list Z) (x : nat → Z) :
  sized8to22 state → holds inm ip (80 * n) x → (op + 220 * n ≤ length outm)%nat →
  (98 ≤ length tmpmem)%nat →
  wp (state ← WebRtcSpl_ResetResample8khzTo22khz state;
      call_sequence WebRtcSpl_Resample8khzTo22khz 80 220 n inm ip outm op state tmpmem)
     (λ '(out, state', tmpmem'), wrote outm op (220 * n) (e8_out zero2 zero2 zeros8 x) out).
Proof.
  intros Hs Hx Ho Ht. apply wp_bind. wp_call (by apply Reset8khzTo22khz_spec). intros st0 H0.
  exact (split_calls_spec 2 n inm ip outm op st0 tmpmem _ x H0 Hx Ho Ht).
Qed.

Lemma Resample8khzTo22khz_stream_witness :
  let inm := map (λ i, 7 * Z.of_nat i mod 1000) (seq 0 160) in
  let st := {| S_8_16 := replicate 8 1; S_16_11 := replicate 8 2; S_11_22 := replicate 8 3 |} in
  wp (state ← WebRtcSpl_ResetResample8khzTo22khz st;
      call_sequence WebRtcSpl_Resample8khzTo22khz 80 220 2 inm 0 (replicate 440 0) 0 state
        (replicate 98 0))
     (λ '(out, state', tmpmem'),
       wrote (replicate 440 0) 0 (220 * 2) (e8_out zero2 zero2 zeros8 (λ i, inm !!! i)) out).
Proof.
  intros inm st. apply (Resample8khzTo22khz_stream 2 inm 0); [done| |by vm_compute; lia..].
  intros i Hi. apply lookup_total_Some. unfold inm. rewrite length_map, length_seq. lia.
Defined.

(** 22 to 16 kHz, in the same sense: five sub-blocks and 160 samples per block
    of 220, interpolation, 8/11 and decimation; and 22 to 8 kHz: two sub-blocks and
    80 samples per block of 220, low-pass, 8/11 and decimation. *)
Theorem Resample22khz_down_stream (n : nat) (inm : list Z) (ip : nat) (outm : list Z) (op : nat)
    (st16 : WebRtcSpl_State22khzTo16khz) (st8 : WebRtcSpl_State22khzTo8khz) (tmpmem : list Z)
    (x : nat → Z) :
  sized22to16 st16 → sized22to8 st8 → holds inm ip (220 * n) x →
  (op + 160 * n ≤ length outm)%nat → (126 ≤ length tmpmem)%nat →
  wp (state ← WebRtcSpl_ResetResample22khzTo16khz st16;
      call_sequence WebRtcSpl_Resample22khzTo16khz 220 160 n inm ip outm op state tmpmem)
     (λ '(out, state', tmpmem'), wrote outm op (160 * n) (d16_out zero2 zero2 zeros8 x) out) ∧
  wp (state ← WebRtcSpl_ResetResample22khzTo8khz st8;
      call_sequence WebRtcSpl_Resample22khzTo8khz 220 80 n inm ip outm op state tmpmem)
     (λ '(out, state', tmpmem'), wrote outm op (80 * n) (d8_out zero4 zero2 zeros8 x) out).
Proof.
  intros Hs16 Hs8 Hx Ho Ht. split; apply wp_bind.
  - wp_call (by apply Reset22khzTo16khz_spec). intros st0 H0.
    refine (split_calls_spec 5 n inm ip outm op st0 tmpmem _ x H0 Hx Ho _). cbn. lia.
  - wp_call (by apply Reset22khzTo8khz_spec). intros st0 H0.
    refine (split_calls_spec 2 n inm ip outm op st0 tmpmem _ x H0 Hx _ Ht). cbn. lia.
Qed.

Lemma Resample22khz_down_stream_witness :
  let inm := map (λ i, 7 * Z.of_nat i mod 1000) (seq 0 220) in
  let s16 := {| S_22_44 := replicate 8 1; S_44_32 := replicate 8 2; S_32_16 := replicate 8 3 |} in
  let s8 := {| S_22_22 := replicate 16 1; S_22_16 := replicate 8 2; S_16_8 := replicate 8 3 |} in
  wp (state ← WebRtcSpl_ResetResample22khzTo16khz s16;
      call_sequence WebRtcSpl_Resample22khzTo16khz 220 160 1 inm 0 (replicate 160 0) 0 state
        (replicate 126 0))
     (λ '(out, state', tmpmem'),
       wrote (replicate 160 0) 0 (160 * 1) (d16_out zero2 zero2 zeros8 (λ i, inm !!! i)) out) ∧
  wp (state ← WebRtcSpl_ResetResample22khzTo8khz s8;
      call_sequence WebRtcSpl_Resample22khzTo8khz 220 80 1 inm 0 (replicate 160 0) 0 state
        (replicate 126 0))
     (λ '(out, state', tmpmem'),
       wrote (replicate 160 0) 0 (80 * 1) (d8_out zero4 zero2 zeros8 (λ i, inm !!! i)) out).
Proof.
  intros inm s16 s8.
  apply (Resample22khz_down_stream 1 inm 0 (replicate 160 0) 0 s16 s8 (replicate 126 0)
           (λ i, inm !!! i)); [done|done| |by vm_compute; lia..].
  intros i Hi. apply lookup_total_Some. unfold inm. rewrite length_map, length_seq. lia.
Defined.

(** The same for 16 to 22 kHz: four sub-blocks and 220 samples per block of 160. *)
Lemma Resample16khzTo22khz_stream (n : nat) (inm : list Z) (ip : nat) (outm : list Z) (op : nat)
    (state : WebRtcSpl_State16khzTo22khz) (tmpmem : list Z) (x : nat → Z) :
  sized16to22 state → holds inm ip (160 * n) x → (op + 220 * n ≤ length outm)%nat →
  (88 ≤ length tmpmem)%nat →
  wp (state ← WebRtcSpl_ResetResample16khzTo22khz state;
      call_sequence WebRtcSpl_Resample16khzTo22khz 160 220 n inm ip outm op state tmpmem)
     (λ '(out, state', tmpmem'), wrote outm op (220 * n) (e16_out zero2 zeros8 x) out).
Proof.
  intros Hs Hx Ho Ht. apply wp_bind. wp_call (by apply Reset16khzTo22khz_spec). intros st0 H0.
  exact (split_calls_spec 4 n inm ip outm op st0 tmpmem _ x H0 Hx Ho Ht).
Qed.

End Resample22.
