(* ===== verification/SampleBy2.v ===== *)
(** * Decimation and interpolation by two on 16-bit samples
    (common_audio/signal_processing/resample_by_2.c)

    The generic C version of the two filters of the public interface. The
    multiply-accumulate step works on the two halves of a 32-bit word; the
    theorem [MUL_ACCUM_exact] shows that it is an exact floor of the 48-bit
    product. Both filters are verified against the all-pass recurrences on the
    whole signal, so that a signal may be cut into blocks anywhere. *)

From S2P Require Import Prelude SplInl ResampleBy2 Resample48.
Import SplInl ResampleBy2 Resample48.

Module SampleBy2.

Definition kAllpass1 : Z * Z * Z := (3284, 24441, 49528).
Definition kAllpass2 : Z * Z * Z := (12199, 37471, 60255).

(** WEBRTC_SPL_SCALEDIFF32(A, B, C): the first product is an int, the second an
    unsigned 32-bit word, and so is the sum of all three terms. *)
Definition MUL_ACCUM (a b c : Z) : Z :=
  s32 (u32 (u32 (c +i (b >>i 16) *i a) + Z.shiftr (u32 (Z.land b 0x0000FFFF * a)) 16)).

(** One all-pass branch on its four state words; the fourth is the output. *)
Definition branch (k : Z * Z * Z) (in32 : Z) (q : quad) : quad :=
  let '(k0, k1, k2) := k in
  let '(s0, s1, s2, s3) := q in
  let diff := in32 -i s1 in
  let tmp1 := MUL_ACCUM k0 diff s0 in
  let s0 := in32 in
  let diff := tmp1 -i s2 in
  let tmp2 := MUL_ACCUM k1 diff s1 in
  let s1 := tmp1 in
  let diff := tmp2 -i s3 in
  let s3 := MUL_ACCUM k2 diff s2 in
  let s2 := tmp2 in
  (s0, s1, s2, s3).

(** The input sample in Q10. *)
Definition to_q10 (x : Z) : Z := x *i (1 <<i 10).

Definition WebRtcSpl_DownsampleBy2 (inm : list Z) (ip len : nat) (outm : list Z) (op : nat)
    (filtState : list Z) : option (list Z * list Z) :=
  lo ← get4 filtState 0;
  hi ← get4 filtState 4;
  '(outm, lo, hi) ← for_loop (len / 2) 0 (λ i '(outm, lo, hi),
    x ← inm !! (ip + 2 * i)%nat;
    let lo := branch kAllpass2 (to_q10 x) lo in
    y ← inm !! (ip + 2 * i + 1)%nat;
    let hi := branch kAllpass1 (to_q10 y) hi in
    let out32 := (lo.2 +i hi.2 +i 1024) >>i 11 in
    outm ← wr outm (op + i) (WebRtcSpl_SatW32ToW16 out32);
    Some (outm, lo, hi)) (outm, lo, hi);
  filtState ← set4 filtState 0 lo;
  filtState ← set4 filtState 4 hi;
  Some (outm, filtState).

Definition WebRtcSpl_UpsampleBy2 (inm : list Z) (ip len : nat) (outm : list Z) (op : nat)
    (filtState : list Z) : option (list Z * list Z) :=
  lo ← get4 filtState 0;
  hi ← get4 filtState 4;
  '(outm, lo, hi) ← for_loop len 0 (λ i '(outm, lo, hi),
    x ← inm !! (ip + i)%nat;
    let in32 := to_q10 x in
    let lo := branch kAllpass1 in32 lo in
    outm ← wr outm (op + 2 * i) (WebRtcSpl_SatW32ToW16 ((lo.2 +i 512) >>i 10));
    let hi := branch kAllpass2 in32 hi in
    outm ← wr outm (op + 2 * i + 1) (WebRtcSpl_SatW32ToW16 ((hi.2 +i 512) >>i 10));
    Some (outm, lo, hi)) (outm, lo, hi);
  filtState ← set4 filtState 0 lo;
  filtState ← set4 filtState 4 hi;
  Some (outm, filtState).

(** ** The multiply-accumulate step *)

Lemma s32_u32 z : s32 (u32 z) = s32 z.
Proof. unfold s32, u32. Z.to_euclidean_division_equations; lia. Qed.

(** The split product is exact. For a 16-bit coefficient [a] and a 32-bit
    difference [b], accumulating the products of the high and of the low half of
    [b] gives [c] plus the floor of the full product divided by 2^16, reduced to
    32 bits. *)
Theorem MUL_ACCUM_exact (a b c : Z) :
  0 ≤ a ≤ 65535 → int32 b → MUL_ACCUM a b c = s32 (c + b * a / 65536).
Proof.
  intros Ha Hb. unfold MUL_ACCUM. rewrite s32_u32.
  change 0x0000FFFF with (Z.ones 16). rewrite Z.land_ones, !Z.shiftr_div_pow2 by lia.
  change (2 ^ 16) with 65536.
  assert (Hm : 0 ≤ b mod 65536 < 65536) by (apply Z.mod_pos_bound; lia).
  rewrite (u32_id (b mod 65536 * a)) by (cranges; nia).
  assert (b * a / 65536 = b / 65536 * a + b mod 65536 * a / 65536) as ->.
  { rewrite (Z.div_mod b 65536) at 1 by lia.
    replace ((65536 * (b / 65536) + b mod 65536) * a)
      with (b / 65536 * a * 65536 + b mod 65536 * a) by ring.
    by rewrite Z.div_add_l by lia. }
  set (p := b / 65536 * a). set (r := b mod 65536 * a / 65536). clearbody p r.
  unfold s32, u32. Z.to_euclidean_division_equations; lia.
Qed.

Lemma MUL_ACCUM_exact_witness :
  MUL_ACCUM 60255 (-2147483648) 5 = s32 (5 + -2147483648 * 60255 / 65536).
Proof. apply (MUL_ACCUM_exact 60255 (-2147483648) 5); unfold int32; lia. Defined.

(** ** The filters on signals *)

Fixpoint branch_state (k : Z * Z * Z) (q : quad) (x : nat → Z) (n : nat) : quad :=
  match n with
  | O => q
  | S n => branch k (to_q10 (x n)) (branch_state k q x n)
  end.

(** Output [n] of the branch. *)
Definition branch_out (k : Z * Z * Z) (q : quad) (x : nat → Z) (n : nat) : Z :=
  (branch_state k q x (S n)).2.

Definition sat (z : Z) : Z := clamp (-32768) 32767 z.

Definition down2 (q : quad * quad) (x : nat → Z) (i : nat) : Z :=
  sat ((branch_out kAllpass2 q.1 (evens x) i +i branch_out kAllpass1 q.2 (odds x) i +i 1024)
       >>i 11).
Definition down2_mem (q : quad * quad) (x : nat → Z) (n : nat) : quad * quad :=
  (branch_state kAllpass2 q.1 (evens x) n, branch_state kAllpass1 q.2 (odds x) n).

Definition up2 (q : quad * quad) (x : nat → Z) : nat → Z :=
  interleave (λ i, sat ((branch_out kAllpass1 q.1 x i +i 512) >>i 10))
             (λ i, sat ((branch_out kAllpass2 q.2 x i +i 512) >>i 10)).
Definition up2_mem (q : quad * quad) (x : nat → Z) (n : nat) : quad * quad :=
  (branch_state kAllpass1 q.1 x n, branch_state kAllpass2 q.2 x n).

Lemma store_branches st lo hi :
  length st = 8%nat →
  wp (st ← set4 st 0 lo; set4 st 4 hi) (λ st', mem2 st' (lo, hi)).
Proof.
  intros Hl. destruct lo as [[[a b] c] d], hi as [[[e f] g] h].
  do 8 (destruct st as [|? st]; [done|]). destruct st; [|done]. by split_and!.
Qed.

Lemma DownsampleBy2_spec inm ip n outm op st q x :
  mem2 st q → holds inm ip (2 * (n / 2)) x → (op + n / 2 ≤ length outm)%nat →
  wp (WebRtcSpl_DownsampleBy2 inm ip n outm op st) (λ '(m, st'),
    wrote outm op (n / 2) (down2 q x) m ∧ mem2 st' (down2_mem q x (n / 2))).
Proof.
  intros (Hl & Hq0 & Hq4) Hx Ho. unfold WebRtcSpl_DownsampleBy2.
  rewrite Hq0, Hq4. apply wp_bind, wp_ret, wp_bind, wp_ret. apply wp_bind.
  apply (wp_for (λ i '(m, lo, hi), wrote outm op i (down2 q x) m ∧
    lo = branch_state kAllpass2 q.1 (evens x) i ∧ hi = branch_state kAllpass1 q.2 (odds x) i)).
  - split; [apply wrote_nil|done].
  - intros i [[m lo] hi] Hi (Hw & -> & ->).
    rewrite (Hx (2 * i)%nat) by lia. apply wp_bind, wp_ret.
    rewrite <- Nat.add_assoc, (Hx (2 * i + 1)%nat) by lia. apply wp_bind, wp_ret. cbv zeta.
    apply wp_bind, (wp_wrote_snoc outm op i (down2 q x)); [done|lia| |].
    { by rewrite SatW32ToW16_clamp. }
    intros m' Hw'. apply wp_ret. by split.
  - intros [[m lo] hi] (Hw & -> & ->). cbn [Nat.add].
    assert (Hs := store_branches st (branch_state kAllpass2 q.1 (evens x) (n / 2))
      (branch_state kAllpass1 q.2 (odds x) (n / 2)) Hl).
    apply wp_exists in Hs as (st' & Hrun & Hm).
    destruct (set4 st 0 _) as [st1|]; [|done]. cbn [mbind option_bind] in *. rewrite Hrun.
    by split.
Qed.

Lemma UpsampleBy2_spec inm ip n outm op st q x :
  mem2 st q → holds inm ip n x → (op + 2 * n ≤ length outm)%nat →
  wp (WebRtcSpl_UpsampleBy2 inm ip n outm op st) (λ '(m, st'),
    wrote outm op (2 * n) (up2 q x) m ∧ mem2 st' (up2_mem q x n)).
Proof.
  intros (Hl & Hq0 & Hq4) Hx Ho. unfold WebRtcSpl_UpsampleBy2.
  rewrite Hq0, Hq4. apply wp_bind, wp_ret, wp_bind, wp_ret. apply wp_bind.
  apply (wp_for (λ i '(m, lo, hi), wrote outm op (2 * i) (up2 q x) m ∧
    lo = branch_state kAllpass1 q.1 x i ∧ hi = branch_state kAllpass2 q.2 x i)).
  - split; [apply wrote_nil|done].
  - intros i [[m lo] hi] Hi (Hw & -> & ->).
    rewrite (Hx i) by lia. apply wp_bind, wp_ret. cbv zeta.
    apply wp_bind, (wp_wrote_snoc outm op (2 * i) (up2 q x)); [done|lia| |].
    { unfold up2. by rewrite interleave_even, SatW32ToW16_clamp. }
    intros m1 Hw1. replace (op + 2 * i + 1)%nat with (op + S (2 * i))%nat by lia.
    apply wp_bind, (wp_wrote_snoc outm op (S (2 * i)) (up2 q x)); [done|lia| |].
    { unfold up2. replace (S (2 * i)) with (2 * i + 1)%nat by lia.
      by rewrite interleave_odd, SatW32ToW16_clamp. }
    intros m2 Hw2. apply wp_ret. replace (2 * S i)%nat with (S (S (2 * i))) by lia. by split.
  - intros [[m lo] hi] (Hw & -> & ->). cbn [Nat.add].
    assert (Hs := store_branches st (branch_state kAllpass1 q.1 x n)
      (branch_state kAllpass2 q.2 x n) Hl).
    apply wp_exists in Hs as (st' & Hrun & Hm).
    destruct (set4 st 0 _) as [st1|]; [|done]. cbn [mbind option_bind] in *. rewrite Hrun.
    by split.
Qed.

(** ** Cutting a signal into blocks *)

Lemma branch_state_ext k q x x' n :
  (∀ i, (i < n)%nat → x i = x' i) → branch_state k q x n = branch_state k q x' n.
Proof. induction n as [|n IH]; intros H; cbn [branch_state]; [done|]. rewrite IH, H by auto. done. Qed.

Lemma branch_state_shift k q x y n i :
  (∀ i, y i = x (n + i)%nat) →
  branch_state k (branch_state k q x n) y i = branch_state k q x (n + i).
Proof.
  intros E. induction i as [|i IH]; cbn [branch_state]; [by rewrite Nat.add_0_r|].
  by rewrite Nat.add_succ_r, IH, E.
Qed.

Lemma branch_out_shift k q x y n i :
  (∀ i, y i = x (n + i)%nat) →
  branch_out k (branch_state k q x n) y i = branch_out k q x (n + i).
Proof. intros E. unfold branch_out. by rewrite branch_state_shift, Nat.add_succ_r. Qed.

Lemma down2_shift q x n i :
  down2 (down2_mem q x n) (from x (2 * n)) i = down2 q x (n + i).
Proof.
  unfold down2, down2_mem. cbn [fst snd].
  rewrite !(branch_out_shift _ _ _ _ n); [done|apply odds_from|apply evens_from].
Qed.

Lemma up2_shift q x n i : up2 (up2_mem q x n) (from x n) i = up2 q x (2 * n + i).
Proof.
  apply interleave_from; intros j; cbn [up2_mem fst snd]; by rewrite (branch_out_shift _ _ x _ n).
Qed.

Lemma down2_mem_shift q x n i : down2_mem (down2_mem q x n) (from x (2 * n)) i = down2_mem q x (n + i).
Proof.
  unfold down2_mem. cbn [fst snd].
  rewrite !(branch_state_shift _ _ _ _ n); [done|apply odds_from|apply evens_from].
Qed.

Lemma up2_mem_shift q x n i : up2_mem (up2_mem q x n) (from x n) i = up2_mem q x (n + i).
Proof. unfold up2_mem. cbn [fst snd]. by rewrite !(branch_state_shift _ _ x _ n). Qed.

Lemma holds_from_block inm ip n1 n2 x :
  holds inm ip (n1 + n2) x → holds inm (ip + n1) n2 (from x n1).
Proof. intros H i Hi. rewrite <- Nat.add_assoc. apply H. lia. Qed.

(** Blocks of any length. Interpolating [n1] samples and then the next [n2]
    with the state the first call left writes the same samples, and leaves the
    same state, as the filter of all of them at once; and so does decimating
    [2*n1] and then [2*n2] samples. *)
Theorem SampleBy2_split (n1 n2 : nat) (inm : list Z) (ip : nat) (outm : list Z) (op : nat)
    (st : list Z) (q : quad * quad) (x : nat → Z) :
  mem2 st q → holds inm ip (2 * (n1 + n2)) x → (op + 2 * (n1 + n2) ≤ length outm)%nat →
  wp ('(m, st1) ← WebRtcSpl_UpsampleBy2 inm ip n1 outm op st;
      WebRtcSpl_UpsampleBy2 inm (ip + n1) n2 m (op + 2 * n1) st1)
     (λ '(m, st'), wrote outm op (2 * (n1 + n2)) (up2 q x) m ∧ mem2 st' (up2_mem q x (n1 + n2))) ∧
  wp ('(m, st1) ← WebRtcSpl_DownsampleBy2 inm ip (2 * n1) outm op st;
      WebRtcSpl_DownsampleBy2 inm (ip + 2 * n1) (2 * n2) m (op + n1) st1)
     (λ '(m, st'), wrote outm op (n1 + n2) (down2 q x) m ∧ mem2 st' (down2_mem q x (n1 + n2))).
Proof.
  intros Hq Hx Ho. split; apply wp_bind.
  - wp_call (apply (UpsampleBy2_spec inm ip n1 outm op st q x); [done|intros i ?; apply Hx; lia|lia]).
    intros [m st1] [W1 M1]. pose proof (wrote_length _ _ _ _ _ W1).
    wp_call (apply (UpsampleBy2_spec inm (ip + n1) n2 m _ st1 (up2_mem q x n1) (from x n1)); [done| |lia]).
    { apply holds_from_block. intros i ?. apply Hx. lia. }
    intros [m' st'] [W2 M2]. rewrite up2_mem_shift in M2. split; [|done].
    rewrite Nat.mul_add_distr_l. eapply wrote_block; [done..|]. intros i _. apply up2_shift.
  - wp_call (apply (DownsampleBy2_spec inm ip (2 * n1) outm op st q x); rewrite ?half_double;
      [done|intros i ?; apply Hx; lia|lia]).
    intros [m st1] [W1 M1]. rewrite half_double in *. pose proof (wrote_length _ _ _ _ _ W1).
    wp_call (apply (DownsampleBy2_spec inm (ip + 2 * n1) (2 * n2) m _ st1 (down2_mem q x n1) (from x (2 * n1)));
      rewrite ?half_double; [done| |lia]).
    { apply holds_from_block. intros i ?. apply Hx. lia. }
    intros [m' st'] [W2 M2]. rewrite half_double in *. rewrite down2_mem_shift in M2.
    split; [|done]. eapply wrote_block; [done..|]. intros i _. apply down2_shift.
Qed.

Lemma SampleBy2_split_witness :
  let inm := [1; -2; 300; 4; 5; -600] in
  let q := ((0, 0, 0, 0), (0, 0, 0, 0)) in
  wp ('(m, st1) ← WebRtcSpl_UpsampleBy2 inm 0 1 (replicate 6 7) 0 (replicate 8 0);
      WebRtcSpl_UpsampleBy2 inm (0 + 1) 2 m (0 + 2 * 1) st1)
     (λ '(m, st'), wrote (replicate 6 7) 0 (2 * (1 + 2)) (up2 q (λ i, inm !!! i)) m ∧
        mem2 st' (up2_mem q (λ i, inm !!! i) (1 + 2))) ∧
  wp ('(m, st1) ← WebRtcSpl_DownsampleBy2 inm 0 (2 * 1) (replicate 6 7) 0 (replicate 8 0);
      WebRtcSpl_DownsampleBy2 inm (0 + 2 * 1) (2 * 2) m (0 + 1) st1)
     (λ '(m, st'), wrote (replicate 6 7) 0 (1 + 2) (down2 q (λ i, inm !!! i)) m ∧
        mem2 st' (down2_mem q (λ i, inm !!! i) (1 + 2))).
Proof.
  intros inm q. apply (SampleBy2_split 1 2 inm 0 (replicate 6 7) 0 (replicate 8 0) q
                         (λ i, inm !!! i)); [done| |by vm_compute; lia].
  intros i Hi. apply lookup_total_Some. vm_compute in Hi |- *. lia.
Defined.

Lemma down2_int16 q x i : int16 (down2 q x i).
Proof. unfold down2, sat, clamp, int16. lia. Qed.
Lemma up2_int16 q x i : int16 (up2 q x i).
Proof. unfold up2, interleave, sat, clamp, int16. destruct (Nat.even i); lia. Qed.

End SampleBy2.
