(* ===== verification/Resampler.v ===== *)
(** * The resampler object
    (common_audio/resampler/resampler.cc, include/resampler.h)

    The class that selects a conversion from the ratio of two sampling rates,
    keeps the filter states the conversion needs, and chains the converters of
    resample_by_2.c, resample_48khz.c and resample.c block by block. A stereo
    object owns two mono objects and splits the signal between them.

    The untyped state pointers are blocks that remember what they were allocated
    as; using one as another type is undefined. Memory obtained from malloc has
    arbitrary contents ([junk]); allocations succeed. Lengths are natural
    numbers: products of a buffer length with a ratio stay far below the range
    of size_t. *)

From S2P Require Import Prelude SplInl ResampleBy2 ResampleFrac Resample48 Resample22 SampleBy2.
Import ResampleBy2 Resample48 SampleBy2.

Module Resampler.

Inductive ResamplerMode :=
  | kResamplerMode1To1 | kResamplerMode1To2 | kResamplerMode1To3 | kResamplerMode1To4
  | kResamplerMode1To6 | kResamplerMode1To12 | kResamplerMode2To3 | kResamplerMode2To11
  | kResamplerMode4To11 | kResamplerMode8To11 | kResamplerMode11To16 | kResamplerMode11To32
  | kResamplerMode2To1 | kResamplerMode3To1 | kResamplerMode4To1 | kResamplerMode6To1
  | kResamplerMode12To1 | kResamplerMode3To2 | kResamplerMode11To2 | kResamplerMode11To4
  | kResamplerMode11To8.

#[export] Instance ResamplerMode_eq_dec : EqDecision ResamplerMode.
Proof. solve_decision. Defined.

(** What [state1_], [state2_] and [state3_] point to. *)
Inductive StateBlock :=
  | Words (l : list Z) (* int32_t[8] *)
  | B16To48 (s : WebRtcSpl_State16khzTo48khz)
  | B48To16 (s : WebRtcSpl_State48khzTo16khz)
  | B8To22 (s : Resample22.WebRtcSpl_State8khzTo22khz)
  | B16To22 (s : Resample22.WebRtcSpl_State16khzTo22khz)
  | B22To16 (s : Resample22.WebRtcSpl_State22khzTo16khz)
  | B22To8 (s : Resample22.WebRtcSpl_State22khzTo8khz).

Definition states : Type := option StateBlock * option StateBlock * option StateBlock.

(** The buffers [in_buffer_] and [out_buffer_] and their sizes are only ever
    reset to null and zero; they are not kept. *)
Record Core := mkCore {
  states_ : states;
  my_in_frequency_khz_ : Z;
  my_out_frequency_khz_ : Z;
  my_mode_ : ResamplerMode;
  num_channels_ : Z;
}.

#[warnings="-register-all"]
Inductive Resampler := mkResampler (core : Core) (helper_left_ helper_right_ : option Resampler).

Definition core_of (r : Resampler) : Core := let '(mkResampler c _ _) := r in c.

(** The default constructor. *)
Definition Resampler_default : Resampler :=
  mkResampler (mkCore (None, None, None) 0 0 kResamplerMode1To1 0) None None.

(** ** The mode *)

Definition rem32 (a b : Z) : option Z :=
  if (b =? 0) || ((a =? -2147483648) && (b =? -1)) then None else Some (Z.rem a b).

(** [while (c != 0) { a = b; b = c; c = a % b; }], returning [b]. *)
Fixpoint euclid (fuel : nat) (b c : Z) : option Z :=
  if c =? 0 then Some b
  else match fuel with
       | O => None
       | S fuel => r ← rem32 b c; euclid fuel c r
       end.

(** The mode stored through the pointer, or [None] with the result -1. *)
Definition mode_of_ratio (reduced_in_freq reduced_out_freq : Z) : option ResamplerMode :=
  if reduced_in_freq =? reduced_out_freq then Some kResamplerMode1To1
  else if reduced_in_freq =? 1 then
    (if reduced_out_freq =? 2 then Some kResamplerMode1To2
     else if reduced_out_freq =? 3 then Some kResamplerMode1To3
     else if reduced_out_freq =? 4 then Some kResamplerMode1To4
     else if reduced_out_freq =? 6 then Some kResamplerMode1To6
     else if reduced_out_freq =? 12 then Some kResamplerMode1To12
     else None)
  else if reduced_out_freq =? 1 then
    (if reduced_in_freq =? 2 then Some kResamplerMode2To1
     else if reduced_in_freq =? 3 then Some kResamplerMode3To1
     else if reduced_in_freq =? 4 then Some kResamplerMode4To1
     else if reduced_in_freq =? 6 then Some kResamplerMode6To1
     else if reduced_in_freq =? 12 then Some kResamplerMode12To1
     else None)
  else if (reduced_in_freq =? 2) && (reduced_out_freq =? 3) then Some kResamplerMode2To3
  else if (reduced_in_freq =? 2) && (reduced_out_freq =? 11) then Some kResamplerMode2To11
  else if (reduced_in_freq =? 4) && (reduced_out_freq =? 11) then Some kResamplerMode4To11
  else if (reduced_in_freq =? 8) && (reduced_out_freq =? 11) then Some kResamplerMode8To11
  else if (reduced_in_freq =? 3) && (reduced_out_freq =? 2) then Some kResamplerMode3To2
  else if (reduced_in_freq =? 11) && (reduced_out_freq =? 2) then Some kResamplerMode11To2
  else if (reduced_in_freq =? 11) && (reduced_out_freq =? 4) then Some kResamplerMode11To4
  else if (reduced_in_freq =? 11) && (reduced_out_freq =? 16) then Some kResamplerMode11To16
  else if (reduced_in_freq =? 11) && (reduced_out_freq =? 32) then Some kResamplerMode11To32
  else if (reduced_in_freq =? 11) && (reduced_out_freq =? 8) then Some kResamplerMode11To8
  else None.

Definition ComputeResamplerMode (in_freq_hz out_freq_hz : Z) : option (option ResamplerMode) :=
  c ← rem32 in_freq_hz out_freq_hz;
  b ← euclid (S (Z.to_nat (Z.abs c))) out_freq_hz c;
  reduced_in_freq ← div32 in_freq_hz b;
  reduced_out_freq ← div32 out_freq_hz b;
  Some (mode_of_ratio reduced_in_freq reduced_out_freq).

(** ** Reset *)

Section reset.
Context (junk : nat → Z).

(** The words of a fresh allocation. *)
Definition alloc (n : nat) : list Z := map junk (seq 0 n).

Definition words8 : option StateBlock :=
  match memset (alloc 8) 0 0 8 with Some l => Some (Words l) | None => None end.

Definition new_16To48 : option StateBlock :=
  match WebRtcSpl_ResetResample16khzTo48khz
          {| S_16_32 := alloc 8; S_32_24 := alloc 8; S_24_48 := alloc 8 |} with
  | Some s => Some (B16To48 s) | None => None end.
Definition new_48To16 : option StateBlock :=
  match WebRtcSpl_ResetResample48khzTo16khz
          {| S_48_48 := alloc 16; S_48_32 := alloc 8; S_32_16 := alloc 8 |} with
  | Some s => Some (B48To16 s) | None => None end.
Definition new_8To22 : option StateBlock :=
  match Resample22.WebRtcSpl_ResetResample8khzTo22khz
          {| Resample22.S_8_16 := alloc 8; Resample22.S_16_11 := alloc 8;
             Resample22.S_11_22 := alloc 8 |} with
  | Some s => Some (B8To22 s) | None => None end.
Definition new_16To22 : option StateBlock :=
  match Resample22.WebRtcSpl_ResetResample16khzTo22khz
          {| Resample22.S_16_32 := alloc 8; Resample22.S_32_22 := alloc 8 |} with
  | Some s => Some (B16To22 s) | None => None end.
Definition new_22To16 : option StateBlock :=
  match Resample22.WebRtcSpl_ResetResample22khzTo16khz
          {| Resample22.S_22_44 := alloc 8; Resample22.S_44_32 := alloc 8;
             Resample22.S_32_16 := alloc 8 |} with
  | Some s => Some (B22To16 s) | None => None end.
Definition new_22To8 : option StateBlock :=
  match Resample22.WebRtcSpl_ResetResample22khzTo8khz
          {| Resample22.S_22_22 := alloc 16; Resample22.S_22_16 := alloc 8;
             Resample22.S_16_8 := alloc 8 |} with
  | Some s => Some (B22To8 s) | None => None end.

(** The states of a mode; [None] in a slot is the null pointer. *)
Definition create_states (mode : ResamplerMode) : states :=
  match mode with
  | kResamplerMode1To1 => (None, None, None)
  | kResamplerMode1To2 => (words8, None, None)
  | kResamplerMode1To3 => (new_16To48, None, None)
  | kResamplerMode1To4 => (words8, words8, None)
  | kResamplerMode1To6 => (words8, new_16To48, None)
  | kResamplerMode1To12 => (words8, words8, new_16To48)
  | kResamplerMode2To3 => (new_16To48, words8, None)
  | kResamplerMode2To11 => (words8, new_8To22, None)
  | kResamplerMode4To11 => (new_8To22, None, None)
  | kResamplerMode8To11 => (new_16To22, None, None)
  | kResamplerMode11To16 => (words8, new_22To16, None)
  | kResamplerMode11To32 => (words8, new_22To16, words8)
  | kResamplerMode2To1 => (words8, None, None)
  | kResamplerMode3To1 => (new_48To16, None, None)
  | kResamplerMode4To1 => (words8, words8, None)
  | kResamplerMode6To1 => (new_48To16, words8, None)
  | kResamplerMode12To1 => (new_48To16, words8, words8)
  | kResamplerMode3To2 => (words8, new_48To16, None)
  | kResamplerMode11To2 => (new_22To8, words8, None)
  | kResamplerMode11To4 => (new_22To8, None, None)
  | kResamplerMode11To8 => (new_22To16, None, None)
  end.

(** Reset with the constructor of the helper objects as a parameter. *)
Definition Reset_with (new_helper : option Resampler) (self : Resampler)
    (inFreq outFreq num_channels : Z) : option (Z * Resampler) :=
  if negb (num_channels =? 1) && negb (num_channels =? 2) then Some (-1, self)
  else
    m ← ComputeResamplerMode inFreq outFreq;
    match m with
    | None => Some (-1, self)
    | Some mode =>
        let helper := if num_channels =? 2 then new_helper else None in
        Some (0, mkResampler
          {| states_ := create_states mode;
             my_in_frequency_khz_ := Z.quot inFreq 1000;
             my_out_frequency_khz_ := Z.quot outFreq 1000;
             my_mode_ := mode;
             num_channels_ := num_channels |} helper helper)
    end.

(** [new Resampler(inFreq, outFreq, 1)] ignores the result of its Reset. *)
Definition new_mono (inFreq outFreq : Z) : option Resampler :=
  '(_, r) ← Reset_with None Resampler_default inFreq outFreq 1;
  Some r.

Definition Reset (self : Resampler) (inFreq outFreq num_channels : Z)
  : option (Z * Resampler) :=
  Reset_with (new_mono inFreq outFreq) self inFreq outFreq num_channels.

Definition ResetIfNeeded (self : Resampler) (inFreq outFreq num_channels : Z)
  : option (Z * Resampler) :=
  let tmpInFreq_kHz := Z.quot inFreq 1000 in
  let tmpOutFreq_kHz := Z.quot outFreq 1000 in
  if negb (tmpInFreq_kHz =? my_in_frequency_khz_ (core_of self))
     || negb (tmpOutFreq_kHz =? my_out_frequency_khz_ (core_of self))
     || negb (num_channels =? num_channels_ (core_of self))
  then Reset self inFreq outFreq num_channels
  else Some (0, self).
End reset.

(** ** Push *)

(** The casts of the state pointers. *)
Definition as_words (s : option StateBlock) : option (list Z) :=
  match s with Some (Words l) => Some l | _ => None end.
Definition as_16To48 (s : option StateBlock) : option WebRtcSpl_State16khzTo48khz :=
  match s with Some (B16To48 l) => Some l | _ => None end.
Definition as_48To16 (s : option StateBlock) : option WebRtcSpl_State48khzTo16khz :=
  match s with Some (B48To16 l) => Some l | _ => None end.
Definition as_8To22 (s : option StateBlock) : option Resample22.WebRtcSpl_State8khzTo22khz :=
  match s with Some (B8To22 l) => Some l | _ => None end.
Definition as_16To22 (s : option StateBlock) : option Resample22.WebRtcSpl_State16khzTo22khz :=
  match s with Some (B16To22 l) => Some l | _ => None end.
Definition as_22To16 (s : option StateBlock) : option Resample22.WebRtcSpl_State22khzTo16khz :=
  match s with Some (B22To16 l) => Some l | _ => None end.
Definition as_22To8 (s : option StateBlock) : option Resample22.WebRtcSpl_State22khzTo8khz :=
  match s with Some (B22To8 l) => Some l | _ => None end.

(** The two by-2 filters on a state pointer: input, length, output. *)
Definition UpsampleBy2 (inm : list Z) (len : nat) (outm : list Z) (s : option StateBlock)
  : option (list Z * option StateBlock) :=
  w ← as_words s;
  '(outm, w) ← WebRtcSpl_UpsampleBy2 inm 0 len outm 0 w;
  Some (outm, Some (Words w)).
Definition DownsampleBy2 (inm : list Z) (len : nat) (outm : list Z) (s : option StateBlock)
  : option (list Z * option StateBlock) :=
  w ← as_words s;
  '(outm, w) ← WebRtcSpl_DownsampleBy2 inm 0 len outm 0 w;
  Some (outm, Some (Words w)).

(** [for (size_t i = 0; i < len; i += step) run(in + i, out + dst(i), s, tmp_mem);] *)
Definition block_loop {St : Type}
    (run : list Z → nat → list Z → nat → St → list Z → option (list Z * St * list Z))
    (cast : option StateBlock → option St) (inject : St → StateBlock)
    (len step : nat) (dst : nat → nat) (inm outm : list Z) (s : option StateBlock)
    (tmp_mem : list Z) : option (list Z * option StateBlock) :=
  st ← cast s;
  '(outm, st, _) ← for_loop ((len + step - 1) / step) 0 (λ b '(outm, st, tmp_mem),
    let i := (b * step)%nat in
    run inm i outm (dst i) st tmp_mem) (outm, st, tmp_mem);
  Some (outm, Some (inject st)).

Definition Resample16khzTo48khz := block_loop WebRtcSpl_Resample16khzTo48khz as_16To48 B16To48.
Definition Resample48khzTo16khz := block_loop WebRtcSpl_Resample48khzTo16khz as_48To16 B48To16.
Definition Resample8khzTo22khz :=
  block_loop Resample22.WebRtcSpl_Resample8khzTo22khz as_8To22 B8To22.
Definition Resample16khzTo22khz :=
  block_loop Resample22.WebRtcSpl_Resample16khzTo22khz as_16To22 B16To22.
Definition Resample22khzTo16khz :=
  block_loop Resample22.WebRtcSpl_Resample22khzTo16khz as_22To16 B22To16.
Definition Resample22khzTo8khz :=
  block_loop Resample22.WebRtcSpl_Resample22khzTo8khz as_22To8 B22To8.

(** The result, the length stored through [outLen], the output memory and the
    states. *)
Definition pushed : Type := Z * nat * list Z * states.

Section push.
Context (junk : nat → Z).
Context (st : states) (samplesIn : list Z) (lengthIn : nat) (samplesOut : list Z)
  (maxLen outLen : nat).

Definition refused (st : states) : option pushed := Some (-1, outLen, samplesOut, st).

Definition push_1To1 : option pushed :=
  samplesOut ← memcpy samplesOut 0 samplesIn 0 lengthIn;
  Some (0, lengthIn, samplesOut, st).

Definition push_1To2 : option pushed :=
  let '(state1_, state2_, state3_) := st in
  if (maxLen <? lengthIn * 2)%nat then refused st
  else
    '(samplesOut, state1_) ← UpsampleBy2 samplesIn lengthIn samplesOut state1_;
    Some (0, (lengthIn * 2)%nat, samplesOut, (state1_, state2_, state3_)).

Definition push_1To3 : option pushed :=
  let '(state1_, state2_, state3_) := st in
  if negb (lengthIn mod 160 =? 0)%nat then refused st
  else if (maxLen <? lengthIn * 3)%nat then refused st
  else
    let tmp_mem := alloc junk 336 in
    '(samplesOut, state1_) ←
      Resample16khzTo48khz lengthIn 160 (λ i, (i * 3)%nat) samplesIn samplesOut state1_ tmp_mem;
    Some (0, (lengthIn * 3)%nat, samplesOut, (state1_, state2_, state3_)).

Definition push_1To4 : option pushed :=
  let '(state1_, state2_, state3_) := st in
  if (maxLen <? lengthIn * 4)%nat then refused st
  else
    let tmp := alloc junk (2 * lengthIn) in
    '(tmp, state1_) ← UpsampleBy2 samplesIn lengthIn tmp state1_;
    '(samplesOut, state2_) ← UpsampleBy2 tmp (lengthIn * 2) samplesOut state2_;
    Some (0, (lengthIn * 4)%nat, samplesOut, (state1_, state2_, state3_)).

Definition push_1To6 : option pushed :=
  let '(state1_, state2_, state3_) := st in
  if negb (lengthIn mod 80 =? 0)%nat then refused st
  else if (maxLen <? lengthIn * 6)%nat then refused st
  else
    let tmp_mem := alloc junk 336 in
    let tmp := alloc junk (2 * lengthIn) in
    '(tmp, state1_) ← UpsampleBy2 samplesIn lengthIn tmp state1_;
    let outLen := (lengthIn * 2)%nat in
    '(samplesOut, state2_) ←
      Resample16khzTo48khz outLen 160 (λ i, (i * 3)%nat) tmp samplesOut state2_ tmp_mem;
    Some (0, (outLen * 3)%nat, samplesOut, (state1_, state2_, state3_)).

Definition push_1To12 : option pushed :=
  let '(state1_, state2_, state3_) := st in
  if negb (lengthIn mod 40 =? 0)%nat then refused st
  else if (maxLen <? lengthIn * 12)%nat then refused st
  else
    let tmp_mem := alloc junk 336 in
    let tmp := alloc junk (4 * lengthIn) in
    '(samplesOut, state1_) ← UpsampleBy2 samplesIn lengthIn samplesOut state1_;
    let outLen := (lengthIn * 2)%nat in
    '(tmp, state2_) ← UpsampleBy2 samplesOut outLen tmp state2_;
    let outLen := (outLen * 2)%nat in
    '(samplesOut, state3_) ←
      Resample16khzTo48khz outLen 160 (λ i, (i * 3)%nat) tmp samplesOut state3_ tmp_mem;
    Some (0, (outLen * 3)%nat, samplesOut, (state1_, state2_, state3_)).

Definition push_2To3 : option pushed :=
  let '(state1_, state2_, state3_) := st in
  if (maxLen <? lengthIn * 3 / 2)%nat then refused st
  else if negb (lengthIn mod 160 =? 0)%nat then refused st
  else
    let tmp := alloc junk (lengthIn * 3) in
    let tmp_mem := alloc junk 336 in
    '(tmp, state1_) ←
      Resample16khzTo48khz lengthIn 160 (λ i, (i * 3)%nat) samplesIn tmp state1_ tmp_mem;
    let lengthIn := (lengthIn * 3)%nat in
    '(samplesOut, state2_) ← DownsampleBy2 tmp lengthIn samplesOut state2_;
    Some (0, (lengthIn / 2)%nat, samplesOut, (state1_, state2_, state3_)).

Definition push_2To11 : option pushed :=
  let '(state1_, state2_, state3_) := st in
  if negb (lengthIn mod 80 =? 0)%nat then refused st
  else if (maxLen <? lengthIn * 11 / 2)%nat then refused st
  else
    let tmp := alloc junk (2 * lengthIn) in
    '(tmp, state1_) ← UpsampleBy2 samplesIn lengthIn tmp state1_;
    let lengthIn := (lengthIn * 2)%nat in
    let tmp_mem := alloc junk 98 in
    '(samplesOut, state2_) ←
      Resample8khzTo22khz lengthIn 80 (λ i, (i * 11 / 4)%nat) tmp samplesOut state2_ tmp_mem;
    Some (0, (lengthIn * 11 / 4)%nat, samplesOut, (state1_, state2_, state3_)).

Definition push_4To11 : option pushed :=
  let '(state1_, state2_, state3_) := st in
  if negb (lengthIn mod 80 =? 0)%nat then refused st
  else if (maxLen <? lengthIn * 11 / 4)%nat then refused st
  else
    let tmp_mem := alloc junk 98 in
    '(samplesOut, state1_) ←
      Resample8khzTo22khz lengthIn 80 (λ i, (i * 11 / 4)%nat) samplesIn samplesOut state1_ tmp_mem;
    Some (0, (lengthIn * 11 / 4)%nat, samplesOut, (state1_, state2_, state3_)).

Definition push_8To11 : option pushed :=
  let '(state1_, state2_, state3_) := st in
  if negb (lengthIn mod 160 =? 0)%nat then refused st
  else if (maxLen <? lengthIn * 11 / 8)%nat then refused st
  else
    let tmp_mem := alloc junk 88 in
    '(samplesOut, state1_) ←
      Resample16khzTo22khz lengthIn 160 (λ i, (i * 11 / 8)%nat) samplesIn samplesOut state1_
        tmp_mem;
    Some (0, (lengthIn * 11 / 8)%nat, samplesOut, (state1_, state2_, state3_)).

Definition push_11To16 : option pushed :=
  let '(state1_, state2_, state3_) := st in
  if negb (lengthIn mod 110 =? 0)%nat then refused st
  else if (maxLen <? lengthIn * 16 / 11)%nat then refused st
  else
    let tmp_mem := alloc junk 104 in
    let tmp := alloc junk (lengthIn * 2) in
    '(tmp, state1_) ← UpsampleBy2 samplesIn lengthIn tmp state1_;
    '(samplesOut, state2_) ←
      Resample22khzTo16khz (lengthIn * 2) 220 (λ i, (i / 220 * 160)%nat) tmp samplesOut state2_
        tmp_mem;
    Some (0, (lengthIn * 16 / 11)%nat, samplesOut, (state1_, state2_, state3_)).

Definition push_11To32 : option pushed :=
  let '(state1_, state2_, state3_) := st in
  if negb (lengthIn mod 110 =? 0)%nat then refused st
  else if (maxLen <? lengthIn * 32 / 11)%nat then refused st
  else
    let tmp_mem := alloc junk 104 in
    let tmp := alloc junk (lengthIn * 2) in
    '(samplesOut, state1_) ← UpsampleBy2 samplesIn lengthIn samplesOut state1_;
    '(tmp, state2_) ←
      Resample22khzTo16khz (lengthIn * 2) 220 (λ i, (i / 220 * 160)%nat) samplesOut tmp state2_
        tmp_mem;
    '(samplesOut, state3_) ← UpsampleBy2 tmp (lengthIn * 16 / 11) samplesOut state3_;
    Some (0, (lengthIn * 32 / 11)%nat, samplesOut, (state1_, state2_, state3_)).

Definition push_2To1 : option pushed :=
  let '(state1_, state2_, state3_) := st in
  if (maxLen <? lengthIn / 2)%nat then refused st
  else
    '(samplesOut, state1_) ← DownsampleBy2 samplesIn lengthIn samplesOut state1_;
    Some (0, (lengthIn / 2)%nat, samplesOut, (state1_, state2_, state3_)).

Definition push_3To1 : option pushed :=
  let '(state1_, state2_, state3_) := st in
  if negb (lengthIn mod 480 =? 0)%nat then refused st
  else if (maxLen <? lengthIn / 3)%nat then refused st
  else
    let tmp_mem := alloc junk 496 in
    '(samplesOut, state1_) ←
      Resample48khzTo16khz lengthIn 480 (λ i, (i / 3)%nat) samplesIn samplesOut state1_ tmp_mem;
    Some (0, (lengthIn / 3)%nat, samplesOut, (state1_, state2_, state3_)).

Definition push_4To1 : option pushed :=
  let '(state1_, state2_, state3_) := st in
  if (maxLen <? lengthIn / 4)%nat then refused st
  else
    let tmp := alloc junk (lengthIn / 2) in
    '(tmp, state1_) ← DownsampleBy2 samplesIn lengthIn tmp state1_;
    '(samplesOut, state2_) ← DownsampleBy2 tmp (lengthIn / 2) samplesOut state2_;
    Some (0, (lengthIn / 4)%nat, samplesOut, (state1_, state2_, state3_)).

Definition push_6To1 : option pushed :=
  let '(state1_, state2_, state3_) := st in
  if negb (lengthIn mod 480 =? 0)%nat then refused st
  else if (maxLen <? lengthIn / 6)%nat then refused st
  else
    let tmp_mem := alloc junk 496 in
    let tmp := alloc junk (2 * lengthIn / 3 / 2) in
    '(tmp, state1_) ←
      Resample48khzTo16khz lengthIn 480 (λ i, (i / 3)%nat) samplesIn tmp state1_ tmp_mem;
    let outLen := (lengthIn / 3)%nat in
    '(samplesOut, state2_) ← DownsampleBy2 tmp outLen samplesOut state2_;
    Some (0, (outLen / 2)%nat, samplesOut, (state1_, state2_, state3_)).

Definition push_12To1 : option pushed :=
  let '(state1_, state2_, state3_) := st in
  if negb (lengthIn mod 480 =? 0)%nat then refused st
  else if (maxLen <? lengthIn / 12)%nat then refused st
  else
    let tmp_mem := alloc junk 496 in
    let tmp := alloc junk (2 * lengthIn / 3 / 2) in
    let tmp_2 := alloc junk (2 * lengthIn / 6 / 2) in
    '(tmp, state1_) ←
      Resample48khzTo16khz lengthIn 480 (λ i, (i / 3)%nat) samplesIn tmp state1_ tmp_mem;
    let outLen := (lengthIn / 3)%nat in
    '(tmp_2, state2_) ← DownsampleBy2 tmp outLen tmp_2 state2_;
    let outLen := (outLen / 2)%nat in
    '(samplesOut, state3_) ← DownsampleBy2 tmp_2 outLen samplesOut state3_;
    Some (0, (outLen / 2)%nat, samplesOut, (state1_, state2_, state3_)).

(** The block length is checked only after the first filter has run. *)
Definition push_3To2 : option pushed :=
  let '(state1_, state2_, state3_) := st in
  if (maxLen <? lengthIn * 2 / 3)%nat then refused st
  else
    let tmp := alloc junk (lengthIn * 2) in
    '(tmp, state1_) ← UpsampleBy2 samplesIn lengthIn tmp state1_;
    let lengthIn := (lengthIn * 2)%nat in
    if negb (lengthIn mod 480 =? 0)%nat then refused (state1_, state2_, state3_)
    else
      let tmp_mem := alloc junk 496 in
      '(samplesOut, state2_) ←
        Resample48khzTo16khz lengthIn 480 (λ i, (i / 3)%nat) tmp samplesOut state2_ tmp_mem;
      Some (0, (lengthIn / 3)%nat, samplesOut, (state1_, state2_, state3_)).

Definition push_11To2 : option pushed :=
  let '(state1_, state2_, state3_) := st in
  if negb (lengthIn mod 220 =? 0)%nat then refused st
  else if (maxLen <? lengthIn * 2 / 11)%nat then refused st
  else
    let tmp_mem := alloc junk 126 in
    let tmp := alloc junk (lengthIn * 4 / 11) in
    '(tmp, state1_) ←
      Resample22khzTo8khz lengthIn 220 (λ i, (i * 4 / 11)%nat) samplesIn tmp state1_ tmp_mem;
    let lengthIn := (lengthIn * 4 / 11)%nat in
    '(samplesOut, state2_) ← DownsampleBy2 tmp lengthIn samplesOut state2_;
    Some (0, (lengthIn / 2)%nat, samplesOut, (state1_, state2_, state3_)).

Definition push_11To4 : option pushed :=
  let '(state1_, state2_, state3_) := st in
  if negb (lengthIn mod 220 =? 0)%nat then refused st
  else if (maxLen <? lengthIn * 4 / 11)%nat then refused st
  else
    let tmp_mem := alloc junk 126 in
    '(samplesOut, state1_) ←
      Resample22khzTo8khz lengthIn 220 (λ i, (i * 4 / 11)%nat) samplesIn samplesOut state1_
        tmp_mem;
    Some (0, (lengthIn * 4 / 11)%nat, samplesOut, (state1_, state2_, state3_)).

Definition push_11To8 : option pushed :=
  let '(state1_, state2_, state3_) := st in
  if negb (lengthIn mod 220 =? 0)%nat then refused st
  else if (maxLen <? lengthIn * 8 / 11)%nat then refused st
  else
    let tmp_mem := alloc junk 104 in
    '(samplesOut, state1_) ←
      Resample22khzTo16khz lengthIn 220 (λ i, (i * 8 / 11)%nat) samplesIn samplesOut state1_
        tmp_mem;
    Some (0, (lengthIn * 8 / 11)%nat, samplesOut, (state1_, state2_, state3_)).

Definition push_mono (mode : ResamplerMode) : option pushed :=
  match mode with
  | kResamplerMode1To1 => push_1To1
  | kResamplerMode1To2 => push_1To2
  | kResamplerMode1To3 => push_1To3
  | kResamplerMode1To4 => push_1To4
  | kResamplerMode1To6 => push_1To6
  | kResamplerMode1To12 => push_1To12
  | kResamplerMode2To3 => push_2To3
  | kResamplerMode2To11 => push_2To11
  | kResamplerMode4To11 => push_4To11
  | kResamplerMode8To11 => push_8To11
  | kResamplerMode11To16 => push_11To16
  | kResamplerMode11To32 => push_11To32
  | kResamplerMode2To1 => push_2To1
  | kResamplerMode3To1 => push_3To1
  | kResamplerMode4To1 => push_4To1
  | kResamplerMode6To1 => push_6To1
  | kResamplerMode12To1 => push_12To1
  | kResamplerMode3To2 => push_3To2
  | kResamplerMode11To2 => push_11To2
  | kResamplerMode11To4 => push_11To4
  | kResamplerMode11To8 => push_11To8
  end.
End push.

Section stereo.
Context (junk : nat → Z).

(** De-interleaving: [for (i = 0; i < lengthIn; i += 2)]. *)
Definition split_channels (samplesIn : list Z) (lengthIn : nat) : option (list Z * list Z) :=
  let left_ := alloc junk (lengthIn / 2) in
  let right_ := alloc junk (lengthIn / 2) in
  for_loop ((lengthIn + 1) / 2) 0 (λ h '(left_, right_),
    a ← samplesIn !! (2 * h)%nat;
    left_ ← wr left_ h a;
    b ← samplesIn !! (2 * h + 1)%nat;
    right_ ← wr right_ h b;
    Some (left_, right_)) (left_, right_).

Definition join_channels (samplesOut out_left out_right : list Z) (n : nat) : option (list Z) :=
  for_loop n 0 (λ i samplesOut,
    a ← out_left !! i;
    samplesOut ← wr samplesOut (i * 2) a;
    b ← out_right !! i;
    wr samplesOut (i * 2 + 1) b) samplesOut.

(** The result, [outLen], the output memory and the object. *)
Fixpoint Push (self : Resampler) (samplesIn : list Z) (lengthIn : nat) (samplesOut : list Z)
    (maxLen outLen : nat) : option (Z * nat * list Z * Resampler) :=
  let '(mkResampler c helper_left_ helper_right_) := self in
  if num_channels_ c =? 2 then
    '(left_, right_) ← split_channels samplesIn lengthIn;
    let out_left := alloc junk (maxLen / 2) in
    let out_right := alloc junk (maxLen / 2) in
    let lengthIn := (lengthIn / 2)%nat in
    match helper_left_, helper_right_ with
    | Some helper_left_, Some helper_right_ =>
        '(res1, actualOutLen_left, out_left, helper_left_) ←
          Push helper_left_ left_ lengthIn out_left (maxLen / 2) 0;
        '(res2, actualOutLen_right, out_right, helper_right_) ←
          Push helper_right_ right_ lengthIn out_right (maxLen / 2) 0;
        let res := Z.lor (Z.lor 0 res1) res2 in
        let self := mkResampler c (Some helper_left_) (Some helper_right_) in
        if negb (res =? 0) || negb (actualOutLen_left =? actualOutLen_right)%nat
        then Some (-1, outLen, samplesOut, self)
        else
          samplesOut ← join_channels samplesOut out_left out_right actualOutLen_left;
          Some (0, (2 * actualOutLen_left)%nat, samplesOut, self)
    | _, _ => None
    end
  else
    '(res, outLen, samplesOut, st) ←
      push_mono junk (states_ c) samplesIn lengthIn samplesOut maxLen outLen (my_mode_ c);
    Some (res, outLen, samplesOut,
          mkResampler {| states_ := st; my_in_frequency_khz_ := my_in_frequency_khz_ c;
                         my_out_frequency_khz_ := my_out_frequency_khz_ c;
                         my_mode_ := my_mode_ c; num_channels_ := num_channels_ c |}
                      helper_left_ helper_right_).
End stereo.

(** ** The mode is the ratio in lowest terms *)

(** Input and output samples of one period. *)
Definition ratio (m : ResamplerMode) : nat * nat :=
  match m with
  | kResamplerMode1To1 => (1, 1) | kResamplerMode1To2 => (1, 2)
  | kResamplerMode1To3 => (1, 3) | kResamplerMode1To4 => (1, 4)
  | kResamplerMode1To6 => (1, 6) | kResamplerMode1To12 => (1, 12)
  | kResamplerMode2To3 => (2, 3) | kResamplerMode2To11 => (2, 11)
  | kResamplerMode4To11 => (4, 11) | kResamplerMode8To11 => (8, 11)
  | kResamplerMode11To16 => (11, 16) | kResamplerMode11To32 => (11, 32)
  | kResamplerMode2To1 => (2, 1) | kResamplerMode3To1 => (3, 1)
  | kResamplerMode4To1 => (4, 1) | kResamplerMode6To1 => (6, 1)
  | kResamplerMode12To1 => (12, 1) | kResamplerMode3To2 => (3, 2)
  | kResamplerMode11To2 => (11, 2) | kResamplerMode11To4 => (11, 4)
  | kResamplerMode11To8 => (11, 8)
  end%nat.

Lemma rem32_pos a b : 0 < b → rem32 a b = Some (Z.rem a b).
Proof.
  intros. unfold rem32.
  by rewrite (proj2 (Z.eqb_neq b 0)), (proj2 (Z.eqb_neq b (-1))), andb_false_r by lia.
Qed.

Lemma euclid_gcd fuel b c :
  0 < b → 0 ≤ c → (Z.to_nat c < fuel)%nat → euclid fuel b c = Some (Z.gcd b c).
Proof.
  revert b c. induction fuel as [|fuel IH]; intros b c Hb Hc Hf; [lia|]. cbn [euclid].
  destruct (Z.eqb_spec c 0) as [->|Hc0].
  { rewrite Z.gcd_0_r, Z.abs_eq by lia. done. }
  rewrite rem32_pos by lia. cbn [mbind option_bind].
  rewrite Z.rem_mod_nonneg by lia. pose proof (Z.mod_pos_bound b c ltac:(lia)).
  rewrite IH by lia. f_equal. rewrite (Z.gcd_comm b c), Z.gcd_comm, Z.gcd_mod by lia. done.
Qed.

Lemma ratio_gcd m : Z.gcd (Z.of_nat (ratio m).1) (Z.of_nat (ratio m).2) = 1.
Proof. by destruct m. Qed.

Lemma mode_of_ratio_spec a b m :
  0 < a → 0 < b → Z.gcd a b = 1 →
  mode_of_ratio a b = Some m ↔ a = Z.of_nat (ratio m).1 ∧ b = Z.of_nat (ratio m).2.
Proof.
  intros Ha Hb Hg. split.
  - unfold mode_of_ratio. destruct (Z.eqb_spec a b) as [->|].
    { intros [= <-]. rewrite Z.gcd_diag, Z.abs_eq in Hg by lia. by subst. }
    repeat match goal with
    | |- (if ?c then _ else _) = _ → _ => destruct c eqn:?
    end; intros [= <-]; simpl; lia.
  - intros [-> ->]. by destruct m.
Qed.

Lemma gcd_pos a b : 0 < a → 0 < Z.gcd a b.
Proof.
  intros Ha. pose proof (Z.gcd_nonneg a b).
  destruct (Z.eq_dec (Z.gcd a b) 0) as [?%Z.gcd_eq_0_l|]; lia.
Qed.

(** The parts of two numbers without their common factor. *)
Lemma reduced a b :
  0 < a → 0 < b →
  ∃ a' b', a = a' * Z.gcd a b ∧ b = b' * Z.gcd a b ∧ Z.gcd a' b' = 1 ∧ 0 < a' ∧ 0 < b'.
Proof.
  intros Ha Hb. pose proof (gcd_pos a b Ha) as Hg.
  destruct (Z.gcd_divide_l a b) as [a' Ea], (Z.gcd_divide_r a b) as [b' Eb].
  exists a', b'. split_and!; [done..| |nia|nia].
  apply (Z.mul_reg_l _ _ (Z.gcd a b)); [lia|]. rewrite Z.mul_1_r.
  rewrite <- Z.gcd_mul_mono_l_nonneg by lia. f_equal; lia.
Qed.

Lemma coprime_ratio a b p q :
  Z.gcd a b = 1 → Z.gcd p q = 1 → 0 < a → 0 < b → 0 < p → 0 < q →
  a * q = b * p ↔ a = p ∧ b = q.
Proof.
  intros Hc Hpq ????. split; [|intros [-> ->]; lia].
  intros E.
  assert (a | p) by (apply (Z.gauss _ b); [exists q; lia|done]).
  assert (p | a) by (apply (Z.gauss _ q); [exists b; lia|done]).
  assert (a = p) as -> by (by apply Z.divide_antisym_nonneg; [lia|lia|..]). split; [done|]. nia.
Qed.

Lemma mode_exists (in_freq_hz out_freq_hz : Z) :
  0 < in_freq_hz ≤ 2147483647 → 0 < out_freq_hz ≤ 2147483647 →
  ∃ r, ComputeResamplerMode in_freq_hz out_freq_hz = Some r ∧
       ∀ m, r = Some m ↔ in_freq_hz * Z.of_nat (ratio m).2 = out_freq_hz * Z.of_nat (ratio m).1.
Proof.
  intros Hi Ho. unfold ComputeResamplerMode. rewrite rem32_pos by lia. cbn [mbind option_bind].
  rewrite Z.rem_mod_nonneg by lia.
  pose proof (Z.mod_pos_bound in_freq_hz out_freq_hz ltac:(lia)). rewrite Z.abs_eq by lia.
  rewrite euclid_gcd by lia.
  rewrite (Z.gcd_comm out_freq_hz), Z.gcd_mod, (Z.gcd_comm out_freq_hz) by lia.
  destruct (reduced in_freq_hz out_freq_hz) as (a & b & Ea & Eb & Hg & Ha & Hb); [lia..|].
  pose proof (gcd_pos in_freq_hz out_freq_hz ltac:(lia)).
  set (g := Z.gcd in_freq_hz out_freq_hz) in *. clearbody g. subst.
  unfold div32. cbn [mbind option_bind]. rewrite (proj2 (Z.eqb_neq g 0)) by lia. cbn [mbind option_bind].
  rewrite !Z.quot_mul, !s32_id by (unfold int32; nia). eexists. split; [done|]. intros m.
  rewrite mode_of_ratio_spec by done.
  rewrite <- (coprime_ratio a b) by (done || apply ratio_gcd || destruct m; simpl; lia). nia.
Qed.

(** The mode of a pair of rates. For positive rates the Euclidean loop ends
    within the fuel and no division fails; a mode is stored exactly when the rates
    are in its ratio, whatever their common factor, and -1 is the result exactly
    when the reduced ratio is none of the twenty-one supported ones. *)
Theorem ComputeResamplerMode_iff (in_freq_hz out_freq_hz : Z) :
  0 < in_freq_hz ≤ 2147483647 → 0 < out_freq_hz ≤ 2147483647 →
  ∃ r, ComputeResamplerMode in_freq_hz out_freq_hz = Some r ∧
       ∀ m, r = Some m ↔ in_freq_hz * Z.of_nat (ratio m).2 = out_freq_hz * Z.of_nat (ratio m).1.
Proof. apply mode_exists. Qed.

Lemma ComputeResamplerMode_iff_witness :
  ∃ r, ComputeResamplerMode 44100 96000 = Some r ∧
       ∀ m, r = Some m ↔ 44100 * Z.of_nat (ratio m).2 = 96000 * Z.of_nat (ratio m).1.
Proof. apply (ComputeResamplerMode_iff 44100 96000); lia. Defined.

End Resampler.
