(* ===== verification/ResamplerPush.v ===== *)
(** * The resampler object as a chain of filters
    (common_audio/resampler/resampler.cc)

    The abstract view of a conversion: a [Stage] is a filter on whole signals
    with a memory, whose output continues when its input is cut into blocks; a
    mode is a chain of at most three stages, one per state pointer. [Reset] is
    shown to establish the zero memory of the chain and [Push] to implement it,
    for mono and for stereo objects. *)

From Stdlib Require Import ZifyNat ZifyBool.
From S2P Require Import Prelude SplInl ResampleBy2 ResampleFrac Resample48 Resample22 SampleBy2 Resampler.
Import Resample22 ResampleBy2 Resample48 SampleBy2 Resampler.

Module ResamplerPush.

(** ** Stages *)

(** [sg_len n] samples are produced from [n]; blocks whose length is a multiple
    of [sg_unit] can be concatenated. [sg_zero] is the memory after a reset. *)
Record Stage := {
  sg_mem : Type;
  sg_rep : option StateBlock → sg_mem → Prop;
  sg_zero : sg_mem;
  sg_unit : nat;
  sg_len : nat → nat;
  sg_sig : sg_mem → (nat → Z) → nat → Z;
  sg_next : sg_mem → (nat → Z) → nat → sg_mem;
  sg_shift μ x n i : (n mod sg_unit = 0)%nat →
    sg_sig (sg_next μ x n) (from x n) i = sg_sig μ x (sg_len n + i);
  sg_proper μ x x' i : (∀ j, x j = x' j) → sg_sig μ x i = sg_sig μ x' i;
  sg_int16 μ x i : int16 (sg_sig μ x i);
}.

(** What a call of a filter on a state pointer promises for [n] samples. *)
Definition runs (A : Stage) (n : nat)
    (call : list Z → list Z → option StateBlock → option (list Z * option StateBlock)) : Prop :=
  ∀ inm outm s μ x, sg_rep A s μ → holds inm 0 n x → (sg_len A n ≤ length outm)%nat →
    wp (call inm outm s) (λ '(out, s'),
      wrote outm 0 (sg_len A n) (sg_sig A μ x) out ∧ sg_rep A s' (sg_next A μ x n)).

Definition words_rep (s : option StateBlock) (q : quad * quad) : Prop :=
  ∃ w, s = Some (Words w) ∧ mem2 w q.

Lemma branch_state_proper k q x x' n :
  (∀ j, x j = x' j) → branch_state k q x n = branch_state k q x' n.
Proof. intros E. apply branch_state_ext. auto. Qed.

Program Definition Up : Stage := {|
  sg_mem := quad * quad; sg_rep := words_rep; sg_zero := zero2; sg_unit := 1;
  sg_len n := (n * 2)%nat; sg_sig := up2; sg_next := up2_mem;
|}.
Next Obligation. intros μ x n i _. by rewrite up2_shift, (Nat.mul_comm n). Qed.
Next Obligation.
  intros μ x x' i E. unfold up2, interleave, branch_out.
  by rewrite !(branch_state_proper _ _ x x').
Qed.
Next Obligation. intros. apply up2_int16. Qed.

Program Definition Down : Stage := {|
  sg_mem := quad * quad; sg_rep := words_rep; sg_zero := zero2; sg_unit := 2;
  sg_len n := (n / 2)%nat; sg_sig := down2; sg_next μ x n := down2_mem μ x (n / 2);
|}.
Next Obligation.
  intros μ x n i Hn%Nat.Div0.div_exact. cbn in *. rewrite Hn at 2. apply down2_shift.
Qed.
Next Obligation.
  intros μ x x' i E. unfold down2, branch_out, evens, odds.
  by rewrite (branch_state_proper kAllpass2 _ _ (λ i, x' (2 * i)%nat)),
    (branch_state_proper kAllpass1 _ _ (λ i, x' (2 * i + 1)%nat)).
Qed.
Next Obligation. intros. apply down2_int16. Qed.

Ltac sg_simpl := cbn [sg_len sg_sig sg_rep sg_next sg_unit sg_mem Up Down] in *.
Lemma Up_runs n : runs Up n (λ inm outm s, UpsampleBy2 inm n outm s).
Proof.
  intros inm outm s μ x (w & -> & Hw) Hx Ho. sg_simpl. unfold UpsampleBy2. cbn [as_words].
  apply wp_bind, wp_ret, wp_bind.
  wp_call (apply (UpsampleBy2_spec inm 0 n outm 0 w μ x); [done|done|lia]).
  intros [m w'] [W M]. apply wp_ret. rewrite (Nat.mul_comm n). split; [done|]. by exists w'.
Qed.

Lemma Down_runs n : runs Down n (λ inm outm s, DownsampleBy2 inm n outm s).
Proof.
  intros inm outm s μ x (w & -> & Hw) Hx Ho. sg_simpl. unfold DownsampleBy2. cbn [as_words].
  apply wp_bind, wp_ret, wp_bind.
  wp_call (apply (DownsampleBy2_spec inm 0 n outm 0 w μ x);
    [done|intros i Hi; apply Hx; pose proof (Nat.Div0.mul_div_le n 2); lia|lia]).
  intros [m w'] [W M]. apply wp_ret. split; [done|]. by exists w'.
Qed.

(** ** Block converters as stages *)

Class Saturates (St : Type) `{!Converter St} :=
  cv_int16 (μ : cv_mem) (x : nat → Z) (i : nat) : int16 (cv_sig μ x i).

Lemma sat16_int16 z : int16 (sat16 z).
Proof. apply s16_range. Qed.

Lemma interp_int16 post q x i : (∀ y, int16 (post y)) → int16 (interp post q x i).
Proof. intros H. unfold interp, up_out, interleave. destruct (Nat.even i); apply H. Qed.

Lemma phase_int16 fs i : Forall (λ f, ∀ m, int16 (f m)) fs → int16 (phase fs i).
Proof.
  intros H. unfold phase. destruct (fs !! _) as [f|] eqn:E; [|unfold int16; lia].
  by apply (Forall_lookup_1 _ _ _ _ H E).
Qed.

#[export] Instance sat16to48 : Saturates WebRtcSpl_State16khzTo48khz.
Proof. intros [[] h] x i. apply interp_int16. intros. apply sat16_int16. Qed.
#[export] Instance sat48to16 : Saturates WebRtcSpl_State48khzTo16khz.
Proof. intros [[] h] x i. apply sat16_int16. Qed.
#[export] Instance sat8to22 : Saturates Resample22.WebRtcSpl_State8khzTo22khz.
Proof. intros [[] h] x i. apply interp_int16. intros. apply sat16_int16. Qed.
#[export] Instance sat16to22 : Saturates Resample22.WebRtcSpl_State16khzTo22khz.
Proof.
  intros [q h] x i. apply phase_int16.
  repeat first [apply Forall_nil_2 | apply Forall_cons_2; [intros m; apply sat16_int16|]].
Qed.
#[export] Instance sat22to16 : Saturates Resample22.WebRtcSpl_State22khzTo16khz.
Proof. intros [[] h] x i. apply sat16_int16. Qed.
#[export] Instance sat22to8 : Saturates Resample22.WebRtcSpl_State22khzTo8khz.
Proof. intros [[] h] x i. apply sat16_int16. Qed.

Section blocks.
Context {St : Type} `{!Converter St} `{!Saturates St} (inject : St → StateBlock) (k : nat)
  (zero : cv_mem).

Definition block_rep (s : option StateBlock) (μ : cv_mem) : Prop :=
  ∃ st, s = Some (inject st) ∧ cv_rep st μ.

(** [k] sub-blocks per call. *)
Program Definition Blocks : Stage := {|
  sg_mem := cv_mem; sg_rep := block_rep; sg_zero := zero; sg_unit := (cv_in * k)%nat;
  sg_len n := (n / (cv_in * k) * (cv_out * k))%nat;
  sg_sig := cv_sig;
  sg_next μ x n := mem_after μ x (k * (n / (cv_in * k)));
|}.
Next Obligation.
  intros μ x n i Hn%Nat.Div0.div_exact. cbv beta.
  remember (n / (cv_in * k))%nat as b eqn:Eb. clear Eb. subst n.
  rewrite <- Nat.mul_assoc, sig_after. f_equal. lia.
Qed.
Next Obligation. intros μ x x' i E. by apply cv_proper. Qed.
Next Obligation. intros. apply cv_int16. Qed.

Context (run : list Z → nat → list Z → nat → St → list Z → option (list Z * St * list Z)).
Context (cast : option StateBlock → option St) (Hk : (0 < cv_in * k)%nat).
Context (Hrun : ∀ inm ip outm op st tmp,
  run inm ip outm op st tmp = convert_blocks k inm ip outm op st tmp).
Context (Hcast : ∀ st, cast (Some (inject st)) = Some st).

Lemma Blocks_runs n step dst tmp_mem :
  step = (cv_in * k)%nat → (n mod step = 0)%nat →
  (∀ b, dst (b * step)%nat = (cv_out * k * b)%nat) → (cv_tmp ≤ length tmp_mem)%nat →
  runs Blocks n (λ inm outm s, block_loop run cast inject n step dst inm outm s tmp_mem).
Proof using All.
  intros -> Hn%Nat.Div0.div_exact Hdst Ht inm outm s μ x (st & -> & Hr) Hx Ho.
  cbn [sg_len sg_sig sg_rep sg_next Blocks] in *.
  unfold block_loop. rewrite Hcast. apply wp_bind, wp_ret, wp_bind.
  set (b := (n / (cv_in * k))%nat) in *.
  assert ((n + cv_in * k - 1) / (cv_in * k) = b)%nat as ->.
  { rewrite Hn. replace (cv_in * k * b + cv_in * k - 1)%nat
      with (b * (cv_in * k) + (cv_in * k - 1))%nat by lia.
    rewrite Nat.div_add_l, Nat.div_small by lia. lia. }
  erewrite (for_loop_ext _ _ _ (λ b '(outm, st, tmp_mem),
    convert_blocks k inm (0 + cv_in * k * b) outm (0 + cv_out * k * b) st tmp_mem)).
  2: { intros i [[o s'] t] _. rewrite Hrun, Hdst. f_equal. lia. }
  pose proof (Resample22.split_calls_blocks k b inm 0 outm 0 st tmp_mem) as E.
  unfold Resample22.call_sequence in E. rewrite E.
  wp_call (apply (convert_blocks_spec (k * b) inm 0 outm 0 st tmp_mem μ x);
    [done|intros i Hi; apply Hx; lia|lia|done]).
  intros [[out st'] t'] (W & R & _). apply wp_ret. split.
  - by replace (b * (cv_out * k))%nat with (cv_out * (k * b))%nat by lia.
  - by exists st'.
Qed.
End blocks.

Lemma convert_blocks_1 {St : Type} `{!Converter St} inm ip outm op st tmp :
  cv_run inm ip outm op st tmp = convert_blocks 1 inm ip outm op st tmp.
Proof.
  unfold convert_blocks. cbn [for_loop]. rewrite !Nat.mul_0_r, !Nat.add_0_r.
  by destruct (cv_run _ _ _ _ _ _).
Qed.

Definition S16To48 : Stage := Blocks B16To48 1 (zero2, zero2, zeros8).
Definition S48To16 : Stage := Blocks B48To16 1 (zero2, zero4, zeros8).
Definition S8To22 : Stage := Blocks B8To22 2 (zero2, zero2, zeros8).
Definition S16To22 : Stage := Blocks B16To22 4 (zero2, zeros8).
Definition S22To16 : Stage := Blocks B22To16 5 (zero2, zero2, zeros8).
Definition S22To8 : Stage := Blocks B22To8 2 (zero4, zero2, zeros8).

(** Arithmetic of lengths: divisions by literals. *)
Ltac dlia := zify; Z.to_euclidean_division_equations; lia.

Lemma length_alloc junk n : length (alloc junk n) = n.
Proof. unfold alloc. by rewrite length_map, length_seq. Qed.

Section stage_runs.
Context (junk : nat → Z) (n : nat).

#[local] Ltac block_tac :=
  intros; apply Blocks_runs;
  [cbn; lia|intros i1 i2 i3 i4 i5 i6; first [done|exact (convert_blocks_1 i1 i2 i3 i4 i5 i6)]|done|done|done|intros b; cbn [cv_out conv16to48 conv48to16 conv8to22 conv16to22 conv22to8]; dlia
  |rewrite length_alloc; cbn; lia].

Lemma S16To48_runs : (n mod 160 = 0)%nat →
  runs S16To48 n (λ inm outm s,
    Resample16khzTo48khz n 160 (λ i, (i * 3)%nat) inm outm s (alloc junk 336)).
Proof. block_tac. Qed.
Lemma S48To16_runs : (n mod 480 = 0)%nat →
  runs S48To16 n (λ inm outm s,
    Resample48khzTo16khz n 480 (λ i, (i / 3)%nat) inm outm s (alloc junk 496)).
Proof. block_tac. Qed.
Lemma S8To22_runs : (n mod 80 = 0)%nat →
  runs S8To22 n (λ inm outm s,
    Resample8khzTo22khz n 80 (λ i, (i * 11 / 4)%nat) inm outm s (alloc junk 98)).
Proof. block_tac. Qed.
Lemma S16To22_runs : (n mod 160 = 0)%nat →
  runs S16To22 n (λ inm outm s,
    Resample16khzTo22khz n 160 (λ i, (i * 11 / 8)%nat) inm outm s (alloc junk 88)).
Proof. block_tac. Qed.
Lemma S22To16_runs dst : (n mod 220 = 0)%nat → (∀ b, dst (b * 220)%nat = (160 * b)%nat) →
  runs S22To16 n (λ inm outm s, Resample22khzTo16khz n 220 dst inm outm s (alloc junk 104)).
Proof.
  intros ? Hd. apply Blocks_runs; [cbn; lia|done|done|done|done|exact Hd|].
  rewrite length_alloc. cbn. lia.
Qed.
Lemma S22To8_runs : (n mod 220 = 0)%nat →
  runs S22To8 n (λ inm outm s,
    Resample22khzTo8khz n 220 (λ i, (i * 4 / 11)%nat) inm outm s (alloc junk 126)).
Proof. block_tac. Qed.
End stage_runs.

(** ** Chains of stages *)

Inductive Chain :=
  | P0
  | P1 (A : Stage)
  | P2 (A B : Stage)
  | P3 (A B C : Stage).

Definition c_mem (p : Chain) : Type :=
  match p with
  | P0 => unit
  | P1 A => sg_mem A
  | P2 A B => sg_mem A * sg_mem B
  | P3 A B C => sg_mem A * sg_mem B * sg_mem C
  end.

Definition c_rep (p : Chain) : states → c_mem p → Prop :=
  match p with
  | P0 => λ st _, st = (None, None, None)
  | P1 A => λ '(s1, s2, s3) μ, sg_rep A s1 μ ∧ s2 = None ∧ s3 = None
  | P2 A B => λ '(s1, s2, s3) '(μ1, μ2), sg_rep A s1 μ1 ∧ sg_rep B s2 μ2 ∧ s3 = None
  | P3 A B C => λ '(s1, s2, s3) '(μ1, μ2, μ3), sg_rep A s1 μ1 ∧ sg_rep B s2 μ2 ∧ sg_rep C s3 μ3
  end.

(** The output signal for an input signal. *)
Definition c_sig (p : Chain) : c_mem p → (nat → Z) → nat → Z :=
  match p with
  | P0 => λ _ x, x
  | P1 A => λ μ x, sg_sig A μ x
  | P2 A B => λ '(μ1, μ2) x, sg_sig B μ2 (sg_sig A μ1 x)
  | P3 A B C => λ '(μ1, μ2, μ3) x, sg_sig C μ3 (sg_sig B μ2 (sg_sig A μ1 x))
  end.

Definition c_next (p : Chain) : c_mem p → (nat → Z) → nat → c_mem p :=
  match p with
  | P0 => λ μ _ _, μ
  | P1 A => λ μ x n, sg_next A μ x n
  | P2 A B => λ '(μ1, μ2) x n,
      (sg_next A μ1 x n, sg_next B μ2 (sg_sig A μ1 x) (sg_len A n))
  | P3 A B C => λ '(μ1, μ2, μ3) x n,
      (sg_next A μ1 x n, sg_next B μ2 (sg_sig A μ1 x) (sg_len A n),
       sg_next C μ3 (sg_sig B μ2 (sg_sig A μ1 x)) (sg_len B (sg_len A n)))
  end.

Definition c_len (p : Chain) (n : nat) : nat :=
  match p with
  | P0 => n
  | P1 A => sg_len A n
  | P2 A B => sg_len B (sg_len A n)
  | P3 A B C => sg_len C (sg_len B (sg_len A n))
  end.

(** Lengths that every stage takes whole. *)
Definition c_whole (p : Chain) (n : nat) : Prop :=
  match p with
  | P0 => True
  | P1 A => n mod sg_unit A = 0
  | P2 A B => n mod sg_unit A = 0 ∧ sg_len A n mod sg_unit B = 0
  | P3 A B C => n mod sg_unit A = 0 ∧ sg_len A n mod sg_unit B = 0 ∧
                sg_len B (sg_len A n) mod sg_unit C = 0
  end%nat.

Lemma c_shift p μ x n i : c_whole p n →
  c_sig p (c_next p μ x n) (from x n) i = c_sig p μ x (c_len p n + i).
Proof.
  destruct p as [|A|A B|A B C]; cbn [c_whole c_next c_sig c_len c_mem] in *.
  - done.
  - apply sg_shift.
  - destruct μ as [μ1 μ2]. intros [HA HB]. rewrite <- sg_shift by done.
    apply sg_proper. intros j. by apply sg_shift.
  - destruct μ as [[μ1 μ2] μ3]. intros (HA & HB & HC). rewrite <- sg_shift by done.
    apply sg_proper. intros j. unfold from at 2. rewrite <- sg_shift by done.
    apply sg_proper. intros l. by apply sg_shift.
Qed.

Lemma c_proper p μ x x' i : (∀ j, x j = x' j) → c_sig p μ x i = c_sig p μ x' i.
Proof.
  intros E. destruct p as [|A|A B|A B C]; cbn [c_sig c_mem] in *.
  - done.
  - by apply sg_proper.
  - destruct μ. apply sg_proper. intros. by apply sg_proper.
  - destruct μ as [[??] ?]. apply sg_proper. intros. apply sg_proper. intros. by apply sg_proper.
Qed.

Lemma c_int16 p μ x i : (∀ j, int16 (x j)) → int16 (c_sig p μ x i).
Proof.
  intros Hx. destruct p as [|A|A B|A B C]; cbn [c_sig c_mem] in *; [done|..].
  - apply sg_int16.
  - destruct μ. apply sg_int16.
  - destruct μ as [[??] ?]. apply sg_int16.
Qed.

(** The chain of a mode. *)
Definition chain (m : ResamplerMode) : Chain :=
  match m with
  | kResamplerMode1To1 => P0
  | kResamplerMode1To2 => P1 Up
  | kResamplerMode1To3 => P1 S16To48
  | kResamplerMode1To4 => P2 Up Up
  | kResamplerMode1To6 => P2 Up S16To48
  | kResamplerMode1To12 => P3 Up Up S16To48
  | kResamplerMode2To3 => P2 S16To48 Down
  | kResamplerMode2To11 => P2 Up S8To22
  | kResamplerMode4To11 => P1 S8To22
  | kResamplerMode8To11 => P1 S16To22
  | kResamplerMode11To16 => P2 Up S22To16
  | kResamplerMode11To32 => P3 Up S22To16 Up
  | kResamplerMode2To1 => P1 Down
  | kResamplerMode3To1 => P1 S48To16
  | kResamplerMode4To1 => P2 Down Down
  | kResamplerMode6To1 => P2 S48To16 Down
  | kResamplerMode12To1 => P3 S48To16 Down Down
  | kResamplerMode3To2 => P2 Up S48To16
  | kResamplerMode11To2 => P2 S22To8 Down
  | kResamplerMode11To4 => P1 S22To8
  | kResamplerMode11To8 => P1 S22To16
  end.

(** The block length a mode insists on. *)
Definition block (m : ResamplerMode) : nat :=
  match m with
  | kResamplerMode1To3 | kResamplerMode2To3 | kResamplerMode8To11 => 160
  | kResamplerMode1To6 | kResamplerMode2To11 | kResamplerMode4To11 => 80
  | kResamplerMode1To12 => 40
  | kResamplerMode11To16 | kResamplerMode11To32 => 110
  | kResamplerMode3To1 | kResamplerMode6To1 | kResamplerMode12To1 => 480
  | kResamplerMode3To2 => 240
  | kResamplerMode11To2 | kResamplerMode11To4 | kResamplerMode11To8 => 220
  | _ => 1
  end.

(** Output samples for [n] input samples. *)
Definition out_len (m : ResamplerMode) (n : nat) : nat := (n * (ratio m).2 / (ratio m).1)%nat.

(** The one-to-one mode checks nothing. *)
Definition accepted (m : ResamplerMode) (lengthIn maxLen : nat) : bool :=
  bool_decide (m = kResamplerMode1To1) ||
  ((lengthIn mod block m =? 0)%nat && (out_len m lengthIn <=? maxLen)%nat).

(** What the output memory must provide. *)
Definition room (m : ResamplerMode) (lengthIn maxLen : nat) (samplesOut : list Z) : Prop :=
  (maxLen ≤ length samplesOut)%nat ∧
  (m = kResamplerMode1To1 → (lengthIn ≤ length samplesOut)%nat).

Definition push_post (m : ResamplerMode) (st : states) (lengthIn : nat) (samplesOut : list Z)
    (maxLen outLen : nat) (μ : c_mem (chain m)) (x : nat → Z) (r : pushed) : Prop :=
  let '(ret, len, out, st') := r in
  if accepted m lengthIn maxLen
  then ret = 0 ∧ len = out_len m lengthIn ∧
       wrote samplesOut 0 (out_len m lengthIn) (c_sig (chain m) μ x) out ∧
       c_rep (chain m) st' (c_next (chain m) μ x lengthIn)
  else ret = -1 ∧ len = outLen ∧ out = samplesOut ∧ (m ≠ kResamplerMode3To2 → st' = st) ∧
       ∃ μ', c_rep (chain m) st' μ'.

Definition push_spec (m : ResamplerMode) : Prop :=
  ∀ junk st samplesIn lengthIn samplesOut maxLen outLen μ x,
  c_rep (chain m) st μ → holds samplesIn 0 lengthIn x → room m lengthIn maxLen samplesOut →
  wp (push_mono junk st samplesIn lengthIn samplesOut maxLen outLen m)
     (push_post m st lengthIn samplesOut maxLen outLen μ x).

Lemma wrote_wide m o n f k g m' m'' :
  wrote m o n f m' → wrote m' o k g m'' → (n ≤ k)%nat → wrote m o k g m''.
Proof.
  intros (Hl & Hw & Hu) (Hl' & Hw' & Hu') Hnk. split_and!; [congruence|done|].
  intros p Hp. rewrite Hu' by done. apply Hu. lia.
Qed.

Lemma holds_0 m n x i : holds m 0 n x → (i < n)%nat → m !! i = Some (x i).
Proof. intros H. exact (H i). Qed.

Lemma wrote_holds_at m n f m' n' : wrote m 0 n f m' → n' = n → holds m' 0 n' f.
Proof. intros H ->. by apply wrote_holds in H. Qed.

Lemma wrote_at m n f m' n' : wrote m 0 n f m' → n' = n → wrote m 0 n' f m'.
Proof. by intros H ->. Qed.

Lemma accepted_true m n k : (n mod block m = 0)%nat → (out_len m n ≤ k)%nat → accepted m n k = true.
Proof.
  intros H1 H2. unfold accepted. rewrite (proj2 (Nat.eqb_eq _ _) H1), (proj2 (Nat.leb_le _ _) H2).
  apply orb_true_r.
Qed.

Lemma accepted_false m n k :
  m ≠ kResamplerMode1To1 → (n mod block m ≠ 0 ∨ k < out_len m n)%nat → accepted m n k = false.
Proof.
  intros Hm H. unfold accepted. rewrite bool_decide_false by done. cbn [orb].
  apply andb_false_iff. destruct H; [left; by apply Nat.eqb_neq|right; by apply Nat.leb_gt].
Qed.

Lemma accepted_room m n k :
  accepted m n k = true → m = kResamplerMode1To1 ∨ (out_len m n ≤ k)%nat.
Proof.
  unfold accepted. intros [?%bool_decide_eq_true|[_ ?%Nat.leb_le]%andb_true_iff]%orb_true_iff; auto.
Qed.

Lemma runs_use {A n call inm outm s μ x} {Q : list Z * option StateBlock → Prop} :
  runs A n call → sg_rep A s μ → holds inm 0 n x → (sg_len A n ≤ length outm)%nat →
  (∀ out s', wrote outm 0 (sg_len A n) (sg_sig A μ x) out → sg_rep A s' (sg_next A μ x n) →
     Q (out, s')) → wp (call inm outm s) Q.
Proof.
  intros H Hr Hx Ho HQ. wp_call (by apply H). intros [out s'] [??]. by apply HQ.
Qed.

(** Lengths of the stages, modes and buffers, as numbers. *)
Ltac mode_lia :=
  rewrite ?length_alloc in *; unfold out_len in *;
  cbn [block ratio fst snd sg_len Up Down Blocks S16To48 S48To16 S8To22 S16To22 S22To16 S22To8
       cv_in cv_out conv16to48 conv48to16 conv8to22 conv16to22 conv22to16 conv22to8] in *;
  dlia.

(** Opens a mode and decides its guards; [stage] runs the next filter. *)
Ltac mode_open :=
  intros junk [[s1 s2] s3] inm n outm maxLen outLen μ x Hrep Hx [Hroom _];
  cbn [push_mono chain c_rep c_mem] in Hrep, μ |- *.
Ltac check_arg :=
  match goal with
  | |- wp (if ?c then _ else _) _ =>
      let G := fresh "G" in destruct c eqn:G
  end.
Ltac refuse :=
  apply wp_ret; unfold push_post; rewrite accepted_false;
  [split_and!; [done..|first [by eexists|by eexists (_, _)|by eexists (_, _, _)]]|done|mode_lia].
Ltac stage H R X :=
  apply wp_bind; refine (runs_use H R X _ _); [mode_lia|].
Ltac accept W :=
  apply wp_ret; unfold push_post; rewrite accepted_true by mode_lia;
  split_and!; [done|mode_lia|apply (wrote_at _ _ _ _ _ W); mode_lia|].

Lemma push_1To2_ok : push_spec kResamplerMode1To2.
Proof.
  mode_open. destruct Hrep as (R1 & -> & ->). unfold push_1To2. check_arg; [refuse|].
  stage (Up_runs n) R1 Hx. intros out s1' W R1'. accept W. done.
Qed.

Lemma push_1To3_ok : push_spec kResamplerMode1To3.
Proof.
  mode_open. destruct Hrep as (R1 & -> & ->). unfold push_1To3. check_arg; [refuse|]. check_arg; [refuse|].
  stage (S16To48_runs junk n ltac:(mode_lia)) R1 Hx. intros out s1' W R1'. accept W. done.
Qed.

Lemma push_1To6_ok : push_spec kResamplerMode1To6.
Proof.
  mode_open. destruct μ as [μ1 μ2], Hrep as (R1 & R2 & ->). unfold push_1To6.
  check_arg; [refuse|]. check_arg; [refuse|].
  stage (Up_runs n) R1 Hx. intros tmp s1' W1 R1'. cbv zeta.
  stage (S16To48_runs junk (n * 2) ltac:(mode_lia)) R2 (wrote_holds _ _ _ _ _ W1).
  intros out s2' W2 R2'. accept W2. done.
Qed.

Lemma push_1To4_ok : push_spec kResamplerMode1To4.
Proof.
  mode_open. destruct μ as [μ1 μ2], Hrep as (R1 & R2 & ->). unfold push_1To4. check_arg; [refuse|].
  stage (Up_runs n) R1 Hx. intros tmp s1' W1 R1'.
  stage (Up_runs (n * 2)) R2 (wrote_holds _ _ _ _ _ W1).
  intros out s2' W2 R2'. accept W2. done.
Qed.

Lemma push_1To12_ok : push_spec kResamplerMode1To12.
Proof.
  mode_open. destruct μ as [[μ1 μ2] μ3], Hrep as (R1 & R2 & R3). unfold push_1To12.
  check_arg; [refuse|]. check_arg; [refuse|].
  stage (Up_runs n) R1 Hx. intros out1 s1' W1 R1'. cbv zeta.
  stage (Up_runs (n * 2)) R2 (wrote_holds _ _ _ _ _ W1). intros tmp s2' W2 R2'.
  pose proof (wrote_length _ _ _ _ _ W1) as Hl1.
  stage (S16To48_runs junk (n * 2 * 2) ltac:(mode_lia)) R3 (wrote_holds _ _ _ _ _ W2).
  intros out s3' W3 R3'.
  pose proof (wrote_wide _ _ _ _ _ _ _ _ W1 W3 ltac:(mode_lia)) as W. accept W. done.
Qed.

Lemma push_2To3_ok : push_spec kResamplerMode2To3.
Proof.
  mode_open. destruct μ as [μ1 μ2], Hrep as (R1 & R2 & ->). unfold push_2To3.
  check_arg; [refuse|]. check_arg; [refuse|].
  stage (S16To48_runs junk n ltac:(mode_lia)) R1 Hx. intros tmp s1' W1 R1'. cbv zeta.
  stage (Down_runs (n * 3)) R2 (wrote_holds_at _ _ _ _ (n * 3) W1 ltac:(mode_lia)).
  intros out s2' W2 R2'. accept W2.
  cbn [chain c_rep c_next]. split_and!; [done| |done].
  by replace (sg_len S16To48 n) with (n * 3)%nat by mode_lia.
Qed.

Lemma push_2To11_ok : push_spec kResamplerMode2To11.
Proof.
  mode_open. destruct μ as [μ1 μ2], Hrep as (R1 & R2 & ->). unfold push_2To11.
  check_arg; [refuse|]. check_arg; [refuse|].
  stage (Up_runs n) R1 Hx. intros tmp s1' W1 R1'. cbv zeta.
  stage (S8To22_runs junk (n * 2) ltac:(mode_lia)) R2 (wrote_holds _ _ _ _ _ W1).
  intros out s2' W2 R2'. accept W2. done.
Qed.

Lemma push_4To11_ok : push_spec kResamplerMode4To11.
Proof.
  mode_open. destruct Hrep as (R1 & -> & ->). unfold push_4To11.
  check_arg; [refuse|]. check_arg; [refuse|].
  stage (S8To22_runs junk n ltac:(mode_lia)) R1 Hx. intros out s1' W R1'. accept W. done.
Qed.

Lemma push_8To11_ok : push_spec kResamplerMode8To11.
Proof.
  mode_open. destruct Hrep as (R1 & -> & ->). unfold push_8To11.
  check_arg; [refuse|]. check_arg; [refuse|].
  stage (S16To22_runs junk n ltac:(mode_lia)) R1 Hx. intros out s1' W R1'. accept W. done.
Qed.

Lemma dst_220 b : (b * 220 / 220 * 160 = 160 * b)%nat.
Proof. dlia. Qed.

Lemma push_11To16_ok : push_spec kResamplerMode11To16.
Proof.
  mode_open. destruct μ as [μ1 μ2], Hrep as (R1 & R2 & ->). unfold push_11To16.
  check_arg; [refuse|]. check_arg; [refuse|].
  stage (Up_runs n) R1 Hx. intros tmp s1' W1 R1'.
  stage (S22To16_runs junk (n * 2) (λ i, i / 220 * 160)%nat ltac:(mode_lia) dst_220) R2
    (wrote_holds _ _ _ _ _ W1).
  intros out s2' W2 R2'. accept W2. done.
Qed.

Lemma push_11To32_ok : push_spec kResamplerMode11To32.
Proof.
  mode_open. destruct μ as [[μ1 μ2] μ3], Hrep as (R1 & R2 & R3). unfold push_11To32.
  check_arg; [refuse|]. check_arg; [refuse|].
  stage (Up_runs n) R1 Hx. intros out1 s1' W1 R1'. pose proof (wrote_length _ _ _ _ _ W1) as Hl1.
  stage (S22To16_runs junk (n * 2) (λ i, i / 220 * 160)%nat ltac:(mode_lia) dst_220) R2
    (wrote_holds _ _ _ _ _ W1).
  intros tmp s2' W2 R2'.
  stage (Up_runs (n * 16 / 11)) R3 (wrote_holds_at _ _ _ _ (n * 16 / 11) W2 ltac:(mode_lia)).
  intros out s3' W3 R3'.
  pose proof (wrote_wide _ _ _ _ _ _ _ _ W1 W3 ltac:(mode_lia)) as W. accept W.
  cbn [chain c_rep c_next]. split_and!; [done..|].
  by replace (sg_len S22To16 (sg_len Up n)) with (n * 16 / 11)%nat by mode_lia.
Qed.

Lemma push_2To1_ok : push_spec kResamplerMode2To1.
Proof.
  mode_open. destruct Hrep as (R1 & -> & ->). unfold push_2To1. check_arg; [refuse|].
  stage (Down_runs n) R1 Hx. intros out s1' W R1'. accept W. done.
Qed.

Lemma push_3To1_ok : push_spec kResamplerMode3To1.
Proof.
  mode_open. destruct Hrep as (R1 & -> & ->). unfold push_3To1.
  check_arg; [refuse|]. check_arg; [refuse|].
  stage (S48To16_runs junk n ltac:(mode_lia)) R1 Hx. intros out s1' W R1'. accept W. done.
Qed.

Lemma push_4To1_ok : push_spec kResamplerMode4To1.
Proof.
  mode_open. destruct μ as [μ1 μ2], Hrep as (R1 & R2 & ->). unfold push_4To1. check_arg; [refuse|].
  stage (Down_runs n) R1 Hx. intros tmp s1' W1 R1'.
  stage (Down_runs (n / 2)) R2 (wrote_holds _ _ _ _ _ W1).
  intros out s2' W2 R2'. accept W2. done.
Qed.

Lemma push_6To1_ok : push_spec kResamplerMode6To1.
Proof.
  mode_open. destruct μ as [μ1 μ2], Hrep as (R1 & R2 & ->). unfold push_6To1.
  check_arg; [refuse|]. check_arg; [refuse|].
  stage (S48To16_runs junk n ltac:(mode_lia)) R1 Hx. intros tmp s1' W1 R1'. cbv zeta.
  stage (Down_runs (n / 3)) R2 (wrote_holds_at _ _ _ _ (n / 3) W1 ltac:(mode_lia)).
  intros out s2' W2 R2'. accept W2.
  cbn [chain c_rep c_next]. split_and!; [done| |done].
  by replace (sg_len S48To16 n) with (n / 3)%nat by mode_lia.
Qed.

Lemma push_12To1_ok : push_spec kResamplerMode12To1.
Proof.
  mode_open. destruct μ as [[μ1 μ2] μ3], Hrep as (R1 & R2 & R3). unfold push_12To1.
  check_arg; [refuse|]. check_arg; [refuse|].
  stage (S48To16_runs junk n ltac:(mode_lia)) R1 Hx. intros tmp s1' W1 R1'. cbv zeta.
  stage (Down_runs (n / 3)) R2 (wrote_holds_at _ _ _ _ (n / 3) W1 ltac:(mode_lia)).
  intros tmp2 s2' W2 R2'.
  stage (Down_runs (n / 3 / 2)) R3 (wrote_holds _ _ _ _ _ W2).
  intros out s3' W3 R3'. accept W3.
  cbn [chain c_rep c_next]. by replace (sg_len S48To16 n) with (n / 3)%nat by mode_lia.
Qed.

Lemma push_3To2_ok : push_spec kResamplerMode3To2.
Proof.
  mode_open. destruct μ as [μ1 μ2], Hrep as (R1 & R2 & ->). unfold push_3To2.
  check_arg; [refuse|].
  stage (Up_runs n) R1 Hx. intros tmp s1' W1 R1'. cbv zeta. check_arg; [refuse|].
  stage (S48To16_runs junk (n * 2) ltac:(mode_lia)) R2 (wrote_holds _ _ _ _ _ W1).
  intros out s2' W2 R2'. accept W2. done.
Qed.

Lemma push_11To2_ok : push_spec kResamplerMode11To2.
Proof.
  mode_open. destruct μ as [μ1 μ2], Hrep as (R1 & R2 & ->). unfold push_11To2.
  check_arg; [refuse|]. check_arg; [refuse|].
  stage (S22To8_runs junk n ltac:(mode_lia)) R1 Hx. intros tmp s1' W1 R1'. cbv zeta.
  stage (Down_runs (n * 4 / 11)) R2 (wrote_holds_at _ _ _ _ (n * 4 / 11) W1 ltac:(mode_lia)).
  intros out s2' W2 R2'. accept W2.
  cbn [chain c_rep c_next]. split_and!; [done| |done].
  by replace (sg_len S22To8 n) with (n * 4 / 11)%nat by mode_lia.
Qed.

Lemma push_11To4_ok : push_spec kResamplerMode11To4.
Proof.
  mode_open. destruct Hrep as (R1 & -> & ->). unfold push_11To4.
  check_arg; [refuse|]. check_arg; [refuse|].
  stage (S22To8_runs junk n ltac:(mode_lia)) R1 Hx. intros out s1' W R1'. accept W. done.
Qed.

Lemma dst_11To8 b : (b * 220 * 8 / 11 = 160 * b)%nat.
Proof. dlia. Qed.

Lemma push_11To8_ok : push_spec kResamplerMode11To8.
Proof.
  mode_open. destruct Hrep as (R1 & -> & ->). unfold push_11To8.
  check_arg; [refuse|]. check_arg; [refuse|].
  stage (S22To16_runs junk n (λ i, i * 8 / 11)%nat ltac:(mode_lia) dst_11To8) R1 Hx.
  intros out s1' W R1'. accept W. done.
Qed.

Lemma push_1To1_ok : push_spec kResamplerMode1To1.
Proof.
  intros junk st inm n outm maxLen outLen μ x Hrep Hx [_ Hroom]. specialize (Hroom eq_refl).
  cbn [push_mono]. unfold push_1To1. apply wp_bind.
  assert (n ≤ length inm)%nat.
  { destruct n as [|n]; [lia|]. apply (holds_length _ 0 _ x); [done|lia]. }
  apply wp_memcpy; [done..|]. apply wp_ret. unfold push_post, out_len. cbn [accepted bool_decide].
  rewrite (eq_refl : accepted kResamplerMode1To1 n maxLen = true). cbn [ratio fst snd].
  rewrite Nat.mul_1_r, Nat.div_1_r. split_and!; [done..| |done].
  rewrite take_0, drop_0. cbn [app Nat.add]. split_and!.
  - rewrite length_app, length_take, length_drop. lia.
  - intros i Hi. cbn [Nat.add]. rewrite lookup_app_l by (rewrite length_take; lia).
    rewrite lookup_take_lt by done. by apply Hx.
  - intros p Hp. rewrite lookup_app_r; rewrite length_take; [|lia]. rewrite lookup_drop. f_equal. lia.
Qed.

Lemma push_mono_ok m : push_spec m.
Proof.
  destruct m; auto using push_1To1_ok, push_1To2_ok, push_1To3_ok, push_1To4_ok, push_1To6_ok,
    push_1To12_ok, push_2To3_ok, push_2To11_ok, push_4To11_ok, push_8To11_ok, push_11To16_ok,
    push_11To32_ok, push_2To1_ok, push_3To1_ok, push_4To1_ok, push_6To1_ok, push_12To1_ok,
    push_3To2_ok, push_11To2_ok, push_11To4_ok, push_11To8_ok.
Qed.

(** ** Reset *)

Definition c_zero (p : Chain) : c_mem p :=
  match p with
  | P0 => tt
  | P1 A => sg_zero A
  | P2 A B => (sg_zero A, sg_zero B)
  | P3 A B C => (sg_zero A, sg_zero B, sg_zero C)
  end.

Section fresh.
Context (junk : nat → Z).

Lemma words8_up : sg_rep Up (words8 junk) (sg_zero Up).
Proof. eexists. split; [reflexivity|by split_and!]. Qed.
Lemma words8_down : sg_rep Down (words8 junk) (sg_zero Down).
Proof. exact words8_up. Qed.

Lemma new_block {St : Type} `{!Converter St} (inject : St → StateBlock) (r : option St) μ :
  wp r (λ st', cv_rep st' μ) →
  block_rep inject (match r with Some s => Some (inject s) | None => None end) μ.
Proof. destruct r as [st|]; [|done]. intros H. by exists st. Qed.

Lemma new_16To48_zero : sg_rep S16To48 (new_16To48 junk) (sg_zero S16To48).
Proof. apply new_block, Reset16khzTo48khz_spec. repeat split. Qed.
Lemma new_48To16_zero : sg_rep S48To16 (new_48To16 junk) (sg_zero S48To16).
Proof. apply new_block, Reset48khzTo16khz_spec. repeat split. Qed.
Lemma new_8To22_zero : sg_rep S8To22 (new_8To22 junk) (sg_zero S8To22).
Proof. apply new_block, Reset8khzTo22khz_spec. repeat split. Qed.
Lemma new_16To22_zero : sg_rep S16To22 (new_16To22 junk) (sg_zero S16To22).
Proof. apply new_block, Reset16khzTo22khz_spec. repeat split. Qed.
Lemma new_22To16_zero : sg_rep S22To16 (new_22To16 junk) (sg_zero S22To16).
Proof. apply new_block, Reset22khzTo16khz_spec. repeat split. Qed.
Lemma new_22To8_zero : sg_rep S22To8 (new_22To8 junk) (sg_zero S22To8).
Proof. apply new_block, Reset22khzTo8khz_spec. repeat split. Qed.

Lemma create_states_zero m : c_rep (chain m) (create_states junk m) (c_zero (chain m)).
Proof.
  destruct m; cbn [chain create_states c_rep c_zero]; auto;
    repeat match goal with |- _ ∧ _ => split end;
    auto using words8_up, words8_down, new_16To48_zero, new_48To16_zero, new_8To22_zero, new_16To22_zero,
      new_22To16_zero, new_22To8_zero.
Qed.
End fresh.

(** A mono object whose chain has memory [μ]; a stereo object with two of them. *)
Definition mono (m : ResamplerMode) (μ : c_mem (chain m)) (r : Resampler) : Prop :=
  num_channels_ (core_of r) ≠ 2 ∧ my_mode_ (core_of r) = m ∧
  c_rep (chain m) (states_ (core_of r)) μ.

Definition stereo (m : ResamplerMode) (μl μr : c_mem (chain m)) (r : Resampler) : Prop :=
  ∃ c l r', r = mkResampler c (Some l) (Some r') ∧ num_channels_ c = 2 ∧ my_mode_ c = m ∧
            mono m μl l ∧ mono m μr r'.

Definition rates (inFreq outFreq channels : Z) (r : Resampler) : Prop :=
  my_in_frequency_khz_ (core_of r) = Z.quot inFreq 1000 ∧
  my_out_frequency_khz_ (core_of r) = Z.quot outFreq 1000 ∧
  num_channels_ (core_of r) = channels.

(** An object for [channels] channels with all filters at rest. *)
Definition at_rest (m : ResamplerMode) (channels : Z) (r : Resampler) : Prop :=
  (channels = 1 ∧ mono m (c_zero _) r) ∨ (channels = 2 ∧ stereo m (c_zero _) (c_zero _) r).

Definition supported (m : ResamplerMode) (inFreq outFreq : Z) : Prop :=
  inFreq * Z.of_nat (ratio m).2 = outFreq * Z.of_nat (ratio m).1.

Lemma ComputeResamplerMode_cases inFreq outFreq :
  0 < inFreq ≤ 2147483647 → 0 < outFreq ≤ 2147483647 →
  (∃ m, ComputeResamplerMode inFreq outFreq = Some (Some m) ∧ supported m inFreq outFreq) ∨
  (ComputeResamplerMode inFreq outFreq = Some None ∧ ∀ m, ¬ supported m inFreq outFreq).
Proof.
  intros Hi Ho. destruct (mode_exists inFreq outFreq Hi Ho) as ([m|] & -> & H).
  - left. exists m. split; [done|]. by apply H.
  - right. split; [done|]. intros m Hm. by apply H in Hm.
Qed.

Lemma Reset_with_spec junk new_helper self inFreq outFreq channels :
  0 < inFreq ≤ 2147483647 → 0 < outFreq ≤ 2147483647 →
  wp (Reset_with junk new_helper self inFreq outFreq channels) (λ '(ret, r),
    (ret = 0 ∧ ∃ m, supported m inFreq outFreq ∧ (channels = 1 ∨ channels = 2) ∧
       rates inFreq outFreq channels r ∧
       r = mkResampler (core_of r) (if channels =? 2 then new_helper else None)
             (if channels =? 2 then new_helper else None) ∧
       my_mode_ (core_of r) = m ∧ c_rep (chain m) (states_ (core_of r)) (c_zero _)) ∨
    (ret = -1 ∧ r = self ∧
     ((channels ≠ 1 ∧ channels ≠ 2) ∨ ∀ m, ¬ supported m inFreq outFreq))).
Proof.
  intros Hi Ho. unfold Reset_with.
  destruct (negb (channels =? 1) && negb (channels =? 2)) eqn:Hc.
  { apply wp_ret. right. split_and!; [done..|left; lia]. }
  destruct (ComputeResamplerMode_cases inFreq outFreq Hi Ho) as [(m & -> & Hm)|[-> Hm]];
    apply wp_bind, wp_ret, wp_ret.
  - left. split; [done|]. exists m. cbn [core_of my_mode_ states_]. do 2 (split; [done || lia|]).
    do 3 (split; [done|]). apply create_states_zero.
  - right. split_and!; [done..|by right].
Qed.

Lemma supported_unique m m' inFreq outFreq :
  0 < inFreq ≤ 2147483647 → 0 < outFreq ≤ 2147483647 →
  supported m inFreq outFreq → supported m' inFreq outFreq → m = m'.
Proof.
  intros Hi Ho Hm Hm'. destruct (mode_exists inFreq outFreq Hi Ho) as (r & _ & H).
  apply H in Hm, Hm'. congruence.
Qed.

Lemma Reset_spec junk self inFreq outFreq channels :
  0 < inFreq ≤ 2147483647 → 0 < outFreq ≤ 2147483647 →
  wp (Reset junk self inFreq outFreq channels) (λ '(ret, r),
    (ret = 0 ∧ ∃ m, supported m inFreq outFreq ∧ at_rest m channels r ∧
                    rates inFreq outFreq channels r) ∨
    (ret = -1 ∧ r = self ∧
     ((channels ≠ 1 ∧ channels ≠ 2) ∨ ∀ m, ¬ supported m inFreq outFreq))).
Proof.
  intros Hi Ho. unfold Reset. wp_call (by apply Reset_with_spec).
  intros [ret r] [(-> & m & Hm & Hc & Hr & E & Emode & Hst)|H]; [left|by right].
  split; [done|]. exists m. split_and!; [done| |done..].
  destruct Hr as (_ & _ & Hn). destruct Hc as [->| ->]; [left|right]; split; try done.
  { split_and!; [by rewrite Hn|done..]. }
  assert (Hh : wp (new_mono junk inFreq outFreq) (mono m (c_zero _))).
  { unfold new_mono. apply wp_bind. wp_call (by apply Reset_with_spec).
    intros [ret' r'] [(_ & m' & Hm' & _ & (_ & _ & Hn') & _ & E' & Hst')|(_ & _ & [?|H])];
      [|lia|by apply H in Hm].
    assert (m' = m) as -> by (by apply (supported_unique _ _ inFreq outFreq)).
    apply wp_ret. split_and!; [by rewrite Hn'|done..]. }
  cbn [Z.eqb Pos.eqb] in E. destruct (new_mono junk inFreq outFreq) as [h|]; [|done].
  by exists (core_of r), h, h.
Qed.

(** [Reset]. For positive rates the call is defined. It fails exactly when the
    channel count is not 1 or 2 or the rates are in no supported ratio, and then
    the object is untouched. Otherwise the object has the mode of the ratio and
    all filters at rest, whatever the allocator returned and whatever the object
    was before; a stereo object gets two mono objects of its own. *)
Theorem Reset_correct (junk : nat → Z) (self : Resampler) (inFreq outFreq channels : Z) :
  0 < inFreq ≤ 2147483647 → 0 < outFreq ≤ 2147483647 →
  wp (Reset junk self inFreq outFreq channels) (λ '(ret, r),
    (ret = 0 ∧ ∃ m, supported m inFreq outFreq ∧ at_rest m channels r ∧
                    rates inFreq outFreq channels r) ∨
    (ret = -1 ∧ r = self ∧
     ((channels ≠ 1 ∧ channels ≠ 2) ∨ ∀ m, ¬ supported m inFreq outFreq))).
Proof. intros Hi Ho. by apply Reset_spec. Qed.

Lemma Reset_correct_witness :
  wp (Reset (λ i, Z.of_nat i) Resampler_default 44000 32000 2) (λ '(ret, r),
    (ret = 0 ∧ ∃ m, supported m 44000 32000 ∧ at_rest m 2 r ∧ rates 44000 32000 2 r) ∨
    (ret = -1 ∧ r = Resampler_default ∧
     ((2 ≠ 1 ∧ 2 ≠ 2) ∨ ∀ m, ¬ supported m 44000 32000))).
Proof. apply (Reset_correct (λ i, Z.of_nat i) Resampler_default 44000 32000 2); lia. Defined.

(** ** Push *)

Section objects.
Context (junk : nat → Z) (m : ResamplerMode).

Lemma Push_mono_ok μ r samplesIn n samplesOut maxLen outLen x :
  mono m μ r → holds samplesIn 0 n x → room m n maxLen samplesOut →
  wp (Push junk r samplesIn n samplesOut maxLen outLen) (λ '(ret, len, out, r'),
    if accepted m n maxLen
    then ret = 0 ∧ len = out_len m n ∧ wrote samplesOut 0 (out_len m n) (c_sig _ μ x) out ∧
         mono m (c_next _ μ x n) r'
    else ret = -1 ∧ len = outLen ∧ out = samplesOut ∧ ∃ μ', mono m μ' r').
Proof.
  destruct r as [c hl hr]. intros (Hch & Hm & Hst) Hx Hroom. cbn [core_of Push] in *.
  rewrite (proj2 (Z.eqb_neq _ _) Hch). apply wp_bind. rewrite Hm.
  wp_call (by apply (push_mono_ok m junk _ samplesIn n samplesOut maxLen outLen μ x)).
  intros [[[ret len] out] st'] H. apply wp_ret. unfold push_post in H.
  destruct (accepted m n maxLen).
  - destruct H as (? & ? & ? & ?). do 3 (split; [done|]). by split.
  - destruct H as (? & ? & ? & _ & μ' & ?). do 3 (split; [done|]). exists μ'. by split.
Qed.

Lemma split_channels_ok samplesIn n x :
  holds samplesIn 0 (2 * n) x →
  wp (split_channels junk samplesIn (2 * n)) (λ '(l, r),
    holds l 0 n (evens x) ∧ holds r 0 n (odds x)).
Proof.
  intros Hx. unfold split_channels. rewrite half_double, half_double_S.
  apply (wp_for (λ h '(l, r), wrote (alloc junk n) 0 h (evens x) l ∧
                              wrote (alloc junk n) 0 h (odds x) r)).
  - split; apply wrote_nil.
  - intros h [l r] Hh [Wl Wr].
    rewrite (holds_0 _ _ _ (2 * h)%nat Hx) by lia. apply wp_bind, wp_ret.
    apply wp_bind, (wp_wrote_snoc (alloc junk n) 0 h (evens x) l);
      [done|rewrite length_alloc; lia|done|]. intros l' Wl'.
    rewrite (holds_0 _ _ _ (2 * h + 1)%nat Hx) by lia. apply wp_bind, wp_ret.
    apply wp_bind, (wp_wrote_snoc (alloc junk n) 0 h (odds x) r);
      [done|rewrite length_alloc; lia|done|]. intros r' Wr'. by apply wp_ret.
  - intros [l r] [Wl Wr]. split; eapply wrote_holds; done.
Qed.

Lemma join_channels_ok out l r n f g :
  holds l 0 n f → holds r 0 n g → (2 * n ≤ length out)%nat →
  wp (join_channels out l r n) (wrote out 0 (2 * n) (interleave f g)).
Proof.
  intros Hl Hr Ho. unfold join_channels.
  apply (wp_for (λ i, wrote out 0 (2 * i) (interleave f g))).
  - apply wrote_nil.
  - intros i m' Hi W. rewrite (holds_0 _ _ _ i Hl) by lia. apply wp_bind, wp_ret.
    rewrite (Nat.mul_comm i). apply wp_bind, (wp_wrote_snoc out 0 (2 * i) (interleave f g) m');
      [done|lia|by rewrite interleave_even|]. intros m1 W1.
    rewrite (holds_0 _ _ _ i Hr) by lia. apply wp_bind, wp_ret. rewrite Nat.add_1_r.
    apply (wp_wrote_snoc out 0 (S (2 * i)) (interleave f g) m1); [done|lia| |].
    { replace (S (2 * i)) with (2 * i + 1)%nat by lia. by rewrite interleave_odd. }
    intros m2 W2. by replace (2 * S i)%nat with (S (S (2 * i))) by lia.
  - done.
Qed.

Lemma Push_stereo_ok μl μr r samplesIn n samplesOut maxLen outLen x :
  stereo m μl μr r → holds samplesIn 0 (2 * n) x → (maxLen ≤ length samplesOut)%nat →
  (m = kResamplerMode1To1 → (2 * n ≤ maxLen)%nat) →
  wp (Push junk r samplesIn (2 * n) samplesOut maxLen outLen) (λ '(ret, len, out, r'),
    if accepted m n (maxLen / 2)
    then ret = 0 ∧ len = (2 * out_len m n)%nat ∧
         wrote samplesOut 0 (2 * out_len m n)
           (interleave (c_sig _ μl (evens x)) (c_sig _ μr (odds x))) out ∧
         stereo m (c_next _ μl (evens x) n) (c_next _ μr (odds x) n) r'
    else ret = -1 ∧ len = outLen ∧ out = samplesOut ∧ ∃ μl' μr', stereo m μl' μr' r').
Proof.
  intros (c & l & r' & -> & Hc & Hm & Ml & Mr) Hx Ho H11. cbn [Push]. rewrite Hc, Z.eqb_refl.
  apply wp_bind. wp_call (by apply split_channels_ok). intros [li ri] [Hli Hri].
  rewrite half_double. cbv zeta.
  assert (Hroom : room m n (maxLen / 2) (alloc junk (maxLen / 2))).
  { split; rewrite length_alloc; [done|]. intros ?%H11. dlia. }
  apply wp_bind. wp_call (apply (Push_mono_ok _ _ _ _ _ _ 0 _ Ml Hli Hroom)).
  intros [[[ret1 len1] o1] l'] Hl. apply wp_bind.
  wp_call (apply (Push_mono_ok _ _ _ _ _ _ 0 _ Mr Hri Hroom)).
  intros [[[ret2 len2] o2] r''] Hr.
  destruct (accepted m n (maxLen / 2)) eqn:Hacc.
  - destruct Hl as (-> & -> & Wl & Ml'), Hr as (-> & -> & Wr & Mr').
    rewrite Nat.eqb_refl. cbn [Z.lor Z.eqb negb orb]. apply wp_bind.
    wp_call (apply join_channels_ok; [by eapply wrote_holds..|]).
    { apply accepted_room in Hacc as [->|]; [|dlia].
      specialize (H11 eq_refl). mode_lia. }
    intros out W. apply wp_ret. do 3 (split; [done|]). by exists c, l', r''.
  - destruct Hl as (-> & -> & -> & μ1 & Ml'), Hr as (-> & -> & -> & μ2 & Mr').
    cbn. do 3 (split; [done|]). by exists μ1, μ2, c, l', r''.
Qed.
End objects.

(** [Push] on a mono object, in all twenty-one modes. The call is defined. It
    is refused, with result -1, [outLen] and the output unchanged, exactly when the
    input is not a whole number of the mode's blocks or the output would not fit
    into [maxLen] samples; the one-to-one mode refuses nothing. Otherwise it stores
    the number of output samples, [lengthIn] times the ratio, writes exactly these
    samples of the chain of filters and advances the memory of every filter past
    the input. *)
Theorem Push_mono_correct (junk : nat → Z) (m : ResamplerMode) (μ : c_mem (chain m))
    (r : Resampler) (samplesIn : list Z) (n : nat) (samplesOut : list Z) (maxLen outLen : nat)
    (x : nat → Z) :
  mono m μ r → holds samplesIn 0 n x → room m n maxLen samplesOut →
  wp (Push junk r samplesIn n samplesOut maxLen outLen) (λ '(ret, len, out, r'),
    if accepted m n maxLen
    then ret = 0 ∧ len = out_len m n ∧ wrote samplesOut 0 (out_len m n) (c_sig _ μ x) out ∧
         mono m (c_next _ μ x n) r'
    else ret = -1 ∧ len = outLen ∧ out = samplesOut ∧ ∃ μ', mono m μ' r').
Proof. apply Push_mono_ok. Qed.

Definition object (m : ResamplerMode) : Resampler :=
  mkResampler {| states_ := create_states (λ _, 0) m; my_in_frequency_khz_ := 0;
                 my_out_frequency_khz_ := 0; my_mode_ := m; num_channels_ := 1 |} None None.

Lemma object_mono m : mono m (c_zero _) (object m).
Proof. split_and!; [done|done|apply create_states_zero]. Qed.

Lemma Push_mono_correct_witness :
  let inm := replicate 160 (-5) in
  let m := kResamplerMode2To3 in
  wp (Push (λ _, 9) (object m) inm 160 (replicate 240 7) 240 33) (λ '(ret, len, out, r'),
    if accepted m 160 240
    then ret = 0 ∧ len = out_len m 160 ∧
         wrote (replicate 240 7) 0 (out_len m 160) (c_sig (chain m) (c_zero _) (λ i, inm !!! i)) out ∧
         mono m (c_next (chain m) (c_zero _) (λ i, inm !!! i) 160) r'
    else ret = -1 ∧ len = 33%nat ∧ out = replicate 240 7 ∧ ∃ μ', mono m μ' r').
Proof.
  intros inm m. apply (Push_mono_correct (λ _, 9) m (c_zero _)).
  - apply object_mono.
  - intros i Hi. apply lookup_total_Some. unfold inm. by rewrite length_replicate.
  - split; rewrite length_replicate; [done|]. intros ?. done.
Defined.

(** [Push] on a stereo object. The interleaved input is de-interleaved, each
    channel goes through its own chain with its own memory, and the two outputs are
    interleaved again; a refused block leaves the output untouched and the object
    usable. The precondition for the one-to-one mode is the one the code does not
    check: that the output holds the whole input. *)
Theorem Push_stereo_correct (junk : nat → Z) (m : ResamplerMode) (μl μr : c_mem (chain m))
    (r : Resampler) (samplesIn : list Z) (n : nat) (samplesOut : list Z) (maxLen outLen : nat)
    (x : nat → Z) :
  stereo m μl μr r → holds samplesIn 0 (2 * n) x → (maxLen ≤ length samplesOut)%nat →
  (m = kResamplerMode1To1 → (2 * n ≤ maxLen)%nat) →
  wp (Push junk r samplesIn (2 * n) samplesOut maxLen outLen) (λ '(ret, len, out, r'),
    if accepted m n (maxLen / 2)
    then ret = 0 ∧ len = (2 * out_len m n)%nat ∧
         wrote samplesOut 0 (2 * out_len m n)
           (interleave (c_sig _ μl (evens x)) (c_sig _ μr (odds x))) out ∧
         stereo m (c_next _ μl (evens x) n) (c_next _ μr (odds x) n) r'
    else ret = -1 ∧ len = outLen ∧ out = samplesOut ∧ ∃ μl' μr', stereo m μl' μr' r').
Proof. apply Push_stereo_ok. Qed.

Definition object2 (m : ResamplerMode) : Resampler :=
  mkResampler {| states_ := create_states (λ _, 0) m; my_in_frequency_khz_ := 0;
                 my_out_frequency_khz_ := 0; my_mode_ := m; num_channels_ := 2 |}
    (Some (object m)) (Some (object m)).

Lemma object2_stereo m : stereo m (c_zero _) (c_zero _) (object2 m).
Proof. do 3 eexists. split; [reflexivity|]. do 2 (split; [done|]). split; apply object_mono. Qed.

Lemma Push_stereo_correct_witness :
  let inm := [10; -10; 11; -11; 12; -12] in
  let m := kResamplerMode1To2 in
  let x := λ i, inm !!! i in
  wp (Push (λ _, 9) (object2 m) inm (2 * 3) (replicate 12 7) 12 33) (λ '(ret, len, out, r'),
    if accepted m 3 (12 / 2)
    then ret = 0 ∧ len = (2 * out_len m 3)%nat ∧
         wrote (replicate 12 7) 0 (2 * out_len m 3)
           (interleave (c_sig (chain m) (c_zero _) (evens x)) (c_sig (chain m) (c_zero _) (odds x))) out ∧
         stereo m (c_next (chain m) (c_zero _) (evens x) 3) (c_next (chain m) (c_zero _) (odds x) 3) r'
    else ret = -1 ∧ len = 33%nat ∧ out = replicate 12 7 ∧ ∃ μl' μr', stereo m μl' μr' r').
Proof.
  intros inm m x. apply (Push_stereo_correct (λ _, 9) m (c_zero _) (c_zero _)).
  - apply object2_stereo.
  - intros i Hi. apply lookup_total_Some. unfold inm. cbn in Hi |- *. lia.
  - cbn. lia.
  - done.
Defined.

(** ** Streams *)

(** Every stage takes a whole number of the mode's periods and blocks whole. *)
Lemma chain_whole m n :
  (n mod block m = 0)%nat → (n mod (ratio m).1 = 0)%nat →
  c_whole (chain m) n ∧ c_len (chain m) n = out_len m n.
Proof.
  intros Hb Hr.
  destruct m; cbn [chain c_whole c_len];
    repeat match goal with |- _ ∧ _ => split end; try done; cbn [sg_unit Up Down Blocks S16To48
      S48To16 S8To22 S16To22 S22To16 S22To8 cv_in conv16to48 conv48to16 conv8to22 conv16to22
      conv22to16 conv22to8]; mode_lia.
Qed.

Lemma out_len_add m n k : (n mod (ratio m).1 = 0)%nat →
  out_len m (n + k) = (out_len m n + out_len m k)%nat.
Proof. intros H. destruct m; mode_lia. Qed.

Definition chunk_ok (m : ResamplerMode) (maxLen : nat) (c : list Z) : Prop :=
  (length c mod block m = 0)%nat ∧ (length c mod (ratio m).1 = 0)%nat ∧
  (out_len m (length c) ≤ maxLen)%nat.

Section stream.
Context (junk : nat → Z) (maxLen : nat).

(** Successive calls of [Push], one per chunk, with an output buffer of [maxLen]
    samples; the outputs in sequence. *)
Fixpoint push_stream (r : Resampler) (chunks : list (list Z)) : option (list Z * Resampler) :=
  match chunks with
  | [] => Some ([], r)
  | c :: chunks =>
      '(ret, len, out, r) ← Push junk r c (length c) (alloc junk maxLen) maxLen 0;
      if ret =? 0 then
        '(rest, r) ← push_stream r chunks;
        Some (take len out ++ rest, r)
      else None
  end.

Lemma holds_self (c : list Z) : holds c 0 (length c) (λ i, c !!! i).
Proof. intros i Hi. by apply lookup_total_Some. Qed.

Lemma wrote_out n f out : (n ≤ maxLen)%nat →
  wrote (alloc junk maxLen) 0 n f out → take n out = map f (seq 0 n).
Proof.
  intros Hn W. apply wrote_take in W; [|rewrite length_alloc; lia]. by rewrite drop_0 in W.
Qed.

Lemma seq_app_map (f : nat → Z) n k :
  map f (seq 0 (n + k)) = map f (seq 0 n) ++ map (λ i, f (n + i)%nat) (seq 0 k).
Proof.
  rewrite seq_app, map_app. f_equal. cbn [Nat.add]. rewrite <- (Nat.add_0_r n) at 1.
  rewrite <- (fmap_add_seq n 0 k). symmetry. exact (list_fmap_compose (Nat.add n) f (seq 0 k)).
Qed.

Lemma push_stream_ok m μ r chunks :
  mono m μ r → Forall (chunk_ok m maxLen) chunks →
  wp (push_stream r chunks) (λ '(out, r'),
    out = map (c_sig (chain m) μ (λ i, concat chunks !!! i))
              (seq 0 (out_len m (length (concat chunks)))) ∧ ∃ μ', mono m μ' r').
Proof.
  intros Hm Hc. revert μ r Hm. induction Hc as [|c chunks (Hb & Hr & Hl) Hc IH]; intros μ r Hm.
  { split; [by destruct m|by exists μ]. }
  cbn [push_stream concat]. apply wp_bind.
  wp_call (apply (Push_mono_ok junk m μ r c (length c) _ maxLen 0
    (λ i, (c ++ concat chunks) !!! i) Hm)).
  { intros i Hi. cbn [Nat.add]. rewrite lookup_total_app_l by done. by apply lookup_total_Some. }
  { split; rewrite length_alloc; [done|]. intros ->. mode_lia. }
  intros [[[ret len] out] r1]. rewrite accepted_true by done. intros (-> & -> & W & Hm1).
  cbn [Z.eqb]. apply wp_bind. wp_call (apply (IH _ _ Hm1)).
  intros [rest r'] [-> Hr']. apply wp_ret. split; [|done].
  rewrite length_app, out_len_add, seq_app_map by done. f_equal; [by apply wrote_out|].
  destruct (chain_whole m (length c) Hb Hr) as [Hw E]. apply map_ext. intros i.
  rewrite <- E, <- c_shift by done. apply c_proper. intros j. unfold from.
  rewrite !list_lookup_total_alt, lookup_app_r by lia. do 2 f_equal. lia.
Qed.
End stream.

(** C18: The resampler as a stream processor. After a successful [Reset] of any
    object to one channel, any sequence of [Push] calls on chunks that are whole
    numbers of blocks and periods and whose output fits is accepted, and the
    concatenated outputs are the chain of filters, started at rest, applied to the
    concatenated input: how the signal is cut into chunks does not matter. 16-bit
    input gives 16-bit output. *)
Theorem Push_stream_correct (junk : nat → Z) (self : Resampler) (inFreq outFreq : Z)
    (m : ResamplerMode) (maxLen : nat) (chunks : list (list Z)) :
  0 < inFreq ≤ 2147483647 → 0 < outFreq ≤ 2147483647 → supported m inFreq outFreq →
  Forall (chunk_ok m maxLen) chunks →
  wp ('(ret, r) ← Reset junk self inFreq outFreq 1;
      '(out, r) ← push_stream junk maxLen r chunks;
      Some (ret, out))
     (λ '(ret, out), ret = 0 ∧
       out = map (c_sig (chain m) (c_zero _) (λ i, concat chunks !!! i))
                 (seq 0 (out_len m (length (concat chunks)))) ∧
       (Forall int16 (concat chunks) → Forall int16 out)).
Proof.
  intros Hi Ho Hs Hc. apply wp_bind. wp_call (by apply Reset_spec).
  intros [ret r] [(-> & m' & Hm' & [[_ Hr]|[? _]] & _)|(_ & _ & [?|H])]; [|lia..|by apply H in Hs].
  assert (m' = m) as -> by (by apply (supported_unique _ _ inFreq outFreq)).
  apply wp_bind. wp_call (by apply (push_stream_ok junk maxLen m (c_zero _) r chunks)).
  intros [out r'] [-> _]. apply wp_ret. split_and!; [done..|]. intros Hx.
  apply Forall_map, Forall_true. intros i. apply c_int16. intros j.
  rewrite list_lookup_total_alt. destruct (concat chunks !! j) as [v|] eqn:E; cbn.
  - by apply (Forall_lookup_1 _ _ _ _ Hx E).
  - unfold int16. lia.
Qed.

Lemma Push_stream_correct_witness :
  let m := kResamplerMode4To1 in
  let chunks := [[1; 2; 3; 4]; []; [5; 6; 7; 8; 9; 10; 11; 12]] in
  wp ('(ret, r) ← Reset (λ i, Z.of_nat i) Resampler_default 32000 8000 1;
      '(out, r) ← push_stream (λ i, Z.of_nat i) 2 r chunks;
      Some (ret, out))
     (λ '(ret, out), ret = 0 ∧
       out = map (c_sig (chain m) (c_zero _) (λ i, concat chunks !!! i))
                 (seq 0 (out_len m (length (concat chunks)))) ∧
       (Forall int16 (concat chunks) → Forall int16 out)).
Proof.
  intros m chunks.
  apply (Push_stream_correct (λ i, Z.of_nat i) Resampler_default 32000 8000 m 2 chunks);
    [lia|lia|done|].
  repeat constructor.
Defined.

(** ** Sessions *)

(** The invariant of an object between calls. *)
Definition wf (r : Resampler) : Prop :=
  ∃ m, (∃ μ, mono m μ r) ∨ (∃ μl μr, stereo m μl μr r).

Inductive call :=
  | CReset (inFreq outFreq channels : Z)
  | CResetIfNeeded (inFreq outFreq channels : Z)
  | CPush (samplesIn samplesOut : list Z) (maxLen : nat).

(** The caller's obligations: positive rates; an even number of samples and room
    for a plain copy and for [maxLen] samples in the output. *)
Definition call_ok (c : call) : Prop :=
  match c with
  | CReset inFreq outFreq _ | CResetIfNeeded inFreq outFreq _ =>
      0 < inFreq ≤ 2147483647 ∧ 0 < outFreq ≤ 2147483647
  | CPush samplesIn samplesOut maxLen =>
      (length samplesIn mod 2 = 0 ∧ length samplesIn ≤ maxLen ≤ length samplesOut)%nat
  end.

Definition run_call (junk : nat → Z) (r : Resampler) (c : call) : option Resampler :=
  match c with
  | CReset inFreq outFreq channels =>
      '(_, r) ← Reset junk r inFreq outFreq channels; Some r
  | CResetIfNeeded inFreq outFreq channels =>
      '(_, r) ← ResetIfNeeded junk r inFreq outFreq channels; Some r
  | CPush samplesIn samplesOut maxLen =>
      '(_, _, _, r) ← Push junk r samplesIn (length samplesIn) samplesOut maxLen 0; Some r
  end.

Lemma at_rest_wf m channels r : at_rest m channels r → wf r.
Proof. intros [[_ H]|[_ H]]; exists m; [left|right]; eauto. Qed.

Lemma Reset_wf junk r inFreq outFreq channels :
  0 < inFreq ≤ 2147483647 → 0 < outFreq ≤ 2147483647 → wf r →
  wp ('(_, r) ← Reset junk r inFreq outFreq channels; Some r) wf.
Proof.
  intros Hi Ho Hr. apply wp_bind. wp_call (by apply Reset_spec).
  intros [ret r'] [(_ & m & _ & H & _)|(_ & -> & _)]; apply wp_ret; [|done].
  by eapply at_rest_wf.
Qed.

Lemma Push_wf junk r samplesIn samplesOut maxLen :
  call_ok (CPush samplesIn samplesOut maxLen) → wf r →
  wp (run_call junk r (CPush samplesIn samplesOut maxLen)) wf.
Proof.
  intros (He & Hm & Ho) [m [[μ H]|(μl & μr & H)]]; cbn [run_call]; apply wp_bind.
  - wp_call (apply (Push_mono_ok junk m μ _ _ _ _ _ _ _ H (holds_self samplesIn)); split; lia).
    intros [[[ret len] out] r'] Hp. apply wp_ret. exists m. left.
    destruct (accepted _ _ _); destruct Hp as (_ & _ & _ & Hp); eauto.
  - apply Nat.Div0.div_exact in He. set (n := (length samplesIn / 2)%nat) in *.
    assert (Hx := holds_self samplesIn). rewrite He in Hx, Hm |- *.
    wp_call (apply (Push_stereo_ok junk m μl μr _ _ n _ _ _ _ H Hx); lia).
    intros [[[ret len] out] r'] Hp. apply wp_ret. exists m. right.
    destruct (accepted _ _ _); destruct Hp as (_ & _ & _ & Hp); eauto.
Qed.

(** Sessions. Any sequence of [Reset], [ResetIfNeeded] and [Push] calls on a
    newly constructed object, whatever the rates, channel counts and block lengths
    and whether or not the calls are refused, makes no access out of range and
    leaves a well-formed object, as long as [Push] gets an even number of samples
    and room for them. *)
Theorem resampler_session_safe (junk : nat → Z) (calls : list call) :
  Forall call_ok calls →
  wp (foldl (λ r c, r ← r; run_call junk r c) (Some Resampler_default) calls) wf.
Proof.
  assert (H0 : wp (Some Resampler_default) wf).
  { exists kResamplerMode1To1. left. exists tt. by split_and!. }
  revert H0. generalize (Some Resampler_default) as o. intros o Ho Hc. revert o Ho.
  induction Hc as [|c calls Hc _ IH]; intros o Ho; [done|]. cbn [foldl]. apply IH.
  apply wp_bind. wp_call (exact Ho). intros r Hr.
  destruct c as [i o' ch|i o' ch|? ? ?]; cbn [run_call].
  - destruct Hc. by apply Reset_wf.
  - destruct Hc. unfold ResetIfNeeded. destruct (_ || _); [by apply Reset_wf|done].
  - by apply Push_wf.
Qed.

Lemma resampler_session_safe_witness :
  wp (foldl (λ r c, r ← r; run_call (λ i, Z.of_nat i) r c) (Some Resampler_default)
        [CReset 44100 48000 1; CReset 32000 8000 2; CPush (replicate 6 1) (replicate 8 0) 8;
         CResetIfNeeded 8000 48000 1; CPush (replicate 80 1) (replicate 480 0) 480]) wf.
Proof.
  apply (resampler_session_safe (λ i, Z.of_nat i)).
  repeat first [apply Forall_nil_2|apply Forall_cons_2]; cbn [call_ok]; rewrite ?length_replicate;
    (split; [lia || done|lia]).
Defined.

(** ** What the code leaves to its callers *)

Lemma split_channels_odd junk samplesIn n : split_channels junk samplesIn (2 * n + 1) = None.
Proof.
  unfold split_channels. rewrite half_double_S.
  replace ((2 * n + 1 + 1) / 2)%nat with (n + 1)%nat by dlia. rewrite for_loop_app.
  set (body := λ h '(l, r), _). set (s0 := (alloc junk n, alloc junk n)).
  destruct (for_loop n 0 body s0) as [[l1 r1]|] eqn:E; [|done]. cbn [mbind option_bind for_loop].
  enough (body (0 + n)%nat (l1, r1) = None) as -> by done.
  assert (length l1 = n).
  { refine (for_loop_inv (λ s, length s.1 = n) n 0 body s0 _ (length_alloc junk n) _ E).
    intros i [l2 r2] [l3 r3] Hl. unfold body. cbn [fst] in *.
    intros (v & _ & (l' & Hw & (w & _ & (r' & _ & [= <- _])%bind_Some)%bind_Some)%bind_Some)%bind_Some.
    unfold wr in Hw. case_decide; [|done]. injection Hw as <-. by rewrite length_insert. }
  unfold body. cbn [Nat.add]. destruct (samplesIn !! (2 * n)%nat) as [v|]; [|done].
  cbn [mbind option_bind]. assert (wr l1 n v = None) as ->; [|done].
  unfold wr. by rewrite decide_False by lia.
Qed.

(** An odd number of samples. The stereo splitting loop runs to [lengthIn]
    rounded up and its buffers hold [lengthIn] rounded down, so that every odd
    length overruns them. *)
Theorem Push_stereo_odd (junk : nat → Z) (m : ResamplerMode) (μl μr : c_mem (chain m))
    (r : Resampler) (samplesIn : list Z) (n : nat) (samplesOut : list Z) (maxLen outLen : nat) :
  stereo m μl μr r → Push junk r samplesIn (2 * n + 1) samplesOut maxLen outLen = None.
Proof.
  intros (c & l & r' & -> & Hc & _). cbn [Push]. rewrite Hc, Z.eqb_refl.
  by rewrite split_channels_odd.
Qed.

Lemma Push_stereo_odd_witness :
  Push (λ _, 0) (object2 kResamplerMode1To2) [1; 2; 3] (2 * 1 + 1) (replicate 12 0) 12 0 = None.
Proof. apply (Push_stereo_odd _ _ _ _ _ _ _ _ _ _ (object2_stereo kResamplerMode1To2)). Defined.

(** The one-to-one mode ignores [maxLen]. A mono object with equal rates copies
    [lengthIn] samples whatever [maxLen] says: the call overruns every output buffer
    shorter than the input instead of refusing it. *)
Theorem Push_1To1_overrun (junk : nat → Z) (μ : c_mem (chain kResamplerMode1To1))
    (r : Resampler) (samplesIn : list Z) (samplesOut : list Z) (maxLen outLen : nat) :
  mono kResamplerMode1To1 μ r → (length samplesOut < length samplesIn)%nat →
  Push junk r samplesIn (length samplesIn) samplesOut maxLen outLen = None.
Proof.
  destruct r as [c hl hr]. intros (Hch & Hm & _) Hl. cbn [core_of Push] in *.
  rewrite (proj2 (Z.eqb_neq _ _) Hch), Hm. cbn [push_mono]. unfold push_1To1, memcpy.
  by rewrite decide_False by lia.
Qed.

Lemma Push_1To1_overrun_witness :
  Push (λ _, 0) (object kResamplerMode1To1) [1; 2; 3] (length [1; 2; 3]) [0; 0] 2 0 = None.
Proof.
  apply (Push_1To1_overrun _ _ _ _ _ _ _ (object_mono kResamplerMode1To1)). cbn. lia.
Defined.

(** A refused block of the 3:2 mode. When the output fits but the block length
    is not a multiple of 240 the call is refused, yet the first filter has already
    consumed the block: its memory is the one after the refused samples, so that
    the next accepted block is not filtered as if the refused call had not been
    made. *)
Theorem push_3To2_advances (junk : nat → Z) (μ1 : quad * quad)
    (μ2 : sg_mem S48To16) (st : states) (samplesIn : list Z) (n : nat) (samplesOut : list Z)
    (maxLen outLen : nat) (x : nat → Z) :
  c_rep (P2 Up S48To16) st (μ1, μ2) → holds samplesIn 0 n x →
  (out_len kResamplerMode3To2 n ≤ maxLen)%nat → (n mod 240 ≠ 0)%nat →
  wp (push_3To2 junk st samplesIn n samplesOut maxLen outLen) (λ '(ret, len, out, st'),
    ret = -1 ∧ len = outLen ∧ out = samplesOut ∧
    c_rep (P2 Up S48To16) st' (up2_mem μ1 x n, μ2)).
Proof.
  destruct st as [[s1 s2] s3]. intros (R1 & R2 & ->) Hx Ho Hn. unfold push_3To2.
  check_arg; [mode_lia|]. stage (Up_runs n) R1 Hx. intros tmp s1' W1 R1'. cbv zeta.
  check_arg; [|mode_lia]. apply wp_ret. do 3 (split; [done|]). by split.
Qed.

Lemma push_3To2_advances_witness :
  let st := create_states (λ _, 0) kResamplerMode3To2 in
  wp (push_3To2 (λ _, 0) st [100; 200] 2 [7] 1 5) (λ '(ret, len, out, st'),
    ret = -1 ∧ len = 5%nat ∧ out = [7] ∧
    c_rep (P2 Up S48To16) st' (up2_mem zero2 (λ i, [100; 200] !!! i) 2, (zero2, zero4, zeros8))).
Proof.
  intros st. apply (push_3To2_advances (λ _, 0) zero2 (zero2, zero4, zeros8)).
  - exact (create_states_zero (λ _, 0) kResamplerMode3To2).
  - exact (holds_self [100; 200]).
  - cbn. lia.
  - done.
Defined.

(** [ResetIfNeeded] compares whole kilohertz. On an object reset for the rates
    [a] and [b], a call with other rates of the same kilohertz and the same channel
    count reports success and changes nothing, even when the new rates are in no
    supported ratio. *)
Theorem ResetIfNeeded_truncates (junk : nat → Z) (r : Resampler) (a b a' b' channels : Z) :
  rates a b channels r → Z.quot a' 1000 = Z.quot a 1000 → Z.quot b' 1000 = Z.quot b 1000 →
  ResetIfNeeded junk r a' b' channels = Some (0, r).
Proof.
  intros (Ha & Hb & Hc) Ea Eb. unfold ResetIfNeeded.
  by rewrite Ha, Hb, Hc, Ea, Eb, !Z.eqb_refl.
Qed.

Lemma ResetIfNeeded_truncates_witness :
  let r := mkResampler {| states_ := create_states (λ _, 0) kResamplerMode11To4;
     my_in_frequency_khz_ := 22; my_out_frequency_khz_ := 8;
     my_mode_ := kResamplerMode11To4; num_channels_ := 1 |} None None in
  ResetIfNeeded (λ _, 0) r 22050 8000 1 = Some (0, r) ∧
  ComputeResamplerMode 22050 8000 = Some None.
Proof.
  intros r. split; [|reflexivity].
  apply (ResetIfNeeded_truncates (λ _, 0) r 22000 8000 22050 8000 1); [by split_and!|done..].
Defined.

End ResamplerPush.
