(* ===== verification/SeqNum.v ===== *)
(** * Wrapping sequence numbers
    (rtc_base/numerics/mod_ops.h, sequence_number_util.h,
    sequence_number_unwrapper.h)

    Modular arithmetic on unsigned numbers, the ordering of sequence numbers that
    wrap around, and the unwrapper that turns them into 64-bit integers. The
    template argument T is the number of bits of the unsigned type; M = 0 selects
    the full range of T. *)

From S2P Require Import Prelude.

Module SeqNum.

Definition s64 (z : Z) : Z :=
  (z + 9223372036854775808) mod 18446744073709551616 - 9223372036854775808.
Definition int64 (z : Z) : Prop := -9223372036854775808 ≤ z ≤ 9223372036854775807.

(** ** mod_ops.h *)

(** unsigned long is 64 bits wide. *)
Definition Add (M a b : Z) : option Z :=
  _ ← dcheck (a <? M);
  let t := u64 (M - b mod M) in
  let res := u64 (a - t) in
  Some (if t >? a then u64 (res + M) else res).

Definition Subtract (M a b : Z) : option Z :=
  _ ← dcheck (a <? M);
  let sub := b mod M in
  Some (if a <? sub then u64 (M - (sub - a)) else u64 (a - sub)).

(** The variants for M > 0. *)
Definition ForwardDiffM (M a b : Z) : option Z :=
  _ ← dcheck (a <? M);
  _ ← dcheck (b <? M);
  Some (if a <=? b then b - a else M - (a - b)).
Definition ReverseDiffM (M a b : Z) : option Z :=
  _ ← dcheck (a <? M);
  _ ← dcheck (b <? M);
  Some (if b <=? a then a - b else M - (b - a)).
Definition MinDiffM (M a b : Z) : option Z :=
  f ← ForwardDiffM M a b;
  r ← ReverseDiffM M a b;
  Some (Z.min f r).

(** The variants for M = 0: the result is converted to T. *)
Definition ForwardDiff (T a b : Z) : Z := (b - a) mod 2 ^ T.
Definition ReverseDiff (T a b : Z) : Z := (a - b) mod 2 ^ T.
Definition MinDiff (T a b : Z) : Z := Z.min (ForwardDiff T a b) (ReverseDiff T a b).

(** ** sequence_number_util.h *)

Definition AheadOrAtM (M a b : Z) : option bool :=
  let maxDist := M / 2 in
  d ← MinDiffM M a b;
  if Z.even M && (d =? maxDist) then Some (b <? a)
  else
    f ← ForwardDiffM M b a;
    Some (f <=? maxDist).

(** [a - b] is computed in int for the types narrower than int. *)
Definition minus (T a b : Z) : Z := if T <? 32 then a - b else (a - b) mod 2 ^ T.

Definition AheadOrAt (T a b : Z) : bool :=
  let maxDist := (2 ^ T - 1) / 2 + 1 in
  if minus T a b =? maxDist then b <? a
  else ForwardDiff T b a <? maxDist.

Definition AheadOf (T a b : Z) : bool := negb (a =? b) && AheadOrAt T a b.

(** ** sequence_number_unwrapper.h *)

Record SeqNumUnwrapper := mkUnwrapper {
  last_unwrapped_ : Z;
  last_value_ : option Z;
}.

Definition new_unwrapper : SeqNumUnwrapper := mkUnwrapper 0 None.

Definition Delta (T last_value new_value : Z) : Z :=
  let kBackwardAdjustment := (2 ^ T - 1) + 1 in
  let result := ForwardDiff T last_value new_value in
  if negb (AheadOrAt T new_value last_value) then result - kBackwardAdjustment else result.

Definition Unwrap (T : Z) (u : SeqNumUnwrapper) (value : Z) : Z * SeqNumUnwrapper :=
  let last_unwrapped_ :=
    match last_value_ u with
    | None => value
    | Some last => s64 (last_unwrapped_ u + Delta T last value)
    end in
  (last_unwrapped_, mkUnwrapper last_unwrapped_ (Some value)).

Definition PeekUnwrap (T : Z) (u : SeqNumUnwrapper) (value : Z) : Z :=
  match last_value_ u with
  | None => value
  | Some last => s64 (last_unwrapped_ u + Delta T last value)
  end.

Definition Reset (u : SeqNumUnwrapper) : SeqNumUnwrapper := mkUnwrapper 0 None.

(** ** Modular arithmetic *)

(** [Add] and [Subtract] are addition and subtraction modulo M, for every
    modulus and every second operand, although the intermediate unsigned values
    wrap around 2^64. *)
Theorem Add_Subtract_mod (M a b : Z) :
  0 < M < 2 ^ 64 → 0 ≤ a < M → 0 ≤ b < 2 ^ 64 →
  Add M a b = Some ((a + b) mod M) ∧ Subtract M a b = Some ((a - b) mod M).
Proof.
  intros HM Ha Hb. unfold Add, Subtract.
  rewrite (proj2 (Z.ltb_lt a M)) by lia. cbn [dcheck mbind option_bind].
  pose proof (Z.mod_pos_bound b M ltac:(lia)) as Hs.
  assert (E1 : (a + b) mod M = (a + b mod M) mod M) by (by rewrite Zplus_mod_idemp_r).
  assert (E2 : (a - b) mod M = (a - b mod M) mod M) by (by rewrite Zminus_mod_idemp_r).
  rewrite E1, E2. set (s := b mod M) in *. clearbody s. change (2 ^ 64) with 18446744073709551616 in *.
  split; f_equal.
  - rewrite (u64_id (M - s)) by lia. rewrite Z.gtb_ltb. destruct (Z.ltb_spec a (M - s)).
    + unfold u64. rewrite Zplus_mod_idemp_l. rewrite !Z.mod_small by lia. lia.
    + rewrite u64_id by lia. apply (Z.mod_unique_pos _ _ 1); lia.
  - destruct (Z.ltb_spec a s).
    + rewrite u64_id by lia. apply (Z.mod_unique_pos _ _ (-1)); lia.
    + rewrite u64_id, Z.mod_small by lia. done.
Qed.

Lemma Add_Subtract_mod_witness :
  Add 18446744073709551615 18446744073709551614 18446744073709551615 =
    Some ((18446744073709551614 + 18446744073709551615) mod 18446744073709551615) ∧
  Subtract 18446744073709551615 18446744073709551614 18446744073709551615 =
    Some ((18446744073709551614 - 18446744073709551615) mod 18446744073709551615).
Proof. apply (Add_Subtract_mod 18446744073709551615 18446744073709551614); lia. Defined.

(** ** The order of sequence numbers *)

Section width.
Context (T : Z) (HT : 0 < T ≤ 32).

Definition half : Z := 2 ^ (T - 1).

Lemma pow_half : 2 ^ T = 2 * half.
Proof using HT.
  unfold half. replace T with (1 + (T - 1)) at 1 by lia. by rewrite Z.pow_add_r by lia.
Qed.

Lemma half_bound : half ≤ 2147483648.
Proof using HT. unfold half. change 2147483648 with (2 ^ 31). apply Z.pow_le_mono_r; lia. Qed.

Lemma half_pos : 0 < half.
Proof using HT. apply Z.pow_pos_nonneg; lia. Qed.

Lemma max_dist : (2 ^ T - 1) / 2 + 1 = half.
Proof using HT.
  rewrite pow_half. pose proof half_pos. Z.to_euclidean_division_equations; lia.
Qed.

Lemma diff_cases a b : 0 ≤ a < 2 ^ T → 0 ≤ b < 2 ^ T →
  (b - a) mod 2 ^ T = if a <=? b then b - a else b - a + 2 ^ T.
Proof.
  intros. destruct (Z.leb_spec a b); [apply Z.mod_small; lia|].
  symmetry. apply (Z.mod_unique_pos _ _ (-1)); lia.
Qed.

(** The distance from [b] forward to [a], with ties resolved by value. *)
Lemma AheadOrAt_spec a b : 0 ≤ a < 2 ^ T → 0 ≤ b < 2 ^ T →
  AheadOrAt T a b = ((ForwardDiff T b a <? half) || ((ForwardDiff T b a =? half) && (b <? a))).
Proof using HT.
  intros Ha Hb. unfold AheadOrAt. rewrite max_dist. unfold ForwardDiff, minus.
  rewrite (diff_cases b a) by done. pose proof half_pos. rewrite pow_half in *.
  destruct (T <? 32); destruct (Z.leb_spec b a); destruct (Z.ltb_spec b a); try lia;
    repeat match goal with
    | |- context [?x =? ?y] => destruct (Z.eqb_spec x y)
    | |- context [?x <? ?y] => destruct (Z.ltb_spec x y)
    end; try reflexivity; lia.
Qed.

Lemma Forward_cases a b : 0 ≤ a < 2 ^ T → 0 ≤ b < 2 ^ T →
  ForwardDiff T a b = if a <=? b then b - a else b - a + 2 * half.
Proof using HT. intros. unfold ForwardDiff. by rewrite diff_cases, pow_half. Qed.

Lemma AheadOf_opposite a b : 0 ≤ a < 2 ^ T → 0 ≤ b < 2 ^ T → a ≠ b →
  AheadOf T a b = negb (AheadOf T b a).
Proof using HT.
  intros Ha Hb Hab. unfold AheadOf. rewrite !AheadOrAt_spec, !Forward_cases by done.
  rewrite pow_half in *.
  rewrite (proj2 (Z.eqb_neq a b)), (proj2 (Z.eqb_neq b a)) by lia. cbn [negb andb].
  repeat match goal with
  | |- context [?x <=? ?y] => destruct (Z.leb_spec x y); try lia
  | |- context [?x =? ?y] => destruct (Z.eqb_spec x y); try lia
  | |- context [?x <? ?y] => destruct (Z.ltb_spec x y); try lia
  end; reflexivity.
Qed.

(** ** Unwrapping *)

Lemma Delta_spec last v : 0 ≤ last < 2 ^ T → 0 ≤ v < 2 ^ T →
  -half ≤ Delta T last v ≤ half ∧ (last + Delta T last v) mod 2 ^ T = v.
Proof using HT.
  intros Hl Hv. unfold Delta. rewrite AheadOrAt_spec, Forward_cases by done.
  pose proof half_pos. rewrite pow_half in *.
  split.
  - repeat match goal with
    | |- context [?x <=? ?y] => destruct (Z.leb_spec x y)
    | |- context [?x =? ?y] => destruct (Z.eqb_spec x y)
    | |- context [?x <? ?y] => destruct (Z.ltb_spec x y)
    end; cbn [negb orb andb]; lia.
  - repeat match goal with
    | |- context [?x <=? ?y] => destruct (Z.leb_spec x y)
    | |- context [?x =? ?y] => destruct (Z.eqb_spec x y)
    | |- context [?x <? ?y] => destruct (Z.ltb_spec x y)
    end; cbn [negb orb andb]; symmetry;
    first [apply (Z.mod_unique_pos _ _ 0); lia|apply (Z.mod_unique_pos _ _ 1); lia
          |apply (Z.mod_unique_pos _ _ (-1)); lia].
Qed.

(** A step of less than half the range is recovered exactly. *)
Lemma Delta_exact x y : -half < y - x < half →
  Delta T (x mod 2 ^ T) (y mod 2 ^ T) = y - x.
Proof using HT.
  intros H. pose proof half_pos.
  assert (Hx : 0 ≤ x mod 2 ^ T < 2 ^ T) by (apply Z.mod_pos_bound; rewrite pow_half; lia).
  assert (Hy : 0 ≤ y mod 2 ^ T < 2 ^ T) by (apply Z.mod_pos_bound; rewrite pow_half; lia).
  destruct (Delta_spec (x mod 2 ^ T) (y mod 2 ^ T) Hx Hy) as [Hb Hm].
  rewrite Zplus_mod_idemp_l in Hm.
  set (d := Delta T (x mod 2 ^ T) (y mod 2 ^ T)) in *. clearbody d.
  rewrite pow_half in *.
  assert ((x + d - y) mod (2 * half) = 0) as Hz.
  { rewrite Zminus_mod, Hm, Z.sub_diag. apply Z.mod_0_l. lia. }
  apply Z.mod_divide in Hz as [k Hk]; [|lia]. assert (k = 0) as -> by nia. lia.
Qed.

(** The unwrapped values of a sequence of inputs. *)
Fixpoint unwrap_all (u : SeqNumUnwrapper) (vs : list Z) : list Z :=
  match vs with
  | [] => []
  | v :: vs => let '(r, u) := Unwrap T u v in r :: unwrap_all u vs
  end.

(** Every two consecutive elements differ by less than half the range. *)
Fixpoint steady (x : Z) (xs : list Z) : Prop :=
  match xs with
  | [] => True
  | y :: ys => -half < y - x < half ∧ steady y ys
  end.

Lemma unwrap_all_steady x o xs :
  steady x xs → Forall (λ y, int64 (y + o)) xs →
  unwrap_all (mkUnwrapper (x + o) (Some (x mod 2 ^ T))) (map (λ y, y mod 2 ^ T) xs) =
  map (λ y, y + o) xs.
Proof using HT.
  revert x. induction xs as [|y ys IH]; intros x Hs Ho; [done|].
  destruct Hs as [Hd Hs]. apply Forall_cons_1 in Ho as [Hy Ho].
  cbn [map unwrap_all Unwrap last_value_ last_unwrapped_]. rewrite Delta_exact by done.
  assert (s64 (x + o + (y - x)) = y + o) as ->.
  { unfold s64, int64 in *. rewrite Z.mod_small by lia. lia. }
  f_equal. by apply IH.
Qed.

Lemma s64_mod w : s64 w mod 2 ^ T = w mod 2 ^ T.
Proof using HT.
  assert (E : 18446744073709551616 = 2 ^ (64 - T) * 2 ^ T).
  { rewrite <- Z.pow_add_r by lia. by replace (64 - T + T) with 64 by lia. }
  unfold s64. rewrite (Zmod_eq (w + 9223372036854775808)) by lia.
  generalize ((w + 9223372036854775808) / 18446744073709551616) as k. intros k. rewrite E.
  replace (w + 9223372036854775808 - k * (2 ^ (64 - T) * 2 ^ T) - 9223372036854775808)
    with (w + - (k * 2 ^ (64 - T)) * 2 ^ T) by ring.
  apply Z_mod_plus_full.
Qed.

(** The unwrapped value of the last number agrees with it. *)
Definition consistent (u : SeqNumUnwrapper) : Prop :=
  match last_value_ u with
  | Some last => 0 ≤ last < 2 ^ T ∧ last_unwrapped_ u mod 2 ^ T = last
  | None => True
  end.

Lemma Unwrap_congruent u v :
  0 ≤ v < 2 ^ T → consistent u →
  (Unwrap T u v).1 mod 2 ^ T = v ∧ consistent (Unwrap T u v).2.
Proof using HT.
  intros Hv Hu. unfold Unwrap, consistent in *. cbn [fst snd last_value_ last_unwrapped_].
  enough (E : match last_value_ u with
    | Some last => s64 (last_unwrapped_ u + Delta T last v)
    | None => v end mod 2 ^ T = v) by done.
  destruct (last_value_ u) as [last|]; [|by apply Z.mod_small].
  destruct Hu as [Hl Hm]. destruct (Delta_spec last v Hl Hv) as [_ E].
  by rewrite s64_mod, <- Zplus_mod_idemp_l, Hm.
Qed.
End width.

(** Far from the limits of int64_t, reached only after 2^46 numbers. *)
Definition small (B : Z) : Prop := 65535 ≤ B ≤ 2 ^ 61.

(** A step of the unwrapper moves by at most half the range. *)
Lemma Unwrap_range u v B : consistent 16 u → small B → -B ≤ last_unwrapped_ u ≤ B →
  uint16 v → -(B + 32768) ≤ (Unwrap 16 u v).1 ≤ B + 32768.
Proof.
  intros Hu HB Hl Hv. unfold Unwrap, consistent, small, uint16 in *.
  destruct (last_value_ u) as [last|]; cbn [fst]; [|lia].
  destruct Hu as [H16 _]. destruct (Delta_spec 16 ltac:(lia) last v) as [Hd _]; [done|lia|].
  change (half 16) with 32768 in Hd. unfold s64. rewrite Z.mod_small by lia. lia.
Qed.

(** Sequence numbers are totally ordered by [AheadOf] up to wrap-around: of two
    different numbers exactly one is ahead of the other, also when they are half
    the range apart, where the larger value wins; and [AheadOrAt] is [AheadOf] or
    equality. *)
Theorem AheadOf_total (T a b : Z) :
  0 < T ≤ 32 → 0 ≤ a < 2 ^ T → 0 ≤ b < 2 ^ T →
  (a ≠ b → AheadOf T a b = negb (AheadOf T b a)) ∧
  AheadOrAt T a b = (a =? b) || AheadOf T a b.
Proof.
  intros HT Ha Hb. split; [by apply AheadOf_opposite|]. unfold AheadOf.
  destruct (Z.eqb_spec a b) as [->|]; [|done].
  rewrite AheadOrAt_spec by done. unfold ForwardDiff. rewrite Z.sub_diag, Z.mod_0_l by lia.
  by rewrite (proj2 (Z.ltb_lt 0 (half T))) by (by apply half_pos).
Qed.

Lemma AheadOf_total_witness :
  (40000 ≠ 7232 → AheadOf 16 40000 7232 = negb (AheadOf 16 7232 40000)) ∧
  AheadOrAt 16 40000 7232 = (40000 =? 7232) || AheadOf 16 40000 7232.
Proof. apply (AheadOf_total 16 40000 7232); lia. Defined.

(** The unwrapper inverts wrapping. Fed with the wrapped values of a sequence of
    integers whose successive elements differ by less than half the range, it
    returns the sequence itself, shifted by a constant that makes the first value
    the wrapped one; whatever it is fed with, every result agrees with its input
    modulo the range, and one step never moves the result by more than half the
    range. *)
Theorem Unwrap_correct (T x : Z) (xs : list Z) (u : SeqNumUnwrapper) (v : Z) :
  0 < T ≤ 32 → steady T x xs → Forall (λ y, int64 (y - x + x mod 2 ^ T)) xs →
  0 ≤ v < 2 ^ T → consistent T u →
  unwrap_all T new_unwrapper (map (λ y, y mod 2 ^ T) (x :: xs)) =
    map (λ y, y - x + x mod 2 ^ T) (x :: xs) ∧
  (Unwrap T u v).1 mod 2 ^ T = v ∧ consistent T (Unwrap T u v).2 ∧
  PeekUnwrap T u v = (Unwrap T u v).1 ∧
  (∀ last, last_value_ u = Some last → int64 (last_unwrapped_ u + Delta T last v) →
     - 2 ^ (T - 1) ≤ (Unwrap T u v).1 - last_unwrapped_ u ≤ 2 ^ (T - 1)).
Proof.
  intros HT Hs Hi Hv Hu. destruct (Unwrap_congruent T HT u v Hv Hu) as [H1 H2].
  split_and!; [|done..|].
  - cbn [map unwrap_all Unwrap new_unwrapper last_value_]. f_equal; [lia|].
    set (o := x mod 2 ^ T - x).
    replace (mkUnwrapper (x mod 2 ^ T) _) with (mkUnwrapper (x + o) (Some (x mod 2 ^ T)))
      by (f_equal; lia).
    rewrite unwrap_all_steady; [|done|done|].
    + apply map_ext. intros y. unfold o. lia.
    + eapply Forall_weaken; [exact Hi|]. intros y. unfold o.
      by replace (y + (x mod 2 ^ T - x)) with (y - x + x mod 2 ^ T) by lia.
  - intros last El Hb. unfold consistent in Hu. unfold Unwrap. rewrite El in *. cbn [fst].
    destruct Hu as [Hl _]. destruct (Delta_spec T HT last v Hl Hv) as [Hd _].
    unfold s64, int64, half in *. rewrite Z.mod_small by lia. lia.
Qed.

Lemma Unwrap_correct_witness :
  let xs := [65536; 65534; 70000] in
  let u := mkUnwrapper 65536 (Some 0) in
  unwrap_all 16 new_unwrapper (map (λ y, y mod 2 ^ 16) (65535 :: xs)) =
    map (λ y, y - 65535 + 65535 mod 2 ^ 16) (65535 :: xs) ∧
  (Unwrap 16 u 32768).1 mod 2 ^ 16 = 32768 ∧ consistent 16 (Unwrap 16 u 32768).2 ∧
  PeekUnwrap 16 u 32768 = (Unwrap 16 u 32768).1 ∧
  (∀ last, last_value_ u = Some last → int64 (last_unwrapped_ u + Delta 16 last 32768) →
     - 2 ^ (16 - 1) ≤ (Unwrap 16 u 32768).1 - last_unwrapped_ u ≤ 2 ^ (16 - 1)).
Proof.
  intros xs u. apply (Unwrap_correct 16 65535 xs u 32768); [lia| | |lia|].
  - vm_compute. split_and!; auto.
  - unfold xs, int64. repeat (apply Forall_cons_2; [vm_compute; split; discriminate|]).
    apply Forall_nil_2.
  - vm_compute. split_and!; auto; discriminate.
Defined.

End SeqNum.
