(* ===== verification/Units.v ===== *)
(** * Quantities of time and data
    (rtc_base/units/unit_base.h, api/units/time_delta.h, timestamp.h,
    data_size.h, data_rate.h, rtc_base/numerics/divide_round.h,
    modules/rtp_rtcp/source/ntp_time_util.cc)

    A quantity is a 64-bit integer (microseconds, bytes, bits per second) whose two
    extreme values stand for the infinities. Operations check their operands in
    debug builds; a failed check is [None]. *)

From S2P Require Import Prelude SeqNum.
Import SeqNum.

Module Units.

Definition PlusInfinity : Z := 9223372036854775807.
Definition MinusInfinity : Z := -9223372036854775808.

Definition IsPlusInfinity (v : Z) : bool := v =? PlusInfinity.
Definition IsMinusInfinity (v : Z) : bool := v =? MinusInfinity.
Definition IsInfinite (v : Z) : bool := (v =? PlusInfinity) || (v =? MinusInfinity).
Definition IsFinite (v : Z) : bool := negb (IsInfinite v).

(** The value of an integral type that fits int64_t. *)
Definition FromValue (one_sided : bool) (value : Z) : option Z :=
  _ ← dcheck (negb one_sided || (0 <=? value));
  _ ← dcheck (MinusInfinity <? value);
  _ ← dcheck (value <? PlusInfinity);
  Some value.

Definition ToValue (v : Z) : option Z :=
  _ ← dcheck (IsFinite v);
  Some v.

Definition Micros : Z → option Z := FromValue false.
Definition TimestampMicros : Z → option Z := FromValue true.
Definition Bytes : Z → option Z := FromValue true.

(** Timestamp + TimeDelta, Timestamp - TimeDelta, Timestamp - Timestamp. *)
Definition ts_add (t delta : Z) : option Z :=
  if IsPlusInfinity t || IsPlusInfinity delta then
    _ ← dcheck (negb (IsMinusInfinity t));
    _ ← dcheck (negb (IsMinusInfinity delta));
    Some PlusInfinity
  else if IsMinusInfinity t || IsMinusInfinity delta then
    _ ← dcheck (negb (IsPlusInfinity t));
    _ ← dcheck (negb (IsPlusInfinity delta));
    Some MinusInfinity
  else
    a ← ToValue t;
    b ← ToValue delta;
    TimestampMicros (s64 (a + b)).

Definition ts_sub (t delta : Z) : option Z :=
  if IsPlusInfinity t || IsMinusInfinity delta then
    _ ← dcheck (negb (IsMinusInfinity t));
    _ ← dcheck (negb (IsPlusInfinity delta));
    Some PlusInfinity
  else if IsMinusInfinity t || IsPlusInfinity delta then
    _ ← dcheck (negb (IsPlusInfinity t));
    _ ← dcheck (negb (IsMinusInfinity delta));
    Some MinusInfinity
  else
    a ← ToValue t;
    b ← ToValue delta;
    TimestampMicros (s64 (a - b)).

Definition ts_diff (t other : Z) : option Z :=
  if IsPlusInfinity t || IsMinusInfinity other then
    _ ← dcheck (negb (IsMinusInfinity t));
    _ ← dcheck (negb (IsPlusInfinity other));
    Some PlusInfinity
  else if IsMinusInfinity t || IsPlusInfinity other then
    _ ← dcheck (negb (IsPlusInfinity t));
    _ ← dcheck (negb (IsMinusInfinity other));
    Some MinusInfinity
  else
    a ← ToValue t;
    b ← ToValue other;
    Micros (s64 (a - b)).

(** DataSize + DataSize and DataSize - DataSize. *)
Definition size_add (a b : Z) : option Z :=
  if IsPlusInfinity a || IsPlusInfinity b then
    _ ← dcheck (negb (IsMinusInfinity a));
    _ ← dcheck (negb (IsMinusInfinity b));
    Some PlusInfinity
  else if IsMinusInfinity a || IsMinusInfinity b then
    _ ← dcheck (negb (IsPlusInfinity a));
    _ ← dcheck (negb (IsPlusInfinity b));
    Some MinusInfinity
  else
    a ← ToValue a;
    b ← ToValue b;
    Bytes (s64 (a + b)).

Definition size_sub (a b : Z) : option Z :=
  if IsPlusInfinity a || IsMinusInfinity b then
    _ ← dcheck (negb (IsMinusInfinity a));
    _ ← dcheck (negb (IsPlusInfinity b));
    Some PlusInfinity
  else if IsMinusInfinity a || IsPlusInfinity b then
    _ ← dcheck (negb (IsPlusInfinity a));
    _ ← dcheck (negb (IsMinusInfinity b));
    Some MinusInfinity
  else
    a ← ToValue a;
    b ← ToValue b;
    Bytes (s64 (a - b)).

(** DataRate * TimeDelta, and DataSize / DataRate. *)
Definition rate_mul (rate duration : Z) : option Z :=
  r ← ToValue rate;
  d ← ToValue duration;
  let microbits := s64 (r * d) in
  Bytes (Z.quot (s64 (microbits + 4000000)) 8000000).

Definition Microbits (size : Z) : option Z :=
  s ← ToValue size;
  _ ← dcheck (s <=? 9223372036854775807 / 8000000);
  Some (s64 (s * 8000000)).

Definition size_div_rate (size rate : Z) : option Z :=
  m ← Microbits size;
  r ← ToValue rate;
  if r =? 0 then None else Micros (Z.quot m r).

(** TimeDelta::Seconds(value) / scalar. *)
Definition Seconds (value : Z) : option Z :=
  _ ← dcheck (Z.quot MinusInfinity 1000000 <? value);
  _ ← dcheck (value <? Z.quot PlusInfinity 1000000);
  Some (value * 1000000).
Definition td_div (v scalar : Z) : option Z :=
  a ← ToValue v;
  if scalar =? 0 then None else Micros (Z.quot a scalar).

(** TimeDelta + TimeDelta and TimeDelta - TimeDelta. *)
Definition td_add (a b : Z) : option Z :=
  if IsPlusInfinity a || IsPlusInfinity b then
    _ ← dcheck (negb (IsMinusInfinity a));
    _ ← dcheck (negb (IsMinusInfinity b));
    Some PlusInfinity
  else if IsMinusInfinity a || IsMinusInfinity b then
    _ ← dcheck (negb (IsPlusInfinity a));
    _ ← dcheck (negb (IsPlusInfinity b));
    Some MinusInfinity
  else
    a ← ToValue a;
    b ← ToValue b;
    Micros (s64 (a + b)).

Definition td_sub (a b : Z) : option Z :=
  if IsPlusInfinity a || IsMinusInfinity b then
    _ ← dcheck (negb (IsMinusInfinity a));
    _ ← dcheck (negb (IsPlusInfinity b));
    Some PlusInfinity
  else if IsMinusInfinity a || IsPlusInfinity b then
    _ ← dcheck (negb (IsPlusInfinity a));
    _ ← dcheck (negb (IsMinusInfinity b));
    Some MinusInfinity
  else
    a ← ToValue a;
    b ← ToValue b;
    Micros (s64 (a - b)).

(** TimeDelta * scalar, Abs, and rounding to a multiple of a resolution. *)
Definition td_mul (v scalar : Z) : option Z :=
  a ← ToValue v;
  Micros (s64 (a * scalar)).

Definition Abs (v : Z) : option Z :=
  us ← ToValue v;
  if us <? 0 then Micros (s64 (- us)) else Some v.

Definition RoundUpTo (v resolution : Z) : option Z :=
  _ ← dcheck (IsFinite v);
  _ ← dcheck (IsFinite resolution);
  _ ← dcheck (0 <? resolution);
  td_mul (Z.quot (s64 (s64 (v + resolution) - 1)) resolution) resolution.

Definition RoundDownTo (v resolution : Z) : option Z :=
  _ ← dcheck (IsFinite v);
  _ ← dcheck (IsFinite resolution);
  _ ← dcheck (0 <? resolution);
  td_mul (Z.quot v resolution) resolution.

(** ** Floating-point numbers

    A non-negative value is an integer times a power of two. [rne] rounds to a number
    of significant bits (24 in single, 53 in double precision), to nearest with ties to
    even; the values here stay far from the limits of the exponent. *)
Record float := Fl { mant : Z; expo : Z }.

Definition rne (bits m e : Z) : float :=
  let k := Z.log2 m + 1 - bits in
  if k <=? 0 then Fl m e
  else
    let q := m / 2 ^ k in
    let r := m mod 2 ^ k in
    let half := 2 ^ (k - 1) in
    Fl (if (half <? r) || ((r =? half) && Z.odd q) then q + 1 else q) (e + k).

(** [std::llround]: to nearest, ties away from zero. *)
Definition llround (f : float) : Z :=
  if 0 <=? expo f then mant f * 2 ^ expo f
  else (mant f + 2 ^ (- expo f - 1)) / 2 ^ (- expo f).

(** DataRate * double, DataSize / TimeDelta. *)
Definition rate_scale (rate : Z) (scalar : float) : option Z :=
  v ← ToValue rate;
  let x := rne 53 v 0 in
  FromValue true (llround (rne 53 (mant x * mant scalar) (expo x + expo scalar))).

Definition size_div_time (size duration : Z) : option Z :=
  m ← Microbits size;
  d ← ToValue duration;
  if d =? 0 then None else FromValue true (Z.quot m d).

(** ** Rounded division and compact NTP intervals *)

Definition DivideRoundToNearest (dividend divisor : Z) : option Z :=
  _ ← dcheck (0 <? divisor);
  if dividend <? 0 then
    let half_of_divisor := Z.quot divisor 2 in
    let quotient := Z.quot dividend divisor in
    let remainder := Z.rem dividend divisor in
    Some (if - remainder >? half_of_divisor then quotient - 1 else quotient)
  else
    let half_of_divisor := Z.quot (divisor - 1) 2 in
    let quotient := Z.quot dividend divisor in
    let remainder := Z.rem dividend divisor in
    Some (if remainder >? half_of_divisor then quotient + 1 else quotient).

Definition kNumMicrosecsPerSec : Z := 1000000.

Definition SaturatedToCompactNtp (delta : Z) : option Z :=
  let kMaxCompactNtp := 0xFFFFFFFF in
  let kCompactNtpInSecond := 0x10000 in
  if delta <=? 0 then Some 0
  else
    us ← ToValue delta;
    if us >=? Z.quot (kMaxCompactNtp * kNumMicrosecsPerSec) kCompactNtpInSecond
    then Some kMaxCompactNtp
    else
      r ← DivideRoundToNearest (s64 (us * kCompactNtpInSecond)) kNumMicrosecsPerSec;
      Some (u32 r).

Definition CompactNtpIntervalToTimeDelta (compact_ntp_interval : Z) : option Z :=
  let value := compact_ntp_interval in
  let value := if compact_ntp_interval >? 0x80000000 then value - 2 ^ 32 else value in
  us ← DivideRoundToNearest (s64 (value * kNumMicrosecsPerSec)) (2 ^ 16);
  Micros us.

Definition CompactNtpRttToTimeDelta (compact_ntp_interval : Z) : option Z :=
  let kMinRtt := 1000 in
  d ← CompactNtpIntervalToTimeDelta compact_ntp_interval;
  Some (Z.max d kMinRtt).

(** ** Properties *)

(** A finite value. *)
Definition finite (v : Z) : Prop := MinusInfinity < v < PlusInfinity.

Lemma IsFinite_iff v : int64 v → IsFinite v = true ↔ finite v.
Proof.
  unfold IsFinite, IsInfinite, int64, finite, PlusInfinity, MinusInfinity. intros.
  rewrite negb_true_iff, orb_false_iff, !Z.eqb_neq. lia.
Qed.

Lemma finite_flags v : finite v →
  IsFinite v = true ∧ IsPlusInfinity v = false ∧ IsMinusInfinity v = false.
Proof.
  unfold finite, IsFinite, IsInfinite, IsPlusInfinity, IsMinusInfinity. intros.
  rewrite !(proj2 (Z.eqb_neq v _)) by lia. done.
Qed.

Lemma s64_id z : int64 z → s64 z = z.
Proof. unfold int64, s64. intros. rewrite Z.mod_small; lia. Qed.

Lemma FromValue_ok b v : (b = true → 0 ≤ v) → finite v → FromValue b v = Some v.
Proof.
  unfold FromValue, finite. intros Hb Hv.
  rewrite (proj2 (Z.ltb_lt MinusInfinity v)), (proj2 (Z.ltb_lt v PlusInfinity)) by lia.
  destruct b; [|done]. by rewrite (proj2 (Z.leb_le 0 v)) by auto.
Qed.

Lemma ToValue_ok v : finite v → ToValue v = Some v.
Proof. intros (H & _)%finite_flags. unfold ToValue. by rewrite H. Qed.

Ltac finite_flag H :=
  let F := fresh in pose proof (finite_flags _ H) as F;
  destruct F as (? & ? & ?).

(** Differences and sums of finite values whose result is representable. *)
Lemma ts_diff_ok a b : finite a → finite b → finite (a - b) → ts_diff a b = Some (a - b).
Proof.
  intros Ha Hb Hd. unfold ts_diff. finite_flag Ha. finite_flag Hb.
  repeat match goal with H : _ = false |- _ => rewrite H; clear H end. cbn [orb].
  rewrite !ToValue_ok by done. cbn [mbind option_bind].
  rewrite s64_id by (unfold finite, int64, PlusInfinity, MinusInfinity in *; lia).
  by apply FromValue_ok.
Qed.

Lemma ts_add_ok a b : finite a → finite b → 0 ≤ a + b → finite (a + b) → ts_add a b = Some (a + b).
Proof.
  intros Ha Hb Hs Hd. unfold ts_add. finite_flag Ha. finite_flag Hb.
  repeat match goal with H : _ = false |- _ => rewrite H; clear H end. cbn [orb].
  rewrite !ToValue_ok by done. cbn [mbind option_bind].
  rewrite s64_id by (unfold finite, int64, PlusInfinity, MinusInfinity in *; lia).
  by apply FromValue_ok.
Qed.

Lemma size_add_ok a b : finite a → finite b → 0 ≤ a + b → finite (a + b) →
  size_add a b = Some (a + b).
Proof. exact (ts_add_ok a b). Qed.

Lemma size_sub_ok a b : finite a → finite b → 0 ≤ a - b → finite (a - b) →
  size_sub a b = Some (a - b).
Proof.
  intros Ha Hb Hs Hd. unfold size_sub. finite_flag Ha. finite_flag Hb.
  repeat match goal with H : _ = false |- _ => rewrite H; clear H end. cbn [orb].
  rewrite !ToValue_ok by done. cbn [mbind option_bind].
  rewrite s64_id by (unfold finite, int64, PlusInfinity, MinusInfinity in *; lia).
  by apply FromValue_ok.
Qed.

Lemma ts_sub_ok a b : finite a → finite b → 0 ≤ a - b → finite (a - b) → ts_sub a b = Some (a - b).
Proof. exact (size_sub_ok a b). Qed.

Lemma td_sub_ok a b : finite a → finite b → finite (a - b) → td_sub a b = Some (a - b).
Proof. exact (ts_diff_ok a b). Qed.

Lemma td_add_ok a b : finite a → finite b → finite (a + b) → td_add a b = Some (a + b).
Proof.
  intros Ha Hb Hd. unfold td_add. finite_flag Ha. finite_flag Hb.
  repeat match goal with H : _ = false |- _ => rewrite H; clear H end. cbn [orb].
  rewrite !ToValue_ok by done. cbn [mbind option_bind].
  rewrite s64_id by (unfold finite, int64, PlusInfinity, MinusInfinity in *; lia).
  by apply FromValue_ok.
Qed.

Lemma td_mul_ok a k : finite a → finite (a * k) → td_mul a k = Some (a * k).
Proof.
  intros Ha Hk. unfold td_mul. rewrite ToValue_ok by done. cbn [mbind option_bind].
  rewrite s64_id by (unfold finite, int64, PlusInfinity, MinusInfinity in *; lia).
  by apply FromValue_ok.
Qed.

Lemma Abs_ok v : finite v → finite (- v) → Abs v = Some (Z.abs v).
Proof.
  intros Hv Hn. unfold Abs. rewrite ToValue_ok by done. cbn [mbind option_bind].
  destruct (Z.ltb_spec v 0); [|by rewrite Z.abs_eq by lia].
  rewrite s64_id by (unfold finite, int64, PlusInfinity, MinusInfinity in *; lia).
  rewrite Z.abs_neq by lia. by apply FromValue_ok.
Qed.

Lemma RoundUpTo_ok v r : 0 < r → 0 ≤ v → finite (v + r) →
  ∃ q, RoundUpTo v r = Some (q * r) ∧ v ≤ q * r < v + r.
Proof.
  intros Hr Hv Hf. unfold RoundUpTo.
  assert (F1 : finite v) by (unfold finite, PlusInfinity, MinusInfinity in *; lia).
  assert (F2 : finite r) by (unfold finite, PlusInfinity, MinusInfinity in *; lia).
  rewrite (proj1 (finite_flags _ F1)), (proj1 (finite_flags _ F2)), (proj2 (Z.ltb_lt 0 r)) by lia.
  cbn [dcheck mbind option_bind].
  assert (Hi : int64 (v + r)) by (unfold finite, int64, PlusInfinity, MinusInfinity in *; lia).
  rewrite (s64_id (v + r)), s64_id by (unfold int64 in *; lia).
  exists (Z.quot (v + r - 1) r).
  assert (Hq : v ≤ Z.quot (v + r - 1) r * r < v + r).
  { rewrite Z.quot_div_nonneg by lia. pose proof (Z.div_mod (v + r - 1) r ltac:(lia)).
    pose proof (Z.mod_pos_bound (v + r - 1) r Hr). nia. }
  split; [|done]. apply td_mul_ok; [|unfold finite, PlusInfinity, MinusInfinity in *; lia].
  assert (0 ≤ Z.quot (v + r - 1) r) by (apply Z.quot_pos; lia).
  set (q := Z.quot (v + r - 1) r) in *. clearbody q. unfold finite, PlusInfinity, MinusInfinity in *. nia.
Qed.

(** Rounding down truncates towards zero. *)
Lemma RoundDownTo_ok v r : 0 < r → finite v → finite r →
  RoundDownTo v r = Some (Z.quot v r * r).
Proof.
  intros Hr Hv Hf. unfold RoundDownTo.
  rewrite (proj1 (finite_flags _ Hv)), (proj1 (finite_flags _ Hf)), (proj2 (Z.ltb_lt 0 r)) by lia.
  cbn [dcheck mbind option_bind]. unfold finite, PlusInfinity, MinusInfinity in *.
  apply td_mul_ok; unfold finite, PlusInfinity, MinusInfinity;
    Z.to_euclidean_division_equations; nia.
Qed.

(** Rounding at most doubles a number. *)
Lemma rne_bound bits m e : 0 < bits → 0 ≤ m →
  0 ≤ mant (rne bits m e) ∧ e ≤ expo (rne bits m e) ∧
  mant (rne bits m e) * 2 ^ (expo (rne bits m e) - e) ≤ 2 * m.
Proof.
  intros Hb Hm. unfold rne. set (k := Z.log2 m + 1 - bits). destruct (Z.leb_spec k 0) as [Hk|Hk]; cbn [mant expo].
  { rewrite Z.sub_diag, Z.pow_0_r. lia. }
  assert (Hp : 0 < 2 ^ k) by (apply Z.pow_pos_nonneg; lia).
  assert (Hq : 1 ≤ m / 2 ^ k).
  { destruct (Z.eq_dec m 0) as [->|]; [unfold k in Hk; cbn in Hk; lia|].
    pose proof (Z.log2_spec m ltac:(lia)) as [Hl _]. apply Z.div_le_lower_bound; [done|].
    rewrite Z.mul_1_r. etransitivity; [|exact Hl]. apply Z.pow_le_mono_r; unfold k; lia. }
  pose proof (Z.mul_div_le m (2 ^ k) Hp). replace (e + k - e) with k by lia.
  destruct (_ || _); split_and!; nia || lia.
Qed.

Lemma llround_bound f M k : 0 ≤ mant f → 0 ≤ k → 0 ≤ k + expo f →
  mant f * 2 ^ (k + expo f) ≤ M → 0 ≤ llround f ∧ llround f * 2 ^ k ≤ M + 2 ^ k.
Proof.
  intros Hm Hk Hke HM. assert (Hpk : 0 < 2 ^ k) by (apply Z.pow_pos_nonneg; lia).
  unfold llround. destruct (Z.leb_spec 0 (expo f)) as [He|He].
  - rewrite Z.pow_add_r in HM by lia. assert (0 < 2 ^ expo f) by (apply Z.pow_pos_nonneg; lia). nia.
  - set (a := - expo f). assert (Ea : expo f = - a) by (unfold a; lia). rewrite Ea in *.
    assert (Hp : 0 < 2 ^ (a - 1)) by (apply Z.pow_pos_nonneg; lia).
    assert (E2 : 2 ^ a = 2 * 2 ^ (a - 1)) by (rewrite <- Z.pow_succ_r by lia; f_equal; lia).
    assert (Ek : 2 ^ k = 2 ^ (k + - a) * 2 ^ a) by (rewrite <- Z.pow_add_r by lia; f_equal; lia).
    assert (0 < 2 ^ (k + - a)) by (apply Z.pow_pos_nonneg; lia).
    set (q := (mant f + 2 ^ (a - 1)) / 2 ^ a).
    assert (Hq : 0 ≤ q ∧ q * 2 ^ a ≤ mant f + 2 ^ (a - 1)).
    { split; [apply Z.div_pos; lia|]. rewrite Z.mul_comm. apply Z.mul_div_le. lia. }
    split; [apply Hq|]. rewrite Ek. nia.
Qed.

Lemma DivideRoundToNearest_spec n d : 0 < d →
  ∃ q, DivideRoundToNearest n d = Some q ∧ - d ≤ 2 * (q * d - n) ≤ d.
Proof.
  intros Hd. unfold DivideRoundToNearest. rewrite (proj2 (Z.ltb_lt 0 d)) by done.
  cbn [dcheck mbind option_bind]. rewrite !Z.gtb_ltb.
  destruct (Z.ltb_spec n 0); eexists; (split; [done|]);
    match goal with |- context [if ?b then _ else _] => destruct b eqn:E end;
    try apply Z.ltb_lt in E; try apply Z.ltb_ge in E;
    Z.to_euclidean_division_equations; nia.
Qed.

(** Compact NTP intervals. An interval of up to 2^15 seconds survives the
    conversion to 1/2^16 second units and back with an error of at most eight
    microseconds, half a unit each way. *)
Theorem CompactNtp_roundtrip (us : Z) :
  0 ≤ us < 32768 * 1000000 - 8 →
  ∃ ntp us', SaturatedToCompactNtp us = Some ntp ∧ 0 ≤ ntp < 2 ^ 31 ∧
    CompactNtpIntervalToTimeDelta ntp = Some us' ∧ -8 ≤ us' - us ≤ 8.
Proof.
  intros Hus. unfold SaturatedToCompactNtp.
  assert (Hf : finite us) by (unfold finite, PlusInfinity, MinusInfinity; lia).
  assert (∃ ntp, (if us <=? 0 then Some 0 else
      v ← ToValue us;
      if v >=? Z.quot (0xFFFFFFFF * kNumMicrosecsPerSec) 0x10000 then Some 0xFFFFFFFF
      else r ← DivideRoundToNearest (s64 (v * 0x10000)) kNumMicrosecsPerSec; Some (u32 r)) =
      Some ntp ∧ 0 ≤ ntp < 2 ^ 31 ∧ - 1000000 ≤ 2 * (ntp * 1000000 - us * 65536) ≤ 1000000)
    as (ntp & -> & Hn & Hb).
  { destruct (Z.leb_spec us 0); [exists 0; split; [done|lia]|].
    rewrite ToValue_ok by done. cbn [mbind option_bind].
    change (Z.quot (0xFFFFFFFF * kNumMicrosecsPerSec) 0x10000) with 65535999984.
    rewrite Z.geb_leb, (proj2 (Z.leb_gt _ _)) by lia.
    rewrite s64_id by (unfold int64; lia).
    destruct (DivideRoundToNearest_spec (us * 0x10000) kNumMicrosecsPerSec) as (q & -> & Hq);
      [done|]. cbn [mbind option_bind]. unfold kNumMicrosecsPerSec in Hq.
    exists q. rewrite u32_id by (unfold uint32; lia). split; [done|]. lia. }
  destruct (DivideRoundToNearest_spec (ntp * kNumMicrosecsPerSec) (2 ^ 16)) as (q & E & Hq);
    [done|]. unfold kNumMicrosecsPerSec in Hq.
  exists ntp, q. split; [done|]. split; [done|]. split; [|lia].
  unfold CompactNtpIntervalToTimeDelta. rewrite Z.gtb_ltb, (proj2 (Z.ltb_ge _ _)) by lia.
  rewrite s64_id by (unfold int64, kNumMicrosecsPerSec; lia). rewrite E. cbn [mbind option_bind].
  apply FromValue_ok; [done|]. unfold finite, PlusInfinity, MinusInfinity. lia.
Qed.

Lemma CompactNtp_roundtrip_witness :
  ∃ ntp us', SaturatedToCompactNtp 1234567 = Some ntp ∧ 0 ≤ ntp < 2 ^ 31 ∧
    CompactNtpIntervalToTimeDelta ntp = Some us' ∧ -8 ≤ us' - 1234567 ≤ 8.
Proof. apply (CompactNtp_roundtrip 1234567). lia. Defined.

End Units.
