(* ===== verification/Rtcp.v ===== *)
(** * RTCP bytes and headers
    (modules/rtp_rtcp/source/byte_io.h, rtcp_packet.cc,
    rtcp_packet/common_header.cc)

    Big-endian words in a byte buffer, the common header of every RTCP packet and
    its parser. Buffers are lists of bytes with values 0..255; a pointer is an
    offset into its buffer. The packets handed to the callback of a packet writer
    are returned in order. *)

From S2P Require Import Prelude SplInl.

Module Rtcp.

Definition bytes_ok (l : list Z) : Prop := Forall uint8 l.

(** ** byte_io.h: the specialisations for two and four bytes *)

Definition ReadBigEndian16 (data : list Z) (p : nat) : option Z :=
  b0 ← data !! p;
  b1 ← data !! (p + 1)%nat;
  Some (u16 (Z.lor (Z.shiftl b0 8) b1)).

Definition ReadBigEndian32 (data : list Z) (p : nat) : option Z :=
  b0 ← data !! p;
  b1 ← data !! (p + 1)%nat;
  b2 ← data !! (p + 2)%nat;
  b3 ← data !! (p + 3)%nat;
  Some (Z.lor (Z.lor (Z.lor (u32 (Z.shiftl b0 24)) (u32 (Z.shiftl b1 16))) (u32 (Z.shiftl b2 8))) b3).

Definition WriteBigEndian16 (data : list Z) (p : nat) (val : Z) : option (list Z) :=
  data ← wr data p (u8 (Z.shiftr val 8));
  wr data (p + 1) (u8 val).

Definition WriteBigEndian32 (data : list Z) (p : nat) (val : Z) : option (list Z) :=
  data ← wr data p (u8 (Z.shiftr val 24));
  data ← wr data (p + 1) (u8 (Z.shiftr val 16));
  data ← wr data (p + 2) (u8 (Z.shiftr val 8));
  wr data (p + 3) (u8 val).

(** The general case, here with three bytes of a 32-bit type. *)
Definition ReadBigEndian24 (data : list Z) (p : nat) : option Z :=
  for_loop 3 0 (λ i val,
    b ← data !! (p + i)%nat;
    Some (Z.lor val (u32 (Z.shiftl b ((3 - 1 - Z.of_nat i) * 8))))) 0.

Definition WriteBigEndian24 (data : list Z) (p : nat) (val : Z) : option (list Z) :=
  for_loop 3 0 (λ i data,
    wr data (p + i) (u8 (Z.shiftr val ((3 - 1 - Z.of_nat i) * 8)))) data.

(** Signed words of two bytes. *)
Definition ReinterpretAsSigned16 (unsigned_val : Z) : Z :=
  if negb (Z.land unsigned_val 0x8000 =? 0)
  then Z.lor (Z.land unsigned_val 0x7fff) (-32768)
  else unsigned_val.

Definition ReadBigEndianSigned16 (data : list Z) (p : nat) : option Z :=
  v ← ReadBigEndian16 data p;
  Some (ReinterpretAsSigned16 v).

Definition WriteBigEndianSigned16 (data : list Z) (p : nat) (val : Z) : option (list Z) :=
  WriteBigEndian16 data p (u16 val).

(** ** rtcp_packet.cc *)

Definition kHeaderLength : nat := 4.

(** The buffer and the position after the header. *)
Definition CreateHeader (count_or_format packet_type length : Z) (padding : bool)
    (buffer : list Z) (pos : nat) : option (list Z * nat) :=
  _ ← dcheck (length <=? 0xffff);
  _ ← dcheck (count_or_format <=? 0x1f);
  let kVersionBits := u8 (Z.shiftl 2 6) in
  let padding_bit := if padding then u8 (Z.shiftl 1 5) else 0 in
  buffer ← wr buffer pos (u8 (Z.lor (Z.lor kVersionBits padding_bit) (u8 count_or_format)));
  buffer ← wr buffer (pos + 1) packet_type;
  buffer ← wr buffer (pos + 2) (Z.land (Z.shiftr length 8) 0xff);
  buffer ← wr buffer (pos + 3) (Z.land length 0xff);
  Some (buffer, (pos + kHeaderLength)%nat).

(** Size of the packet as written in the header, from its size in bytes. *)
Definition HeaderLength (length_in_bytes : nat) : option Z :=
  _ ← dcheck (0 <? length_in_bytes)%nat;
  _ ← dcheck (length_in_bytes mod 4 =? 0)%nat;
  Some (Z.of_nat ((length_in_bytes - kHeaderLength) / 4)).

(** Hands the first [index] bytes to the callback; [None] for a null callback. *)
Definition OnBufferFull (packet : list Z) (index : nat) (callback : bool)
    (sent : list (list Z)) : option (bool * nat * list (list Z)) :=
  if (index =? 0)%nat then Some (false, index, sent)
  else
    _ ← dcheck callback;
    Some (true, 0%nat, sent ++ [take index packet]).

(** ** common_header.cc *)

(** [payload_] is the offset of the payload in the buffer. *)
Record CommonHeader := mkHeader {
  packet_type_ : Z;
  count_or_format_ : Z;
  padding_size_ : Z;
  payload_size_ : Z;
  payload_ : nat;
}.

Definition kHeaderSizeBytes : nat := 4.

(** The header is [None] where the code returns false. *)
Definition ParseHeader (buffer : list Z) (p : nat) (size_bytes : nat)
  : option (option CommonHeader) :=
  if (size_bytes <? kHeaderSizeBytes)%nat then Some None
  else
    b0 ← buffer !! p;
    let version := Z.shiftr b0 6 in
    if negb (version =? 2) then Some None
    else
      let has_padding := negb (Z.land b0 0x20 =? 0) in
      let count_or_format_ := Z.land b0 0x1F in
      packet_type_ ← buffer !! (p + 1)%nat;
      len ← ReadBigEndian16 buffer (p + 2);
      let payload_size_ := len * 4 in
      let payload_ := (p + kHeaderSizeBytes)%nat in
      if (size_bytes <? kHeaderSizeBytes + Z.to_nat payload_size_)%nat then Some None
      else if has_padding then
        if payload_size_ =? 0 then Some None
        else
          padding_size_ ← buffer !! (payload_ + Z.to_nat (payload_size_ - 1))%nat;
          if padding_size_ =? 0 then Some None
          else if padding_size_ >? payload_size_ then Some None
          else Some (Some (mkHeader packet_type_ count_or_format_ padding_size_
                             (payload_size_ - padding_size_) payload_))
      else Some (Some (mkHeader packet_type_ count_or_format_ 0 payload_size_ payload_)).

(** ** Words and bytes *)

Definition be16 (v : Z) : list Z := [v / 256 mod 256; v mod 256].
Definition be32 (v : Z) : list Z :=
  [v / 16777216 mod 256; v / 65536 mod 256; v / 256 mod 256; v mod 256].

(** [buf] with the bytes [bs] at [p]. *)
Definition put (buf : list Z) (p : nat) (bs : list Z) : list Z :=
  take p buf ++ bs ++ drop (p + length bs) buf.

Lemma length_put buf p bs : (p + length bs ≤ length buf)%nat → length (put buf p bs) = length buf.
Proof. intros. unfold put. rewrite !length_app, length_take, length_drop. lia. Qed.

Lemma put_put buf p a b : (p + length a + length b ≤ length buf)%nat →
  put (put buf p a) (p + length a) b = put buf p (a ++ b).
Proof.
  intros H. destruct (split4 buf p (length a) (length b) H) as (x & y & z & w & -> & Hx & Hy & Hz).
  unfold put. rewrite length_app. rewrite (take_app_length' x) by lia.
  rewrite (drop_app2 x y) by lia. rewrite (take_app2 x a (z ++ w)) by lia.
  rewrite (drop_app3 x a z w), (drop_app3 x y z w) by lia.
  by rewrite <- !app_assoc.
Qed.

Lemma wr_put buf p v : (p < length buf)%nat → wr buf p v = Some (put buf p [v]).
Proof.
  intros H. rewrite wr_lt by done. f_equal. unfold put. cbn [length app].
  rewrite insert_take_drop by done. do 3 f_equal. lia.
Qed.

Lemma lookup_put buf p bs i : (p + length bs ≤ length buf)%nat → (i < length bs)%nat →
  put buf p bs !! (p + i)%nat = bs !! i.
Proof.
  intros H Hi. unfold put. rewrite lookup_app_r by (rewrite length_take; lia).
  rewrite length_take, lookup_app_l by lia. f_equal. lia.
Qed.

Lemma put_end buf p bs : (p + length bs ≤ length buf)%nat →
  take (length bs) (drop p (put buf p bs)) = bs.
Proof.
  intros H. unfold put. rewrite drop_app_length' by (rewrite length_take; lia).
  by rewrite take_app_length.
Qed.

Lemma u8_mod v : u8 v = v mod 256.
Proof. done. Qed.

Lemma WriteBigEndian16_put buf p v : (p + 2 ≤ length buf)%nat →
  WriteBigEndian16 buf p v = Some (put buf p (be16 v)).
Proof.
  intros H. unfold WriteBigEndian16. rewrite wr_put by lia. cbn [mbind option_bind].
  rewrite wr_put by (rewrite length_put; cbn [length]; lia).
  rewrite (put_put buf p [_] [_]) by (cbn [length]; lia). cbn [app].
  by rewrite Z.shiftr_div_pow2 by lia.
Qed.

Lemma WriteBigEndian32_put buf p v : (p + 4 ≤ length buf)%nat →
  WriteBigEndian32 buf p v = Some (put buf p (be32 v)).
Proof.
  intros H. unfold WriteBigEndian32. rewrite wr_put by lia. cbn [mbind option_bind].
  rewrite wr_put by (rewrite length_put; cbn [length]; lia).
  rewrite (put_put buf p [_] [_]) by (cbn [length]; lia). cbn [mbind option_bind app].
  rewrite wr_put by (rewrite length_put; cbn [length]; lia).
  rewrite (put_put buf p [_; _] [_]) by (cbn [length]; lia). cbn [mbind option_bind app].
  rewrite wr_put by (rewrite length_put; cbn [length]; lia).
  rewrite (put_put buf p [_; _; _] [_]) by (cbn [length]; lia). cbn [app].
  by rewrite !Z.shiftr_div_pow2 by lia.
Qed.

(** [bs] at position [p] of the buffer. *)
Definition at_pos (buf : list Z) (p : nat) (bs : list Z) : Prop :=
  ∀ i b, bs !! i = Some b → buf !! (p + i)%nat = Some b.

Lemma at_pos_app buf p a b : at_pos buf p (a ++ b) → at_pos buf p a ∧ at_pos buf (p + length a) b.
Proof.
  intros H. split; intros i v Hv.
  - apply H. by apply lookup_app_l_Some.
  - rewrite <- Nat.add_assoc. apply H. by rewrite lookup_app_r, Nat.add_comm, Nat.add_sub by lia.
Qed.

Lemma at_pos_put buf p bs : (p + length bs ≤ length buf)%nat → at_pos (put buf p bs) p bs.
Proof. intros H i b Hb. rewrite lookup_put; [done..|]. by eapply lookup_lt_Some. Qed.

Lemma at_pos_length buf p bs : at_pos buf p bs → (0 < length bs)%nat →
  (p + length bs ≤ length buf)%nat.
Proof.
  intros H Hl. destruct (lookup_lt_is_Some_2 bs (length bs - 1)) as [b Hb]; [lia|].
  apply H, lookup_lt_Some in Hb. lia.
Qed.

Lemma ReadBigEndian16_bytes buf p b0 b1 :
  buf !! p = Some b0 → buf !! (p + 1)%nat = Some b1 → uint8 b0 → uint8 b1 →
  ReadBigEndian16 buf p = Some (b0 * 256 + b1).
Proof.
  intros E0 E1 H0 H1. unfold ReadBigEndian16. rewrite E0, E1. cbn [mbind option_bind].
  unfold uint8 in *. rewrite lor_shiftl by lia. unfold u16. by rewrite Z.mod_small by lia.
Qed.

Lemma ReadBigEndian32_bytes buf p b0 b1 b2 b3 :
  buf !! p = Some b0 → buf !! (p + 1)%nat = Some b1 → buf !! (p + 2)%nat = Some b2 →
  buf !! (p + 3)%nat = Some b3 → uint8 b0 → uint8 b1 → uint8 b2 → uint8 b3 →
  ReadBigEndian32 buf p = Some (b0 * 16777216 + b1 * 65536 + b2 * 256 + b3).
Proof.
  intros E0 E1 E2 E3 H0 H1 H2 H3. unfold ReadBigEndian32. rewrite E0, E1, E2, E3.
  cbn [mbind option_bind]. unfold uint8 in *. f_equal.
  rewrite !u32_id by (unfold uint32; rewrite Z.shiftl_mul_pow2 by lia; lia).
  assert (Z.shiftl b0 24 = Z.shiftl (Z.shiftl (Z.shiftl b0 8) 8) 8) as ->
    by (by rewrite !Z.shiftl_shiftl by lia).
  assert (Z.shiftl b1 16 = Z.shiftl (Z.shiftl b1 8) 8) as -> by (by rewrite Z.shiftl_shiftl by lia).
  rewrite <- !Z.shiftl_lor, (lor_shiftl b0), (lor_shiftl _ 8 b2), lor_shiftl by lia. lia.
Qed.

Lemma be16_byte v i b : be16 v !! i = Some b → uint8 b.
Proof.
  unfold be16, uint8. intros H.
  do 2 (destruct i as [|i]; [injection H as <-; pose proof (Z.mod_pos_bound (v / 256) 256 ltac:(lia));
    pose proof (Z.mod_pos_bound v 256 ltac:(lia)); lia|]). done.
Qed.

Lemma be32_byte v i b : be32 v !! i = Some b → uint8 b.
Proof.
  unfold be32, uint8. intros H.
  do 4 (destruct i as [|i]; [injection H as <-;
    match goal with |- _ ≤ ?x mod 256 ≤ _ => pose proof (Z.mod_pos_bound x 256 ltac:(lia)); lia end|]).
  done.
Qed.

Lemma read16_at buf p v : at_pos buf p (be16 v) → uint16 v → ReadBigEndian16 buf p = Some v.
Proof.
  intros H Hv. unfold uint16 in Hv.
  rewrite (ReadBigEndian16_bytes _ _ (v / 256 mod 256) (v mod 256)).
  - f_equal. Z.to_euclidean_division_equations; lia.
  - rewrite <- (Nat.add_0_r p). by apply H.
  - by apply H.
  - by apply (be16_byte v 0).
  - by apply (be16_byte v 1).
Qed.

Lemma read32_at buf p v : at_pos buf p (be32 v) → uint32 v → ReadBigEndian32 buf p = Some v.
Proof.
  intros H Hv. unfold uint32 in Hv.
  rewrite (ReadBigEndian32_bytes _ _ (v / 16777216 mod 256) (v / 65536 mod 256)
             (v / 256 mod 256) (v mod 256)).
  - f_equal. Z.to_euclidean_division_equations; lia.
  - rewrite <- (Nat.add_0_r p). by apply H.
  - by apply H.
  - by apply H.
  - by apply H.
  - by apply (be32_byte v 0).
  - by apply (be32_byte v 1).
  - by apply (be32_byte v 2).
  - by apply (be32_byte v 3).
Qed.

Lemma ReadBigEndian16_safe buf p : bytes_ok buf → (p + 2 ≤ length buf)%nat →
  wp (ReadBigEndian16 buf p) uint16.
Proof.
  intros Hb Hp. destruct (lookup_lt_is_Some_2 buf p) as [b0 E0]; [lia|].
  destruct (lookup_lt_is_Some_2 buf (p + 1)) as [b1 E1]; [lia|].
  pose proof (Forall_lookup_1 _ _ _ _ Hb E0). pose proof (Forall_lookup_1 _ _ _ _ Hb E1).
  rewrite (ReadBigEndian16_bytes _ _ _ _ E0 E1) by done. unfold uint8, uint16 in *. cbn. lia.
Qed.

Lemma ReadBigEndian32_safe buf p : bytes_ok buf → (p + 4 ≤ length buf)%nat →
  wp (ReadBigEndian32 buf p) uint32.
Proof.
  intros Hb Hp. destruct (lookup_lt_is_Some_2 buf p) as [b0 E0]; [lia|].
  destruct (lookup_lt_is_Some_2 buf (p + 1)) as [b1 E1]; [lia|].
  destruct (lookup_lt_is_Some_2 buf (p + 2)) as [b2 E2]; [lia|].
  destruct (lookup_lt_is_Some_2 buf (p + 3)) as [b3 E3]; [lia|].
  pose proof (Forall_lookup_1 _ _ _ _ Hb E0). pose proof (Forall_lookup_1 _ _ _ _ Hb E1).
  pose proof (Forall_lookup_1 _ _ _ _ Hb E2). pose proof (Forall_lookup_1 _ _ _ _ Hb E3).
  rewrite (ReadBigEndian32_bytes _ _ _ _ _ _ E0 E1 E2 E3) by done.
  unfold uint8, uint32 in *. cbn. lia.
Qed.

Definition be24 (v : Z) : list Z := [v / 65536 mod 256; v / 256 mod 256; v mod 256].

Lemma WriteBigEndian24_put buf p v : (p + 3 ≤ length buf)%nat →
  WriteBigEndian24 buf p v = Some (put buf p (be24 v)).
Proof.
  intros H. unfold WriteBigEndian24. cbn [for_loop]. rewrite Nat.add_0_r.
  rewrite wr_put by lia. cbn [mbind option_bind].
  rewrite wr_put by (rewrite length_put; cbn [length]; lia).
  rewrite (put_put buf p [_] [_]) by (cbn [length]; lia). cbn [mbind option_bind app].
  rewrite wr_put by (rewrite length_put; cbn [length]; lia).
  rewrite (put_put buf p [_; _] [_]) by (cbn [length]; lia). cbn [mbind option_bind app].
  by rewrite !Z.shiftr_div_pow2, Z.div_1_r by lia.
Qed.

Lemma ReadBigEndian24_bytes buf p b0 b1 b2 :
  buf !! p = Some b0 → buf !! (p + 1)%nat = Some b1 → buf !! (p + 2)%nat = Some b2 →
  uint8 b0 → uint8 b1 → uint8 b2 →
  ReadBigEndian24 buf p = Some (b0 * 65536 + b1 * 256 + b2).
Proof.
  intros E0 E1 E2 H0 H1 H2. unfold ReadBigEndian24. cbn [for_loop]. rewrite Nat.add_0_r, E0.
  cbn [mbind option_bind]. rewrite E1. cbn [mbind option_bind]. rewrite E2. cbn [mbind option_bind].
  f_equal. unfold uint8 in *.
  change ((3 - 1 - Z.of_nat 0) * 8) with 16. change ((3 - 1 - Z.of_nat 1) * 8) with 8.
  change ((3 - 1 - Z.of_nat 2) * 8) with 0. rewrite Z.shiftl_0_r, Z.lor_0_l.
  rewrite !u32_id by (unfold uint32; rewrite ?Z.shiftl_mul_pow2 by lia; lia).
  assert (Z.shiftl b0 16 = Z.shiftl (Z.shiftl b0 8) 8) as -> by (by rewrite Z.shiftl_shiftl by lia).
  rewrite <- Z.shiftl_lor, (lor_shiftl b0), lor_shiftl by lia. lia.
Qed.

Lemma read24_at buf p v : at_pos buf p (be24 v) → 0 ≤ v < 16777216 → ReadBigEndian24 buf p = Some v.
Proof.
  intros H Hv.
  rewrite (ReadBigEndian24_bytes _ _ (v / 65536 mod 256) (v / 256 mod 256) (v mod 256)).
  - f_equal. Z.to_euclidean_division_equations; lia.
  - rewrite <- (Nat.add_0_r p). by apply H.
  - by apply H.
  - by apply H.
  - apply u8_range.
  - apply u8_range.
  - apply u8_range.
Qed.

Lemma ReadBigEndian24_safe buf p : bytes_ok buf → (p + 3 ≤ length buf)%nat →
  wp (ReadBigEndian24 buf p) (λ v, 0 ≤ v < 16777216).
Proof.
  intros Hb Hp. destruct (lookup_lt_is_Some_2 buf p) as [b0 E0]; [lia|].
  destruct (lookup_lt_is_Some_2 buf (p + 1)) as [b1 E1]; [lia|].
  destruct (lookup_lt_is_Some_2 buf (p + 2)) as [b2 E2]; [lia|].
  pose proof (Forall_lookup_1 _ _ _ _ Hb E0). pose proof (Forall_lookup_1 _ _ _ _ Hb E1).
  pose proof (Forall_lookup_1 _ _ _ _ Hb E2).
  rewrite (ReadBigEndian24_bytes _ _ _ _ _ E0 E1 E2) by done. unfold uint8 in *. cbn. lia.
Qed.

Lemma land_pow2 x n : 0 ≤ n → Z.land x (2 ^ n) = if Z.testbit x n then 2 ^ n else 0.
Proof.
  intros Hn. apply Z.bits_inj'. intros i Hi. rewrite Z.land_spec, Z.pow2_bits_eqb by lia.
  destruct (Z.eqb_spec n i) as [<-|Hne].
  - destruct (Z.testbit x n); [by rewrite Z.pow2_bits_true by lia|by rewrite Z.bits_0].
  - rewrite andb_false_r. destruct (Z.testbit x n); [|by rewrite Z.bits_0].
    by rewrite Z.pow2_bits_false by lia.
Qed.

Lemma testbit_top x : uint16 x →
  Z.testbit x 15 = (0x8000 <=? x) ∧ Z.testbit x 14 = Z.odd (x / 0x4000).
Proof.
  unfold uint16. intros H. rewrite !Z.testbit_odd, !Z.shiftr_div_pow2 by lia.
  split; [|done]. change (2 ^ 15) with 32768. destruct (Z.leb_spec 0x8000 x).
  - assert (x / 32768 = 1) as -> by (Z.to_euclidean_division_equations; lia). done.
  - rewrite Z.div_small by lia. done.
Qed.

Lemma bit15 x : uint16 x → (Z.land x 0x8000 =? 0) = (x <? 0x8000).
Proof.
  intros H. change 0x8000 with (2 ^ 15) at 1. rewrite land_pow2 by lia.
  rewrite (proj1 (testbit_top x H)), Z.ltb_antisym. by destruct (0x8000 <=? x).
Qed.

Lemma land_lor_minus x k : 0 ≤ k → 0 ≤ x < 2 ^ k → Z.lor x (- 2 ^ k) = x - 2 ^ k.
Proof.
  intros Hk Hx. replace (- 2 ^ k) with (Z.shiftl (-1) k) by (rewrite Z.shiftl_mul_pow2 by done; lia).
  rewrite Z.lor_comm, lor_shiftl by done. lia.
Qed.

Lemma ReinterpretAsSigned16_spec v : uint16 v → ReinterpretAsSigned16 v = s16 v.
Proof.
  intros Hv. unfold ReinterpretAsSigned16. rewrite bit15 by done. unfold s16, uint16 in *.
  destruct (Z.ltb_spec v 0x8000); cbn [negb].
  - rewrite Z.mod_small by lia. lia.
  - change (-32768) with (- 2 ^ 15). change 0x7fff with (Z.ones 15).
    rewrite Z.land_ones, land_lor_minus by (try apply Z.mod_pos_bound; lia).
    change (2 ^ 15) with 32768. Z.to_euclidean_division_equations; lia.
Qed.

Lemma reads16_at buf p v : at_pos buf p (be16 (u16 v)) → int16 v → ReadBigEndianSigned16 buf p = Some v.
Proof.
  intros H Hv. unfold ReadBigEndianSigned16. rewrite (read16_at _ _ (u16 v)) by (done || apply u16_range).
  cbn [mbind option_bind]. rewrite ReinterpretAsSigned16_spec by apply u16_range. f_equal.
  unfold s16, u16, int16 in *. Z.to_euclidean_division_equations; lia.
Qed.

Lemma ReadBigEndianSigned16_safe buf p : bytes_ok buf → (p + 2 ≤ length buf)%nat →
  wp (ReadBigEndianSigned16 buf p) int16.
Proof.
  intros Hb Hp. apply wp_bind. wp_call (by apply ReadBigEndian16_safe). intros v Hv.
  rewrite ReinterpretAsSigned16_spec by done. apply s16_range.
Qed.

(** ** Headers *)

Definition header_bytes (fmt type len : Z) (padding : bool) : list Z :=
  [128 + (if padding then 32 else 0) + fmt; type] ++ be16 len.

Lemma CreateHeader_put fmt type len padding buf p :
  0 ≤ fmt ≤ 31 → 0 ≤ len ≤ 65535 → (p + 4 ≤ length buf)%nat →
  CreateHeader fmt type len padding buf p =
  Some (put buf p (header_bytes fmt type len padding), (p + 4)%nat).
Proof.
  intros Hf Hl Hp. unfold CreateHeader.
  rewrite (proj2 (Z.leb_le len 0xffff)), (proj2 (Z.leb_le fmt 0x1f)) by lia.
  cbn [dcheck mbind option_bind]. rewrite wr_put by lia. cbn [mbind option_bind].
  rewrite wr_put by (rewrite length_put; cbn [length]; lia).
  rewrite (put_put buf p [_] [_]) by (cbn [length]; lia). cbn [mbind option_bind app].
  rewrite wr_put by (rewrite length_put; cbn [length]; lia).
  rewrite (put_put buf p [_; _] [_]) by (cbn [length]; lia). cbn [mbind option_bind app].
  rewrite wr_put by (rewrite length_put; cbn [length]; lia).
  rewrite (put_put buf p [_; _; _] [_]) by (cbn [length]; lia). cbn [mbind option_bind app].
  do 3 f_equal. unfold header_bytes, be16. cbn [app].
  change 0xff with (Z.ones 8). rewrite !Z.land_ones, Z.shiftr_div_pow2 by lia.
  change (2 ^ 8) with 256. f_equal. unfold u8 at 4. rewrite Z.mod_small by lia.
  assert (E : ∀ c, Z.lor (Z.shiftl c 5) fmt = c * 32 + fmt) by (intros c; by rewrite lor_shiftl by lia).
  destruct padding.
  - change (Z.lor (u8 (Z.shiftl 2 6)) (u8 (Z.shiftl 1 5))) with (Z.shiftl 5 5).
    rewrite E. unfold u8. rewrite Z.mod_small by lia. lia.
  - change (Z.lor (u8 (Z.shiftl 2 6)) 0) with (Z.shiftl 4 5).
    rewrite E. unfold u8. rewrite Z.mod_small by lia. lia.
Qed.

Lemma header_first (fmt : Z) (padding : bool) : 0 ≤ fmt ≤ 31 →
  let b := 128 + (if padding then 32 else 0) + fmt in
  Z.shiftr b 6 = 2 ∧ Z.land b 0x1F = fmt ∧ negb (Z.land b 0x20 =? 0) = padding.
Proof.
  intros Hf b. assert (Hb : b = fmt + 32 * (if padding then 5 else 4)) by (destruct padding; lia).
  split_and!.
  - rewrite Z.shiftr_div_pow2 by lia. change (2 ^ 6) with 64.
    destruct padding; Z.to_euclidean_division_equations; lia.
  - change 0x1F with (Z.ones 5). rewrite Z.land_ones by lia. change (2 ^ 5) with 32.
    destruct padding; Z.to_euclidean_division_equations; lia.
  - assert (E : Z.testbit b 5 = padding).
    { rewrite Z.testbit_eqb by lia. change (2 ^ 5) with 32.
      destruct padding; [apply Z.eqb_eq|apply Z.eqb_neq]; Z.to_euclidean_division_equations; lia. }
    change 0x20 with (2 ^ 5). rewrite land_pow2, E by lia. by destruct padding.
Qed.

(** A header whose padding bit announces [pad] bytes of padding. *)
Lemma ParseHeader_padded buf p size fmt type len pad :
  at_pos buf p (header_bytes fmt type len (0 <? pad)) → 0 ≤ fmt ≤ 31 → uint16 len →
  (4 + Z.to_nat (len * 4) ≤ size)%nat → 0 ≤ pad ≤ len * 4 →
  (0 < pad → buf !! (p + 4 + Z.to_nat (len * 4 - 1))%nat = Some pad) →
  ParseHeader buf p size = Some (Some (mkHeader type fmt pad (len * 4 - pad) (p + 4))).
Proof.
  intros H Hf Hl Hs Hp Hlast. apply at_pos_app in H as [H Hlen]. unfold ParseHeader.
  rewrite (proj2 (Nat.ltb_ge size kHeaderSizeBytes)) by (unfold kHeaderSizeBytes; lia).
  destruct (header_first fmt (0 <? pad) Hf) as (Ev & Ef & Ep).
  pose proof (H 0%nat _ eq_refl) as E0. rewrite Nat.add_0_r in E0. rewrite E0.
  cbn [mbind option_bind]. rewrite Ev, Ef, Ep. cbn [Z.eqb Pos.eqb negb].
  rewrite (H 1%nat _ eq_refl). cbn [mbind option_bind].
  rewrite (read16_at _ _ len) by done. cbn [mbind option_bind].
  unfold kHeaderSizeBytes. rewrite (proj2 (Nat.ltb_ge size _)) by lia.
  destruct (Z.ltb_spec 0 pad) as [Hpad|Hpad].
  - rewrite (proj2 (Z.eqb_neq _ _)), Hlast by lia. cbn [mbind option_bind].
    by rewrite (proj2 (Z.eqb_neq _ _)), Z.gtb_ltb, (proj2 (Z.ltb_ge _ _)) by lia.
  - assert (pad = 0) as -> by lia. by rewrite Z.sub_0_r.
Qed.

Lemma ParseHeader_at buf p size fmt type len :
  at_pos buf p (header_bytes fmt type len false) → 0 ≤ fmt ≤ 31 → uint16 len →
  (4 + Z.to_nat (len * 4) ≤ size)%nat →
  ParseHeader buf p size = Some (Some (mkHeader type fmt 0 (len * 4) (p + 4))).
Proof.
  intros H Hf Hl Hs. unfold uint16 in Hl. rewrite <- (Z.sub_0_r (len * 4)) at 1.
  apply ParseHeader_padded; try done; lia.
Qed.

(** RTCP headers round-trip. A header written for a packet of [len] 32-bit words
    after the header is parsed back, from any position of any buffer that contains
    the whole packet, with the same type and format, no padding and the payload
    right behind it. *)
Theorem header_roundtrip (fmt type len : Z) (buf : list Z) (p : nat) :
  0 ≤ fmt ≤ 31 → 0 ≤ len ≤ 65535 → (p + 4 + Z.to_nat (len * 4) ≤ length buf)%nat →
  wp (CreateHeader fmt type len false buf p) (λ '(buf', p'),
    p' = (p + 4)%nat ∧ length buf' = length buf ∧
    ParseHeader buf' p (length buf' - p) = Some (Some (mkHeader type fmt 0 (len * 4) p'))).
Proof.
  intros Hf Hl Hp. rewrite CreateHeader_put by lia. split_and!; [done|by apply length_put; cbn; lia|].
  apply ParseHeader_at; [apply at_pos_put; cbn; lia|done|done|].
  rewrite length_put by (cbn; lia). lia.
Qed.

Lemma header_roundtrip_witness :
  wp (CreateHeader 11 205 3 false (replicate 20 7) 2) (λ '(buf', p'),
    p' = 6%nat ∧ length buf' = length (replicate 20 7) ∧
    ParseHeader buf' 2 (length buf' - 2) = Some (Some (mkHeader 205 11 0 (3 * 4) p'))).
Proof. apply (header_roundtrip 11 205 3 (replicate 20 7) 2); [lia|lia|by vm_compute; lia]. Defined.

Lemma ParseHeader_ok buf p size :
  bytes_ok buf → (p + size ≤ length buf)%nat →
  wp (ParseHeader buf p size) (λ r, ∀ h, r = Some h →
    uint8 (packet_type_ h) ∧ 0 ≤ count_or_format_ h ≤ 31 ∧ 0 ≤ payload_size_ h ∧
    0 ≤ padding_size_ h ∧ payload_ h = (p + 4)%nat ∧
    (payload_ h + Z.to_nat (payload_size_ h + padding_size_ h) ≤ p + size)%nat).
Proof.
  intros Hb Hp. unfold ParseHeader, kHeaderSizeBytes. destruct (Nat.ltb_spec size 4); [done|].
  apply wp_bind, (wp_lookup_Forall uint8); [done|lia|]. intros b0 _ H0.
  destruct (negb (Z.shiftr b0 6 =? 2)); [done|].
  apply wp_bind, (wp_lookup_Forall uint8); [done|lia|]. intros ty _ Ht.
  apply wp_bind. wp_call (apply ReadBigEndian16_safe; [done|lia]). intros len Hl.
  assert (Hc : 0 ≤ Z.land b0 0x1F ≤ 31).
  { change (Z.land b0 0x1F) with (Z.land b0 (Z.ones 5)). rewrite Z.land_ones by lia.
    change (2 ^ 5) with 32. pose proof (Z.mod_pos_bound b0 32). lia. }
  unfold uint16 in Hl. destruct (Nat.ltb_spec size (4 + Z.to_nat (len * 4))); [done|].
  destruct (negb (Z.land b0 0x20 =? 0)).
  - destruct (Z.eqb_spec (len * 4) 0); [done|].
    apply wp_bind, (wp_lookup_Forall uint8); [done|lia|]. intros pad _ Hpad. unfold uint8 in Hpad.
    destruct (Z.eqb_spec pad 0); [done|]. rewrite Z.gtb_ltb. destruct (Z.ltb_spec (len * 4) pad); [done|].
    apply wp_ret. intros h [= <-]. cbn. split_and!; try done; lia.
  - apply wp_ret. intros h [= <-]. cbn. split_and!; try done; lia.
Qed.

(** C39: Parsing the header of an arbitrary buffer is safe: no read outside the
    [size_bytes] bytes given, and an accepted header describes a payload and a
    padding that lie inside them. *)
Theorem ParseHeader_safe (buf : list Z) (p size_bytes : nat) :
  bytes_ok buf → (p + size_bytes ≤ length buf)%nat →
  wp (ParseHeader buf p size_bytes) (λ r, ∀ h, r = Some h →
    uint8 (packet_type_ h) ∧ 0 ≤ count_or_format_ h ≤ 31 ∧ 0 ≤ payload_size_ h ∧
    0 ≤ padding_size_ h ∧ payload_ h = (p + 4)%nat ∧
    (payload_ h + Z.to_nat (payload_size_ h + padding_size_ h) ≤ p + size_bytes)%nat).
Proof. apply ParseHeader_ok. Qed.

Lemma ParseHeader_safe_witness :
  wp (ParseHeader [0xA0; 205; 0; 1; 9; 9; 9; 2] 0 8) (λ r, ∀ h, r = Some h →
    uint8 (packet_type_ h) ∧ 0 ≤ count_or_format_ h ≤ 31 ∧ 0 ≤ payload_size_ h ∧
    0 ≤ padding_size_ h ∧ payload_ h = (0 + 4)%nat ∧
    (payload_ h + Z.to_nat (payload_size_ h + padding_size_ h) ≤ 0 + 8)%nat).
Proof.
  apply (ParseHeader_safe [0xA0; 205; 0; 1; 9; 9; 9; 2] 0 8); [|cbn; lia].
  repeat (apply Forall_cons_2; [unfold uint8; lia|]). apply Forall_nil_2.
Defined.

End Rtcp.
