(* ===== verification/CcFeedback.v ===== *)
(** * Congestion control feedback packets, RFC 8888
    (modules/rtp_rtcp/source/rtcp_packet/congestion_control_feedback.cc)

    The L4S feedback message: for every stream a range of sequence numbers with the
    arrival time and the ECN mark of each packet. Serialisation and parsing are
    modelled on byte buffers; the arrival time goes through single-precision
    floating-point arithmetic, modelled with its rounding. *)

From S2P Require Import Prelude SeqNum Units Rtcp.
Import SeqNum Units Rtcp.

Module CcFeedback.

Inductive EcnMarking := kNotEct | kEct1 | kEct0 | kCe.

#[export] Instance EcnMarking_eq_dec : EqDecision EcnMarking.
Proof. solve_decision. Defined.

Record PacketInfo := mkInfo {
  ssrc : Z;
  sequence_number : Z;
  arrival_time_offset : Z; (* TimeDelta; minus infinity for a lost packet *)
  ecn : EcnMarking;
}.

#[export] Instance PacketInfo_eq_dec : EqDecision PacketInfo.
Proof. solve_decision. Defined.

Record CongestionControlFeedback := mkFeedback {
  sender_ssrc : Z;
  packets_ : list PacketInfo;
  report_timestamp_compact_ntp_ : Z;
}.

Definition kFeedbackMessageType : Z := 11.
Definition kPacketType : Z := 205.
Definition kSenderSsrcLength : nat := 4.
Definition kHeaderPerMediaSssrcLength : nat := 8.
Definition kTimestampLength : nat := 4.
Definition kEcnEct1 : Z := 0x01.
Definition kEcnEct0 : Z := 0x02.
Definition kEcnCe : Z := 0x03.

(** ** Single-precision arithmetic on non-negative values *)

Definition rne24 (m e : Z) : float := rne 24 m e.

Definition float_of_int (m : Z) : float := rne24 m 0.
Definition float_mul (a b : float) : float := rne24 (mant a * mant b) (expo a + expo b).

(** [1 / static_cast<float>(1000000)], correctly rounded. *)
Definition one_millionth : float := Fl 8796093 (-43).

(** Conversion to int64_t truncates. *)
Definition int_of_float (f : float) : Z :=
  if 0 <=? expo f then mant f * 2 ^ expo f else mant f / 2 ^ (- expo f).

(** [TimeDelta::seconds<float>()]. *)
Definition seconds_float (us : Z) : float := float_mul (float_of_int us) one_millionth.

(** ** Packet metric blocks *)

Definition To13bitAto (arrival_time_offset : Z) : Z :=
  if arrival_time_offset <? 0 then 0x1FFF
  else Z.min (int_of_float (float_mul (float_of_int 1024) (seconds_float arrival_time_offset)))
             0x1FFE.

Definition AtoToTimeDelta (receive_info : Z) : option Z :=
  let ato := Z.land receive_info 0x1FFF in
  if ato =? 0x1FFE then Some PlusInfinity
  else if ato =? 0x1FFF then Some MinusInfinity
  else
    s ← Seconds ato;
    td_div s 1024.

Definition To2BitEcn (ecn_marking : EcnMarking) : Z :=
  match ecn_marking with
  | kNotEct => 0
  | kEct1 => Z.shiftl kEcnEct1 13
  | kEct0 => Z.shiftl kEcnEct0 13
  | kCe => Z.shiftl kEcnCe 13
  end.

Definition ToEcnMarking (receive_info : Z) : EcnMarking :=
  let ecn := Z.land (Z.shiftr receive_info 13) 3 in
  if ecn =? kEcnEct1 then kEct1
  else if ecn =? kEcnEct0 then kEct0
  else if ecn =? kEcnCe then kCe
  else kNotEct.

(** ** Size *)

Definition increase_size_per_ssrc (number_of_packets_for_ssrc : Z) : nat :=
  (kHeaderPerMediaSssrcLength + Z.to_nat (number_of_packets_for_ssrc * 2)%Z +
   (if negb (number_of_packets_for_ssrc mod 2 =? 0)%Z then 2 else 0))%nat.

(** The body of the loop over the packets. *)
Definition size_step (packets : list PacketInfo) (i : nat) (st : nat * Z * Z)
  : option (nat * Z * Z) :=
  let '(total_size, s, first_sequence_number) := st in
  p ← packets !! i;
  if negb (ssrc p =? s) then
    prev ← packets !! (i - 1)%nat;
    let number_of_packets := u16 (sequence_number prev - first_sequence_number + 1) in
    Some ((total_size + increase_size_per_ssrc number_of_packets)%nat, ssrc p, sequence_number p)
  else Some (total_size, s, first_sequence_number).

Definition BlockLength (packets : list PacketInfo) : option nat :=
  let total_size := (kSenderSsrcLength + kHeaderLength + kTimestampLength)%nat in
  match packets with
  | [] => Some total_size
  | front :: _ =>
      '(total_size, _, first_sequence_number) ←
        for_loop (length packets) 0 (size_step packets)
          (total_size, ssrc front, sequence_number front);
      back ← packets !! (length packets - 1)%nat;
      let number_of_packets := u16 (sequence_number back - first_sequence_number + 1) in
      Some (total_size + increase_size_per_ssrc number_of_packets)%nat
  end.

(** ** Create *)

Definition packet_info (p : PacketInfo) : Z :=
  if IsFinite (arrival_time_offset p)
  then u16 (Z.lor (Z.lor 0x8000 (To2BitEcn (ecn p))) (To13bitAto (arrival_time_offset p)))
  else 0.

Definition write_report_for_ssrc (buffer : list Z) (position : nat) (packets : list PacketInfo)
  : option (list Z * nat) :=
  first ← packets !! 0%nat;
  buffer ← WriteBigEndian32 buffer position (ssrc first);
  let position := (position + 4)%nat in
  buffer ← WriteBigEndian16 buffer position (sequence_number first);
  let position := (position + 2)%nat in
  let num_reports := u16 (Z.of_nat (length packets)) in
  back ← packets !! (length packets - 1)%nat;
  _ ← dcheck (u16 (sequence_number back - sequence_number first + 1) =? Z.of_nat (length packets));
  if num_reports >? 16384 then None
  else
    buffer ← WriteBigEndian16 buffer position num_reports;
    let position := (position + 2)%nat in
    '(buffer, position) ← for_loop (length packets) 0 (λ i '(buffer, position),
      p ← packets !! i;
      buffer ← WriteBigEndian16 buffer position (packet_info p);
      Some (buffer, (position + 2)%nat)) (buffer, position);
    if negb (num_reports mod 2 =? 0) then
      buffer ← WriteBigEndian16 buffer position 0;
      Some (buffer, (position + 2)%nat)
    else Some (buffer, position).

(** The number of leading packets with the given SSRC. *)
Fixpoint leading (s : Z) (packets : list PacketInfo) : nat :=
  match packets with
  | p :: packets => if negb (ssrc p =? s) then 0 else S (leading s packets)
  | [] => 0
  end.

Fixpoint write_reports (fuel : nat) (buffer : list Z) (position : nat)
    (remaining : list PacketInfo) : option (list Z * nat) :=
  match remaining, fuel with
  | [], _ => Some (buffer, position)
  | _, O => None
  | p :: _, S fuel =>
      let n := leading (ssrc p) remaining in
      '(buffer, position) ← write_report_for_ssrc buffer position (take n remaining);
      write_reports fuel buffer position (drop n remaining)
  end.

(** [while ( *position + BlockLength() > max_length)]: the second test fails only
    with an empty buffer, on which OnBufferFull gives up. *)
Fixpoint make_room (fuel : nat) (buffer : list Z) (position block_length max_length : nat)
    (callback : bool) (sent : list (list Z)) : option (bool * nat * list (list Z)) :=
  if (max_length <? position + block_length)%nat then
    match fuel with
    | O => None
    | S fuel =>
        '(ok, position, sent) ← OnBufferFull buffer position callback sent;
        if (ok : bool) then make_room fuel buffer position block_length max_length callback sent
        else Some (false, position, sent)
    end
  else Some (true, position, sent).

(** The result, the buffer, the position and the packets sent on the way. *)
Definition Create (self : CongestionControlFeedback) (buffer : list Z) (position max_length : nat)
    (callback : bool) : option (bool * list Z * nat * list (list Z)) :=
  block_length ← BlockLength (packets_ self);
  '(ok, position, sent) ← make_room 2 buffer position block_length max_length callback [];
  if negb ok then Some (false, buffer, position, sent)
  else
    let position_end := (position + block_length)%nat in
    header_length ← HeaderLength block_length;
    '(buffer, position) ←
      CreateHeader kFeedbackMessageType kPacketType header_length false buffer position;
    buffer ← WriteBigEndian32 buffer position (sender_ssrc self);
    let position := (position + 4)%nat in
    '(buffer, position) ← write_reports (length (packets_ self)) buffer position (packets_ self);
    buffer ← WriteBigEndian32 buffer position (report_timestamp_compact_ntp_ self);
    let position := (position + 4)%nat in
    _ ← dcheck (position =? position_end)%nat;
    Some (true, buffer, position, sent).

(** ** Parse *)

(** One packet metric block. *)
Definition parse_report (buf : list Z) (s base_seqno : Z) (i : nat) (st : nat * list PacketInfo)
  : option (nat * list PacketInfo) :=
  let '(payload, packets) := st in
  packet_info ← ReadBigEndian16 buf payload;
  let payload := (payload + 2)%nat in
  let seq_no := u16 (base_seqno + Z.of_nat i) in
  let received := negb (Z.land packet_info 0x8000 =? 0) in
  off ← (if received then AtoToTimeDelta packet_info else Some MinusInfinity);
  Some (payload, packets ++ [mkInfo s seq_no off (ToEcnMarking packet_info)]).

(** The body of the loop over the streams. *)
Definition parse_block (buf : list Z) (payload payload_end : nat) (packets : list PacketInfo)
  : option (option (nat * list PacketInfo)) :=
  s ← ReadBigEndian32 buf payload;
  let payload := (payload + 4)%nat in
  base_seqno ← ReadBigEndian16 buf payload;
  let payload := (payload + 2)%nat in
  num_reports ← ReadBigEndian16 buf payload;
  let payload := (payload + 2)%nat in
  let n := Z.to_nat num_reports in
  if (payload_end <? payload + 2 * n)%nat then Some None
  else
    '(payload, packets) ← for_loop n 0 (parse_report buf s base_seqno) (payload, packets);
    let payload := if negb (num_reports mod 2 =? 0) then (payload + 2)%nat else payload in
    Some (Some (payload, packets)).

Fixpoint parse_blocks (fuel : nat) (buf : list Z) (payload payload_end : nat)
    (packets : list PacketInfo) : option (bool * list PacketInfo) :=
  if (payload + kHeaderPerMediaSssrcLength <? payload_end)%nat then
    match fuel with
    | O => None
    | S fuel =>
        r ← parse_block buf payload payload_end packets;
        match r with
        | None => Some (false, packets)
        | Some (payload, packets) => parse_blocks fuel buf payload payload_end packets
        end
    end
  else Some ((payload =? payload_end)%nat, packets).

(** Parsing into an object; every block takes at least eight bytes. *)
Definition Parse (self : CongestionControlFeedback) (buf : list Z) (packet : CommonHeader)
  : option (bool * CongestionControlFeedback) :=
  let payload := payload_ packet in
  let size := Z.to_nat (payload_size_ packet) in
  let payload_end := (payload + size)%nat in
  if negb (size mod 4 =? 0)%nat || (size <? kSenderSsrcLength + kTimestampLength)%nat
  then Some (false, self)
  else
    sender ← ReadBigEndian32 buf payload;
    let payload := (payload + 4)%nat in
    ts ← ReadBigEndian32 buf (payload_end - 4);
    let payload_end := (payload_end - 4)%nat in
    '(ok, packets) ← parse_blocks size buf payload payload_end (packets_ self);
    Some (ok, mkFeedback sender packets ts).

(** ** The arrival time offset *)

(** Rounding to 24 bits is within half a unit in the last place. *)
Lemma rne24_spec m e : 0 ≤ m →
  ∃ k, 0 ≤ k ∧ expo (rne24 m e) = e + k ∧ 0 ≤ mant (rne24 m e) ∧
    - m ≤ 16777216 * (mant (rne24 m e) * 2 ^ k - m) ≤ m.
Proof.
  intros Hm. unfold rne24, rne. destruct (Z.leb_spec (Z.log2 m + 1 - 24) 0) as [|Hk].
  { exists 0. cbn. lia. }
  set (k := Z.log2 m + 1 - 24) in *. exists k. cbn [expo mant].
  assert (0 < m) by (destruct (Z.eq_dec m 0) as [->|]; [change (Z.log2 0) with 0 in k; lia|lia]).
  destruct (Z.log2_spec m) as [Hlo _]; [lia|].
  assert (E : 2 ^ Z.log2 m = 8388608 * 2 ^ k).
  { change 8388608 with (2 ^ 23). rewrite <- Z.pow_add_r by lia. f_equal. lia. }
  assert (E2 : 2 ^ k = 2 * 2 ^ (k - 1)).
  { rewrite <- (Z.pow_succ_r 2) by lia. f_equal. lia. }
  pose proof (Z.pow_pos_nonneg 2 (k - 1) ltac:(lia) ltac:(lia)).
  pose proof (Z.div_mod m (2 ^ k) ltac:(lia)) as Hd.
  pose proof (Z.mod_pos_bound m (2 ^ k) ltac:(lia)) as Hr.
  assert (0 ≤ m / 2 ^ k) by (apply Z.div_pos; lia).
  set (q := m / 2 ^ k) in *. set (r := m mod 2 ^ k) in *. set (h := 2 ^ (k - 1)) in *.
  clearbody q r h. rewrite E2 in *.
  destruct ((h <? r) || ((r =? h) && Z.odd q)) eqn:Hup.
  - assert (h ≤ r) by (apply orb_true_iff in Hup as [?%Z.ltb_lt|[?%Z.eqb_eq _]%andb_true_iff]; lia).
    split_and!; try lia. all: nia.
  - assert (r ≤ h) by (apply orb_false_iff in Hup as [?%Z.ltb_ge _]; lia).
    split_and!; try lia. all: nia.
Qed.

Lemma int_of_float_div f k : 0 ≤ mant f → expo f = k - 43 → 0 ≤ k →
  int_of_float f = mant f * 2 ^ k / 8796093022208.
Proof.
  intros Hm He Hk. unfold int_of_float. rewrite He. change 8796093022208 with (2 ^ 43).
  destruct (Z.leb_spec 0 (k - 43)).
  - replace k with (k - 43 + 43) at 2 by lia. rewrite Z.pow_add_r, Z.mul_assoc by lia.
    by rewrite Z.div_mul.
  - replace (2 ^ 43) with (2 ^ (- (k - 43)) * 2 ^ k) by (rewrite <- Z.pow_add_r by lia; f_equal; lia).
    rewrite Z.div_mul_cancel_r; [done|..]; apply Z.pow_nonzero; lia.
Qed.

(** The product of the three roundings: a relative error below 2^-22. *)
Lemma ato_float d : 0 ≤ d →
  ∃ V, int_of_float (float_mul (float_of_int 1024) (seconds_float d)) = V / 8796093022208 ∧
       - (9007199232 * d) ≤ 4194304 * (V - 9007199232 * d) ≤ 9007199232 * d.
Proof.
  intros Hd. unfold seconds_float, float_of_int.
  destruct (rne24_spec d 0 Hd) as (k1 & Hk1 & E1 & Hm1 & B1).
  set (f1 := rne24 d 0) in *.
  change (rne24 1024 0) with (Fl 1024 0). unfold float_mul at 2. cbn [mant expo one_millionth].
  destruct (rne24_spec (mant f1 * 8796093) (expo f1 + -43)) as (k2 & Hk2 & E2 & Hm2 & B2); [lia|].
  set (f2 := rne24 (mant f1 * 8796093) (expo f1 + -43)) in *.
  unfold float_mul. cbn [mant expo].
  destruct (rne24_spec (1024 * mant f2) (0 + expo f2)) as (k3 & Hk3 & E3 & Hm3 & B3); [lia|].
  set (f3 := rne24 (1024 * mant f2) (0 + expo f2)) in *.
  exists (mant f3 * 2 ^ (k1 + k2 + k3)). split; [apply int_of_float_div; lia|].
  rewrite (Z.pow_add_r 2 (k1 + k2)), (Z.pow_add_r 2 k1) by lia.
  pose proof (Z.pow_pos_nonneg 2 k1 ltac:(lia) Hk1). pose proof (Z.pow_pos_nonneg 2 k2 ltac:(lia) Hk2).
  pose proof (Z.pow_pos_nonneg 2 k3 ltac:(lia) Hk3).
  clearbody f1 f2 f3. clear E1 E2 E3.
  set (m1 := mant f1) in *. set (m2 := mant f2) in *. set (m3 := mant f3) in *.
  set (p1 := 2 ^ k1) in *. set (p2 := 2 ^ k2) in *. set (p3 := 2 ^ k3) in *.
  clearbody m1 m2 m3 p1 p2 p3.
  set (y1 := m1 * p1) in *. set (y2 := m2 * p2 * p1). set (y3 := m3 * p3 * p2 * p1).
  assert (C2 : - (8796093 * y1) ≤ 16777216 * (y2 - 8796093 * y1) ≤ 8796093 * y1)
    by (unfold y1, y2; nia).
  assert (C3 : - (1024 * y2) ≤ 16777216 * (y3 - 1024 * y2) ≤ 1024 * y2).
  { unfold y3, y2. replace (m3 * p3 * p2 * p1) with ((m3 * p3) * (p2 * p1)) by ring.
    replace (m2 * p2 * p1) with (m2 * (p2 * p1)) by ring.
    assert (0 < p2 * p1) by nia. set (w := p2 * p1) in *. clearbody w. nia. }
  replace (m3 * (p1 * p2 * p3)) with y3 by (unfold y3; ring).
  clearbody y1 y2 y3. lia.
Qed.

Lemma To13bitAto_cases d :
  (0 ≤ d ≤ 7998044 → 0 ≤ To13bitAto d ≤ 8189 ∧
     1000000 * To13bitAto d - 2000 ≤ 1024 * d ≤ 1000000 * (To13bitAto d + 1) + 2000) ∧
  (7998050 ≤ d → To13bitAto d = 0x1FFE) ∧
  (d < 0 → To13bitAto d = 0x1FFF).
Proof.
  split_and!; intros H; unfold To13bitAto.
  - rewrite (proj2 (Z.ltb_ge d 0)) by lia. destruct (ato_float d) as (V & -> & HV); [lia|].
    pose proof (Z.div_mod V 8796093022208 ltac:(lia)).
    pose proof (Z.mod_pos_bound V 8796093022208 ltac:(lia)). lia.
  - rewrite (proj2 (Z.ltb_ge d 0)) by lia. destruct (ato_float d) as (V & -> & HV); [lia|].
    pose proof (Z.div_mod V 8796093022208 ltac:(lia)).
    pose proof (Z.mod_pos_bound V 8796093022208 ltac:(lia)). lia.
  - by rewrite (proj2 (Z.ltb_lt d 0)) by lia.
Qed.

(** The accuracy of the offset on the wire. For an offset of less than 8190/1024
    seconds, up to two microseconds, the 13-bit value is the number of 1/1024
    second units rounded down, up to 1/500 of a unit: the three roundings to 24
    bits never cost more. Larger offsets give the over-range code 0x1FFE and
    negative ones the code 0x1FFF. *)
Theorem To13bitAto_accuracy (d : Z) :
  (0 ≤ d ≤ 7998044 → 0 ≤ To13bitAto d ≤ 8189 ∧
     1000000 * To13bitAto d - 2000 ≤ 1024 * d ≤ 1000000 * (To13bitAto d + 1) + 2000) ∧
  (7998050 ≤ d → To13bitAto d = 0x1FFE) ∧
  (d < 0 → To13bitAto d = 0x1FFF).
Proof. apply To13bitAto_cases. Qed.

Lemma one_millionth_nearest :
  2 ^ 23 ≤ mant one_millionth < 2 ^ 24 ∧
  2 * Z.abs (mant one_millionth * 1000000 - 2 ^ (- expo one_millionth)) ≤ 1000000.
Proof. by vm_compute. Qed.

(** ** The metric block of a packet *)

Definition ecn_code (e : EcnMarking) : Z :=
  match e with kNotEct => 0 | kEct1 => 1 | kEct0 => 2 | kCe => 3 end.

Lemma To13bitAto_range d : 0 ≤ To13bitAto d < 8192.
Proof.
  destruct (To13bitAto_cases d) as (H1 & H2 & H3). unfold To13bitAto in *.
  destruct (Z.ltb_spec d 0); [lia|]. destruct (ato_float d) as (V & E & HV); [lia|].
  rewrite E. assert (0 ≤ V / 8796093022208) by (apply Z.div_pos; lia). lia.
Qed.

Lemma packet_info_finite p : IsFinite (arrival_time_offset p) = true →
  packet_info p = 32768 + 8192 * ecn_code (ecn p) + To13bitAto (arrival_time_offset p).
Proof.
  intros H. unfold packet_info. rewrite H. pose proof (To13bitAto_range (arrival_time_offset p)).
  assert (Z.lor 0x8000 (To2BitEcn (ecn p)) = Z.shiftl (4 + ecn_code (ecn p)) 13) as ->
    by (by destruct (ecn p)).
  rewrite lor_shiftl by lia. change (2 ^ 13) with 8192. unfold u16.
  rewrite Z.mod_small; destruct (ecn p); cbn [ecn_code]; lia.
Qed.

Lemma packet_info_uint16 p : uint16 (packet_info p).
Proof.
  destruct (IsFinite (arrival_time_offset p)) eqn:E.
  - rewrite packet_info_finite by done. pose proof (To13bitAto_range (arrival_time_offset p)).
    unfold uint16. destruct (ecn p); cbn [ecn_code]; lia.
  - unfold packet_info. rewrite E. unfold uint16. lia.
Qed.

Lemma received_bit x : uint16 x → negb (Z.land x 0x8000 =? 0) = (32768 <=? x).
Proof. intros H. by rewrite bit15, Z.ltb_antisym, negb_involutive by done. Qed.

Lemma ato_bits x : Z.land x 0x1FFF = x mod 8192.
Proof. change 0x1FFF with (Z.ones 13). by rewrite Z.land_ones by lia. Qed.

Lemma ToEcnMarking_code x e : x / 8192 mod 4 = ecn_code e → ToEcnMarking x = e.
Proof.
  intros H. unfold ToEcnMarking. change 3 with (Z.ones 2).
  rewrite Z.land_ones, Z.shiftr_div_pow2 by lia. change (2 ^ 13) with 8192. change (2 ^ 2) with 4.
  rewrite H. by destruct e.
Qed.

(** The offset a 13-bit value stands for. *)
Definition decoded (a : Z) : Z :=
  if a =? 0x1FFE then PlusInfinity
  else if a =? 0x1FFF then MinusInfinity
  else a * 1000000 / 1024.

Lemma AtoToTimeDelta_decoded x : AtoToTimeDelta x = Some (decoded (x mod 8192)).
Proof.
  unfold AtoToTimeDelta, decoded. rewrite ato_bits.
  pose proof (Z.mod_pos_bound x 8192 ltac:(lia)) as Hx. set (a := x mod 8192) in *. clearbody a.
  destruct (Z.eqb_spec a 0x1FFE); [done|]. destruct (Z.eqb_spec a 0x1FFF); [done|].
  unfold Seconds. change (Z.quot MinusInfinity 1000000) with (-9223372036854).
  change (Z.quot PlusInfinity 1000000) with 9223372036854.
  rewrite (proj2 (Z.ltb_lt _ a)), (proj2 (Z.ltb_lt a _)) by lia. cbn [dcheck mbind option_bind].
  assert (Hf : finite (a * 1000000)) by (unfold finite, PlusInfinity, MinusInfinity; lia).
  unfold td_div. rewrite ToValue_ok by done. cbn [mbind option_bind Z.eqb].
  rewrite Z.quot_div_nonneg by lia. apply FromValue_ok; [done|].
  unfold finite, PlusInfinity, MinusInfinity. Z.to_euclidean_division_equations; lia.
Qed.

Lemma decoded_int64 a : 0 ≤ a < 8192 → int64 (decoded a).
Proof.
  intros Ha. unfold decoded, int64, PlusInfinity, MinusInfinity.
  destruct (_ =? _); [lia|]. destruct (_ =? _); [lia|]. Z.to_euclidean_division_equations; lia.
Qed.

(** What the receiver of a report learns about a packet: a lost packet has no ECN
    mark, and the offset has the resolution of the wire format. *)
Definition reported (p : PacketInfo) : PacketInfo :=
  if IsFinite (arrival_time_offset p)
  then mkInfo (ssrc p) (sequence_number p) (decoded (To13bitAto (arrival_time_offset p))) (ecn p)
  else mkInfo (ssrc p) (sequence_number p) MinusInfinity kNotEct.

Lemma parse_packet_info p :
  ((if negb (Z.land (packet_info p) 0x8000 =? 0) then AtoToTimeDelta (packet_info p)
    else Some MinusInfinity) = Some (arrival_time_offset (reported p))) ∧
  ToEcnMarking (packet_info p) = ecn (reported p).
Proof.
  rewrite received_bit by apply packet_info_uint16. unfold reported.
  destruct (IsFinite (arrival_time_offset p)) eqn:E; cbn [arrival_time_offset ecn].
  - pose proof (To13bitAto_range (arrival_time_offset p)) as Ha.
    rewrite packet_info_finite by done.
    assert (0 ≤ ecn_code (ecn p) ≤ 3) by (destruct (ecn p); cbn; lia).
    rewrite (proj2 (Z.leb_le 32768 _)) by lia. rewrite AtoToTimeDelta_decoded. split.
    + do 2 f_equal. Z.to_euclidean_division_equations; lia.
    + apply ToEcnMarking_code. Z.to_euclidean_division_equations; lia.
  - unfold packet_info. rewrite E. done.
Qed.

(** ** The wire format *)

Definition encode_report (g : list PacketInfo) : list Z :=
  match g with
  | [] => []
  | p :: _ =>
      be32 (ssrc p) ++ be16 (sequence_number p) ++ be16 (Z.of_nat (length g)) ++
      concat (map (λ p, be16 (packet_info p)) g) ++
      (if Nat.odd (length g) then be16 0 else [])
  end.

Definition encode (self : CongestionControlFeedback) (reports : list (list PacketInfo)) : list Z :=
  let body := concat (map encode_report reports) in
  header_bytes kFeedbackMessageType kPacketType (Z.of_nat (length body / 4 + 2)) false ++
  be32 (sender_ssrc self) ++ body ++ be32 (report_timestamp_compact_ntp_ self).

(** A report: one to 16384 packets of one stream with consecutive sequence numbers. *)
Definition report (g : list PacketInfo) : Prop :=
  ∃ s base, uint32 s ∧ uint16 base ∧ 1 ≤ Z.of_nat (length g) ≤ 16384 ∧
    ∀ i p, g !! i = Some p → ssrc p = s ∧ sequence_number p = u16 (base + Z.of_nat i).

(** Neighbouring reports are for different streams. *)
Definition head_ssrc (g : list PacketInfo) : option Z := ssrc <$> head g.
Fixpoint separated (gs : list (list PacketInfo)) : Prop :=
  match gs with
  | g :: ((g' :: _) as gs') => head_ssrc g ≠ head_ssrc g' ∧ separated gs'
  | _ => True
  end.

Definition reports_ok (gs : list (list PacketInfo)) : Prop := Forall report gs ∧ separated gs.

Lemma length_infos g : length (concat (map (λ p, be16 (packet_info p)) g)) = (2 * length g)%nat.
Proof. induction g as [|p g IH]; [done|]. cbn [map concat]. rewrite length_app, IH. cbn. lia. Qed.

Lemma length_encode_report g : (0 < length g)%nat →
  length (encode_report g) = (8 + 2 * length g + if Nat.odd (length g) then 2 else 0)%nat.
Proof.
  intros Hg. destruct g as [|p g]; [cbn in Hg; lia|]. unfold encode_report.
  rewrite !length_app, length_infos. destruct (Nat.odd _); cbn [length be32 be16]; lia.
Qed.

Lemma odd_mod n : negb (Z.of_nat n mod 2 =? 0) = Nat.odd n.
Proof.
  rewrite <- Nat.negb_even. f_equal. destruct (Nat.even n) eqn:E.
  - apply Nat.even_spec in E as [k ->]. apply Z.eqb_eq. Z.to_euclidean_division_equations; lia.
  - assert (Nat.odd n = true) as [k ->]%Nat.odd_spec by (by rewrite <- Nat.negb_even, E).
    apply Z.eqb_neq. Z.to_euclidean_division_equations; lia.
Qed.

Lemma report_count g : report g →
  increase_size_per_ssrc (Z.of_nat (length g)) = length (encode_report g).
Proof.
  intros (s & base & _ & _ & Hl & _). rewrite length_encode_report by lia.
  unfold increase_size_per_ssrc, kHeaderPerMediaSssrcLength.
  rewrite odd_mod. lia.
Qed.

(** The count recovered from the first and the last sequence number. *)
Lemma report_span g p q : report g → g !! 0%nat = Some p → g !! (length g - 1)%nat = Some q →
  u16 (sequence_number q - sequence_number p + 1) = Z.of_nat (length g).
Proof.
  intros (s & base & _ & Hb & Hl & H) Hp Hq.
  apply H in Hp as [_ ->], Hq as [_ ->]. unfold u16, uint16 in *.
  Z.to_euclidean_division_equations; lia.
Qed.

Lemma length_be16 v : length (be16 v) = 2%nat.
Proof. done. Qed.
Lemma length_be32 v : length (be32 v) = 4%nat.
Proof. done. Qed.

Lemma write_infos g buf p :
  (p + 2 * length g ≤ length buf)%nat →
  wp (for_loop (length g) 0 (λ i '(buffer, position),
        q ← g !! i;
        buffer ← WriteBigEndian16 buffer position (packet_info q);
        Some (buffer, (position + 2)%nat)) (buf, p))
     (λ '(b, q), b = put buf p (concat (map (λ p, be16 (packet_info p)) g)) ∧
                 q = (p + 2 * length g)%nat).
Proof.
  intros Hp.
  apply (wp_for (λ i '(b, q),
    b = put buf p (concat (map (λ p, be16 (packet_info p)) (take i g))) ∧ q = (p + 2 * i)%nat)).
  - rewrite take_0. cbn [map concat]. split; [|lia]. unfold put. cbn [length app].
    by rewrite Nat.add_0_r, take_drop.
  - intros i [b q] Hi [-> ->]. destruct (lookup_lt_is_Some_2 g i) as [x Hx]; [lia|].
    rewrite Hx. apply wp_bind, wp_ret, wp_bind.
    set (pre := concat (map (λ p, be16 (packet_info p)) (take i g))).
    assert (Hpre : length pre = (2 * i)%nat) by (unfold pre; rewrite length_infos, length_take; lia).
    rewrite WriteBigEndian16_put by (rewrite length_put; lia). apply wp_ret, wp_ret.
    rewrite <- Hpre, put_put by (rewrite length_be16; lia). split; [|lia]. f_equal.
    rewrite (take_S_r _ _ _ Hx), map_app, concat_app. cbn [map concat]. by rewrite app_nil_r.
  - intros [b q] [-> ->]. cbn [Nat.add]. by rewrite take_ge by lia.
Qed.

Lemma write_report_ok buf p g : report g → (p + length (encode_report g) ≤ length buf)%nat →
  write_report_for_ssrc buf p g = Some (put buf p (encode_report g), (p + length (encode_report g))%nat).
Proof.
  intros Hg Hp. assert (Hg' := Hg). destruct Hg' as (s & base & Hs & Hb & Hl & H).
  rewrite length_encode_report in Hp by lia. unfold write_report_for_ssrc.
  destruct g as [|p0 g0] eqn:Eg; [cbn in Hl; lia|]. rewrite <- Eg in *.
  assert (Hp0 : g !! 0%nat = Some p0) by (by rewrite Eg). rewrite Hp0. cbn [mbind option_bind].
  rewrite WriteBigEndian32_put by lia. cbn [mbind option_bind].
  rewrite WriteBigEndian16_put by (rewrite length_put; rewrite ?length_be32; lia).
  rewrite (put_put buf p (be32 _)) by (rewrite ?length_be32, ?length_be16; lia).
  cbn [mbind option_bind].
  destruct (lookup_lt_is_Some_2 g (length g - 1)) as [q Hq]; [lia|]. rewrite Hq.
  cbn [mbind option_bind]. rewrite (report_span g p0 q), Z.eqb_refl by done.
  cbn [dcheck mbind option_bind].
  assert (u16 (Z.of_nat (length g)) = Z.of_nat (length g)) as ->
    by (unfold u16; apply Z.mod_small; lia).
  rewrite Z.gtb_ltb, (proj2 (Z.ltb_ge _ _)) by lia.
  replace (p + 4 + 2)%nat with (p + length (be32 (ssrc p0) ++ be16 (sequence_number p0)))%nat
    by (cbn; lia).
  rewrite WriteBigEndian16_put by (rewrite length_put; cbn; lia).
  rewrite put_put by (cbn; lia). cbn [mbind option_bind].
  set (hd := (be32 (ssrc p0) ++ be16 (sequence_number p0)) ++ be16 (Z.of_nat (length g))).
  replace (p + length (be32 (ssrc p0) ++ be16 (sequence_number p0)) + 2)%nat with (p + length hd)%nat
    by (cbn; lia).
  assert (Hhd : length hd = 8%nat) by done.
  pose proof (write_infos g (put buf p hd) (p + length hd)) as Hw.
  apply wp_exists in Hw as ([b q'] & -> & -> & ->); [|rewrite length_put; lia].
  cbn [mbind option_bind]. rewrite put_put by (rewrite length_infos; lia).
  rewrite odd_mod. set (infos := concat _).
  assert (Hi : length infos = (2 * length g)%nat) by apply length_infos.
  rewrite length_encode_report by lia.
  assert (Ee : encode_report g = (hd ++ infos) ++ if Nat.odd (length g) then be16 0 else []).
  { unfold encode_report, hd. rewrite Eg at 1. by rewrite <- !app_assoc. }
  rewrite Ee. destruct (Nat.odd (length g)).
  - replace (p + length hd + 2 * length g)%nat with (p + length (hd ++ infos))%nat
      by (rewrite length_app; lia).
    rewrite WriteBigEndian16_put by (rewrite ?length_put; rewrite length_app; lia).
    rewrite put_put by (rewrite length_app, length_be16; lia). cbn [mbind option_bind].
    do 2 f_equal. rewrite length_app. lia.
  - rewrite app_nil_r. do 2 f_equal. lia.
Qed.

Lemma leading_app s g rest :
  Forall (λ p, ssrc p = s) g → head_ssrc rest ≠ Some s → leading s (g ++ rest) = length g.
Proof.
  intros Hg Hr. induction Hg as [|p g Hp Hg IH]; cbn [app leading length].
  - destruct rest as [|p rest]; [done|]. cbn [leading]. cbn in Hr.
    by rewrite (proj2 (Z.eqb_neq (ssrc p) s)) by congruence.
  - by rewrite Hp, Z.eqb_refl, IH.
Qed.

Lemma report_ssrc g : report g → ∃ p g', g = p :: g' ∧ Forall (λ q, ssrc q = ssrc p) g.
Proof.
  intros (s & base & _ & _ & Hl & H). destruct g as [|p g']; [cbn in Hl; lia|].
  exists p, g'. split; [done|]. apply Forall_lookup_2. intros i q Hq.
  apply H in Hq as [-> _]. by destruct (H 0%nat p eq_refl) as [-> _].
Qed.

Lemma head_concat g gs : report g → head_ssrc (concat (g :: gs)) = head_ssrc g.
Proof. intros (p & g' & -> & _)%report_ssrc. done. Qed.

Lemma separated_head g gs : Forall report (g :: gs) → separated (g :: gs) →
  ∀ s, head_ssrc g = Some s → head_ssrc (concat gs) ≠ Some s.
Proof.
  intros Hr Hs s E. destruct gs as [|g' gs]; [done|]. destruct Hs as [Hne _].
  apply Forall_cons_1 in Hr as [_ [Hg' _]%Forall_cons_1]. rewrite head_concat by done. congruence.
Qed.

Lemma separated_tail g gs : separated (g :: gs) → separated gs.
Proof. destruct gs; [done|]. by intros [_ ?]. Qed.

Lemma write_reports_ok fuel buf p gs :
  reports_ok gs → (length gs ≤ fuel)%nat →
  (p + length (concat (map encode_report gs)) ≤ length buf)%nat →
  write_reports fuel buf p (concat gs) =
  Some (put buf p (concat (map encode_report gs)), (p + length (concat (map encode_report gs)))%nat).
Proof.
  intros [Hr Hs]. revert fuel buf p Hs. induction Hr as [|g gs Hg Hr IH]; intros fuel buf p Hs Hf Hp.
  - cbn [map concat length]. unfold put. cbn [length app]. rewrite Nat.add_0_r, take_drop.
    by destruct fuel.
  - destruct fuel as [|fuel]; [cbn in Hf; lia|].
    destruct (report_ssrc g Hg) as (q & g' & Eg & Hq).
    assert (Hlead : leading (ssrc q) (g ++ concat gs) = length g).
    { apply leading_app; [done|]. apply (separated_head g gs); [by constructor|done|by rewrite Eg]. }
    cbn [map concat] in *. rewrite length_app in *.
    assert (Hgo : write_reports (S fuel) buf p (g ++ concat gs) =
      ('(buffer, position) ← write_report_for_ssrc buf p
          (take (leading (ssrc q) (g ++ concat gs)) (g ++ concat gs));
       write_reports fuel buffer position (drop (leading (ssrc q) (g ++ concat gs)) (g ++ concat gs)))).
    { by rewrite Eg. }
    rewrite Hgo, Hlead, take_app_length, drop_app_length, write_report_ok by (done || lia).
    cbn [mbind option_bind]. rewrite IH.
    + rewrite put_put by lia. do 2 f_equal. lia.
    + by eapply separated_tail.
    + cbn in Hf. lia.
    + rewrite length_put by lia. lia.
Qed.

(** ** The block length *)

(** [g] at position [lo] of the list. *)
Definition at_list (packets : list PacketInfo) (lo : nat) (g : list PacketInfo) : Prop :=
  ∀ i p, g !! i = Some p → packets !! (lo + i)%nat = Some p.

Lemma at_list_app packets lo a b :
  at_list packets lo (a ++ b) → at_list packets lo a ∧ at_list packets (lo + length a) b.
Proof.
  intros H. split; intros i v Hv.
  - apply H. by apply lookup_app_l_Some.
  - rewrite <- Nat.add_assoc. apply H. by rewrite lookup_app_r, Nat.add_comm, Nat.add_sub by lia.
Qed.


Section block_length.
Context (packets : list PacketInfo).

(** Inside a report the loop only looks. *)
Lemma step_same (g : list PacketInfo) lo t s f :
  at_list packets lo g → Forall (λ p, ssrc p = s) g →
  for_loop (length g) lo (size_step packets) (t, s, f) = Some (t, s, f).
Proof using Type.
  revert lo. induction g as [|p g IH]; intros lo Hat Hs; [done|].
  apply Forall_cons_1 in Hs as [Hp Hs]. cbn [length for_loop].
  pose proof (Hat 0%nat p eq_refl) as E. rewrite Nat.add_0_r in E.
  assert (size_step packets lo (t, s, f) = Some (t, s, f)) as ->
    by (unfold size_step; rewrite E; cbn [mbind option_bind]; by rewrite Hp, Z.eqb_refl).
  cbn [mbind option_bind]. apply IH; [|done]. intros i q Hq. rewrite Nat.add_succ_comm. by apply (Hat (S i)).
Qed.

(** The first packet of a report closes the previous one. *)
Lemma step_next g q q' lo t f :
  report g → head g = Some q → at_list packets lo g → f = sequence_number q →
  packets !! (lo + length g)%nat = Some q' → ssrc q' ≠ ssrc q →
  size_step packets (lo + length g) (t, ssrc q, f) =
  size_step packets (lo + length g)
    ((t + length (encode_report g))%nat, ssrc q', sequence_number q').
Proof using Type.
  intros Hg Hq Hat -> Hq' Hne. unfold size_step. rewrite Hq'. cbn [mbind option_bind].
  rewrite (proj2 (Z.eqb_neq (ssrc q') (ssrc q))), Z.eqb_refl by done. cbn [negb].
  assert (Hl : (0 < length g)%nat) by (destruct Hg as (? & ? & _ & _ & ? & _); lia).
  destruct (lookup_lt_is_Some_2 g (length g - 1)) as [z Hz]; [lia|].
  replace (lo + length g - 1)%nat with (lo + (length g - 1))%nat by lia.
  rewrite (Hat _ _ Hz). cbn [mbind option_bind].
  rewrite (report_span g q z), report_count; [done|done|done| |done].
  by destruct g as [|? ?]; [|injection Hq as ->].
Qed.

Lemma steps_ok (gs : list (list PacketInfo)) g lo t q :
  reports_ok (g :: gs) → head g = Some q → at_list packets lo (concat (g :: gs)) →
  ∃ t' s' f', for_loop (length (concat (g :: gs))) lo (size_step packets)
      (t, ssrc q, sequence_number q) = Some (t', s', f') ∧
    ∀ back, packets !! (lo + length (concat (g :: gs)) - 1)%nat = Some back →
      (t' + increase_size_per_ssrc (u16 (sequence_number back - f' + 1)) =
       t + length (concat (map encode_report (g :: gs))))%nat.
Proof using Type.
  revert g lo t q. induction gs as [|g' gs IH]; intros g lo t q [Hr Hs] Hq Hat;
    apply Forall_cons_1 in Hr as [Hg Hr]; destruct (report_ssrc g Hg) as (q0 & g0 & Eg & Hall);
    (assert (q0 = q) as -> by (rewrite Eg in Hq; by injection Hq)).
  - cbn [concat map] in *. rewrite app_nil_r in *. rewrite app_nil_r.
    exists t, (ssrc q), (sequence_number q). split; [by apply step_same|].
    intros back Hb. assert (Hl : (0 < length g)%nat) by (rewrite Eg; cbn; lia).
    destruct (lookup_lt_is_Some_2 g (length g - 1)) as [z Hz]; [lia|].
    pose proof (Hat _ _ Hz) as Hz'.
    replace (lo + length g - 1)%nat with (lo + (length g - 1))%nat in Hb by lia.
    assert (z = back) as -> by congruence.
    rewrite (report_span g q back), report_count; [done|done|done|by rewrite Eg|done].
  - assert (Hat1 : at_list packets lo g ∧ at_list packets (lo + length g) (concat (g' :: gs))).
    { by apply at_list_app. }
    destruct Hat1 as [Hat1 Hat2]. destruct Hs as [Hne Hs].
    assert (Hg' : report g') by (by apply Forall_cons_1 in Hr as [? _]).
    destruct (report_ssrc g' Hg') as (q' & g1 & Eg' & _).
    assert (Hq' : packets !! (lo + length g)%nat = Some q').
    { rewrite <- (Nat.add_0_r (lo + length g)). apply Hat2. by rewrite Eg'. }
    assert (ssrc q' ≠ ssrc q) by (rewrite Eg, Eg' in Hne; cbn in Hne; congruence).
    destruct (IH g' (lo + length g)%nat (t + length (encode_report g))%nat q')
      as (t' & s' & f' & Hrun & Hend); [by split|by rewrite Eg'|done|].
    exists t', s', f'. change (concat (g :: g' :: gs)) with (g ++ concat (g' :: gs)).
    rewrite length_app, for_loop_app, step_same by done. cbn [mbind option_bind]. split.
    + rewrite <- Hrun. assert (Hn : (0 < length (concat (g' :: gs)))%nat) by (rewrite Eg'; cbn; lia).
      destruct (length (concat (g' :: gs))) as [|n]; [lia|]. cbn [for_loop].
      by rewrite (step_next g q q').
    + intros back Hb. rewrite Nat.add_assoc in Hb. rewrite (Hend back Hb).
      change (concat (map encode_report (g :: g' :: gs)))
        with (encode_report g ++ concat (map encode_report (g' :: gs))).
      rewrite length_app. lia.
Qed.
End block_length.

Lemma BlockLength_ok gs : reports_ok gs →
  BlockLength (concat gs) = Some (12 + length (concat (map encode_report gs)))%nat.
Proof.
  intros Hr. destruct gs as [|g gs]; [done|].
  assert (Hg : report g) by (by destruct Hr as [[? _]%Forall_cons_1 _]).
  destruct (report_ssrc g Hg) as (q & g0 & Eg & _).
  destruct (steps_ok (concat (g :: gs)) gs g 0 12 q) as (t' & s' & f' & Hrun & Hend);
    [done|by rewrite Eg|by intros i p Hp|].
  assert (Hn : (0 < length (concat (g :: gs)))%nat) by (rewrite Eg; cbn; lia).
  destruct (lookup_lt_is_Some_2 (concat (g :: gs)) (length (concat (g :: gs)) - 1)) as [z Hz]; [lia|].
  specialize (Hend z Hz).
  unfold BlockLength. destruct (concat (g :: gs)) as [|p0 l] eqn:E; [cbn in Hn; lia|].
  assert (p0 = q) as -> by (rewrite Eg in E; by injection E).
  unfold kSenderSsrcLength, kHeaderLength, kTimestampLength.
  change (4 + 4 + 4)%nat with 12%nat. rewrite Hrun. cbn [mbind option_bind].
  rewrite Hz. cbn [mbind option_bind]. by rewrite Hend.
Qed.

(** ** Create *)

Lemma body_aligned gs : Forall report gs →
  (length (concat (map encode_report gs)) mod 4 = 0)%nat.
Proof.
  induction 1 as [|g gs Hg _ IH]; [done|]. cbn [map concat]. rewrite length_app.
  destruct Hg as (_ & _ & _ & _ & Hl & _). rewrite length_encode_report by lia.
  rewrite Nat.Div0.add_mod, IH, Nat.add_0_r, Nat.Div0.mod_mod.
  destruct (Nat.odd (length g)) eqn:E.
  - apply Nat.odd_spec in E as [k ->].
    replace (8 + 2 * (2 * k + 1) + 2)%nat with ((k + 3) * 4)%nat by lia. apply Nat.Div0.mod_mul.
  - rewrite <- Nat.negb_even in E. apply negb_false_iff, Nat.even_spec in E as [k ->].
    replace (8 + 2 * (2 * k) + 0)%nat with ((k + 2) * 4)%nat by lia. apply Nat.Div0.mod_mul.
Qed.

Lemma length_encode self gs :
  length (encode self gs) = (12 + length (concat (map encode_report gs)))%nat.
Proof. unfold encode. rewrite !length_app. cbn. lia. Qed.

Lemma groups_length gs : Forall report gs → (length gs ≤ length (concat gs))%nat.
Proof.
  induction 1 as [|g gs Hg _ IH]; [done|]. cbn [concat length]. rewrite length_app.
  destruct Hg as (_ & _ & _ & _ & Hl & _). lia.
Qed.

Lemma Create_here self gs buf p max_length cb :
  packets_ self = concat gs → reports_ok gs →
  Z.of_nat (length (concat (map encode_report gs))) ≤ 262132 →
  (p + length (encode self gs) ≤ max_length)%nat → (max_length ≤ length buf)%nat →
  Create self buf p max_length cb =
  Some (true, put buf p (encode self gs), (p + length (encode self gs))%nat, []).
Proof.
  intros Hp Hr Hsz Hm Hb. rewrite length_encode in *. unfold Create.
  rewrite Hp, BlockLength_ok by done. cbn [mbind option_bind make_room].
  assert (Hal := body_aligned gs (proj1 Hr)).
  set (body := concat (map encode_report gs)) in *.
  rewrite (proj2 (Nat.ltb_ge _ _)) by lia. cbn [mbind option_bind negb].
  unfold HeaderLength. rewrite (proj2 (Nat.ltb_lt _ _)) by lia.
  assert (Hd : length body = (length body / 4 * 4)%nat).
  { pose proof (Nat.Div0.div_mod (length body) 4). lia. }
  set (w := (length body / 4)%nat) in *. clearbody w.
  assert (((12 + length body) mod 4 =? 0)%nat = true) as ->.
  { apply Nat.eqb_eq. rewrite Hd. replace (12 + w * 4)%nat with ((3 + w) * 4)%nat by lia.
    apply Nat.Div0.mod_mul. }
  cbn [dcheck mbind option_bind].
  replace ((12 + length body - kHeaderLength) / 4)%nat with (w + 2)%nat.
  2: { unfold kHeaderLength. rewrite Hd. replace (12 + w * 4 - 4)%nat with ((w + 2) * 4)%nat by lia.
       by rewrite Nat.div_mul. }
  rewrite CreateHeader_put by (unfold kFeedbackMessageType; lia). cbn [mbind option_bind].
  set (hd := header_bytes _ _ _ _). assert (Hhd : length hd = 4%nat) by done.
  rewrite WriteBigEndian32_put by (rewrite length_put; lia).
  rewrite <- Hhd at 1. rewrite put_put by (rewrite length_be32; lia). cbn [mbind option_bind].
  set (hs := hd ++ be32 (sender_ssrc self)). assert (Hhs : length hs = 8%nat) by done.
  rewrite write_reports_ok; [|done|apply groups_length; apply Hr|].
  2: { rewrite length_put by lia. fold body. lia. }
  fold body. cbn [mbind option_bind].
  replace (p + 4 + 4)%nat with (p + length hs)%nat by lia.
  rewrite put_put by lia. replace (p + length hs + length body)%nat with (p + length (hs ++ body))%nat
    by (rewrite length_app; lia).
  rewrite WriteBigEndian32_put by (rewrite length_put; rewrite length_app; lia).
  rewrite put_put by (rewrite length_app, length_be32; lia). cbn [mbind option_bind].
  rewrite length_app, Hhs. assert ((p + (8 + length body) + 4 =? p + (12 + length body))%nat = true) as ->
    by (apply Nat.eqb_eq; lia).
  cbn [dcheck mbind option_bind].
  assert (put buf p ((hs ++ body) ++ be32 (report_timestamp_compact_ntp_ self)) =
          put buf p (encode self gs)) as ->.
  2: { do 3 f_equal. lia. }
  f_equal. unfold encode. fold body. replace (length body / 4)%nat with w
    by (rewrite Hd; by rewrite Nat.div_mul).
  unfold hs, hd. by rewrite <- !app_assoc.
Qed.

(** Room for a message of [L] bytes: behind what the buffer holds, or at its start
    after that was sent. *)
Lemma make_room_spec buf p L max_length : (p ≤ max_length)%nat →
  make_room 2 buf p L max_length true [] =
  Some (if (p + L <=? max_length)%nat then (true, p, [])
        else ((L <=? max_length)%nat, 0%nat, if (p =? 0)%nat then [] else [take p buf])).
Proof.
  intros Hp. cbn [make_room]. destruct (Nat.leb_spec (p + L) max_length).
  { by rewrite (proj2 (Nat.ltb_ge _ _)) by lia. }
  rewrite (proj2 (Nat.ltb_lt _ _)) by lia. unfold OnBufferFull. destruct (Nat.eqb_spec p 0) as [->|].
  { cbn [mbind option_bind]. by rewrite (proj2 (Nat.leb_gt _ _)) by lia. }
  cbn [dcheck mbind option_bind Nat.add app]. destruct (Nat.leb_spec L max_length).
  - by rewrite (proj2 (Nat.ltb_ge _ _)) by lia.
  - by rewrite (proj2 (Nat.ltb_lt _ _)) by lia.
Qed.

Lemma Create_cases self gs buf p max_length :
  packets_ self = concat gs → reports_ok gs →
  Z.of_nat (length (concat (map encode_report gs))) ≤ 262132 →
  (p ≤ max_length ≤ length buf)%nat →
  let L := length (encode self gs) in
  Create self buf p max_length true =
  Some (if (p + L <=? max_length)%nat then (true, put buf p (encode self gs), (p + L)%nat, [])
        else let sent := if (p =? 0)%nat then [] else [take p buf] in
             if (L <=? max_length)%nat then (true, put buf 0 (encode self gs), L, sent)
             else (false, buf, 0%nat, sent)).
Proof.
  intros Hp Hr Hsz Hm L. destruct (Nat.leb_spec (p + L) max_length).
  { by rewrite (Create_here self gs) by (done || lia). }
  pose proof (length_encode self gs) as HL. fold L in HL.
  assert (Hroom : make_room 2 buf p L max_length true [] =
    Some ((L <=? max_length)%nat, 0%nat, if (p =? 0)%nat then [] else [take p buf])).
  { rewrite make_room_spec by lia. by rewrite (proj2 (Nat.leb_gt _ _)) by lia. }
  destruct (Nat.leb_spec L max_length) as [Hfit|Hno].
  - assert (H0 := Create_here self gs buf 0 max_length true Hp Hr Hsz ltac:(lia) ltac:(lia)).
    fold L in H0.
    unfold Create in *. rewrite Hp, BlockLength_ok in * by done. cbn [mbind option_bind] in *.
    rewrite <- HL in *. rewrite Hroom. cbn [mbind option_bind negb].
    cbn [make_room] in H0. rewrite (proj2 (Nat.ltb_ge _ _)) in H0 by lia.
    cbn [mbind option_bind negb Nat.add] in *.
    revert H0. generalize (if (p =? 0)%nat then [] else [take p buf]) as sent. intros sent H0.
    destruct (HeaderLength L) as [h|]; [|done]. cbn [mbind option_bind] in *.
    destruct (CreateHeader _ _ _ _ _ _) as [[b1 p1]|]; [|done]. cbn [mbind option_bind] in *.
    destruct (WriteBigEndian32 _ _ _) as [b2|]; [|done]. cbn [mbind option_bind] in *.
    destruct (write_reports _ _ _ _) as [[b3 p3]|]; [|done]. cbn [mbind option_bind] in *.
    destruct (WriteBigEndian32 _ _ _) as [b4|]; [|done]. cbn [mbind option_bind] in *.
    destruct (dcheck _); [|done]. cbn [mbind option_bind] in *. by injection H0 as -> ->.
  - unfold Create. rewrite Hp, BlockLength_ok by done. cbn [mbind option_bind]. rewrite <- HL, Hroom.
    done.
Qed.

(** C33: Serialisation. For packets that form reports (per stream one to 16384
    consecutive sequence numbers, neighbouring reports of different streams, at
    most 65535 words in all) [Create] writes exactly the RFC 8888 message at the
    position and nowhere else, and every debug check, in particular that
    [BlockLength] predicted the size, passes. If the message does not fit behind
    what the buffer already holds, that content is sent first and the buffer
    reused; if it does not fit into an empty buffer, the call fails. *)
Theorem Create_correct (self : CongestionControlFeedback) (gs : list (list PacketInfo))
    (buf : list Z) (p max_length : nat) :
  packets_ self = concat gs → reports_ok gs →
  Z.of_nat (length (concat (map encode_report gs))) ≤ 262132 →
  (p ≤ max_length ≤ length buf)%nat →
  let L := length (encode self gs) in
  Create self buf p max_length true =
  Some (if (p + L <=? max_length)%nat then (true, put buf p (encode self gs), (p + L)%nat, [])
        else let sent := if (p =? 0)%nat then [] else [take p buf] in
             if (L <=? max_length)%nat then (true, put buf 0 (encode self gs), L, sent)
             else (false, buf, 0%nat, sent)).
Proof. apply Create_cases. Qed.

Definition example_reports : list (list PacketInfo) :=
  [[mkInfo 7 65535 1000000 kCe; mkInfo 7 0 MinusInfinity kEct1]; [mkInfo 9 5 500 kEct1]].
Definition example_feedback : CongestionControlFeedback :=
  mkFeedback 1 (concat example_reports) 99.

Lemma example_reports_ok : reports_ok example_reports.
Proof.
  split; [|done]. apply Forall_cons_2; [|apply Forall_cons_2; [|apply Forall_nil_2]].
  - exists 7, 65535. do 3 (split; [unfold uint32, uint16; cbn [length]; lia|]). intros i p Hi.
    do 2 (destruct i as [|i]; [by injection Hi as <-|]). done.
  - exists 9, 5. do 3 (split; [unfold uint32, uint16; cbn [length]; lia|]). intros i p Hi.
    destruct i as [|i]; [by injection Hi as <-|]. done.
Qed.

Lemma Create_correct_witness :
  let L := length (encode example_feedback example_reports) in
  Create example_feedback (replicate 50 0) 20 50 true =
  Some (if (20 + L <=? 50)%nat
        then (true, put (replicate 50 0) 20 (encode example_feedback example_reports), (20 + L)%nat, [])
        else let sent := if (20 =? 0)%nat then [] else [take 20 (replicate 50 0)] in
             if (L <=? 50)%nat
             then (true, put (replicate 50 0) 0 (encode example_feedback example_reports), L, sent)
             else (false, replicate 50 0, 0%nat, sent)).
Proof.
  apply (Create_correct example_feedback example_reports (replicate 50 0) 20 50);
    [done|apply example_reports_ok|by vm_compute|by vm_compute; lia].
Defined.

(** ** Parse *)

Lemma parse_infos buf p base s n acc g :
  length g = n → at_pos buf p (concat (map (λ q, be16 (packet_info q)) g)) →
  (∀ i q, g !! i = Some q → ssrc q = s ∧ sequence_number q = u16 (base + Z.of_nat i)) →
  wp (for_loop n 0 (parse_report buf s base) (p, acc))
     (λ '(q, packets), q = (p + 2 * n)%nat ∧ packets = acc ++ map reported g).
Proof.
  intros Hn Hat Hg. subst n.
  apply (wp_for (λ i '(q, packets), q = (p + 2 * i)%nat ∧ packets = acc ++ map reported (take i g))).
  - rewrite take_0. cbn [map]. rewrite app_nil_r. split; [lia|done].
  - intros i [q packets] Hi [-> ->]. destruct (lookup_lt_is_Some_2 g i) as [x Hx]; [lia|].
    assert (Hr : ReadBigEndian16 buf (p + 2 * i) = Some (packet_info x)).
    { apply read16_at; [|apply packet_info_uint16].
      rewrite <- (take_drop_middle g i x Hx) in Hat. rewrite map_app, concat_app in Hat.
      apply at_pos_app in Hat as [_ Hat]. rewrite length_infos, length_take, Nat.min_l in Hat by lia.
      cbn [map concat] in Hat. by apply at_pos_app in Hat as [Hat _]. }
    unfold parse_report. rewrite Hr. apply wp_bind, wp_ret. cbv zeta.
    destruct (parse_packet_info x) as [-> ->]. apply wp_bind, wp_ret, wp_ret. split; [lia|].
    destruct (Hg i x Hx) as [<- <-].
    rewrite (take_S_r _ _ _ Hx), map_app, app_assoc. cbn [map]. do 2 f_equal.
    unfold reported. by destruct (IsFinite _).
  - intros [q packets] [-> ->]. cbn [Nat.add]. by rewrite take_ge by lia.
Qed.

Lemma parse_block_at buf p pend g acc :
  report g → at_pos buf p (encode_report g) → (p + length (encode_report g) ≤ pend)%nat →
  parse_block buf p pend acc =
  Some (Some ((p + length (encode_report g))%nat, acc ++ map reported g)).
Proof.
  intros Hg Hat Hend. assert (Hg' := Hg). destruct Hg' as (s & base & Hs & Hb & Hl & H).
  destruct g as [|p0 g0] eqn:Eg; [cbn in Hl; lia|]. rewrite <- Eg in *.
  assert (Ee : encode_report g = be32 (ssrc p0) ++ be16 (sequence_number p0) ++
    be16 (Z.of_nat (length g)) ++ concat (map (λ p, be16 (packet_info p)) g) ++
    (if Nat.odd (length g) then be16 0 else [])) by (unfold encode_report; by rewrite Eg at 1).
  rewrite Ee in Hat. apply at_pos_app in Hat as [A1 Hat]. apply at_pos_app in Hat as [A2 Hat].
  apply at_pos_app in Hat as [A3 Hat]. apply at_pos_app in Hat as [A4 _].
  rewrite length_be32 in *. rewrite !length_be16 in *.
  destruct (H 0%nat p0) as [E0 E1]; [by rewrite Eg|].
  rewrite Z.add_0_r in E1. assert (E1' : sequence_number p0 = base).
  { rewrite E1. unfold u16. apply Z.mod_small. unfold uint16 in Hb. lia. }
  unfold parse_block.
  rewrite (read32_at _ _ (ssrc p0)) by (done || by rewrite E0). cbn [mbind option_bind].
  rewrite (read16_at _ (p + 4) (sequence_number p0)) by (done || by rewrite E1'). cbn [mbind option_bind].
  rewrite (read16_at _ (p + 4 + 2) (Z.of_nat (length g))) by (done || unfold uint16; lia).
  cbn [mbind option_bind]. rewrite Nat2Z.id. rewrite length_encode_report in * by lia.
  rewrite (proj2 (Nat.ltb_ge _ _)) by lia.
  pose proof (parse_infos buf (p + 4 + 2 + 2) (sequence_number p0) (ssrc p0) (length g)
    acc g eq_refl A4) as Hi.
  apply wp_exists in Hi as ([q packets] & -> & -> & ->); [|by rewrite E0, E1'].
  cbn [mbind option_bind]. rewrite odd_mod. do 4 f_equal. destruct (Nat.odd (length g)); lia.
Qed.

Lemma parse_blocks_at fuel buf p acc gs :
  Forall report gs → at_pos buf p (concat (map encode_report gs)) → (length gs ≤ fuel)%nat →
  parse_blocks fuel buf p (p + length (concat (map encode_report gs))) acc =
  Some (true, acc ++ map reported (concat gs)).
Proof.
  intros Hr. revert fuel p acc. induction Hr as [|g gs Hg Hr IH]; intros fuel p acc Hat Hf.
  - cbn [map concat length]. rewrite Nat.add_0_r, app_nil_r. destruct fuel; cbn [parse_blocks];
      rewrite (proj2 (Nat.ltb_ge _ _)) by lia; by rewrite Nat.eqb_refl.
  - destruct fuel as [|fuel]; [cbn in Hf; lia|]. cbn [map concat] in *.
    apply at_pos_app in Hat as [Hat1 Hat2]. rewrite length_app.
    cbn [parse_blocks]. unfold kHeaderPerMediaSssrcLength.
    assert (Hl := Hg). destruct Hl as (_ & _ & _ & _ & Hl & _).
    pose proof (length_encode_report g ltac:(lia)) as Hlen.
    rewrite (proj2 (Nat.ltb_lt _ _)) by lia. rewrite (parse_block_at _ _ _ g) by (done || lia).
    cbn [mbind option_bind]. rewrite Nat.add_assoc, IH; [|done|cbn in Hf; lia].
    by rewrite map_app, app_assoc.
Qed.

Definition new_feedback : CongestionControlFeedback := mkFeedback 0 [] 0.

Lemma groups_bytes gs : Forall report gs → (length gs ≤ length (concat (map encode_report gs)))%nat.
Proof.
  induction 1 as [|g gs Hg _ IH]; [done|]. cbn [map concat length]. rewrite length_app.
  destruct Hg as (_ & _ & _ & _ & Hl & _). rewrite length_encode_report by lia. lia.
Qed.

Lemma Parse_encoded self gs buf p :
  packets_ self = concat gs → reports_ok gs →
  Z.of_nat (length (concat (map encode_report gs))) ≤ 262132 →
  uint32 (sender_ssrc self) → uint32 (report_timestamp_compact_ntp_ self) →
  at_pos buf p (encode self gs) →
  ∃ h, ParseHeader buf p (length (encode self gs)) = Some (Some h) ∧
       Parse new_feedback buf h =
       Some (true, mkFeedback (sender_ssrc self) (map reported (packets_ self))
                     (report_timestamp_compact_ntp_ self)).
Proof.
  intros Hp Hr Hsz Hs Ht Hat. rewrite length_encode. unfold encode in Hat.
  assert (Hal := body_aligned gs (proj1 Hr)).
  set (body := concat (map encode_report gs)) in *.
  assert (Hd : length body = (length body / 4 * 4)%nat).
  { pose proof (Nat.Div0.div_mod (length body) 4). lia. }
  set (w := (length body / 4)%nat) in *. clearbody w.
  apply at_pos_app in Hat as [A1 Hat]. apply at_pos_app in Hat as [A2 Hat].
  apply at_pos_app in Hat as [A3 A4].
  change (length (header_bytes _ _ _ _)) with 4%nat in *. rewrite length_be32 in *.
  exists (mkHeader kPacketType kFeedbackMessageType 0 (Z.of_nat (w + 2) * 4) (p + 4)). split.
  { apply ParseHeader_at; [done|unfold kFeedbackMessageType; lia|unfold uint16; lia|lia]. }
  unfold Parse. cbn [payload_ payload_size_].
  replace (Z.to_nat (Z.of_nat (w + 2) * 4)) with ((w + 2) * 4)%nat by lia.
  rewrite Nat.Div0.mod_mul. cbn [Nat.eqb negb orb].
  unfold kSenderSsrcLength, kTimestampLength. rewrite (proj2 (Nat.ltb_ge _ _)) by lia.
  rewrite (read32_at _ (p + 4) (sender_ssrc self)) by done. cbn [mbind option_bind].
  replace (p + 4 + (w + 2) * 4 - 4)%nat with (p + 4 + 4 + length body)%nat by lia.
  rewrite (read32_at _ (p + 4 + 4 + length body) (report_timestamp_compact_ntp_ self)) by done. cbn [mbind option_bind].
  pose proof (groups_bytes gs (proj1 Hr)) as Hgb.
  pose proof (parse_blocks_at ((w + 2) * 4) buf (p + 4 + 4) (packets_ new_feedback) gs
                (proj1 Hr) A3) as HP.
  fold body in Hgb, HP. rewrite HP by lia.
  cbn [mbind option_bind]. by rewrite Hp.
Qed.

Lemma reported_offset p : finite (arrival_time_offset p) → 0 ≤ arrival_time_offset p ≤ 7998044 →
  finite (arrival_time_offset (reported p)) ∧
  -2 ≤ arrival_time_offset p - arrival_time_offset (reported p) ≤ 979 ∧ ecn (reported p) = ecn p.
Proof.
  intros Hf Hd. destruct (finite_flags _ Hf) as (E & _). unfold reported. rewrite E.
  cbn [arrival_time_offset ecn].
  destruct (To13bitAto_cases (arrival_time_offset p)) as (H & _). destruct (H Hd) as [Ha Hb].
  unfold decoded. rewrite (proj2 (Z.eqb_neq _ 0x1FFE)), (proj2 (Z.eqb_neq _ 0x1FFF)) by lia.
  set (a := To13bitAto _) in *. clearbody a. unfold finite, PlusInfinity, MinusInfinity.
  split_and!; try done; Z.to_euclidean_division_equations; lia.
Qed.

(** What [Create] writes, read back. *)
Lemma written_and_read self gs buf p max_length callback :
  packets_ self = concat gs → reports_ok gs →
  Z.of_nat (length (concat (map encode_report gs))) ≤ 262132 →
  uint32 (sender_ssrc self) → uint32 (report_timestamp_compact_ntp_ self) →
  (p + length (encode self gs) ≤ max_length)%nat → (max_length ≤ length buf)%nat →
  wp ('(ok, buf', p', sent) ← Create self buf p max_length callback;
      h ← ParseHeader buf' p (p' - p);
      match h with Some h => Parse new_feedback buf' h | None => None end)
     (λ '(ok, fb), ok = true ∧ sender_ssrc fb = sender_ssrc self ∧
        report_timestamp_compact_ntp_ fb = report_timestamp_compact_ntp_ self ∧
        packets_ fb = map reported (packets_ self)).
Proof.
  intros Hp Hr Hsz Hs Ht Hm Hb.
  rewrite (Create_here self gs) by done. cbn [mbind option_bind].
  replace (p + length (encode self gs) - p)%nat with (length (encode self gs)) by lia.
  destruct (Parse_encoded self gs (put buf p (encode self gs)) p) as (h & E & H); try done.
  { apply at_pos_put. lia. }
  rewrite E. cbn [mbind option_bind]. rewrite H. done.
Qed.

(** C2: Reports survive the wire. What [Create] writes is accepted by the RTCP header
    parser and by [Parse], which recovers the sender, the timestamp and, in order,
    every packet: stream, sequence number and, for received packets, the ECN mark
    and the arrival time offset, exact to one unit of 1/1024 s: between two
    microseconds above and 979 below for offsets up to 7.998 s. Lost packets come
    back as lost. *)
Theorem feedback_roundtrip (self : CongestionControlFeedback) (gs : list (list PacketInfo))
    (buf : list Z) (p max_length : nat) (callback : bool) :
  packets_ self = concat gs → reports_ok gs →
  Z.of_nat (length (concat (map encode_report gs))) ≤ 262132 →
  uint32 (sender_ssrc self) → uint32 (report_timestamp_compact_ntp_ self) →
  (p + length (encode self gs) ≤ max_length)%nat → (max_length ≤ length buf)%nat →
  wp ('(ok, buf', p', sent) ← Create self buf p max_length callback;
      h ← ParseHeader buf' p (p' - p);
      match h with Some h => Parse new_feedback buf' h | None => None end)
     (λ '(ok, fb), ok = true ∧ sender_ssrc fb = sender_ssrc self ∧
        report_timestamp_compact_ntp_ fb = report_timestamp_compact_ntp_ self ∧
        packets_ fb = map reported (packets_ self)) ∧
  (∀ q, q ∈ packets_ self →
     ssrc (reported q) = ssrc q ∧ sequence_number (reported q) = sequence_number q ∧
     (finite (arrival_time_offset q) → 0 ≤ arrival_time_offset q ≤ 7998044 →
        -2 ≤ arrival_time_offset q - arrival_time_offset (reported q) ≤ 979 ∧
        ecn (reported q) = ecn q) ∧
     (arrival_time_offset q = MinusInfinity → arrival_time_offset (reported q) = MinusInfinity)).
Proof.
  intros Hp Hr Hsz Hs Ht Hm Hb. split.
  - by apply (written_and_read self gs).
  - intros q _. split_and!.
    + unfold reported. by destruct (IsFinite _).
    + unfold reported. by destruct (IsFinite _).
    + intros Hf Hd. by destruct (reported_offset q Hf Hd) as (_ & ? & ?).
    + intros E. unfold reported. by rewrite E.
Qed.

Lemma feedback_roundtrip_witness :
  wp ('(ok, buf', p', sent) ← Create example_feedback (replicate 60 0) 3 60 false;
      h ← ParseHeader buf' 3 (p' - 3);
      match h with Some h => Parse new_feedback buf' h | None => None end)
     (λ '(ok, fb), ok = true ∧ sender_ssrc fb = sender_ssrc example_feedback ∧
        report_timestamp_compact_ntp_ fb = report_timestamp_compact_ntp_ example_feedback ∧
        packets_ fb = map reported (packets_ example_feedback)) ∧
  (∀ q, q ∈ packets_ example_feedback →
     ssrc (reported q) = ssrc q ∧ sequence_number (reported q) = sequence_number q ∧
     (finite (arrival_time_offset q) → 0 ≤ arrival_time_offset q ≤ 7998044 →
        -2 ≤ arrival_time_offset q - arrival_time_offset (reported q) ≤ 979 ∧
        ecn (reported q) = ecn q) ∧
     (arrival_time_offset q = MinusInfinity → arrival_time_offset (reported q) = MinusInfinity)).
Proof.
  apply (feedback_roundtrip example_feedback example_reports (replicate 60 0) 3 60 false);
    [done|apply example_reports_ok|by vm_compute|unfold uint32; cbn; lia|unfold uint32; cbn; lia
    |by vm_compute; lia|by vm_compute; lia].
Defined.

(** ** Hostile input *)

Definition info_ok (p : PacketInfo) : Prop :=
  uint32 (ssrc p) ∧ uint16 (sequence_number p) ∧ int64 (arrival_time_offset p).

Lemma parse_report_ok buf s base i p packets :
  bytes_ok buf → (p + 2 ≤ length buf)%nat → uint32 s → Forall info_ok packets →
  wp (parse_report buf s base i (p, packets)) (λ '(p', packets'),
    p' = (p + 2)%nat ∧ Forall info_ok packets' ∧ length packets' = S (length packets)).
Proof.
  intros Hb Hp Hs Hok. unfold parse_report. apply wp_bind.
  wp_call (by apply ReadBigEndian16_safe). intros x Hx. cbv zeta.
  assert (Ho : wp (if negb (Z.land x 0x8000 =? 0) then AtoToTimeDelta x else Some MinusInfinity) int64).
  { destruct (negb _); [|cbn; unfold int64, MinusInfinity; lia].
    rewrite AtoToTimeDelta_decoded. apply decoded_int64, Z.mod_pos_bound. lia. }
  apply wp_bind. wp_call (exact Ho). intros off Hoff. apply wp_ret. split_and!; [done| |].
  - apply Forall_app_2; [done|]. apply Forall_cons_2; [|apply Forall_nil_2].
    split_and!; cbn [ssrc sequence_number arrival_time_offset]; try apply Hs; try apply Hoff;
      apply u16_range.
  - rewrite length_app. cbn. lia.
Qed.

Lemma parse_block_ok buf p pend packets :
  bytes_ok buf → (pend ≤ length buf)%nat → (p + 8 < pend)%nat → Forall info_ok packets →
  wp (parse_block buf p pend packets) (λ r, ∀ p' packets', r = Some (p', packets') →
    (p + 8 ≤ p')%nat ∧ Forall info_ok packets' ∧
    (2 * (length packets' - length packets) + 8 ≤ p' - p)%nat ∧
    (length packets ≤ length packets')%nat).
Proof.
  intros Hb He Hp Hok. unfold parse_block.
  apply wp_bind. wp_call (apply ReadBigEndian32_safe; [done|lia]). intros s Hs.
  apply wp_bind. wp_call (apply ReadBigEndian16_safe; [done|lia]). intros base Hbase.
  apply wp_bind. wp_call (apply ReadBigEndian16_safe; [done|lia]). intros n Hn. cbv zeta.
  destruct (Nat.ltb_spec pend (p + 4 + 2 + 2 + 2 * Z.to_nat n)); [done|].
  apply wp_bind. apply (wp_for (λ i '(q, packets'), q = (p + 4 + 2 + 2 + 2 * i)%nat ∧
    Forall info_ok packets' ∧ length packets' = (length packets + i)%nat)).
  - split_and!; [lia|done|lia].
  - intros i [q packets'] Hi (-> & Hok' & Hl).
    wp_call (apply parse_report_ok; [done|lia|done|done]).
    intros [q' packets''] (-> & Hok'' & Hl'). split_and!; [lia|done|lia].
  - intros [q packets'] (-> & Hok' & Hl). apply wp_ret. intros p' packets'' [= <- <-].
    destruct (negb _); split_and!; try done; lia.
Qed.

Lemma parse_blocks_ok fuel buf p pend packets :
  bytes_ok buf → (pend ≤ length buf)%nat → (pend - p ≤ fuel)%nat → Forall info_ok packets →
  wp (parse_blocks fuel buf p pend packets) (λ '(ok, packets'), Forall info_ok packets').
Proof.
  intros Hb He. revert p packets. induction fuel as [|fuel IH]; intros p packets Hf Hok;
    cbn [parse_blocks]; unfold kHeaderPerMediaSssrcLength;
    destruct (Nat.ltb_spec (p + 8) pend); try done; try lia.
  apply wp_bind. wp_call (by apply parse_block_ok). intros [[p' packets']|] H1; [|done].
  destruct (H1 p' packets' eq_refl) as (Hp' & Hok' & _). apply IH; [lia|done].
Qed.

(** *** Only the payload is read *)

(** The cells from [lo] to [hi] are the same; the buffers need not even have others. *)
Definition agree (lo hi : nat) (buf buf' : list Z) : Prop :=
  ∀ i, (lo ≤ i < hi)%nat → buf' !! i = buf !! i.

Lemma agree_read16 lo hi buf buf' p : agree lo hi buf buf' → (lo ≤ p)%nat → (p + 2 ≤ hi)%nat →
  ReadBigEndian16 buf' p = ReadBigEndian16 buf p.
Proof. intros Ha Hl Hh. unfold ReadBigEndian16. by rewrite !Ha by lia. Qed.

Lemma agree_read32 lo hi buf buf' p : agree lo hi buf buf' → (lo ≤ p)%nat → (p + 4 ≤ hi)%nat →
  ReadBigEndian32 buf' p = ReadBigEndian32 buf p.
Proof. intros Ha Hl Hh. unfold ReadBigEndian32. by rewrite !Ha by lia. Qed.

Lemma agree_reports lo hi buf buf' s base n : agree lo hi buf buf' → ∀ k p packets,
  (lo ≤ p)%nat → (p + 2 * n ≤ hi)%nat →
  for_loop n k (parse_report buf' s base) (p, packets) = for_loop n k (parse_report buf s base) (p, packets) ∧
  ∀ p' packets', for_loop n k (parse_report buf s base) (p, packets) = Some (p', packets') → p' = (p + 2 * n)%nat.
Proof.
  intros Ha. induction n as [|n IH]; intros k p packets Hl Hh; cbn [for_loop].
  { split; [done|]. intros p' packets' [= <- _]. lia. }
  assert (E : parse_report buf' s base k (p, packets) = parse_report buf s base k (p, packets)).
  { unfold parse_report. by rewrite (agree_read16 lo hi buf buf') by (done || lia). }
  rewrite E. destruct (parse_report buf s base k (p, packets)) as [[q packets1]|] eqn:E1; [|done].
  assert (q = p + 2)%nat as ->.
  { unfold parse_report in E1. apply bind_Some in E1 as (x & _ & E1). cbv zeta in E1.
    apply bind_Some in E1 as (y & _ & E1). by injection E1 as <- _. }
  cbn [mbind option_bind]. destruct (IH (S k) (p + 2)%nat packets1) as [H1 H2]; [lia|lia|].
  split; [done|]. intros p' packets' E2. rewrite (H2 _ _ E2). lia.
Qed.

(** A block reads only inside the payload, and ends behind its start. *)
Lemma agree_block lo hi pend buf buf' p packets : agree lo hi buf buf' → (pend ≤ hi)%nat → (lo ≤ p)%nat →
  (p + 8 < pend)%nat → parse_block buf' p pend packets = parse_block buf p pend packets ∧
  ∀ p' packets', parse_block buf p pend packets = Some (Some (p', packets')) → (lo ≤ p')%nat.
Proof.
  intros Ha He Hl Hp. unfold parse_block.
  rewrite (agree_read32 lo hi buf buf'), !(agree_read16 lo hi buf buf') by (done || lia).
  destruct (ReadBigEndian32 buf p) as [s|]; [|done]. cbn [mbind option_bind].
  destruct (ReadBigEndian16 buf (p + 4)) as [base|]; [|done]. cbn [mbind option_bind].
  destruct (ReadBigEndian16 buf (p + 4 + 2)) as [n|]; [|done]. cbn [mbind option_bind]. cbv zeta.
  destruct (Nat.ltb_spec pend (p + 4 + 2 + 2 + 2 * Z.to_nat n)); [done|].
  destruct (agree_reports lo hi buf buf' s base (Z.to_nat n) Ha 0 (p + 4 + 2 + 2)%nat packets) as [-> H2]; [lia|lia|].
  split; [done|]. intros p' packets' E. apply bind_Some in E as ([q packets1] & E & E'). apply H2 in E as ->.
  injection E' as <- _. destruct (negb _); lia.
Qed.

Lemma agree_blocks lo hi pend buf buf' fuel : agree lo hi buf buf' → (pend ≤ hi)%nat → ∀ p packets, (lo ≤ p)%nat →
  parse_blocks fuel buf' p pend packets = parse_blocks fuel buf p pend packets.
Proof.
  intros Ha He. induction fuel as [|fuel IH]; intros p packets Hl; cbn [parse_blocks];
    unfold kHeaderPerMediaSssrcLength; destruct (Nat.ltb_spec (p + 8) pend); try done.
  destruct (agree_block lo hi pend buf buf' p packets Ha He Hl ltac:(lia)) as [-> H1].
  destruct (parse_block buf p pend packets) as [[[p' packets']|]|]; try done.
  cbn [mbind option_bind]. apply IH. by apply (H1 p' packets').
Qed.

Lemma agree_Parse self buf buf' h :
  agree (payload_ h) (payload_ h + Z.to_nat (payload_size_ h)) buf buf' → Parse self buf' h = Parse self buf h.
Proof.
  intros Ha. unfold Parse. set (n := Z.to_nat (payload_size_ h)) in *.
  destruct (negb _ || _) eqn:Hc; [done|].
  apply orb_false_iff in Hc as [_ Hc%Nat.ltb_ge]. unfold kSenderSsrcLength, kTimestampLength in Hc.
  rewrite !(agree_read32 _ _ buf buf' _ Ha) by lia.
  destruct (ReadBigEndian32 buf (payload_ h)); [|done]. cbn [mbind option_bind].
  destruct (ReadBigEndian32 buf (payload_ h + n - 4)); [|done]. cbn [mbind option_bind].
  rewrite (agree_blocks _ _ (payload_ h + n - 4) buf buf' n Ha) by lia. done.
Qed.

Lemma Parse_bounded buf size_bytes h : bytes_ok buf → (size_bytes ≤ length buf)%nat →
  ParseHeader buf 0 size_bytes = Some (Some h) →
  wp (Parse new_feedback buf h) (λ '(ok, fb), Forall info_ok (packets_ fb)).
Proof.
  intros Hb Hs E. pose proof (wp_run _ _ _ E (ParseHeader_ok buf 0 size_bytes Hb Hs)) as Hh.
  destruct (Hh h eq_refl) as (_ & _ & H0 & H1 & H2 & H3). unfold Parse.
  destruct (negb _ || _) eqn:Hc; [by apply Forall_nil_2|].
  apply orb_false_iff in Hc as [_ Hc%Nat.ltb_ge]. unfold kSenderSsrcLength, kTimestampLength in Hc.
  apply wp_bind. wp_call (apply ReadBigEndian32_safe; [done|lia]). intros s _.
  apply wp_bind. wp_call (apply ReadBigEndian32_safe; [done|lia]). intros ts _.
  apply wp_bind. wp_call (apply parse_blocks_ok; [done|lia|lia|by apply Forall_nil_2]).
  intros [ok packets] H. by apply wp_ret.
Qed.

(** C32: Parsing an arbitrary packet is safe. For any bytes whatsoever whose RTCP
    header is accepted, [Parse] terminates within its fuel without a read out of range,
    and every packet it reports has a 32-bit SSRC, a 16-bit sequence number and a 64-bit
    offset. It reads only the payload the header describes: on every other memory with
    the same payload, whatever is before and behind it (the header, the padding) and
    even if nothing is there to be read, it has the same outcome. *)
Theorem Parse_safe (buf : list Z) (size_bytes : nat) :
  bytes_ok buf → (size_bytes ≤ length buf)%nat →
  wp (ParseHeader buf 0 size_bytes) (λ r, ∀ h, r = Some h →
    wp (Parse new_feedback buf h) (λ '(ok, fb), Forall info_ok (packets_ fb)) ∧
    ∀ buf', agree (payload_ h) (payload_ h + Z.to_nat (payload_size_ h)) buf buf' →
      Parse new_feedback buf' h = Parse new_feedback buf h).
Proof.
  intros Hb Hs. apply wp_exists.
  destruct (proj1 (wp_exists _ _) (ParseHeader_ok buf 0 size_bytes Hb Hs)) as (r & E & _).
  exists r. split; [done|]. intros h ->. split; [by apply (Parse_bounded buf size_bytes)|].
  intros buf'. apply agree_Parse.
Qed.

(** A report of two packets, a padding of four bytes behind it. *)
Definition padded : list Z :=
  [0xab; 205; 0; 6; 0; 0; 0; 1; 0; 0; 0; 7; 0; 9; 0; 2; 0xa0; 5; 0; 0; 1; 2; 3; 4; 0; 0; 0; 4].

Lemma Parse_safe_witness :
  (h ← mjoin (ParseHeader padded 0 28); Parse new_feedback padded h) =
    Some (true, mkFeedback 1 [mkInfo 7 9 4882 kEct1; mkInfo 7 10 MinusInfinity kNotEct] 0x01020304) ∧
  wp (ParseHeader padded 0 28) (λ r, ∀ h, r = Some h →
    wp (Parse new_feedback padded h) (λ '(ok, fb), Forall info_ok (packets_ fb)) ∧
    ∀ buf', agree (payload_ h) (payload_ h + Z.to_nat (payload_size_ h)) padded buf' →
      Parse new_feedback buf' h = Parse new_feedback padded h).
Proof.
  split; [by vm_compute|]. apply (Parse_safe padded 28); [|done].
  repeat (apply Forall_cons_2; [unfold uint8; lia|]). apply Forall_nil_2.
Defined.

End CcFeedback.
