(* ===== verification/CcTracker.v ===== *)
(** * Tracking received packets for feedback
    (modules/remote_bitrate_estimator/congestion_control_feedback_tracker.cc, .h)

    One tracker per stream collects the packets received since the last feedback.
    [AddPacketsToFeedback] turns them into a run of consecutive sequence numbers
    with the arrival time and the ECN mark of each. Sorting is std::sort, of which
    only the contract is used: the class [Sorts] states it, and every theorem holds
    for any function that meets it. *)

From stdpp Require Import sorting.
From S2P Require Import Prelude SeqNum Units Rtcp CcFeedback.
Import SeqNum Units CcFeedback.

Module CcTracker.

(** The fields of RtpPacketReceived that the feedback code reads. *)
Record RtpPacketReceived := mkRtp {
  SequenceNumber : Z;
  Ssrc : Z;
  rtp_arrival_time : Z;
  rtp_ecn : EcnMarking;
  Marker : bool;
}.

(** CongestionControlFeedbackTracker::PacketInfo. *)
Record Received := mkReceived {
  rx_ssrc : Z;
  unwrapped_sequence_number : Z;
  arrival_time : Z;
  rx_ecn : EcnMarking;
}.

Record CongestionControlFeedbackTracker := mkTracker {
  last_sequence_number_in_feedback_ : option Z;
  unwrapper_ : SeqNumUnwrapper;
  received_ : list Received; (* packets_ *)
}.

Definition new_tracker : CongestionControlFeedbackTracker := mkTracker None new_unwrapper [].

Definition kMaxPacketsPerSsrc : Z := 16384.

Definition ReceivedPacket (self : CongestionControlFeedbackTracker) (packet : RtpPacketReceived)
  : CongestionControlFeedbackTracker :=
  if Z.of_nat (length (received_ self)) >? kMaxPacketsPerSsrc then self
  else
    let '(seq, unwrapper) := Unwrap 16 (unwrapper_ self) (SequenceNumber packet) in
    let last :=
      match last_sequence_number_in_feedback_ self with
      | Some last => if seq <? s64 (last + 1) then Some (s64 (seq - 1)) else Some last
      | None => None
      end in
    mkTracker last unwrapper
      (received_ self ++ [mkReceived (Ssrc packet) seq (rtp_arrival_time packet) (rtp_ecn packet)]).

(** The order of the sort: the comparison of the tuples
    (unwrapped_sequence_number, arrival_time), not strict. *)
Definition in_order (a b : Received) : Prop :=
  unwrapped_sequence_number a < unwrapped_sequence_number b ∨
  unwrapped_sequence_number a = unwrapped_sequence_number b ∧ arrival_time a ≤ arrival_time b.

(** What std::sort guarantees; it is not stable. *)
Class Sorts (c_sort : list Received → list Received) : Prop := {
  sorts_perm : ∀ l, c_sort l ≡ₚ l;
  sorts_sorted : ∀ l, StronglySorted in_order (c_sort l);
}.

(** The loop over further copies of a packet; an iterator is the rest of the list. *)
Fixpoint duplicates (sequence_number : Z) (packet_it : list Received) (e : EcnMarking)
  : EcnMarking * list Received :=
  match packet_it with
  | p :: rest =>
      if unwrapped_sequence_number p =? sequence_number
      then duplicates sequence_number rest (if bool_decide (rx_ecn p = kCe) then kCe else e)
      else (e, packet_it)
  | [] => (e, [])
  end.

(** The body of the loop over the sequence numbers. *)
Definition add_packet (s feedback_time sequence_number : Z)
    (st : list Received * list PacketInfo) : option (list Received * list PacketInfo) :=
  let '(packet_it, packet_feedback) := st in
  match packet_it with
  | [] => None
  | p :: rest =>
      _ ← dcheck (s =? rx_ssrc p);
      '(packet_it, offset, e) ←
        (if sequence_number =? unwrapped_sequence_number p then
           offset ← ts_diff feedback_time (arrival_time p);
           let '(e, packet_it) := duplicates sequence_number rest (rx_ecn p) in
           Some (packet_it, offset, e)
         else Some (packet_it, MinusInfinity, kNotEct));
      Some (packet_it, packet_feedback ++ [mkInfo s (u16 sequence_number) offset e])
  end.

(** The bounds of the loop do not change in it, so that its number of iterations is
    known when it starts. *)
Definition AddPacketsToFeedback (c_sort : list Received → list Received)
    (self : CongestionControlFeedbackTracker) (feedback_time : Z)
    (packet_feedback : list PacketInfo)
  : option (CongestionControlFeedbackTracker * list PacketInfo) :=
  match received_ self with
  | [] => Some (self, packet_feedback)
  | _ =>
      let packets := c_sort (received_ self) in
      front ← packets !! 0%nat;
      back ← packets !! (length packets - 1)%nat;
      let last :=
        match last_sequence_number_in_feedback_ self with
        | Some last => last
        | None => s64 (unwrapped_sequence_number front - 1)
        end in
      let first := s64 (last + 1) in
      let final := Z.min (unwrapped_sequence_number back) (s64 (last + kMaxPacketsPerSsrc)) in
      '(_, packet_feedback) ←
        for_loop (Z.to_nat (final - first + 1)) 0
          (λ i, add_packet (rx_ssrc front) feedback_time (first + Z.of_nat i))
          (packets, packet_feedback);
      Some (mkTracker (Some (unwrapped_sequence_number back)) (unwrapper_ self) [],
            packet_feedback)
  end.

(** ** The specification of one entry *)

(** Some copy of the packet carries the CE mark. *)
Definition any_ce (packets : list Received) (seq : Z) : bool :=
  existsb (λ q, (unwrapped_sequence_number q =? seq) && bool_decide (rx_ecn q = kCe)) packets.

(** What RFC 8888 asks to report of a sequence number: that it was not received, or
    the arrival time of the copy that came first, with its ECN mark unless some copy
    is marked CE. *)
Inductive describes (packets : list Received) (s feedback_time seq : Z) : PacketInfo → Prop :=
| describes_lost :
    (∀ p, p ∈ packets → unwrapped_sequence_number p ≠ seq) →
    describes packets s feedback_time seq (mkInfo s (u16 seq) MinusInfinity kNotEct)
| describes_received first :
    first ∈ packets → unwrapped_sequence_number first = seq →
    (∀ q, q ∈ packets → unwrapped_sequence_number q = seq → arrival_time first ≤ arrival_time q) →
    describes packets s feedback_time seq
      (mkInfo s (u16 seq) (feedback_time - arrival_time first)
         (if any_ce packets seq then kCe else rx_ecn first)).

(** [last] is the largest sequence number of the packets, [lo] is below all of them. *)
Definition largest (packets : list Received) (m : Z) : Prop :=
  (∃ p, p ∈ packets ∧ unwrapped_sequence_number p = m) ∧
  ∀ p, p ∈ packets → unwrapped_sequence_number p ≤ m.

(** ** Entries *)

Lemma duplicates_spec seq rest e : ∃ dups it,
  rest = dups ++ it ∧ Forall (λ q, unwrapped_sequence_number q = seq) dups ∧
  (∀ q it', it = q :: it' → unwrapped_sequence_number q ≠ seq) ∧
  duplicates seq rest e = (if any_ce dups seq then kCe else e, it).
Proof.
  revert e. induction rest as [|p rest IH]; intros e; cbn [duplicates].
  { by exists [], []. }
  destruct (Z.eqb_spec (unwrapped_sequence_number p) seq) as [Hp|Hp].
  - destruct (IH (if bool_decide (rx_ecn p = kCe) then kCe else e)) as (dups & it & -> & H1 & H2 & ->).
    exists (p :: dups), it. split_and!; [done|by apply Forall_cons_2|done|].
    cbn [any_ce existsb]. rewrite (proj2 (Z.eqb_eq _ _) Hp). cbn [andb].
    fold (any_ce dups seq). by destruct (bool_decide _), (any_ce dups seq).
  - exists [], (p :: rest). split_and!; try done. by intros ?? [= <- _].
Qed.

Lemma any_ce_app a b seq : any_ce (a ++ b) seq = any_ce a seq || any_ce b seq.
Proof. apply existsb_app. Qed.

Lemma any_ce_none l seq : (∀ q, q ∈ l → unwrapped_sequence_number q ≠ seq) → any_ce l seq = false.
Proof.
  intros H. apply not_true_iff_false. unfold any_ce. rewrite existsb_exists.
  intros (q & Hq%list_elem_of_In & E). apply andb_true_iff in E as [E%Z.eqb_eq _]. by apply (H q).
Qed.

Lemma any_ce_perm a b seq : a ≡ₚ b → any_ce a seq = any_ce b seq.
Proof.
  intros H. unfold any_ce. apply eq_true_iff_eq. rewrite !existsb_exists.
  setoid_rewrite <- list_elem_of_In. by setoid_rewrite H.
Qed.

Lemma describes_perm a b s t seq e : a ≡ₚ b → describes a s t seq e → describes b s t seq e.
Proof.
  intros Hp [H|first H1 H2 H3].
  - apply describes_lost. intros p. rewrite <- Hp. apply H.
  - rewrite (any_ce_perm a b) by done. apply describes_received; [by rewrite <- Hp|done|].
    intros q. rewrite <- Hp. apply H3.
Qed.

(** The list behind the iterator starts at the wanted sequence number. *)
Definition split_at (packets before it : list Received) (seq : Z) : Prop :=
  packets = before ++ it ∧
  (∀ p, p ∈ before → unwrapped_sequence_number p < seq) ∧
  (∀ p, p ∈ it → seq ≤ unwrapped_sequence_number p).

Lemma sorted_head p l : StronglySorted in_order (p :: l) →
  ∀ q, q ∈ l → in_order p q.
Proof. intros [_ H]%StronglySorted_inv q Hq. by apply (proj1 (List.Forall_forall _ _) H), list_elem_of_In. Qed.

Lemma in_order_le p q : in_order p q → unwrapped_sequence_number p ≤ unwrapped_sequence_number q.
Proof. unfold in_order. lia. Qed.

Lemma sorted_tail (a b : list Received) : StronglySorted in_order (a ++ b) → StronglySorted in_order b.
Proof. induction a as [|x a IH]; [done|]. intros [H _]%StronglySorted_inv. by apply IH. Qed.

(** Behind the copies of a packet only larger sequence numbers follow. *)
Lemma after_copies p dups it : StronglySorted in_order (p :: dups ++ it) →
  (∀ q it', it = q :: it' → unwrapped_sequence_number q ≠ unwrapped_sequence_number p) →
  ∀ q, q ∈ it → unwrapped_sequence_number p < unwrapped_sequence_number q.
Proof.
  intros Hs Hit q Hq. destruct it as [|x it]; [by apply not_elem_of_nil in Hq|].
  pose proof (in_order_le _ _ (sorted_head _ _ Hs x ltac:(apply elem_of_app; right; left))).
  pose proof (Hit x it eq_refl). apply elem_of_cons in Hq as [->|Hq]; [lia|].
  pose proof (in_order_le _ _ (sorted_head _ _ (sorted_tail (p :: dups) _ Hs) q Hq)). lia.
Qed.

(** The mark reported for a packet depends on its copies only. *)
Lemma copies_mark p before dups it :
  (∀ q, q ∈ before → unwrapped_sequence_number q < unwrapped_sequence_number p) →
  (∀ q, q ∈ it → unwrapped_sequence_number p < unwrapped_sequence_number q) →
  (if any_ce dups (unwrapped_sequence_number p) then kCe else rx_ecn p) =
  (if any_ce (before ++ p :: dups ++ it) (unwrapped_sequence_number p) then kCe else rx_ecn p).
Proof.
  intros Hb Hgt. rewrite any_ce_app, (any_ce_none before) by (intros q Hq; apply Hb in Hq; lia).
  change (p :: dups ++ it) with ([p] ++ dups ++ it).
  rewrite !any_ce_app, (any_ce_none it) by (intros q Hq; apply Hgt in Hq; lia).
  rewrite orb_false_r. cbn [orb any_ce existsb]. rewrite Z.eqb_refl, orb_false_r. cbn [andb].
  case_bool_decide as Hc; [rewrite Hc; by destruct (any_ce _ _)|done].
Qed.

(** One iteration on sorted packets of one stream. *)
Lemma add_packet_ok packets before it s t seq fb :
  StronglySorted in_order packets → split_at packets before it seq → it ≠ [] →
  (∀ p, p ∈ packets → rx_ssrc p = s ∧ 0 ≤ arrival_time p < PlusInfinity) →
  0 ≤ t < PlusInfinity →
  wp (add_packet s t seq (it, fb)) (λ '(it', fb'), ∃ before' e,
    split_at packets before' it' (seq + 1) ∧ fb' = fb ++ [e] ∧ describes packets s t seq e).
Proof.
  intros Hs (-> & Hb & Hi) Hne Hp Ht. unfold add_packet.
  destruct it as [|p rest]; [done|].
  destruct (Hp p) as [-> Ha]; [apply elem_of_app; right; left|].
  rewrite Z.eqb_refl. cbn [dcheck mbind option_bind].
  pose proof (sorted_tail _ _ Hs) as Hs2.
  pose proof (sorted_head _ _ Hs2) as Hh.
  pose proof (Hi p ltac:(left)) as Hlo.
  destruct (Z.eqb_spec seq (unwrapped_sequence_number p)) as [->|Hne'].
  - rewrite ts_diff_ok by (unfold finite, PlusInfinity, MinusInfinity in *; lia).
    cbn [mbind option_bind].
    destruct (duplicates_spec (unwrapped_sequence_number p) rest (rx_ecn p))
      as (dups & it & -> & Hd & Hit & ->).
    pose proof (after_copies p dups it Hs2 Hit) as Hgt.
    rewrite List.Forall_forall in Hd.
    assert (Hd' : ∀ q, q ∈ dups → unwrapped_sequence_number q = unwrapped_sequence_number p)
      by (intros q Hq; by apply Hd, list_elem_of_In).
    apply wp_ret. exists (before ++ p :: dups). eexists. split_and!; [split_and!|reflexivity|].
    + by rewrite <- app_assoc.
    + intros q [Hq|[->|Hq]%elem_of_cons]%elem_of_app; [apply Hb in Hq; lia|lia|].
      rewrite (Hd' q Hq). lia.
    + intros q Hq. pose proof (Hgt q Hq). lia.
    + rewrite (copies_mark p before dups it) by done.
      apply describes_received; [apply elem_of_app; right; left|done|].
      intros q [Hq|[->|[Hq|Hq]%elem_of_app]%elem_of_cons]%elem_of_app Eq; [apply Hb in Hq; lia|lia| |].
      * pose proof (Hh q ltac:(apply elem_of_app; by left)) as Ho. unfold in_order in Ho. lia.
      * apply Hgt in Hq. lia.
  - apply wp_ret. exists before. eexists. split_and!; [split_and!|reflexivity|].
    + done.
    + intros q Hq. apply Hb in Hq. lia.
    + intros q [->|Hq]%elem_of_cons; [lia|]. pose proof (in_order_le _ _ (Hh q Hq)). lia.
    + apply describes_lost. intros q [Hq|[->|Hq]%elem_of_cons]%elem_of_app; [apply Hb in Hq; lia|lia|].
      pose proof (in_order_le _ _ (Hh q Hq)). lia.
Qed.

(** ** The invariant of a tracker *)

(** The tracker of stream [s] whose unwrapped sequence numbers are at most [B] in
    size: its packets belong to the stream, have proper arrival times and lie above
    what was already reported. *)
Record tracker_ok (s B : Z) (t : CongestionControlFeedbackTracker) : Prop := {
  ok_unwrapper : consistent 16 (unwrapper_ t);
  ok_last_unwrapped : -B ≤ last_unwrapped_ (unwrapper_ t) ≤ B;
  ok_count : Z.of_nat (length (received_ t)) ≤ kMaxPacketsPerSsrc + 1;
  ok_last : ∀ l, last_sequence_number_in_feedback_ t = Some l → -B - 1 ≤ l ≤ B;
  ok_stream : ∀ p, p ∈ received_ t → rx_ssrc p = s ∧ 0 ≤ arrival_time p < PlusInfinity;
  ok_seq : ∀ p, p ∈ received_ t → -B ≤ unwrapped_sequence_number p ≤ B;
  ok_above : ∀ l p, last_sequence_number_in_feedback_ t = Some l → p ∈ received_ t →
    l < unwrapped_sequence_number p;
}.

Definition packet_ok (s : Z) (packet : RtpPacketReceived) : Prop :=
  Ssrc packet = s ∧ uint16 (SequenceNumber packet) ∧ 0 ≤ rtp_arrival_time packet < PlusInfinity.

Lemma new_tracker_ok s B : 0 ≤ B → tracker_ok s B new_tracker.
Proof.
  intros HB. split; cbn; unfold kMaxPacketsPerSsrc; try done; try lia;
    try (intros p Hp; by apply not_elem_of_nil in Hp).
Qed.

Lemma tracker_ok_le s B B' t : tracker_ok s B t → B ≤ B' → tracker_ok s B' t.
Proof.
  intros [] HB. split; try done.
  - lia.
  - intros l Hl. specialize (ok_last0 l Hl). lia.
  - intros p Hp. specialize (ok_seq0 p Hp). lia.
Qed.

(** Receiving a packet keeps the invariant. *)
Lemma ReceivedPacket_ok s B t packet : tracker_ok s B t → small B → packet_ok s packet →
  tracker_ok s (B + 32768) (ReceivedPacket t packet).
Proof.
  intros Hok HB (Hs & Hq & Ht). unfold ReceivedPacket. rewrite Z.gtb_ltb.
  destruct (Z.ltb_spec kMaxPacketsPerSsrc (Z.of_nat (length (received_ t)))) as [|Hn].
  { apply (tracker_ok_le s B); [done|lia]. }
  assert (H := Hok). destruct H. pose proof (Unwrap_range _ _ B ok_unwrapper0 HB ok_last_unwrapped0 Hq) as Hr.
  destruct (Unwrap_congruent 16 ltac:(lia) (unwrapper_ t) (SequenceNumber packet)) as [_ Hc];
    [unfold uint16 in Hq; lia|done|].
  destruct (Unwrap 16 _ _) as [seq u] eqn:E. cbn [fst snd] in *. unfold small in HB.
  assert (Hlast : ∀ l, last_sequence_number_in_feedback_ t = Some l →
    s64 (l + 1) = l + 1 ∧ s64 (seq - 1) = seq - 1).
  { intros l Hl. specialize (ok_last0 l Hl). rewrite !s64_id by (unfold int64; lia). done. }
  split; cbn [unwrapper_ received_ last_sequence_number_in_feedback_].
  - done.
  - unfold Unwrap in E. injection E as E1 E2. rewrite <- E2. cbn [last_unwrapped_]. lia.
  - rewrite length_app. cbn. lia.
  - intros l. destruct (last_sequence_number_in_feedback_ t) as [l0|] eqn:El; [|done].
    destruct (Hlast l0 eq_refl) as [-> ->]. specialize (ok_last0 l0 eq_refl).
    destruct (seq <? l0 + 1); intros [= <-]; lia.
  - intros p [Hp|Hp%list_elem_of_singleton]%elem_of_app; [by apply ok_stream0|]. by subst.
  - intros p [Hp|Hp%list_elem_of_singleton]%elem_of_app; [specialize (ok_seq0 p Hp); lia|].
    subst p. done.
  - intros l p. destruct (last_sequence_number_in_feedback_ t) as [l0|] eqn:El; [|done].
    destruct (Hlast l0 eq_refl) as [-> ->].
    intros Hl [Hp|Hp%list_elem_of_singleton]%elem_of_app.
    + specialize (ok_above0 l0 p eq_refl Hp). destruct (Z.ltb_spec seq (l0 + 1)); injection Hl as <-; lia.
    + subst p. cbn. destruct (Z.ltb_spec seq (l0 + 1)); injection Hl as <-; lia.
Qed.

(** ** Feedback *)

(** The sequence number in front of the reported range: the last one reported, or
    the one before the first received. *)
Definition starts (t : CongestionControlFeedbackTracker) (lo : Z) : Prop :=
  match last_sequence_number_in_feedback_ t with
  | Some l => lo = l
  | None => (∃ p, p ∈ received_ t ∧ unwrapped_sequence_number p = lo + 1) ∧
            ∀ p, p ∈ received_ t → lo < unwrapped_sequence_number p
  end.

(** [new] describes the sequence numbers behind [lo], one after the other. *)
Definition run (packets : list Received) (s feedback_time lo : Z) (new : list PacketInfo) : Prop :=
  ∀ i e, new !! i = Some e → describes packets s feedback_time (lo + 1 + Z.of_nat i) e.

Lemma run_snoc packets s t lo new e : run packets s t lo new →
  describes packets s t (lo + 1 + Z.of_nat (length new)) e → run packets s t lo (new ++ [e]).
Proof.
  intros Hr He i x [Hi|[Hi Hx]]%lookup_app_Some; [by apply Hr|].
  apply list_lookup_singleton_Some in Hx as [Hi' <-].
  by replace i with (length new) by lia.
Qed.

(** The loop over a run of sequence numbers none of which is behind the last packet. *)
Lemma add_packets_ok packets s t lo n fb :
  StronglySorted in_order packets →
  (∀ p, p ∈ packets → rx_ssrc p = s ∧ 0 ≤ arrival_time p < PlusInfinity) →
  0 ≤ t < PlusInfinity → (∀ p, p ∈ packets → lo < unwrapped_sequence_number p) →
  (∃ p, p ∈ packets ∧ lo + Z.of_nat n ≤ unwrapped_sequence_number p) →
  wp (for_loop n 0 (λ i, add_packet s t (lo + 1 + Z.of_nat i)) (packets, fb))
     (λ '(_, fb'), ∃ new, fb' = fb ++ new ∧ length new = n ∧ run packets s t lo new).
Proof.
  intros Hs Hp Ht Hlo (m & Hm & Hn).
  apply (wp_for (λ i '(it, fb'), ∃ before new, split_at packets before it (lo + 1 + Z.of_nat i) ∧
    fb' = fb ++ new ∧ length new = i ∧ run packets s t lo new)).
  - exists [], []. rewrite app_nil_r. split_and!; try done. split_and!; [done|by intros ? ?%not_elem_of_nil|].
    intros p Hq. apply Hlo in Hq. lia.
  - intros i [it fb'] Hi (before & new & Hsp & -> & Hl & Hr).
    assert (it ≠ []).
    { destruct Hsp as (-> & Hb & _). intros ->. rewrite app_nil_r in *. apply Hb in Hm. lia. }
    wp_call (by apply (add_packet_ok packets before)).
    intros [it' fb''] (before' & e & Hsp' & -> & He). exists before', (new ++ [e]).
    split_and!.
    + by replace (lo + 1 + Z.of_nat (S i)) with (lo + 1 + Z.of_nat i + 1) by lia.
    + by rewrite app_assoc.
    + rewrite length_app. cbn. lia.
    + apply run_snoc; [done|]. by rewrite Hl.
  - intros [it fb'] (before & new & _ & H). by exists new.
Qed.

Lemma sorted_ends packets front back : StronglySorted in_order packets →
  packets !! 0%nat = Some front → packets !! (length packets - 1)%nat = Some back →
  front ∈ packets ∧ (∀ p, p ∈ packets → unwrapped_sequence_number front ≤ unwrapped_sequence_number p) ∧
  largest packets (unwrapped_sequence_number back).
Proof.
  intros Hs Hf Hb. pose proof (list_elem_of_lookup_2 _ _ _ Hf). pose proof (list_elem_of_lookup_2 _ _ _ Hb).
  assert (Hle : ∀ i j p q, (i ≤ j)%nat → packets !! i = Some p → packets !! j = Some q →
    unwrapped_sequence_number p ≤ unwrapped_sequence_number q).
  { intros i j p q Hij Hp Hq. destruct (decide (i = j)) as [->|]; [assert (p = q) as -> by congruence; lia|].
    apply in_order_le, (sorted_head p (drop (S i) packets)).
    - rewrite <- (drop_S _ _ _ Hp). apply (sorted_tail (take i packets)). by rewrite take_drop.
    - apply (list_elem_of_lookup_2 _ (j - S i)%nat). rewrite lookup_drop.
      by replace (S i + (j - S i))%nat with j by lia. }
  split_and!; [done| |split].
  - intros p (i & Hi)%list_elem_of_lookup_1. apply (Hle 0%nat i); [lia|done|done].
  - by exists back.
  - intros p (i & Hi)%list_elem_of_lookup_1. pose proof (lookup_lt_Some _ _ _ Hi).
    apply (Hle i (length packets - 1)%nat); [lia|done|done].
Qed.

Lemma describes_seq packets s t seq e : describes packets s t seq e →
  ssrc e = s ∧ sequence_number e = u16 seq.
Proof. by intros []. Qed.

(** A run of at most 16384 packets is a report. *)
Lemma run_report packets s t lo new : uint32 s → run packets s t lo new →
  1 ≤ Z.of_nat (length new) ≤ 16384 → report new.
Proof.
  intros Hs Hr Hn. exists s, (u16 (lo + 1)). split; [done|]. split; [apply u16_range|]. split; [done|].
  intros i p Hi. destruct (describes_seq _ _ _ _ _ (Hr i p Hi)) as [-> ->]. split; [done|].
  unfold u16. by rewrite Zplus_mod_idemp_l.
Qed.

Lemma run_perm a b s t lo new : a ≡ₚ b → run a s t lo new → run b s t lo new.
Proof. intros Hp Hr i e Hi. apply (describes_perm a); [done|by apply Hr]. Qed.

Definition range_start (self : CongestionControlFeedbackTracker) (front : Received) : Z :=
  match last_sequence_number_in_feedback_ self with
  | Some last => last
  | None => s64 (unwrapped_sequence_number front - 1)
  end.

Lemma range_start_ok s B self front (packets : list Received) : tracker_ok s B self → small B →
  (∀ p, p ∈ packets ↔ p ∈ received_ self) → front ∈ packets →
  (∀ p, p ∈ packets → unwrapped_sequence_number front ≤ unwrapped_sequence_number p) →
  let lo := range_start self front in
  starts self lo ∧ (∀ p, p ∈ packets → lo < unwrapped_sequence_number p) ∧ - B - 1 ≤ lo ≤ B.
Proof.
  intros [_ _ _ Hlast _ Hseq Habove] HB Hin Hfp Hfmin lo. unfold lo, range_start, starts, small in *.
  destruct (last_sequence_number_in_feedback_ self) as [l|].
  - split; [done|]. split; [|by apply Hlast].
    intros p Hq. apply Habove; [done|by apply Hin].
  - pose proof (Hseq front (proj1 (Hin front) Hfp)). rewrite s64_id by (unfold int64; lia).
    split_and!; try lia.
    + exists front. split; [by apply Hin|lia].
    + intros p Hq%Hin. apply Hfmin in Hq. lia.
    + intros p Hq. apply Hfmin in Hq. lia.
Qed.

Section feedback.
Context (c_sort : list Received → list Received) `{!Sorts c_sort}.

(** What one tracker adds to a feedback: nothing if nothing was received, otherwise
    the run behind the last feedback. *)
Lemma AddPackets_ok s B self t fb :
  tracker_ok s B self → small B → received_ self ≠ [] → 0 ≤ t < PlusInfinity →
  ∃ lo hi new,
    AddPacketsToFeedback c_sort self t fb =
      Some (mkTracker (Some hi) (unwrapper_ self) [], fb ++ new) ∧
    starts self lo ∧ largest (received_ self) hi ∧ lo < hi ∧
    Z.of_nat (length new) = Z.min (hi - lo) kMaxPacketsPerSsrc ∧
    run (received_ self) s t lo new.
Proof using Type*.
  intros Hok HB Hne Ht. assert (H := Hok). destruct H as [_ _ _ _ Hstr Hseq _].
  pose proof (sorts_perm (received_ self)) as Hp. pose proof (sorts_sorted (received_ self)) as Hs.
  remember (c_sort (received_ self)) as packets eqn:Epk.
  assert (Hlen : (0 < length packets)%nat).
  { rewrite Hp. by destruct (received_ self); [|cbn; lia]. }
  destruct (lookup_lt_is_Some_2 packets 0) as [front Hf]; [done|].
  destruct (lookup_lt_is_Some_2 packets (length packets - 1)) as [back Hb]; [lia|].
  destruct (sorted_ends _ _ _ Hs Hf Hb) as (Hfp & Hfmin & Hlarge).
  assert (Hin : ∀ p, p ∈ packets ↔ p ∈ received_ self) by (intros p; by rewrite Hp).
  pose proof (range_start_ok s B self front packets Hok HB Hin Hfp Hfmin) as Hlo.
  set (lo := range_start self front) in *.
  destruct Hlo as (Hst & Hlo & HloB). destruct Hlarge as [(m & Hm & Em) Hmax].
  pose proof (Hseq m (proj1 (Hin m) Hm)) as HmB. pose proof (Hlo m Hm) as Hlm.
  unfold small in HB.
  exists lo, (unwrapped_sequence_number back).
  set (n := Z.min (unwrapped_sequence_number back - lo) kMaxPacketsPerSsrc).
  assert (Hnn : Z.to_nat (Z.min (unwrapped_sequence_number back) (s64 (lo + kMaxPacketsPerSsrc)) -
    s64 (lo + 1) + 1) = Z.to_nat n).
  { unfold n, kMaxPacketsPerSsrc. rewrite !s64_id by (unfold int64; lia). lia. }
  destruct (proj1 (wp_exists _ _) (add_packets_ok packets s t lo (Z.to_nat n) fb Hs
    ltac:(intros p Hq; apply Hstr; by apply Hin) Ht Hlo
    ltac:(exists m; split; [done|unfold n, kMaxPacketsPerSsrc; lia])))
    as ([it fb'] & E & new & -> & Hnl & Hrun).
  exists new. split_and!; [|done|split; [exists m; by rewrite <- Hin|intros p Hq%Hin; by apply Hmax]|lia
    |rewrite Hnl; unfold n, kMaxPacketsPerSsrc; lia|by apply (run_perm packets)].
  unfold AddPacketsToFeedback. cbv zeta. rewrite <- Epk.
  destruct (received_ self) eqn:Er; [done|]. rewrite <- Er in Hin, Hstr. rewrite Hf. cbn [mbind option_bind]. rewrite Hb. cbn [mbind option_bind].
  fold (range_start self front). fold lo.
  rewrite Hnn, (proj1 (Hstr front (proj1 (Hin front) Hfp))).
  rewrite (s64_id (lo + 1)) by (unfold int64; lia). by rewrite E.
Qed.
End feedback.

(** ** A sort *)

#[export] Instance in_order_dec : RelDecision in_order.
Proof. intros a b. unfold in_order. apply _. Defined.

#[export] Instance in_order_total : Total in_order.
Proof. intros a b. unfold in_order. lia. Qed.

#[export] Instance in_order_trans : Transitive in_order.
Proof. intros a b c. unfold in_order. lia. Qed.

(** Merge sort meets the contract. *)
#[export] Instance merge_sort_Sorts : Sorts (merge_sort in_order).
Proof.
  split; [apply merge_sort_Permutation|apply StronglySorted_merge_sort; apply _].
Qed.

(** C12: What a tracker reports. With at least one packet received since the last
    feedback, all debug checks pass and the report added is a well-formed block for
    the feedback message: consecutive sequence numbers, from the one behind the last
    number the tracker counts as reported (which a reordered older packet has moved back
    to just before itself; from the smallest received if there is none) to the largest
    received, cut at 16384; each as not received if it
    was not received since the last feedback, and else with the arrival time of its first
    copy since then and CE if any of these copies is marked CE. The tracker is then empty
    and continues behind the largest sequence number received; without packets nothing
    changes. The tracker is any of one stream with unwrapped numbers up to 2^61. (After a
    reordered packet, numbers that an earlier feedback reported as received are reported
    again as lost: see reported_again_as_lost.) *)
Theorem AddPacketsToFeedback_correct (c_sort : list Received → list Received)
    (s B : Z) (self : CongestionControlFeedbackTracker) (t : Z) (fb : list PacketInfo) :
  Sorts c_sort → uint32 s → small B → tracker_ok s B self → 0 ≤ t < PlusInfinity →
  (received_ self = [] → AddPacketsToFeedback c_sort self t fb = Some (self, fb)) ∧
  (received_ self ≠ [] → ∃ lo hi new,
     AddPacketsToFeedback c_sort self t fb =
       Some (mkTracker (Some hi) (unwrapper_ self) [], fb ++ new) ∧
     starts self lo ∧ largest (received_ self) hi ∧
     Z.of_nat (length new) = Z.min (hi - lo) kMaxPacketsPerSsrc ∧
     report new ∧ run (received_ self) s t lo new).
Proof.
  intros Hc Hs HB Hok Ht. split.
  - intros E. unfold AddPacketsToFeedback. by rewrite E.
  - intros Hne. destruct (AddPackets_ok c_sort s B self t fb) as (lo & hi & new & E & H1 & H2 & H3 & Hn & Hr);
      try done. exists lo, hi, new. split_and!; try done.
    apply (run_report _ _ _ _ _ Hs Hr). unfold kMaxPacketsPerSsrc in Hn. lia.
Qed.

Definition example_tracker : CongestionControlFeedbackTracker :=
  foldl ReceivedPacket new_tracker
    [mkRtp 65535 7 1000 kEct1 false; mkRtp 1 7 1500 kEct1 true; mkRtp 65535 7 1600 kCe false].

Lemma example_tracker_ok : tracker_ok 7 (65535 + 32768 + 32768 + 32768) example_tracker.
Proof.
  unfold example_tracker. cbn [foldl].
  repeat apply ReceivedPacket_ok; try (unfold small; lia);
    try (split; [done|]; unfold uint16, PlusInfinity; cbn; lia).
  apply new_tracker_ok. lia.
Qed.

Lemma AddPacketsToFeedback_correct_witness :
  AddPacketsToFeedback (merge_sort in_order) example_tracker 2000 [] =
    Some (mkTracker (Some 65537) (unwrapper_ example_tracker) [],
          [mkInfo 7 65535 1000 kCe; mkInfo 7 0 MinusInfinity kNotEct; mkInfo 7 1 500 kEct1]) ∧
  (received_ example_tracker ≠ [] → ∃ lo hi new,
     AddPacketsToFeedback (merge_sort in_order) example_tracker 2000 [] =
       Some (mkTracker (Some hi) (unwrapper_ example_tracker) [], [] ++ new) ∧
     starts example_tracker lo ∧ largest (received_ example_tracker) hi ∧
     Z.of_nat (length new) = Z.min (hi - lo) kMaxPacketsPerSsrc ∧
     report new ∧ run (received_ example_tracker) 7 2000 lo new).
Proof.
  split; [by vm_compute|].
  apply (AddPacketsToFeedback_correct (merge_sort in_order) 7 (65535 + 32768 + 32768 + 32768)
           example_tracker 2000 []);
    [apply _|unfold uint32; lia|unfold small; lia|apply example_tracker_ok|unfold PlusInfinity; lia].
Defined.

(** A packet that is reordered across a feedback. RFC 8888 asks for the packets reported
    before to be reported again; the tracker keeps no history, and the packets 12 and 13,
    which the first feedback reports as received, are lost in the second one, which the
    late packet 11 starts. *)
Example reported_again_as_lost :
  let rx n t := mkRtp n 7 t kEct1 false in
  let first := foldl ReceivedPacket new_tracker [rx 10 1000; rx 12 1200; rx 13 1300] in
  ('(tracker, fb) ← AddPacketsToFeedback (merge_sort in_order) first 2000 [];
   '(_, fb') ← AddPacketsToFeedback (merge_sort in_order)
      (foldl ReceivedPacket tracker [rx 11 2100; rx 14 2200]) 3000 [];
   Some (fb, fb')) =
  Some ([mkInfo 7 10 1000 kEct1; mkInfo 7 11 MinusInfinity kNotEct; mkInfo 7 12 800 kEct1; mkInfo 7 13 700 kEct1],
        [mkInfo 7 11 900 kEct1; mkInfo 7 12 MinusInfinity kNotEct; mkInfo 7 13 MinusInfinity kNotEct;
         mkInfo 7 14 800 kEct1]).
Proof. vm_compute. reflexivity. Qed.

(** A long gap swallows received packets. When more than 16384 sequence numbers
    lie between the last feedback and the largest number received, the report is cut
    after 16384 entries, but the tracker still continues behind the largest: the
    packet with that number, although received, is in this report no more than in
    any later one, and the sequence numbers of successive reports are not
    continuous. *)
Theorem feedback_gap_skips (c_sort : list Received → list Received)
    (s B l hi : Z) (self : CongestionControlFeedbackTracker) (t : Z) (fb : list PacketInfo) :
  Sorts c_sort → small B → tracker_ok s B self → 0 ≤ t < PlusInfinity →
  last_sequence_number_in_feedback_ self = Some l → largest (received_ self) hi →
  kMaxPacketsPerSsrc < hi - l < 65536 →
  wp (AddPacketsToFeedback c_sort self t fb) (λ '(self', fb'),
    ∃ new, fb' = fb ++ new ∧ Z.of_nat (length new) = kMaxPacketsPerSsrc ∧
      Forall (λ e, sequence_number e ≠ u16 hi) new ∧
      received_ self' = [] ∧ starts self' hi).
Proof.
  intros Hc HB Hok Ht Hl Hhi Hgap.
  destruct (AddPackets_ok c_sort s B self t fb) as (lo & hi' & new & E & H1 & H2 & H3 & Hn & Hr);
    try done.
  { intros E. rewrite E in Hhi. destruct Hhi as [(p & Hp & _) _]. by apply not_elem_of_nil in Hp. }
  assert (hi' = hi) as ->.
  { destruct Hhi as [(p & Hp & Ep) Hp'], H2 as [(q & Hq & Eq) Hq'].
    pose proof (Hp' q Hq). pose proof (Hq' p Hp). lia. }
  unfold starts in H1. rewrite Hl in H1. subst lo. unfold kMaxPacketsPerSsrc in *.
  rewrite E. exists new. split_and!; try done; [lia|].
  apply Forall_lookup_2. intros i e Hi. pose proof (lookup_lt_Some _ _ _ Hi).
  rewrite (proj2 (describes_seq _ _ _ _ _ (Hr i e Hi))). unfold u16. intros Em.
  assert ((hi - (l + 1 + Z.of_nat i)) mod 65536 = 0) as Hz.
  { by rewrite Zminus_mod, Em, Z.sub_diag. }
  rewrite Z.mod_small in Hz by lia. lia.
Qed.

Definition gap_tracker : CongestionControlFeedbackTracker :=
  ReceivedPacket (mkTracker (Some 100) (mkUnwrapper 100 (Some 100)) [])
    (mkRtp 20000 7 1000 kEct1 false).

Lemma gap_tracker_ok : tracker_ok 7 (65535 + 32768) gap_tracker.
Proof.
  apply ReceivedPacket_ok; [|unfold small; lia|split; [done|unfold uint16, PlusInfinity; cbn; lia]].
  split; cbn; unfold kMaxPacketsPerSsrc; try done; try lia;
    try (intros p Hp; by apply not_elem_of_nil in Hp).
  - intros l [= <-]. lia.
  - by intros l p _ Hp%not_elem_of_nil.
Qed.

Lemma feedback_gap_skips_witness :
  wp (AddPacketsToFeedback (merge_sort in_order) gap_tracker 2000 []) (λ '(self', fb'),
    ∃ new, fb' = [] ++ new ∧ Z.of_nat (length new) = kMaxPacketsPerSsrc ∧
      Forall (λ e, sequence_number e ≠ u16 20000) new ∧
      received_ self' = [] ∧ starts self' 20000).
Proof.
  apply (feedback_gap_skips (merge_sort in_order) 7 (65535 + 32768) 100 20000 gap_tracker 2000 []);
    [apply _|unfold small; lia|apply gap_tracker_ok|unfold PlusInfinity; lia|done| |
     unfold kMaxPacketsPerSsrc; lia].
  assert (E : received_ gap_tracker = [mkReceived 7 20000 1000 kEct1]) by done. rewrite E. split.
  - eexists. split; [apply list_elem_of_singleton; reflexivity|done].
  - intros p ->%list_elem_of_singleton. done.
Defined.

End CcTracker.
