(* ===== verification/CcGenerator.v ===== *)
(** * Sending congestion control feedback
    (modules/remote_bitrate_estimator/congestion_control_feedback_generator.cc, .h,
    CompactNtp of modules/rtp_rtcp/source/ntp_time_util.h)

    The generator keeps one tracker per stream, decides when a feedback message is
    due, and limits the feedback to 500 kbit/s with a debt of bytes. The clock is
    outside of the component: its reading is an argument of the operations that read
    it, its conversion to NTP time a function; the minimum and maximum intervals come
    from a field trial and are fields of the state. What the sender callback gets is
    an output of the operations. *)

From stdpp Require Import sorting.
From S2P Require Import Prelude SeqNum Units Rtcp CcFeedback CcTracker.
Import SeqNum Units Rtcp CcFeedback CcTracker.

Module CcGenerator.

(** feedback_trackers_ is a std::map: its entries in the order of the keys. *)
Record CongestionControlFeedbackGenerator := mkGen {
  min_time_between_feedback_ : Z;
  max_time_to_wait_for_packet_with_marker_ : Z;
  max_time_between_feedback_ : Z;
  send_rate_debt_ : Z;
  feedback_trackers_ : list (Z * CongestionControlFeedbackTracker);
  last_feedback_sent_time_ : Z;
  first_arrival_time_since_feedback_ : option Z;
  marker_bit_seen_ : bool;
  next_possible_feedback_send_time_ : Z;
}.

Definition new_generator (min_send_delta max_wait_for_marker max_send_delta : Z)
  : CongestionControlFeedbackGenerator :=
  mkGen min_send_delta max_wait_for_marker max_send_delta 0 [] 0 None false 0.

(** 500 kbit/s. *)
Definition kMaxFeedbackRate : Z := 500000.

Definition CompactNtp (ntp : Z * Z) : Z :=
  let '(seconds, fractions) := ntp in
  u32 (Z.lor (u32 (Z.shiftl seconds 16)) (Z.shiftr fractions 16)).

(** [std::clamp], undefined when the bounds are out of order. *)
Definition clamp (v lo hi : Z) : option Z :=
  if hi <? lo then None
  else Some (if v <? lo then lo else if hi <? v then hi else v).

(** [feedback_trackers_\[ssrc\]], created on first use, updated by [f]. *)
Fixpoint at_ssrc (k : Z) (f : CongestionControlFeedbackTracker → CongestionControlFeedbackTracker)
    (m : list (Z * CongestionControlFeedbackTracker))
  : list (Z * CongestionControlFeedbackTracker) :=
  match m with
  | [] => [(k, f new_tracker)]
  | (k', t) :: m' =>
      if k <? k' then (k, f new_tracker) :: m
      else if k =? k' then (k', f t) :: m'
      else (k', t) :: at_ssrc k f m'
  end.

Definition NextFeedbackTime (self : CongestionControlFeedbackGenerator) (clock : Z) : option Z :=
  match first_arrival_time_since_feedback_ self with
  | None =>
      t ← ts_add clock (min_time_between_feedback_ self);
      Some (Z.max t (next_possible_feedback_send_time_ self))
  | Some first =>
      if negb (marker_bit_seen_ self) then
        t ← ts_add first (max_time_to_wait_for_packet_with_marker_ self);
        Some (Z.max (next_possible_feedback_send_time_ self) t)
      else Some (next_possible_feedback_send_time_ self)
  end.

Definition CalculateNextPossibleSendTime (self : CongestionControlFeedbackGenerator)
    (feedback_size now : Z) : option CongestionControlFeedbackGenerator :=
  time_since_last_sent ← ts_diff now (last_feedback_sent_time_ self);
  debt_payed ← rate_mul kMaxFeedbackRate time_since_last_sent;
  debt ← (if debt_payed >? send_rate_debt_ self then Some 0
          else size_sub (send_rate_debt_ self) debt_payed);
  debt ← size_add debt feedback_size;
  interval ← size_div_rate debt kMaxFeedbackRate;
  interval ← clamp interval (min_time_between_feedback_ self) (max_time_between_feedback_ self);
  next ← ts_add now interval;
  Some (mkGen (min_time_between_feedback_ self) (max_time_to_wait_for_packet_with_marker_ self)
          (max_time_between_feedback_ self) debt (feedback_trackers_ self) now
          (first_arrival_time_since_feedback_ self) (marker_bit_seen_ self) next).

Section operations.
Context (c_sort : list Received → list Received) (ConvertTimestampToNtpTime : Z → Z * Z).

(** The loop over the trackers. *)
Fixpoint collect (now : Z) (trackers : list (Z * CongestionControlFeedbackTracker))
    (rtcp_packet_info : list PacketInfo)
  : option (list (Z * CongestionControlFeedbackTracker) * list PacketInfo) :=
  match trackers with
  | [] => Some ([], rtcp_packet_info)
  | (k, tracker) :: trackers =>
      '(tracker, rtcp_packet_info) ← AddPacketsToFeedback c_sort tracker now rtcp_packet_info;
      '(trackers, rtcp_packet_info) ← collect now trackers rtcp_packet_info;
      Some ((k, tracker) :: trackers, rtcp_packet_info)
  end.

Definition SendFeedback (self : CongestionControlFeedbackGenerator) (now : Z)
  : option (CongestionControlFeedbackGenerator * CongestionControlFeedback) :=
  _ ← dcheck (next_possible_feedback_send_time_ self <=? now);
  let compact_ntp := CompactNtp (ConvertTimestampToNtpTime now) in
  '(trackers, rtcp_packet_info) ← collect now (feedback_trackers_ self) [];
  let self := mkGen (min_time_between_feedback_ self)
    (max_time_to_wait_for_packet_with_marker_ self) (max_time_between_feedback_ self)
    (send_rate_debt_ self) trackers (last_feedback_sent_time_ self) None false
    (next_possible_feedback_send_time_ self) in
  let feedback := mkFeedback 0 rtcp_packet_info compact_ntp in
  block_length ← BlockLength (packets_ feedback);
  size ← Bytes (Z.of_nat block_length);
  self ← CalculateNextPossibleSendTime self size now;
  Some (self, feedback).

(** [clock]: the reading of the clock if a feedback is sent. *)
Definition OnReceivedPacket (self : CongestionControlFeedbackGenerator)
    (packet : RtpPacketReceived) (clock : Z)
  : option (CongestionControlFeedbackGenerator * option CongestionControlFeedback) :=
  let self := mkGen (min_time_between_feedback_ self)
    (max_time_to_wait_for_packet_with_marker_ self) (max_time_between_feedback_ self)
    (send_rate_debt_ self)
    (at_ssrc (Ssrc packet) (λ t, ReceivedPacket t packet) (feedback_trackers_ self))
    (last_feedback_sent_time_ self)
    (match first_arrival_time_since_feedback_ self with
     | None => Some (rtp_arrival_time packet)
     | Some first => Some first
     end)
    (marker_bit_seen_ self || Marker packet) (next_possible_feedback_send_time_ self) in
  next ← NextFeedbackTime self clock;
  if next <? rtp_arrival_time packet then
    '(self, feedback) ← SendFeedback self clock;
    Some (self, Some feedback)
  else Some (self, None).

(** [clock] and [clock']: the readings of the clock at the start and at the end. *)
Definition Process (self : CongestionControlFeedbackGenerator) (now clock clock' : Z)
  : option (CongestionControlFeedbackGenerator * option CongestionControlFeedback * Z) :=
  next ← NextFeedbackTime self clock;
  '(self, sent) ←
    (if next <=? now then
       '(self, feedback) ← SendFeedback self now;
       Some (self, Some feedback)
     else Some (self, None));
  next ← NextFeedbackTime self clock';
  delay ← ts_diff next now;
  Some (self, sent, delay).

End operations.

(** ** The debt *)

(** Times are microseconds, up to 115 days. *)
Definition horizon : Z := 10 ^ 13.
Definition moment (t : Z) : Prop := 0 ≤ t ≤ horizon.

(** The intervals of the field trial: in order, at most a quarter of an hour. *)
Definition config_ok (g : CongestionControlFeedbackGenerator) : Prop :=
  0 ≤ min_time_between_feedback_ g ≤ max_time_between_feedback_ g ∧
  max_time_between_feedback_ g ≤ 10 ^ 9 ∧
  0 ≤ max_time_to_wait_for_packet_with_marker_ g ≤ 10 ^ 9.

(** What is left of a debt after a while, at a byte for sixteen microseconds. *)
Definition remaining (debt elapsed : Z) : Z := Z.max 0 (debt - (elapsed + 8) / 16).

(** The time to wait with a debt. *)
Definition wait (g : CongestionControlFeedbackGenerator) (debt : Z) : Z :=
  Z.max (min_time_between_feedback_ g) (Z.min (16 * debt) (max_time_between_feedback_ g)).

Lemma rate_mul_ok d : 0 ≤ d ≤ horizon → rate_mul kMaxFeedbackRate d = Some ((d + 8) / 16).
Proof.
  unfold horizon, kMaxFeedbackRate. intros Hd. unfold rate_mul.
  rewrite !ToValue_ok by (unfold finite, MinusInfinity, PlusInfinity; lia). cbn [mbind option_bind].
  rewrite (s64_id (500000 * d)) by (unfold int64; lia). rewrite s64_id by (unfold int64; lia).
  rewrite Z.quot_div_nonneg by lia.
  replace (500000 * d + 4000000) with ((d + 8) * 500000) by lia.
  change 8000000 with (16 * 500000). rewrite Z.div_mul_cancel_r by lia.
  apply FromValue_ok; [intros _; apply Z.div_pos; lia|].
  pose proof (Z.div_pos (d + 8) 16). pose proof (Z.div_le_upper_bound (d + 8) 16 (d + 8)).
  unfold finite, MinusInfinity, PlusInfinity. lia.
Qed.

Lemma size_div_rate_ok d : 0 ≤ d ≤ 10 ^ 12 → size_div_rate d kMaxFeedbackRate = Some (16 * d).
Proof.
  unfold kMaxFeedbackRate. intros Hd. unfold size_div_rate, Microbits.
  rewrite !ToValue_ok by (unfold finite, MinusInfinity, PlusInfinity; lia). cbn [mbind option_bind].
  rewrite (proj2 (Z.leb_le d _)) by (change (9223372036854775807 / 8000000) with 1152921504606; lia).
  cbn [dcheck mbind option_bind]. rewrite s64_id by (unfold int64; lia).
  change (500000 =? 0) with false. cbv iota. rewrite Z.quot_div_nonneg by lia.
  replace (d * 8000000) with (16 * d * 500000) by lia. rewrite Z.div_mul by lia.
  apply FromValue_ok; [done|]. unfold finite, MinusInfinity, PlusInfinity. lia.
Qed.

Lemma clamp_ok g v : config_ok g → 
  clamp v (min_time_between_feedback_ g) (max_time_between_feedback_ g) =
  Some (Z.max (min_time_between_feedback_ g) (Z.min v (max_time_between_feedback_ g))).
Proof.
  intros ((_ & H) & _). unfold clamp. rewrite (proj2 (Z.ltb_ge _ _)) by done.
  destruct (Z.ltb_spec v (min_time_between_feedback_ g)); [f_equal; lia|].
  destruct (Z.ltb_spec (max_time_between_feedback_ g) v); f_equal; lia.
Qed.

Lemma CalculateNext_ok g size now :
  config_ok g → moment now → 0 ≤ last_feedback_sent_time_ g ≤ now →
  0 ≤ send_rate_debt_ g → 0 ≤ size → send_rate_debt_ g + size ≤ 10 ^ 12 →
  let debt := remaining (send_rate_debt_ g) (now - last_feedback_sent_time_ g) + size in
  CalculateNextPossibleSendTime g size now =
  Some (mkGen (min_time_between_feedback_ g) (max_time_to_wait_for_packet_with_marker_ g)
          (max_time_between_feedback_ g) debt (feedback_trackers_ g) now
          (first_arrival_time_since_feedback_ g) (marker_bit_seen_ g) (now + wait g debt)).
Proof.
  intros Hc Hn Hl Hd Hs Hb debt. unfold CalculateNextPossibleSendTime, moment, horizon in *.
  assert (Hw : 0 ≤ wait g debt ≤ 10 ^ 9).
  { unfold wait. destruct Hc as (? & ? & _). lia. }
  rewrite ts_diff_ok by (unfold finite, PlusInfinity, MinusInfinity; lia). cbn [mbind option_bind].
  rewrite rate_mul_ok by (unfold horizon; lia). cbn [mbind option_bind].
  set (paid := (now - last_feedback_sent_time_ g + 8) / 16) in *.
  assert (0 ≤ paid) by (apply Z.div_pos; lia).
  assert (Hdebt : (if paid >? send_rate_debt_ g then Some 0 else size_sub (send_rate_debt_ g) paid) =
    Some (remaining (send_rate_debt_ g) (now - last_feedback_sent_time_ g))).
  { unfold remaining. fold paid. rewrite Z.gtb_ltb. destruct (Z.ltb_spec (send_rate_debt_ g) paid).
    - f_equal. lia.
    - rewrite size_sub_ok by (unfold finite, PlusInfinity, MinusInfinity; lia). f_equal. lia. }
  rewrite Hdebt. cbn [mbind option_bind].
  assert (0 ≤ remaining (send_rate_debt_ g) (now - last_feedback_sent_time_ g) ≤ send_rate_debt_ g).
  { unfold remaining. fold paid. lia. }
  rewrite size_add_ok by (unfold finite, PlusInfinity, MinusInfinity; lia). cbn [mbind option_bind].
  fold debt. rewrite size_div_rate_ok by lia. cbn [mbind option_bind].
  rewrite clamp_ok by done. cbn [mbind option_bind]. fold (wait g debt).
  by rewrite ts_add_ok by (unfold finite, PlusInfinity, MinusInfinity; lia).
Qed.

(** ** The trackers *)

Definition trackers_ok (B : Z) (m : list (Z * CongestionControlFeedbackTracker)) : Prop :=
  StronglySorted (λ a b, a.1 < b.1) m ∧ Forall (λ kt, uint32 kt.1 ∧ tracker_ok kt.1 B kt.2) m.

(** The number of streams with packets to report. *)
Definition is_pending (kt : Z * CongestionControlFeedbackTracker) : bool :=
  negb (length (received_ kt.2) =? 0)%nat.
Definition pending (m : list (Z * CongestionControlFeedbackTracker)) : nat :=
  length (List.filter is_pending m).

Lemma trackers_le B B' m : trackers_ok B m → B ≤ B' → trackers_ok B' m.
Proof.
  intros [Hs Hf] HB. split; [done|]. eapply Forall_weaken; [exact Hf|].
  intros kt [? ?]. split; [done|]. by apply (tracker_ok_le _ B).
Qed.

Lemma at_ssrc_keys k f m : ∀ a, a ∈ at_ssrc k f m → a.1 = k ∨ a ∈ m.
Proof.
  induction m as [|[k' t] m IH]; cbn [at_ssrc]; intros a.
  - intros ->%list_elem_of_singleton. by left.
  - destruct (Z.ltb_spec k k'), (Z.eqb_spec k k'); rewrite ?elem_of_cons; intros [->|Ha]; auto.
    destruct (IH a Ha); auto.
Qed.

Lemma at_ssrc_ok B m packet : trackers_ok B m → small B → uint32 (Ssrc packet) →
  packet_ok (Ssrc packet) packet →
  trackers_ok (B + 32768) (at_ssrc (Ssrc packet) (λ t, ReceivedPacket t packet) m).
Proof.
  intros Hm HB Hs Hp.
  assert (Hnew : tracker_ok (Ssrc packet) (B + 32768) (ReceivedPacket new_tracker packet)).
  { apply ReceivedPacket_ok; [apply new_tracker_ok; unfold small in HB; lia|done|done]. }
  assert (Hm' := trackers_le B (B + 32768) m Hm ltac:(lia)).
  induction m as [|[k t] m IH]; cbn [at_ssrc].
  { split; [repeat constructor|]. by apply Forall_cons_2; [|apply Forall_nil_2]. }
  destruct Hm as [[Hs1 Hs2]%StronglySorted_inv [Ht Hf]%Forall_cons_1].
  destruct Hm' as [_ [Ht' Hf']%Forall_cons_1].
  destruct (Z.ltb_spec (Ssrc packet) k) as [Hlt|Hge]; [|destruct (Z.eqb_spec (Ssrc packet) k) as [E|Hne]].
  - split; [|by repeat apply Forall_cons_2]. constructor; [by constructor|].
    apply Forall_cons_2; [done|]. eapply Forall_weaken; [exact Hs2|]. cbn. lia.
  - split; [by constructor|]. apply Forall_cons_2; [|done]. split; [apply Ht|]. cbn.
    apply ReceivedPacket_ok; [apply Ht|done|by rewrite <- E].
  - destruct (IH ltac:(by split) ltac:(by split)) as [I1 I2]. split; [|by apply Forall_cons_2].
    constructor; [done|]. rewrite List.Forall_forall in *. intros a [Ha|Ha]%list_elem_of_In%at_ssrc_keys.
    + cbn. lia.
    + by apply Hs2, list_elem_of_In.
Qed.

Lemma pending_at_ssrc k f m : (pending (at_ssrc k f m) ≤ S (pending m))%nat.
Proof.
  unfold pending. induction m as [|[k' t] m IH]; cbn [at_ssrc].
  - cbn [List.filter]. destruct (is_pending _); cbn; lia.
  - destruct (k <? k'); [|destruct (k =? k')].
    + cbn [List.filter]. repeat destruct (is_pending _); cbn; lia.
    + cbn [List.filter]. repeat destruct (is_pending _); cbn; lia.
    + cbn [List.filter]. destruct (is_pending _); cbn in *; lia.
Qed.

(** ** One feedback *)

(** What a feedback reports: for each stream with packets one report, in the order
    of the streams; the tracker is then empty. *)
Inductive collected (now : Z) : list (Z * CongestionControlFeedbackTracker) →
    list (Z * CongestionControlFeedbackTracker) → list (list PacketInfo) → Prop :=
| collected_nil : collected now [] [] []
| collected_quiet k t m m' gs : received_ t = [] → collected now m m' gs →
    collected now ((k, t) :: m) ((k, t) :: m') gs
| collected_report k t m m' gs lo hi new :
    starts t lo → largest (received_ t) hi →
    Z.of_nat (length new) = Z.min (hi - lo) kMaxPacketsPerSsrc →
    run (received_ t) k now lo new → report new → head_ssrc new = Some k → collected now m m' gs →
    collected now ((k, t) :: m) ((k, mkTracker (Some hi) (unwrapper_ t) []) :: m') (new :: gs).

Lemma collected_heads now m m' gs : collected now m m' gs →
  ∀ g, g ∈ gs → ∃ a, a ∈ m ∧ head_ssrc g = Some a.1.
Proof.
  induction 1 as [|k t m m' gs _ _ IH|k t m m' gs lo hi new _ _ _ _ _ Hk _ IH]; intros g Hg.
  - by apply not_elem_of_nil in Hg.
  - destruct (IH g Hg) as (a & Ha & E). exists a. split; [by right|done].
  - apply elem_of_cons in Hg as [->|Hg].
    + exists (k, t). split; [left|done].
    + destruct (IH g Hg) as (a & Ha & E). exists a. split; [by right|done].
Qed.

Lemma collected_reports now m m' gs : collected now m m' gs →
  StronglySorted (λ a b, a.1 < b.1) m → reports_ok gs.
Proof.
  induction 1 as [|k t m m' gs _ _ IH|k t m m' gs lo hi new _ _ _ _ Hr Hk Hc IH]; intros Hs.
  - split; [by apply Forall_nil_2|done].
  - apply IH. by apply StronglySorted_inv in Hs as [? _].
  - apply StronglySorted_inv in Hs as [Hs1 Hs2]. destruct (IH Hs1) as [I1 I2].
    split; [by apply Forall_cons_2|]. destruct gs as [|g gs]; [done|]. split; [|done].
    destruct (collected_heads _ _ _ _ Hc g ltac:(left)) as (a & Ha & ->). rewrite Hk.
    rewrite List.Forall_forall in Hs2. apply list_elem_of_In, Hs2 in Ha. cbn in Ha.
    intros [= E]. lia.
Qed.

Lemma collected_pending now m m' gs : collected now m m' gs → StronglySorted (λ a b, a.1 < b.1) m →
  length gs = pending m ∧ pending m' = 0%nat ∧ map fst m' = map fst m.
Proof.
  intros Hc Hs. unfold pending, is_pending.
  induction Hc as [|k t m m' gs Er _ IH|k t m m' gs lo hi new _ Hhi _ _ _ _ _ IH]; [done| |];
    apply StronglySorted_inv in Hs as [Hs1 _]; destruct (IH Hs1) as (I1 & I2 & I3).
  - cbn [List.filter snd]. rewrite Er. cbn [negb length Nat.eqb map fst]. by rewrite I3.
  - cbn [List.filter snd received_ length Nat.eqb negb map fst].
    destruct (received_ t) as [|r rs] eqn:E.
    { destruct Hhi as [(p & Hp & _) _]. by apply not_elem_of_nil in Hp. }
    cbn [length Nat.eqb negb]. rewrite I1, I2, I3. done.
Qed.

(** The order of a list of trackers depends on its keys only. *)
Lemma keys_forall k (t t' : CongestionControlFeedbackTracker) (m m' : list (Z * CongestionControlFeedbackTracker)) :
  Forall (λ b, (k, t).1 < b.1) m → map fst m' = map fst m → Forall (λ b, (k, t').1 < b.1) m'.
Proof.
  intros H E. apply (List.Forall_map (@fst Z _) (λ x, k < x)). rewrite E.
  by apply (List.Forall_map (@fst Z _) (λ x, k < x)).
Qed.

Section generator.
Context (c_sort : list Received → list Received) `{!Sorts c_sort}.
Context (ConvertTimestampToNtpTime : Z → Z * Z).

Lemma run_head packets s t lo new : (0 < length new)%nat → run packets s t lo new →
  head_ssrc new = Some s.
Proof.
  destruct new as [|e new]; [cbn; lia|]. intros _ Hr. cbn.
  by destruct (describes_seq _ _ _ _ _ (Hr 0%nat e eq_refl)) as [-> _].
Qed.

Lemma emptied_ok s B t hi : tracker_ok s B t → largest (received_ t) hi →
  tracker_ok s B (mkTracker (Some hi) (unwrapper_ t) []).
Proof.
  intros [] [(p & Hp & <-) _]. specialize (ok_seq0 p Hp).
  split; cbn; unfold kMaxPacketsPerSsrc; try done; try lia;
    try (by intros ? ?%not_elem_of_nil).
  - intros l [= <-]. lia.
  - by intros l q _ Hq%not_elem_of_nil.
Qed.

Lemma collect_ok B now m fb : trackers_ok B m → small B → 0 ≤ now < PlusInfinity →
  ∃ m' gs, collect c_sort now m fb = Some (m', fb ++ concat gs) ∧ collected now m m' gs ∧
    trackers_ok B m'.
Proof using Type*.
  intros Hm HB Hn. revert fb. induction m as [|[k t] m IH]; intros fb.
  { exists [], []. cbn. rewrite app_nil_r. split_and!; [done|constructor|done]. }
  destruct Hm as [[Hs1 Hs2]%StronglySorted_inv [[Hk Ht] Hf]%Forall_cons_1]. cbn [fst snd] in *.
  specialize (IH ltac:(by split)). cbn [collect].
  destruct (decide (received_ t = [])) as [Er|Er].
  - destruct (IH fb) as (m' & gs & E & Hc & [Hm1 Hm2]). exists ((k, t) :: m'), gs.
    assert (AddPacketsToFeedback c_sort t now fb = Some (t, fb)) as ->
      by (unfold AddPacketsToFeedback; by rewrite Er).
    cbn [mbind option_bind]. rewrite E. split_and!; [done|by constructor|].
    destruct (collected_pending _ _ _ _ Hc Hs1) as (_ & _ & Hmap).
    split; [|by apply Forall_cons_2]. constructor; [done|]. by apply (keys_forall k t _ m).
  - destruct (AddPackets_ok c_sort k B t now fb) as (lo & hi & new & E & H1 & H2 & H3 & H4 & H5);
      try done. rewrite E. cbn [mbind option_bind].
    destruct (IH (fb ++ new)) as (m' & gs & E' & Hc & [Hm1 Hm2]). rewrite E'. cbn [mbind option_bind].
    eexists _, (new :: gs). cbn [concat]. rewrite app_assoc. unfold kMaxPacketsPerSsrc in H4.
    split_and!; [done| |].
    + apply (collected_report _ _ _ _ _ _ lo); try done.
      * apply (run_report _ _ _ _ _ Hk H5). lia.
      * apply (run_head (received_ t) k now lo new); [lia|done].
    + destruct (collected_pending _ _ _ _ Hc Hs1) as (_ & _ & Hmap).
      split; [constructor; [done|by apply (keys_forall k t _ m)]|].
      apply Forall_cons_2; [|done]. split; [done|]. by apply emptied_ok.
Qed.

(** ** The invariant of the generator *)

(** After [n] calls. The last two facts bound the debt: every report is paid for by
    a call that received a packet for it. *)
Record gen_ok (n : Z) (g : CongestionControlFeedbackGenerator) : Prop := {
  gen_config : config_ok g;
  gen_trackers : trackers_ok (65535 + 32768 * n) (feedback_trackers_ g);
  gen_times : moment (last_feedback_sent_time_ g) ∧
    last_feedback_sent_time_ g ≤ next_possible_feedback_send_time_ g ≤ horizon + 10 ^ 9;
  gen_first : ∀ t, first_arrival_time_since_feedback_ g = Some t → moment t;
  gen_debt : 0 ≤ send_rate_debt_ g;
  gen_bound : send_rate_debt_ g + 32776 * Z.of_nat (pending (feedback_trackers_ g)) ≤ 40000 * n;
}.

(** The calls before the debt could overflow. *)
Definition calls_ok (n : Z) : Prop := 0 ≤ n ≤ 24 * 10 ^ 6.

Lemma new_generator_ok a b c :
  0 ≤ a ≤ c → c ≤ 10 ^ 9 → 0 ≤ b ≤ 10 ^ 9 → gen_ok 0 (new_generator a b c).
Proof.
  intros Ha Hc Hb. split; cbn; unfold config_ok, moment, horizon; cbn; try done; try lia.
  split; [constructor|apply Forall_nil_2].
Qed.

Lemma reports_size gs : Forall report gs →
  Z.of_nat (length (concat (map encode_report gs))) ≤ 32776 * Z.of_nat (length gs).
Proof.
  induction 1 as [|g gs Hg _ IH]; [done|]. cbn [map concat length]. rewrite length_app.
  destruct Hg as (_ & _ & _ & _ & Hl & _). rewrite length_encode_report by lia.
  destruct (Nat.odd (length g)) eqn:E; [|lia].
  apply Nat.odd_spec in E as [j Hj]. lia.
Qed.

Definition feedback_size (gs : list (list PacketInfo)) : Z :=
  12 + Z.of_nat (length (concat (map encode_report gs))).

(** The generator after a feedback at [now] of [size] bytes. *)
Definition after_feedback (g : CongestionControlFeedbackGenerator)
    (m : list (Z * CongestionControlFeedbackTracker)) (size now : Z) :=
  let debt := remaining (send_rate_debt_ g) (now - last_feedback_sent_time_ g) + size in
  mkGen (min_time_between_feedback_ g) (max_time_to_wait_for_packet_with_marker_ g)
    (max_time_between_feedback_ g) debt m now None false (now + wait g debt).

Lemma after_feedback_ok n g m' size now : gen_ok n g → calls_ok n → moment now →
  next_possible_feedback_send_time_ g ≤ now → trackers_ok (65535 + 32768 * n) m' →
  pending m' = 0%nat →
  0 ≤ size ≤ 12 + 32776 * Z.of_nat (pending (feedback_trackers_ g)) →
  gen_ok (n + 1) (after_feedback g m' size now).
Proof.
  intros [Hc Ht Htm Hf Hd Hb] Hn Hnow Hnext Hm' Hp' Hs. unfold after_feedback, moment in *.
  set (debt := remaining _ _ + _).
  assert (0 ≤ (now - last_feedback_sent_time_ g + 8) / 16) by (apply Z.div_pos; lia).
  assert (0 ≤ debt ≤ send_rate_debt_ g + size) by (unfold debt, remaining; lia).
  assert (0 ≤ wait g debt ≤ 10 ^ 9) by (unfold wait; destruct Hc as (? & ? & _); lia).
  clearbody debt.
  split; cbn [send_rate_debt_ feedback_trackers_ last_feedback_sent_time_
    first_arrival_time_since_feedback_ next_possible_feedback_send_time_].
  - exact Hc.
  - apply (trackers_le (65535 + 32768 * n)); [done|lia].
  - unfold moment. lia.
  - done.
  - lia.
  - rewrite Hp'. lia.
Qed.

Lemma SendFeedback_eq g now m' gs : config_ok g → moment now →
  collect c_sort now (feedback_trackers_ g) [] = Some (m', concat gs) → reports_ok gs →
  next_possible_feedback_send_time_ g ≤ now → 0 ≤ last_feedback_sent_time_ g ≤ now →
  0 ≤ send_rate_debt_ g → send_rate_debt_ g + feedback_size gs ≤ 10 ^ 12 →
  SendFeedback c_sort ConvertTimestampToNtpTime g now =
    Some (after_feedback g m' (feedback_size gs) now,
          mkFeedback 0 (concat gs) (CompactNtp (ConvertTimestampToNtpTime now))).
Proof.
  intros Hc Hnow E Hr Hnext Hl Hd Hb.
  assert (H0 : 0 ≤ feedback_size gs) by (unfold feedback_size; lia).
  unfold SendFeedback. eapply bind_eq; [by rewrite (proj2 (Z.leb_le _ _) Hnext)|].
  eapply bind_eq; [exact E|]. eapply bind_eq; [by apply BlockLength_ok|].
  eapply bind_eq; [apply FromValue_ok|].
  { lia. }
  { unfold finite, PlusInfinity, MinusInfinity, feedback_size in *. lia. }
  replace (Z.of_nat (12 + _)) with (feedback_size gs) by (unfold feedback_size; lia).
  eapply bind_eq; [by apply CalculateNext_ok|]. done.
Qed.

Lemma SendFeedback_ok n g now : gen_ok n g → calls_ok n → moment now →
  next_possible_feedback_send_time_ g ≤ now →
  ∃ m' gs, collected now (feedback_trackers_ g) m' gs ∧ reports_ok gs ∧
    SendFeedback c_sort ConvertTimestampToNtpTime g now =
      Some (after_feedback g m' (feedback_size gs) now,
            mkFeedback 0 (concat gs) (CompactNtp (ConvertTimestampToNtpTime now))) ∧
    gen_ok (n + 1) (after_feedback g m' (feedback_size gs) now).
Proof using Type*.
  intros Hg Hn Hnow Hnext. assert (H := Hg). destruct H as [Hc Ht Htm _ Hd Hb].
  assert (Hn' : 0 ≤ n ≤ 24000000) by done.
  assert (Hnow' : 0 ≤ now ≤ 10000000000000) by done.
  destruct (collect_ok (65535 + 32768 * n) now (feedback_trackers_ g) []) as (m' & gs & E & Hco & Hm');
    [done|unfold small; lia|unfold PlusInfinity; lia|].
  pose proof (collected_reports _ _ _ _ Hco (proj1 Ht)) as Hr.
  destruct (collected_pending _ _ _ _ Hco (proj1 Ht)) as (Hlen & Hp' & _).
  pose proof (reports_size gs (proj1 Hr)) as Hsz.
  assert (Hfs : 0 ≤ feedback_size gs ≤ 12 + 32776 * Z.of_nat (pending (feedback_trackers_ g)))
    by (unfold feedback_size; lia).
  exists m', gs. split; [done|]. split; [done|]. split; [|by apply after_feedback_ok].
  unfold moment in Htm. by apply SendFeedback_eq; try lia.
Qed.

(** ** The operations *)

Lemma NextFeedbackTime_ok n g clock : gen_ok n g → moment clock →
  ∃ t, NextFeedbackTime g clock = Some t ∧
    next_possible_feedback_send_time_ g ≤ t ≤ horizon + 10 ^ 9 ∧
    (first_arrival_time_since_feedback_ g = None → clock + min_time_between_feedback_ g ≤ t).
Proof.
  intros [Hc _ Htm Hf _ _] Hcl. unfold NextFeedbackTime, config_ok, moment, horizon in *.
  destruct (first_arrival_time_since_feedback_ g) as [first|].
  - specialize (Hf first eq_refl). destruct (negb _).
    + rewrite ts_add_ok by (unfold finite, PlusInfinity, MinusInfinity; lia). cbn [mbind option_bind].
      eexists. split; [reflexivity|]. split; [lia|done].
    + eexists. split; [reflexivity|]. split; [lia|done].
  - rewrite ts_add_ok by (unfold finite, PlusInfinity, MinusInfinity; lia). cbn [mbind option_bind].
    eexists. split; [reflexivity|]. split; [lia|]. intros _. lia.
Qed.

Lemma gen_ok_le n n' g : gen_ok n g → n ≤ n' → gen_ok n' g.
Proof.
  intros [] Hn. split; try done; [|lia].
  apply (trackers_le (65535 + 32768 * n)); [done|lia].
Qed.

(** The bookkeeping for a received packet. *)
Definition noted (self : CongestionControlFeedbackGenerator) (packet : RtpPacketReceived) :=
  mkGen (min_time_between_feedback_ self)
    (max_time_to_wait_for_packet_with_marker_ self) (max_time_between_feedback_ self)
    (send_rate_debt_ self)
    (at_ssrc (Ssrc packet) (λ t, ReceivedPacket t packet) (feedback_trackers_ self))
    (last_feedback_sent_time_ self)
    (match first_arrival_time_since_feedback_ self with
     | None => Some (rtp_arrival_time packet)
     | Some first => Some first
     end)
    (marker_bit_seen_ self || Marker packet) (next_possible_feedback_send_time_ self).

(** What arrives from the network: a packet of any stream, not from the future. *)
Definition arrival_ok (packet : RtpPacketReceived) (clock : Z) : Prop :=
  uint32 (Ssrc packet) ∧ uint16 (SequenceNumber packet) ∧
  0 ≤ rtp_arrival_time packet ≤ clock ∧ clock ≤ horizon.

Lemma noted_ok n g packet clock : gen_ok n g → calls_ok n → arrival_ok packet clock →
  gen_ok (n + 1) (noted g packet).
Proof.
  intros [Hc Ht Htm Hf Hd Hb] Hn (Hs & Hq & Ha & Hcl). unfold horizon in Hcl.
  split; cbn [noted send_rate_debt_ feedback_trackers_ last_feedback_sent_time_
    first_arrival_time_since_feedback_ next_possible_feedback_send_time_]; try done.
  - replace (65535 + 32768 * (n + 1)) with (65535 + 32768 * n + 32768) by lia.
    apply at_ssrc_ok; try done.
    + unfold small, calls_ok in *. lia.
    + split; [done|]. split; [done|]. unfold PlusInfinity. lia.
  - intros t. destruct (first_arrival_time_since_feedback_ g) as [f|]; [by apply Hf|].
    intros [= <-]. unfold moment, horizon. lia.
  - pose proof (pending_at_ssrc (Ssrc packet) (λ t, ReceivedPacket t packet) (feedback_trackers_ g)).
    lia.
Qed.

(** A feedback that was sent at [t] by a generator in state [g], and the state it left. *)
Definition sent_ok (g : CongestionControlFeedbackGenerator) (t : Z)
    (f : CongestionControlFeedback) (g' : CongestionControlFeedbackGenerator) : Prop :=
  ∃ m' gs, collected t (feedback_trackers_ g) m' gs ∧ reports_ok gs ∧
    f = mkFeedback 0 (concat gs) (CompactNtp (ConvertTimestampToNtpTime t)) ∧
    next_possible_feedback_send_time_ g ≤ t ∧ g' = after_feedback g m' (feedback_size gs) t.

(** Receiving a packet: it is noted; a feedback is sent exactly when it is due
    before the packet's arrival time. *)
Lemma OnReceivedPacket_ok n g packet clock :
  gen_ok n g → calls_ok (n + 1) → 0 ≤ n → arrival_ok packet clock →
  wp (OnReceivedPacket c_sort ConvertTimestampToNtpTime g packet clock) (λ '(g', sent),
    gen_ok (n + 2) g' ∧
    ∃ next, NextFeedbackTime (noted g packet) clock = Some next ∧
      match sent with
      | None => rtp_arrival_time packet ≤ next ∧ g' = noted g packet
      | Some f => next < rtp_arrival_time packet ∧ sent_ok (noted g packet) clock f g'
      end).
Proof using Type*.
  intros Hg Hn H0 Ha. assert (H1 := noted_ok n g packet clock Hg ltac:(unfold calls_ok in *; lia) Ha).
  unfold OnReceivedPacket. fold (noted g packet). cbv zeta.
  assert (Hcl : moment clock) by (destruct Ha as (_ & _ & ? & ?); unfold moment, horizon in *; lia).
  destruct (NextFeedbackTime_ok _ _ clock H1 Hcl) as (next & E & Hnext & _). rewrite E.
  cbn [mbind option_bind]. destruct (Z.ltb_spec next (rtp_arrival_time packet)) as [Hlt|Hge].
  - destruct Ha as (_ & _ & Ha & _).
    destruct (SendFeedback_ok (n + 1) (noted g packet) clock) as (m' & gs & Hco & Hr & Es & Hok);
      [done|done|done|lia|]. rewrite Es. cbn [mbind option_bind wp].
    split; [by replace (n + 2) with (n + 1 + 1) by lia|]. exists next. split; [done|].
    split; [done|]. exists m', gs. split_and!; try done. lia.
  - cbn [wp]. split; [|by exists next]. apply (gen_ok_le (n + 1)); [done|lia].
Qed.

Lemma Process_ok n g now clock clock' :
  gen_ok n g → calls_ok n → moment now → moment clock → moment clock' →
  wp (Process c_sort ConvertTimestampToNtpTime g now clock clock') (λ '(g', sent, delay),
    gen_ok (n + 1) g' ∧
    (∃ next, NextFeedbackTime g clock = Some next ∧
      match sent with
      | None => now < next ∧ g' = g
      | Some f => next ≤ now ∧ sent_ok g now f g'
      end) ∧
    NextFeedbackTime g' clock' = Some (now + delay) ∧
    (sent ≠ None → clock' + min_time_between_feedback_ g ≤ now + delay)).
Proof using Type*.
  intros Hg Hn Hnow Hcl Hcl'. unfold Process.
  destruct (NextFeedbackTime_ok _ _ clock Hg Hcl) as (next & E & Hnext & _). rewrite E.
  cbn [mbind option_bind].
  assert (Hend : ∀ g' (sent : option CongestionControlFeedback), gen_ok (n + 1) g' →
    ∃ t, (next ← NextFeedbackTime g' clock'; delay ← ts_diff next now; Some (g', sent, delay)) =
      Some (g', sent, t - now) ∧ NextFeedbackTime g' clock' = Some t ∧
      (first_arrival_time_since_feedback_ g' = None → clock' + min_time_between_feedback_ g' ≤ t)).
  { intros g' sent Hg'. destruct (NextFeedbackTime_ok _ _ clock' Hg' Hcl') as (t & E' & Ht & Hmin).
    exists t. split; [|done]. eapply bind_eq; [exact E'|]. eapply bind_eq; [|done].
    destruct Hg' as [_ _ Htm _ _ _].
    apply ts_diff_ok; unfold finite, PlusInfinity, MinusInfinity, moment, horizon in *; lia. }
  destruct (Z.leb_spec next now) as [Hle|Hgt].
  - destruct (SendFeedback_ok n g now) as (m' & gs & Hco & Hr & Es & Hok); [done|done|done|lia|].
    rewrite Es. cbn [mbind option_bind].
    destruct (Hend _ (Some (mkFeedback 0 (concat gs) (CompactNtp (ConvertTimestampToNtpTime now)))) Hok)
      as (t & -> & E' & Hmin).
    cbn [wp]. replace (now + (t - now)) with t by lia. split_and!; [done| |done|].
    + exists next. split_and!; [done|done|]. exists m', gs. split_and!; try done. lia.
    + intros _. by apply Hmin.
  - cbn [mbind option_bind].
    destruct (Hend g None ltac:(apply (gen_ok_le n); [done|lia])) as (t & -> & E' & _).
    cbn [wp]. replace (now + (t - now)) with t by lia. split_and!; try done.
    + apply (gen_ok_le n); [done|lia].
    + by exists next.
Qed.

(** ** Sessions *)

Inductive event :=
| Packet (packet : RtpPacketReceived) (clock : Z)
| Timer (now clock clock' : Z).

Definition event_ok (e : event) : Prop :=
  match e with
  | Packet packet clock => arrival_ok packet clock
  | Timer now clock clock' => moment now ∧ moment clock ∧ moment clock'
  end.

(** The feedback sent by an event, with its time. *)
Definition step (g : CongestionControlFeedbackGenerator) (e : event)
  : option (CongestionControlFeedbackGenerator * list (Z * CongestionControlFeedback)) :=
  match e with
  | Packet packet clock =>
      '(g, sent) ← OnReceivedPacket c_sort ConvertTimestampToNtpTime g packet clock;
      Some (g, match sent with Some f => [(clock, f)] | None => [] end)
  | Timer now clock clock' =>
      '(g, sent, _) ← Process c_sort ConvertTimestampToNtpTime g now clock clock';
      Some (g, match sent with Some f => [(now, f)] | None => [] end)
  end.

Fixpoint session (g : CongestionControlFeedbackGenerator) (es : list event)
  : option (CongestionControlFeedbackGenerator * list (Z * CongestionControlFeedback)) :=
  match es with
  | [] => Some (g, [])
  | e :: es =>
      '(g, out) ← step g e;
      '(g, outs) ← session g es;
      Some (g, out ++ outs)
  end.

Definition size_of (f : CongestionControlFeedback) : Z :=
  match BlockLength (packets_ f) with Some n => Z.of_nat n | None => 0 end.

(** Each feedback waits for the previous one. *)
Fixpoint spaced (g : CongestionControlFeedbackGenerator) (next : Z)
    (outs : list (Z * CongestionControlFeedback)) : Prop :=
  match outs with
  | [] => True
  | (t, f) :: outs => next ≤ t ∧ spaced g (t + wait g (size_of f)) outs
  end.

(** A feedback that can be serialised: it consists of well-formed reports. *)
Definition well_formed (f : CongestionControlFeedback) : Prop :=
  uint32 (report_timestamp_compact_ntp_ f) ∧
  ∃ gs, packets_ f = concat gs ∧ reports_ok gs.

Lemma size_of_reports f gs : packets_ f = concat gs → reports_ok gs → size_of f = feedback_size gs.
Proof.
  intros E Hr. unfold size_of. rewrite E, BlockLength_ok by done. unfold feedback_size. lia.
Qed.

Lemma CompactNtp_range ntp : uint32 (CompactNtp ntp).
Proof. destruct ntp. apply u32_range. Qed.

Definition same_config (g g' : CongestionControlFeedbackGenerator) : Prop :=
  min_time_between_feedback_ g' = min_time_between_feedback_ g ∧
  max_time_between_feedback_ g' = max_time_between_feedback_ g.

Lemma wait_config g g' d : same_config g g' → wait g' d = wait g d.
Proof. intros [H1 H2]. unfold wait. by rewrite H1, H2. Qed.

Lemma spaced_config g g' next outs : same_config g g' → spaced g' next outs → spaced g next outs.
Proof.
  intros Hc. revert next. induction outs as [|[t f] outs IH]; intros next; [done|].
  cbn [spaced]. rewrite (wait_config g g') by done. intros [? ?]. auto.
Qed.

Lemma spaced_le g a b outs : a ≤ b → spaced g b outs → spaced g a outs.
Proof. destruct outs as [|[t f] outs]; [done|]. cbn. intros ? [? ?]. split; [lia|done]. Qed.

(** What a feedback leaves behind keeps the next one away. *)
Lemma sent_ok_spaced g t f g' : sent_ok g t f g' →
  well_formed f ∧ same_config g g' ∧ next_possible_feedback_send_time_ g ≤ t ∧
  t + wait g (size_of f) ≤ next_possible_feedback_send_time_ g'.
Proof.
  intros (m' & gs & _ & Hr & -> & Hn & ->). split_and!; try done.
  - split; [apply CompactNtp_range|]. by exists gs.
  - rewrite (size_of_reports _ gs) by done. unfold after_feedback. cbn [next_possible_feedback_send_time_].
    unfold wait, remaining. lia.
Qed.

Lemma step_ok n g e : gen_ok n g → 0 ≤ n → calls_ok (n + 1) → event_ok e →
  wp (step g e) (λ '(g', out), gen_ok (n + 2) g' ∧ same_config g g' ∧
    Forall (λ tf, well_formed tf.2) out ∧
    ∀ outs, spaced g (next_possible_feedback_send_time_ g') outs →
      spaced g (next_possible_feedback_send_time_ g) (out ++ outs)).
Proof using Type*.
  intros Hg H0 Hn He. unfold step. destruct e as [packet clock|now clock clock']; apply wp_bind.
  - wp_call (by apply OnReceivedPacket_ok). intros [g' sent] (Hg' & next & _ & Hs).
    destruct sent as [f|]; cbn [wp].
    + destruct Hs as (_ & (W & C & S1 & S2)%sent_ok_spaced).
      split_and!; [done|done|by apply Forall_cons_2; [|apply Forall_nil_2]|].
      intros outs Ho. cbn. split; [done|]. exact (spaced_le _ _ _ _ S2 Ho).
    + destruct Hs as (_ & ->). split_and!; [done|done|by apply Forall_nil_2|done].
  - destruct He as (? & ? & ?).
    wp_call (apply Process_ok; [done|unfold calls_ok in *; lia|done..]).
    intros [[g' sent] delay] (Hg' & (next & _ & Hs) & _).
    destruct sent as [f|]; cbn [wp].
    + destruct Hs as (_ & (W & C & S1 & S2)%sent_ok_spaced).
      split_and!; [apply (gen_ok_le (n + 1)); [done|lia]|done|by apply Forall_cons_2; [|apply Forall_nil_2]|].
      intros outs Ho. cbn. split; [done|]. exact (spaced_le _ _ _ _ S2 Ho).
    + destruct Hs as (_ & ->).
      split_and!; [apply (gen_ok_le (n + 1)); [done|lia]|done|by apply Forall_nil_2|done].
Qed.

Lemma session_ok n g es : gen_ok n g → 0 ≤ n → calls_ok (n + 2 * Z.of_nat (length es)) →
  Forall event_ok es →
  wp (session g es) (λ '(g', outs), gen_ok (n + 2 * Z.of_nat (length es)) g' ∧
    Forall (λ tf, well_formed tf.2) outs ∧ spaced g (next_possible_feedback_send_time_ g) outs).
Proof using Type*.
  intros Hg H0 Hn He. revert n g Hg H0 Hn. induction He as [|e es He _ IH]; intros n g Hg H0 Hn.
  { cbn [session wp]. split_and!; [|by apply Forall_nil_2|done]. by replace (n + _) with n by (cbn; lia). }
  cbn [session length] in *. rewrite Nat2Z.inj_succ in *.
  apply wp_bind. wp_call (apply (step_ok n); [done|done|unfold calls_ok in *; lia|done]).
  intros [g1 out] (Hg1 & Hc & Hw & Hsp).
  apply wp_bind. wp_call (apply (IH (n + 2) g1); [done|lia|unfold calls_ok in *; lia]).
  intros [g2 outs] (Hg2 & Hw2 & Hsp2). cbn [wp]. split_and!.
  - by replace (n + 2 * Z.succ (Z.of_nat (length es))) with (n + 2 + 2 * Z.of_nat (length es)) by lia.
  - by apply Forall_app_2.
  - apply Hsp. by apply (spaced_config g g1).
Qed.

End generator.

(** ** The rate *)



(** Waiting does not bring the next feedback forward. *)
Lemma NextFeedbackTime_mono n g clock clock' next next' : clock ≤ clock' → moment clock → moment clock' →
  gen_ok n g → NextFeedbackTime g clock = Some next → NextFeedbackTime g clock' = Some next' →
  next ≤ next'.
Proof.
  intros Hle Hc Hc' [Hcf _ _ _ _ _]. unfold NextFeedbackTime, config_ok, moment, horizon in *.
  destruct (first_arrival_time_since_feedback_ g); [intros -> [= ->]; done|].
  rewrite !ts_add_ok by (unfold finite, PlusInfinity, MinusInfinity; lia). cbn [mbind option_bind].
  intros [= <-] [= <-]. lia.
Qed.









(** When feedback is sent, and what the timer is told. [Process] sends feedback
    exactly when the time for it has come, and what it sends reports, in the order
    of the streams, every packet received since the last feedback. The delay it
    returns leads to the next such time; if the clock is not behind [now] and the
    minimum interval is not zero it is positive, so that the caller does not
    spin. *)
Theorem Process_due (c_sort : list Received → list Received) (ntp : Z → Z * Z)
    (n : Z) (g : CongestionControlFeedbackGenerator) (now clock clock' : Z) :
  Sorts c_sort → gen_ok n g → calls_ok n → moment now → moment clock → moment clock' →
  clock ≤ clock' →
  wp (Process c_sort ntp g now clock clock') (λ '(g', sent, delay),
    gen_ok (n + 1) g' ∧
    (∃ next, NextFeedbackTime g clock = Some next ∧
      match sent with
      | None => now < next ∧ g' = g
      | Some f => next ≤ now ∧ sent_ok ntp g now f g'
      end) ∧
    NextFeedbackTime g' clock' = Some (now + delay) ∧
    (now ≤ clock' → 0 < min_time_between_feedback_ g → 0 < delay)).
Proof.
  intros Hs Hg Hn Hnow Hcl Hcl' Hle. wp_call (by apply (Process_ok c_sort ntp n)).
  intros [[g' sent] delay] (Hg' & (next & E & Hm) & E' & Hd). split_and!; [done|by exists next|done|].
  intros Hnc Hmin. destruct sent as [f|].
  - specialize (Hd ltac:(done)). lia.
  - destruct Hm as [Hlt ->].
    pose proof (NextFeedbackTime_mono n g clock clock' next (now + delay) Hle Hcl Hcl' Hg E E'). lia.
Qed.

Definition example_generator : CongestionControlFeedbackGenerator :=
  noted (noted (new_generator 25000 25000 500000) (mkRtp 65535 7 1000 kEct1 false))
    (mkRtp 3 9 1200 kCe false).

Lemma example_generator_ok : gen_ok 2 example_generator.
Proof.
  apply (noted_ok 1 _ _ 1300);
    [apply (noted_ok 0 _ _ 1300); [apply new_generator_ok; lia|..]|..];
    unfold calls_ok, arrival_ok, horizon, uint32, uint16; cbn; lia.
Qed.

Lemma Process_due_witness :
  wp (Process (merge_sort in_order) (λ t, (t / 1000000, 0)) example_generator 30000 30000 30010)
    (λ '(g', sent, delay),
    gen_ok (2 + 1) g' ∧
    (∃ next, NextFeedbackTime example_generator 30000 = Some next ∧
      match sent with
      | None => 30000 < next ∧ g' = example_generator
      | Some f => next ≤ 30000 ∧ sent_ok (λ t, (t / 1000000, 0)) example_generator 30000 f g'
      end) ∧
    NextFeedbackTime g' 30010 = Some (30000 + delay) ∧
    (30000 ≤ 30010 → 0 < min_time_between_feedback_ example_generator → 0 < delay)).
Proof.
  apply (Process_due (merge_sort in_order) (λ t, (t / 1000000, 0)) 2 example_generator
           30000 30000 30010);
    [apply _|apply example_generator_ok|unfold calls_ok; lia|unfold moment, horizon; lia..|lia].
Defined.

(** A received packet is noted for its stream, with the time of the first packet
    and the marker bit, and feedback is sent with it exactly when it was due before
    the packet's arrival. *)
Theorem OnReceivedPacket_correct (c_sort : list Received → list Received) (ntp : Z → Z * Z)
    (n : Z) (g : CongestionControlFeedbackGenerator) (packet : RtpPacketReceived) (clock : Z) :
  Sorts c_sort → gen_ok n g → 0 ≤ n → calls_ok (n + 1) → arrival_ok packet clock →
  wp (OnReceivedPacket c_sort ntp g packet clock) (λ '(g', sent),
    gen_ok (n + 2) g' ∧
    ∃ next, NextFeedbackTime (noted g packet) clock = Some next ∧
      match sent with
      | None => rtp_arrival_time packet ≤ next ∧ g' = noted g packet
      | Some f => next < rtp_arrival_time packet ∧ sent_ok ntp (noted g packet) clock f g'
      end).
Proof. intros Hs Hg H0 Hn Ha. by apply OnReceivedPacket_ok. Qed.

Lemma OnReceivedPacket_correct_witness :
  wp (OnReceivedPacket (merge_sort in_order) (λ t, (t / 1000000, 0)) example_generator
        (mkRtp 4 9 1400 kEct1 true) 1500) (λ '(g', sent),
    gen_ok (2 + 2) g' ∧
    ∃ next, NextFeedbackTime (noted example_generator (mkRtp 4 9 1400 kEct1 true)) 1500 = Some next ∧
      match sent with
      | None => 1400 ≤ next ∧ g' = noted example_generator (mkRtp 4 9 1400 kEct1 true)
      | Some f => next < 1400 ∧
          sent_ok (λ t, (t / 1000000, 0)) (noted example_generator (mkRtp 4 9 1400 kEct1 true)) 1500 f g'
      end).
Proof.
  apply (OnReceivedPacket_correct (merge_sort in_order) (λ t, (t / 1000000, 0)) 2 example_generator
           (mkRtp 4 9 1400 kEct1 true) 1500);
    [apply _|apply example_generator_ok|lia|unfold calls_ok; lia|].
  unfold arrival_ok, horizon, uint32, uint16; cbn; lia.
Defined.

(** From the received packets to the other end. What [SendFeedback] hands to the
    RTCP sender, with any sender SSRC, is written by [Create] and read back by the
    parser at the other end as the same reports: the packets collected from the
    trackers, each with its offset at a resolution of 1/1024 s. *)
Theorem feedback_end_to_end (c_sort : list Received → list Received) (ntp : Z → Z * Z)
    (n : Z) (g : CongestionControlFeedbackGenerator) (now sender : Z) (buf : list Z) (callback : bool) :
  Sorts c_sort → gen_ok n g → calls_ok n → moment now →
  next_possible_feedback_send_time_ g ≤ now → uint32 sender →
  Z.of_nat (pending (feedback_trackers_ g)) ≤ 7 → 229444 ≤ Z.of_nat (length buf) →
  wp ('(g', f) ← SendFeedback c_sort ntp g now;
      let f := mkFeedback sender (packets_ f) (report_timestamp_compact_ntp_ f) in
      '(ok, buf', p', _) ← Create f buf 0 (length buf) callback;
      h ← ParseHeader buf' 0 (p' - 0);
      match h with Some h => Parse new_feedback buf' h | None => None end)
     (λ '(ok, received), ok = true ∧ sender_ssrc received = sender ∧
        ∃ m' gs, collected now (feedback_trackers_ g) m' gs ∧
          packets_ received = map reported (concat gs)).
Proof.
  intros Hs Hg Hn Hnow Hnext Hsend Hpend Hbuf.
  destruct (SendFeedback_ok c_sort ntp n g now) as (m' & gs & Hco & Hr & E & _); try done.
  rewrite E. cbn [mbind option_bind packets_ report_timestamp_compact_ntp_].
  pose proof (reports_size gs (proj1 Hr)) as Hsz.
  destruct (collected_pending _ _ _ _ Hco (proj1 (gen_trackers _ _ Hg))) as (Hlen & _).
  wp_call (apply (written_and_read _ gs); try done; cbn [packets_ sender_ssrc
    report_timestamp_compact_ntp_]; [lia|apply CompactNtp_range|rewrite length_encode; lia]).
  intros [ok fb] (-> & E1 & _ & E2). split_and!; [done|done|]. by exists m', gs.
Qed.

Lemma feedback_end_to_end_witness :
  let ntp := λ t : Z, (t / 1000000, 0) in
  let buf := replicate (Z.to_nat 229444) 0 in
  wp ('(g', f) ← SendFeedback (merge_sort in_order) ntp example_generator 30000;
      let f := mkFeedback 77 (packets_ f) (report_timestamp_compact_ntp_ f) in
      '(ok, buf', p', _) ← Create f buf 0 (length buf) false;
      h ← ParseHeader buf' 0 (p' - 0);
      match h with Some h => Parse new_feedback buf' h | None => None end)
     (λ '(ok, received), ok = true ∧ sender_ssrc received = 77 ∧
        ∃ m' gs, collected 30000 (feedback_trackers_ example_generator) m' gs ∧
          packets_ received = map reported (concat gs)).
Proof.
  intros ntp buf. apply (feedback_end_to_end (merge_sort in_order) ntp 2 example_generator 30000 77 buf false);
    [apply _|apply example_generator_ok|unfold calls_ok; lia|unfold moment, horizon; lia
    |by vm_compute|unfold uint32; lia|by vm_compute|].
  unfold buf. rewrite length_replicate. lia.
Defined.

(** A long uptime overflows the debt. The time since the last feedback is counted
    from zero for the first one; on a host whose monotonic clock has run for more
    than 213 days (and less than 427) its product with the rate exceeds 64 bits, and
    the first feedback fails the debug check of a negative data size. *)
Theorem first_feedback_overflow (g : CongestionControlFeedbackGenerator) (size now : Z) :
  last_feedback_sent_time_ g = 0 → 18446744073710 ≤ now ≤ 36893488147395 →
  CalculateNextPossibleSendTime g size now = None.
Proof.
  intros E Hn. unfold CalculateNextPossibleSendTime. rewrite E.
  rewrite ts_diff_ok by (unfold finite, PlusInfinity, MinusInfinity; lia). cbn [mbind option_bind].
  rewrite Z.sub_0_r. unfold rate_mul, kMaxFeedbackRate.
  rewrite !ToValue_ok by (unfold finite, PlusInfinity, MinusInfinity; lia). cbn [mbind option_bind].
  assert (s64 (500000 * now) = 500000 * now - 18446744073709551616) as ->.
  { unfold s64. rewrite <- (Z_mod_plus_full (500000 * now + 9223372036854775808) (-1)).
    rewrite Z.mod_small by lia. lia. }
  rewrite s64_id by (unfold int64; lia).
  unfold Bytes, FromValue. cbn [negb orb].
  rewrite (proj2 (Z.leb_gt 0 _)); [done|].
  apply Z.opp_pos_neg. rewrite <- Z.quot_opp_l by done. apply Z.quot_str_pos. lia.
Qed.

Lemma first_feedback_overflow_witness :
  CalculateNextPossibleSendTime example_generator 32 20000000000000 = None.
Proof. apply (first_feedback_overflow example_generator 32 20000000000000); [done|lia]. Defined.

(** Eight streams, each with two packets 16383 apart. *)
Definition wide_streams : list event :=
  [1; 2; 3; 4; 5; 6; 7; 8] ≫= λ s : Z,
    [Packet (mkRtp 0 s 1000 kEct1 false) 1000; Packet (mkRtp 16383 s 1001 kEct1 false) 1001].

(** The generator after the packets. *)
Definition wide_state : CongestionControlFeedbackGenerator :=
  Eval vm_compute in
  match session (merge_sort in_order) (λ t, (t / 1000000, 0)) (new_generator 25000 25000 500000) wide_streams with
  | Some (g, _) => g
  | None => new_generator 25000 25000 500000
  end.

Lemma wide_state_ok : gen_ok (2 * 16) wide_state.
Proof.
  pose proof (session_ok (merge_sort in_order) (λ t, (t / 1000000, 0)) 0 (new_generator 25000 25000 500000)
    wide_streams) as H.
  assert (E : session (merge_sort in_order) (λ t, (t / 1000000, 0)) (new_generator 25000 25000 500000)
    wide_streams = Some (wide_state, [])) by (by vm_compute).
  rewrite E in H. apply H; [apply new_generator_ok; lia|lia|unfold calls_ok; cbn; lia|].
  repeat apply Forall_cons_2; try apply Forall_nil_2; cbn;
    unfold arrival_ok, horizon, uint32, uint16; cbn; lia.
Qed.

(** The report about one of the streams. *)
Lemma wide_report t lo hi (new : list PacketInfo) : last_sequence_number_in_feedback_ t = None →
  map unwrapped_sequence_number (received_ t) = [0; 16383] → starts t lo → largest (received_ t) hi →
  Z.of_nat (length new) = Z.min (hi - lo) kMaxPacketsPerSsrc → Z.of_nat (length new) = 16384.
Proof.
  unfold starts, largest. intros -> E Hlo Hhi ->. destruct (received_ t) as [|p [|q [|? ?]]]; try done.
  cbn in E. injection E as Ep Eq. destruct Hlo as [(x & Hx & Ex) Hlo], Hhi as [(y & Hy & Ey) Hhi].
  pose proof (Hlo p ltac:(left)). pose proof (Hlo q ltac:(right; left)).
  pose proof (Hhi p ltac:(left)). pose proof (Hhi q ltac:(right; left)).
  rewrite !elem_of_cons, elem_of_nil in Hx, Hy. unfold kMaxPacketsPerSsrc.
  destruct Hx as [->|[->|[]]], Hy as [->|[->|[]]]; lia.
Qed.

Lemma wide_reports now m m' gs : collected now m m' gs →
  Forall (λ kt, last_sequence_number_in_feedback_ kt.2 = None ∧
    map unwrapped_sequence_number (received_ kt.2) = [0; 16383]) m →
  length gs = length m ∧ Forall (λ g, Z.of_nat (length g) = 16384) gs.
Proof.
  induction 1 as [|k t m m' gs E _ _|k t m m' gs lo hi new H1 H2 H3 _ _ _ _ IH]; [done| |];
    intros [[Hl Hr] Hm]%Forall_cons_1; cbn [snd] in *; [by rewrite E in Hr|].
  destruct (IH Hm) as [Hlen HF]. split; [cbn; lia|]. apply Forall_cons_2; [|done].
  by apply (wide_report t lo hi new).
Qed.

(** Reports of full length. *)
Lemma full_reports_size gs : Forall (λ g : list PacketInfo, Z.of_nat (length g) = 16384) gs →
  Z.of_nat (length (concat (map encode_report gs))) = 32776 * Z.of_nat (length gs).
Proof.
  induction 1 as [|g gs Hg _ IH]; [done|]. cbn [map concat length]. rewrite length_app, Nat2Z.inj_add, IH.
  rewrite length_encode_report by lia.
  assert (Nat.odd (length g) = false) as ->.
  { replace (length g) with (2 * Z.to_nat 8192)%nat by lia. rewrite Nat.odd_mul. done. }
  lia.
Qed.

(** The length of a message is not limited to what an RTCP header can express. After 16
    packets, two of each of eight streams with the sequence numbers 0 and 16383, the
    generator sends a feedback of 262220 bytes, and [Create] fails the check of the
    header's length on it, in every buffer with room for it. *)
Theorem oversized_feedback :
  session (merge_sort in_order) (λ t, (t / 1000000, 0)) (new_generator 25000 25000 500000) wide_streams =
    Some (wide_state, []) ∧
  ∃ g f, SendFeedback (merge_sort in_order) (λ t, (t / 1000000, 0)) wide_state 30000 = Some (g, f) ∧
    ∀ buf pos max_length callback, Z.of_nat pos + 262220 ≤ Z.of_nat max_length →
      Create f buf pos max_length callback = None.
Proof.
  split; [by vm_compute|].
  destruct (SendFeedback_ok (merge_sort in_order) (λ t, (t / 1000000, 0)) (2 * 16) wide_state 30000)
    as (m' & gs & Hco & Hr & -> & _); [apply wide_state_ok|unfold calls_ok; lia|unfold moment, horizon; lia|by vm_compute|].
  eexists _, _. split; [done|]. intros buf pos max_length callback Hm.
  destruct (wide_reports _ _ _ _ Hco) as [Hl HF].
  { repeat apply Forall_cons_2; try apply Forall_nil_2; by split. }
  pose proof (full_reports_size gs HF) as Hsz. rewrite Hl in Hsz.
  change (length (feedback_trackers_ wide_state)) with 8%nat in Hsz.
  unfold Create. cbn [packets_]. rewrite BlockLength_ok by done. cbn [mbind option_bind].
  set (n := (12 + length (concat (map encode_report gs)))%nat). assert (En : Z.of_nat n = 262220) by (unfold n; lia).
  cbn [make_room]. rewrite (proj2 (Nat.ltb_ge _ _)) by lia. cbn [mbind option_bind negb].
  unfold HeaderLength. rewrite (proj2 (Nat.ltb_lt 0 n)) by lia.
  assert (n = 4 * Z.to_nat 65555)%nat as -> by lia.
  rewrite (Nat.mul_comm 4), Nat.Div0.mod_mul. cbn [Nat.eqb dcheck mbind option_bind].
  unfold kHeaderLength. replace (Z.to_nat 65555 * 4 - 4)%nat with (Z.to_nat 65554 * 4)%nat by lia.
  rewrite Nat.div_mul, Z2Nat.id by lia. done.
Qed.

End CcGenerator.
