(* ===== verification/OrderedMap.v ===== *)
(** * Ordered maps with integer keys (std::map)

    A map is the list of its entries in the order of the keys, so that iteration,
    [begin] and ranges are list operations. The operations are those of std::map the
    components use; the lemmas relate them to [find] and show that they keep the
    order. *)

From stdpp Require Import sorting.
From S2P Require Import Prelude.

Module OrderedMap.

Section map.
Context {V : Type}.
Implicit Types (m : list (Z * V)) (k : Z) (v : V).

(** The keys are in increasing order, without repetition. *)
Definition ordered (m : list (Z * V)) : Prop := StronglySorted (λ a b, a.1 < b.1) m.

Fixpoint find (k : Z) (m : list (Z * V)) : option V :=
  match m with
  | [] => None
  | (k', v) :: m => if k =? k' then Some v else find k m
  end.

(** [emplace] leaves an existing entry as it is. *)
Fixpoint emplace (k : Z) (v : V) (m : list (Z * V)) : list (Z * V) :=
  match m with
  | [] => [(k, v)]
  | (k', v') :: m' =>
      if k <? k' then (k, v) :: m
      else if k =? k' then m
      else (k', v') :: emplace k v m'
  end.

Fixpoint erase (k : Z) (m : list (Z * V)) : list (Z * V) :=
  match m with
  | [] => []
  | (k', v) :: m => if k =? k' then m else (k', v) :: erase k m
  end.

(** Assignment through an iterator to the entry of [k]. *)
Fixpoint assign (k : Z) (v : V) (m : list (Z * V)) : list (Z * V) :=
  match m with
  | [] => []
  | (k', v') :: m => if k =? k' then (k', v) :: m else (k', v') :: assign k v m
  end.

Lemma ordered_inv k v m : ordered ((k, v) :: m) →
  ordered m ∧ ∀ a, a ∈ m → k < a.1.
Proof.
  intros [H1 H2]%StronglySorted_inv. split; [done|]. intros a Ha.
  rewrite List.Forall_forall in H2. by apply (H2 a), list_elem_of_In.
Qed.

Lemma ordered_cons k v m : ordered m → (∀ a, a ∈ m → k < a.1) → ordered ((k, v) :: m).
Proof.
  intros H1 H2. constructor; [done|]. apply List.Forall_forall. intros a Ha%list_elem_of_In. by apply H2.
Qed.

Lemma find_elem k v m : find k m = Some v → (k, v) ∈ m.
Proof.
  induction m as [|[k' v'] m IH]; [done|]. cbn [find].
  destruct (Z.eqb_spec k k') as [->|]; [intros [= ->]; left|]. intros H. right. by apply IH.
Qed.

Lemma elem_find k v m : ordered m → (k, v) ∈ m → find k m = Some v.
Proof.
  induction m as [|[k' v'] m IH]; intros Ho; [by intros ?%not_elem_of_nil|]. cbn [find].
  apply ordered_inv in Ho as [Ho Hk]. intros [[= <- <-]|H]%elem_of_cons; [by rewrite Z.eqb_refl|].
  pose proof (Hk _ H) as Hlt. cbn in Hlt. rewrite (proj2 (Z.eqb_neq k k')) by lia. by apply IH.
Qed.

Lemma find_None k m : (∀ a, a ∈ m → a.1 ≠ k) → find k m = None.
Proof.
  intros H. destruct (find k m) as [v|] eqn:E; [|done]. apply find_elem, H in E. done.
Qed.

(** ** Insertion *)

Lemma emplace_elem k v m a : a ∈ emplace k v m → a = (k, v) ∨ a ∈ m.
Proof.
  induction m as [|[k' v'] m IH]; cbn [emplace].
  { intros ->%list_elem_of_singleton. by left. }
  destruct (k <? k'), (k =? k'); rewrite ?elem_of_cons; tauto.
Qed.

Lemma emplace_ordered k v m : ordered m → ordered (emplace k v m).
Proof.
  induction m as [|[k' v'] m IH]; cbn [emplace]; intros Ho; [by repeat constructor|].
  assert (Ho' := Ho). apply ordered_inv in Ho' as [Ho' Hk].
  destruct (Z.ltb_spec k k'); [|destruct (Z.eqb_spec k k'); [done|]].
  - apply ordered_cons; [done|]. intros a [->|Ha]%elem_of_cons; cbn; [lia|]. specialize (Hk a Ha). lia.
  - apply ordered_cons; [by apply IH|]. intros a [->|Ha]%emplace_elem; cbn; [lia|by apply Hk].
Qed.

Lemma find_emplace k v m k' : ordered m →
  find k' (emplace k v m) =
  if k' =? k then Some (match find k m with Some v' => v' | None => v end) else find k' m.
Proof.
  intros Ho. induction m as [|[k0 v0] m IH]; cbn [emplace find].
  { by destruct (Z.eqb_spec k' k). }
  apply ordered_inv in Ho as [Ho Hk].
  destruct (Z.ltb_spec k k0) as [Hlt|Hge]; [|destruct (Z.eqb_spec k k0) as [->|Hne]]; cbn [find].
  - rewrite (proj2 (Z.eqb_neq k k0)) by lia.
    rewrite (find_None k m) by (intros a Ha; specialize (Hk a Ha); lia).
    destruct (Z.eqb_spec k' k) as [->|]; [done|]. done.
  - destruct (Z.eqb_spec k' k0) as [->|]; done.
  - rewrite (IH Ho). destruct (Z.eqb_spec k' k0), (Z.eqb_spec k' k); try done; lia.
Qed.

(** A fresh key is inserted. *)
Lemma emplace_fresh k v m : ordered m → find k m = None →
  ∃ a b, m = a ++ b ∧ emplace k v m = a ++ (k, v) :: b.
Proof.
  intros Ho. induction m as [|[k0 v0] m IH]; cbn [emplace find]; [by exists [], []|].
  apply ordered_inv in Ho as [Ho _]. destruct (Z.eqb_spec k k0) as [|Hne]; [done|]. intros Hf.
  destruct (Z.ltb_spec k k0); [by exists [], ((k0, v0) :: m)|].
  destruct (IH Ho Hf) as (a & b & -> & ->). by exists ((k0, v0) :: a), b.
Qed.

(** ** Removal *)

Lemma erase_elem k m a : a ∈ erase k m → a ∈ m.
Proof.
  induction m as [|[k' v'] m IH]; cbn [erase]; [done|].
  destruct (k =? k'); rewrite ?elem_of_cons; tauto.
Qed.

Lemma erase_sublist k m : sublist (erase k m) m.
Proof.
  induction m as [|[k' v'] m IH]; cbn [erase]; [done|]. destruct (k =? k'); [by apply sublist_cons|by apply sublist_skip].
Qed.

Lemma erase_ordered k m : ordered m → ordered (erase k m).
Proof.
  induction m as [|[k' v'] m IH]; cbn [erase]; intros Ho; [done|].
  apply ordered_inv in Ho as [Ho Hk]. destruct (k =? k'); [done|].
  apply ordered_cons; [by apply IH|]. intros a Ha%erase_elem. by apply Hk.
Qed.

Lemma find_erase k m k' : ordered m →
  find k' (erase k m) = if k' =? k then None else find k' m.
Proof.
  intros Ho. induction m as [|[k0 v0] m IH]; cbn [erase find]; [by destruct (k' =? k)|].
  apply ordered_inv in Ho as [Ho Hk]. destruct (Z.eqb_spec k k0) as [->|Hne].
  - destruct (Z.eqb_spec k' k0) as [->|]; [|done].
    apply find_None. intros a Ha. specialize (Hk a Ha). lia.
  - cbn [find]. rewrite (IH Ho). destruct (Z.eqb_spec k' k0), (Z.eqb_spec k' k); try done; lia.
Qed.

(** ** Assignment *)

Lemma assign_split k v m : ordered m → ∀ v0, find k m = Some v0 →
  ∃ a b, m = a ++ (k, v0) :: b ∧ assign k v m = a ++ (k, v) :: b ∧ erase k m = a ++ b.
Proof.
  intros Ho v0. induction m as [|[k' v'] m IH]; cbn [find assign erase]; [done|].
  apply ordered_inv in Ho as [Ho _]. destruct (Z.eqb_spec k k') as [->|].
  - intros [= ->]. by exists [], m.
  - intros Hf. destruct (IH Ho Hf) as (a & b & -> & -> & ->). by exists ((k', v') :: a), b.
Qed.

Lemma assign_keys k v m : map fst (assign k v m) = map fst m.
Proof.
  induction m as [|[k' v'] m IH]; cbn [assign]; [done|]. destruct (k =? k'); cbn; [done|by rewrite IH].
Qed.

Lemma ordered_keys m m' : map fst m' = map fst m → ordered m → ordered m'.
Proof.
  revert m. induction m' as [|[k' v'] m' IH]; intros m E Ho; [constructor|].
  destruct m as [|[k v] m]; [done|]. injection E as -> E. apply ordered_inv in Ho as [Ho Hk].
  apply ordered_cons; [by apply (IH m)|]. intros a Ha.
  assert (a.1 ∈ map fst m) as Hin.
  { rewrite <- E. apply list_elem_of_In, in_map, list_elem_of_In, Ha. }
  apply list_elem_of_In, in_map_iff in Hin as (b & <- & Hb%list_elem_of_In). by apply Hk.
Qed.

Lemma find_assign k v m k' :
  find k' (assign k v m) =
  if (k' =? k) && match find k m with Some _ => true | None => false end then Some v else find k' m.
Proof.
  induction m as [|[k0 v0] m IH]; cbn [assign find]; [by rewrite andb_false_r|].
  destruct (Z.eqb_spec k k0) as [->|Hne]; cbn [find].
  - by destruct (Z.eqb_spec k' k0).
  - rewrite IH. destruct (Z.eqb_spec k' k0) as [->|]; [|done].
    by rewrite (proj2 (Z.eqb_neq k0 k)) by lia.
Qed.
End map.

End OrderedMap.
