(* ===== verification/ArrivalMap.v ===== *)
(** * The map of arrival times
    (modules/remote_bitrate_estimator/packet_arrival_map.cc, .h)

    The receiver of transport-wide feedback keeps the arrival times of the packets in a
    circular buffer whose capacity, a power of two, follows the number of packets. The
    abstract state is the first sequence number and the list of the times from there;
    the theorems show that the buffer implements the operations on the list, that
    capacity and memory are as the header promises, and that no slot is read before it
    was written. *)

From stdpp Require Import list.
From S2P Require Import Prelude SeqNum Units.
Import SeqNum Units.

Module ArrivalMap.

(** A slot without a value is memory that was not initialised; the empty list stands
    for the null pointer. *)
Record PacketArrivalTimeMap := mkMap {
  arrival_times_ : list (option Z);
  capacity_minus_1_ : Z;
  begin_sequence_number_ : Z;
  end_sequence_number_ : Z;
}.

Definition kMaxNumberOfPackets : Z := Z.shiftl 1 15.
Definition kMinCapacity : Z := 128.

Definition new_map : PacketArrivalTimeMap := mkMap [] (-1) 0 0.

Definition capacity (self : PacketArrivalTimeMap) : Z := capacity_minus_1_ self +i 1.

Definition has_seen_packet (self : PacketArrivalTimeMap) : bool :=
  negb (bool_decide (arrival_times_ self = [])).

(** The place of [sequence_number] in the buffer. *)
Definition Index (capacity_minus_1 sequence_number : Z) : Z :=
  s32 (Z.land sequence_number capacity_minus_1).

(** [arrival_times_[Index(sequence_number)]]. *)
Definition time_at (self : PacketArrivalTimeMap) (sequence_number : Z) : option Z :=
  slot ← arrival_times_ self !! Z.to_nat (Index (capacity_minus_1_ self) sequence_number);
  slot.

Definition set_time (self : PacketArrivalTimeMap) (sequence_number arrival_time : Z)
  : option PacketArrivalTimeMap :=
  times ← wr (arrival_times_ self) (Z.to_nat (Index (capacity_minus_1_ self) sequence_number))
            (Some arrival_time);
  Some (mkMap times (capacity_minus_1_ self) (begin_sequence_number_ self) (end_sequence_number_ self)).

Definition with_range (self : PacketArrivalTimeMap) (b e : Z) : PacketArrivalTimeMap :=
  mkMap (arrival_times_ self) (capacity_minus_1_ self) b e.

Definition has_received (self : PacketArrivalTimeMap) (sequence_number : Z) : option bool :=
  if (begin_sequence_number_ self <=? sequence_number) && (sequence_number <? end_sequence_number_ self)
  then t ← time_at self sequence_number; Some (0 <=? t)
  else Some false.

Definition get (self : PacketArrivalTimeMap) (sequence_number : Z) : option Z :=
  _ ← dcheck (begin_sequence_number_ self <=? sequence_number);
  _ ← dcheck (sequence_number <? end_sequence_number_ self);
  time_at self sequence_number.

(** The places repeat with the capacity: a search that takes more steps has no end. *)
Fixpoint find_next (fuel : nat) (self : PacketArrivalTimeMap) (sequence_number : Z) : option (Z * Z) :=
  match fuel with
  | O => None
  | S fuel =>
      t ← time_at self sequence_number;
      if 0 <=? t then Some (t, sequence_number)
      else find_next fuel self (s64 (sequence_number + 1))
  end.

(** The arrival time and the sequence number. *)
Definition FindNextAtOrAfter (self : PacketArrivalTimeMap) (sequence_number : Z) : option (Z * Z) :=
  _ ← dcheck (begin_sequence_number_ self <=? sequence_number);
  _ ← dcheck (sequence_number <? end_sequence_number_ self);
  find_next (Z.to_nat (capacity self)) self sequence_number.

Definition clamp (self : PacketArrivalTimeMap) (sequence_number : Z) : Z :=
  if sequence_number <? begin_sequence_number_ self then begin_sequence_number_ self
  else if end_sequence_number_ self <? sequence_number then end_sequence_number_ self
  else sequence_number.

(** [operator new[]] gives memory without contents. *)
Definition Reallocate (self : PacketArrivalTimeMap) (new_capacity : Z) : option PacketArrivalTimeMap :=
  let new_capacity_minus_1 := new_capacity -i 1 in
  _ ← dcheck (Z.land new_capacity new_capacity_minus_1 =? 0);
  new_buffer ← for_loop (Z.to_nat (end_sequence_number_ self - begin_sequence_number_ self)) 0
    (λ i new_buffer,
      let sequence_number := begin_sequence_number_ self + Z.of_nat i in
      slot ← arrival_times_ self !! Z.to_nat (Z.land sequence_number (capacity_minus_1_ self));
      wr new_buffer (Z.to_nat (Z.land sequence_number new_capacity_minus_1)) slot)
    (replicate (Z.to_nat new_capacity) None);
  Some (mkMap new_buffer new_capacity_minus_1 (begin_sequence_number_ self) (end_sequence_number_ self)).

Fixpoint grow (fuel : nat) (new_capacity new_size : Z) : option Z :=
  if new_capacity <? new_size then
    match fuel with
    | O => None
    | S fuel => grow fuel (new_capacity *i 2) new_size
    end
  else Some new_capacity.

Fixpoint shrink (fuel : nat) (new_capacity new_size : Z) : option Z :=
  if new_capacity >? 2 *i Z.max new_size kMinCapacity then
    match fuel with
    | O => None
    | S fuel => shrink fuel (Z.quot new_capacity 2) new_size
    end
  else Some new_capacity.

(** The loops double and halve an [int]: 32 steps. *)
Definition AdjustToSize (self : PacketArrivalTimeMap) (new_size : Z) : option PacketArrivalTimeMap :=
  self ← (if new_size >? capacity self then
            new_capacity ← grow 32 (capacity self) new_size;
            Reallocate self new_capacity
          else Some self);
  self ← (if capacity self >? Z.max kMinCapacity (4 *i new_size) then
            new_capacity ← shrink 32 (capacity self) new_size;
            Reallocate self new_capacity
          else Some self);
  _ ← dcheck (new_size <=? capacity self);
  Some self.

Definition SetNotReceived (self : PacketArrivalTimeMap) (first last : Z) : option PacketArrivalTimeMap :=
  let begin_index := Z.to_nat (Index (capacity_minus_1_ self) first) in
  let end_index := Z.to_nat (Index (capacity_minus_1_ self) last) in
  let value := Some MinusInfinity in
  times ← (if (begin_index <=? end_index)%nat then
             memset (arrival_times_ self) begin_index value (end_index - begin_index)
           else
             times ← memset (arrival_times_ self) begin_index value
                       (Z.to_nat (capacity self) - begin_index);
             memset times 0 value end_index);
  Some (mkMap times (capacity_minus_1_ self) (begin_sequence_number_ self) (end_sequence_number_ self)).

Definition AddPacket (self : PacketArrivalTimeMap) (sequence_number arrival_time : Z)
  : option PacketArrivalTimeMap :=
  let b := begin_sequence_number_ self in
  let e := end_sequence_number_ self in
  _ ← dcheck (0 <=? arrival_time);
  if negb (has_seen_packet self) then
    self ← Reallocate self kMinCapacity;
    set_time (with_range self sequence_number (s64 (sequence_number + 1))) sequence_number arrival_time
  else if (b <=? sequence_number) && (sequence_number <? e) then
    set_time self sequence_number arrival_time
  else if sequence_number <? b then
    let new_size := s64 (e - sequence_number) in
    if new_size >? kMaxNumberOfPackets then Some self
    else
      self ← AdjustToSize self (s32 new_size);
      self ← set_time self sequence_number arrival_time;
      self ← SetNotReceived self (s64 (sequence_number + 1)) b;
      Some (with_range self sequence_number e)
  else
    _ ← dcheck (e <=? sequence_number);
    let new_end_sequence_number := s64 (sequence_number + 1) in
    if new_end_sequence_number >=? s64 (e + kMaxNumberOfPackets) then
      set_time (with_range self sequence_number new_end_sequence_number) sequence_number arrival_time
    else
      self ← (if b <? s64 (new_end_sequence_number - kMaxNumberOfPackets) then
                let b := s64 (new_end_sequence_number - kMaxNumberOfPackets) in
                _ ← dcheck (b <? e);
                Some (with_range self b e)
              else Some self);
      let b := begin_sequence_number_ self in
      self ← AdjustToSize self (s32 (s64 (new_end_sequence_number - b)));
      self ← SetNotReceived self e sequence_number;
      set_time (with_range self b new_end_sequence_number) sequence_number arrival_time.

(** The loop of [RemoveOldPackets]: the new first sequence number. *)
Fixpoint remove_old (fuel : nat) (self : PacketArrivalTimeMap) (b check_to arrival_time_limit : Z)
  : option Z :=
  if b <? check_to then
    match fuel with
    | O => None
    | S fuel =>
        t ← time_at self b;
        if t <=? arrival_time_limit
        then remove_old fuel self (s64 (b + 1)) check_to arrival_time_limit
        else Some b
    end
  else Some b.

Definition RemoveOldPackets (self : PacketArrivalTimeMap) (sequence_number arrival_time_limit : Z)
  : option PacketArrivalTimeMap :=
  let e := end_sequence_number_ self in
  let check_to := Z.min sequence_number e in
  b ← remove_old (Z.to_nat (e - begin_sequence_number_ self)) self (begin_sequence_number_ self)
        check_to arrival_time_limit;
  AdjustToSize (with_range self b e) (s32 (s64 (e - b))).

Definition EraseTo (self : PacketArrivalTimeMap) (sequence_number : Z) : option PacketArrivalTimeMap :=
  let e := end_sequence_number_ self in
  if sequence_number <? begin_sequence_number_ self then Some self
  else if sequence_number >=? e then Some (with_range self e e)
  else AdjustToSize (with_range self sequence_number e) (s32 (s64 (e - sequence_number))).

(** ** Places in the circular buffer *)

Definition slot (c x : Z) : nat := Z.to_nat (x mod c).

Definition capacity_ok (c : Z) : Prop := ∃ k, 7 ≤ k ≤ 15 ∧ c = 2 ^ k.

Lemma capacity_range c : capacity_ok c → 128 ≤ c ≤ 32768.
Proof.
  intros (k & Hk & ->). change 128 with (2 ^ 7). change 32768 with (2 ^ 15).
  split; apply Z.pow_le_mono_r; lia.
Qed.

Lemma land_capacity c x : capacity_ok c → Z.land x (c - 1) = x mod c.
Proof.
  intros (k & Hk & ->). replace (2 ^ k - 1) with (Z.ones k) by (rewrite Z.ones_equiv; lia).
  apply Z.land_ones. lia.
Qed.

Lemma slot_lt c x : 0 < c → (slot c x < Z.to_nat c)%nat.
Proof. intros Hc. unfold slot. pose proof (Z.mod_pos_bound x c Hc). lia. Qed.

Lemma Index_slot c x : capacity_ok c → Z.to_nat (Index (c - 1) x) = slot c x.
Proof.
  intros Hc. unfold Index, slot. rewrite land_capacity by done. f_equal.
  apply capacity_range in Hc. pose proof (Z.mod_pos_bound x c ltac:(lia)).
  apply s32_id. unfold int32. lia.
Qed.

Lemma slot_inj c x y : 0 < c → slot c x = slot c y → - c < x - y < c → x = y.
Proof.
  intros Hc E Hd. unfold slot in E.
  pose proof (Z.mod_pos_bound x c Hc). pose proof (Z.mod_pos_bound y c Hc).
  assert (Em : x mod c = y mod c) by lia.
  pose proof (Z.div_mod x c ltac:(lia)) as Hx. pose proof (Z.div_mod y c ltac:(lia)) as Hy.
  rewrite Em in Hx. set (q := x / c) in *. set (r := y / c) in *. clearbody q r.
  assert (q = r) by nia. subst. lia.
Qed.

Lemma slot_wrap c x : 0 < c → slot c (x + c) = slot c x.
Proof. intros Hc. unfold slot. rewrite <- (Z.mod_add x 1 c), Z.mul_1_l by lia. done. Qed.

(** ** The representation of a list of times *)

(** The times [l] of the packets from [b] on, in a buffer of [c] places. *)
Record rep (m : PacketArrivalTimeMap) (c b : Z) (l : list Z) : Prop := {
  rep_capacity : capacity_ok c;
  rep_mask : capacity_minus_1_ m = c - 1;
  rep_length : length (arrival_times_ m) = Z.to_nat c;
  rep_begin : begin_sequence_number_ m = b;
  rep_end : end_sequence_number_ m = b + Z.of_nat (length l);
  rep_size : Z.of_nat (length l) ≤ c;
  rep_times : ∀ i t, l !! i = Some t → arrival_times_ m !! slot c (b + Z.of_nat i) = Some (Some t);
}.

Lemma rep_cap m c b l : rep m c b l → capacity m = c.
Proof.
  intros H. unfold capacity. rewrite (rep_mask _ _ _ _ H).
  pose proof (capacity_range _ (rep_capacity _ _ _ _ H)). rewrite s32_id by (unfold int32; lia). lia.
Qed.

Lemma rep_seen m c b l : rep m c b l → has_seen_packet m = true.
Proof.
  intros H. unfold has_seen_packet. apply negb_true_iff, bool_decide_eq_false_2. intros E.
  pose proof (rep_length _ _ _ _ H) as Hl. rewrite E in Hl.
  pose proof (capacity_range _ (rep_capacity _ _ _ _ H)). cbn in Hl. lia.
Qed.

Lemma time_at_ok m c b l x t : rep m c b l → b ≤ x → l !! Z.to_nat (x - b) = Some t → time_at m x = Some t.
Proof.
  intros H Hx Hl. unfold time_at. rewrite (rep_mask _ _ _ _ H), Index_slot by apply H.
  apply (rep_times _ _ _ _ H) in Hl. rewrite Z2Nat.id in Hl by lia.
  replace (b + (x - b)) with x in Hl by lia. by rewrite Hl.
Qed.

(** A write of one place. *)
Lemma set_time_run m c x t : capacity_ok c → capacity_minus_1_ m = c - 1 →
  length (arrival_times_ m) = Z.to_nat c →
  set_time m x t = Some (mkMap (<[slot c x := Some t]> (arrival_times_ m)) (capacity_minus_1_ m)
                           (begin_sequence_number_ m) (end_sequence_number_ m)).
Proof.
  intros Hc Em El. unfold set_time. rewrite Em, Index_slot by done.
  rewrite wr_lt by (rewrite El; apply slot_lt; apply capacity_range in Hc; lia). done.
Qed.

Lemma set_time_in m c b l x t : rep m c b l → b ≤ x < b + Z.of_nat (length l) →
  ∃ m', set_time m x t = Some m' ∧ rep m' c b (<[Z.to_nat (x - b) := t]> l).
Proof.
  intros [Hc Hm Hl Hb He Hs Ht] Hx. rewrite (set_time_run m c) by done. eexists. split; [done|].
  split; cbn [arrival_times_ capacity_minus_1_ begin_sequence_number_ end_sequence_number_]; try done;
    rewrite ?length_insert; try done.
  intros i u Hi. apply list_lookup_insert_Some in Hi as [(<- & -> & Hlt)|[Hne Hi]].
  - rewrite Z2Nat.id by lia. replace (b + (x - b)) with x by lia. apply list_lookup_insert_eq.
    rewrite Hl. apply slot_lt. apply capacity_range in Hc. lia.
  - rewrite list_lookup_insert_ne; [by apply Ht|]. intros E. apply lookup_lt_Some in Hi.
    apply capacity_range in Hc. apply slot_inj in E; lia.
Qed.

(** ** Changing the capacity *)

Lemma Reallocate_ok m c b l c' : rep m c b l → capacity_ok c' → Z.of_nat (length l) ≤ c' →
  ∃ m', Reallocate m c' = Some m' ∧ rep m' c' b l.
Proof.
  intros [Hc Hm Hl Hb He Hs Ht] Hc' Hs'. unfold Reallocate.
  assert (Hr := capacity_range _ Hc'). assert (Hr0 := capacity_range _ Hc).
  rewrite s32_id by (unfold int32; lia). rewrite land_capacity, Z_mod_same_full by done.
  cbn [Z.eqb dcheck mbind option_bind]. rewrite He, Hb.
  replace (Z.to_nat (b + Z.of_nat (length l) - b)) with (length l) by lia.
  set (body := λ i new_buffer, _).
  assert (H : wp (for_loop (length l) 0 body (replicate (Z.to_nat c') None)) (λ buf,
    length buf = Z.to_nat c' ∧ ∀ i t, l !! i = Some t → buf !! slot c' (b + Z.of_nat i) = Some (Some t))).
  { apply (wp_for (λ n buf, length buf = Z.to_nat c' ∧
      ∀ i t, (i < n)%nat → l !! i = Some t → buf !! slot c' (b + Z.of_nat i) = Some (Some t))).
    - rewrite length_replicate. split; [done|]. lia.
    - intros n buf Hn [Hlen Hbuf]. unfold body. destruct (lookup_lt_is_Some_2 l n) as [t Hlt]; [lia|].
      rewrite Hm, land_capacity, land_capacity by done. fold (slot c (b + Z.of_nat n)).
      fold (slot c' (b + Z.of_nat n)). rewrite (Ht n t Hlt). cbn [mbind option_bind].
      apply wp_wr; [rewrite Hlen; apply slot_lt; lia|]. rewrite length_insert. split; [done|].
      intros i u Hi Hu. destruct (decide (i = n)) as [->|Hne].
      + rewrite list_lookup_insert_eq by (rewrite Hlen; apply slot_lt; lia). congruence.
      + rewrite list_lookup_insert_ne; [by apply Hbuf; [lia|]|]. intros E.
        apply slot_inj in E; lia.
    - intros buf [Hlen Hbuf]. split; [done|]. intros i t Hi. apply Hbuf; [|done].
      by apply lookup_lt_Some in Hi. }
  apply wp_exists in H as (buf & E & Hlen & Hbuf). rewrite E. cbn [mbind option_bind].
  eexists. split; [done|]. split; cbn; done || lia.
Qed.

Lemma grow_ok fuel k n : 7 ≤ k ≤ 15 → n ≤ 32768 → 15 - k ≤ Z.of_nat fuel →
  ∃ k', k ≤ k' ≤ 15 ∧ n ≤ 2 ^ k' ∧ grow fuel (2 ^ k) n = Some (2 ^ k').
Proof.
  revert k. induction fuel as [|fuel IH]; intros k Hk Hn Hf; cbn [grow].
  - assert (k = 15) as -> by lia. exists 15. change (2 ^ 15) with 32768.
    rewrite (proj2 (Z.ltb_ge _ _)) by lia. split_and!; done || lia.
  - destruct (Z.ltb_spec (2 ^ k) n) as [Hlt|Hge].
    + assert (k < 15). { destruct (Z.eq_dec k 15) as [->|]; [change (2 ^ 15) with 32768 in Hlt; lia|lia]. }
      assert (E : 2 ^ k * 2 = 2 ^ (k + 1)) by (rewrite Z.pow_add_r by lia; lia).
      assert (2 ^ (k + 1) ≤ 2 ^ 15) by (apply Z.pow_le_mono_r; lia).
      assert (0 < 2 ^ (k + 1)) by (apply Z.pow_pos_nonneg; lia).
      rewrite s32_id, E by (unfold int32; change (2 ^ 15) with 32768 in *; lia).
      destruct (IH (k + 1)) as (k' & Hk' & Hn' & ->); [lia|lia|lia|]. exists k'. split; [lia|done].
    + exists k. split; [lia|done].
Qed.

Lemma shrink_ok fuel k n : 7 ≤ k ≤ 15 → 0 ≤ n ≤ 2 ^ k → k - 7 ≤ Z.of_nat fuel →
  ∃ k', 7 ≤ k' ≤ k ∧ n ≤ 2 ^ k' ∧ shrink fuel (2 ^ k) n = Some (2 ^ k').
Proof.
  revert k. induction fuel as [|fuel IH]; intros k Hk Hn Hf; cbn [shrink]; unfold kMinCapacity;
    assert (2 ^ k ≤ 2 ^ 15) by (apply Z.pow_le_mono_r; lia); change (2 ^ 15) with 32768 in *;
    rewrite s32_id by (unfold int32; lia); rewrite Z.gtb_ltb.
  - assert (k = 7) as -> by lia. exists 7. change (2 ^ 7) with 128 in *.
    rewrite (proj2 (Z.ltb_ge _ _)) by lia. split_and!; done || lia.
  - destruct (Z.ltb_spec (2 * Z.max n 128) (2 ^ k)) as [Hlt|Hge].
    + assert (7 < k). { destruct (Z.eq_dec k 7) as [->|]; [change (2 ^ 7) with 128 in Hlt; lia|lia]. }
      assert (E : 2 ^ k = 2 ^ (k - 1) * 2)
        by (rewrite <- (Z.pow_succ_r 2) || (replace k with (k - 1 + 1) at 1 by lia; rewrite Z.pow_add_r by lia); lia).
      assert (Z.quot (2 ^ k) 2 = 2 ^ (k - 1)) as -> by (rewrite E; apply Z.quot_mul; lia).
      destruct (IH (k - 1)) as (k' & Hk' & Hn' & ->); [lia|lia|lia|]. exists k'. split; [lia|done].
    + exists k. split; [lia|]. split; [lia|done].
Qed.

Lemma AdjustToSize_ok m c b l n : rep m c b l → Z.of_nat (length l) ≤ n ≤ 32768 →
  ∃ m' c', AdjustToSize m n = Some m' ∧ rep m' c' b l ∧ n ≤ c'.
Proof.
  intros Hrep Hn. unfold AdjustToSize. rewrite (rep_cap m c b l) by done. rewrite Z.gtb_ltb.
  assert (H1 : ∃ m1 c1, (if c <? n then new_capacity ← grow 32 c n; Reallocate m new_capacity else Some m) =
    Some m1 ∧ rep m1 c1 b l ∧ n ≤ c1).
  { destruct (Z.ltb_spec c n) as [Hlt|]; [|by exists m, c].
    destruct (rep_capacity _ _ _ _ Hrep) as (k & Hk & Ek).
    destruct (grow_ok 32 k n) as (k' & Hk' & Hle & Eg); [done|lia|lia|]. rewrite Ek, Eg. cbn [mbind option_bind].
    destruct (Reallocate_ok m c b l (2 ^ k')) as (m1 & -> & Hm1); [done|exists k'; split; [lia|done]|lia|].
    by exists m1, (2 ^ k'). }
  destruct H1 as (m1 & c1 & -> & Hrep1 & Hle1). cbn [mbind option_bind]. rewrite (rep_cap m1 c1 b l) by done.
  assert (H2 : ∃ m2 c2, (if c1 >? Z.max kMinCapacity (4 *i n) then new_capacity ← shrink 32 c1 n;
    Reallocate m1 new_capacity else Some m1) = Some m2 ∧ rep m2 c2 b l ∧ n ≤ c2).
  { destruct (_ >? _); [|by exists m1, c1].
    destruct (rep_capacity _ _ _ _ Hrep1) as (k & Hk & Ek).
    destruct (shrink_ok 32 k n) as (k' & Hk' & Hle & Eg); [done|lia|lia|]. rewrite Ek, Eg. cbn [mbind option_bind].
    destruct (Reallocate_ok m1 c1 b l (2 ^ k')) as (m2 & -> & Hm2); [done|exists k'; split; [lia|done]|lia|].
    by exists m2, (2 ^ k'). }
  destruct H2 as (m2 & c2 & -> & Hrep2 & Hle2). cbn [mbind option_bind]. rewrite (rep_cap m2 c2 b l) by done.
  rewrite (proj2 (Z.leb_le _ _)) by done. by exists m2, c2.
Qed.

(** ** Clearing places *)

Lemma memset_lookup {A} (dst : list A) o v n : (o + n ≤ length dst)%nat →
  ∃ out, memset dst o v n = Some out ∧ length out = length dst ∧
    ∀ i, out !! i = if decide (o ≤ i < o + n)%nat then Some v else dst !! i.
Proof.
  intros Hn. unfold memset. rewrite decide_True by done. eexists. split; [done|]. split.
  - rewrite !length_app, length_take, length_replicate, length_drop. lia.
  - intros i. destruct (decide (o ≤ i < o + n)%nat) as [Hi|Hi].
    + rewrite lookup_app_r by (rewrite length_take; lia). rewrite length_take, Nat.min_l by lia.
      rewrite lookup_app_l by (rewrite length_replicate; lia). apply lookup_replicate_2. lia.
    + destruct (decide (i < o)%nat).
      * rewrite lookup_app_l by (rewrite length_take; lia). by rewrite lookup_take_lt.
      * rewrite lookup_app_r by (rewrite length_take; lia). rewrite length_take, Nat.min_l by lia.
        rewrite lookup_app_r by (rewrite length_replicate; lia). rewrite length_replicate, lookup_drop.
        f_equal. lia.
Qed.

Lemma mod_offset c s x : 0 < c → s ≤ x < s + c →
  x mod c = (if s mod c + (x - s) <? c then s mod c + (x - s) else s mod c + (x - s) - c).
Proof.
  intros Hc Hx. pose proof (Z.mod_pos_bound s c Hc). pose proof (Z.div_mod s c ltac:(lia)) as Hs.
  destruct (Z.ltb_spec (s mod c + (x - s)) c); symmetry.
  - apply (Z.mod_unique _ _ (s / c)); lia.
  - apply (Z.mod_unique _ _ (s / c + 1)); lia.
Qed.

Lemma SetNotReceived_run m c s e : capacity_ok c → capacity_minus_1_ m = c - 1 →
  length (arrival_times_ m) = Z.to_nat c → 0 ≤ e - s < c →
  ∃ times, SetNotReceived m s e = Some (mkMap times (capacity_minus_1_ m) (begin_sequence_number_ m)
                                          (end_sequence_number_ m)) ∧
    length times = Z.to_nat c ∧
    (∀ x, s ≤ x < e → times !! slot c x = Some (Some MinusInfinity)) ∧
    (∀ x, e ≤ x < s + c → times !! slot c x = arrival_times_ m !! slot c x).
Proof.
  intros Hc Em El Hr. assert (Hcr := capacity_range _ Hc). unfold SetNotReceived, capacity.
  rewrite Em, !Index_slot by done. rewrite s32_id by (unfold int32; lia).
  replace (Z.to_nat (c - 1 + 1)) with (Z.to_nat c) by lia.
  pose proof (Z.mod_pos_bound s c ltac:(lia)) as Hs. pose proof (mod_offset c s e ltac:(lia) ltac:(lia)) as He.
  unfold slot in *. set (r := s mod c) in *. destruct (Nat.leb_spec (Z.to_nat r) (Z.to_nat (e mod c))) as [Hle|Hgt].
  - assert (E : e mod c = r + (e - s)) by (destruct (Z.ltb_spec (r + (e - s)) c); lia).
    assert (r + (e - s) < c) by (destruct (Z.ltb_spec (r + (e - s)) c); lia).
    destruct (memset_lookup (arrival_times_ m) (Z.to_nat r) (Some MinusInfinity)
      (Z.to_nat (e mod c) - Z.to_nat r)) as (out & -> & Hlen & Hlook); [lia|].
    exists out. split; [done|]. split; [lia|]. split; intros x Hx; rewrite Hlook.
    + rewrite decide_True; [done|]. rewrite (mod_offset c s x) by lia. fold r.
      destruct (Z.ltb_spec (r + (x - s)) c); lia.
    + rewrite decide_False; [done|]. rewrite (mod_offset c s x) by lia. fold r.
      destruct (Z.ltb_spec (r + (x - s)) c); lia.
  - assert (E : e mod c = r + (e - s) - c) by (destruct (Z.ltb_spec (r + (e - s)) c); lia).
    assert (c ≤ r + (e - s)) by (destruct (Z.ltb_spec (r + (e - s)) c); lia).
    destruct (memset_lookup (arrival_times_ m) (Z.to_nat r) (Some MinusInfinity)
      (Z.to_nat c - Z.to_nat r)) as (out1 & -> & Hlen1 & Hlook1); [lia|]. cbn [mbind option_bind].
    destruct (memset_lookup out1 0 (Some MinusInfinity) (Z.to_nat (e mod c))) as (out & -> & Hlen & Hlook); [lia|].
    exists out. split; [done|]. split; [lia|]. split; intros x Hx; rewrite Hlook, Hlook1.
    + rewrite (mod_offset c s x) by lia. fold r. destruct (Z.ltb_spec (r + (x - s)) c).
      * rewrite decide_False, decide_True by lia. done.
      * rewrite decide_True by lia. done.
    + rewrite (mod_offset c s x) by lia. fold r. destruct (Z.ltb_spec (r + (x - s)) c).
      * lia.
      * rewrite !decide_False by lia. done.
Qed.

(** ** The abstract map *)

(** [None] before the first packet, then the first number and the times from there;
    packets that were not received have the time minus infinity. *)
Definition view : Type := option (Z * list Z).

Definition represents (m : PacketArrivalTimeMap) (v : view) : Prop :=
  match v with
  | None => m = new_map
  | Some (b, l) => ∃ c, rep m c b l
  end.

Definition spec_add (v : view) (s t : Z) : view :=
  match v with
  | None => Some (s, [t])
  | Some (b, l) =>
      let e := b + Z.of_nat (length l) in
      if (b <=? s) && (s <? e) then Some (b, <[Z.to_nat (s - b) := t]> l)
      else if s <? b then
        if e - s >? kMaxNumberOfPackets then Some (b, l)
        else Some (s, t :: replicate (Z.to_nat (b - s - 1)) MinusInfinity ++ l)
      else if s + 1 >=? e + kMaxNumberOfPackets then Some (s, [t])
      else
        let old := Z.to_nat (s + 1 - kMaxNumberOfPackets - b) in
        Some (b + Z.of_nat old, drop old l ++ replicate (Z.to_nat (s - e)) MinusInfinity ++ [t])
  end.

(** The number of packets, among the first [n], up to the first one behind [limit]. *)
Fixpoint old_packets (n : nat) (limit : Z) (l : list Z) : nat :=
  match n, l with
  | S n, t :: l => if t <=? limit then S (old_packets n limit l) else O
  | _, _ => O
  end.

Definition spec_remove (v : view) (s limit : Z) : view :=
  match v with
  | None => None
  | Some (b, l) =>
      let n := old_packets (Z.to_nat (s - b)) limit l in
      Some (b + Z.of_nat n, drop n l)
  end.

Definition spec_erase (v : view) (s : Z) : view :=
  match v with
  | None => None
  | Some (b, l) =>
      let n := Nat.min (length l) (Z.to_nat (s - b)) in
      Some (b + Z.of_nat n, drop n l)
  end.

(** Sequence numbers far from the limits of 64 bits. *)
Definition number_ok (s : Z) : Prop := - 2305843009213693952 ≤ s ≤ 2305843009213693952.

Definition view_ok (v : view) : Prop :=
  match v with
  | None => True
  | Some (b, l) => - 2305843009213726720 ≤ b ∧ b + Z.of_nat (length l) ≤ 2305843009213693953
  end.

(** Dropping packets from the front. *)
Lemma rep_drop m c b l n : rep m c b l → (n ≤ length l)%nat →
  rep (with_range m (b + Z.of_nat n) (end_sequence_number_ m)) c (b + Z.of_nat n) (drop n l).
Proof.
  intros [Hc Hm Hl Hb He Hs Ht] Hn. unfold with_range. split; cbn; try done.
  - rewrite He, length_drop. lia.
  - rewrite length_drop. lia.
  - intros i t Hi. rewrite lookup_drop in Hi. apply Ht in Hi. rewrite <- Hi. f_equal. f_equal. lia.
Qed.

Lemma AddPacket_first s t : number_ok s → 0 ≤ t →
  ∃ m', AddPacket new_map s t = Some m' ∧ represents m' (Some (s, [t])).
Proof.
  intros Hs Ht. unfold AddPacket. rewrite (proj2 (Z.leb_le 0 t)) by done. cbn [dcheck mbind option_bind].
  change (has_seen_packet new_map) with false. cbn [negb].
  change (Reallocate new_map kMinCapacity) with (Some (mkMap (replicate 128 None) 127 0 0)).
  cbn [mbind option_bind]. assert (Hc : capacity_ok 128) by (exists 7; split; [lia|done]).
  rewrite (set_time_run _ 128) by done. eexists. split; [done|]. exists 128. unfold number_ok in Hs.
  split; cbn [with_range arrival_times_ capacity_minus_1_ begin_sequence_number_ end_sequence_number_ length];
    try done; try lia.
  - by rewrite length_insert, length_replicate.
  - apply s64_id. unfold int64. lia.
  - intros i u Hi. destruct i as [|i]; [|done]. injection Hi as <-. rewrite Z.add_0_r.
    apply list_lookup_insert_eq. rewrite length_replicate. apply (slot_lt 128). lia.
Qed.

(** A packet before the first one. *)
Lemma AddPacket_before m c b l s t : rep m c b l → view_ok (Some (b, l)) → number_ok s → 0 ≤ t → s < b →
  ∃ m', AddPacket m s t = Some m' ∧ represents m' (spec_add (Some (b, l)) s t).
Proof.
  intros Hrep Hv Hs Ht Hlt. unfold AddPacket, spec_add, number_ok, view_ok in *.
  rewrite (rep_seen m c b l), (rep_begin m c b l), (rep_end m c b l) by done.
  rewrite (proj2 (Z.leb_le 0 t)) by done. cbn [dcheck mbind option_bind negb].
  rewrite (proj2 (Z.leb_gt b s)), (proj2 (Z.ltb_lt s b)) by lia. cbn [andb].
  rewrite s64_id by (unfold int64; lia). rewrite Z.gtb_ltb. change kMaxNumberOfPackets with 32768.
  destruct (Z.ltb_spec 32768 (b + Z.of_nat (length l) - s)) as [|Hn]; [by exists m; split; [|exists c]|].
  rewrite s32_id by (unfold int32; lia).
  destruct (AdjustToSize_ok m c b l (b + Z.of_nat (length l) - s)) as (m1 & c1 & -> & [Hc Hm Hl Hb He Hsz Htm] & Hc1);
    [done|lia|]. cbn [mbind option_bind].
  rewrite (set_time_run m1 c1) by done. cbn [mbind option_bind].
  rewrite s64_id by (unfold int64; lia). set (m2 := mkMap _ _ _ _).
  assert (Hpos := capacity_range _ Hc).
  destruct (SetNotReceived_run m2 c1 (s + 1) b) as (times & -> & Hlen & Hin & Hout);
    [done|done|cbn; by rewrite length_insert|lia|]. cbn [mbind option_bind].
  eexists. split; [done|]. exists c1. unfold with_range. cbn [m2 arrival_times_ capacity_minus_1_] in *.
  split; cbn [arrival_times_ capacity_minus_1_ begin_sequence_number_ end_sequence_number_]; try done.
  - cbn [length]. rewrite length_app, length_replicate. lia.
  - cbn [length]. rewrite length_app, length_replicate. lia.
  - intros [|i] u Hi.
    + injection Hi as <-. rewrite Z.add_0_r, <- slot_wrap, Hout, slot_wrap by lia.
      apply list_lookup_insert_eq. rewrite Hl. apply (slot_lt c1). lia.
    + cbn [lookup list_lookup] in Hi. apply lookup_app_Some in Hi as [Hi|[Hge Hi]].
      * apply lookup_replicate in Hi as [-> Hlt']. apply Hin. lia.
      * rewrite length_replicate in *. pose proof (lookup_lt_Some _ _ _ Hi).
        rewrite Hout by lia. apply Htm in Hi. rewrite list_lookup_insert_ne.
        { rewrite <- Hi. f_equal. f_equal. lia. }
        intros E. apply slot_inj in E; lia.
Qed.

(** A packet behind the last one: what is behind the window of 32768 packets goes. *)
Lemma append_ok m c b l s t : rep m c b l → view_ok (Some (b, l)) → number_ok s →
  b + Z.of_nat (length l) ≤ s → s + 1 - b ≤ 32768 →
  ∃ m', (m ← AdjustToSize m (s32 (s64 (s + 1 - b)));
         m ← SetNotReceived m (b + Z.of_nat (length l)) s;
         set_time (with_range m b (s + 1)) s t) = Some m' ∧
    represents m' (Some (b, l ++ replicate (Z.to_nat (s - (b + Z.of_nat (length l)))) MinusInfinity ++ [t])).
Proof.
  intros Hrep Hv Hs Hge Hn. unfold number_ok, view_ok in *.
  rewrite s64_id, s32_id by (unfold int64, int32; lia).
  destruct (AdjustToSize_ok m c b l (s + 1 - b)) as (m1 & c1 & -> & [Hc Hm Hl Hb He Hsz Htm] & Hc1);
    [done|lia|]. cbn [mbind option_bind]. assert (Hpos := capacity_range _ Hc).
  destruct (SetNotReceived_run m1 c1 (b + Z.of_nat (length l)) s) as (times & -> & Hlen & Hin & Hout);
    [done|done|done|lia|]. cbn [mbind option_bind].
  rewrite (set_time_run _ c1) by done. eexists. split; [done|]. exists c1. unfold with_range.
  assert (Hle : length (l ++ replicate (Z.to_nat (s - (b + Z.of_nat (length l)))) MinusInfinity ++ [t]) =
    Z.to_nat (s + 1 - b)) by (rewrite !length_app, length_replicate; cbn [length]; lia).
  split; cbn [arrival_times_ capacity_minus_1_ begin_sequence_number_ end_sequence_number_]; try done.
  - by rewrite length_insert.
  - rewrite Hle. lia.
  - rewrite Hle. lia.
  - intros i u Hi. apply lookup_app_Some in Hi as [Hi|[Hge' Hi]].
    + pose proof (lookup_lt_Some _ _ _ Hi). rewrite list_lookup_insert_ne by (intros E; apply slot_inj in E; lia).
      rewrite <- slot_wrap, Hout, slot_wrap by lia. by apply Htm.
    + apply lookup_app_Some in Hi as [Hi|[Hge'' Hi]]; rewrite ?length_replicate in *.
      * apply lookup_replicate in Hi as [-> Hlt'].
        rewrite list_lookup_insert_ne by (intros E; apply slot_inj in E; lia). apply Hin. lia.
      * apply list_lookup_singleton_Some in Hi as [Hi <-].
        replace (b + Z.of_nat i) with s by lia. apply list_lookup_insert_eq.
        rewrite Hlen. apply slot_lt. lia.
Qed.

Lemma AddPacket_after m c b l s t : rep m c b l → view_ok (Some (b, l)) → number_ok s → 0 ≤ t →
  b + Z.of_nat (length l) ≤ s →
  ∃ m', AddPacket m s t = Some m' ∧ represents m' (spec_add (Some (b, l)) s t).
Proof.
  intros Hrep Hv Hs Ht Hge. assert (Hv' := Hv). unfold AddPacket, spec_add, number_ok, view_ok in *.
  rewrite (rep_seen m c b l), (rep_begin m c b l), (rep_end m c b l) by done.
  rewrite (proj2 (Z.leb_le 0 t)) by done. cbn [dcheck mbind option_bind negb].
  rewrite (proj2 (Z.ltb_ge s (b + Z.of_nat (length l)))), (proj2 (Z.ltb_ge s b)) by lia.
  rewrite andb_false_r, (proj2 (Z.leb_le (b + Z.of_nat (length l)) s)) by done. cbn [dcheck mbind option_bind].
  change kMaxNumberOfPackets with 32768.
  rewrite (s64_id (s + 1)), (s64_id (b + _ + _)), (s64_id (s + 1 - 32768)) by (unfold int64; lia).
  rewrite Z.geb_leb. destruct (Z.leb_spec (b + Z.of_nat (length l) + 32768) (s + 1)) as [Hall|Hsome].
  - destruct Hrep as [Hc Hm Hl Hb He Hsz Htm]. rewrite (set_time_run _ c) by done. eexists. split; [done|].
    assert (Hpos := capacity_range _ Hc). exists c.
    split; cbn [with_range arrival_times_ capacity_minus_1_ begin_sequence_number_ end_sequence_number_ length];
      try done; try lia.
    + by rewrite length_insert.
    + intros [|i] u Hi; [|done]. injection Hi as <-. rewrite Z.add_0_r.
      apply list_lookup_insert_eq. rewrite Hl. apply slot_lt. lia.
  - set (old := Z.to_nat (s + 1 - 32768 - b)).
    assert (Hold : (old < length l)%nat ∨ old = 0%nat) by (unfold old; lia).
    assert (Hm1 : ∃ m1, (if b <? s + 1 - 32768 then _ ← dcheck (s + 1 - 32768 <? b + Z.of_nat (length l));
        Some (with_range m (s + 1 - 32768) (b + Z.of_nat (length l))) else Some m) = Some m1 ∧
      rep m1 c (b + Z.of_nat old) (drop old l)).
    { destruct (Z.ltb_spec b (s + 1 - 32768)) as [Hlt|Hle].
      - rewrite (proj2 (Z.ltb_lt _ _)) by lia. cbn [dcheck mbind option_bind]. eexists. split; [done|].
        pose proof (rep_drop m c b l old Hrep ltac:(lia)) as H. rewrite (rep_end _ _ _ _ Hrep) in H.
        replace (s + 1 - 32768) with (b + Z.of_nat old) by lia. done.
      - assert (old = 0%nat) as -> by lia. exists m. rewrite Z.add_0_r, drop_0. done. }
    destruct Hm1 as (m1 & -> & Hrep1). cbn [mbind option_bind]. rewrite (rep_begin _ _ _ _ Hrep1).
    destruct (append_ok m1 c (b + Z.of_nat old) (drop old l) s t) as (m' & E & Hm'); [done| |done|..].
    + unfold view_ok. rewrite length_drop. lia.
    + rewrite length_drop. lia.
    + lia.
    + rewrite length_drop in *. replace (b + Z.of_nat old + Z.of_nat (length l - old)) with (b + Z.of_nat (length l))
        in * by lia.
      exists m'. done.
Qed.

Lemma map_AddPacket_ok m v s t : represents m v → view_ok v → number_ok s → 0 ≤ t →
  ∃ m', AddPacket m s t = Some m' ∧ represents m' (spec_add v s t) ∧ view_ok (spec_add v s t).
Proof.
  intros Hm Hv Hs Ht.
  assert (Hv' : view_ok (spec_add v s t)).
  { destruct v as [[b l]|]; unfold number_ok, view_ok, spec_add in *; [|cbn; lia].
    change kMaxNumberOfPackets with 32768. destruct ((b <=? s) && _) eqn:E1; [by rewrite length_insert|].
    destruct (Z.ltb_spec s b).
    - destruct (_ >? _) eqn:E2; [done|]. cbn [length]. rewrite length_app, length_replicate. lia.
    - apply andb_false_iff in E1. rewrite Z.leb_gt, Z.ltb_ge in E1. destruct (_ >=? _) eqn:E2; [cbn; lia|].
      rewrite Z.geb_leb, Z.leb_gt in E2. rewrite !length_app, length_replicate, length_drop. cbn [length]. lia. }
  destruct v as [[b l]|].
  2: { cbn in Hm. subst m. destruct (AddPacket_first s t Hs Ht) as (m' & E & H). by exists m'. }
  destruct Hm as [c Hrep]. destruct (Z.lt_ge_cases s b) as [Hlt|Hge].
  { destruct (AddPacket_before m c b l s t) as (m' & E & H); try done. by exists m'. }
  destruct (Z.lt_ge_cases s (b + Z.of_nat (length l))) as [Hlt|Hge'].
  2: { destruct (AddPacket_after m c b l s t) as (m' & E & H); try done. by exists m'. }
  unfold AddPacket, spec_add in *. rewrite (rep_seen m c b l), (rep_begin m c b l), (rep_end m c b l) by done.
  rewrite (proj2 (Z.leb_le 0 t)), (proj2 (Z.leb_le b s)), (proj2 (Z.ltb_lt s _)) in * by done.
  cbn [dcheck mbind option_bind negb andb] in *.
  destruct (set_time_in m c b l s t Hrep) as (m' & E & H); [lia|]. exists m'. split; [done|]. split; [by exists c|done].
Qed.

(** ** Removing packets *)

Lemma remove_old_ok fuel m c b l s limit : rep m c b l → view_ok (Some (b, l)) →
  ∀ i, (i ≤ length l)%nat → (length l - i ≤ fuel)%nat →
  remove_old fuel m (b + Z.of_nat i) (Z.min s (b + Z.of_nat (length l))) limit =
    Some (b + Z.of_nat (i + old_packets (Z.to_nat (s - (b + Z.of_nat i))) limit (drop i l))).
Proof.
  intros Hrep Hv. unfold view_ok in Hv. induction fuel as [|fuel IH]; intros i Hi Hf; cbn [remove_old].
  { rewrite (proj2 (Z.ltb_ge _ _)), drop_ge by lia. destruct (Z.to_nat _); cbn; f_equal; lia. }
  destruct (Z.ltb_spec (b + Z.of_nat i) (Z.min s (b + Z.of_nat (length l)))) as [Hlt|Hge].
  - destruct (lookup_lt_is_Some_2 l i) as [t Hl]; [lia|].
    rewrite (time_at_ok m c b l _ t); [|done|lia|by replace (Z.to_nat (b + Z.of_nat i - b)) with i by lia].
    cbn [mbind option_bind]. rewrite (drop_S _ _ _ Hl).
    destruct (Z.to_nat (s - (b + Z.of_nat i))) as [|n] eqn:En; [lia|]. cbn [old_packets].
    destruct (t <=? limit); [|f_equal; lia]. rewrite s64_id by (unfold int64; lia).
    replace (b + Z.of_nat i + 1) with (b + Z.of_nat (S i)) by lia. rewrite IH by lia.
    replace (Z.to_nat (s - (b + Z.of_nat (S i)))) with n by lia. f_equal. lia.
  - assert (old_packets (Z.to_nat (s - (b + Z.of_nat i))) limit (drop i l) = 0%nat) as ->; [|f_equal; lia].
    destruct (Z.le_gt_cases s (b + Z.of_nat i)).
    + by replace (Z.to_nat (s - (b + Z.of_nat i))) with 0%nat by lia.
    + rewrite drop_ge by lia. by destruct (Z.to_nat _).
Qed.

Lemma old_packets_le n limit l : (old_packets n limit l ≤ length l)%nat ∧ (old_packets n limit l ≤ n)%nat.
Proof.
  revert n. induction l as [|t l IH]; intros [|n]; cbn; try lia. destruct (t <=? limit); [|lia].
  pose proof (IH n). lia.
Qed.

(** The range is cut and the capacity follows. *)
Lemma cut_ok m c b l n : rep m c b l → view_ok (Some (b, l)) → (n ≤ length l)%nat →
  ∃ m', AdjustToSize (with_range m (b + Z.of_nat n) (end_sequence_number_ m))
          (s32 (s64 (end_sequence_number_ m - (b + Z.of_nat n)))) = Some m' ∧
    represents m' (Some (b + Z.of_nat n, drop n l)).
Proof.
  intros Hrep Hv Hn. unfold view_ok in Hv. pose proof (rep_drop m c b l n Hrep Hn) as Hd.
  rewrite (rep_end _ _ _ _ Hrep) in *.
  pose proof (rep_size _ _ _ _ Hrep). pose proof (capacity_range _ (rep_capacity _ _ _ _ Hrep)).
  rewrite s64_id, s32_id by (unfold int64, int32; lia).
  destruct (AdjustToSize_ok _ c _ _ (b + Z.of_nat (length l) - (b + Z.of_nat n)) Hd)
    as (m' & c' & E & H' & _); [rewrite length_drop; lia|]. exists m'. split; [done|by exists c'].
Qed.

Lemma RemoveOldPackets_ok m v s limit : represents m v → view_ok v →
  ∃ m', RemoveOldPackets m s limit = Some m' ∧ represents m' (spec_remove v s limit) ∧
    view_ok (spec_remove v s limit).
Proof.
  intros Hm Hv. unfold RemoveOldPackets. destruct v as [[b l]|].
  - destruct Hm as [c Hrep]. cbn [spec_remove].
    pose proof (old_packets_le (Z.to_nat (s - b)) limit l) as [Hn _].
    set (n := old_packets _ _ _) in *.
    assert (E : remove_old (Z.to_nat (end_sequence_number_ m - begin_sequence_number_ m)) m
      (begin_sequence_number_ m) (Z.min s (end_sequence_number_ m)) limit = Some (b + Z.of_nat n)).
    { rewrite (rep_begin _ _ _ _ Hrep), (rep_end _ _ _ _ Hrep).
      pose proof (remove_old_ok (Z.to_nat (b + Z.of_nat (length l) - b)) m c b l s limit Hrep Hv 0
        ltac:(lia) ltac:(lia)) as H. rewrite Z.add_0_r, drop_0, Nat.add_0_l in H. exact H. }
    rewrite E. cbn [mbind option_bind].
    destruct (cut_ok m c b l n) as (m' & -> & H'); try done. exists m'. split; [done|]. split; [done|].
    unfold view_ok in *. rewrite length_drop. lia.
  - cbn in Hm. subst m. cbn [begin_sequence_number_ end_sequence_number_ new_map].
    change (Z.to_nat (0 - 0)) with 0%nat. cbn [remove_old]. rewrite (proj2 (Z.ltb_ge 0 _)) by lia.
    exists new_map. by split_and!.
Qed.

Lemma EraseTo_ok m v s : represents m v → view_ok v →
  ∃ m', EraseTo m s = Some m' ∧ represents m' (spec_erase v s) ∧ view_ok (spec_erase v s).
Proof.
  intros Hm Hv. unfold EraseTo. destruct v as [[b l]|].
  - destruct Hm as [c Hrep]. cbn [spec_erase]. set (n := Nat.min _ _).
    assert (Hv' : view_ok (Some (b + Z.of_nat n, drop n l))) by (unfold view_ok in *; rewrite length_drop; lia).
    rewrite (rep_begin _ _ _ _ Hrep). destruct (Z.ltb_spec s b) as [Hlt|Hge].
    { assert (n = 0%nat) as -> by lia. rewrite drop_0, Z.add_0_r in *. exists m. split; [done|].
      split; [by exists c|done]. }
    rewrite Z.geb_leb. destruct (Z.leb_spec (end_sequence_number_ m) s) as [Hall|Hsome];
      rewrite (rep_end _ _ _ _ Hrep) in *.
    + assert (E : n = length l) by lia. eexists. split; [done|]. split; [|done]. exists c.
      pose proof (rep_drop m c b l n Hrep ltac:(lia)) as H. rewrite (rep_end _ _ _ _ Hrep), E in H.
      by rewrite E.
    + destruct (cut_ok m c b l n) as (m' & E & H'); [done|done|lia|].
      rewrite (rep_end _ _ _ _ Hrep) in E. replace (b + Z.of_nat n) with s in * by lia.
      exists m'. by split_and!.
  - cbn in Hm. subst m. exists new_map. cbn [new_map begin_sequence_number_ end_sequence_number_].
    destruct (Z.ltb_spec s 0); [by split_and!|]. rewrite Z.geb_leb, (proj2 (Z.leb_le 0 s)) by lia. by split_and!.
Qed.

(** ** Reading the map *)

(** The arrival time of a packet that was received and is still in the map. *)
Definition received_at (v : view) (s : Z) : option Z :=
  match v with
  | None => None
  | Some (b, l) =>
      if s <? b then None
      else t ← l !! Z.to_nat (s - b); if 0 <=? t then Some t else None
  end.

Definition first_number (v : view) : Z := match v with Some (b, _) => b | None => 0 end.
Definition end_number (v : view) : Z := match v with Some (b, l) => b + Z.of_nat (length l) | None => 0 end.

Lemma represents_range m v : represents m v →
  begin_sequence_number_ m = first_number v ∧ end_sequence_number_ m = end_number v.
Proof. destruct v as [[b l]|]; [intros [c H]|by intros ->]. split; apply H. Qed.

Lemma received_at_in v s t : received_at v s = Some t → first_number v ≤ s < end_number v ∧ 0 ≤ t.
Proof.
  destruct v as [[b l]|]; [|done]. cbn. destruct (Z.ltb_spec s b); [done|].
  destruct (l !! Z.to_nat (s - b)) as [u|] eqn:E; [|done]. cbn. apply lookup_lt_Some in E.
  destruct (Z.leb_spec 0 u); [|done]. intros [= ->]. lia.
Qed.

Lemma has_received_ok m v s : represents m v →
  has_received m s = Some (bool_decide (is_Some (received_at v s))).
Proof.
  intros Hm. unfold has_received. destruct (represents_range m v Hm) as [-> ->].
  destruct ((first_number v <=? s) && (s <? end_number v)) eqn:E.
  - apply andb_true_iff in E as [E1%Z.leb_le E2%Z.ltb_lt]. destruct v as [[b l]|]; [|cbn in *; lia].
    cbn [first_number end_number] in *. destruct Hm as [c Hrep].
    destruct (lookup_lt_is_Some_2 l (Z.to_nat (s - b))) as [t Ht]; [lia|].
    rewrite (time_at_ok m c b l s t) by done. cbn [mbind option_bind received_at].
    rewrite (proj2 (Z.ltb_ge s b)), Ht by done. cbn [mbind option_bind]. f_equal.
    destruct (0 <=? t); symmetry; [by apply bool_decide_eq_true_2|].
    apply bool_decide_eq_false_2. by intros [].
  - symmetry. f_equal. apply bool_decide_eq_false_2. intros [t Ht%received_at_in].
    apply andb_false_iff in E as [E%Z.leb_gt|E%Z.ltb_ge]; lia.
Qed.

Lemma find_next_ok m c b l n : rep m c b l → view_ok (Some (b, l)) →
  ∀ fuel s j t, b ≤ s ≤ j → Z.to_nat (j - s) = n → (n < fuel)%nat →
  received_at (Some (b, l)) j = Some t → (∀ k, s ≤ k < j → received_at (Some (b, l)) k = None) →
  find_next fuel m s = Some (t, j).
Proof.
  intros Hrep Hv. induction n as [|n IH]; intros fuel s j t Hs En Hf Hj Hk; destruct fuel as [|fuel]; try lia;
    pose proof (received_at_in _ _ _ Hj) as [Hr _]; cbn [first_number end_number find_next] in *.
  - assert (s = j) as -> by lia. cbn [received_at] in Hj.
    rewrite (proj2 (Z.ltb_ge j b)) in Hj by lia.
    destruct (l !! Z.to_nat (j - b)) as [u|] eqn:E; [|done]. cbn [mbind option_bind] in Hj.
    rewrite (time_at_ok m c b l j u); [|done|lia|done]. cbn [mbind option_bind].
    destruct (0 <=? u); [|done]. by injection Hj as ->.
  - destruct (lookup_lt_is_Some_2 l (Z.to_nat (s - b))) as [u E]; [lia|].
    rewrite (time_at_ok m c b l s u); [|done|lia|done]. cbn [mbind option_bind].
    specialize (Hk s ltac:(lia)) as Hks. cbn [received_at] in Hks.
    rewrite (proj2 (Z.ltb_ge s b)), E in Hks by lia. cbn [mbind option_bind] in Hks.
    destruct (0 <=? u); [done|]. unfold view_ok in Hv. rewrite s64_id by (unfold int64; lia).
    apply IH; [lia|lia|lia|done|]. intros k Hkr. apply Hk. lia.
Qed.

(** The search finds the next received packet, if there is one. *)
Lemma FindNextAtOrAfter_ok m v s j t : represents m v → view_ok v → first_number v ≤ s ≤ j →
  received_at v j = Some t → (∀ k, s ≤ k < j → received_at v k = None) →
  FindNextAtOrAfter m s = Some (t, j).
Proof.
  intros Hm Hv Hs Hj Hk. pose proof (received_at_in v j t Hj) as [Hr _]. unfold FindNextAtOrAfter.
  destruct (represents_range m v Hm) as [-> ->].
  rewrite (proj2 (Z.leb_le _ _)), (proj2 (Z.ltb_lt _ _)) by lia. cbn [dcheck mbind option_bind].
  destruct v as [[b l]|]; [|done]. destruct Hm as [c Hrep]. cbn [first_number end_number] in *.
  rewrite (rep_cap m c b l) by done. pose proof (rep_size _ _ _ _ Hrep).
  by apply (find_next_ok m c b l (Z.to_nat (j - s))); [..|lia|lia|lia| |].
Qed.

(** ** What the operations mean for the packets *)

(** A packet is refused if the map would have to grow by too much for it. *)
Definition too_old (v : view) (s : Z) : bool :=
  match v with
  | None => false
  | Some (b, l) => (s <? b) && (b + Z.of_nat (length l) - s >? kMaxNumberOfPackets)
  end.

Lemma lookup_time (l : list Z) (b s t : Z) (i : nat) : l !! i = Some t → s = b + Z.of_nat i → 
  received_at (Some (b, l)) s = if 0 <=? t then Some t else None.
Proof.
  intros Hi ->. cbn [received_at]. rewrite (proj2 (Z.ltb_ge _ b)) by lia.
  replace (Z.to_nat (b + Z.of_nat i - b)) with i by lia. by rewrite Hi.
Qed.

Lemma received_at_app b l k s : received_at (Some (b, l ++ k)) s =
  if s <? b + Z.of_nat (length l) then received_at (Some (b, l)) s
  else received_at (Some (b + Z.of_nat (length l), k)) s.
Proof.
  cbn [received_at]. destruct (Z.ltb_spec s b), (Z.ltb_spec s (b + Z.of_nat (length l))); try lia; try done.
  - by rewrite lookup_app_l by lia.
  - rewrite lookup_app_r by lia. by replace (Z.to_nat (s - b) - length l)%nat with
      (Z.to_nat (s - (b + Z.of_nat (length l)))) by lia.
Qed.

Lemma received_at_missing b n s : received_at (Some (b, replicate n MinusInfinity)) s = None.
Proof.
  cbn [received_at]. destruct (s <? b); [done|].
  destruct (replicate n MinusInfinity !! _) eqn:E; [|done]. by apply lookup_replicate in E as [-> _].
Qed.

Lemma received_at_drop b l n s : received_at (Some (b + Z.of_nat n, drop n l)) s =
  if s <? b + Z.of_nat n then None else received_at (Some (b, l)) s.
Proof.
  cbn [received_at]. destruct (Z.ltb_spec s (b + Z.of_nat n)); [done|].
  rewrite (proj2 (Z.ltb_ge s b)), lookup_drop by lia. do 3 f_equal. lia.
Qed.

Lemma received_at_outside v s : ¬ first_number v ≤ s < end_number v → received_at v s = None.
Proof. intros H. destruct (received_at v s) eqn:E; [|done]. apply received_at_in in E. lia. Qed.

(** Adding a packet: it is received at its time unless it is too old, and the others
    that are still in the window are as before. *)
Lemma spec_add_received v s t x : 0 ≤ t →
  received_at (spec_add v s t) x =
    if too_old v s then received_at v x
    else if x =? s then Some t
    else if x <? first_number (spec_add v s t) then None else received_at v x.
Proof.
  intros Ht. assert (Ht' : (0 <=? t) = true) by (by apply Z.leb_le). unfold spec_add, too_old.
  destruct v as [[b l]|].
  2: { cbn [first_number]. destruct (Z.eqb_spec x s) as [->|]; [by rewrite (lookup_time [t] s s t 0), Ht' by (done || lia)|].
       rewrite (received_at_outside (Some (s, [t]))) by (cbn; lia). by destruct (x <? s). }
  change kMaxNumberOfPackets with 32768. set (e := b + Z.of_nat (length l)).
  destruct (Z.ltb_spec s b) as [Hb|Hb]; cbn [andb].
  - rewrite (proj2 (Z.leb_gt b s)) by lia. cbn [andb]. rewrite Z.gtb_ltb.
    destruct (Z.ltb_spec 32768 (e - s)); [done|]. cbn [first_number].
    change (t :: replicate (Z.to_nat (b - s - 1)) MinusInfinity ++ l) with ([t] ++ replicate (Z.to_nat (b - s - 1)) MinusInfinity ++ l).
    rewrite !received_at_app, received_at_missing, length_replicate. cbn [length].
    destruct (Z.eqb_spec x s) as [->|Hx].
    + rewrite (proj2 (Z.ltb_lt _ _)) by lia. by rewrite (lookup_time [t] s s t 0), Ht' by (done || lia).
    + destruct (Z.ltb_spec x (s + Z.of_nat 1)); [rewrite (proj2 (Z.ltb_lt x s)), received_at_outside by (cbn; lia); done|].
      rewrite (proj2 (Z.ltb_ge x s)) by lia. replace (s + Z.of_nat 1 + Z.of_nat (Z.to_nat (b - s - 1))) with b by lia.
      destruct (Z.ltb_spec x b); [|done]. by rewrite (received_at_outside (Some (b, l))) by (cbn; lia).
  - rewrite (proj2 (Z.leb_le b s)) by lia. cbn [andb]. destruct (Z.ltb_spec s e) as [He|He].
    + cbn [first_number]. destruct (Z.eqb_spec x s) as [->|Hx].
      * rewrite (lookup_time _ b s t (Z.to_nat (s - b))), Ht'; [done| |lia].
        apply list_lookup_insert_eq. unfold e in He. lia.
      * cbn [received_at]. destruct (Z.ltb_spec x b); [done|]. by rewrite list_lookup_insert_ne by lia.
    + rewrite Z.geb_leb. destruct (Z.leb_spec (e + 32768) (s + 1)) as [Hall|Hsome].
      * cbn [first_number]. destruct (Z.eqb_spec x s) as [->|]; [by rewrite (lookup_time [t] s s t 0), Ht' by (done || lia)|].
        rewrite (received_at_outside (Some (s, [t]))) by (cbn; lia).
        destruct (Z.ltb_spec x s); [done|]. by rewrite received_at_outside by (cbn; lia).
      * set (old := Z.to_nat (s + 1 - 32768 - b)). cbn [first_number].
        assert (Hold : (old ≤ length l)%nat) by (unfold old, e in *; lia).
        assert (El : b + Z.of_nat old + Z.of_nat (length (drop old l)) = e) by (rewrite length_drop; unfold e; lia).
        rewrite !received_at_app, received_at_missing, length_replicate, El, received_at_drop.
        replace (e + Z.of_nat (Z.to_nat (s - e))) with s by lia.
        destruct (Z.eqb_spec x s) as [->|Hx].
        -- rewrite (proj2 (Z.ltb_ge s e)), (proj2 (Z.ltb_ge s s)) by lia.
           by rewrite (lookup_time [t] s s t 0), Ht' by (done || lia).
        -- destruct (Z.ltb_spec x e); [done|]. rewrite (received_at_outside (Some (b, l))) by (cbn; unfold e in *; lia).
           destruct (Z.ltb_spec x s); [by destruct (x <? _)|].
           rewrite received_at_outside by (cbn; lia). by destruct (x <? _).
Qed.

(** ** Ranges of received packets *)

(** The packets received among the [n] from [s] on, with their times. *)
Fixpoint received_list (v : view) (s : Z) (n : nat) : list (Z * Z) :=
  match n with
  | O => []
  | S n =>
      match received_at v s with
      | Some t => (s, t) :: received_list v (s + 1) n
      | None => received_list v (s + 1) n
      end
  end.

Lemma received_list_elem v s n x t :
  (x, t) ∈ received_list v s n ↔ s ≤ x < s + Z.of_nat n ∧ received_at v x = Some t.
Proof.
  revert s. induction n as [|n IH]; intros s; cbn [received_list].
  { rewrite elem_of_nil. split; [done|lia]. }
  assert (H : (x, t) ∈ received_list v (s + 1) n ↔ s + 1 ≤ x < s + 1 + Z.of_nat n ∧ received_at v x = Some t)
    by apply IH.
  destruct (received_at v s) as [u|] eqn:E.
  - rewrite elem_of_cons, H. split.
    + intros [[= -> ->]|[? ?]]; split; try done; lia.
    + intros [Hx Hr]. destruct (Z.eq_dec x s) as [->|]; [left; congruence|right]. split; [lia|done].
  - rewrite H. split; [intros [? ?]; split; [lia|done]|]. intros [Hx Hr].
    destruct (Z.eq_dec x s) as [->|]; [congruence|]. split; [lia|done].
Qed.

Lemma received_list_nil v s n : received_list v s n = [] →
  ∀ k, s ≤ k < s + Z.of_nat n → received_at v k = None.
Proof.
  intros E k Hk. destruct (received_at v k) as [t|] eqn:Er; [|done].
  assert (H : (k, t) ∈ received_list v s n) by (by apply received_list_elem).
  rewrite E in H. by apply not_elem_of_nil in H.
Qed.

Lemma received_list_cons v s n x t rest : received_list v s n = (x, t) :: rest →
  s ≤ x < s + Z.of_nat n ∧ received_at v x = Some t ∧ (∀ k, s ≤ k < x → received_at v k = None) ∧
  rest = received_list v (x + 1) (Z.to_nat (s + Z.of_nat n - (x + 1))).
Proof.
  revert s. induction n as [|n IH]; intros s; cbn [received_list]; [done|].
  destruct (received_at v s) as [u|] eqn:E.
  - intros [= -> -> <-]. split; [lia|]. split; [done|]. split; [lia|]. f_equal. lia.
  - intros (H1 & H2 & H3 & ->)%IH. split; [lia|]. split; [done|]. split.
    + intros k Hk. destruct (Z.eq_dec k s) as [->|]; [done|]. apply H3. lia.
    + f_equal. lia.
Qed.

(** Numbers before the map hold no packets. *)
Lemma received_list_skip v s s' n : s ≤ s' → (∀ k, s ≤ k < s' → received_at v k = None) →
  received_list v s n = received_list v s' (Z.to_nat (s + Z.of_nat n - s')).
Proof.
  intros Hs. revert s Hs. induction n as [|n IH]; intros s Hs Hk; cbn [received_list].
  { by replace (Z.to_nat (s + Z.of_nat 0 - s')) with 0%nat by lia. }
  destruct (Z.eq_dec s s') as [->|Hne].
  - replace (Z.to_nat (s' + Z.of_nat (S n) - s')) with (S n) by lia. done.
  - rewrite Hk by lia. rewrite IH by (lia || (intros; apply Hk; lia)). f_equal. lia.
Qed.

Lemma received_list_cut v s n n' : (n' ≤ n)%nat →
  (∀ k, s + Z.of_nat n' ≤ k < s + Z.of_nat n → received_at v k = None) →
  received_list v s n = received_list v s n'.
Proof.
  revert s n'. induction n as [|n IH]; intros s n' Hn Hk; [by replace n' with 0%nat by lia|].
  destruct n' as [|n']; cbn [received_list].
  - rewrite Hk by lia. rewrite (IH (s + 1) 0%nat); [done|lia|]. intros k ?. apply Hk. lia.
  - rewrite (IH (s + 1) n'); [done|lia|]. intros k ?. apply Hk. lia.
Qed.

(** The packets received in a range of numbers. *)
Definition received_in (v : view) (first last : Z) : list (Z * Z) :=
  received_list v first (Z.to_nat (last - first)).

Lemma received_in_clamp m v first last : represents m v → first < last →
  received_in v first last = received_in v (clamp m first) (clamp m last).
Proof.
  intros Hm Hlt. destruct (represents_range m v Hm) as [Eb Ee]. unfold clamp, received_in. rewrite Eb, Ee.
  assert (Hbe : first_number v ≤ end_number v) by (destruct v as [[b l]|]; cbn; lia).
  assert (Hout : ∀ k, k < first_number v ∨ end_number v ≤ k → received_at v k = None)
    by (intros k Hk; apply received_at_outside; lia).
  set (f' := if first <? first_number v then _ else _).
  assert (Hf : f' = Z.max (first_number v) (Z.min first (end_number v))).
  { unfold f'. destruct (Z.ltb_spec first (first_number v)), (Z.ltb_spec (end_number v) first); lia. }
  set (l' := if last <? first_number v then _ else _).
  assert (Hl : l' = Z.max (first_number v) (Z.min last (end_number v))).
  { unfold l'. destruct (Z.ltb_spec last (first_number v)), (Z.ltb_spec (end_number v) last); lia. }
  clearbody f' l'. destruct (Z.le_gt_cases (end_number v) first) as [Hge|Hin].
  { replace (Z.to_nat (l' - f')) with 0%nat by lia. apply (received_list_cut v first _ 0); [lia|].
    intros k Hk. apply Hout. lia. }
  rewrite (received_list_skip v first f'); [|lia|intros k Hk; apply Hout; lia].
  apply received_list_cut; [lia|]. intros k Hk. apply Hout. lia.
Qed.

Lemma represents_size m v : represents m v → end_number v - first_number v ≤ 32768.
Proof.
  destruct v as [[b l]|]; [|cbn; lia]. intros [c Hrep]. cbn.
  pose proof (rep_size _ _ _ _ Hrep). pose proof (capacity_range _ (rep_capacity _ _ _ _ Hrep)). lia.
Qed.

Lemma represents_memory m v : represents m v → Z.of_nat (length (arrival_times_ m)) ≤ 32768.
Proof.
  destruct v as [[b l]|]; [|by intros ->]. intros [c Hrep]. rewrite (rep_length _ _ _ _ Hrep).
  pose proof (capacity_range _ (rep_capacity _ _ _ _ Hrep)). lia.
Qed.

(** The last packet of the map was received. *)
Definition live (v : view) : Prop :=
  match v with
  | None => True
  | Some (b, l) => ∃ t, l !! pred (length l) = Some t ∧ 0 ≤ t
  end.

Lemma live_last v : live v → v ≠ None → ∃ t, received_at v (end_number v - 1) = Some t.
Proof.
  destruct v as [[b l]|]; [|done]. intros (t & Hl & Ht) _. exists t. cbn [end_number].
  rewrite (lookup_time l b _ t (pred (length l))); [by rewrite (proj2 (Z.leb_le 0 t))|done|].
  apply lookup_lt_Some in Hl. lia.
Qed.

Lemma live_end v s : live v → s < end_number v → first_number v ≤ s → ∃ t, received_at v (end_number v - 1) = Some t.
Proof. intros Hl Hs Hb. apply live_last; [done|]. intros ->. cbn in *. lia. Qed.

(** What follows a part of the packets of a range. *)
Lemma received_in_rest v s last P Q x t : received_in v s last = P ++ Q → P !! pred (length P) = Some (x, t) →
  Q = received_in v (x + 1) last ∧ s ≤ x < last.
Proof.
  revert s. induction P as [|[y u] P IH]; intros s E Hl; [done|]. unfold received_in in E.
  rewrite <- app_comm_cons in E. apply received_list_cons in E as (Hy & _ & _ & E).
  destruct P as [|p P].
  - cbn in Hl. injection Hl as -> ->. cbn in E. split; [|lia]. rewrite E. unfold received_in. f_equal. lia.
  - replace (Z.to_nat (s + Z.of_nat (Z.to_nat (last - s)) - (y + 1))) with (Z.to_nat (last - (y + 1))) in E by lia.
    symmetry in E. destruct (IH (y + 1) E) as [-> ?]; [exact Hl|]. split; [done|lia].
Qed.

(** ** Ranges and the last packet under the operations *)

Lemma spec_add_some v s t : spec_add v s t ≠ None.
Proof.
  destruct v as [[b l]|]; [|done]. cbn [spec_add].
  repeat match goal with |- context [if ?c then _ else _] => destruct c end; done.
Qed.

Lemma spec_add_too_old v s t : too_old v s = true → spec_add v s t = v ∧ s < first_number v.
Proof.
  unfold too_old, spec_add. destruct v as [[b l]|]; [|done]. intros [E1 E2]%andb_true_iff. apply Z.ltb_lt in E1 as E1'.
  rewrite (proj2 (Z.leb_gt b s)), E1, E2 by lia. done.
Qed.

Lemma spec_add_range v s t : v ≠ None →
  Z.min (first_number v) s ≤ first_number (spec_add v s t) ∧
  end_number v ≤ end_number (spec_add v s t) ≤ Z.max (end_number v) (s + 1) ∧
  (first_number (spec_add v s t) ≤ s < end_number (spec_add v s t) ∨ too_old v s = true).
Proof.
  intros Hv. destruct v as [[b l]|]; [|done]. unfold spec_add, too_old. change kMaxNumberOfPackets with 32768.
  set (e := b + Z.of_nat (length l)). assert (He : e = b + Z.of_nat (length l)) by done.
  rewrite !Z.geb_leb, !Z.gtb_ltb.
  repeat match goal with |- context [?x <? ?y] => destruct (Z.ltb_spec x y)
    | |- context [?x <=? ?y] => destruct (Z.leb_spec x y) end; cbn [andb first_number end_number];
    rewrite ?length_insert, ?length_cons, ?length_app, ?length_drop, ?length_replicate; cbn [length]; try lia;
    rewrite <- He; split_and!; lia || (right; reflexivity) || (left; lia).
Qed.

Lemma too_old_by v s : too_old v s = true → kMaxNumberOfPackets < end_number v - s.
Proof. destruct v as [[b l]|]; [|done]. cbn [too_old end_number]. by intros [_ ?%Z.gtb_lt]%andb_true_iff. Qed.

Lemma live_insert (l : list Z) i t : 0 ≤ t → (∃ u, l !! pred (length l) = Some u ∧ 0 ≤ u) →
  ∃ u, <[i := t]> l !! pred (length (<[i := t]> l)) = Some u ∧ 0 ≤ u.
Proof.
  intros Ht (u & Hu & Hp). rewrite length_insert. destruct (decide (i = pred (length l))) as [->|Hne].
  - exists t. rewrite list_lookup_insert_eq; [done|]. by apply lookup_lt_Some in Hu.
  - exists u. by rewrite list_lookup_insert_ne.
Qed.

(** An emptied map takes only packets behind its end. *)
Definition live_for (v : view) (s : Z) : Prop := live v ∨ ∃ b, v = Some (b, []) ∧ b ≤ s.

Lemma last_app (k l : list Z) : l ≠ [] → (k ++ l) !! pred (length (k ++ l)) = l !! pred (length l).
Proof.
  intros Hl. assert (0 < length l)%nat by (by destruct l; [|cbn; lia]). rewrite length_app, lookup_app_r by lia.
  f_equal. lia.
Qed.

Lemma spec_add_live v s t : 0 ≤ t → live_for v s → live (spec_add v s t).
Proof.
  intros Ht Hl. destruct v as [[b l]|]; [|by exists t]. cbn [spec_add].
  assert (Hin : l ≠ [] ∧ live (Some (b, l)) ∨ l = [] ∧ b ≤ s).
  { destruct Hl as [Hl|(b' & [= -> ->] & ?)]; [left; split; [|done]|by right]. destruct Hl as (u & Hu & _). by destruct l. }
  destruct ((b <=? s) && _) eqn:E1.
  { apply andb_true_iff in E1 as [?%Z.leb_le ?%Z.ltb_lt]. destruct Hin as [[_ Hl']|[-> _]]; [|cbn in *; lia].
    by apply live_insert. }
  destruct (Z.ltb_spec s b) as [Hlt|Hge].
  { destruct Hin as [[Hn Hl']|[-> ?]]; [|lia]. destruct (_ >? _); [done|]. destruct Hl' as (u & Hu & Hp).
    exists u. split; [|done]. rewrite app_comm_cons, last_app by done. done. }
  destruct (_ >=? _); [by exists t|]. exists t. rewrite app_assoc, last_app by done. done.
Qed.

Lemma live_drop b l n : (n < length l)%nat → live (Some (b, l)) → live (Some (b + Z.of_nat n, drop n l)).
Proof.
  intros Hn (u & Hu & Hp). exists u. split; [|done]. rewrite length_drop, lookup_drop.
  by replace (n + pred (length l - n))%nat with (pred (length l)) by lia.
Qed.

(** Old packets are dropped from the front, all of them only for a number behind them. *)
Lemma spec_remove_spec v s limit : live v →
  live_for (spec_remove v s limit) s ∧ end_number (spec_remove v s limit) = end_number v ∧
  first_number v ≤ first_number (spec_remove v s limit) ∧
  ((spec_remove v s limit) = None ↔ v = None) ∧
  (first_number (spec_remove v s limit) ≤ Z.max s (first_number v)) ∧
  ∀ x, received_at (spec_remove v s limit) x =
    if x <? first_number (spec_remove v s limit) then None else received_at v x.
Proof.
  intros Hl. destruct v as [[b l]|]; [|by split_and!; [left|..|intros; cbn; destruct (_ <? _)]; cbn; try lia].
  cbn [spec_remove]. pose proof (old_packets_le (Z.to_nat (s - b)) limit l) as [H1 H2].
  set (n := old_packets _ _ _) in *. clearbody n. split.
  { destruct (decide (n < length l)%nat); [left; by apply live_drop|]. right.
    exists (b + Z.of_nat n). rewrite drop_ge by lia. split; [done|]. destruct Hl as (u & Hu & _).
    apply lookup_lt_Some in Hu. lia. }
  cbn [end_number first_number]. rewrite length_drop. split; [lia|]. split; [lia|]. split; [done|]. split; [lia|].
  intros x. apply received_at_drop.
Qed.

Lemma spec_erase_spec v s : live v → s < end_number v →
  live (spec_erase v s) ∧ end_number (spec_erase v s) = end_number v ∧
  first_number v ≤ first_number (spec_erase v s) ∧ ((spec_erase v s) = None ↔ v = None) ∧
  ∀ x, received_at (spec_erase v s) x = if x <? s then None else received_at v x.
Proof.
  intros Hl Hs. destruct v as [[b l]|]; [|by split_and!; [..|intros; cbn; destruct (_ <? _)]].
  cbn [spec_erase end_number first_number] in *.
  assert (Hn : (length l `min` Z.to_nat (s - b))%nat = Z.to_nat (s - b) ∧ (Z.to_nat (s - b) < length l)%nat).
  { destruct Hl as (u & Hu & _). apply lookup_lt_Some in Hu. lia. }
  destruct Hn as [-> Hn]. split; [by apply live_drop|]. rewrite length_drop. split; [lia|]. split; [lia|]. split; [done|].
  intros x. rewrite received_at_drop. destruct (Z.ltb_spec x (b + Z.of_nat (Z.to_nat (s - b)))), (Z.ltb_spec x s); try lia; try done.
  rewrite received_at_outside; [done|]. cbn. lia.
Qed.

(** ** Sessions of the map *)

Inductive op : Type :=
  | OpAdd (sequence_number arrival_time : Z)
  | OpRemove (sequence_number arrival_time_limit : Z)
  | OpErase (sequence_number : Z).

Definition step (m : PacketArrivalTimeMap) (o : op) : option PacketArrivalTimeMap :=
  match o with
  | OpAdd s t => AddPacket m s t
  | OpRemove s limit => RemoveOldPackets m s limit
  | OpErase s => EraseTo m s
  end.

Fixpoint run (m : PacketArrivalTimeMap) (os : list op) : option PacketArrivalTimeMap :=
  match os with
  | [] => Some m
  | o :: os => m ← step m o; run m os
  end.

Definition op_ok (o : op) : Prop :=
  match o with OpAdd s t => number_ok s ∧ 0 ≤ t | _ => True end.

(** What a client reads about a packet: its arrival time, if it was received. *)
Definition arrival (m : PacketArrivalTimeMap) (s : Z) : option (option Z) :=
  seen ← has_received m s;
  if (seen : bool) then t ← get m s; Some (Some t) else Some None.

(** What it reads after an operation, from what it read before. *)
Definition outcome (o : op) (first : Z) (old : Z → option Z) (x : Z) : option Z :=
  match o with
  | OpAdd s t => if x <? first then None else if x =? s then Some t else old x
  | OpRemove _ _ => if x <? first then None else old x
  | OpErase s => if x <? s then None else old x
  end.

(** Nothing is forgotten without a reason. *)
Definition forgets (o : op) (last first : Z) (old : Z → option Z) : Prop :=
  match o with
  | OpAdd s t =>
      (s < first → kMaxNumberOfPackets < last - s) ∧
      ∀ x u, old x = Some u → x < first → x + kMaxNumberOfPackets ≤ s
  | OpRemove s limit => ∀ x u, old x = Some u → x < first → x < s ∧ u ≤ limit
  | OpErase _ => True
  end.

Definition spec_step (v : view) (o : op) : view :=
  match o with
  | OpAdd s t => spec_add v s t
  | OpRemove s limit => spec_remove v s limit
  | OpErase s => spec_erase v s
  end.

Lemma map_step_ok m v o : represents m v → view_ok v → op_ok o →
  ∃ m', step m o = Some m' ∧ represents m' (spec_step v o) ∧ view_ok (spec_step v o).
Proof.
  intros Hm Hv Ho. destruct o as [s t|s limit|s]; cbn [step spec_step op_ok] in *.
  - destruct Ho. by apply map_AddPacket_ok.
  - by apply RemoveOldPackets_ok.
  - by apply EraseTo_ok.
Qed.

Lemma run_ok os : ∀ m v, represents m v → view_ok v → Forall op_ok os →
  ∃ m' v', run m os = Some m' ∧ represents m' v' ∧ view_ok v'.
Proof.
  induction os as [|o os IH]; intros m v Hm Hv Ho; cbn [run]; [by exists m, v|].
  apply Forall_cons_1 in Ho as [Ho Hos]. destruct (map_step_ok m v o Hm Hv Ho) as (m1 & -> & Hm1 & Hv1).
  cbn [mbind option_bind]. by apply (IH m1 (spec_step v o)).
Qed.

Lemma arrival_ok m v s : represents m v → arrival m s = Some (received_at v s).
Proof.
  intros Hm. unfold arrival. rewrite (has_received_ok m v s Hm). cbn [mbind option_bind].
  case_bool_decide as H; [|by apply eq_None_not_Some in H as ->]. destruct H as [t Ht]. rewrite Ht.
  destruct (received_at_in v s t Ht) as [Hr _]. unfold get. destruct (represents_range m v Hm) as [-> ->].
  rewrite (proj2 (Z.leb_le _ _)), (proj2 (Z.ltb_lt _ _)) by lia. cbn [dcheck mbind option_bind].
  destruct v as [[b l]|]; [|done]. destruct Hm as [c Hrep]. cbn [received_at first_number] in *.
  rewrite (proj2 (Z.ltb_ge s b)) in Ht by lia. destruct (l !! Z.to_nat (s - b)) as [u|] eqn:E; [|done].
  cbn [mbind option_bind] in Ht. rewrite (time_at_ok m c b l s u) by (done || lia). cbn [mbind option_bind].
  destruct (0 <=? u); [|done]. by injection Ht as ->.
Qed.

(** Packets leave the front of the map only when the newest is far ahead. *)
Lemma spec_add_first v s t x u : received_at v x = Some u → x < first_number (spec_add v s t) →
  x + kMaxNumberOfPackets ≤ s.
Proof.
  intros [Hr _]%received_at_in Hx. destruct v as [[b l]|]; [|cbn in Hr; lia].
  cbn [spec_add first_number end_number] in *. change kMaxNumberOfPackets with 32768 in *. rewrite Z.geb_leb in Hx.
  destruct ((b <=? s) && _) eqn:E; [cbn in Hx; lia|].
  destruct (Z.ltb_spec s b); [destruct (_ >? _); cbn in Hx; lia|].
  destruct (Z.leb_spec (b + Z.of_nat (length l) + 32768) (s + 1)); cbn in Hx; lia.
Qed.

Lemma old_packets_old n limit l i t : (i < old_packets n limit l)%nat → l !! i = Some t → (i < n)%nat ∧ t ≤ limit.
Proof.
  revert n i. induction l as [|u l IH]; intros [|n] i; cbn [old_packets]; try lia.
  destruct (Z.leb_spec u limit); [|lia]. destruct i as [|i]; cbn; [intros _ [= <-]; lia|].
  intros Hi Hl. destruct (IH n i) as [??]; [lia|done|]. lia.
Qed.

Lemma outcome_ok v o : op_ok o → (∀ x, received_at (spec_step v o) x =
    outcome o (first_number (spec_step v o)) (received_at v) x) ∧
  forgets o (end_number v) (first_number (spec_step v o)) (received_at v).
Proof.
  intros Ho. destruct o as [s t|s limit|s]; cbn [op_ok spec_step outcome forgets] in *.
  - destruct Ho as [_ Ht]. split; [|split].
    + intros x. rewrite spec_add_received by done. destruct (too_old v s) eqn:Eo.
      * destruct (spec_add_too_old v s t Eo) as [-> Hlt]. destruct (Z.ltb_spec x (first_number v)).
        { by rewrite received_at_outside by lia. }
        destruct (Z.eqb_spec x s); [lia|done].
      * destruct (Z.eqb_spec x s) as [->|]; [|done]. destruct (Z.ltb_spec s (first_number (spec_add v s t))); [|done].
        exfalso. destruct v as [[b l]|]; [|cbn in *; lia].
        destruct (spec_add_range (Some (b, l)) s t) as (_ & _ & [[? _]|?]); [done|lia|congruence].
    + intros Hlt. destruct v as [[b l]|]; [|cbn in *; lia].
      destruct (spec_add_range (Some (b, l)) s t) as (_ & _ & [[? _]|Ho]); [done|lia|].
      by apply too_old_by.
    + intros x u. apply spec_add_first.
  - destruct v as [[b l]|]; [|split; [intros x; cbn; by destruct (_ <? _)|done]]. cbn [spec_remove first_number].
    split; [intros x; apply received_at_drop|]. intros x u Hx Hlt.
    assert (Hr := Hx). apply received_at_in in Hr as [Hr _]. cbn [received_at first_number end_number] in *.
    rewrite (proj2 (Z.ltb_ge x b)) in Hx by lia. destruct (l !! Z.to_nat (x - b)) as [u'|] eqn:E; [|done].
    cbn [mbind option_bind] in Hx. destruct (0 <=? u'); [injection Hx as ->|done].
    apply (old_packets_old (Z.to_nat (s - b)) limit) in E as [??]; lia.
  - split; [|done]. intros x. destruct v as [[b l]|]; [|cbn; by destruct (_ <? _)]. cbn [spec_erase].
    set (n := Nat.min _ _). rewrite received_at_drop.
    destruct (Z.ltb_spec x (b + Z.of_nat n)), (Z.ltb_spec x s); try done.
    + rewrite received_at_outside by (cbn; unfold n in *; lia). done.
    + rewrite received_at_outside by (cbn; unfold n in *; lia). done.
Qed.

(** C7: The circular buffer implements a bounded map from sequence numbers to arrival
    times. After any operations every operation runs without a failed check, without
    reading memory that was never written and without leaving its buffer; what a
    client reads afterwards is what it read before, with the packet added at its time,
    or without the old packets; a packet is refused only if it lies more than 2^15
    behind the end, forgotten only if it lies 2^15 behind a new one, is old enough to
    be removed or was erased; and the range and the memory never exceed 2^15 packets. *)
Theorem arrival_map_refines (os : list op) (o : op) :
  Forall op_ok os → op_ok o →
  ∃ m m' old, run new_map os = Some m ∧ step m o = Some m' ∧
    (∀ x, arrival m x = Some (old x)) ∧
    (∀ x, arrival m' x = Some (outcome o (begin_sequence_number_ m') old x)) ∧
    forgets o (end_sequence_number_ m) (begin_sequence_number_ m') old ∧
    end_sequence_number_ m' - begin_sequence_number_ m' ≤ kMaxNumberOfPackets ∧
    Z.of_nat (length (arrival_times_ m')) ≤ kMaxNumberOfPackets.
Proof.
  intros Hos Ho. destruct (run_ok os new_map None eq_refl I Hos) as (m & v & E & Hm & Hv).
  destruct (map_step_ok m v o Hm Hv Ho) as (m' & E' & Hm' & Hv'). destruct (outcome_ok v o Ho) as [Hout Hf].
  exists m, m', (received_at v). destruct (represents_range m v Hm) as [_ ->].
  destruct (represents_range m' _ Hm') as [-> ->]. split_and!; try done.
  - intros x. by apply arrival_ok.
  - intros x. rewrite <- Hout. by apply arrival_ok.
  - by apply (represents_size m').
  - by apply (represents_memory m' (spec_step v o)).
Qed.

Lemma arrival_map_refines_witness :
  ∃ m m' old, run new_map [OpAdd 65530 1000; OpAdd 65533 3000; OpRemove 65534 1500] = Some m ∧
    step m (OpAdd 65700 2000) = Some m' ∧
    (∀ x, arrival m x = Some (old x)) ∧
    (∀ x, arrival m' x = Some (outcome (OpAdd 65700 2000) (begin_sequence_number_ m') old x)) ∧
    forgets (OpAdd 65700 2000) (end_sequence_number_ m) (begin_sequence_number_ m') old ∧
    end_sequence_number_ m' - begin_sequence_number_ m' ≤ kMaxNumberOfPackets ∧
    Z.of_nat (length (arrival_times_ m')) ≤ kMaxNumberOfPackets.
Proof.
  apply (arrival_map_refines [OpAdd 65530 1000; OpAdd 65533 3000; OpRemove 65534 1500] (OpAdd 65700 2000));
    [|unfold op_ok, number_ok; lia].
  repeat (apply Forall_cons_2; [unfold op_ok, number_ok; lia || done|]). apply Forall_nil_2.
Defined.

(** The header says that the last packet of the map has always been received. That holds as
    long as an emptied map gets packets behind its end only: after [EraseTo] has erased
    everything, a packet before the end is entered with placeholders up to the end. *)
Lemma last_not_received :
  ∃ m, run new_map [OpAdd 100 5; OpErase 101; OpAdd 50 7] = Some m ∧
    end_sequence_number_ m = 101 ∧ arrival m 100 = Some None ∧ arrival m 50 = Some (Some 7).
Proof.
  exists (mkMap (<[50%nat := Some 7]> (replicate 50 None ++ replicate 51 (Some MinusInfinity) ++ replicate 27 None)) 127 50 101).
  lazy. done.
Qed.

End ArrivalMap.
