(* ===== verification/TransportChunk.v ===== *)
(** * Packet status chunks of transport-wide feedback
    (modules/rtp_rtcp/source/rtcp_packet/transport_feedback.cc, class LastChunk)

    A 16-bit chunk tells for a run of packets how many bytes their receive deltas
    take: 0 for a lost packet, 1 or 2. Three encodings exist: a run of equal symbols,
    14 symbols of one bit, 7 symbols of two bits. The class gathers symbols as long as
    one chunk can hold them. *)

From S2P Require Import Prelude Rtcp.
Import Rtcp.

Module TransportChunk.

Definition kMaxRunLengthCapacity : Z := 0x1fff.
Definition kMaxOneBitCapacity : Z := 14.
Definition kMaxTwoBitCapacity : Z := 7.
Definition kMaxVectorCapacity : Z := kMaxOneBitCapacity.
Definition kLarge : Z := 2.

Record LastChunk := mkChunk {
  delta_sizes_ : list Z;
  size_ : Z;
  all_same_ : bool;
  has_large_delta_ : bool;
}.

Definition Empty (self : LastChunk) : bool := size_ self =? 0.

Definition Clear (self : LastChunk) : LastChunk := mkChunk (delta_sizes_ self) 0 true false.

Definition CanAdd (self : LastChunk) (delta_size : Z) : option bool :=
  _ ← dcheck (delta_size <=? 2);
  if size_ self <? kMaxTwoBitCapacity then Some true
  else if (size_ self <? kMaxOneBitCapacity) && negb (has_large_delta_ self) &&
          negb (delta_size =? kLarge) then Some true
  else if (size_ self <? kMaxRunLengthCapacity) && all_same_ self then
    d0 ← delta_sizes_ self !! 0%nat;
    Some (d0 =? delta_size)
  else Some false.

Definition Add (self : LastChunk) (delta_size : Z) : option LastChunk :=
  ok ← CanAdd self delta_size;
  _ ← dcheck ok;
  ds ← (if size_ self <? kMaxVectorCapacity
        then wr (delta_sizes_ self) (Z.to_nat (size_ self)) delta_size
        else Some (delta_sizes_ self));
  d0 ← ds !! 0%nat;
  Some (mkChunk ds (size_ self + 1) (all_same_ self && (delta_size =? d0))
          (has_large_delta_ self || (delta_size =? kLarge))).

Definition AddMissingPackets (self : LastChunk) (num_missing : Z) : option LastChunk :=
  _ ← dcheck (size_ self =? 0);
  _ ← dcheck (all_same_ self);
  _ ← dcheck (negb (has_large_delta_ self));
  _ ← dcheck (num_missing <? kMaxRunLengthCapacity);
  Some (mkChunk (replicate (length (delta_sizes_ self)) 0) num_missing (all_same_ self)
          (has_large_delta_ self)).

(** ** Encoding *)

Definition EncodeOneBit (self : LastChunk) : option Z :=
  _ ← dcheck (negb (has_large_delta_ self));
  _ ← dcheck (size_ self <=? kMaxOneBitCapacity);
  for_loop (Z.to_nat (size_ self)) 0 (λ i chunk,
    d ← delta_sizes_ self !! i;
    s ← shl32 d (kMaxOneBitCapacity - 1 - Z.of_nat i);
    Some (u16 (Z.lor chunk s))) 0x8000.

Definition EncodeTwoBit (self : LastChunk) (size : Z) : option Z :=
  _ ← dcheck (size <=? size_ self);
  for_loop (Z.to_nat size) 0 (λ i chunk,
    d ← delta_sizes_ self !! i;
    s ← shl32 d (2 * (kMaxTwoBitCapacity - 1 - Z.of_nat i));
    Some (u16 (Z.lor chunk s))) 0xc000.

Definition EncodeRunLength (self : LastChunk) : option Z :=
  _ ← dcheck (all_same_ self);
  _ ← dcheck (size_ self <=? kMaxRunLengthCapacity);
  d0 ← delta_sizes_ self !! 0%nat;
  Some (u16 (Z.lor (Z.shiftl d0 13) (u16 (size_ self)))).

Definition EncodeLast (self : LastChunk) : option Z :=
  _ ← dcheck (0 <? size_ self);
  if all_same_ self then EncodeRunLength self
  else if size_ self <=? kMaxTwoBitCapacity then EncodeTwoBit self (size_ self)
  else EncodeOneBit self.

(** The symbols behind the first seven move to the front. *)
Definition shift_symbols (self : LastChunk) : option LastChunk :=
  let size := size_ self - kMaxTwoBitCapacity in
  for_loop (Z.to_nat size) 0 (λ i c,
    d ← delta_sizes_ c !! (Z.to_nat kMaxTwoBitCapacity + i)%nat;
    ds ← wr (delta_sizes_ c) i d;
    d0 ← ds !! 0%nat;
    Some (mkChunk ds (size_ c) (all_same_ c && (d =? d0)) (has_large_delta_ c || (d =? kLarge))))
    (mkChunk (delta_sizes_ self) size true false).

Definition Emit (self : LastChunk) : option (Z * LastChunk) :=
  b0 ← CanAdd self 0;
  b1 ← CanAdd self 1;
  b2 ← CanAdd self 2;
  _ ← dcheck (negb b0 || negb b1 || negb b2);
  if all_same_ self then
    chunk ← EncodeRunLength self;
    Some (chunk, Clear self)
  else if size_ self =? kMaxOneBitCapacity then
    chunk ← EncodeOneBit self;
    Some (chunk, Clear self)
  else
    _ ← dcheck (kMaxTwoBitCapacity <=? size_ self);
    chunk ← EncodeTwoBit self kMaxTwoBitCapacity;
    self ← shift_symbols self;
    Some (chunk, self).

(** ** Decoding *)

(** Appends the content to [deltas]. *)
Definition AppendTo (self : LastChunk) (deltas : list Z) : option (list Z) :=
  if all_same_ self then
    d0 ← delta_sizes_ self !! 0%nat;
    Some (deltas ++ replicate (Z.to_nat (size_ self)) d0)
  else
    _ ← dcheck (Z.to_nat (size_ self) <=? length (delta_sizes_ self))%nat;
    Some (deltas ++ take (Z.to_nat (size_ self)) (delta_sizes_ self)).

Definition DecodeOneBit (self : LastChunk) (chunk max_size : Z) : option LastChunk :=
  _ ← dcheck (Z.land chunk 0xc000 =? 0x8000);
  let size := Z.min kMaxOneBitCapacity max_size in
  ds ← for_loop (Z.to_nat size) 0 (λ i ds,
         s ← shr32 chunk (kMaxOneBitCapacity - 1 - Z.of_nat i);
         wr ds i (Z.land s 0x01)) (delta_sizes_ self);
  Some (mkChunk ds size false false).

Definition DecodeTwoBit (self : LastChunk) (chunk max_size : Z) : option LastChunk :=
  _ ← dcheck (Z.land chunk 0xc000 =? 0xc000);
  let size := Z.min kMaxTwoBitCapacity max_size in
  ds ← for_loop (Z.to_nat size) 0 (λ i ds,
         s ← shr32 chunk (2 * (kMaxTwoBitCapacity - 1 - Z.of_nat i));
         wr ds i (Z.land s 0x03)) (delta_sizes_ self);
  Some (mkChunk ds size false true).

Definition DecodeRunLength (self : LastChunk) (chunk max_count : Z) : option LastChunk :=
  _ ← dcheck (Z.land chunk 0x8000 =? 0);
  let size := Z.min (Z.land chunk 0x1fff) max_count in
  let delta_size := Z.land (Z.shiftr chunk 13) 0x03 in
  ds ← for_loop (Z.to_nat (Z.min size kMaxVectorCapacity)) 0 (λ i ds, wr ds i delta_size)
         (delta_sizes_ self);
  Some (mkChunk ds size true (kLarge <=? delta_size)).

Definition Decode (self : LastChunk) (chunk max_size : Z) : option LastChunk :=
  if Z.land chunk 0x8000 =? 0 then DecodeRunLength self chunk max_size
  else if Z.land chunk 0x4000 =? 0 then DecodeOneBit self chunk max_size
  else DecodeTwoBit self chunk max_size.

(** ** What a chunk stands for *)

(** The symbols gathered so far. *)
Definition contents (self : LastChunk) : list Z :=
  if all_same_ self then replicate (Z.to_nat (size_ self)) (delta_sizes_ self !!! 0%nat)
  else take (Z.to_nat (size_ self)) (delta_sizes_ self).

(** The [cap] symbols of [b] bits each in the low 14 bits. *)
Definition vector (b : Z) (cap : nat) (chunk : Z) : list Z :=
  map (λ i, chunk / 2 ^ (b * (Z.of_nat cap - 1 - Z.of_nat i)) mod 2 ^ b) (seq 0 cap).

(** The symbols of a chunk, as the comments on the three encodings lay them out. *)
Definition symbols (chunk : Z) : list Z :=
  if chunk <? 0x8000 then replicate (Z.to_nat (chunk mod 8192)) (chunk / 8192 mod 4)
  else if chunk <? 0xc000 then vector 1 14 chunk
  else vector 2 7 chunk.

(** ** Vectors of symbols *)

(** [w] followed by symbols of [b] bits. *)
Definition pack (b w : Z) (l : list Z) : Z := foldl (λ w d, w * 2 ^ b + d) w l.

Section pack.
Context (b : Z) (Hb : 0 < b).

Lemma pack_app w l k : pack b w (l ++ k) = pack b (pack b w l) k.
Proof. apply foldl_app. Qed.

Lemma pack_split w l :
  pack b w l = w * 2 ^ (b * Z.of_nat (length l)) + pack b 0 l.
Proof using Hb.
  revert w. induction l as [|d l IH]; intros w; cbn [pack foldl length].
  { rewrite Z.mul_0_r. change (2 ^ 0) with 1. lia. }
  fold (pack b (w * 2 ^ b + d) l) (pack b (0 * 2 ^ b + d) l).
  rewrite (IH (w * 2 ^ b + d)), (IH (0 * 2 ^ b + d)), Nat2Z.inj_succ, Z.mul_succ_r, Z.pow_add_r by lia. lia.
Qed.

Definition small (d : Z) : Prop := 0 ≤ d < 2 ^ b.

Lemma pack_bounds l : Forall small l → 0 ≤ pack b 0 l < 2 ^ (b * Z.of_nat (length l)).
Proof using Hb.
  induction l as [|d l IH] using rev_ind; intros H; [cbn [length]; rewrite Z.mul_0_r; cbn; lia|].
  apply Forall_app in H as [H1 H2]. apply Forall_cons_1 in H2 as [H2 _].
  specialize (IH H1). rewrite pack_app, length_app. cbn [pack foldl length].
  rewrite Nat2Z.inj_add, Z.mul_add_distr_l, Z.pow_add_r by lia.
  replace (b * Z.of_nat 1) with b by lia. unfold small in H2. nia.
Qed.

Lemma vector_pack w cap l : Forall small l → length l = cap →
  vector b cap (pack b w l) = l.
Proof using Hb.
  intros Hs Hl. apply list_eq. intros i. unfold vector. rewrite list_lookup_fmap.
  destruct (decide (i < cap)%nat) as [Hi|Hi].
  - rewrite lookup_seq_lt by done. cbn [fmap option_fmap option_map Nat.add].
    destruct (lookup_lt_is_Some_2 l i) as [d Hd]; [lia|]. rewrite Hd. f_equal.
    pose proof (take_drop_middle l i d Hd) as E. set (l1 := take i l) in *.
    set (l2 := drop (S i) l) in *.
    assert (H2 : length l2 = (cap - 1 - i)%nat) by (unfold l2; rewrite length_drop; lia).
    rewrite <- E in Hs |- *. apply Forall_app in Hs as [_ Hs]. apply Forall_cons_1 in Hs as [Hd' Hs].
    rewrite pack_app. change (d :: l2) with ([d] ++ l2). rewrite pack_app, (pack_split _ l2), H2.
    pose proof (pack_bounds l2 Hs) as Hp. rewrite H2 in Hp.
    replace (b * (Z.of_nat cap - 1 - Z.of_nat i)) with (b * Z.of_nat (cap - 1 - i)) by (f_equal; lia).
    pose proof (Z.pow_pos_nonneg 2 b ltac:(lia) ltac:(lia)).
    set (P := 2 ^ (b * Z.of_nat (cap - 1 - i))) in *. clearbody P.
    rewrite Z.div_add_l, (Z.div_small (pack b 0 l2)), Z.add_0_r by lia. cbn [pack foldl].
    rewrite Z.add_comm, Z.mod_add by lia. apply Z.mod_small. exact Hd'.
  - rewrite lookup_ge_None_2 by (rewrite length_seq; lia). by rewrite lookup_ge_None_2 by lia.
Qed.

Lemma pack_zeros w n : pack b w (replicate n 0) = w * 2 ^ (b * Z.of_nat n).
Proof using Hb.
  rewrite pack_split, length_replicate. enough (pack b 0 (replicate n 0) = 0) by lia.
  induction n as [|n IH]; [done|]. rewrite replicate_S_end, pack_app, IH. done.
Qed.

(** The encoding loop. *)
Lemma encode_vector w cap ds n :
  Forall small (take n ds) → (n ≤ length ds)%nat → (n ≤ cap)%nat → 0 ≤ w < 4 →
  b * Z.of_nat cap = 14 →
  for_loop n 0 (λ i chunk,
    d ← ds !! i;
    s ← shl32 d (b * (Z.of_nat cap - 1 - Z.of_nat i));
    Some (u16 (Z.lor chunk s))) (w * 2 ^ 14) =
  Some (pack b w (take n ds ++ replicate (cap - n) 0)).
Proof using Hb.
  intros Hs Hn Hc Hw Hbc.
  enough (H : wp (for_loop n 0 (λ i chunk,
    d ← ds !! i;
    s ← shl32 d (b * (Z.of_nat cap - 1 - Z.of_nat i));
    Some (u16 (Z.lor chunk s))) (w * 2 ^ 14))
    (eq (pack b w (take n ds ++ replicate (cap - n) 0)))).
  { apply wp_exists in H as (c & -> & <-). done. }
  apply (wp_for (λ i chunk, chunk = pack b w (take i ds ++ replicate (cap - i) 0))).
  - rewrite take_0, Nat.sub_0_r. cbn [app]. rewrite pack_zeros, Hbc. done.
  - intros i c Hi ->. apply wp_bind, wp_lookup; [lia|]. intros d Hd.
    assert (Hd' : small d).
    { eapply (Forall_lookup_1 _ _ i); [exact Hs|]. by rewrite lookup_take_lt by lia. }
    assert (Hd2 : 0 ≤ d < 2 ^ b) by exact Hd'.
    unfold shl32.
    set (e := b * (Z.of_nat cap - 1 - Z.of_nat i)).
    assert (He : 0 ≤ e /\ e + b ≤ 14) by (unfold e; nia).
    rewrite (proj2 (Z.leb_le 0 e)), (proj2 (Z.ltb_lt e 32)) by lia.
    cbn [andb]. apply wp_bind, wp_ret, wp_ret.
    assert (Hp : d * 2 ^ e < 2 ^ 14).
    { apply Z.lt_le_trans with (2 ^ b * 2 ^ e); [pose proof (Z.pow_pos_nonneg 2 e); nia|].
      rewrite <- Z.pow_add_r by lia. apply Z.pow_le_mono_r; lia. }
    pose proof (Z.pow_pos_nonneg 2 e ltac:(lia) ltac:(lia)) as He0.
    change (2 ^ 14) with 16384 in Hp.
    rewrite Z.shiftl_mul_pow2, s32_id by first [lia | unfold int32; nia].
    rewrite (pack_app w (take i ds)), pack_zeros.
    set (q := pack b w (take i ds)).
    rewrite (take_S_r _ _ _ Hd), <- app_assoc, (pack_app w (take i ds)). fold q.
    cbn [app]. change (d :: replicate (cap - S i) 0) with ([d] ++ replicate (cap - S i) 0).
    rewrite pack_app, pack_zeros. cbn [pack foldl].
    replace (b * Z.of_nat (cap - S i)) with e by (unfold e; nia).
    replace (b * Z.of_nat (cap - i)) with (b + e) by (unfold e; nia).
    rewrite Z.pow_add_r, Z.mul_assoc by lia.
    rewrite <- !Z.shiftl_mul_pow2, <- Z.shiftl_lor by lia.
    rewrite lor_shiftl, !Z.shiftl_mul_pow2 by lia. unfold u16. rewrite Z.mod_small; [done|].
    assert (Hq : 0 ≤ q < 4 * 2 ^ (b * Z.of_nat i)).
    { unfold q. rewrite pack_split.
      pose proof (pack_bounds (take i ds)) as Hpb.
      assert (Hf : Forall small (take i ds)).
      { replace (take i ds) with (take i (take n ds)) by (rewrite take_take; f_equal; lia).
        by apply Forall_take. }
      specialize (Hpb Hf). rewrite length_take, Nat.min_l in Hpb |- * by lia. nia. }
    assert (E4 : 4 * 2 ^ (b * Z.of_nat i) * 2 ^ b * 2 ^ e = 65536).
    { rewrite <- !Z.mul_assoc, <- !Z.pow_add_r by (unfold e in *; nia).
      replace (b * Z.of_nat i + (b + e)) with 14 by (unfold e; nia). done. }
    pose proof (Z.pow_pos_nonneg 2 b ltac:(lia) ltac:(lia)).
    set (P := 2 ^ (b * Z.of_nat i)) in *. set (B := 2 ^ b) in *. set (E := 2 ^ e) in *.
    clearbody P B E q. split; [nia|]. rewrite <- E4.
    apply Z.lt_le_trans with ((q * B + B) * E); [nia|]. nia.
  - intros c ->. by cbn [Nat.add].
Qed.

(** The decoding loop. *)
Lemma decode_vector cap (ds : list Z) (chunk mask : Z) n :
  (n ≤ cap)%nat → (n ≤ length ds)%nat → b * Z.of_nat cap = 14 → mask = Z.ones b →
  for_loop n 0 (λ i ds,
    s ← shr32 chunk (b * (Z.of_nat cap - 1 - Z.of_nat i));
    wr ds i (Z.land s mask)) ds = Some (take n (vector b cap chunk) ++ drop n ds).
Proof using Hb.
  intros Hn Hl Hbc ->.
  enough (H : wp (for_loop n 0 (λ i ds,
    s ← shr32 chunk (b * (Z.of_nat cap - 1 - Z.of_nat i));
    wr ds i (Z.land s (Z.ones b))) ds) (eq (take n (vector b cap chunk) ++ drop n ds))).
  { apply wp_exists in H as (c & -> & <-). done. }
  assert (Hv : length (vector b cap chunk) = cap) by (unfold vector; by rewrite length_map, length_seq).
  apply (wp_for (λ i ds', ds' = take i (vector b cap chunk) ++ drop i ds)).
  - done.
  - intros i ds' Hi ->. unfold shr32.
    set (e := b * (Z.of_nat cap - 1 - Z.of_nat i)).
    assert (He : 0 ≤ e /\ e + b ≤ 14) by (unfold e; nia).
    rewrite (proj2 (Z.leb_le 0 e)), (proj2 (Z.ltb_lt e 32)) by lia.
    cbn [andb]. apply wp_bind, wp_ret.
    apply wp_wr; [rewrite length_app, length_take, length_drop; lia|].
    rewrite Z.shiftr_div_pow2, Z.land_ones by lia.
    destruct (lookup_lt_is_Some_2 (vector b cap chunk) i) as [d Hd]; [lia|].
    assert (Ed : d = chunk / 2 ^ e mod 2 ^ b).
    { unfold vector in Hd. rewrite list_lookup_fmap, lookup_seq_lt in Hd by lia. by injection Hd as <-. }
    rewrite <- Ed, (take_S_r _ _ _ Hd), <- app_assoc.
    destruct (lookup_lt_is_Some_2 ds i) as [x Hx]; [lia|].
    rewrite (drop_S _ _ _ Hx), insert_app_r_alt by (rewrite length_take; lia).
    rewrite length_take, Nat.min_l, Nat.sub_diag by lia. done.
  - intros ds' ->. done.
Qed.

End pack.

(** ** Chunks *)

Lemma bit14 x : uint16 x → 0x8000 ≤ x → (Z.land x 0x4000 =? 0) = (x <? 0xc000).
Proof.
  intros H Hx. change 0x4000 with (2 ^ 14) at 1. rewrite land_pow2 by lia.
  rewrite (proj2 (testbit_top x H)). unfold uint16 in H. destruct (Z.ltb_spec x 0xc000).
  - assert (x / 0x4000 = 2) as -> by (Z.to_euclidean_division_equations; lia). done.
  - assert (x / 0x4000 = 3) as -> by (Z.to_euclidean_division_equations; lia). done.
Qed.

Lemma top_bits x : uint16 x → Z.land x 0xc000 = x / 0x4000 * 0x4000.
Proof.
  unfold uint16. intros H. change 0xc000 with (Z.shiftl 3 14).
  rewrite (Z.div_mod x 0x4000) at 1 by lia.
  change 0x4000 with (2 ^ 14). rewrite (Z.mul_comm (2 ^ 14)).
  rewrite <- lor_shiftl by (try apply Z.mod_pos_bound; lia).
  rewrite Z.land_lor_distr_l, <- Z.shiftl_land.
  assert (Hl : Z.land (x mod 2 ^ 14) (Z.shiftl 3 14) = 0).
  { rewrite Z.shiftl_mul_pow2 by lia. apply Z.bits_inj'. intros n Hn. rewrite Z.land_spec, Z.bits_0.
    destruct (Z.ltb_spec n 14).
    - rewrite Z.mul_pow2_bits_low by lia. apply andb_false_r.
    - by rewrite Z.mod_pow2_bits_high by lia. }
  rewrite Hl, Z.lor_0_r, Z.shiftl_mul_pow2 by lia. f_equal.
  change 3 with (Z.ones 2). rewrite Z.land_ones by lia. apply Z.mod_small.
  change (2 ^ 14) with 16384. change (2 ^ 2) with 4. Z.to_euclidean_division_equations; lia.
Qed.

Lemma length_vector b cap chunk : length (vector b cap chunk) = cap.
Proof. unfold vector. by rewrite length_map, length_seq. Qed.

Lemma vector_small b cap chunk : 0 < b → Forall (small b) (vector b cap chunk).
Proof.
  intros Hb. unfold vector. apply Forall_map. apply Forall_true. intros i. cbn.
  apply Z.mod_pos_bound, Z.pow_pos_nonneg; lia.
Qed.

(** A run of symbols in a chunk. *)
Definition run_chunk (d n : Z) : Z := d * 8192 + n.

Lemma symbols_run d n : 0 ≤ d ≤ 3 → 0 ≤ n ≤ 8191 →
  uint16 (run_chunk d n) ∧ symbols (run_chunk d n) = replicate (Z.to_nat n) d.
Proof.
  intros Hd Hn. unfold run_chunk, symbols, uint16. split; [lia|].
  rewrite (proj2 (Z.ltb_lt _ _)) by lia. f_equal.
  - f_equal. rewrite Z.add_comm, Z.mod_add, Z.mod_small by lia. done.
  - rewrite Z.div_add_l, (Z.div_small n), Z.add_0_r by lia. apply Z.mod_small. lia.
Qed.

Lemma symbols_vector b w cap l :
  (b = 1 ∧ w = 2 ∧ cap = 14%nat ∨ b = 2 ∧ w = 3 ∧ cap = 7%nat) →
  Forall (small b) l → length l = cap →
  uint16 (pack b w l) ∧ symbols (pack b w l) = l.
Proof.
  intros Hc Hs Hl. assert (Hb : 0 < b) by lia.
  pose proof (pack_bounds b Hb l Hs) as Hp. pose proof (pack_split b Hb w l) as E.
  rewrite Hl in Hp, E. assert (E14 : b * Z.of_nat cap = 14) by lia. rewrite E14 in Hp, E.
  change (2 ^ 14) with 16384 in *.
  assert (Hu : uint16 (pack b w l)) by (unfold uint16; lia). split; [done|].
  unfold symbols. rewrite (proj2 (Z.ltb_ge _ 0x8000)) by lia.
  pose proof (vector_pack b Hb w cap l Hs Hl) as Hv.
  destruct Hc as [(-> & -> & ->)|(-> & -> & ->)].
  - by rewrite (proj2 (Z.ltb_lt _ 0xc000)) by lia.
  - by rewrite (proj2 (Z.ltb_ge _ 0xc000)) by lia.
Qed.

Lemma symbols_range c : uint16 c → Forall (λ d, 0 ≤ d ≤ 3) (symbols c).
Proof.
  intros Hc. unfold symbols. destruct (c <? 0x8000); [|destruct (c <? 0xc000)].
  - apply Forall_replicate. pose proof (Z.mod_pos_bound (c / 8192) 4). lia.
  - eapply Forall_weaken; [by apply (vector_small 1)|]. cbn. unfold small. change (2 ^ 1) with 2. lia.
  - eapply Forall_weaken; [by apply (vector_small 2)|]. cbn. unfold small. change (2 ^ 2) with 4. lia.
Qed.

Lemma symbols_length c : (length (symbols c) ≤ Z.to_nat 8191)%nat.
Proof.
  unfold symbols. destruct (c <? 0x8000); [|destruct (c <? 0xc000)].
  - rewrite length_replicate. pose proof (Z.mod_pos_bound c 8192). lia.
  - rewrite length_vector. lia.
  - rewrite length_vector. lia.
Qed.

(** What any chunk under construction or decoded satisfies. *)
Definition chunk_ok (c : LastChunk) : Prop :=
  length (delta_sizes_ c) = 14%nat ∧ 0 ≤ size_ c ≤ 8191 ∧
  Forall (λ d, 0 ≤ d ≤ 3) (contents c) ∧
  (all_same_ c = false → size_ c ≤ 14) ∧
  (all_same_ c = false → 7 < size_ c → Forall (λ d, 0 ≤ d ≤ 1) (contents c) ∧ has_large_delta_ c = false).

Lemma length_contents c : chunk_ok c → length (contents c) = Z.to_nat (size_ c).
Proof.
  intros (Hl & Hs & _ & Hv & _). unfold contents. destruct (all_same_ c).
  - by rewrite length_replicate.
  - rewrite length_take. specialize (Hv eq_refl). lia.
Qed.

Lemma AppendTo_spec c l : chunk_ok c → AppendTo c l = Some (l ++ contents c).
Proof.
  intros (Hl & Hs & _ & Hv & _). unfold AppendTo, contents. destruct (all_same_ c).
  - by rewrite lookup_total_Some by lia.
  - specialize (Hv eq_refl). by rewrite (proj2 (Nat.leb_le _ _)) by lia.
Qed.

Lemma run_loop (d : Z) (ds : list Z) n : (n ≤ length ds)%nat →
  for_loop n 0 (λ i ds, wr ds i d) ds = Some (replicate n d ++ drop n ds).
Proof.
  intros Hn.
  enough (H : wp (for_loop n 0 (λ i ds, wr ds i d) ds) (eq (replicate n d ++ drop n ds))).
  { apply wp_exists in H as (c & -> & <-). done. }
  apply (wp_for (λ i ds', ds' = replicate i d ++ drop i ds)); [done| |by intros ds' ->].
  intros i ds' Hi ->. apply wp_wr; [rewrite length_app, length_replicate, length_drop; lia|].
  destruct (lookup_lt_is_Some_2 ds i) as [x Hx]; [lia|].
  rewrite (drop_S _ _ _ Hx), insert_app_r_alt by (rewrite length_replicate; lia).
  rewrite length_replicate, Nat.sub_diag. cbn [insert list_insert].
  by rewrite replicate_S_end, <- app_assoc.
Qed.

Lemma vector_head b cap chunk n ds : (n ≤ cap)%nat →
  take n (take n (vector b cap chunk) ++ drop n ds) = take n (vector b cap chunk).
Proof. intros Hn. by rewrite take_app_length' by (rewrite length_take, length_vector; lia). Qed.

Lemma decoded_vector b cap large ds chunk max_size :
  (b = 1 ∧ cap = 14%nat ∧ large = false ∨ b = 2 ∧ cap = 7%nat ∧ large = true) →
  length ds = 14%nat → 0 ≤ max_size →
  let size := Z.min (Z.of_nat cap) max_size in
  let c := mkChunk (take (Z.to_nat size) (vector b cap chunk) ++ drop (Z.to_nat size) ds)
             size false large in
  chunk_ok c ∧ contents c = take (Z.to_nat max_size) (vector b cap chunk).
Proof.
  intros Hb Hl Hm size c.
  assert (Ec : contents c = take (Z.to_nat max_size) (vector b cap chunk)).
  { unfold contents, c. cbn [all_same_ size_ delta_sizes_]. rewrite vector_head by lia. unfold size.
    destruct (Z.le_gt_cases max_size (Z.of_nat cap)); [f_equal; lia|].
    by rewrite !take_ge by (rewrite length_vector; lia). }
  split; [|done]. assert (Hs : Forall (small b) (contents c)).
  { rewrite Ec. apply Forall_take, vector_small. lia. }
  split_and!; cbn [c delta_sizes_ size_ all_same_ has_large_delta_]; try lia.
  - rewrite length_app, length_take, length_vector, length_drop. lia.
  - eapply Forall_weaken; [exact Hs|]. unfold small. intros d Hd.
    destruct Hb as [(-> & _)|(-> & _)]; [change (2 ^ 1) with 2 in Hd|change (2 ^ 2) with 4 in Hd]; lia.
  - intros _ H7. destruct Hb as [(-> & _ & ->)|(_ & -> & _)]; [|lia]. split; [|done].
    eapply Forall_weaken; [exact Hs|]. unfold small. change (2 ^ 1) with 2. lia.
Qed.

Lemma decoded_run ds n d max_size large :
  length ds = 14%nat → 0 ≤ n ≤ 8191 → 0 ≤ d ≤ 3 → 0 ≤ max_size →
  let size := Z.min n max_size in
  let k := Z.to_nat (Z.min size 14) in
  let c := mkChunk (replicate k d ++ drop k ds) size true large in
  chunk_ok c ∧ contents c = take (Z.to_nat max_size) (replicate (Z.to_nat n) d).
Proof.
  intros Hl Hn Hd Hm size k c.
  assert (Ec : contents c = replicate (Z.to_nat size) d).
  { unfold contents, c. cbn [all_same_ size_ delta_sizes_].
    destruct (Z.to_nat size) as [|z] eqn:Ez; [done|].
    destruct k as [|k'] eqn:Ek; [lia|done]. }
  split.
  - split_and!; cbn [c delta_sizes_ size_ all_same_ has_large_delta_]; try done; try lia.
    + rewrite length_app, length_replicate, length_drop. lia.
    + rewrite Ec. by apply Forall_replicate.
  - rewrite Ec, take_replicate. f_equal. lia.
Qed.

(** Decoding any 16-bit chunk gives its symbols, up to the number asked for. *)
Lemma Decode_spec c chunk max_size :
  length (delta_sizes_ c) = 14%nat → uint16 chunk → 0 ≤ max_size →
  ∃ c', Decode c chunk max_size = Some c' ∧ chunk_ok c' ∧
    contents c' = take (Z.to_nat max_size) (symbols chunk).
Proof.
  intros Hl Hc Hm. unfold Decode, symbols. rewrite bit15 by done.
  pose proof (top_bits chunk Hc) as Ht. assert (Hc' := Hc). unfold uint16 in Hc'.
  destruct (Z.ltb_spec chunk 0x8000) as [H|H].
  - unfold DecodeRunLength. rewrite bit15, (proj2 (Z.ltb_lt _ _)) by (done || lia).
    change (Z.land chunk 0x1fff) with (Z.land chunk (Z.ones 13)).
    change (Z.land (Z.shiftr chunk 13) 0x03) with (Z.land (Z.shiftr chunk 13) (Z.ones 2)).
    rewrite !Z.land_ones, Z.shiftr_div_pow2 by lia. change (2 ^ 13) with 8192. change (2 ^ 2) with 4.
    cbn [dcheck mbind option_bind]. unfold kMaxVectorCapacity, kMaxOneBitCapacity.
    rewrite run_loop by lia. cbn [mbind option_bind]. eexists. split; [done|].
    apply decoded_run; [done|pose proof (Z.mod_pos_bound chunk 8192); lia
                       |pose proof (Z.mod_pos_bound (chunk / 8192) 4); lia|done].
  - rewrite bit14 by done. destruct (Z.ltb_spec chunk 0xc000) as [H'|H'].
    + unfold DecodeOneBit, kMaxOneBitCapacity.
      assert (chunk / 0x4000 = 2) as E by (Z.to_euclidean_division_equations; lia).
      rewrite Ht, E. cbn [Z.mul Pos.mul Z.eqb Pos.eqb dcheck mbind option_bind].
      rewrite (for_loop_ext _ 0 _ (λ i ds, s ← shr32 chunk (1 * (Z.of_nat 14 - 1 - Z.of_nat i));
        wr ds i (Z.land s 0x01))) by (intros; by rewrite Z.mul_1_l).
      rewrite decode_vector by (done || lia). cbn [mbind option_bind]. eexists. split; [done|].
      apply (decoded_vector 1 14 false); [by left|done..].
    + unfold DecodeTwoBit, kMaxTwoBitCapacity.
      assert (chunk / 0x4000 = 3) as E by (Z.to_euclidean_division_equations; lia).
      rewrite Ht, E. cbn [Z.mul Pos.mul Z.eqb Pos.eqb dcheck mbind option_bind].
      rewrite (decode_vector 2 ltac:(lia) 7) by (done || lia). cbn [mbind option_bind].
      eexists. split; [done|]. apply (decoded_vector 2 7 true); [by right|done..].
Qed.

(** Encoding the last chunk. *)
Lemma EncodeRunLength_spec c : chunk_ok c → all_same_ c = true → 0 < size_ c →
  ∃ chunk, EncodeRunLength c = Some chunk ∧ uint16 chunk ∧ symbols chunk = contents c.
Proof.
  intros (Hl & Hs & Hr & _) Ha Hp. unfold EncodeRunLength, kMaxRunLengthCapacity, contents in *.
  rewrite Ha in *. rewrite (proj2 (Z.leb_le _ _)) by lia. rewrite lookup_total_Some by lia.
  cbn [dcheck mbind option_bind]. set (d := delta_sizes_ c !!! 0%nat) in *.
  assert (Hd : 0 ≤ d ≤ 3).
  { apply (Forall_lookup_1 _ _ 0%nat _ Hr), lookup_replicate. split; [done|lia]. }
  exists (run_chunk d (size_ c)). destruct (symbols_run d (size_ c) Hd ltac:(lia)) as [Hu Hy].
  split; [|done]. f_equal. unfold u16 at 2. rewrite Z.mod_small, lor_shiftl by (cbn; lia).
  unfold u16, uint16, run_chunk in *. change (2 ^ 13) with 8192. rewrite Z.mod_small; lia.
Qed.

(** A prefix of the vector, padded with zeros. *)
Lemma EncodeTwoBit_spec c n : chunk_ok c → all_same_ c = false → 0 ≤ n ≤ 7 → n ≤ size_ c →
  ∃ chunk, EncodeTwoBit c n = Some chunk ∧ uint16 chunk ∧
    symbols chunk = take (Z.to_nat n) (contents c) ++ replicate (7 - Z.to_nat n) 0.
Proof.
  intros (Hl & Hs & Hr & Ha14 & _) Ha Hn Hns. specialize (Ha14 Ha).
  unfold EncodeTwoBit, kMaxTwoBitCapacity. rewrite (proj2 (Z.leb_le _ _)) by lia.
  cbn [dcheck mbind option_bind].
  assert (Hv : take (Z.to_nat n) (contents c) = take (Z.to_nat n) (delta_sizes_ c)).
  { unfold contents. rewrite Ha, take_take. f_equal. lia. }
  assert (Hsm : Forall (small 2) (take (Z.to_nat n) (delta_sizes_ c))).
  { rewrite <- Hv. apply Forall_take. eapply Forall_weaken; [exact Hr|].
    unfold small. change (2 ^ 2) with 4. cbn. lia. }
  pose proof (encode_vector 2 ltac:(lia) 3 7 (delta_sizes_ c) (Z.to_nat n) Hsm ltac:(lia) ltac:(lia)
    ltac:(lia) eq_refl) as E.
  change (3 * 2 ^ 14) with 0xc000 in E. change (Z.of_nat 7) with 7 in E. rewrite E.
  eexists. split; [done|]. rewrite Hv. apply (symbols_vector 2 3 7); [by right| |].
  - apply Forall_app_2; [done|]. apply Forall_replicate. unfold small. cbn. lia.
  - rewrite length_app, length_take, length_replicate. lia.
Qed.

Lemma EncodeOneBit_spec c : chunk_ok c → all_same_ c = false → 7 < size_ c →
  ∃ chunk, EncodeOneBit c = Some chunk ∧ uint16 chunk ∧
    symbols chunk = contents c ++ replicate (14 - Z.to_nat (size_ c)) 0.
Proof.
  intros (Hl & Hs & _ & Ha14 & H7) Ha Hp. specialize (Ha14 Ha). destruct (H7 Ha Hp) as [Hr HL].
  unfold EncodeOneBit, kMaxOneBitCapacity. rewrite HL, (proj2 (Z.leb_le _ _)) by lia.
  cbn [dcheck mbind option_bind negb].
  assert (Hv : contents c = take (Z.to_nat (size_ c)) (delta_sizes_ c)) by (unfold contents; by rewrite Ha).
  assert (Hsm : Forall (small 1) (take (Z.to_nat (size_ c)) (delta_sizes_ c))).
  { rewrite <- Hv. eapply Forall_weaken; [exact Hr|]. unfold small. change (2 ^ 1) with 2. cbn. lia. }
  rewrite (for_loop_ext _ 0 _ (λ i chunk, d ← delta_sizes_ c !! i;
    s ← shl32 d (1 * (Z.of_nat 14 - 1 - Z.of_nat i));
    Some (u16 (Z.lor chunk s)))) by (intros; by rewrite Z.mul_1_l).
  pose proof (encode_vector 1 ltac:(lia) 2 14 (delta_sizes_ c) (Z.to_nat (size_ c)) Hsm ltac:(lia)
    ltac:(lia) ltac:(lia) eq_refl) as E.
  change (2 * 2 ^ 14) with 0x8000 in E. rewrite E. eexists. split; [done|]. rewrite Hv.
  apply (symbols_vector 1 2 14); [by left| |].
  - apply Forall_app_2; [done|]. apply Forall_replicate. unfold small. cbn. lia.
  - rewrite length_app, length_take, length_replicate. lia.
Qed.

Lemma EncodeLast_spec c : chunk_ok c → 0 < size_ c →
  ∃ chunk, EncodeLast c = Some chunk ∧ uint16 chunk ∧
    take (Z.to_nat (size_ c)) (symbols chunk) = contents c.
Proof.
  intros Hc Hp. pose proof (length_contents c Hc) as Hlen. unfold EncodeLast.
  rewrite (proj2 (Z.ltb_lt _ _)) by lia. cbn [dcheck mbind option_bind].
  destruct (all_same_ c) eqn:Ha.
  - destruct (EncodeRunLength_spec c Hc Ha Hp) as (chunk & E & Hu & Hy).
    exists chunk. rewrite Hy, take_ge by lia. done.
  - unfold kMaxTwoBitCapacity. destruct (Z.leb_spec (size_ c) 7).
    + destruct (EncodeTwoBit_spec c (size_ c) Hc Ha) as (chunk & E & Hu & Hy); [lia..|].
      exists chunk. rewrite Hy, (take_ge (contents c)), take_app_length' by lia. done.
    + destruct (EncodeOneBit_spec c Hc Ha) as (chunk & E & Hu & Hy); [lia..|].
      exists chunk. rewrite Hy, take_app_length' by lia. done.
Qed.

(** ** Gathering symbols *)

(** The flags describe the first [n] symbols. *)
Definition flags_ok (ds : list Z) (n : nat) (same large : bool) : Prop :=
  (same = true ↔ Forall (λ d, d = ds !!! 0%nat) (take n ds)) ∧
  (large = true ↔ 2 ∈ take n ds).

Lemma flags_snoc ds n same large d :
  flags_ok ds n same large → (n < length ds)%nat →
  flags_ok (<[n:=d]> ds) (S n) (same && (d =? <[n:=d]> ds !!! 0%nat)) (large || (d =? kLarge)).
Proof.
  intros [Hs Hg] Hn. unfold flags_ok, kLarge.
  assert (E : take (S n) (<[n:=d]> ds) = take n ds ++ [d]).
  { rewrite (take_S_r _ n d) by (by apply list_lookup_insert_eq). by rewrite take_insert_ge by lia. }
  rewrite E, andb_true_iff, orb_true_iff, !Z.eqb_eq, Hs, Hg, elem_of_app, Forall_app.
  rewrite Forall_singleton, list_elem_of_singleton. split; [|split; (intros [?|?]; [by left|right; lia])].
  destruct n as [|n].
  { rewrite !take_0. clear; split; (intros [_ H]; split; [constructor|exact H]). }
  assert (<[S n:=d]> ds !!! 0%nat = ds !!! 0%nat) as -> by (by rewrite list_lookup_total_insert_ne by lia).
  done.
Qed.

(** The state of a chunk built by [Add], [AddMissingPackets] and [Emit]. *)
Definition builder (c : LastChunk) : Prop :=
  length (delta_sizes_ c) = 14%nat ∧ 0 ≤ size_ c ≤ 8191 ∧
  Forall (λ d, 0 ≤ d ≤ 2) (take (Z.to_nat (size_ c)) (delta_sizes_ c)) ∧
  flags_ok (delta_sizes_ c) (Z.to_nat (size_ c)) (all_same_ c) (has_large_delta_ c) ∧
  (all_same_ c = false → size_ c ≤ 14) ∧
  (all_same_ c = false → 7 < size_ c → has_large_delta_ c = false).

Lemma builder_head c : builder c → 0 < size_ c → 0 ≤ delta_sizes_ c !!! 0%nat ≤ 2.
Proof.
  intros (Hl & Hs & Hr & _) Hp. apply (Forall_lookup_1 _ _ 0%nat _ Hr).
  rewrite lookup_take_lt by lia. apply lookup_total_Some. lia.
Qed.

Lemma builder_contents c : builder c → size_ c ≤ 14 →
  contents c = take (Z.to_nat (size_ c)) (delta_sizes_ c).
Proof.
  intros (Hl & Hs & _ & [Hsame _] & _) Hp. unfold contents. destruct (all_same_ c); [|done].
  apply replicate_as_Forall_2; [rewrite length_take; lia|].
  eapply Forall_weaken; [by apply Hsame|]. cbn. done.
Qed.

Lemma builder_range c : builder c → Forall (λ d, 0 ≤ d ≤ 2) (contents c).
Proof.
  intros H. assert (H' := H). destruct H' as (_ & _ & Hr & _). unfold contents.
  destruct (all_same_ c); [|done]. destruct (decide (0 < size_ c)).
  - by apply Forall_replicate, builder_head.
  - replace (Z.to_nat (size_ c)) with 0%nat by lia. by apply Forall_nil_2.
Qed.

Lemma builder_ok c : builder c → chunk_ok c.
Proof.
  intros H. pose proof (builder_range c H) as Hr. assert (H' := H).
  destruct H' as (Hl & Hs & Hv & [_ Hg] & H14 & H7). split_and!; try done; try lia.
  - eapply Forall_weaken; [exact Hr|]. cbn. lia.
  - intros Ha Hp. specialize (H7 Ha Hp). split; [|done]. rewrite (builder_contents c H) by auto.
    apply List.Forall_forall. intros d Hd%list_elem_of_In.
    assert (d ≠ 2) by (intros ->; apply Hg in Hd; congruence).
    rewrite List.Forall_forall in Hv. specialize (Hv d ltac:(by apply list_elem_of_In)). lia.
Qed.

(** What [CanAdd] answers. *)
Definition can_add (c : LastChunk) (d : Z) : bool :=
  (size_ c <? 7) || (size_ c <? 14) && negb (has_large_delta_ c) && negb (d =? 2) ||
  (size_ c <? 8191) && all_same_ c && (delta_sizes_ c !!! 0%nat =? d).

Lemma CanAdd_spec c d : length (delta_sizes_ c) = 14%nat → d ≤ 2 → CanAdd c d = Some (can_add c d).
Proof.
  intros Hl Hd. unfold CanAdd, can_add, kMaxTwoBitCapacity, kMaxOneBitCapacity, kMaxRunLengthCapacity, kLarge.
  rewrite (proj2 (Z.leb_le _ _)) by lia. cbn [dcheck mbind option_bind].
  destruct (size_ c <? 7); [done|]. destruct ((size_ c <? 14) && _ && _); [done|].
  destruct ((size_ c <? 8191) && all_same_ c); [|done]. by rewrite lookup_total_Some by lia.
Qed.

Lemma can_add_cases c d : can_add c d = true →
  size_ c < 7 ∨ (size_ c < 14 ∧ has_large_delta_ c = false ∧ d ≠ 2) ∨
  (size_ c < 8191 ∧ all_same_ c = true ∧ delta_sizes_ c !!! 0%nat = d).
Proof.
  unfold can_add. rewrite !orb_true_iff, !andb_true_iff, !negb_true_iff, !Z.ltb_lt, Z.eqb_eq, Z.eqb_neq.
  tauto.
Qed.

Lemma Add_small c d : builder c → 0 ≤ d ≤ 2 → can_add c d = true → size_ c < 14 →
  ∃ c', Add c d = Some c' ∧ builder c' ∧ contents c' = contents c ++ [d] ∧ size_ c' = size_ c + 1.
Proof.
  intros Hb Hd Hcan Hlt. assert (H := Hb). destruct H as (Hl & Hs & Hr & Hf & H14 & H7).
  unfold Add. rewrite CanAdd_spec, Hcan by (done || lia). cbn [dcheck mbind option_bind].
  unfold kMaxVectorCapacity, kMaxOneBitCapacity. rewrite (proj2 (Z.ltb_lt _ _)), wr_lt by lia.
  cbn [mbind option_bind]. rewrite lookup_total_Some by (rewrite length_insert; lia).
  cbn [mbind option_bind]. set (n := Z.to_nat (size_ c)) in *. set (ds := <[n:=d]> (delta_sizes_ c)).
  pose proof (flags_snoc _ n _ _ d Hf ltac:(lia)) as Hf'. fold ds in Hf'.
  set (same := all_same_ c && (d =? ds !!! 0%nat)) in *.
  set (large := has_large_delta_ c || (d =? kLarge)) in *.
  assert (Et : take (S n) ds = take n (delta_sizes_ c) ++ [d]).
  { unfold ds. rewrite (take_S_r _ n d) by (apply list_lookup_insert_eq; lia).
    by rewrite take_insert_ge by lia. }
  assert (Hb' : builder (mkChunk ds (size_ c + 1) same large)).
  { unfold builder. cbn [delta_sizes_ size_ all_same_ has_large_delta_].
    replace (Z.to_nat (size_ c + 1)) with (S n) by lia.
    split_and!; [by unfold ds; rewrite length_insert|lia|lia| |done|lia|].
    - rewrite Et. apply Forall_app_2; [done|]. by apply Forall_singleton.
    - intros Hsame H8. destruct (can_add_cases c d Hcan) as [?|[(_ & HL & Hd2)|(_ & Ha & E0)]]; [lia| |].
      + unfold large. rewrite HL. cbn. by apply Z.eqb_neq.
      + exfalso. unfold same, ds in Hsame. rewrite Ha, list_lookup_total_insert_ne, E0, Z.eqb_refl in Hsame
          by lia. done. }
  eexists. split; [done|]. split; [done|]. split; [|done].
  rewrite (builder_contents _ Hb'), (builder_contents c Hb) by (cbn; lia).
  cbn [delta_sizes_ size_]. replace (Z.to_nat (size_ c + 1)) with (S n) by lia. done.
Qed.

Lemma Add_long c d : builder c → 0 ≤ d ≤ 2 → can_add c d = true → 14 ≤ size_ c →
  ∃ c', Add c d = Some c' ∧ builder c' ∧ contents c' = contents c ++ [d] ∧ size_ c' = size_ c + 1.
Proof.
  intros Hb Hd Hcan Hge. assert (H := Hb). destruct H as (Hl & Hs & Hr & [Hf1 Hf2] & H14 & H7).
  unfold Add. rewrite CanAdd_spec, Hcan by (done || lia). cbn [dcheck mbind option_bind].
  unfold kMaxVectorCapacity, kMaxOneBitCapacity. rewrite (proj2 (Z.ltb_ge _ _)) by lia.
  cbn [mbind option_bind]. rewrite lookup_total_Some by lia. cbn [mbind option_bind].
  destruct (can_add_cases c d Hcan) as [?|[?|(Hm & Ha & E0)]]; [lia..|].
  assert (Et : ∀ n, 14 ≤ n → take (Z.to_nat n) (delta_sizes_ c) = delta_sizes_ c)
    by (intros; apply take_ge; lia).
  rewrite Et in Hr, Hf1, Hf2 by lia. rewrite Ha, E0, Z.eqb_refl. cbn [andb].
  eexists. split; [done|]. split; [|split; [|done]].
  - unfold builder, flags_ok. cbn [delta_sizes_ size_ all_same_ has_large_delta_].
    rewrite Et by lia. split_and!; try done; try lia; [by rewrite Ha in Hf1|].
    rewrite orb_true_iff, Hf2. unfold kLarge. split; [|by left].
    intros [?|E2%Z.eqb_eq]; [done|]. rewrite <- E2, <- E0. apply list_elem_of_lookup. exists 0%nat.
    apply lookup_total_Some. lia.
  - unfold contents. cbn [delta_sizes_ size_ all_same_]. rewrite Ha, E0.
    replace (Z.to_nat (size_ c + 1)) with (S (Z.to_nat (size_ c))) by lia. by rewrite replicate_S_end.
Qed.

Lemma Add_spec c d : builder c → 0 ≤ d ≤ 2 → can_add c d = true →
  ∃ c', Add c d = Some c' ∧ builder c' ∧ contents c' = contents c ++ [d] ∧ size_ c' = size_ c + 1.
Proof.
  intros Hb Hd Hcan. destruct (Z.lt_ge_cases (size_ c) 14).
  - by apply Add_small.
  - by apply Add_long.
Qed.

Lemma builder_empty c : builder c → size_ c = 0 → all_same_ c = true ∧ has_large_delta_ c = false.
Proof.
  intros (_ & _ & _ & [Hs Hg] & _) E. rewrite E in Hs, Hg. cbn in Hs, Hg. split; [by apply Hs|].
  destruct (has_large_delta_ c); [|done]. exfalso. by eapply not_elem_of_nil, Hg.
Qed.

Lemma builder_Clear c : length (delta_sizes_ c) = 14%nat → builder (Clear c).
Proof.
  intros Hl. unfold builder, Clear, flags_ok. cbn. split_and!; try done; try lia.
  split; [done|]. intros H. by apply not_elem_of_nil in H.
Qed.

Lemma contents_empty c : size_ c = 0 → contents c = [].
Proof. unfold contents. intros ->. cbn. by destruct (all_same_ c). Qed.

Lemma AddMissingPackets_spec c n : builder c → size_ c = 0 → 0 ≤ n < 8191 →
  ∃ c', AddMissingPackets c n = Some c' ∧ builder c' ∧ contents c' = replicate (Z.to_nat n) 0 ∧
    size_ c' = n.
Proof.
  intros Hb H0 Hn. destruct (builder_empty c Hb H0) as [Ha Hg]. destruct Hb as (Hl & _).
  unfold AddMissingPackets, kMaxRunLengthCapacity. rewrite Ha, Hg, H0, (proj2 (Z.ltb_lt _ _)) by lia.
  cbn [dcheck mbind option_bind negb Z.eqb]. eexists. split; [done|]. split; [|split; [|done]].
  - unfold builder, flags_ok. cbn [delta_sizes_ size_ all_same_ has_large_delta_].
    rewrite length_replicate, take_replicate. split_and!; try done; try lia.
    + apply Forall_replicate. lia.
    + split; [|done]. intros _. apply Forall_replicate. by rewrite Hl.
    + split; [done|]. intros [? _]%elem_of_replicate. done.
  - unfold contents. cbn [delta_sizes_ size_ all_same_]. by rewrite Hl.
Qed.

Lemma shift_symbols_spec c : builder c → 7 ≤ size_ c < 14 →
  ∃ c', shift_symbols c = Some c' ∧ builder c' ∧ size_ c' = size_ c - 7 ∧
    contents c' = drop 7 (take (Z.to_nat (size_ c)) (delta_sizes_ c)).
Proof.
  intros (Hl & Hs & Hr & _) Hp. set (n := Z.to_nat (size_ c - 7)).
  set (src := drop 7 (delta_sizes_ c)).
  assert (Esrc : drop 7 (take (Z.to_nat (size_ c)) (delta_sizes_ c)) = take n src).
  { unfold src. rewrite skipn_firstn_comm. f_equal. lia. }
  assert (Hsrc : Forall (λ d, 0 ≤ d ≤ 2) (take n src)) by (rewrite <- Esrc; by apply Forall_drop).
  enough (H : wp (shift_symbols c) (λ c', builder c' ∧ size_ c' = size_ c - 7 ∧
                                     contents c' = take n src)).
  { apply wp_exists in H as (c' & E & ? & ? & ?). exists c'. by rewrite Esrc. }
  unfold shift_symbols, kMaxTwoBitCapacity. cbv zeta. fold n.
  apply (wp_for (λ i c', length (delta_sizes_ c') = 14%nat ∧ size_ c' = size_ c - 7 ∧
    take i (delta_sizes_ c') = take i src ∧ drop 7 (delta_sizes_ c') = src ∧
    flags_ok (delta_sizes_ c') i (all_same_ c') (has_large_delta_ c'))).
  - cbn [delta_sizes_ size_ all_same_ has_large_delta_]. split_and!; try done.
    split; (split; [by intros|]); [done|]. rewrite take_0. intros H. by apply not_elem_of_nil in H.
  - intros i c' Hi (Hl' & Hs' & Ht & Hd & Hf).
    change (Z.to_nat 7) with 7%nat. apply wp_bind, wp_lookup; [lia|]. intros d Ed. rewrite <- lookup_drop, Hd in Ed.
    apply wp_bind. rewrite wr_lt by lia. apply wp_ret, wp_bind.
    rewrite lookup_total_Some by (rewrite length_insert; lia). apply wp_ret, wp_ret.
    cbn [delta_sizes_ size_ all_same_ has_large_delta_]. split_and!.
    + by rewrite length_insert.
    + done.
    + rewrite (take_S_r _ i d), (take_S_r src i d) by (done || apply list_lookup_insert_eq; lia).
      by rewrite take_insert_ge, Ht by lia.
    + by rewrite drop_insert_lt by lia.
    + apply flags_snoc; [done|lia].
  - cbn [Nat.add]. intros c' (Hl' & Hs' & Ht & _ & Hf).
    assert (Hb : builder c').
    { unfold builder. rewrite Hs'. fold n. rewrite Ht. split_and!; try done; lia. }
    split_and!; [done..|]. rewrite (builder_contents c' Hb), Hs' by lia. fold n. done.
Qed.

(** [Emit] encodes a prefix of at least seven symbols, keeping the rest; if a lost
    packet could not be added, all of them. *)
Lemma Emit_spec c d : builder c → 0 ≤ d ≤ 2 → can_add c d = false →
  ∃ chunk c', Emit c = Some (chunk, c') ∧ uint16 chunk ∧ builder c' ∧
    symbols chunk ++ contents c' = contents c ∧ (7 ≤ length (symbols chunk))%nat ∧
    0 ≤ size_ c' < 7 ∧ (d = 0 → size_ c' = 0).
Proof.
  intros Hb Hd Hcan. assert (Hok := builder_ok c Hb). assert (H := Hb).
  destruct H as (Hl & Hs & _ & _ & H14 & H7). pose proof (length_contents c Hok) as Hlen.
  unfold Emit. rewrite !CanAdd_spec by (done || lia). cbn [mbind option_bind].
  assert (Hn : negb (can_add c 0) || negb (can_add c 1) || negb (can_add c 2) = true).
  { assert (d = 0 ∨ d = 1 ∨ d = 2) as [->|[->| ->]] by lia; rewrite Hcan; cbn;
      by rewrite ?orb_true_r. }
  rewrite Hn. cbn [dcheck mbind option_bind].
  unfold can_add in Hcan. apply orb_false_iff in Hcan as [[H1 H2]%orb_false_iff H3].
  apply Z.ltb_ge in H1. assert (Hc0 := builder_Clear c Hl).
  destruct (all_same_ c) eqn:Ha.
  { destruct (EncodeRunLength_spec c Hok Ha) as (chunk & -> & Hu & Hy); [lia|].
    cbn [mbind option_bind]. exists chunk, (Clear c). rewrite (contents_empty (Clear c)) by done.
    rewrite app_nil_r, Hy. split_and!; try done; cbn; lia. }
  unfold kMaxOneBitCapacity. destruct (Z.eqb_spec (size_ c) 14) as [E14|Hne].
  { destruct (EncodeOneBit_spec c Hok Ha) as (chunk & -> & Hu & Hy); [lia|].
    rewrite E14, app_nil_r in Hy. cbn [mbind option_bind]. exists chunk, (Clear c).
    rewrite (contents_empty (Clear c)) by done. rewrite app_nil_r, Hy. split_and!; try done; cbn; lia. }
  specialize (H14 eq_refl). unfold kMaxTwoBitCapacity. rewrite (proj2 (Z.leb_le _ _)) by lia.
  destruct (EncodeTwoBit_spec c 7 Hok Ha) as (chunk & -> & Hu & Hy); [lia..|].
  cbn [dcheck mbind option_bind]. rewrite app_nil_r in Hy.
  destruct (shift_symbols_spec c Hb) as (c' & -> & Hb' & Es & Ec); [lia|].
  cbn [mbind option_bind]. exists chunk, c'. rewrite Hy, Ec, <- (builder_contents c Hb) by lia.
  change (Z.to_nat 7) with 7%nat. split_and!; try done; try lia.
  - apply take_drop.
  - rewrite length_take. lia.
  - intros ->. destruct (Z.le_gt_cases (size_ c) 7); [lia|]. specialize (H7 eq_refl ltac:(lia)).
    rewrite H7, (proj2 (Z.ltb_lt _ 14)) in H2 by lia. done.
Qed.

Lemma can_add_small c d : size_ c < 7 → can_add c d = true.
Proof. intros H. unfold can_add. by rewrite (proj2 (Z.ltb_lt _ _)) by lia. Qed.

End TransportChunk.
