(* ===== verification/TransportFb.v ===== *)
(** * Transport-wide feedback messages
    (modules/rtp_rtcp/source/rtcp_packet/transport_feedback.cc, .h, rtpfb.cc,
    modules/include/module_common_types_public.h)

    The feedback for a range of transport-wide sequence numbers: which packets
    arrived and when, as differences in units of 250 microseconds. The message is
    built packet by packet, written to a buffer and parsed. Sizes and counts are
    integers; the member [all_packets_], which the code only clears, is left out. *)

From S2P Require Import Prelude SeqNum Units Rtcp CcFeedback TransportChunk.
Import SeqNum Units Rtcp TransportChunk.

Module TransportFb.

(** ** module_common_types_public.h *)

(** [value - prev_value] is computed in int for 16-bit numbers. *)
Definition IsNewerSequenceNumber (value prev_value : Z) : bool :=
  let kBreakpoint := 0x8000 in
  if value - prev_value =? kBreakpoint then value >? prev_value
  else negb (value =? prev_value) && (u16 (value - prev_value) <? kBreakpoint).

(** ** The message *)

Record ReceivedPacket := mkReceived {
  sequence_number : Z;
  delta_ticks : Z;
}.

#[export] Instance ReceivedPacket_eq_dec : EqDecision ReceivedPacket.
Proof. solve_decision. Defined.

Record TransportFeedback := mkTf {
  sender_ssrc : Z;
  media_ssrc : Z;
  base_seq_no_ : Z;
  num_seq_no_ : Z;
  base_time_ticks_ : Z;
  feedback_seq_ : Z;
  include_timestamps_ : bool;
  last_timestamp_ : Z;
  received_packets_ : list ReceivedPacket;
  encoded_chunks_ : list Z;
  last_chunk_ : LastChunk;
  size_bytes_ : Z;
}.

Definition kFeedbackMessageType : Z := 15.
Definition kPacketType : Z := 205.
Definition kDeltaTick : Z := 250.
Definition kMaxReportedPackets : Z := 0xffff.
Definition kTransportFeedbackHeaderSizeBytes : Z := 4 + 8 + 8.
Definition kChunkSizeBytes : Z := 2.
Definition kMaxSizeBytes : Z := Z.shiftl 1 16 * 4.
Definition kMinPayloadSizeBytes : Z := 8 + 8 + 2.
Definition kBaseTimeTick : Z := kDeltaTick * Z.shiftl 1 8.
Definition kTimeWrapPeriod : Z := kBaseTimeTick * Z.shiftl 1 24.

(** The constructor; [ds] is the content of the uninitialised array of the chunk. *)
Definition new_feedback (include_timestamps : bool) (ds : list Z) : TransportFeedback :=
  mkTf 0 0 0 0 0 0 include_timestamps 0 [] [] (TransportChunk.Clear (mkChunk ds 0 true false))
    kTransportFeedbackHeaderSizeBytes.

(** Updates of groups of members. *)
Definition with_chunks (self : TransportFeedback) (num : Z) (chunks : list Z) (last : LastChunk)
    (size_bytes : Z) : TransportFeedback :=
  mkTf (sender_ssrc self) (media_ssrc self) (base_seq_no_ self) num (base_time_ticks_ self)
    (feedback_seq_ self) (include_timestamps_ self) (last_timestamp_ self) (received_packets_ self)
    chunks last size_bytes.

Definition with_received (self : TransportFeedback) (last_timestamp : Z)
    (received : list ReceivedPacket) (size_bytes : Z) : TransportFeedback :=
  mkTf (sender_ssrc self) (media_ssrc self) (base_seq_no_ self) (num_seq_no_ self)
    (base_time_ticks_ self) (feedback_seq_ self) (include_timestamps_ self) last_timestamp received
    (encoded_chunks_ self) (last_chunk_ self) size_bytes.

Definition delta (p : ReceivedPacket) : option Z := td_mul kDeltaTick (delta_ticks p).

(** Depends on the ticks only. *)
Definition BaseTime (base_time_ticks : Z) : option Z :=
  t ← ts_add 0 kTimeWrapPeriod;
  d ← td_mul kBaseTimeTick base_time_ticks;
  ts_add t d.

Definition SetBase (self : TransportFeedback) (base_sequence ref_timestamp : Z)
  : option TransportFeedback :=
  _ ← dcheck (num_seq_no_ self =? 0);
  us ← ToValue ref_timestamp;
  let ticks := u32 (Z.quot (Z.rem us kTimeWrapPeriod) kBaseTimeTick) in
  t ← BaseTime ticks;
  Some (mkTf (sender_ssrc self) (media_ssrc self) base_sequence (num_seq_no_ self) ticks
          (feedback_seq_ self) (include_timestamps_ self) t (received_packets_ self)
          (encoded_chunks_ self) (last_chunk_ self) (size_bytes_ self)).

Definition SetFeedbackSequenceNumber (self : TransportFeedback) (feedback_sequence : Z)
  : TransportFeedback :=
  mkTf (sender_ssrc self) (media_ssrc self) (base_seq_no_ self) (num_seq_no_ self)
    (base_time_ticks_ self) feedback_sequence (include_timestamps_ self) (last_timestamp_ self)
    (received_packets_ self) (encoded_chunks_ self) (last_chunk_ self) (size_bytes_ self).

Definition GetBaseDelta (self : TransportFeedback) (prev_timestamp : Z) : option Z :=
  t ← BaseTime (base_time_ticks_ self);
  delta ← ts_diff t prev_timestamp;
  back ← td_sub delta kTimeWrapPeriod;
  a ← Abs back;
  b ← Abs delta;
  if a <? b then Some back
  else
    forth ← td_add delta kTimeWrapPeriod;
    a ← Abs forth;
    Some (if a <? b then forth else delta).

(** ** Building a message *)

Definition AddDeltaSize (self : TransportFeedback) (delta_size : Z)
  : option (bool * TransportFeedback) :=
  let last := last_chunk_ self in
  if num_seq_no_ self =? kMaxReportedPackets then Some (false, self)
  else
    let add_chunk_size := if Empty last then kChunkSizeBytes else 0 in
    if size_bytes_ self + delta_size + add_chunk_size >? kMaxSizeBytes then Some (false, self)
    else
      ok ← CanAdd last delta_size;
      if (ok : bool) then
        last ← Add last delta_size;
        Some (true, with_chunks self (u16 (num_seq_no_ self + 1)) (encoded_chunks_ self) last
                      (size_bytes_ self + add_chunk_size))
      else if size_bytes_ self + delta_size + kChunkSizeBytes >? kMaxSizeBytes
      then Some (false, self)
      else
        '(chunk, last) ← Emit last;
        last ← Add last delta_size;
        Some (true, with_chunks self (u16 (num_seq_no_ self + 1)) (encoded_chunks_ self ++ [chunk])
                      last (size_bytes_ self + kChunkSizeBytes)).

(** [while (num_missing_packets > 0 && last_chunk_.CanAdd(0))]: what is left of the
    missing packets, and the chunk. *)
Fixpoint fill_missing (num_missing_packets : nat) (last : LastChunk) : option (nat * LastChunk) :=
  match num_missing_packets with
  | O => Some (O, last)
  | S n =>
      ok ← CanAdd last 0;
      if (ok : bool) then last ← Add last 0; fill_missing n last
      else Some (S n, last)
  end.

(** The part behind the while loop, with an empty chunk. *)
Definition add_runs (self : TransportFeedback) (chunks : list Z) (last : LastChunk)
    (new_num_seq_no num_missing_packets : Z) : option (bool * TransportFeedback) :=
  _ ← dcheck (Empty last);
  let full_chunks := num_missing_packets / kMaxRunLengthCapacity in
  let partial_chunk := num_missing_packets mod kMaxRunLengthCapacity in
  let num_chunks := full_chunks + (if partial_chunk >? 0 then 1 else 0) in
  if size_bytes_ self + kChunkSizeBytes * num_chunks >? kMaxSizeBytes then
    Some (false, with_chunks self (u16 (new_num_seq_no - num_missing_packets)) chunks last
                   (size_bytes_ self))
  else
    last ← TransportChunk.AddMissingPackets last partial_chunk;
    Some (true, with_chunks self (u16 new_num_seq_no)
                  (chunks ++ replicate (Z.to_nat full_chunks) kMaxRunLengthCapacity) last
                  (size_bytes_ self + kChunkSizeBytes * num_chunks)).

Definition AddMissingPackets (self : TransportFeedback) (num_missing_packets : Z)
  : option (bool * TransportFeedback) :=
  let new_num_seq_no := num_seq_no_ self + num_missing_packets in
  if new_num_seq_no >? kMaxReportedPackets then Some (false, self)
  else if negb (Empty (last_chunk_ self)) then
    '(remaining, last) ← fill_missing (Z.to_nat num_missing_packets) (last_chunk_ self);
    if (remaining =? 0)%nat then
      Some (true, with_chunks self (u16 new_num_seq_no) (encoded_chunks_ self) last (size_bytes_ self))
    else
      '(chunk, last) ← Emit last;
      add_runs self (encoded_chunks_ self ++ [chunk]) last new_num_seq_no (Z.of_nat remaining)
  else add_runs self (encoded_chunks_ self) (last_chunk_ self) new_num_seq_no num_missing_packets.

(** The time since the last packet in ticks, or [None] where it does not fit. *)
Definition ticks_since (last_timestamp timestamp : Z) : option (option Z) :=
  timestamp ← (if last_timestamp >? timestamp then
                 d ← ts_diff last_timestamp timestamp;
                 d ← RoundUpTo d kTimeWrapPeriod;
                 ts_add timestamp d
               else Some timestamp);
  _ ← dcheck (last_timestamp <=? timestamp);
  d ← ts_diff timestamp last_timestamp;
  us ← ToValue d;
  let delta_full := Z.rem us kTimeWrapPeriod in
  let delta_full :=
    if delta_full >? Z.quot kTimeWrapPeriod 2
    then delta_full - kTimeWrapPeriod - Z.quot kDeltaTick 2
    else delta_full + Z.quot kDeltaTick 2 in
  let delta_full := Z.quot delta_full kDeltaTick in
  let delta := s16 delta_full in
  Some (if negb (delta =? delta_full) then None else Some delta).

Definition AddReceivedPacket (self : TransportFeedback) (seq timestamp : Z)
  : option (bool * TransportFeedback) :=
  delta ← (if include_timestamps_ self then ticks_since (last_timestamp_ self) timestamp
           else Some (Some 0));
  match delta with
  | None => Some (false, self)
  | Some delta =>
      let next_seq_no := u16 (base_seq_no_ self + num_seq_no_ self) in
      '(ok, self) ←
        (if negb (seq =? next_seq_no) then
           let last_seq_no := u16 (next_seq_no - 1) in
           if negb (IsNewerSequenceNumber seq last_seq_no) then Some (false, self)
           else AddMissingPackets self (u16 (seq - next_seq_no))
         else Some (true, self));
      if negb (ok : bool) then Some (false, self)
      else
        let delta_size := if (0 <=? delta) && (delta <=? 0xff) then 1 else 2 in
        '(ok, self) ← AddDeltaSize self delta_size;
        if negb (ok : bool) then Some (false, self)
        else
          d ← td_mul kDeltaTick delta;
          t ← ts_add (last_timestamp_ self) d;
          Some (true, with_received self t (received_packets_ self ++ [mkReceived seq delta])
                        (if include_timestamps_ self then size_bytes_ self + delta_size
                         else size_bytes_ self))
  end.

(** The calls [ForAllPackets] makes: a sequence number and the time since the base,
    infinite for a lost packet. The loop counts 16-bit numbers up to the end; it
    makes at most 65535 steps. *)
Fixpoint for_all_packets (fuel : nat) (seq_num last_seq_num : Z) (received : list ReceivedPacket)
    (delta_since_base : Z) : option (list (Z * Z)) :=
  if seq_num =? last_seq_num then
    _ ← dcheck (bool_decide (received = []));
    Some []
  else
    match fuel with
    | O => None
    | S fuel =>
        match received with
        | p :: rest =>
            if sequence_number p =? seq_num then
              d ← delta p;
              delta_since_base ← td_add delta_since_base d;
              calls ← for_all_packets fuel (u16 (seq_num + 1)) last_seq_num rest delta_since_base;
              Some ((seq_num, delta_since_base) :: calls)
            else
              calls ← for_all_packets fuel (u16 (seq_num + 1)) last_seq_num received delta_since_base;
              Some ((seq_num, PlusInfinity) :: calls)
        | [] =>
            calls ← for_all_packets fuel (u16 (seq_num + 1)) last_seq_num received delta_since_base;
            Some ((seq_num, PlusInfinity) :: calls)
        end
    end.

Definition ForAllPackets (self : TransportFeedback) : option (list (Z * Z)) :=
  for_all_packets (Z.to_nat 0xffff) (base_seq_no_ self) (u16 (base_seq_no_ self + num_seq_no_ self))
    (received_packets_ self) 0.

(** ** Writing *)

Definition BlockLength (self : TransportFeedback) : Z :=
  Z.land (u64 (size_bytes_ self + 3)) (u64 (Z.lnot 3)).

Definition PaddingLength (self : TransportFeedback) : Z := BlockLength self - size_bytes_ self.

Definition CreateCommonFeedback (self : TransportFeedback) (buffer : list Z) (p : nat)
  : option (list Z) :=
  buffer ← WriteBigEndian32 buffer p (sender_ssrc self);
  WriteBigEndian32 buffer (p + 4) (media_ssrc self).

Definition write_chunk (st : list Z * nat) (chunk : Z) : option (list Z * nat) :=
  let '(buffer, position) := st in
  buffer ← WriteBigEndian16 buffer position chunk;
  Some (buffer, (position + 2)%nat).

Definition write_delta (st : list Z * nat) (p : ReceivedPacket) : option (list Z * nat) :=
  let '(buffer, position) := st in
  let delta := delta_ticks p in
  if (0 <=? delta) && (delta <=? 0xFF) then
    buffer ← wr buffer position (u8 delta);
    Some (buffer, (position + 1)%nat)
  else
    buffer ← WriteBigEndianSigned16 buffer position delta;
    Some (buffer, (position + 2)%nat).

(** A loop over a vector. *)
Fixpoint fold_m {A S} (f : S → A → option S) (s : S) (l : list A) : option S :=
  match l with
  | [] => Some s
  | a :: l => s ← f s a; fold_m f s l
  end.

Definition write_padding (st : list Z * nat) (padding_length : Z) : option (list Z * nat) :=
  let '(buffer, position) := st in
  if padding_length >? 0 then
    '(buffer, position) ← for_loop (Z.to_nat (padding_length - 1)) 0 (λ _ '(buffer, position),
      buffer ← wr buffer position 0;
      Some (buffer, (position + 1)%nat)) (buffer, position);
    buffer ← wr buffer position (u8 padding_length);
    Some (buffer, (position + 1)%nat)
  else Some (buffer, position).

(** The part of [Create] behind the loop that makes room: the buffer and the position
    after the message. *)
Definition write_message (self : TransportFeedback) (buffer : list Z) (position : nat)
  : option (list Z * nat) :=
  let block_length := Z.to_nat (BlockLength self) in
  let position_end := (position + block_length)%nat in
  let padding_length := PaddingLength self in
  header_length ← HeaderLength block_length;
  '(buffer, position) ← CreateHeader kFeedbackMessageType kPacketType header_length
                          (padding_length >? 0) buffer position;
  buffer ← CreateCommonFeedback self buffer position;
  let position := (position + 8)%nat in
  buffer ← WriteBigEndian16 buffer position (base_seq_no_ self);
  let position := (position + 2)%nat in
  buffer ← WriteBigEndian16 buffer position (num_seq_no_ self);
  let position := (position + 2)%nat in
  buffer ← WriteBigEndian24 buffer position (base_time_ticks_ self);
  let position := (position + 3)%nat in
  buffer ← wr buffer position (feedback_seq_ self);
  let position := (position + 1)%nat in
  st ← fold_m write_chunk (buffer, position) (encoded_chunks_ self);
  st ← (if negb (Empty (last_chunk_ self)) then
          chunk ← EncodeLast (last_chunk_ self);
          write_chunk st chunk
        else Some st);
  st ← (if include_timestamps_ self then fold_m write_delta st (received_packets_ self)
        else Some st);
  '(buffer, position) ← write_padding st padding_length;
  _ ← dcheck (position =? position_end)%nat;
  Some (buffer, position).

(** The result, the buffer, the position and the packets sent on the way. *)
Definition Create (self : TransportFeedback) (buffer : list Z) (position max_length : nat)
    (callback : bool) : option (bool * list Z * nat * list (list Z)) :=
  if num_seq_no_ self =? 0 then Some (false, buffer, position, [])
  else
    '(ok, position, sent) ←
      CcFeedback.make_room 2 buffer position (Z.to_nat (BlockLength self)) max_length callback [];
    if negb (ok : bool) then Some (false, buffer, position, sent)
    else
      '(buffer, position) ← write_message self buffer position;
      Some (true, buffer, position, sent).

(** ** Parsing *)

Definition ParseCommonFeedback (self : TransportFeedback) (buf : list Z) (payload : nat)
  : option TransportFeedback :=
  sender ← ReadBigEndian32 buf payload;
  media ← ReadBigEndian32 buf (payload + 4);
  Some (mkTf sender media (base_seq_no_ self) (num_seq_no_ self) (base_time_ticks_ self)
          (feedback_seq_ self) (include_timestamps_ self) (last_timestamp_ self)
          (received_packets_ self) (encoded_chunks_ self) (last_chunk_ self) (size_bytes_ self)).

Definition Clear (self : TransportFeedback) : option TransportFeedback :=
  t ← BaseTime (base_time_ticks_ self);
  Some (mkTf (sender_ssrc self) (media_ssrc self) (base_seq_no_ self) 0 (base_time_ticks_ self)
          (feedback_seq_ self) (include_timestamps_ self) t [] [] (TransportChunk.Clear (last_chunk_ self))
          kTransportFeedbackHeaderSizeBytes).

(** The move constructor: the new object and what is left of [other]. The base class
    is not initialised from [other], so the new object has no SSRCs. *)
Definition move_feedback (other : TransportFeedback) : option (TransportFeedback * TransportFeedback) :=
  let self := mkTf 0 0 (base_seq_no_ other) (num_seq_no_ other) (base_time_ticks_ other)
    (feedback_seq_ other) (include_timestamps_ other) (last_timestamp_ other) (received_packets_ other)
    (encoded_chunks_ other) (last_chunk_ other) (size_bytes_ other) in
  other ← Clear (mkTf (sender_ssrc other) (media_ssrc other) (base_seq_no_ other) (num_seq_no_ other)
    (base_time_ticks_ other) (feedback_seq_ other) (include_timestamps_ other) (last_timestamp_ other)
    [] [] (last_chunk_ other) (size_bytes_ other));
  Some (self, other).

(** The loop over the chunks: whether there were enough, the index behind them, the
    symbols, the chunks and the last of them decoded. *)
Fixpoint parse_chunks (fuel : nat) (buf : list Z) (payload : nat) (end_index status_count index : Z)
    (delta_sizes : list Z) (chunks : list Z) (last : LastChunk)
  : option (bool * Z * list Z * list Z * LastChunk) :=
  if Z.of_nat (length delta_sizes) <? status_count then
    match fuel with
    | O => None
    | S fuel =>
        if index + kChunkSizeBytes >? end_index then Some (false, index, delta_sizes, chunks, last)
        else
          chunk ← ReadBigEndian16 buf (payload + Z.to_nat index);
          last ← Decode last chunk (status_count - Z.of_nat (length delta_sizes));
          delta_sizes ← AppendTo last delta_sizes;
          parse_chunks fuel buf payload end_index status_count (index + kChunkSizeBytes) delta_sizes
            (chunks ++ [chunk]) last
    end
  else Some (true, index, delta_sizes, chunks, last).

(** The body of the loop over the symbols, with timestamps: [None] for an invalid
    symbol. The state is the index, the sequence number, the packets and the time. *)
Definition parse_delta (buf : list Z) (payload : nat) (end_index : Z)
    (st : option (Z * Z * list ReceivedPacket * Z)) (delta_size : Z)
  : option (option (Z * Z * list ReceivedPacket * Z)) :=
  match st with
  | None => Some None
  | Some (index, seq_no, received, last_timestamp) =>
      _ ← dcheck (index + delta_size <=? end_index);
      if delta_size =? 0 then Some (Some (index, u16 (seq_no + 1), received, last_timestamp))
      else if delta_size =? 3 then Some None
      else
        delta ← (if delta_size =? 1 then buf !! (payload + Z.to_nat index)%nat
                 else if delta_size =? 2 then ReadBigEndianSigned16 buf (payload + Z.to_nat index)
                 else None);
        d ← td_mul kDeltaTick delta;
        t ← ts_add last_timestamp d;
        Some (Some (index + delta_size, u16 (seq_no + 1), received ++ [mkReceived seq_no delta], t))
  end.

(** Without timestamps. *)
Definition parse_symbol (st : Z * list ReceivedPacket) (delta_size : Z)
  : option (Z * list ReceivedPacket) :=
  let '(seq_no, received) := st in
  Some (u16 (seq_no + 1), if delta_size >? 0 then received ++ [mkReceived seq_no 0] else received).

Definition accumulate (l : list Z) : Z := foldl (λ s d, s +i d) 0 l.

(** The part behind the loop over the chunks. *)
Definition parse_receive_deltas (self : TransportFeedback) (buf : list Z) (payload : nat)
    (end_index index : Z) (delta_sizes : list Z) : option (bool * TransportFeedback) :=
  let recv_delta_size := accumulate delta_sizes in
  if end_index >=? index + recv_delta_size then
    st ← fold_m (parse_delta buf payload end_index)
           (Some (index, base_seq_no_ self, received_packets_ self, last_timestamp_ self)) delta_sizes;
    match st with
    | None => self ← Clear self; Some (false, self)
    | Some (index, _, received, t) =>
        _ ← dcheck (index <=? end_index);
        Some (true, with_received self t received (Z.of_nat kHeaderLength + index))
    end
  else
    '(_, received) ← fold_m parse_symbol (base_seq_no_ self, received_packets_ self) delta_sizes;
    _ ← dcheck (index <=? end_index);
    Some (true, mkTf (sender_ssrc self) (media_ssrc self) (base_seq_no_ self) (num_seq_no_ self)
                  (base_time_ticks_ self) (feedback_seq_ self) false (last_timestamp_ self) received
                  (encoded_chunks_ self) (last_chunk_ self) (Z.of_nat kHeaderLength + index)).

Definition Parse (self : TransportFeedback) (buf : list Z) (packet : CommonHeader)
  : option (bool * TransportFeedback) :=
  _ ← dcheck (packet_type_ packet =? kPacketType);
  _ ← dcheck (count_or_format_ packet =? kFeedbackMessageType);
  if payload_size_ packet <? kMinPayloadSizeBytes then Some (false, self)
  else
    let payload := payload_ packet in
    self ← ParseCommonFeedback self buf payload;
    base_seq_no ← ReadBigEndian16 buf (payload + 8);
    status_count ← ReadBigEndian16 buf (payload + 10);
    base_time_ticks ← ReadBigEndian24 buf (payload + 12);
    feedback_seq ← buf !! (payload + 15)%nat;
    self ← Clear (mkTf (sender_ssrc self) (media_ssrc self) base_seq_no (num_seq_no_ self)
                    base_time_ticks feedback_seq (include_timestamps_ self) (last_timestamp_ self)
                    (received_packets_ self) (encoded_chunks_ self) (last_chunk_ self)
                    (size_bytes_ self));
    let end_index := payload_size_ packet in
    if status_count =? 0 then Some (false, self)
    else
      '(ok, index, delta_sizes, chunks, last) ←
        parse_chunks (Z.to_nat end_index) buf payload end_index status_count 16 []
          (encoded_chunks_ self) (last_chunk_ self);
      let self := with_chunks self (num_seq_no_ self) chunks last (size_bytes_ self) in
      if negb (ok : bool) then self ← Clear self; Some (false, self)
      else
        _ ← dcheck (Z.of_nat (length delta_sizes) =? status_count);
        let self := with_chunks self status_count (removelast (encoded_chunks_ self)) (last_chunk_ self)
                      (size_bytes_ self) in
        parse_receive_deltas self buf payload end_index index delta_sizes.

(** [ds] is the uninitialised array of the new object. *)
Definition ParseFrom (ds buffer : list Z) (length : nat) : option (option TransportFeedback) :=
  header ← ParseHeader buffer 0 length;
  match header with
  | None => Some None
  | Some header =>
      if negb (packet_type_ header =? kPacketType) ||
         negb (count_or_format_ header =? kFeedbackMessageType) then Some None
      else
        '(ok, parsed) ← Parse (new_feedback true ds) buffer header;
        Some (if (ok : bool) then Some parsed else None)
  end.

(** ** The consistency check *)

Definition decode_step (st : LastChunk * list Z * Z) (chunk : Z) : option (LastChunk * list Z * Z) :=
  let '(decoder, delta_sizes, packet_size) := st in
  decoder ← Decode decoder chunk kMaxReportedPackets;
  delta_sizes ← AppendTo decoder delta_sizes;
  Some (decoder, delta_sizes, packet_size + kChunkSizeBytes).

(** The body of the loop over the symbols: [None] where the code returns false. *)
Definition check_step (include_timestamps : bool) (st : option (Z * list ReceivedPacket * Z * Z))
    (delta_size : Z) : option (option (Z * list ReceivedPacket * Z * Z)) :=
  match st with
  | None => Some None
  | Some (timestamp, packets, seq_no, packet_size) =>
      let packet_size := if include_timestamps then packet_size + delta_size else packet_size in
      if delta_size >? 0 then
        match packets with
        | [] => Some None
        | p :: packets =>
            if negb (sequence_number p =? seq_no) then Some None
            else if (delta_size =? 1) && ((delta_ticks p <? 0) || (delta_ticks p >? 0xff))
            then Some None
            else
              d ← delta p;
              timestamp ← ts_add timestamp d;
              Some (Some (timestamp, packets, u16 (seq_no + 1), packet_size))
        end
      else Some (Some (timestamp, packets, u16 (seq_no + 1), packet_size))
  end.

(** [ds] is the uninitialised array of the decoder. *)
Definition IsConsistent (ds : list Z) (self : TransportFeedback) : option bool :=
  '(_, delta_sizes, packet_size) ←
    fold_m decode_step (TransportChunk.Clear (mkChunk ds 0 true false), [],
                        kTransportFeedbackHeaderSizeBytes) (encoded_chunks_ self);
  '(delta_sizes, packet_size) ←
    (if negb (Empty (last_chunk_ self)) then
       delta_sizes ← AppendTo (last_chunk_ self) delta_sizes;
       Some (delta_sizes, packet_size + kChunkSizeBytes)
     else Some (delta_sizes, packet_size));
  if negb (num_seq_no_ self =? Z.of_nat (length delta_sizes)) then Some false
  else
    t ← BaseTime (base_time_ticks_ self);
    st ← fold_m (check_step (include_timestamps_ self))
           (Some (t, received_packets_ self, base_seq_no_ self, packet_size)) delta_sizes;
    match st with
    | None => Some false
    | Some (timestamp, packets, _, packet_size) =>
        if negb (bool_decide (packets = [])) then Some false
        else if negb (timestamp =? last_timestamp_ self) then Some false
        else if negb (size_bytes_ self =? packet_size) then Some false
        else Some true
    end.

(** ** Loops over vectors *)

Lemma fold_m_app {A S} (f : S → A → option S) s l k :
  fold_m f s (l ++ k) = (s ← fold_m f s l; fold_m f s k).
Proof. revert s. induction l as [|a l IH]; intros s; cbn; [done|]. by destruct (f s a); cbn. Qed.

Definition sum (l : list Z) : Z := foldr Z.add 0 l.

Lemma sum_app l k : sum (l ++ k) = sum l + sum k.
Proof. induction l as [|x l IH]; cbn; [done|]. fold (sum (l ++ k)) (sum l). lia. Qed.

Lemma sum_bounds l a b : Forall (λ d, a ≤ d ≤ b) l →
  a * Z.of_nat (length l) ≤ sum l ≤ b * Z.of_nat (length l).
Proof. induction 1 as [|d l Hd _ IH]; cbn [sum foldr length]; [lia|]. fold (sum l). lia. Qed.

Lemma sum_replicate n : sum (replicate n 0) = 0.
Proof. induction n as [|n IH]; cbn; [done|]. exact IH. Qed.

(** ** The ordering of sequence numbers *)

(** [IsNewerSequenceNumber] is the order of sequence_number_util.h. *)
Lemma IsNewer_AheadOf a b : uint16 a → uint16 b → IsNewerSequenceNumber a b = AheadOf 16 a b.
Proof.
  unfold uint16. intros Ha Hb. unfold IsNewerSequenceNumber, AheadOf, AheadOrAt, minus, ForwardDiff, u16.
  change ((2 ^ 16 - 1) / 2 + 1) with 0x8000. change (2 ^ 16) with 65536. cbn [Z.ltb Z.compare].
  change (16 <? 32) with true. cbv iota. rewrite Z.gtb_ltb.
  destruct (Z.eqb_spec (a - b) 0x8000); [|done].
  rewrite (proj2 (Z.ltb_lt b a)), (proj2 (Z.eqb_neq a b)) by lia. done.
Qed.

(** ** The content of a message *)

(** The base time in microseconds. *)
Definition base_time (ticks : Z) : Z := kTimeWrapPeriod + kBaseTimeTick * ticks.

Definition ticks_ok (ticks : Z) : Prop := 0 ≤ ticks < 16777216.

Lemma wrap_value : kTimeWrapPeriod = 1073741824000.
Proof. done. Qed.

Lemma BaseTime_spec ticks : ticks_ok ticks → BaseTime ticks = Some (base_time ticks).
Proof.
  unfold ticks_ok. intros H. unfold BaseTime, base_time. rewrite wrap_value. change kBaseTimeTick with 64000.
  unfold finite, PlusInfinity, MinusInfinity in *.
  rewrite ts_add_ok by (unfold finite, PlusInfinity, MinusInfinity; lia). cbn [mbind option_bind].
  rewrite td_mul_ok by (unfold finite, PlusInfinity, MinusInfinity; lia). cbn [mbind option_bind].
  rewrite ts_add_ok by (unfold finite, PlusInfinity, MinusInfinity; lia). done.
Qed.

(** [sizes] are the symbols of the packets from [seq] on: the received packets are
    those with a non-zero symbol, which suits the tick count. *)
Fixpoint matches (R : Z → Z → Prop) (seq : Z) (sizes : list Z) (packets : list ReceivedPacket) : Prop :=
  match sizes with
  | [] => packets = []
  | d :: sizes =>
      if d =? 0 then matches R (u16 (seq + 1)) sizes packets
      else
        match packets with
        | [] => False
        | p :: packets =>
            sequence_number p = seq ∧ R d (delta_ticks p) ∧ matches R (u16 (seq + 1)) sizes packets
        end
  end.

(** The size the code chooses, and the sizes a parsed message may have. *)
Definition delta_size (ticks : Z) : Z := if (0 <=? ticks) && (ticks <=? 0xff) then 1 else 2.
Definition chosen (d ticks : Z) : Prop := d = delta_size ticks ∧ int16 ticks.
Definition allowed (d ticks : Z) : Prop := 1 ≤ d ≤ 3 ∧ (d = 1 → 0 ≤ ticks ≤ 255) ∧ int16 ticks.

Lemma chosen_allowed d t : chosen d t → allowed d t.
Proof.
  intros [-> Ht]. unfold allowed, delta_size. destruct (Z.leb_spec 0 t), (Z.leb_spec t 0xff);
    cbn [andb]; split_and!; try done; lia.
Qed.

Lemma matches_weaken (R Q : Z → Z → Prop) seq sizes packets :
  (∀ d t, R d t → Q d t) → matches R seq sizes packets → matches Q seq sizes packets.
Proof.
  intros H. revert seq packets. induction sizes as [|d sizes IH]; intros seq packets; cbn; [done|].
  destruct (d =? 0); [apply IH|]. destruct packets; [done|]. intros (? & ? & ?). split_and!; auto.
Qed.

Lemma matches_app R seq sizes packets k q :
  uint16 seq → matches R seq sizes packets → matches R (u16 (seq + Z.of_nat (length sizes))) k q →
  matches R seq (sizes ++ k) (packets ++ q).
Proof.
  revert seq packets. induction sizes as [|d sizes IH]; intros seq packets Hu; cbn [matches length app].
  { intros -> H. rewrite Z.add_0_r in H. unfold u16 in H. by rewrite Z.mod_small in H by (unfold uint16 in Hu; lia). }
  assert (E : u16 (seq + Z.of_nat (S (length sizes))) = u16 (u16 (seq + 1) + Z.of_nat (length sizes))).
  { unfold u16. rewrite Zplus_mod_idemp_l. f_equal. lia. }
  rewrite E. destruct (d =? 0); [apply IH, u16_range|].
  destruct packets as [|p packets]; [done|]. cbn [app]. intros (? & ? & ?) Hk. split_and!; try done.
  apply IH; [apply u16_range|done..].
Qed.

Lemma matches_zeros R seq n : matches R seq (replicate n 0) [].
Proof. revert seq. induction n as [|n IH]; intros seq; cbn; [done|apply IH]. Qed.

Lemma matches_length R seq sizes packets : matches R seq sizes packets →
  (length packets ≤ length sizes)%nat.
Proof.
  revert seq packets. induction sizes as [|d sizes IH]; intros seq packets; cbn; [by intros ->|].
  destruct (d =? 0); [intros H; apply IH in H; lia|]. destruct packets; [done|].
  intros (_ & _ & H). apply IH in H. cbn. lia.
Qed.

Lemma matches_ticks R seq sizes packets : (∀ d t, R d t → int16 t) →
  matches R seq sizes packets → Forall (λ p, int16 (delta_ticks p)) packets.
Proof.
  intros HR. revert seq packets. induction sizes as [|d sizes IH]; intros seq packets; cbn.
  { intros ->. by apply Forall_nil_2. }
  destruct (d =? 0); [apply IH|]. destruct packets; [done|]. intros (_ & Hr & H).
  apply Forall_cons_2; [by eapply HR|by eapply IH].
Qed.

(** The time of the last packet. *)
Definition total_ticks (packets : list ReceivedPacket) : Z := sum (map delta_ticks packets).

Lemma total_ticks_bounds packets : Forall (λ p, int16 (delta_ticks p)) packets →
  -32768 * Z.of_nat (length packets) ≤ total_ticks packets ≤ 32767 * Z.of_nat (length packets).
Proof.
  intros H. rewrite <- (length_map delta_ticks packets). apply sum_bounds.
  apply Forall_map. exact H.
Qed.

(** The consistency of a message: [sizes] are the symbols of its packets. *)
Definition well_formed (R : Z → Z → Prop) (f : TransportFeedback) (sizes : list Z) : Prop :=
  uint16 (base_seq_no_ f) ∧ ticks_ok (base_time_ticks_ f) ∧
  num_seq_no_ f = Z.of_nat (length sizes) ∧ num_seq_no_ f ≤ 65535 ∧
  Forall uint16 (encoded_chunks_ f) ∧ chunk_ok (last_chunk_ f) ∧
  concat (map symbols (encoded_chunks_ f)) ++ contents (last_chunk_ f) = sizes ∧
  matches R (base_seq_no_ f) sizes (received_packets_ f) ∧
  last_timestamp_ f = base_time (base_time_ticks_ f) + kDeltaTick * total_ticks (received_packets_ f) ∧
  size_bytes_ f = 20 + 2 * Z.of_nat (length (encoded_chunks_ f)) +
    (if Empty (last_chunk_ f) then 0 else 2) + (if include_timestamps_ f then sum sizes else 0).

(** A time reached by at most 65535 deltas from the base. *)
Lemma time_ok ticks n s : ticks_ok ticks → -32768 * n ≤ s ≤ 32767 * n → 0 ≤ n ≤ 65535 →
  0 ≤ base_time ticks + kDeltaTick * s ≤ 2684354560000.
Proof. unfold ticks_ok, base_time. rewrite wrap_value. change kBaseTimeTick with 64000. unfold kDeltaTick. lia. Qed.

Lemma add_delta ticks n s d : ticks_ok ticks → -32768 * n ≤ s ≤ 32767 * n → 0 ≤ n < 65535 → int16 d →
  ∃ u, td_mul kDeltaTick d = Some u ∧
    ts_add (base_time ticks + kDeltaTick * s) u = Some (base_time ticks + kDeltaTick * (s + d)).
Proof.
  intros Ht Hs Hn Hd. unfold int16 in Hd. exists (kDeltaTick * d).
  pose proof (time_ok ticks n s Ht Hs ltac:(lia)) as H1.
  pose proof (time_ok ticks (n + 1) (s + d) Ht ltac:(lia) ltac:(lia)) as H2.
  rewrite td_mul_ok by (unfold finite, PlusInfinity, MinusInfinity, kDeltaTick; lia). split; [done|].
  rewrite ts_add_ok; [f_equal; lia|..]; unfold finite, PlusInfinity, MinusInfinity, kDeltaTick in *; lia.
Qed.

(** ** The consistency check accepts well-formed messages *)

Lemma decode_all dec acc sz chunks :
  length (delta_sizes_ dec) = 14%nat → Forall uint16 chunks →
  ∃ dec', fold_m decode_step (dec, acc, sz) chunks =
    Some (dec', acc ++ concat (map symbols chunks), sz + 2 * Z.of_nat (length chunks)).
Proof.
  intros Hl Hc. revert dec acc sz Hl. induction Hc as [|c chunks Hc _ IH]; intros dec acc sz Hl.
  { exists dec. cbn. rewrite app_nil_r. do 2 f_equal. lia. }
  cbn [fold_m map concat length]. unfold decode_step at 2, kMaxReportedPackets. cbv beta iota.
  destruct (Decode_spec dec c 0xffff Hl Hc ltac:(lia)) as (dec' & -> & Hok & E).
  cbn [mbind option_bind]. rewrite AppendTo_spec, E, take_ge
    by (done || pose proof (symbols_length c); lia).
  cbn [mbind option_bind]. destruct (IH dec' (acc ++ symbols c) (sz + kChunkSizeBytes)) as (d2 & ->).
  { apply Hok. }
  exists d2. rewrite <- app_assoc. unfold kChunkSizeBytes. do 2 f_equal. lia.
Qed.

Lemma check_all inc ticks n s seq sizes packets sz :
  ticks_ok ticks → matches allowed seq sizes packets → 0 ≤ n → n + Z.of_nat (length packets) ≤ 65535 →
  Forall (λ d, 0 ≤ d ≤ 3) sizes → -32768 * n ≤ s ≤ 32767 * n →
  ∃ seq', fold_m (check_step inc) (Some (base_time ticks + kDeltaTick * s, packets, seq, sz)) sizes =
    Some (Some (base_time ticks + kDeltaTick * (s + total_ticks packets), [], seq',
                if inc then sz + sum sizes else sz)).
Proof.
  intros Ht. revert n s seq packets sz.
  induction sizes as [|d sizes IH]; intros n s seq packets sz Hm Hn Hnp Hr Hs; cbn [matches fold_m] in *.
  { subst packets. exists seq. cbn. do 5 f_equal; [f_equal; unfold total_ticks; cbn; lia|].
    destruct inc; [lia|done]. }
  apply Forall_cons_1 in Hr as [Hd Hr]. unfold check_step at 2. cbv beta iota. cbn [sum foldr]. fold (sum sizes).
  destruct (Z.eqb_spec d 0) as [->|Hd0].
  { cbn [Z.gtb Z.compare mbind option_bind].
    destruct (IH n s _ packets (if inc then sz + 0 else sz) Hm Hn Hnp Hr Hs) as (seq' & ->).
    exists seq'. do 3 f_equal. destruct inc; lia. }
  rewrite (proj2 (Z.gtb_gt d 0)) by lia.
  destruct packets as [|p packets]; [done|]. destruct Hm as (Hseq & (Hd1 & H1 & Hi) & Hm). cbn [length] in Hnp.
  rewrite Hseq, Z.eqb_refl. cbn [negb].
  assert (E : (d =? 1) && ((delta_ticks p <? 0) || (delta_ticks p >? 0xff)) = false).
  { destruct (Z.eqb_spec d 1) as [->|]; [|done]. specialize (H1 eq_refl). cbn [andb].
    rewrite (proj2 (Z.ltb_ge _ _)), Z.gtb_ltb, (proj2 (Z.ltb_ge _ _)) by lia. done. }
  rewrite E. unfold delta.
  destruct (add_delta ticks n s (delta_ticks p) Ht Hs ltac:(lia) Hi) as (u & -> & Eu).
  cbn [mbind option_bind]. rewrite Eu. cbn [mbind option_bind]. unfold int16 in Hi.
  destruct (IH (n + 1) (s + delta_ticks p) _ packets (if inc then sz + d else sz) Hm
    ltac:(lia) ltac:(lia) Hr ltac:(lia)) as (seq' & ->).
  exists seq'. unfold total_ticks. cbn [map sum foldr]. fold (sum (map delta_ticks packets)).
  do 5 f_equal; [f_equal; lia|]. destruct inc; lia.
Qed.

Lemma well_formed_range R f sizes : well_formed R f sizes → Forall (λ d, 0 ≤ d ≤ 3) sizes.
Proof.
  intros (_ & _ & _ & _ & Hu & Hc & <- & _). apply Forall_app_2; [|apply Hc].
  apply Forall_concat, Forall_map. eapply Forall_weaken; [exact Hu|]. apply symbols_range.
Qed.

Lemma chunk_Empty c : chunk_ok c → Empty c = true → contents c = [].
Proof. intros Hc H%Z.eqb_eq. by apply contents_empty. Qed.

Lemma IsConsistent_true f sizes ds : length ds = 14%nat → well_formed allowed f sizes →
  IsConsistent ds f = Some true.
Proof.
  intros Hds Hw. pose proof (well_formed_range _ _ _ Hw) as Hr.
  destruct Hw as (Hb & Ht & Hn & Hmax & Hu & Hc & Hs & Hm & Hts & Hsz).
  unfold IsConsistent.
  destruct (decode_all (TransportChunk.Clear (mkChunk ds 0 true false)) []
    kTransportFeedbackHeaderSizeBytes (encoded_chunks_ f) Hds Hu) as (dec & ->).
  cbn [mbind option_bind app].
  assert (E : (if negb (Empty (last_chunk_ f)) then
       delta_sizes ← AppendTo (last_chunk_ f) (concat (map symbols (encoded_chunks_ f)));
       Some (delta_sizes, kTransportFeedbackHeaderSizeBytes + 2 * Z.of_nat (length (encoded_chunks_ f))
               + kChunkSizeBytes)
     else Some (concat (map symbols (encoded_chunks_ f)),
       kTransportFeedbackHeaderSizeBytes + 2 * Z.of_nat (length (encoded_chunks_ f)))) =
     Some (sizes, 20 + 2 * Z.of_nat (length (encoded_chunks_ f)) + if Empty (last_chunk_ f) then 0 else 2)).
  { destruct (Empty (last_chunk_ f)) eqn:Ee; cbn [negb].
    - rewrite (chunk_Empty _ Hc Ee), app_nil_r in Hs. rewrite Hs.
      unfold kTransportFeedbackHeaderSizeBytes. do 2 f_equal. lia.
    - rewrite AppendTo_spec, Hs by done. done. }
  rewrite E. cbn [mbind option_bind]. rewrite Hn, Z.eqb_refl. cbn [negb].
  rewrite BaseTime_spec by done. cbn [mbind option_bind].
  pose proof (matches_length _ _ _ _ Hm) as Hl.
  destruct (check_all (include_timestamps_ f) (base_time_ticks_ f) 0 0 (base_seq_no_ f) sizes
    (received_packets_ f) (20 + 2 * Z.of_nat (length (encoded_chunks_ f)) +
       if Empty (last_chunk_ f) then 0 else 2) Ht Hm ltac:(lia) ltac:(lia) Hr ltac:(lia)) as (seq' & C).
  rewrite Z.mul_0_r, Z.add_0_r in C. rewrite C. cbn [mbind option_bind]. rewrite Z.add_0_l, <- Hts, Z.eqb_refl.
  rewrite bool_decide_true by done. cbn [negb].
  assert (E2 : (if include_timestamps_ f then
      20 + 2 * Z.of_nat (length (encoded_chunks_ f)) + (if Empty (last_chunk_ f) then 0 else 2) + sum sizes
    else 20 + 2 * Z.of_nat (length (encoded_chunks_ f)) + (if Empty (last_chunk_ f) then 0 else 2))
    = size_bytes_ f).
  { rewrite Hsz. destruct (include_timestamps_ f); lia. }
  by rewrite E2, Z.eqb_refl.
Qed.

(** ** Building messages *)

(** The part of the state that describes the symbols; [extra] counts the bytes of the
    deltas. Every encoded chunk holds at least seven symbols, which is why a message
    never reaches the maximal size. *)
Definition chunks_ok (f : TransportFeedback) (sizes : list Z) (extra : Z) : Prop :=
  Forall (λ c, uint16 c ∧ (7 ≤ length (symbols c))%nat) (encoded_chunks_ f) ∧
  builder (last_chunk_ f) ∧
  concat (map symbols (encoded_chunks_ f)) ++ contents (last_chunk_ f) = sizes ∧
  num_seq_no_ f = Z.of_nat (length sizes) ∧ num_seq_no_ f ≤ 65535 ∧
  size_bytes_ f = 20 + 2 * Z.of_nat (length (encoded_chunks_ f)) +
    (if Empty (last_chunk_ f) then 0 else 2) + extra ∧
  0 ≤ extra ≤ 2 * num_seq_no_ f.

(** Only the symbols change. *)
Definition same_base (f f' : TransportFeedback) : Prop :=
  f' = with_chunks f (num_seq_no_ f') (encoded_chunks_ f') (last_chunk_ f') (size_bytes_ f').

Lemma chunks_count chunks : Forall (λ c, uint16 c ∧ (7 ≤ length (symbols c))%nat) chunks →
  (7 * length chunks ≤ length (concat (map symbols chunks)))%nat.
Proof.
  induction 1 as [|c chunks [_ Hc] _ IH]; [done|]. cbn [map concat length]. rewrite length_app. lia.
Qed.

Lemma chunks_bound f sizes extra : chunks_ok f sizes extra →
  7 * Z.of_nat (length (encoded_chunks_ f)) + size_ (last_chunk_ f) ≤ num_seq_no_ f ∧
  size_bytes_ f ≤ 20 + 18724 + 2 + 2 * 65535 ∧ 0 ≤ num_seq_no_ f.
Proof.
  intros (Hc & Hb & Hs & Hn & Hm & Hz & He). pose proof (chunks_count _ Hc) as H7.
  pose proof (length_contents _ (builder_ok _ Hb)) as Hl.
  apply (f_equal length) in Hs. rewrite length_app in Hs.
  destruct Hb as (_ & Hb & _). destruct (Empty (last_chunk_ f)); lia.
Qed.

Lemma Empty_size c : Empty c = (size_ c =? 0).
Proof. done. Qed.

Lemma AddDeltaSize_spec f sizes extra d : chunks_ok f sizes extra → 1 ≤ d ≤ 2 →
  if num_seq_no_ f =? 65535 then AddDeltaSize f d = Some (false, f)
  else ∃ f', AddDeltaSize f d = Some (true, f') ∧ same_base f f' ∧ chunks_ok f' (sizes ++ [d]) extra.
Proof.
  intros Hok Hd. pose proof (chunks_bound _ _ _ Hok) as (H7 & Hbytes & Hn0).
  destruct Hok as (Hc & Hb & Hs & Hn & Hm & Hz & He).
  unfold AddDeltaSize, kMaxReportedPackets. change kMaxSizeBytes with 262144.
  destruct (Z.eqb_spec (num_seq_no_ f) 65535); [done|].
  assert (Hcs : 0 ≤ (if Empty (last_chunk_ f) then kChunkSizeBytes else 0) ≤ 2)
    by (unfold kChunkSizeBytes; destruct (Empty _); lia).
  rewrite Z.gtb_ltb, (proj2 (Z.ltb_ge _ _)) by lia.
  rewrite CanAdd_spec by (apply Hb || lia). cbn [mbind option_bind].
  assert (Hu : u16 (num_seq_no_ f + 1) = num_seq_no_ f + 1) by (unfold u16; apply Z.mod_small; lia).
  assert (Hlen : num_seq_no_ f + 1 = Z.of_nat (length (sizes ++ [d]))) by (rewrite length_app; cbn; lia).
  destruct (can_add (last_chunk_ f) d) eqn:Hcan.
  - destruct (Add_spec (last_chunk_ f) d Hb ltac:(lia) Hcan) as (last & -> & Hb' & Ec & Es).
    cbn [mbind option_bind]. eexists. split; [done|]. split; [done|]. rewrite Hu.
    unfold chunks_ok. cbn [with_chunks num_seq_no_ encoded_chunks_ last_chunk_ size_bytes_].
    rewrite Ec, app_assoc, Hs, (Empty_size last), Es, (proj2 (Z.eqb_neq (size_ (last_chunk_ f) + 1) 0))
      by (destruct Hb as (_ & ? & _); lia).
    split_and!; try done; try lia. rewrite Hz. unfold kChunkSizeBytes.
    destruct (Empty (last_chunk_ f)); lia.
  - rewrite Z.gtb_ltb, (proj2 (Z.ltb_ge _ _)) by (unfold kChunkSizeBytes; lia).
    destruct (Emit_spec (last_chunk_ f) d Hb ltac:(lia) Hcan)
      as (chunk & last & -> & Huc & Hb' & Ec & Hlc & Hs7 & _).
    cbn [mbind option_bind].
    destruct (Add_spec last d Hb' ltac:(lia) (can_add_small last d ltac:(lia)))
      as (last' & -> & Hb'' & Ec' & Es').
    cbn [mbind option_bind]. eexists. split; [done|]. split; [done|]. rewrite Hu.
    unfold chunks_ok. cbn [with_chunks num_seq_no_ encoded_chunks_ last_chunk_ size_bytes_].
    rewrite map_app, concat_app, Ec', length_app. cbn [map concat length]. rewrite app_nil_r.
    rewrite (Empty_size last'), Es', (proj2 (Z.eqb_neq (size_ last + 1) 0)) by lia.
    rewrite <- (app_assoc _ (symbols chunk)), (app_assoc (symbols chunk)), Ec, app_assoc, Hs.
    split_and!; try done; try lia.
    + apply Forall_app_2; [done|]. by apply Forall_singleton.
    + assert (Empty (last_chunk_ f) = false) as E.
      { apply Z.eqb_neq. intros E0. by rewrite can_add_small in Hcan by lia. }
      rewrite E in Hz. rewrite length_app. unfold kChunkSizeBytes. cbn [length]. lia.
Qed.

Lemma fill_missing_spec n c : builder c →
  wp (fill_missing n c) (λ '(r, c'), (r ≤ n)%nat ∧ builder c' ∧
    contents c' = contents c ++ replicate (n - r) 0 ∧ size_ c' = size_ c + Z.of_nat (n - r) ∧
    (r ≠ 0%nat → can_add c' 0 = false)).
Proof.
  revert c. induction n as [|n IH]; intros c Hb; cbn [fill_missing].
  { split_and!; [lia|done|by rewrite app_nil_r|lia|done]. }
  rewrite CanAdd_spec by (apply Hb || lia). apply wp_bind, wp_ret.
  destruct (can_add c 0) eqn:Hcan.
  - destruct (Add_spec c 0 Hb ltac:(lia) Hcan) as (c' & -> & Hb' & Ec & Es). apply wp_bind, wp_ret.
    wp_call (by apply IH). intros [r c''] (Hr & Hb'' & Ec' & Es' & Hcan').
    split_and!; [lia|done| |lia|done].
    rewrite Ec', Ec, <- app_assoc. replace (S n - r)%nat with (S (n - r)) by lia. done.
  - apply wp_ret. rewrite Nat.sub_diag. split_and!; [lia|done|by rewrite app_nil_r|lia|done].
Qed.

Lemma symbols_full : uint16 kMaxRunLengthCapacity ∧
  symbols kMaxRunLengthCapacity = replicate (Z.to_nat 8191) 0.
Proof.
  unfold kMaxRunLengthCapacity. split; [unfold uint16; lia|].
  apply (proj2 (symbols_run 0 8191 ltac:(lia) ltac:(lia))).
Qed.

Lemma full_chunks n : concat (map symbols (replicate n kMaxRunLengthCapacity)) =
  replicate (n * Z.to_nat 8191) 0.
Proof.
  induction n as [|n IH]; [done|]. cbn [replicate map concat]. rewrite IH, (proj2 symbols_full).
  by rewrite <- replicate_add.
Qed.

(** [add_runs] on a state whose gathered symbols, all encoded, are [sizes]. *)
Lemma add_runs_spec f chunks last sizes extra n :
  Forall (λ c, uint16 c ∧ (7 ≤ length (symbols c))%nat) chunks → builder last → size_ last = 0 →
  concat (map symbols chunks) = sizes →
  size_bytes_ f = 20 + 2 * Z.of_nat (length chunks) + extra →
  0 ≤ n → Z.of_nat (length sizes) + n ≤ 65535 → 0 ≤ extra ≤ 2 * Z.of_nat (length sizes) →
  ∃ f', add_runs f chunks last (Z.of_nat (length sizes) + n) n = Some (true, f') ∧ same_base f f' ∧
    chunks_ok f' (sizes ++ replicate (Z.to_nat n) 0) extra.
Proof.
  intros Hc Hb H0 Hs Hz Hn Hmax He. unfold add_runs, kMaxRunLengthCapacity, kChunkSizeBytes.
  change kMaxSizeBytes with 262144. rewrite Empty_size, H0. cbn [Z.eqb dcheck mbind option_bind].
  set (q := n / 0x1fff). set (r := n mod 0x1fff).
  assert (Hq : n = 8191 * q + r) by (unfold q, r; apply Z.div_mod; lia).
  pose proof (Z.mod_pos_bound n 0x1fff ltac:(lia)) as Hr. fold r in Hr.
  assert (Hq0 : 0 ≤ q) by (apply Z.div_pos; lia). clearbody q r.
  pose proof (chunks_count _ Hc) as H7. rewrite Hs in H7.
  assert (Hk : 0 ≤ (if r >? 0 then 1 else 0) ≤ 1) by (destruct (r >? 0); lia).
  rewrite Z.gtb_ltb, (proj2 (Z.ltb_ge _ _)) by lia.
  destruct (AddMissingPackets_spec last r Hb H0 ltac:(lia)) as (last' & -> & Hb' & Ec & Es).
  cbn [mbind option_bind]. eexists. split; [done|]. split; [done|].
  unfold chunks_ok. cbn [with_chunks num_seq_no_ encoded_chunks_ last_chunk_ size_bytes_].
  assert (Hu : u16 (Z.of_nat (length sizes) + n) = Z.of_nat (length sizes) + n)
    by (unfold u16; apply Z.mod_small; lia).
  assert (Ez : concat (map symbols (chunks ++ replicate (Z.to_nat q) 0x1fff)) ++ contents last' =
               sizes ++ replicate (Z.to_nat n) 0).
  { change 0x1fff with kMaxRunLengthCapacity.
    rewrite map_app, concat_app, full_chunks, Hs, Ec, <- app_assoc, <- replicate_add.
    do 2 f_equal. lia. }
  rewrite Hu, Ez, Empty_size, Es, !length_app, !length_replicate. split_and!; try done; try lia.
  - apply Forall_app_2; [done|]. apply Forall_replicate. change 0x1fff with kMaxRunLengthCapacity.
    destruct symbols_full as [? ->]. rewrite length_replicate. split; [done|lia].
  - rewrite Z.gtb_ltb. destruct (Z.ltb_spec 0 r), (Z.eqb_spec r 0); lia.
Qed.

Lemma AddMissingPackets_ok f sizes extra n : chunks_ok f sizes extra → 0 ≤ n →
  if num_seq_no_ f + n >? 65535 then AddMissingPackets f n = Some (false, f)
  else ∃ f', AddMissingPackets f n = Some (true, f') ∧ same_base f f' ∧
         chunks_ok f' (sizes ++ replicate (Z.to_nat n) 0) extra.
Proof.
  intros Hok Hn. assert (Hok' := Hok). destruct Hok' as (Hc & Hb & Hs & Hnum & Hm & Hz & He).
  unfold AddMissingPackets, kMaxReportedPackets. rewrite Z.gtb_ltb.
  destruct (Z.ltb_spec 65535 (num_seq_no_ f + n)) as [|Hfit]; [done|].
  destruct (Empty (last_chunk_ f)) eqn:Ee; cbn [negb].
  { rewrite Hnum. assert (E0 : size_ (last_chunk_ f) = 0) by (by apply Z.eqb_eq).
    rewrite (contents_empty _ E0), app_nil_r in Hs.
    apply (add_runs_spec f _ _ sizes extra n); try done; lia. }
  pose proof (fill_missing_spec (Z.to_nat n) (last_chunk_ f) Hb) as Hf.
  apply wp_exists in Hf as ([r c'] & -> & Hr & Hb' & Ec & Es & Hcan). cbn [mbind option_bind].
  assert (Hs' : concat (map symbols (encoded_chunks_ f)) ++ contents c' =
                sizes ++ replicate (Z.to_nat n - r) 0) by (by rewrite Ec, app_assoc, Hs).
  assert (0 < size_ (last_chunk_ f)).
  { apply Z.eqb_neq in Ee. destruct Hb as (_ & ? & _). lia. }
  destruct (Nat.eqb_spec r 0) as [->|Hr0].
  - eexists. split; [done|]. split; [done|]. rewrite Nat.sub_0_r in *.
    unfold chunks_ok. cbn [with_chunks num_seq_no_ encoded_chunks_ last_chunk_ size_bytes_].
    assert (u16 (num_seq_no_ f + n) = num_seq_no_ f + n) as -> by (unfold u16; apply Z.mod_small; lia).
    rewrite Hs', length_app, length_replicate, Empty_size, (proj2 (Z.eqb_neq (size_ c') 0)) by lia.
    split_and!; try done; lia.
  - destruct (Emit_spec c' 0 Hb' ltac:(lia) (Hcan Hr0)) as (chunk & c2 & -> & Hu & Hb2 & Ec2 & Hl & _ & E0).
    cbn [mbind option_bind]. specialize (E0 eq_refl).
    rewrite (contents_empty c2 E0), app_nil_r in Ec2.
    assert (Hlen : num_seq_no_ f + n =
      Z.of_nat (length (sizes ++ replicate (Z.to_nat n - r) 0)) + Z.of_nat r)
      by (rewrite length_app, length_replicate; lia).
    rewrite Hlen.
    destruct (add_runs_spec f (encoded_chunks_ f ++ [chunk]) c2 (sizes ++ replicate (Z.to_nat n - r) 0)
      extra (Z.of_nat r)) as (f' & -> & Hsame & Hok2); try done; try lia.
    + apply Forall_app_2; [done|]. by apply Forall_singleton.
    + rewrite map_app, concat_app. cbn [map concat]. by rewrite app_nil_r, Ec2, Hs'.
    + rewrite length_app. cbn [length]. lia.
    + exists f'. split; [done|]. split; [done|].
      rewrite <- app_assoc, <- replicate_add, Nat2Z.id in Hok2.
      by replace (Z.to_nat n - r + r)%nat with (Z.to_nat n) in Hok2 by lia.
Qed.

(** ** Times in ticks *)

(** The distance from [last] to [t] on the circle of the wrap period, and its
    rounding to ticks. *)
Definition distance (last t : Z) : Z :=
  let m := (t - last) mod kTimeWrapPeriod in
  if m >? kTimeWrapPeriod / 2 then m - kTimeWrapPeriod else m.

Definition ticks_between (last t : Z) : Z :=
  let d := distance last t in Z.quot (if d <? 0 then d - 125 else d + 125) 250.

Lemma distance_spec last t : - (kTimeWrapPeriod / 2) ≤ distance last t ≤ kTimeWrapPeriod / 2 ∧
  ∃ k, t = last + distance last t + k * kTimeWrapPeriod.
Proof.
  unfold distance. rewrite Z.gtb_ltb. pose proof (Z.div_mod (t - last) kTimeWrapPeriod ltac:(done)).
  pose proof (Z.mod_pos_bound (t - last) kTimeWrapPeriod ltac:(done)).
  set (m := (t - last) mod kTimeWrapPeriod) in *. set (q := (t - last) / kTimeWrapPeriod) in *.
  clearbody m q. rewrite wrap_value in *. change (1073741824000 / 2) with 536870912000.
  destruct (Z.ltb_spec 536870912000 m); (split; [lia|]); [exists (q + 1)|exists q]; lia.
Qed.

Lemma ticks_between_spec last t : -125 ≤ kDeltaTick * ticks_between last t - distance last t ≤ 125.
Proof.
  unfold ticks_between, kDeltaTick. set (d := distance last t). clearbody d.
  destruct (Z.ltb_spec d 0); Z.to_euclidean_division_equations; lia.
Qed.

(** The times the theorems admit: below 2^61 microseconds, some 73000 years. *)
Definition time_in_range (t : Z) : Prop := 0 ≤ t ≤ 2305843009213693952.

Lemma rem_distance last t : last ≤ t →
  (if Z.rem (t - last) kTimeWrapPeriod >? Z.quot kTimeWrapPeriod 2
   then Z.rem (t - last) kTimeWrapPeriod - kTimeWrapPeriod - Z.quot kDeltaTick 2
   else Z.rem (t - last) kTimeWrapPeriod + Z.quot kDeltaTick 2) =
  (if distance last t <? 0 then distance last t - 125 else distance last t + 125).
Proof.
  intros H. unfold distance. rewrite Z.rem_mod_nonneg by (rewrite ?wrap_value; lia).
  pose proof (Z.mod_pos_bound (t - last) kTimeWrapPeriod ltac:(done)).
  set (m := (t - last) mod kTimeWrapPeriod) in *. clearbody m. rewrite wrap_value in *.
  change (1073741824000 / 2) with 536870912000. change (Z.quot 1073741824000 2) with 536870912000.
  change (Z.quot kDeltaTick 2) with 125. rewrite !Z.gtb_ltb.
  destruct (Z.ltb_spec 536870912000 m).
  - by rewrite (proj2 (Z.ltb_lt _ _)) by lia.
  - by rewrite (proj2 (Z.ltb_ge _ _)) by lia.
Qed.

Lemma distance_shift last t k : distance last (t + k * kTimeWrapPeriod) = distance last t.
Proof.
  unfold distance. replace (t + k * kTimeWrapPeriod - last) with (t - last + k * kTimeWrapPeriod) by lia.
  by rewrite Z.mod_add.
Qed.

Lemma ticks_later last t : time_in_range last → 0 ≤ t ≤ 4611686018427387904 → last ≤ t →
  (_ ← dcheck (last <=? t);
   d ← ts_diff t last;
   us ← ToValue d;
   let delta_full := Z.rem us kTimeWrapPeriod in
   let delta_full :=
     if delta_full >? Z.quot kTimeWrapPeriod 2
     then delta_full - kTimeWrapPeriod - Z.quot kDeltaTick 2
     else delta_full + Z.quot kDeltaTick 2 in
   let delta_full := Z.quot delta_full kDeltaTick in
   let delta := s16 delta_full in
   Some (if negb (delta =? delta_full) then None else Some delta)) =
  Some (if bool_decide (int16 (ticks_between last t)) then Some (ticks_between last t) else None).
Proof.
  unfold time_in_range. intros Hl Ht Hle. rewrite (proj2 (Z.leb_le _ _)) by lia.
  assert (Hf : finite last ∧ finite t ∧ finite (t - last))
    by (unfold finite, PlusInfinity, MinusInfinity; lia). destruct Hf as (? & ? & ?).
  cbn [dcheck mbind option_bind]. rewrite ts_diff_ok by done. cbn [mbind option_bind].
  rewrite ToValue_ok by done. cbn [mbind option_bind]. cbv zeta. rewrite rem_distance by done.
  change (Z.quot (if distance last t <? 0 then distance last t - 125 else distance last t + 125) kDeltaTick)
    with (ticks_between last t). f_equal.
  set (k := ticks_between last t). clearbody k. case_bool_decide as Hk.
  - by rewrite s16_id, Z.eqb_refl by done.
  - assert (s16 k ≠ k) by (intros E; apply Hk; rewrite <- E; apply s16_range).
    by rewrite (proj2 (Z.eqb_neq _ _)) by done.
Qed.

Lemma ticks_since_spec last t : time_in_range last → time_in_range t →
  ticks_since last t =
  Some (if bool_decide (int16 (ticks_between last t)) then Some (ticks_between last t) else None).
Proof.
  intros Hl Ht. unfold time_in_range in *. unfold ticks_since. rewrite Z.gtb_ltb.
  destruct (Z.ltb_spec t last).
  - rewrite ts_diff_ok by (unfold finite, PlusInfinity, MinusInfinity; lia). cbn [mbind option_bind].
    destruct (RoundUpTo_ok (last - t) kTimeWrapPeriod) as (q & -> & Hq);
      [done|lia|rewrite wrap_value; unfold finite, PlusInfinity, MinusInfinity; lia|].
    rewrite wrap_value in Hq. cbn [mbind option_bind].
    rewrite ts_add_ok; try (rewrite ?wrap_value; unfold finite, PlusInfinity, MinusInfinity; lia).
    cbn [mbind option_bind]. etrans; [apply ticks_later; unfold time_in_range; rewrite ?wrap_value; lia|].
    unfold ticks_between. by rewrite distance_shift.
  - cbn [mbind option_bind]. apply ticks_later; unfold time_in_range; lia.
Qed.

(** ** Messages under construction *)

Definition header (f : TransportFeedback) : Z * Z * Z * Z * Z * bool :=
  (sender_ssrc f, media_ssrc f, base_seq_no_ f, base_time_ticks_ f, feedback_seq_ f,
   include_timestamps_ f).

Definition delta_bytes_count (f : TransportFeedback) (sizes : list Z) : Z :=
  if include_timestamps_ f then sum sizes else 0.

(** A message built by [SetBase] and [AddReceivedPacket]. *)
Definition built (f : TransportFeedback) (sizes : list Z) : Prop :=
  uint16 (base_seq_no_ f) ∧ ticks_ok (base_time_ticks_ f) ∧
  chunks_ok f sizes (delta_bytes_count f sizes) ∧
  matches chosen (base_seq_no_ f) sizes (received_packets_ f) ∧
  last_timestamp_ f = base_time (base_time_ticks_ f) + kDeltaTick * total_ticks (received_packets_ f) ∧
  (include_timestamps_ f = false → Forall (λ p, delta_ticks p = 0) (received_packets_ f)) ∧
  (received_packets_ f = [] → sizes = []).

Lemma built_well_formed f sizes : built f sizes → well_formed chosen f sizes.
Proof.
  intros (Hb & Ht & (Hc & Hl & Hs & Hn & Hm & Hz & _) & Hmt & Hts & _).
  split_and!; try done; [|by apply builder_ok].
  eapply Forall_weaken; [exact Hc|]. by intros c [? _].
Qed.

Lemma built_time f sizes : built f sizes → 0 ≤ last_timestamp_ f ≤ 2684354560000 ∧
  (Z.of_nat (length (received_packets_ f)) ≤ num_seq_no_ f) ∧
  Forall (λ p, int16 (delta_ticks p)) (received_packets_ f).
Proof.
  intros (_ & Ht & (_ & _ & _ & Hn & Hm & _) & Hmt & -> & _).
  pose proof (matches_length _ _ _ _ Hmt).
  assert (Hf : Forall (λ p, int16 (delta_ticks p)) (received_packets_ f))
    by (eapply matches_ticks; [|exact Hmt]; by intros d t []).
  split; [|split; [lia|done]].
  apply (time_ok _ (Z.of_nat (length (received_packets_ f)))); [done|by apply total_ticks_bounds|lia].
Qed.

(** The packets missing before [seq], and whether [seq] continues the message. *)
Definition next_seq_no (f : TransportFeedback) : Z := u16 (base_seq_no_ f + num_seq_no_ f).
Definition missing (f : TransportFeedback) (seq : Z) : Z := u16 (seq - next_seq_no f).
Definition continues (f : TransportFeedback) (seq : Z) : bool :=
  (seq =? next_seq_no f) || IsNewerSequenceNumber seq (u16 (next_seq_no f - 1)).
Definition ticks_of (f : TransportFeedback) (t : Z) : Z :=
  if include_timestamps_ f then ticks_between (last_timestamp_ f) t else 0.

Lemma newer_missing seq next : uint16 seq → uint16 next → seq ≠ next →
  IsNewerSequenceNumber seq (u16 (next - 1)) = true → 0 ≤ u16 (seq - next) ≤ 32767.
Proof.
  unfold uint16, IsNewerSequenceNumber, u16. intros Hs Hn Hne.
  pose proof (Z.mod_pos_bound (next - 1) 65536 ltac:(lia)) as Hl.
  destruct (Z.eqb_spec (seq - (next - 1) mod 65536) 0x8000) as [E|_]; intros H.
  - clear H. split; [apply Z.mod_pos_bound; lia|]. Z.to_euclidean_division_equations; lia.
  - apply andb_true_iff in H as [H1%negb_true_iff%Z.eqb_neq H2%Z.ltb_lt].
    Z.to_euclidean_division_equations; lia.
Qed.

Lemma continues_missing f seq : uint16 seq → continues f seq = true → 0 ≤ missing f seq ≤ 32767.
Proof.
  intros Hs H. unfold missing. destruct (Z.eq_dec seq (next_seq_no f)) as [->|Hne].
  { rewrite Z.sub_diag. change (u16 0) with 0. lia. }
  apply newer_missing; [done|apply u16_range|done|].
  unfold continues in H. by rewrite (proj2 (Z.eqb_neq _ _)) in H by done.
Qed.

(** Lost packets extend a message. *)
Lemma built_missing f f' sizes n :
  built f sizes → same_base f f' → received_packets_ f ≠ [] ∨ n = 0%nat →
  chunks_ok f' (sizes ++ replicate n 0) (delta_bytes_count f sizes) → built f' (sizes ++ replicate n 0).
Proof.
  intros (Hb & Ht & _ & Hmt & Hts & Hinc & Hne) -> Hn Hok.
  unfold built, delta_bytes_count in *.
  cbn [with_chunks base_seq_no_ base_time_ticks_ received_packets_ last_timestamp_ include_timestamps_] in *.
  rewrite sum_app, sum_replicate, Z.add_0_r. split_and!; try done.
  - rewrite <- (app_nil_r (received_packets_ f)). apply matches_app; [done..|apply matches_zeros].
  - intros E. destruct Hn as [Hn| ->]; [done|]. rewrite app_nil_r. auto.
Qed.

(** A received packet extends it. *)
Lemma built_received f f' sizes n seq d t :
  built f sizes → same_base f f' → int16 d → (include_timestamps_ f = false → d = 0) →
  seq = u16 (base_seq_no_ f + Z.of_nat (length sizes + n)) →
  chunks_ok f' ((sizes ++ replicate n 0) ++ [delta_size d]) (delta_bytes_count f sizes) →
  t = last_timestamp_ f + kDeltaTick * d →
  built (with_received f' t (received_packets_ f ++ [mkReceived seq d])
           (if include_timestamps_ f then size_bytes_ f' + delta_size d else size_bytes_ f'))
    ((sizes ++ replicate n 0) ++ [delta_size d]).
Proof.
  intros (Hb & Ht & (_ & _ & _ & Hn0 & _ & _ & He0) & Hmt & Hts & Hinc & Hne) -> Hd Hd0 Hseq Hok ->.
  assert (H12 : 1 ≤ delta_size d ≤ 2) by (unfold delta_size; destruct (_ && _); lia).
  unfold built, delta_bytes_count in *.
  cbn [with_chunks with_received base_seq_no_ base_time_ticks_ received_packets_ last_timestamp_
       include_timestamps_ size_bytes_] in *.
  split_and!; try done.
  - destruct Hok as (Hc & Hl & Hs & Hn & Hm & Hz & He). unfold chunks_ok in *.
    cbn [with_chunks with_received num_seq_no_ encoded_chunks_ last_chunk_ size_bytes_] in *.
    rewrite !sum_app, sum_replicate. cbn [sum foldr].
    split_and!; try done; destruct (include_timestamps_ f); try lia.
    all: rewrite ?length_app in Hn; cbn [length] in *; lia.
  - apply matches_app; [done| |].
    + rewrite <- (app_nil_r (received_packets_ f)). apply matches_app; [done..|apply matches_zeros].
    + cbn [matches]. rewrite (proj2 (Z.eqb_neq _ _)) by lia. cbn [sequence_number delta_ticks].
      rewrite length_app, length_replicate. split_and!; try done. 
  - rewrite Hts. unfold total_ticks. rewrite map_app, sum_app. cbn [map sum foldr delta_ticks]. lia.
  - intros E. apply Forall_app_2; [auto|]. apply Forall_singleton. cbn. auto.
  - intros E. by destruct (received_packets_ f).
Qed.

Lemma same_base_refl f : same_base f f.
Proof. by destruct f. Qed.

Lemma same_base_trans f g h : same_base f g → same_base g h → same_base f h.
Proof. by intros -> ->. Qed.

Lemma built_nil f sizes : built f sizes → built f (sizes ++ replicate 0 0).
Proof. cbn [replicate]. by rewrite app_nil_r. Qed.

(** The second half of [AddReceivedPacket]: the packet itself, behind [n] lost ones. *)
Lemma add_received f f1 sizes n seq d :
  built f sizes → same_base f f1 → received_packets_ f ≠ [] ∨ (n ≤ Z.to_nat 32767)%nat ∧ sizes = [] →
  int16 d → (include_timestamps_ f = false → d = 0) →
  seq = u16 (base_seq_no_ f + Z.of_nat (length sizes + n)) →
  chunks_ok f1 (sizes ++ replicate n 0) (delta_bytes_count f sizes) →
  wp ('(ok, g) ← AddDeltaSize f1 (delta_size d);
      if negb ok then Some (false, g)
      else
        u ← td_mul kDeltaTick d;
        t ← ts_add (last_timestamp_ g) u;
        Some (true, with_received g t (received_packets_ g ++ [mkReceived seq d])
                (if include_timestamps_ g then size_bytes_ g + delta_size d else size_bytes_ g)))
    (λ '(ok, f'), header f' = header f ∧ ok = (Z.of_nat (length sizes + n) <? 65535) ∧
      if ok then built f' ((sizes ++ replicate n 0) ++ [delta_size d]) ∧
        received_packets_ f' = received_packets_ f ++ [mkReceived seq d] ∧
        last_timestamp_ f' = last_timestamp_ f + kDeltaTick * d
      else built f' (sizes ++ replicate n 0) ∧ received_packets_ f' = received_packets_ f ∧
        last_timestamp_ f' = last_timestamp_ f).
Proof.
  intros Hbf Hsb Hne Hd Hd0 Hseq Hok.
  assert (H12 : 1 ≤ delta_size d ≤ 2) by (unfold delta_size; destruct (_ && _); lia).
  assert (Hnum : num_seq_no_ f1 = Z.of_nat (length sizes + n) ∧ num_seq_no_ f1 ≤ 65535).
  { destruct Hok as (_ & _ & _ & Hn & Hm & _). rewrite length_app, length_replicate in Hn. lia. }
  pose proof (AddDeltaSize_spec f1 _ _ _ Hok H12) as Ha.
  destruct (Z.eqb_spec (num_seq_no_ f1) 65535) as [E|Hlt].
  - rewrite Ha. apply wp_bind, wp_ret. cbn [negb]. apply wp_ret.
    split; [by rewrite Hsb|]. rewrite (proj2 (Z.ltb_ge _ _)) by lia. split; [done|].
    split; [|by rewrite Hsb]. apply (built_missing f); try done.
    destruct Hne as [?|[Hn ->]]; [by left|]. cbn [length] in Hnum. lia.
  - destruct Ha as (f2 & -> & Hsb2 & Hok2). apply wp_bind, wp_ret. cbn [negb].
    pose proof (same_base_trans _ _ _ Hsb Hsb2) as Hsb3.
    destruct (built_time f sizes Hbf) as (_ & Hlen & Htk).
    assert (Hbf' := Hbf). destruct Hbf' as (_ & Ht & (_ & _ & _ & Hn & _) & _ & Hts & _).
    assert (El : last_timestamp_ f2 = last_timestamp_ f) by (by rewrite Hsb3).
    assert (Er : received_packets_ f2 = received_packets_ f) by (by rewrite Hsb3).
    assert (Ei : include_timestamps_ f2 = include_timestamps_ f) by (by rewrite Hsb3).
    destruct (add_delta (base_time_ticks_ f) (Z.of_nat (length (received_packets_ f)))
      (total_ticks (received_packets_ f)) d Ht (total_ticks_bounds _ Htk) ltac:(lia) Hd) as (u & -> & Eu).
    apply wp_bind, wp_ret. rewrite El, Hts, Eu. apply wp_bind, wp_ret, wp_ret.
    split; [by rewrite Hsb3|]. rewrite (proj2 (Z.ltb_lt _ _)) by lia. split; [done|].
    rewrite Er, Ei. cbn [with_received received_packets_ last_timestamp_].
    assert (Et : base_time (base_time_ticks_ f) + kDeltaTick * (total_ticks (received_packets_ f) + d) =
                 last_timestamp_ f + kDeltaTick * d) by lia.
    split_and!; [|done|lia]. rewrite Et. by apply (built_received f f2).
Qed.

Lemma AddReceivedPacket_spec f sizes seq t :
  built f sizes → uint16 seq → time_in_range t →
  wp (AddReceivedPacket f seq t) (λ '(ok, f'), header f' = header f ∧
    ok = bool_decide (int16 (ticks_of f t)) && continues f seq &&
         (num_seq_no_ f + missing f seq <? 65535) ∧
    if ok then
      built f' ((sizes ++ replicate (Z.to_nat (missing f seq)) 0) ++ [delta_size (ticks_of f t)]) ∧
      received_packets_ f' = received_packets_ f ++ [mkReceived seq (ticks_of f t)] ∧
      last_timestamp_ f' = last_timestamp_ f + kDeltaTick * ticks_of f t
    else ∃ n, built f' (sizes ++ replicate n 0) ∧ received_packets_ f' = received_packets_ f ∧
           last_timestamp_ f' = last_timestamp_ f).
Proof.
  intros Hbf Hs Ht. destruct (built_time f sizes Hbf) as (Hl & _).
  assert (Hbf' := Hbf). destruct Hbf' as (Hb & _ & Hok & _ & _ & _ & Hne).
  assert (Hn := Hok). destruct Hn as (_ & _ & _ & Hn & Hmax & _).
  unfold AddReceivedPacket.
  assert (Ed : (if include_timestamps_ f then ticks_since (last_timestamp_ f) t else Some (Some 0)) =
    Some (if bool_decide (int16 (ticks_of f t)) then Some (ticks_of f t) else None)).
  { unfold ticks_of. destruct (include_timestamps_ f); [|done].
    apply ticks_since_spec; [unfold time_in_range; lia|done]. }
  rewrite Ed. apply wp_bind, wp_ret. case_bool_decide as Hd; cbn [andb].
  2: { apply wp_ret. split; [done|]. split; [done|]. exists 0%nat. split; [by apply built_nil|done]. }
  cbv zeta. change (u16 (base_seq_no_ f + num_seq_no_ f)) with (next_seq_no f).
  change (u16 (seq - next_seq_no f)) with (missing f seq).
  set (d := ticks_of f t) in *.
  assert (Hd0 : include_timestamps_ f = false → d = 0) by (unfold d, ticks_of; by intros ->).
  assert (Hseq : ∀ n, missing f seq = Z.of_nat n → seq = u16 (base_seq_no_ f + Z.of_nat (length sizes + n))).
  { intros n En. unfold missing, next_seq_no, u16, uint16 in *. rewrite Nat2Z.inj_add, <- Hn, <- En.
    rewrite Zminus_mod_idemp_r. rewrite Zplus_assoc, Zplus_mod_idemp_r.
    replace (base_seq_no_ f + num_seq_no_ f + (seq - (base_seq_no_ f + num_seq_no_ f))) with seq by lia.
    by rewrite Z.mod_small by lia. }
  destruct (Z.eqb_spec seq (next_seq_no f)) as [E|Hne2]; cbn [negb].
  - assert (Em : missing f seq = 0) by (unfold missing; by rewrite E, Z.sub_diag).
    unfold continues. rewrite (proj2 (Z.eqb_eq _ _) E), Em. cbn [orb andb].
    rewrite Z.add_0_r. change (Z.to_nat 0) with 0%nat. apply wp_bind, wp_ret. cbn [negb].
    wp_call (apply (add_received f f sizes 0 seq d);
      [done|by apply same_base_refl| |done|done|by apply Hseq|cbn [replicate]; by rewrite app_nil_r]).
    { destruct (received_packets_ f); [right; split; [lia|auto]|by left]. }
    intros [ok f'] (Hh & -> & H). rewrite Nat.add_0_r, <- Hn in *. split; [done|]. split; [done|].
    destruct (num_seq_no_ f <? 65535); [done|]. by exists 0%nat.
  - assert (Ec : continues f seq = IsNewerSequenceNumber seq (u16 (next_seq_no f - 1)))
      by (unfold continues; by rewrite (proj2 (Z.eqb_neq _ _)) by done).
    rewrite Ec. destruct (IsNewerSequenceNumber _ _) eqn:En; cbn [negb andb].
    2: { apply wp_bind, wp_ret. cbn [negb]. apply wp_ret. split; [done|]. split; [done|].
         exists 0%nat. split; [by apply built_nil|done]. }
    pose proof (continues_missing f seq Hs Ec) as Hm.
    pose proof (AddMissingPackets_ok f sizes _ (missing f seq) Hok ltac:(lia)) as Ha.
    rewrite Z.gtb_ltb in Ha. destruct (Z.ltb_spec 65535 (num_seq_no_ f + missing f seq)) as [Hbig|Hfit].
    + rewrite Ha. apply wp_bind, wp_ret. cbn [negb]. apply wp_ret. split; [done|].
      rewrite (proj2 (Z.ltb_ge _ _)) by lia. split; [done|].
      exists 0%nat. split; [by apply built_nil|done].
    + destruct Ha as (f1 & -> & Hsb & Hok1). apply wp_bind, wp_ret. cbn [negb].
      wp_call (apply (add_received f f1 sizes (Z.to_nat (missing f seq)) seq d);
        [done|done| |done|done|apply Hseq; lia|done]).
      { destruct (received_packets_ f); [right; split; [lia|auto]|by left]. }
      intros [ok f'] (Hh & -> & H). split; [done|].
      replace (Z.of_nat (length sizes + Z.to_nat (missing f seq))) with (num_seq_no_ f + missing f seq)
        in * by lia.
      split; [done|]. destruct (num_seq_no_ f + missing f seq <? 65535); [done|]. by eexists.
Qed.

(** A packet whose time does not fit leaves the message as it is. *)
Lemma AddReceivedPacket_far f sizes seq t : built f sizes → time_in_range t → ¬ int16 (ticks_of f t) →
  AddReceivedPacket f seq t = Some (false, f).
Proof.
  intros Hbf Ht Hn. destruct (built_time f sizes Hbf) as (Hl & _). unfold AddReceivedPacket, ticks_of in *.
  destruct (include_timestamps_ f).
  - rewrite ticks_since_spec by (unfold time_in_range in *; lia). by rewrite bool_decide_eq_false_2 by done.
  - destruct Hn. unfold int16. lia.
Qed.

Lemma newer_by x y : 0 < x - y < 32768 → IsNewerSequenceNumber (u16 x) (u16 y) = true.
Proof.
  intros H. unfold IsNewerSequenceNumber, u16.
  destruct (Z.eqb_spec (x mod 65536 - y mod 65536) 0x8000);
    [exfalso; Z.to_euclidean_division_equations; lia|].
  apply andb_true_iff. rewrite negb_true_iff, Z.eqb_neq, Z.ltb_lt.
  split; Z.to_euclidean_division_equations; lia.
Qed.

(** The first packet of a message, whose time is the reference time, is at most a tick
    of the reference time behind it. *)
Lemma first_ticks t : 0 ≤ t →
  0 ≤ ticks_between (base_time (t mod kTimeWrapPeriod / kBaseTimeTick)) t ≤ 256.
Proof.
  intros Ht. set (last := base_time _).
  assert (Hd : 0 ≤ distance last t < 64000).
  { destruct (distance_spec last t) as (Hb & k & Hk). unfold last, base_time in *.
    rewrite wrap_value in *. change kBaseTimeTick with 64000 in *. change (1073741824000 / 2) with 536870912000 in Hb.
    set (d := distance _ _) in *. clearbody d. Z.to_euclidean_division_equations; lia. }
  pose proof (ticks_between_spec last t). unfold kDeltaTick in *. lia.
Qed.

(** ** Sessions *)

Definition add_step (st : TransportFeedback * list (Z * Z)) (packet : Z * Z)
  : option (TransportFeedback * list (Z * Z)) :=
  let '(f, accepted) := st in
  '(ok, f) ← AddReceivedPacket f packet.1 packet.2;
  Some (f, if (ok : bool) then accepted ++ [packet] else accepted).

(** A receiver that starts a message and adds packets, whatever the answers: the
    message and the packets it accepted. *)
Definition session (include_timestamps : bool) (ds : list Z) (base ref_timestamp : Z)
    (packets : list (Z * Z)) : option (TransportFeedback * list (Z * Z)) :=
  f ← SetBase (new_feedback include_timestamps ds) base ref_timestamp;
  fold_m add_step (f, []) packets.

Definition packet_ok (packet : Z * Z) : Prop := uint16 packet.1 ∧ time_in_range packet.2.

Lemma SetBase_spec inc ds base ref : length ds = 14%nat → uint16 base → time_in_range ref →
  wp (SetBase (new_feedback inc ds) base ref) (λ f, built f [] ∧
    header f = (0, 0, base, ref mod kTimeWrapPeriod / kBaseTimeTick, 0, inc) ∧ received_packets_ f = []).
Proof.
  intros Hds Hb Hr. unfold time_in_range in Hr. unfold SetBase. cbn [new_feedback num_seq_no_ Z.eqb].
  apply wp_bind, wp_ret. rewrite ToValue_ok by (unfold finite, PlusInfinity, MinusInfinity; lia).
  apply wp_bind, wp_ret. rewrite Z.rem_mod_nonneg by (rewrite ?wrap_value; lia).
  pose proof (Z.mod_pos_bound ref kTimeWrapPeriod ltac:(done)) as Hm.
  rewrite Z.quot_div_nonneg by (done || lia).
  set (ticks := ref mod kTimeWrapPeriod / kBaseTimeTick).
  assert (Ht : ticks_ok ticks).
  { unfold ticks_ok, ticks. rewrite wrap_value in *. change kBaseTimeTick with 64000.
    Z.to_euclidean_division_equations; lia. }
  rewrite u32_id by (unfold ticks_ok, uint32 in *; lia). cbv zeta.
  rewrite BaseTime_spec by done. apply wp_bind, wp_ret, wp_ret. split; [|done].
  unfold built, chunks_ok, delta_bytes_count.
  cbn [new_feedback base_seq_no_ base_time_ticks_ include_timestamps_ received_packets_ encoded_chunks_
       last_chunk_ num_seq_no_ size_bytes_ last_timestamp_ matches length map concat app sum foldr].
  split_and!; try done.
  - by apply builder_Clear.
  - by destruct inc.
  - by destruct inc.
  - by destruct inc.
  - rewrite Z.mul_0_r. lia.
Qed.

(** The ticks from the base to each packet. *)
Fixpoint cumulative (s : Z) (packets : list ReceivedPacket) : list Z :=
  match packets with
  | [] => []
  | p :: packets => (s + delta_ticks p) :: cumulative (s + delta_ticks p) packets
  end.

Lemma length_cumulative s packets : length (cumulative s packets) = length packets.
Proof. revert s. induction packets as [|p ps IH]; intros s; cbn; [done|]. by rewrite IH. Qed.

Lemma cumulative_snoc s packets p :
  cumulative s (packets ++ [p]) = cumulative s packets ++ [s + total_ticks packets + delta_ticks p].
Proof.
  revert s. induction packets as [|q ps IH]; intros s; cbn [cumulative app].
  - unfold total_ticks. cbn. do 2 f_equal. lia.
  - rewrite IH. unfold total_ticks. cbn [map sum foldr]. fold (sum (map delta_ticks ps)).
    do 3 f_equal. lia.
Qed.

(** The message records the packet's number and its time within half a tick. *)
Definition records (ticks : Z) (p : ReceivedPacket * Z) (packet : Z * Z) : Prop :=
  sequence_number p.1 = packet.1 ∧
  ∃ k, -125 ≤ base_time ticks + kDeltaTick * p.2 - packet.2 - k * kTimeWrapPeriod ≤ 125.

Definition recorded (f : TransportFeedback) (accepted : list (Z * Z)) : Prop :=
  include_timestamps_ f = true →
  Forall2 (records (base_time_ticks_ f))
    (zip (received_packets_ f) (cumulative 0 (received_packets_ f))) accepted.

Lemma recorded_snoc f f' sizes accepted seq t : built f sizes → recorded f accepted →
  header f' = header f →
  received_packets_ f' = received_packets_ f ++ [mkReceived seq (ticks_of f t)] →
  recorded f' (accepted ++ [(seq, t)]).
Proof.
  intros (_ & _ & _ & _ & Hts & _) Hr Hh Er. unfold header in Hh. injection Hh as _ _ _ Et _ Ei.
  unfold recorded in *. rewrite Ei, Et, Er. intros Hi. rewrite cumulative_snoc.
  rewrite zip_with_app by (by rewrite length_cumulative). cbn [zip_with].
  apply Forall2_app; [by apply Hr|]. apply Forall2_cons; [|by apply Forall2_nil].
  split; [done|]. cbn [snd delta_ticks]. unfold ticks_of. rewrite Hi.
  destruct (distance_spec (last_timestamp_ f) t) as (_ & k & Hk). exists (- k).
  pose proof (ticks_between_spec (last_timestamp_ f) t). lia.
Qed.

Lemma add_all_spec f accepted sizes packets :
  built f sizes → recorded f accepted → Forall packet_ok packets →
  wp (fold_m add_step (f, accepted) packets) (λ '(f', accepted'), header f' = header f ∧
    recorded f' accepted' ∧ ∃ sizes', built f' (sizes ++ sizes')).
Proof.
  intros Hb Hr Hp. revert f accepted sizes Hb Hr.
  induction Hp as [|[seq t] packets [Hs Ht] _ IH]; intros f accepted sizes Hb Hr.
  { split; [done|]. split; [done|]. exists []. by rewrite app_nil_r. }
  cbn [fold_m]. apply wp_bind. unfold add_step at 2. apply wp_bind.
  wp_call (by apply (AddReceivedPacket_spec f sizes)). cbn [fst snd].
  intros [ok f'] (Hh & _ & H). apply wp_ret.
  assert (∃ k, built f' (sizes ++ k)) as (k & Hk).
  { destruct ok; [|destruct H as (n & H & _); by eexists]. destruct H as [H _].
    rewrite <- app_assoc in H. by eexists. }
  wp_call (apply (IH f' _ (sizes ++ k)); [done|]).
  { destruct ok; [destruct H as (_ & Er & _); by apply (recorded_snoc f f' sizes)|].
    destruct H as (_ & _ & Er & _). unfold recorded, header in *. injection Hh as _ _ _ Et _ Ei.
    by rewrite Et, Ei, Er. }
  intros [f'' accepted''] (Hh' & Hr' & k' & Hb''). split; [congruence|]. split; [done|].
  rewrite <- app_assoc in Hb''. by eexists.
Qed.

Lemma session_spec inc ds base ref packets :
  length ds = 14%nat → uint16 base → time_in_range ref → Forall packet_ok packets →
  wp (session inc ds base ref packets) (λ '(f, accepted),
    header f = (0, 0, base, ref mod kTimeWrapPeriod / kBaseTimeTick, 0, inc) ∧
    recorded f accepted ∧ ∃ sizes, built f sizes).
Proof.
  intros Hds Hb Hr Hp. apply wp_bind. wp_call (by apply SetBase_spec).
  intros f (Hbf & Eh & Er). wp_call (apply (add_all_spec f [] []); [done| |done]).
  { unfold recorded. rewrite Er. cbn. intros _. by apply Forall2_nil. }
  intros [f' accepted] (Hh & Hrec & sizes & Hbf'). split; [congruence|]. split; [done|]. by exists sizes.
Qed.

Lemma well_formed_allowed f sizes : well_formed chosen f sizes → well_formed allowed f sizes.
Proof.
  intros (? & ? & ? & ? & ? & ? & ? & Hm & ?). split_and!; try done; [|tauto..].
  eapply matches_weaken; [|exact Hm]. apply chosen_allowed.
Qed.

Lemma built_consistent f sizes ds : length ds = 14%nat → built f sizes → IsConsistent ds f = Some true.
Proof. intros Hds Hb. by apply (IsConsistent_true f sizes ds Hds), well_formed_allowed, built_well_formed. Qed.

(** C11: The consistency check of the class, documented as a condition that holds
    before and after every public method, holds for a message started with [SetBase]
    after any sequence of [AddReceivedPacket] calls, whatever the sequence numbers
    and times, whether the calls were accepted or refused, with and without
    timestamps; no debug check fails on the way. *)
Theorem session_consistent (include_timestamps : bool) (ds : list Z) (base ref_timestamp : Z)
    (packets : list (Z * Z)) :
  length ds = 14%nat → uint16 base → time_in_range ref_timestamp → Forall packet_ok packets →
  wp (session include_timestamps ds base ref_timestamp packets) (λ '(f, accepted),
    IsConsistent ds f = Some true ∧ base_seq_no_ f = base ∧
    include_timestamps_ f = include_timestamps).
Proof.
  intros Hds Hb Hr Hp. wp_call (by apply session_spec). intros [f accepted] (Hh & _ & sizes & Hbf).
  unfold header in Hh. injection Hh as _ _ -> _ _ ->. split; [|done]. by apply (built_consistent f sizes).
Qed.

(** A message that is moved keeps its reports and its consistency but not its SSRCs;
    what is left behind is an empty message that is consistent too. *)
Lemma move_feedback_spec f sizes : built f sizes →
  ∃ f' g, move_feedback f = Some (f', g) ∧ well_formed allowed f' sizes ∧ well_formed allowed g [] ∧
    received_packets_ f' = received_packets_ f ∧ sender_ssrc f' = 0 ∧ media_ssrc f' = 0.
Proof.
  intros Hb. destruct (well_formed_allowed _ _ (built_well_formed _ _ Hb)) as (H1 & H2 & H3 & H4 & H5 & H6 & H7 & H8 & H9 & H10).
  unfold move_feedback, Clear. cbn [base_time_ticks_]. rewrite BaseTime_spec by done. cbn [mbind option_bind].
  eexists _, _. split; [done|]. split; [by split_and!|].
  split; [|done]. unfold well_formed. cbn. unfold chunk_ok in *. cbn in *.
  destruct H6 as (H6 & _). split_and!; try done; try lia. by destruct (include_timestamps_ f).
Qed.

(** ** Reading the packets of a message *)

Lemma matches_head R seq sizes p packets : uint16 seq → matches R seq sizes (p :: packets) →
  ∃ j, (j < length sizes)%nat ∧ sequence_number p = u16 (seq + Z.of_nat j).
Proof.
  revert seq. induction sizes as [|d sizes IH]; intros seq Hu; cbn [matches length]; [done|].
  destruct (d =? 0).
  - intros H. destruct (IH _ (u16_range _) H) as (j & Hj & ->). exists (S j). split; [lia|].
    unfold u16. rewrite Zplus_mod_idemp_l. f_equal. lia.
  - intros (-> & _). exists 0%nat. split; [lia|]. rewrite Z.add_0_r. unfold u16, uint16 in *.
    by rewrite Z.mod_small by lia.
Qed.

Lemma matches_skip R seq sizes p packets : uint16 seq → Z.of_nat (length sizes) ≤ 65534 →
  matches R (u16 (seq + 1)) sizes (p :: packets) → sequence_number p ≠ seq.
Proof.
  intros Hs Hl H. apply matches_head in H as (j & Hj & ->); [|apply u16_range].
  unfold u16, uint16 in *. rewrite Zplus_mod_idemp_l. Z.to_euclidean_division_equations; lia.
Qed.

Definition arrived (call : Z * Z) : Prop := call.2 ≠ PlusInfinity.

#[export] Instance arrived_dec call : Decision (arrived call).
Proof. unfold arrived. apply _. Defined.

(** What the handler is called with, for the packets from [seq] on. *)
Definition calls_ok (seq s : Z) (count : nat) (packets : list ReceivedPacket) (calls : list (Z * Z)) : Prop :=
  map fst calls = map (λ i, u16 (seq + Z.of_nat i)) (List.seq 0 count) ∧
  filter arrived calls =
    map (λ p, (sequence_number p.1, kDeltaTick * p.2)) (zip packets (cumulative s packets)).

Lemma call_numbers seq count : uint16 seq →
  seq :: map (λ i, u16 (u16 (seq + 1) + Z.of_nat i)) (List.seq 0 count) =
  map (λ i, u16 (seq + Z.of_nat i)) (List.seq 0 (S count)).
Proof.
  intros Hs. cbn [List.seq map]. f_equal.
  - rewrite Z.add_0_r. unfold u16, uint16 in *. by rewrite Z.mod_small by lia.
  - rewrite <- seq_shift, map_map. apply map_ext. intros i. unfold u16. rewrite Zplus_mod_idemp_l.
    f_equal. lia.
Qed.

Lemma for_all_packets_spec fuel seq sizes packets s n :
  matches allowed seq sizes packets → uint16 seq → (length sizes ≤ fuel)%nat →
  Z.of_nat (length sizes) ≤ 65535 → 0 ≤ n → n + Z.of_nat (length packets) ≤ 65535 →
  -32768 * n ≤ s ≤ 32767 * n →
  ∃ calls, for_all_packets fuel seq (u16 (seq + Z.of_nat (length sizes))) packets (kDeltaTick * s) =
    Some calls ∧ calls_ok seq s (length sizes) packets calls.
Proof.
  revert fuel seq packets s n.
  induction sizes as [|d sizes IH]; intros fuel seq packets s n Hm Hu Hf Hl Hn Hnp Hs; cbn [matches length] in *.
  { subst packets. exists []. rewrite Z.add_0_r.
    assert (u16 seq = seq) as -> by (unfold u16, uint16 in *; by rewrite Z.mod_small by lia).
    destruct fuel; cbn [for_all_packets]; rewrite Z.eqb_refl; done. }
  destruct fuel as [|fuel]; [lia|]. cbn [for_all_packets].
  assert (Hne : seq ≠ u16 (seq + Z.of_nat (S (length sizes)))).
  { unfold u16, uint16 in *. Z.to_euclidean_division_equations; lia. }
  rewrite (proj2 (Z.eqb_neq _ _)) by done.
  assert (El : u16 (seq + Z.of_nat (S (length sizes))) = u16 (u16 (seq + 1) + Z.of_nat (length sizes))).
  { unfold u16. rewrite Zplus_mod_idemp_l. f_equal. lia. }
  rewrite El. pose proof (u16_range (seq + 1)) as Hu'. destruct (Z.eqb_spec d 0) as [->|Hd0].
  - destruct (IH fuel (u16 (seq + 1)) packets s n) as (calls & E & Hc1 & Hc2); try done; try lia.
    exists ((seq, PlusInfinity) :: calls). split.
    + destruct packets as [|p packets]; [by rewrite E|].
      assert (sequence_number p ≠ seq) by (apply (matches_skip _ _ _ _ _ Hu) in Hm; [done|lia]).
      by rewrite (proj2 (Z.eqb_neq _ _)), E by done.
    + split; [cbn [map fst]; rewrite Hc1; by apply call_numbers|].
      rewrite filter_cons_False by (cbn; by intros []). done.
  - destruct packets as [|p packets]; [done|]. destruct Hm as (Hseq & (_ & _ & Hx) & Hm).
    unfold int16 in Hx. cbn [length] in Hnp. rewrite Hseq, Z.eqb_refl. unfold delta, kDeltaTick.
    rewrite td_mul_ok by (unfold finite, PlusInfinity, MinusInfinity; lia). cbn [mbind option_bind].
    rewrite td_add_ok by (unfold finite, PlusInfinity, MinusInfinity; lia). cbn [mbind option_bind].
    replace (250 * s + 250 * delta_ticks p) with (kDeltaTick * (s + delta_ticks p)) by (unfold kDeltaTick; lia).
    destruct (IH fuel (u16 (seq + 1)) packets (s + delta_ticks p) (n + 1)) as (calls & E & Hc1 & Hc2);
      try done; try lia.
    rewrite E. cbn [mbind option_bind]. eexists. split; [done|].
    split; [cbn [map fst]; rewrite Hc1; by apply call_numbers|].
    rewrite filter_cons_True by (unfold arrived, kDeltaTick, PlusInfinity; cbn [snd]; lia).
    cbn [cumulative zip_with map fst snd]. by rewrite Hc2, Hseq.
Qed.

Lemma ForAllPackets_spec f sizes : well_formed allowed f sizes →
  ∃ calls, ForAllPackets f = Some calls ∧
    calls_ok (base_seq_no_ f) 0 (length sizes) (received_packets_ f) calls.
Proof.
  intros (Hb & _ & Hn & Hmax & _ & _ & _ & Hm & _). unfold ForAllPackets. rewrite Hn.
  pose proof (matches_length _ _ _ _ Hm).
  change 0 with (kDeltaTick * 0) at 1.
  apply (for_all_packets_spec _ _ _ _ 0 0 Hm Hb); lia.
Qed.

(** The times a handler is given. *)
Lemma cumulative_bounds s n packets : Forall (λ p, int16 (delta_ticks p)) packets →
  0 ≤ n → -32768 * n ≤ s ≤ 32767 * n →
  Forall (λ x, Z.abs x ≤ 32768 * (n + Z.of_nat (length packets))) (cumulative s packets).
Proof.
  intros H. revert s n. induction H as [|p packets Hp _ IH]; intros s n Hn Hs; cbn [cumulative length];
    [apply Forall_nil_2|]. unfold int16 in Hp. apply Forall_cons_2; [lia|].
  eapply Forall_weaken; [apply (IH (s + delta_ticks p) (n + 1)); lia|]. intros x ?. cbv beta in *. lia.
Qed.

Definition call_time_ok (call : Z * Z) : Prop := call.2 = PlusInfinity ∨ Z.abs call.2 ≤ 536870912000.

Lemma calls_bounded f sizes calls : well_formed allowed f sizes → ForAllPackets f = Some calls →
  Forall call_time_ok calls.
Proof.
  intros Hw E. destruct (ForAllPackets_spec f sizes Hw) as (calls' & E' & _ & Hf).
  rewrite E in E'. injection E' as <-. destruct Hw as (_ & _ & Hn & Hm & _ & _ & _ & Hma & _).
  pose proof (matches_length _ _ _ _ Hma) as Hl.
  assert (Hd : Forall (λ p, int16 (delta_ticks p)) (received_packets_ f))
    by (eapply matches_ticks; [|exact Hma]; by intros ? ? (_ & _ & ?)).
  pose proof (cumulative_bounds 0 0 _ Hd ltac:(lia) ltac:(lia)) as Hc.
  apply List.Forall_forall. intros c Hin%list_elem_of_In.
  destruct (decide (arrived c)) as [Ha|Ha]; [right|left; unfold arrived in Ha; by destruct (decide (c.2 = PlusInfinity))].
  assert (H : c ∈ filter arrived calls) by (by apply list_elem_of_filter).
  rewrite Hf in H. apply list_elem_of_fmap in H as ([q x] & -> & Hx). cbn [fst snd].
  rewrite List.Forall_forall in Hc.
  assert (In x (cumulative 0 (received_packets_ f))) as Hi%Hc.
  { apply list_elem_of_In in Hx. by apply in_combine_r in Hx. }
  unfold kDeltaTick. lia.
Qed.

(** The distance to an earlier reference time, the wrap of the counter undone. *)
Definition nearest (d : Z) : Z :=
  if 2 * d >? kTimeWrapPeriod then d - kTimeWrapPeriod
  else if 2 * d <? - kTimeWrapPeriod then d + kTimeWrapPeriod
  else d.

Lemma GetBaseDelta_spec f prev : ticks_ok (base_time_ticks_ f) →
  kTimeWrapPeriod ≤ prev < 2 * kTimeWrapPeriod →
  GetBaseDelta f prev = Some (nearest (base_time (base_time_ticks_ f) - prev)) ∧
  2 * Z.abs (nearest (base_time (base_time_ticks_ f) - prev)) ≤ kTimeWrapPeriod.
Proof.
  intros Ht Hp. unfold GetBaseDelta. rewrite BaseTime_spec by done. cbn [mbind option_bind].
  unfold ticks_ok, base_time, nearest in *. rewrite wrap_value in *. change kBaseTimeTick with 64000.
  set (t := 1073741824000 + _) in *. assert (Hr : 1073741824000 ≤ t < 2147483648000) by (unfold t; lia).
  clearbody t. rewrite ts_diff_ok by (unfold finite, PlusInfinity, MinusInfinity; lia).
  cbn [mbind option_bind]. rewrite td_sub_ok by (unfold finite, PlusInfinity, MinusInfinity; lia).
  cbn [mbind option_bind]. rewrite !Abs_ok by (unfold finite, PlusInfinity, MinusInfinity; lia).
  cbn [mbind option_bind]. rewrite Z.gtb_ltb. change (- (1073741824000)) with (-1073741824000).
  destruct (Z.ltb_spec 1073741824000 (2 * (t - prev))), (Z.ltb_spec (Z.abs (t - prev - 1073741824000)) (Z.abs (t - prev)));
    try lia; [split; [done|lia]|].
  rewrite td_add_ok by (unfold finite, PlusInfinity, MinusInfinity; lia). cbn [mbind option_bind].
  rewrite Abs_ok by (unfold finite, PlusInfinity, MinusInfinity; lia). cbn [mbind option_bind].
  destruct (Z.ltb_spec (Z.abs (t - prev + 1073741824000)) (Z.abs (t - prev))), (Z.ltb_spec (2 * (t - prev)) (-1073741824000));
    try lia; split; done || lia.
Qed.

Definition example_packets : list (Z * Z) :=
  [(65531, 5001000); (65533, 4990000); (65533, 4990001); (2, 5001900); (2000, 5101900); (2001, 99001900)].

Lemma session_consistent_witness :
  wp (session true (replicate 14 7) 65530 5000000 example_packets) (λ '(f, accepted),
    IsConsistent (replicate 14 7) f = Some true ∧ base_seq_no_ f = 65530 ∧
    include_timestamps_ f = true).
Proof.
  apply (session_consistent true (replicate 14 7) 65530 5000000 example_packets);
    [done|unfold uint16; lia|unfold time_in_range; lia|].
  repeat (apply Forall_cons_2; [unfold packet_ok, uint16, time_in_range; cbn; lia|]). apply Forall_nil_2.
Defined.

(** What [AddReceivedPacket] does to a message. A packet is accepted exactly when
    its delta fits 16 bits, its sequence number is the next one or newer than the last
    one and no more than 65535 packets are described. Then the packets in between are
    recorded as lost, the packet is appended with its delta, and the time of the
    message moves to within half a tick (125 microseconds) of the packet's time,
    modulo the wrap period. A refused packet leaves the received packets alone. *)
Theorem AddReceivedPacket_correct (f : TransportFeedback) (sizes : list Z) (seq t : Z) :
  built f sizes → uint16 seq → time_in_range t →
  wp (AddReceivedPacket f seq t) (λ '(ok, f'), header f' = header f ∧
    ok = bool_decide (int16 (ticks_of f t)) && continues f seq &&
         (num_seq_no_ f + missing f seq <? 65535) ∧
    if ok then
      built f' ((sizes ++ replicate (Z.to_nat (missing f seq)) 0) ++ [delta_size (ticks_of f t)]) ∧
      received_packets_ f' = received_packets_ f ++ [mkReceived seq (ticks_of f t)] ∧
      (include_timestamps_ f = true →
         ∃ k, -125 ≤ last_timestamp_ f' - t - k * kTimeWrapPeriod ≤ 125)
    else ∃ n, built f' (sizes ++ replicate n 0) ∧ received_packets_ f' = received_packets_ f ∧
           last_timestamp_ f' = last_timestamp_ f).
Proof.
  intros Hb Hs Ht. wp_call (by apply (AddReceivedPacket_spec f sizes)).
  intros [ok f'] (Hh & Eok & H). split; [done|]. split; [done|]. destruct ok; [|done].
  destruct H as (H1 & H2 & H3). split; [done|]. split; [done|]. intros Hi.
  destruct (distance_spec (last_timestamp_ f) t) as (_ & k & Hk). exists (- k).
  pose proof (ticks_between_spec (last_timestamp_ f) t). unfold ticks_of in H3. rewrite Hi in H3. lia.
Qed.

Definition example_started : TransportFeedback :=
  mkTf 0 0 65530 0 78 0 true (base_time 78) [] [] (mkChunk (replicate 14 7) 0 true false) 20.

Lemma example_started_built : built example_started [].
Proof.
  assert (H : wp (SetBase (new_feedback true (replicate 14 7)) 65530 5000000) (λ f, built f [])).
  { wp_call (apply SetBase_spec; [done|unfold uint16; lia|unfold time_in_range; lia]). by intros f [? _]. }
  exact H.
Qed.

Lemma AddReceivedPacket_correct_witness :
  wp (AddReceivedPacket example_started 65531 5001000) (λ '(ok, f'), header f' = header example_started ∧
    ok = bool_decide (int16 (ticks_of example_started 5001000)) && continues example_started 65531 &&
         (num_seq_no_ example_started + missing example_started 65531 <? 65535) ∧
    if ok then
      built f' (([] ++ replicate (Z.to_nat (missing example_started 65531)) 0) ++
                [delta_size (ticks_of example_started 5001000)]) ∧
      received_packets_ f' = received_packets_ example_started ++
        [mkReceived 65531 (ticks_of example_started 5001000)] ∧
      (include_timestamps_ example_started = true →
         ∃ k, -125 ≤ last_timestamp_ f' - 5001000 - k * kTimeWrapPeriod ≤ 125)
    else ∃ n, built f' ([] ++ replicate n 0) ∧ received_packets_ f' = received_packets_ example_started ∧
           last_timestamp_ f' = last_timestamp_ example_started).
Proof.
  apply (AddReceivedPacket_correct example_started [] 65531 5001000);
    [apply example_started_built|unfold uint16; lia|unfold time_in_range; lia].
Defined.

(** An object that was only constructed does not satisfy the condition documented as
    a precondition and postcondition of every public method: its last timestamp is zero,
    its reference time is not. *)
Theorem new_object_inconsistent (include_timestamps : bool) (ds : list Z) :
  length ds = 14%nat → IsConsistent ds (new_feedback include_timestamps ds) = Some false.
Proof.
  intros Hds. do 14 (destruct ds as [|? ds]; [done|]). destruct ds; [|done].
  by destruct include_timestamps.
Qed.

Lemma new_object_inconsistent_witness :
  IsConsistent (replicate 14 7) (new_feedback true (replicate 14 7)) = Some false.
Proof. by apply (new_object_inconsistent true (replicate 14 7)). Defined.

End TransportFb.
