(* ===== verification/TransportCodec.v ===== *)
(** * Transport-wide feedback on the wire

    Theorems on the writer and the parser of TransportFb.v: the bytes [Create] writes,
    that [ParseFrom] reads them back, and that arbitrary bytes are parsed safely into a
    message that passes the consistency check. *)

From S2P Require Import Prelude SeqNum Units Rtcp CcFeedback TransportChunk TransportFb.
Import SeqNum Units Rtcp TransportChunk TransportFb.

Module TransportCodec.

(** ** The bytes of a message *)

Definition delta_bytes (p : ReceivedPacket) : list Z :=
  if (0 <=? delta_ticks p) && (delta_ticks p <=? 0xff) then [delta_ticks p]
  else be16 (u16 (delta_ticks p)).

Definition delta_block (f : TransportFeedback) : list Z :=
  if include_timestamps_ f then concat (map delta_bytes (received_packets_ f)) else [].

Definition padding (n : nat) : list Z :=
  match n with O => [] | S n => replicate n 0 ++ [Z.of_nat (S n)] end.

(** The message with the chunks [words] and [pad] bytes of padding; [len] counts the
    words behind the first. *)
Definition encode (f : TransportFeedback) (words : list Z) (len : Z) (pad : nat) : list Z :=
  header_bytes kFeedbackMessageType kPacketType len (0 <? Z.of_nat pad) ++
  be32 (sender_ssrc f) ++ be32 (media_ssrc f) ++ be16 (base_seq_no_ f) ++ be16 (num_seq_no_ f) ++
  be24 (base_time_ticks_ f) ++ [feedback_seq_ f] ++ concat (map be16 words) ++
  delta_block f ++ padding pad.

Lemma put_nil buf p : (p ≤ length buf)%nat → put buf p [] = buf.
Proof. intros H. unfold put. cbn [length app]. rewrite Nat.add_0_r. apply take_drop. Qed.

(** Writing behind what was written before. *)
Lemma put_next buf p bs q x : q = (p + length bs)%nat → (q + length x ≤ length buf)%nat →
  put (put buf p bs) q x = put buf p (bs ++ x).
Proof. intros -> H. by apply put_put. Qed.

Lemma length_words words : length (concat (map be16 words)) = (2 * length words)%nat.
Proof. induction words as [|w words IH]; [done|]. cbn [map concat length]. rewrite length_app, IH. cbn. lia. Qed.

Lemma length_padding n : length (padding n) = n.
Proof. destruct n; [done|]. cbn [padding]. rewrite length_app, length_replicate. cbn. lia. Qed.

Lemma delta_size_cases p : length (delta_bytes p) = Z.to_nat (delta_size (delta_ticks p)).
Proof. unfold delta_bytes, delta_size. by destruct (_ && _). Qed.

Lemma length_deltas seq sizes packets : matches chosen seq sizes packets →
  Forall (λ d, 0 ≤ d) sizes →
  Z.of_nat (length (concat (map delta_bytes packets))) = sum sizes.
Proof.
  intros Hm Hs. revert seq packets Hm. induction Hs as [|d sizes Hd _ IH]; intros seq packets; cbn [matches].
  { intros ->. done. }
  cbn [sum foldr]. fold (sum sizes). destruct (Z.eqb_spec d 0) as [->|].
  { intros H. rewrite (IH _ _ H). lia. }
  destruct packets as [|p packets]; [done|]. intros (_ & [-> _] & H).
  cbn [map concat]. rewrite length_app, Nat2Z.inj_add, (IH _ _ H), delta_size_cases.
  unfold delta_size. destruct (_ && _); lia.
Qed.

(** ** Writing *)

Lemma write_chunks buf p words : (p + 2 * length words ≤ length buf)%nat →
  fold_m write_chunk (buf, p) words =
  Some (put buf p (concat (map be16 words)), (p + 2 * length words)%nat).
Proof.
  revert buf p. induction words as [|w words IH]; intros buf p H; cbn [fold_m map concat length] in *.
  { rewrite put_nil by lia. do 2 f_equal. lia. }
  unfold write_chunk at 2. rewrite WriteBigEndian16_put by lia. cbn [mbind option_bind].
  rewrite IH by (rewrite length_put; cbn; lia). rewrite (put_put buf p (be16 w))
    by (rewrite length_words; cbn; lia). do 2 f_equal. lia.
Qed.

Lemma write_delta_put buf p x : (p + length (delta_bytes x) ≤ length buf)%nat → int16 (delta_ticks x) →
  write_delta (buf, p) x = Some (put buf p (delta_bytes x), (p + length (delta_bytes x))%nat).
Proof.
  intros H Hx. unfold write_delta, delta_bytes in *. cbv zeta beta iota.
  destruct (Z.leb_spec 0 (delta_ticks x)), (Z.leb_spec (delta_ticks x) 0xff); cbn [andb] in *; cbn [length] in H.
  1: { rewrite wr_put by lia. cbn [mbind option_bind]. do 4 f_equal. unfold u8. rewrite Z.mod_small by lia. done. }
  all: unfold WriteBigEndianSigned16; rewrite WriteBigEndian16_put by (cbn in H; lia); done.
Qed.

Lemma write_deltas buf p packets :
  (p + length (concat (map delta_bytes packets)) ≤ length buf)%nat →
  Forall (λ x, int16 (delta_ticks x)) packets →
  fold_m write_delta (buf, p) packets =
  Some (put buf p (concat (map delta_bytes packets)),
        (p + length (concat (map delta_bytes packets)))%nat).
Proof.
  intros H Hx. revert buf p H. induction Hx as [|x packets Hx _ IH]; intros buf p H;
    cbn [fold_m map concat length] in *.
  { rewrite put_nil by lia. do 2 f_equal. lia. }
  rewrite length_app in H. rewrite write_delta_put by (done || lia). cbn [mbind option_bind].
  rewrite IH by (rewrite length_put; lia). rewrite put_put by lia. rewrite length_app.
  do 2 f_equal. lia.
Qed.

Lemma write_padding_put buf p n : (p + n ≤ length buf)%nat → Z.of_nat n ≤ 255 →
  write_padding (buf, p) (Z.of_nat n) = Some (put buf p (padding n), (p + n)%nat).
Proof.
  intros H Hn. unfold write_padding. destruct n as [|n].
  { cbn [Z.of_nat Z.gtb Z.compare padding]. rewrite put_nil by lia. do 2 f_equal. lia. }
  rewrite (proj2 (Z.gtb_gt _ _)) by lia.
  replace (Z.to_nat (Z.of_nat (S n) - 1)) with n by lia.
  assert (W : wp (for_loop n 0 (λ _ '(buffer, position),
      buffer ← wr buffer position 0; Some (buffer, (position + 1)%nat)) (buf, p))
      (eq (put buf p (replicate n 0), (p + n)%nat))).
  { apply (wp_for (λ i s, s = (put buf p (replicate i 0), (p + i)%nat))).
    - cbn [replicate]. by rewrite put_nil, Nat.add_0_r by lia.
    - intros i s Hi ->. rewrite wr_put by (rewrite length_put by (rewrite length_replicate; lia); lia).
      apply wp_bind, wp_ret, wp_ret. rewrite put_next by (rewrite ?length_replicate; cbn; lia).
      rewrite replicate_S_end. f_equal. lia.
    - by intros s ->. }
  apply wp_exists in W as (s & -> & <-). cbn [mbind option_bind].
  rewrite wr_put by (rewrite length_put by (rewrite length_replicate; lia); lia). cbn [mbind option_bind].
  rewrite put_next by (rewrite ?length_replicate; cbn; lia).
  unfold u8. rewrite Z.mod_small by lia. cbn [padding]. do 2 f_equal. lia.
Qed.

(** The words of the chunks, and the size of the message in words. *)
Definition last_word (f : TransportFeedback) : list Z :=
  if Empty (last_chunk_ f) then []
  else match EncodeLast (last_chunk_ f) with Some c => [c] | None => [] end.
Definition words (f : TransportFeedback) : list Z := encoded_chunks_ f ++ last_word f.
Definition size_words (f : TransportFeedback) : Z := (size_bytes_ f + 3) / 4.
Definition pad_bytes (f : TransportFeedback) : nat := Z.to_nat (size_words f * 4 - size_bytes_ f).
Definition message (f : TransportFeedback) : list Z :=
  encode f (words f) (size_words f - 1) (pad_bytes f).

Lemma BlockLength_spec f : 0 ≤ size_bytes_ f ≤ 1000000 → BlockLength f = size_words f * 4.
Proof.
  intros H. unfold BlockLength, size_words. rewrite (u64_id (size_bytes_ f + 3)) by lia.
  change (u64 (Z.lnot 3)) with (Z.shiftl (Z.ones 62) 2).
  set (x := size_bytes_ f + 3). change 4 with (2 ^ 2).
  rewrite <- Z.shiftl_mul_pow2, <- Z.shiftr_div_pow2 by lia.
  apply Z.bits_inj'. intros n Hn. rewrite Z.land_spec.
  destruct (Z.ltb_spec n 2); [by rewrite !Z.shiftl_spec_low, andb_false_r by lia|].
  rewrite !Z.shiftl_spec_high, Z.shiftr_spec by lia. replace (n - 2 + 2) with n by lia.
  destruct (Z.ltb_spec n 64).
  - by rewrite Z.ones_spec_low, andb_true_r by lia.
  - pose proof (Z.pow_le_mono_r 2 64 n ltac:(lia) ltac:(lia)).
    rewrite (Z.testbit_eqb x n), Z.div_small by lia. done.
Qed.

Lemma chunk_word f : chunk_ok (last_chunk_ f) → Empty (last_chunk_ f) = false →
  ∃ c, EncodeLast (last_chunk_ f) = Some c ∧ last_word f = [c] ∧ uint16 c ∧
    take (Z.to_nat (size_ (last_chunk_ f))) (symbols c) = contents (last_chunk_ f).
Proof.
  intros Hc He. assert (He' := He). apply Z.eqb_neq in He'.
  destruct (EncodeLast_spec _ Hc) as (c & E & Hu & Ht); [destruct Hc as (_ & ? & _); lia|].
  exists c. unfold last_word. rewrite He, E. done.
Qed.

Lemma length_last_word f : chunk_ok (last_chunk_ f) →
  length (last_word f) = (if Empty (last_chunk_ f) then 0 else 1)%nat.
Proof.
  intros Hc. destruct (Empty (last_chunk_ f)) eqn:E; [unfold last_word; by rewrite E|].
  by destruct (chunk_word f Hc E) as (c & _ & -> & _).
Qed.

Lemma built_sizes f sizes : built f sizes → Forall (λ d, 0 ≤ d ≤ 3) sizes.
Proof. intros H. eapply well_formed_range, built_well_formed, H. Qed.

(** The size the message was given is the size of its bytes. *)
Lemma built_bytes f sizes : built f sizes →
  size_bytes_ f = 20 + 2 * Z.of_nat (length (words f)) +
    (if include_timestamps_ f
     then Z.of_nat (length (concat (map delta_bytes (received_packets_ f)))) else 0) ∧
  20 ≤ size_bytes_ f ≤ 149816.
Proof.
  intros H. pose proof (built_sizes _ _ H) as Hr.
  destruct H as (_ & _ & Hok & Hm & _). pose proof (chunks_bound _ _ _ Hok) as (_ & Hb & _).
  destruct Hok as (_ & Hbu & _ & _ & _ & Hz & He).
  assert (length (words f) = (length (encoded_chunks_ f) + if Empty (last_chunk_ f) then 0 else 1)%nat)
    as -> by (unfold words; rewrite length_app; f_equal; by apply length_last_word, builder_ok).
  unfold delta_bytes_count in *. destruct (include_timestamps_ f).
  - rewrite (length_deltas _ _ _ Hm) by (eapply Forall_weaken; [exact Hr|]; cbn; lia).
    destruct (Empty (last_chunk_ f)); lia.
  - destruct (Empty (last_chunk_ f)); lia.
Qed.

Lemma length_message f sizes : built f sizes →
  Z.of_nat (length (message f)) = size_words f * 4 ∧ 5 ≤ size_words f ≤ 37455 ∧
  size_words f * 4 - size_bytes_ f = Z.of_nat (pad_bytes f) ∧ (pad_bytes f ≤ 3)%nat.
Proof.
  intros H. destruct (built_bytes f sizes H) as [E Hb].
  assert (Hp : 0 ≤ size_words f * 4 - size_bytes_ f ≤ 3)
    by (unfold size_words; Z.to_euclidean_division_equations; lia).
  assert (Hw : 5 ≤ size_words f ≤ 37455)
    by (unfold size_words; Z.to_euclidean_division_equations; lia).
  assert (Hpad : Z.of_nat (pad_bytes f) = size_words f * 4 - size_bytes_ f) by (unfold pad_bytes; lia).
  unfold message, encode.
  rewrite !length_app, length_words, length_padding. cbn [header_bytes be16 be24 be32 length app].
  unfold delta_block. destruct (include_timestamps_ f); cbn [length]; lia.
Qed.

(** Writing the words of all chunks, the last one encoded on the way. *)
Lemma write_words f buf p : chunk_ok (last_chunk_ f) → (p + 2 * length (words f) ≤ length buf)%nat →
  (st ← fold_m write_chunk (buf, p) (encoded_chunks_ f);
   (if negb (Empty (last_chunk_ f)) then
      chunk ← EncodeLast (last_chunk_ f);
      write_chunk st chunk
    else Some st)) =
  Some (put buf p (concat (map be16 (words f))), (p + 2 * length (words f))%nat).
Proof.
  intros Hc Hp. unfold words in *. rewrite length_app in Hp.
  rewrite write_chunks by lia. cbn [mbind option_bind].
  destruct (Empty (last_chunk_ f)) eqn:E; cbn [negb].
  - assert (last_word f = []) as -> by (unfold last_word; by rewrite E). by rewrite app_nil_r.
  - destruct (chunk_word f Hc E) as (c & -> & Ew & _). rewrite Ew in *. cbn [mbind option_bind].
    pose proof (write_chunks buf p (encoded_chunks_ f ++ [c])) as W.
    rewrite fold_m_app, write_chunks in W by lia. cbn [mbind option_bind fold_m] in W.
    rewrite length_app in W. cbn [length] in *. specialize (W ltac:(lia)).
    destruct (write_chunk _ c) as [st|]; cbn in W |- *; [|done]. rewrite W, length_app. done.
Qed.

Lemma write_words_then {R} f buf p (k : list Z * nat → option R) :
  chunk_ok (last_chunk_ f) → (p + 2 * length (words f) ≤ length buf)%nat →
  (st ← fold_m write_chunk (buf, p) (encoded_chunks_ f);
   st ← (if negb (Empty (last_chunk_ f)) then
           chunk ← EncodeLast (last_chunk_ f);
           write_chunk st chunk
         else Some st);
   k st) = k (put buf p (concat (map be16 (words f))), (p + 2 * length (words f))%nat).
Proof.
  intros Hc Hp. etrans; [symmetry; apply option_bind_assoc|].
  by rewrite write_words.
Qed.

Lemma write_delta_block f buf p :
  Forall (λ x, int16 (delta_ticks x)) (received_packets_ f) →
  (p + length (delta_block f) ≤ length buf)%nat →
  (if include_timestamps_ f then fold_m write_delta (buf, p) (received_packets_ f)
   else Some (buf, p)) = Some (put buf p (delta_block f), (p + length (delta_block f))%nat).
Proof.
  unfold delta_block. intros Hx Hp. destruct (include_timestamps_ f); [by apply write_deltas|].
  cbn [length]. rewrite put_nil by lia. by rewrite Nat.add_0_r.
Qed.

(** One write, merged with the bytes before it. *)
Ltac put_len := rewrite ?length_put, ?length_app; cbn [be16 be24 be32 length]; lia.
Ltac put_step L :=
  rewrite L by (rewrite length_put by put_len; put_len); cbn [mbind option_bind];
  rewrite put_next by put_len.

(** The sequence of writes, with the bytes written so far behind the cursor. *)
Lemma write_message_spec f sizes buf p : built f sizes → (p + length (message f) ≤ length buf)%nat →
  write_message f buf p = Some (put buf p (message f), (p + length (message f))%nat).
Proof.
  intros H Hp. destruct (length_message f sizes H) as (Hl & Hw & Hpad & Hp3).
  destruct (built_bytes f sizes H) as [_ Hb]. destruct (built_time f sizes H) as (_ & _ & Htk).
  pose proof (length_message f sizes H) as _.
  assert (Hc : chunk_ok (last_chunk_ f)) by (apply builder_ok; apply H).
  assert (Hlen : length (message f) = Z.to_nat (size_words f * 4)) by lia.
  unfold write_message. rewrite BlockLength_spec by lia. unfold PaddingLength. rewrite BlockLength_spec by lia.
  rewrite Hpad, <- Hlen. unfold HeaderLength.
  rewrite (proj2 (Nat.ltb_lt _ _)) by lia.
  assert ((length (message f) mod 4 =? 0)%nat = true) as ->.
  { apply Nat.eqb_eq. rewrite Hlen. replace (Z.to_nat (size_words f * 4)) with (Z.to_nat (size_words f) * 4)%nat
      by lia. apply Nat.Div0.mod_mul. }
  cbn [dcheck mbind option_bind].
  assert (Z.of_nat ((length (message f) - kHeaderLength) / 4) = size_words f - 1) as ->.
  { unfold kHeaderLength. rewrite Hlen.
    replace (Z.to_nat (size_words f * 4) - 4)%nat with (Z.to_nat (size_words f - 1) * 4)%nat by lia.
    rewrite Nat.div_mul by lia. lia. }
  unfold message, encode in Hp, Hlen |- *. rewrite !length_app in Hp, Hlen |- *.
  set (words_bytes := concat (map be16 (words f))) in *.
  assert (Hwl : length words_bytes = (2 * length (words f))%nat) by apply length_words.
  set (hd := header_bytes _ _ _ _) in *. assert (Hhd : length hd = 4%nat) by done.
  rewrite ?Hhd, ?Hwl, ?length_padding in *. cbn [be16 be24 be32 length] in Hp, Hlen.
  rewrite Z.gtb_ltb, CreateHeader_put by (unfold kFeedbackMessageType; lia). fold hd. cbn [mbind option_bind].
  unfold CreateCommonFeedback.
  put_step WriteBigEndian32_put. put_step WriteBigEndian32_put.
  put_step WriteBigEndian16_put. put_step WriteBigEndian16_put. put_step WriteBigEndian24_put.
  put_step wr_put.
  rewrite write_words_then by (done || rewrite length_put by put_len; lia). fold words_bytes.
  rewrite put_next by put_len. rewrite write_delta_block by (done || rewrite length_put by put_len; lia).
  cbn [mbind option_bind]. rewrite put_next by put_len.
  rewrite write_padding_put by (rewrite ?length_put by put_len; lia). cbn [mbind option_bind].
  rewrite put_next by (rewrite ?length_padding; put_len).
  rewrite (proj2 (Nat.eqb_eq _ _)) by (cbn [be16 be24 be32 length]; lia). cbn [dcheck mbind option_bind].
  rewrite <- !app_assoc. do 2 f_equal. cbn [be16 be24 be32 length]. lia.
Qed.

Lemma Create_spec f sizes buf p max_length :
  built f sizes → num_seq_no_ f ≠ 0 → (p ≤ max_length ≤ length buf)%nat →
  let L := length (message f) in
  Create f buf p max_length true =
  Some (if (p + L <=? max_length)%nat then (true, put buf p (message f), (p + L)%nat, [])
        else let sent := if (p =? 0)%nat then [] else [take p buf] in
             if (L <=? max_length)%nat then (true, put buf 0 (message f), L, sent)
             else (false, buf, 0%nat, sent)).
Proof.
  intros Hb Hn Hp L. unfold Create. rewrite (proj2 (Z.eqb_neq _ _)) by done.
  destruct (length_message f sizes Hb) as (Hl & Hw & _). destruct (built_bytes f sizes Hb) as [_ Hsz].
  rewrite BlockLength_spec by lia. replace (Z.to_nat (size_words f * 4)) with L by (unfold L; lia).
  rewrite CcFeedback.make_room_spec by lia. destruct (Nat.leb_spec (p + L) max_length).
  - cbn [mbind option_bind negb]. by rewrite (write_message_spec f sizes) by (done || lia).
  - cbn [mbind option_bind]. destruct (Nat.leb_spec L max_length); cbn [negb]; [|done].
    by rewrite (write_message_spec f sizes) by (done || lia).
Qed.

(** ** Parsing the chunks *)

(** [ws] describes exactly [n] packets: every word is needed. *)
Fixpoint covers (n : nat) (ws : list Z) : Prop :=
  match ws with
  | [] => n = 0%nat
  | w :: ws => (0 < n)%nat ∧ covers (n - length (symbols w)) ws
  end.

Lemma covers_app cs tail m :
  Forall (λ c, (0 < length (symbols c))%nat) cs → (0 < m)%nat → covers m tail →
  covers (length (concat (map symbols cs)) + m) (cs ++ tail).
Proof.
  intros Hc Hm Ht. induction Hc as [|c cs Hc _ IH]; [done|].
  cbn [map concat app covers]. rewrite length_app. split; [lia|].
  by replace (length (symbols c) + length (concat (map symbols cs)) + m - length (symbols c))%nat
    with (length (concat (map symbols cs)) + m)%nat by lia.
Qed.

Lemma parse_chunks_at fuel buf payload end_index index acc chunks last ws n :
  at_pos buf (payload + Z.to_nat index) (concat (map be16 ws)) → Forall uint16 ws →
  length (delta_sizes_ last) = 14%nat → 0 ≤ index → index + 2 * Z.of_nat (length ws) ≤ end_index →
  covers n ws → (length ws ≤ fuel)%nat →
  ∃ last', parse_chunks fuel buf payload end_index (Z.of_nat (length acc + n)) index acc chunks last =
    Some (true, index + 2 * Z.of_nat (length ws), acc ++ take n (concat (map symbols ws)),
          chunks ++ ws, last') ∧
    (ws ≠ [] → chunk_ok last' ∧ 0 < size_ last' ∧
       concat (map symbols (removelast ws)) ++ contents last' = take n (concat (map symbols ws))).
Proof.
  intros Hat Hu. revert fuel index acc chunks last n Hat.
  induction Hu as [|w ws Hw Hu IH]; intros fuel index acc chunks last n Hat Hl Hi He Hc Hf.
  { cbn [covers] in Hc. subst n. exists last. split; [|done].
    destruct fuel; cbn [parse_chunks]; rewrite (proj2 (Z.ltb_ge _ _)) by lia;
      cbn [map concat take length]; rewrite !app_nil_r; do 5 f_equal; lia. }
  cbn [covers length map concat] in *. destruct Hc as [Hn Hc]. destruct fuel as [|fuel]; [lia|].
  apply at_pos_app in Hat as [A1 A2]. cbn [parse_chunks].
  rewrite (proj2 (Z.ltb_lt _ _)), Z.gtb_ltb, (proj2 (Z.ltb_ge _ _)) by (unfold kChunkSizeBytes; lia).
  rewrite (read16_at _ _ w) by done. cbn [mbind option_bind].
  replace (Z.of_nat (length acc + n) - Z.of_nat (length acc)) with (Z.of_nat n) by lia.
  destruct (Decode_spec last w (Z.of_nat n) Hl Hw ltac:(lia)) as (last1 & -> & Hok & Ec).
  rewrite Nat2Z.id in Ec. cbn [mbind option_bind]. rewrite AppendTo_spec by done. cbn [mbind option_bind].
  set (n' := (n - length (symbols w))%nat) in *.
  assert (Hlen : (length acc + n = length (acc ++ contents last1) + n')%nat).
  { rewrite length_app, Ec, length_take. lia. }
  assert (Hix : (payload + Z.to_nat (index + kChunkSizeBytes) = payload + Z.to_nat index + length (be16 w))%nat)
    by (unfold kChunkSizeBytes; cbn [be16 length]; lia).
  rewrite Hlen. destruct (IH fuel (index + kChunkSizeBytes) (acc ++ contents last1) (chunks ++ [w]) last1 n')
    as (last' & E & Hlast); try (unfold kChunkSizeBytes; lia); try done.
  { by rewrite Hix. }
  { apply Hok. }
  exists last'. rewrite E, take_app, <- !app_assoc, Ec. fold n'. split.
  { unfold kChunkSizeBytes. do 5 f_equal. lia. }
  intros _. destruct ws as [|w' ws].
  - cbn [covers] in Hc. cbn [parse_chunks] in E.
    assert (last' = last1) as ->.
    { destruct fuel; cbn [parse_chunks] in E; rewrite (proj2 (Z.ltb_ge _ _)) in E by lia; by injection E. }
    split; [done|]. rewrite Hc, take_0, app_nil_r. cbn [removelast map concat app]. split; [|done].
    pose proof (length_contents _ Hok) as Hsz. rewrite Ec, length_take in Hsz. lia.
  - destruct (Hlast ltac:(done)) as (H1 & H2 & H3). split; [done|]. split; [done|].
    change (removelast (w :: w' :: ws)) with (w :: removelast (w' :: ws)). cbn [map concat].
    destruct Hc as [Hn' _]. rewrite (take_ge (symbols w)) by lia. by rewrite <- app_assoc, H3.
Qed.

(** ** Parsing the deltas *)

Lemma accumulate_sum l : Forall (λ d, 0 ≤ d ≤ 3) l → Z.of_nat (length l) ≤ 65535 → accumulate l = sum l.
Proof.
  intros Hl Hn. unfold accumulate.
  enough (H : ∀ s, 0 ≤ s → s + 3 * Z.of_nat (length l) ≤ 196605 →
    foldl (λ s d, s +i d) s l = s + sum l) by (rewrite H; lia).
  clear Hn. induction Hl as [|d l Hd Hl IH]; intros s Hs Hb; cbn [foldl sum foldr length] in *; [lia|].
  fold (sum l). rewrite s32_id by (unfold int32; lia). rewrite IH by lia. lia.
Qed.

Lemma delta_bytes_read buf p x : at_pos buf p (delta_bytes x) → int16 (delta_ticks x) →
  (if delta_size (delta_ticks x) =? 1 then buf !! p
   else if delta_size (delta_ticks x) =? 2 then ReadBigEndianSigned16 buf p else None) =
  Some (delta_ticks x).
Proof.
  unfold delta_bytes, delta_size. intros Hat Hx. destruct (_ && _).
  - cbn. rewrite <- (Nat.add_0_r p). by apply Hat.
  - cbn. by apply reads16_at.
Qed.

Lemma parse_deltas_at buf payload end_index ticks sizes packets index seq rec n s :
  ticks_ok ticks → matches chosen seq sizes packets → Forall (λ d, 0 ≤ d) sizes →
  at_pos buf (payload + Z.to_nat index) (concat (map delta_bytes packets)) →
  0 ≤ index → index + sum sizes ≤ end_index → 0 ≤ n → n + Z.of_nat (length packets) ≤ 65535 →
  -32768 * n ≤ s ≤ 32767 * n →
  ∃ seq', fold_m (parse_delta buf payload end_index)
      (Some (index, seq, rec, base_time ticks + kDeltaTick * s)) sizes =
    Some (Some (index + sum sizes, seq', rec ++ packets,
                base_time ticks + kDeltaTick * (s + total_ticks packets))).
Proof.
  intros Ht Hm Hs. revert index seq packets rec n s Hm.
  induction Hs as [|d sizes Hd Hs IH]; intros index seq packets rec n s Hm Hat Hi He Hn Hnp Hb;
    cbn [matches fold_m] in *.
  { subst packets. exists seq. rewrite app_nil_r. unfold total_ticks. cbn [map sum foldr]. do 5 f_equal; lia. }
  assert (Hsum : 0 ≤ sum sizes) by (clear -Hs; induction Hs; cbn [sum foldr]; [lia|]; fold (sum l); lia).
  cbn [sum foldr] in *. fold (sum sizes) in *. unfold parse_delta at 2. cbv beta iota.
  rewrite (proj2 (Z.leb_le _ _)) by lia. cbn [dcheck mbind option_bind].
  destruct (Z.eqb_spec d 0) as [->|Hd0].
  { cbn [mbind option_bind]. destruct (IH index (u16 (seq + 1)) packets rec n s) as (seq' & ->); try done.
    by exists seq'. }
  destruct packets as [|x packets]; [done|]. destruct Hm as (Hseq & [-> Hx] & Hm). cbn [length map concat] in *.
  apply at_pos_app in Hat as [A1 A2].
  assert (H12 : 1 ≤ delta_size (delta_ticks x) ≤ 2) by (unfold delta_size; destruct (_ && _); lia).
  rewrite (proj2 (Z.eqb_neq _ 3)) by lia. rewrite delta_bytes_read by done. cbn [mbind option_bind].
  destruct (add_delta ticks n s (delta_ticks x) Ht Hb ltac:(lia) Hx) as (u & -> & Eu).
  cbn [mbind option_bind]. rewrite Eu. cbn [mbind option_bind]. unfold int16 in Hx.
  destruct (IH (index + delta_size (delta_ticks x)) (u16 (seq + 1)) packets
    (rec ++ [mkReceived seq (delta_ticks x)]) (n + 1) (s + delta_ticks x)) as (seq' & E); try done; try lia.
  { replace (payload + Z.to_nat (index + delta_size (delta_ticks x)))%nat
      with (payload + Z.to_nat index + length (delta_bytes x))%nat by (rewrite delta_size_cases; lia). done. }
  rewrite E. exists seq'. rewrite <- app_assoc. cbn [app]. rewrite <- Hseq.
  unfold total_ticks. cbn [map sum foldr]. fold (sum (map delta_ticks packets)).
  destruct x. cbn [sequence_number delta_ticks]. do 5 f_equal; lia.
Qed.

Lemma parse_symbols_at seq sizes packets rec :
  matches chosen seq sizes packets → Forall (λ d, 0 ≤ d) sizes →
  Forall (λ p, delta_ticks p = 0) packets →
  ∃ seq', fold_m parse_symbol (seq, rec) sizes = Some (seq', rec ++ packets).
Proof.
  intros Hm Hs. revert seq packets rec Hm. induction Hs as [|d sizes Hd _ IH]; intros seq packets rec Hm H0;
    cbn [matches fold_m parse_symbol mbind option_bind] in *.
  { subst. exists seq. by rewrite app_nil_r. }
  rewrite Z.gtb_ltb. destruct (Z.eqb_spec d 0) as [->|Hd0].
  { cbn [Z.ltb Z.compare]. by apply IH. }
  rewrite (proj2 (Z.ltb_lt _ _)) by lia. destruct packets as [|x packets]; [done|].
  destruct Hm as (Hseq & _ & Hm). apply Forall_cons_1 in H0 as [Hx H0].
  destruct (IH _ _ (rec ++ [mkReceived seq 0]) Hm H0) as (seq' & ->). exists seq'.
  rewrite <- app_assoc. destruct x. cbn in *. by subst.
Qed.

(** ** Messages come back *)

Lemma words_cover f sizes : built f sizes → sizes ≠ [] →
  covers (length sizes) (words f) ∧ Forall uint16 (words f) ∧ words f ≠ [] ∧
  take (length sizes) (concat (map symbols (words f))) = sizes.
Proof.
  intros (_ & _ & (Hc & Hb & Hs & _) & _) Hne. assert (Hok := builder_ok _ Hb).
  assert (H7 : Forall (λ c, (0 < length (symbols c))%nat) (encoded_chunks_ f))
    by (eapply Forall_weaken; [exact Hc|]; cbn; intros c [_ ?]; lia).
  assert (Hu : Forall uint16 (encoded_chunks_ f)) by (eapply Forall_weaken; [exact Hc|]; by intros c [? _]).
  unfold words. destruct (Empty (last_chunk_ f)) eqn:Ee.
  - assert (last_word f = []) as -> by (unfold last_word; by rewrite Ee). rewrite app_nil_r.
    rewrite (chunk_Empty _ Hok Ee), app_nil_r in Hs.
    destruct (encoded_chunks_ f) as [|c cs _] eqn:Ec using rev_ind; [by subst|].
    apply Forall_app in H7 as [H7 H7c]. apply Forall_cons_1 in H7c as [H7c _].
    assert (El : length sizes = (length (concat (map symbols cs)) + length (symbols c))%nat).
    { rewrite <- Hs, map_app, concat_app, length_app. cbn [map concat]. by rewrite app_nil_r. }
    split_and!; [|done|by destruct cs|by rewrite Hs, take_ge by lia].
    rewrite El. apply covers_app; [done..|]. cbn [covers]. split; [done|lia].
  - destruct (chunk_word f Hok Ee) as (c & _ & -> & Huc & Et).
    pose proof (length_contents _ Hok) as Hlc. apply Z.eqb_neq in Ee.
    assert (0 < size_ (last_chunk_ f)) by (destruct Hok as (_ & ? & _); lia).
    assert (El : length sizes = (length (concat (map symbols (encoded_chunks_ f))) +
      Z.to_nat (size_ (last_chunk_ f)))%nat) by (rewrite <- Hs, length_app; lia).
    assert (Hlt := f_equal length Et). rewrite length_take in Hlt.
    split_and!.
    + rewrite El. apply covers_app; [done|lia|]. cbn [covers]. split; lia.
    + apply Forall_app_2; [done|]. by apply Forall_singleton.
    + by destruct (encoded_chunks_ f).
    + rewrite map_app, concat_app, El. cbn [map concat]. rewrite app_nil_r.
      rewrite take_app_add', Et by done. done.
Qed.

(** What the parser reads off the wire for [f]; only the split of the symbols into the
    last chunk and the encoded ones may differ. *)
Definition same_content (f f' : TransportFeedback) : Prop :=
  header f' = header f ∧ num_seq_no_ f' = num_seq_no_ f ∧
  received_packets_ f' = received_packets_ f ∧ last_timestamp_ f' = last_timestamp_ f ∧
  size_bytes_ f' = size_bytes_ f.

Lemma parse_receive_deltas_at g f sizes buf payload end_index index :
  built f sizes → sizes ≠ [] →
  base_seq_no_ g = base_seq_no_ f → received_packets_ g = [] →
  last_timestamp_ g = base_time (base_time_ticks_ f) → include_timestamps_ g = true →
  at_pos buf (payload + Z.to_nat index) (delta_block f) → 0 ≤ index →
  end_index = index + (if include_timestamps_ f then sum sizes else 0) →
  end_index = size_bytes_ f - 4 →
  parse_receive_deltas g buf payload end_index index sizes =
  Some (true, mkTf (sender_ssrc g) (media_ssrc g) (base_seq_no_ g) (num_seq_no_ g) (base_time_ticks_ g)
    (feedback_seq_ g) (include_timestamps_ f) (last_timestamp_ f) (received_packets_ f)
    (encoded_chunks_ g) (last_chunk_ g) (size_bytes_ f)).
Proof.
  intros Hb Hne Eb Er El Ei Hat Hi Hend Hsz. pose proof (built_sizes _ _ Hb) as Hr.
  destruct (built_time _ _ Hb) as (_ & Hlen & Htk).
  destruct Hb as (Hb & Ht & (_ & _ & _ & Hn & Hmax & _) & Hm & Hts & Hinc & Hrec).
  assert (Hr0 : Forall (λ d, 0 ≤ d) sizes) by (eapply Forall_weaken; [exact Hr|]; cbn; lia).
  unfold parse_receive_deltas. rewrite accumulate_sum by (done || lia). rewrite Eb, Er, El.
  unfold delta_block in Hat. rewrite Z.geb_leb. destruct (include_timestamps_ f) eqn:Ef.
  - rewrite (proj2 (Z.leb_le _ _)) by lia.
    destruct (parse_deltas_at buf payload end_index (base_time_ticks_ f) sizes (received_packets_ f) index
      (base_seq_no_ f) [] 0 0 Ht Hm Hr0 Hat ltac:(lia) ltac:(lia) ltac:(lia) ltac:(lia) ltac:(lia))
      as (seq' & E).
    rewrite Z.mul_0_r, Z.add_0_r in E. rewrite E. cbn [mbind option_bind]. rewrite Z.add_0_l, <- Hts.
    rewrite (proj2 (Z.leb_le _ _)) by lia. cbn [dcheck mbind option_bind app].
    unfold with_received, kHeaderLength. rewrite Ei, Eb. do 4 f_equal. lia.
  - assert (Hsum : 0 < sum sizes).
    { pose proof (length_deltas _ _ _ Hm Hr0) as E. destruct (received_packets_ f) as [|x ps] eqn:Ep.
      { by destruct (Hne (Hrec eq_refl)). }
      cbn [map concat] in E. rewrite length_app, delta_size_cases in E. unfold delta_size in E.
      destruct (_ && _); lia. }
    rewrite (proj2 (Z.leb_gt _ _)) by lia.
    destruct (parse_symbols_at (base_seq_no_ f) sizes (received_packets_ f) [] Hm Hr0 (Hinc eq_refl))
      as (seq' & ->).
    cbn [mbind option_bind app]. rewrite (proj2 (Z.leb_le _ _)) by lia. cbn [dcheck mbind option_bind].
    assert (Hz : total_ticks (received_packets_ f) = 0).
    { unfold total_ticks. specialize (Hinc eq_refl). clear -Hinc. induction Hinc as [|x l Hx _ IH]; [done|].
      cbn [map sum foldr]. fold (sum (map delta_ticks l)). lia. }
    rewrite Hz, Z.mul_0_r, Z.add_0_r in Hts. rewrite Hts. unfold kHeaderLength. do 3 f_equal. lia.
Qed.

Lemma Forall_removelast {A} (P : A → Prop) (l : list A) : Forall P l → Forall P (removelast l).
Proof.
  induction 1 as [|x l Hx Hl IH]; [by apply Forall_nil_2|].
  destruct l; [by apply Forall_nil_2|]. by apply Forall_cons_2.
Qed.

Lemma length_removelast (l : list Z) : l ≠ [] → length l = S (length (removelast l)).
Proof. intros H. rewrite (app_removelast_last 0 H) at 1. rewrite length_app. cbn. lia. Qed.

Definition sendable (f : TransportFeedback) : Prop :=
  uint32 (sender_ssrc f) ∧ uint32 (media_ssrc f) ∧ uint8 (feedback_seq_ f).

Lemma at_pos_self l : at_pos l 0 l.
Proof. intros i b H. exact H. Qed.

Lemma message_header f sizes : built f sizes → words f ≠ [] →
  ParseHeader (message f) 0 (length (message f)) =
    Some (Some (mkHeader kPacketType kFeedbackMessageType (Z.of_nat (pad_bytes f)) (size_bytes_ f - 4) 4)) ∧
  18 ≤ size_bytes_ f - 4.
Proof.
  intros Hb Hw. destruct (length_message f sizes Hb) as (Hl & Hsz & Hpad & Hp3).
  destruct (built_bytes f sizes Hb) as [Hby _].
  assert (0 < length (words f))%nat by (destruct (words f); [done|cbn; lia]).
  split; [|destruct (include_timestamps_ f); lia].
  replace (size_bytes_ f - 4) with ((size_words f - 1) * 4 - Z.of_nat (pad_bytes f)) by lia.
  apply ParseHeader_padded; try (unfold uint16, kFeedbackMessageType; lia).
  - pose proof (at_pos_self (message f) : at_pos (message f) 0 (encode _ _ _ _)) as Hat. unfold encode in Hat.
    by apply at_pos_app in Hat as [Hat _].
  - intros Hpos. replace (0 + 4 + Z.to_nat ((size_words f - 1) * 4 - 1))%nat with (length (message f) - 1)%nat
      by lia.
    unfold message, encode. rewrite !app_assoc.
    destruct (pad_bytes f) as [|n] eqn:En; [lia|]. cbn [padding].
    rewrite app_assoc. rewrite lookup_app_r by (rewrite (length_app _ [_]); cbn [length]; lia).
    rewrite (length_app _ [_]). cbn [length].
    match goal with |- [_] !! ?i = _ => replace i with 0%nat by lia end. done.
Qed.

(** Where the fields are. *)
Lemma message_fields f sizes : built f sizes → sendable f →
  ReadBigEndian32 (message f) 4 = Some (sender_ssrc f) ∧
  ReadBigEndian32 (message f) 8 = Some (media_ssrc f) ∧
  ReadBigEndian16 (message f) 12 = Some (base_seq_no_ f) ∧
  ReadBigEndian16 (message f) 14 = Some (num_seq_no_ f) ∧
  ReadBigEndian24 (message f) 16 = Some (base_time_ticks_ f) ∧
  message f !! 19%nat = Some (feedback_seq_ f) ∧
  at_pos (message f) 20 (concat (map be16 (words f))) ∧
  at_pos (message f) (20 + 2 * length (words f)) (delta_block f).
Proof.
  intros (Hbase & Hticks & (_ & _ & _ & Hn & Hmax & _) & _) (Hs1 & Hs2 & Hs3).
  pose proof (at_pos_self (message f) : at_pos (message f) 0 (encode _ _ _ _)) as Hat. unfold encode in Hat.
  apply at_pos_app in Hat as [_ Hat]. apply at_pos_app in Hat as [A1 Hat].
  apply at_pos_app in Hat as [A2 Hat]. apply at_pos_app in Hat as [A3 Hat].
  apply at_pos_app in Hat as [A4 Hat]. apply at_pos_app in Hat as [A5 Hat].
  apply at_pos_app in Hat as [A6 Hat]. apply at_pos_app in Hat as [A7 Hat].
  apply at_pos_app in Hat as [A8 _]. rewrite length_words in A8.
  split; [by apply read32_at|]. split; [by apply read32_at|]. split; [by apply read16_at|].
  split; [by apply read16_at; [|unfold uint16; lia]|]. split; [by apply read24_at|].
  split; [exact (A6 0%nat _ eq_refl)|]. split; [exact A7|exact A8].
Qed.

Lemma ParseFrom_message f sizes ds : built f sizes → sizes ≠ [] → sendable f → length ds = 14%nat →
  ∃ f', ParseFrom ds (message f) (length (message f)) = Some (Some f') ∧ same_content f f' ∧
    well_formed chosen f' sizes.
Proof.
  intros Hb Hne Hsend Hds. destruct (words_cover f sizes Hb Hne) as (Hcov & Hu & Hw & Hsym).
  destruct (message_header f sizes Hb Hw) as [Hh Hmin]. destruct (built_bytes f sizes Hb) as [Hby _].
  destruct (message_fields f sizes Hb Hsend) as (R1 & R2 & R3 & R4 & R5 & R6 & A7 & A8).
  pose proof (built_sizes _ _ Hb) as Hr.
  assert (Hb' := Hb). destruct Hb' as (Hbase & Hticks & (_ & _ & _ & Hn & Hmax & Hz & _) & Hm & Hts & _).
  assert (Hl0 : (0 < length sizes)%nat) by (destruct sizes; [done|cbn; lia]).
  assert (Hd : size_bytes_ f - 4 = 16 + 2 * Z.of_nat (length (words f)) +
    (if include_timestamps_ f then sum sizes else 0)).
  { rewrite Hby. destruct (include_timestamps_ f); [|lia].
    rewrite (length_deltas _ _ _ Hm) by (eapply Forall_weaken; [exact Hr|]; cbn; lia). lia. }
  unfold ParseFrom. rewrite Hh. cbn [mbind option_bind packet_type_ count_or_format_].
  rewrite !Z.eqb_refl. cbn [negb orb]. unfold Parse. cbn [packet_type_ count_or_format_ payload_size_ payload_].
  rewrite !Z.eqb_refl. cbn [dcheck mbind option_bind]. unfold kMinPayloadSizeBytes.
  rewrite (proj2 (Z.ltb_ge _ _)) by lia. unfold ParseCommonFeedback.
  rewrite R1. cbn [mbind option_bind Nat.add]. rewrite R2. cbn [mbind option_bind].
  rewrite R3. cbn [mbind option_bind]. rewrite R4. cbn [mbind option_bind].
  rewrite R5. cbn [mbind option_bind]. rewrite R6. cbn [mbind option_bind]. unfold Clear. cbn [base_time_ticks_].
  rewrite BaseTime_spec by done. cbn [mbind option_bind].
  rewrite (proj2 (Z.eqb_neq (num_seq_no_ f) 0)) by lia.
  cbn [encoded_chunks_ last_chunk_ new_feedback sender_ssrc media_ssrc base_seq_no_ feedback_seq_
       include_timestamps_].
  set (last0 := TransportChunk.Clear _).
  destruct (parse_chunks_at (Z.to_nat (size_bytes_ f - 4)) (message f) 4 (size_bytes_ f - 4) 16 [] []
    last0 (words f) (length sizes)) as (last' & E & Hlast);
    try done; try (destruct (include_timestamps_ f); lia).
  cbn [length Nat.add app] in E. rewrite <- Hn, Hsym in E. rewrite E. cbn [mbind option_bind negb].
  rewrite Hn, Z.eqb_refl. cbn [dcheck mbind option_bind].
  destruct (Hlast Hw) as (Hok' & Hpos & Hcont). rewrite Hsym in Hcont.
  rewrite (parse_receive_deltas_at _ f sizes); try done; try lia.
  2: { replace (4 + Z.to_nat (16 + 2 * Z.of_nat (length (words f))))%nat
         with (20 + 2 * length (words f))%nat by lia. exact A8. }
  cbn [mbind option_bind with_chunks sender_ssrc media_ssrc base_seq_no_ num_seq_no_ base_time_ticks_
       feedback_seq_ encoded_chunks_ last_chunk_].
  eexists. split; [done|]. split; [by rewrite <- Hn|].
  unfold well_formed. cbn [base_seq_no_ base_time_ticks_ num_seq_no_ encoded_chunks_ last_chunk_
    received_packets_ last_timestamp_ size_bytes_ include_timestamps_].
  split_and!; try done; try apply Hok'; try lia.
  - by apply Forall_removelast.
  - rewrite Empty_size, (proj2 (Z.eqb_neq (size_ last') 0)) by lia.
    pose proof (length_removelast (words f) Hw). lia.
Qed.

(** ** Arbitrary input *)

(** What the loop over the chunks leaves, for any bytes. *)
Definition chunks_read (acc : list Z) (chunks : list Z) (last : LastChunk) (index status : Z)
    (index' : Z) (sizes : list Z) (chunks' : list Z) (last' : LastChunk) : Prop :=
  ∃ ws, Z.of_nat (length sizes) = status ∧ chunks' = chunks ++ ws ∧ Forall uint16 ws ∧
    index' = index + 2 * Z.of_nat (length ws) ∧
    (Z.of_nat (length acc) = status → ws = [] ∧ last' = last ∧ sizes = acc) ∧
    (Z.of_nat (length acc) < status → chunk_ok last' ∧ 0 < size_ last' ∧ ws ≠ [] ∧
       acc ++ concat (map symbols (removelast ws)) ++ contents last' = sizes).

Lemma chunks_done acc chunks last index status : Z.of_nat (length acc) = status →
  chunks_read acc chunks last index status index acc chunks last.
Proof.
  intros E. exists []. rewrite app_nil_r. cbn [length]. by split_and!; try lia.
Qed.

Lemma parse_chunks_ok fuel buf payload end_index status index acc chunks last :
  bytes_ok buf → (payload + Z.to_nat end_index ≤ length buf)%nat → length (delta_sizes_ last) = 14%nat →
  0 ≤ index ≤ end_index → end_index - index < Z.of_nat fuel → Z.of_nat (length acc) ≤ status →
  wp (parse_chunks fuel buf payload end_index status index acc chunks last)
    (λ '(ok, index', sizes, chunks', last'), length (delta_sizes_ last') = 14%nat ∧ index ≤ index' ≤ end_index ∧
       (ok = true → chunks_read acc chunks last index status index' sizes chunks' last')).
Proof.
  intros Hb Hp. revert index acc chunks last.
  induction fuel as [|fuel IH]; intros index acc chunks last Hl Hi Hf Ha; cbn [parse_chunks];
    (destruct (Z.ltb_spec (Z.of_nat (length acc)) status) as [Hlt|Hge];
      [|apply wp_ret; split; [done|]; split; [lia|]; intros _; apply chunks_done; lia]); [lia|].
  unfold kChunkSizeBytes. rewrite Z.gtb_ltb. destruct (Z.ltb_spec end_index (index + 2)) as [|Hfit].
  { apply wp_ret. split; [done|]. split; [lia|done]. }
  apply wp_bind. wp_call (apply ReadBigEndian16_safe; [done|lia]). intros w Hw.
  destruct (Decode_spec last w (status - Z.of_nat (length acc)) Hl Hw ltac:(lia)) as (last1 & -> & Hok & Ec).
  apply wp_bind, wp_ret. rewrite AppendTo_spec by done. apply wp_bind, wp_ret.
  assert (Hla : Z.of_nat (length (acc ++ contents last1)) ≤ status).
  { rewrite length_app, Ec, length_take. lia. }
  wp_call (apply (IH (index + 2) (acc ++ contents last1) (chunks ++ [w]) last1);
    [apply Hok|lia|lia|done]).
  intros [[[[ok index'] sizes] chunks'] last'] (Hl' & Hi' & H). split; [done|]. split; [lia|].
  intros E. destruct (H E) as (ws & Hs & Hc & Hu & Hx & Hfin & Hmore). clear H E.
  exists (w :: ws). rewrite <- app_assoc in Hc. cbn [length]. split_and!; try done; try lia.
  { by apply Forall_cons_2. }
  intros _. destruct (Z.eq_dec (Z.of_nat (length (acc ++ contents last1))) status) as [Ee|Hne].
  - destruct (Hfin Ee) as (-> & -> & ->). split; [done|]. cbn [removelast map concat app]. split; [|done].
    pose proof (length_contents _ Hok) as Hsz. rewrite length_app in Ee. lia.
  - destruct (Hmore ltac:(lia)) as (H1 & H2 & H3 & H4). split; [done|]. split; [done|]. split; [done|].
    assert (Efull : contents last1 = symbols w).
    { rewrite length_app, Ec, length_take in Hne. rewrite Ec. apply take_ge. rewrite length_app, Ec, length_take in Hla. lia. }
    destruct ws as [|w' ws]; [done|]. change (removelast (w :: w' :: ws)) with (w :: removelast (w' :: ws)).
    cbn [map concat]. rewrite <- H4, Efull, <- !app_assoc. done.
Qed.

Lemma parse_delta_invalid buf payload end_index sizes :
  fold_m (parse_delta buf payload end_index) None sizes = Some None.
Proof. induction sizes as [|d sizes IH]; [done|]. cbn. apply IH. Qed.

Lemma parse_deltas_ok buf payload end_index ticks sizes index seq rec n s :
  bytes_ok buf → (payload + Z.to_nat end_index ≤ length buf)%nat → ticks_ok ticks →
  Forall (λ d, 0 ≤ d ≤ 3) sizes → 0 ≤ index → index + sum sizes ≤ end_index →
  0 ≤ n → n + Z.of_nat (length sizes) ≤ 65535 → -32768 * n ≤ s ≤ 32767 * n →
  wp (fold_m (parse_delta buf payload end_index)
        (Some (index, seq, rec, base_time ticks + kDeltaTick * s)) sizes)
    (λ r, ∀ index' seq' rec' t, r = Some (index', seq', rec', t) →
       ∃ packets, rec' = rec ++ packets ∧ matches allowed seq sizes packets ∧
         index' = index + sum sizes ∧ t = base_time ticks + kDeltaTick * (s + total_ticks packets)).
Proof.
  intros Hb Hp Ht Hs. revert index seq rec n s.
  induction Hs as [|d sizes Hd Hs IH]; intros index seq rec n s Hi He Hn Hnp Hbd; cbn [fold_m].
  { apply wp_ret. intros ???? [= <- <- <- <-]. exists []. rewrite app_nil_r. unfold total_ticks. cbn.
    split_and!; try done; [lia|]. f_equal. lia. }
  assert (Hsum : 0 ≤ sum sizes) by (apply sum_bounds in Hs; lia).
  cbn [sum foldr length] in *. fold (sum sizes) in *. unfold parse_delta at 2. cbv beta iota. apply wp_bind.
  apply wp_bind, wp_dcheck; [apply Z.leb_le; lia|].
  destruct (Z.eqb_spec d 0) as [->|Hd0].
  { apply wp_ret. wp_call (apply (IH index (u16 (seq + 1)) rec n s); lia). intros r H i' s' r' t' E.
    destruct (H _ _ _ _ E) as (ps & ? & ? & ? & ?). exists ps. by rewrite Z.add_0_l. }
  destruct (Z.eqb_spec d 3) as [->|Hd3].
  { apply wp_ret. rewrite parse_delta_invalid. by apply wp_ret. }
  assert (Hread : wp (if d =? 1 then buf !! (payload + Z.to_nat index)%nat
      else if d =? 2 then ReadBigEndianSigned16 buf (payload + Z.to_nat index) else None) (allowed d)).
  { assert (d = 1 ∨ d = 2) as [->| ->] by lia; cbn.
    - apply (wp_lookup_Forall uint8); [done|lia|]. unfold uint8, allowed, int16. lia.
    - wp_call (apply ReadBigEndianSigned16_safe; [done|lia]). unfold allowed. intros x Hx. by split_and!; try lia. }
  apply wp_bind. wp_call (exact Hread). intros x Hx. assert (Hx' := Hx). destruct Hx' as (_ & _ & Hx16).
  destruct (add_delta ticks n s x Ht Hbd ltac:(lia) Hx16) as (u & -> & Eu).
  apply wp_bind, wp_ret. rewrite Eu. apply wp_bind, wp_ret, wp_ret. unfold int16 in Hx16.
  wp_call (apply (IH (index + d) (u16 (seq + 1)) (rec ++ [mkReceived seq x]) (n + 1) (s + x)); lia).
  intros r H i' s' r' t' E. destruct (H _ _ _ _ E) as (ps & -> & Hm & -> & ->).
  exists (mkReceived seq x :: ps). rewrite <- app_assoc. split_and!; [done| |lia|].
  - cbn [matches]. rewrite (proj2 (Z.eqb_neq d 0)) by lia. done.
  - unfold total_ticks. cbn [map sum foldr delta_ticks]. fold (sum (map delta_ticks ps)). f_equal. f_equal. lia.
Qed.

Lemma parse_symbols_ok seq sizes rec : Forall (λ d, 0 ≤ d ≤ 3) sizes →
  ∃ seq' packets, fold_m parse_symbol (seq, rec) sizes = Some (seq', rec ++ packets) ∧
    matches allowed seq sizes packets ∧ total_ticks packets = 0.
Proof.
  intros Hs. revert seq rec. induction Hs as [|d sizes Hd _ IH]; intros seq rec;
    cbn [matches fold_m parse_symbol mbind option_bind].
  { exists seq, []. by rewrite app_nil_r. }
  rewrite Z.gtb_ltb. destruct (Z.eqb_spec d 0) as [->|Hd0]; [cbn [Z.ltb Z.compare]; apply IH|].
  rewrite (proj2 (Z.ltb_lt _ _)) by lia.
  destruct (IH (u16 (seq + 1)) (rec ++ [mkReceived seq 0])) as (seq' & ps & -> & Hm & Ht).
  exists seq', (mkReceived seq 0 :: ps). rewrite <- app_assoc. split_and!; try done.
  unfold allowed, int16. cbn. lia.
Qed.

(** The state between the loop over the chunks and the deltas. *)
Definition symbols_parsed (g : TransportFeedback) (sizes : list Z) (index : Z) : Prop :=
  uint16 (base_seq_no_ g) ∧ ticks_ok (base_time_ticks_ g) ∧
  num_seq_no_ g = Z.of_nat (length sizes) ∧ num_seq_no_ g ≤ 65535 ∧
  Forall uint16 (encoded_chunks_ g) ∧ chunk_ok (last_chunk_ g) ∧ 0 < size_ (last_chunk_ g) ∧
  concat (map symbols (encoded_chunks_ g)) ++ contents (last_chunk_ g) = sizes ∧
  received_packets_ g = [] ∧ last_timestamp_ g = base_time (base_time_ticks_ g) ∧
  index = 16 + 2 * Z.of_nat (S (length (encoded_chunks_ g))) ∧ include_timestamps_ g = true.

Lemma parse_receive_deltas_ok g sizes buf payload end_index index :
  bytes_ok buf → (payload + Z.to_nat end_index ≤ length buf)%nat → symbols_parsed g sizes index →
  index ≤ end_index →
  wp (parse_receive_deltas g buf payload end_index index sizes)
    (λ '(ok, f), ok = true → well_formed allowed f sizes).
Proof.
  intros Hb Hp (Hbase & Ht & Hn & Hmax & Hu & Hok & Hpos & Hs & Er & El & Ei & Einc) Hle.
  assert (Hr : Forall (λ d, 0 ≤ d ≤ 3) sizes).
  { rewrite <- Hs. apply Forall_app_2; [|apply Hok]. apply Forall_concat, Forall_map.
    eapply Forall_weaken; [exact Hu|]. apply symbols_range. }
  unfold parse_receive_deltas. rewrite accumulate_sum by (done || lia). rewrite Z.geb_leb, Er, El.
  assert (He : Empty (last_chunk_ g) = false) by (apply Z.eqb_neq; lia).
  destruct (Z.leb_spec (index + sum sizes) end_index) as [Hfit|Hno].
  - apply wp_bind. pose proof (parse_deltas_ok buf payload end_index (base_time_ticks_ g) sizes index
      (base_seq_no_ g) [] 0 0 Hb Hp Ht Hr ltac:(lia) Hfit ltac:(lia) ltac:(lia) ltac:(lia)) as W.
    rewrite Z.mul_0_r, Z.add_0_r in W. wp_call (exact W). intros [[[[index' seq'] rec] t]|] H.
    2: { unfold Clear. rewrite BaseTime_spec by done. by apply wp_bind, wp_ret, wp_ret. }
    destruct (H _ _ _ _ eq_refl) as (ps & -> & Hm & -> & ->). cbn [app].
    apply wp_bind, wp_dcheck; [apply Z.leb_le; lia|]. apply wp_ret. intros _.
    unfold well_formed. cbn [with_received base_seq_no_ base_time_ticks_ num_seq_no_ encoded_chunks_ last_chunk_
      received_packets_ last_timestamp_ size_bytes_ include_timestamps_].
    rewrite Einc, He. split_and!; try done; [apply Hok..|]. unfold kHeaderLength. lia.
  - destruct (parse_symbols_ok (base_seq_no_ g) sizes [] Hr) as (seq' & ps & -> & Hm & Htot).
    apply wp_bind, wp_ret, wp_bind, wp_dcheck; [apply Z.leb_le; lia|]. apply wp_ret. intros _. cbn [app].
    unfold well_formed. cbn [base_seq_no_ base_time_ticks_ num_seq_no_ encoded_chunks_ last_chunk_
      received_packets_ last_timestamp_ size_bytes_ include_timestamps_].
    rewrite He, Htot. split_and!; try done; [apply Hok..|lia|]. unfold kHeaderLength. lia.
Qed.

Lemma Parse_ok ds buf h : bytes_ok buf → length ds = 14%nat →
  packet_type_ h = kPacketType → count_or_format_ h = kFeedbackMessageType →
  0 ≤ payload_size_ h → (payload_ h + Z.to_nat (payload_size_ h) ≤ length buf)%nat →
  wp (Parse (new_feedback true ds) buf h) (λ '(ok, f), ok = true →
    ∃ sizes, sizes ≠ [] ∧ well_formed allowed f sizes).
Proof.
  intros Hb Hds Ety Efmt H0 Hp. unfold Parse. rewrite Ety, Efmt, !Z.eqb_refl. cbn [dcheck mbind option_bind].
  unfold kMinPayloadSizeBytes. destruct (Z.ltb_spec (payload_size_ h) (8 + 8 + 2)) as [|Hmin]; [done|].
  unfold ParseCommonFeedback.
  apply wp_bind, wp_bind. wp_call (apply ReadBigEndian32_safe; [done|lia]). intros sender _.
  apply wp_bind. wp_call (apply ReadBigEndian32_safe; [done|lia]). intros media _. apply wp_ret.
  apply wp_bind. wp_call (apply ReadBigEndian16_safe; [done|lia]). intros base Hbase.
  apply wp_bind. wp_call (apply ReadBigEndian16_safe; [done|lia]). intros status Hst. unfold uint16 in Hst.
  apply wp_bind. wp_call (apply ReadBigEndian24_safe; [done|lia]). intros ticks Ht.
  apply wp_bind, (wp_lookup_Forall uint8); [done|lia|]. intros fseq _ _.
  unfold Clear. cbn [base_time_ticks_]. rewrite BaseTime_spec by done. apply wp_bind, wp_bind, wp_ret, wp_ret.
  destruct (Z.eqb_spec status 0); [done|].
  cbn [encoded_chunks_ last_chunk_ new_feedback sender_ssrc media_ssrc base_seq_no_ feedback_seq_
       include_timestamps_].
  apply wp_bind. wp_call (apply parse_chunks_ok; [done|done|done|lia|lia|cbn; lia]).
  intros [[[[ok index] sizes] chunks] last] (Hl & Hi & H).
  cbn [with_chunks num_seq_no_ size_bytes_ encoded_chunks_ last_chunk_].
  destruct ok; cbn [negb].
  2: { cbn [base_time_ticks_]. rewrite BaseTime_spec by done.
       by apply wp_bind, wp_bind, wp_ret, wp_ret, wp_ret. }
  destruct (H eq_refl) as (ws & Hs & -> & Hu & -> & _ & Hmore).
  destruct (Hmore ltac:(cbn; lia)) as (Hok & Hpos & Hne & Hcont). cbn [app] in *.
  apply wp_bind, wp_dcheck; [by apply Z.eqb_eq|].
  wp_call (apply (parse_receive_deltas_ok _ sizes); [done|done| |lia]).
  { unfold symbols_parsed. cbn [with_chunks base_seq_no_ base_time_ticks_ num_seq_no_ encoded_chunks_ last_chunk_
      received_packets_ last_timestamp_ include_timestamps_].
    rewrite <- (length_removelast ws Hne). split_and!; try done; try lia; [|apply Hok..].
    by apply Forall_removelast. }
  intros [ok f] Hwf Eok. exists sizes. split; [by destruct sizes; cbn in Hs; [lia|]|by apply Hwf].
Qed.

Lemma ParseFrom_ok ds buf size : bytes_ok buf → (size ≤ length buf)%nat → length ds = 14%nat →
  wp (ParseFrom ds buf size) (λ r, ∀ f, r = Some f → ∃ sizes, sizes ≠ [] ∧ well_formed allowed f sizes).
Proof.
  intros Hb Hs Hds. unfold ParseFrom. apply wp_bind. wp_call (by apply ParseHeader_ok).
  intros [h|] Hh; [|done]. destruct (Hh h eq_refl) as (_ & _ & H0 & H1 & H2 & H3).
  destruct (negb (packet_type_ h =? kPacketType) || _) eqn:Ec; [done|].
  apply orb_false_iff in Ec as [E1%negb_false_iff%Z.eqb_eq E2%negb_false_iff%Z.eqb_eq].
  apply wp_bind. wp_call (apply Parse_ok; [done|done|done|done|done|lia]).
  intros [ok f] H. apply wp_ret. intros f' E. destruct ok; [|done]. injection E as <-. by apply H.
Qed.

(** ** Theorems *)

(** [Create] and then [ParseFrom] on the bytes it wrote. *)
Definition over_the_wire (ds : list Z) (f : TransportFeedback) (buf : list Z) (p max_length : nat)
  : option (option TransportFeedback) :=
  '(ok, buf, p', _) ← Create f buf p max_length true;
  _ ← dcheck ok;
  ParseFrom ds (take (p' - p) (drop p buf)) (p' - p).

Lemma over_the_wire_spec ds f sizes buf p max_length :
  length ds = 14%nat → built f sizes → sizes ≠ [] → sendable f →
  (p + length (message f) ≤ max_length ≤ length buf)%nat →
  ∃ f', over_the_wire ds f buf p max_length = Some (Some f') ∧ same_content f f' ∧
    well_formed chosen f' sizes.
Proof.
  intros Hds Hb Hne Hs Hp. unfold over_the_wire.
  assert (Hn : num_seq_no_ f ≠ 0).
  { destruct Hb as (_ & _ & (_ & _ & _ & -> & _) & _). destruct sizes; [done|cbn; lia]. }
  rewrite (Create_spec f sizes) by (done || lia). rewrite (proj2 (Nat.leb_le _ _)) by lia.
  cbn [mbind option_bind dcheck]. replace (p + length (message f) - p)%nat with (length (message f)) by lia.
  rewrite put_end by lia. by apply ParseFrom_message.
Qed.

(** A message built by a receiver, with a packet to report. *)
Definition reportable (f : TransportFeedback) : Prop :=
  (∃ sizes, built f sizes) ∧ num_seq_no_ f ≠ 0 ∧ sendable f.

Lemma reportable_sizes f sizes : built f sizes → num_seq_no_ f ≠ 0 → sizes ≠ [].
Proof. intros (_ & _ & (_ & _ & _ & -> & _) & _) H ->. by apply H. Qed.

(** C4: Transport-wide feedback survives the wire. Any message built by [SetBase] and
    [AddReceivedPacket] that describes a packet, written at any position of a buffer
    with room for it, is accepted by the RTCP header parser and by [Parse] and comes
    back with the same senders, base sequence number, packet count, reference time,
    feedback number, timestamps flag, size and received packets with their exact
    deltas; the result passes the consistency check. *)
Theorem transport_roundtrip (ds : list Z) (f : TransportFeedback) (buf : list Z) (p max_length : nat) :
  length ds = 14%nat → reportable f → (p + length (message f) ≤ max_length ≤ length buf)%nat →
  ∃ f', over_the_wire ds f buf p max_length = Some (Some f') ∧ same_content f f' ∧
    IsConsistent ds f' = Some true.
Proof.
  intros Hds ([sizes Hb] & Hn & Hs) Hp.
  destruct (over_the_wire_spec ds f sizes buf p max_length) as (f' & E & Hc & Hw); try done.
  { by apply (reportable_sizes f). }
  exists f'. split; [done|]. split; [done|]. by apply (IsConsistent_true f' sizes), well_formed_allowed.
Qed.

Definition example_built : TransportFeedback :=
  mkTf 0 0 65530 9 78 0 true 1073746926000
    [mkReceived 65531 36; mkReceived 65533 (-44); mkReceived 2 448] [50304]
    (mkChunk [0; 2; 0; 0; 0; 0; 0; 0; 0; 0; 0; 0; 0; 0] 2 false true) 29.

Lemma example_reportable : reportable example_built.
Proof.
  split; [|split; [done|unfold sendable, uint32, uint8; cbn; lia]].
  assert (H : wp (session true (replicate 14 7) 65530 5000000
    [(65531, 5001000); (65533, 4990000); (2, 5101900)]) (λ '(f, _), ∃ sizes, built f sizes)).
  { wp_call (apply session_spec; [done|unfold uint16; lia|unfold time_in_range; lia|]).
    - repeat (apply Forall_cons_2; [unfold packet_ok, uint16, time_in_range; cbn; lia|]). apply Forall_nil_2.
    - by intros [f accepted] (_ & _ & ?). }
  exact H.
Qed.

Lemma transport_roundtrip_witness :
  ∃ f', over_the_wire (replicate 14 7) example_built (replicate 50 0) 6 50 = Some (Some f') ∧
    same_content example_built f' ∧ IsConsistent (replicate 14 7) f' = Some true.
Proof.
  apply (transport_roundtrip (replicate 14 7) example_built (replicate 50 0) 6 50);
    [done|apply example_reportable|by vm_compute; lia].
Defined.

(** What an accepted message satisfies. *)
Definition accepted_ok (ds : list Z) (f : TransportFeedback) : Prop :=
  IsConsistent ds f = Some true ∧ 0 < num_seq_no_ f ≤ 65535.

(** C28: Parsing arbitrary bytes as transport-wide feedback is safe: [ParseFrom]
    terminates within its fuel without reading outside the packet and without a failed
    check, and whatever it accepts describes at least one packet and passes the
    consistency check. *)
Theorem transport_parse_safe (ds buf : list Z) (size : nat) :
  bytes_ok buf → (size ≤ length buf)%nat → length ds = 14%nat →
  wp (ParseFrom ds buf size) (λ r, ∀ f, r = Some f → accepted_ok ds f).
Proof.
  intros Hb Hs Hds. wp_call (by apply ParseFrom_ok). intros r H f E.
  destruct (H f E) as (sizes & Hne & Hw). split; [by apply (IsConsistent_true f sizes)|].
  destruct Hw as (_ & _ & Hn & Hm & _). destruct sizes; [done|]. cbn in Hn. lia.
Qed.

(** A message whose two symbols take two bytes for the delta 5. *)
Definition overlong : list Z :=
  [0xAF; 205; 0; 6; 0; 0; 0; 1; 0; 0; 0; 2; 0; 7; 0; 2; 0; 0; 1; 3; 0x40; 2; 0; 5; 0; 5; 0; 2].

Lemma transport_parse_safe_witness :
  wp (ParseFrom (replicate 14 7) overlong 28) (λ r, ∀ f, r = Some f → accepted_ok (replicate 14 7) f).
Proof.
  apply (transport_parse_safe (replicate 14 7) overlong 28); [|done|done].
  repeat (apply Forall_cons_2; [unfold uint8; lia|]). apply Forall_nil_2.
Defined.

(** The message a session of the receiver leads to, parsed by the sender, if the
    session has a packet to report; and the packets the session accepted. *)
Definition received_message (ds ds' : list Z) (base ref_timestamp : Z) (packets : list (Z * Z))
    (buf : list Z) (p max_length : nat) : option (option TransportFeedback * list (Z * Z)) :=
  '(f, accepted) ← session true ds base ref_timestamp packets;
  if num_seq_no_ f =? 0 then Some (None, accepted)
  else
    r ← over_the_wire ds' f buf p max_length;
    f' ← r;
    Some (Some f', accepted).

(** The message of the session fits the room that is left in the buffer. *)
Definition session_fits (ds : list Z) (base ref_timestamp : Z) (packets : list (Z * Z)) (buf : list Z)
    (p max_length : nat) : Prop :=
  (max_length ≤ length buf)%nat ∧
  ∀ f accepted, session true ds base ref_timestamp packets = Some (f, accepted) →
    Z.of_nat p + BlockLength f ≤ Z.of_nat max_length.

(** The calls that report the receiver's packets to the sender. *)
Definition report (ds ds' : list Z) (base ref_timestamp : Z) (packets : list (Z * Z)) (buf : list Z)
    (p max_length : nat) : option (list (Z * Z) * list (Z * Z)) :=
  '(m, accepted) ← received_message ds ds' base ref_timestamp packets buf p max_length;
  match m with
  | None => Some ([], accepted)
  | Some f' => calls ← ForAllPackets f'; Some (calls, accepted)
  end.

(** The reported time of a packet is its time within half a tick, modulo the wrap
    period of the reference time. *)
Definition tells (ticks : Z) (call packet : Z * Z) : Prop :=
  call.1 = packet.1 ∧
  ∃ k, -125 ≤ base_time ticks + call.2 - packet.2 - k * kTimeWrapPeriod ≤ 125.

Definition reports (ref_timestamp : Z) : Z * Z → Z * Z → Prop :=
  tells (ref_timestamp mod kTimeWrapPeriod / kBaseTimeTick).

(** A message that was built reaches the sender, who is told what it recorded. *)
Lemma built_delivered ds' f sizes accepted buf p max_length : length ds' = 14%nat → built f sizes →
  num_seq_no_ f ≠ 0 → sendable f → include_timestamps_ f = true → recorded f accepted →
  Z.of_nat p + BlockLength f ≤ Z.of_nat max_length → (max_length ≤ length buf)%nat →
  ∃ f' calls, over_the_wire ds' f buf p max_length = Some (Some f') ∧ same_content f f' ∧
    well_formed allowed f' sizes ∧ ForAllPackets f' = Some calls ∧
    Forall2 (tells (base_time_ticks_ f)) (filter arrived calls) accepted ∧
    map fst calls = map (λ i, u16 (base_seq_no_ f + Z.of_nat i)) (seq 0 (length calls)).
Proof.
  intros Hds' Hbf Hn Hs Ei Hrec Hm Hbuf. specialize (Hrec Ei).
  destruct (length_message f sizes Hbf) as (Hl & Hw & _). destruct (built_bytes f sizes Hbf) as [_ Hsz].
  rewrite BlockLength_spec in Hm by lia.
  destruct (over_the_wire_spec ds' f sizes buf p max_length) as (f' & -> & Hc & Hwf); try done; try lia.
  { by apply (reportable_sizes f). }
  assert (Hsame := Hc). destruct Hc as (Hh & Hn' & Hre & _). unfold header in Hh. injection Hh as _ _ Eb' _ _ _.
  apply well_formed_allowed in Hwf. destruct (ForAllPackets_spec f' sizes Hwf) as (calls & Ec & Hc1 & Hc2).
  exists f', calls. split_and!; try done.
  - rewrite Hc2, Hre. apply Forall2_fmap_l. eapply Forall2_impl; [|exact Hrec].
    intros [q c] packet [H1 H2]. done.
  - assert (length calls = length sizes) as ->.
    { rewrite <- (length_map fst calls), Hc1, length_map, length_seq. done. }
    by rewrite Hc1, Eb'.
Qed.

Lemma received_spec ds ds' base ref_timestamp packets buf p max_length :
  length ds = 14%nat → length ds' = 14%nat → uint16 base → time_in_range ref_timestamp →
  Forall packet_ok packets → session_fits ds base ref_timestamp packets buf p max_length →
  wp (received_message ds ds' base ref_timestamp packets buf p max_length) (λ '(m, accepted),
    match m with
    | None => accepted = []
    | Some f' => ∃ f sizes calls, session true ds base ref_timestamp packets = Some (f, accepted) ∧
        same_content f f' ∧ well_formed allowed f' sizes ∧ base_seq_no_ f' = base ∧
        ForAllPackets f' = Some calls ∧ Forall2 (reports ref_timestamp) (filter arrived calls) accepted ∧
        map fst calls = map (λ i, u16 (base + Z.of_nat i)) (seq 0 (length calls))
    end).
Proof.
  intros Hds Hds' Hb Hr Hp [Hbuf Hm]. unfold received_message.
  pose proof (session_spec true ds base ref_timestamp packets Hds Hb Hr Hp) as Hses.
  apply wp_exists in Hses as ([f accepted] & E & Hh & Hrec & sizes & Hbf). specialize (Hm f accepted E).
  rewrite E. cbn [mbind option_bind]. unfold header in Hh. injection Hh as Hs1 Hs2 Eb Et Ef Ei.
  destruct (Z.eqb_spec (num_seq_no_ f) 0) as [E0|Hn].
  { apply wp_ret. specialize (Hrec Ei). destruct Hbf as (_ & _ & (_ & _ & _ & Hn & _) & Hmt & _).
    destruct sizes; [|cbn in Hn; lia]. cbn in Hmt. rewrite Hmt in Hrec. by apply Forall2_nil_inv_l in Hrec as ->. }
  destruct (built_delivered ds' f sizes accepted buf p max_length) as (f' & calls & -> & Hsame & Hwf & Ec & Ht & Hnum);
    try done; [unfold sendable, uint32, uint8; lia|].
  cbn [mbind option_bind]. apply wp_ret. exists f, sizes, calls. rewrite Eb, ?Et in *.
  destruct Hsame as (Hh & Hsame). assert (Hh' := Hh). unfold header in Hh'. injection Hh' as _ _ Eb' _ _ _.
  split_and!; try done. by rewrite Eb'.
Qed.

(** The sender learns what the receiver saw. For any packets with any times, if the
    message fits the buffer, the packets the message accepted are, in order, exactly those that [ForAllPackets] on
    the parsed message reports as arrived, each with its sequence number and, relative
    to the reference time, its arrival time within 125 microseconds (modulo the wrap
    period of some 12 days); the calls run over consecutive sequence numbers from the
    base, the others as lost. *)
Theorem transport_end_to_end (ds ds' : list Z) (base ref_timestamp : Z) (packets : list (Z * Z))
    (buf : list Z) (p max_length : nat) :
  length ds = 14%nat → length ds' = 14%nat → uint16 base → time_in_range ref_timestamp →
  Forall packet_ok packets → session_fits ds base ref_timestamp packets buf p max_length →
  wp (report ds ds' base ref_timestamp packets buf p max_length) (λ '(calls, accepted),
    Forall2 (reports ref_timestamp) (filter arrived calls) accepted ∧
    map fst calls = map (λ i, u16 (base + Z.of_nat i)) (seq 0 (length calls))).
Proof.
  intros Hds Hds' Hb Hr Hp Hm. unfold report. apply wp_bind. wp_call (by apply received_spec).
  intros [[f'|] accepted]; [|by intros ->]. by intros (f & sizes & calls & _ & _ & _ & _ & -> & H1 & H2).
Qed.

Lemma transport_end_to_end_witness :
  wp (report (replicate 14 7) (replicate 14 9) 65530 5000000 example_packets
        (replicate 48 0) 3 48) (λ '(calls, accepted),
    Forall2 (reports 5000000) (filter arrived calls) accepted ∧
    map fst calls = map (λ i, u16 (65530 + Z.of_nat i)) (seq 0 (length calls))).
Proof.
  apply (transport_end_to_end (replicate 14 7) (replicate 14 9) 65530 5000000 example_packets
    (replicate 48 0) 3 48);
    [done|done|unfold uint16; lia|unfold time_in_range; lia| |].
  - repeat (apply Forall_cons_2; [unfold packet_ok, uint16, time_in_range; cbn; lia|]). apply Forall_nil_2.
  - split; [by rewrite length_replicate|]. intros f accepted E. vm_compute in E. injection E as <- _. by vm_compute.
Defined.

Definition overlong_parsed : TransportFeedback :=
  Eval vm_compute in match ParseFrom (replicate 14 7) overlong 28 with
                     | Some (Some f) => f
                     | _ => new_feedback true (replicate 14 7)
                     end.

(** A message that was parsed cannot always be written again: the parser accepts a
    delta that fits one byte in the two-byte form, and such a message passes the
    consistency check, but [Create] then writes the delta in one byte and fails its
    own check that the message ends where its length says. *)
Theorem overlong_delta_rewrite :
  ∃ f, ParseFrom (replicate 14 7) overlong 28 = Some (Some f) ∧
    IsConsistent (replicate 14 7) f = Some true ∧
    ∀ buf, length buf = 28%nat → Create f buf 0 28 true = None.
Proof.
  exists overlong_parsed. split; [reflexivity|]. split; [reflexivity|]. intros buf Hb.
  do 28 (destruct buf as [|? buf]; [discriminate Hb|]). destruct buf; [|discriminate Hb].
  vm_compute. reflexivity.
Qed.

End TransportCodec.
