(* ===== verification/WideGenerator.v ===== *)
(** * The generator of transport-wide feedback
    (modules/remote_bitrate_estimator/transport_sequence_number_feedback_generator.cc, .h)

    The receiver's side of transport-wide feedback: the arrival times of the packets
    are kept in the map of ArrivalMap.v; at intervals, or when a packet asks for it,
    the generator builds messages from the map and sends them. *)

From stdpp Require Import list.
From S2P Require Import Prelude SeqNum Units Rtcp ArrivalMap TransportChunk TransportFb TransportCodec.
Import SeqNum Units.

Module WideGenerator.

Definition kBackWindow : Z := 500000.
Definition kMinInterval : Z := 50000.
Definition kMaxInterval : Z := 250000.
Definition kDefaultInterval : Z := 100000.

Record FeedbackRequest := mkRequest {
  include_timestamps : bool;
  sequence_count : Z;
}.

(** What the generator reads of a packet: whether it has the header extensions, and
    what they are parsed to. *)
Record RtpPacketReceived := mkReceivedRtp {
  rtp_arrival_time : Z;
  rtp_ssrc : Z;
  has_v1 : bool;
  get_v1 : option Z;
  has_v2 : bool;
  get_v2 : option (Z * option FeedbackRequest);
}.

Record TransportSequenceNumberFeedbackGenenerator := mkGen {
  last_process_time_ : Z;
  media_ssrc_ : Z;
  feedback_packet_count_ : Z;
  unwrapper_ : SeqNumUnwrapper;
  periodic_window_start_seq_ : option Z;
  packet_arrival_times_ : ArrivalMap.PacketArrivalTimeMap;
  send_interval_ : Z;
  send_periodic_feedback_ : bool;
}.

Definition new_generator : TransportSequenceNumberFeedbackGenenerator :=
  mkGen MinusInfinity 0 0 new_unwrapper None ArrivalMap.new_map kDefaultInterval true.

(** std::optional compared with a value: nothing is smaller than every value. *)
Definition opt_ge (a : option Z) (b : Z) : bool := match a with Some a => b <=? a | None => false end.
Definition opt_lt (a : option Z) (b : Z) : bool := match a with Some a => a <? b | None => true end.

Definition SetMediaSsrc (f : TransportFb.TransportFeedback) (ssrc : Z) : TransportFb.TransportFeedback :=
  TransportFb.mkTf (TransportFb.sender_ssrc f) ssrc (TransportFb.base_seq_no_ f)
    (TransportFb.num_seq_no_ f) (TransportFb.base_time_ticks_ f) (TransportFb.feedback_seq_ f)
    (TransportFb.include_timestamps_ f) (TransportFb.last_timestamp_ f)
    (TransportFb.received_packets_ f) (TransportFb.encoded_chunks_ f) (TransportFb.last_chunk_ f)
    (TransportFb.size_bytes_ f).

Definition kMaxMissingSequenceNumbers : Z := 0x7FFE.

(** The message for the first packet, with the packet; [ds] is the uninitialised array
    of the new object. *)
Definition start_packet (ds : list Z) (include : bool) (media_ssrc count first seq time : Z)
  : option TransportFb.TransportFeedback :=
  let feedback_packet := SetMediaSsrc (TransportFb.new_feedback include ds) media_ssrc in
  let base_sequence_number := Z.max first (s64 (seq - kMaxMissingSequenceNumbers)) in
  feedback_packet ← TransportFb.SetBase feedback_packet (u16 base_sequence_number) time;
  let feedback_packet := TransportFb.SetFeedbackSequenceNumber feedback_packet count in
  '(ok, feedback_packet) ← TransportFb.AddReceivedPacket feedback_packet (u16 seq) time;
  _ ← dcheck ok;
  Some feedback_packet.

(** The loop over the sequence numbers: the message, if there is one, the next
    sequence number and the number of messages. *)
Fixpoint build_loop (fuel : nat) (ds : list Z) (map : ArrivalMap.PacketArrivalTimeMap) (include : bool)
    (media_ssrc first seq end_seq : Z) (feedback_packet : option TransportFb.TransportFeedback)
    (next count : Z) : option (option TransportFb.TransportFeedback * Z * Z) :=
  if seq <? end_seq then
    match fuel with
    | O => None
    | S fuel =>
        '(time, seq) ← ArrivalMap.FindNextAtOrAfter map seq;
        if end_seq <=? seq then Some (feedback_packet, next, count)
        else
          match feedback_packet with
          | None =>
              f ← start_packet ds include media_ssrc count first seq time;
              build_loop fuel ds map include media_ssrc first (s64 (seq + 1)) end_seq (Some f)
                (s64 (seq + 1)) (u8 (count + 1))
          | Some f =>
              '(ok, f) ← TransportFb.AddReceivedPacket f (u16 seq) time;
              if (ok : bool) then
                build_loop fuel ds map include media_ssrc first (s64 (seq + 1)) end_seq (Some f)
                  (s64 (seq + 1)) count
              else Some (Some f, next, count)
          end
    end
  else Some (feedback_packet, next, count).

Definition with_built (self : TransportSequenceNumberFeedbackGenenerator) (start : option Z) (count : Z)
  : TransportSequenceNumberFeedbackGenenerator :=
  mkGen (last_process_time_ self) (media_ssrc_ self) count (unwrapper_ self) start
    (packet_arrival_times_ self) (send_interval_ self) (send_periodic_feedback_ self).

(** Every pass of the loop advances the sequence number: as many passes as numbers. *)
Definition MaybeBuildFeedbackPacket (ds : list Z) (self : TransportSequenceNumberFeedbackGenenerator)
    (include : bool) (begin_sequence_number_inclusive end_sequence_number_exclusive : Z)
    (is_periodic_update : bool)
  : option (option TransportFb.TransportFeedback * TransportSequenceNumberFeedbackGenenerator) :=
  _ ← dcheck (begin_sequence_number_inclusive <? end_sequence_number_exclusive);
  let map := packet_arrival_times_ self in
  let start_seq := ArrivalMap.clamp map begin_sequence_number_inclusive in
  let end_seq := ArrivalMap.clamp map end_sequence_number_exclusive in
  '(feedback_packet, next, count) ←
    build_loop (Z.to_nat (end_seq - start_seq)) ds map include (media_ssrc_ self)
      begin_sequence_number_inclusive start_seq end_seq None begin_sequence_number_inclusive
      (feedback_packet_count_ self);
  Some (feedback_packet,
        with_built self (if is_periodic_update then Some next else periodic_window_start_seq_ self) count).

(** The messages sent, and the generator. *)
Fixpoint send_loop (fuel : nat) (ds : list Z) (self : TransportSequenceNumberFeedbackGenenerator)
    (end_seq : Z) : option (list TransportFb.TransportFeedback * TransportSequenceNumberFeedbackGenenerator) :=
  match periodic_window_start_seq_ self with
  | None => Some ([], self)
  | Some start =>
      if start <? end_seq then
        match fuel with
        | O => None
        | S fuel =>
            '(feedback_packet, self) ← MaybeBuildFeedbackPacket ds self true start end_seq true;
            match feedback_packet with
            | None => Some ([], self)
            | Some f =>
                '(packets, self) ← send_loop fuel ds self end_seq;
                Some (f :: packets, self)
            end
        end
      else Some ([], self)
  end.

(** Every message advances the window: as many messages as numbers, and one more pass. *)
Definition SendPeriodicFeedbacks (ds : list Z) (self : TransportSequenceNumberFeedbackGenenerator)
  : option (list TransportFb.TransportFeedback * TransportSequenceNumberFeedbackGenenerator) :=
  match periodic_window_start_seq_ self with
  | None => Some ([], self)
  | Some start =>
      let end_seq := ArrivalMap.end_sequence_number_ (packet_arrival_times_ self) in
      send_loop (S (Z.to_nat (end_seq - start))) ds self end_seq
  end.

Definition with_times (self : TransportSequenceNumberFeedbackGenenerator)
    (start : option Z) (times : ArrivalMap.PacketArrivalTimeMap)
  : TransportSequenceNumberFeedbackGenenerator :=
  mkGen (last_process_time_ self) (media_ssrc_ self) (feedback_packet_count_ self) (unwrapper_ self)
    start times (send_interval_ self) (send_periodic_feedback_ self).

Definition SendFeedbackOnRequest (ds : list Z) (self : TransportSequenceNumberFeedbackGenenerator)
    (sequence_number : Z) (feedback_request : FeedbackRequest)
  : option (list TransportFb.TransportFeedback * TransportSequenceNumberFeedbackGenenerator) :=
  if sequence_count feedback_request =? 0 then Some ([], self)
  else
    let first_sequence_number := s64 (s64 (sequence_number - sequence_count feedback_request) + 1) in
    '(feedback_packet, self) ← MaybeBuildFeedbackPacket ds self (include_timestamps feedback_request)
       first_sequence_number (s64 (sequence_number + 1)) false;
    match feedback_packet with
    | None => Some ([], self)
    | Some f =>
        times ← ArrivalMap.EraseTo (packet_arrival_times_ self) first_sequence_number;
        Some ([f], with_times self (periodic_window_start_seq_ self) times)
    end.

Definition MaybeCullOldPackets (self : TransportSequenceNumberFeedbackGenenerator)
    (sequence_number arrival_time : Z) : option ArrivalMap.PacketArrivalTimeMap :=
  let times := packet_arrival_times_ self in
  if opt_ge (periodic_window_start_seq_ self) (ArrivalMap.end_sequence_number_ times) then
    since_zero ← ts_diff arrival_time 0;
    if since_zero >=? kBackWindow then
      limit ← ts_sub arrival_time kBackWindow;
      ArrivalMap.RemoveOldPackets times sequence_number limit
    else Some times
  else Some times.

(** [GetExtension] for the two header extensions: the sequence number and the request. *)
Definition transport_number (packet : RtpPacketReceived) : option (Z * option FeedbackRequest) :=
  match get_v1 packet with
  | Some seqnum => Some (seqnum, None)
  | None => get_v2 packet
  end.

Definition OnReceivedPacket (ds : list Z) (self : TransportSequenceNumberFeedbackGenenerator)
    (packet : RtpPacketReceived)
  : option (list TransportFb.TransportFeedback * TransportSequenceNumberFeedbackGenenerator) :=
  let arrival_time := rtp_arrival_time packet in
  if IsInfinite arrival_time then Some ([], self)
  else
    match transport_number packet with
    | None => _ ← dcheck (has_v1 packet || has_v2 packet); Some ([], self)
    | Some (seqnum, feedback_request) =>
        let '(seq, unwrapper) := Unwrap 16 (unwrapper_ self) seqnum in
        let self := mkGen (last_process_time_ self) (rtp_ssrc packet) (feedback_packet_count_ self)
          unwrapper (periodic_window_start_seq_ self) (packet_arrival_times_ self) (send_interval_ self)
          (has_v1 packet) in
        self ← (if send_periodic_feedback_ self then
                  times ← MaybeCullOldPackets self seq arrival_time;
                  let start := periodic_window_start_seq_ self in
                  let start := match start with
                               | None => Some seq
                               | Some s => if seq <? s then Some seq else start
                               end in
                  Some (with_times self start times)
                else Some self);
        seen ← ArrivalMap.has_received (packet_arrival_times_ self) seq;
        if (seen : bool) then Some ([], self)
        else
          times ← ArrivalMap.AddPacket (packet_arrival_times_ self) seq arrival_time;
          let b := ArrivalMap.begin_sequence_number_ times in
          let self := with_times self
            (if opt_lt (periodic_window_start_seq_ self) b then Some b
             else periodic_window_start_seq_ self) times in
          match feedback_request with
          | Some request => SendFeedbackOnRequest ds self seq request
          | None => Some ([], self)
          end
    end.

(** The time to the next call, the messages and the generator. *)
Definition Process (ds : list Z) (self : TransportSequenceNumberFeedbackGenenerator) (now : Z)
  : option (Z * list TransportFb.TransportFeedback * TransportSequenceNumberFeedbackGenenerator) :=
  if negb (send_periodic_feedback_ self) then Some (PlusInfinity, [], self)
  else
    next_process_time ← ts_add (last_process_time_ self) (send_interval_ self);
    if next_process_time <=? now then
      let self := mkGen now (media_ssrc_ self) (feedback_packet_count_ self) (unwrapper_ self)
        (periodic_window_start_seq_ self) (packet_arrival_times_ self) (send_interval_ self)
        (send_periodic_feedback_ self) in
      '(packets, self) ← SendPeriodicFeedbacks ds self;
      Some (send_interval_ self, packets, self)
    else
      wait ← ts_diff next_process_time now;
      Some (wait, [], self).

(** The double nearest to 0.05. *)
Definition five_percent : float := Fl 7205759403792794 (-57).

Definition OnSendBandwidthEstimateChanged (self : TransportSequenceNumberFeedbackGenenerator)
    (estimate : Z) : option TransportSequenceNumberFeedbackGenenerator :=
  kTwccReportSize ← Bytes (20 + 8 + 10 + 30);
  kMinTwccRate ← size_div_time kTwccReportSize kMaxInterval;
  twcc_bitrate ← rate_scale estimate five_percent;
  send_interval ←
    (if twcc_bitrate <=? kMinTwccRate then Some kMaxInterval
     else d ← size_div_rate kTwccReportSize twcc_bitrate; Some (Z.max d kMinInterval));
  Some (mkGen (last_process_time_ self) (media_ssrc_ self) (feedback_packet_count_ self)
    (unwrapper_ self) (periodic_window_start_seq_ self) (packet_arrival_times_ self) send_interval
    (send_periodic_feedback_ self)).

(** ** Messages about packets of the map *)

(** The first number a message describes: the first one asked for, unless the first
    received packet is too far behind it. *)
Definition base_of (first : Z) (ps : list (Z * Z)) : Z :=
  match ps with
  | [] => first
  | (x, _) :: _ => Z.max first (x - kMaxMissingSequenceNumbers)
  end.

(** The message describes all numbers from its base up to [next], of which the packets
    [ps] were received at their times. *)
Record describes (include : bool) (ssrc count first : Z) (f : TransportFb.TransportFeedback)
    (ps : list (Z * Z)) (next : Z) : Prop := {
  d_sender : TransportFb.sender_ssrc f = 0;
  d_ssrc : TransportFb.media_ssrc f = ssrc;
  d_feedback_seq : TransportFb.feedback_seq_ f = count;
  d_built : ∃ sizes, TransportFb.built f sizes;
  d_include : TransportFb.include_timestamps_ f = include;
  d_base : TransportFb.base_seq_no_ f = u16 (base_of first ps);
  d_count : TransportFb.num_seq_no_ f = next - base_of first ps;
  d_last : ∃ t, ps !! pred (length ps) = Some (next - 1, t);
  d_numbers : map TransportFb.sequence_number (TransportFb.received_packets_ f) = map (λ p, u16 p.1) ps;
  d_times : TransportFb.recorded f (map (λ p, (u16 p.1, p.2)) ps);
}.

Lemma u16_sum a b : u16 (u16 a + b) = u16 (a + b).
Proof. unfold u16. apply Zplus_mod_idemp_l. Qed.

Lemma u16_diff a b : 0 ≤ a - b < 65536 → u16 (u16 a - u16 b) = a - b.
Proof. intros H. unfold u16. rewrite <- Zminus_mod. by rewrite Z.mod_small. Qed.

Lemma base_of_app first p ps qs : base_of first ((p :: ps) ++ qs) = base_of first (p :: ps).
Proof. done. Qed.

(** A number of up to 32767 ahead of the end of a message continues it. *)
Lemma continues_at f next x : TransportFb.next_seq_no f = u16 next → 0 ≤ x - next < 32767 →
  TransportFb.missing f (u16 x) = x - next ∧ TransportFb.continues f (u16 x) = true.
Proof.
  intros En Hx. unfold TransportFb.missing, TransportFb.continues. rewrite En. split; [apply u16_diff; lia|].
  destruct (Z.eq_dec x next) as [->|]; [by rewrite Z.eqb_refl|].
  assert (u16 (u16 next - 1) = u16 (next - 1)) as -> by (unfold u16; apply Zminus_mod_idemp_l).
  rewrite TransportFb.newer_by by lia. apply orb_true_r.
Qed.

(** The next received packet joins the message if its time fits. *)
Lemma add_packet include ssrc count first f x0 t0 ps next x t :
  describes include ssrc count first f ((x0, t0) :: ps) next → first ≤ x0 < next → next ≤ x → x - x0 ≤ 32767 →
  TransportFb.time_in_range t →
  ∃ f', TransportFb.AddReceivedPacket f (u16 x) t =
      Some (bool_decide (int16 (TransportFb.ticks_of f t)), f') ∧
    if bool_decide (int16 (TransportFb.ticks_of f t))
    then describes include ssrc count first f' (((x0, t0) :: ps) ++ [(x, t)]) (x + 1)
    else f' = f.
Proof.
  intros [Hsend Hssrc Hcount [sizes Hb] Hi Ebase Ecount [tl Hl] Hnum Hrec] Hx0 Hx Hd Ht.
  case_bool_decide as Hint.
  2: { exists f. split; [|done]. by apply (TransportFb.AddReceivedPacket_far f sizes). }
  pose proof (TransportFb.AddReceivedPacket_spec f sizes (u16 x) t Hb (u16_range _) Ht) as H.
  apply wp_exists in H as ([ok f'] & E & Hh & Eok & H).
  set (base := base_of first ((x0, t0) :: ps)) in *.
  assert (Hbase : x0 - 32766 ≤ base ≤ x0) by (unfold base, base_of, kMaxMissingSequenceNumbers; lia).
  assert (En : TransportFb.next_seq_no f = u16 next).
  { unfold TransportFb.next_seq_no. rewrite Ebase, Ecount, u16_sum. f_equal. lia. }
  destruct (continues_at f next x En ltac:(lia)) as [Em Ec].
  rewrite Em, Ec, Ecount, (bool_decide_eq_true_2 _ Hint), (proj2 (Z.ltb_lt _ _)) in Eok by lia.
  cbn [andb] in Eok. subst ok. exists f'. split; [done|]. destruct H as (Hb' & Hr' & _).
  assert (Hh' := Hh). unfold TransportFb.header in Hh'. injection Hh' as Esn' Es' Eb' Et' Ef' Ei'. split.
  - congruence.
  - congruence.
  - congruence.
  - by eexists.
  - congruence.
  - by rewrite base_of_app, Eb'.
  - rewrite base_of_app. fold base. destruct Hb' as (_ & _ & (_ & _ & _ & Hn' & _) & _).
    destruct Hb as (_ & _ & (_ & _ & _ & Hn & _) & _).
    rewrite Hn', !length_app, length_replicate. cbn [length]. rewrite Em. lia.
  - exists t. rewrite lookup_app_r by (rewrite length_app; cbn [length]; lia). rewrite length_app. cbn [length].
    replace (pred (S (length ps) + 1) - S (length ps))%nat with 0%nat by lia. cbn. do 2 f_equal. lia.
  - rewrite Hr', !map_app, Hnum. done.
  - rewrite map_app. by apply (TransportFb.recorded_snoc f f' sizes).
Qed.

Lemma SetMediaSsrc_built f sizes ssrc : TransportFb.built f sizes → TransportFb.built (SetMediaSsrc f ssrc) sizes.
Proof. done. Qed.

Lemma SetBase_SetMediaSsrc f base t f' ssrc : TransportFb.SetBase f base t = Some f' →
  TransportFb.SetBase (SetMediaSsrc f ssrc) base t = Some (SetMediaSsrc f' ssrc).
Proof.
  unfold TransportFb.SetBase. cbn [SetMediaSsrc TransportFb.num_seq_no_].
  destruct (dcheck _); [|done]. cbn [mbind option_bind]. destruct (ToValue t); [|done]. cbn [mbind option_bind].
  destruct (TransportFb.BaseTime _); [|done]. cbn [mbind option_bind]. by intros [= <-].
Qed.

(** A new message takes its first packet. *)
Lemma start_packet_ok ds include ssrc count first x t : length ds = 14%nat → first ≤ x →
  ArrivalMap.number_ok x → TransportFb.time_in_range t →
  ∃ f, start_packet ds include ssrc count first x t = Some f ∧
    describes include ssrc count first f [(x, t)] (x + 1).
Proof.
  intros Hds Hx Hok Ht. unfold start_packet, ArrivalMap.number_ok in *. rewrite s64_id by (unfold int64, kMaxMissingSequenceNumbers; lia).
  set (base := Z.max first _). assert (Hbase : x - 32766 ≤ base ≤ x) by (unfold base, kMaxMissingSequenceNumbers; lia).
  assert (Ebase : base_of first [(x, t)] = base) by done. clearbody base.
  pose proof (TransportFb.SetBase_spec include ds (u16 base) t Hds (u16_range _) Ht) as H.
  apply wp_exists in H as (f0 & E0 & Hb0 & Hh0 & Hr0).
  assert (E1 := SetBase_SetMediaSsrc _ _ _ _ ssrc E0).
  rewrite E1. cbn [mbind option_bind]. set (f1 := TransportFb.SetFeedbackSequenceNumber _ _).
  assert (Hb1 : TransportFb.built f1 []) by exact Hb0.
  unfold TransportFb.header in Hh0. injection Hh0 as Esn _ Eb Et _ Ei.
  assert (Hint : int16 (TransportFb.ticks_of f1 t)).
  { unfold TransportFb.ticks_of. change (TransportFb.include_timestamps_ f1) with (TransportFb.include_timestamps_ f0).
    destruct (TransportFb.include_timestamps_ f0); [|unfold int16; lia].
    change (TransportFb.last_timestamp_ f1) with (TransportFb.last_timestamp_ f0).
    destruct Hb0 as (_ & _ & _ & _ & -> & _). rewrite Hr0. change (TransportFb.total_ticks []) with 0.
    rewrite Z.mul_0_r, Z.add_0_r, Et. unfold TransportFb.time_in_range in Ht.
    pose proof (TransportFb.first_ticks t ltac:(lia)). unfold int16. lia. }
  pose proof (TransportFb.AddReceivedPacket_spec f1 [] (u16 x) t Hb1 (u16_range _) Ht) as H.
  apply wp_exists in H as ([ok f] & E & Hh & Eok & H). rewrite E. cbn [mbind option_bind].
  assert (En : TransportFb.next_seq_no f1 = u16 base).
  { unfold TransportFb.next_seq_no. change (TransportFb.base_seq_no_ f1) with (TransportFb.base_seq_no_ f0).
    destruct Hb1 as (_ & _ & (_ & _ & _ & -> & _) & _). cbn [length]. rewrite Eb, u16_sum. f_equal. lia. }
  assert (Ecnt : TransportFb.num_seq_no_ f1 = 0) by (destruct Hb1 as (_ & _ & (_ & _ & _ & -> & _) & _); done).
  destruct (continues_at f1 base x En ltac:(lia)) as [Em Ec].
  rewrite Em, Ec, Ecnt, (bool_decide_eq_true_2 _ Hint), (proj2 (Z.ltb_lt _ _)) in Eok by lia.
  cbn [andb] in Eok. subst ok. cbn [dcheck mbind option_bind]. exists f. split; [done|].
  destruct H as (Hb' & Hr' & _). assert (Hh' := Hh). unfold TransportFb.header in Hh'.
  injection Hh' as Esn' Es Eb' Et' Ef' Ei'.
  change (TransportFb.received_packets_ f1) with (TransportFb.received_packets_ f0) in Hr'. rewrite Hr0 in Hr'.
  split.
  - by rewrite Esn'.
  - by rewrite Es.
  - by rewrite Ef'.
  - by eexists.
  - rewrite Ei'. exact Ei.
  - rewrite Ebase, Eb'. exact Eb.
  - rewrite Ebase. destruct Hb' as (_ & _ & (_ & _ & _ & -> & _) & _).
    rewrite !length_app, length_replicate, Em. cbn [length]. lia.
  - exists t. cbn. do 2 f_equal. lia.
  - by rewrite Hr'.
  - apply (TransportFb.recorded_snoc f1 f [] [] (u16 x) t Hb1).
    + unfold TransportFb.recorded. change (TransportFb.received_packets_ f1) with (TransportFb.received_packets_ f0).
      rewrite Hr0. intros _. apply Forall2_nil.
    + exact Hh.
    + change (TransportFb.received_packets_ f1) with (TransportFb.received_packets_ f0). by rewrite Hr0.
Qed.

(** ** Building a message *)

Definition times_ok (v : ArrivalMap.view) : Prop :=
  ∀ x t, ArrivalMap.received_at v x = Some t → TransportFb.time_in_range t.

Record map_ok (m : ArrivalMap.PacketArrivalTimeMap) (v : ArrivalMap.view) : Prop := {
  m_rep : ArrivalMap.represents m v;
  m_view : ArrivalMap.view_ok v;
  m_live : ArrivalMap.live v;
  m_times : times_ok v;
  m_first : ArrivalMap.number_ok (ArrivalMap.first_number v);
  m_end : ArrivalMap.number_ok (ArrivalMap.end_number v);
}.

(** The search for the next packet, in a range that ends at [last]. *)
Lemma next_in_range m v s last : map_ok m v → ArrivalMap.first_number v ≤ s → s < last →
  last ≤ ArrivalMap.end_number v →
  ∃ t j, ArrivalMap.FindNextAtOrAfter m s = Some (t, j) ∧
    match ArrivalMap.received_in v s last with
    | [] => last ≤ j
    | (x, u) :: rest => x = j ∧ u = t ∧ s ≤ j < last ∧ TransportFb.time_in_range t ∧
        rest = ArrivalMap.received_in v (j + 1) last
    end.
Proof.
  intros [Hrep Hv Hl Ht _ _] Hs Hlt Hle.
  destruct (ArrivalMap.live_end v s Hl ltac:(lia) Hs) as [tl Htl].
  destruct (ArrivalMap.received_in v s (ArrivalMap.end_number v)) as [|[j t] rest] eqn:E.
  { rewrite (ArrivalMap.received_list_nil v s _ E) in Htl by lia. done. }
  apply ArrivalMap.received_list_cons in E as (Hj & Hr & Hn & _).
  exists t, j. split; [apply (ArrivalMap.FindNextAtOrAfter_ok m v); done || lia|].
  destruct (ArrivalMap.received_in v s last) as [|[x u] rest'] eqn:E'.
  - destruct (Z.le_gt_cases last j); [done|].
    rewrite (ArrivalMap.received_list_nil v s _ E') in Hr by lia. done.
  - apply ArrivalMap.received_list_cons in E' as (Hx & Hrx & Hnx & ->).
    assert (x = j) as ->.
    { destruct (Z.lt_trichotomy x j) as [H|[H|H]]; [|done|].
      - rewrite Hn in Hrx by lia. done.
      - rewrite Hnx in Hr by lia. done. }
    assert (u = t) as -> by congruence. split; [done|]. split; [done|]. split; [lia|].
    split; [by apply (Ht j)|]. unfold ArrivalMap.received_in. f_equal. lia.
Qed.

Lemma received_in_empty v s last : last ≤ s → ArrivalMap.received_in v s last = [].
Proof. intros H. unfold ArrivalMap.received_in. by replace (Z.to_nat (last - s)) with 0%nat by lia. Qed.

(** Why the message ends before the packets [rest]: there are none left, or the time of
    the next one does not fit. *)
Definition ends_before (f : TransportFb.TransportFeedback) (rest : list (Z * Z)) : Prop :=
  match rest with
  | [] => True
  | (_, t) :: _ => ¬ int16 (TransportFb.ticks_of f t)
  end.

(** The loop from the second packet on. *)
Lemma build_more ds m v include ssrc n first last count : map_ok m v → last ≤ ArrivalMap.end_number v →
  ∀ fuel s f x0 t0 ps next, describes include ssrc n first f ((x0, t0) :: ps) next →
  first ≤ x0 → ArrivalMap.first_number v ≤ x0 < next → next ≤ s → last - s ≤ Z.of_nat fuel →
  ∃ f' P Q next', build_loop fuel ds m include ssrc first s last (Some f) next count =
      Some (Some f', next', count) ∧
    ArrivalMap.received_in v s last = P ++ Q ∧ describes include ssrc n first f' (((x0, t0) :: ps) ++ P) next' ∧
    ends_before f' Q.
Proof.
  intros Hmap Hle. pose proof (ArrivalMap.represents_size m v (m_rep _ _ Hmap)) as Hsize.
  pose proof (m_end _ _ Hmap) as He. pose proof (m_first _ _ Hmap) as Hf. unfold ArrivalMap.number_ok in *.
  induction fuel as [|fuel IH]; intros s f x0 t0 ps next Hd Hfx Hx0 Hs Hfuel; cbn [build_loop].
  { rewrite (proj2 (Z.ltb_ge s last)), received_in_empty by lia.
    exists f, [], [], next. rewrite (app_nil_r (_ :: _)). by split_and!. }
  destruct (Z.ltb_spec s last) as [Hlt|Hge].
  2: { rewrite received_in_empty by lia. exists f, [], [], next. rewrite (app_nil_r (_ :: _)). by split_and!. }
  destruct (next_in_range m v s last Hmap ltac:(lia) Hlt Hle) as (t & j & -> & H). cbn [mbind option_bind].
  destruct (ArrivalMap.received_in v s last) as [|[x u] rest].
  { rewrite (proj2 (Z.leb_le _ _)) by done. exists f, [], [], next. rewrite (app_nil_r (_ :: _)). by split_and!. }
  destruct H as (-> & -> & Hj & Ht & ->). rewrite (proj2 (Z.leb_gt _ _)) by lia.
  destruct (add_packet include ssrc n first f x0 t0 ps next j t) as (f1 & -> & H1); [done|lia|lia|lia|done|].
  cbn [mbind option_bind]. case_bool_decide as Hint.
  - rewrite s64_id by (unfold int64; lia).
    destruct (IH (j + 1) f1 x0 t0 (ps ++ [(j, t)]) (j + 1)) as (f' & P & Q & next' & E & ER & Hd' & Hq);
      [exact H1|done|lia|lia|lia|].
    rewrite E. exists f', ((j, t) :: P), Q, next'. split; [done|]. split; [by rewrite ER|].
    split; [|done]. rewrite <- app_comm_cons, <- app_assoc in Hd'. exact Hd'.
  - subst f1. exists f, [], ((j, t) :: ArrivalMap.received_in v (j + 1) last), next. rewrite (app_nil_r (_ :: _)). by split_and!.
Qed.

(** What the loop builds: nothing if no packet was received, else a message about the
    first packets, as many as fit. *)
Lemma build_ok ds m v include ssrc first s last count : map_ok m v → length ds = 14%nat →
  ArrivalMap.first_number v ≤ s → first ≤ s → last ≤ ArrivalMap.end_number v →
  match ArrivalMap.received_in v s last with
  | [] => build_loop (Z.to_nat (last - s)) ds m include ssrc first s last None first count =
            Some (None, first, count)
  | _ => ∃ f P Q next, build_loop (Z.to_nat (last - s)) ds m include ssrc first s last None first count =
             Some (Some f, next, u8 (count + 1)) ∧
           ArrivalMap.received_in v s last = P ++ Q ∧ P ≠ [] ∧ describes include ssrc count first f P next ∧
           ends_before f Q
  end.
Proof.
  intros Hmap Hds Hfs Hfirst Hle.
  pose proof (m_end _ _ Hmap) as He. pose proof (m_first _ _ Hmap) as Hf. unfold ArrivalMap.number_ok in *.
  destruct (Z.lt_ge_cases s last) as [Hlt|Hge].
  2: { rewrite received_in_empty by lia. replace (Z.to_nat (last - s)) with 0%nat by lia. cbn [build_loop].
       by rewrite (proj2 (Z.ltb_ge s last)) by lia. }
  destruct (Z.to_nat (last - s)) as [|fuel] eqn:Ef; [lia|]. cbn [build_loop].
  rewrite (proj2 (Z.ltb_lt s last)) by lia.
  destruct (next_in_range m v s last Hmap Hfs Hlt Hle) as (t & j & -> & H). cbn [mbind option_bind].
  destruct (ArrivalMap.received_in v s last) as [|[x u] rest].
  { by rewrite (proj2 (Z.leb_le _ _)) by done. }
  destruct H as (-> & -> & Hj & Ht & ->). rewrite (proj2 (Z.leb_gt _ _)) by lia.
  destruct (start_packet_ok ds include ssrc count first j t) as (f & -> & Hd);
    [done|lia|unfold ArrivalMap.number_ok; lia|done|]. cbn [mbind option_bind].
  rewrite s64_id by (unfold int64; lia).
  destruct (build_more ds m v include ssrc count first last (u8 (count + 1)) Hmap Hle fuel (j + 1) f j t [] (j + 1))
    as (f' & P & Q & next' & E & ER & Hd' & Hq); [done|lia|lia|lia|lia|].
  exists f', ((j, t) :: P), Q, next'. split; [exact E|]. split; [by rewrite ER|]. done.
Qed.

(** [MaybeBuildFeedbackPacket] for a range of numbers. *)
Lemma MaybeBuild_ok ds g v include first last periodic : map_ok (packet_arrival_times_ g) v →
  length ds = 14%nat → first < last →
  wp (MaybeBuildFeedbackPacket ds g include first last periodic) (λ '(r, g'),
    match r with
    | None => ArrivalMap.received_in v first last = [] ∧
        g' = with_built g (if periodic then Some first else periodic_window_start_seq_ g)
               (feedback_packet_count_ g)
    | Some f => ∃ P Q next, ArrivalMap.received_in v first last = P ++ Q ∧ P ≠ [] ∧
        describes include (media_ssrc_ g) (feedback_packet_count_ g) first f P next ∧ ends_before f Q ∧
        g' = with_built g (if periodic then Some next else periodic_window_start_seq_ g)
               (u8 (feedback_packet_count_ g + 1))
    end).
Proof.
  intros Hmap Hds Hlt. unfold MaybeBuildFeedbackPacket. rewrite (proj2 (Z.ltb_lt first last)) by done.
  apply wp_bind, wp_ret. cbv zeta. assert (Hm := m_rep _ _ Hmap).
  rewrite (ArrivalMap.received_in_clamp (packet_arrival_times_ g) v first last) by done.
  destruct (ArrivalMap.represents_range _ _ Hm) as [Eb Ee].
  set (s0 := ArrivalMap.clamp _ first). set (e0 := ArrivalMap.clamp _ last).
  assert (Hbe : ArrivalMap.first_number v ≤ ArrivalMap.end_number v) by (destruct v as [[b l]|]; cbn; lia).
  assert (Hs0 : ArrivalMap.first_number v ≤ s0 ∧ (first ≤ s0 ∨ e0 ≤ s0) ∧ e0 ≤ ArrivalMap.end_number v).
  { unfold s0, e0, ArrivalMap.clamp. rewrite Eb, Ee.
    repeat match goal with |- context [?a <? ?b] => destruct (Z.ltb_spec a b) end; lia. }
  clearbody s0 e0. destruct Hs0 as (H1 & H2 & H3). destruct (Z.le_gt_cases e0 s0) as [Hempty|Hsome].
  { rewrite received_in_empty by lia. replace (Z.to_nat (e0 - s0)) with 0%nat by lia. cbn [build_loop].
    rewrite (proj2 (Z.ltb_ge s0 e0)) by lia. apply wp_bind, wp_ret, wp_ret. done. }
  pose proof (build_ok ds (packet_arrival_times_ g) v include (media_ssrc_ g) first s0 e0
    (feedback_packet_count_ g) Hmap Hds H1 ltac:(lia) H3) as H.
  destruct (ArrivalMap.received_in v s0 e0) as [|p rest].
  - rewrite H. apply wp_bind, wp_ret, wp_ret. done.
  - destruct H as (f & P & Q & next & -> & ER & HP & Hd & Hq). apply wp_bind, wp_ret, wp_ret.
    by exists P, Q, next.
Qed.

(** ** Periodic feedback *)

(** The messages [fs] report the packets [ps] from the number [w] on, one after the other and
    with consecutive feedback numbers; the next message starts at [w']. *)
Inductive reports (ssrc : Z) : Z → Z → list (Z * Z) → list TransportFb.TransportFeedback → Z → Prop :=
  | reports_nil count w : reports ssrc count w [] [] w
  | reports_cons count w f P next ps fs w' :
      describes true ssrc count w f P next → reports ssrc (u8 (count + 1)) next ps fs w' →
      reports ssrc count w (P ++ ps) (f :: fs) w'.

Lemma send_loop_ok ds e v : length ds = 14%nat → v ≠ None → ArrivalMap.end_number v = e →
  ∀ fuel g w, map_ok (packet_arrival_times_ g) v → periodic_window_start_seq_ g = Some w →
  w ≤ e → uint8 (feedback_packet_count_ g) → e - w < Z.of_nat fuel →
  ∃ fs, send_loop fuel ds g e =
      Some (fs, with_built g (Some e) (u8 (feedback_packet_count_ g + Z.of_nat (length fs)))) ∧
    reports (media_ssrc_ g) (feedback_packet_count_ g) w (ArrivalMap.received_in v w e) fs e.
Proof.
  intros Hds Hv He. induction fuel as [|fuel IH]; intros g w Hmap Hw Hle Hc Hf; [lia|]. cbn [send_loop].
  rewrite Hw. destruct (Z.ltb_spec w e) as [Hlt|Hge].
  2: { assert (w = e) as -> by lia. exists []. rewrite received_in_empty by lia. split; [|constructor].
       cbn [length]. rewrite Z.add_0_r. unfold u8, uint8 in *. rewrite Z.mod_small by lia. destruct g. cbn in Hw |- *. by subst. }
  pose proof (MaybeBuild_ok ds g v true w e true Hmap Hds Hlt) as H.
  apply wp_exists in H as ([r g'] & -> & H). cbn [mbind option_bind]. destruct r as [f|].
  - destruct H as (P & Q & next & ER & HP & Hd & _ & ->).
    destruct (d_last _ _ _ _ _ _ _ Hd) as [t Hl].
    destruct (ArrivalMap.received_in_rest v w e P Q (next - 1) t ER Hl) as [HQ Hn].
    replace (next - 1 + 1) with next in HQ by lia.
    destruct (IH (with_built g (Some next) (u8 (feedback_packet_count_ g + 1))) next) as (fs & E & Hr);
      [done|done|lia|apply u8_range|lia|].
    rewrite E. exists (f :: fs). cbn [mbind option_bind with_built feedback_packet_count_ media_ssrc_] in *.
    split.
    + do 2 f_equal. unfold with_built. cbn. f_equal. unfold u8. rewrite Zplus_mod_idemp_l. f_equal. lia.
    + rewrite ER. rewrite <- HQ in Hr. by apply (reports_cons _ _ _ f P next).
  - exfalso. destruct H as [E _]. destruct (ArrivalMap.live_last v (m_live _ _ Hmap) Hv) as [t Ht].
    rewrite (ArrivalMap.received_list_nil v w _ E) in Ht by lia. done.
Qed.

(** [SendPeriodicFeedbacks]: all packets from the start of the window on are reported. *)
Lemma SendPeriodicFeedbacks_ok ds g v w : length ds = 14%nat → v ≠ None → map_ok (packet_arrival_times_ g) v →
  periodic_window_start_seq_ g = Some w → w ≤ ArrivalMap.end_number v → uint8 (feedback_packet_count_ g) →
  ∃ fs, SendPeriodicFeedbacks ds g =
      Some (fs, with_built g (Some (ArrivalMap.end_number v))
                  (u8 (feedback_packet_count_ g + Z.of_nat (length fs)))) ∧
    reports (media_ssrc_ g) (feedback_packet_count_ g) w
      (ArrivalMap.received_in v w (ArrivalMap.end_number v)) fs (ArrivalMap.end_number v).
Proof.
  intros Hds Hv Hmap Hw Hle Hc. unfold SendPeriodicFeedbacks. rewrite Hw.
  destruct (ArrivalMap.represents_range _ _ (m_rep _ _ Hmap)) as [_ ->].
  apply send_loop_ok; done || lia.
Qed.

(** ** The invariant of the generator *)

(** [B] bounds the unwrapped sequence numbers. *)
Record gen_ok (B : Z) (g : TransportSequenceNumberFeedbackGenenerator) (v : ArrivalMap.view) : Prop := {
  g_map : map_ok (packet_arrival_times_ g) v;
  g_unwrapper : consistent 16 (unwrapper_ g);
  g_last : -B ≤ last_unwrapped_ (unwrapper_ g) ≤ B;
  g_first : -B ≤ ArrivalMap.first_number v;
  g_end : ArrivalMap.end_number v ≤ B + 1;
  g_window : match periodic_window_start_seq_ g with
             | Some w => w ≤ ArrivalMap.end_number v ∧ v ≠ None
             | None => v = None
             end;
  g_interval : kMinInterval ≤ send_interval_ g ≤ kMaxInterval;
  g_process : last_process_time_ g = MinusInfinity ∨ TransportFb.time_in_range (last_process_time_ g);
  g_count : uint8 (feedback_packet_count_ g);
  g_ssrc : uint32 (media_ssrc_ g);
}.

Lemma wide_new_generator_ok B : 0 ≤ B → gen_ok B new_generator None.
Proof.
  intros HB. split; cbn; unfold kMinInterval, kMaxInterval, kDefaultInterval, uint8, uint32; try done; try lia; by left.
Qed.

Lemma gen_ok_weaken B B' g v : gen_ok B g v → B ≤ B' → gen_ok B' g v.
Proof. intros [] HB. split; done || lia. Qed.

(** Packets that are still to be reported. *)
Definition pending (g : TransportSequenceNumberFeedbackGenenerator) (v : ArrivalMap.view) (x t : Z) : Prop :=
  ArrivalMap.received_at v x = Some t ∧ ∃ w, periodic_window_start_seq_ g = Some w ∧ w ≤ x.

(** What the header extensions of a packet can hold. *)
Record packet_ok (p : RtpPacketReceived) : Prop := {
  p_time : IsInfinite (rtp_arrival_time p) = true ∨ TransportFb.time_in_range (rtp_arrival_time p);
  p_number : ∀ n r, transport_number p = Some (n, r) → uint16 n;
  p_request : ∀ n r, transport_number p = Some (n, Some r) → 0 ≤ sequence_count r ≤ 32767;
  p_has : transport_number p = None → has_v1 p || has_v2 p = true;
  p_ssrc : uint32 (rtp_ssrc p);
}.

(** Culling happens when nothing is pending, and drops packets from the front. *)
Definition culled (g : TransportSequenceNumberFeedbackGenenerator) (v : ArrivalMap.view) (s : Z)
    (m' : ArrivalMap.PacketArrivalTimeMap) (v' : ArrivalMap.view) : Prop :=
  ArrivalMap.represents m' v' ∧ ArrivalMap.view_ok v' ∧
  ArrivalMap.live_for v' s ∧ ArrivalMap.end_number v' = ArrivalMap.end_number v ∧
  ArrivalMap.first_number v ≤ ArrivalMap.first_number v' ∧ (v' = None ↔ v = None) ∧
  (∀ x, ArrivalMap.received_at v' x =
     if x <? ArrivalMap.first_number v' then None else ArrivalMap.received_at v x) ∧
  (v' = v ∨ opt_ge (periodic_window_start_seq_ g) (ArrivalMap.end_number v) = true).

Lemma culled_same g v s : map_ok (packet_arrival_times_ g) v → culled g v s (packet_arrival_times_ g) v.
Proof.
  intros [Hrep Hv Hl _ _ _]. unfold culled. split_and!; try done; try (by left).
  intros x. destruct (Z.ltb_spec x (ArrivalMap.first_number v)); [|done].
  by rewrite ArrivalMap.received_at_outside by lia.
Qed.

Lemma cull_ok g v s t : map_ok (packet_arrival_times_ g) v → TransportFb.time_in_range t →
  ∃ m' v', MaybeCullOldPackets g s t = Some m' ∧ culled g v s m' v'.
Proof.
  intros Hmap Ht. pose proof (culled_same g v s Hmap) as Hsame.
  unfold MaybeCullOldPackets, TransportFb.time_in_range in *. destruct Hmap as [Hrep Hv Hl _ _ _].
  destruct (ArrivalMap.represents_range _ _ Hrep) as [_ Ee]. rewrite Ee.
  destruct (opt_ge _ _) eqn:E; [|by eauto].
  rewrite ts_diff_ok by (unfold finite, PlusInfinity, MinusInfinity; lia). cbn [mbind option_bind].
  rewrite Z.geb_leb. destruct (Z.leb_spec kBackWindow (t - 0)) as [Hb|]; [|by eauto]. unfold kBackWindow in *.
  rewrite ts_sub_ok by (unfold finite, PlusInfinity, MinusInfinity; lia). cbn [mbind option_bind].
  destruct (ArrivalMap.RemoveOldPackets_ok (packet_arrival_times_ g) v s (t - 500000) Hrep Hv) as (m' & E' & H1 & H2).
  destruct (ArrivalMap.spec_remove_spec v s (t - 500000) Hl) as (H3 & H4 & H5 & H6 & H7 & H8).
  exists m', (ArrivalMap.spec_remove v s (t - 500000)). split; [done|]. split_and!; try done. by right.
Qed.

(** The packet is entered into the map. *)
Lemma enter_ok m v s t : ArrivalMap.represents m v → ArrivalMap.view_ok v → ArrivalMap.live_for v s → times_ok v →
  TransportFb.time_in_range t → - 2 ^ 60 ≤ s ≤ 2 ^ 60 → - 2 ^ 60 ≤ ArrivalMap.first_number v →
  ArrivalMap.end_number v ≤ 2 ^ 60 →
  ∃ m', ArrivalMap.AddPacket m s t = Some m' ∧ map_ok m' (ArrivalMap.spec_add v s t) ∧
    Z.min (ArrivalMap.first_number v) s ≤ ArrivalMap.first_number (ArrivalMap.spec_add v s t) ∧
    ArrivalMap.end_number (ArrivalMap.spec_add v s t) ≤ Z.max (ArrivalMap.end_number v) (s + 1) ∧
    (v ≠ None → ArrivalMap.end_number v ≤ ArrivalMap.end_number (ArrivalMap.spec_add v s t)) ∧
    (ArrivalMap.first_number (ArrivalMap.spec_add v s t) ≤ s < ArrivalMap.end_number (ArrivalMap.spec_add v s t) ∨
     ArrivalMap.too_old v s = true).
Proof.
  intros Hrep Hv Hl Hts Ht Hs Hf He. unfold TransportFb.time_in_range in Ht.
  destruct (ArrivalMap.map_AddPacket_ok m v s t Hrep Hv) as (m' & E & H1 & H2); [unfold ArrivalMap.number_ok; lia|lia|].
  exists m'. split; [done|].
  assert (Hr : Z.min (ArrivalMap.first_number v) s ≤ ArrivalMap.first_number (ArrivalMap.spec_add v s t) ∧
    ArrivalMap.end_number (ArrivalMap.spec_add v s t) ≤ Z.max (ArrivalMap.end_number v) (s + 1) ∧
    (v ≠ None → ArrivalMap.end_number v ≤ ArrivalMap.end_number (ArrivalMap.spec_add v s t)) ∧
    (ArrivalMap.first_number (ArrivalMap.spec_add v s t) ≤ s < ArrivalMap.end_number (ArrivalMap.spec_add v s t) ∨
     ArrivalMap.too_old v s = true)).
  { destruct v as [[b l]|]; [|cbn; split_and!; try done; lia].
    destruct (ArrivalMap.spec_add_range (Some (b, l)) s t) as (? & ? & ?); [done|]. split_and!; try done; lia. }
  split; [|done]. destruct Hr as (R1 & R2 & _). split; try done.
  - apply ArrivalMap.spec_add_live; [lia|done].
  - intros x u Hx. rewrite ArrivalMap.spec_add_received in Hx by lia.
    destruct (ArrivalMap.too_old v s); [by apply (Hts x)|]. destruct (x =? s); [by injection Hx as <-|].
    destruct (x <? _); [done|]. by apply (Hts x).
  - unfold ArrivalMap.number_ok. assert (ArrivalMap.first_number (ArrivalMap.spec_add v s t) ≤
      ArrivalMap.end_number (ArrivalMap.spec_add v s t)) by (destruct (ArrivalMap.spec_add v s t) as [[b l]|]; cbn; lia). lia.
  - unfold ArrivalMap.number_ok. assert (ArrivalMap.first_number (ArrivalMap.spec_add v s t) ≤
      ArrivalMap.end_number (ArrivalMap.spec_add v s t)) by (destruct (ArrivalMap.spec_add v s t) as [[b l]|]; cbn; lia). lia.
Qed.

(** ** Feedback on request *)

(** The packets that were received among those asked for are reported, as many as fit, and the
    packets before are forgotten. *)
Lemma SendFeedbackOnRequest_ok ds B g v s r : length ds = 14%nat → gen_ok B g v → B ≤ 2 ^ 60 → -B ≤ s ≤ B →
  0 ≤ sequence_count r ≤ 32767 →
  let first := s - sequence_count r + 1 in
  ∃ fs g' v', SendFeedbackOnRequest ds g s r = Some (fs, g') ∧ gen_ok B g' v' ∧
    periodic_window_start_seq_ g' = periodic_window_start_seq_ g ∧
    match fs with
    | [] => v' = v ∧ ArrivalMap.received_in v first (s + 1) = []
    | f :: fs => fs = [] ∧ (∀ x, ArrivalMap.received_at v' x =
          if x <? first then None else ArrivalMap.received_at v x) ∧
        ∃ P Q next, ArrivalMap.received_in v first (s + 1) = P ++ Q ∧ P ≠ [] ∧ ends_before f Q ∧
          describes (include_timestamps r) (media_ssrc_ g) (feedback_packet_count_ g) first f P next
    end.
Proof.
  intros Hds Hok HB Hs Hr first. unfold SendFeedbackOnRequest. destruct (Z.eqb_spec (sequence_count r) 0) as [E|Hne].
  { exists [], g, v. split; [done|]. split; [done|]. split; [done|]. split; [done|]. apply received_in_empty. unfold first. lia. }
  rewrite (s64_id (s - _)), (s64_id (s + 1)), s64_id by (unfold int64; lia). fold first.
  pose proof (MaybeBuild_ok ds g v (include_timestamps r) first (s + 1) false (g_map _ _ _ Hok) Hds ltac:(unfold first; lia)) as H.
  apply wp_exists in H as ([[f|] g'] & -> & H); cbn [mbind option_bind].
  2: { destruct H as [E ->]. exists [], g, v. split; [by destruct g|]. done. }
  destruct H as (P & Q & next & ER & HP & Hd & Hq & ->). cbn [with_built packet_arrival_times_].
  destruct Hok as [[Hrep Hv Hl Hts Hf He] Hu Hlast Hfb Heb Hw Hi Hp Hc Hsc].
  assert (Hlt : first < ArrivalMap.end_number v).
  { destruct P as [|[x t] P]; [done|]. assert (Hin : (x, t) ∈ ArrivalMap.received_in v first (s + 1)) by (rewrite ER; left).
    apply ArrivalMap.received_list_elem in Hin as [? [? _]%ArrivalMap.received_at_in]. lia. }
  destruct (ArrivalMap.EraseTo_ok _ v first Hrep Hv) as (m' & -> & H1 & H2). cbn [mbind option_bind].
  destruct (ArrivalMap.spec_erase_spec v first Hl Hlt) as (H3 & H4 & H5 & H6 & H7).
  assert (H8 : ArrivalMap.first_number (ArrivalMap.spec_erase v first) ≤ ArrivalMap.end_number (ArrivalMap.spec_erase v first))
    by (destruct (ArrivalMap.spec_erase v first) as [[? ?]|]; cbn; lia).
  eexists [f], _, (ArrivalMap.spec_erase v first). split; [done|]. split; [|split; [done|]].
  - split; cbn [with_times with_built packet_arrival_times_ unwrapper_ periodic_window_start_seq_ send_interval_
      last_process_time_ feedback_packet_count_]; try done; try lia; try apply u8_range.
    + split; try done; [|unfold ArrivalMap.number_ok in *; lia..].
      intros x t Hx. rewrite H7 in Hx. destruct (x <? first); [done|]. by apply (Hts x).
    + rewrite H4. destruct (periodic_window_start_seq_ g); naive_solver.
  - split; [done|]. split; [done|]. by exists P, Q, next.
Qed.

(** ** A packet is received *)

Definition lowered (g : TransportSequenceNumberFeedbackGenenerator) (p : RtpPacketReceived) (s : Z) : option Z :=
  if has_v1 p then Some (match periodic_window_start_seq_ g with None => s | Some w => Z.min w s end)
  else periodic_window_start_seq_ g.

(** The generator when the packet's number is known. *)
Definition numbered (g : TransportSequenceNumberFeedbackGenenerator) (p : RtpPacketReceived) (n : Z)
  : TransportSequenceNumberFeedbackGenenerator :=
  mkGen (last_process_time_ g) (rtp_ssrc p) (feedback_packet_count_ g) (Unwrap 16 (unwrapper_ g) n).2
    (periodic_window_start_seq_ g) (packet_arrival_times_ g) (send_interval_ g) (has_v1 p).

Lemma lower_ok g v p n s : map_ok (packet_arrival_times_ g) v → TransportFb.time_in_range (rtp_arrival_time p) →
  ∃ m' v', (if has_v1 p then
      times ← MaybeCullOldPackets (numbered g p n) s (rtp_arrival_time p);
      let start := periodic_window_start_seq_ (numbered g p n) in
      let start := match start with
                   | None => Some s
                   | Some w => if s <? w then Some s else start
                   end in
      Some (with_times (numbered g p n) start times)
    else Some (numbered g p n)) = Some (with_times (numbered g p n) (lowered g p s) m') ∧ culled g v s m' v' ∧
    (has_v1 p = false → v' = v).
Proof.
  intros Hmap Ht. unfold lowered. destruct (has_v1 p) eqn:E1.
  - destruct (cull_ok (numbered g p n) v s (rtp_arrival_time p) Hmap Ht) as (m' & v' & -> & H).
    exists m', v'. split; [|split; [exact H|done]].
    cbn [mbind option_bind numbered periodic_window_start_seq_]. do 2 f_equal.
    destruct (periodic_window_start_seq_ g) as [w|]; [|done].
    destruct (Z.ltb_spec s w); f_equal; lia.
  - exists (packet_arrival_times_ g), v. split; [done|]. split; [by apply culled_same|done].
Qed.

(** The generator after the packet was entered, before it answers a request. *)
Definition entered (g : TransportSequenceNumberFeedbackGenenerator) (p : RtpPacketReceived) (n s : Z)
    (m : ArrivalMap.PacketArrivalTimeMap) : TransportSequenceNumberFeedbackGenenerator :=
  let b := ArrivalMap.begin_sequence_number_ m in
  with_times (numbered g p n) (if opt_lt (lowered g p s) b then Some b else lowered g p s) m.

Section packet.
Context (B : Z) (g : TransportSequenceNumberFeedbackGenenerator) (v : ArrivalMap.view) (p : RtpPacketReceived)
  (n s : Z) (m' : ArrivalMap.PacketArrivalTimeMap) (v' : ArrivalMap.view).
Context (Hok : gen_ok B g v) (HB : small B) (HB60 : B ≤ 2 ^ 59) (Hn : uint16 n)
  (Hs : s = (Unwrap 16 (unwrapper_ g) n).1) (Hc : culled g v s m' v') (Hpk : packet_ok p).

Lemma number_range : - (B + 32768) ≤ s ≤ B + 32768.
Proof using Hok HB Hn Hs. rewrite Hs. apply Unwrap_range; [apply Hok|done|apply Hok|done]. Qed.

Lemma unwrapper_ok : consistent 16 (Unwrap 16 (unwrapper_ g) n).2 ∧
  last_unwrapped_ (Unwrap 16 (unwrapper_ g) n).2 = s.
Proof using Hok Hn Hs.
  split; [|by rewrite Hs]. apply (Unwrap_congruent 16 ltac:(lia)); [unfold uint16 in Hn; lia|apply Hok].
Qed.

Lemma culled_times : times_ok v'.
Proof using Hok Hc.
  intros x t Hx. destruct Hc as (_ & _ & _ & _ & _ & _ & Hr & _). rewrite Hr in Hx.
  destruct (x <? _); [done|]. by apply (m_times _ _ (g_map _ _ _ Hok) x).
Qed.

Lemma view_order (u : ArrivalMap.view) : ArrivalMap.first_number u ≤ ArrivalMap.end_number u.
Proof. destruct u as [[? ?]|]; cbn; lia. Qed.

(** The window after the packet's number was taken into account. *)
Lemma lowered_range : v ≠ None → ∃ w, lowered g p s = Some w ∧ w ≤ ArrivalMap.end_number v.
Proof using Hok.
  intros Hv. pose proof (g_window _ _ _ Hok) as Hw. unfold lowered.
  destruct (periodic_window_start_seq_ g) as [w|]; [|done]. destruct Hw as [Hw _].
  destruct (has_v1 p); eexists; (split; [done|]); lia.
Qed.

(** A packet that was received before only lowers the window. *)
Lemma duplicate_ok t : ArrivalMap.received_at v' s = Some t →
  gen_ok (B + 32768) (with_times (numbered g p n) (lowered g p s) m') v'.
Proof using Hok HB HB60 Hn Hs Hc Hpk.
  intros Hr. pose proof number_range as Hsr. destruct unwrapper_ok as [Hu Hlu].
  assert (Hne : v' ≠ None) by (intros ->; done). pose proof culled_times as Hts. pose proof (view_order v').
  destruct Hc as (H1 & H2 & H3 & H4 & H5 & H6 & H7 & H8).
  destruct lowered_range as (w & Ew & Hw); [naive_solver|].
  assert (Hl : ArrivalMap.live v').
  { destruct H3 as [|(b & -> & _)]; [done|]. cbn in Hr. by destruct (s <? b). }
  destruct Hok as [[_ _ _ _ Hf He] _ _ Hfb Heb _ Hi Hp Hcnt _].
  split; cbn [with_times numbered packet_arrival_times_ unwrapper_ periodic_window_start_seq_ send_interval_
      last_process_time_ feedback_packet_count_]; try done; try lia; try apply Hpk.
  - split; try done; unfold ArrivalMap.number_ok in *; lia.
  - rewrite Ew. split; [lia|done].
Qed.

(** A new packet. *)
Lemma entered_ok : TransportFb.time_in_range (rtp_arrival_time p) →
  ∃ m2, ArrivalMap.AddPacket m' s (rtp_arrival_time p) = Some m2 ∧
    gen_ok (B + 32768) (entered g p n s m2) (ArrivalMap.spec_add v' s (rtp_arrival_time p)) ∧
    ArrivalMap.begin_sequence_number_ m2 =
      ArrivalMap.first_number (ArrivalMap.spec_add v' s (rtp_arrival_time p)) ∧
    (ArrivalMap.first_number (ArrivalMap.spec_add v' s (rtp_arrival_time p)) ≤ s ∨
     ArrivalMap.too_old v' s = true).
Proof using Hok HB HB60 Hn Hs Hc Hpk.
  intros Ht. pose proof number_range as Hsr. destruct unwrapper_ok as [Hu Hlu].
  pose proof culled_times as Hts. pose proof (view_order v'). destruct Hc as (H1 & H2 & H3 & H4 & H5 & H6 & H7 & H8).
  pose proof (g_first _ _ _ Hok). pose proof (g_end _ _ _ Hok).
  destruct (enter_ok m' v' s (rtp_arrival_time p)) as (m2 & E & Hm2 & R1 & R2 & R3 & R4); [done..|lia|lia|lia|].
  exists m2. set (t := rtp_arrival_time p) in *. set (v2 := ArrivalMap.spec_add v' s t) in *.
  destruct (ArrivalMap.represents_range m2 v2 (m_rep _ _ Hm2)) as [Eb Ee]. pose proof (view_order v2).
  split; [done|]. split; [|split; [done|destruct R4 as [[? _]|?]; [by left|by right]]].
  assert (Hw : ∀ w, lowered g p s = Some w → w ≤ ArrivalMap.end_number v2).
  { intros w Ew. destruct (decide (v = None)) as [Ev|Hv].
    - assert (v' = None) as Ev' by (by apply H6). pose proof (g_window _ _ _ Hok) as Hgw.
      unfold lowered in Ew. destruct (periodic_window_start_seq_ g) as [w0|]; [by destruct Hgw|].
      destruct (has_v1 p); [|done]. injection Ew as <-. unfold v2. rewrite Ev'. cbn. lia.
    - destruct lowered_range as (w' & Ew' & ?); [done|]. assert (v' ≠ None) by naive_solver.
      rewrite Ew in Ew'. injection Ew' as <-. specialize (R3 ltac:(done)). lia. }
  destruct Hok as [_ _ _ _ _ _ Hi Hp Hcnt _].
  split; cbn [entered with_times numbered packet_arrival_times_ unwrapper_ periodic_window_start_seq_ send_interval_
      last_process_time_ feedback_packet_count_]; try done; try lia; try apply Hpk.
  assert (Hv2 : v2 ≠ None) by apply ArrivalMap.spec_add_some. rewrite Eb.
  destruct (lowered g p s) as [w|]; cbn [opt_lt]; [|split; [lia|done]].
  specialize (Hw w eq_refl). destruct (Z.ltb_spec w (ArrivalMap.first_number v2)); (split; [lia|done]).
Qed.

(** The window covers the packet, and what was pending. *)
Lemma entered_window m2 w : lowered g p s = Some w →
  ∃ w', periodic_window_start_seq_ (entered g p n s m2) = Some w' ∧
    w' ≤ Z.max w (ArrivalMap.begin_sequence_number_ m2).
Proof.
  intros Ew. unfold entered. cbn [with_times periodic_window_start_seq_]. rewrite Ew. cbn [opt_lt].
  destruct (Z.ltb_spec w (ArrivalMap.begin_sequence_number_ m2)); eexists; (split; [done|]); lia.
Qed.

(** A pending packet is not culled, and the window is not moved past it. *)
Lemma pending_culled x t : pending g v x t →
  v' = v ∧ ∃ w, lowered g p s = Some w ∧ w ≤ x.
Proof using Hok Hc.
  intros (Hr & w & Ew & Hw). destruct Hc as (_ & _ & _ & _ & _ & _ & _ & H8).
  apply ArrivalMap.received_at_in in Hr as [Hr _]. split.
  - destruct H8 as [->|H8]; [done|]. rewrite Ew in H8. cbn [opt_ge] in H8. apply Z.leb_le in H8. lia.
  - unfold lowered. rewrite Ew. destruct (has_v1 p); eexists; (split; [done|]); lia.
Qed.
End packet.

(** [OnReceivedPacket] after culling. *)
Definition finish (ds : list Z) (g : TransportSequenceNumberFeedbackGenenerator) (p : RtpPacketReceived)
    (n s : Z) (request : option FeedbackRequest) (m' : ArrivalMap.PacketArrivalTimeMap)
  : option (list TransportFb.TransportFeedback * TransportSequenceNumberFeedbackGenenerator) :=
  seen ← ArrivalMap.has_received m' s;
  if (seen : bool) then Some ([], with_times (numbered g p n) (lowered g p s) m')
  else
    times ← ArrivalMap.AddPacket m' s (rtp_arrival_time p);
    match request with
    | Some request => SendFeedbackOnRequest ds (entered g p n s times) s request
    | None => Some ([], entered g p n s times)
    end.

Lemma OnReceivedPacket_finish ds g v p n request : map_ok (packet_arrival_times_ g) v →
  TransportFb.time_in_range (rtp_arrival_time p) → transport_number p = Some (n, request) →
  let s := (Unwrap 16 (unwrapper_ g) n).1 in
  ∃ m' v', OnReceivedPacket ds g p = finish ds g p n s request m' ∧ culled g v s m' v' ∧
    (has_v1 p = false → v' = v).
Proof.
  intros Hmap Ht En s. destruct (lower_ok g v p n s Hmap Ht) as (m' & v' & E & Hc & H1).
  exists m', v'. split; [|done]. unfold OnReceivedPacket. rewrite En.
  unfold TransportFb.time_in_range in Ht.
  destruct (finite_flags (rtp_arrival_time p)) as (Ei%negb_true_iff & _); [unfold finite, PlusInfinity, MinusInfinity; lia|].
  rewrite Ei. assert (Eu : Unwrap 16 (unwrapper_ g) n = (s, (Unwrap 16 (unwrapper_ g) n).2)) by (unfold s; by destruct (Unwrap _ _ _)).
  rewrite Eu. clearbody s. cbv zeta. fold (numbered g p n).
  match goal with |- context [send_periodic_feedback_ ?x] => change (send_periodic_feedback_ x) with (has_v1 p) end.
  cbv zeta in E. rewrite E. reflexivity.
Qed.

(** What it does to the reports. A packet that is pending stays pending unless the new one is
    2^15 ahead of it; the new packet, if periodic feedback is on, becomes pending unless it is
    too old. *)
Record received_packet (g : TransportSequenceNumberFeedbackGenenerator) (v : ArrivalMap.view)
    (p : RtpPacketReceived) (s : Z) (g' : TransportSequenceNumberFeedbackGenenerator)
    (v' : ArrivalMap.view) : Prop := {
  r_kept x t : pending g v x t → pending g' v' x t ∨ x + 32768 ≤ s;
  r_new : has_v1 p = true →
    (∃ t, pending g' v' s t ∧ (ArrivalMap.received_at v s = None → t = rtp_arrival_time p)) ∨
    32768 < ArrivalMap.end_number v - s;
}.

Lemma lowered_new g p s : has_v1 p = true → ∃ w, lowered g p s = Some w ∧ w ≤ s.
Proof.
  intros H1. unfold lowered. rewrite H1. eexists. split; [done|]. destruct (periodic_window_start_seq_ g); lia.
Qed.

Lemma duplicate_reports B g v p n s m' v' t0 : gen_ok B g v → culled g v s m' v' →
  ArrivalMap.received_at v' s = Some t0 →
  received_packet g v p s (with_times (numbered g p n) (lowered g p s) m') v'.
Proof.
  intros Hok Hc Ht0. split; [intros x t Hp; left|intros H1; left; exists t0; split].
  - destruct (pending_culled B g v p s m' v' Hok Hc x t Hp) as (-> & w & Ew & Hw). split; [apply Hp|]. by exists w.
  - split; [done|]. apply (lowered_new g p s H1).
  - intros Hnone. exfalso. destruct Hc as (_ & _ & _ & _ & _ & _ & H7 & _). rewrite H7, Hnone in Ht0.
    by destruct (s <? _).
Qed.

Lemma entered_reports B g v p n s m' v' m2 : gen_ok B g v → culled g v s m' v' →
  ArrivalMap.received_at v' s = None → 0 ≤ rtp_arrival_time p →
  let v2 := ArrivalMap.spec_add v' s (rtp_arrival_time p) in
  ArrivalMap.begin_sequence_number_ m2 = ArrivalMap.first_number v2 →
  received_packet g v p s (entered g p n s m2) v2.
Proof.
  intros Hok Hc Hseen Ht v2 Eb.
  assert (Hrec := ArrivalMap.spec_add_received v' s (rtp_arrival_time p)). fold v2 in Hrec.
  assert (Hwin : ∀ w x, lowered g p s = Some w → w ≤ x → ArrivalMap.first_number v2 ≤ x →
    ∃ w', periodic_window_start_seq_ (entered g p n s m2) = Some w' ∧ w' ≤ x).
  { intros w x Ew Hw Hx. destruct (entered_window g p n s m2 w Ew) as (w' & -> & Hw'). exists w'. split; [done|]. lia. }
  split.
  - intros x u Hp. destruct (pending_culled B g v p s m' v' Hok Hc x u Hp) as (-> & w & Ew & Hw).
    destruct (Z.lt_ge_cases x (ArrivalMap.first_number v2)) as [Hx|Hx].
    { right. by apply (ArrivalMap.spec_add_first v s (rtp_arrival_time p) x u); [apply Hp|]. }
    left. split; [|by apply (Hwin w)].
    destruct Hp as [Hp _]. rewrite Hrec by done. destruct (ArrivalMap.too_old v s); [done|].
    destruct (Z.eqb_spec x s) as [->|]; [congruence|]. by rewrite (proj2 (Z.ltb_ge _ _)).
  - intros H1. destruct (ArrivalMap.too_old v' s) eqn:Eo.
    { right. destruct Hc as (_ & _ & _ & <- & _). by apply ArrivalMap.too_old_by. }
    left. destruct (lowered_new g p s H1) as (w & Ew & Hw). exists (rtp_arrival_time p). split; [|done].
    split; [rewrite Hrec by done; by rewrite Z.eqb_refl|]. apply (Hwin w); [done..|].
    destruct v' as [[b l]|]; [|cbn; lia].
    destruct (ArrivalMap.spec_add_range (Some (b, l)) s (rtp_arrival_time p)) as (_ & _ & [[? _]|?]); [done|done|congruence].
Qed.

(** [OnReceivedPacket] keeps the invariant. *)
Lemma OnReceivedPacket_number ds B g v p n request : length ds = 14%nat → gen_ok B g v → small B → B ≤ 2 ^ 59 →
  packet_ok p → IsInfinite (rtp_arrival_time p) = false → transport_number p = Some (n, request) →
  ∃ fs g' v', OnReceivedPacket ds g p = Some (fs, g') ∧ gen_ok (B + 32768) g' v' ∧
    (request = None → fs = [] ∧ received_packet g v p (Unwrap 16 (unwrapper_ g) n).1 g' v').
Proof.
  intros Hds Hok HB HB59 Hpk Ei En. assert (H := Hpk). destruct H as [Ht Hn Hr _ _]. destruct Ht as [Ht|Ht]; [congruence|]. specialize (Hn n request En).
  destruct (OnReceivedPacket_finish ds g v p n request (g_map _ _ _ Hok) Ht En) as (m' & v' & -> & Hc & _).
  remember (Unwrap 16 (unwrapper_ g) n).1 as s eqn:Es. unfold finish.
  rewrite (ArrivalMap.has_received_ok m' v' s) by apply Hc. cbn [mbind option_bind].
  case_bool_decide as Hseen.
  - destruct Hseen as [t0 Ht0]. eexists [], _, v'. split; [done|].
    split; [by apply (duplicate_ok B g v p n s m' v') with (t := t0)|].
    intros _. split; [done|]. by apply (duplicate_reports B g v p n s m' v' t0).
  - apply eq_None_not_Some in Hseen.
    destruct (entered_ok B g v p n s m' v' Hok HB HB59 Hn Es Hc Hpk Ht) as (m2 & -> & Hok2 & Eb & Hold).
    cbn [mbind option_bind]. destruct request as [r|].
    + pose proof (number_range B g v n s Hok HB Hn Es) as Hsr. specialize (Hr n r En).
      destruct (SendFeedbackOnRequest_ok ds (B + 32768) _ _ s r Hds Hok2) as (fs & g' & v3 & E3 & Hok3 & _);
        [unfold small in HB; lia|lia|done|]. by exists fs, g', v3.
    + eexists [], _, _. split; [done|]. split; [done|]. intros _. split; [done|].
      apply (entered_reports B g v p n s m'); try done. apply Ht.
Qed.

(** ** The clock *)

Definition due (g : TransportSequenceNumberFeedbackGenenerator) (now : Z) : Prop :=
  send_periodic_feedback_ g = true ∧
  (last_process_time_ g = MinusInfinity ∨ last_process_time_ g + send_interval_ g ≤ now).

Lemma periodic_due ds B g v now : length ds = 14%nat → gen_ok B g v → TransportFb.time_in_range now → due g now →
  ∃ fs g', Process ds g now = Some (send_interval_ g, fs, g') ∧ gen_ok B g' v ∧
    last_process_time_ g' = now ∧ media_ssrc_ g' = media_ssrc_ g ∧
    match periodic_window_start_seq_ g with
    | None => fs = []
    | Some w =>
        reports (media_ssrc_ g) (feedback_packet_count_ g) w
          (ArrivalMap.received_in v w (ArrivalMap.end_number v)) fs (ArrivalMap.end_number v) ∧
        periodic_window_start_seq_ g' = Some (ArrivalMap.end_number v)
    end.
Proof.
  intros Hds Hok Hnow [Hper Hdue]. assert (H := Hok). destruct H as [Hmap Hu Hl Hf He Hw Hi Hp Hc _].
  unfold Process. rewrite Hper. cbn [negb].
  assert (E : ∃ next, ts_add (last_process_time_ g) (send_interval_ g) = Some next ∧ next ≤ now).
  { unfold kMinInterval, kMaxInterval, TransportFb.time_in_range in *. destruct Hdue as [E|Hle].
    - exists MinusInfinity. rewrite E. split; [|unfold MinusInfinity; lia].
      destruct (finite_flags (send_interval_ g)) as (_ & E1 & E2); [unfold finite, PlusInfinity, MinusInfinity; lia|].
      unfold ts_add. rewrite E1, E2. done.
    - destruct Hp as [E|Hp]; [|].
      + rewrite E in Hle |- *. exists MinusInfinity. split; [|unfold MinusInfinity; lia].
        destruct (finite_flags (send_interval_ g)) as (_ & E1 & E2); [unfold finite, PlusInfinity, MinusInfinity; lia|].
        unfold ts_add. rewrite E1, E2. done.
      + eexists. split; [apply ts_add_ok; unfold finite, PlusInfinity, MinusInfinity; lia|done]. }
  destruct E as (next & -> & Hle). cbn [mbind option_bind]. rewrite (proj2 (Z.leb_le next now)) by done.
  set (g1 := mkGen now _ _ _ _ _ _ _).
  assert (Hok1 : gen_ok B g1 v) by (split; cbn; done || apply Hok || by right).
  destruct (periodic_window_start_seq_ g) as [w|] eqn:Ew.
  - destruct Hw as [Hw Hv].
    destruct (SendPeriodicFeedbacks_ok ds g1 v w Hds Hv Hmap eq_refl Hw Hc) as (fs & -> & Hr).
    cbn [mbind option_bind]. eexists fs, _. split; [done|].
    split; [|by split_and!]. destruct Hok1. split; done || apply u8_range.
  - unfold SendPeriodicFeedbacks. cbn [g1 periodic_window_start_seq_ mbind option_bind].
    exists [], g1. by split_and!.
Qed.

Lemma Process_wait ds B g v now : gen_ok B g v → TransportFb.time_in_range now → ¬ due g now →
  ∃ wait, Process ds g now = Some (wait, [], g) ∧ 0 < wait ∧
    (send_periodic_feedback_ g = true → wait = last_process_time_ g + send_interval_ g - now).
Proof.
  intros Hok Hnow Hdue. destruct Hok as [_ _ _ _ _ _ Hi Hp _ _]. unfold Process, due in *.
  destruct (send_periodic_feedback_ g); [|by exists PlusInfinity]. cbn [negb].
  unfold kMinInterval, kMaxInterval, TransportFb.time_in_range in *.
  destruct Hp as [Hp|Hp]; [exfalso; apply Hdue; auto|].
  assert (Hlt : now < last_process_time_ g + send_interval_ g) by (apply Z.nle_gt; intros ?; apply Hdue; auto).
  rewrite ts_add_ok by (unfold finite, PlusInfinity, MinusInfinity; lia). cbn [mbind option_bind].
  rewrite (proj2 (Z.leb_gt _ _)) by lia.
  rewrite ts_diff_ok by (unfold finite, PlusInfinity, MinusInfinity; lia). cbn [mbind option_bind].
  eexists. split; [done|]. split; [lia|done].
Qed.

(** ** The send interval *)

Lemma rate_scale_ok rate : 0 ≤ rate < PlusInfinity → ∃ r, rate_scale rate five_percent = Some r ∧ 0 ≤ r < PlusInfinity.
Proof.
  intros Hr. unfold rate_scale. rewrite ToValue_ok by (unfold finite, PlusInfinity, MinusInfinity in *; lia).
  cbn [mbind option_bind]. set (r := llround _). assert (Hb : 0 ≤ r < PlusInfinity).
  { pose proof (rne_bound 53 rate 0 ltac:(lia) ltac:(lia)) as (H1 & H2 & H3). unfold r.
    set (x := rne 53 rate 0) in *. clearbody x. cbn [five_percent mant expo].
    pose proof (rne_bound 53 (mant x * 7205759403792794) (expo x + -57) ltac:(lia)
      ltac:(apply Z.mul_nonneg_nonneg; [exact H1|done])) as (K1 & K2 & K3).
    set (y := rne 53 _ _) in *. clearbody y. rewrite Z.sub_0_r in H3. clear r.
    assert (0 < 2 ^ expo x) by (apply Z.pow_pos_nonneg; lia).
    assert (HM : mant y * 2 ^ (57 + expo y) ≤ 4 * rate * 7205759403792794).
    { replace (57 + expo y) with (expo y - (expo x + -57) + expo x) by lia. rewrite Z.pow_add_r by lia.
      set (k := 2 ^ (expo y - (expo x + -57))) in *. nia. }
    destruct (llround_bound y _ 57 K1 ltac:(lia) ltac:(lia) HM) as [L1 L2].
    split; [done|]. change (2 ^ 57) with 144115188075855872 in L2. unfold PlusInfinity in *. lia. }
  exists r. split; [|done]. apply FromValue_ok; [lia|]. unfold finite, MinusInfinity. lia.
Qed.

(** Between 50 and 250 milliseconds, for every estimate. *)
Lemma OnSendBandwidthEstimateChanged_ok B g v estimate : gen_ok B g v → 0 ≤ estimate < PlusInfinity →
  ∃ g', OnSendBandwidthEstimateChanged g estimate = Some g' ∧ gen_ok B g' v ∧
    periodic_window_start_seq_ g' = periodic_window_start_seq_ g ∧
    packet_arrival_times_ g' = packet_arrival_times_ g.
Proof.
  intros Hok He. unfold OnSendBandwidthEstimateChanged.
  change (Bytes (20 + 8 + 10 + 30)) with (Some 68). cbn [mbind option_bind].
  change (size_div_time 68 kMaxInterval) with (Some 2176). cbn [mbind option_bind].
  destruct (rate_scale_ok estimate He) as (r & -> & Hr). cbn [mbind option_bind].
  assert (H : ∃ i, (if r <=? 2176 then Some kMaxInterval
      else d ← size_div_rate 68 r; Some (Z.max d kMinInterval)) = Some i ∧ kMinInterval ≤ i ≤ kMaxInterval).
  { unfold kMinInterval, kMaxInterval. destruct (Z.leb_spec r 2176) as [|Hlt]; [by exists 250000|].
    unfold size_div_rate. change (Microbits 68) with (Some 544000000). cbn [mbind option_bind].
    rewrite ToValue_ok by (unfold finite, PlusInfinity, MinusInfinity in *; lia). cbn [mbind option_bind].
    rewrite (proj2 (Z.eqb_neq r 0)), Z.quot_div_nonneg by lia.
    assert (Hq : 0 ≤ 544000000 / r ≤ 250000).
    { split; [apply Z.div_pos; lia|]. apply Z.div_le_upper_bound; lia. }
    set (q := 544000000 / r) in *. clearbody q.
    unfold Micros. rewrite FromValue_ok by (unfold finite, PlusInfinity, MinusInfinity; lia || done).
    cbn [mbind option_bind]. eexists. split; [done|]. lia. }
  destruct H as (i & -> & Hi). cbn [mbind option_bind]. eexists. split; [done|].
  split; [|done]. destruct Hok. by split.
Qed.

End WideGenerator.
