(* ===== verification/WideSession.v ===== *)
(** * Sessions of the transport-wide feedback generator

    What the generator of WideGenerator.v does over a call: packets, calls of the clock
    and bandwidth estimates in any order. Every packet that was received is reported to
    the sender, at its time, through the bytes of the messages. *)

From stdpp Require Import list sorting.
From S2P Require Import Prelude SeqNum Units Rtcp ArrivalMap TransportChunk TransportFb TransportCodec WideGenerator.
Import SeqNum Units TransportCodec WideGenerator.

Module WideSession.

Inductive event : Type :=
  | Packet (packet : RtpPacketReceived)
  | Tick (now : Z)
  | Estimate (estimate : Z).

(** The messages sent, and the generator. *)
Definition run_event (ds : list Z) (g : TransportSequenceNumberFeedbackGenenerator) (e : event)
  : option (list TransportFb.TransportFeedback * TransportSequenceNumberFeedbackGenenerator) :=
  match e with
  | Packet packet => OnReceivedPacket ds g packet
  | Tick now => '(_, fs, g) ← Process ds g now; Some (fs, g)
  | Estimate estimate => g ← OnSendBandwidthEstimateChanged g estimate; Some ([], g)
  end.

Fixpoint run_events (ds : list Z) (g : TransportSequenceNumberFeedbackGenenerator) (es : list event)
  : option (list TransportFb.TransportFeedback * TransportSequenceNumberFeedbackGenenerator) :=
  match es with
  | [] => Some ([], g)
  | e :: es =>
      '(fs, g) ← run_event ds g e;
      '(fs', g) ← run_events ds g es;
      Some (fs ++ fs', g)
  end.

Definition event_ok (e : event) : Prop :=
  match e with
  | Packet packet => packet_ok packet
  | Tick now => TransportFb.time_in_range now
  | Estimate estimate => 0 ≤ estimate < PlusInfinity
  end.

(** ** The invariant over a session *)

#[export] Instance due_dec g now : Decision (due g now).
Proof. unfold due. apply _. Defined.

Lemma packet_event_ok ds B g v p : length ds = 14%nat → gen_ok B g v → small B → B ≤ 2 ^ 59 → packet_ok p →
  ∃ fs g' v', OnReceivedPacket ds g p = Some (fs, g') ∧ gen_ok (B + 32768) g' v'.
Proof.
  intros Hds Hok HB HB59 Hp. destruct (IsInfinite (rtp_arrival_time p)) eqn:Ei.
  { exists [], g, v. unfold OnReceivedPacket. rewrite Ei. split; [done|]. apply (gen_ok_weaken B); [done|lia]. }
  destruct (transport_number p) as [[n request]|] eqn:En.
  - destruct (OnReceivedPacket_number ds B g v p n request) as (fs & g' & v' & E & Hok' & _); try done. by exists fs, g', v'.
  - exists [], g, v. unfold OnReceivedPacket. rewrite Ei, En, (p_has p Hp En). split; [done|]. apply (gen_ok_weaken B); [done|lia].
Qed.

Lemma run_event_ok ds B g v e : length ds = 14%nat → gen_ok B g v → small B → B ≤ 2 ^ 59 → event_ok e →
  ∃ fs g' v', run_event ds g e = Some (fs, g') ∧ gen_ok (B + 32768) g' v'.
Proof.
  intros Hds Hok HB HB59 He. assert (Hle : ∀ g' v', gen_ok B g' v' → gen_ok (B + 32768) g' v')
    by (intros; apply (gen_ok_weaken B); [done|lia]). destruct e as [p|now|estimate]; cbn [run_event event_ok] in *.
  - by apply (packet_event_ok ds B g v).
  - destruct (decide (due g now)) as [Hd|Hd].
    + destruct (periodic_due ds B g v now Hds Hok He Hd) as (fs & g' & -> & Hok' & _). exists fs, g', v. auto.
    + destruct (Process_wait ds B g v now Hok He Hd) as (wait & -> & _). exists [], g, v. auto.
  - destruct (OnSendBandwidthEstimateChanged_ok B g v estimate Hok He) as (g' & -> & Hok' & _). exists [], g', v. auto.
Qed.

Lemma run_events_ok ds es : length ds = 14%nat → ∀ B g v, gen_ok B g v → 65535 ≤ B →
  B + 32768 * Z.of_nat (length es) ≤ 2 ^ 59 → Forall event_ok es →
  ∃ fs g' v', run_events ds g es = Some (fs, g') ∧ gen_ok (B + 32768 * Z.of_nat (length es)) g' v'.
Proof.
  intros Hds. induction es as [|e es IH]; intros B g v Hok HB Hn He; cbn [run_events length] in *.
  { exists [], g, v. split; [done|]. apply (gen_ok_weaken B); [done|lia]. }
  apply Forall_cons_1 in He as [He Hes].
  destruct (run_event_ok ds B g v e) as (fs & g1 & v1 & -> & Hok1); [done|done|unfold small; lia|lia|done|].
  cbn [mbind option_bind].
  destruct (IH (B + 32768) g1 v1) as (fs' & g' & v' & -> & Hok'); [done|lia|lia|done|].
  cbn [mbind option_bind]. exists (fs ++ fs'), g', v'. split; [done|]. apply (gen_ok_weaken _ _ _ _ Hok'). lia.
Qed.

(** A session from the start, of up to 2^43 events. *)
Definition session_ok (ds : list Z) (es : list event) : Prop :=
  length ds = 14%nat ∧ Forall event_ok es ∧ Z.of_nat (length es) ≤ 8796093022208.

Lemma session_gen_ok ds es : session_ok ds es →
  ∃ fs g v, run_events ds new_generator es = Some (fs, g) ∧ gen_ok (65535 + 32768 * Z.of_nat (length es)) g v.
Proof.
  intros (Hds & He & Hn). apply (run_events_ok ds es Hds 65535 new_generator None); try done; try lia.
  apply wide_new_generator_ok. lia.
Qed.

(** C26: The generator never fails. In every session of up to 2^43 events, with packets
    in any order, requests, calls of the clock and bandwidth estimates of any value, every
    loop ends and no check fails; after it, the map of arrival times is a map of at most
    2^15 packets, the window of periodic feedback does not reach past it, and the send
    interval is between 50 and 250 ms. *)
Theorem wide_generator_safe (ds : list Z) (es : list event) : session_ok ds es →
  ∃ fs g, run_events ds new_generator es = Some (fs, g) ∧
    (∀ x, is_Some (ArrivalMap.arrival (packet_arrival_times_ g) x)) ∧
    Z.of_nat (length (ArrivalMap.arrival_times_ (packet_arrival_times_ g))) ≤ 32768 ∧
    (∀ w, periodic_window_start_seq_ g = Some w →
       w ≤ ArrivalMap.end_sequence_number_ (packet_arrival_times_ g)) ∧
    kMinInterval ≤ send_interval_ g ≤ kMaxInterval.
Proof.
  intros Hs. destruct (session_gen_ok ds es Hs) as (fs & g & v & E & Hok). exists fs, g. split; [done|].
  destruct Hok as [[Hrep _ _ _ _ _] _ _ _ _ Hw Hi _ _ _]. split_and!; [| | |apply Hi..].
  - intros x. rewrite (ArrivalMap.arrival_ok _ v) by done. by eexists.
  - by apply (ArrivalMap.represents_memory _ v).
  - intros w Ew. rewrite Ew in Hw. destruct (ArrivalMap.represents_range _ v Hrep) as [_ ->]. apply Hw.
Qed.

(** An example: three packets, the second of which asks for nothing and the last of which is
    out of order. *)
Definition example_packet (t n : Z) : RtpPacketReceived := mkReceivedRtp t 77 true (Some n) false None.

Definition example_events : list event :=
  [Packet (example_packet 1000000 65534); Estimate 300000; Packet (example_packet 1002000 1);
   Tick 1100000; Packet (example_packet 1101000 65535)].

Lemma example_packet_ok t n : TransportFb.time_in_range t → uint16 n → packet_ok (example_packet t n).
Proof.
  intros Ht Hn. split; cbn; try done; [by right|]. by intros m r [= <- <-].
Qed.

Lemma example_session_ok : session_ok (replicate 14 7) example_events.
Proof.
  split; [done|]. split; [|cbn; lia]. unfold example_events.
  repeat (apply Forall_cons_2;
    [first [apply example_packet_ok | idtac]; unfold event_ok, TransportFb.time_in_range, uint16, PlusInfinity; lia|]).
  apply Forall_nil_2.
Qed.

Lemma wide_generator_safe_witness :
  ∃ fs g, run_events (replicate 14 7) new_generator example_events = Some (fs, g) ∧
    (∀ x, is_Some (ArrivalMap.arrival (packet_arrival_times_ g) x)) ∧
    Z.of_nat (length (ArrivalMap.arrival_times_ (packet_arrival_times_ g))) ≤ 32768 ∧
    (∀ w, periodic_window_start_seq_ g = Some w →
       w ≤ ArrivalMap.end_sequence_number_ (packet_arrival_times_ g)) ∧
    kMinInterval ≤ send_interval_ g ≤ kMaxInterval.
Proof. apply (wide_generator_safe (replicate 14 7) example_events), example_session_ok. Defined.

(** ** Periodic feedback reaches the sender *)

(** The message [f], written into any buffer with room for it and parsed, tells the sender
    exactly that the packets [ps] arrived, in this order and at their times within 125
    microseconds, modulo the wrap period of the reference time. *)
Definition delivered (ds' : list Z) (f : TransportFb.TransportFeedback) (ps : list (Z * Z)) : Prop :=
  ∀ buf p max_length, Z.of_nat p + TransportFb.BlockLength f ≤ Z.of_nat max_length → (max_length ≤ length buf)%nat →
  ∃ f' calls, over_the_wire ds' f buf p max_length = Some (Some f') ∧
    TransportFb.ForAllPackets f' = Some calls ∧
    Forall2 (tells (TransportFb.base_time_ticks_ f')) (filter TransportFb.arrived calls) (map (λ q, (u16 q.1, q.2)) ps).

Lemma describes_delivered ds' ssrc count first f ps next : length ds' = 14%nat → uint32 ssrc → uint8 count →
  describes true ssrc count first f ps next → delivered ds' f ps.
Proof.
  intros Hds' Hs Hc [Hsend Hssrc Hseq [sizes Hb] Hi _ _ [t Hl] Hnum Hrec] buf p max_length Hm Hbuf.
  assert (Hn : TransportFb.num_seq_no_ f ≠ 0).
  { destruct Hb as (_ & _ & (_ & _ & _ & -> & _) & Hmt & _). destruct sizes as [|size sizes]; [|cbn; lia].
    cbn in Hmt. rewrite Hmt in Hnum. by destruct ps. }
  destruct (built_delivered ds' f sizes (map (λ q, (u16 q.1, q.2)) ps) buf p max_length)
    as (f' & calls & E & Hsame & _ & Ec & Ht & _); try done.
  { unfold sendable. rewrite Hsend, Hssrc, Hseq. split_and!; [unfold uint32; lia|done..]. }
  exists f', calls. destruct Hsame as [Hh _]. unfold TransportFb.header in Hh. injection Hh as _ _ _ Et _ _.
  rewrite Et. done.
Qed.

(** A tiling of the window delivers every packet. *)
Lemma reports_delivered ds' ssrc count w ps fs w' : length ds' = 14%nat → uint32 ssrc → uint8 count →
  reports ssrc count w ps fs w' → ∃ Ps, Forall2 (delivered ds') fs Ps ∧ concat Ps = ps.
Proof.
  intros Hds' Hs Hc H. induction H as [count w|count w f P next ps fs w' Hd H IH]; [by exists []|].
  destruct IH as (Ps & HF & <-); [apply u8_range|]. exists (P :: Ps). split; [|done].
  constructor; [|done]. by apply (describes_delivered ds' ssrc count w f P next).
Qed.

Lemma received_in_sorted v s n : StronglySorted (λ a b, a.1 < b.1) (ArrivalMap.received_list v s n).
Proof.
  revert s. induction n as [|n IH]; intros s; cbn [ArrivalMap.received_list]; [constructor|].
  destruct (ArrivalMap.received_at v s); [|done]. constructor; [done|].
  apply List.Forall_forall. intros [x t] Hin%list_elem_of_In.
  apply ArrivalMap.received_list_elem in Hin as [? _]. cbn. lia.
Qed.

(** What is reported when the clock is due: each packet from the start of the window on that
    was received, once and in order, at its time. *)
Definition reported (ds' : list Z) (g : TransportSequenceNumberFeedbackGenenerator)
    (fs : list TransportFb.TransportFeedback) : Prop :=
  ∃ Ps, Forall2 (delivered ds') fs Ps ∧ StronglySorted (λ a b, a.1 < b.1) (concat Ps) ∧
    ∀ x t, (x, t) ∈ concat Ps ↔
      ArrivalMap.arrival (packet_arrival_times_ g) x = Some (Some t) ∧
      ∃ w, periodic_window_start_seq_ g = Some w ∧ w ≤ x.

Lemma Process_reported ds ds' B g v now : length ds = 14%nat → length ds' = 14%nat → gen_ok B g v →
  TransportFb.time_in_range now → due g now →
  ∃ fs g', Process ds g now = Some (send_interval_ g, fs, g') ∧ last_process_time_ g' = now ∧
    (∀ w, periodic_window_start_seq_ g = Some w →
       periodic_window_start_seq_ g' = Some (ArrivalMap.end_sequence_number_ (packet_arrival_times_ g))) ∧
    reported ds' g fs.
Proof.
  intros Hds Hds' Hok Hnow Hdue. destruct (periodic_due ds B g v now Hds Hok Hnow Hdue) as (fs & g' & E & _ & Hl & _ & H).
  exists fs, g'. split; [done|]. split; [done|]. destruct Hok as [[Hrep _ _ _ _ _] _ _ _ _ _ _ _ Hc Hs].
  destruct (ArrivalMap.represents_range _ v Hrep) as [_ ->].
  destruct (periodic_window_start_seq_ g) as [w|] eqn:Ew.
  - destruct H as [Hr Hw]. split; [done|]. destruct (reports_delivered ds' _ _ _ _ _ _ Hds' Hs Hc Hr) as (Ps & HF & HP).
    exists Ps. rewrite HP. split; [done|]. split; [apply received_in_sorted|]. intros x t.
    rewrite (ArrivalMap.arrival_ok _ v), Ew by done. unfold ArrivalMap.received_in. rewrite ArrivalMap.received_list_elem.
    split.
    + intros [Hx ->]. split; [done|]. exists w. split; [done|lia].
    + intros [[= Hx] (w' & [= <-] & Hle)]. split; [|done]. apply ArrivalMap.received_at_in in Hx as [? _]. lia.
  - split; [done|]. exists []. subst fs. split; [constructor|]. split; [constructor|]. intros x t. rewrite Ew. cbn.
    split; [by intros ?%not_elem_of_nil|]. by intros (_ & w & ? & _).
Qed.

(** C6: Periodic feedback is complete and correct. After any session of up to 2^43 events,
    when the clock is due, [Process] sends messages that report exactly the packets that
    arrived since the start of the window, each once and in order: each message, written
    into any buffer with room for it and parsed by the sender, tells it which packets
    arrived and at which times, within 125 us and modulo the wrap period of the reference
    time (some 12 days). The window then starts behind them, and the next call is asked
    for after the send interval. When it is not due nothing is sent, nothing changes and
    the time to wait is positive. *)
Theorem wide_process_correct (ds ds' : list Z) (es : list event) (now : Z) : session_ok ds es →
  length ds' = 14%nat → TransportFb.time_in_range now →
  ∃ ms g wait fs g', run_events ds new_generator es = Some (ms, g) ∧ Process ds g now = Some (wait, fs, g') ∧
    (due g now → wait = send_interval_ g ∧ last_process_time_ g' = now ∧
       (∀ w, periodic_window_start_seq_ g = Some w →
          periodic_window_start_seq_ g' = Some (ArrivalMap.end_sequence_number_ (packet_arrival_times_ g))) ∧
       reported ds' g fs) ∧
    (¬ due g now → fs = [] ∧ g' = g ∧ 0 < wait).
Proof.
  intros Hs Hds' Hnow. destruct (session_gen_ok ds es Hs) as (ms & g & v & E & Hok). exists ms, g.
  destruct Hs as (Hds & _ & _). destruct (decide (due g now)) as [Hd|Hd].
  - destruct (Process_reported ds ds' _ g v now Hds Hds' Hok Hnow Hd) as (fs & g' & E' & H1 & H2 & H3).
    exists (send_interval_ g), fs, g'. by split_and!.
  - destruct (Process_wait ds _ g v now Hok Hnow Hd) as (wait & E' & Hw & _). exists wait, [], g. by split_and!.
Qed.

Lemma wide_process_correct_witness :
  ∃ ms g wait fs g', run_events (replicate 14 7) new_generator example_events = Some (ms, g) ∧
    Process (replicate 14 7) g 1200000 = Some (wait, fs, g') ∧
    (due g 1200000 → wait = send_interval_ g ∧ last_process_time_ g' = 1200000 ∧
       (∀ w, periodic_window_start_seq_ g = Some w →
          periodic_window_start_seq_ g' = Some (ArrivalMap.end_sequence_number_ (packet_arrival_times_ g))) ∧
       reported (replicate 14 9) g fs) ∧
    (¬ due g 1200000 → fs = [] ∧ g' = g ∧ 0 < wait).
Proof.
  apply (wide_process_correct (replicate 14 7) (replicate 14 9) example_events 1200000);
    [apply example_session_ok|done|unfold TransportFb.time_in_range; lia].
Defined.

(** ** Every packet is reported *)












(** ** Feedback on request *)

(** What the map holds once the packet [s] arrived at [t]. *)
Definition holds (g : TransportSequenceNumberFeedbackGenenerator) (s t x u : Z) : Prop :=
  if decide (x = s) then u = t else ArrivalMap.arrival (packet_arrival_times_ g) x = Some (Some u).

(** The packets in a range that ends with the new one. *)
Lemma holds_in g v s t first x u : ArrivalMap.represents (packet_arrival_times_ g) v → 0 ≤ t →
  ArrivalMap.too_old v s = false → s - 32768 < first ≤ s →
  (x, u) ∈ ArrivalMap.received_in (ArrivalMap.spec_add v s t) first (s + 1) ↔ first ≤ x ≤ s ∧ holds g s t x u.
Proof.
  intros Hrep Ht Ho Hf. unfold ArrivalMap.received_in, holds. rewrite ArrivalMap.received_list_elem.
  rewrite ArrivalMap.spec_add_received, Ho, (ArrivalMap.arrival_ok _ v) by done.
  assert (E : first + Z.of_nat (Z.to_nat (s + 1 - first)) = s + 1) by lia. rewrite E.
  destruct (Z.eqb_spec x s) as [->|Hne].
  { rewrite decide_True by done. split; [intros [_ [= ->]]|intros [_ ->]]; (split; [lia|done]). }
  rewrite decide_False by done.
  assert (Hkept : first ≤ x → (if x <? ArrivalMap.first_number (ArrivalMap.spec_add v s t) then None
    else ArrivalMap.received_at v x) = ArrivalMap.received_at v x).
  { intros Hx. destruct (Z.ltb_spec x (ArrivalMap.first_number (ArrivalMap.spec_add v s t))) as [Hlt|]; [|done].
    destruct (ArrivalMap.received_at v x) as [w|] eqn:Er; [|done]. exfalso.
    pose proof (ArrivalMap.spec_add_first v s t x w Er Hlt) as H. change ArrivalMap.kMaxNumberOfPackets with 32768 in H. lia. }
  split.
  - intros [Hx Hr]. rewrite Hkept in Hr by lia. split; [lia|by rewrite Hr].
  - intros [Hx [= Hr]]. rewrite Hkept by lia. split; [lia|done].
Qed.

(** A request is answered at once. After any session, a packet of version 2 of the
    extension that is new, not more than 2^15 behind the newest one and asks for feedback
    about the last packets up to itself is answered by exactly one message, with the next
    feedback number, about the packets in that range that were received, itself included:
    all of them, or as many as fit; the packets before the range are forgotten. A message
    with times tells the sender the times. *)
Theorem request_answered (ds ds' : list Z) (es : list event) (p : RtpPacketReceived) (n : Z)
    (r : FeedbackRequest) :
  session_ok ds es → length ds' = 14%nat → packet_ok p → IsInfinite (rtp_arrival_time p) = false →
  transport_number p = Some (n, Some r) → has_v1 p = false → sequence_count r ≠ 0 →
  ∃ ms g fs g', run_events ds new_generator es = Some (ms, g) ∧ OnReceivedPacket ds g p = Some (fs, g') ∧
    let s := (Unwrap 16 (unwrapper_ g) n).1 in
    let first := s - sequence_count r + 1 in
    (ArrivalMap.arrival (packet_arrival_times_ g) s = Some None →
     ArrivalMap.end_sequence_number_ (packet_arrival_times_ g) - s ≤ 32768 →
     (∀ x, x < first → ArrivalMap.arrival (packet_arrival_times_ g') x = Some None) ∧
     ∃ f P Q next, fs = [f] ∧
       describes (include_timestamps r) (rtp_ssrc p) (feedback_packet_count_ g) first f P next ∧
       (include_timestamps r = true → delivered ds' f P) ∧ ends_before f Q ∧
       ∀ x t, (x, t) ∈ P ++ Q ↔ first ≤ x ≤ s ∧ holds g s (rtp_arrival_time p) x t).
Proof.
  intros Hs Hds' Hp Hi En H1 Hc0. destruct (session_gen_ok ds es Hs) as (ms & g & v & E & Hok).
  destruct Hs as (Hds & _ & Hes). set (B := 65535 + 32768 * Z.of_nat (length es)) in *.
  assert (HB : small B) by (unfold small; lia). assert (Hn := p_number p Hp n _ En). assert (Hr := p_request p Hp n r En).
  assert (Ht : TransportFb.time_in_range (rtp_arrival_time p)) by (destruct (p_time p Hp); [congruence|done]).
  destruct (OnReceivedPacket_number ds B g v p n (Some r)) as (fs & g' & v3 & E3 & _ & _); try done; [lia|].
  exists ms, g, fs, g'. split; [done|]. split; [done|]. intros s first Hnew Hend.
  destruct (OnReceivedPacket_finish ds g v p n (Some r) (g_map _ _ _ Hok) Ht En) as (m' & v' & E' & Hc & Hv).
  specialize (Hv H1) as ->. fold s in E', Hc. rewrite E' in E3. unfold finish in E3.
  rewrite (ArrivalMap.arrival_ok _ v) in Hnew by apply Hok. injection Hnew as Hnew.
  rewrite (ArrivalMap.has_received_ok m' v), Hnew, bool_decide_eq_false_2 in E3 by (apply Hc || by intros []).
  destruct (entered_ok B g v p n s m' v Hok HB ltac:(lia) Hn eq_refl Hc Hp Ht) as (m2 & E2 & Hok2 & Eb & _).
  cbn [mbind option_bind] in E3. rewrite E2 in E3. cbn [mbind option_bind] in E3.
  pose proof (number_range B g v n s Hok HB Hn eq_refl) as Hsr.
  destruct (SendFeedbackOnRequest_ok ds (B + 32768) _ _ s r Hds Hok2) as (fs' & g3 & v3' & E4 & Hok3 & _ & H);
    [lia|lia|done|]. rewrite E4 in E3. injection E3 as -> ->.
  destruct (ArrivalMap.represents_range _ v (m_rep _ _ (g_map _ _ _ Hok))) as [_ Ee]. rewrite Ee in Hend.
  assert (Ho : ArrivalMap.too_old v s = false).
  { destruct (ArrivalMap.too_old v s) eqn:Eo; [|done]. apply ArrivalMap.too_old_by in Eo.
    change ArrivalMap.kMaxNumberOfPackets with 32768 in Eo. lia. }
  assert (Hin : ∀ x u, _) by (intros x u; apply (holds_in g v s (rtp_arrival_time p) first x u);
    [apply Hok|apply Ht|done|unfold first; lia]).
  fold first in H. destruct fs as [|f fs].
  { exfalso. destruct H as [_ H]. assert (Hself : (s, rtp_arrival_time p) ∈ ([] : list (Z * Z))).
    { rewrite <- H. apply Hin. split; [unfold first; lia|]. unfold holds. by rewrite decide_True. }
    by apply not_elem_of_nil in Hself. }
  destruct H as (-> & Hera & P & Q & next & ER & _ & Hq & Hd). split.
  - intros x Hx. rewrite (ArrivalMap.arrival_ok _ v3') by apply Hok3. by rewrite Hera, (proj2 (Z.ltb_lt x first)).
  - exists f, P, Q, next. split; [done|]. split; [exact Hd|]. split; [|split; [done|by rewrite <- ER]].
    intros Hinc. rewrite Hinc in Hd. apply (describes_delivered ds' _ _ _ _ _ _ Hds' (p_ssrc p Hp) (g_count _ _ _ Hok) Hd).
Qed.

Definition example_request : RtpPacketReceived :=
  mkReceivedRtp 1120000 78 false None true (Some (4, Some (mkRequest true 6))).

Lemma example_request_ok : packet_ok example_request.
Proof.
  split; cbn; try done.
  - right. unfold TransportFb.time_in_range. lia.
  - by intros n r [= <- <-].
  - intros n r [= <- <-]. cbn. lia.
Qed.

Lemma request_answered_witness :
  ∃ ms g fs g', run_events (replicate 14 7) new_generator example_events = Some (ms, g) ∧
    OnReceivedPacket (replicate 14 7) g example_request = Some (fs, g') ∧
    let s := (Unwrap 16 (unwrapper_ g) 4).1 in
    let first := s - 6 + 1 in
    (ArrivalMap.arrival (packet_arrival_times_ g) s = Some None →
     ArrivalMap.end_sequence_number_ (packet_arrival_times_ g) - s ≤ 32768 →
     (∀ x, x < first → ArrivalMap.arrival (packet_arrival_times_ g') x = Some None) ∧
     ∃ f P Q next, fs = [f] ∧
       describes true 78 (feedback_packet_count_ g) first f P next ∧
       (true = true → delivered (replicate 14 9) f P) ∧ ends_before f Q ∧
       ∀ x t, (x, t) ∈ P ++ Q ↔ first ≤ x ≤ s ∧ holds g s 1120000 x t).
Proof.
  apply (request_answered (replicate 14 7) (replicate 14 9) example_events example_request 4 (mkRequest true 6));
    [apply example_session_ok|done|apply example_request_ok|done..].
Defined.

End WideSession.
