(* ===== verification/ExtNumber.v ===== *)
(** * The header extensions with the transport-wide sequence number
    (modules/rtp_rtcp/source/rtp_header_extensions.cc, .h: TransportSequenceNumber and
    TransportSequenceNumberV2)

    The bytes of the two extensions, and the packets the generator of WideGenerator.v
    sees when they are parsed: what that file assumes of the fields of a packet holds for
    every packet that came from the network. *)

From stdpp Require Import list.
From S2P Require Import Prelude SeqNum Units Rtcp ArrivalMap TransportChunk TransportFb TransportCodec WideGenerator.
Import SeqNum Units Rtcp WideGenerator.

Module ExtNumber.

Definition kValueSizeBytesV1 : nat := 2.
Definition kValueSizeBytesV2 : nat := 4.
Definition kValueSizeBytesWithoutFeedbackRequest : nat := 2.
Definition kIncludeTimestampsBit : Z := Z.shiftl 1 15.

(** [None] inside: the extension is refused. *)
Definition ParseV1 (data : list Z) : option (option Z) :=
  if negb (length data =? kValueSizeBytesV1)%nat then Some None
  else transport_sequence_number ← ReadBigEndian16 data 0; Some (Some transport_sequence_number).

Definition WriteV1 (data : list Z) (transport_sequence_number : Z) : option (list Z) :=
  _ ← dcheck (length data =? kValueSizeBytesV1)%nat;
  WriteBigEndian16 data 0 transport_sequence_number.

Definition ParseV2 (data : list Z) : option (option (Z * option FeedbackRequest)) :=
  if negb (length data =? kValueSizeBytesV2)%nat &&
     negb (length data =? kValueSizeBytesWithoutFeedbackRequest)%nat then Some None
  else
    transport_sequence_number ← ReadBigEndian16 data 0;
    if (length data =? kValueSizeBytesV2)%nat then
      feedback_request_raw ← ReadBigEndian16 data 2;
      let include_timestamps := negb (Z.land feedback_request_raw kIncludeTimestampsBit =? 0) in
      let sequence_count := u16 (Z.land feedback_request_raw (Z.lnot kIncludeTimestampsBit)) in
      Some (Some (transport_sequence_number,
                  if negb (sequence_count =? 0) then Some (mkRequest include_timestamps sequence_count) else None))
    else Some (Some (transport_sequence_number, None)).

Definition ValueSizeV2 (feedback_request : option FeedbackRequest) : nat :=
  match feedback_request with
  | Some _ => kValueSizeBytesV2
  | None => kValueSizeBytesWithoutFeedbackRequest
  end.

Definition WriteV2 (data : list Z) (transport_sequence_number : Z) (feedback_request : option FeedbackRequest)
  : option (list Z) :=
  _ ← dcheck (length data =? ValueSizeV2 feedback_request)%nat;
  data ← WriteBigEndian16 data 0 transport_sequence_number;
  match feedback_request with
  | None => Some data
  | Some request =>
      _ ← dcheck (0 <=? sequence_count request);
      _ ← dcheck (sequence_count request <? kIncludeTimestampsBit);
      let feedback_request_raw :=
        u16 (Z.lor (sequence_count request) (if include_timestamps request then kIncludeTimestampsBit else 0)) in
      WriteBigEndian16 data 2 feedback_request_raw
  end.

(** ** The two fields of a request *)

Lemma flag_field (c : Z) (t : bool) : 0 ≤ c < 32768 →
  let raw := Z.lor c (if t then kIncludeTimestampsBit else 0) in
  uint16 raw ∧ Z.land raw (Z.lnot kIncludeTimestampsBit) = c ∧
  (Z.land raw kIncludeTimestampsBit =? 0) = negb t.
Proof.
  intros Hc raw. change kIncludeTimestampsBit with (2 ^ 15) in *.
  assert (Hh : ∀ n, 15 ≤ n → Z.testbit c n = false).
  { intros n Hn. destruct (Z.eq_dec c 0) as [->|]; [apply Z.bits_0|]. apply Z.bits_above_log2; [lia|].
    assert (Z.log2 c < 15) by (apply Z.log2_lt_pow2; lia). lia. }
  assert (E : raw = c + (if t then 32768 else 0)).
  { unfold raw. destruct t; [|by rewrite Z.lor_0_r, Z.add_0_r].
    assert (E0 : Z.land c (2 ^ 15) = 0).
    { apply Z.bits_inj'. intros n Hn. rewrite Z.land_spec, Z.bits_0, Z.pow2_bits_eqb by lia.
      destruct (Z.eqb_spec 15 n) as [<-|]; rewrite ?andb_false_r, ?Hh by lia; done. }
    by rewrite <- Z.lxor_lor, <- Z.add_nocarry_lxor. }
  split; [rewrite E; destruct t; unfold uint16; lia|]. split.
  - apply Z.bits_inj'. intros n Hn. unfold raw. rewrite Z.land_spec, Z.lor_spec, Z.lnot_spec by done.
    destruct t; rewrite ?Z.pow2_bits_eqb, ?Z.bits_0 by lia; destruct (Z.eqb_spec 15 n) as [<-|]; cbn [negb];
      rewrite ?Hh, ?andb_true_r, ?orb_false_r by lia; done.
  - assert (El : Z.land raw (2 ^ 15) = if t then 2 ^ 15 else 0).
    { apply Z.bits_inj'. intros n Hn. unfold raw. rewrite Z.land_spec, Z.lor_spec.
      destruct t; rewrite ?Z.pow2_bits_eqb, ?Z.bits_0 by lia; destruct (Z.eqb_spec 15 n) as [<-|]; cbn [negb];
        rewrite ?Hh, ?andb_true_r, ?andb_false_r, ?orb_true_r by lia; done. }
    rewrite El. by destruct t.
Qed.

(** ** Parsing *)

Lemma land_flag_range raw : uint16 raw →
  0 ≤ Z.land raw (Z.lnot kIncludeTimestampsBit) ≤ 32767.
Proof.
  intros Hr. change (Z.lnot kIncludeTimestampsBit) with (Z.lnot (2 ^ 15)). rewrite <- Z.ldiff_land.
  assert (E : Z.ldiff raw (2 ^ 15) = raw mod 2 ^ 15).
  { rewrite <- Z.land_ones by lia. apply Z.bits_inj'. intros n Hn.
    rewrite Z.ldiff_spec, Z.land_spec, Z.pow2_bits_eqb, Z.testbit_ones_nonneg by lia.
    destruct (Z.ltb_spec n 15) as [Hlt|Hge].
    - rewrite (proj2 (Z.eqb_neq 15 n)) by lia. done.
    - rewrite andb_false_r. destruct (Z.eqb_spec 15 n) as [<-|]; [by rewrite andb_false_r|].
      unfold uint16 in Hr. rewrite andb_true_r. destruct (Z.eq_dec raw 0) as [->|]; [apply Z.bits_0|].
      apply Z.bits_above_log2; [lia|]. assert (Z.log2 raw < 16) by (apply Z.log2_lt_pow2; lia). lia. }
  rewrite E. pose proof (Z.mod_pos_bound raw (2 ^ 15)). lia.
Qed.

Definition number_ok (r : option (Z * option FeedbackRequest)) : Prop :=
  ∀ n q, r = Some (n, q) → uint16 n ∧ ∀ request, q = Some request → 0 < sequence_count request ≤ 32767.

(** Parsing arbitrary bytes reads only the bytes and gives values of their width. *)
Lemma ParseV1_ok data : bytes_ok data → wp (ParseV1 data) (λ r, ∀ n, r = Some n → uint16 n).
Proof.
  intros Hb. unfold ParseV1, kValueSizeBytesV1. destruct (Nat.eqb_spec (length data) 2) as [Hl|]; cbn [negb]; [|by apply wp_ret].
  apply wp_bind. wp_call (apply ReadBigEndian16_safe; [done|lia]). intros v Hv. apply wp_ret. by intros n [= <-].
Qed.

Lemma ParseV2_ok data : bytes_ok data → wp (ParseV2 data) number_ok.
Proof.
  intros Hb. unfold ParseV2, kValueSizeBytesV2, kValueSizeBytesWithoutFeedbackRequest.
  destruct (negb _ && negb _) eqn:E; [by apply wp_ret|].
  assert (Hl : length data = 4%nat ∨ length data = 2%nat).
  { apply andb_false_iff in E as [E%negb_false_iff%Nat.eqb_eq|E%negb_false_iff%Nat.eqb_eq]; auto. }
  apply wp_bind. wp_call (apply ReadBigEndian16_safe; [done|lia]). intros v Hv.
  destruct (Nat.eqb_spec (length data) 4) as [H4|H4].
  - apply wp_bind. wp_call (apply ReadBigEndian16_safe; [done|lia]). intros raw Hraw. apply wp_ret.
    intros n q [= <- <-]. split; [done|]. intros request.
    pose proof (land_flag_range raw Hraw). rewrite u16_id by (unfold uint16; lia).
    destruct (Z.eqb_spec (Z.land raw (Z.lnot kIncludeTimestampsBit)) 0); cbn [negb]; [done|]. intros [= <-]. cbn. lia.
  - apply wp_ret. intros n q [= <- <-]. done.
Qed.

(** ** Packets from the network *)

(** A packet with the bytes of the two extensions, where they are present. *)
Definition from_network (arrival_time ssrc : Z) (ext1 ext2 : option (list Z)) : option RtpPacketReceived :=
  v1 ← match ext1 with Some data => ParseV1 data | None => Some None end;
  v2 ← match ext2 with Some data => ParseV2 data | None => Some None end;
  Some (mkReceivedRtp arrival_time ssrc (bool_decide (is_Some ext1)) v1 (bool_decide (is_Some ext2)) v2).

(** What the generator assumes of its packets holds for every packet from the network with
    one of the extensions. *)
Lemma from_network_ok arrival_time ssrc ext1 ext2 :
  IsInfinite arrival_time = true ∨ TransportFb.time_in_range arrival_time → uint32 ssrc →
  (∀ data, ext1 = Some data → bytes_ok data) → (∀ data, ext2 = Some data → bytes_ok data) →
  is_Some ext1 ∨ is_Some ext2 →
  wp (from_network arrival_time ssrc ext1 ext2) packet_ok.
Proof.
  intros Ht Hs H1 H2 Hext. unfold from_network.
  assert (W1 : wp (match ext1 with Some data => ParseV1 data | None => Some None end) (λ r, ∀ n, r = Some n → uint16 n))
    by (destruct ext1; [by apply ParseV1_ok, H1|by apply wp_ret]).
  assert (W2 : wp (match ext2 with Some data => ParseV2 data | None => Some None end) number_ok)
    by (destruct ext2; [by apply ParseV2_ok, H2|by apply wp_ret]).
  apply wp_bind. wp_call (exact W1). intros v1 Hv1. apply wp_bind. wp_call (exact W2). intros v2 Hv2. apply wp_ret.
  split; cbn; unfold transport_number; cbn [get_v1 get_v2 has_v1 has_v2]; try done.
  - intros n r. destruct v1 as [n1|]; [intros [= <- <-]; by apply Hv1|]. intros ->. by destruct (Hv2 n r eq_refl).
  - intros n r. destruct v1 as [n1|]; [done|]. intros ->. destruct (Hv2 n _ eq_refl) as [_ H].
    specialize (H r eq_refl). lia.
  - intros _. destruct Hext as [H|H].
    + by rewrite (bool_decide_eq_true_2 (is_Some ext1)).
    + rewrite (bool_decide_eq_true_2 (is_Some ext2)) by done. apply orb_true_r.
Qed.

(** ** Round trips *)

Definition request_ok (q : option FeedbackRequest) : Prop :=
  ∀ r, q = Some r → 0 ≤ sequence_count r < 32768.

(** A request for no packets is read as no request. *)
Definition effective (q : option FeedbackRequest) : option FeedbackRequest :=
  match q with
  | Some r => if sequence_count r =? 0 then None else Some r
  | None => None
  end.

Lemma read16_put buf p v : (p + 2 ≤ length buf)%nat → uint16 v →
  ReadBigEndian16 (put buf p (be16 v)) p = Some v.
Proof. intros Hl Hv. apply read16_at; [|done]. by apply at_pos_put. Qed.

Lemma WriteV2_spec data n q : length data = ValueSizeV2 q → uint16 n → request_ok q →
  ∃ data', WriteV2 data n q = Some data' ∧ length data' = length data ∧
    ParseV2 data' = Some (Some (n, effective q)).
Proof.
  intros Hl Hn Hq. unfold WriteV2. rewrite Hl, Nat.eqb_refl. cbn [dcheck mbind option_bind].
  assert (H2 : (0 + 2 ≤ length data)%nat) by (rewrite Hl; destruct q; cbn; unfold kValueSizeBytesV2, kValueSizeBytesWithoutFeedbackRequest; lia).
  rewrite WriteBigEndian16_put by lia. cbn [mbind option_bind].
  assert (L1 : length (put data 0 (be16 n)) = length data) by (by apply length_put).
  destruct q as [[t c]|]; cbn [ValueSizeV2 effective sequence_count include_timestamps] in *.
  - specialize (Hq _ eq_refl) as Hc. cbn [sequence_count] in Hc.
    destruct (flag_field c t Hc) as (Hr & Ef & Et).
    rewrite (proj2 (Z.leb_le 0 c)), (proj2 (Z.ltb_lt c _)) by (change kIncludeTimestampsBit with 32768; lia).
    cbn [dcheck mbind option_bind]. set (raw := Z.lor c _) in *.
    rewrite (u16_id raw), WriteBigEndian16_put by (done || (rewrite L1, Hl; unfold kValueSizeBytesV2; lia)).
    assert (E2 : put (put data 0 (be16 n)) 2 (be16 raw) = put data 0 (be16 n ++ be16 raw))
      by (apply (put_put data 0 (be16 n) (be16 raw)); rewrite Hl; cbn; unfold kValueSizeBytesV2; lia).
    rewrite E2. assert (Hroom : (0 + length (be16 n ++ be16 raw) ≤ length data)%nat) by (rewrite Hl; cbn; unfold kValueSizeBytesV2; lia).
    destruct (at_pos_app _ _ _ _ (at_pos_put data 0 _ Hroom)) as [A1 A2].
    exists (put data 0 (be16 n ++ be16 raw)). rewrite length_put by done. split; [done|]. split; [done|].
    unfold ParseV2. rewrite length_put, Hl by done. cbn [Nat.eqb kValueSizeBytesV2 negb andb].
    rewrite (read16_at _ 0 n), (read16_at _ 2 raw) by done. cbn [mbind option_bind].
    rewrite Ef, Et, (u16_id c), negb_involutive by (unfold uint16; lia). by destruct (c =? 0).
  - exists (put data 0 (be16 n)). split; [done|]. split; [congruence|]. unfold ParseV2. rewrite L1, Hl.
    cbn [Nat.eqb kValueSizeBytesV2 kValueSizeBytesWithoutFeedbackRequest negb andb].
    rewrite read16_put by (done || lia). done.
Qed.

(** The header extensions carry the sequence number and the request. What [WriteV2] writes
    into an extension of the size [ValueSizeV2] asks for is read back by [ParseV2] as the same
    number and the same request, a request for no packets as none; without a request the bytes
    are those of version 1, and both parsers read them. *)
Theorem extension_roundtrip (data : list Z) (n : Z) (q : option FeedbackRequest) :
  length data = ValueSizeV2 q → uint16 n → request_ok q →
  ∃ data', WriteV2 data n q = Some data' ∧ ParseV2 data' = Some (Some (n, effective q)) ∧
    (q = None → WriteV1 data n = Some data' ∧ ParseV1 data' = Some (Some n)).
Proof.
  intros Hl Hn Hq. destruct (WriteV2_spec data n q Hl Hn Hq) as (data' & E & Hl' & Hp).
  exists data'. split; [done|]. split; [done|]. intros ->. cbn [ValueSizeV2] in Hl.
  unfold WriteV2, WriteV1, ParseV1 in *. cbn [ValueSizeV2] in E.
  change kValueSizeBytesWithoutFeedbackRequest with kValueSizeBytesV1 in *. rewrite Hl', Hl in *.
  rewrite Nat.eqb_refl in *. cbn [dcheck mbind option_bind negb] in *.
  destruct (WriteBigEndian16 data 0 n) as [d|] eqn:Ew; [|done]. cbn [mbind option_bind] in E. injection E as ->.
  split; [done|]. rewrite WriteBigEndian16_put in Ew by (unfold kValueSizeBytesV1 in Hl; lia). injection Ew as <-.
  by rewrite read16_put by (unfold kValueSizeBytesV1 in Hl; lia || done).
Qed.

Lemma extension_roundtrip_witness :
  ∃ data', WriteV2 [7; 7; 7; 7] 513 (Some (mkRequest true 300)) = Some data' ∧
    ParseV2 data' = Some (Some (513, effective (Some (mkRequest true 300)))) ∧
    (Some (mkRequest true 300) = None → WriteV1 [7; 7; 7; 7] 513 = Some data' ∧ ParseV1 data' = Some (Some 513)).
Proof.
  apply (extension_roundtrip [7; 7; 7; 7] 513 (Some (mkRequest true 300)));
    [done|unfold uint16; lia|intros r [= <-]; cbn; lia].
Defined.

End ExtNumber.
