(* ===== verification/Demuxer.v ===== *)
(** * The demultiplexer of transport-wide feedback
    (modules/congestion_controller/rtp/transport_feedback_demuxer.cc, .h)

    The sender keeps which packet of which stream had which transport-wide number. A
    feedback message is split: every observer is told the fate of the packets of its
    streams. The specification speaks of the calls of a session: the packets sent and not
    acknowledged since, and the observers registered. *)

From stdpp Require Import list.
From S2P Require Import Prelude SeqNum Units Rtcp OrderedMap TransportChunk TransportFb.
Import SeqNum Units OrderedMap.

Module Demuxer.

Definition kMaxPacketsInHistory : Z := 5000.

Inductive RtpPacketMediaType := kAudio | kVideo | kRetransmission | kForwardErrorCorrection | kPadding.

(** The fields the demultiplexer reads. *)
Record RtpPacketSendInfo := mkSendInfo {
  transport_sequence_number : Z;
  media_ssrc : option Z;
  send_rtp_sequence_number : Z;
  packet_type : option RtpPacketMediaType;
}.

Record StreamPacketInfo := mkInfo {
  received : bool;
  ssrc : option Z;
  rtp_sequence_number : Z;
  is_retransmission : bool;
}.

(** An observer is its address, 0 the null pointer. *)
Record TransportFeedbackDemuxer := mkDemuxer {
  seq_num_unwrapper_ : SeqNumUnwrapper;
  history_ : list (Z * StreamPacketInfo);
  observers_ : list (list Z * Z);
}.

Definition new_demuxer : TransportFeedbackDemuxer := mkDemuxer new_unwrapper [] [].

Definition RegisterStreamFeedbackObserver (self : TransportFeedbackDemuxer) (ssrcs : list Z) (observer : Z)
  : option TransportFeedbackDemuxer :=
  _ ← dcheck (negb (observer =? 0));
  _ ← dcheck (forallb (λ entry, negb (entry.2 =? observer)) (observers_ self));
  Some (mkDemuxer (seq_num_unwrapper_ self) (history_ self) (observers_ self ++ [(ssrcs, observer)])).

(** The observers without the first entry of [observer], if there is one. *)
Fixpoint remove_observer (observers : list (list Z * Z)) (observer : Z) : option (list (list Z * Z)) :=
  match observers with
  | [] => None
  | entry :: observers =>
      if entry.2 =? observer then Some observers
      else rest ← remove_observer observers observer; Some (entry :: rest)
  end.

Definition DeRegisterStreamFeedbackObserver (self : TransportFeedbackDemuxer) (observer : Z)
  : option TransportFeedbackDemuxer :=
  _ ← dcheck (negb (observer =? 0));
  observers ← remove_observer (observers_ self) observer;
  Some (mkDemuxer (seq_num_unwrapper_ self) (history_ self) observers).

Fixpoint erase_oldest (history : list (Z * StreamPacketInfo)) : list (Z * StreamPacketInfo) :=
  match history with
  | [] => []
  | _ :: rest =>
      if Z.of_nat (length history) >? kMaxPacketsInHistory then erase_oldest rest else history
  end.

Definition is_retransmission_type (t : option RtpPacketMediaType) : bool :=
  match t with Some kRetransmission => true | _ => false end.

Definition AddPacket (self : TransportFeedbackDemuxer) (packet_info : RtpPacketSendInfo)
  : TransportFeedbackDemuxer :=
  let info := mkInfo false (media_ssrc packet_info) (send_rtp_sequence_number packet_info)
                (is_retransmission_type (packet_type packet_info)) in
  let '(seq, unwrapper) := Unwrap 16 (seq_num_unwrapper_ self) (transport_sequence_number packet_info) in
  mkDemuxer unwrapper (erase_oldest (emplace seq info (history_ self))) (observers_ self).

Definition mark_received (info : StreamPacketInfo) (r : bool) : StreamPacketInfo :=
  mkInfo r (ssrc info) (rtp_sequence_number info) (is_retransmission info).

(** The handler of [ForAllPackets]: the history and the feedback so far. *)
Definition handle (unwrapper : SeqNumUnwrapper)
    (st : list (Z * StreamPacketInfo) * list StreamPacketInfo) (call : Z * Z)
  : list (Z * StreamPacketInfo) * list StreamPacketInfo :=
  let '(history, stream_feedbacks) := st in
  let '(sequence_number, delta_since_base) := call in
  let seq := PeekUnwrap 16 unwrapper sequence_number in
  match find seq history with
  | Some info =>
      (if IsFinite delta_since_base then erase seq history else history,
       stream_feedbacks ++ [mark_received info (IsFinite delta_since_base)])
  | None => (history, stream_feedbacks)
  end.

(** A packet without a stream is selected by no observer. *)
Definition selects (ssrcs : list Z) (info : StreamPacketInfo) : bool :=
  match ssrc info with Some s => existsb (Z.eqb s) ssrcs | None => false end.

(** The calls of [OnPacketFeedbackVector]: observer and argument. *)
Definition notify (observers : list (list Z * Z)) (stream_feedbacks : list StreamPacketInfo)
  : list (Z * list StreamPacketInfo) :=
  flat_map (λ observer,
    let selected_feedback := List.filter (selects observer.1) stream_feedbacks in
    match selected_feedback with [] => [] | _ => [(observer.2, selected_feedback)] end) observers.

Definition OnTransportFeedback (self : TransportFeedbackDemuxer) (feedback : TransportFb.TransportFeedback)
  : option (list (Z * list StreamPacketInfo) * TransportFeedbackDemuxer) :=
  calls ← TransportFb.ForAllPackets feedback;
  let '(history, stream_feedbacks) :=
    foldl (handle (seq_num_unwrapper_ self)) (history_ self, []) calls in
  Some (notify (observers_ self) stream_feedbacks,
        mkDemuxer (seq_num_unwrapper_ self) history (observers_ self)).

(** ** The invariant *)

Record demuxer_ok (d : TransportFeedbackDemuxer) : Prop := {
  ok_unwrapper : consistent 16 (seq_num_unwrapper_ d);
  ok_ordered : ordered (history_ d);
  ok_history : Z.of_nat (length (history_ d)) ≤ kMaxPacketsInHistory;
  ok_observers : NoDup (map snd (observers_ d));
}.

(** *** Sessions *)

Inductive event :=
| Register (ssrcs : list Z) (observer : Z)
| Deregister (observer : Z)
| Send (packet_info : RtpPacketSendInfo)
| Feedback (feedback : TransportFb.TransportFeedback).

Definition event_ok (e : event) : Prop :=
  match e with
  | Send p => uint16 (transport_sequence_number p)
  | Feedback f => ∃ sizes, TransportFb.well_formed TransportFb.allowed f sizes
  | _ => True
  end.

Definition run_event (d : TransportFeedbackDemuxer) (e : event) : option TransportFeedbackDemuxer :=
  match e with
  | Register ssrcs observer => RegisterStreamFeedbackObserver d ssrcs observer
  | Deregister observer => DeRegisterStreamFeedbackObserver d observer
  | Send p => Some (AddPacket d p)
  | Feedback f => '(_, d) ← OnTransportFeedback d f; Some d
  end.

Fixpoint run_events (d : TransportFeedbackDemuxer) (es : list event) : option TransportFeedbackDemuxer :=
  match es with
  | [] => Some d
  | e :: es => d ← run_event d e; run_events d es
  end.

Lemma erase_oldest_suffix h : ∃ old, h = old ++ erase_oldest h ∧
  Z.of_nat (length (erase_oldest h)) ≤ kMaxPacketsInHistory ∧
  (old ≠ [] → Z.of_nat (length (erase_oldest h)) = kMaxPacketsInHistory).
Proof.
  induction h as [|p h IH]; [by exists []|]. cbn [erase_oldest]. rewrite Z.gtb_ltb.
  destruct (Z.ltb_spec kMaxPacketsInHistory (Z.of_nat (length (p :: h)))) as [Hlt|Hge].
  - destruct IH as (old & E & Hl & Hm). exists (p :: old). split; [by rewrite <- app_comm_cons, <- E|].
    split; [done|]. intros _. destruct old as [|q old]; [|by apply Hm]. cbn [app] in E. rewrite <- E in *.
    cbn [length] in Hlt. lia.
  - by exists [].
Qed.

Lemma ordered_app {V} (a b : list (Z * V)) : ordered (a ++ b) → ordered b.
Proof. induction a as [|[k v] a IH]; [done|]. intros [H _]%ordered_inv. by apply IH. Qed.

Lemma AddPacket_demuxer_ok d p : demuxer_ok d → uint16 (transport_sequence_number p) → demuxer_ok (AddPacket d p).
Proof.
  intros [Hu Ho Hh Hob] Hp. unfold AddPacket.
  destruct (Unwrap_congruent 16 ltac:(lia) (seq_num_unwrapper_ d) (transport_sequence_number p)) as [_ Hc];
    [unfold uint16 in Hp; lia|done|].
  destruct (Unwrap 16 _ _) as [seq u]. cbn [fst snd] in *.
  set (h := emplace seq _ (history_ d)). destruct (erase_oldest_suffix h) as (old & E & Hl & _).
  split; cbn [seq_num_unwrapper_ history_ observers_]; try done.
  apply (ordered_app old). rewrite <- E. by apply emplace_ordered.
Qed.

Lemma remove_observer_ok os o os' : remove_observer os o = Some os' → sublist (map snd os') (map snd os).
Proof.
  revert os'. induction os as [|p os IH]; intros os'; cbn [remove_observer]; [done|].
  destruct (p.2 =? o); [intros [= <-]; by apply sublist_cons|].
  destruct (remove_observer os o) as [rest|]; [|done]. cbn [mbind option_bind]. intros [= <-].
  cbn [map]. by apply sublist_skip, IH.
Qed.

(** ** Splitting a message *)

(** What the calls of a message report about the packets under their numbers, in the order
    of the message. *)
Definition fates (packets : Z → option StreamPacketInfo) (u : SeqNumUnwrapper) (calls : list (Z * Z))
  : list StreamPacketInfo :=
  omap (λ call, info ← packets (PeekUnwrap 16 u call.1); Some (mark_received info (IsFinite call.2))) calls.

Definition known_feedback (u : SeqNumUnwrapper) (h : list (Z * StreamPacketInfo)) (calls : list (Z * Z))
  : list StreamPacketInfo := fates (λ k, find k h) u calls.

(** A packet is acknowledged if one of the calls gives it a time. *)
Definition acknowledged (u : SeqNumUnwrapper) (calls : list (Z * Z)) (k : Z) : bool :=
  existsb (λ call, (PeekUnwrap 16 u call.1 =? k) && IsFinite call.2) calls.

Lemma PeekUnwrap_Unwrap u v : PeekUnwrap 16 u v = (Unwrap 16 u v).1.
Proof. done. Qed.

(** Different numbers stay different. *)
Lemma PeekUnwrap_inj u a b : consistent 16 u → uint16 a → uint16 b →
  PeekUnwrap 16 u a = PeekUnwrap 16 u b → a = b.
Proof.
  intros Hu Ha Hb E. unfold uint16 in *. rewrite !PeekUnwrap_Unwrap in E.
  destruct (Unwrap_congruent 16 ltac:(lia) u a ltac:(lia) Hu) as [Ea _].
  destruct (Unwrap_congruent 16 ltac:(lia) u b ltac:(lia) Hu) as [Eb _]. rewrite E in Ea. congruence.
Qed.

Lemma known_feedback_erase u s h calls : ordered h → (∀ c, c ∈ calls → PeekUnwrap 16 u c.1 ≠ s) →
  known_feedback u (erase s h) calls = known_feedback u h calls.
Proof.
  intros Ho. induction calls as [|c calls IH]; intros Hc; [done|]. unfold known_feedback, fates in *. cbn [omap list_omap].
  rewrite find_erase, (proj2 (Z.eqb_neq _ s)) by (done || apply Hc; left).
  by rewrite IH by (intros; apply Hc; by right).
Qed.

Lemma handle_ok u calls : consistent 16 u → Forall (λ c, uint16 c.1) calls → NoDup (map fst calls) →
  ∀ h fs, ordered h →
  ∃ h', foldl (handle u) (h, fs) calls = (h', fs ++ known_feedback u h calls) ∧ ordered h' ∧
    sublist h' h ∧
    ∀ k, find k h' = if acknowledged u calls k then None else find k h.
Proof.
  intros Hu. induction calls as [|[n t] calls IH]; intros Hr Hd h fs Ho; cbn [foldl].
  { exists h. by rewrite app_nil_r. }
  apply Forall_cons_1 in Hr as [Hn Hr]. cbn [map fst] in *. apply list.NoDup_cons in Hd as [Hin Hd].
  set (s := PeekUnwrap 16 u n).
  assert (Hother : ∀ c, c ∈ calls → PeekUnwrap 16 u c.1 ≠ s).
  { intros c Hc E. apply PeekUnwrap_inj in E; [|done| |done].
    - apply Hin. rewrite <- E. apply list_elem_of_In, in_map, list_elem_of_In, Hc.
    - rewrite List.Forall_forall in Hr. by apply (Hr c), list_elem_of_In. }
  assert (Hsame := known_feedback_erase u s h calls Ho Hother).
  assert (Hack : acknowledged u calls s = false).
  { apply not_true_iff_false. intros (c & Hc%list_elem_of_In & [E%Z.eqb_eq _]%andb_true_iff)%existsb_exists.
    by apply (Hother c). }
  cbn [handle]. fold s. unfold known_feedback, fates. cbn [omap list_omap fst snd]. fold s.
  fold (fates (λ k, find k h) u calls). fold (known_feedback u h calls).
  destruct (find s h) as [info|] eqn:Ef; cbn [mbind option_bind].
  - destruct (IsFinite t) eqn:Et.
    + destruct (IH Hr Hd (erase s h) (fs ++ [mark_received info true])) as (h' & -> & Ho' & Hs' & Hf); [by apply erase_ordered|].
      exists h'. rewrite Hsame, <- app_assoc. split; [done|]. split; [done|]. split; [etransitivity; [exact Hs'|apply erase_sublist]|].
      intros k. rewrite Hf, find_erase by done. cbn [acknowledged existsb fst snd]. fold s. rewrite Et, andb_true_r.
      fold (acknowledged u calls k). rewrite (Z.eqb_sym s k). destruct (k =? s), (acknowledged u calls k); done.
    + destruct (IH Hr Hd h (fs ++ [mark_received info false])) as (h' & -> & Ho' & Hs' & Hf); [done|].
      exists h'. rewrite <- app_assoc. split; [done|]. split; [done|]. split; [done|].
      intros k. rewrite Hf. cbn [acknowledged existsb fst snd]. by rewrite Et, andb_false_r.
  - destruct (IH Hr Hd h fs) as (h' & -> & Ho' & Hs' & Hf); [done|]. exists h'. split; [done|]. split; [done|]. split; [done|].
    intros k. rewrite Hf. cbn [acknowledged existsb fst snd]. fold s. fold (acknowledged u calls k).
    destruct (Z.eqb_spec s k) as [<-|]; cbn [andb orb]; [|done]. rewrite Hack, Ef. by destruct (IsFinite t).
Qed.

Lemma numbers_distinct base (n : nat) : Z.of_nat n ≤ 65536 →
  NoDup (map (λ i : nat, u16 (base + Z.of_nat i)) (seq 0 n)).
Proof.
  intros Hn. apply NoDup_fmap_2_strong; [|apply NoDup_seq].
  intros i j Hi%elem_of_seq Hj%elem_of_seq E. unfold u16 in E.
  Z.to_euclidean_division_equations; lia.
Qed.

(** The calls of a message are about different numbers. *)
Lemma calls_distinct f sizes : TransportFb.well_formed TransportFb.allowed f sizes →
  ∃ calls, TransportFb.ForAllPackets f = Some calls ∧ Forall (λ c, uint16 c.1) calls ∧ NoDup (map fst calls).
Proof.
  intros Hw. destruct (TransportFb.ForAllPackets_spec f sizes Hw) as (calls & E & Hc & _).
  exists calls. split; [done|]. destruct Hw as (_ & _ & Hn & Hm & _). split.
  - assert (H : Forall uint16 (map fst calls)).
    { rewrite Hc. apply List.Forall_forall. intros x (i & <- & _)%in_map_iff. apply u16_range. }
    clear -H. induction calls as [|c calls IH]; [constructor|]. apply Forall_cons_1 in H as [? ?]. constructor; [done|auto].
  - rewrite Hc. apply numbers_distinct. lia.
Qed.

Lemma OnTransportFeedback_ok d f sizes : demuxer_ok d → TransportFb.well_formed TransportFb.allowed f sizes →
  ∃ calls d', TransportFb.ForAllPackets f = Some calls ∧
    OnTransportFeedback d f =
      Some (notify (observers_ d) (known_feedback (seq_num_unwrapper_ d) (history_ d) calls), d') ∧
    demuxer_ok d' ∧ observers_ d' = observers_ d ∧ seq_num_unwrapper_ d' = seq_num_unwrapper_ d ∧
    sublist (history_ d') (history_ d) ∧
    ∀ k, find k (history_ d') =
      if acknowledged (seq_num_unwrapper_ d) calls k then None else find k (history_ d).
Proof.
  intros [Hu Ho Hh Hob] Hw. destruct (calls_distinct f sizes Hw) as (calls & E & Hr & Hd).
  destruct (handle_ok (seq_num_unwrapper_ d) calls Hu Hr Hd (history_ d) [] Ho) as (h' & E' & Ho' & Hs & Hf).
  unfold OnTransportFeedback. rewrite E. cbn [mbind option_bind]. rewrite E'.
  do 2 eexists. split; [done|]. split; [done|]. split; [|done].
  split; cbn [seq_num_unwrapper_ history_ observers_]; try done. apply sublist_length in Hs. lia.
Qed.

(** The observers without [o]. *)
Lemma remove_observer_filter os o os' : NoDup (map snd os) → remove_observer os o = Some os' →
  os' = List.filter (λ e, negb (e.2 =? o)) os.
Proof.
  revert os'. induction os as [|e os IH]; intros os' Hd; cbn [remove_observer List.filter map] in *; [done|].
  apply list.NoDup_cons in Hd as [Hin Hd]. destruct (Z.eqb_spec e.2 o) as [<-|Hne]; cbn [negb].
  - intros [= <-]. clear IH Hd. induction os as [|x os IH]; [done|]. cbn [map List.filter] in *.
    rewrite not_elem_of_cons in Hin. destruct Hin as [Hx Hin].
    rewrite (proj2 (Z.eqb_neq x.2 e.2)) by congruence. cbn [negb]. f_equal. by apply IH.
  - destruct (remove_observer os o) as [rest|]; [|done]. cbn [mbind option_bind]. intros [= <-]. f_equal. by apply IH.
Qed.

(** *** What a session leaves to be told *)

(** The description of a packet that is sent. *)
Definition info_of (p : RtpPacketSendInfo) : StreamPacketInfo :=
  mkInfo false (media_ssrc p) (send_rtp_sequence_number p) (is_retransmission_type (packet_type p)).

(** After the calls of a session: the unwrapper of the sent numbers, all numbers given so
    far, under each number the packets sent and not acknowledged since, the observers. *)
Record ghost := mkGhost {
  g_unwrapper : SeqNumUnwrapper;
  g_numbers : list Z;
  g_outstanding : Z → list StreamPacketInfo;
  g_observers : list (list Z * Z);
}.

Definition ghost_step (g : ghost) (e : event) : ghost :=
  match e with
  | Register ssrcs o =>
      mkGhost (g_unwrapper g) (g_numbers g) (g_outstanding g) (g_observers g ++ [(ssrcs, o)])
  | Deregister o =>
      mkGhost (g_unwrapper g) (g_numbers g) (g_outstanding g)
        (List.filter (λ e, negb (e.2 =? o)) (g_observers g))
  | Send p =>
      let '(k, u) := Unwrap 16 (g_unwrapper g) (transport_sequence_number p) in
      mkGhost u (k :: g_numbers g)
        (λ x, if x =? k then info_of p :: g_outstanding g x else g_outstanding g x) (g_observers g)
  | Feedback f =>
      let calls := default [] (TransportFb.ForAllPackets f) in
      mkGhost (g_unwrapper g) (g_numbers g)
        (λ x, if acknowledged (g_unwrapper g) calls x then [] else g_outstanding g x) (g_observers g)
  end.

Definition session : list event → ghost :=
  foldl ghost_step (mkGhost new_unwrapper [] (λ _, []) []).

(** The object after the session. *)
Record tracks (d : TransportFeedbackDemuxer) (g : ghost) : Prop := {
  t_ok : demuxer_ok d;
  t_unwrapper : seq_num_unwrapper_ d = g_unwrapper g;
  t_observers : observers_ d = g_observers g;
  t_history : ∀ k i, find k (history_ d) = Some i → i ∈ g_outstanding g k ∧ k ∈ g_numbers g;
}.

Lemma find_app {V} k (a b : list (Z * V)) : find k (a ++ b) = match find k a with Some v => Some v | None => find k b end.
Proof. induction a as [|[k' v] a IH]; [done|]. cbn [app find]. by destruct (k =? k'). Qed.

Lemma find_in_suffix {V} k (a b : list (Z * V)) v : ordered (a ++ b) → find k b = Some v → find k (a ++ b) = Some v.
Proof. intros Ho E%find_elem. apply elem_find; [done|]. apply elem_of_app. by right. Qed.

Lemma demuxer_tracks_step d g e d' : tracks d g → event_ok e → run_event d e = Some d' → tracks d' (ghost_step g e).
Proof.
  intros [Hok Eu Eo Hh] He E. destruct e as [ssrcs o|o|p|f]; cbn [run_event ghost_step] in *.
  - unfold RegisterStreamFeedbackObserver in E. destruct (dcheck (negb _)); [|done]. cbn [mbind option_bind] in E.
    destruct (forallb _ _) eqn:Ea; [|done]. cbn in E. injection E as <-. destruct Hok.
    split; cbn [seq_num_unwrapper_ history_ observers_ g_unwrapper g_observers]; try done; [|by rewrite Eo].
    split; cbn [seq_num_unwrapper_ history_ observers_]; try done.
    rewrite map_app. apply list.NoDup_app. split; [done|]. split; [|apply NoDup_singleton].
    intros x Hx ->%list_elem_of_singleton. apply list_elem_of_In, in_map_iff in Hx as (e & He' & Hin).
    rewrite forallb_forall in Ea. specialize (Ea e Hin). cbn in He'. rewrite He', Z.eqb_refl in Ea. done.
  - unfold DeRegisterStreamFeedbackObserver in E. destruct (dcheck _); [|done]. cbn [mbind option_bind] in E.
    destruct (remove_observer _ _) as [os|] eqn:Er; [|done]. injection E as <-. destruct Hok.
    split; cbn [seq_num_unwrapper_ history_ observers_ g_unwrapper g_observers]; try done.
    + split; cbn [seq_num_unwrapper_ history_ observers_]; try done. apply (sublist_NoDup _ _ ok_observers0).
      by apply (remove_observer_ok _ o).
    + rewrite <- Eo. by apply remove_observer_filter.
  - injection E as <-. pose proof (AddPacket_demuxer_ok d p Hok He) as Hok'. unfold AddPacket in *. fold (info_of p) in *.
    rewrite <- Eu. destruct (Unwrap 16 _ _) as [k u]. split; try done.
    intros x i. cbn [history_ g_outstanding g_numbers]. intros Hf.
    destruct (erase_oldest_suffix (emplace k (info_of p) (history_ d))) as (old & Es & _).
    pose proof (emplace_ordered k (info_of p) _ (ok_ordered _ Hok)) as Ho. rewrite Es in Ho.
    pose proof (find_in_suffix x _ _ i Ho Hf) as Hf'. rewrite <- Es, find_emplace in Hf' by apply Hok.
    rewrite elem_of_cons. destruct (Z.eqb_spec x k) as [->|Hne].
    + split; [|by left]. destruct (find k (history_ d)) as [i'|] eqn:Ef; injection Hf' as <-; [|left].
      right. by apply Hh.
    + destruct (Hh x i Hf'). split; [done|by right].
  - destruct He as [sizes Hw]. destruct (OnTransportFeedback_ok d f sizes Hok Hw) as (calls & d1 & Ec & E1 & Hok1 & Eo1 & Eu1 & _ & Hf).
    rewrite E1 in E. cbn in E. injection E as <-. rewrite Ec. cbn [default].
    split; cbn [g_unwrapper g_observers g_outstanding g_numbers]; try done; [congruence|congruence|].
    intros k i. rewrite Hf, Eu. destruct (acknowledged _ _ _); [done|]. apply Hh.
Qed.

Lemma tracks_run es : ∀ d g d', tracks d g → Forall event_ok es → run_events d es = Some d' →
  tracks d' (foldl ghost_step g es).
Proof.
  induction es as [|e es IH]; intros d g d' Ht He E; cbn [run_events foldl] in *; [by injection E as <-|].
  apply Forall_cons_1 in He as [He Hes]. apply bind_Some in E as (d1 & E1 & E).
  apply (IH d1); [|done|done]. by apply (demuxer_tracks_step d).
Qed.

Lemma tracks_new : tracks new_demuxer (session []).
Proof. split; try done. split; cbn; try done; constructor. Qed.

(** *** Recent packets are kept *)

(** The number of packets in the history behind [s]. *)
Definition above (s : Z) (h : list (Z * StreamPacketInfo)) : nat := length (List.filter (λ e, s <? e.1) h).

Lemma above_app s a b : above s (a ++ b) = (above s a + above s b)%nat.
Proof. unfold above. by rewrite List.filter_app, length_app. Qed.

Lemma above_cons s e h : above s (e :: h) = ((if (s <? e.1)%Z then 1 else 0) + above s h)%nat.
Proof. unfold above. cbn [List.filter]. by destruct (s <? e.1). Qed.

Lemma above_sublist s h h' : sublist h' h → (above s h' ≤ above s h)%nat.
Proof.
  induction 1 as [|e h' h _ IH|e h' h _ IH]; [done| |]; rewrite !above_cons; lia.
Qed.

Lemma above_emplace s k i h : (above s (emplace k i h) ≤ above s h + 1)%nat.
Proof.
  induction h as [|[k' i'] h IH]; cbn [emplace]; [rewrite above_cons; destruct (_ <? _); cbn; lia|].
  destruct (k <? k'); [rewrite (above_cons s (k, i)); destruct (_ <? _); lia|].
  destruct (k =? k'); [lia|]. rewrite !above_cons. lia.
Qed.

Lemma above_all s h : (∀ e, e ∈ h → s < e.1) → above s h = length h.
Proof.
  induction h as [|e h IH]; intros H; [done|]. rewrite above_cons, (proj2 (Z.ltb_lt _ _)) by (apply H; left).
  cbn [length]. rewrite IH; [done|]. intros x Hx. apply H. by right.
Qed.

Lemma above_none s h : (∀ e, e ∈ h → e.1 ≤ s) → above s h = 0%nat.
Proof.
  induction h as [|e h IH]; intros H; [done|]. rewrite above_cons, (proj2 (Z.ltb_ge _ _)) by (apply H; left).
  apply IH. intros x Hx. apply H. by right.
Qed.

(** Dropping the oldest does not reach a packet with fewer than 5000 behind it. *)
Lemma erase_oldest_kept s i h : ordered h → find s h = Some i → Z.of_nat (above s h) < kMaxPacketsInHistory →
  find s (erase_oldest h) = Some i ∧ (above s (erase_oldest h) ≤ above s h)%nat.
Proof.
  intros Ho Hf Ha. destruct (erase_oldest_suffix h) as (old & E & _ & Hm). set (r := erase_oldest h) in *.
  rewrite E, above_app in Ha |- *. split; [|lia]. rewrite E, find_app in Hf.
  destruct (find s old) as [v|] eqn:Eold; [exfalso|done]. apply find_elem in Eold.
  assert (Hr : ∀ e, e ∈ r → s < e.1).
  { intros e He. rewrite E in Ho. clear -Ho Eold He. induction old as [|[k v'] old IH]; [by apply not_elem_of_nil in Eold|].
    cbn [app] in Ho. apply ordered_inv in Ho as [Ho Hk]. apply elem_of_cons in Eold as [[= -> ->]|Eold].
    - apply Hk, elem_of_app. by right.
    - by apply IH. }
  rewrite (above_all s r Hr) in Ha. assert (old ≠ []) as Hne%Hm by (intros ->; by apply not_elem_of_nil in Eold). lia.
Qed.

(** Packets sent. *)
Definition sends (es : list event) : nat :=
  length (List.filter (λ e, match e with Send _ => true | _ => false end) es).

(** No message of the calls acknowledges [s]. *)
Fixpoint keeps (u : SeqNumUnwrapper) (s : Z) (es : list event) : Prop :=
  match es with
  | [] => True
  | Send p :: es => keeps (Unwrap 16 u (transport_sequence_number p)).2 s es
  | Feedback f :: es => acknowledged u (default [] (TransportFb.ForAllPackets f)) s = false ∧ keeps u s es
  | _ :: es => keeps u s es
  end.

Lemma kept_run s i es : ∀ d g d', tracks d g → Forall event_ok es → run_events d es = Some d' →
  find s (history_ d) = Some i → Z.of_nat (above s (history_ d) + sends es) < kMaxPacketsInHistory →
  keeps (g_unwrapper g) s es → find s (history_ d') = Some i.
Proof.
  induction es as [|e es IH]; intros d g d' Ht He E Hf Ha Hk; cbn [run_events] in E; [by injection E as <-|].
  apply Forall_cons_1 in He as [He Hes]. apply bind_Some in E as (d1 & E1 & E).
  pose proof (demuxer_tracks_step d g e d1 Ht He E1) as Ht1. specialize (IH d1 _ d' Ht1 Hes E).
  destruct e as [ssrcs o|o|p|f]; cbn [run_event ghost_step keeps] in *.
  - unfold RegisterStreamFeedbackObserver in E1. apply bind_Some in E1 as (_ & _ & E1).
    apply bind_Some in E1 as (_ & _ & E1). injection E1 as <-. by apply IH.
  - unfold DeRegisterStreamFeedbackObserver in E1. apply bind_Some in E1 as (_ & _ & E1).
    apply bind_Some in E1 as (os & _ & E1). injection E1 as <-. by apply IH.
  - injection E1 as <-. unfold AddPacket in *. rewrite (t_unwrapper _ _ Ht) in *. fold (info_of p) in *.
    destruct (Unwrap 16 _ _) as [k u]. cbn [history_ g_unwrapper snd] in *.
    pose proof (ok_ordered _ (t_ok _ _ Ht)) as Ho. pose proof (above_emplace s k (info_of p) (history_ d)) as Hab.
    unfold sends in Ha. cbn [List.filter length] in Ha. fold (sends es) in Ha.
    destruct (erase_oldest_kept s i (emplace k (info_of p) (history_ d))) as [Hf' Ha'].
    + by apply emplace_ordered.
    + rewrite find_emplace by done. destruct (Z.eqb_spec s k) as [<-|]; [by rewrite Hf|done].
    + lia.
    + apply IH; [done|lia|done].
  - destruct He as [sizes Hw]. destruct Hk as [Hack Hk].
    destruct (OnTransportFeedback_ok d f sizes (t_ok _ _ Ht) Hw) as (calls & d2 & Ec & E2 & _ & _ & _ & Hs & Hfind).
    rewrite E2 in E1. cbn in E1. injection E1 as <-. rewrite Ec in Hack. change (acknowledged (g_unwrapper g) calls s = false) in Hack.
    apply IH; [|pose proof (above_sublist s _ _ Hs); unfold sends in *; cbn [List.filter] in Ha; lia|done].
    rewrite Hfind, (t_unwrapper _ _ Ht), Hack. done.
Qed.

(** A packet sent with the largest number so far is kept from then on. *)
Lemma sent_kept es p es' d' : Forall event_ok (es ++ Send p :: es') →
  run_events new_demuxer (es ++ Send p :: es') = Some d' →
  let g := session es in
  let s := (Unwrap 16 (g_unwrapper g) (transport_sequence_number p)).1 in
  Forall (λ k, k < s) (g_numbers g) → Z.of_nat (sends es') < kMaxPacketsInHistory →
  keeps (g_unwrapper (ghost_step g (Send p))) s es' → find s (history_ d') = Some (info_of p).
Proof.
  intros He E g s Hnew Hn Hk. apply Forall_app in He as [He [Hp He']%Forall_cons_1].
  assert (Hrun : ∃ d, run_events new_demuxer es = Some d ∧ run_events d (Send p :: es') = Some d').
  { clear -E. revert E. generalize new_demuxer. induction es as [|e es IH]; intros d E; [by exists d|].
    cbn [app run_events] in *. destruct (run_event d e); [|done]. by apply IH. }
  destruct Hrun as (d & Ed & E'). pose proof (tracks_run es new_demuxer _ d tracks_new He Ed) as Ht.
  fold (session es) g in Ht. cbn [run_events run_event mbind option_bind] in E'.
  pose proof (demuxer_tracks_step d g (Send p) _ Ht Hp eq_refl) as Ht1.
  apply (kept_run s (info_of p) es' _ _ d' Ht1 He' E'); [| |done].
  all: unfold AddPacket; rewrite (t_unwrapper _ _ Ht); fold (info_of p); subst s;
    destruct (Unwrap 16 _ _) as [s u]; cbn [fst history_] in *;
    pose proof (ok_ordered _ (t_ok _ _ Ht)) as Ho;
    assert (Hkeys : ∀ e, e ∈ history_ d → e.1 < s) by
      (intros [k i] Hin; apply elem_find in Hin; [|done]; apply (t_history _ _ Ht) in Hin as [_ Hin];
       rewrite List.Forall_forall in Hnew; by apply Hnew, list_elem_of_In);
    assert (Hf : find s (emplace s (info_of p) (history_ d)) = Some (info_of p)) by
      (rewrite find_emplace, Z.eqb_refl by done; by rewrite (find_None s (history_ d)) by (intros a Ha; specialize (Hkeys a Ha); lia));
    assert (Ha0 : above s (emplace s (info_of p) (history_ d)) = 0%nat) by
      (apply above_none; intros e [->|Hin]%emplace_elem; [done|]; specialize (Hkeys e Hin); lia);
    destruct (erase_oldest_kept s (info_of p) _ (emplace_ordered s (info_of p) _ Ho) Hf ltac:(rewrite Ha0; done))
      as [Hf' Ha'].
  - done.
  - unfold kMaxPacketsInHistory in *. lia.
Qed.

(** What the observers are told. *)
Lemma notify_elem os fb o v : (o, v) ∈ notify os fb ↔
  v ≠ [] ∧ ∃ ssrcs, (ssrcs, o) ∈ os ∧ v = List.filter (selects ssrcs) fb.
Proof.
  unfold notify. rewrite list_elem_of_In, in_flat_map. split.
  - intros ([ssrcs o'] & Hin & Hx). cbn [fst snd] in Hx.
    destruct (List.filter (selects ssrcs) fb) as [|i rest] eqn:Ef; [done|]. destruct Hx as [[= -> <-]|[]].
    split; [done|]. exists ssrcs. split; [by apply list_elem_of_In|done].
  - intros (Hne & ssrcs & Hin & ->). exists (ssrcs, o). split; [by apply list_elem_of_In|]. cbn [fst snd].
    destruct (List.filter (selects ssrcs) fb); [done|by left].
Qed.

Lemma notify_once os fb : NoDup (map snd os) → NoDup (map fst (notify os fb)).
Proof.
  intros H. eapply (sublist_NoDup _ _ H). clear H. induction os as [|[ssrcs o] os IH]; [done|].
  cbn [notify flat_map map fst snd]. destruct (List.filter _ _); [by apply sublist_cons|]. cbn [app map fst].
  by apply sublist_skip.
Qed.

(** C30: Every observer is told the fate of its packets, and of no others. Take any session
    of registrations, packets sent with 16-bit numbers and well-formed messages in which no
    documented condition of the registrations is violated. The object then knows of packets
    that were sent and not acknowledged since, and of every packet that was sent with the
    largest number so far, with fewer than 5000 packets sent and no message acknowledging
    it since. And for every further message, the observers that are called are those
    registered for a stream of a known packet the message reports about; each is called
    once, with exactly these packets of its streams, as they were sent, in the order of the
    message, and marked received if the message gives them a time. *)
Theorem demux_correct (es : list event) (d : TransportFeedbackDemuxer) :
  Forall event_ok es → run_events new_demuxer es = Some d →
  ∃ packets : Z → option StreamPacketInfo,
    (∀ k i, packets k = Some i → i ∈ g_outstanding (session es) k) ∧
    (∀ before p after, es = before ++ Send p :: after →
       let g := session before in
       let s := (Unwrap 16 (g_unwrapper g) (transport_sequence_number p)).1 in
       Forall (λ k, k < s) (g_numbers g) → Z.of_nat (sends after) < 5000 →
       keeps (g_unwrapper (ghost_step g (Send p))) s after → packets s = Some (info_of p)) ∧
    ∀ f sizes, TransportFb.well_formed TransportFb.allowed f sizes →
      ∃ calls fs d', TransportFb.ForAllPackets f = Some calls ∧ OnTransportFeedback d f = Some (fs, d') ∧
        NoDup (map fst fs) ∧
        ∀ o v, (o, v) ∈ fs ↔ v ≠ [] ∧ ∃ ssrcs, (ssrcs, o) ∈ g_observers (session es) ∧
          v = List.filter (selects ssrcs) (fates packets (g_unwrapper (session es)) calls).
Proof.
  intros He E. pose proof (tracks_run es new_demuxer _ d tracks_new He E) as Ht. fold (session es) in Ht.
  exists (λ k, find k (history_ d)). split_and!.
  - intros k i Hf. by apply (t_history _ _ Ht).
  - intros before p after -> g s Hnew Hn Hk. by apply (sent_kept before p after).
  - intros f sizes Hw. destruct (OnTransportFeedback_ok d f sizes (t_ok _ _ Ht) Hw) as (calls & d' & Ec & E' & _).
    eexists calls, _, d'. split; [done|]. split; [exact E'|]. split; [apply notify_once, (t_ok _ _ Ht)|].
    intros o v. rewrite (t_observers _ _ Ht), (t_unwrapper _ _ Ht). apply notify_elem.
Qed.

(** An observer, two packets of two streams, and a message about three packets. *)
Definition example_events : list event :=
  [Register [11; 12] 100; Send (mkSendInfo 10 (Some 11) 700 (Some kVideo));
   Send (mkSendInfo 11 (Some 13) 800 (Some kRetransmission))].

Definition example_demuxer : TransportFeedbackDemuxer :=
  Eval vm_compute in default new_demuxer (run_events new_demuxer example_events).

Definition example_message : TransportFb.TransportFeedback :=
  Eval vm_compute in match TransportFb.session true (replicate 14 7) 9 5000000 [(10, 5002000); (12, 5003000)] with
                     | Some (f, _) => f
                     | None => TransportFb.new_feedback true (replicate 14 7)
                     end.

Lemma example_message_built : ∃ sizes, TransportFb.built example_message sizes.
Proof.
  assert (H : wp (TransportFb.session true (replicate 14 7) 9 5000000 [(10, 5002000); (12, 5003000)])
    (λ '(f, _), ∃ sizes, TransportFb.built f sizes)).
  { wp_call (apply TransportFb.session_spec; [done|unfold uint16; lia|unfold TransportFb.time_in_range; lia|]).
    - repeat (apply Forall_cons_2; [unfold TransportFb.packet_ok, uint16, TransportFb.time_in_range; cbn; lia|]).
      apply Forall_nil_2.
    - by intros [f accepted] (_ & _ & ?). }
  exact H.
Qed.

Lemma demux_correct_witness :
  ∃ packets : Z → option StreamPacketInfo,
    packets 11 = Some (mkInfo false (Some 13) 800 true) ∧ packets 12 = None ∧
    ∃ calls fs d', TransportFb.ForAllPackets example_message = Some calls ∧
      OnTransportFeedback example_demuxer example_message = Some (fs, d') ∧ NoDup (map fst fs) ∧
      ∀ o v, (o, v) ∈ fs ↔ v ≠ [] ∧ ∃ ssrcs, (ssrcs, o) ∈ [([11; 12], 100)] ∧
        v = List.filter (selects ssrcs) (fates packets (g_unwrapper (session example_events)) calls).
Proof.
  destruct (demux_correct example_events example_demuxer) as (packets & H1 & H2 & H3); [|reflexivity|].
  { repeat (apply Forall_cons_2; [cbn; unfold uint16; done || lia|]). apply Forall_nil_2. }
  exists packets. split_and!.
  - apply (H2 (take 2 example_events) (mkSendInfo 11 (Some 13) 800 (Some kRetransmission)) []); [reflexivity| |done|done].
    apply Forall_cons_2; [reflexivity|]. apply Forall_nil_2.
  - destruct (packets 12) as [i|] eqn:Ep; [|reflexivity]. apply H1 in Ep. by apply not_elem_of_nil in Ep.
  - destruct example_message_built as [sizes H]. apply (H3 example_message sizes).
    by apply TransportFb.well_formed_allowed, TransportFb.built_well_formed.
Defined.

(** The observer learns that its packet 700 arrived; the other stream has no observer. The
    packet that arrived is forgotten, the other one kept. *)
Example example_split : ∃ d', OnTransportFeedback example_demuxer example_message =
  Some ([(100, [mkInfo true (Some 11) 700 false])], d') ∧ find 10 (history_ d') = None ∧
  find 11 (history_ d') = Some (mkInfo false (Some 13) 800 true).
Proof. eexists. split; [reflexivity|]. done. Qed.

End Demuxer.
