(* ===== verification/TransportAdapter.v ===== *)
(** * Matching feedback with sent packets
    (modules/congestion_controller/rtp/transport_feedback_adapter.cc, .h,
    api/transport/network_types.h, rtc_base/network_route.h)

    The sender's side of the feedback: the adapter keeps the history of sent packets,
    counts the bytes in flight on each route, and turns a feedback message into the
    results the congestion controller works with. The history is an ordered map; the
    bytes in flight and the index by SSRC and RTP sequence number are finite maps.
    Feedback comes as RFC 8888 reports or as transport-wide feedback messages. *)

From stdpp Require Import gmap sorting.
From S2P Require Import Prelude SeqNum Units Rtcp CcFeedback OrderedMap TransportFb.
Import SeqNum Units CcFeedback OrderedMap.

Module TransportAdapter.

(** ** Routes *)

Record RouteEndpoint := mkEndpoint {
  adapter_type : Z;
  adapter_id : Z;
  network_id : Z;
  uses_turn : bool;
}.

Record NetworkRoute := mkRoute {
  connected : bool;
  local : RouteEndpoint;
  remote : RouteEndpoint;
  last_sent_packet_id : Z;
  packet_overhead : Z;
}.

#[export] Instance RouteEndpoint_eq_dec : EqDecision RouteEndpoint.
Proof. solve_decision. Defined.

#[export] Instance NetworkRoute_eq_dec : EqDecision NetworkRoute.
Proof. solve_decision. Defined.

Definition bool_lt (a b : bool) : bool := negb a && b.

Definition NetworkRouteComparator (a b : NetworkRoute) : bool :=
  if negb (network_id (local a) =? network_id (local b))
  then network_id (local a) <? network_id (local b)
  else if negb (network_id (remote a) =? network_id (remote b))
  then network_id (remote a) <? network_id (remote b)
  else if negb (adapter_id (local a) =? adapter_id (local b))
  then adapter_id (local a) <? adapter_id (local b)
  else if negb (adapter_id (remote a) =? adapter_id (remote b))
  then adapter_id (remote a) <? adapter_id (remote b)
  else if negb (eqb (uses_turn (local a)) (uses_turn (local b)))
  then bool_lt (uses_turn (local a)) (uses_turn (local b))
  else if negb (eqb (uses_turn (remote a)) (uses_turn (remote b)))
  then bool_lt (uses_turn (remote a)) (uses_turn (remote b))
  else bool_lt (connected a) (connected b).

(** What the comparison looks at: a map ordered by it has one entry per key. *)
Notation RouteKey := (Z * Z * Z * Z * bool * bool * bool)%type.
Definition route_key (r : NetworkRoute) : RouteKey :=
  (network_id (local r), network_id (remote r), adapter_id (local r), adapter_id (remote r),
   uses_turn (local r), uses_turn (remote r), connected r).

(** ** Packets *)

Record PacedPacketInfo := mkPaced {
  send_bitrate : Z;
  probe_cluster_id : Z;
  probe_cluster_min_probes : Z;
  probe_cluster_min_bytes : Z;
  probe_cluster_bytes_sent : Z;
}.

Record SentPacket := mkSent {
  send_time : Z;
  size : Z;
  prior_unacked_data : Z;
  pacing_info : PacedPacketInfo;
  audio : bool;
  sent_sequence_number : Z; (* sequence_number *)
  data_in_flight : Z;
}.

Record PacketFeedback := mkPacket {
  creation_time : Z;
  sent : SentPacket;
  receive_time : Z;
  network_route : NetworkRoute;
  pf_ssrc : Z; (* ssrc *)
  rtp_sequence_number : Z;
}.

Record PacketResult := mkResult {
  sent_packet : SentPacket;
  result_receive_time : Z; (* receive_time *)
  result_ecn : EcnMarking; (* ecn *)
}.

Record TransportPacketsFeedback := mkTransport {
  feedback_time : Z;
  msg_data_in_flight : Z; (* data_in_flight *)
  transport_supports_ecn : bool;
  packet_feedbacks : list PacketResult;
}.

(** What the adapter reads of a packet to send and of a sent packet. *)
Record RtpPacketToSend := mkToSend {
  transport_sequence_number : option Z;
  rtp_size : Z;
  is_audio : bool;
  to_send_ssrc : Z;
  to_send_sequence_number : Z;
}.

Record SentPacketInfo := mkSentInfo {
  packet_id : Z;
  send_time_ms : Z;
  included_in_feedback : bool;
  included_in_allocation : bool;
  packet_size_bytes : Z;
}.

(** ** Bytes in flight *)

Notation InFlight := (gmap RouteKey Z).

Definition AddInFlightPacketBytes (in_flight_data_ : InFlight) (packet : PacketFeedback)
  : option InFlight :=
  _ ← dcheck (IsFinite (send_time (sent packet)));
  let k := route_key (network_route packet) in
  match in_flight_data_ !! k with
  | Some n => n ← size_add n (size (sent packet)); Some (<[k := n]> in_flight_data_)
  | None => Some (<[k := size (sent packet)]> in_flight_data_)
  end.

Definition RemoveInFlightPacketBytes (in_flight_data_ : InFlight) (packet : PacketFeedback)
  : option InFlight :=
  if IsInfinite (send_time (sent packet)) then Some in_flight_data_
  else
    let k := route_key (network_route packet) in
    match in_flight_data_ !! k with
    | Some n =>
        _ ← dcheck (size (sent packet) <=? n);
        n ← size_sub n (size (sent packet));
        Some (if n =? 0 then delete k in_flight_data_ else <[k := n]> in_flight_data_)
    | None => Some in_flight_data_
    end.

Definition OutstandingData (in_flight_data_ : InFlight) (r : NetworkRoute) : Z :=
  match in_flight_data_ !! route_key r with Some n => n | None => 0 end.

(** ** The adapter *)

Record TransportFeedbackAdapter := mkAdapter {
  pending_untracked_size_ : Z;
  last_send_time_ : Z;
  last_untracked_send_time_ : Z;
  seq_num_unwrapper_ : SeqNumUnwrapper;
  last_ack_seq_num_ : Z;
  in_flight_ : InFlight;
  network_route_ : NetworkRoute;
  current_offset_ : Z;
  last_transport_feedback_base_time_ : Z;
  last_feedback_compact_ntp_time_ : option Z;
  rtp_to_transport_sequence_number_ : gmap (Z * Z) Z;
  history_ : list (Z * PacketFeedback);
}.

Definition default_endpoint : RouteEndpoint := mkEndpoint 0 0 0 false.
Definition default_route : NetworkRoute := mkRoute false default_endpoint default_endpoint (-1) 0.

Definition new_adapter : TransportFeedbackAdapter :=
  mkAdapter 0 MinusInfinity MinusInfinity new_unwrapper (-1) ∅ default_route MinusInfinity MinusInfinity
    None ∅ [].

Definition kSendTimeHistoryWindow : Z := 60000000.

Definition GetOutstandingData (self : TransportFeedbackAdapter) : Z :=
  OutstandingData (in_flight_ self) (network_route_ self).

Definition SetNetworkRoute (self : TransportFeedbackAdapter) (r : NetworkRoute)
  : TransportFeedbackAdapter :=
  mkAdapter (pending_untracked_size_ self) (last_send_time_ self) (last_untracked_send_time_ self)
    (seq_num_unwrapper_ self) (last_ack_seq_num_ self) (in_flight_ self) r (current_offset_ self)
    (last_transport_feedback_base_time_ self)
    (last_feedback_compact_ntp_time_ self) (rtp_to_transport_sequence_number_ self) (history_ self).

Definition key_of (p : PacketFeedback) : Z * Z := (pf_ssrc p, rtp_sequence_number p).

(** The loop that drops packets older than the history window. *)
Fixpoint prune (creation last_ack : Z) (history : list (Z * PacketFeedback)) (in_flight : InFlight)
    (rtp : gmap (Z * Z) Z) : option (list (Z * PacketFeedback) * InFlight * gmap (Z * Z) Z) :=
  match history with
  | [] => Some ([], in_flight, rtp)
  | (_, p) :: rest =>
      age ← ts_diff creation (creation_time p);
      if age >? kSendTimeHistoryWindow then
        in_flight ← (if sent_sequence_number (sent p) >? last_ack
                     then RemoveInFlightPacketBytes in_flight p else Some in_flight);
        prune creation last_ack rest in_flight (delete (key_of p) rtp)
      else Some (history, in_flight, rtp)
  end.

Definition AddPacket (self : TransportFeedbackAdapter) (packet_to_send : RtpPacketToSend)
    (pacing : PacedPacketInfo) (overhead_bytes creation : Z) : option TransportFeedbackAdapter :=
  match transport_sequence_number packet_to_send with
  | None => None
  | Some tsn =>
      let '(seq, unwrapper) := Unwrap 16 (seq_num_unwrapper_ self) (u16 tsn) in
      sz ← Bytes (u64 (rtp_size packet_to_send + overhead_bytes));
      let feedback := mkPacket creation
        (mkSent PlusInfinity sz 0 pacing (is_audio packet_to_send) seq 0) PlusInfinity
        (network_route_ self) (to_send_ssrc packet_to_send) (to_send_sequence_number packet_to_send) in
      '(history, in_flight, rtp) ←
        prune creation (last_ack_seq_num_ self) (history_ self) (in_flight_ self)
          (rtp_to_transport_sequence_number_ self);
      let rtp := match rtp !! key_of feedback with
                 | Some _ => rtp
                 | None => <[key_of feedback := seq]> rtp
                 end in
      Some (mkAdapter (pending_untracked_size_ self) (last_send_time_ self)
        (last_untracked_send_time_ self) unwrapper (last_ack_seq_num_ self) in_flight
        (network_route_ self) (current_offset_ self) (last_transport_feedback_base_time_ self)
    (last_feedback_compact_ntp_time_ self)
        rtp (emplace seq feedback history))
  end.

Definition TimestampMillis (value : Z) : option Z :=
  _ ← dcheck (0 <=? value);
  _ ← dcheck (Z.quot MinusInfinity 1000 <? value);
  _ ← dcheck (value <? Z.quot PlusInfinity 1000);
  Some (value * 1000).

Definition with_sent (p : PacketFeedback) (s : SentPacket) : PacketFeedback :=
  mkPacket (creation_time p) s (receive_time p) (network_route p) (pf_ssrc p) (rtp_sequence_number p).

Definition ProcessSentPacket (self : TransportFeedbackAdapter) (sent_packet : SentPacketInfo)
  : option (option SentPacket * TransportFeedbackAdapter) :=
  t ← TimestampMillis (send_time_ms sent_packet);
  if included_in_feedback sent_packet || negb (packet_id sent_packet =? -1) then
    let '(seq, unwrapper) := Unwrap 16 (seq_num_unwrapper_ self) (u16 (packet_id sent_packet)) in
    match find seq (history_ self) with
    | Some p =>
        let s := sent p in
        let packet_retransmit := IsFinite (send_time s) in
        let last_send_time := Z.max (last_send_time_ self) t in
        '(prior, pending) ←
          (if negb (pending_untracked_size_ self =? 0) then
             prior ← size_add (prior_unacked_data s) (pending_untracked_size_ self);
             Some (prior, 0)
           else Some (prior_unacked_data s, pending_untracked_size_ self));
        let s := mkSent t (size s) prior (pacing_info s) (audio s) (sent_sequence_number s)
                   (data_in_flight s) in
        if negb packet_retransmit then
          in_flight ← (if sent_sequence_number s >? last_ack_seq_num_ self
                       then AddInFlightPacketBytes (in_flight_ self) (with_sent p s)
                       else Some (in_flight_ self));
          let s := mkSent (send_time s) (size s) (prior_unacked_data s) (pacing_info s) (audio s)
                     (sent_sequence_number s) (OutstandingData in_flight (network_route_ self)) in
          Some (Some s, mkAdapter pending last_send_time (last_untracked_send_time_ self) unwrapper
            (last_ack_seq_num_ self) in_flight (network_route_ self) (current_offset_ self)
            (last_transport_feedback_base_time_ self)
    (last_feedback_compact_ntp_time_ self) (rtp_to_transport_sequence_number_ self)
            (assign seq (with_sent p s) (history_ self)))
        else
          Some (None, mkAdapter pending last_send_time (last_untracked_send_time_ self) unwrapper
            (last_ack_seq_num_ self) (in_flight_ self) (network_route_ self) (current_offset_ self)
            (last_transport_feedback_base_time_ self)
    (last_feedback_compact_ntp_time_ self) (rtp_to_transport_sequence_number_ self)
            (assign seq (with_sent p s) (history_ self)))
    | None =>
        Some (None, mkAdapter (pending_untracked_size_ self) (last_send_time_ self)
          (last_untracked_send_time_ self) unwrapper (last_ack_seq_num_ self) (in_flight_ self)
          (network_route_ self) (current_offset_ self) (last_transport_feedback_base_time_ self)
    (last_feedback_compact_ntp_time_ self)
          (rtp_to_transport_sequence_number_ self) (history_ self))
    end
  else if included_in_allocation sent_packet then
    b ← Bytes (packet_size_bytes sent_packet);
    pending ← size_add (pending_untracked_size_ self) b;
    Some (None, mkAdapter pending (last_send_time_ self) (Z.max (last_untracked_send_time_ self) t)
      (seq_num_unwrapper_ self) (last_ack_seq_num_ self) (in_flight_ self) (network_route_ self)
      (current_offset_ self) (last_transport_feedback_base_time_ self)
    (last_feedback_compact_ntp_time_ self)
      (rtp_to_transport_sequence_number_ self) (history_ self))
  else Some (None, self).

(** The packets with sequence numbers above [lo] and up to [hi] leave the flight. *)
Fixpoint remove_range (lo hi : Z) (history : list (Z * PacketFeedback)) (in_flight : InFlight)
  : option InFlight :=
  match history with
  | [] => Some in_flight
  | (k, p) :: rest =>
      in_flight ← (if (lo <? k) && (k <=? hi) then RemoveInFlightPacketBytes in_flight p
                   else Some in_flight);
      remove_range lo hi rest in_flight
  end.

(** The packet, or [None] for std::nullopt, and the adapter. *)
Definition RetrievePacketFeedback (self : TransportFeedbackAdapter) (transport_seq_num : Z)
    (received : bool) : option (option PacketFeedback * TransportFeedbackAdapter) :=
  '(in_flight, last_ack) ←
    (if transport_seq_num >? last_ack_seq_num_ self then
       in_flight ← remove_range (last_ack_seq_num_ self) transport_seq_num (history_ self)
                     (in_flight_ self);
       Some (in_flight, transport_seq_num)
     else Some (in_flight_ self, last_ack_seq_num_ self));
  let with_maps rtp history :=
    mkAdapter (pending_untracked_size_ self) (last_send_time_ self) (last_untracked_send_time_ self)
      (seq_num_unwrapper_ self) last_ack in_flight (network_route_ self) (current_offset_ self)
      (last_transport_feedback_base_time_ self)
    (last_feedback_compact_ntp_time_ self) rtp history in
  let unchanged := with_maps (rtp_to_transport_sequence_number_ self) (history_ self) in
  match find transport_seq_num (history_ self) with
  | None => Some (None, unchanged)
  | Some p =>
      if IsInfinite (send_time (sent p)) then Some (None, unchanged)
      else if received then
        Some (Some p, with_maps (delete (key_of p) (rtp_to_transport_sequence_number_ self))
                        (erase transport_seq_num (history_ self)))
      else Some (Some p, unchanged)
  end.

Definition RetrieveByKey (self : TransportFeedbackAdapter) (key : Z * Z) (received : bool)
  : option (option PacketFeedback * TransportFeedbackAdapter) :=
  match rtp_to_transport_sequence_number_ self !! key with
  | None => Some (None, self)
  | Some seq => RetrievePacketFeedback self seq received
  end.

Definition ToTransportFeedback (self : TransportFeedbackAdapter) (packet_results : list PacketResult)
    (feedback_receive_time : Z) (supports_ecn : bool) : option TransportPacketsFeedback :=
  match packet_results with
  | [] => None
  | _ => Some (mkTransport feedback_receive_time
                 (OutstandingData (in_flight_ self) (network_route_ self)) supports_ecn packet_results)
  end.

(** The order of the results. *)
Definition send_order (a b : PacketResult) : Prop :=
  sent_sequence_number (sent_packet a) ≤ sent_sequence_number (sent_packet b).

Class SortsResults (c_sort : list PacketResult → list PacketResult) : Prop := {
  results_perm : ∀ l, c_sort l ≡ₚ l;
  results_sorted : ∀ l, StronglySorted send_order (c_sort l);
}.

(** The body of the loop over the reported packets. *)
Definition process_packet (st : TransportFeedbackAdapter * list PacketResult * bool)
    (info : PacketInfo) : option (TransportFeedbackAdapter * list PacketResult * bool) :=
  let '(self, results, supports_ecn) := st in
  let received := IsFinite (arrival_time_offset info) in
  '(packet_feedback, self) ← RetrieveByKey self (ssrc info, sequence_number info) received;
  match packet_feedback with
  | None => Some (self, results, supports_ecn)
  | Some p =>
      if negb (bool_decide (network_route p = network_route_ self))
      then Some (self, results, supports_ecn)
      else
        '(time, supports_ecn) ←
          (if received then
             time ← ts_sub (current_offset_ self) (arrival_time_offset info);
             Some (time, supports_ecn && negb (bool_decide (ecn info = kNotEct)))
           else Some (PlusInfinity, supports_ecn));
        Some (self, results ++ [mkResult (sent p) time (ecn info)], supports_ecn)
  end.

Fixpoint process_packets (st : TransportFeedbackAdapter * list PacketResult * bool)
    (infos : list PacketInfo) : option (TransportFeedbackAdapter * list PacketResult * bool) :=
  match infos with
  | [] => Some st
  | info :: infos => st ← process_packet st info; process_packets st infos
  end.

Definition with_clock (self : TransportFeedbackAdapter) (offset ntp : Z) : TransportFeedbackAdapter :=
  mkAdapter (pending_untracked_size_ self) (last_send_time_ self) (last_untracked_send_time_ self)
    (seq_num_unwrapper_ self) (last_ack_seq_num_ self) (in_flight_ self) (network_route_ self) offset
    (last_transport_feedback_base_time_ self) (Some ntp) (rtp_to_transport_sequence_number_ self) (history_ self).

Definition ProcessCongestionControlFeedback (c_sort : list PacketResult → list PacketResult)
    (self : TransportFeedbackAdapter) (feedback : CongestionControlFeedback)
    (feedback_receive_time : Z)
  : option (option TransportPacketsFeedback * TransportFeedbackAdapter) :=
  match packets_ feedback with
  | [] => Some (None, self)
  | _ =>
      let offset := if IsInfinite (current_offset_ self) then feedback_receive_time
                    else current_offset_ self in
      feedback_delta ←
        match last_feedback_compact_ntp_time_ self with
        | Some last =>
            CompactNtpIntervalToTimeDelta (u32 (report_timestamp_compact_ntp_ feedback - last))
        | None => Some 0
        end;
      offset ← (if feedback_delta <? 0 then Some feedback_receive_time
                else ts_add offset feedback_delta);
      let self := with_clock self offset (report_timestamp_compact_ntp_ feedback) in
      '(self, results, supports_ecn) ← process_packets (self, [], true) (packets_ feedback);
      Some (ToTransportFeedback self (c_sort results) feedback_receive_time supports_ecn, self)
  end.

(** The body of the handler that [ProcessTransportFeedback] passes to [ForAllPackets]. *)
Definition with_unwrapper (self : TransportFeedbackAdapter) (u : SeqNumUnwrapper)
  : TransportFeedbackAdapter :=
  mkAdapter (pending_untracked_size_ self) (last_send_time_ self) (last_untracked_send_time_ self)
    u (last_ack_seq_num_ self) (in_flight_ self) (network_route_ self) (current_offset_ self)
    (last_transport_feedback_base_time_ self) (last_feedback_compact_ntp_time_ self)
    (rtp_to_transport_sequence_number_ self) (history_ self).

Definition handle_packet (st : TransportFeedbackAdapter * list PacketResult) (call : Z * Z)
  : option (TransportFeedbackAdapter * list PacketResult) :=
  let '(self, results) := st in
  let '(seq_number, delta_since_base) := call in
  let '(seq_num, unwrapper) := Unwrap 16 (seq_num_unwrapper_ self) seq_number in
  '(packet_feedback, self) ←
    RetrievePacketFeedback (with_unwrapper self unwrapper) seq_num (IsFinite delta_since_base);
  match packet_feedback with
  | None => Some (self, results)
  | Some p =>
      time ← (if IsFinite delta_since_base then
                d ← RoundDownTo delta_since_base 1000;
                ts_add (current_offset_ self) d
              else Some (receive_time p));
      if bool_decide (network_route p = network_route_ self)
      then Some (self, results ++ [mkResult (sent p) time kNotEct])
      else Some (self, results)
  end.

Definition with_base (self : TransportFeedbackAdapter) (offset base : Z) : TransportFeedbackAdapter :=
  mkAdapter (pending_untracked_size_ self) (last_send_time_ self) (last_untracked_send_time_ self)
    (seq_num_unwrapper_ self) (last_ack_seq_num_ self) (in_flight_ self) (network_route_ self) offset
    base (last_feedback_compact_ntp_time_ self) (rtp_to_transport_sequence_number_ self)
    (history_ self).

(** The local time of the reference time of a message. *)
Definition move_offset (self : TransportFeedbackAdapter) (feedback : TransportFb.TransportFeedback)
    (feedback_receive_time : Z) : option Z :=
  if IsInfinite (last_transport_feedback_base_time_ self) then Some feedback_receive_time
  else
    delta ← TransportFb.GetBaseDelta feedback (last_transport_feedback_base_time_ self);
    delta ← RoundDownTo delta 1000;
    limit ← ts_diff 0 (current_offset_ self);
    if delta <? limit then Some feedback_receive_time
    else ts_add (current_offset_ self) delta.

Definition ProcessTransportFeedback (self : TransportFeedbackAdapter)
    (feedback : TransportFb.TransportFeedback) (feedback_receive_time : Z)
  : option (option TransportPacketsFeedback * TransportFeedbackAdapter) :=
  if TransportFb.num_seq_no_ feedback =? 0 then Some (None, self)
  else
    offset ← move_offset self feedback feedback_receive_time;
    base ← TransportFb.BaseTime (TransportFb.base_time_ticks_ feedback);
    calls ← TransportFb.ForAllPackets feedback;
    '(self, results) ← TransportFb.fold_m handle_packet (with_base self offset base, []) calls;
    Some (ToTransportFeedback self results feedback_receive_time false, self).

(** ** Routes as keys *)

(** Two routes are equivalent for the map exactly when their keys agree. *)
Lemma route_equivalent a b :
  NetworkRouteComparator a b = false ∧ NetworkRouteComparator b a = false ↔ route_key a = route_key b.
Proof.
  unfold NetworkRouteComparator, route_key, bool_lt. split.
  - intros [H1 H2].
    repeat match goal with
    | H : context [Z.eqb ?x ?y] |- _ => destruct (Z.eqb_spec x y); cbn [negb] in *
    | H : (_ <? _) = false |- _ => apply Z.ltb_ge in H
    end; try lia.
    destruct a as [ca [? ? ? ta] [? ? ? ta'] ? ?], b as [cb [? ? ? tb] [? ? ? tb'] ? ?]; cbn in *.
    destruct ca, cb, ta, tb, ta', tb'; cbn in *; try done; congruence.
  - intros [= H1 H2 H3 H4 H5 H6 H7]. rewrite H1, H2, H3, H4, H5, H6, H7.
    rewrite !Z.eqb_refl, !eqb_reflx. cbn. by destruct (connected b).
Qed.

(** ** Bytes in flight *)

(** What a packet of the history contributes to the flight on a route: its size, if
    it was sent on it and lies behind the last acknowledged sequence number. *)
Definition counts (lo : Z) (r : RouteKey) (kp : Z * PacketFeedback) : Z :=
  if (lo <? kp.1) && IsFinite (send_time (sent kp.2)) &&
     bool_decide (route_key (network_route kp.2) = r)
  then size (sent kp.2) else 0.

Definition flying (lo : Z) (r : RouteKey) (history : list (Z * PacketFeedback)) : Z :=
  foldr (λ kp n, counts lo r kp + n) 0 history.

Definition total_size (history : list (Z * PacketFeedback)) : Z :=
  foldr (λ kp n, size (sent kp.2) + n) 0 history.

Definition outstanding (m : InFlight) (r : RouteKey) : Z :=
  match m !! r with Some n => n | None => 0 end.

Definition sizes_ok (history : list (Z * PacketFeedback)) : Prop :=
  Forall (λ kp, 0 ≤ size (sent kp.2)) history.

Lemma flying_app lo r a b : flying lo r (a ++ b) = flying lo r a + flying lo r b.
Proof. unfold flying. induction a as [|x a IH]; cbn [app foldr]; lia. Qed.

Lemma total_app a b : total_size (a ++ b) = total_size a + total_size b.
Proof. unfold total_size. induction a as [|x a IH]; cbn [app foldr]; lia. Qed.

Lemma counts_bounds lo r kp : 0 ≤ size (sent kp.2) → 0 ≤ counts lo r kp ≤ size (sent kp.2).
Proof. unfold counts. destruct (_ && _); lia. Qed.

Lemma flying_bounds lo r h : sizes_ok h → 0 ≤ flying lo r h ≤ total_size h.
Proof.
  induction 1 as [|kp h Hs _ IH]; cbn [flying total_size foldr]; [lia|].
  pose proof (counts_bounds lo r kp Hs). fold (flying lo r h) (total_size h). lia.
Qed.

Lemma Remove_ok m p :
  0 ≤ size (sent p) → (∀ r, 0 ≤ outstanding m r < PlusInfinity) →
  (IsFinite (send_time (sent p)) = true →
     size (sent p) ≤ outstanding m (route_key (network_route p))) →
  ∃ m', RemoveInFlightPacketBytes m p = Some m' ∧
    ∀ r, outstanding m' r = outstanding m r -
      (if IsFinite (send_time (sent p)) && bool_decide (route_key (network_route p) = r)
       then size (sent p) else 0).
Proof.
  intros Hs Hm Hle. unfold RemoveInFlightPacketBytes, IsFinite in *.
  destruct (IsInfinite (send_time (sent p))); cbn [negb andb].
  { exists m. split; [done|]. intros r. lia. }
  specialize (Hle eq_refl). set (k := route_key (network_route p)) in *.
  specialize (Hm k). unfold outstanding in Hm, Hle. destruct (m !! k) as [n|] eqn:E.
  - rewrite (proj2 (Z.leb_le _ _)) by done. cbn [dcheck mbind option_bind].
    rewrite size_sub_ok by (unfold finite, PlusInfinity, MinusInfinity in *; lia).
    cbn [mbind option_bind]. eexists. split; [reflexivity|]. intros r. unfold outstanding.
    case_bool_decide as Hr.
    + subst r. destruct (Z.eqb_spec (n - size (sent p)) 0) as [E0|].
      * rewrite lookup_delete_eq, E. lia.
      * rewrite lookup_insert_eq, E. lia.
    + destruct (_ =? 0); [rewrite lookup_delete_ne by done|rewrite lookup_insert_ne by done]; lia.
  - exists m. split; [done|]. intros r. case_bool_decide as Hr; [|lia]. subst r.
    unfold outstanding. rewrite E. lia.
Qed.

Lemma Add_ok m p :
  0 ≤ size (sent p) → IsFinite (send_time (sent p)) = true →
  (∀ r, 0 ≤ outstanding m r ∧ outstanding m r + size (sent p) < PlusInfinity) →
  ∃ m', AddInFlightPacketBytes m p = Some m' ∧
    ∀ r, outstanding m' r = outstanding m r +
      (if bool_decide (route_key (network_route p) = r) then size (sent p) else 0).
Proof.
  intros Hs Hf Hm. unfold AddInFlightPacketBytes. rewrite Hf. cbn [dcheck mbind option_bind].
  set (k := route_key (network_route p)) in *. specialize (Hm k). unfold outstanding in Hm.
  destruct (m !! k) as [n|] eqn:E.
  - rewrite size_add_ok by (unfold finite, PlusInfinity, MinusInfinity in *; lia).
    cbn [mbind option_bind]. eexists. split; [reflexivity|]. intros r. unfold outstanding.
    case_bool_decide as Hr; [subst r; rewrite lookup_insert_eq, E|rewrite lookup_insert_ne by done]; lia.
  - eexists. split; [reflexivity|]. intros r. unfold outstanding.
    case_bool_decide as Hr; [subst r; rewrite lookup_insert_eq, E|rewrite lookup_insert_ne by done]; lia.
Qed.

(** Removing the first packet of the rest of a history from the flight. *)
Lemma Remove_first lo k p rest m (c : RouteKey → Z) :
  0 ≤ size (sent p) → sizes_ok rest → lo < k →
  (∀ r, 0 ≤ c r ∧ c r + total_size ((k, p) :: rest) < PlusInfinity) →
  (∀ r, outstanding m r = c r + flying lo r ((k, p) :: rest)) →
  ∃ m', RemoveInFlightPacketBytes m p = Some m' ∧ ∀ r, outstanding m' r = c r + flying lo r rest.
Proof.
  intros Hs Hr Hk Hc Hm.
  assert (Hcount : ∀ r, counts lo r (k, p) =
    if IsFinite (send_time (sent p)) && bool_decide (route_key (network_route p) = r)
    then size (sent p) else 0).
  { intros r. unfold counts. cbn [fst snd]. by rewrite (proj2 (Z.ltb_lt lo k) Hk). }
  cbn [flying foldr total_size] in *. fold (total_size rest) in Hc.
  destruct (Remove_ok m p Hs) as (m' & E & H).
  - intros r. rewrite Hm. fold (flying lo r rest). pose proof (flying_bounds lo r rest Hr).
    pose proof (counts_bounds lo r (k, p) Hs). destruct (Hc r). cbn [fst snd] in *. lia.
  - intros Hf. rewrite Hm. fold (flying lo (route_key (network_route p)) rest).
    rewrite Hcount, Hf, bool_decide_eq_true_2 by done. cbn [andb].
    pose proof (flying_bounds lo (route_key (network_route p)) rest Hr).
    destruct (Hc (route_key (network_route p))). lia.
  - exists m'. split; [done|]. intros r. rewrite H, Hm, Hcount. fold (flying lo r rest). lia.
Qed.

Lemma counts_outside lo hi r kp : lo ≤ hi → (lo <? kp.1) && (kp.1 <=? hi) = false →
  counts lo r kp = counts hi r kp.
Proof.
  intros Hle H. unfold counts.
  destruct (Z.ltb_spec lo kp.1), (Z.leb_spec kp.1 hi), (Z.ltb_spec hi kp.1); cbn [andb] in *; try done; lia.
Qed.

(** Acknowledging up to [hi]. *)
Lemma remove_range_ok lo hi history m (c : RouteKey → Z) :
  lo ≤ hi → sizes_ok history →
  (∀ r, 0 ≤ c r ∧ c r + total_size history < PlusInfinity) →
  (∀ r, outstanding m r = c r + flying lo r history) →
  ∃ m', remove_range lo hi history m = Some m' ∧ ∀ r, outstanding m' r = c r + flying hi r history.
Proof.
  intros Hle Hs. revert m c. induction Hs as [|[k p] rest Hp Hs IH]; intros m c Hc Hm.
  { by exists m. }
  cbn [remove_range]. cbn [snd] in Hp.
  assert (Htot : total_size ((k, p) :: rest) = size (sent p) + total_size rest) by done.
  destruct ((lo <? k) && (k <=? hi)) eqn:Hin.
  - apply andb_true_iff in Hin as [Hlo%Z.ltb_lt Hhi%Z.leb_le].
    destruct (Remove_first lo k p rest m c) as (m1 & E1 & H1); try done.
    rewrite E1. cbn [mbind option_bind].
    destruct (IH m1 c) as (m2 & E2 & H2); [|done|].
    { intros r. destruct (Hc r). lia. }
    exists m2. split; [done|]. intros r. rewrite H2. cbn [flying foldr]. fold (flying hi r rest).
    assert (counts hi r (k, p) = 0) as -> by (unfold counts; cbn [fst]; by rewrite (proj2 (Z.ltb_ge hi k))).
    lia.
  - cbn [mbind option_bind].
    destruct (IH m (λ r, c r + counts hi r (k, p))) as (m2 & E2 & H2).
    + intros r. destruct (Hc r). pose proof (counts_bounds hi r (k, p) Hp). cbn [snd] in *. lia.
    + intros r. rewrite Hm. cbn [flying foldr]. fold (flying lo r rest).
      rewrite (counts_outside lo hi r (k, p)) by done. lia.
    + exists m2. split; [done|]. intros r. rewrite H2. cbn [flying foldr]. fold (flying hi r rest). lia.
Qed.

(** ** The invariant *)

Definition entry_ok (kp : Z * PacketFeedback) : Prop :=
  sent_sequence_number (sent kp.2) = kp.1 ∧ 0 ≤ size (sent kp.2) ∧
  0 ≤ creation_time kp.2 ≤ 10 ^ 15 ∧ 0 ≤ prior_unacked_data (sent kp.2) ∧
  receive_time kp.2 = PlusInfinity.

(** The index leads to packets of the history with the right SSRC and number. *)
Definition indexed (rtp : gmap (Z * Z) Z) (history : list (Z * PacketFeedback)) : Prop :=
  ∀ key t, rtp !! key = Some t → ∃ p, find t history = Some p ∧ key_of p = key.

Definition accounted (m : InFlight) (lo : Z) (history : list (Z * PacketFeedback)) : Prop :=
  ∀ r, outstanding m r = flying lo r history.

Lemma entries_sizes h : Forall entry_ok h → sizes_ok h.
Proof. intros H. eapply Forall_weaken; [exact H|]. by intros kp (_ & ? & _). Qed.

(** Dropping old packets. *)
Lemma prune_ok T creation lo history m rtp :
  ordered history → Forall entry_ok history → accounted m lo history →
  indexed rtp history → total_size history ≤ T → T < PlusInfinity → 0 ≤ creation ≤ 10 ^ 15 →
  ∃ old new m' rtp', history = old ++ new ∧ prune creation lo history m rtp = Some (new, m', rtp') ∧
    accounted m' lo new ∧ indexed rtp' new ∧ rtp' ⊆ rtp ∧
    Forall (λ kp, kSendTimeHistoryWindow < creation - creation_time kp.2) old.
Proof.
  intros Ho He. revert m rtp. induction history as [|[k p] rest IH]; intros m rtp Ha Hi Ht HT Hc.
  { exists [], [], m, rtp. by repeat split. }
  apply ordered_inv in Ho as [Ho Hk]. apply Forall_cons_1 in He as [He Hes].
  assert (Hek := He). destruct Hek as (Hseq & Hs & Hcr & _). cbn [fst snd] in *.
  cbn [prune]. rewrite ts_diff_ok by (unfold finite, PlusInfinity, MinusInfinity; lia).
  cbn [mbind option_bind]. rewrite Z.gtb_ltb.
  destruct (Z.ltb_spec kSendTimeHistoryWindow (creation - creation_time p)) as [Hold|Hnew].
  2: { exists [], ((k, p) :: rest), m, rtp. by repeat split. }
  assert (Htot : total_size ((k, p) :: rest) = size (sent p) + total_size rest) by done.
  assert (Hrest : indexed (delete (key_of p) rtp) rest).
  { intros key t [Hne Hl]%lookup_delete_Some. destruct (Hi key t Hl) as (q & Hq & Ek).
    cbn [find] in Hq. destruct (Z.eqb_spec t k); [injection Hq as ->; congruence|by exists q]. }
  assert (Hflight : ∃ m1, (if sent_sequence_number (sent p) >? lo
    then RemoveInFlightPacketBytes m p else Some m) = Some m1 ∧ accounted m1 lo rest).
  { rewrite Hseq, Z.gtb_ltb. destruct (Z.ltb_spec lo k) as [Hlt|Hge].
    - destruct (Remove_first lo k p rest m (λ _, 0)) as (m1 & E1 & H1); try done.
      + by apply entries_sizes.
      + intros r. lia.
      + exists m1. split; [done|]. intros r. rewrite H1. lia.
    - exists m. split; [done|]. intros r. rewrite Ha. cbn [flying foldr]. fold (flying lo r rest).
      assert (counts lo r (k, p) = 0) as -> by (unfold counts; cbn [fst]; by rewrite (proj2 (Z.ltb_ge lo k))).
      lia. }
  destruct Hflight as (m1 & -> & Ha1). cbn [mbind option_bind].
  destruct (IH Ho Hes m1 (delete (key_of p) rtp)) as (old & new & m' & rtp' & -> & E & H1 & H2 & H3 & H4);
    try done; [lia|].
  exists ((k, p) :: old), new, m', rtp'. split_and!; try done.
  - etrans; [done|]. apply delete_subseteq.
  - by apply Forall_cons_2.
Qed.

(** The adapter after [n] calls. *)
Record adapter_ok (n : Z) (a : TransportFeedbackAdapter) : Prop := {
  ok_order : ordered (history_ a);
  ok_entries : Forall entry_ok (history_ a);
  ok_total : total_size (history_ a) ≤ 131072 * n;
  ok_pending : 0 ≤ pending_untracked_size_ a ≤ 131072 * n;
  ok_prior : Forall (λ kp, prior_unacked_data (sent kp.2) + pending_untracked_size_ a ≤ 131072 * n)
               (history_ a);
  ok_flight : accounted (in_flight_ a) (last_ack_seq_num_ a) (history_ a);
  ok_index : indexed (rtp_to_transport_sequence_number_ a) (history_ a);
  ok_unwrap : consistent 16 (seq_num_unwrapper_ a);
  ok_range : - (65535 + 2147483648 * n) ≤ last_unwrapped_ (seq_num_unwrapper_ a) ≤ 65535 + 2147483648 * n;
  ok_offset : current_offset_ a = MinusInfinity ∨
    8000000 ≤ current_offset_ a ≤ 10 ^ 15 + 33 * 10 ^ 9 * n;
  ok_base : last_transport_feedback_base_time_ a = MinusInfinity ∨
    TransportFb.kTimeWrapPeriod ≤ last_transport_feedback_base_time_ a < 2 * TransportFb.kTimeWrapPeriod ∧
    8000000 ≤ current_offset_ a;
  ok_ntp : ∀ t, last_feedback_compact_ntp_time_ a = Some t → uint32 t;
}.

Definition calls_ok (n : Z) : Prop := 0 ≤ n ≤ 10 ^ 8.

Lemma new_adapter_ok : adapter_ok 0 new_adapter.
Proof.
  split; cbn; try done; try lia; try apply Forall_nil_2.
  constructor.
Qed.

Lemma adapter_ok_le n n' a : adapter_ok n a → n ≤ n' → adapter_ok n' a.
Proof.
  intros [] Hn. split; try done; try lia.
  eapply Forall_weaken; [exact ok_prior0|]. intros kp ?. cbv beta in *. lia.
Qed.

Lemma SetNetworkRoute_ok n a r : adapter_ok n a → adapter_ok n (SetNetworkRoute a r).
Proof. intros []. by split. Qed.

(** The width of the unwrapper's step. *)
Lemma Unwrap_step n u v : 0 ≤ n ≤ 10 ^ 8 → consistent 16 u → uint16 v →
  - (65535 + 2147483648 * n) ≤ last_unwrapped_ u ≤ 65535 + 2147483648 * n →
  consistent 16 (Unwrap 16 u v).2 ∧
  - (65535 + 2147483648 * (n + 1)) ≤ last_unwrapped_ (Unwrap 16 u v).2 ≤ 65535 + 2147483648 * (n + 1).
Proof.
  intros Hn Hu Hv Hr. destruct (Unwrap_congruent 16 ltac:(lia) u v) as [_ Hc]; [unfold uint16 in Hv; lia|done|].
  split; [done|]. unfold Unwrap, consistent, uint16 in *. cbn [snd last_unwrapped_].
  destruct (last_value_ u) as [last|]; [|lia]. destruct Hu as [H16 _].
  destruct (Delta_spec 16 ltac:(lia) last v) as [Hd _]; [done|lia|].
  change (half 16) with 32768 in Hd. rewrite s64_id by (unfold int64; lia). lia.
Qed.

(** A packet to send: its number is new, its size and times are in range. *)
Definition send_ok (a : TransportFeedbackAdapter) (packet : RtpPacketToSend) (overhead creation : Z) : Prop :=
  0 ≤ rtp_size packet + overhead ≤ 131072 ∧ 0 ≤ creation ≤ 10 ^ 15 ∧
  ∃ tsn, transport_sequence_number packet = Some tsn ∧
    find (Unwrap 16 (seq_num_unwrapper_ a) (u16 tsn)).1 (history_ a) = None.

Lemma find_suffix k (a b : list (Z * PacketFeedback)) :
  ordered (a ++ b) → find k (a ++ b) = None → find k b = None.
Proof.
  intros Ho. induction a as [|[k' v] a IH]; [done|]. cbn [app find].
  apply ordered_inv in Ho as [Ho _]. destruct (k =? k'); [done|]. by apply IH.
Qed.

Lemma ordered_suffix (a b : list (Z * PacketFeedback)) : ordered (a ++ b) → ordered b.
Proof. induction a as [|[k v] a IH]; [done|]. intros [Ho _]%ordered_inv. by apply IH. Qed.

Lemma total_suffix a b : Forall entry_ok (a ++ b) → total_size b ≤ total_size (a ++ b).
Proof.
  intros [Ha _]%Forall_app. rewrite total_app.
  enough (0 ≤ total_size a) by lia. apply entries_sizes in Ha.
  pose proof (flying_bounds 0 (route_key default_route) a Ha). lia.
Qed.

(** Adding a packet that was not sent yet does not change the flight. *)
Lemma accounted_emplace m lo history k p :
  ordered history → find k history = None → accounted m lo history →
  IsFinite (send_time (sent p)) = false → accounted m lo (emplace k p history).
Proof.
  intros Ho Hf Ha Hs r. destruct (emplace_fresh k p history Ho Hf) as (x & y & -> & ->).
  rewrite Ha, !flying_app. cbn [flying foldr]. fold (flying lo r y).
  assert (counts lo r (k, p) = 0) as -> by (unfold counts; cbn [snd]; by rewrite Hs, andb_false_r).
  lia.
Qed.

Lemma indexed_emplace rtp history k p :
  ordered history → find k history = None → indexed rtp history →
  indexed (match rtp !! key_of p with Some _ => rtp | None => <[key_of p := k]> rtp end)
          (emplace k p history).
Proof.
  intros Ho Hf Hi.
  assert (Hold : ∀ key t, rtp !! key = Some t → ∃ q, find t (emplace k p history) = Some q ∧ key_of q = key).
  { intros key t Hl. destruct (Hi key t Hl) as (q & Hq & Hk). exists q. split; [|done].
    rewrite find_emplace by done. destruct (Z.eqb_spec t k) as [->|]; [congruence|done]. }
  destruct (rtp !! key_of p) eqn:E; [exact Hold|].
  intros key t [[<- <-]|[_ Hl]]%lookup_insert_Some; [|by apply Hold].
  exists p. split; [|done]. rewrite find_emplace by done. by rewrite Z.eqb_refl, Hf.
Qed.

(** ** The operations keep the invariant *)

Ltac fields := cbn [pending_untracked_size_ last_send_time_ last_untracked_send_time_
  seq_num_unwrapper_ last_ack_seq_num_ in_flight_ network_route_ current_offset_
  last_transport_feedback_base_time_ last_feedback_compact_ntp_time_ rtp_to_transport_sequence_number_ history_].

Lemma emplace_Forall (P : Z * PacketFeedback → Prop) k p h :
  Forall P h → P (k, p) → Forall P (emplace k p h).
Proof.
  intros Hh Hp. apply List.Forall_forall. intros a [->|Ha]%list_elem_of_In%emplace_elem; [done|].
  rewrite List.Forall_forall in Hh. by apply Hh, list_elem_of_In.
Qed.

Lemma AddPacket_ok n a packet pacing overhead creation :
  adapter_ok n a → calls_ok n → send_ok a packet overhead creation →
  wp (AddPacket a packet pacing overhead creation) (λ a',
    adapter_ok (n + 1) a' ∧ last_ack_seq_num_ a' = last_ack_seq_num_ a ∧
    ∃ tsn old kept p,
      let seq := (Unwrap 16 (seq_num_unwrapper_ a) (u16 tsn)).1 in
      transport_sequence_number packet = Some tsn ∧
      history_ a = old ++ kept ∧ history_ a' = emplace seq p kept ∧
      Forall (λ kp, kSendTimeHistoryWindow < creation - creation_time kp.2) old ∧
      key_of p = (to_send_ssrc packet, to_send_sequence_number packet) ∧
      size (sent p) = rtp_size packet + overhead ∧ network_route p = network_route_ a).
Proof.
  intros [] Hn (Hsz & Hcr & tsn & Htsn & Hfresh). unfold AddPacket. rewrite Htsn.
  unfold calls_ok in Hn.
  destruct (Unwrap_step n (seq_num_unwrapper_ a) (u16 tsn) Hn ok_unwrap0 (u16_range _) ok_range0)
    as [Hc' Hr'].
  destruct (Unwrap 16 (seq_num_unwrapper_ a) (u16 tsn)) as [seq u] eqn:Eu. cbn [fst snd] in *.
  rewrite u64_id by lia. unfold Bytes.
  rewrite FromValue_ok; [|lia|unfold finite, PlusInfinity, MinusInfinity; lia]. cbn [mbind option_bind].
  destruct (prune_ok (131072 * n) creation (last_ack_seq_num_ a) (history_ a) (in_flight_ a)
    (rtp_to_transport_sequence_number_ a)) as (old & kept & m' & rtp' & Eh & -> & Ha & Hi & _ & Hold);
    try done; [unfold PlusInfinity; lia|]. cbn [mbind option_bind wp].
  set (p := mkPacket creation _ _ _ _ _). rewrite Eh in *.
  assert (Ho := ordered_suffix _ _ ok_order0). assert (Hf := find_suffix _ _ _ ok_order0 Hfresh).
  pose proof (total_suffix _ _ ok_entries0) as Hts.
  apply Forall_app in ok_entries0 as [_ Hen]. apply Forall_app in ok_prior0 as [_ Hpr].
  split; [|split; [done|]].
  - split; fields; try done.
    + by apply emplace_ordered.
    + apply emplace_Forall; [done|]. split_and!; cbn; lia.
    + destruct (emplace_fresh seq p kept Ho Hf) as (x & y & E1 & ->).
      assert (E2 : total_size kept = total_size x + total_size y) by (by rewrite E1, total_app).
      rewrite total_app. cbn [total_size foldr snd]. fold (total_size y). cbn [p sent size]. lia.
    + lia.
    + apply emplace_Forall; [|cbn; lia]. eapply Forall_weaken; [exact Hpr|]. intros kp ?. cbv beta in *. lia.
    + by apply accounted_emplace.
    + by apply (indexed_emplace rtp' kept seq p).
    + lia.
  - exists tsn, old, kept, p. rewrite Eu. done.
Qed.

Lemma flying_assign lo r k p0 p h : ordered h → find k h = Some p0 →
  flying lo r (assign k p h) = flying lo r h - counts lo r (k, p0) + counts lo r (k, p).
Proof.
  intros Ho Hf. destruct (assign_split k p h Ho p0 Hf) as (a & b & -> & -> & _).
  rewrite !flying_app. cbn [flying foldr]. fold (flying lo r b). lia.
Qed.

Lemma total_assign k p0 p h : ordered h → find k h = Some p0 → size (sent p) = size (sent p0) →
  total_size (assign k p h) = total_size h.
Proof.
  intros Ho Hf E. destruct (assign_split k p h Ho p0 Hf) as (a & b & -> & -> & _).
  rewrite !total_app. cbn [total_size foldr snd]. rewrite E. done.
Qed.

Lemma indexed_assign rtp k p0 p h : find k h = Some p0 → key_of p = key_of p0 → indexed rtp h →
  indexed rtp (assign k p h).
Proof.
  intros Hf Ek Hi key t Hl. destruct (Hi key t Hl) as (q & Hq & Hk). rewrite find_assign, Hf.
  destruct (Z.eqb_spec t k) as [->|]; cbn [andb]; [|by exists q].
  exists p. split; [done|]. rewrite Ek. congruence.
Qed.

Lemma assign_Forall (P Q : Z * PacketFeedback → Prop) k p h :
  ordered h → is_Some (find k h) → Forall P h → (∀ kp, P kp → Q kp) → Q (k, p) → Forall Q (assign k p h).
Proof.
  intros Ho [p0 Hf] Hh HPQ Hp. destruct (assign_split k p h Ho p0 Hf) as (a & b & -> & -> & _).
  apply Forall_app in Hh as [Ha [_ Hb]%Forall_cons_1].
  apply Forall_app_2; [|apply Forall_cons_2; [done|]]; eapply Forall_weaken; eauto.
Qed.

(** What is reported about a packet that went out. *)
Definition sent_info_ok (info : SentPacketInfo) : Prop :=
  0 ≤ send_time_ms info ≤ 10 ^ 12 ∧ 0 ≤ packet_size_bytes info ≤ 131072.

Lemma TimestampMillis_ok t : 0 ≤ t ≤ 10 ^ 12 → TimestampMillis t = Some (t * 1000).
Proof.
  intros Ht. unfold TimestampMillis.
  rewrite (proj2 (Z.leb_le 0 t)), (proj2 (Z.ltb_lt _ t)), (proj2 (Z.ltb_lt t _)); try done;
    unfold PlusInfinity, MinusInfinity; [change (Z.quot _ _) with 9223372036854775|
      change (Z.quot _ _) with (-9223372036854775)|]; lia.
Qed.

Lemma entry_of k p h : ordered h → Forall entry_ok h → find k h = Some p → entry_ok (k, p).
Proof. intros Ho He Hf%find_elem. rewrite List.Forall_forall in He. by apply He, list_elem_of_In. Qed.

(** The history after a packet went out: same keys and sizes, one packet sent. *)
Definition sent_after (a : TransportFeedbackAdapter) (k : Z) (p : PacketFeedback) (m : InFlight)
    (pending lst : Z) (u : SeqNumUnwrapper) : TransportFeedbackAdapter :=
  mkAdapter pending lst (last_untracked_send_time_ a) u (last_ack_seq_num_ a) m (network_route_ a)
    (current_offset_ a) (last_transport_feedback_base_time_ a)
    (last_feedback_compact_ntp_time_ a) (rtp_to_transport_sequence_number_ a)
    (assign k p (history_ a)).

Lemma sent_after_ok n a k p0 p m pending lst u :
  adapter_ok n a → find k (history_ a) = Some p0 →
  consistent 16 u → - (65535 + 2147483648 * (n + 1)) ≤ last_unwrapped_ u ≤ 65535 + 2147483648 * (n + 1) →
  entry_ok (k, p) → size (sent p) = size (sent p0) → key_of p = key_of p0 →
  0 ≤ pending ≤ pending_untracked_size_ a → prior_unacked_data (sent p) + pending ≤ 131072 * n →
  (∀ r, outstanding m r = flying (last_ack_seq_num_ a) r (assign k p (history_ a))) →
  adapter_ok (n + 1) (sent_after a k p m pending lst u).
Proof.
  intros [] Hf Hc Hr He Es Ek Hp Hpr Hm. unfold sent_after. split; fields; try done; try lia.
  - by apply (ordered_keys (history_ a)), ok_order0; rewrite assign_keys.
  - by apply (assign_Forall entry_ok entry_ok).
  - rewrite (total_assign k p0) by done. lia.
  - apply (assign_Forall (λ kp, prior_unacked_data (sent kp.2) + pending_untracked_size_ a ≤ 131072 * n));
      [done|done|done| |cbn; lia]. intros kp ?. cbv beta in *. lia.
  - by apply (indexed_assign _ k p0).
Qed.

Lemma counts_behind lo r k p : k ≤ lo → counts lo r (k, p) = 0.
Proof. intros. unfold counts. cbn [fst]. by rewrite (proj2 (Z.ltb_ge lo k)). Qed.

(** A packet goes out for the first time: it joins the flight unless it lies behind
    what was acknowledged. *)
Lemma first_send_flight n a k p0 p :
  adapter_ok n a → calls_ok n → find k (history_ a) = Some p0 → entry_ok (k, p) →
  IsFinite (send_time (sent p0)) = false → IsFinite (send_time (sent p)) = true →
  size (sent p) = size (sent p0) →
  ∃ m, (if sent_sequence_number (sent p) >? last_ack_seq_num_ a
        then AddInFlightPacketBytes (in_flight_ a) p else Some (in_flight_ a)) = Some m ∧
       ∀ r, outstanding m r = flying (last_ack_seq_num_ a) r (assign k p (history_ a)).
Proof.
  intros [] Hn Hf (Hseq & Hsz & _) Hi Hfin Es. cbn [fst snd] in *. rewrite Hseq, Z.gtb_ltb.
  assert (H0 : ∀ r, counts (last_ack_seq_num_ a) r (k, p0) = 0).
  { intros r. unfold counts. cbn [snd]. by rewrite Hi, andb_false_r. }
  destruct (Z.ltb_spec (last_ack_seq_num_ a) k) as [Hlt|Hge].
  - destruct (Add_ok (in_flight_ a) p Hsz Hfin) as (m & E & Hm).
    { intros r. rewrite ok_flight0. pose proof (entries_sizes _ ok_entries0) as Hs.
      pose proof (flying_bounds (last_ack_seq_num_ a) r _ Hs). rewrite Es.
      assert (size (sent p0) ≤ total_size (history_ a)).
      { destruct (assign_split k p (history_ a) ok_order0 p0 Hf) as (x & y & E & _).
        rewrite E in *. apply Forall_app in Hs as [Hx [_ Hy]%Forall_cons_1]. rewrite total_app.
        cbn [total_size foldr snd]. fold (total_size y).
        pose proof (flying_bounds 0 (route_key default_route) x Hx).
        pose proof (flying_bounds 0 (route_key default_route) y Hy). lia. }
      unfold calls_ok, PlusInfinity in *. lia. }
    exists m. split; [done|]. intros r. rewrite Hm, ok_flight0, (flying_assign _ r k p0) by done.
    rewrite H0. unfold counts. cbn [fst snd]. rewrite (proj2 (Z.ltb_lt _ k) Hlt), Hfin. cbn [andb]. lia.
  - exists (in_flight_ a). split; [done|]. intros r. rewrite ok_flight0, (flying_assign _ r k p0) by done.
    rewrite H0, counts_behind by done. lia.
Qed.

Lemma resend_flight n a k p0 p :
  adapter_ok n a → find k (history_ a) = Some p0 →
  IsFinite (send_time (sent p0)) = true → IsFinite (send_time (sent p)) = true →
  size (sent p) = size (sent p0) → network_route p = network_route p0 →
  ∀ r, outstanding (in_flight_ a) r = flying (last_ack_seq_num_ a) r (assign k p (history_ a)).
Proof.
  intros [] Hf H0 H1 Es Er r. rewrite ok_flight0, (flying_assign _ r k p0) by done.
  unfold counts. cbn [fst snd]. rewrite H0, H1, Es, Er. lia.
Qed.

Lemma IsFinite_true v : finite v → IsFinite v = true.
Proof. by intros (? & _)%finite_flags. Qed.

(** The packet in the history after it went out, with the data sent before it. *)
Definition went_out (p : PacketFeedback) (t prior in_flight : Z) : PacketFeedback :=
  with_sent p (mkSent t (size (sent p)) prior (pacing_info (sent p)) (audio (sent p))
    (sent_sequence_number (sent p)) in_flight).

Lemma went_out_ok k p t prior f : entry_ok (k, p) → 0 ≤ prior → entry_ok (k, went_out p t prior f).
Proof. intros (? & ? & ? & ? & ?) ?. unfold entry_ok. cbn in *. split_and!; done || lia. Qed.

Lemma counts_went_out lo r k p t prior f f' :
  counts lo r (k, went_out p t prior f) = counts lo r (k, went_out p t prior f').
Proof. done. Qed.

Lemma outstanding_route m r : OutstandingData m r = outstanding m (route_key r).
Proof. done. Qed.

(** The untracked bytes are charged to the packet that goes out. *)
Lemma take_pending n prior pending : calls_ok n → 0 ≤ prior → 0 ≤ pending →
  prior + pending ≤ 131072 * n →
  ∃ prior' pending', (if negb (pending =? 0) then p ← size_add prior pending; Some (p, 0)
                      else Some (prior, pending)) = Some (prior', pending') ∧
    0 ≤ prior' ∧ 0 ≤ pending' ≤ pending ∧ prior' + pending' ≤ 131072 * n.
Proof.
  unfold calls_ok. intros Hn H1 H2 H3.
  destruct (negb _); [|eexists _, _; split; [reflexivity|lia]].
  rewrite size_add_ok by (unfold finite, PlusInfinity, MinusInfinity; lia).
  eexists _, _. split; [reflexivity|lia].
Qed.

(** Changes that concern neither the history nor the flight. *)
Lemma bookkeeping_ok n a pending lst lust u :
  adapter_ok n a → 0 ≤ pending ≤ pending_untracked_size_ a + 131072 →
  consistent 16 u → - (65535 + 2147483648 * (n + 1)) ≤ last_unwrapped_ u ≤ 65535 + 2147483648 * (n + 1) →
  adapter_ok (n + 1) (mkAdapter pending lst lust u (last_ack_seq_num_ a) (in_flight_ a)
    (network_route_ a) (current_offset_ a) (last_transport_feedback_base_time_ a)
    (last_feedback_compact_ntp_time_ a)
    (rtp_to_transport_sequence_number_ a) (history_ a)).
Proof.
  intros [] Hp Hc Hr. split; fields; try done; try lia.
  eapply Forall_weaken; [exact ok_prior0|]. intros kp ?. cbv beta in *. lia.
Qed.

Lemma ProcessSentPacket_ok n a info : adapter_ok n a → calls_ok n → sent_info_ok info →
  wp (ProcessSentPacket a info) (λ '(r, a'), adapter_ok (n + 1) a' ∧
    last_ack_seq_num_ a' = last_ack_seq_num_ a ∧ network_route_ a' = network_route_ a ∧
    ∀ s, r = Some s → ∃ p, find (sent_sequence_number s) (history_ a) = Some p ∧
      IsFinite (send_time (sent p)) = false ∧ send_time s = 1000 * send_time_ms info ∧
      size s = size (sent p) ∧ data_in_flight s = GetOutstandingData a').
Proof.
  intros Hok Hn (Ht & Hb). unfold ProcessSentPacket. rewrite TimestampMillis_ok by done.
  cbn [mbind option_bind]. set (t := send_time_ms info * 1000).
  assert (Hfin : IsFinite t = true).
  { apply IsFinite_true. unfold finite, MinusInfinity, PlusInfinity, t. lia. }
  assert (Hn' := Hn). unfold calls_ok in Hn'.
  destruct (included_in_feedback info || _).
  - destruct (Unwrap_step n (seq_num_unwrapper_ a) (u16 (packet_id info)) Hn'
      (ok_unwrap _ _ Hok) (u16_range _) (ok_range _ _ Hok)) as [Hc' Hr'].
    destruct (Unwrap 16 _ _) as [seq u]. cbn [fst snd] in *.
    destruct (find seq (history_ a)) as [p|] eqn:Ef.
    2: { apply wp_ret. split_and!; try done. apply bookkeeping_ok; try done.
         pose proof (ok_pending _ _ Hok). lia. }
    assert (He := entry_of _ _ _ (ok_order _ _ Hok) (ok_entries _ _ Hok) Ef).
    assert (Hpr : 0 ≤ prior_unacked_data (sent p) ∧
      prior_unacked_data (sent p) + pending_untracked_size_ a ≤ 131072 * n).
    { split; [apply He|]. pose proof (ok_prior _ _ Hok) as H. rewrite List.Forall_forall in H.
      apply (H (seq, p)), list_elem_of_In, find_elem, Ef. }
    pose proof (ok_pending _ _ Hok) as Hpe.
    destruct (take_pending n (prior_unacked_data (sent p)) (pending_untracked_size_ a))
      as (prior & pending & -> & Hp0 & Hpe' & Hsum); [done|lia..|]. cbn [mbind option_bind].
    cbn [send_time size prior_unacked_data pacing_info audio sent_sequence_number data_in_flight].
    fold (went_out p t prior (data_in_flight (sent p))).
    destruct (IsFinite (send_time (sent p))) eqn:Esent; cbn [negb].
    + apply wp_ret. split_and!; try done.
      apply (sent_after_ok n a seq p (went_out p t prior (data_in_flight (sent p)))); try done.
      * by apply went_out_ok.
      * by apply (resend_flight n a seq p).
    + destruct (first_send_flight n a seq p (went_out p t prior (data_in_flight (sent p))))
        as (m & E & Hm); try done; [by apply went_out_ok|].
      cbn [went_out with_sent sent sent_sequence_number] in E.
      fold (went_out p t prior (data_in_flight (sent p))) in E. rewrite E. cbn [mbind option_bind].
      fold (went_out p t prior (OutstandingData m (network_route_ a))).
      apply wp_ret. split_and!; try done.
      * apply (sent_after_ok n a seq p (went_out p t prior (OutstandingData m (network_route_ a)))); try done.
        -- by apply went_out_ok.
        -- intros r. rewrite Hm, !(flying_assign _ r seq p) by apply Hok || done. done.
      * intros s [= <-]. cbn. exists p. destruct He as (Eq & _). cbn in Eq. rewrite Eq.
        split_and!; try done. unfold t. lia.
  - destruct (included_in_allocation info).
    + unfold Bytes. rewrite FromValue_ok; [|lia|unfold finite, PlusInfinity, MinusInfinity; lia].
      cbn [mbind option_bind]. pose proof (ok_pending _ _ Hok).
      rewrite size_add_ok by (unfold finite, PlusInfinity, MinusInfinity; lia). cbn [mbind option_bind].
      apply wp_ret. split_and!; try done.
      apply bookkeeping_ok; [done|lia|apply Hok|pose proof (ok_range _ _ Hok); lia].
    + apply wp_ret. split_and!; try done. apply (adapter_ok_le n); [done|lia].
Qed.

(** ** Looking up reported packets *)

(** The packet with a transport sequence number, if it is in the history and sent. *)
Definition known (a : TransportFeedbackAdapter) (t : Z) : option PacketFeedback :=
  match find t (history_ a) with
  | Some p => if IsFinite (send_time (sent p)) then Some p else None
  | None => None
  end.

(** The adapter after a look-up: everything up to [t] is acknowledged, a received
    packet is forgotten. *)
Definition retrieved (a : TransportFeedbackAdapter) (t : Z) (received : bool) (m : InFlight)
  : TransportFeedbackAdapter :=
  let '(rtp, history) :=
    match known a t with
    | Some p =>
        if received
        then (delete (key_of p) (rtp_to_transport_sequence_number_ a), erase t (history_ a))
        else (rtp_to_transport_sequence_number_ a, history_ a)
    | None => (rtp_to_transport_sequence_number_ a, history_ a)
    end in
  mkAdapter (pending_untracked_size_ a) (last_send_time_ a) (last_untracked_send_time_ a)
    (seq_num_unwrapper_ a) (Z.max (last_ack_seq_num_ a) t) m (network_route_ a) (current_offset_ a)
    (last_transport_feedback_base_time_ a)
    (last_feedback_compact_ntp_time_ a) rtp history.

Lemma known_find a t p : known a t = Some p → find t (history_ a) = Some p.
Proof. unfold known. destruct (find t _) as [q|]; [|done]. by destruct (IsFinite _); [intros [= ->]|]. Qed.

Lemma flying_erase lo r t h p : ordered h → find t h = Some p → t ≤ lo →
  flying lo r (erase t h) = flying lo r h.
Proof.
  intros Ho Hf Ht. destruct (assign_split t p h Ho p Hf) as (x & y & -> & _ & ->).
  rewrite !flying_app. cbn [flying foldr]. fold (flying lo r y). rewrite counts_behind by done. lia.
Qed.

Lemma erase_Forall (P : Z * PacketFeedback → Prop) t h : Forall P h → Forall P (erase t h).
Proof.
  intros Hh. apply List.Forall_forall. intros a Ha%list_elem_of_In%erase_elem.
  rewrite List.Forall_forall in Hh. by apply Hh, list_elem_of_In.
Qed.

Lemma indexed_erase rtp t h p : ordered h → find t h = Some p → indexed rtp h →
  indexed (delete (key_of p) rtp) (erase t h).
Proof.
  intros Ho Hf Hi key s [Hne Hl]%lookup_delete_Some. destruct (Hi key s Hl) as (q & Hq & Hk).
  exists q. split; [|done]. rewrite find_erase by done.
  destruct (Z.eqb_spec s t) as [->|]; [congruence|done].
Qed.

Lemma retrieved_ok n a t received m : adapter_ok n a →
  (∀ r, outstanding m r = flying (Z.max (last_ack_seq_num_ a) t) r (history_ a)) →
  adapter_ok n (retrieved a t received m).
Proof.
  intros Hok Hm. assert (Ho := ok_order _ _ Hok). unfold retrieved.
  destruct (known a t) as [p|] eqn:Ek; [destruct received|];
    destruct Hok; split; fields; try done.
  - by apply erase_ordered.
  - by apply erase_Forall.
  - apply known_find in Ek. destruct (assign_split t p (history_ a) Ho p Ek) as (x & y & E & _ & ->).
    rewrite E, total_app in ok_total0. cbn [total_size foldr snd] in ok_total0.
    fold (total_size y) in ok_total0. rewrite total_app.
    destruct (entry_of _ _ _ Ho ok_entries0 Ek) as (_ & ? & _). cbn [snd] in *. lia.
  - by apply erase_Forall.
  - intros r. rewrite Hm. symmetry. apply (flying_erase _ r t _ p); [done|by apply known_find|lia].
  - apply indexed_erase; [done|by apply known_find|done].
Qed.

Lemma Retrieve_ok n a t received : adapter_ok n a → calls_ok n →
  ∃ m, RetrievePacketFeedback a t received = Some (known a t, retrieved a t received m) ∧
       adapter_ok n (retrieved a t received m).
Proof.
  intros Hok Hn.
  assert (Hrange : ∃ m, (if t >? last_ack_seq_num_ a then
      m ← remove_range (last_ack_seq_num_ a) t (history_ a) (in_flight_ a); Some (m, t)
    else Some (in_flight_ a, last_ack_seq_num_ a)) = Some (m, Z.max (last_ack_seq_num_ a) t) ∧
    ∀ r, outstanding m r = flying (Z.max (last_ack_seq_num_ a) t) r (history_ a)).
  { rewrite Z.gtb_ltb. destruct (Z.ltb_spec (last_ack_seq_num_ a) t) as [Hlt|Hge].
    - destruct (remove_range_ok (last_ack_seq_num_ a) t (history_ a) (in_flight_ a) (λ _, 0))
        as (m & -> & Hm); [lia|apply entries_sizes, Hok| |apply Hok|].
      + intros r. pose proof (ok_total _ _ Hok). unfold calls_ok, PlusInfinity in *. lia.
      + exists m. rewrite Z.max_r by lia. split; [done|]. intros r. rewrite Hm. lia.
    - exists (in_flight_ a). rewrite Z.max_l by lia. split; [done|]. apply Hok. }
  destruct Hrange as (m & E & Hm). exists m. split; [|by apply retrieved_ok].
  unfold RetrievePacketFeedback. rewrite E. cbn [mbind option_bind]. unfold retrieved, known, IsFinite.
  destruct (find t (history_ a)) as [p|]; [|done].
  destruct (IsInfinite (send_time (sent p))); [done|]. by destruct received.
Qed.

(** ** Feedback *)

Definition info_key (info : PacketInfo) : Z * Z := (ssrc info, sequence_number info).
Definition is_received (info : PacketInfo) : bool := IsFinite (arrival_time_offset info).

(** The packet a report is about, if it is still known. *)
Definition lookup_key (a : TransportFeedbackAdapter) (key : Z * Z) : option PacketFeedback :=
  match rtp_to_transport_sequence_number_ a !! key with
  | Some t => known a t
  | None => None
  end.

(** What the congestion controller is told about a reported packet: packets that are
    not known and packets sent on another route are left out. *)
Definition result_of (a : TransportFeedbackAdapter) (offset : Z) (info : PacketInfo)
  : option PacketResult :=
  match lookup_key a (info_key info) with
  | Some p =>
      if decide (network_route p = network_route_ a)
      then Some (mkResult (sent p)
             (if is_received info then offset - arrival_time_offset info else PlusInfinity) (ecn info))
      else None
  | None => None
  end.

Definition ecn_capable (a : TransportFeedbackAdapter) (info : PacketInfo) : bool :=
  match result_of a 0 info with
  | Some _ => negb (is_received info) || negb (bool_decide (ecn info = kNotEct))
  | None => true
  end.

(** The packet of [key] is found in [a'] as in [a]. *)
Definition same_for (a a' : TransportFeedbackAdapter) (key : Z * Z) : Prop :=
  rtp_to_transport_sequence_number_ a' !! key = rtp_to_transport_sequence_number_ a !! key ∧
  ∀ t, rtp_to_transport_sequence_number_ a !! key = Some t → known a' t = known a t.

Lemma same_for_lookup a a' key : same_for a a' key → lookup_key a' key = lookup_key a key.
Proof.
  intros [E H]. unfold lookup_key. rewrite E.
  destruct (rtp_to_transport_sequence_number_ a !! key) as [t|] eqn:Et; [|done]. by apply H.
Qed.

Lemma same_for_trans a b c key : same_for a b key → same_for b c key → same_for a c key.
Proof.
  intros [E1 H1] [E2 H2]. split; [by rewrite E2|]. intros t Ht. rewrite H2, H1; [done|done|by rewrite E1].
Qed.

Lemma retrieved_same a t received m :
  network_route_ (retrieved a t received m) = network_route_ a ∧
  current_offset_ (retrieved a t received m) = current_offset_ a ∧
  rtp_to_transport_sequence_number_ (retrieved a t received m) ⊆ rtp_to_transport_sequence_number_ a.
Proof.
  unfold retrieved. destruct (known a t) as [p|]; [destruct received|]; fields; split_and!; try done.
  apply delete_subseteq.
Qed.

(** Looking up one packet does not affect the others. *)
Lemma retrieved_others n a t received m key key' : adapter_ok n a →
  rtp_to_transport_sequence_number_ a !! key = Some t → key' ≠ key →
  same_for a (retrieved a t received m) key'.
Proof.
  intros Hok Ht Hne. unfold retrieved. destruct (known a t) as [p|] eqn:Ek; [destruct received|]; [|done..].
  apply known_find in Ek. destruct (ok_index _ _ Hok key t Ht) as (q & Hq & Hk).
  assert (key_of p = key) as Hp by congruence. split; fields.
  - rewrite Hp. by rewrite lookup_delete_ne by congruence.
  - intros t' Ht'. unfold known. fields. rewrite find_erase by apply Hok.
    destruct (Z.eqb_spec t' t) as [->|]; [|done].
    destruct (ok_index _ _ Hok key' t Ht') as (q' & Hq' & Hk'). congruence.
Qed.

Lemma retrieved_self n a t received m key : adapter_ok n a →
  rtp_to_transport_sequence_number_ a !! key = Some t →
  lookup_key (retrieved a t received m) key = if received then None else known a t.
Proof.
  intros Hok Et. destruct (ok_index _ _ Hok key t Et) as (q & Hq & Hk).
  unfold retrieved, lookup_key. destruct (known a t) as [p|] eqn:Ek; [destruct received|]; fields.
  - apply known_find in Ek. assert (key_of p = key) as -> by congruence. by rewrite lookup_delete_eq.
  - rewrite Et. exact Ek.
  - rewrite Et. change (known a t = if received then None else None). rewrite Ek. by destruct received.
Qed.

Lemma RetrieveByKey_ok n a key received : adapter_ok n a → calls_ok n →
  ∃ a', RetrieveByKey a key received = Some (lookup_key a key, a') ∧ adapter_ok n a' ∧
    network_route_ a' = network_route_ a ∧ current_offset_ a' = current_offset_ a ∧
    ∀ key', lookup_key a' key' = if bool_decide (key' = key) && received then None else lookup_key a key'.
Proof.
  intros Hok Hn. unfold RetrieveByKey.
  destruct (rtp_to_transport_sequence_number_ a !! key) as [t|] eqn:Et.
  - destruct (Retrieve_ok n a t received Hok Hn) as (m & E & Hok'). rewrite E.
    exists (retrieved a t received m). destruct (retrieved_same a t received m) as (? & ? & _).
    assert (El : lookup_key a key = known a t) by (unfold lookup_key; by rewrite Et). rewrite El.
    split_and!; try done. intros key'. destruct (bool_decide_reflect (key' = key)) as [->|Hne]; cbn [andb].
    + rewrite El. by apply (retrieved_self n a t received m key).
    + by apply same_for_lookup, (retrieved_others n a t received m key).
  - assert (El : lookup_key a key = None) by (unfold lookup_key; by rewrite Et). rewrite El.
    exists a. split_and!; try done. intros key'. case_bool_decide; [|done]. subst key'.
    cbn [andb]. rewrite El. by destruct received.
Qed.

(** Reports as they come from the parser. *)
Definition report_ok (info : PacketInfo) : Prop :=
  is_received info = true → 0 ≤ arrival_time_offset info ≤ 8000000.

(** The reports of a message that have an effect: those about a packet that was not
    reported as received before, in the message or ([gone]) earlier. *)
Fixpoint effective (gone : list (Z * Z)) (infos : list PacketInfo) : list PacketInfo :=
  match infos with
  | [] => []
  | info :: infos =>
      if bool_decide (info_key info ∈ gone) then effective gone infos
      else info :: effective (if is_received info then info_key info :: gone else gone) infos
  end.

(** The packets reported as received. *)
Definition received_keys (infos : list PacketInfo) : list (Z * Z) :=
  map info_key (filter (λ info, is_received info = true) infos).

(** Reports about different packets all have an effect. *)
Lemma effective_distinct infos : ∀ gone, NoDup (map info_key infos) →
  (∀ info, info ∈ infos → info_key info ∉ gone) → effective gone infos = infos.
Proof.
  induction infos as [|info infos IH]; intros gone Hnd Hg; [done|]. cbn [map effective] in *.
  inversion_clear Hnd as [|? ? Hni Hnd']. rewrite bool_decide_eq_false_2 by (apply Hg; left). f_equal.
  apply IH; [done|]. intros i Hi. assert (info_key i ≠ info_key info).
  { intros Ek. apply Hni. rewrite <- Ek. apply list_elem_of_In, in_map, list_elem_of_In, Hi. }
  specialize (Hg i ltac:(by right)). destruct (is_received info); [|done].
  by intros [?|?]%elem_of_cons.
Qed.

Lemma if_decide_ext {A} (P Q : Prop) `{Decision P, Decision Q} (x y : A) :
  (P ↔ Q) → (if bool_decide P then x else y) = (if bool_decide Q then x else y).
Proof. intros HPQ. by rewrite (bool_decide_ext P Q HPQ). Qed.

(** The adapter [a], reached from [a0] by forgetting the packets [gone]. *)
Definition forgot (a0 : TransportFeedbackAdapter) (gone : list (Z * Z)) (a : TransportFeedbackAdapter) : Prop :=
  network_route_ a = network_route_ a0 ∧ current_offset_ a = current_offset_ a0 ∧
  ∀ key, lookup_key a key = if bool_decide (key ∈ gone) then None else lookup_key a0 key.

Lemma forgot_result a0 gone a offset info : forgot a0 gone a →
  result_of a offset info = if bool_decide (info_key info ∈ gone) then None else result_of a0 offset info.
Proof. intros (Er & _ & Hl). unfold result_of. rewrite Hl, Er. by case_bool_decide. Qed.

Lemma forgot_capable a0 gone a info : forgot a0 gone a →
  ecn_capable a info = bool_decide (info_key info ∈ gone) || ecn_capable a0 info.
Proof. intros Hf. unfold ecn_capable. rewrite (forgot_result a0 gone) by done. by case_bool_decide. Qed.

(** One report. *)
Lemma process_packet_ok n a results b info : adapter_ok n a → calls_ok n → report_ok info →
  8000000 ≤ current_offset_ a ≤ 10 ^ 15 + 33 * 10 ^ 9 * n →
  ∃ a', process_packet (a, results, b) info =
      Some (a', results ++ option_list (result_of a (current_offset_ a) info), b && ecn_capable a info) ∧
    adapter_ok n a' ∧ forgot a (if is_received info then [info_key info] else []) a'.
Proof.
  intros Hok Hn Hrep Hoff. destruct (RetrieveByKey_ok n a (info_key info) (is_received info) Hok Hn)
    as (a' & E & Hok' & Er & Eo & Hl).
  exists a'. split.
  2: { split; [done|]. split_and!; [done|done|]. intros key. rewrite Hl.
       destruct (is_received info); [|by rewrite andb_false_r]. rewrite andb_true_r.
       apply if_decide_ext. by rewrite list_elem_of_singleton. }
  unfold process_packet. fold (info_key info) (is_received info).
  rewrite E. cbn [mbind option_bind]. unfold result_of, ecn_capable, result_of.
  destruct (lookup_key a (info_key info)) as [p|]; [|by rewrite app_nil_r, andb_true_r].
  rewrite Er. destruct (decide (network_route p = network_route_ a)) as [Hr|Hr].
  2: { rewrite bool_decide_eq_false_2 by done. by rewrite app_nil_r, andb_true_r. }
  rewrite bool_decide_eq_true_2 by done. cbn [negb].
  destruct (is_received info) eqn:Erec; cbn [negb orb option_list]; [|by rewrite andb_true_r].
  rewrite Eo. specialize (Hrep Erec). unfold calls_ok in Hn.
  assert (ts_sub (current_offset_ a) (arrival_time_offset info) =
    Some (current_offset_ a - arrival_time_offset info)) as ->; [|done].
  apply ts_sub_ok; unfold finite, PlusInfinity, MinusInfinity; lia.
Qed.

Lemma forgot_trans a0 a a1 gone keys gone' : forgot a0 gone a → forgot a keys a1 →
  (∀ k, k ∈ gone' ↔ k ∈ gone ∨ k ∈ keys) → forgot a0 gone' a1.
Proof.
  intros (E1 & E2 & H1) (E3 & E4 & H2) Hg. split_and!; [congruence|congruence|]. intros key.
  rewrite H2, H1. specialize (Hg key). repeat case_bool_decide; done || tauto.
Qed.

(** All reports of a message, also several about one packet. *)
Lemma process_packets_ok n a0 infos : ∀ a results b gone,
  adapter_ok n a → calls_ok n → Forall report_ok infos →
  8000000 ≤ current_offset_ a0 ≤ 10 ^ 15 + 33 * 10 ^ 9 * n → forgot a0 gone a →
  ∃ a', process_packets (a, results, b) infos =
      Some (a', results ++ omap (result_of a0 (current_offset_ a0)) (effective gone infos),
            b && forallb (ecn_capable a0) (effective gone infos)) ∧
    adapter_ok n a' ∧ forgot a0 (gone ++ received_keys infos) a'.
Proof.
  induction infos as [|info infos IH]; intros a results b gone Hok Hn Hrep Hoff Hf.
  { exists a. cbn. rewrite !app_nil_r, andb_true_r. by split_and!. }
  apply Forall_cons_1 in Hrep as [Hr1 Hrep]. assert (Eo : current_offset_ a = current_offset_ a0) by apply Hf.
  destruct (process_packet_ok n a results b info) as (a1 & E1 & Hok1 & Hf1); try done; [by rewrite Eo|].
  rewrite (forgot_result a0 gone), (forgot_capable a0 gone), Eo in E1 by done.
  cbn [process_packets effective]. rewrite E1. cbn [mbind option_bind].
  assert (Ek : received_keys (info :: infos) =
    (if is_received info then [info_key info] else []) ++ received_keys infos).
  { unfold received_keys. rewrite filter_cons. by destruct (is_received info). }
  rewrite Ek. case_bool_decide as Hg; cbn [option_list orb]; rewrite ?app_nil_r, ?andb_true_r.
  - destruct (IH a1 results b gone) as (a2 & -> & Hok2 & Hf2); try done.
    { apply (forgot_trans a0 a a1 gone _ gone Hf Hf1). intros k. destruct (is_received info);
        rewrite ?list_elem_of_singleton, ?elem_of_nil; [|tauto]. split; [tauto|]. by intros [?| ->]. }
    exists a2. split; [done|]. split; [done|]. split_and!; [apply Hf2|apply Hf2|]. intros key.
    rewrite (proj2 (proj2 Hf2)). apply if_decide_ext. rewrite !elem_of_app. destruct (is_received info);
      rewrite ?list_elem_of_singleton, ?elem_of_nil; [|tauto]. split; [tauto|]. by intros [?|[->|?]]; auto.
  - set (gone' := if is_received info then info_key info :: gone else gone).
    destruct (IH a1 (results ++ option_list (result_of a0 (current_offset_ a0) info)) (b && ecn_capable a0 info) gone')
      as (a2 & -> & Hok2 & Hf2); try done.
    { apply (forgot_trans a0 a a1 gone _ gone' Hf Hf1). intros k. unfold gone'. destruct (is_received info);
        rewrite ?elem_of_cons, ?list_elem_of_singleton, ?elem_of_nil; tauto. }
    exists a2. split; [|split; [done|split_and!; [apply Hf2|apply Hf2|]]].
    + rewrite <- app_assoc. cbn [omap list_omap forallb]. rewrite andb_assoc. do 3 f_equal.
      by destruct (result_of a0 _ info).
    + intros key. rewrite (proj2 (proj2 Hf2)). apply if_decide_ext. unfold gone'. rewrite !elem_of_app. destruct (is_received info);
        rewrite ?elem_of_cons, ?list_elem_of_singleton, ?elem_of_nil; tauto.
Qed.

(** A feedback message as it is received: any reports, with times the parser can
    produce, at least eight seconds after the clock's zero. *)
Record message_ok (f : CongestionControlFeedback) (time : Z) : Prop := {
  msg_time : 8000000 ≤ time ≤ 10 ^ 15;
  msg_ntp : uint32 (report_timestamp_compact_ntp_ f);
  msg_reports : Forall report_ok (packets_ f);
}.

(** The local time of the report timestamp: at first the time of arrival, then moved
    by the difference of the report timestamps, and reset if that is negative. *)
Definition local_time (a : TransportFeedbackAdapter) (f : CongestionControlFeedback) (time offset : Z) : Prop :=
  let base := if IsInfinite (current_offset_ a) then time else current_offset_ a in
  match last_feedback_compact_ntp_time_ a with
  | None => offset = base
  | Some last =>
      ∃ d, CompactNtpIntervalToTimeDelta (u32 (report_timestamp_compact_ntp_ f - last)) = Some d ∧
           offset = if d <? 0 then time else base + d
  end.

Lemma interval_range d : uint32 d →
  ∃ us, CompactNtpIntervalToTimeDelta d = Some us ∧ - (33 * 10 ^ 9) ≤ us ≤ 33 * 10 ^ 9.
Proof.
  unfold uint32, CompactNtpIntervalToTimeDelta. intros Hd.
  set (v := if d >? 0x80000000 then d - 2 ^ 32 else d).
  assert (- 2147483648 ≤ v ≤ 2147483648).
  { unfold v. rewrite Z.gtb_ltb. destruct (Z.ltb_spec 0x80000000 d); lia. }
  rewrite s64_id by (unfold int64, kNumMicrosecsPerSec; lia).
  destruct (DivideRoundToNearest_spec (v * kNumMicrosecsPerSec) (2 ^ 16)) as (q & -> & Hq); [done|].
  cbn [mbind option_bind]. unfold kNumMicrosecsPerSec in Hq. exists q. split; [|lia].
  apply FromValue_ok; [done|]. unfold finite, PlusInfinity, MinusInfinity. lia.
Qed.

Lemma offset_infinite n a : adapter_ok n a → calls_ok n →
  IsInfinite (current_offset_ a) = false → 8000000 ≤ current_offset_ a ≤ 10 ^ 15 + 33 * 10 ^ 9 * n.
Proof. intros Hok Hn Hi. destruct (ok_offset _ _ Hok) as [E|]; [by rewrite E in Hi|done]. Qed.

(** The clock step at the start of a feedback. *)
Lemma local_time_ok n a f time : adapter_ok n a → calls_ok n → message_ok f time →
  ∃ d offset,
    match last_feedback_compact_ntp_time_ a with
    | Some last => CompactNtpIntervalToTimeDelta (u32 (report_timestamp_compact_ntp_ f - last))
    | None => Some 0
    end = Some d ∧
    (if d <? 0 then Some time
     else ts_add (if IsInfinite (current_offset_ a) then time else current_offset_ a) d) = Some offset ∧
    local_time a f time offset ∧ 8000000 ≤ offset ≤ 10 ^ 15 + 33 * 10 ^ 9 * (n + 1).
Proof.
  intros Hok Hn [Ht _ _]. unfold local_time, calls_ok in *.
  set (base := if IsInfinite (current_offset_ a) then time else current_offset_ a).
  assert (Hb : 8000000 ≤ base ≤ 10 ^ 15 + 33 * 10 ^ 9 * n).
  { unfold base. destruct (IsInfinite _) eqn:Ei; [lia|]. by apply (offset_infinite n a). }
  assert (Hadd : ∀ d, 0 ≤ d ≤ 33 * 10 ^ 9 → ts_add base d = Some (base + d)).
  { intros d Hd. apply ts_add_ok; unfold finite, PlusInfinity, MinusInfinity; lia. }
  destruct (last_feedback_compact_ntp_time_ a) as [last|].
  - destruct (interval_range (u32 (report_timestamp_compact_ntp_ f - last)) (u32_range _)) as (d & E & Hd).
    exists d, (if d <? 0 then time else base + d). split; [done|].
    destruct (Z.ltb_spec d 0).
    + split; [done|]. split; [|lia]. exists d. by rewrite (proj2 (Z.ltb_lt d 0)).
    + rewrite Hadd by lia. split; [done|]. split; [|lia]. exists d. by rewrite (proj2 (Z.ltb_ge d 0)).
  - exists 0, base. rewrite (proj2 (Z.ltb_ge 0 0)) by lia. rewrite Hadd by lia. rewrite Z.add_0_r.
    split_and!; try done; lia.
Qed.

Section feedback.
Context (c_sort : list PacketResult → list PacketResult) `{!SortsResults c_sort}.

(** What a feedback leads to: the results of the known packets, in the order of
    sending, with what is still in flight, and whether the path carries ECN. *)
Lemma feedback_ok n a f time : adapter_ok n a → 0 ≤ n → calls_ok (n + 1) → message_ok f time →
  wp (ProcessCongestionControlFeedback c_sort a f time) (λ '(msg, a'),
    adapter_ok (n + 1) a' ∧ network_route_ a' = network_route_ a ∧
    ∃ offset, (packets_ f ≠ [] → local_time a f time offset) ∧
      let reports := effective [] (packets_ f) in
      let results := omap (result_of a offset) reports in
      match msg with
      | None => results = []
      | Some m =>
          packet_feedbacks m ≡ₚ results ∧ StronglySorted send_order (packet_feedbacks m) ∧
          feedback_time m = time ∧ msg_data_in_flight m = GetOutstandingData a' ∧
          transport_supports_ecn m = forallb (ecn_capable a) reports
      end ∧
      ∀ key, lookup_key a' key =
        if bool_decide (key ∈ received_keys (packets_ f)) then None else lookup_key a key).
Proof using Type*.
  intros Hok H0 Hn Hmsg. unfold ProcessCongestionControlFeedback.
  destruct (packets_ f) as [|i0 is0] eqn:Ep.
  { apply wp_ret. split; [apply (adapter_ok_le n); [done|lia]|]. split; [done|]. exists 0.
    by split_and!. }
  rewrite <- Ep. assert (Hne : packets_ f ≠ []) by (by rewrite Ep). clear Ep i0 is0.
  destruct (local_time_ok n a f time Hok ltac:(unfold calls_ok in *; lia) Hmsg)
    as (d & offset & E1 & E2 & Hloc & Hoff).
  apply wp_bind. rewrite E1. cbn [wp]. apply wp_bind. rewrite E2. cbn [wp]. cbv zeta.
  destruct Hmsg as [Ht Hntp Hrep].
  set (a0 := with_clock a offset (report_timestamp_compact_ntp_ f)).
  assert (Hok0 : adapter_ok (n + 1) a0).
  { apply (adapter_ok_le n (n + 1)) in Hok as []; [|lia]. split; try done; [by right| |by intros t [= <-]].
    destruct ok_base0 as [?|[? _]]; [by left|right]. split; [done|]. apply Hoff. }
  destruct (process_packets_ok (n + 1) a0 (packets_ f) a0 [] true []) as (a' & E & Hok' & Er & _ & Hg);
    try done.
  rewrite E. cbn [mbind option_bind wp app andb].
  change (current_offset_ a0) with offset.
  assert (Eres : result_of a0 offset = result_of a offset) by reflexivity.
  rewrite Eres. split; [done|]. split; [done|]. exists offset. split; [done|]. cbv zeta.
  set (results := omap (result_of a offset) (effective [] (packets_ f))).
  pose proof (results_perm results) as Hperm. pose proof (results_sorted results) as Hsort. split.
  - unfold ToTransportFeedback. destruct (c_sort results) as [|r rs] eqn:Es.
    + by apply Permutation_nil_l in Hperm.
    + cbn. split_and!; try done.
  - exact Hg.
Qed.
End feedback.

End TransportAdapter.
