(* ===== verification/AdapterSession.v ===== *)
(** * Sessions of the transport feedback adapter
    (modules/congestion_controller/rtp/transport_feedback_adapter.cc)

    Transport-wide feedback on top of the invariant of TransportAdapter.v, the adapters
    that sequences of calls lead to, and what the congestion controller learns from
    both kinds of feedback. *)

From stdpp Require Import gmap sorting.
From S2P Require Import Prelude SeqNum Units Rtcp CcFeedback OrderedMap TransportChunk TransportFb TransportCodec TransportAdapter.
Import SeqNum Units CcFeedback OrderedMap TransportAdapter.

Module AdapterSession.

(** ** Transport-wide feedback *)

(** The next sequence number unwraps to the next number. *)
Lemma Unwrap_next u last : last_value_ u = Some last → consistent 16 u →
  int64 (last_unwrapped_ u + 1) →
  Unwrap 16 u (u16 (last + 1)) =
    (last_unwrapped_ u + 1, mkUnwrapper (last_unwrapped_ u + 1) (Some (u16 (last + 1)))).
Proof.
  intros E Hu Hi. unfold Unwrap, consistent in *. rewrite E in *. destruct Hu as [Hl _].
  pose proof (u16_range (last + 1)) as Hr.
  destruct (Delta_spec 16 ltac:(lia) last (u16 (last + 1))) as [Hd Hm]; [done|unfold uint16 in Hr; lia|].
  change (half 16) with 32768 in Hd. change (2 ^ 16) with 65536 in *.
  assert (Delta 16 last (u16 (last + 1)) = 1) as ->.
  { set (d := Delta 16 _ _) in *. clearbody d. unfold u16 in Hm. Z.to_euclidean_division_equations; lia. }
  by rewrite s64_id by done.
Qed.

(** What the congestion controller is told about the packet with number [t]: packets
    that are not known and packets sent on another route are left out; the arrival
    is in local time, in whole milliseconds from the reference time. *)
Definition arrival_of (a : TransportFeedbackAdapter) (offset t d : Z) : option PacketResult :=
  match known a t with
  | Some p =>
      if decide (network_route p = network_route_ a)
      then Some (mkResult (sent p)
             (if IsFinite d then offset + Z.quot d 1000 * 1000 else PlusInfinity) kNotEct)
      else None
  | None => None
  end.

(** The calls are about the packets from [t] on. *)
Fixpoint arrivals (a : TransportFeedbackAdapter) (offset t : Z) (calls : list (Z * Z))
  : list PacketResult :=
  match calls with
  | [] => []
  | c :: calls => option_list (arrival_of a offset t c.2) ++ arrivals a offset (t + 1) calls
  end.

Lemma arrivals_ext a a' offset calls : ∀ t, network_route_ a' = network_route_ a →
  (∀ t', t ≤ t' → known a' t' = known a t') → arrivals a' offset t calls = arrivals a offset t calls.
Proof.
  induction calls as [|c calls IH]; intros t Er Hk; [done|]. cbn [arrivals]. unfold arrival_of.
  rewrite Er, Hk, IH by (done || (intros; apply Hk; lia)). done.
Qed.

(** Looking up one packet forgets that packet at most. *)
Lemma known_retrieved n a t received m t' : adapter_ok n a →
  known (retrieved a t received m) t' =
    if (t' =? t) && received then None else known a t'.
Proof.
  intros Hok. unfold retrieved. destruct (known a t) as [p|] eqn:Ek; [destruct received|].
  - unfold known. fields. rewrite find_erase by apply Hok. rewrite andb_true_r. by destruct (t' =? t).
  - by rewrite andb_false_r.
  - destruct (Z.eqb_spec t' t) as [->|]; [|done]. destruct received; [|done].
    unfold known in *. fields. done.
Qed.

Lemma with_unwrapper_ok n a u : adapter_ok n a → consistent 16 u →
  - (65535 + 2147483648 * n) ≤ last_unwrapped_ u ≤ 65535 + 2147483648 * n →
  adapter_ok n (with_unwrapper a u).
Proof. intros [] Hc Hr. by split. Qed.

(** A time the handler is given, in local time. *)
Definition local_ok (offset : Z) (call : Z * Z) : Prop :=
  TransportFb.call_time_ok call ∧ (IsFinite call.2 = true → 0 ≤ offset + call.2).

Lemma local_arrival offset v d : 8000000 ≤ offset ≤ 10 ^ 15 → local_ok offset (v, d) →
  IsFinite d = true →
  (d ← RoundDownTo d 1000; ts_add offset d) = Some (offset + Z.quot d 1000 * 1000).
Proof.
  intros Ho [[E|Hb] Hl] Hf; cbn [snd] in *; [by rewrite E in Hf|]. specialize (Hl Hf).
  rewrite RoundDownTo_ok by (unfold finite, PlusInfinity, MinusInfinity; lia). cbn [mbind option_bind].
  assert (Hq : Z.abs (Z.quot d 1000 * 1000) ≤ Z.abs d ∧ (0 ≤ offset + Z.quot d 1000 * 1000)).
  { Z.to_euclidean_division_equations. lia. }
  apply ts_add_ok; unfold finite, PlusInfinity, MinusInfinity; lia.
Qed.

(** One call of the handler. *)
Lemma handle_packet_ok n a results v t d : adapter_ok n a → calls_ok n →
  Unwrap 16 (seq_num_unwrapper_ a) v = (t, mkUnwrapper t (Some v)) →
  consistent 16 (mkUnwrapper t (Some v)) →
  - (65535 + 2147483648 * n) ≤ t ≤ 65535 + 2147483648 * n →
  8000000 ≤ current_offset_ a ≤ 10 ^ 15 → local_ok (current_offset_ a) (v, d) →
  ∃ a', handle_packet (a, results) (v, d) =
      Some (a', results ++ option_list (arrival_of a (current_offset_ a) t d)) ∧
    adapter_ok n a' ∧ network_route_ a' = network_route_ a ∧ current_offset_ a' = current_offset_ a ∧
    seq_num_unwrapper_ a' = mkUnwrapper t (Some v) ∧
    last_ack_seq_num_ a' = Z.max (last_ack_seq_num_ a) t ∧
    ∀ t', known a' t' = if (t' =? t) && IsFinite d then None else known a t'.
Proof.
  intros Hok Hn Eu Hc Hr Ho Hl. unfold handle_packet. rewrite Eu.
  assert (Hok' := with_unwrapper_ok n a _ Hok Hc Hr). set (b := with_unwrapper a _) in *.
  destruct (Retrieve_ok n b t (IsFinite d) Hok' Hn) as (m & -> & Hm). cbn [mbind option_bind].
  exists (retrieved b t (IsFinite d) m). destruct (retrieved_same b t (IsFinite d) m) as (Er & Eo & _).
  rewrite Eo, Er. change (current_offset_ b) with (current_offset_ a).
  change (network_route_ b) with (network_route_ a). change (known b t) with (known a t).
  split; [|split_and!; try done].
  - unfold arrival_of. destruct (known a t) as [p|] eqn:Ek; [|by rewrite app_nil_r].
    assert (receive_time p = PlusInfinity) as ->.
    { apply known_find in Ek. apply (entry_of _ _ _ (ok_order _ _ Hok) (ok_entries _ _ Hok)) in Ek. apply Ek. }
    assert ((if IsFinite d then d ← RoundDownTo d 1000; ts_add (current_offset_ a) d else Some PlusInfinity) =
      Some (if IsFinite d then current_offset_ a + Z.quot d 1000 * 1000 else PlusInfinity)) as ->.
    { destruct (IsFinite d) eqn:Ef; [|done]. by apply (local_arrival _ v). }
    cbn [mbind option_bind]. destruct (decide (network_route p = network_route_ a)).
    + by rewrite bool_decide_eq_true_2.
    + by rewrite bool_decide_eq_false_2, app_nil_r.
  - unfold retrieved. destruct (known b t); [destruct (IsFinite d)|]; done.
  - unfold retrieved. destruct (known b t); [destruct (IsFinite d)|]; done.
  - intros t'. by rewrite (known_retrieved n).
Qed.

(** The packets from [t] on that the calls report as received. *)
Fixpoint reports_received (t : Z) (calls : list (Z * Z)) (t' : Z) : bool :=
  match calls with
  | [] => false
  | c :: calls => (t' =? t) && IsFinite c.2 || reports_received (t + 1) calls t'
  end.

(** All calls of the handler, about consecutive sequence numbers. *)
Lemma handle_packets_ok n calls : ∀ a results v t,
  adapter_ok n a → calls_ok n → uint16 v →
  map fst calls = map (λ i, u16 (v + Z.of_nat i)) (seq 0 (length calls)) →
  Unwrap 16 (seq_num_unwrapper_ a) v = (t, mkUnwrapper t (Some v)) → t mod 65536 = v →
  - (65535 + 2147483648 * n) ≤ t → t + Z.of_nat (length calls) ≤ 65535 + 2147483648 * n →
  8000000 ≤ current_offset_ a ≤ 10 ^ 15 → Forall (local_ok (current_offset_ a)) calls →
  ∃ a', TransportFb.fold_m handle_packet (a, results) calls =
      Some (a', results ++ arrivals a (current_offset_ a) t calls) ∧
    adapter_ok n a' ∧ network_route_ a' = network_route_ a ∧
    last_ack_seq_num_ a' =
      (if bool_decide (calls = []) then last_ack_seq_num_ a
       else Z.max (last_ack_seq_num_ a) (t + Z.of_nat (length calls) - 1)) ∧
    ∀ t', known a' t' = if reports_received t calls t' then None else known a t'.
Proof.
  induction calls as [|[v0 d] calls IH]; intros a results v t Hok Hn Hv Hs Eu Hm Hlo Hhi Ho Hl.
  { exists a. cbn. rewrite app_nil_r. done. }
  cbn [map length seq] in Hs. injection Hs as Hv0 Hs. cbn [length] in Hhi. apply Forall_cons_1 in Hl as [Hl1 Hl].
  assert (v0 = v) as ->.
  { cbn [fst] in Hv0. rewrite Z.add_0_r in Hv0. unfold u16, uint16 in *. by rewrite Z.mod_small in Hv0 by lia. }
  assert (Hc : consistent 16 (mkUnwrapper t (Some v))).
  { unfold consistent. cbn [last_value_ last_unwrapped_]. unfold uint16 in Hv. change (2 ^ 16) with 65536. lia. }
  destruct (handle_packet_ok n a results v t d) as (a1 & E1 & Hok1 & Er1 & Eo1 & Eu1 & El1 & Hk1);
    try done; [lia|].
  cbn [TransportFb.fold_m]. rewrite E1. cbn [mbind option_bind].
  assert (Hnext : Unwrap 16 (seq_num_unwrapper_ a1) (u16 (v + 1)) =
    (t + 1, mkUnwrapper (t + 1) (Some (u16 (v + 1))))).
  { rewrite Eu1. apply (Unwrap_next (mkUnwrapper t (Some v)) v); [done|done|].
    unfold int64, calls_ok in *. cbn [last_unwrapped_]. lia. }
  destruct (IH a1 (results ++ option_list (arrival_of a (current_offset_ a) t d)) (u16 (v + 1)) (t + 1))
    as (a2 & E2 & Hok2 & Er2 & El2 & Hk2); try done; try lia.
  { apply u16_range. }
  { rewrite Hs, <- seq_shift, map_map. apply map_ext. intros i. unfold u16.
    rewrite Zplus_mod_idemp_l. f_equal. lia. }
  { unfold u16. rewrite <- Hm. symmetry. apply Zplus_mod_idemp_l. }
  { by rewrite Eo1. }
  exists a2. rewrite E2, Eo1. split_and!; try done.
  - cbn [arrivals snd]. rewrite <- app_assoc. do 3 f_equal. f_equal. apply arrivals_ext; [done|].
    intros t' Ht. rewrite Hk1. by rewrite (proj2 (Z.eqb_neq t' t)) by lia.
  - congruence.
  - rewrite El2, El1. cbn [length]. destruct calls as [|c calls].
    + rewrite bool_decide_eq_true_2, bool_decide_eq_false_2 by done. cbn [length]. lia.
    + rewrite !bool_decide_eq_false_2 by done. cbn [length]. lia.
  - intros t'. rewrite Hk2, Hk1. cbn [reports_received snd]. destruct ((t' =? t) && IsFinite d); [|done].
    cbn [orb]. by destruct (reports_received (t + 1) calls t').
Qed.

(** A packet that is reported, known and sent on the route is among the results. *)
Lemma arrivals_elem a offset calls : ∀ t i c p, calls !! i = Some c →
  known a (t + Z.of_nat i) = Some p → network_route p = network_route_ a →
  mkResult (sent p) (if IsFinite c.2 then offset + Z.quot c.2 1000 * 1000 else PlusInfinity) kNotEct
    ∈ arrivals a offset t calls.
Proof.
  induction calls as [|c0 calls IH]; intros t i c p Hi Hk Hr; [done|]. cbn [arrivals]. apply elem_of_app.
  destruct i as [|i].
  - injection Hi as ->. rewrite Z.add_0_r in Hk. left. unfold arrival_of.
    rewrite Hk, decide_True by done. cbn. apply list_elem_of_singleton. done.
  - right. apply (IH (t + 1) i); [done| |done]. rewrite <- Hk. f_equal. lia.
Qed.

Lemma reports_received_at calls : ∀ t i c, calls !! i = Some c → IsFinite c.2 = true →
  reports_received t calls (t + Z.of_nat i) = true.
Proof.
  induction calls as [|c0 calls IH]; intros t i c Hi Hf; [done|]. cbn [reports_received].
  destruct i as [|i].
  - injection Hi as ->. by rewrite Z.add_0_r, Z.eqb_refl, Hf.
  - rewrite Nat2Z.inj_succ. replace (t + Z.succ (Z.of_nat i)) with (t + 1 + Z.of_nat i) by lia.
    by rewrite (IH _ _ c), orb_true_r.
Qed.

(** The local time of the reference time of a message: at first the time of arrival,
    then moved by the distance of the reference times in whole milliseconds, and reset
    if that would make it negative. *)
Definition reference_time (a : TransportFeedbackAdapter) (f : TransportFb.TransportFeedback) (time : Z) : Z :=
  if IsInfinite (last_transport_feedback_base_time_ a) then time
  else
    let d := TransportFb.nearest (TransportFb.base_time (TransportFb.base_time_ticks_ f)
                                  - last_transport_feedback_base_time_ a) in
    let moved := current_offset_ a + Z.quot d 1000 * 1000 in
    if moved <? 0 then time else moved.

(** A transport-wide feedback as it is received: a message the parser accepts, whose
    reference time and arrival times lie between the clock's zero and some thirty
    years in local time, the reference at least eight seconds from zero. *)
Record wide_ok (a : TransportFeedbackAdapter) (f : TransportFb.TransportFeedback) (time : Z) : Prop := {
  wide_time : 8000000 ≤ time ≤ 10 ^ 15;
  wide_message : ∃ sizes, TransportFb.well_formed TransportFb.allowed f sizes;
  wide_reference : 8000000 ≤ reference_time a f time ≤ 10 ^ 15;
  wide_arrivals : ∀ calls, TransportFb.ForAllPackets f = Some calls →
    Forall (λ c, IsFinite c.2 = true → 0 ≤ reference_time a f time + c.2) calls;
}.

Lemma move_offset_ok n a f time : adapter_ok n a → calls_ok n → wide_ok a f time →
  move_offset a f time = Some (reference_time a f time).
Proof.
  intros Hok Hn Hw. unfold move_offset, reference_time, calls_ok in *.
  destruct (IsInfinite (last_transport_feedback_base_time_ a)) eqn:Ei; [done|].
  destruct (ok_base _ _ Hok) as [E|[Hb Ho]]; [by rewrite E in Ei|].
  destruct (ok_offset _ _ Hok) as [E|Hoff]; [rewrite E in Ho; unfold MinusInfinity in Ho; lia|].
  destruct (wide_message _ _ _ Hw) as (sizes & _ & Ht & _).
  destruct (TransportFb.GetBaseDelta_spec f _ Ht Hb) as [-> Hd]. cbn [mbind option_bind].
  set (d := TransportFb.nearest _) in *. rewrite TransportFb.wrap_value in Hd.
  rewrite RoundDownTo_ok by (unfold finite, PlusInfinity, MinusInfinity; lia). cbn [mbind option_bind].
  rewrite ts_diff_ok by (unfold finite, PlusInfinity, MinusInfinity; lia). cbn [mbind option_bind].
  assert (Z.abs (Z.quot d 1000 * 1000) ≤ Z.abs d) by (Z.to_euclidean_division_equations; lia).
  destruct (Z.ltb_spec (Z.quot d 1000 * 1000) (0 - current_offset_ a)),
    (Z.ltb_spec (current_offset_ a + Z.quot d 1000 * 1000) 0); try lia; [done|].
  apply ts_add_ok; unfold finite, PlusInfinity, MinusInfinity; lia.
Qed.

Lemma with_base_ok n a offset base : adapter_ok n a → 0 ≤ n → 8000000 ≤ offset ≤ 10 ^ 15 →
  TransportFb.kTimeWrapPeriod ≤ base < 2 * TransportFb.kTimeWrapPeriod →
  adapter_ok n (with_base a offset base).
Proof. intros [] Hn Ho Hb. split; try done; right; unfold with_base; fields; lia. Qed.

(** The first number of a message, unwrapped. *)
Lemma Unwrap_first n u v : calls_ok n → consistent 16 u → uint16 v →
  - (65535 + 2147483648 * n) ≤ last_unwrapped_ u ≤ 65535 + 2147483648 * n →
  ∃ t, Unwrap 16 u v = (t, mkUnwrapper t (Some v)) ∧ t mod 65536 = v ∧
    - (98303 + 2147483648 * n) ≤ t ≤ 98303 + 2147483648 * n.
Proof.
  intros Hn Hu Hv Hr. exists (Unwrap 16 u v).1. unfold uint16, calls_ok in *.
  destruct (Unwrap_congruent 16 ltac:(lia) u v) as [Hm _]; [lia|done|]. split; [done|]. split; [done|].
  unfold Unwrap, consistent in *. cbn [fst]. destruct (last_value_ u) as [last|]; [|lia].
  destruct Hu as [H16 _]. destruct (Delta_spec 16 ltac:(lia) last v) as [Hd _]; [done|lia|].
  change (half 16) with 32768 in Hd. rewrite s64_id by (unfold int64; lia). lia.
Qed.

(** What a transport-wide feedback leads to. *)
Lemma wide_feedback_ok n a f time : adapter_ok n a → 0 ≤ n → calls_ok (n + 1) → wide_ok a f time →
  wp (ProcessTransportFeedback a f time) (λ '(msg, a'),
    adapter_ok (n + 1) a' ∧ network_route_ a' = network_route_ a ∧
    ∃ calls, TransportFb.ForAllPackets f = Some calls ∧
      let first := (Unwrap 16 (seq_num_unwrapper_ a) (TransportFb.base_seq_no_ f)).1 in
      let results := arrivals a (reference_time a f time) first calls in
      msg = (if bool_decide (results = []) then None
             else Some (mkTransport time (GetOutstandingData a') false results)) ∧
      last_ack_seq_num_ a' =
        (if bool_decide (calls = []) then last_ack_seq_num_ a
         else Z.max (last_ack_seq_num_ a) (first + Z.of_nat (length calls) - 1)) ∧
      ∀ t, known a' t = if reports_received first calls t then None else known a t).
Proof.
  intros Hok H0 Hn Hw. destruct (wide_message _ _ _ Hw) as (sizes & Hwf).
  destruct (TransportFb.ForAllPackets_spec f sizes Hwf) as (calls & Ecalls & Hnum & _).
  assert (Hlen : length calls = length sizes) by (by rewrite <- (length_map fst calls), Hnum, length_map, length_seq).
  assert (Hb := TransportFb.calls_bounded f sizes calls Hwf Ecalls).
  destruct (Hwf) as (Hseq & Ht & Hcount & Hmax & _).
  assert (Hn' : calls_ok n) by (unfold calls_ok in *; lia). unfold ProcessTransportFeedback.
  destruct (Z.eqb_spec (TransportFb.num_seq_no_ f) 0) as [Ez|Hz].
  { apply wp_ret. split; [by apply (adapter_ok_le n); [|lia]|]. split; [done|]. exists calls.
    destruct calls; [done|]. cbn [length] in *. lia. }
  rewrite (move_offset_ok n), TransportFb.BaseTime_spec, Ecalls by done. cbn [mbind option_bind].
  set (offset := reference_time a f time) in *. set (base := TransportFb.base_time _).
  assert (Hok1 : adapter_ok (n + 1) (with_base a offset base)).
  { apply with_base_ok; [by apply (adapter_ok_le n); [|lia]|lia|apply Hw|].
    unfold base, TransportFb.base_time, TransportFb.ticks_ok in *. rewrite TransportFb.wrap_value.
    change TransportFb.kBaseTimeTick with 64000. lia. }
  destruct (Unwrap_first n (seq_num_unwrapper_ a) (TransportFb.base_seq_no_ f)) as (t & Eu & Hm & Hr);
    [done|apply Hok|done|apply Hok|].
  destruct (handle_packets_ok (n + 1) calls (with_base a offset base) [] (TransportFb.base_seq_no_ f) t)
    as (a' & E & Hok' & Er & El & Hk); try done; try lia.
  { by rewrite Hlen. }
  { apply Hw. }
  { pose proof (wide_arrivals _ _ _ Hw calls Ecalls) as Ha. fields. fold offset in Ha.
    by apply (List.Forall_and Hb Ha). }
  rewrite E. cbn [mbind option_bind app]. apply wp_ret. split; [done|]. split; [done|]. exists calls.
  split; [done|]. rewrite Eu. cbn [fst]. cbv zeta. split; [|done].
  change (arrivals (with_base a offset base) (current_offset_ (with_base a offset base)) t calls)
    with (arrivals (with_base a offset base) offset t calls).
  rewrite (arrivals_ext a (with_base a offset base)) by done. unfold ToTransportFeedback.
  by destruct (arrivals a offset t calls).
Qed.

(** ** Reachable adapters *)

(** The adapters a sequence of [n] calls leads to. *)
Inductive reachable (c_sort : list PacketResult → list PacketResult) :
    Z → TransportFeedbackAdapter → Prop :=
| reachable_new : reachable c_sort 0 new_adapter
| reachable_route n a r : reachable c_sort n a → reachable c_sort n (SetNetworkRoute a r)
| reachable_add n a a' packet pacing overhead creation :
    reachable c_sort n a → send_ok a packet overhead creation →
    AddPacket a packet pacing overhead creation = Some a' → reachable c_sort (n + 1) a'
| reachable_sent n a a' info r :
    reachable c_sort n a → sent_info_ok info →
    ProcessSentPacket a info = Some (r, a') → reachable c_sort (n + 1) a'
| reachable_feedback n a a' f time msg :
    reachable c_sort n a → message_ok f time →
    ProcessCongestionControlFeedback c_sort a f time = Some (msg, a') → reachable c_sort (n + 1) a'
| reachable_wide n a a' f time msg :
    reachable c_sort n a → wide_ok a f time →
    ProcessTransportFeedback a f time = Some (msg, a') → reachable c_sort (n + 1) a'.

Lemma reachable_ok c_sort `{!SortsResults c_sort} n a : reachable c_sort n a → n ≤ 10 ^ 8 →
  0 ≤ n ∧ adapter_ok n a.
Proof.
  induction 1 as [|n a r _ IH|n a a' packet pacing overhead creation _ IH Hs E
                 |n a a' info r _ IH Hs E|n a a' f time msg _ IH Hs E|n a a' f time msg _ IH Hs E]; intros Hn.
  - split; [done|apply new_adapter_ok].
  - destruct (IH Hn). split; [done|by apply SetNetworkRoute_ok].
  - destruct (IH ltac:(lia)) as [H0 Hok]. split; [lia|].
    eapply (wp_run _ _ _ E), wp_mono; [eapply (AddPacket_ok n); [done|unfold calls_ok; lia|done]|].
    by intros ? [? _].
  - destruct (IH ltac:(lia)) as [H0 Hok]. split; [lia|].
    pose proof (wp_run _ _ _ E (ProcessSentPacket_ok n a info Hok ltac:(unfold calls_ok; lia) Hs)) as H.
    by destruct H.
  - destruct (IH ltac:(lia)) as [H0 Hok]. split; [lia|].
    pose proof (wp_run _ _ _ E (feedback_ok c_sort n a f time Hok H0 ltac:(unfold calls_ok; lia) Hs)) as H.
    by destruct H.
  - destruct (IH ltac:(lia)) as [H0 Hok]. split; [lia|].
    pose proof (wp_run _ _ _ E (wide_feedback_ok n a f time Hok H0 ltac:(unfold calls_ok; lia) Hs)) as H.
    by destruct H.
Qed.

Lemma wp_is_Some {A} (m : option A) Q : wp m Q → is_Some m.
Proof. intros (a & -> & _)%wp_exists. by exists a. Qed.

(** ** A sort *)

#[export] Instance send_order_dec : RelDecision send_order.
Proof. intros a b. unfold send_order. apply _. Defined.

#[export] Instance send_order_total : Total send_order.
Proof. intros a b. unfold send_order. lia. Qed.

#[export] Instance send_order_trans : Transitive send_order.
Proof. intros a b c. unfold send_order. lia. Qed.

#[export] Instance merge_sort_SortsResults : SortsResults (merge_sort send_order).
Proof. split; [apply merge_sort_Permutation|apply StronglySorted_merge_sort; apply _]. Qed.

(** C10: the data in flight is exact. After any sequence of up to a hundred million
    calls (packets created, packets sent, routes changed, feedback of both kinds), the
    outstanding data of every route is the total size of the packets in the history
    that were sent on it and lie behind the last acknowledged sequence number, and
    no further call with proper arguments fails a debug check: in particular no
    acknowledgement removes more bytes than are in flight. *)
Theorem in_flight_exact (c_sort : list PacketResult → list PacketResult) (n : Z)
    (a : TransportFeedbackAdapter) :
  SortsResults c_sort → reachable c_sort n a → n < 10 ^ 8 →
  (∀ r, OutstandingData (in_flight_ a) r = flying (last_ack_seq_num_ a) (route_key r) (history_ a)) ∧
  (∀ packet pacing overhead creation, send_ok a packet overhead creation →
     is_Some (AddPacket a packet pacing overhead creation)) ∧
  (∀ info, sent_info_ok info → is_Some (ProcessSentPacket a info)) ∧
  (∀ f time, message_ok f time → is_Some (ProcessCongestionControlFeedback c_sort a f time)) ∧
  (∀ f time, wide_ok a f time → is_Some (ProcessTransportFeedback a f time)).
Proof.
  intros Hc Hr Hn. destruct (reachable_ok c_sort n a Hr ltac:(lia)) as [H0 Hok].
  assert (Hcalls : calls_ok n) by (unfold calls_ok; lia). split_and!.
  - intros r. apply Hok.
  - intros. eapply wp_is_Some. by apply (AddPacket_ok n).
  - intros. eapply wp_is_Some. by apply (ProcessSentPacket_ok n).
  - intros f time Hm. eapply wp_is_Some. apply (feedback_ok c_sort n a f time); try done.
    unfold calls_ok. lia.
  - intros f time Hw. eapply wp_is_Some. apply (wide_feedback_ok n a f time); try done.
    unfold calls_ok. lia.
Qed.

Definition example_packet : RtpPacketToSend := mkToSend (Some 10) 1200 false 7 65535.
Definition example_pacing : PacedPacketInfo := mkPaced 0 (-1) (-1) (-1) 0.
Definition example_created : TransportFeedbackAdapter :=
  match AddPacket new_adapter example_packet example_pacing 28 1000 with
  | Some a => a
  | None => new_adapter
  end.
Definition example_sent_info : SentPacketInfo := mkSentInfo 10 2 true false 1200.
Definition example_sent : TransportFeedbackAdapter :=
  match ProcessSentPacket example_created example_sent_info with
  | Some (_, a) => a
  | None => new_adapter
  end.

Lemma example_sent_reachable c_sort : reachable c_sort (0 + 1 + 1) example_sent.
Proof.
  apply (reachable_sent c_sort _ example_created _ example_sent_info
           (Some (mkSent 2000 1228 0 example_pacing false 10 1228))).
  - apply (reachable_add c_sort _ new_adapter _ example_packet example_pacing 28 1000).
    + apply reachable_new.
    + split; [cbn; lia|]. split; [lia|]. by exists 10.
    + reflexivity.
  - split; cbn; lia.
  - reflexivity.
Qed.

Lemma in_flight_exact_witness :
  GetOutstandingData example_sent = 1228 ∧
  (∀ r, OutstandingData (in_flight_ example_sent) r =
        flying (last_ack_seq_num_ example_sent) (route_key r) (history_ example_sent)) ∧
  (∀ packet pacing overhead creation, send_ok example_sent packet overhead creation →
     is_Some (AddPacket example_sent packet pacing overhead creation)) ∧
  (∀ info, sent_info_ok info → is_Some (ProcessSentPacket example_sent info)) ∧
  (∀ f time, message_ok f time →
     is_Some (ProcessCongestionControlFeedback (merge_sort send_order) example_sent f time)) ∧
  (∀ f time, wide_ok example_sent f time → is_Some (ProcessTransportFeedback example_sent f time)).
Proof.
  split; [reflexivity|].
  apply (in_flight_exact (merge_sort send_order) (0 + 1 + 1) example_sent);
    [apply _|apply example_sent_reachable|lia].
Defined.

(** C27: what the congestion controller learns from a feedback. For any message of the
    parser (arrival offsets up to 8 s), also one that reports a packet several times, at
    a local time between 8 s and 10^15 us after fewer than 10^8 calls: no check fails,
    and every report of a packet that is known, was sent on the current route and was not
    reported as received earlier in the message yields exactly one result: the packet as
    it was sent, its arrival in local time (the report time less the reported offset) or
    infinity if it was lost, and its ECN mark. The results are in the order of sending and
    come with the data that is still in flight, and the path is said to support ECN
    exactly when no received packet lost its mark. Exactly the packets reported as
    received are forgotten. (A packet reported twice as lost has two results, see
    lost_twice.) *)
Theorem ProcessCongestionControlFeedback_correct (c_sort : list PacketResult → list PacketResult)
    (n : Z) (a : TransportFeedbackAdapter) (f : CongestionControlFeedback) (time : Z) :
  SortsResults c_sort → reachable c_sort n a → n < 10 ^ 8 → message_ok f time →
  wp (ProcessCongestionControlFeedback c_sort a f time) (λ '(msg, a'),
    ∃ offset, (packets_ f ≠ [] → local_time a f time offset) ∧
      let reports := effective [] (packets_ f) in
      let results := omap (result_of a offset) reports in
      match msg with
      | None => results = []
      | Some m =>
          packet_feedbacks m ≡ₚ results ∧ StronglySorted send_order (packet_feedbacks m) ∧
          feedback_time m = time ∧ msg_data_in_flight m = GetOutstandingData a' ∧
          transport_supports_ecn m = forallb (ecn_capable a) reports
      end ∧
      ∀ key, lookup_key a' key =
        if bool_decide (key ∈ received_keys (packets_ f)) then None else lookup_key a key).
Proof.
  intros Hc Hr Hn Hm. destruct (reachable_ok c_sort n a Hr ltac:(lia)) as [H0 Hok].
  wp_call (apply (feedback_ok c_sort n); [done|done|unfold calls_ok; lia|done]).
  by intros [msg a'] (_ & _ & H).
Qed.

Definition example_message : CongestionControlFeedback :=
  mkFeedback 1 [mkInfo 7 65535 1000 kCe; mkInfo 7 0 MinusInfinity kNotEct] 99.

Lemma example_message_ok : message_ok example_message 9000000.
Proof.
  split; cbn; [lia|unfold uint32; lia|].
  repeat apply Forall_cons_2; try apply Forall_nil_2; unfold report_ok; cbn; lia || done.
Qed.

Lemma ProcessCongestionControlFeedback_correct_witness :
  (fst <$> ProcessCongestionControlFeedback (merge_sort send_order) example_sent example_message 9000000) =
    Some (Some (mkTransport 9000000 0 true
      [mkResult (mkSent 2000 1228 0 example_pacing false 10 1228) 8999000 kCe])) ∧
  wp (ProcessCongestionControlFeedback (merge_sort send_order) example_sent example_message 9000000)
    (λ '(msg, a'),
    ∃ offset, (packets_ example_message ≠ [] → local_time example_sent example_message 9000000 offset) ∧
      let reports := effective [] (packets_ example_message) in
      let results := omap (result_of example_sent offset) reports in
      match msg with
      | None => results = []
      | Some m =>
          packet_feedbacks m ≡ₚ results ∧ StronglySorted send_order (packet_feedbacks m) ∧
          feedback_time m = 9000000 ∧ msg_data_in_flight m = GetOutstandingData a' ∧
          transport_supports_ecn m = forallb (ecn_capable example_sent) reports
      end ∧
      ∀ key, lookup_key a' key =
        if bool_decide (key ∈ received_keys (packets_ example_message)) then None else lookup_key example_sent key).
Proof.
  split; [reflexivity|].
  apply (ProcessCongestionControlFeedback_correct (merge_sort send_order) (0 + 1 + 1) example_sent
           example_message 9000000);
    [apply _|apply example_sent_reachable|lia|apply example_message_ok].
Defined.

(** Two reports of the packet, the first as lost, the second as received: both count.
    Two reports as lost give two results about the same packet, and the packet is kept. *)
Definition reported_twice (info : PacketInfo) : CongestionControlFeedback :=
  mkFeedback 1 [mkInfo 7 65535 MinusInfinity kNotEct; info] 99.

Example lost_twice :
  let results f := (λ r, map (λ p, (sent_sequence_number (sent_packet p), result_receive_time p))
    (from_option packet_feedbacks [] r.1)) <$> ProcessCongestionControlFeedback (merge_sort send_order) example_sent f 9000000 in
  results (reported_twice (mkInfo 7 65535 MinusInfinity kNotEct)) = Some [(10, PlusInfinity); (10, PlusInfinity)] ∧
  results (reported_twice (mkInfo 7 65535 1000 kCe)) = Some [(10, PlusInfinity); (10, 8999000)].
Proof. split; vm_compute; reflexivity. Qed.

(** What the congestion controller learns from a transport-wide feedback. The
    message is about consecutive sequence numbers from its unwrapped base number; every
    packet of it that is still known and was sent on the current route yields exactly
    one result, in the order of the sequence numbers: the packet as it was sent and its
    arrival in local time (the local time of the reference plus the reported delta in
    whole milliseconds) or infinity if it was lost. The results come with the data
    that is still in flight; everything up to the last number is acknowledged; packets
    reported as received, and no others, are forgotten. *)
Theorem ProcessTransportFeedback_correct (c_sort : list PacketResult → list PacketResult)
    (n : Z) (a : TransportFeedbackAdapter) (f : TransportFb.TransportFeedback) (time : Z) :
  SortsResults c_sort → reachable c_sort n a → n < 10 ^ 8 → wide_ok a f time →
  wp (ProcessTransportFeedback a f time) (λ '(msg, a'),
    ∃ calls, TransportFb.ForAllPackets f = Some calls ∧
      let first := (Unwrap 16 (seq_num_unwrapper_ a) (TransportFb.base_seq_no_ f)).1 in
      let results := arrivals a (reference_time a f time) first calls in
      msg = (if bool_decide (results = []) then None
             else Some (mkTransport time (GetOutstandingData a') false results)) ∧
      last_ack_seq_num_ a' =
        (if bool_decide (calls = []) then last_ack_seq_num_ a
         else Z.max (last_ack_seq_num_ a) (first + Z.of_nat (length calls) - 1)) ∧
      ∀ t, known a' t = if reports_received first calls t then None else known a t).
Proof.
  intros Hc Hr Hn Hw. destruct (reachable_ok c_sort n a Hr ltac:(lia)) as [H0 Hok].
  wp_call (apply (wide_feedback_ok n); [done|done|unfold calls_ok; lia|done]).
  by intros [msg a'] (_ & _ & H).
Qed.

(** Packet 9 is lost, packet 10 arrived 10 ms after the reference time. *)
Definition example_wide : TransportFb.TransportFeedback :=
  Eval vm_compute in
    match TransportFb.session true (replicate 14 7) 9 5000000 [(10, 5002000)] with
    | Some (f, _) => f
    | None => TransportFb.new_feedback true (replicate 14 7)
    end.

Lemma example_wide_built : ∃ sizes, TransportFb.built example_wide sizes.
Proof.
  assert (H : wp (TransportFb.session true (replicate 14 7) 9 5000000 [(10, 5002000)])
    (λ '(f, _), ∃ sizes, TransportFb.built f sizes)).
  { wp_call (apply TransportFb.session_spec; [done|unfold uint16; lia|unfold TransportFb.time_in_range; lia|]).
    - apply Forall_cons_2; [|apply Forall_nil_2].
      unfold TransportFb.packet_ok, uint16, TransportFb.time_in_range; cbn; lia.
    - by intros [f accepted] (_ & _ & ?). }
  exact H.
Qed.

Lemma example_wide_ok : wide_ok example_sent example_wide 9000000.
Proof.
  assert (E : reference_time example_sent example_wide 9000000 = 9000000) by reflexivity.
  split; rewrite ?E; try lia.
  - destruct example_wide_built as [sizes H]. exists sizes.
    by apply TransportFb.well_formed_allowed, TransportFb.built_well_formed.
  - intros calls Hc. vm_compute in Hc. injection Hc as <-.
    repeat apply Forall_cons_2; try apply Forall_nil_2; cbn; intros; lia || done.
Qed.

Lemma ProcessTransportFeedback_correct_witness :
  (fst <$> ProcessTransportFeedback example_sent example_wide 9000000) =
    Some (Some (mkTransport 9000000 0 false
      [mkResult (mkSent 2000 1228 0 example_pacing false 10 1228) 9010000 kNotEct])) ∧
  wp (ProcessTransportFeedback example_sent example_wide 9000000) (λ '(msg, a'),
    ∃ calls, TransportFb.ForAllPackets example_wide = Some calls ∧
      let first := (Unwrap 16 (seq_num_unwrapper_ example_sent) (TransportFb.base_seq_no_ example_wide)).1 in
      let results := arrivals example_sent (reference_time example_sent example_wide 9000000) first calls in
      msg = (if bool_decide (results = []) then None
             else Some (mkTransport 9000000 (GetOutstandingData a') false results)) ∧
      last_ack_seq_num_ a' =
        (if bool_decide (calls = []) then last_ack_seq_num_ example_sent
         else Z.max (last_ack_seq_num_ example_sent) (first + Z.of_nat (length calls) - 1)) ∧
      ∀ t, known a' t = if reports_received first calls t then None else known example_sent t).
Proof.
  split; [reflexivity|].
  apply (ProcessTransportFeedback_correct (merge_sort send_order) (0 + 1 + 1) example_sent
           example_wide 9000000);
    [apply _|apply example_sent_reachable|lia|apply example_wide_ok].
Defined.

(** Ten packets, each reported 8.192 s before the one before it. *)
Definition early : list Z :=
  [0xAF; 205; 0; 10; 0; 0; 0; 1; 0; 0; 0; 2; 0; 1; 0; 10; 0; 0; 100; 0; 0x40; 10;
   0x80; 0; 0x80; 0; 0x80; 0; 0x80; 0; 0x80; 0; 0x80; 0; 0x80; 0; 0x80; 0; 0x80; 0; 0x80; 0; 0; 2].

Definition early_parsed : TransportFb.TransportFeedback :=
  Eval vm_compute in match TransportFb.ParseFrom (replicate 14 7) early 44 with
                     | Some (Some f) => f
                     | _ => TransportFb.new_feedback true (replicate 14 7)
                     end.

(** The local time of the reference is protected against becoming negative, the
    arrival times are not: a message that the parser accepts and that passes the
    consistency check, with negative deltas that add up to 81.92 s, 80 s after the
    clock's zero, makes the adapter compute a negative arrival time and fail the check
    of the Timestamp. (Two seconds later the same message passes.) *)
Theorem negative_arrival :
  ∃ f, TransportFb.ParseFrom (replicate 14 7) early 44 = Some (Some f) ∧
    TransportFb.IsConsistent (replicate 14 7) f = Some true ∧
    reference_time example_sent f 80000000 = 80000000 ∧
    ProcessTransportFeedback example_sent f 80000000 = None ∧
    fst <$> ProcessTransportFeedback example_sent f 82000000 =
      Some (Some (mkTransport 82000000 0 false
        [mkResult (mkSent 2000 1228 0 example_pacing false 10 1228) 80000 kNotEct])).
Proof. exists early_parsed. split_and!; reflexivity. Qed.

End AdapterSession.
