(* ===== verification/InterArrival.v ===== *)
(** * Differences between groups of packets
    (modules/congestion_controller/goog_cc/inter_arrival_delta.cc, .h)

    The first stage of the delay-based congestion control: the results of the feedback
    are put into groups of packets sent together, and two consecutive groups give a
    difference of their send times, arrival times and sizes. The model keeps the
    summaries of two groups as the code does; the specification keeps the groups as
    lists of packets. *)

From stdpp Require Import list.
From S2P Require Import Prelude SeqNum Units.
Import SeqNum Units.

Module InterArrival.

Definition kBurstDeltaThreshold : Z := 5000.
Definition kMaxBurstDuration : Z := 100000.
Definition kReorderedResetThreshold : Z := 3.
Definition kArrivalTimeOffsetThreshold : Z := 3000000.

Record SendTimeGroup := mkGroup {
  size : Z;
  first_send_time : Z;
  send_time : Z;
  first_arrival : Z;
  complete_time : Z;
  last_system_time : Z;
}.

Definition empty_group : SendTimeGroup :=
  mkGroup 0 MinusInfinity MinusInfinity MinusInfinity MinusInfinity MinusInfinity.

Definition IsFirstPacket (g : SendTimeGroup) : bool := IsInfinite (complete_time g).

Record InterArrivalDelta := mkDelta {
  send_time_group_length_ : Z;
  current_timestamp_group_ : SendTimeGroup;
  prev_timestamp_group_ : SendTimeGroup;
  num_consecutive_reordered_packets_ : Z;
}.

Definition new_delta (send_time_group_length : Z) : InterArrivalDelta :=
  mkDelta send_time_group_length empty_group empty_group 0.

Definition Reset (self : InterArrivalDelta) : InterArrivalDelta :=
  mkDelta (send_time_group_length_ self) empty_group empty_group 0.

(** The arguments about a packet, and the three output parameters. *)
Record packet := mkPacket { p_send : Z; p_arrival : Z; p_system : Z; p_size : Z }.
Record deltas := mkDeltas { send_time_delta : Z; arrival_time_delta : Z; packet_size_delta : Z }.

Definition BelongsToBurst (self : InterArrivalDelta) (arrival_time send : Z) : option bool :=
  let current := current_timestamp_group_ self in
  _ ← dcheck (IsFinite (complete_time current));
  arrival_time_delta ← ts_diff arrival_time (complete_time current);
  send_time_delta ← ts_diff send (send_time current);
  if send_time_delta =? 0 then Some true
  else
    propagation_delta ← td_sub arrival_time_delta send_time_delta;
    if (propagation_delta <? 0) && (arrival_time_delta <=? kBurstDeltaThreshold) then
      burst ← ts_diff arrival_time (first_arrival current);
      Some (burst <? kMaxBurstDuration)
    else Some false.

Definition NewTimestampGroup (self : InterArrivalDelta) (arrival_time send : Z) : option bool :=
  if IsFirstPacket (current_timestamp_group_ self) then Some false
  else
    burst ← BelongsToBurst self arrival_time send;
    if (burst : bool) then Some false
    else
      d ← ts_diff send (first_send_time (current_timestamp_group_ self));
      Some (send_time_group_length_ self <? d).

(** The end of the function: the packet joins the current group [g]. *)
Definition join_group (self : InterArrivalDelta) (g prev : SendTimeGroup) (n : Z) (p : packet)
  : InterArrivalDelta :=
  mkDelta (send_time_group_length_ self)
    (mkGroup (u64 (size g + p_size p)) (first_send_time g) (send_time g) (first_arrival g) (p_arrival p)
       (p_system p)) prev n.

(** The group that starts with a packet, before it is accumulated. *)
Definition start_group (p : packet) (g : SendTimeGroup) (size : Z) : SendTimeGroup :=
  mkGroup size (p_send p) (p_send p) (p_arrival p) (complete_time g) (last_system_time g).

Definition ComputeDeltas (self : InterArrivalDelta) (p : packet) (out : deltas)
  : option (bool * deltas * InterArrivalDelta) :=
  let current := current_timestamp_group_ self in
  let prev := prev_timestamp_group_ self in
  let n := num_consecutive_reordered_packets_ self in
  if IsFirstPacket current then
    Some (false, out, join_group self (start_group p current (size current)) prev n p)
  else if p_send p <? first_send_time current then Some (false, out, self)
  else
    new_group ← NewTimestampGroup self (p_arrival p) (p_send p);
    if (new_group : bool) then
      let next (n : Z) := join_group self (start_group p current 0) current n p in
      if IsFinite (complete_time prev) then
        send_time_delta ← ts_diff (send_time current) (send_time prev);
        arrival_time_delta ← ts_diff (complete_time current) (complete_time prev);
        system_time_delta ← ts_diff (last_system_time current) (last_system_time prev);
        let out := mkDeltas send_time_delta arrival_time_delta (packet_size_delta out) in
        offset ← td_sub arrival_time_delta system_time_delta;
        if kArrivalTimeOffsetThreshold <=? offset then Some (false, out, Reset self)
        else if arrival_time_delta <? 0 then
          let n := n +i 1 in
          if kReorderedResetThreshold <=? n then Some (false, out, Reset self)
          else Some (false, out, mkDelta (send_time_group_length_ self) current prev n)
        else
          let packet_size_delta := s32 (size current) -i s32 (size prev) in
          Some (true, mkDeltas send_time_delta arrival_time_delta packet_size_delta, next 0)
      else Some (false, out, next n)
    else
      let current := mkGroup (size current) (first_send_time current) (Z.max (send_time current) (p_send p))
                       (first_arrival current) (complete_time current) (last_system_time current) in
      Some (false, out, join_group self current prev n p).

(** ** The specification: groups as lists of packets *)









(** ** Refinement *)
















(** ** Streams of packets *)

(** What the calls for the packets of a stream report, and the object after them; [out] are
    the output parameters. *)
Fixpoint compute_all (self : InterArrivalDelta) (ps : list packet) (out : deltas)
  : option (list (option deltas) * InterArrivalDelta) :=
  match ps with
  | [] => Some ([], self)
  | p :: ps =>
      '(b, out, self) ← ComputeDeltas self p out;
      '(rest, self) ← compute_all self ps out;
      Some ((if (b : bool) then Some out else None) :: rest, self)
  end.




(** *** Streams that are cut into groups *)














(** A packet that was overtaken by a packet of the same burst, but was sent after the first
    packet of the group, starts a group of its own: the difference of the send times is
    negative. *)
Lemma send_delta_negative :
  ∃ self, compute_all (new_delta 5000)
      [mkPacket 0 10000 0 1200; mkPacket 50000 11000 0 1200; mkPacket 20000 12000 0 1200;
       mkPacket 40000 30000 0 1200] (mkDeltas 0 0 0) =
    Some ([None; None; None; Some (mkDeltas (-30000) 1000 (-1200))], self).
Proof. eexists _. reflexivity. Qed.

End InterArrival.
