(* ===== verification/L4sLoop.v ===== *)
(** * The feedback loop

    The composition of the components of the congestion feedback: the receiver's
    generator sends a feedback, it travels as bytes, is parsed, and reaches the
    sender's adapter. The theorems follow a packet through the loop: its ECN mark and
    its arrival time reach the congestion controller with the packet they belong to. *)

From stdpp Require Import gmap sorting.
From S2P Require Import Prelude SeqNum Units Rtcp CcFeedback CcTracker CcGenerator OrderedMap TransportAdapter AdapterSession.
Import SeqNum Units Rtcp CcFeedback CcTracker.
Import TransportAdapter AdapterSession.

Module L4sLoop.

(** ** Reports are about different packets *)

Lemma report_distinct g : report g → NoDup (map info_key g).
Proof.
  intros (s & base & _ & _ & Hn & Hg). apply NoDup_alt. intros i j k Hi Hj.
  rewrite list_lookup_fmap in Hi, Hj.
  destruct (g !! i) as [p|] eqn:Ei; [|done]. destruct (g !! j) as [q|] eqn:Ej; [|done].
  injection Hi as Hi. injection Hj as Hj. subst k.
  destruct (Hg i p Ei) as [E1 E2], (Hg j q Ej) as [E3 E4].
  pose proof (lookup_lt_Some _ _ _ Ei). pose proof (lookup_lt_Some _ _ _ Ej).
  injection Hj as _ Es. rewrite E2, E4 in Es. unfold u16 in Es.
  assert (Hz : (Z.of_nat i - Z.of_nat j) mod 65536 = 0).
  { replace (Z.of_nat i - Z.of_nat j) with ((base + Z.of_nat i) - (base + Z.of_nat j)) by lia.
    by rewrite Zminus_mod, Es, Z.sub_diag. }
  apply Z.mod_divide in Hz as [c Hc]; [|done]. assert (c = 0) as -> by lia. lia.
Qed.

Lemma collected_ssrc now m m' gs : CcGenerator.collected now m m' gs →
  ∀ q, q ∈ concat gs → ∃ a, a ∈ m ∧ ssrc q = a.1.
Proof.
  induction 1 as [|k t m m' gs _ _ IH|k t m m' gs lo hi new _ _ _ Hrun _ _ _ IH]; intros q Hq.
  - by apply not_elem_of_nil in Hq.
  - destruct (IH q Hq) as (a & Ha & E). exists a. split; [by right|done].
  - cbn [concat] in Hq. apply elem_of_app in Hq as [Hq|Hq].
    + apply list_elem_of_lookup_1 in Hq as [i Hi]. exists (k, t). split; [left|].
      by destruct (describes_seq _ _ _ _ _ (Hrun i q Hi)) as [-> _].
    + destruct (IH q Hq) as (a & Ha & E). exists a. split; [by right|done].
Qed.

Lemma collected_distinct now m m' gs : CcGenerator.collected now m m' gs →
  StronglySorted (λ a b, a.1 < b.1) m → NoDup (map info_key (concat gs)).
Proof.
  induction 1 as [|k t m m' gs _ _ IH|k t m m' gs lo hi new _ _ _ Hrun Hrep _ Hc IH]; intros Hs.
  - constructor.
  - apply IH. by apply StronglySorted_inv in Hs as [? _].
  - apply StronglySorted_inv in Hs as [Hs1 Hs2]. cbn [concat]. rewrite map_app. apply list.NoDup_app.
    split_and!; [by apply report_distinct| |by apply IH].
    intros x Hx Hy. apply list_elem_of_In, in_map_iff in Hx as (p & <- & Hp%list_elem_of_In).
    apply list_elem_of_In, in_map_iff in Hy as (q & E & Hq%list_elem_of_In).
    destruct (collected_ssrc _ _ _ _ Hc q Hq) as (a & Ha & Eq).
    apply list_elem_of_lookup_1 in Hp as [i Hi].
    destruct (describes_seq _ _ _ _ _ (Hrun i p Hi)) as [Ep _].
    rewrite List.Forall_forall in Hs2. apply list_elem_of_In, Hs2 in Ha. cbn in Ha.
    injection E as E _. lia.
Qed.

Lemma reported_key q : info_key (reported q) = info_key q.
Proof. unfold reported. by destruct (IsFinite _). Qed.


(** ** What the parser delivers *)

Lemma decoded_range x : 0 ≤ x < 8192 → IsFinite (decoded x) = true → 0 ≤ decoded x ≤ 8000000.
Proof.
  intros Hx. unfold decoded. destruct (Z.eqb_spec x 0x1FFE); [done|]. destruct (Z.eqb_spec x 0x1FFF); [done|].
  intros _. Z.to_euclidean_division_equations; lia.
Qed.

Lemma reported_ok q : report_ok (reported q).
Proof.
  unfold report_ok, is_received, reported. destruct (IsFinite (arrival_time_offset q)) eqn:E; [|done].
  cbn [arrival_time_offset]. apply decoded_range, To13bitAto_range.
Qed.

Lemma reports_message f gs time : packets_ f = map reported (concat gs) →
  uint32 (report_timestamp_compact_ntp_ f) → 8000000 ≤ time ≤ 10 ^ 15 → message_ok f time.
Proof.
  intros E Hn Ht. split; try done. rewrite E.
  apply List.Forall_forall. intros x (q & <- & _)%in_map_iff. apply reported_ok.
Qed.

(** The receiver reports no packet twice, so that every report has an effect. *)
Lemma reported_effective now m m' gs : CcGenerator.collected now m m' gs →
  StronglySorted (λ a b, a.1 < b.1) m → effective [] (map reported (concat gs)) = map reported (concat gs).
Proof.
  intros Hco Hord. apply effective_distinct; [|by intros ? ? ?%not_elem_of_nil].
  rewrite map_map, (map_ext _ _ reported_key). by apply (collected_distinct now m m').
Qed.

(** ** The loop *)

(** A feedback on its way: written by the receiver, parsed by the sender. *)
Definition transmit (f : CongestionControlFeedback) (buf : list Z)
  : option (bool * CongestionControlFeedback) :=
  '(_, buf', p, _) ← Create f buf 0 (length buf) false;
  h ← ParseHeader buf' 0 (p - 0);
  match h with Some h => Parse new_feedback buf' h | None => None end.

(** The receiver sends a feedback; the adapter of the sender gets it at [time]. *)
Definition deliver (c_sort : list Received → list Received)
    (r_sort : list PacketResult → list PacketResult) (ntp : Z → Z * Z)
    (g : CcGenerator.CongestionControlFeedbackGenerator) (now sender : Z) (buf : list Z)
    (a : TransportFeedbackAdapter) (time : Z)
  : option (option TransportPacketsFeedback * TransportFeedbackAdapter) :=
  '(_, f) ← CcGenerator.SendFeedback c_sort ntp g now;
  '(ok, received) ← transmit (mkFeedback sender (packets_ f) (report_timestamp_compact_ntp_ f)) buf;
  if (ok : bool) then ProcessCongestionControlFeedback r_sort a received time else None.

(** The feedback the receiver is about to send fits the buffer, and the length field of its
    header, which counts up to 65536 words. *)
Definition fits (c_sort : list Received → list Received) (ntp : Z → Z * Z)
    (g : CcGenerator.CongestionControlFeedbackGenerator) (now : Z) (buf : list Z) : Prop :=
  ∀ g' f size, CcGenerator.SendFeedback c_sort ntp g now = Some (g', f) → BlockLength (packets_ f) = Some size →
    (size ≤ length buf)%nat ∧ Z.of_nat size ≤ 262144.

(** A packet marked ECT(1) by its sender and received as such goes round the loop. *)
Example l4s_demo :
  (fst <$> deliver (merge_sort in_order) (merge_sort send_order) (λ t, (t / 1000000, 0))
     CcGenerator.example_generator 30000 77 (replicate 48 0) example_sent 9000000) =
  Some (Some (mkTransport 9000000 0 true
    [mkResult (mkSent 2000 1228 0 example_pacing false 10 1228) (9000000 - 28320) kEct1])).
Proof. vm_compute. reflexivity. Qed.

(** What the adapter makes of a reported packet it knows. *)
Lemma result_of_reported a offset e p :
  finite (arrival_time_offset e) → 0 ≤ arrival_time_offset e ≤ 7998044 →
  lookup_key a (info_key e) = Some p → network_route p = network_route_ a →
  ∃ res, result_of a offset (reported e) = Some res ∧ sent_packet res = sent p ∧
    result_ecn res = ecn e ∧ -2 ≤ result_receive_time res - (offset - arrival_time_offset e) ≤ 979.
Proof.
  intros Hf Hr Hl Hroute. destruct (reported_offset e Hf Hr) as (Hfin & Hacc & Hecn).
  unfold result_of. rewrite reported_key, Hl, decide_True by done.
  unfold is_received. rewrite (IsFinite_true _ Hfin). eexists. split; [reflexivity|].
  cbn [sent_packet result_ecn result_receive_time]. split_and!; [done|done|lia|lia].
Qed.

Lemma transmit_ok gs f buf : packets_ f = concat gs → reports_ok gs →
  Z.of_nat (length (concat (map encode_report gs))) ≤ 262132 →
  uint32 (sender_ssrc f) → uint32 (report_timestamp_compact_ntp_ f) →
  (length (encode f gs) ≤ length buf)%nat →
  wp (transmit f buf) (λ '(ok, fb), ok = true ∧
    report_timestamp_compact_ntp_ fb = report_timestamp_compact_ntp_ f ∧
    packets_ fb = map reported (concat gs)).
Proof.
  intros E Hr Hsz Hs Hn Hb. unfold transmit.
  wp_call (apply (written_and_read f gs buf 0 (length buf) false); try done; lia).
  intros [ok fb] (-> & _ & Hts & Hp). by rewrite Hp, E.
Qed.

Lemma deliver_ok c_sort r_sort `{!Sorts c_sort} `{!SortsResults r_sort} ntp n g now sender buf k a time :
  CcGenerator.gen_ok n g → CcGenerator.calls_ok n → CcGenerator.moment now →
  CcGenerator.next_possible_feedback_send_time_ g ≤ now → uint32 sender →
  fits c_sort ntp g now buf →
  reachable r_sort k a → k < 10 ^ 8 → 8000000 ≤ time ≤ 10 ^ 15 →
  wp (deliver c_sort r_sort ntp g now sender buf a time) (λ '(msg, a'),
    ∃ m' gs offset, CcGenerator.collected now (CcGenerator.feedback_trackers_ g) m' gs ∧
      let results := omap (result_of a offset) (map reported (concat gs)) in
      match msg with
      | None => results = []
      | Some m => packet_feedbacks m ≡ₚ results ∧
          transport_supports_ecn m = forallb (ecn_capable a) (map reported (concat gs))
      end).
Proof.
  intros Hg Hn Hnow Hnext Hs Hfits Hr Hk Ht. unfold deliver.
  destruct (CcGenerator.SendFeedback_ok c_sort ntp n g now) as (m' & gs & Hco & Hrep & E & _); try done.
  destruct (Hfits _ _ _ E (BlockLength_ok gs Hrep)) as [Hbuf Hsz]. destruct (CcGenerator.gen_trackers _ _ Hg) as [Hord _].
  rewrite E. cbn [mbind option_bind packets_ report_timestamp_compact_ntp_].
  apply wp_bind. wp_call (apply (transmit_ok gs); try done; cbn [sender_ssrc
    report_timestamp_compact_ntp_]; [lia|apply CcGenerator.CompactNtp_range|rewrite length_encode; lia]).
  intros [ok fb] (-> & Hts & Hpk).
  destruct (reachable_ok r_sort k a Hr ltac:(lia)) as [H0 Hok].
  wp_call (apply (feedback_ok r_sort k); [done|done|unfold calls_ok; lia|]).
  - apply (reports_message _ gs); [done|rewrite Hts; apply CcGenerator.CompactNtp_range|done].
  - intros [msg a'] (_ & _ & offset & _ & Hm & _). exists m', gs, offset. split; [done|].
    rewrite Hpk, (reported_effective _ _ _ _ Hco Hord) in Hm. cbv zeta in *. destruct msg as [m|]; [|done]. by destruct Hm as (? & _ & _ & _ & ?).
Qed.

(** C1: The ECN mark and the arrival time of a packet reach the congestion controller of
    its sender. Let the receiver's generator be in a state of a session within the limits
    of its invariant (115 days, 24 million calls) and a feedback be possible, let the
    message it then makes fit the buffer and the length field of an RTCP header, and let
    the adapter have been reached by fewer than 10^8 calls and get the message at a local
    time between 8 s and 10^15 us. Then every step of the loop returns without a failed
    check, and for every packet the receiver reports with an arrival time up to 7.998 s
    before the feedback, and that the adapter still knows and sent on its current route,
    the adapter hands out exactly the packet as it was sent, with the ECN mark the
    receiver reports for it and its arrival time, exact to a millisecond, relative to one
    and the same local time of the report. *)
Theorem l4s_feedback_loop (c_sort : list Received → list Received)
    (r_sort : list PacketResult → list PacketResult) (ntp : Z → Z * Z) (n : Z)
    (g : CcGenerator.CongestionControlFeedbackGenerator) (now sender : Z) (buf : list Z) (k : Z)
    (a : TransportFeedbackAdapter) (time : Z) :
  Sorts c_sort → SortsResults r_sort →
  CcGenerator.gen_ok n g → CcGenerator.calls_ok n → CcGenerator.moment now →
  CcGenerator.next_possible_feedback_send_time_ g ≤ now → uint32 sender →
  fits c_sort ntp g now buf →
  reachable r_sort k a → k < 10 ^ 8 → 8000000 ≤ time ≤ 10 ^ 15 →
  wp (deliver c_sort r_sort ntp g now sender buf a time) (λ '(msg, a'),
    ∃ m' gs offset, CcGenerator.collected now (CcGenerator.feedback_trackers_ g) m' gs ∧
      ∀ e p, e ∈ concat gs → finite (arrival_time_offset e) →
        0 ≤ arrival_time_offset e ≤ 7998044 → lookup_key a (info_key e) = Some p →
        network_route p = network_route_ a →
        ∃ m res, msg = Some m ∧ res ∈ packet_feedbacks m ∧ sent_packet res = sent p ∧
          result_ecn res = ecn e ∧
          -2 ≤ result_receive_time res - (offset - arrival_time_offset e) ≤ 979).
Proof.
  intros Hc Hrs Hg Hn Hnow Hnext Hs Hfits Hr Hk Ht.
  wp_call (by apply (deliver_ok c_sort r_sort ntp n g now sender buf k a time)).
  intros [msg a'] (m' & gs & offset & Hco & Hm). exists m', gs, offset. split; [done|].
  intros e p He Hf Hrange Hl Hroute.
  destruct (result_of_reported a offset e p Hf Hrange Hl Hroute) as (res & Eres & H1 & H2 & H3).
  assert (Hin : res ∈ omap (result_of a offset) (map reported (concat gs))).
  { apply list_elem_of_omap. exists (reported e). split; [|done].
    apply list_elem_of_In, in_map, list_elem_of_In, He. }
  cbv zeta in Hm. destruct msg as [m|]; [|rewrite Hm in Hin; by apply not_elem_of_nil in Hin].
  exists m, res. destruct Hm as [Hperm _]. split_and!; try done; [by rewrite Hperm|lia..].
Qed.

Lemma l4s_feedback_loop_witness :
  let ntp := λ t : Z, (t / 1000000, 0) in
  let buf := replicate 48 0 in
  let g := CcGenerator.example_generator in
  wp (deliver (merge_sort in_order) (merge_sort send_order) ntp g 30000 77 buf example_sent 9000000)
    (λ '(msg, a'),
    ∃ m' gs offset, CcGenerator.collected 30000 (CcGenerator.feedback_trackers_ g) m' gs ∧
      ∀ e p, e ∈ concat gs → finite (arrival_time_offset e) →
        0 ≤ arrival_time_offset e ≤ 7998044 → lookup_key example_sent (info_key e) = Some p →
        network_route p = network_route_ example_sent →
        ∃ m res, msg = Some m ∧ res ∈ packet_feedbacks m ∧ sent_packet res = sent p ∧
          result_ecn res = ecn e ∧
          -2 ≤ result_receive_time res - (offset - arrival_time_offset e) ≤ 979).
Proof.
  intros ntp buf g. apply (l4s_feedback_loop (merge_sort in_order) (merge_sort send_order) ntp 2 g 30000 77 buf
    (0 + 1 + 1) example_sent 9000000);
    [apply _|apply _|apply CcGenerator.example_generator_ok|unfold CcGenerator.calls_ok; lia
    |unfold CcGenerator.moment, CcGenerator.horizon; lia|by vm_compute|unfold uint32; lia|
    |apply example_sent_reachable|lia|lia].
  intros g' f size Ef Eb. vm_compute in Ef. injection Ef as _ <-. vm_compute in Eb. injection Eb as <-.
  unfold buf. rewrite length_replicate. lia.
Defined.

(** An arrival that the message cannot express: after the feedback, or too long before it. *)
Definition unmeasured (e : PacketInfo) : Prop :=
  finite (arrival_time_offset e) ∧ (arrival_time_offset e < 0 ∨ 7998050 ≤ arrival_time_offset e).

Lemma result_of_unmeasured a offset e p : unmeasured e → lookup_key a (info_key e) = Some p →
  network_route p = network_route_ a →
  result_of a offset (reported e) = Some (mkResult (sent p) PlusInfinity (ecn e)).
Proof.
  intros [Hf Ho] Hl Hr. assert (Hd : IsFinite (decoded (To13bitAto (arrival_time_offset e))) = false).
  { destruct (To13bitAto_cases (arrival_time_offset e)) as (_ & H2 & H3).
    destruct Ho; [rewrite H3 by done|rewrite H2 by done]; done. }
  unfold result_of. rewrite reported_key, Hl, decide_True by done.
  unfold is_received, reported. rewrite (IsFinite_true _ Hf). cbn [arrival_time_offset ecn]. by rewrite Hd.
Qed.

Lemma unmeasured_marked e : unmeasured e → Z.testbit (packet_info e) 15 = true.
Proof.
  intros [Hf _]. rewrite packet_info_finite by (by apply IsFinite_true). apply Z.testbit_true; [lia|]. change (2 ^ 15) with 32768.
  pose proof (To13bitAto_range (arrival_time_offset e)).
  assert (0 ≤ ecn_code (ecn e) ≤ 3) by (destruct (ecn e); cbn; lia).
  Z.to_euclidean_division_equations; lia.
Qed.

(** C40: A packet that was received is taken for lost when its arrival cannot be expressed. Under
    the conditions of the feedback loop, a packet that the receiver reports with an
    arrival after the feedback or more than 7.998 s before it, and that the adapter knows
    and sent on its current route, is written into the message with the bit for a
    received packet; after the message has been sent, written, parsed and processed, its
    result has no arrival time, as for a lost packet. *)
Theorem unmeasured_arrival_lost (c_sort : list Received → list Received)
    (r_sort : list PacketResult → list PacketResult) (ntp : Z → Z * Z) (n : Z)
    (g : CcGenerator.CongestionControlFeedbackGenerator) (now sender : Z) (buf : list Z) (k : Z)
    (a : TransportFeedbackAdapter) (time : Z) :
  Sorts c_sort → SortsResults r_sort →
  CcGenerator.gen_ok n g → CcGenerator.calls_ok n → CcGenerator.moment now →
  CcGenerator.next_possible_feedback_send_time_ g ≤ now → uint32 sender →
  fits c_sort ntp g now buf →
  reachable r_sort k a → k < 10 ^ 8 → 8000000 ≤ time ≤ 10 ^ 15 →
  wp (deliver c_sort r_sort ntp g now sender buf a time) (λ '(msg, a'),
    ∃ m' gs, CcGenerator.collected now (CcGenerator.feedback_trackers_ g) m' gs ∧
      ∀ e p, e ∈ concat gs → unmeasured e → lookup_key a (info_key e) = Some p →
        network_route p = network_route_ a →
        Z.testbit (packet_info e) 15 = true ∧
        ∃ m, msg = Some m ∧ mkResult (sent p) PlusInfinity (ecn e) ∈ packet_feedbacks m).
Proof.
  intros Hc Hrs Hg Hn Hnow Hnext Hs Hfits Hr Hk Ht.
  wp_call (by apply (deliver_ok c_sort r_sort ntp n g now sender buf k a time)).
  intros [msg a'] (m' & gs & offset & Hco & Hm). exists m', gs. split; [done|].
  intros e p He Hu Hl Hroute. split; [by apply unmeasured_marked|].
  assert (Hin : mkResult (sent p) PlusInfinity (ecn e) ∈ omap (result_of a offset) (map reported (concat gs))).
  { apply list_elem_of_omap. exists (reported e). split; [|by apply result_of_unmeasured].
    apply list_elem_of_In, in_map, list_elem_of_In, He. }
  cbv zeta in Hm. destruct msg as [m|]; [|rewrite Hm in Hin; by apply not_elem_of_nil in Hin].
  exists m. destruct Hm as [Hperm _]. split; [done|]. by rewrite Hperm.
Qed.

Lemma unmeasured_arrival_lost_witness :
  let ntp := λ t : Z, (t / 1000000, 0) in
  let buf := replicate 48 0 in
  let g := CcGenerator.example_generator in
  (fst <$> deliver (merge_sort in_order) (merge_sort send_order) ntp g 9000000 77 buf example_sent 9000000) =
    Some (Some (mkTransport 9000000 0 true
      [mkResult (mkSent 2000 1228 0 example_pacing false 10 1228) PlusInfinity kEct1])) ∧
  wp (deliver (merge_sort in_order) (merge_sort send_order) ntp g 9000000 77 buf example_sent 9000000)
    (λ '(msg, a'),
    ∃ m' gs, CcGenerator.collected 9000000 (CcGenerator.feedback_trackers_ g) m' gs ∧
      ∀ e p, e ∈ concat gs → unmeasured e → lookup_key example_sent (info_key e) = Some p →
        network_route p = network_route_ example_sent →
        Z.testbit (packet_info e) 15 = true ∧
        ∃ m, msg = Some m ∧ mkResult (sent p) PlusInfinity (ecn e) ∈ packet_feedbacks m).
Proof.
  intros ntp buf g. split; [by vm_compute|].
  apply (unmeasured_arrival_lost (merge_sort in_order) (merge_sort send_order) ntp 2 g 9000000 77 buf
    (0 + 1 + 1) example_sent 9000000);
    [apply _|apply _|apply CcGenerator.example_generator_ok|unfold CcGenerator.calls_ok; lia
    |unfold CcGenerator.moment, CcGenerator.horizon; lia|by vm_compute|unfold uint32; lia|
    |apply example_sent_reachable|lia|lia].
  intros g' f size Ef Eb. vm_compute in Ef. injection Ef as _ <-. vm_compute in Eb. injection Eb as <-.
  unfold buf. rewrite length_replicate. lia.
Defined.

End L4sLoop.
