(* ===== verification/WideLoop.v ===== *)
(** * The transport-wide feedback loop

    The composition of the transport-wide feedback: the receiver builds a message from
    the packets it saw, the message travels as bytes, is parsed, and reaches the
    sender's adapter, which gives the congestion controller the arrival times of the
    packets it sent. *)

From stdpp Require Import gmap sorting.
From S2P Require Import Prelude SeqNum Units Rtcp CcFeedback OrderedMap TransportChunk TransportFb TransportCodec TransportAdapter AdapterSession.
Import SeqNum Units TransportFb TransportCodec TransportAdapter AdapterSession.

Module WideLoop.

(** The message to the adapter, the packets it accepted and the adapter. *)
Definition wide_loop (ds ds' : list Z) (base ref_timestamp : Z) (packets : list (Z * Z)) (buf : list Z)
    (p max_length : nat) (a : TransportFeedbackAdapter) (time : Z)
  : option (option TransportPacketsFeedback * list (Z * Z) * TransportFeedbackAdapter) :=
  '(m, accepted) ← received_message ds ds' base ref_timestamp packets buf p max_length;
  match m with
  | None => Some (None, accepted, a)
  | Some f => '(msg, a') ← ProcessTransportFeedback a f time; Some (msg, accepted, a')
  end.

(** The number the sender gave the packet with the 16-bit number [seq]. *)
Definition sender_number (a : TransportFeedbackAdapter) (base seq : Z) : Z :=
  (Unwrap 16 (seq_num_unwrapper_ a) base).1 + u16 (seq - base).

(** The result about a packet: its data as sent, its arrival at the receiver's time
    [t] on a clock that differs by [shift], within 1.124 ms and modulo the wrap period. *)
Definition arrived_at (r : PacketResult) (p : PacketFeedback) (t shift : Z) : Prop :=
  sent_packet r = sent p ∧
  ∃ k, -1124 ≤ result_receive_time r - (t + shift) - k * kTimeWrapPeriod ≤ 1124.

(** The call about an accepted packet. *)
Lemma call_of_accepted ref base calls accepted seq t :
  Forall2 (reports ref) (filter arrived calls) accepted →
  map fst calls = map (λ i, u16 (base + Z.of_nat i)) (List.seq 0 (length calls)) →
  Z.of_nat (length calls) ≤ 65535 → uint16 base → (seq, t) ∈ accepted →
  ∃ i c, calls !! i = Some c ∧ arrived c ∧ reports ref c (seq, t) ∧ Z.of_nat i = u16 (seq - base).
Proof.
  intros HF Hnum Hl Hb Hin. apply list_elem_of_lookup in Hin as [j Hj].
  destruct (Forall2_lookup_r _ _ _ _ _ HF Hj) as (c & Hc & Hrep).
  apply list_elem_of_lookup_2, list_elem_of_filter in Hc as [Ha Hc].
  apply list_elem_of_lookup in Hc as [i Hi]. exists i, c. split_and!; try done.
  pose proof (lookup_lt_Some _ _ _ Hi) as Hlt.
  assert (c.1 = u16 (base + Z.of_nat i)) as E.
  { assert (H : map fst calls !! i = Some c.1) by (by rewrite list_lookup_fmap, Hi).
    rewrite Hnum, list_lookup_fmap, lookup_seq_lt in H by done. by injection H as <-. }
  destruct Hrep as [E' _]. cbn [fst] in E'. rewrite E in E'. rewrite <- E'. unfold u16, uint16 in *.
  Z.to_euclidean_division_equations; lia.
Qed.

Lemma finite_call c : call_time_ok c → arrived c → IsFinite c.2 = true.
Proof.
  intros [E|Hb] Ha; [by destruct Ha|]. apply IsFinite_true. unfold finite, PlusInfinity, MinusInfinity. lia.
Qed.

(** The adapter reads of a message what survives the wire. *)
Lemma wide_ok_same a f f' time sizes : same_content f f' → well_formed allowed f' sizes →
  wide_ok a f time → wide_ok a f' time.
Proof.
  intros (Hh & Hn & Hr & _) Hwf [H1 _ H3 H4]. unfold header in Hh. injection Hh as _ _ Eb Et _ _.
  assert (E : reference_time a f' time = reference_time a f time) by (unfold reference_time; by rewrite Et).
  split; rewrite ?E; try done; [by exists sizes|].
  intros calls Hc. apply H4. rewrite <- Hc. unfold ForAllPackets. by rewrite Eb, Hn, Hr.
Qed.

(** C3: The arrival times of the packets reach the congestion controller of their
    sender. Let the receiver build a transport-wide feedback message from any packets, in
    any order (16-bit numbers, times from 0 to 2^61 us), that fits the room left in the
    buffer; let the adapter have been reached by fewer than 10^8 calls and get the
    message at a local time between 8 s and 10^15 us, with its reference time in the same
    range and no arrival that falls before time zero on its clock (such an arrival fails
    a check of Timestamp). Then no step fails a check, and each packet that the message
    accepted and that the adapter still knows and sent on its current route is among the
    results, as it was sent, with its time of arrival within 1.124 ms on a clock that
    differs from the receiver's by one shift for the whole message (modulo the wrap
    period of some 12 days), and the adapter forgets it. *)
Theorem wide_feedback_loop (ds ds' : list Z) (base ref_timestamp : Z) (packets : list (Z * Z))
    (buf : list Z) (pos max_length : nat) (c_sort : list PacketResult → list PacketResult) (n : Z)
    (a : TransportFeedbackAdapter) (time : Z) :
  length ds = 14%nat → length ds' = 14%nat → uint16 base → time_in_range ref_timestamp →
  Forall packet_ok packets → session_fits ds base ref_timestamp packets buf pos max_length →
  SortsResults c_sort → reachable c_sort n a → n < 10 ^ 8 →
  (∀ f accepted, session true ds base ref_timestamp packets = Some (f, accepted) → wide_ok a f time) →
  wp (wide_loop ds ds' base ref_timestamp packets buf pos max_length a time) (λ '(msg, accepted, a'),
    ∃ shift, ∀ seq t p, (seq, t) ∈ accepted → known a (sender_number a base seq) = Some p →
      network_route p = network_route_ a →
      known a' (sender_number a base seq) = None ∧
      ∃ m r, msg = Some m ∧ r ∈ packet_feedbacks m ∧ arrived_at r p t shift).
Proof.
  intros Hds Hds' Hb Hr Hp Hm Hc Hreach Hn Hw. unfold wide_loop.
  pose proof (received_spec ds ds' base ref_timestamp packets buf pos max_length
    Hds Hds' Hb Hr Hp Hm) as Hrec.
  apply wp_exists in Hrec as ([m accepted] & E & Hrec). rewrite E. cbn [mbind option_bind].
  destruct m as [f|]; [|apply wp_ret; exists 0; subst; by intros ? ? ? ?%not_elem_of_nil].
  destruct Hrec as (f0 & sizes & calls & E0 & Hsame & Hwf & Eb & Ec & HF & Hnum).
  apply (Hw f0 accepted) in E0. apply (wide_ok_same a f0 f time sizes Hsame Hwf) in E0 as Hw'.
  destruct (reachable_ok c_sort n a Hreach ltac:(lia)) as [H0 Hok]. apply wp_bind.
  wp_call (apply (wide_feedback_ok n); [done|done|unfold TransportAdapter.calls_ok; lia|exact Hw']).
  intros [msg a'] (_ & _ & calls' & Ec' & Hmsg & _ & Hk). rewrite Ec in Ec'. injection Ec' as <-.
  rewrite Eb in *. cbv zeta in *. apply wp_ret.
  set (offset := reference_time a f time) in *.
  exists (offset - base_time (ref_timestamp mod kTimeWrapPeriod / kBaseTimeTick)).
  intros seq t p Hin Hkn Hroute.
  assert (Hlen : Z.of_nat (length calls) ≤ 65535).
  { destruct (ForAllPackets_spec f sizes Hwf) as (cs & Ecs & Hcs & _). rewrite Ec in Ecs. injection Ecs as <-.
    destruct Hwf as (_ & _ & Hcount & Hmax & _).
    assert (length calls = length sizes) by (by rewrite <- (length_map fst calls), Hcs, length_map, length_seq).
    lia. }
  destruct (call_of_accepted _ _ _ _ _ _ HF Hnum Hlen Hb Hin) as (i & c & Hi & Ha & [_ [k Hk']] & Ei).
  pose proof (calls_bounded f sizes calls Hwf Ec) as Hcb. rewrite List.Forall_forall in Hcb.
  assert (Hf : IsFinite c.2 = true).
  { apply finite_call; [|done]. apply Hcb, list_elem_of_In. by apply list_elem_of_lookup_2 in Hi. }
  unfold sender_number in *. rewrite <- Ei in *. split.
  { by rewrite Hk, (reports_received_at calls _ i c). }
  pose proof (arrivals_elem a offset calls _ i c p Hi Hkn Hroute) as Hel. rewrite Hf in Hel.
  rewrite bool_decide_eq_false_2 in Hmsg by (intros E'; rewrite E' in Hel; by apply not_elem_of_nil in Hel).
  eexists _, _. split; [exact Hmsg|]. split; [exact Hel|]. split; [done|]. exists k.
  cbn [result_receive_time snd] in *. Z.to_euclidean_division_equations; lia.
Qed.

Lemma wide_feedback_loop_witness :
  wp (wide_loop (replicate 14 7) (replicate 14 9) 9 5000000 [(10, 5002000)]
        (replicate 48 0) 3 48 example_sent 9000000) (λ '(msg, accepted, a'),
    ∃ shift, ∀ seq t p, (seq, t) ∈ accepted →
      known example_sent (sender_number example_sent 9 seq) = Some p →
      network_route p = network_route_ example_sent →
      known a' (sender_number example_sent 9 seq) = None ∧
      ∃ m r, msg = Some m ∧ r ∈ packet_feedbacks m ∧ arrived_at r p t shift).
Proof.
  apply (wide_feedback_loop (replicate 14 7) (replicate 14 9) 9 5000000 [(10, 5002000)]
    (replicate 48 0) 3 48 (merge_sort send_order) (0 + 1 + 1)
    example_sent 9000000);
    [done|done|unfold uint16; lia|unfold time_in_range; lia| |
    |apply _|apply example_sent_reachable|lia|].
  - apply Forall_cons_2; [|apply Forall_nil_2]. unfold packet_ok, uint16, time_in_range; cbn; lia.
  - split; [by rewrite length_replicate|]. intros f accepted E.
    change (Some (example_wide, [(10, 5002000)]) = Some (f, accepted)) in E. injection E as <- _. by vm_compute.
  - intros f accepted E. change (Some (example_wide, [(10, 5002000)]) = Some (f, accepted)) in E.
    injection E as <- _. apply example_wide_ok.
Defined.

End WideLoop.
