(* ===== verification/VadSp.v ===== *)
(** * Signal processing of the voice activity detector
    (common_audio/vad/vad_core.h, common_audio/vad/vad_sp.c)

    The instance record of the detector, the half-band decimator and the
    tracker of the smallest feature values of the last 100 frames. The theorems
    show that the tracker is a bounded sorted insertion: the window of sixteen
    values stays sorted, the nested comparisons find the insertion point, and
    what is returned is the smoothed third smallest (or smallest) value. *)

From stdpp Require Import sorting.
From S2P Require Import Prelude ResampleBy2 ResampleFrac Resample48.
Import Resample48.

Module VadSp.

Definition kNumChannels : nat := 6.
Definition kNumGaussians : nat := 2.
Definition kTableSize : nat := kNumChannels * kNumGaussians.
Definition kMinEnergy : Z := 10.

Record VadInstT := {
  vad : Z;
  downsampling_filter_states : list Z; (* 4 *)
  state_48_to_8 : WebRtcSpl_State48khzTo8khz;
  noise_means : list Z;      (* kTableSize *)
  speech_means : list Z;     (* kTableSize *)
  noise_stds : list Z;       (* kTableSize *)
  speech_stds : list Z;      (* kTableSize *)
  frame_counter : Z;
  over_hang : Z;
  num_of_speech : Z;
  index_vector : list Z;     (* 16 * kNumChannels *)
  low_value_vector : list Z; (* 16 * kNumChannels *)
  mean_value : list Z;       (* kNumChannels *)
  upper_state : list Z;      (* 5 *)
  lower_state : list Z;      (* 5 *)
  hp_filter_state : list Z;  (* 4 *)
  over_hang_max_1 : list Z;  (* 3 *)
  over_hang_max_2 : list Z;  (* 3 *)
  individual : list Z;       (* 3 *)
  total : list Z;            (* 3 *)
  init_flag : Z;
}.

(** The parts of an instance that are written together. *)
Definition set_vad (s : VadInstT) (v : Z) : VadInstT :=
  Build_VadInstT v (downsampling_filter_states s) (state_48_to_8 s) (noise_means s)
    (speech_means s) (noise_stds s) (speech_stds s) (frame_counter s) (over_hang s)
    (num_of_speech s) (index_vector s) (low_value_vector s) (mean_value s) (upper_state s)
    (lower_state s) (hp_filter_state s) (over_hang_max_1 s) (over_hang_max_2 s)
    (individual s) (total s) (init_flag s).
Definition set_downsampling (s : VadInstT) (d : list Z) : VadInstT :=
  Build_VadInstT (vad s) d (state_48_to_8 s) (noise_means s)
    (speech_means s) (noise_stds s) (speech_stds s) (frame_counter s) (over_hang s)
    (num_of_speech s) (index_vector s) (low_value_vector s) (mean_value s) (upper_state s)
    (lower_state s) (hp_filter_state s) (over_hang_max_1 s) (over_hang_max_2 s)
    (individual s) (total s) (init_flag s).
Definition set_state_48_to_8 (s : VadInstT) (r : WebRtcSpl_State48khzTo8khz) : VadInstT :=
  Build_VadInstT (vad s) (downsampling_filter_states s) r (noise_means s)
    (speech_means s) (noise_stds s) (speech_stds s) (frame_counter s) (over_hang s)
    (num_of_speech s) (index_vector s) (low_value_vector s) (mean_value s) (upper_state s)
    (lower_state s) (hp_filter_state s) (over_hang_max_1 s) (over_hang_max_2 s)
    (individual s) (total s) (init_flag s).
Definition set_models (s : VadInstT) (nm sm ns ss : list Z) : VadInstT :=
  Build_VadInstT (vad s) (downsampling_filter_states s) (state_48_to_8 s) nm
    sm ns ss (frame_counter s) (over_hang s)
    (num_of_speech s) (index_vector s) (low_value_vector s) (mean_value s) (upper_state s)
    (lower_state s) (hp_filter_state s) (over_hang_max_1 s) (over_hang_max_2 s)
    (individual s) (total s) (init_flag s).
Definition set_counters (s : VadInstT) (fc oh ns : Z) : VadInstT :=
  Build_VadInstT (vad s) (downsampling_filter_states s) (state_48_to_8 s) (noise_means s)
    (speech_means s) (noise_stds s) (speech_stds s) fc oh
    ns (index_vector s) (low_value_vector s) (mean_value s) (upper_state s)
    (lower_state s) (hp_filter_state s) (over_hang_max_1 s) (over_hang_max_2 s)
    (individual s) (total s) (init_flag s).
Definition set_minima (s : VadInstT) (iv lv mv : list Z) : VadInstT :=
  Build_VadInstT (vad s) (downsampling_filter_states s) (state_48_to_8 s) (noise_means s)
    (speech_means s) (noise_stds s) (speech_stds s) (frame_counter s) (over_hang s)
    (num_of_speech s) iv lv mv (upper_state s)
    (lower_state s) (hp_filter_state s) (over_hang_max_1 s) (over_hang_max_2 s)
    (individual s) (total s) (init_flag s).
Definition set_filters (s : VadInstT) (us ls hp : list Z) : VadInstT :=
  Build_VadInstT (vad s) (downsampling_filter_states s) (state_48_to_8 s) (noise_means s)
    (speech_means s) (noise_stds s) (speech_stds s) (frame_counter s) (over_hang s)
    (num_of_speech s) (index_vector s) (low_value_vector s) (mean_value s) us
    ls hp (over_hang_max_1 s) (over_hang_max_2 s)
    (individual s) (total s) (init_flag s).
Definition set_thresholds (s : VadInstT) (o1 o2 ind tot : list Z) : VadInstT :=
  Build_VadInstT (vad s) (downsampling_filter_states s) (state_48_to_8 s) (noise_means s)
    (speech_means s) (noise_stds s) (speech_stds s) (frame_counter s) (over_hang s)
    (num_of_speech s) (index_vector s) (low_value_vector s) (mean_value s) (upper_state s)
    (lower_state s) (hp_filter_state s) o1 o2 ind tot (init_flag s).
Definition set_init_flag (s : VadInstT) (f : Z) : VadInstT :=
  Build_VadInstT (vad s) (downsampling_filter_states s) (state_48_to_8 s) (noise_means s)
    (speech_means s) (noise_stds s) (speech_stds s) (frame_counter s) (over_hang s)
    (num_of_speech s) (index_vector s) (low_value_vector s) (mean_value s) (upper_state s)
    (lower_state s) (hp_filter_state s) (over_hang_max_1 s) (over_hang_max_2 s)
    (individual s) (total s) f.

(** ** Decimation by two *)

Definition kAllPassCoefsQ13_0 : Z := 5243.
Definition kAllPassCoefsQ13_1 : Z := 1392.
Definition kSmoothingDown : Z := 6553.
Definition kSmoothingUp : Z := 32439.

(** [filter_state] points at cell [fo] of [filter]. *)
Definition WebRtcVad_Downsampling (signal_in : list Z) (signal_out : list Z)
    (filter : list Z) (fo in_length : nat) : option (list Z * list Z) :=
  tmp32_1 ← filter !! fo;
  tmp32_2 ← filter !! (fo + 1)%nat;
  let half_length := (in_length / 2)%nat in
  '(signal_out, tmp32_1, tmp32_2) ←
    for_loop half_length 0 (λ n '(signal_out, tmp32_1, tmp32_2),
      x ← signal_in !! (2 * n)%nat;
      let tmp16_1 := s16 ((tmp32_1 >>i 1) +i (kAllPassCoefsQ13_0 *i x >>i 14)) in
      signal_out ← wr signal_out n tmp16_1;
      let tmp32_1 := x -i (kAllPassCoefsQ13_0 *i tmp16_1 >>i 12) in
      y ← signal_in !! (2 * n + 1)%nat;
      let tmp16_2 := s16 ((tmp32_2 >>i 1) +i (kAllPassCoefsQ13_1 *i y >>i 14)) in
      o ← signal_out !! n;
      signal_out ← wr signal_out n (s16 (o +i tmp16_2));
      let tmp32_2 := y -i (kAllPassCoefsQ13_1 *i tmp16_2 >>i 12) in
      Some (signal_out, tmp32_1, tmp32_2)) (signal_out, tmp32_1, tmp32_2);
  filter ← wr filter fo tmp32_1;
  filter ← wr filter (fo + 1) tmp32_2;
  Some (signal_out, filter).

(** ** The smallest feature values *)

(** The sixteen cells the pointers [&v[offset]] are used for, and putting them
    back. *)
Definition window (v : list Z) (offset : nat) : option (list Z) :=
  if decide (offset + 16 ≤ length v)%nat then Some (take 16 (drop offset v)) else None.
Definition put_window (v : list Z) (offset : nat) (w : list Z) : list Z :=
  take offset v ++ w ++ drop (offset + 16) v.

(** [for (j = i; j < 15; j++) a[j] = a[j + 1];] on both arrays. *)
Definition shift_down (i : nat) (s : list Z * list Z) : option (list Z * list Z) :=
  for_loop (15 - i) i (λ j '(smallest_values, age),
    v ← smallest_values !! (j + 1)%nat;
    smallest_values ← wr smallest_values j v;
    a ← age !! (j + 1)%nat;
    age ← wr age j a;
    Some (smallest_values, age)) s.

Definition update_age (s : list Z * list Z) : option (list Z * list Z) :=
  for_loop 16 0 (λ i '(smallest_values, age),
    a ← age !! i;
    if negb (a =? 100) then
      age ← wr age i (s16 (a +i 1));
      Some (smallest_values, age)
    else
      '(smallest_values, age) ← shift_down i (smallest_values, age);
      age ← wr age 15 101;
      smallest_values ← wr smallest_values 15 10000;
      Some (smallest_values, age)) s.

(** Where to insert; [None] is the position -1. The sixteen values are read
    from a window that has them all. *)
Definition find_position (sv : list Z) (feature_value : Z) : option nat :=
  let lt i := feature_value <? sv !!! i in
  if lt 7%nat then
    if lt 3%nat then
      if lt 1%nat then if lt 0%nat then Some 0%nat else Some 1%nat
      else if lt 2%nat then Some 2%nat else Some 3%nat
    else if lt 5%nat then if lt 4%nat then Some 4%nat else Some 5%nat
    else if lt 6%nat then Some 6%nat else Some 7%nat
  else if lt 15%nat then
    if lt 11%nat then
      if lt 9%nat then if lt 8%nat then Some 8%nat else Some 9%nat
      else if lt 10%nat then Some 10%nat else Some 11%nat
    else if lt 13%nat then if lt 12%nat then Some 12%nat else Some 13%nat
    else if lt 14%nat then Some 14%nat else Some 15%nat
  else None.

(** [for (i = 15; i > position; i--) a[i] = a[i - 1];] on both arrays. *)
Definition shift_up (position : nat) (s : list Z * list Z) : option (list Z * list Z) :=
  for_loop (15 - position) 0 (λ n '(smallest_values, age),
    let i := (15 - n)%nat in
    v ← smallest_values !! (i - 1)%nat;
    smallest_values ← wr smallest_values i v;
    a ← age !! (i - 1)%nat;
    age ← wr age i a;
    Some (smallest_values, age)) s.

Definition insert_value (feature_value : Z) (s : list Z * list Z) : option (list Z * list Z) :=
  match find_position s.1 feature_value with
  | None => Some s
  | Some position =>
      '(smallest_values, age) ← shift_up position s;
      smallest_values ← wr smallest_values position feature_value;
      age ← wr age position 1;
      Some (smallest_values, age)
  end.

(** Median selection and smoothing. *)
Definition smooth (frame_counter mean : Z) (smallest_values : list Z) : option Z :=
  s2 ← smallest_values !! 2%nat;
  s0 ← smallest_values !! 0%nat;
  let current_median :=
    if 2 <? frame_counter then s2 else if 0 <? frame_counter then s0 else 1600 in
  let alpha :=
    if 0 <? frame_counter then
      if current_median <? mean then kSmoothingDown else kSmoothingUp
    else 0 in
  let tmp32 := (alpha +i 1) *i mean in
  let tmp32 := tmp32 +i (32767 -i alpha) *i current_median in
  let tmp32 := tmp32 +i 16384 in
  Some (s16 (tmp32 >>i 15)).

Definition WebRtcVad_FindMinimum (self : VadInstT) (feature_value : Z) (channel : nat)
  : option (Z * VadInstT) :=
  let offset := (16 * channel)%nat in
  _ ← dcheck (channel <? kNumChannels)%nat;
  age ← window (index_vector self) offset;
  smallest_values ← window (low_value_vector self) offset;
  s ← update_age (smallest_values, age);
  '(smallest_values, age) ← insert_value feature_value s;
  mean ← mean_value self !! channel;
  m ← smooth (frame_counter self) mean smallest_values;
  mv ← wr (mean_value self) channel m;
  Some (m, set_minima self (put_window (index_vector self) offset age)
                           (put_window (low_value_vector self) offset smallest_values) mv).

(** ** What the tracker computes *)

(** The window as a list of values with their ages. *)
#[local] Abbreviation entry := (Z * Z)%type.
Definition split_entries (l : list entry) : list Z * list Z := (l.*1, l.*2).

(** One ageing pass over the entries from a position on: an entry of age 100 is
    dropped, the entry that takes its place is skipped, a sentinel enters at
    the end. *)
Fixpoint age_pass (n : nat) (l : list entry) : list entry :=
  match n, l with
  | S n, (v, a) :: t =>
      if negb (a =? 100) then (v, s16 (a +i 1)) :: age_pass n t
      else match t ++ [(10000, 101)] with
           | [] => []
           | y :: t' => y :: age_pass n t'
           end
  | _, _ => l
  end.

(** Insertion behind the entries that are not larger. *)
Fixpoint insert_le (x : entry) (l : list entry) : list entry :=
  match l with
  | [] => [x]
  | y :: t => if x.1 <? y.1 then x :: y :: t else y :: insert_le x t
  end.

Definition values_sorted (l : list entry) : Prop := StronglySorted Z.le l.*1.

(** *** Loops *)

Lemma wr_at {A} (r t : list A) (x y : A) i :
  i = length r → wr (r ++ x :: t) i y = Some (r ++ y :: t).
Proof.
  intros ->. unfold wr. rewrite decide_True by (rewrite length_app; simpl; lia).
  rewrite insert_app_r_alt by lia. by rewrite Nat.sub_diag.
Qed.

Lemma lookup_at {A} (r t : list A) (x : A) i : i = length r → (r ++ x :: t) !! i = Some x.
Proof. intros ->. by rewrite list_lookup_middle. Qed.

(** Reading and writing both arrays of an entry list. *)
Lemma entries_lookup (r t : list entry) (x : entry) i : i = length r →
  (r ++ x :: t).*1 !! i = Some x.1 ∧ (r ++ x :: t).*2 !! i = Some x.2.
Proof. intros. rewrite !list_lookup_fmap, lookup_at by done. done. Qed.

Lemma entries_wr (r t : list entry) (x y : entry) i : i = length r →
  wr (r ++ x :: t).*1 i y.1 = Some (r ++ y :: t).*1 ∧
  wr (r ++ x :: t).*2 i y.2 = Some (r ++ y :: t).*2.
Proof. intros. rewrite !fmap_app, !fmap_cons. split; apply wr_at; by rewrite length_fmap. Qed.

Lemma shift_down_spec (t r : list entry) (x : entry) :
  (length r + length t = 15)%nat →
  ∃ z, shift_down (length r) (split_entries (r ++ x :: t)) =
       Some (split_entries (r ++ t ++ [z])).
Proof.
  unfold shift_down. revert r x. induction t as [|y t IH]; intros r x Hl; simpl in Hl.
  { exists x. by replace (15 - length r)%nat with 0%nat by lia. }
  replace (15 - length r)%nat with (S (15 - length (r ++ [y]))) by (rewrite length_app; simpl; lia).
  destruct (IH (r ++ [y]) y) as [z Hz]; [rewrite length_app; simpl; lia|].
  exists z. cbn [for_loop]. unfold split_entries at 1. cbv beta iota zeta.
  destruct (entries_lookup (r ++ [x]) t y (length r + 1)) as [H1 H2];
    [rewrite length_app; done|]. rewrite <- app_assoc in H1, H2. simpl app in H1, H2.
  destruct (entries_wr r (y :: t) x y (length r) eq_refl) as [W1 W2].
  rewrite H1. cbn [mbind option_bind]. rewrite W1. cbn [mbind option_bind].
  rewrite H2. cbn [mbind option_bind]. rewrite W2. cbn [mbind option_bind].
  rewrite <- app_assoc in Hz. rewrite length_app, Nat.add_comm in Hz. simpl app in Hz.
  cbn [length Nat.add] in Hz |- *. rewrite <- app_assoc in Hz. rewrite length_app, Nat.add_comm.
  exact Hz.
Qed.

Lemma shift_up_spec (t r post : list entry) (z : entry) n :
  (length r + length t + n = 15)%nat → length post = n →
  ∃ z', for_loop (length t) n (λ n '(smallest_values, age),
          let i := (15 - n)%nat in
          v ← smallest_values !! (i - 1)%nat;
          smallest_values ← wr smallest_values i v;
          a ← age !! (i - 1)%nat;
          age ← wr age i a;
          Some (smallest_values, age)) (split_entries (r ++ t ++ z :: post)) =
        Some (split_entries (r ++ z' :: t ++ post)).
Proof.
  revert post z n. induction t as [|y t IH] using rev_ind; intros post z n Hl Hp.
  { by exists z. }
  rewrite length_app in Hl. simpl in Hl.
  destruct (IH (y :: post) y (S n)) as [z' Hz]; [lia|by simpl; lia|].
  exists z'. rewrite length_app, Nat.add_comm. cbn [Nat.add length for_loop].
  unfold split_entries at 1. cbv beta iota zeta.
  assert (r ++ (t ++ [y]) ++ z :: post = (r ++ t) ++ y :: z :: post) as E1
    by (by rewrite <- !app_assoc).
  assert ((r ++ t) ++ y :: z :: post = (r ++ t ++ [y]) ++ z :: post) as E2
    by (by rewrite <- !app_assoc).
  assert ((r ++ t ++ [y]) ++ y :: post = r ++ t ++ y :: y :: post) as E3
    by (by rewrite <- !app_assoc).
  destruct (entries_lookup (r ++ t) (z :: post) y (15 - n - 1)) as [H1 H2];
    [rewrite length_app; lia|].
  destruct (entries_wr (r ++ t ++ [y]) post z y (15 - n)) as [W1 W2];
    [rewrite !length_app; simpl; lia|].
  rewrite E1, H1. cbn [mbind option_bind]. rewrite E2, W1. cbn [mbind option_bind].
  rewrite <- E2, H2. cbn [mbind option_bind]. rewrite E2, W2. cbn [mbind option_bind].
  rewrite E3. rewrite <- (app_assoc t). exact Hz.
Qed.

Lemma update_age_spec (l : list entry) : length l = 16%nat →
  update_age (split_entries l) = Some (split_entries (age_pass 16 l)).
Proof.
  intros Hl. remember (age_pass 16 l) as G eqn:EG.
  assert (wp (update_age (split_entries l)) (λ s, s = split_entries G)) as H.
  { unfold update_age. apply (wp_for (λ i s, ∃ r t, length r = i ∧ length t = (16 - i)%nat ∧
      s = split_entries (r ++ t) ∧ r ++ age_pass (16 - i) t = G)).
    - exists [], l. by subst G.
    - clear EG. intros i [sv age] Hi (r & t & Hr & Ht & [= -> ->] & E).
      destruct t as [|[v a] t]; [simpl in Ht; lia|].
      replace (16 - i)%nat with (S (16 - S i)) in E by lia. cbn [age_pass] in E.
      destruct (entries_lookup r t (v, a) i (eq_sym Hr)) as [_ H2]. rewrite H2.
      cbn [mbind option_bind snd]. destruct (a =? 100); cbn [negb] in E |- *.
      + destruct (shift_down_spec t r (v, a)) as [z Hz]; [simpl in Ht; lia|].
        rewrite Hr in Hz. unfold split_entries in Hz at 1. rewrite Hz. cbn [mbind option_bind].
        unfold split_entries. rewrite app_assoc.
        destruct (entries_wr (r ++ t) [] z (10000, 101) 15) as [W1 W2];
          [rewrite length_app; simpl in Ht; lia|].
        cbn [fst snd] in W1, W2. rewrite W2. cbn [mbind option_bind]. rewrite W1.
        cbn [mbind option_bind wp]. destruct t as [|y t].
        * exists (r ++ [(10000, 101)]), []. rewrite app_nil_r.
          split_and!; [rewrite length_app; simpl; lia|simpl in *; lia|by rewrite app_nil_r|].
          rewrite <- E. simpl. rewrite <- app_assoc. simpl. by destruct (16 - S i)%nat.
        * exists (r ++ [y]), (t ++ [(10000, 101)]).
          split_and!; [rewrite length_app; simpl; lia|rewrite length_app; simpl in *; lia| |].
          { unfold split_entries. by rewrite <- !app_assoc. }
          rewrite <- E. by rewrite <- app_assoc.
      + destruct (entries_wr r t (v, a) (v, s16 (a +i 1)) i (eq_sym Hr)) as [W1 W2].
        cbn [fst snd] in W1, W2. rewrite W2. cbn [mbind option_bind wp].
        exists (r ++ [(v, s16 (a +i 1))]), t.
        split_and!; [rewrite length_app; simpl; lia|simpl in *; lia| |].
        { unfold split_entries. rewrite <- app_assoc. simpl app. f_equal.
          unfold wr in W1. case_decide; [|done]. rewrite !fmap_app, !fmap_cons. done. }
        rewrite <- E. by rewrite <- app_assoc.
    - intros s (r & t & Hr & Ht & -> & E). simpl in Ht.
      destruct t; [|simpl in Ht; lia]. by rewrite <- E. }
  apply wp_exists in H as (s & -> & ->). done.
Qed.

(** The nested comparisons find a place between two neighbours. *)
Lemma find_position_spec sv fv :
  match find_position sv fv with
  | Some p => (p < 16)%nat ∧ fv < sv !!! p ∧ (p = 0%nat ∨ sv !!! (p - 1)%nat ≤ fv)
  | None => sv !!! 15%nat ≤ fv
  end.
Proof.
  unfold find_position.
  repeat match goal with |- context [Z.ltb ?a ?b] => destruct (Z.ltb_spec a b) end;
    try (split_and!; [lia|done|]); try (by left); try (by right); lia.
Qed.

(** *** Sortedness *)

Lemma insert_at (l : list entry) (x : entry) p :
  values_sorted l → (p ≤ length l)%nat →
  (∀ y, l !! p = Some y → x.1 < y.1) →
  (p = 0%nat ∨ ∃ y, l !! (p - 1)%nat = Some y ∧ y.1 ≤ x.1) →
  take p l ++ x :: drop p l = insert_le x l.
Proof.
  unfold values_sorted. revert p. induction l as [|y l IH]; intros p Hs Hp Hlt Hle.
  { by destruct p. }
  rewrite fmap_cons in Hs. apply StronglySorted_inv in Hs as [Hs Hy]. destruct p as [|p]; simpl.
  { rewrite (proj2 (Z.ltb_lt _ _)); [done|]. by apply Hlt. }
  destruct Hle as [|(z & Hz & Hzx)]; [done|]. simpl in Hz. rewrite Nat.sub_0_r in Hz.
  assert (y.1 ≤ x.1) as Hyx.
  { destruct p; simpl in Hz; [by simplify_eq|]. etrans; [|exact Hzx].
    apply (Forall_lookup_1 _ _ p _ Hy). by rewrite list_lookup_fmap, Hz. }
  rewrite (proj2 (Z.ltb_ge _ _)) by done. f_equal. apply IH; [done|simpl in Hp; lia|done|].
  destruct p; [by left|]. right. exists z. simpl. by rewrite Nat.sub_0_r.
Qed.

Lemma insert_le_length x l : length (insert_le x l) = S (length l).
Proof. induction l as [|y l IH]; simpl; [done|]. case_match; simpl; by rewrite ?IH. Qed.

Lemma insert_le_Forall (P : entry → Prop) x l : P x → Forall P l → Forall P (insert_le x l).
Proof.
  intros Hx. induction 1 as [|y l Hy Hl IH]; simpl; [by constructor|].
  case_match; by repeat constructor.
Qed.

Lemma insert_le_sorted x l : values_sorted l → values_sorted (insert_le x l).
Proof.
  unfold values_sorted. induction l as [|y l IH]; simpl; intros Hs.
  { by repeat constructor. }
  apply StronglySorted_inv in Hs as [Hs Hy].
  destruct (Z.ltb_spec x.1 y.1) as [Hxy|Hxy]; rewrite ?fmap_cons.
  - constructor; [by constructor|]. constructor; [lia|].
    eapply Forall_weaken; [exact Hy|]. intros; lia.
  - constructor; [by apply IH|]. apply Forall_fmap, insert_le_Forall; [done|].
    exact (proj1 (Forall_fmap _ _ _) Hy).
Qed.

Lemma insert_le_last x l : values_sorted l →
  (∀ y, list.last l = Some y → y.1 ≤ x.1) → insert_le x l = l ++ [x].
Proof.
  unfold values_sorted. induction l as [|y l IH]; intros Hs Hl; [done|].
  rewrite fmap_cons in Hs. apply StronglySorted_inv in Hs as [Hs Hy]. simpl.
  assert (y.1 ≤ x.1) as Hyx.
  { destruct (list.last l) as [w|] eqn:Ew.
    - etrans; [|apply (Hl w); by rewrite last_cons, Ew].
      apply last_Some in Ew as [l' ->]. rewrite fmap_app in Hy.
      apply Forall_app in Hy as [_ Hy]. by inversion Hy.
    - apply last_None in Ew as ->. by apply Hl. }
  rewrite (proj2 (Z.ltb_ge _ _)) by done. f_equal. apply IH; [done|].
  intros w Hw. apply Hl. by rewrite last_cons, Hw.
Qed.

Lemma sorted_take n (l : list entry) : values_sorted l → values_sorted (take n l).
Proof.
  unfold values_sorted. revert n. induction l as [|y l IH]; intros [|n] Hs; simpl;
    try by constructor. apply StronglySorted_inv in Hs as [Hs Hy].
  constructor; [by apply IH|]. rewrite fmap_take. by apply Forall_take.
Qed.

Lemma insert_value_spec (fv : Z) (l : list entry) : length l = 16%nat → values_sorted l →
  insert_value fv (split_entries l) = Some (split_entries (take 16 (insert_le (fv, 1) l))).
Proof.
  intros Hl Hs. unfold insert_value, split_entries at 1. cbn [fst].
  pose proof (find_position_spec l.*1 fv) as Hp.
  assert (∀ i, (i < 16)%nat → ∃ y, l !! i = Some y ∧ l.*1 !!! i = y.1) as Hget.
  { intros i Hi. destruct (lookup_lt_is_Some_2 l i) as [y Hy]; [lia|]. exists y.
    split; [done|]. apply list_lookup_total_correct. by rewrite list_lookup_fmap, Hy. }
  destruct (find_position l.*1 fv) as [p|].
  - destruct Hp as (Hp & Hlt & Hle).
    assert (take p l ++ (fv, 1) :: drop p l = insert_le (fv, 1) l) as E.
    { apply insert_at; [done|lia| |].
      - intros y Hy. destruct (Hget p Hp) as (y' & Hy' & E'). simplify_eq. simpl. lia.
      - destruct Hle as [|Hle]; [by left|]. right. destruct (Hget (p - 1)%nat) as (y & Hy & Ey);
          [lia|]. exists y. split; [done|]. simpl. lia. }
    rewrite <- E. assert (∃ z t, drop p l = t ++ [z]) as (z & t & Ht).
    { destruct (drop p l) as [|d0 d] eqn:Ed using rev_ind; [|by eauto].
      apply (f_equal length) in Ed. rewrite length_drop in Ed. simpl in Ed. lia. }
    assert (length t = 15 - p)%nat as Hlt'.
    { apply (f_equal length) in Ht. rewrite length_drop, length_app in Ht. simpl in Ht. lia. }
    destruct (shift_up_spec t (take p l) [] z 0) as [z' Hz];
      [rewrite length_take; lia|done|].
    unfold shift_up. rewrite <- Ht, take_drop, Hlt' in Hz. unfold split_entries in Hz at 1.
    unfold split_entries at 1. rewrite Hz. cbn [mbind option_bind]. unfold split_entries.
    rewrite app_nil_r.
    destruct (entries_wr (take p l) t z' (fv, 1) p) as [W1 W2]; [rewrite length_take; lia|].
    cbn [fst snd] in W1, W2. rewrite W1. cbn [mbind option_bind]. rewrite W2.
    cbn [mbind option_bind]. rewrite Ht.
    assert (take 16 (take p l ++ (fv, 1) :: t ++ [z]) = take p l ++ (fv, 1) :: t) as ->; [|done].
    change ((fv, 1) :: t ++ [z]) with (((fv, 1) :: t) ++ [z]). rewrite app_assoc.
    rewrite take_app_length'; [done|]. rewrite length_app, length_take. simpl. lia.
  - rewrite insert_le_last; [|done|].
    + rewrite take_app_length' by done. done.
    + intros y Hy. rewrite last_lookup, Hl in Hy. simpl in Hy.
      destruct (Hget 15%nat) as (y' & Hy' & E'); [lia|]. simplify_eq. simpl. lia.
Qed.

Lemma age_pass_length n l : length (age_pass n l) = length l.
Proof.
  revert l. induction n as [|n IH]; intros [|[v a] t]; simpl; [done..|].
  case_match; simpl; [by rewrite IH|].
  destruct (t ++ [(10000, 101)]) as [|y t'] eqn:E.
  - by destruct t.
  - simpl. rewrite IH. apply (f_equal length) in E. rewrite length_app in E. simpl in E. lia.
Qed.

(** Ageing keeps the order: the sentinel is at least every value. *)
Lemma age_pass_sorted n l : values_sorted l → Forall (λ e, e.1 ≤ 10000) l →
  values_sorted (age_pass n l) ∧ Forall (λ e, e.1 ≤ 10000) (age_pass n l) ∧
  ∀ v, Forall (λ e, v ≤ e.1) l → v ≤ 10000 → Forall (λ e, v ≤ e.1) (age_pass n l).
Proof.
  unfold values_sorted. revert l. induction n as [|n IH]; intros [|[v a] t] Hs Hb; simpl;
    try by split_and!.
  rewrite fmap_cons in Hs. apply StronglySorted_inv in Hs as [Hs Hv].
  apply Forall_cons_1 in Hb as [Hbv Hb]. simpl in Hv, Hbv.
  destruct (a =? 100); simpl.
  - assert (StronglySorted Z.le (t ++ [(10000, 101)]).*1) as Hs'.
    { rewrite fmap_app. clear Hv IH. induction t as [|y t IHt]; simpl; [by repeat constructor|].
      rewrite fmap_cons in Hs. apply StronglySorted_inv in Hs as [Hs Hy].
      apply Forall_cons_1 in Hb as [Hby Hb]. constructor; [by apply IHt|].
      apply Forall_app. split; [done|]. by repeat constructor. }
    assert (Forall (λ e : entry, e.1 ≤ 10000) (t ++ [(10000, 101)])) as Hb'.
    { apply Forall_app. split; [done|]. by repeat constructor. }
    destruct (t ++ [(10000, 101)]) as [|y t'] eqn:E; [by destruct t|].
    rewrite fmap_cons in Hs'. apply StronglySorted_inv in Hs' as [Hs' Hy'].
    apply Forall_cons_1 in Hb' as [Hby Hb'].
    destruct (IH t' Hs' Hb') as (I1 & I2 & I3). split_and!.
    + constructor; [done|]. apply Forall_fmap, I3; [|done].
      exact (proj1 (Forall_fmap _ _ _) Hy').
    + by constructor.
    + intros w Hw Hw'. apply Forall_cons_1 in Hw as [_ Hw].
      assert (Forall (λ e : entry, w ≤ e.1) (y :: t')) as H'.
      { rewrite <- E. apply Forall_app. split; [done|]. by repeat constructor. }
      apply Forall_cons_1 in H' as [? H']. constructor; [done|]. by apply I3.
  - destruct (IH t Hs Hb) as (I1 & I2 & I3). split_and!.
    + constructor; [done|]. apply Forall_fmap, I3; [|done].
      exact (proj1 (Forall_fmap _ _ _) Hv).
    + by constructor.
    + intros w Hw Hw'. apply Forall_cons_1 in Hw as [? Hw]. constructor; [done|]. by apply I3.
Qed.

#[local] Arguments age_pass : simpl never.

(** *** Windows of the two vectors *)

Definition cells (v : list Z) (channel : nat) : list Z := take 16 (drop (16 * channel) v).

Lemma put_window_length v o w :
  (o + 16 ≤ length v)%nat → length w = 16%nat → length (put_window v o w) = length v.
Proof. intros. unfold put_window. rewrite !length_app, length_take, length_drop. lia. Qed.

Lemma cells_put_same v c w :
  (16 * c + 16 ≤ length v)%nat → length w = 16%nat → cells (put_window v (16 * c) w) c = w.
Proof.
  intros. unfold cells, put_window. rewrite drop_app_length' by (rewrite length_take; lia).
  by rewrite take_app_length' by done.
Qed.

Lemma cells_put_other v c c' w :
  (16 * c + 16 ≤ length v)%nat → length w = 16%nat → c ≠ c' →
  cells (put_window v (16 * c) w) c' = cells v c'.
Proof.
  intros Hl Hw Hc. unfold cells, put_window. apply list_eq. intros i.
  destruct (decide (i < 16)%nat); [|by rewrite !lookup_take_ge by lia].
  rewrite !lookup_take_lt, !lookup_drop by done.
  destruct (decide (c' < c)%nat).
  - rewrite lookup_app_l by (rewrite length_take; lia). by rewrite lookup_take_lt by lia.
  - rewrite lookup_app_r by (rewrite length_take; lia). rewrite length_take.
    rewrite lookup_app_r by lia. rewrite lookup_drop. f_equal. lia.
Qed.

(** The entries of a channel. *)
Definition entries (self : VadInstT) (channel : nat) : list (Z * Z) :=
  zip (cells (low_value_vector self) channel) (cells (index_vector self) channel).

Definition minima_wf (self : VadInstT) : Prop :=
  length (index_vector self) = 96%nat ∧ length (low_value_vector self) = 96%nat ∧
  length (mean_value self) = 6%nat ∧ Forall (λ m, 0 ≤ m ≤ 10000) (mean_value self) ∧
  ∀ c, (c < 6)%nat → values_sorted (entries self c) ∧
                     Forall (λ e, 0 ≤ e.1 ≤ 10000) (entries self c).

Lemma cells_length v c : length v = 96%nat → (c < 6)%nat → length (cells v c) = 16%nat.
Proof. intros. unfold cells. rewrite length_take, length_drop. lia. Qed.

Lemma entries_split self c : minima_wf self → (c < 6)%nat →
  length (entries self c) = 16%nat ∧
  split_entries (entries self c) =
    (cells (low_value_vector self) c, cells (index_vector self) c).
Proof.
  intros (Hi & Hv & _) Hc. pose proof (cells_length _ c Hi Hc). pose proof (cells_length _ c Hv Hc).
  unfold entries, split_entries. rewrite length_zip_with, fst_zip, snd_zip by lia.
  split; [lia|done].
Qed.

(** *** The smoothed value *)

Definition median (fc : Z) (l : list (Z * Z)) : Z :=
  if 2 <? fc then l.*1 !!! 2%nat else if 0 <? fc then l.*1 !!! 0%nat else 1600.
Definition alpha_of (fc med mean : Z) : Z :=
  if 0 <? fc then if med <? mean then kSmoothingDown else kSmoothingUp else 0.
Definition smoothed (fc mean : Z) (l : list (Z * Z)) : Z :=
  let med := median fc l in
  let alpha := alpha_of fc med mean in
  ((alpha + 1) * mean + (32767 - alpha) * med + 16384) / 32768.

Lemma median_bounds fc l : length l = 16%nat → Forall (λ e, 0 ≤ e.1 ≤ 10000) l →
  0 ≤ median fc l ≤ 10000.
Proof.
  intros Hl Hb. assert (∀ i, (i < 16)%nat → 0 ≤ l.*1 !!! i ≤ 10000) as H.
  { intros i Hi. destruct (lookup_lt_is_Some_2 l i) as [y Hy]; [lia|].
    rewrite (list_lookup_total_correct l.*1 i y.1) by (by rewrite list_lookup_fmap, Hy).
    by apply (Forall_lookup_1 _ _ _ _ Hb Hy). }
  unfold median. repeat case_match; [apply H; lia..|lia].
Qed.

Lemma smoothed_bounds fc mean l : length l = 16%nat → Forall (λ e, 0 ≤ e.1 ≤ 10000) l →
  0 ≤ mean ≤ 10000 → 0 ≤ smoothed fc mean l ≤ 10000.
Proof.
  intros Hl Hb Hm. pose proof (median_bounds fc l Hl Hb) as Hmed. unfold smoothed.
  assert (0 ≤ alpha_of fc (median fc l) mean ≤ 32439).
  { unfold alpha_of, kSmoothingDown, kSmoothingUp. repeat case_match; lia. }
  split; [apply Z.div_pos; nia|]. apply Z.lt_succ_r, Z.div_lt_upper_bound; nia.
Qed.

Lemma smooth_spec fc mean (l : list (Z * Z)) :
  length l = 16%nat → Forall (λ e, 0 ≤ e.1 ≤ 10000) l → 0 ≤ mean ≤ 10000 →
  smooth fc mean l.*1 = Some (smoothed fc mean l).
Proof.
  intros Hl Hb Hm. pose proof (smoothed_bounds fc mean l Hl Hb Hm) as Hs.
  pose proof (median_bounds fc l Hl Hb) as Hmed. unfold smooth.
  rewrite (lookup_total_Some l.*1 2), (lookup_total_Some l.*1 0) by (rewrite length_fmap; lia).
  cbn [mbind option_bind]. fold (median fc l). fold (alpha_of fc (median fc l) mean).
  unfold smoothed in *. set (med := median fc l) in *. set (al := alpha_of fc med mean) in *.
  assert (0 ≤ al ≤ 32439).
  { unfold al, alpha_of, kSmoothingDown, kSmoothingUp. repeat case_match; lia. }
  assert (0 ≤ (al + 1) * mean ∧ 0 ≤ (32767 - al) * med ∧
          (al + 1) * mean + (32767 - al) * med ≤ 327680000) by nia.
  rewrite (s32_id (al + 1)), (s32_id (32767 - al)) by clia.
  rewrite (s32_id (_ * mean)), (s32_id (_ * med)) by (unfold int32; lia).
  rewrite (s32_id (_ + _ * _)) by (unfold int32; lia).
  rewrite (s32_id (_ + 16384)) by (unfold int32; lia).
  shift_const. rewrite s16_id by (unfold int16; lia). done.
Qed.

(** *** The whole operation *)

Definition next_entries (fv : Z) (l : list (Z * Z)) : list (Z * Z) :=
  take 16 (insert_le (fv, 1) (age_pass 16 l)).

Lemma next_entries_wf fv l :
  0 ≤ fv ≤ 10000 → length l = 16%nat → values_sorted l → Forall (λ e, 0 ≤ e.1 ≤ 10000) l →
  length (next_entries fv l) = 16%nat ∧ values_sorted (next_entries fv l) ∧
  Forall (λ e, 0 ≤ e.1 ≤ 10000) (next_entries fv l).
Proof.
  intros Hf Hl Hs Hb. unfold next_entries.
  destruct (age_pass_sorted 16 l Hs) as (H1 & H2 & H3).
  { eapply Forall_weaken; [exact Hb|]. by intros e [? ?]. }
  pose proof (age_pass_length 16 l) as Hl'. split_and!.
  - rewrite length_take, insert_le_length, Hl'. lia.
  - by apply sorted_take, insert_le_sorted.
  - apply Forall_take, insert_le_Forall; [done|].
    assert (Forall (λ e : entry, 0 ≤ e.1) (age_pass 16 l)) as H0.
    { apply H3; [|lia]. eapply Forall_weaken; [exact Hb|]. by intros e [? ?]. }
    generalize dependent (age_pass 16 l). intros l' _ H2 _ _ H0.
    induction H2 as [|e l' He Hl0 IH]; [done|]. apply Forall_cons_1 in H0 as [? ?].
    constructor; [done|]. by apply IH.
Qed.

Lemma FindMinimum_eq self fv c mean :
  minima_wf self → (c < 6)%nat → 0 ≤ fv ≤ 10000 → mean_value self !! c = Some mean →
  let l := next_entries fv (entries self c) in
  WebRtcVad_FindMinimum self fv c =
    Some (smoothed (frame_counter self) mean l,
          set_minima self (put_window (index_vector self) (16 * c) l.*2)
            (put_window (low_value_vector self) (16 * c) l.*1)
            (<[c := smoothed (frame_counter self) mean l]> (mean_value self))).
Proof.
  intros Hwf Hc Hf Hm l. destruct (entries_split self c Hwf Hc) as [Hl Hsp].
  pose proof Hwf as (Hi & Hv & Hmv & Hmb & Hent). destruct (Hent c Hc) as [Hs Hb].
  destruct (next_entries_wf fv _ Hf Hl Hs Hb) as (Hl' & Hs' & Hb'). fold l in Hl', Hs', Hb'.
  unfold WebRtcVad_FindMinimum. rewrite (proj2 (Nat.ltb_lt _ _)) by done.
  cbn [dcheck mbind option_bind]. unfold window. rewrite !decide_True by lia.
  cbn [mbind option_bind]. fold (cells (low_value_vector self) c).
  fold (cells (index_vector self) c). rewrite <- Hsp, update_age_spec by done.
  cbn [mbind option_bind]. rewrite insert_value_spec.
  2: by rewrite age_pass_length.
  2: { apply age_pass_sorted; [done|]. eapply Forall_weaken; [exact Hb|].
       by intros e [? ?]. }
  cbn [mbind option_bind]. unfold split_entries at 1. rewrite Hm. cbn [mbind option_bind].
  fold (next_entries fv (entries self c)). fold l.
  rewrite smooth_spec; [|done|done|by apply (Forall_lookup_1 _ _ _ _ Hmb Hm)].
  cbn [mbind option_bind]. unfold wr. rewrite decide_True by lia. done.
Qed.

Lemma FindMinimum_entries self fv c mean (self' := set_minima self
    (put_window (index_vector self) (16 * c) (next_entries fv (entries self c)).*2)
    (put_window (low_value_vector self) (16 * c) (next_entries fv (entries self c)).*1)
    (<[c := smoothed (frame_counter self) mean (next_entries fv (entries self c))]>
       (mean_value self))) :
  minima_wf self → (c < 6)%nat → 0 ≤ fv ≤ 10000 → 0 ≤ mean ≤ 10000 →
  entries self' c = next_entries fv (entries self c) ∧
  (∀ c', (c' < 6)%nat → c' ≠ c → entries self' c' = entries self c') ∧ minima_wf self'.
Proof.
  intros Hwf Hc Hf Hm. destruct (entries_split self c Hwf Hc) as [Hl _].
  pose proof Hwf as (Hi & Hv & Hmv & Hmb & Hent). destruct (Hent c Hc) as [Hs Hb].
  destruct (next_entries_wf fv _ Hf Hl Hs Hb) as (Hl' & Hs' & Hb').
  set (l := next_entries fv (entries self c)) in *.
  assert (length l.*1 = 16%nat ∧ length l.*2 = 16%nat) as [L1 L2] by (by rewrite !length_fmap).
  assert (entries self' c = l) as Es.
  { unfold entries, self', set_minima. cbn [low_value_vector index_vector].
    rewrite !cells_put_same by lia. apply zip_fst_snd. }
  assert (∀ c', (c' < 6)%nat → c' ≠ c → entries self' c' = entries self c') as Eo.
  { intros c' Hc' Hne. unfold entries, self', set_minima.
    cbn [low_value_vector index_vector]. by rewrite !cells_put_other by lia. }
  split_and!; [done|done|].
  unfold minima_wf, self' at 1 2 3 4, set_minima.
  cbn [low_value_vector index_vector mean_value]. split_and!.
  - by rewrite put_window_length by lia.
  - by rewrite put_window_length by lia.
  - by rewrite length_insert.
  - apply Forall_insert; [done|]. by apply smoothed_bounds.
  - intros c' Hc'. fold self'. destruct (decide (c' = c)) as [->|].
    + by rewrite Es.
    + rewrite Eo by done. by apply Hent.
Qed.

(** The state WebRtcVad_InitCore sets up. *)
Lemma minima_wf_init self :
  index_vector self = replicate 96 0 → low_value_vector self = replicate 96 10000 →
  mean_value self = replicate 6 1600 → minima_wf self.
Proof.
  intros Hi Hl Hm. unfold minima_wf, entries. rewrite Hi, Hl, Hm. split_and!; [done..| |].
  - by repeat constructor.
  - intros c Hc. unfold cells. rewrite !drop_replicate, !take_replicate.
    rewrite (Nat.min_l 16) by lia. generalize 16%nat. intros n. unfold values_sorted.
    split; induction n as [|n IH]; simpl; constructor; try done.
    rewrite fst_zip by (by rewrite !length_replicate). apply Forall_replicate. lia.
Qed.

(** *** The decimator on signals *)

(** One all-pass branch: its state before sample [n], and its output there. *)
Definition ds_step (coef state x : Z) : Z := s16 ((state / 2) + coef * x / 16384).
Fixpoint ds_state (coef state : Z) (x : nat → Z) (n : nat) : Z :=
  match n with
  | O => state
  | S n => x n - coef * ds_step coef (ds_state coef state x n) (x n) / 4096
  end.
Definition ds_out (c1 c2 st1 st2 : Z) (x : nat → Z) (n : nat) : Z :=
  s16 (ds_step c1 (ds_state c1 st1 (evens x) n) (evens x n) +
       ds_step c2 (ds_state c2 st2 (odds x) n) (odds x n)).

Definition ds_bound (z : Z) : Prop := -75000 ≤ z ≤ 75000.

(** The 32-bit expressions of a branch do not wrap. *)
Lemma ds_exact coef st x : 0 ≤ coef ≤ 5243 → ds_bound st → int16 x →
  s16 ((st >>i 1) +i (coef *i x >>i 14)) = ds_step coef st x ∧
  x -i (coef *i ds_step coef st x >>i 12) = x - coef * ds_step coef st x / 4096 ∧
  ds_bound (x - coef * ds_step coef st x / 4096).
Proof.
  unfold ds_bound. intros Hc Hs Hx. pose proof (s16_range (st / 2 + coef * x / 16384)) as Hr.
  fold (ds_step coef st x) in Hr. set (t := ds_step coef st x) in *. unfold int16 in Hx, Hr.
  assert (-171802624 ≤ coef * x ≤ 171802624) by nia.
  assert (-171802624 ≤ coef * t ≤ 171802624) by nia.
  rewrite (s32_id (coef * x)), (s32_id (coef * t)) by (unfold int32; lia).
  shift_const. unfold t, ds_step in *. split_and!.
  - rewrite s32_id by clia. done.
  - rewrite s32_id by clia. done.
  - clia.
  - clia.
Qed.

Lemma ds_state_bound coef st x n : 0 ≤ coef ≤ 5243 → ds_bound st →
  (∀ i, (i < n)%nat → int16 (x i)) → ds_bound (ds_state coef st x n).
Proof.
  intros Hc Hs Hx. induction n as [|n IH]; [done|]. cbn [ds_state].
  apply ds_exact; [done| |apply Hx; lia]. apply IH. intros. apply Hx. lia.
Qed.

Lemma Downsampling_spec signal_in signal_out filter fo in_length st1 st2 x :
  let half := (in_length / 2)%nat in
  filter !! fo = Some st1 → filter !! (fo + 1)%nat = Some st2 → ds_bound st1 → ds_bound st2 →
  holds signal_in 0 (2 * half) x → (∀ i, (i < 2 * half)%nat → int16 (x i)) →
  (half ≤ length signal_out)%nat →
  wp (WebRtcVad_Downsampling signal_in signal_out filter fo in_length) (λ '(out, filter'),
    wrote signal_out 0 half (ds_out kAllPassCoefsQ13_0 kAllPassCoefsQ13_1 st1 st2 x) out ∧
    filter' = <[(fo + 1)%nat := ds_state kAllPassCoefsQ13_1 st2 (odds x) half]>
                (<[fo := ds_state kAllPassCoefsQ13_0 st1 (evens x) half]> filter)).
Proof.
  intros half H1 H2 B1 B2 Hx Hi Ho.
  change (∀ i, (i < 2 * half)%nat → signal_in !! i = Some (x i)) in Hx.
  unfold WebRtcVad_Downsampling. rewrite H1, H2.
  cbn [mbind option_bind]. cbv zeta. fold half. apply wp_bind.
  apply (wp_for (λ n '(out, t1, t2),
    wrote signal_out 0 n (ds_out kAllPassCoefsQ13_0 kAllPassCoefsQ13_1 st1 st2 x) out ∧
    t1 = ds_state kAllPassCoefsQ13_0 st1 (evens x) n ∧
    t2 = ds_state kAllPassCoefsQ13_1 st2 (odds x) n)).
  - split_and!; [apply wrote_nil|done..].
  - intros n [[out t1] t2] Hn (Hw & -> & ->). pose proof (wrote_length _ _ _ _ _ Hw) as Hl.
    destruct (ds_exact kAllPassCoefsQ13_0 (ds_state kAllPassCoefsQ13_0 st1 (evens x) n)
      (evens x n)) as (E1 & E1' & _); [unfold kAllPassCoefsQ13_0; lia| |apply Hi; lia|].
    { apply ds_state_bound; [unfold kAllPassCoefsQ13_0; lia|done|]. intros. apply Hi. lia. }
    destruct (ds_exact kAllPassCoefsQ13_1 (ds_state kAllPassCoefsQ13_1 st2 (odds x) n)
      (odds x n)) as (E2 & E2' & _); [unfold kAllPassCoefsQ13_1; lia| |apply Hi; lia|].
    { apply ds_state_bound; [unfold kAllPassCoefsQ13_1; lia|done|]. intros. apply Hi. lia. }
    rewrite (Hx (2 * n)%nat) by lia. cbn [mbind option_bind]. fold (evens x n).
    cbv zeta. rewrite E1. apply wp_bind, wp_wr; [lia|].
    rewrite (Hx (2 * n + 1)%nat) by lia. cbn [mbind option_bind]. fold (odds x n).
    rewrite E2. rewrite list_lookup_insert_eq by lia. cbn [mbind option_bind].
    apply wp_bind, wp_wr; [rewrite length_insert; lia|]. apply wp_ret.
    rewrite list_insert_insert_eq, E1', E2'. split_and!; [|done..].
    rewrite s32_id.
    + exact (wrote_snoc _ 0 n _ _ Hw ltac:(simpl; lia)).
    + pose proof (s16_range (ds_state kAllPassCoefsQ13_0 st1 (evens x) n / 2 +
        kAllPassCoefsQ13_0 * evens x n / 16384)).
      pose proof (s16_range (ds_state kAllPassCoefsQ13_1 st2 (odds x) n / 2 +
        kAllPassCoefsQ13_1 * odds x n / 16384)). unfold ds_step, int16, int32 in *. lia.
  - intros [[out t1] t2] (Hw & -> & ->). pose proof (lookup_lt_Some _ _ _ H1).
    pose proof (lookup_lt_Some _ _ _ H2).
    apply wp_bind, wp_wr; [done|]. apply wp_bind, wp_wr; [by rewrite length_insert|].
    apply wp_ret. done.
Qed.

(** ** Claims *)

(** The tracker. On a well-formed instance, for a channel below
    kNumChannels and a feature in [0, 10000], the call stays inside its arrays;
    the sixteen entries of the channel become the sixteen smallest of the aged
    entries and the new value, inserted in order behind its equals with age 1;
    the other channels keep theirs; the returned and stored value is the
    previous one smoothed towards the third smallest value (the smallest in the
    first frames, 1600 in the very first) with no intermediate overflow, rounded;
    and the instance stays well-formed: every window sorted, every value in
    range. *)
Theorem FindMinimum_correct (self : VadInstT) (fv : Z) (c : nat) (mean : Z) :
  minima_wf self → (c < 6)%nat → 0 ≤ fv ≤ 10000 → mean_value self !! c = Some mean →
  wp (WebRtcVad_FindMinimum self fv c) (λ '(m, self'),
    m = smoothed (frame_counter self) mean (entries self' c) ∧
    mean_value self' = <[c := m]> (mean_value self) ∧
    entries self' c = take 16 (insert_le (fv, 1) (age_pass 16 (entries self c))) ∧
    (∀ c', (c' < 6)%nat → c' ≠ c → entries self' c' = entries self c') ∧
    minima_wf self').
Proof.
  intros Hwf Hc Hf Hm. rewrite (FindMinimum_eq self fv c mean) by done. apply wp_ret.
  pose proof Hwf as (_ & _ & _ & Hmb & _).
  pose proof (Forall_lookup_1 _ _ _ _ Hmb Hm) as Hmean.
  destruct (FindMinimum_entries self fv c mean Hwf Hc Hf Hmean) as (E1 & E2 & E3).
  split_and!; [by rewrite E1|done..].
Qed.

Definition demo_instance : VadInstT :=
  Build_VadInstT 1 [0; 0; 0; 0] (Build_WebRtcSpl_State48khzTo8khz [] [] [] []) [] [] [] []
    5 0 0 (replicate 96 0) (replicate 96 10000) (replicate 6 1600) [] [] [] [] [] [] [] 42.

Lemma FindMinimum_correct_witness :
  wp (WebRtcVad_FindMinimum demo_instance 700 3) (λ '(m, self'),
    m = smoothed (frame_counter demo_instance) 1600 (entries self' 3) ∧
    mean_value self' = <[3%nat := m]> (mean_value demo_instance) ∧
    entries self' 3 =
      take 16 (insert_le (700, 1) (age_pass 16 (entries demo_instance 3))) ∧
    (∀ c', (c' < 6)%nat → c' ≠ 3%nat → entries self' c' = entries demo_instance c') ∧
    minima_wf self').
Proof.
  apply (FindMinimum_correct demo_instance 700 3 1600); [|lia|lia|reflexivity].
  by apply minima_wf_init.
Defined.

(** An entry that moves down into the place of a dropped one keeps its age
    in that frame, contrary to the comment that every value gets one frame older:
    of two entries of age 7 only the one not behind a dropped entry ages. *)
Theorem update_age_skips :
  let vals := [10; 20; 30] ++ replicate 13 10000 in
  let ages := [100; 7; 7] ++ replicate 13 101 in
  update_age (vals, ages) =
    Some ([20; 30] ++ replicate 14 10000, [7; 8] ++ replicate 13 102 ++ [102]).
Proof. vm_compute. reflexivity. Qed.

(** The decimator of the detector. For 16-bit input, filter states of at most
    75000 and an output array of half the length, no 32-bit expression wraps, the
    outputs are the 16-bit sums of the two all-pass branches of the even and the
    odd samples, and the two filter states are stored back. *)
Theorem Downsampling_correct (signal_in signal_out filter : list Z) (fo in_length : nat)
    (st1 st2 : Z) (x : nat → Z) :
  filter !! fo = Some st1 → filter !! (fo + 1)%nat = Some st2 → ds_bound st1 → ds_bound st2 →
  holds signal_in 0 (2 * (in_length / 2)) x →
  (∀ i, (i < 2 * (in_length / 2))%nat → int16 (x i)) →
  (in_length / 2 ≤ length signal_out)%nat →
  wp (WebRtcVad_Downsampling signal_in signal_out filter fo in_length) (λ '(out, filter'),
    wrote signal_out 0 (in_length / 2)
      (ds_out kAllPassCoefsQ13_0 kAllPassCoefsQ13_1 st1 st2 x) out ∧
    filter' = <[(fo + 1)%nat := ds_state kAllPassCoefsQ13_1 st2 (odds x) (in_length / 2)]>
                (<[fo := ds_state kAllPassCoefsQ13_0 st1 (evens x) (in_length / 2)]> filter)).
Proof. apply Downsampling_spec. Qed.

Lemma Downsampling_correct_witness :
  let x := λ i : nat, 100 * Z.of_nat i in
  wp (WebRtcVad_Downsampling (map x (seq 0 8)) (replicate 4 0) [0; 0; 7; -9] 2 8)
    (λ '(out, filter'),
      wrote (replicate 4 0) 0 (8 / 2) (ds_out kAllPassCoefsQ13_0 kAllPassCoefsQ13_1 7 (-9) x) out ∧
      filter' = <[(2 + 1)%nat := ds_state kAllPassCoefsQ13_1 (-9) (odds x) (8 / 2)]>
                  (<[2%nat := ds_state kAllPassCoefsQ13_0 7 (evens x) (8 / 2)]> [0; 0; 7; -9])).
Proof.
  intros x. apply (Downsampling_correct _ _ [0; 0; 7; -9] 2 8 7 (-9) x);
    try reflexivity; try (unfold ds_bound; lia).
  - intros i Hi. simpl Nat.div in Hi. do 8 (destruct i as [|i]; [reflexivity|]). lia.
  - intros i Hi. simpl Nat.div in Hi. unfold int16, x. lia.
Defined.

End VadSp.
