(* ===== verification/VadFilterbank.v ===== *)
(** * Filter bank of the voice activity detector
    (common_audio/vad/vad_filterbank.c)

    Splits a frame of 80, 160 or 240 samples at 8 kHz into six frequency bands
    by a tree of half-band filters and takes the logarithm of the energy of each
    band. The theorems show that the tree stays inside its scratch buffers for
    the three frame lengths, that every shift amount is defined, and bound the
    features, which is what the probability computation relies on. *)

From S2P Require Import Prelude SplInl Energy ResampleBy2 ResampleFrac Resample48 VadSp.
Import SplInl Energy VadSp.

Module VadFilterbank.

Definition kLogConst : Z := 24660.
Definition kLogEnergyIntPart : Z := 14336.
Definition kHpZeroCoefs : Z * Z * Z := (6631, -13262, 6631).
Definition kHpPoleCoefs : Z * Z * Z := (16384, -7756, 5620).
Definition kAllPassCoefsQ15_0 : Z := 20972.
Definition kAllPassCoefsQ15_1 : Z := 5571.
Definition kOffsetVector : list Z := [368; 368; 272; 176; 176; 176].

(** Returns [filter_state] and [data_out]. *)
Definition HighPassFilter (data_in : list Z) (data_length : nat) (filter_state : list Z)
    (data_out : list Z) : option (list Z * list Z) :=
  let '(z0, z1, z2) := kHpZeroCoefs in
  let '(_, p1, p2) := kHpPoleCoefs in
  for_loop data_length 0 (λ i '(filter_state, data_out),
    x ← data_in !! i;
    f0 ← filter_state !! 0%nat;
    f1 ← filter_state !! 1%nat;
    let tmp32 := z0 *i x in
    let tmp32 := tmp32 +i z1 *i f0 in
    let tmp32 := tmp32 +i z2 *i f1 in
    filter_state ← wr filter_state 1 f0;
    filter_state ← wr filter_state 0 x;
    f2 ← filter_state !! 2%nat;
    f3 ← filter_state !! 3%nat;
    let tmp32 := tmp32 -i p1 *i f2 in
    let tmp32 := tmp32 -i p2 *i f3 in
    filter_state ← wr filter_state 3 f2;
    filter_state ← wr filter_state 2 (s16 (tmp32 >>i 14));
    data_out ← wr data_out i (s16 (tmp32 >>i 14));
    Some (filter_state, data_out)) (filter_state, data_out).

(** [data_in] points at cell [ip] of its array; [filter_state] is the one cell
    behind the pointer. Returns its new value and [data_out]. *)
Definition AllPassFilter (data_in : list Z) (ip data_length : nat) (filter_coefficient : Z)
    (filter_state : Z) (data_out : list Z) : option (Z * list Z) :=
  let state32 := filter_state *i 65536 in
  '(state32, data_out) ← for_loop data_length 0 (λ i '(state32, data_out),
    x ← data_in !! (ip + 2 * i)%nat;
    let tmp32 := state32 +i filter_coefficient *i x in
    let tmp16 := s16 (tmp32 >>i 16) in
    data_out ← wr data_out i tmp16;
    let state32 := (x *i 16384) -i filter_coefficient *i tmp16 in
    let state32 := state32 *i 2 in
    Some (state32, data_out)) (state32, data_out);
  Some (s16 (state32 >>i 16), data_out).

(** Returns the two filter states, [hp_data_out] and [lp_data_out]. *)
Definition SplitFilter (data_in : list Z) (data_length : nat) (upper_state lower_state : Z)
    (hp_data_out lp_data_out : list Z) : option (Z * Z * list Z * list Z) :=
  let half_length := (data_length / 2)%nat in
  '(upper_state, hp_data_out) ←
    AllPassFilter data_in 0 half_length kAllPassCoefsQ15_0 upper_state hp_data_out;
  '(lower_state, lp_data_out) ←
    AllPassFilter data_in 1 half_length kAllPassCoefsQ15_1 lower_state lp_data_out;
  '(hp_data_out, lp_data_out) ← for_loop half_length 0 (λ i '(hp_data_out, lp_data_out),
    tmp_out ← hp_data_out !! i;
    l ← lp_data_out !! i;
    hp_data_out ← wr hp_data_out i (s16 (tmp_out -i l));
    lp_data_out ← wr lp_data_out i (s16 (l +i tmp_out));
    Some (hp_data_out, lp_data_out)) (hp_data_out, lp_data_out);
  Some (upper_state, lower_state, hp_data_out, lp_data_out).

(** Returns [*total_energy] and [*log_energy]. *)
Definition LogOfEnergy (data_in : list Z) (data_length : nat) (offset total_energy : Z)
  : option (Z * Z) :=
  _ ← dcheck (0 <? data_length)%nat;
  '(en, tot_rshifts) ← WebRtcSpl_Energy data_in data_length;
  let energy := u32 en in
  if negb (energy =? 0) then
    let normalizing_rshifts := 17 -i WebRtcSpl_NormU32 energy in
    let log2_energy := kLogEnergyIntPart in
    let tot_rshifts := tot_rshifts +i normalizing_rshifts in
    energy ← (if normalizing_rshifts <? 0 then shlu32 energy (-i normalizing_rshifts)
              else shr32 energy normalizing_rshifts);
    let log2_energy := s16 (log2_energy +i s16 (Z.land energy 0x3FFF >>i 4)) in
    let log_energy := s16 ((kLogConst *i log2_energy >>i 19) +i (tot_rshifts *i kLogConst >>i 9)) in
    let log_energy := if log_energy <? 0 then 0 else log_energy in
    let log_energy := s16 (log_energy +i offset) in
    total_energy ←
      (if total_energy <=? kMinEnergy then
         if 0 <=? tot_rshifts then Some (s16 (total_energy +i (kMinEnergy +i 1)))
         else
           e ← shr32 energy (-i tot_rshifts);
           Some (s16 (total_energy +i s16 e))
       else Some total_energy);
    Some (total_energy, log_energy)
  else Some (total_energy, offset).

(** One band: energy of the first [length] samples of [data] as feature [c]. *)
Definition band_energy (data : list Z) (length : nat) (c : nat) (s : Z * list Z)
  : option (Z * list Z) :=
  let '(total_energy, features) := s in
  offset ← kOffsetVector !! c;
  '(total_energy, log_energy) ← LogOfEnergy data length offset total_energy;
  features ← wr features c log_energy;
  Some (total_energy, features).

(** One split with the states of [frequency_band]. *)
Definition band_split (data_in : list Z) (length : nat) (frequency_band : nat)
    (hp_out lp_out : list Z) (st : list Z * list Z)
  : option (list Z * list Z * (list Z * list Z)) :=
  let '(us, ls) := st in
  u ← us !! frequency_band;
  l ← ls !! frequency_band;
  '(u, l, hp_out, lp_out) ← SplitFilter data_in length u l hp_out lp_out;
  us ← wr us frequency_band u;
  ls ← wr ls frequency_band l;
  Some (hp_out, lp_out, (us, ls)).

(** The scratch buffers [hp_120], [lp_120], [hp_60], [lp_60] have no initial
    value in the source: [junk] is what their memory holds. *)
Definition junk4 : Type := list Z * list Z * list Z * list Z.

Definition WebRtcVad_CalculateFeatures (junk : junk4) (self : VadInstT) (data_in : list Z)
    (data_length : nat) (features : list Z) : option (Z * VadInstT * list Z) :=
  let total_energy := 0 in
  let '(hp_120, lp_120, hp_60, lp_60) := junk in
  let half_data_length := (data_length / 2)%nat in
  let length := half_data_length in
  _ ← dcheck (data_length <=? 240)%nat;
  _ ← dcheck (4 <? kNumChannels - 1)%nat;
  let st := (upper_state self, lower_state self) in
  '(hp_120, lp_120, st) ← band_split data_in data_length 0 hp_120 lp_120 st;
  '(hp_60, lp_60, st) ← band_split hp_120 length 1 hp_60 lp_60 st;
  let length := (length / 2)%nat in
  s ← band_energy hp_60 length 5 (total_energy, features);
  s ← band_energy lp_60 length 4 s;
  let length := half_data_length in
  '(hp_60, lp_60, st) ← band_split lp_120 length 2 hp_60 lp_60 st;
  let length := (length / 2)%nat in
  s ← band_energy hp_60 length 3 s;
  '(hp_120, lp_120, st) ← band_split lp_60 length 3 hp_120 lp_120 st;
  let length := (length / 2)%nat in
  s ← band_energy hp_120 length 2 s;
  '(hp_60, lp_60, st) ← band_split lp_120 length 4 hp_60 lp_60 st;
  let length := (length / 2)%nat in
  s ← band_energy hp_60 length 1 s;
  '(hp_state, hp_120) ← HighPassFilter lp_60 length (hp_filter_state self) hp_120;
  '(total_energy, features) ← band_energy hp_120 length 0 s;
  Some (total_energy, set_filters self st.1 st.2 hp_state, features).

Example features_silence :
  (let self := set_filters demo_instance (replicate 5 0) (replicate 5 0) (replicate 4 0) in
   let junk := (replicate 120 77, replicate 120 77, replicate 60 77, replicate 60 77) in
   '(power, _, f) ← WebRtcVad_CalculateFeatures junk self (replicate 80 0) 80 (replicate 6 0);
   Some (power, f)) = Some (0, kOffsetVector).
Proof. vm_compute. reflexivity. Qed.

(** ** The filters on signals *)

Section allpass15.
Context (coef st : Z) (x : nat → Z).
Fixpoint ap15_state (n : nat) : Z :=
  match n with
  | O => st *i 65536
  | S n => ((x n *i 16384) -i coef *i s16 ((ap15_state n +i coef *i x n) >>i 16)) *i 2
  end.
Definition ap15_out (n : nat) : Z := s16 ((ap15_state n +i coef *i x n) >>i 16).
Definition ap15_final (n : nat) : Z := s16 (ap15_state n >>i 16).

Lemma AllPassFilter_spec data_in ip n data_out :
  (∀ i, (i < n)%nat → data_in !! (ip + 2 * i)%nat = Some (x i)) → (n ≤ length data_out)%nat →
  wp (AllPassFilter data_in ip n coef st data_out) (λ '(st', out),
    st' = ap15_final n ∧ wrote data_out 0 n ap15_out out).
Proof.
  intros Hx Hl. unfold AllPassFilter. apply wp_bind.
  apply (wp_for (λ i '(s, out), s = ap15_state i ∧ wrote data_out 0 i ap15_out out)).
  - split; [done|apply wrote_nil].
  - intros i [s out] Hi (-> & Hw). rewrite Hx by lia. cbn [mbind option_bind].
    apply wp_bind, (wp_wrote_snoc _ 0 i ap15_out _ _ _ Hw); [simpl; lia|done|].
    intros out' Hw'. apply wp_ret. by split.
  - intros [s out] (-> & Hw). apply wp_ret. by split.
Qed.
End allpass15.

Section split.
Context (u l : Z) (x : nat → Z).
#[local] Abbreviation up := (ap15_out kAllPassCoefsQ15_0 u (Resample48.evens x)).
#[local] Abbreviation lo := (ap15_out kAllPassCoefsQ15_1 l (Resample48.odds x)).
Definition split_hp (i : nat) : Z := s16 (up i -i lo i).
Definition split_lp (i : nat) : Z := s16 (lo i +i up i).
Definition split_u (n : nat) : Z := ap15_final kAllPassCoefsQ15_0 u (Resample48.evens x) n.
Definition split_l (n : nat) : Z := ap15_final kAllPassCoefsQ15_1 l (Resample48.odds x) n.

Lemma SplitFilter_spec data_in len hp lp :
  let n := (len / 2)%nat in
  Resample48.holds data_in 0 (2 * n) x → (n ≤ length hp)%nat → (n ≤ length lp)%nat →
  wp (SplitFilter data_in len u l hp lp) (λ '(u', l', hp', lp'),
    u' = split_u n ∧ l' = split_l n ∧ wrote hp 0 n split_hp hp' ∧ wrote lp 0 n split_lp lp').
Proof.
  intros n Hx Hh Hl. unfold SplitFilter. fold n. apply wp_bind.
  wp_call (apply (AllPassFilter_spec _ _ (Resample48.evens x)); [|done]).
  { intros i Hi. apply (Hx (2 * i)%nat). lia. }
  intros [u' h1] (-> & W1). apply wp_bind.
  wp_call (apply (AllPassFilter_spec _ _ (Resample48.odds x)); [|done]).
  { intros i Hi. replace (1 + 2 * i)%nat with (0 + (2 * i + 1))%nat by lia. apply Hx. lia. }
  intros [l' l1] (-> & W2). apply wp_bind.
  apply (wp_for (λ i '(h, l), wrote h1 0 i split_hp h ∧ wrote l1 0 i split_lp l)).
  - split; apply wrote_nil.
  - intros i [h2 l2] Hi [V1 V2]. pose proof (wrote_length _ _ _ _ _ W1).
    pose proof (wrote_length _ _ _ _ _ W2).
    pose proof (proj2 (proj2 V1) i) as U1. pose proof (proj2 (proj2 V2) i) as U2.
    pose proof (proj1 (proj2 W1) i) as X1. pose proof (proj1 (proj2 W2) i) as X2.
    rewrite Nat.add_0_l in X1, X2. rewrite U1, X1, U2, X2 by lia. cbn [mbind option_bind].
    apply wp_bind, (wp_wrote_snoc h1 0 i split_hp); [done|simpl; lia|done|]. intros h3 V3.
    apply wp_bind, (wp_wrote_snoc l1 0 i split_lp); [done|simpl; lia|done|]. intros l3 V4.
    apply wp_ret. by split.
  - intros [h2 l2] [V1 V2]. apply wp_ret. split_and!; [done..| |].
    + eapply wrote_over; done.
    + eapply wrote_over; done.
Qed.
End split.

(** ** Logarithm of the energy *)

(** Only the first [len] samples count. *)
Lemma Energy_take vec len : (len ≤ length vec)%nat →
  WebRtcSpl_Energy vec len = WebRtcSpl_Energy (take len vec) len.
Proof.
  intros Hl. unfold WebRtcSpl_Energy, WebRtcSpl_GetScalingSquare, scaling_max.
  assert (∀ i, (i < len)%nat → vec !! i = take len vec !! i) as E
    by (intros; by rewrite lookup_take_lt).
  rewrite (for_loop_ext len 0 _ (λ i smax, x ← take len vec !! i;
    let sabs := s16 (if 0 <? x then x else -i x) in
    Some (if smax <? sabs then sabs else smax))) by (intros; by rewrite E by lia).
  destruct (for_loop _ _ _ _) as [smax|]; [|done]. cbn [mbind option_bind].
  set (sc := if smax =? 0 then 0 else _).
  rewrite (for_loop_ext len 0 _ (λ i en, x ← take len vec !! i;
    sq ← shr32 (x *i x) sc; Some (en +i sq))) by (intros; by rewrite E by lia).
  done.
Qed.

Lemma LogOfEnergy_take vec len off tot : (len ≤ length vec)%nat →
  LogOfEnergy vec len off tot = LogOfEnergy (take len vec) len off tot.
Proof. intros. unfold LogOfEnergy. by rewrite Energy_take by done. Qed.

(** A non-zero 32-bit energy [e], scaled down by 2^[sc], normalised to fifteen
    bits: the mantissa, the exponent and the logarithm in Q4. *)
Definition mantissa (e : Z) : Z :=
  let n := Z.log2 e in if n <? 14 then e * 2 ^ (14 - n) else e / 2 ^ (n - 14).
Definition exponent_of (e sc : Z) : Z := sc + (Z.log2 e - 14).
Definition log_q4 (e sc : Z) : Z :=
  Z.max 0 (kLogConst * (kLogEnergyIntPart + (mantissa e - 16384) / 16) / 524288 +
           exponent_of e sc * kLogConst / 512).
(** The indicator of the frame energy. *)
Definition total_of (e sc total : Z) : Z :=
  if total <=? kMinEnergy then
    if 0 <=? exponent_of e sc then total + (kMinEnergy + 1) else total + e * 2 ^ sc
  else total.

Lemma mantissa_bounds e : 0 < e < 4294967296 → 16384 ≤ mantissa e < 32768.
Proof.
  intros He. pose proof (Z.log2_spec e ltac:(lia)) as [H1 H2].
  pose proof (Z.log2_nonneg e). unfold mantissa. set (n := Z.log2 e) in *.
  destruct (Z.ltb_spec n 14).
  - assert (2 ^ n * 2 ^ (14 - n) = 16384) as E
      by (rewrite <- Z.pow_add_r by lia; by replace (n + (14 - n)) with 14 by lia).
    rewrite Z.pow_succ_r in H2 by lia.
    assert (0 < 2 ^ (14 - n)) by (apply Z.pow_pos_nonneg; lia). nia.
  - assert (2 ^ n = 16384 * 2 ^ (n - 14)) as E.
    { change 16384 with (2 ^ 14). rewrite <- Z.pow_add_r by lia. f_equal. lia. }
    rewrite Z.pow_succ_r in H2 by lia.
    assert (0 < 2 ^ (n - 14)) by (apply Z.pow_pos_nonneg; lia). split.
    + apply Z.div_le_lower_bound; lia.
    + apply Z.div_lt_upper_bound; lia.
Qed.

Lemma land_3fff m : 16384 ≤ m < 32768 → Z.land m 0x3FFF = m - 16384.
Proof.
  intros Hm. change 0x3FFF with (Z.ones 14). rewrite Z.land_ones by lia. change (2 ^ 14) with 16384.
  symmetry. apply (Z.mod_unique m 16384 1); lia.
Qed.

Lemma normalize_eq e : 0 < e < 4294967296 →
  let normalizing_rshifts := 17 -i WebRtcSpl_NormU32 e in
  normalizing_rshifts = Z.log2 e - 14 ∧
  (if normalizing_rshifts <? 0 then shlu32 e (-i normalizing_rshifts)
   else shr32 e normalizing_rshifts) = Some (mantissa e).
Proof.
  intros He. pose proof (Z.log2_nonneg e). pose proof (log2_small e 32 ltac:(lia)).
  assert (17 -i WebRtcSpl_NormU32 e = Z.log2 e - 14) as E.
  { unfold WebRtcSpl_NormU32. rewrite (proj2 (Z.eqb_neq e 0)), clz32_log2 by lia.
    rewrite s16_id, s32_id by (unfold int16, int32; lia). lia. }
  cbv zeta. rewrite E. split; [done|]. pose proof (mantissa_bounds e He) as Hm.
  unfold mantissa in *. set (n := Z.log2 e) in *.
  destruct (Z.ltb_spec (n - 14) 0), (Z.ltb_spec n 14); try lia.
  - rewrite s32_id by (unfold int32; lia). unfold shlu32.
    rewrite (proj2 (Z.leb_le 0 (- (n - 14)))), (proj2 (Z.ltb_lt (- (n - 14)) 32)) by lia. simpl.
    rewrite Z.shiftl_mul_pow2 by lia. replace (- (n - 14)) with (14 - n) by lia.
    by rewrite u32_id by (unfold uint32; lia).
  - unfold shr32. rewrite (proj2 (Z.leb_le 0 (n - 14))), (proj2 (Z.ltb_lt (n - 14) 32)) by lia.
    simpl. by rewrite Z.shiftr_div_pow2 by lia.
Qed.

Lemma log_q4_eq e sc : 0 < e < 4294967296 → 0 ≤ sc ≤ 31 →
  let log2_energy := s16 (kLogEnergyIntPart +i s16 (Z.land (mantissa e) 0x3FFF >>i 4)) in
  let log_energy := s16 ((kLogConst *i log2_energy >>i 19) +i
                         (exponent_of e sc *i kLogConst >>i 9)) in
  (if log_energy <? 0 then 0 else log_energy) = log_q4 e sc ∧
  0 ≤ log_q4 e sc ≤ 722 + Z.max 0 (exponent_of e sc * kLogConst / 512).
Proof.
  intros He Hsc. cbv zeta. pose proof (mantissa_bounds e He) as Hm. rewrite land_3fff by done.
  pose proof (Z.log2_nonneg e). pose proof (log2_small e 32 ltac:(lia)).
  assert (-14 ≤ exponent_of e sc ≤ 48) by (unfold exponent_of; lia).
  unfold log_q4, kLogEnergyIntPart, kLogConst in *.
  set (x := exponent_of e sc) in *. set (m := mantissa e) in *. shift_const.
  assert (0 ≤ (m - 16384) / 16 ≤ 1023) by clia. set (f := (m - 16384) / 16) in *.
  rewrite (s16_id f) by (unfold int16; lia). rewrite (s32_id (14336 + f)) by (unfold int32; lia).
  rewrite (s16_id (14336 + f)) by (unfold int16; lia).
  rewrite (s32_id (24660 * (14336 + f))), (s32_id (x * 24660)) by (unfold int32; lia).
  assert (674 ≤ 24660 * (14336 + f) / 524288 ≤ 722) by clia.
  assert (-675 ≤ x * 24660 / 512 ≤ 2311) by clia.
  rewrite s32_id, s16_id by (unfold int16, int32; lia).
  destruct (Z.ltb_spec (24660 * (14336 + f) / 524288 + x * 24660 / 512) 0); lia.
Qed.

Lemma total_eq e sc total : 0 < e < 4294967296 → 0 ≤ sc ≤ 31 → 0 ≤ total ≤ 16393 →
  let tot_rshifts := exponent_of e sc in
  (if total <=? kMinEnergy then
     if 0 <=? tot_rshifts then Some (s16 (total +i (kMinEnergy +i 1)))
     else x ← shr32 (mantissa e) (-i tot_rshifts); Some (s16 (total +i s16 x))
   else Some total) = Some (total_of e sc total) ∧ total ≤ total_of e sc total ≤ 16393.
Proof.
  intros He Hsc Ht. cbv zeta. pose proof (mantissa_bounds e He) as Hm.
  pose proof (Z.log2_nonneg e). pose proof (log2_small e 32 ltac:(lia)).
  unfold total_of, kMinEnergy in *. destruct (Z.leb_spec total 10); [|split; [done|lia]].
  destruct (Z.leb_spec 0 (exponent_of e sc)) as [Hx|Hx].
  { rewrite (s32_id (10 + 1)), s32_id, s16_id by (unfold int16, int32; lia). split; [done|lia]. }
  unfold exponent_of in *. set (n := Z.log2 e) in *.
  rewrite (s32_id (- _)) by (unfold int32; lia). unfold shr32.
  rewrite (proj2 (Z.leb_le 0 _)), (proj2 (Z.ltb_lt _ 32)) by lia. simpl.
  assert (Z.shiftr (mantissa e) (- (sc + (n - 14))) = e * 2 ^ sc) as E.
  { rewrite Z.shiftr_div_pow2 by lia. unfold mantissa. fold n.
    rewrite (proj2 (Z.ltb_lt n 14)) by lia.
    replace (14 - n) with (sc + - (sc + (n - 14))) by lia.
    rewrite Z.pow_add_r, Z.mul_assoc by lia. apply Z.div_mul.
    apply Z.pow_nonzero; lia. }
  assert (0 ≤ e * 2 ^ sc ≤ 16383) as Hb.
  { split; [apply Z.mul_nonneg_nonneg; lia|].
    pose proof (Z.log2_spec e ltac:(lia)) as [_ H2]. fold n in H2.
    assert (e * 2 ^ sc < 2 ^ Z.succ n * 2 ^ sc)
      by (apply Z.mul_lt_mono_pos_r; [apply Z.pow_pos_nonneg|]; lia).
    rewrite <- Z.pow_add_r in H3 by lia.
    assert (2 ^ (Z.succ n + sc) ≤ 2 ^ 14) by (apply Z.pow_le_mono_r; lia). lia. }
  rewrite E, (s16_id (e * _)), s32_id, s16_id by (unfold int16, int32; lia). split; [done|lia].
Qed.

(** The whole function on the energy and scaling the energy routine returns. *)
Lemma LogOfEnergy_eq data len off total en sc :
  (0 < len)%nat → WebRtcSpl_Energy data len = Some (en, sc) → 0 ≤ sc ≤ 31 →
  0 ≤ off ≤ 368 → 0 ≤ total ≤ 16393 →
  LogOfEnergy data len off total =
    Some (if u32 en =? 0 then (total, off)
          else (total_of (u32 en) sc total, log_q4 (u32 en) sc + off)).
Proof.
  intros Hl He Hsc Ho Ht. unfold LogOfEnergy. rewrite (proj2 (Nat.ltb_lt _ _)) by done.
  cbn [dcheck mbind option_bind]. rewrite He. cbn [mbind option_bind].
  pose proof (u32_range en) as Hr. set (e := u32 en) in *. unfold uint32 in Hr.
  destruct (Z.eqb_spec e 0) as [->|Hne]; cbn [negb]; [done|].
  destruct (normalize_eq e ltac:(lia)) as [En Em]. cbv zeta in En, Em |- *.
  rewrite Em. cbn [mbind option_bind]. rewrite En.
  pose proof (Z.log2_nonneg e). pose proof (log2_small e 32 ltac:(lia)).
  rewrite (s32_id (sc + _)) by (unfold int32; lia). fold (exponent_of e sc).
  destruct (log_q4_eq e sc ltac:(lia) Hsc) as [El Eb]. cbv zeta in El.
  destruct (total_eq e sc total ltac:(lia) Hsc Ht) as [Et _]. cbv zeta in Et.
  rewrite El, Et. cbn [mbind option_bind].
  assert (exponent_of e sc * kLogConst / 512 ≤ 2311)
    by (unfold exponent_of, kLogConst; clia).
  by rewrite s32_id, s16_id by (unfold int16, int32; lia).
Qed.

Lemma LogOfEnergy_bounds data len off total :
  Forall int16 data → (0 < len ≤ length data)%nat → (len ≤ 60)%nat →
  0 ≤ off ≤ 368 → 0 ≤ total ≤ 16393 →
  wp (LogOfEnergy data len off total) (λ '(total', f),
    total ≤ total' ≤ 16393 ∧
    off ≤ f ≤ off + 722 + (Z.log2 (Z.of_nat len) + 17) * kLogConst / 512).
Proof.
  intros Hd Hl H60 Ho Ht. assert (Z.log2 (Z.of_nat len) ≤ 5) as Hlog.
  { apply Z.lt_succ_r, Z.log2_lt_pow2; [lia|]. change (2 ^ Z.succ 5) with 64. lia. }
  pose proof (Z.log2_nonneg (Z.of_nat len)).
  pose proof (Energy_safe data len Hd Hl ltac:(lia)) as HE.
  apply wp_exists in HE as ([en sc] & HE & _ & Hsc).
  rewrite (LogOfEnergy_eq data len off total en sc) by (done || lia). apply wp_ret.
  pose proof (u32_range en) as Hr. unfold uint32 in Hr. set (e := u32 en) in *.
  assert (0 ≤ (Z.log2 (Z.of_nat len) + 17) * kLogConst / 512)
    by (apply Z.div_pos; unfold kLogConst; lia).
  destruct (Z.eqb_spec e 0); [lia|].
  destruct (log_q4_eq e sc ltac:(lia) ltac:(lia)) as [_ Hq].
  destruct (total_eq e sc total ltac:(lia) ltac:(lia) Ht) as [_ Htt]. split; [lia|].
  pose proof (log2_small e 32 ltac:(lia)) as H32.
  assert (exponent_of e sc * kLogConst / 512 ≤ (Z.log2 (Z.of_nat len) + 17) * kLogConst / 512).
  { apply Z.div_le_mono; [lia|]. unfold exponent_of, kLogConst. lia. }
  lia.
Qed.

(** ** The high-pass filter *)

Definition hp_quad : Type := Z * Z * Z * Z.
Definition hp_list (q : hp_quad) : list Z := let '(a, b, c, d) := q in [a; b; c; d].

Definition hp_step (q : hp_quad) (x : Z) : hp_quad :=
  let '(f0, f1, f2, f3) := q in
  let y := s16 (((((6631 *i x) +i -13262 *i f0) +i 6631 *i f1) -i -7756 *i f2) -i 5620 *i f3
                >>i 14) in
  (x, f0, y, f2).
Fixpoint hp_run (q : hp_quad) (x : nat → Z) (n : nat) : hp_quad :=
  match n with O => q | S n => hp_step (hp_run q x n) (x n) end.
Definition hp_out (q : hp_quad) (x : nat → Z) (n : nat) : Z := (hp_run q x (S n)).1.2.

Lemma HighPassFilter_spec data_in n q out x :
  Resample48.holds data_in 0 n x → (n ≤ length out)%nat →
  wp (HighPassFilter data_in n (hp_list q) out) (λ '(fs, out'),
    fs = hp_list (hp_run q x n) ∧ wrote out 0 n (hp_out q x) out').
Proof.
  intros Hx Hl. change (∀ i, (i < n)%nat → data_in !! i = Some (x i)) in Hx.
  unfold HighPassFilter, kHpZeroCoefs, kHpPoleCoefs.
  apply (wp_for (λ i '(fs, o), fs = hp_list (hp_run q x i) ∧ wrote out 0 i (hp_out q x) o)).
  - split; [done|apply wrote_nil].
  - intros i [fs o] Hi (-> & Hw). rewrite Hx by lia. cbn [mbind option_bind].
    assert (∃ f0 f1 f2 f3, hp_run q x i = (f0, f1, f2, f3)) as (f0 & f1 & f2 & f3 & E)
      by (destruct (hp_run q x i) as [[[??]?]?]; eauto).
    rewrite E. cbn [hp_list].
    do 2 (apply wp_bind, wp_lookup; [simpl; lia|]; intros ? [= <-]). cbv zeta.
    do 2 (apply wp_bind, wp_wr; [simpl; lia|]).
    do 2 (apply wp_bind, wp_lookup; [simpl; lia|]; intros ? [= <-]).
    do 2 (apply wp_bind, wp_wr; [simpl; lia|]).
    apply wp_bind, (wp_wrote_snoc out 0 i (hp_out q x)); [done|simpl; lia| |].
    { unfold hp_out. cbn [hp_run]. by rewrite E. }
    intros o' Hw'. apply wp_ret. split; [|done]. cbn [hp_run]. by rewrite E.
  - intros [fs o] ?. done.
Qed.

(** ** The tree *)

Section bank.
Context (us ls : list Z) (q : hp_quad) (x : nat → Z) (n : nat).
#[local] Abbreviation u k := (us !!! k%nat).
#[local] Abbreviation l k := (ls !!! k%nat).
#[local] Abbreviation h := (n / 2)%nat.

Definition b_hp1 : nat → Z := split_hp (u 0) (l 0) x.
Definition b_lp1 : nat → Z := split_lp (u 0) (l 0) x.
Definition b_hp2 : nat → Z := split_hp (u 1) (l 1) b_hp1.
Definition b_lp2 : nat → Z := split_lp (u 1) (l 1) b_hp1.
Definition b_hp3 : nat → Z := split_hp (u 2) (l 2) b_lp1.
Definition b_lp3 : nat → Z := split_lp (u 2) (l 2) b_lp1.
Definition b_hp4 : nat → Z := split_hp (u 3) (l 3) b_lp3.
Definition b_lp4 : nat → Z := split_lp (u 3) (l 3) b_lp3.
Definition b_hp5 : nat → Z := split_hp (u 4) (l 4) b_lp4.
Definition b_lp5 : nat → Z := split_lp (u 4) (l 4) b_lp4.
Definition b_hpf : nat → Z := hp_out q b_lp5.

(** Band [c]: its signal and its number of samples. *)
Definition band (c : nat) : (nat → Z) * nat :=
  match c with
  | 0%nat => (b_hpf, (h / 2 / 2 / 2)%nat)
  | 1%nat => (b_hp5, (h / 2 / 2 / 2)%nat)
  | 2%nat => (b_hp4, (h / 2 / 2)%nat)
  | 3%nat => (b_hp3, (h / 2)%nat)
  | 4%nat => (b_lp2, (h / 2)%nat)
  | _ => (b_hp2, (h / 2)%nat)
  end.
Definition band_list (c : nat) : list Z := map (band c).1 (seq 0 (band c).2).

(** The features from the top band down. *)
Definition band_feature (c : nat) (s : Z * list Z) : option (Z * list Z) :=
  band_energy (band_list c) (band c).2 c s.
Definition features_of (features : list Z) : option (Z * list Z) :=
  s ← band_feature 5 (0, features);
  s ← band_feature 4 s;
  s ← band_feature 3 s;
  s ← band_feature 2 s;
  s ← band_feature 1 s;
  band_feature 0 s.

Definition us_next : list Z :=
  <[4%nat := split_u (u 4) b_lp4 (h / 2 / 2 / 2)]>
  (<[3%nat := split_u (u 3) b_lp3 (h / 2 / 2)]>
  (<[2%nat := split_u (u 2) b_lp1 (h / 2)]>
  (<[1%nat := split_u (u 1) b_hp1 (h / 2)]>
  (<[0%nat := split_u (u 0) x h]> us)))).
Definition ls_next : list Z :=
  <[4%nat := split_l (l 4) b_lp4 (h / 2 / 2 / 2)]>
  (<[3%nat := split_l (l 3) b_lp3 (h / 2 / 2)]>
  (<[2%nat := split_l (l 2) b_lp1 (h / 2)]>
  (<[1%nat := split_l (l 1) b_hp1 (h / 2)]>
  (<[0%nat := split_l (l 0) x h]> ls)))).
End bank.

Lemma band_energy_wrote m n f m' c s : wrote m 0 n f m' → (n ≤ length m)%nat →
  band_energy m' n c s = band_energy (map f (seq 0 n)) n c s.
Proof.
  intros Hw Hn. destruct s as [t fs]. unfold band_energy.
  destruct (kOffsetVector !! c); [|done]. cbn [mbind option_bind].
  rewrite (LogOfEnergy_take m') by (by rewrite (wrote_length _ _ _ _ _ Hw)).
  by rewrite <- (wrote_take m 0 n f m' Hn Hw), drop_0.
Qed.

Lemma band_energy_band us ls q x n m m' c k s :
  k = (band us ls q x n c).2 → wrote m 0 k (band us ls q x n c).1 m' → (k ≤ length m)%nat →
  band_energy m' k c s = band_feature us ls q x n c s.
Proof. intros -> Hw Hk. by apply (band_energy_wrote m). Qed.

Lemma band_split_spec data len k hp lp us ls u l x :
  us !! k = Some u → ls !! k = Some l →
  Resample48.holds data 0 (2 * (len / 2)) x → (len / 2 ≤ length hp)%nat →
  (len / 2 ≤ length lp)%nat →
  ∃ hp' lp', band_split data len k hp lp (us, ls) =
    Some (hp', lp', (<[k := split_u u x (len / 2)]> us, <[k := split_l l x (len / 2)]> ls)) ∧
    wrote hp 0 (len / 2) (split_hp u l x) hp' ∧ wrote lp 0 (len / 2) (split_lp u l x) lp'.
Proof.
  intros Hu Hl Hx Hh Hp. unfold band_split. rewrite Hu, Hl. cbn [mbind option_bind].
  pose proof (SplitFilter_spec u l x data len hp lp Hx Hh Hp) as H.
  apply wp_exists in H as ([[[u' l'] hp'] lp'] & E & -> & -> & W1 & W2).
  rewrite E. cbn [mbind option_bind]. apply lookup_lt_Some in Hu, Hl.
  unfold wr. rewrite !decide_True by done. cbn [mbind option_bind]. by exists hp', lp'.
Qed.

Lemma wrote_holds0 m n f m' k :
  wrote m 0 n f m' → (k ≤ n)%nat → Resample48.holds m' 0 k f.
Proof. intros (_ & H & _) Hk i Hi. apply H. lia. Qed.

Lemma double_half (n : nat) : (2 * (n / 2) ≤ n)%nat.
Proof. apply Nat.Div0.mul_div_le. Qed.

(** The scratch buffers have their declared sizes. *)
Definition junk_ok (junk : junk4) : Prop :=
  let '(a, b, c, d) := junk in
  length a = 120%nat ∧ length b = 120%nat ∧ length c = 60%nat ∧ length d = 60%nat.

Definition filters_wf (self : VadInstT) : Prop :=
  length (upper_state self) = 5%nat ∧ length (lower_state self) = 5%nat ∧
  length (hp_filter_state self) = 4%nat.

Lemma hp_list_exists (fs : list Z) : length fs = 4%nat → ∃ q, fs = hp_list q.
Proof.
  intros. destruct fs as [|a [|b [|c [|d [|]]]]]; simplify_eq/=. by exists (a, b, c, d).
Qed.

Lemma CalculateFeatures_eq junk self data n features q x :
  junk_ok junk → length (upper_state self) = 5%nat → length (lower_state self) = 5%nat →
  hp_filter_state self = hp_list q → (n ≤ 240)%nat → Resample48.holds data 0 n x →
  let us := upper_state self in
  let ls := lower_state self in
  WebRtcVad_CalculateFeatures junk self data n features =
    ('(total, features) ← features_of us ls q x n features;
     Some (total, set_filters self (us_next us ls x n) (ls_next us ls x n)
                    (hp_list (hp_run q (b_lp5 us ls x) (n / 2 / 2 / 2 / 2))), features)).
Proof.
  destruct junk as [[[hp120 lp120] hp60] lp60]. intros (J1 & J2 & J3 & J4) Hu Hl Hq Hn Hx us ls.
  assert (∀ k, (k < 5)%nat → us !! k = Some (us !!! k)) as Gu
    by (intros; apply lookup_total_Some; unfold us; lia).
  assert (∀ k, (k < 5)%nat → ls !! k = Some (ls !!! k)) as Gl
    by (intros; apply lookup_total_Some; unfold ls; lia).
  pose proof (double_half n). pose proof (double_half (n / 2)).
  pose proof (double_half (n / 2 / 2)). pose proof (double_half (n / 2 / 2 / 2)).
  unfold WebRtcVad_CalculateFeatures. rewrite (proj2 (Nat.leb_le _ _)) by done.
  cbn [dcheck mbind option_bind Nat.ltb Nat.leb kNumChannels Nat.sub]. cbv zeta.
  fold us ls.
  destruct (band_split_spec data n 0 hp120 lp120 us ls (us !!! 0%nat) (ls !!! 0%nat) x)
    as (h1 & l1 & -> & W1 & V1); [apply Gu; lia|apply Gl; lia| |lia|lia|].
  { intros i Hi. apply Hx. lia. }
  cbn [mbind option_bind].
  destruct (band_split_spec h1 (n / 2) 1 hp60 lp60 (<[0%nat:=split_u (us !!! 0%nat) x (n / 2)]> us)
    (<[0%nat:=split_l (ls !!! 0%nat) x (n / 2)]> ls) (us !!! 1%nat) (ls !!! 1%nat)
    (b_hp1 us ls x)) as (h2 & l2 & -> & W2 & V2);
    [rewrite list_lookup_insert_ne by lia; apply Gu; lia
    |rewrite list_lookup_insert_ne by lia; apply Gl; lia
    |by apply (wrote_holds0 _ _ _ _ _ W1)|lia|lia|].
  cbn [mbind option_bind].
  unfold features_of.
  rewrite (band_energy_band us ls q x n _ h2 5 (n / 2 / 2) _ eq_refl W2) by lia.
  destruct (band_feature _ _ _ _ _ 5 _) as [s5|]; [|done]. cbn [mbind option_bind].
  rewrite (band_energy_band us ls q x n _ l2 4 (n / 2 / 2) _ eq_refl V2) by lia.
  destruct (band_feature _ _ _ _ _ 4 _) as [s4|]; [|done]. cbn [mbind option_bind].
  pose proof (wrote_length _ _ _ _ _ W1). pose proof (wrote_length _ _ _ _ _ V1).
  pose proof (wrote_length _ _ _ _ _ W2). pose proof (wrote_length _ _ _ _ _ V2).
  edestruct (band_split_spec l1 (n / 2) 2 h2 l2) as (h3 & l3 & -> & W3 & V3);
    [rewrite !list_lookup_insert_ne by lia; apply Gu; lia
    |rewrite !list_lookup_insert_ne by lia; apply Gl; lia
    |by apply (wrote_holds0 _ _ _ _ _ V1)|lia|lia|].
  cbn [mbind option_bind]. fold (b_lp1 us ls x) in W3, V3 |- *.
  rewrite (band_energy_band us ls q x n _ h3 3 (n / 2 / 2) _ eq_refl W3) by lia.
  destruct (band_feature _ _ _ _ _ 3 _) as [s3|]; [|done]. cbn [mbind option_bind].
  edestruct (band_split_spec l3 (n / 2 / 2) 3 h1 l1) as (h4 & l4 & -> & W4 & V4);
    [rewrite !list_lookup_insert_ne by lia; apply Gu; lia
    |rewrite !list_lookup_insert_ne by lia; apply Gl; lia
    |by apply (wrote_holds0 _ _ _ _ _ V3)|lia|lia|].
  cbn [mbind option_bind]. fold (b_lp3 us ls x) in W4, V4 |- *.
  rewrite (band_energy_band us ls q x n _ h4 2 (n / 2 / 2 / 2) _ eq_refl W4) by lia.
  destruct (band_feature _ _ _ _ _ 2 _) as [s2|]; [|done]. cbn [mbind option_bind].
  pose proof (wrote_length _ _ _ _ _ W3). pose proof (wrote_length _ _ _ _ _ V3).
  pose proof (wrote_length _ _ _ _ _ W4).
  edestruct (band_split_spec l4 (n / 2 / 2 / 2) 4 h3 l3) as (h5 & l5 & -> & W5 & V5);
    [rewrite !list_lookup_insert_ne by lia; apply Gu; lia
    |rewrite !list_lookup_insert_ne by lia; apply Gl; lia
    |by apply (wrote_holds0 _ _ _ _ _ V4)|lia|lia|].
  cbn [mbind option_bind]. fold (b_lp4 us ls x) in W5, V5 |- *.
  rewrite (band_energy_band us ls q x n _ h5 1 (n / 2 / 2 / 2 / 2) _ eq_refl W5) by lia.
  destruct (band_feature _ _ _ _ _ 1 _) as [s1|]; [|done]. cbn [mbind option_bind].
  rewrite Hq. fold (b_lp5 us ls x) in V5.
  pose proof (HighPassFilter_spec l5 (n / 2 / 2 / 2 / 2) q h4 (b_lp5 us ls x)) as HP.
  apply wp_exists in HP as ([fs h6] & -> & -> & W6);
    [|by apply (wrote_holds0 _ _ _ _ _ V5)|lia].
  cbn [mbind option_bind].
  by rewrite (band_energy_band us ls q x n _ h6 0 (n / 2 / 2 / 2 / 2) _ eq_refl W6) by lia.
Qed.

(** ** Bounds of the features *)

Definition feature_ok (c : nat) (v : Z) : Prop := kOffsetVector !!! c ≤ v ≤ 2053.
Definition features_ok (f : list Z) : Prop :=
  length f = 6%nat ∧ ∀ c, (c < 6)%nat → feature_ok c (f !!! c).

Section bounds.
Context (us ls : list Z) (q : hp_quad) (x : nat → Z) (n : nat).
Hypothesis Hn : (16 ≤ n ≤ 240)%nat.

Lemma band_int16 c : Forall int16 (band_list us ls q x n c).
Proof using.
  unfold band_list. apply Forall_fmap, Forall_forall. intros i _.
  unfold compose.
  destruct c as [|[|[|[|[|c]]]]]; try apply s16_range.
  simpl. unfold b_hpf, hp_out. cbn [hp_run].
  destruct (hp_run q (b_lp5 us ls x) i) as [[[??]?]?]. apply s16_range.
Qed.

Lemma band_length c : (c < 6)%nat → (1 ≤ (band us ls q x n c).2 ≤ 60)%nat ∧
  kOffsetVector !!! c + 722 +
    (Z.log2 (Z.of_nat (band us ls q x n c).2) + 17) * kLogConst / 512 ≤ 2053.
Proof using Hn.
  intros Hc.
  assert (n / 2 / 2 = n / 4 ∧ n / 2 / 2 / 2 = n / 8 ∧ n / 2 / 2 / 2 / 2 = n / 16)%nat
    as (E4 & E8 & E16) by (by rewrite !Nat.Div0.div_div).
  assert (∀ k b m, (n / k ≤ m)%nat → (1 ≤ n / k)%nat → Z.of_nat m < 2 ^ b → 0 ≤ b →
    Z.log2 (Z.of_nat (n / k)) ≤ b - 1) as Hlog.
  { intros k b m H1 H2 H3 H4. apply Z.lt_le_pred, Z.log2_lt_pow2; lia. }
  assert (1 ≤ n / 16 ≤ 15)%nat as [L16 U16].
  { split; [apply Nat.div_le_lower_bound; lia|]. apply Nat.Div0.div_le_upper_bound; lia. }
  assert (1 ≤ n / 8 ≤ 30)%nat as [L8 U8].
  { split; [apply Nat.div_le_lower_bound; lia|]. apply Nat.Div0.div_le_upper_bound; lia. }
  assert (1 ≤ n / 4 ≤ 60)%nat as [L4 U4].
  { split; [apply Nat.div_le_lower_bound; lia|]. apply Nat.Div0.div_le_upper_bound; lia. }
  pose proof (Hlog 16%nat 4 15%nat U16 L16 ltac:(lia) ltac:(lia)).
  pose proof (Hlog 8%nat 5 30%nat U8 L8 ltac:(lia) ltac:(lia)).
  pose proof (Hlog 4%nat 6 60%nat U4 L4 ltac:(lia) ltac:(lia)). unfold kLogConst.
  do 6 (destruct c as [|c];
    [cbn [band snd]; rewrite ?E16, ?E8, ?E4; (split; [lia|]);
     change (kOffsetVector !!! _) with 368 || change (kOffsetVector !!! _) with 272 ||
     change (kOffsetVector !!! _) with 176; clia|]). lia.
Qed.

Lemma band_feature_spec c t f : (c < 6)%nat → 0 ≤ t ≤ 16393 → length f = 6%nat →
  wp (band_feature us ls q x n c (t, f)) (λ '(t', f'),
    0 ≤ t' ≤ 16393 ∧ ∃ v, f' = <[c := v]> f ∧ feature_ok c v).
Proof using Hn.
  intros Hc Ht Hf. destruct (band_length c Hc) as [Hl Hb].
  unfold band_feature, band_energy.
  rewrite (lookup_total_Some kOffsetVector c) by (simpl; lia). cbn [mbind option_bind].
  apply wp_bind. wp_call (apply LogOfEnergy_bounds; [apply band_int16| |lia| |done]).
  { unfold band_list. rewrite length_map, length_seq. lia. }
  { do 6 (destruct c as [|c]; [vm_compute; by split|]). lia. }
  intros [t' v] [Ht' Hv]. apply wp_bind, wp_wr; [lia|]. apply wp_ret.
  split; [lia|]. exists v. split; [done|]. unfold feature_ok. lia.
Qed.

Lemma features_of_spec f : length f = 6%nat →
  wp (features_of us ls q x n f) (λ '(t, f'), 0 ≤ t ≤ 16393 ∧ features_ok f').
Proof using Hn.
  intros Hf. unfold features_of.
  apply wp_bind. wp_call (apply band_feature_spec; [lia|lia|done]).
  intros [t5 f5] (T5 & v5 & -> & O5). apply wp_bind.
  wp_call (apply band_feature_spec; [lia|done|by rewrite length_insert]).
  intros [t4 f4] (T4 & v4 & -> & O4). apply wp_bind.
  wp_call (apply band_feature_spec; [lia|done|by rewrite !length_insert]).
  intros [t3 f3] (T3 & v3 & -> & O3). apply wp_bind.
  wp_call (apply band_feature_spec; [lia|done|by rewrite !length_insert]).
  intros [t2 f2] (T2 & v2 & -> & O2). apply wp_bind.
  wp_call (apply band_feature_spec; [lia|done|by rewrite !length_insert]).
  intros [t1 f1] (T1 & v1 & -> & O1).
  wp_call (apply band_feature_spec; [lia|done|by rewrite !length_insert]).
  intros [t0 f0] (T0 & v0 & -> & O0). split; [done|].
  destruct f as [|a0 [|a1 [|a2 [|a3 [|a4 [|a5 [|]]]]]]]; simplify_eq/=.
  split; [done|]. intros c Hc. do 6 (destruct c as [|c]; [done|]). lia.
Qed.
End bounds.

(** What the detector uses of the filter bank. *)
Lemma CalculateFeatures_safe junk self data n features :
  junk_ok junk → filters_wf self → length features = 6%nat →
  (16 ≤ n ≤ 240)%nat → (n ≤ length data)%nat →
  wp (WebRtcVad_CalculateFeatures junk self data n features) (λ '(t, self', f),
    0 ≤ t ≤ 16393 ∧ features_ok f ∧ filters_wf self' ∧
    ∃ us ls hp, self' = set_filters self us ls hp).
Proof.
  intros Hj (Hu & Hl & Hh) Hf Hn Hd. destruct (hp_list_exists _ Hh) as [q Hq].
  rewrite (CalculateFeatures_eq junk self data n features q (λ i, data !!! i)); try done; [|lia|].
  - apply wp_bind. wp_call (by apply features_of_spec). intros [t f] [Ht Hok].
    apply wp_ret. split_and!; [lia|lia|done| |by eexists _, _, _].
    split_and!; cbn [upper_state lower_state hp_filter_state set_filters].
    + unfold us_next. by rewrite !length_insert.
    + unfold ls_next. by rewrite !length_insert.
    + by destruct (hp_run _ _ _) as [[[??]?]?].
  - intros i Hi. apply lookup_total_Some. lia.
Qed.

(** ** Claims *)

(** The logarithm of the energy of a band. With [e] the unsigned 32-bit
    energy and [sc] its scaling, the function returns the offset when the energy
    is zero; otherwise no intermediate wraps, both variable shifts are defined,
    the feature is 160*log10(2) times the piecewise linear binary logarithm of
    [e]*2^[sc] in Q4, cut at zero, plus the offset, and the frame indicator, while
    it has not exceeded kMinEnergy, grows by 11 when the energy has at least
    fifteen bits and by the exact energy otherwise. *)
Theorem LogOfEnergy_correct (data : list Z) (len : nat) (off total en sc : Z) :
  (0 < len)%nat → WebRtcSpl_Energy data len = Some (en, sc) → 0 ≤ sc ≤ 31 →
  0 ≤ off ≤ 368 → 0 ≤ total ≤ 16393 →
  LogOfEnergy data len off total =
    Some (if u32 en =? 0 then (total, off)
          else (total_of (u32 en) sc total, log_q4 (u32 en) sc + off)).
Proof. apply LogOfEnergy_eq. Qed.

Lemma LogOfEnergy_correct_witness :
  LogOfEnergy [3; -2; 1; 0] 4 368 5 =
    Some (if u32 14 =? 0 then (5, 368)
          else (total_of (u32 14) 0 5, log_q4 (u32 14) 0 + 368)).
Proof. apply (LogOfEnergy_correct [3; -2; 1; 0] 4 368 5 14 0); (reflexivity || lia). Defined.

(** The filter bank computes a tree of filters. For any content of its
    scratch buffers and any frame of up to 240 samples, the function computes
    the six features from the bands of the tree, each band a signal that depends
    on the input frame and the stored filter states only: reusing the four
    buffers for different levels of the tree loses nothing, and nothing
    uninitialised is read. The stored states are those of the five splits and of
    the high-pass filter at the end of the frame. *)
Theorem CalculateFeatures_tree (junk : junk4) (self : VadInstT) (data : list Z) (n : nat)
    (features : list Z) (q : hp_quad) (x : nat → Z) :
  junk_ok junk → length (upper_state self) = 5%nat → length (lower_state self) = 5%nat →
  hp_filter_state self = hp_list q → (n ≤ 240)%nat → Resample48.holds data 0 n x →
  let us := upper_state self in
  let ls := lower_state self in
  WebRtcVad_CalculateFeatures junk self data n features =
    ('(total, features) ← features_of us ls q x n features;
     Some (total, set_filters self (us_next us ls x n) (ls_next us ls x n)
                    (hp_list (hp_run q (b_lp5 us ls x) (n / 2 / 2 / 2 / 2))), features)).
Proof. apply CalculateFeatures_eq. Qed.

Definition demo_bank : VadInstT :=
  set_filters demo_instance (replicate 5 3) (replicate 5 4) [1; 2; 3; 4].

Lemma CalculateFeatures_tree_witness :
  let junk := (replicate 120 77, replicate 120 78, replicate 60 79, replicate 60 80) in
  let x := λ i : nat, 50 * Z.of_nat i in
  let us := replicate 5 3 in
  let ls := replicate 5 4 in
  WebRtcVad_CalculateFeatures junk demo_bank (map x (seq 0 80)) 80 (replicate 6 0) =
    ('(total, features) ← features_of us ls (1, 2, 3, 4) x 80 (replicate 6 0);
     Some (total, set_filters demo_bank (us_next us ls x 80) (ls_next us ls x 80)
                    (hp_list (hp_run (1, 2, 3, 4) (b_lp5 us ls x) (80 / 2 / 2 / 2 / 2))),
           features)).
Proof.
  intros junk x. apply (CalculateFeatures_tree junk demo_bank (map x (seq 0 80)) 80 _ (1, 2, 3, 4) x).
  - by split_and!.
  - reflexivity.
  - reflexivity.
  - reflexivity.
  - lia.
  - intros i Hi. rewrite Nat.add_0_l, list_lookup_fmap, lookup_seq_lt by done. reflexivity.
Defined.

(** Features are bounded. On a frame of 16 to 240 samples, for instance of
    10, 20 or 30 ms, the call makes no access or shift out of range whatever the
    samples are; every feature lies between its offset (176 to 368) and 2053, the frame
    indicator in [0, 16393], and the filter states keep their sizes. *)
Theorem CalculateFeatures_bounds (junk : junk4) (self : VadInstT) (data features : list Z)
    (n : nat) :
  junk_ok junk → filters_wf self → length features = 6%nat →
  (16 ≤ n ≤ 240)%nat → (n ≤ length data)%nat →
  wp (WebRtcVad_CalculateFeatures junk self data n features) (λ '(total, self', f),
    0 ≤ total ≤ 16393 ∧ features_ok f ∧ filters_wf self').
Proof.
  intros. wp_call (by apply CalculateFeatures_safe).
  intros [[t self'] f] (Ht & Hok & Hwf & _). exact (conj Ht (conj Hok Hwf)).
Qed.

Lemma CalculateFeatures_bounds_witness :
  let junk := (replicate 120 77, replicate 120 78, replicate 60 79, replicate 60 80) in
  wp (WebRtcVad_CalculateFeatures junk demo_bank (replicate 240 (-32768)) 240 (replicate 6 0))
     (λ '(total, self', f), 0 ≤ total ≤ 16393 ∧ features_ok f ∧ filters_wf self').
Proof.
  intros junk. apply CalculateFeatures_bounds;
    [repeat split|repeat split|reflexivity|lia|].
  rewrite length_replicate. lia.
Defined.

End VadFilterbank.
