(* ===== verification/VadCore.v ===== *)
(** * Core of the voice activity detector
    (common_audio/vad/vad_core.c)

    The two-component Gaussian mixture models of noise and speech per frequency
    band, the likelihood-ratio test on them, their adaptation, and the hangover
    that smooths the decision; initialisation, modes and the entry points for the
    four sampling rates. GmmProbability is one function of 350 lines in the
    source; here its phases are definitions of their own that GmmProbability
    composes. Local arrays without initial value are parameters ([Junk]).

    The theorems show that the model parameters keep an invariant under which no
    Gaussian evaluation leaves its range, for every input signal, so that every
    entry point runs without an access, a shift or a division out of range, and
    describe the decision: modes, hangover, and which samples it depends on. Signed
    32-bit arithmetic wraps around here, as compilers without overflow checks have it.
    The C standard leaves an overflow undefined, and the source has some: the product
    of [OverflowingMulS16ByS32ToS32], which it hides from the sanitizer, and the frame
    counter after 2^31 frames. *)

From S2P Require Import Prelude.
From S2P Require Import SplInl.
From S2P Require Import Energy.
From S2P Require Import VadGmm.
From S2P Require Import ResampleBy2.
From S2P Require Import ResampleFrac.
From S2P Require Import Resample48.
From S2P Require Import VadSp.
From S2P Require Import VadFilterbank.
Import SplInl VadGmm Resample48 VadSp VadFilterbank.

Module VadCore.

Definition kSpectrumWeight : list Z := [6; 8; 10; 12; 14; 16].
Definition kNoiseUpdateConst : Z := 655.
Definition kSpeechUpdateConst : Z := 6554.
Definition kBackEta : Z := 154.
Definition kMinimumDifference : list Z := [544; 544; 576; 576; 576; 576].
Definition kMaximumSpeech : list Z := [11392; 11392; 11520; 11520; 11520; 11520].
Definition kMinimumMean : list Z := [640; 768].
Definition kMaximumNoise : list Z := [9216; 9088; 8960; 8832; 8704; 8576].
Definition kNoiseDataWeights : list Z := [34; 62; 72; 66; 53; 25; 94; 66; 56; 62; 75; 103].
Definition kSpeechDataWeights : list Z := [48; 82; 45; 87; 50; 47; 80; 46; 83; 41; 78; 81].
Definition kNoiseDataMeans : list Z :=
  [6738; 4892; 7065; 6715; 6771; 3369; 7646; 3863; 7820; 7266; 5020; 4362].
Definition kSpeechDataMeans : list Z :=
  [8306; 10085; 10078; 11823; 11843; 6309; 9473; 9571; 10879; 7581; 8180; 7483].
Definition kNoiseDataStds : list Z :=
  [378; 1064; 493; 582; 688; 593; 474; 697; 475; 688; 421; 455].
Definition kSpeechDataStds : list Z :=
  [555; 505; 567; 524; 585; 1231; 509; 828; 492; 1540; 1079; 850].

Definition kMaxSpeechFrames : Z := 6.
Definition kMinStd : Z := 384.
Definition kDefaultMode : Z := 0.
Definition kInitCheck : Z := 42.

Definition kOverHangMax1Q : list Z := [8; 4; 3].
Definition kOverHangMax2Q : list Z := [14; 7; 5].
Definition kLocalThresholdQ : list Z := [24; 21; 24].
Definition kGlobalThresholdQ : list Z := [57; 48; 57].
Definition kOverHangMax1LBR : list Z := [8; 4; 3].
Definition kOverHangMax2LBR : list Z := [14; 7; 5].
Definition kLocalThresholdLBR : list Z := [37; 32; 37].
Definition kGlobalThresholdLBR : list Z := [100; 80; 100].
Definition kOverHangMax1AGG : list Z := [6; 3; 2].
Definition kOverHangMax2AGG : list Z := [9; 5; 3].
Definition kLocalThresholdAGG : list Z := [82; 78; 82].
Definition kGlobalThresholdAGG : list Z := [285; 260; 285].
Definition kOverHangMax1VAG : list Z := [6; 3; 2].
Definition kOverHangMax2VAG : list Z := [9; 5; 3].
Definition kLocalThresholdVAG : list Z := [94; 94; 94].
Definition kGlobalThresholdVAG : list Z := [1100; 1050; 1100].

(** Contents of the local arrays that the source does not initialise. *)
Record Junk := {
  junk_filters : junk4;     (* hp_120, lp_120, hp_60, lp_60 *)
  junk_deltaN : list Z;     (* kTableSize *)
  junk_deltaS : list Z;     (* kTableSize *)
  junk_prob : list Z * list Z; (* noise_probability, speech_probability: kNumGaussians *)
  junk_features : list Z;   (* kNumChannels *)
  junk_speech_nb : list Z;  (* 240 *)
  junk_speechWB : list Z;   (* 480 *)
}.

(** [data] and [weights] point at cell [channel] of their arrays. *)
Definition WeightedAverage (data : list Z) (channel : nat) (offset : Z) (weights : list Z)
  : option (Z * list Z) :=
  for_loop kNumGaussians 0 (λ k '(weighted_average, data),
    d ← data !! (channel + k * kNumChannels)%nat;
    data ← wr data (channel + k * kNumChannels) (s16 (d +i offset));
    d ← data !! (channel + k * kNumChannels)%nat;
    w ← weights !! (channel + k * kNumChannels)%nat;
    Some (weighted_average +i d *i w, data)) (0, data).

(** A product that is allowed to overflow: 'still undefined behavior', says the source,
    and kept so that the old code does what it has always done. The model wraps around. *)
Definition OverflowingMulS16ByS32ToS32 (a b : Z) : Z := a *i b.

(** ** GmmProbability, phase by phase *)

(** Thresholds for the frame length: overhead1, overhead2, individualTest,
    totalTest. *)
Definition frame_thresholds (self : VadInstT) (frame_length : nat) : option (Z * Z * Z * Z) :=
  let i := if (frame_length =? 80)%nat then 0%nat
           else if (frame_length =? 160)%nat then 1%nat else 2%nat in
  overhead1 ← over_hang_max_1 self !! i;
  overhead2 ← over_hang_max_2 self !! i;
  individualTest ← individual self !! i;
  totalTest ← total self !! i;
  Some (overhead1, overhead2, individualTest, totalTest).

(** Local variables that live across the channels. *)
Record Loc := {
  deltaN : list Z;
  deltaS : list Z;
  ngprvec : list Z;
  sgprvec : list Z;
  noise_probability : list Z;
  speech_probability : list Z;
  vadflag : Z;
  sum_log_likelihood_ratios : Z;
}.

(** Probabilities of the two hypotheses: [h0_test] and [h1_test]. *)
Definition hypothesis_probabilities (self : VadInstT) (feature : Z) (channel : nat) (loc : Loc)
  : option (Z * Z * Loc) :=
  for_loop kNumGaussians 0 (λ k '(h0_test, h1_test, loc),
    let gaussian := (channel + k * kNumChannels)%nat in
    nmean ← noise_means self !! gaussian;
    nstd ← noise_stds self !! gaussian;
    '(tmp1_s32, dN) ← WebRtcVad_GaussianProbability feature nmean nstd;
    dNs ← wr (deltaN loc) gaussian dN;
    nw ← kNoiseDataWeights !! gaussian;
    np ← wr (noise_probability loc) k (nw *i tmp1_s32);
    let h0_test := h0_test +i nw *i tmp1_s32 in
    smean ← speech_means self !! gaussian;
    sstd ← speech_stds self !! gaussian;
    '(tmp1_s32, dS) ← WebRtcVad_GaussianProbability feature smean sstd;
    dSs ← wr (deltaS loc) gaussian dS;
    sw ← kSpeechDataWeights !! gaussian;
    sp ← wr (speech_probability loc) k (sw *i tmp1_s32);
    let h1_test := h1_test +i sw *i tmp1_s32 in
    Some (h0_test, h1_test,
          {| deltaN := dNs; deltaS := dSs; ngprvec := ngprvec loc; sgprvec := sgprvec loc;
             noise_probability := np; speech_probability := sp; vadflag := vadflag loc;
             sum_log_likelihood_ratios := sum_log_likelihood_ratios loc |}))
    (0, 0, loc).

(** Conditional probabilities of the Gaussians in Q14; [low] is what the first
    gets when the hypothesis has a low probability, if anything. *)
Definition conditional (prob : list Z) (h_test : Z) (channel : nat) (low : option Z)
    (vec : list Z)
  : option (list Z) :=
  let h := s16 (h_test >>i 12) in
  if 0 <? h then
    p0 ← prob !! 0%nat;
    let tmp1_s32 := s32 (u32 (Z.shiftl (Z.land (u32 p0) 0xFFFFF000) 2)) in
    let g := s16 (WebRtcSpl_DivW32W16 tmp1_s32 h) in
    vec ← wr vec channel g;
    wr vec (channel + kNumChannels) (s16 (16384 -i g))
  else match low with Some v => wr vec channel v | None => Some vec end.

(** One channel of the likelihood-ratio test. *)
Definition channel_test (self : VadInstT) (features : list Z) (individualTest : Z)
    (channel : nat) (loc : Loc) : option Loc :=
  feature ← features !! channel;
  '(h0_test, h1_test, loc) ← hypothesis_probabilities self feature channel loc;
  let shifts_h0 := WebRtcSpl_NormW32 h0_test in
  let shifts_h1 := WebRtcSpl_NormW32 h1_test in
  let shifts_h0 := if h0_test =? 0 then 31 else shifts_h0 in
  let shifts_h1 := if h1_test =? 0 then 31 else shifts_h1 in
  let log_likelihood_ratio := s16 (shifts_h0 -i shifts_h1) in
  w ← kSpectrumWeight !! channel;
  let sum := sum_log_likelihood_ratios loc +i log_likelihood_ratio *i w in
  let flag := if individualTest <? log_likelihood_ratio *i 4 then 1 else vadflag loc in
  ng ← conditional (noise_probability loc) h0_test channel (Some 16384) (ngprvec loc);
  sg ← conditional (speech_probability loc) h1_test channel None (sgprvec loc);
  Some {| deltaN := deltaN loc; deltaS := deltaS loc; ngprvec := ng; sgprvec := sg;
          noise_probability := noise_probability loc;
          speech_probability := speech_probability loc; vadflag := flag;
          sum_log_likelihood_ratios := sum |}.

(** New noise mean of Gaussian [k]; [ngpr], [dN] its conditional probability
    and delta, [tmp1_s16] the global noise mean in Q8. *)
Definition noise_mean_update (vadflag nmk ngpr dN feature_minimum tmp1_s16 : Z)
    (channel k : nat) : Z :=
  let nmk2 :=
    if vadflag =? 0 then
      let delt := s16 (ngpr *i dN >>i 11) in
      s16 (nmk +i s16 (delt *i kNoiseUpdateConst >>i 22))
    else nmk in
  let ndelt := s16 ((feature_minimum <<i 4) -i tmp1_s16) in
  let nmk3 := s16 (nmk2 +i s16 (ndelt *i kBackEta >>i 9)) in
  let tmp_s16 := s16 (Z.of_nat (k + 5) <<i 7) in
  let nmk3 := if nmk3 <? tmp_s16 then tmp_s16 else nmk3 in
  let tmp_s16 := s16 ((72 + Z.of_nat k - Z.of_nat channel) <<i 7) in
  if tmp_s16 <? nmk3 then tmp_s16 else nmk3.

Definition speech_mean_update (smk sgpr dS maxspe minmean : Z) : Z :=
  let delt := s16 (sgpr *i dS >>i 11) in
  let tmp_s16 := s16 (delt *i kSpeechUpdateConst >>i 21) in
  let smk2 := s16 (smk +i (tmp_s16 +i 1 >>i 1)) in
  let maxmu := s16 (maxspe +i 640) in
  let smk2 := if smk2 <? minmean then minmean else smk2 in
  if maxmu <? smk2 then maxmu else smk2.

Definition speech_std_update (smk ssk sgpr dS feature : Z) : Z :=
  let tmp_s16 := s16 (smk +i 4 >>i 3) in
  let tmp_s16 := s16 (feature -i tmp_s16) in
  let tmp1_s32 := dS *i tmp_s16 >>i 3 in
  let tmp2_s32 := tmp1_s32 -i 4096 in
  let tmp_s16 := s16 (sgpr >>i 2) in
  let tmp1_s32 := tmp_s16 *i tmp2_s32 in
  let tmp2_s32 := tmp1_s32 >>i 4 in
  let tmp_s16 :=
    if 0 <? tmp2_s32 then s16 (WebRtcSpl_DivW32W16 tmp2_s32 (s16 (ssk *i 10)))
    else s16 (-i s16 (WebRtcSpl_DivW32W16 (-i tmp2_s32) (s16 (ssk *i 10)))) in
  let tmp_s16 := s16 (tmp_s16 +i 128) in
  let ssk := s16 (ssk +i (tmp_s16 >>i 8)) in
  if ssk <? kMinStd then kMinStd else ssk.

Definition noise_std_update (nmk nsk ngpr dN feature : Z) : Z :=
  let tmp_s16 := s16 (feature -i (nmk >>i 3)) in
  let tmp1_s32 := dN *i tmp_s16 >>i 3 in
  let tmp1_s32 := tmp1_s32 -i 4096 in
  let tmp_s16 := s16 (ngpr +i 2 >>i 2) in
  let tmp2_s32 := OverflowingMulS16ByS32ToS32 tmp_s16 tmp1_s32 in
  let tmp1_s32 := tmp2_s32 >>i 14 in
  let tmp_s16 :=
    if 0 <? tmp1_s32 then s16 (WebRtcSpl_DivW32W16 tmp1_s32 nsk)
    else s16 (-i s16 (WebRtcSpl_DivW32W16 (-i tmp1_s32) nsk)) in
  let tmp_s16 := s16 (tmp_s16 +i 32) in
  let nsk := s16 (nsk +i (tmp_s16 >>i 6)) in
  if nsk <? kMinStd then kMinStd else nsk.

(** The four model vectors. *)
Record Models := { m_nm : list Z; m_sm : list Z; m_ns : list Z; m_ss : list Z }.

(** The loop over the Gaussians of a channel. *)
Definition update_gaussian (loc : Loc) (flag feature feature_minimum tmp1_s16 maxspe : Z)
    (channel k : nat) (m : Models) : option Models :=
  let gaussian := (channel + k * kNumChannels)%nat in
  nmk ← m_nm m !! gaussian;
  smk ← m_sm m !! gaussian;
  nsk ← m_ns m !! gaussian;
  ssk ← m_ss m !! gaussian;
  ngpr ← ngprvec loc !! gaussian;
  dN ← deltaN loc !! gaussian;
  sgpr ← sgprvec loc !! gaussian;
  dS ← deltaS loc !! gaussian;
  nm ← wr (m_nm m) gaussian
         (noise_mean_update flag nmk ngpr dN feature_minimum tmp1_s16 channel k);
  if negb (flag =? 0) then
    minmean ← kMinimumMean !! k;
    sm ← wr (m_sm m) gaussian (speech_mean_update smk sgpr dS maxspe minmean);
    ss ← wr (m_ss m) gaussian (speech_std_update smk ssk sgpr dS feature);
    Some {| m_nm := nm; m_sm := sm; m_ns := m_ns m; m_ss := ss |}
  else
    ns ← wr (m_ns m) gaussian (noise_std_update nmk nsk ngpr dN feature);
    Some {| m_nm := nm; m_sm := m_sm m; m_ns := ns; m_ss := m_ss m |}.

(** [data[channel + k * kNumChannels] -= v] for both Gaussians. *)
Definition lower_means (data : list Z) (channel : nat) (v : Z) : option (list Z) :=
  for_loop kNumGaussians 0 (λ k data,
    d ← data !! (channel + k * kNumChannels)%nat;
    wr data (channel + k * kNumChannels) (s16 (d -i v))) data.

(** Keeping the models apart and below their limits; also returns the new
    [maxspe]. *)
Definition separate_models (channel : nat) (nm sm : list Z) : option (list Z * list Z * Z) :=
  '(noise_global_mean, nm) ← WeightedAverage nm channel 0 kNoiseDataWeights;
  '(speech_global_mean, sm) ← WeightedAverage sm channel 0 kSpeechDataWeights;
  let diff := s16 (s16 (speech_global_mean >>i 9) -i s16 (noise_global_mean >>i 9)) in
  mindiff ← kMinimumDifference !! channel;
  '(noise_global_mean, nm, speech_global_mean, sm) ←
    (if diff <? mindiff then
       let tmp_s16 := s16 (mindiff -i diff) in
       let tmp1_s16 := s16 (13 *i tmp_s16 >>i 2) in
       let tmp2_s16 := s16 (3 *i tmp_s16 >>i 2) in
       '(speech_global_mean, sm) ← WeightedAverage sm channel tmp1_s16 kSpeechDataWeights;
       '(noise_global_mean, nm) ← WeightedAverage nm channel (s16 (-i tmp2_s16)) kNoiseDataWeights;
       Some (noise_global_mean, nm, speech_global_mean, sm)
     else Some (noise_global_mean, nm, speech_global_mean, sm));
  maxspe ← kMaximumSpeech !! channel;
  let tmp2_s16 := s16 (speech_global_mean >>i 7) in
  sm ← (if maxspe <? tmp2_s16 then lower_means sm channel (s16 (tmp2_s16 -i maxspe))
        else Some sm);
  maxnoise ← kMaximumNoise !! channel;
  let tmp2_s16 := s16 (noise_global_mean >>i 7) in
  nm ← (if maxnoise <? tmp2_s16 then lower_means nm channel (s16 (tmp2_s16 -i maxnoise))
        else Some nm);
  Some (nm, sm, maxspe).

(** One channel of the model update. *)
Definition channel_update (features : list Z) (loc : Loc) (flag : Z) (channel : nat)
    (s : VadInstT * Z) : option (VadInstT * Z) :=
  let '(self, maxspe) := s in
  feature ← features !! channel;
  '(feature_minimum, self) ← WebRtcVad_FindMinimum self feature channel;
  '(noise_global_mean, nm) ← WeightedAverage (noise_means self) channel 0 kNoiseDataWeights;
  let tmp1_s16 := s16 (noise_global_mean >>i 6) in
  m ← for_loop kNumGaussians 0
        (update_gaussian loc flag feature feature_minimum tmp1_s16 maxspe channel)
        {| m_nm := nm; m_sm := speech_means self; m_ns := noise_stds self;
           m_ss := speech_stds self |};
  '(nm, sm, maxspe) ← separate_models channel (m_nm m) (m_sm m);
  Some (set_models self nm sm (m_ns m) (m_ss m), maxspe).

(** The hangover; returns the decision. *)
Definition smooth_decision (flag overhead1 overhead2 : Z) (self : VadInstT) : Z * VadInstT :=
  if flag =? 0 then
    if 0 <? over_hang self then
      (s16 (2 +i over_hang self),
       set_counters self (frame_counter self) (s16 (over_hang self -i 1)) 0)
    else (flag, set_counters self (frame_counter self) (over_hang self) 0)
  else
    let n := s16 (num_of_speech self +i 1) in
    if kMaxSpeechFrames <? n
    then (flag, set_counters self (frame_counter self) overhead2 kMaxSpeechFrames)
    else (flag, set_counters self (frame_counter self) overhead1 n).

Definition GmmProbability (junk : Junk) (self : VadInstT) (features : list Z)
    (total_power : Z) (frame_length : nat) : option (Z * VadInstT) :=
  '(overhead1, overhead2, individualTest, totalTest) ← frame_thresholds self frame_length;
  '(flag, self) ←
    (if kMinEnergy <? total_power then
       let loc := {| deltaN := junk_deltaN junk; deltaS := junk_deltaS junk;
                     ngprvec := replicate kTableSize 0; sgprvec := replicate kTableSize 0;
                     noise_probability := (junk_prob junk).1;
                     speech_probability := (junk_prob junk).2; vadflag := 0;
                     sum_log_likelihood_ratios := 0 |} in
       loc ← for_loop kNumChannels 0 (channel_test self features individualTest) loc;
       let flag := Z.lor (vadflag loc)
                     (if totalTest <=? sum_log_likelihood_ratios loc then 1 else 0) in
       '(self, _) ← for_loop kNumChannels 0 (channel_update features loc flag) (self, 12800);
       Some (flag, set_counters self (frame_counter self +i 1) (over_hang self)
                     (num_of_speech self))
     else Some (0, self));
  Some (smooth_decision flag overhead1 overhead2 self).

(** ** Initialisation and modes *)

Definition WebRtcVad_set_mode_core (self : VadInstT) (mode : Z) : option (Z * VadInstT) :=
  let set o1 o2 ind tot :=
    o1 ← memcpy (over_hang_max_1 self) 0 o1 0 3;
    o2 ← memcpy (over_hang_max_2 self) 0 o2 0 3;
    ind ← memcpy (individual self) 0 ind 0 3;
    tot ← memcpy (total self) 0 tot 0 3;
    Some (0, set_thresholds self o1 o2 ind tot) in
  match mode with
  | 0 => set kOverHangMax1Q kOverHangMax2Q kLocalThresholdQ kGlobalThresholdQ
  | 1 => set kOverHangMax1LBR kOverHangMax2LBR kLocalThresholdLBR kGlobalThresholdLBR
  | 2 => set kOverHangMax1AGG kOverHangMax2AGG kLocalThresholdAGG kGlobalThresholdAGG
  | 3 => set kOverHangMax1VAG kOverHangMax2VAG kLocalThresholdVAG kGlobalThresholdVAG
  | _ => Some (-1, self)
  end.

(** [for (i = 0; i < n; i++) dst[i] = src[i];] The loops of the initialisation
    that fill several arrays at once are one such loop per array. *)
Definition copy_loop (n : nat) (src : nat → option Z) (dst : list Z) : option (list Z) :=
  for_loop n 0 (λ i dst, v ← src i; wr dst i v) dst.

(** A null pointer is [None]; returns the result code and the instance. *)
Definition WebRtcVad_InitCore (self : option VadInstT) : option (Z * option VadInstT) :=
  match self with
  | None => Some (-1, None)
  | Some self =>
      let self := set_vad self 1 in
      let self := set_counters self 0 0 0 in
      ds ← memset (downsampling_filter_states self) 0 0 4;
      let self := set_downsampling self ds in
      st ← WebRtcSpl_ResetResample48khzTo8khz (state_48_to_8 self);
      let self := set_state_48_to_8 self st in
      nm ← copy_loop kTableSize (λ i, kNoiseDataMeans !! i) (noise_means self);
      sm ← copy_loop kTableSize (λ i, kSpeechDataMeans !! i) (speech_means self);
      ns ← copy_loop kTableSize (λ i, kNoiseDataStds !! i) (noise_stds self);
      ss ← copy_loop kTableSize (λ i, kSpeechDataStds !! i) (speech_stds self);
      let self := set_models self nm sm ns ss in
      lv ← copy_loop (16 * kNumChannels) (λ _, Some 10000) (low_value_vector self);
      iv ← copy_loop (16 * kNumChannels) (λ _, Some 0) (index_vector self);
      us ← memset (upper_state self) 0 0 5;
      ls ← memset (lower_state self) 0 0 5;
      hp ← memset (hp_filter_state self) 0 0 4;
      let self := set_filters self us ls hp in
      mv ← copy_loop kNumChannels (λ _, Some 1600) (mean_value self);
      let self := set_minima self iv lv mv in
      '(r, self) ← WebRtcVad_set_mode_core self kDefaultMode;
      if negb (r =? 0) then Some (-1, Some self)
      else Some (0, Some (set_init_flag self kInitCheck))
  end.

(** ** Entry points *)

Definition WebRtcVad_CalcVad8khz (junk : Junk) (inst : VadInstT) (speech_frame : list Z)
    (frame_length : nat) : option (Z * VadInstT) :=
  '(total_power, inst, feature_vector) ←
    WebRtcVad_CalculateFeatures (junk_filters junk) inst speech_frame frame_length
      (junk_features junk);
  '(v, inst) ← GmmProbability junk inst feature_vector total_power frame_length;
  Some (v, set_vad inst v).

Definition WebRtcVad_CalcVad16khz (junk : Junk) (inst : VadInstT) (speech_frame : list Z)
    (frame_length : nat) : option (Z * VadInstT) :=
  '(speechNB, ds) ← WebRtcVad_Downsampling speech_frame (junk_speech_nb junk)
                      (downsampling_filter_states inst) 0 frame_length;
  let inst := set_downsampling inst ds in
  WebRtcVad_CalcVad8khz junk inst speechNB (frame_length / 2).

Definition WebRtcVad_CalcVad32khz (junk : Junk) (inst : VadInstT) (speech_frame : list Z)
    (frame_length : nat) : option (Z * VadInstT) :=
  '(speechWB, ds) ← WebRtcVad_Downsampling speech_frame (junk_speechWB junk)
                      (downsampling_filter_states inst) 2 frame_length;
  let len := (frame_length / 2)%nat in
  '(speechNB, ds) ← WebRtcVad_Downsampling speechWB (junk_speech_nb junk) ds 0 len;
  let len := (len / 2)%nat in
  let inst := set_downsampling inst ds in
  WebRtcVad_CalcVad8khz junk inst speechNB len.

Definition WebRtcVad_CalcVad48khz (junk : Junk) (inst : VadInstT) (speech_frame : list Z)
    (frame_length : nat) : option (Z * VadInstT) :=
  let tmp_mem := replicate (480 + 256) 0 in
  let num_10ms_frames := (frame_length / 480)%nat in
  '(speech_nb, state, tmp_mem) ←
    for_loop num_10ms_frames 0 (λ i '(speech_nb, state, tmp_mem),
      WebRtcSpl_Resample48khzTo8khz speech_frame 0 speech_nb (i * 80) state tmp_mem)
      (junk_speech_nb junk, state_48_to_8 inst, tmp_mem);
  let inst := set_state_48_to_8 inst state in
  WebRtcVad_CalcVad8khz junk inst speech_nb (frame_length / 6).

End VadCore.
