(* ===== verification/VadInvariant.v ===== *)
(** * The invariant of the voice activity detector

    The bounds the model parameters of common_audio/vad/vad_core.c keep, and that
    initialisation establishes and every frame preserves them. Means are
    clamped, moved apart and lowered by several rules per frame and channel; the
    invariant says how far these can drive them: noise means stay in
    [-1500, 9344], speech means above 640, the two speech means of a channel no
    further apart than the clamping interval and their weighted average at most
    the limit of the channel. This is what keeps every Gaussian evaluation inside
    the range in which it is exact. *)

From S2P Require Import Prelude.
From S2P Require Import SplInl.
From S2P Require Import Energy.
From S2P Require Import VadGmm.
From S2P Require Import ResampleBy2.
From S2P Require Import ResampleFrac.
From S2P Require Import Resample48.
From S2P Require Import VadSp.
From S2P Require Import VadFilterbank.
From S2P Require Import VadCore.
Import SplInl VadGmm Resample48 VadSp VadFilterbank VadCore.

Module VadInvariant.

(** ** The two cells of a channel *)

Definition pair_at (v : list Z) (c : nat) (a b : Z) : Prop :=
  v !! c = Some a ∧ v !! (c + 6)%nat = Some b.
Definition set2 (v : list Z) (c : nat) (a b : Z) : list Z := <[(c + 6)%nat := b]> (<[c := a]> v).

Lemma set2_length v c a b : length (set2 v c a b) = length v.
Proof. unfold set2. by rewrite !length_insert. Qed.

Lemma pair_exists v c : length v = 12%nat → (c < 6)%nat → ∃ a b, pair_at v c a b.
Proof.
  intros. destruct (lookup_lt_is_Some_2 v c) as [a Ha]; [lia|].
  destruct (lookup_lt_is_Some_2 v (c + 6)) as [b Hb]; [lia|]. by exists a, b.
Qed.

Lemma pair_unique v c a b a' b' : pair_at v c a b → pair_at v c a' b' → a = a' ∧ b = b'.
Proof. intros [H1 H2] [H3 H4]. by simplify_eq. Qed.

Lemma set2_at v c a b : length v = 12%nat → (c < 6)%nat → pair_at (set2 v c a b) c a b.
Proof.
  intros. unfold set2. split.
  - rewrite list_lookup_insert_ne by lia. by rewrite list_lookup_insert_eq by lia.
  - by rewrite list_lookup_insert_eq by (rewrite length_insert; lia).
Qed.

Lemma set2_other v c c' a b x y : (c < 6)%nat → (c' < 6)%nat → c ≠ c' →
  pair_at (set2 v c a b) c' x y ↔ pair_at v c' x y.
Proof. intros. unfold pair_at, set2. by rewrite !list_lookup_insert_ne by lia. Qed.

Lemma set2_set2 v c a b a' b' : set2 (set2 v c a b) c a' b' = set2 v c a' b'.
Proof.
  unfold set2. rewrite (list_insert_insert_ne (<[c:=a]> v)) by lia.
  by rewrite list_insert_insert_eq, list_insert_insert_eq.
Qed.

Lemma set2_id v c a b : pair_at v c a b → set2 v c a b = v.
Proof. intros [H1 H2]. unfold set2. by rewrite (list_insert_id v), list_insert_id. Qed.

(** ** Elementary operations on a channel *)

Lemma WeightedAverage_eq data c off weights d0 d1 w0 w1 :
  length data = 12%nat → (c < 6)%nat → pair_at data c d0 d1 → pair_at weights c w0 w1 →
  0 ≤ w0 ≤ 128 → 0 ≤ w1 ≤ 128 → int16 (d0 + off) → int16 (d1 + off) →
  WeightedAverage data c off weights =
    Some (w0 * (d0 + off) + w1 * (d1 + off), set2 data c (d0 + off) (d1 + off)).
Proof.
  intros Hl Hc [D0 D1] [W0 W1] Hw0 Hw1 H0 H1. unfold WeightedAverage, kNumGaussians, kNumChannels.
  cbn [for_loop Nat.mul]. rewrite !Nat.add_0_r. rewrite D0. cbn [mbind option_bind].
  rewrite (s32_id (d0 + off)), (s16_id (d0 + off)) by (done || by apply int16_int32).
  rewrite (wr_lt data c) by lia. cbn [mbind option_bind].
  rewrite list_lookup_insert_eq by lia. cbn [mbind option_bind]. rewrite W0.
  cbn [mbind option_bind]. rewrite list_lookup_insert_ne by lia. rewrite D1.
  cbn [mbind option_bind].
  rewrite (s32_id (d1 + off)), (s16_id (d1 + off)) by (done || by apply int16_int32).
  rewrite wr_lt by (rewrite length_insert; lia). cbn [mbind option_bind].
  rewrite list_lookup_insert_eq by (rewrite length_insert; lia). cbn [mbind option_bind].
  rewrite W1. cbn [mbind option_bind]. unfold int16 in *.
  assert (Z.abs ((d0 + off) * w0) ≤ 4194304) by nia.
  assert (Z.abs ((d1 + off) * w1) ≤ 4194304) by nia.
  rewrite (s32_id ((d0 + off) * w0)), (s32_id ((d1 + off) * w1)) by (unfold int32; lia).
  rewrite (s32_id (0 + _)), s32_id by (unfold int32; lia). do 2 f_equal. lia.
Qed.

Lemma lower_means_eq data c v d0 d1 :
  length data = 12%nat → (c < 6)%nat → pair_at data c d0 d1 → int16 (d0 - v) → int16 (d1 - v) →
  lower_means data c v = Some (set2 data c (d0 - v) (d1 - v)).
Proof.
  intros Hl Hc [D0 D1] H0 H1. unfold lower_means, kNumGaussians, kNumChannels.
  cbn [for_loop Nat.mul]. rewrite !Nat.add_0_r, D0. cbn [mbind option_bind].
  rewrite (s32_id (d0 - v)), (s16_id (d0 - v)) by (done || by apply int16_int32).
  rewrite (wr_lt data c) by lia. cbn [mbind option_bind].
  rewrite list_lookup_insert_ne, D1 by lia. cbn [mbind option_bind].
  rewrite (s32_id (d1 - v)), (s16_id (d1 - v)) by (done || by apply int16_int32).
  by rewrite wr_lt by (rewrite length_insert; lia).
Qed.

(** The clamps of the updates. *)
Lemma noise_mean_clamped flag nmk ngpr dN fm t c k : (c < 6)%nat → (k < 2)%nat →
  Z.of_nat (k + 5) * 128 ≤ noise_mean_update flag nmk ngpr dN fm t c k
  ≤ (72 + Z.of_nat k - Z.of_nat c) * 128.
Proof.
  intros Hc Hk. unfold noise_mean_update. cbv zeta.
  generalize (s16 ((if flag =? 0 then s16 (nmk +i s16 (s16 (ngpr *i dN >>i 11) *i
    kNoiseUpdateConst >>i 22)) else nmk) +i s16 (s16 ((fm <<i 4) -i t) *i kBackEta >>i 9))).
  intros z. shift_const. rewrite (s32_id (Z.of_nat _ * _)), (s16_id (Z.of_nat _ * _))
    by (unfold int16, int32; lia).
  rewrite (s32_id ((72 + _ - _) * _)), (s16_id ((72 + _ - _) * _))
    by (unfold int16, int32; lia).
  repeat match goal with |- context [Z.ltb ?a ?b] => destruct (Z.ltb_spec a b) end; lia.
Qed.

Lemma speech_mean_clamped smk sgpr dS maxspe minmean :
  640 ≤ minmean ≤ 768 → 11392 ≤ maxspe ≤ 12800 →
  minmean ≤ speech_mean_update smk sgpr dS maxspe minmean ≤ maxspe + 640.
Proof.
  intros Hn Hm. unfold speech_mean_update. cbv zeta.
  generalize (s16 (smk +i (s16 (s16 (sgpr *i dS >>i 11) *i kSpeechUpdateConst >>i 21) +i 1 >>i 1))).
  intros z. rewrite (s32_id (maxspe + 640)), (s16_id (maxspe + 640)) by (unfold int16, int32; lia).
  repeat match goal with |- context [Z.ltb ?a ?b] => destruct (Z.ltb_spec a b) end; lia.
Qed.

Lemma std_clamped z : 384 ≤ (if s16 z <? kMinStd then kMinStd else s16 z) ≤ 32767.
Proof.
  pose proof (s16_range z) as H. unfold int16, kMinStd in *.
  destruct (Z.ltb_spec (s16 z) 384); lia.
Qed.

(** ** The invariant of a channel *)

(** What the speech means are clamped to, minus 640: 12800 for the first
    channel, then the speech limit of the channel before. *)
Definition prev_max (c : nat) : Z :=
  match c with O => 12800 | S c => kMaximumSpeech !!! c end.

Definition noise_ok (n : Z) : Prop := -1500 ≤ n ≤ 9344.
Definition speech_ok (c : nat) (s0 s1 : Z) : Prop :=
  640 ≤ s0 ∧ 640 ≤ s1 ∧ Z.abs (s0 - s1) ≤ prev_max c ∧
  kSpeechDataWeights !!! c * s0 + kSpeechDataWeights !!! (c + 6)%nat * s1
  ≤ 128 * kMaximumSpeech !!! c + 127.
Definition std_ok (s : Z) : Prop := 378 ≤ s ≤ 32767.

Lemma std_ok_clamped s : 384 ≤ s ≤ 32767 → std_ok s.
Proof. unfold std_ok. lia. Qed.

(** Case analysis over the six channels, with the tables evaluated. *)
Ltac eval_tables :=
  repeat match goal with
  | |- context [?l !!! ?i] =>
      let v := eval vm_compute in (l !!! i) in change (l !!! i) with v
  | H : context [?l !!! ?i] |- _ =>
      let v := eval vm_compute in (l !!! i) in change (l !!! i) with v in H
  end.
Ltac channels c :=
  destruct c as [|[|[|[|[|[|?]]]]]]; [..|lia];
  unfold prev_max in *; cbv beta iota in *; eval_tables.

(** Under the invariant, the distance a Gaussian evaluation sees. *)
Lemma noise_distance c f n : (c < 6)%nat → feature_ok c f → noise_ok n →
  Z.abs (8 * f - n) ≤ 18000.
Proof.
  unfold feature_ok, noise_ok. intros Hc Hf Hn.
  assert (0 ≤ kOffsetVector !!! c) by (clear Hf; channels c; lia). lia.
Qed.

Lemma speech_upper c s0 s1 : (c < 6)%nat → speech_ok c s0 s1 → s0 ≤ 19400 ∧ s1 ≤ 19400.
Proof. intros Hc (H1 & H2 & H3 & H4). channels c; lia. Qed.

Lemma speech_distance c f s0 s1 : (c < 6)%nat → feature_ok c f → speech_ok c s0 s1 →
  Z.abs (8 * f - s0) ≤ 18000 ∧ Z.abs (8 * f - s1) ≤ 18000.
Proof. unfold feature_ok. intros Hc Hf (H1 & H2 & H3 & H4). channels c; lia. Qed.

(** ** Separation of the two models of a channel *)

(** What the means of a channel satisfy after the clamps. *)
Definition clamped (c : nat) (n0 n1 s0 s1 : Z) : Prop :=
  640 ≤ n0 ≤ (72 - Z.of_nat c) * 128 ∧ 640 ≤ n1 ≤ (73 - Z.of_nat c) * 128 ∧
  640 ≤ s0 ≤ 19400 ∧ 640 ≤ s1 ≤ 19400 ∧ Z.abs (s0 - s1) ≤ prev_max c.

#[local] Abbreviation wn0 c := (kNoiseDataWeights !!! c).
#[local] Abbreviation wn1 c := (kNoiseDataWeights !!! (c + 6)%nat).
#[local] Abbreviation ws0 c := (kSpeechDataWeights !!! c).
#[local] Abbreviation ws1 c := (kSpeechDataWeights !!! (c + 6)%nat).

(** How far the models are moved: [t1] up for speech, [t2] down for noise. *)
Definition gap (c : nat) (n0 n1 s0 s1 : Z) : Z :=
  kMinimumDifference !!! c -
  ((ws0 c * s0 + ws1 c * s1) / 512 - (wn0 c * n0 + wn1 c * n1) / 512).
Definition move_up (g : Z) : Z := if 0 <? g then 13 * g / 4 else 0.
Definition move_down (g : Z) : Z := if 0 <? g then 3 * g / 4 else 0.
(** How far they are lowered afterwards. *)
Definition excess (limit sum : Z) : Z := Z.max 0 (sum / 128 - limit).

Lemma weights_sum c : (c < 6)%nat → wn0 c + wn1 c = 128 ∧ ws0 c + ws1 c = 128 ∧
  0 ≤ wn0 c ≤ 128 ∧ 0 ≤ wn1 c ≤ 128 ∧ 0 ≤ ws0 c ≤ 128 ∧ 0 ≤ ws1 c ≤ 128.
Proof. intros Hc. channels c; lia. Qed.

Lemma gap_bounds c n0 n1 s0 s1 : (c < 6)%nat → clamped c n0 n1 s0 s1 →
  -4600 ≤ gap c n0 n1 s0 s1 ≤ 2752.
Proof.
  intros Hc ([??] & [??] & [??] & [??] & Hd). unfold gap.
  pose proof (weights_sum c Hc) as (? & ? & ? & ? & ? & ?).
  assert (81920 ≤ ws0 c * s0 + ws1 c * s1 ≤ 2483200) as A1 by nia.
  assert (81920 ≤ wn0 c * n0 + wn1 c * n1 ≤ 1196032) as A2 by nia.
  assert (544 ≤ kMinimumDifference !!! c ≤ 576) as A3 by (clear -Hc; channels c; lia).
  clear -A1 A2 A3. clia.
Qed.

Lemma moves_bounds g : -4600 ≤ g ≤ 2752 → 0 ≤ move_up g ≤ 8944 ∧ 0 ≤ move_down g ≤ 2064.
Proof. intros. unfold move_up, move_down. destruct (Z.ltb_spec 0 g); clia. Qed.

(** The means after a channel has been processed. *)
Definition sep_noise (c : nat) (n0 n1 s0 s1 : Z) : Z :=
  let d := move_down (gap c n0 n1 s0 s1) in
  d + excess (kMaximumNoise !!! c) (wn0 c * (n0 - d) + wn1 c * (n1 - d)).
Definition sep_speech (c : nat) (n0 n1 s0 s1 : Z) : Z :=
  let u := move_up (gap c n0 n1 s0 s1) in
  u - excess (kMaximumSpeech !!! c) (ws0 c * (s0 + u) + ws1 c * (s1 + u)).

Lemma sep_noise_ok c n0 n1 s0 s1 : (c < 6)%nat → clamped c n0 n1 s0 s1 →
  noise_ok (n0 - sep_noise c n0 n1 s0 s1) ∧ noise_ok (n1 - sep_noise c n0 n1 s0 s1).
Proof.
  intros Hc Hcl. pose proof (moves_bounds _ (gap_bounds c n0 n1 s0 s1 Hc Hcl)) as [_ Hd].
  unfold sep_noise. cbv zeta. generalize dependent (move_down (gap c n0 n1 s0 s1)).
  intros d Hd. destruct Hcl as ([??] & [??] & _). unfold noise_ok, excess.
  channels c; clia.
Qed.

Lemma sep_speech_ok c n0 n1 s0 s1 : (c < 6)%nat → clamped c n0 n1 s0 s1 →
  speech_ok c (s0 + sep_speech c n0 n1 s0 s1) (s1 + sep_speech c n0 n1 s0 s1).
Proof.
  intros Hc Hcl. pose proof (moves_bounds _ (gap_bounds c n0 n1 s0 s1 Hc Hcl)) as [Hd _].
  unfold sep_speech. cbv zeta. generalize dependent (move_up (gap c n0 n1 s0 s1)).
  intros d Hd. destruct Hcl as (_ & _ & [??] & [??] & ?). unfold speech_ok, excess.
  channels c; clia.
Qed.

(** The weight tables at a channel. *)
Lemma table_pair l c : length l = 12%nat → (c < 6)%nat →
  pair_at l c (l !!! c) (l !!! (c + 6)%nat).
Proof. intros Hl Hc. split; apply lookup_total_Some; lia. Qed.

(** The block that moves the models apart. *)
Lemma move_apart_eq c nm sm n0 n1 s0 s1 (g := gap c n0 n1 s0 s1) (u := move_up g)
    (d := move_down g) :
  (c < 6)%nat → length nm = 12%nat → length sm = 12%nat →
  pair_at nm c n0 n1 → pair_at sm c s0 s1 → clamped c n0 n1 s0 s1 →
  (let diff := s16 (s16 (ws0 c * s0 + ws1 c * s1 >>i 9) -i s16 (wn0 c * n0 + wn1 c * n1 >>i 9)) in
   mindiff ← kMinimumDifference !! c;
   if diff <? mindiff then
     let tmp_s16 := s16 (mindiff -i diff) in
     let tmp1_s16 := s16 (13 *i tmp_s16 >>i 2) in
     let tmp2_s16 := s16 (3 *i tmp_s16 >>i 2) in
     '(speech_global_mean, sm) ← WeightedAverage sm c tmp1_s16 kSpeechDataWeights;
     '(noise_global_mean, nm) ← WeightedAverage nm c (s16 (-i tmp2_s16)) kNoiseDataWeights;
     Some (noise_global_mean, nm, speech_global_mean, sm)
   else Some (wn0 c * n0 + wn1 c * n1, nm, ws0 c * s0 + ws1 c * s1, sm)) =
  Some (wn0 c * (n0 - d) + wn1 c * (n1 - d), set2 nm c (n0 - d) (n1 - d),
        ws0 c * (s0 + u) + ws1 c * (s1 + u), set2 sm c (s0 + u) (s1 + u)).
Proof.
  intros Hc Hln Hls Hn Hs Hcl. pose proof (gap_bounds c n0 n1 s0 s1 Hc Hcl) as Hg. fold g in Hg.
  pose proof (moves_bounds g Hg) as [Hu Hd]. fold u in Hu. fold d in Hd.
  pose proof (weights_sum c Hc) as (EN & ES & W1 & W2 & W3 & W4).
  destruct Hcl as ([Cn0 Cn0'] & [Cn1 Cn1'] & [Cs0 Cs0'] & [Cs1 Cs1'] & _).
  assert (81920 ≤ ws0 c * s0 + ws1 c * s1 ≤ 2483200) as A1 by nia.
  assert (81920 ≤ wn0 c * n0 + wn1 c * n1 ≤ 1196032) as A2 by nia.
  cbv zeta. rewrite (lookup_total_Some kMinimumDifference c) by (simpl; lia).
  cbn [mbind option_bind]. shift_const.
  assert (160 ≤ (ws0 c * s0 + ws1 c * s1) / 512 ≤ 4850) as B1 by (clear -A1; clia).
  assert (160 ≤ (wn0 c * n0 + wn1 c * n1) / 512 ≤ 2336) as B2 by (clear -A2; clia).
  rewrite (s16_id (_ / 512)), (s16_id (_ / 512)) by (unfold int16; lia).
  rewrite (s32_id (_ / 512 - _)), (s16_id (_ / 512 - _)) by (unfold int16, int32; lia).
  assert (kMinimumDifference !!! c - ((ws0 c * s0 + ws1 c * s1) / 512 -
    (wn0 c * n0 + wn1 c * n1) / 512) = g) as Eg by done.
  destruct (Z.ltb_spec ((ws0 c * s0 + ws1 c * s1) / 512 - (wn0 c * n0 + wn1 c * n1) / 512)
    (kMinimumDifference !!! c)) as [Hlt|Hge].
  - assert (13 * g / 4 = u ∧ 3 * g / 4 = d) as [Eu Ed].
    { unfold u, d, move_up, move_down. by rewrite (proj2 (Z.ltb_lt 0 g)) by lia. }
    rewrite Eg. rewrite (s32_id g), (s16_id g) by (unfold int16, int32; lia).
    rewrite (s32_id (13 * g)), (s32_id (3 * g)) by (unfold int32; lia). rewrite Eu, Ed.
    rewrite (s16_id u), (s16_id d) by (unfold int16; lia).
    rewrite (s32_id (- _)), (s16_id (- _)) by (unfold int16, int32; lia).
    rewrite (WeightedAverage_eq sm c _ _ s0 s1 _ _ Hls Hc Hs (table_pair kSpeechDataWeights c eq_refl Hc))
      by (done || unfold int16; lia). cbn [mbind option_bind].
    rewrite (WeightedAverage_eq nm c _ _ n0 n1 _ _ Hln Hc Hn (table_pair kNoiseDataWeights c eq_refl Hc))
      by (done || unfold int16; lia). cbn [mbind option_bind].
    by rewrite !Z.add_opp_r.
  - assert (u = 0 ∧ d = 0) as [-> ->].
    { unfold u, d, move_up, move_down. by rewrite (proj2 (Z.ltb_ge 0 g)) by lia. }
    by rewrite !Z.sub_0_r, !Z.add_0_r, !set2_id.
Qed.

(** The block that lowers both means of a model to its limit. *)
Lemma lower_block_eq c v a b L G :
  (c < 6)%nat → length v = 12%nat → pair_at v c a b → 0 ≤ L ≤ 12000 → -200000 ≤ G ≤ 3700000 →
  int16 (a - excess L G) → int16 (b - excess L G) →
  (if L <? s16 (G >>i 7) then lower_means v c (s16 (s16 (G >>i 7) -i L)) else Some v) =
  Some (set2 v c (a - excess L G) (b - excess L G)).
Proof.
  intros Hc Hl Hp HL HG Ha Hb. shift_const.
  assert (-1563 ≤ G / 128 ≤ 28907) as B by (clear -HG; clia).
  rewrite (s16_id (G / 128)) by (unfold int16; lia).
  rewrite (s32_id (G / 128 - L)), (s16_id (G / 128 - L)) by (unfold int16, int32; lia).
  unfold excess in *. destruct (Z.ltb_spec L (G / 128)).
  - rewrite (Z.max_r 0 (G / 128 - L)) in * by lia. by apply lower_means_eq.
  - rewrite (Z.max_l 0 (G / 128 - L)) by lia. by rewrite !Z.sub_0_r, set2_id.
Qed.

(** [separate_models] computes it without any wrap-around. *)
Lemma separate_models_eq c nm sm n0 n1 s0 s1 :
  (c < 6)%nat → length nm = 12%nat → length sm = 12%nat →
  pair_at nm c n0 n1 → pair_at sm c s0 s1 → clamped c n0 n1 s0 s1 →
  separate_models c nm sm =
    Some (set2 nm c (n0 - sep_noise c n0 n1 s0 s1) (n1 - sep_noise c n0 n1 s0 s1),
          set2 sm c (s0 + sep_speech c n0 n1 s0 s1) (s1 + sep_speech c n0 n1 s0 s1),
          kMaximumSpeech !!! c).
Proof.
  intros Hc Hln Hls Hn Hs Hcl.
  pose proof (move_apart_eq c nm sm n0 n1 s0 s1 Hc Hln Hls Hn Hs Hcl) as HM.
  pose proof (moves_bounds _ (gap_bounds c n0 n1 s0 s1 Hc Hcl)) as [Hu Hd].
  pose proof (sep_noise_ok c n0 n1 s0 s1 Hc Hcl) as [Ho0 Ho1].
  pose proof (sep_speech_ok c n0 n1 s0 s1 Hc Hcl) as Hso.
  pose proof (speech_upper _ _ _ Hc Hso) as [Hu0 Hu1]. destruct Hso as (Hlo0 & Hlo1 & _).
  pose proof (weights_sum c Hc) as (EN & ES & W1 & W2 & W3 & W4).
  destruct Hcl as ([Cn0 Cn0'] & [Cn1 Cn1'] & [Cs0 Cs0'] & [Cs1 Cs1'] & _).
  unfold sep_noise, sep_speech, noise_ok in *. cbv zeta in *.
  set (u := move_up (gap c n0 n1 s0 s1)) in *. set (d := move_down (gap c n0 n1 s0 s1)) in *.
  clearbody u d. unfold separate_models.
  rewrite (WeightedAverage_eq nm c 0 _ n0 n1 _ _ Hln Hc Hn (table_pair kNoiseDataWeights c eq_refl Hc))
    by (done || unfold int16; lia).
  cbn [mbind option_bind]. rewrite !Z.add_0_r, (set2_id nm) by done.
  rewrite (WeightedAverage_eq sm c 0 _ s0 s1 _ _ Hls Hc Hs (table_pair kSpeechDataWeights c eq_refl Hc))
    by (done || unfold int16; lia).
  cbn [mbind option_bind]. rewrite !Z.add_0_r, (set2_id sm) by done.
  rewrite (lookup_total_Some kMinimumDifference c) in HM |- * by (simpl; lia).
  cbn [mbind option_bind] in HM |- *. rewrite HM. cbn [mbind option_bind].
  rewrite (lookup_total_Some kMaximumSpeech c), (lookup_total_Some kMaximumNoise c) by (simpl; lia).
  cbn [mbind option_bind].
  assert (-200000 ≤ ws0 c * (s0 + u) + ws1 c * (s1 + u) ≤ 3700000) as A1
    by (clear -ES W3 W4 Cs0 Cs0' Cs1 Cs1' Hu; nia).
  assert (-200000 ≤ wn0 c * (n0 - d) + wn1 c * (n1 - d) ≤ 3700000) as A2
    by (clear -EN W1 W2 Cn0 Cn0' Cn1 Cn1' Hd Hc; nia).
  set (SG := ws0 c * (s0 + u) + ws1 c * (s1 + u)) in *.
  set (NG := wn0 c * (n0 - d) + wn1 c * (n1 - d)) in *. clearbody SG NG.
  assert (0 ≤ kMaximumSpeech !!! c ≤ 12000 ∧ 0 ≤ kMaximumNoise !!! c ≤ 12000) as [K1 K2]
    by (clear -Hc; channels c; lia).
  rewrite (lower_block_eq c _ (s0 + u) (s1 + u) _ SG Hc);
    [|by rewrite set2_length|by apply set2_at|done|done|unfold int16; lia..].
  cbn [mbind option_bind].
  rewrite (lower_block_eq c _ (n0 - d) (n1 - d) _ NG Hc);
    [|by rewrite set2_length|by apply set2_at|done|done|unfold int16; lia..].
  cbn [mbind option_bind]. rewrite !set2_set2, !Z.add_sub_assoc, !Z.sub_add_distr. done.
Qed.

(** ** Invariants of the instance and of the locals *)

Definition means_ok (nm sm : list Z) : Prop :=
  ∀ c n0 n1 s0 s1, (c < 6)%nat → pair_at nm c n0 n1 → pair_at sm c s0 s1 →
  noise_ok n0 ∧ noise_ok n1 ∧ speech_ok c s0 s1.

Record models_ok (self : VadInstT) : Prop := {
  mo_nm : length (noise_means self) = 12%nat;
  mo_sm : length (speech_means self) = 12%nat;
  mo_ns : length (noise_stds self) = 12%nat;
  mo_ss : length (speech_stds self) = 12%nat;
  mo_ns_ok : Forall std_ok (noise_stds self);
  mo_ss_ok : Forall std_ok (speech_stds self);
  mo_means : means_ok (noise_means self) (speech_means self);
}.

Record loc_ok (loc : Loc) : Prop := {
  lo_dN : length (deltaN loc) = 12%nat;
  lo_dS : length (deltaS loc) = 12%nat;
  lo_ng : length (ngprvec loc) = 12%nat;
  lo_sg : length (sgprvec loc) = 12%nat;
  lo_np : length (noise_probability loc) = 2%nat;
  lo_sp : length (speech_probability loc) = 2%nat;
  lo_flag : vadflag loc = 0 ∨ vadflag loc = 1;
}.

(** Replacing the means of one channel. *)
Lemma means_ok_set2 nm sm c n0 n1 s0 s1 :
  length nm = 12%nat → length sm = 12%nat → (c < 6)%nat →
  means_ok nm sm → noise_ok n0 → noise_ok n1 → speech_ok c s0 s1 →
  means_ok (set2 nm c n0 n1) (set2 sm c s0 s1).
Proof.
  intros Hn Hs Hc H H0 H1 H2 c' a b x y Hc' Hp Hq.
  destruct (decide (c = c')) as [<-|].
  - destruct (pair_unique _ _ _ _ _ _ Hp (set2_at nm c n0 n1 Hn Hc)) as [-> ->].
    destruct (pair_unique _ _ _ _ _ _ Hq (set2_at sm c s0 s1 Hs Hc)) as [-> ->]. done.
  - apply set2_other in Hp, Hq; [|done..]. by eapply H.
Qed.

(** A Gaussian evaluation on a cell of the tables. *)
Lemma gaussian_at self c k f : models_ok self → (c < 6)%nat → (k < 2)%nat → feature_ok c f →
  let g := (c + k * kNumChannels)%nat in
  ∃ nmean nstd smean sstd, noise_means self !! g = Some nmean ∧ noise_stds self !! g = Some nstd ∧
    speech_means self !! g = Some smean ∧ speech_stds self !! g = Some sstd ∧
    (∃ p d, WebRtcVad_GaussianProbability f nmean nstd = Some (p, d)) ∧
    (∃ p d, WebRtcVad_GaussianProbability f smean sstd = Some (p, d)).
Proof.
  intros [Hnm Hsm Hns Hss Ons Oss Hmeans] Hc Hk Hf g.
  destruct (pair_exists _ c Hnm Hc) as (n0 & n1 & Pn).
  destruct (pair_exists _ c Hsm Hc) as (s0 & s1 & Ps).
  destruct (Hmeans c n0 n1 s0 s1 Hc Pn Ps) as (O0 & O1 & Os).
  pose proof (speech_upper c s0 s1 Hc Os) as [U0 U1]. pose proof Os as (L0 & L1 & _).
  pose proof (speech_distance c f s0 s1 Hc Hf Os) as [D0 D1].
  pose proof (noise_distance c f n0 Hc Hf O0). pose proof (noise_distance c f n1 Hc Hf O1).
  destruct (lookup_lt_is_Some_2 (noise_stds self) g) as [nstd Hn]; [unfold g, kNumChannels; lia|].
  destruct (lookup_lt_is_Some_2 (speech_stds self) g) as [sstd Hs]; [unfold g, kNumChannels; lia|].
  pose proof (Forall_lookup_1 _ _ _ _ Ons Hn) as Sn. pose proof (Forall_lookup_1 _ _ _ _ Oss Hs) as Ss.
  assert (∃ nmean smean, noise_means self !! g = Some nmean ∧ speech_means self !! g = Some smean ∧
    noise_ok nmean ∧ 640 ≤ smean ≤ 19400 ∧ Z.abs (8 * f - nmean) ≤ 18000 ∧
    Z.abs (8 * f - smean) ≤ 18000) as (nmean & smean & Gn & Gs & On & Us & Dn & Ds).
  { destruct Pn as [Pn0 Pn1], Ps as [Ps0 Ps1]. destruct k as [|[|k]]; [| |lia].
    - exists n0, s0. unfold g. rewrite Nat.add_0_r. by split_and!.
    - exists n1, s1. unfold g, kNumChannels. by split_and!. }
  assert (-2053 ≤ f ≤ 2053) as Hfb.
  { unfold feature_ok in Hf. assert (0 ≤ kOffsetVector !!! c) by (clear -Hc; channels c; lia). lia. }
  unfold noise_ok, std_ok in *. exists nmean, nstd, smean, sstd. split_and!; try done.
  - pose proof (gaussian_safe f nmean nstd) as G.
    apply wp_exists in G as ([p d] & E & _); [eauto|unfold int16; lia..].
  - pose proof (gaussian_safe f smean sstd) as G.
    apply wp_exists in G as ([p d] & E & _); [eauto|unfold int16; lia..].
Qed.

Lemma hypothesis_probabilities_spec self f c loc :
  models_ok self → (c < 6)%nat → feature_ok c f → loc_ok loc →
  wp (hypothesis_probabilities self f c loc) (λ '(_, _, loc'), loc_ok loc').
Proof.
  intros Hm Hc Hf Hl. apply (wp_for (λ _ '(_, _, l), loc_ok l)); [done| |by intros [[??]?]].
  intros k [[h0 h1] l] Hk [L1 L2 L3 L4 L5 L6 L7]. unfold kNumGaussians in Hk.
  cbv beta iota zeta.
  destruct (gaussian_at self c k f Hm Hc ltac:(lia) Hf)
    as (nmean & nstd & smean & sstd & -> & -> & -> & -> & (p & d & Ep) & (p' & d' & Ep')).
  assert (c + k * kNumChannels < 12)%nat by (unfold kNumChannels; lia).
  cbn [mbind option_bind]. rewrite Ep. cbn [mbind option_bind].
  apply wp_bind, wp_wr; [lia|].
  rewrite (lookup_total_Some kNoiseDataWeights) by (simpl; lia). cbn [mbind option_bind].
  apply wp_bind, wp_wr; [lia|]. rewrite Ep'. cbn [mbind option_bind].
  apply wp_bind, wp_wr; [lia|].
  rewrite (lookup_total_Some kSpeechDataWeights) by (simpl; lia). cbn [mbind option_bind].
  apply wp_bind, wp_wr; [lia|]. apply wp_ret.
  constructor; cbn; by rewrite ?length_insert.
Qed.

Lemma conditional_spec prob h c low vec : length prob = 2%nat → length vec = 12%nat → (c < 6)%nat →
  wp (conditional prob h c low vec) (λ v, length v = 12%nat).
Proof.
  intros Hp Hv Hc. unfold conditional. destruct (0 <? s16 (h >>i 12)).
  - rewrite (lookup_total_Some prob 0) by lia. cbn [mbind option_bind].
    apply wp_bind, wp_wr; [lia|]. apply wp_wr; [rewrite length_insert; unfold kNumChannels; lia|].
    by rewrite !length_insert.
  - destruct low; [|done]. apply wp_wr; [lia|]. by rewrite length_insert.
Qed.

Lemma channel_test_spec self features ind c loc :
  models_ok self → features_ok features → (c < 6)%nat → loc_ok loc →
  wp (channel_test self features ind c loc) loc_ok.
Proof.
  intros Hm [Hlf Hf] Hc Hl. unfold channel_test.
  rewrite (lookup_total_Some features c) by lia. cbn [mbind option_bind].
  apply wp_bind. wp_call (by apply hypothesis_probabilities_spec; [..|apply Hf|]).
  intros [[h0 h1] l] [L1 L2 L3 L4 L5 L6 L7].
  rewrite (lookup_total_Some kSpectrumWeight c) by (simpl; lia). cbn [mbind option_bind].
  apply wp_bind. wp_call (by apply conditional_spec). intros ng Hng.
  apply wp_bind. wp_call (by apply conditional_spec). intros sg Hsg. apply wp_ret.
  constructor; cbn; try done. case_match; [by right|done].
Qed.

(** ** Model update *)

Lemma update_gaussian_spec loc flag f fm t maxspe c k m :
  loc_ok loc → (c < 6)%nat → (k < 2)%nat → 11392 ≤ maxspe ≤ 12800 →
  length (m_nm m) = 12%nat → length (m_sm m) = 12%nat → length (m_ns m) = 12%nat →
  length (m_ss m) = 12%nat → Forall std_ok (m_ns m) → Forall std_ok (m_ss m) →
  let g := (c + k * kNumChannels)%nat in
  wp (update_gaussian loc flag f fm t maxspe c k m) (λ m', ∃ n s a b,
    m' = {| m_nm := <[g := n]> (m_nm m); m_sm := <[g := s]> (m_sm m);
            m_ns := <[g := a]> (m_ns m); m_ss := <[g := b]> (m_ss m) |} ∧
    640 ≤ n ≤ (72 + Z.of_nat k - Z.of_nat c) * 128 ∧
    (flag = 0 → m_sm m !! g = Some s) ∧ (flag ≠ 0 → 640 ≤ s ≤ maxspe + 640) ∧
    std_ok a ∧ std_ok b).
Proof.
  intros [L1 L2 L3 L4 _ _ _] Hc Hk Hmx H1 H2 H3 H4 O1 O2 g.
  assert (g < 12)%nat as Hg by (unfold g, kNumChannels; lia).
  unfold update_gaussian. fold g.
  rewrite (lookup_total_Some (m_nm m) g), (lookup_total_Some (m_sm m) g),
    (lookup_total_Some (m_ns m) g), (lookup_total_Some (m_ss m) g),
    (lookup_total_Some (ngprvec loc) g), (lookup_total_Some (deltaN loc) g),
    (lookup_total_Some (sgprvec loc) g), (lookup_total_Some (deltaS loc) g) by lia.
  cbn [mbind option_bind]. apply wp_bind, wp_wr; [lia|].
  pose proof (noise_mean_clamped flag (m_nm m !!! g) (ngprvec loc !!! g) (deltaN loc !!! g)
    fm t c k Hc Hk) as Hn.
  pose proof (lookup_total_Some (m_ns m) g ltac:(lia)) as En.
  pose proof (lookup_total_Some (m_ss m) g ltac:(lia)) as Es.
  pose proof (Forall_lookup_1 _ _ _ _ O1 En). pose proof (Forall_lookup_1 _ _ _ _ O2 Es).
  destruct (Z.eqb_spec flag 0) as [->|Hf]; cbn [negb].
  - apply wp_bind, wp_wr; [lia|]. apply wp_ret.
    eexists _, (m_sm m !!! g), _, (m_ss m !!! g). split.
    { by rewrite (list_insert_id (m_sm m)), (list_insert_id (m_ss m))
        by (apply lookup_total_Some; lia). }
    refine (conj _ (conj _ (conj _ (conj _ _)))); [lia|done|done| |done].
    by apply std_ok_clamped, std_clamped.
  - rewrite (lookup_total_Some kMinimumMean k) by (simpl; lia). cbn [mbind option_bind].
    apply wp_bind, wp_wr; [lia|]. apply wp_bind, wp_wr; [lia|]. apply wp_ret.
    eexists _, _, (m_ns m !!! g), _. split.
    { by rewrite (list_insert_id (m_ns m)) by (apply lookup_total_Some; lia). }
    assert (640 ≤ kMinimumMean !!! k ≤ 768) as Hmm
      by (clear -Hk; destruct k as [|[|]]; [..|lia]; eval_tables; lia).
    pose proof (speech_mean_clamped (m_sm m !!! g) (sgprvec loc !!! g) (deltaS loc !!! g)
      maxspe _ Hmm Hmx).
    refine (conj _ (conj _ (conj _ (conj _ _)))); [lia|done|intros; lia|done|]. by apply std_ok_clamped, std_clamped.
Qed.

(** The loop over both Gaussians. *)
Lemma update_loop_spec loc flag f fm t maxspe c m :
  loc_ok loc → (c < 6)%nat → 11392 ≤ maxspe ≤ 12800 →
  length (m_nm m) = 12%nat → length (m_sm m) = 12%nat → length (m_ns m) = 12%nat →
  length (m_ss m) = 12%nat → Forall std_ok (m_ns m) → Forall std_ok (m_ss m) →
  wp (for_loop kNumGaussians 0 (update_gaussian loc flag f fm t maxspe c) m) (λ m',
    ∃ n0 n1 s0 s1, m_nm m' = set2 (m_nm m) c n0 n1 ∧ m_sm m' = set2 (m_sm m) c s0 s1 ∧
      length (m_ns m') = 12%nat ∧ length (m_ss m') = 12%nat ∧
      Forall std_ok (m_ns m') ∧ Forall std_ok (m_ss m') ∧
      640 ≤ n0 ≤ (72 - Z.of_nat c) * 128 ∧ 640 ≤ n1 ≤ (73 - Z.of_nat c) * 128 ∧
      (flag = 0 → pair_at (m_sm m) c s0 s1) ∧
      (flag ≠ 0 → 640 ≤ s0 ≤ maxspe + 640 ∧ 640 ≤ s1 ≤ maxspe + 640)).
Proof.
  intros Hl Hc Hmx H1 H2 H3 H4 O1 O2. unfold kNumGaussians. cbn [for_loop].
  apply wp_bind. wp_call (apply update_gaussian_spec; (done || lia)).
  intros m1 (n0 & s0 & a0 & b0 & -> & N0 & S0 & S0' & A0 & B0). unfold kNumChannels in *.
  rewrite Nat.mul_0_l, Nat.add_0_r in *.
  apply wp_bind. wp_call (apply update_gaussian_spec; cbn [m_nm m_sm m_ns m_ss];
    rewrite ?length_insert; try done; try lia; by apply Forall_insert).
  intros m2 (n1 & s1 & a1 & b1 & -> & N1 & S1 & S1' & A1 & B1). apply wp_ret.
  unfold kNumChannels in *. rewrite Nat.mul_1_l in *. cbn [m_nm m_sm m_ns m_ss] in *.
  exists n0, n1, s0, s1. rewrite !length_insert. split_and!; try done; try lia.
  - by repeat apply Forall_insert.
  - by repeat apply Forall_insert.
  - intros Hf. split; [by apply S0|]. specialize (S1 Hf).
    by rewrite list_lookup_insert_ne in S1 by lia.
Qed.

(** Fields that a frame does not touch once the features are computed. *)
Definition same_rest (self self' : VadInstT) : Prop :=
  ∃ iv lv mv nm sm ns ss, self' = set_models (set_minima self iv lv mv) nm sm ns ss.

Lemma same_rest_trans a b c : same_rest a b → same_rest b c → same_rest a c.
Proof.
  intros (? & ? & ? & ? & ? & ? & ? & ->) (? & ? & ? & ? & ? & ? & ? & ->).
  by eexists _, _, _, _, _, _, _.
Qed.

Lemma models_ok_minima self iv lv mv : models_ok self → models_ok (set_minima self iv lv mv).
Proof. by intros []; constructor. Qed.
Lemma minima_wf_models self nm sm ns ss : minima_wf self → minima_wf (set_models self nm sm ns ss).
Proof. done. Qed.

(** The speech means before the separation are clamped or bounded by the
    invariant. *)
Lemma clamped_of c n0 n1 s0 s1 s0' s1' flag :
  (c < 6)%nat → 640 ≤ n0 ≤ (72 - Z.of_nat c) * 128 → 640 ≤ n1 ≤ (73 - Z.of_nat c) * 128 →
  speech_ok c s0 s1 → (flag = 0 → s0' = s0 ∧ s1' = s1) →
  (flag ≠ 0 → 640 ≤ s0' ≤ prev_max c + 640 ∧ 640 ≤ s1' ≤ prev_max c + 640) →
  clamped c n0 n1 s0' s1'.
Proof.
  intros Hc Hn0 Hn1 Hs H0 H1. unfold clamped. destruct (decide (flag = 0)) as [E|E].
  - destruct (H0 E) as [-> ->]. pose proof (speech_upper _ _ _ Hc Hs).
    destruct Hs as (? & ? & ? & ?). lia.
  - destruct (H1 E). assert (prev_max c ≤ 12800) by (clear -Hc; channels c; lia). lia.
Qed.

Lemma channel_update_spec features loc flag c self maxspe :
  features_ok features → loc_ok loc → (c < 6)%nat → models_ok self → minima_wf self →
  maxspe = prev_max c →
  wp (channel_update features loc flag c (self, maxspe)) (λ '(self', maxspe'),
    models_ok self' ∧ minima_wf self' ∧ maxspe' = prev_max (S c) ∧ same_rest self self').
Proof.
  intros [Hlf Hf] Hl Hc Hm Hmin ->. pose proof Hm as [M1 M2 M3 M4 M5 M6 M7].
  assert (11392 ≤ prev_max c ≤ 12800) as Hpm by (clear -Hc; channels c; lia).
  unfold channel_update. rewrite (lookup_total_Some features c) by lia. cbn [mbind option_bind].
  pose proof (Hf c Hc) as Hfc. unfold feature_ok in Hfc.
  assert (0 ≤ kOffsetVector !!! c) as Hoff by (clear -Hc; channels c; lia).
  assert (0 ≤ features !!! c ≤ 10000) as Hfv by (clear -Hfc Hoff; lia).
  pose proof Hmin as (_ & _ & Hmv & Hmb & _).
  destruct (lookup_lt_is_Some_2 (mean_value self) c) as [mean Hmean]; [lia|].
  rewrite (FindMinimum_eq self (features !!! c) c mean Hmin Hc Hfv Hmean).
  cbn [mbind option_bind].
  destruct (FindMinimum_entries self (features !!! c) c mean Hmin Hc Hfv
    (Forall_lookup_1 _ _ _ _ Hmb Hmean)) as (_ & _ & Hmin').
  set (self1 := set_minima self _ _ _) in *.
  change (noise_means self1) with (noise_means self).
  change (speech_means self1) with (speech_means self).
  change (noise_stds self1) with (noise_stds self).
  change (speech_stds self1) with (speech_stds self).
  destruct (pair_exists _ c M1 Hc) as (n0 & n1 & Pn).
  destruct (pair_exists _ c M2 Hc) as (s0 & s1 & Ps).
  destruct (M7 c n0 n1 s0 s1 Hc Pn Ps) as (O0 & O1 & Os). unfold noise_ok in O0, O1.
  pose proof (weights_sum c Hc) as (_ & _ & W1 & W2 & _).
  rewrite (WeightedAverage_eq _ c 0 _ n0 n1 _ _ M1 Hc Pn (table_pair kNoiseDataWeights c eq_refl Hc))
    by (done || unfold int16; lia).
  cbn [mbind option_bind]. rewrite !Z.add_0_r, (set2_id _ _ _ _ Pn).
  apply wp_bind. wp_call (by apply update_loop_spec).
  intros m (n0' & n1' & s0' & s1' & -> & -> & L3 & L4 & F3 & F4 & B0 & B1 & E0 & E1).
  cbn [m_nm m_sm] in E0 |- *.
  assert (clamped c n0' n1' s0' s1') as Hcl.
  { eapply (clamped_of c n0' n1' s0 s1 s0' s1' flag); try done.
    intros Ef. by apply (pair_unique _ _ _ _ _ _ (E0 Ef) Ps). }
  rewrite (separate_models_eq c _ _ n0' n1' s0' s1' Hc)
    by (done || by rewrite set2_length || by apply set2_at).
  cbn [mbind option_bind]. apply wp_ret. rewrite !set2_set2.
  destruct (sep_noise_ok c n0' n1' s0' s1' Hc Hcl) as [O0' O1'].
  pose proof (sep_speech_ok c n0' n1' s0' s1' Hc Hcl) as Os'.
  refine (conj _ (conj _ (conj _ _))); [|by apply minima_wf_models|done|].
  - constructor; cbn; rewrite ?set2_length; try done. by apply means_ok_set2.
  - by eexists _, _, _, _, _, _, _.
Qed.

(** ** The instance *)

Record core_wf (self : VadInstT) : Prop := {
  wf_models : models_ok self;
  wf_minima : minima_wf self;
  wf_filters : filters_wf self;
  wf_ds : length (downsampling_filter_states self) = 4%nat;
  wf_ds_bound : Forall ds_bound (downsampling_filter_states self);
  wf_48 : sized48to8 (state_48_to_8 self);
  wf_hang : 0 ≤ over_hang self ≤ 14;
  wf_speech : 0 ≤ num_of_speech self ≤ 6;
  wf_o1 : length (over_hang_max_1 self) = 3%nat ∧ Forall (λ h, 0 ≤ h ≤ 14) (over_hang_max_1 self);
  wf_o2 : length (over_hang_max_2 self) = 3%nat ∧ Forall (λ h, 0 ≤ h ≤ 14) (over_hang_max_2 self);
  wf_ind : length (individual self) = 3%nat;
  wf_tot : length (total self) = 3%nat;
}.

(** What stays as it was set: the initialisation flag and the thresholds. *)
Definition same_config (self self' : VadInstT) : Prop :=
  init_flag self' = init_flag self ∧ over_hang_max_1 self' = over_hang_max_1 self ∧
  over_hang_max_2 self' = over_hang_max_2 self ∧ individual self' = individual self ∧
  total self' = total self.

Lemma same_config_refl self : same_config self self.
Proof. done. Qed.
Lemma same_config_trans a b c : same_config a b → same_config b c → same_config a c.
Proof. unfold same_config. intuition congruence. Qed.

Record junk_wf (j : Junk) : Prop := {
  jw_filters : junk_ok (junk_filters j);
  jw_dN : length (junk_deltaN j) = 12%nat;
  jw_dS : length (junk_deltaS j) = 12%nat;
  jw_np : length (junk_prob j).1 = 2%nat;
  jw_sp : length (junk_prob j).2 = 2%nat;
  jw_features : length (junk_features j) = 6%nat;
  jw_nb : length (junk_speech_nb j) = 240%nat;
  jw_wb : length (junk_speechWB j) = 480%nat;
}.

Lemma core_wf_rest self self' :
  core_wf self → same_rest self self' → models_ok self' → minima_wf self' → core_wf self'.
Proof.
  intros [] (? & ? & ? & ? & ? & ? & ? & ->) ? ?. by constructor.
Qed.

Lemma core_wf_frame_counter self fc :
  core_wf self → core_wf (set_counters self fc (over_hang self) (num_of_speech self)).
Proof. intros [[] ? ? ? ? ? ? ? ? ? ? ?]. by constructor. Qed.

(** The values the detector can return. *)
Definition decision (v : Z) : Prop := v = 0 ∨ v = 1 ∨ 3 ≤ v ≤ 16.

Lemma core_wf_counters self fc oh ns :
  core_wf self → 0 ≤ oh ≤ 14 → 0 ≤ ns ≤ 6 → core_wf (set_counters self fc oh ns).
Proof. intros [[] ? ? ? ? ? ? ? ? ? ? ?] ? ?. by constructor. Qed.

Lemma smooth_decision_spec flag o1 o2 self :
  core_wf self → (flag = 0 ∨ flag = 1) → 0 ≤ o1 ≤ 14 → 0 ≤ o2 ≤ 14 →
  let '(v, self') := smooth_decision flag o1 o2 self in
  decision v ∧ core_wf self' ∧ same_config self self'.
Proof.
  intros Hwf Hf H1 H2. pose proof (wf_hang _ Hwf) as Hh. pose proof (wf_speech _ Hwf) as Hs.
  unfold smooth_decision, kMaxSpeechFrames, decision, same_config.
  rewrite (s32_id (2 + _)), (s16_id (2 + _)) by (unfold int16, int32; lia).
  rewrite (s32_id (_ - 1)), (s16_id (_ - 1)) by (unfold int16, int32; lia).
  rewrite (s32_id (_ + 1)), (s16_id (_ + 1)) by (unfold int16, int32; lia).
  destruct Hf as [-> | ->]; cbn [Z.eqb].
  - destruct (Z.ltb_spec 0 (over_hang self)).
    + split; [lia|]. split; [apply core_wf_counters; (done || lia)|done].
    + split; [lia|]. split; [apply core_wf_counters; (done || lia)|done].
  - destruct (Z.ltb_spec 6 (num_of_speech self + 1)).
    + split; [lia|]. split; [apply core_wf_counters; (done || lia)|done].
    + split; [lia|]. split; [apply core_wf_counters; (done || lia)|done].
Qed.

Lemma frame_thresholds_spec self n : core_wf self →
  wp (frame_thresholds self n) (λ '(o1, o2, _, _), 0 ≤ o1 ≤ 14 ∧ 0 ≤ o2 ≤ 14).
Proof.
  intros Hwf. destruct (wf_o1 _ Hwf) as [L1 F1]. destruct (wf_o2 _ Hwf) as [L2 F2].
  pose proof (wf_ind _ Hwf) as L3. pose proof (wf_tot _ Hwf) as L4. unfold frame_thresholds.
  set (i := if (n =? 80)%nat then 0%nat else if (n =? 160)%nat then 1%nat else 2%nat).
  assert (i < 3)%nat by (unfold i; repeat case_match; lia).
  pose proof (lookup_total_Some (over_hang_max_1 self) i ltac:(lia)) as E1.
  pose proof (lookup_total_Some (over_hang_max_2 self) i ltac:(lia)) as E2.
  rewrite E1, E2, (lookup_total_Some (individual self) i), (lookup_total_Some (total self) i) by lia.
  cbn [mbind option_bind]. apply wp_ret.
  split; [exact (Forall_lookup_1 _ _ _ _ F1 E1)|exact (Forall_lookup_1 _ _ _ _ F2 E2)].
Qed.

Lemma GmmProbability_spec j self features power n :
  junk_wf j → core_wf self → features_ok features →
  wp (GmmProbability j self features power n) (λ '(v, self'),
    decision v ∧ core_wf self' ∧ same_config self self').
Proof.
  intros Hj Hwf Hf. unfold GmmProbability. apply wp_bind.
  wp_call (by apply frame_thresholds_spec). intros [[[o1 o2] ind] tot] [Ho1 Ho2].
  apply wp_bind. set (Q := λ '(flag, s), (flag = 0 ∨ flag = 1) ∧ core_wf s ∧ same_config self s).
  assert (wp (if kMinEnergy <? power then
       let loc := {| deltaN := junk_deltaN j; deltaS := junk_deltaS j;
                     ngprvec := replicate kTableSize 0; sgprvec := replicate kTableSize 0;
                     noise_probability := (junk_prob j).1;
                     speech_probability := (junk_prob j).2; vadflag := 0;
                     sum_log_likelihood_ratios := 0 |} in
       loc ← for_loop kNumChannels 0 (channel_test self features ind) loc;
       let flag := Z.lor (vadflag loc)
                     (if tot <=? sum_log_likelihood_ratios loc then 1 else 0) in
       '(self, _) ← for_loop kNumChannels 0 (channel_update features loc flag) (self, 12800);
       Some (flag, set_counters self (frame_counter self +i 1) (over_hang self)
                     (num_of_speech self))
     else Some (0, self)) Q) as HQ.
  { destruct (kMinEnergy <? power); [|exact (conj (or_introl eq_refl) (conj Hwf (same_config_refl self)))].
    cbv zeta. apply wp_bind. destruct Hj.
    wp_call (apply (wp_for (λ _, loc_ok)); [by constructor; auto| |done]).
    { intros c l Hc Hl. apply channel_test_spec; [apply Hwf|done|unfold kNumChannels in *; lia|done]. }
    intros loc Hl. apply wp_bind.
    apply (wp_for (λ c '(s, m), models_ok s ∧ minima_wf s ∧ m = prev_max c ∧ same_rest self s)).
    - split_and!; [apply Hwf..|done|]. destruct self. by eexists _, _, _, _, _, _, _.
    - intros c [s m] Hc (Hm & Hmi & -> & Hs). unfold kNumChannels in Hc.
      wp_call (apply channel_update_spec; (done || lia)). intros [s' m'] (? & ? & -> & ?).
      split_and!; try done. by eapply same_rest_trans.
    - intros [s m] (Hm & Hmi & _ & Hs). apply wp_ret. split; [|split].
      + destruct (lo_flag _ Hl) as [-> | ->]; case_match; auto.
      + by apply core_wf_frame_counter, (core_wf_rest self).
      + destruct Hs as (? & ? & ? & ? & ? & ? & ? & ->). done. }
  wp_use HQ. intros [flag s] (Hfl & Hs & Hc). apply wp_ret.
  pose proof (smooth_decision_spec flag o1 o2 s Hs Hfl Ho1 Ho2) as HD.
  destruct (smooth_decision flag o1 o2 s) as [v s']. destruct HD as (? & ? & C').
  exact (conj H (conj H0 (same_config_trans _ _ _ Hc C'))).
Qed.

(** ** Entry points *)

Lemma core_wf_filters self us ls hp :
  core_wf self → filters_wf (set_filters self us ls hp) → core_wf (set_filters self us ls hp).
Proof. intros [[] ? ? ? ? ? ? ? ? ? ? ?] ?. by constructor. Qed.
Lemma core_wf_vad self v : core_wf self → core_wf (set_vad self v).
Proof. intros [[] ? ? ? ? ? ? ? ? ? ? ?]. by constructor. Qed.
Lemma core_wf_downsampling self d :
  core_wf self → length d = 4%nat → Forall ds_bound d → core_wf (set_downsampling self d).
Proof. intros [[] ? ? ? ? ? ? ? ? ? ? ?] ? ?. by constructor. Qed.
Lemma core_wf_48 self st : core_wf self → sized48to8 st → core_wf (set_state_48_to_8 self st).
Proof. intros [[] ? ? ? ? ? ? ? ? ? ? ?] ?. by constructor. Qed.

(** The postcondition of every entry point. *)
Definition vad_post (self : VadInstT) (r : Z * VadInstT) : Prop :=
  decision r.1 ∧ core_wf r.2 ∧ same_config self r.2 ∧ vad r.2 = r.1.

Lemma CalcVad8khz_spec j self frame n :
  junk_wf j → core_wf self → (16 ≤ n ≤ 240)%nat → (n ≤ length frame)%nat →
  wp (WebRtcVad_CalcVad8khz j self frame n) (vad_post self).
Proof.
  intros Hj Hwf Hn Hl. unfold WebRtcVad_CalcVad8khz. apply wp_bind.
  wp_call (apply CalculateFeatures_safe; [apply Hj|apply Hwf|apply Hj|done|done]).
  intros [[t self1] f] (_ & Hf & Hfw & us & ls & hp & ->).
  apply wp_bind. wp_call (apply GmmProbability_spec; [done|by apply core_wf_filters|done]).
  intros [v self2] (Hd & Hw & Hc). apply wp_ret. split; [done|].
  split; [by apply core_wf_vad|]. split; [exact Hc|done].
Qed.

(** Decimating by two keeps the filter states bounded. *)
Lemma Downsampling_safe signal_in signal_out filter fo n :
  length filter = 4%nat → Forall ds_bound filter → (fo + 1 < 4)%nat →
  (n ≤ length signal_in)%nat → Forall int16 signal_in → (n / 2 ≤ length signal_out)%nat →
  wp (WebRtcVad_Downsampling signal_in signal_out filter fo n) (λ '(out, filter'),
    (∃ f, (∀ i, int16 (f i)) ∧ wrote signal_out 0 (n / 2) f out) ∧
    length filter' = 4%nat ∧ Forall ds_bound filter').
Proof.
  intros Hf Hb Hfo Hi H16 Ho. pose proof (double_half n) as Hn.
  pose proof (lookup_total_Some filter fo ltac:(lia)) as E1.
  pose proof (lookup_total_Some filter (fo + 1) ltac:(lia)) as E2.
  pose proof (Forall_lookup_1 _ _ _ _ Hb E1). pose proof (Forall_lookup_1 _ _ _ _ Hb E2).
  assert (∀ i, (i < 2 * (n / 2))%nat → int16 (signal_in !!! i)) as Hx.
  { intros i Hin. eapply Forall_lookup_1; [exact H16|]. apply lookup_total_Some. lia. }
  wp_call (apply (Downsampling_spec signal_in signal_out filter fo n _ _ (λ i, signal_in !!! i)
    E1 E2); [done|done| |done|done]).
  { intros i Hin. apply lookup_total_Some. lia. }
  intros [out filter'] (Hw & ->). split; [|split].
  - eexists. split; [|exact Hw]. intros i. apply s16_range.
  - by rewrite !length_insert.
  - apply Forall_insert; [apply Forall_insert; [done|]|]; apply ds_state_bound;
      try done; try (unfold kAllPassCoefsQ13_0, kAllPassCoefsQ13_1; lia);
      intros i Hin; apply Hx; lia.
Qed.

Lemma wrote_int16 m o n f m' : wrote m o n f m' → (∀ i, int16 (f i)) → (o + n = length m)%nat →
  o = 0%nat → Forall int16 m'.
Proof.
  intros (Hl & Hw & _) Hf Hn ->. apply Forall_lookup. intros i x Hx.
  pose proof (lookup_lt_Some _ _ _ Hx). rewrite <- (Nat.add_0_l i), Hw in Hx by lia.
  simplify_eq. apply Hf.
Qed.

Lemma CalcVad16khz_spec j self frame n :
  junk_wf j → core_wf self → (32 ≤ n ≤ 480)%nat → (n ≤ length frame)%nat → Forall int16 frame →
  wp (WebRtcVad_CalcVad16khz j self frame n) (vad_post self).
Proof.
  intros Hj Hwf Hn Hl H16. unfold WebRtcVad_CalcVad16khz.
  assert (16 ≤ n / 2 ≤ 240)%nat as H2.
  { split; [apply Nat.div_le_lower_bound; lia|apply Nat.Div0.div_le_upper_bound; lia]. }
  apply wp_bind. wp_call (apply Downsampling_safe;
    [apply Hwf|apply Hwf|lia|done|done|rewrite (jw_nb _ Hj); lia]).
  intros [out ds] ((f & Hf & Hw) & Hds & Hdb).
  wp_call (apply CalcVad8khz_spec; [done|by apply core_wf_downsampling|done|]).
  { rewrite (wrote_length _ _ _ _ _ Hw), (jw_nb _ Hj). lia. }
  intros r Hr. exact Hr.
Qed.

Lemma take_wrote_int16 m n f m' : wrote m 0 n f m' → (∀ i, int16 (f i)) → (n ≤ length m)%nat →
  Forall int16 (take n m').
Proof.
  intros Hw Hf Hn. rewrite <- (drop_0 m'), (wrote_take m 0 n f m' Hn Hw).
  apply Forall_fmap, Forall_forall. intros. apply Hf.
Qed.

(** The decimator reads the first [n] samples only. *)
Lemma Downsampling_take signal_in signal_out filter fo n : (n ≤ length signal_in)%nat →
  WebRtcVad_Downsampling signal_in signal_out filter fo n =
  WebRtcVad_Downsampling (take n signal_in) signal_out filter fo n.
Proof.
  intros Hn. pose proof (double_half n). unfold WebRtcVad_Downsampling.
  destruct (filter !! fo); [|done]. destruct (filter !! (fo + 1)%nat); [|done].
  cbn [mbind option_bind]. cbv zeta. f_equal. apply for_loop_ext.
  intros i [[o a] b] Hi. by rewrite !lookup_take_lt by lia.
Qed.

Lemma CalcVad32khz_spec j self frame n :
  junk_wf j → core_wf self → (64 ≤ n ≤ 960)%nat → (n ≤ length frame)%nat → Forall int16 frame →
  wp (WebRtcVad_CalcVad32khz j self frame n) (vad_post self).
Proof.
  intros Hj Hwf Hn Hl H16. unfold WebRtcVad_CalcVad32khz.
  assert (32 ≤ n / 2 ≤ 480)%nat as H2.
  { split; [apply Nat.div_le_lower_bound; lia|apply Nat.Div0.div_le_upper_bound; lia]. }
  assert (16 ≤ n / 2 / 2 ≤ 240)%nat as H4.
  { split; [apply Nat.div_le_lower_bound; lia|apply Nat.Div0.div_le_upper_bound; lia]. }
  apply wp_bind. wp_call (apply Downsampling_safe;
    [apply Hwf|apply Hwf|lia|done|done|rewrite (jw_wb _ Hj); lia]).
  intros [wb ds] ((f & Hf & Hw) & Hds & Hdb). pose proof (wrote_length _ _ _ _ _ Hw) as Hlw.
  rewrite (jw_wb _ Hj) in Hlw. apply wp_bind. rewrite Downsampling_take by lia.
  wp_call (apply Downsampling_safe; [done|done|lia|rewrite length_take; lia| |]).
  { apply (take_wrote_int16 _ _ _ _ Hw Hf). rewrite (jw_wb _ Hj). lia. }
  { rewrite (jw_nb _ Hj). lia. }
  intros [nb ds'] ((f' & Hf' & Hw') & Hds' & Hdb').
  wp_call (apply CalcVad8khz_spec; [done|by apply core_wf_downsampling|done|]).
  { rewrite (wrote_length _ _ _ _ _ Hw'), (jw_nb _ Hj). lia. }
  intros r Hr. exact Hr.
Qed.

Lemma CalcVad48khz_spec j self frame n :
  junk_wf j → core_wf self → (480 ≤ n ≤ 1440)%nat → (480 ≤ length frame)%nat →
  wp (WebRtcVad_CalcVad48khz j self frame n) (vad_post self).
Proof.
  intros Hj Hwf Hn Hl. unfold WebRtcVad_CalcVad48khz.
  assert (n / 480 ≤ 3)%nat as H3 by (apply Nat.Div0.div_le_upper_bound; lia).
  assert (16 ≤ n / 6 ≤ 240)%nat as H6.
  { split; [apply Nat.div_le_lower_bound; lia|apply Nat.Div0.div_le_upper_bound; lia]. }
  cbv zeta. apply wp_bind.
  apply (wp_for (λ _ '(nb, st, t), length nb = 240%nat ∧ sized48to8 st ∧ length t = 736%nat)).
  - split_and!; [apply Hj|apply Hwf..|by rewrite length_replicate].
  - intros i [[nb st] t] Hi (Hnb & Hst & Ht).
    wp_call (apply Resample48khzTo8khz_safe; [done|lia|lia|lia]).
    intros [[nb' st'] t'] ((f & _ & Hw) & Hst' & Ht').
    pose proof (wrote_length _ _ _ _ _ Hw). split_and!; [lia|apply Hst'..|lia].
  - intros [[nb st] t] (Hnb & Hst & _).
    wp_call (apply CalcVad8khz_spec; [done|by apply core_wf_48|done|lia]).
    intros r Hr. exact Hr.
Qed.

(** ** Initialisation *)

(** Every array has the size the declaration gives it; the contents are
    arbitrary, as after malloc. *)
Record sized (self : VadInstT) : Prop := {
  sz_ds : length (downsampling_filter_states self) = 4%nat;
  sz_48 : sized48to8 (state_48_to_8 self);
  sz_nm : length (noise_means self) = 12%nat;
  sz_sm : length (speech_means self) = 12%nat;
  sz_ns : length (noise_stds self) = 12%nat;
  sz_ss : length (speech_stds self) = 12%nat;
  sz_iv : length (index_vector self) = 96%nat;
  sz_lv : length (low_value_vector self) = 96%nat;
  sz_mv : length (mean_value self) = 6%nat;
  sz_us : length (upper_state self) = 5%nat;
  sz_ls : length (lower_state self) = 5%nat;
  sz_hp : length (hp_filter_state self) = 4%nat;
  sz_o1 : length (over_hang_max_1 self) = 3%nat;
  sz_o2 : length (over_hang_max_2 self) = 3%nat;
  sz_ind : length (individual self) = 3%nat;
  sz_tot : length (total self) = 3%nat;
}.

Lemma core_wf_sized self : core_wf self → sized self.
Proof.
  intros [[] (? & ? & ? & ?) (? & ? & ?) ? ? ? ? ? [] [] ? ?]. by constructor.
Qed.

Lemma copy_loop_spec tbl dst : length dst = length tbl →
  copy_loop (length tbl) (λ i, tbl !! i) dst = Some tbl.
Proof.
  intros Hl. assert (wp (copy_loop (length tbl) (λ i, tbl !! i) dst) (λ d, d = tbl)) as H.
  { apply (wp_for (λ i d, wrote dst 0 i (λ i, tbl !!! i) d)); [apply wrote_nil| |].
    - intros i d Hi Hw. rewrite (lookup_total_Some tbl i) by lia. cbn [mbind option_bind].
      apply (wp_wrote_snoc dst 0 i (λ i, tbl !!! i) _ _ _ Hw); [simpl; lia|done|done].
    - intros d (Hld & Hw & _). apply list_eq. intros i. destruct (decide (i < length tbl)%nat).
      + rewrite <- (Nat.add_0_l i) at 1. rewrite Hw by lia. symmetry. apply lookup_total_Some. lia.
      + rewrite !lookup_ge_None_2 by lia. done. }
  apply wp_exists in H as (? & -> & ->). done.
Qed.

Lemma copy_loop_const n v dst : length dst = n →
  copy_loop n (λ _, Some v) dst = Some (replicate n v).
Proof.
  intros Hl. rewrite <- (copy_loop_spec (replicate n v) dst) by (by rewrite length_replicate).
  rewrite length_replicate. apply for_loop_ext. intros i s Hi.
  by rewrite lookup_replicate_2 by lia.
Qed.

Lemma memcpy_all (dst src : list Z) n : length dst = n → length src = n →
  memcpy dst 0 src 0 n = Some src.
Proof.
  intros Hd Hs. unfold memcpy. rewrite decide_True by lia.
  rewrite take_0, drop_0, app_nil_l, (drop_ge dst), app_nil_r, take_ge by lia. done.
Qed.

(** The thresholds of a mode. *)
Definition mode_tables (mode : Z) : option (list Z * list Z * list Z * list Z) :=
  match mode with
  | 0 => Some (kOverHangMax1Q, kOverHangMax2Q, kLocalThresholdQ, kGlobalThresholdQ)
  | 1 => Some (kOverHangMax1LBR, kOverHangMax2LBR, kLocalThresholdLBR, kGlobalThresholdLBR)
  | 2 => Some (kOverHangMax1AGG, kOverHangMax2AGG, kLocalThresholdAGG, kGlobalThresholdAGG)
  | 3 => Some (kOverHangMax1VAG, kOverHangMax2VAG, kLocalThresholdVAG, kGlobalThresholdVAG)
  | _ => None
  end.

Lemma set_mode_core_eq self mode :
  length (over_hang_max_1 self) = 3%nat → length (over_hang_max_2 self) = 3%nat →
  length (individual self) = 3%nat → length (total self) = 3%nat →
  WebRtcVad_set_mode_core self mode =
    Some (match mode_tables mode with
          | Some (o1, o2, ind, tot) => (0, set_thresholds self o1 o2 ind tot)
          | None => (-1, self)
          end).
Proof.
  intros. unfold WebRtcVad_set_mode_core, mode_tables. cbv zeta.
  assert (∀ o1 o2 ind tot : list Z, length o1 = 3%nat → length o2 = 3%nat → length ind = 3%nat →
    length tot = 3%nat →
    (o1 ← memcpy (over_hang_max_1 self) 0 o1 0 3; o2 ← memcpy (over_hang_max_2 self) 0 o2 0 3;
     ind ← memcpy (individual self) 0 ind 0 3; tot ← memcpy (total self) 0 tot 0 3;
     Some (0, set_thresholds self o1 o2 ind tot)) =
    Some (0, set_thresholds self o1 o2 ind tot)) as E.
  { intros. rewrite !memcpy_all by done. done. }
  destruct mode as [|[[p|p|]|[p|p|]|]|p]; try done; by rewrite E.
Qed.

Lemma mode_tables_ok mode o1 o2 ind tot : mode_tables mode = Some (o1, o2, ind, tot) →
  length o1 = 3%nat ∧ length o2 = 3%nat ∧ length ind = 3%nat ∧ length tot = 3%nat ∧
  Forall (λ h, 0 ≤ h ≤ 14) o1 ∧ Forall (λ h, 0 ≤ h ≤ 14) o2.
Proof.
  unfold mode_tables. destruct mode as [|[[p|p|]|[p|p|]|]|p]; intros [= <- <- <- <-];
    (split_and!; [done..| |]); repeat constructor; lia.
Qed.

Lemma core_wf_thresholds self mode o1 o2 ind tot :
  core_wf self → mode_tables mode = Some (o1, o2, ind, tot) →
  core_wf (set_thresholds self o1 o2 ind tot).
Proof.
  intros [[] ? ? ? ? ? ? ? ? ? ? ?] (? & ? & ? & ? & ? & ?)%mode_tables_ok. by constructor.
Qed.

(** The initial models satisfy the invariant. *)
Lemma initial_means_ok : means_ok kNoiseDataMeans kSpeechDataMeans.
Proof.
  intros c n0 n1 s0 s1 Hc Hp Hq.
  destruct (pair_unique _ _ _ _ _ _ Hp (table_pair kNoiseDataMeans c eq_refl Hc)) as [-> ->].
  destruct (pair_unique _ _ _ _ _ _ Hq (table_pair kSpeechDataMeans c eq_refl Hc)) as [-> ->].
  unfold noise_ok, speech_ok. clear Hp Hq. channels c; lia.
Qed.

Lemma core_wf_initial self :
  noise_means self = kNoiseDataMeans → speech_means self = kSpeechDataMeans →
  noise_stds self = kNoiseDataStds → speech_stds self = kSpeechDataStds →
  index_vector self = replicate 96 0 → low_value_vector self = replicate 96 10000 →
  mean_value self = replicate 6 1600 → filters_wf self →
  downsampling_filter_states self = replicate 4 0 → sized48to8 (state_48_to_8 self) →
  over_hang self = 0 → num_of_speech self = 0 → over_hang_max_1 self = kOverHangMax1Q →
  over_hang_max_2 self = kOverHangMax2Q → individual self = kLocalThresholdQ →
  total self = kGlobalThresholdQ → core_wf self.
Proof.
  intros E1 E2 E3 E4 E5 E6 E7 E8 E9 E10 E11 E12 E13 E14 E15 E16.
  constructor; rewrite ?E9, ?E11, ?E12, ?E13, ?E14, ?E15, ?E16; try done; try lia.
  - constructor; rewrite ?E1, ?E2, ?E3, ?E4; try done; [| |apply initial_means_ok];
      unfold std_ok; repeat constructor; lia.
  - by apply minima_wf_init.
  - repeat constructor; unfold ds_bound; lia.
  - split; [done|]. repeat constructor; lia.
  - split; [done|]. repeat constructor; lia.
Qed.

Lemma copy_table tbl dst : length tbl = kTableSize → length dst = kTableSize →
  copy_loop kTableSize (λ i, tbl !! i) dst = Some tbl.
Proof. intros Ht Hd. rewrite <- Ht. apply copy_loop_spec. congruence. Qed.

Lemma InitCore_spec self : sized self →
  wp (WebRtcVad_InitCore (Some self)) (λ '(r, s), r = 0 ∧ ∃ self', s = Some self' ∧
    core_wf self' ∧ init_flag self' = kInitCheck ∧ over_hang self' = 0 ∧ vad self' = 1 ∧
    frame_counter self' = 0 ∧ noise_means self' = kNoiseDataMeans ∧
    speech_means self' = kSpeechDataMeans ∧ noise_stds self' = kNoiseDataStds ∧
    speech_stds self' = kSpeechDataStds).
Proof.
  intros [Z1 Z2 Z3 Z4 Z5 Z6 Z7 Z8 Z9 Z10 Z11 Z12 Z13 Z14 Z15 Z16]. unfold WebRtcVad_InitCore.
  cbv zeta. apply wp_bind, memset_all; [exact Z1|]. apply wp_bind.
  wp_call (apply Reset48khzTo8khz_spec; exact Z2). intros st Hst.
  apply wp_bind. rewrite (copy_table kNoiseDataMeans) by (reflexivity || exact Z3). apply wp_ret.
  apply wp_bind. rewrite (copy_table kSpeechDataMeans) by (reflexivity || exact Z4). apply wp_ret.
  apply wp_bind. rewrite (copy_table kNoiseDataStds) by (reflexivity || exact Z5). apply wp_ret.
  apply wp_bind. rewrite (copy_table kSpeechDataStds) by (reflexivity || exact Z6). apply wp_ret.
  change (16 * kNumChannels)%nat with 96%nat. change kNumChannels with 6%nat.
  apply wp_bind. rewrite (copy_loop_const 96 10000) by exact Z8. apply wp_ret.
  apply wp_bind. rewrite (copy_loop_const 96 0) by exact Z7. apply wp_ret.
  apply wp_bind, memset_all; [exact Z10|]. apply wp_bind, memset_all; [exact Z11|].
  apply wp_bind, memset_all; [exact Z12|].
  apply wp_bind. rewrite (copy_loop_const 6 1600) by exact Z9. apply wp_ret.
  apply wp_bind. rewrite set_mode_core_eq; [|exact Z13|exact Z14|exact Z15|exact Z16]. apply wp_ret.
  cbn [mode_tables kDefaultMode Z.eqb negb]. apply wp_ret.
  split; [reflexivity|]. eexists. split; [reflexivity|].
  split; [|repeat (split; [reflexivity|]); reflexivity].
  apply core_wf_initial; try reflexivity; [by split_and!|].
  apply sized48to8_rep. eexists. exact Hst.
Qed.

(** ** Claims *)

(** C17: the decision function keeps the model invariant. On an instance that
    satisfies the invariant, for any features the filter bank can produce and any
    frame power and length, GmmProbability runs without an out-of-range access or
    an undefined shift, returns 0, 1 or a value in [3, 16], and leaves an instance
    that satisfies the invariant again, with the same thresholds. *)
Theorem GmmProbability_invariant (j : Junk) (self : VadInstT) (features : list Z) (power : Z)
    (n : nat) :
  junk_wf j → core_wf self → features_ok features →
  wp (GmmProbability j self features power n) (λ '(v, self'),
    (v = 0 ∨ v = 1 ∨ 3 ≤ v ≤ 16) ∧ core_wf self' ∧ same_config self self').
Proof. apply GmmProbability_spec. Qed.

(** A malloc'ed instance and scratch memory with arbitrary contents. *)
Definition raw_instance : VadInstT :=
  Build_VadInstT 9 (replicate 4 9)
    (Build_WebRtcSpl_State48khzTo8khz (replicate 8 9) (replicate 16 9) (replicate 8 9)
       (replicate 8 9))
    (replicate 12 9) (replicate 12 9) (replicate 12 9) (replicate 12 9) 9 9 9 (replicate 96 9)
    (replicate 96 9) (replicate 6 9) (replicate 5 9) (replicate 5 9) (replicate 4 9)
    (replicate 3 9) (replicate 3 9) (replicate 3 9) (replicate 3 9) 9.
Definition raw_junk : Junk :=
  {| junk_filters := (replicate 120 7, replicate 120 7, replicate 60 7, replicate 60 7);
     junk_deltaN := replicate 12 7; junk_deltaS := replicate 12 7;
     junk_prob := (replicate 2 7, replicate 2 7); junk_features := replicate 6 7;
     junk_speech_nb := replicate 240 7; junk_speechWB := replicate 480 7 |}.

Lemma raw_sized : sized raw_instance.
Proof. by constructor. Qed.
Lemma raw_junk_wf : junk_wf raw_junk.
Proof. by constructor. Qed.

(** The instance after initialisation. *)
Definition fresh : VadInstT :=
  match WebRtcVad_InitCore (Some raw_instance) with
  | Some (_, Some s) => s
  | _ => raw_instance
  end.

Lemma fresh_spec : core_wf fresh ∧ init_flag fresh = kInitCheck.
Proof.
  pose proof (InitCore_spec raw_instance raw_sized) as H. unfold fresh. revert H.
  generalize (WebRtcVad_InitCore (Some raw_instance)). intros [[r s]|] H; [|destruct H].
  destruct H as (_ & self' & -> & Hc & Hi & _). exact (conj Hc Hi).
Qed.

Lemma GmmProbability_invariant_witness :
  wp (GmmProbability raw_junk fresh [900; 800; 700; 600; 500; 400] 100 80) (λ '(v, self'),
    (v = 0 ∨ v = 1 ∨ 3 ≤ v ≤ 16) ∧ core_wf self' ∧ same_config fresh self').
Proof.
  apply (GmmProbability_invariant raw_junk fresh); [apply raw_junk_wf|apply fresh_spec|].
  split; [reflexivity|]. intros c Hc. unfold feature_ok. channels c; lia.
Defined.

(** Initialisation. Whatever memory the instance comes in, WebRtcVad_InitCore
    returns 0 and leaves an instance that satisfies the invariant, marked as
    initialised, with the start models and no hangover; a null pointer gives -1. *)
Theorem InitCore_correct (self : VadInstT) : sized self →
  wp (WebRtcVad_InitCore (Some self)) (λ '(r, s), r = 0 ∧ ∃ self', s = Some self' ∧
    core_wf self' ∧ init_flag self' = kInitCheck ∧ over_hang self' = 0 ∧ vad self' = 1 ∧
    frame_counter self' = 0 ∧ noise_means self' = kNoiseDataMeans ∧
    speech_means self' = kSpeechDataMeans ∧ noise_stds self' = kNoiseDataStds ∧
    speech_stds self' = kSpeechDataStds) ∧
  WebRtcVad_InitCore None = Some (-1, None).
Proof. intros H. split; [by apply InitCore_spec|done]. Qed.

Lemma InitCore_correct_witness :
  wp (WebRtcVad_InitCore (Some raw_instance)) (λ '(r, s), r = 0 ∧ ∃ self', s = Some self' ∧
    core_wf self' ∧ init_flag self' = kInitCheck ∧ over_hang self' = 0 ∧ vad self' = 1 ∧
    frame_counter self' = 0 ∧ noise_means self' = kNoiseDataMeans ∧
    speech_means self' = kSpeechDataMeans ∧ noise_stds self' = kNoiseDataStds ∧
    speech_stds self' = kSpeechDataStds) ∧
  WebRtcVad_InitCore None = Some (-1, None).
Proof. apply (InitCore_correct raw_instance). apply raw_sized. Defined.

(** Separation of the models. For clamped means the update of a channel
    involves no wrap-around: both noise means move down by [sep_noise], both
    speech means up by [sep_speech], and afterwards the channel satisfies the
    invariant: noise means in [-1500, 9344], the weighted speech average at most
    the limit of the channel, both speech means at least 640. *)
Theorem separate_models_correct (c : nat) (nm sm : list Z) (n0 n1 s0 s1 : Z) :
  (c < 6)%nat → length nm = 12%nat → length sm = 12%nat →
  pair_at nm c n0 n1 → pair_at sm c s0 s1 → clamped c n0 n1 s0 s1 →
  let n := sep_noise c n0 n1 s0 s1 in
  let s := sep_speech c n0 n1 s0 s1 in
  separate_models c nm sm =
    Some (set2 nm c (n0 - n) (n1 - n), set2 sm c (s0 + s) (s1 + s), kMaximumSpeech !!! c) ∧
  noise_ok (n0 - n) ∧ noise_ok (n1 - n) ∧ speech_ok c (s0 + s) (s1 + s).
Proof.
  intros Hc Hn Hs Pn Ps Hcl n s. split; [by apply separate_models_eq|].
  destruct (sep_noise_ok c n0 n1 s0 s1 Hc Hcl). split; [done|]. split; [done|].
  by apply sep_speech_ok.
Qed.

Lemma separate_models_correct_witness :
  let n := sep_noise 3 8000 8000 9100 9200 in
  let s := sep_speech 3 8000 8000 9100 9200 in
  separate_models 3 (replicate 12 8000) (set2 (replicate 12 8000) 3 9100 9200) =
    Some (set2 (replicate 12 8000) 3 (8000 - n) (8000 - n),
          set2 (set2 (replicate 12 8000) 3 9100 9200) 3 (9100 + s) (9200 + s),
          kMaximumSpeech !!! 3%nat) ∧
  noise_ok (8000 - n) ∧ noise_ok (8000 - n) ∧ speech_ok 3 (9100 + s) (9200 + s).
Proof.
  apply (separate_models_correct 3 (replicate 12 8000) (set2 (replicate 12 8000) 3 9100 9200)
    8000 8000 9100 9200); [lia|reflexivity|reflexivity|split; reflexivity|split; reflexivity|].
  unfold clamped. change (prev_max 3) with 11520. lia.
Defined.

(** Modes. For the modes 0 to 3 the call returns 0 and installs the hangovers
    and thresholds of the mode; every other mode gives -1 and changes nothing. *)
Theorem set_mode_core_correct (self : VadInstT) (mode : Z) : sized self →
  WebRtcVad_set_mode_core self mode =
    Some (match mode_tables mode with
          | Some (o1, o2, ind, tot) => (0, set_thresholds self o1 o2 ind tot)
          | None => (-1, self)
          end) ∧
  (mode_tables mode = None ↔ ¬ 0 ≤ mode ≤ 3).
Proof.
  intros Hs. split; [by apply set_mode_core_eq; apply Hs|]. unfold mode_tables.
  destruct mode as [|[[p|p|]|[p|p|]|]|p]; split; intros; try done; lia.
Qed.

Lemma set_mode_core_correct_witness :
  WebRtcVad_set_mode_core raw_instance 3 =
    Some (match mode_tables 3 with
          | Some (o1, o2, ind, tot) => (0, set_thresholds raw_instance o1 o2 ind tot)
          | None => (-1, raw_instance)
          end) ∧
  (mode_tables 3 = None ↔ ¬ 0 ≤ 3 ≤ 3).
Proof. apply (set_mode_core_correct raw_instance 3). apply raw_sized. Defined.

End VadInvariant.
