(* ===== verification/VadDecision.v ===== *)
(** * The decision of the voice activity detector over several frames

    What common_audio/vad/vad_core.c decides from frame to frame: the hangover
    that keeps the decision active after speech, how a run of speech frames
    prolongs it, and which samples of a 48 kHz frame have an
    influence. *)

From S2P Require Import Prelude.
From S2P Require Import SplInl.
From S2P Require Import Energy.
From S2P Require Import VadGmm.
From S2P Require Import ResampleBy2.
From S2P Require Import ResampleFrac.
From S2P Require Import Resample48.
From S2P Require Import VadSp.
From S2P Require Import VadFilterbank.
From S2P Require Import VadCore.
From S2P Require Import VadInvariant.
Import ResampleBy2 Resample48 VadSp VadFilterbank VadCore VadInvariant.

Module VadDecision.

(** ** Silent frames *)

(** A frame without power leaves the models alone and runs the hangover. *)
Lemma GmmProbability_silent j self features power n :
  core_wf self → power ≤ kMinEnergy →
  GmmProbability j self features power n =
    Some (if 0 <? over_hang self then 2 + over_hang self else 0,
          set_counters self (frame_counter self) (Z.max 0 (over_hang self - 1)) 0).
Proof.
  intros Hwf Hp. pose proof (wf_hang _ Hwf) as Hh. unfold GmmProbability.
  pose proof (frame_thresholds_spec self n Hwf) as HT.
  apply wp_exists in HT as ([[[o1 o2] ind] tot] & -> & _). cbn [mbind option_bind].
  rewrite (proj2 (Z.ltb_ge _ _)) by done. cbn [mbind option_bind]. unfold smooth_decision.
  cbn [Z.eqb]. destruct (Z.ltb_spec 0 (over_hang self)).
  - rewrite (s32_id (2 + _)), (s16_id (2 + _)) by (unfold int16, int32; lia).
    rewrite (s32_id (_ - 1)), (s16_id (_ - 1)) by (unfold int16, int32; lia).
    by rewrite Z.max_r by lia.
  - replace (Z.max 0 (over_hang self - 1)) with (over_hang self) by lia. done.
Qed.

(** The decisions of consecutive frames with the given features and powers. *)
Fixpoint decisions (j : Junk) (self : VadInstT) (n : nat) (frames : list (list Z * Z)) {struct frames}
  : option (list Z * VadInstT) :=
  match frames with
  | [] => Some ([], self)
  | (features, power) :: frames =>
      '(v, self) ← GmmProbability j self features power n;
      '(vs, self) ← decisions j self n frames;
      Some (v :: vs, self)
  end.

Definition hang_value (h : Z) (i : nat) : Z :=
  if Z.of_nat i <? h then 2 + h - Z.of_nat i else 0.

Lemma map_hang_shift h n : 0 ≤ h →
  map (hang_value h) (seq 1 n) = map (hang_value (Z.max 0 (h - 1))) (seq 0 n).
Proof.
  intros Hh. rewrite <- seq_shift, map_map. apply map_ext. intros i. unfold hang_value.
  destruct (Z.ltb_spec (Z.of_nat (S i)) h), (Z.ltb_spec (Z.of_nat i) (Z.max 0 (h - 1))); lia.
Qed.

Lemma silent_decisions j n frames self :
  core_wf self → Forall (λ f, f.2 ≤ kMinEnergy) frames →
  wp (decisions j self n frames) (λ '(vs, self'),
    vs = map (hang_value (over_hang self)) (seq 0 (length frames)) ∧
    over_hang self' = Z.max 0 (over_hang self - Z.of_nat (length frames)) ∧
    noise_means self' = noise_means self ∧ speech_means self' = speech_means self ∧
    noise_stds self' = noise_stds self ∧ speech_stds self' = speech_stds self ∧
    frame_counter self' = frame_counter self).
Proof.
  intros Hwf Hf. revert self Hwf. induction Hf as [|[features power] frames Hp Hf IH];
    intros self Hwf; cbn [decisions].
  { apply wp_ret. pose proof (wf_hang _ Hwf). split_and!; try done. simpl. lia. }
  pose proof (wf_hang _ Hwf) as Hh.
  rewrite GmmProbability_silent by done. cbn [mbind option_bind]. apply wp_bind.
  wp_call (apply IH, core_wf_counters; (done || lia)).
  intros [vs self'] (-> & Ho & H1 & H2 & H3 & H4 & H5). apply wp_ret.
  cbn [over_hang noise_means speech_means noise_stds speech_stds frame_counter set_counters] in *.
  split; [|rewrite Ho; split_and!; try done; cbn [length]; lia].
  cbn [length seq map]. rewrite map_hang_shift by lia. f_equal. unfold hang_value.
  destruct (Z.ltb_spec 0 (over_hang self)), (Z.ltb_spec (Z.of_nat 0) (over_hang self)); lia.
Qed.

(** ** Speech frames *)

(** The counters after [n] frames decided as speech. *)
Fixpoint speech_run (o1 o2 : Z) (n : nat) (self : VadInstT) : VadInstT :=
  match n with
  | O => self
  | S n => (smooth_decision 1 o1 o2 (speech_run o1 o2 n self)).2
  end.

Lemma speech_run_counters o1 o2 n self :
  core_wf self → 0 ≤ o1 ≤ 14 → 0 ≤ o2 ≤ 14 →
  num_of_speech (speech_run o1 o2 n self) = Z.min 6 (num_of_speech self + Z.of_nat n) ∧
  over_hang (speech_run o1 o2 n self) =
    (if (n =? 0)%nat then over_hang self
     else if 6 <? num_of_speech self + Z.of_nat n then o2 else o1).
Proof.
  intros Hwf H1 H2. pose proof (wf_speech _ Hwf) as Hs. induction n as [|n [IHn IHo]].
  { cbn. split; [lia|done]. }
  cbn [speech_run]. set (s := speech_run o1 o2 n self) in *.
  unfold smooth_decision, kMaxSpeechFrames. cbn [Z.eqb Nat.eqb].
  rewrite (s32_id (_ + 1)), (s16_id (_ + 1)) by (unfold int16, int32; lia).
  destruct (Z.ltb_spec 6 (num_of_speech s + 1)), (Z.ltb_spec 6 (num_of_speech self + Z.of_nat (S n)));
    cbn [snd num_of_speech over_hang set_counters]; lia.
Qed.

(** ** Blocks of a 48 kHz frame *)

Lemma allpass_loop_src_ext k j len src src' dst stride post s :
  (∀ m i, (i < len)%nat → src m i = src' m i) →
  allpass_loop k j len src dst stride post s = allpass_loop k j len src' dst stride post s.
Proof.
  intros H. unfold allpass_loop. apply for_loop_ext. intros i [m st] Hi. rewrite H by lia. done.
Qed.

(** The 48 to 8 kHz converter reads 480 samples. *)
Lemma Resample48khzTo8khz_reads inm inm' outm op state tmpmem :
  take 480 inm = take 480 inm' →
  WebRtcSpl_Resample48khzTo8khz inm 0 outm op state tmpmem =
  WebRtcSpl_Resample48khzTo8khz inm' 0 outm op state tmpmem.
Proof.
  intros E. assert (∀ i, (i < 480)%nat → inm !! i = inm' !! i) as Hi.
  { intros i Hi. rewrite <- (lookup_take_lt inm 480 i), E by done. by apply lookup_take_lt. }
  unfold WebRtcSpl_Resample48khzTo8khz.
  assert (WebRtcSpl_DownBy2ShortToInt inm 0 480 tmpmem 256 (S_48_24 state) =
          WebRtcSpl_DownBy2ShortToInt inm' 0 480 tmpmem 256 (S_48_24 state)) as ->; [|done].
  unfold WebRtcSpl_DownBy2ShortToInt. change (480 / 2)%nat with 240%nat.
  rewrite (allpass_loop_src_ext _ _ _ _ (λ _ i, x ← inm' !! (0 + 2 * i)%nat; Some (to_q15 x)))
    by (intros; by rewrite Hi by lia).
  destruct (allpass_loop kResampleAllpass1 0 240 _ 256 1 half _); [|done]. cbn [mbind option_bind].
  apply allpass_loop_src_ext. intros m i Hlt. by rewrite Hi by lia.
Qed.

(** ** Claims *)

(** Hangover. From an instance with a hangover of [h] frames, the decisions of
    consecutive frames without power are [h + 2], [h + 1], ..., 3 and then 0 for
    good: the detector stays active for exactly [h] more frames. The models and
    the frame counter do not change. *)
Theorem hangover_countdown (j : Junk) (self : VadInstT) (n : nat) (frames : list (list Z * Z)) :
  core_wf self → Forall (λ f, f.2 ≤ kMinEnergy) frames →
  wp (decisions j self n frames) (λ '(vs, self'),
    vs = map (λ i, if Z.of_nat i <? over_hang self
                   then 2 + over_hang self - Z.of_nat i else 0) (seq 0 (length frames)) ∧
    over_hang self' = Z.max 0 (over_hang self - Z.of_nat (length frames)) ∧
    noise_means self' = noise_means self ∧ speech_means self' = speech_means self ∧
    noise_stds self' = noise_stds self ∧ speech_stds self' = speech_stds self ∧
    frame_counter self' = frame_counter self).
Proof. apply silent_decisions. Qed.

Definition hanging : VadInstT := set_counters fresh 20 3 2.

Lemma hangover_countdown_witness :
  let frames := replicate 5 (replicate 6 400, 4) in
  wp (decisions raw_junk hanging 80 frames) (λ '(vs, self'),
    vs = map (λ i, if Z.of_nat i <? over_hang hanging
                   then 2 + over_hang hanging - Z.of_nat i else 0) (seq 0 (length frames)) ∧
    over_hang self' = Z.max 0 (over_hang hanging - Z.of_nat (length frames)) ∧
    noise_means self' = noise_means hanging ∧ speech_means self' = speech_means hanging ∧
    noise_stds self' = noise_stds hanging ∧ speech_stds self' = speech_stds hanging ∧
    frame_counter self' = frame_counter hanging).
Proof.
  intros frames. apply (hangover_countdown raw_junk hanging 80 frames).
  - apply core_wf_counters; [apply fresh_spec|lia|lia].
  - apply Forall_replicate. unfold kMinEnergy. simpl. lia.
Defined.

(** Runs of speech. After [n] frames in a row decided as speech, starting
    from a count of [num_of_speech], the hangover is the short one while the run
    is at most kMaxSpeechFrames = 6 frames long and the long one from then on;
    the count saturates at 6. *)
Theorem speech_run_hangover (o1 o2 : Z) (n : nat) (self : VadInstT) :
  core_wf self → 0 ≤ o1 ≤ 14 → 0 ≤ o2 ≤ 14 →
  num_of_speech (speech_run o1 o2 n self) = Z.min 6 (num_of_speech self + Z.of_nat n) ∧
  over_hang (speech_run o1 o2 n self) =
    (if (n =? 0)%nat then over_hang self
     else if 6 <? num_of_speech self + Z.of_nat n then o2 else o1).
Proof. apply speech_run_counters. Qed.

Lemma speech_run_hangover_witness :
  num_of_speech (speech_run 8 14 7 fresh) = Z.min 6 (num_of_speech fresh + Z.of_nat 7) ∧
  over_hang (speech_run 8 14 7 fresh) =
    (if (7 =? 0)%nat then over_hang fresh
     else if 6 <? num_of_speech fresh + Z.of_nat 7 then 14 else 8).
Proof. apply (speech_run_hangover 8 14 7 fresh); [apply fresh_spec|lia|lia]. Defined.

(** Frames at 48 kHz with the same first 10 ms. *)
Definition same_first_block (frame frame' : list Z) : Prop := take 480 frame = take 480 frame'.

(** 48 kHz frames of 20 and 30 ms. The decision and the next state depend on
    the first 480 samples of the frame only: every block of 10 ms of such a frame
    is resampled from the first one, whatever the later samples are. *)
Theorem CalcVad48khz_first_block (j : Junk) (self : VadInstT) (frame frame' : list Z) (n : nat) :
  same_first_block frame frame' →
  WebRtcVad_CalcVad48khz j self frame n = WebRtcVad_CalcVad48khz j self frame' n.
Proof.
  intros E. unfold WebRtcVad_CalcVad48khz. cbv zeta. f_equal. apply for_loop_ext.
  intros i [[nb st] t] _. by apply Resample48khzTo8khz_reads.
Qed.

Lemma CalcVad48khz_first_block_witness :
  WebRtcVad_CalcVad48khz raw_junk fresh (replicate 480 11 ++ replicate 960 0) 1440 =
  WebRtcVad_CalcVad48khz raw_junk fresh (replicate 480 11 ++ replicate 960 30000) 1440.
Proof.
  apply (CalcVad48khz_first_block raw_junk fresh). unfold same_first_block.
  by rewrite !take_app_length' by (by rewrite length_replicate).
Defined.

End VadDecision.
