(* ===== verification/WebRtcVad.v ===== *)
(** * Interface of the voice activity detector
    (common_audio/vad/webrtc_vad.c)

    Creation, initialisation, mode and the per-frame call, with their argument
    checks. A handle is an optional instance ([None] is the null pointer).

    The theorems characterise the accepted rates and frame lengths, the error
    returns, the smoothing of the decision, and show that any sequence of calls on
    a created instance runs without an access, a shift or a division out of range and
    returns -1, 0 or 1. Signed arithmetic wraps, see VadCore.v. *)

From S2P Require Import Prelude.
From S2P Require Import SplInl.
From S2P Require Import Energy.
From S2P Require Import VadGmm.
From S2P Require Import ResampleBy2.
From S2P Require Import ResampleFrac.
From S2P Require Import Resample48.
From S2P Require Import VadSp.
From S2P Require Import VadFilterbank.
From S2P Require Import VadCore.
From S2P Require Import VadInvariant.
Import Resample48 VadSp VadFilterbank VadCore VadInvariant.

Module WebRtcVad.

Definition kValidRates : list Z := [8000; 16000; 32000; 48000].
Definition kMaxFrameLengthMs : Z := 30.

(** [for (valid_length_ms = ms; valid_length_ms <= kMaxFrameLengthMs; ...)]; three
    rounds from 10 on, so that a fuel of four is enough. *)
Fixpoint length_loop (fuel : nat) (ms rate_i : Z) (frame_length : nat) : Z :=
  match fuel with
  | O => -1
  | S fuel =>
      if ms <=? kMaxFrameLengthMs then
        let valid_length := u64 (Z.quot rate_i 1000 *i ms) in
        if Z.of_nat frame_length =? valid_length then 0
        else length_loop fuel (ms +i 10) rate_i frame_length
      else -1
  end.

Fixpoint rate_loop (rates : list Z) (rate : Z) (frame_length : nat) : Z :=
  match rates with
  | [] => -1
  | r :: rates => if r =? rate then length_loop 4 10 r frame_length
                  else rate_loop rates rate frame_length
  end.

Definition WebRtcVad_ValidRateAndFrameLength (rate : Z) (frame_length : nat) : Z :=
  rate_loop kValidRates rate frame_length.

(** [raw] is the memory malloc returned; the source does not check it for null. *)
Definition WebRtcVad_Create (raw : option VadInstT) : option (option VadInstT) :=
  self ← raw; Some (Some (set_init_flag self 0)).

Definition WebRtcVad_Init (handle : option VadInstT) : option (Z * option VadInstT) :=
  WebRtcVad_InitCore handle.

Definition WebRtcVad_set_mode (handle : option VadInstT) (mode : Z)
  : option (Z * option VadInstT) :=
  match handle with
  | None => Some (-1, handle)
  | Some self =>
      if negb (init_flag self =? kInitCheck) then Some (-1, handle)
      else '(r, self) ← WebRtcVad_set_mode_core self mode; Some (r, Some self)
  end.

Definition WebRtcVad_Process (junk : Junk) (handle : option VadInstT) (fs : Z)
    (audio_frame : option (list Z)) (frame_length : nat) : option (Z * option VadInstT) :=
  match handle, audio_frame with
  | None, _ => Some (-1, handle)
  | Some self, audio_frame =>
      if negb (init_flag self =? kInitCheck) then Some (-1, handle)
      else match audio_frame with
      | None => Some (-1, handle)
      | Some frame =>
          if negb (WebRtcVad_ValidRateAndFrameLength fs frame_length =? 0)
          then Some (-1, handle)
          else
            '(vad, self) ←
              (if fs =? 48000 then WebRtcVad_CalcVad48khz junk self frame frame_length
               else if fs =? 32000 then WebRtcVad_CalcVad32khz junk self frame frame_length
               else if fs =? 16000 then WebRtcVad_CalcVad16khz junk self frame frame_length
               else if fs =? 8000 then WebRtcVad_CalcVad8khz junk self frame frame_length
               else Some (-1, self));
            let vad := if 0 <? vad then 1 else vad in
            Some (vad, Some self)
      end
  end.

(** ** Rates and lengths *)

(** 10, 20 or 30 ms at one of the four rates. *)
Definition valid_frame (rate : Z) (n : nat) : Prop :=
  (rate = 8000 ∨ rate = 16000 ∨ rate = 32000 ∨ rate = 48000) ∧
  (Z.of_nat n = rate / 100 ∨ Z.of_nat n = rate / 100 * 2 ∨ Z.of_nat n = rate / 100 * 3).

Lemma ValidRate_cases rate n :
  WebRtcVad_ValidRateAndFrameLength rate n = if decide (valid_frame rate n) then 0 else -1.
Proof.
  unfold WebRtcVad_ValidRateAndFrameLength, kValidRates, valid_frame. cbn [rate_loop].
  repeat match goal with |- context [Z.eqb ?r rate] => destruct (Z.eqb_spec r rate) as [<-|] end;
    [..|by rewrite decide_False by lia].
  all: unfold length_loop, kMaxFrameLengthMs;
    repeat match goal with
    | |- context [?a +i ?b] => let v := eval vm_compute in (a +i b) in change (a +i b) with v
    | |- context [u64 ?a] => let v := eval vm_compute in (u64 a) in change (u64 a) with v
    end;
    cbn [Z.leb Z.compare Pos.compare Pos.compare_cont];
    repeat match goal with |- context [Z.eqb ?a ?b] => destruct (Z.eqb_spec a b) end;
    (rewrite decide_True by (change (8000 / 100) with 80 || change (16000 / 100) with 160 ||
       change (32000 / 100) with 320 || change (48000 / 100) with 480; lia); done) ||
    (rewrite decide_False by (change (8000 / 100) with 80 || change (16000 / 100) with 160 ||
       change (32000 / 100) with 320 || change (48000 / 100) with 480; lia); done).
Qed.

(** ** The per-frame call *)

(** The instance is usable and initialised. *)
Definition ready (self : VadInstT) : Prop := core_wf self ∧ init_flag self = kInitCheck.

(** One of the entry points, by rate. *)
Lemma rate_dispatch j self fs frame n :
  junk_wf j → core_wf self → valid_frame fs n → Forall int16 frame → (n ≤ length frame)%nat →
  wp (if fs =? 48000 then WebRtcVad_CalcVad48khz j self frame n
      else if fs =? 32000 then WebRtcVad_CalcVad32khz j self frame n
      else if fs =? 16000 then WebRtcVad_CalcVad16khz j self frame n
      else if fs =? 8000 then WebRtcVad_CalcVad8khz j self frame n
      else Some (-1, self)) (vad_post self).
Proof.
  intros Hj Hwf [Hr Hn] H16 Hl. destruct Hr as [-> | [-> | [-> | ->]]]; cbn [Z.eqb Pos.eqb].
  - change (8000 / 100) with 80 in Hn. apply CalcVad8khz_spec; (done || lia).
  - change (16000 / 100) with 160 in Hn. apply CalcVad16khz_spec; (done || lia).
  - change (32000 / 100) with 320 in Hn. apply CalcVad32khz_spec; (done || lia).
  - change (48000 / 100) with 480 in Hn. apply CalcVad48khz_spec; (done || lia).
Qed.

(** The instance after a successful call: it holds the raw decision [v]. *)
Definition processed (self : VadInstT) (r : Z) (h : option VadInstT) : Prop :=
  ∃ self' v, h = Some self' ∧ ready self' ∧ same_config self self' ∧ vad self' = v ∧
  decision v ∧ r = (if 0 <? v then 1 else v).

Lemma Process_spec j self fs frame n :
  junk_wf j → ready self → valid_frame fs n → Forall int16 frame → (n ≤ length frame)%nat →
  wp (WebRtcVad_Process j (Some self) fs (Some frame) n) (λ '(r, h), processed self r h).
Proof.
  intros Hj [Hwf Hi] Hv H16 Hl. unfold WebRtcVad_Process. rewrite Hi.
  cbn [kInitCheck Z.eqb Pos.eqb negb]. rewrite ValidRate_cases, decide_True by done.
  cbn [Z.eqb negb]. apply wp_bind. wp_call (by apply rate_dispatch).
  intros [v self'] (Hd & Hw & Hc & Hvad). apply wp_ret. exists self', v.
  split; [done|]. split; [|done]. split; [done|]. cbn in Hc. rewrite (proj1 Hc). done.
Qed.

Lemma decision_binary v : decision v → let r := if 0 <? v then 1 else v in
  (r = 0 ∨ r = 1) ∧ (r = 1 ↔ 0 < v).
Proof. unfold decision. intros Hv. cbv zeta. destruct (Z.ltb_spec 0 v); lia. Qed.

(** The conditions under which the call is refused. *)
Definition refused (h : option VadInstT) (fs : Z) (frame : option (list Z)) (n : nat) : Prop :=
  match h, frame with
  | Some self, Some _ => init_flag self ≠ kInitCheck ∨ ¬ valid_frame fs n
  | _, _ => True
  end.

Lemma Process_refused j h fs frame n :
  refused h fs frame n → WebRtcVad_Process j h fs frame n = Some (-1, h).
Proof.
  destruct h as [self|]; [|done]. unfold WebRtcVad_Process, refused.
  destruct (Z.eqb_spec (init_flag self) kInitCheck) as [E|E]; cbn [negb]; [|done].
  destruct frame as [frame|]; [|done]. intros [?|Hv]; [done|].
  by rewrite ValidRate_cases, decide_False by done.
Qed.

(** ** Sessions *)

Inductive vad_call :=
| CallInit
| CallSetMode (mode : Z)
| CallProcess (junk : Junk) (fs : Z) (frame : option (list Z)) (n : nat).

Definition run_call (h : option VadInstT) (c : vad_call) : option (Z * option VadInstT) :=
  match c with
  | CallInit => WebRtcVad_Init h
  | CallSetMode mode => WebRtcVad_set_mode h mode
  | CallProcess j fs frame n => WebRtcVad_Process j h fs frame n
  end.

Fixpoint run_calls (h : option VadInstT) (cs : list vad_call) {struct cs}
  : option (list Z * option VadInstT) :=
  match cs with
  | [] => Some ([], h)
  | c :: cs =>
      '(r, h) ← run_call h c;
      '(rs, h) ← run_calls h cs;
      Some (r :: rs, h)
  end.

(** The buffers of the caller: 16-bit samples, at least as many as announced. *)
Definition call_ok (c : vad_call) : Prop :=
  match c with
  | CallProcess j fs (Some frame) n =>
      junk_wf j ∧ Forall int16 frame ∧ (n ≤ length frame)%nat
  | _ => True
  end.

(** A handle from WebRtcVad_Create on: null, or of the right size and, once
    marked as initialised, in the invariant. *)
Definition handle_ok (h : option VadInstT) : Prop :=
  match h with
  | None => True
  | Some self => sized self ∧ (init_flag self = kInitCheck → core_wf self)
  end.

Definition result_ok (c : vad_call) (r : Z) : Prop :=
  match c with
  | CallProcess _ _ _ _ => r = -1 ∨ r = 0 ∨ r = 1
  | _ => r = -1 ∨ r = 0
  end.

Lemma handle_ready self : ready self → handle_ok (Some self).
Proof. intros [H _]. split; [by apply core_wf_sized|done]. Qed.

Lemma sized_thresholds self o1 o2 ind tot :
  sized self → length o1 = 3%nat → length o2 = 3%nat → length ind = 3%nat →
  length tot = 3%nat → sized (set_thresholds self o1 o2 ind tot).
Proof. intros [] ? ? ? ?. by constructor. Qed.

Lemma set_mode_spec h mode : handle_ok h →
  wp (WebRtcVad_set_mode h mode) (λ '(r, h'), (r = -1 ∨ r = 0) ∧ handle_ok h').
Proof.
  destruct h as [self|]; [|by intros; split; [left|]]. intros [Hs Hc]. unfold WebRtcVad_set_mode.
  destruct (Z.eqb_spec (init_flag self) kInitCheck) as [E|E]; cbn [negb]; [|by split; [left|split]].
  specialize (Hc E). rewrite set_mode_core_eq by apply Hs. cbn [mbind option_bind].
  destruct (mode_tables mode) as [[[[o1 o2] ind] tot]|] eqn:Em; apply wp_ret.
  - split; [by right|]. apply handle_ready. split; [by apply (core_wf_thresholds _ mode)|done].
  - split; [by left|]. by split.
Qed.

Lemma run_call_spec h c : handle_ok h → call_ok c →
  wp (run_call h c) (λ '(r, h'), result_ok c r ∧ handle_ok h').
Proof.
  intros Hh Hc. destruct c as [|mode|j fs frame n]; cbn [run_call].
  - destruct h as [self|]; [|by split; [left|]].
    wp_call (apply InitCore_spec, Hh). intros [r s] (-> & self' & -> & Hw & Hi & _).
    split; [by right|]. apply handle_ready. by split.
  - by apply set_mode_spec.
  - destruct h as [self|]; [|by split; [left|]].
    destruct frame as [frame|]; [|rewrite Process_refused by done; by split; [left|]].
    destruct Hc as (Hj & H16 & Hl).
    destruct (decide (init_flag self = kInitCheck ∧ valid_frame fs n)) as [[Hi Hv]|Hn].
    + wp_call (apply Process_spec; [done|split; [by apply Hh|done]|done|done|done]).
      intros [r h'] (self' & v & -> & Hr & _ & _ & Hd & ->).
      split; [right; by apply decision_binary|by apply handle_ready].
    + rewrite Process_refused; [by split; [left|]|]. simpl.
      destruct (decide (init_flag self = kInitCheck)); [right|by left]. intros Hv. by apply Hn.
Qed.

Lemma run_calls_spec cs h : handle_ok h → Forall call_ok cs →
  wp (run_calls h cs) (λ '(rs, h'), Forall2 result_ok cs rs ∧ handle_ok h').
Proof.
  intros Hh Hcs. revert h Hh. induction Hcs as [|c cs Hc Hcs IH]; intros h Hh; cbn [run_calls].
  { by split; [constructor|]. }
  apply wp_bind. wp_call (by apply run_call_spec). intros [r h1] [Hr Hh1].
  apply wp_bind. wp_call (by apply IH). intros [rs h2] [Hrs Hh2].
  apply wp_ret. split; [by constructor|done].
Qed.

(** ** Claims *)

(** The accepted combinations. The check accepts exactly 10, 20 or 30 ms at
    8, 16, 32 or 48 kHz. *)
Theorem ValidRateAndFrameLength_iff (rate : Z) (n : nat) :
  WebRtcVad_ValidRateAndFrameLength rate n =
    if decide (valid_frame rate n) then 0 else -1.
Proof. apply ValidRate_cases. Qed.

(** C15: the per-frame call on a valid frame. For an initialised instance in the
    invariant, a valid rate and length and a buffer of at least that many 16-bit
    samples, the call runs without an access outside an array, a shift by an amount
    out of range or a division by zero, whatever the samples and the uninitialised
    locals are, with signed arithmetic that wraps around (the source lets some 32-bit
    products and sums overflow, which the C standard leaves undefined); it returns 0 or 1, 1 exactly when the stored raw
    decision is positive, and leaves an initialised instance in the invariant with
    the same thresholds. *)
Theorem Process_correct (j : Junk) (self : VadInstT) (fs : Z) (frame : list Z) (n : nat) :
  junk_wf j → ready self → valid_frame fs n → Forall int16 frame → (n ≤ length frame)%nat →
  wp (WebRtcVad_Process j (Some self) fs (Some frame) n) (λ '(r, h),
    ∃ self', h = Some self' ∧ ready self' ∧ same_config self self' ∧
    (r = 0 ∨ r = 1) ∧ (r = 1 ↔ 0 < vad self')).
Proof.
  intros. wp_call (by apply Process_spec).
  intros [r h] (self' & v & -> & Hr & Hc & <- & Hd & ->). exists self'.
  split; [done|]. split; [done|]. split; [done|]. by apply decision_binary.
Qed.

Lemma Process_correct_witness :
  wp (WebRtcVad_Process raw_junk (Some fresh) 16000 (Some (replicate 320 1234)) 320) (λ '(r, h),
    ∃ self', h = Some self' ∧ ready self' ∧ same_config fresh self' ∧
    (r = 0 ∨ r = 1) ∧ (r = 1 ↔ 0 < vad self')).
Proof.
  apply (Process_correct raw_junk fresh 16000 (replicate 320 1234) 320).
  - apply raw_junk_wf.
  - apply fresh_spec.
  - split; [by right; left|]. right; left. reflexivity.
  - apply Forall_replicate. unfold int16. lia.
  - rewrite length_replicate. lia.
Defined.

(** The per-frame call refuses, with -1 and without touching the instance, a
    null handle, an instance that is not initialised, a null buffer and a rate or
    length that is not valid, and nothing else: otherwise the result is 0 or 1. *)
Theorem Process_refuses_iff (j : Junk) (h : option VadInstT) (fs : Z) (frame : option (list Z))
    (n : nat) :
  handle_ok h → call_ok (CallProcess j fs frame n) →
  (refused h fs frame n ↔ WebRtcVad_Process j h fs frame n = Some (-1, h)).
Proof.
  intros Hh Hc. split; [apply Process_refused|]. destruct h as [self|]; [|done].
  destruct frame as [frame|]; [|done]. cbn [refused]. destruct Hc as (Hj & H16 & Hl). intros E.
  destruct (decide (init_flag self = kInitCheck)) as [Hi|]; [|by left].
  destruct (decide (valid_frame fs n)) as [Hv|]; [|by right]. exfalso.
  pose proof (Process_spec j self fs frame n Hj (conj (proj2 Hh Hi) Hi) Hv H16 Hl) as HP.
  rewrite E in HP. destruct HP as (self' & v & _ & _ & _ & _ & Hd & Er).
  destruct (decision_binary v Hd) as [[Hb|Hb] _]; congruence.
Qed.

Lemma Process_refuses_iff_witness :
  refused (Some fresh) 8000 (Some (replicate 100 0)) 100 ↔
  WebRtcVad_Process raw_junk (Some fresh) 8000 (Some (replicate 100 0)) 100 =
    Some (-1, Some fresh).
Proof.
  apply (Process_refuses_iff raw_junk (Some fresh) 8000 (Some (replicate 100 0)) 100).
  - apply handle_ready, fresh_spec.
  - split; [apply raw_junk_wf|]. split; [apply Forall_replicate; unfold int16; lia|].
    rewrite length_replicate. lia.
Defined.

(** C16: sessions. For any instance memory malloc may return and any sequence of
    initialisations, mode changes and per-frame calls, valid or not, in any
    order, whose buffers hold 16-bit samples and are as long as announced: no call makes
    an access outside an array, a shift by an amount out of range or a division by
    zero, with signed arithmetic that wraps around (also in the frame counter, after
    2^31 active frames); initialisation and mode changes return
    -1 or 0, per-frame calls -1, 0 or 1. *)
Theorem vad_session_safe (raw : VadInstT) (cs : list vad_call) :
  sized raw → Forall call_ok cs →
  wp (h ← WebRtcVad_Create (Some raw); run_calls h cs) (λ '(rs, h),
    Forall2 result_ok cs rs ∧ handle_ok h).
Proof.
  intros Hs Hcs. apply wp_bind. apply wp_ret. apply run_calls_spec; [|done].
  split; [|done]. by destruct Hs; constructor.
Qed.

Lemma demo_call_ok fs n : (n ≤ 480)%nat →
  call_ok (CallProcess raw_junk fs (Some (replicate 480 (-32768))) n).
Proof.
  intros. split; [apply raw_junk_wf|]. rewrite length_replicate. split; [|done].
  apply Forall_replicate. unfold int16. lia.
Qed.

Lemma vad_session_safe_witness :
  let frame := Some (replicate 480 (-32768)) in
  let cs := [CallProcess raw_junk 8000 frame 80; CallInit; CallSetMode 2; CallSetMode 7;
             CallProcess raw_junk 48000 frame 480; CallProcess raw_junk 8000 frame 240] in
  wp (h ← WebRtcVad_Create (Some raw_instance); run_calls h cs) (λ '(rs, h),
    Forall2 result_ok cs rs ∧ handle_ok h).
Proof.
  intros frame cs. apply (vad_session_safe raw_instance cs); [apply raw_sized|].
  repeat (apply Forall_cons_2; [first [exact I | apply demo_call_ok; lia]|]). apply Forall_nil_2.
Defined.

End WebRtcVad.
