(* ===== verification/RembThrottler.v ===== *)
(** * Throttling of REMB messages
    (modules/congestion_controller/remb_throttler.cc, .h)

    The receiver tells the sender the bitrate it estimates, and the bitrate the
    application wants at most, with RTCP REMB messages. Small changes of the estimate
    are held back for 200 ms. The clock's reading is an argument of the operations;
    what the sender callback gets is an output. *)

From stdpp Require Import list.
From S2P Require Import Prelude SeqNum Units.
Import SeqNum Units.

Module RembThrottler.

Definition kRembSendInterval : Z := 200000.
Definition kSendThresholdPercent : Z := 103.

(** DataRate::BitsPerSec, DataRate * int64_t and DataRate / int of positive
    quantities. *)
Definition BitsPerSec : Z → option Z := FromValue true.
Definition rate_times (rate scalar : Z) : option Z :=
  v ← ToValue rate;
  FromValue true (s64 (v * scalar)).
Definition rate_over (rate scalar : Z) : option Z :=
  v ← ToValue rate;
  if scalar =? 0 then None else FromValue true (Z.quot v scalar).

Record RembThrottler := mkThrottler {
  last_remb_time_ : Z;
  last_send_remb_bitrate_ : Z;
  max_remb_bitrate_ : Z;
}.

Definition new_throttler : RembThrottler := mkThrottler MinusInfinity PlusInfinity PlusInfinity.

(** A REMB message: the bitrate and the streams. *)
Definition Remb : Type := Z * list Z.

Definition OnReceiveBitrateChanged (self : RembThrottler) (now : Z) (ssrcs : list Z) (bitrate_bps : Z)
  : option (RembThrottler * option Remb) :=
  receive_bitrate ← BitsPerSec bitrate_bps;
  scaled ← rate_times receive_bitrate kSendThresholdPercent;
  scaled ← rate_over scaled 100;
  throttled ← (if scaled >? last_send_remb_bitrate_ self then
                 limit ← ts_add (last_remb_time_ self) kRembSendInterval;
                 Some (now <? limit)
               else Some false);
  if (throttled : bool) then Some (self, None)
  else
    let self := mkThrottler now receive_bitrate (max_remb_bitrate_ self) in
    let receive_bitrate := Z.min (last_send_remb_bitrate_ self) (max_remb_bitrate_ self) in
    bps ← ToValue receive_bitrate;
    Some (self, Some (bps, ssrcs)).

Definition SetMaxDesiredReceiveBitrate (self : RembThrottler) (now bitrate : Z)
  : option (RembThrottler * option Remb) :=
  let self := mkThrottler (last_remb_time_ self) (last_send_remb_bitrate_ self) bitrate in
  elapsed ← ts_diff now (last_remb_time_ self);
  if (elapsed <? kRembSendInterval) && negb (last_send_remb_bitrate_ self =? 0) &&
     (last_send_remb_bitrate_ self <=? max_remb_bitrate_ self)
  then Some (self, None)
  else
    bps ← ToValue bitrate;
    Some (self, Some (bps, [])).

(** ** Sessions *)

Inductive call :=
| Estimate (now : Z) (ssrcs : list Z) (bitrate_bps : Z)
| Cap (now bitrate : Z).

Definition run_call (self : RembThrottler) (c : call) : option (RembThrottler * option Remb) :=
  match c with
  | Estimate now ssrcs bitrate_bps => OnReceiveBitrateChanged self now ssrcs bitrate_bps
  | Cap now bitrate => SetMaxDesiredReceiveBitrate self now bitrate
  end.

(** The messages of a session, in their order. *)
Fixpoint run_calls (self : RembThrottler) (cs : list call) : option (RembThrottler * list Remb) :=
  match cs with
  | [] => Some (self, [])
  | c :: cs =>
      '(self, sent) ← run_call self c;
      '(self, rest) ← run_calls self cs;
      Some (self, option_list sent ++ rest)
  end.

(** Times of 2^61 microseconds at most. *)
Definition moment (t : Z) : Prop := 0 ≤ t ≤ 2 ^ 61.

Definition call_time (c : call) : Z :=
  match c with Estimate now _ _ => now | Cap now _ => now end.

Definition call_ok (c : call) : Prop :=
  moment (call_time c) ∧
  match c with
  | Estimate _ _ bps => uint32 bps
  | Cap _ bitrate => 0 ≤ bitrate < PlusInfinity
  end.

(** The clock does not run backwards. *)
Fixpoint in_time (start : Z) (cs : list call) : Prop :=
  match cs with
  | [] => True
  | c :: cs => start ≤ call_time c ∧ in_time (call_time c) cs
  end.

(** ** The invariant *)

(** What the sender was told last: nothing yet, or a bitrate within the cap; that a
    call which raises the cap may leave unsaid what it is, needs that the last
    message is not above the last estimate while an estimate is recent. *)
Definition told_ok (self : RembThrottler) (now : Z) (told : option Z) : Prop :=
  match told with
  | None => self = new_throttler
  | Some b => b ≤ max_remb_bitrate_ self ∧
      (last_remb_time_ self = MinusInfinity ∨ b ≤ last_send_remb_bitrate_ self ∨
       kRembSendInterval ≤ now - last_remb_time_ self ∨ last_send_remb_bitrate_ self = 0)
  end.

Record throttler_ok (self : RembThrottler) (now : Z) (told : option Z) : Prop := {
  t_max : 0 ≤ max_remb_bitrate_ self ≤ PlusInfinity;
  t_last : (last_remb_time_ self = MinusInfinity ∧ last_send_remb_bitrate_ self = PlusInfinity) ∨
           (0 ≤ last_remb_time_ self ≤ now ∧ uint32 (last_send_remb_bitrate_ self));
  t_told : told_ok self now told;
}.

(** The part of the invariant that does not depend on the order of the clock's readings. *)
Record state_ok (self : RembThrottler) : Prop := {
  s_max : 0 ≤ max_remb_bitrate_ self ≤ PlusInfinity;
  s_last : (last_remb_time_ self = MinusInfinity ∧ last_send_remb_bitrate_ self = PlusInfinity) ∨
           (moment (last_remb_time_ self) ∧ uint32 (last_send_remb_bitrate_ self));
}.

Lemma throttler_state self now told : throttler_ok self now told → moment now → state_ok self.
Proof.
  intros [Hm Hl _] Hn. split; [done|]. destruct Hl as [|[? ?]]; [by left|right].
  split; [unfold moment in *; lia|done].
Qed.

(** What was told last, after more messages. *)
Definition now_told (told : option Z) (sent : list Remb) : option Z :=
  match list.last sent with Some m => Some m.1 | None => told end.

Lemma now_told_app told a b : now_told told (a ++ b) = now_told (now_told told a) b.
Proof. unfold now_told. rewrite list.last_app. by destruct (list.last b). Qed.

Lemma scaled_rate bps : uint32 bps →
  (receive_bitrate ← BitsPerSec bps; scaled ← rate_times receive_bitrate kSendThresholdPercent;
   rate_over scaled 100) = Some (bps * 103 / 100).
Proof.
  unfold uint32. intros H. unfold BitsPerSec.
  rewrite FromValue_ok by (unfold finite, MinusInfinity, PlusInfinity; lia). cbn [mbind option_bind].
  unfold rate_times, kSendThresholdPercent.
  rewrite ToValue_ok by (unfold finite, MinusInfinity, PlusInfinity; lia). cbn [mbind option_bind].
  rewrite s64_id by (unfold int64; lia).
  rewrite FromValue_ok by (unfold finite, MinusInfinity, PlusInfinity; lia). cbn [mbind option_bind].
  unfold rate_over. rewrite ToValue_ok by (unfold finite, MinusInfinity, PlusInfinity; lia).
  cbn [mbind option_bind Z.eqb]. rewrite Z.quot_div_nonneg by lia.
  pose proof (Z.div_pos (bps * 103) 100). pose proof (Z.div_le_upper_bound (bps * 103) 100 (bps * 103)).
  apply FromValue_ok; unfold finite, MinusInfinity, PlusInfinity; lia.
Qed.

(** An estimate is held back: it is not at least three per cent below the last one
    sent, which is less than 200 ms old. *)
Definition held_back (self : RembThrottler) (now bps : Z) : Prop :=
  last_send_remb_bitrate_ self < bps * 103 / 100 ∧ last_remb_time_ self ≠ MinusInfinity ∧
  now < last_remb_time_ self + kRembSendInterval.

#[export] Instance held_back_dec self now bps : Decision (held_back self now bps).
Proof. unfold held_back. apply _. Defined.

Lemma OnReceiveBitrateChanged_ok self now ssrcs bps : state_ok self → moment now → uint32 bps →
  OnReceiveBitrateChanged self now ssrcs bps =
    Some (if decide (held_back self now bps) then (self, None)
          else (mkThrottler now bps (max_remb_bitrate_ self),
                Some (Z.min bps (max_remb_bitrate_ self), ssrcs))).
Proof.
  intros [Hm Hl] Hnow Hb. assert (E := scaled_rate bps Hb). unfold OnReceiveBitrateChanged.
  assert (E0 : BitsPerSec bps = Some bps).
  { unfold uint32 in Hb. apply FromValue_ok; unfold finite, MinusInfinity, PlusInfinity; lia. }
  rewrite E0 in E |- *. cbn [mbind option_bind] in E |- *.
  destruct (rate_times bps kSendThresholdPercent) as [scaled|]; [|done]. cbn [mbind option_bind] in E |- *.
  rewrite E. cbn [mbind option_bind]. rewrite Z.gtb_ltb.
  assert (E2 : (if last_send_remb_bitrate_ self <? bps * 103 / 100 then
      limit ← ts_add (last_remb_time_ self) kRembSendInterval; Some (now <? limit) else Some false) =
    Some (bool_decide (held_back self now bps))).
  { destruct (Z.ltb_spec (last_send_remb_bitrate_ self) (bps * 103 / 100)) as [Hlt|Hge].
    2: { f_equal. symmetry. apply bool_decide_eq_false. unfold held_back. lia. }
    unfold moment, kRembSendInterval in *.
    destruct Hl as [[E1 _]|[Ht _]].
    { rewrite bool_decide_false by (unfold held_back; naive_solver).
      rewrite E1. change (ts_add MinusInfinity 200000) with (Some MinusInfinity). cbn [mbind option_bind]. f_equal. apply Z.ltb_ge. unfold MinusInfinity. lia. }
    rewrite ts_add_ok by (unfold finite, MinusInfinity, PlusInfinity; lia). cbn [mbind option_bind]. f_equal.
    apply eq_true_iff_eq. rewrite Z.ltb_lt, bool_decide_eq_true.
    unfold held_back, kRembSendInterval, MinusInfinity. lia. }
  rewrite E2. cbn [mbind option_bind]. unfold uint32 in Hb.
  destruct (bool_decide_reflect (held_back self now bps)) as [Hh|Hh];
    [by rewrite decide_True|]. rewrite decide_False by done.
  cbn [last_send_remb_bitrate_ max_remb_bitrate_].
  by rewrite ToValue_ok by (unfold finite, MinusInfinity, PlusInfinity; lia).
Qed.

Lemma estimate_ok self start told now ssrcs bps : throttler_ok self start told →
  start ≤ now → moment now → uint32 bps →
  wp (OnReceiveBitrateChanged self now ssrcs bps) (λ '(self', sent),
    max_remb_bitrate_ self' = max_remb_bitrate_ self ∧
    throttler_ok self' now (now_told told (option_list sent))).
Proof.
  intros [Hm Hl Ht] Hs Hnow Hb.
  assert (H : throttler_ok self now told).
  { split; [done| |].
    - destruct Hl as [|[? ?]]; [by left|right]. split; [lia|done].
    - destruct told as [b|]; [|done]. destruct Ht as [? Ht]. split; [done|]. lia. }
  rewrite OnReceiveBitrateChanged_ok by (done || by apply (throttler_state self now told)).
  destruct (decide (held_back self now bps)); cbn [wp]; [done|]. split; [done|].
  unfold moment in *. split; cbn; [done|right; split; [lia|done]|]. split; [lia|]. right; left. lia.
Qed.

Lemma estimate_state self now ssrcs bps : state_ok self → moment now → uint32 bps →
  wp (OnReceiveBitrateChanged self now ssrcs bps) (λ '(self', _), state_ok self').
Proof.
  intros Hok Hn Hb. rewrite OnReceiveBitrateChanged_ok by done.
  destruct (decide _); cbn [wp]; [done|]. destruct Hok. split; [done|]. by right.
Qed.

Lemma cap_state self now bitrate : state_ok self → moment now → 0 ≤ bitrate < PlusInfinity →
  wp (SetMaxDesiredReceiveBitrate self now bitrate) (λ '(self', _), state_ok self').
Proof.
  intros [Hm Hl] Hn Hb. unfold SetMaxDesiredReceiveBitrate. cbn [last_remb_time_].
  assert (E : ∃ d, ts_diff now (last_remb_time_ self) = Some d).
  { unfold moment in *. destruct Hl as [[-> _]|[? _]].
    - exists PlusInfinity. unfold ts_diff. rewrite orb_true_r. unfold IsMinusInfinity.
      by rewrite (proj2 (Z.eqb_neq now MinusInfinity)) by (unfold MinusInfinity; lia).
    - eexists. apply ts_diff_ok; unfold finite, MinusInfinity, PlusInfinity; lia. }
  destruct E as (d & ->). cbn [mbind option_bind].
  assert (Hok' : state_ok (mkThrottler (last_remb_time_ self) (last_send_remb_bitrate_ self) bitrate))
    by (split; cbn; [lia|done]).
  case_match; cbn [wp]; [done|]. by rewrite ToValue_ok by (unfold finite, MinusInfinity; lia).
Qed.

Lemma cap_ok self start told now bitrate : throttler_ok self start told →
  start ≤ now → moment now → 0 ≤ bitrate < PlusInfinity →
  wp (SetMaxDesiredReceiveBitrate self now bitrate) (λ '(self', sent),
    max_remb_bitrate_ self' = bitrate ∧ now_told told (option_list sent) ≠ None ∧
    throttler_ok self' now (now_told told (option_list sent))).
Proof.
  intros [Hm Hl Ht] Hs Hnow Hb. unfold SetMaxDesiredReceiveBitrate. cbn [last_remb_time_
    last_send_remb_bitrate_ max_remb_bitrate_].
  assert (Hb' : ToValue bitrate = Some bitrate) by (apply ToValue_ok; unfold finite, MinusInfinity; lia).
  unfold moment in Hnow. destruct Hl as [[E1 E2]|[Hlast Hu]].
  - rewrite E1, E2. assert (E : ts_diff now MinusInfinity = Some PlusInfinity).
    { unfold ts_diff. rewrite orb_true_r. unfold IsMinusInfinity.
      rewrite (proj2 (Z.eqb_neq now MinusInfinity)) by (unfold MinusInfinity; lia). done. }
    rewrite E. cbn [mbind option_bind]. change (PlusInfinity <? kRembSendInterval) with false.
    cbn [andb]. rewrite Hb'. cbn. split_and!; [done|done|]. split; cbn; [lia|by left|].
    split; [lia|by left].
  - rewrite ts_diff_ok by (unfold finite, MinusInfinity, PlusInfinity; lia). cbn [mbind option_bind].
    destruct (Z.ltb_spec (now - last_remb_time_ self) kRembSendInterval) as [Hlt|Hge]; cbn [andb].
    2: { rewrite Hb'. cbn. split_and!; [done|done|]. split; cbn; [lia|right; split; [lia|done]|].
         split; [lia|]. right; right; by left. }
    destruct (Z.eqb_spec (last_send_remb_bitrate_ self) 0) as [E0|Hne]; cbn [negb andb].
    { rewrite Hb'. cbn. split_and!; [done|done|]. split; cbn; [lia|right; split; [lia|done]|].
      split; [lia|]. by right; right; right. }
    destruct (Z.leb_spec (last_send_remb_bitrate_ self) bitrate) as [Hle|Hgt].
    2: { rewrite Hb'. cbn. split_and!; [done|done|]. split; cbn; [lia|right; split; [lia|done]|].
         split; [lia|]. right; left. lia. }
    cbn [wp option_list now_told]. cbn. destruct told as [b|].
    2: { cbn in Ht. rewrite Ht in Hlast. unfold new_throttler, MinusInfinity in Hlast. cbn in Hlast. lia. }
    cbn in Ht. split_and!; [done|done|]. unfold uint32, MinusInfinity in *.
    split; cbn; unfold MinusInfinity; [lia|right; split; [lia|done]|]. lia.
Qed.

(** The cap that was set last. *)
Definition cap_of (start : Z) (cs : list call) : Z :=
  foldl (λ c e, match e with Cap _ b => b | _ => c end) start cs.

Definition is_cap (c : call) : bool := match c with Cap _ _ => true | _ => false end.

Lemma run_calls_ok cs : ∀ self start told, throttler_ok self start told → Forall call_ok cs →
  in_time start cs →
  wp (run_calls self cs) (λ '(self', sent),
    max_remb_bitrate_ self' = cap_of (max_remb_bitrate_ self) cs ∧
    (told ≠ None ∨ existsb is_cap cs = true → now_told told sent ≠ None) ∧
    ∃ now, throttler_ok self' now (now_told told sent)).
Proof.
  induction cs as [|c cs IH]; intros self start told Hok Hcs Ht; cbn [run_calls].
  { cbn. split_and!; [done|by intros [|]|by exists start]. }
  apply Forall_cons_1 in Hcs as [[Hc Hc'] Hcs]. destruct Ht as [Ht Hts]. apply wp_bind.
  destruct c as [now ssrcs bps|now bitrate]; cbn [run_call call_time] in *.
  - wp_call (by apply (estimate_ok self start told)). intros [self1 sent] (Em & H1). apply wp_bind.
    wp_call (by apply (IH self1 now (now_told told (option_list sent)))).
    intros [self' rest] (Em' & Hn & now' & H'). cbn [wp]. rewrite now_told_app. split_and!.
    + rewrite Em', Em. done.
    + intros H. apply Hn. cbn [existsb is_cap orb] in H. destruct H as [H|H]; [|by right].
      left. unfold now_told. by destruct (list.last _).
    + by exists now'.
  - wp_call (by apply (cap_ok self start told)). intros [self1 sent] (Em & H0 & H1). apply wp_bind.
    wp_call (by apply (IH self1 now (now_told told (option_list sent)))).
    intros [self' rest] (Em' & Hn & now' & H'). cbn [wp]. rewrite now_told_app. split_and!.
    + rewrite Em', Em. done.
    + intros _. apply Hn. by left.
    + by exists now'.
Qed.

Lemma new_throttler_ok now : throttler_ok new_throttler now None.
Proof. split; cbn; [unfold PlusInfinity; lia|by left|done]. Qed.

(** C31: The sender is told the cap. In every session of estimates and caps with a
    clock that does not run backwards, no check fails, and at every moment after a cap
    was set the sender has been told a bitrate, and the bitrate it was told last is not
    larger than the cap, also where a cap or an estimate was held back. *)
Theorem remb_within_cap (cs : list call) (start : Z) :
  Forall call_ok cs → in_time start cs →
  wp (run_calls new_throttler cs) (λ '(_, sent),
    match list.last sent with
    | None => Forall (λ c, is_cap c = false) cs
    | Some (bitrate, _) => bitrate ≤ cap_of PlusInfinity cs
    end).
Proof.
  intros Hcs Ht. wp_call (apply (run_calls_ok cs new_throttler start None); [apply new_throttler_ok|done|done]).
  intros [self' sent] (Em & Hn & now & H). unfold now_told in *.
  destruct (list.last sent) as [[bitrate ssrcs]|] eqn:El.
  - destruct H as [_ _ [H _]]. cbn in *. rewrite Em in H. done.
  - apply List.Forall_forall. intros c Hc. destruct (is_cap c) eqn:Ec; [|done].
    exfalso. apply Hn; [|done]. right. apply existsb_exists. by exists c.
Qed.

Definition example_calls : list call :=
  [Estimate 1000 [7] 100000; Cap 2000 50000; Estimate 3000 [7] 101000; Cap 4000 80000; Cap 300000 300000;
   Cap 300500 200000; Estimate 301000 [7; 9] 101000; Cap 301500 150000].

Lemma remb_within_cap_witness :
  (snd <$> run_calls new_throttler example_calls) =
    Some [(100000, [7]); (50000, []); (80000, []); (300000, []); (200000, []); (101000, [7; 9])] ∧
  wp (run_calls new_throttler example_calls) (λ '(_, sent),
    match list.last sent with
    | None => Forall (λ c, is_cap c = false) example_calls
    | Some (bitrate, _) => bitrate ≤ cap_of PlusInfinity example_calls
    end).
Proof.
  split; [by vm_compute|]. apply (remb_within_cap example_calls 0); [|cbn; lia].
  repeat (apply Forall_cons_2; [unfold call_ok, moment, uint32, PlusInfinity; cbn; lia|]). apply Forall_nil_2.
Defined.

(** An estimate that nothing of the last 200 ms precedes, or that has fallen by three
    per cent, is sent, cut at the cap. *)
Lemma estimate_sent self now ssrcs bps : state_ok self → moment now → uint32 bps →
  last_remb_time_ self = MinusInfinity ∨ last_remb_time_ self + kRembSendInterval ≤ now ∨
    bps * 103 ≤ last_send_remb_bitrate_ self * 100 →
  OnReceiveBitrateChanged self now ssrcs bps =
    Some (mkThrottler now bps (max_remb_bitrate_ self),
          Some (Z.min bps (max_remb_bitrate_ self), ssrcs)).
Proof.
  intros Hok Hn Hb H. rewrite OnReceiveBitrateChanged_ok by done.
  rewrite decide_False; [done|]. unfold held_back, kRembSendInterval in *. intros (H1 & H2 & H3).
  destruct H as [?|[?|H]]; [done|lia|]. pose proof (Z.div_le_upper_bound (bps * 103) 100 (last_send_remb_bitrate_ self)). lia.
Qed.

(** A small decrease is held back, although the estimate has decreased. *)
Example small_decrease_held_back :
  (_ ← OnReceiveBitrateChanged new_throttler 0 [7] 100000;
   OnReceiveBitrateChanged (mkThrottler 0 100000 PlusInfinity) 1000 [7] 98000) =
  Some (mkThrottler 0 100000 PlusInfinity, None).
Proof. reflexivity. Qed.

End RembThrottler.
