(* ===== verification/ReceiveSide.v ===== *)
(** * The receive-side congestion controller
    (modules/congestion_controller/receive_side_congestion_controller.cc, .h,
    RemoteBitrateEstimator of
    modules/remote_bitrate_estimator/include/remote_bitrate_estimator.h)

    The controller hands the received packets and the clock to the two feedback
    generators (CcGenerator.v, WideGenerator.v), or to an estimator of the bitrate
    whose estimates go through the throttler (RembThrottler.v). The estimators are
    used through the virtual methods of an abstract class only, which is the class
    [RemoteBitrateEstimator] here. Nothing is assumed of them: the theorem on sessions
    of the controller says where a call of an estimator can end a session
    ([estimator_fails]). The operations run one after the other, as the sequence checker
    and the mutex have it. *)

From stdpp Require Import list sorting.
From S2P Require Import Prelude SeqNum Units Rtcp CcFeedback CcTracker CcGenerator ArrivalMap TransportFb WideGenerator WideSession RembThrottler.
Import SeqNum Units CcFeedback RembThrottler.

Module ReceiveSide.

Definition kTimeOffsetSwitchThreshold : Z := 30.

Inductive MediaType := AUDIO | VIDEO | DATA | UNSUPPORTED | ANY.

#[export] Instance MediaType_eq_dec : EqDecision MediaType.
Proof. solve_decision. Defined.

(** What the components read of a packet. *)
Record RtpPacketReceived := mkPacket {
  sequence_number : Z;
  ssrc : Z;
  arrival_time : Z;
  ecn : EcnMarking;
  marker : bool;
  has_transport_v1 : bool;
  transport_v1 : option Z;
  has_transport_v2 : bool;
  transport_v2 : option (Z * option WideGenerator.FeedbackRequest);
  has_abs_send_time : bool;
}.

Definition cc_view (p : RtpPacketReceived) : CcTracker.RtpPacketReceived :=
  CcTracker.mkRtp (sequence_number p) (ssrc p) (arrival_time p) (ecn p) (marker p).
Definition wide_view (p : RtpPacketReceived) : WideGenerator.RtpPacketReceived :=
  WideGenerator.mkReceivedRtp (arrival_time p) (ssrc p) (has_transport_v1 p) (transport_v1 p)
    (has_transport_v2 p) (transport_v2 p).

(** A call of the observer: the reading of the clock at the call, the streams, the
    bitrate. *)
Definition Notification : Type := Z * list Z * Z.

(** The abstract class. The last argument of the methods is the reading of the clock. *)
Class RemoteBitrateEstimator (E : Type) := {
  IncomingPacket : E → RtpPacketReceived → Z → option (E * list Notification);
  ProcessEstimator : E → Z → option (E * list Notification * Z);
  UpdateRtt : E → Z → Z → option E;
  RemoveSsrc : E → Z → option E;
  LatestEstimate : E → option Z;
}.

(** An object of either subclass: the methods are those of the subclass. *)
#[export] Instance either_estimator A B `{RemoteBitrateEstimator A} `{RemoteBitrateEstimator B}
  : RemoteBitrateEstimator (A + B) := {
  IncomingPacket e p clock :=
    match e with
    | inl a => '(a, ns) ← IncomingPacket a p clock; Some (inl a, ns)
    | inr b => '(b, ns) ← IncomingPacket b p clock; Some (inr b, ns)
    end;
  ProcessEstimator e clock :=
    match e with
    | inl a => '(a, ns, wait) ← ProcessEstimator a clock; Some (inl a, ns, wait)
    | inr b => '(b, ns, wait) ← ProcessEstimator b clock; Some (inr b, ns, wait)
    end;
  UpdateRtt e avg max :=
    match e with
    | inl a => a ← UpdateRtt a avg max; Some (inl a)
    | inr b => b ← UpdateRtt b avg max; Some (inr b)
    end;
  RemoveSsrc e s :=
    match e with
    | inl a => a ← RemoveSsrc a s; Some (inl a)
    | inr b => b ← RemoveSsrc b s; Some (inr b)
    end;
  LatestEstimate e := match e with inl a => LatestEstimate a | inr b => LatestEstimate b end;
}.

(** What the controller sends: a congestion control feedback with the time, a
    transport-wide feedback, or a REMB. *)
Inductive message :=
| Rfc8888 (time : Z) (f : CongestionControlFeedback)
| Twcc (f : TransportFb.TransportFeedback)
| RembMessage (m : Remb).

Definition rfc8888_of (m : message) : option (Z * CongestionControlFeedback) :=
  match m with Rfc8888 t f => Some (t, f) | _ => None end.
Definition twcc_of (m : message) : option TransportFb.TransportFeedback :=
  match m with Twcc f => Some f | _ => None end.

(** ** Calls of the controller *)

Inductive event :=
| Received (packet : RtpPacketReceived) (media_type : MediaType) (clock : Z)
| Timer (now clock clock' : Z)
| BitrateChanged (bitrate_bps : Z)
| EnableRfc8888
| SetMaxBitrate (clock bitrate : Z)
| RttUpdate (avg_rtt_ms max_rtt_ms : Z)
| StreamRemoved (ssrc : Z).

Section controller.
(** The two subclasses and what their constructors make; the sorting function, the
    NTP clock and the uninitialised memory of the generators. *)
Context {AbsSendTime SingleStream : Type}.
Context `{RemoteBitrateEstimator AbsSendTime} `{RemoteBitrateEstimator SingleStream}.
Context (new_abs_send_time : AbsSendTime) (new_single_stream : SingleStream).
Context (c_sort : list CcTracker.Received → list CcTracker.Received) (ntp : Z → Z * Z) (ds : list Z).

Record ReceiveSideCongestionController := mkController {
  remb_throttler_ : RembThrottler;
  send_rfc8888_congestion_feedback_ : bool;
  transport_sequence_number_feedback_generator_ :
    WideGenerator.TransportSequenceNumberFeedbackGenenerator;
  congestion_control_feedback_generator_ : CcGenerator.CongestionControlFeedbackGenerator;
  rbe_ : AbsSendTime + SingleStream;
  using_absolute_send_time_ : bool;
  packets_since_absolute_send_time_ : Z;
}.

(** The generator of congestion control feedback is made from the field trials, as is
    the decision to use it from the start. *)
Definition new_controller (cc : CcGenerator.CongestionControlFeedbackGenerator) (force_send : bool)
  : ReceiveSideCongestionController :=
  mkController new_throttler force_send WideGenerator.new_generator cc (inr new_single_stream) false 0.

Definition with_throttler (self : ReceiveSideCongestionController) (t : RembThrottler) :=
  mkController t (send_rfc8888_congestion_feedback_ self)
    (transport_sequence_number_feedback_generator_ self) (congestion_control_feedback_generator_ self)
    (rbe_ self) (using_absolute_send_time_ self) (packets_since_absolute_send_time_ self).
Definition with_wide (self : ReceiveSideCongestionController) g :=
  mkController (remb_throttler_ self) (send_rfc8888_congestion_feedback_ self) g
    (congestion_control_feedback_generator_ self) (rbe_ self) (using_absolute_send_time_ self)
    (packets_since_absolute_send_time_ self).
Definition with_cc (self : ReceiveSideCongestionController) g :=
  mkController (remb_throttler_ self) (send_rfc8888_congestion_feedback_ self)
    (transport_sequence_number_feedback_generator_ self) g (rbe_ self) (using_absolute_send_time_ self)
    (packets_since_absolute_send_time_ self).
Definition with_estimator (self : ReceiveSideCongestionController) (e : AbsSendTime + SingleStream)
    (use_abs : bool) (packets : Z) :=
  mkController (remb_throttler_ self) (send_rfc8888_congestion_feedback_ self)
    (transport_sequence_number_feedback_generator_ self) (congestion_control_feedback_generator_ self)
    e use_abs packets.
Definition with_rbe (self : ReceiveSideCongestionController) (e : AbsSendTime + SingleStream) :=
  with_estimator self e (using_absolute_send_time_ self) (packets_since_absolute_send_time_ self).

(** The observer is the throttler. *)
Fixpoint notify (t : RembThrottler) (ns : list Notification) : option (RembThrottler * list message) :=
  match ns with
  | [] => Some (t, [])
  | (clock, ssrcs, bitrate) :: ns =>
      '(t, sent) ← OnReceiveBitrateChanged t clock ssrcs bitrate;
      '(t, rest) ← notify t ns;
      Some (t, map RembMessage (option_list sent) ++ rest)
  end.

Definition OnRttUpdate (self : ReceiveSideCongestionController) (avg_rtt_ms max_rtt_ms : Z)
  : option ReceiveSideCongestionController :=
  e ← UpdateRtt (rbe_ self) avg_rtt_ms max_rtt_ms;
  Some (with_rbe self e).

Definition RemoveStream (self : ReceiveSideCongestionController) (ssrc : Z)
  : option ReceiveSideCongestionController :=
  e ← RemoveSsrc (rbe_ self) ssrc;
  Some (with_rbe self e).

Definition LatestReceiveSideEstimate (self : ReceiveSideCongestionController) : option Z :=
  LatestEstimate (rbe_ self).

Definition PickEstimator (self : ReceiveSideCongestionController) (has_absolute_send_time : bool)
  : ReceiveSideCongestionController :=
  if has_absolute_send_time then
    if negb (using_absolute_send_time_ self) then with_estimator self (inl new_abs_send_time) true 0
    else with_estimator self (rbe_ self) (using_absolute_send_time_ self) 0
  else if using_absolute_send_time_ self then
    let packets := u32 (packets_since_absolute_send_time_ self + 1) in
    if packets >=? kTimeOffsetSwitchThreshold
    then with_estimator self (inr new_single_stream) false packets
    else with_estimator self (rbe_ self) (using_absolute_send_time_ self) packets
  else self.

Definition EnableSendCongestionControlFeedbackAccordingToRfc8888 (self : ReceiveSideCongestionController)
  : ReceiveSideCongestionController :=
  mkController (remb_throttler_ self) true (transport_sequence_number_feedback_generator_ self)
    (congestion_control_feedback_generator_ self) (rbe_ self) (using_absolute_send_time_ self)
    (packets_since_absolute_send_time_ self).

Definition has_transport_sequence_number (packet : RtpPacketReceived) : bool :=
  has_transport_v1 packet || has_transport_v2 packet.

(** The packet goes to the transport-wide generator. *)
Definition to_wide (self : ReceiveSideCongestionController) (packet : RtpPacketReceived)
  : option (ReceiveSideCongestionController * list message) :=
  '(fs, g) ← WideGenerator.OnReceivedPacket ds (transport_sequence_number_feedback_generator_ self)
     (wide_view packet);
  Some (with_wide self g, map Twcc fs).

Definition OnReceivedPacket (self : ReceiveSideCongestionController) (packet : RtpPacketReceived)
    (media_type : MediaType) (clock : Z) : option (ReceiveSideCongestionController * list message) :=
  if send_rfc8888_congestion_feedback_ self then
    '(g, sent) ← CcGenerator.OnReceivedPacket c_sort ntp (congestion_control_feedback_generator_ self)
       (cc_view packet) clock;
    let self := with_cc self g in
    let out := map (Rfc8888 clock) (option_list sent) in
    if has_transport_sequence_number packet then
      '(self, out') ← to_wide self packet;
      Some (self, out ++ out')
    else Some (self, out)
  else if bool_decide (media_type = AUDIO) && negb (has_transport_sequence_number packet) then
    Some (self, [])
  else if has_transport_sequence_number packet then to_wide self packet
  else
    let self := PickEstimator self (has_abs_send_time packet) in
    '(e, ns) ← IncomingPacket (rbe_ self) packet clock;
    '(t, out) ← notify (remb_throttler_ self) ns;
    Some (with_throttler (with_rbe self e) t, out).

Definition OnBitrateChanged (self : ReceiveSideCongestionController) (bitrate_bps : Z)
  : option ReceiveSideCongestionController :=
  send_bandwidth_estimate ← BitsPerSec bitrate_bps;
  g ← WideGenerator.OnSendBandwidthEstimateChanged (transport_sequence_number_feedback_generator_ self)
        send_bandwidth_estimate;
  (* the other generator does nothing with it *)
  Some (with_wide self g).

(** [now], [clock] and [clock']: the readings of the clock by the controller and, at the
    start and at the end, by the generator of congestion control feedback or the estimator. *)
Definition MaybeProcess (self : ReceiveSideCongestionController) (now clock clock' : Z)
  : option (ReceiveSideCongestionController * list message * Z) :=
  if send_rfc8888_congestion_feedback_ self then
    '(g, sent, time_until_cc_rep) ←
      CcGenerator.Process c_sort ntp (congestion_control_feedback_generator_ self) now clock clock';
    let self := with_cc self g in
    '(time_until_rep, fs, g) ←
      WideGenerator.Process ds (transport_sequence_number_feedback_generator_ self) now;
    Some (with_wide self g, map (Rfc8888 now) (option_list sent) ++ map Twcc fs,
          Z.max (Z.min time_until_cc_rep time_until_rep) 0)
  else
    '(e, ns, time_until_rbe) ← ProcessEstimator (rbe_ self) clock;
    '(t, out) ← notify (remb_throttler_ self) ns;
    let self := with_throttler (with_rbe self e) t in
    '(time_until_rep, fs, g) ←
      WideGenerator.Process ds (transport_sequence_number_feedback_generator_ self) now;
    Some (with_wide self g, out ++ map Twcc fs, Z.max (Z.min time_until_rbe time_until_rep) 0).

Definition SetMaxDesiredReceiveBitrate (self : ReceiveSideCongestionController) (clock bitrate : Z)
  : option (ReceiveSideCongestionController * list message) :=
  '(t, sent) ← RembThrottler.SetMaxDesiredReceiveBitrate (remb_throttler_ self) clock bitrate;
  Some (with_throttler self t, map RembMessage (option_list sent)).

Definition run_event (self : ReceiveSideCongestionController) (e : event)
  : option (ReceiveSideCongestionController * list message) :=
  match e with
  | Received packet media_type clock => OnReceivedPacket self packet media_type clock
  | Timer now clock clock' => '(self, out, _) ← MaybeProcess self now clock clock'; Some (self, out)
  | BitrateChanged bps => self ← OnBitrateChanged self bps; Some (self, [])
  | EnableRfc8888 => Some (EnableSendCongestionControlFeedbackAccordingToRfc8888 self, [])
  | SetMaxBitrate clock bitrate => SetMaxDesiredReceiveBitrate self clock bitrate
  | RttUpdate avg max => self ← OnRttUpdate self avg max; Some (self, [])
  | StreamRemoved ssrc => self ← RemoveStream self ssrc; Some (self, [])
  end.

Fixpoint run_events (self : ReceiveSideCongestionController) (es : list event)
  : option (ReceiveSideCongestionController * list message) :=
  match es with
  | [] => Some (self, [])
  | e :: es =>
      '(self, out) ← run_event self e;
      '(self, rest) ← run_events self es;
      Some (self, out ++ rest)
  end.

End controller.

Arguments ReceiveSideCongestionController : clear implicits.

(** ** What the two generators see *)

Definition next_mode (mode : bool) (e : event) : bool :=
  match e with EnableRfc8888 => true | _ => mode end.

(** The generator of congestion control feedback sees every packet and every tick from
    the moment on at which it is enabled. *)
Definition cc_event (mode : bool) (e : event) : list CcGenerator.event :=
  if mode then
    match e with
    | Received packet _ clock => [CcGenerator.Packet (cc_view packet) clock]
    | Timer now clock clock' => [CcGenerator.Timer now clock clock']
    | _ => []
    end
  else [].

Fixpoint cc_events (mode : bool) (es : list event) : list CcGenerator.event :=
  match es with
  | [] => []
  | e :: es => cc_event mode e ++ cc_events (next_mode mode e) es
  end.

(** The transport-wide generator sees every packet with one of its extensions, of every
    medium and in both modes, every tick and every change of the bitrate. *)
Definition wide_event (e : event) : list WideSession.event :=
  match e with
  | Received packet _ _ =>
      if has_transport_sequence_number packet then [WideSession.Packet (wide_view packet)] else []
  | Timer now _ _ => [WideSession.Tick now]
  | BitrateChanged bps => [WideSession.Estimate bps]
  | _ => []
  end.

Definition wide_events (es : list event) : list WideSession.event := es ≫= wide_event.

(** What the header of a packet can hold, and times of 115 days at most. *)
Record received_ok (p : RtpPacketReceived) (clock : Z) : Prop := {
  r_cc : CcGenerator.arrival_ok (cc_view p) clock;
  r_number : ∀ n r, WideGenerator.transport_number (wide_view p) = Some (n, r) → uint16 n;
  r_request : ∀ n r, WideGenerator.transport_number (wide_view p) = Some (n, Some r) →
    0 ≤ WideGenerator.sequence_count r ≤ 32767;
}.

Definition event_ok (e : event) : Prop :=
  match e with
  | Received packet _ clock => received_ok packet clock
  | Timer now clock clock' =>
      CcGenerator.moment now ∧ CcGenerator.moment clock ∧ CcGenerator.moment clock'
  | BitrateChanged bps => 0 ≤ bps < 2147483648
  | SetMaxBitrate clock bitrate => CcGenerator.moment clock ∧ 0 ≤ bitrate < PlusInfinity
  | EnableRfc8888 | RttUpdate _ _ | StreamRemoved _ => True
  end.

(** What the throttler can take from an estimator: a time and a bitrate. *)
Definition notification_ok (n : Notification) : Prop := moment n.1.1 ∧ uint32 n.2.

#[export] Instance notification_ok_dec n : Decision (notification_ok n).
Proof. unfold notification_ok, moment, uint32. apply _. Defined.

(** The call that the event makes of an estimator's method fails: the method does not
    return, or it tells the observer a time or a bitrate out of range. *)
Definition estimator_fails {A B} `{RemoteBitrateEstimator A} `{RemoteBitrateEstimator B}
    (new_abs_send_time : A) (new_single_stream : B) (self : ReceiveSideCongestionController A B)
    (e : event) : bool :=
  match e with
  | Received packet media_type clock =>
      negb (send_rfc8888_congestion_feedback_ self) && negb (has_transport_sequence_number packet) &&
      negb (bool_decide (media_type = AUDIO)) &&
      match IncomingPacket (rbe_ (PickEstimator new_abs_send_time new_single_stream self
              (has_abs_send_time packet))) packet clock with
      | Some (_, ns) => negb (bool_decide (Forall notification_ok ns))
      | None => true
      end
  | Timer _ clock _ =>
      negb (send_rfc8888_congestion_feedback_ self) &&
      match ProcessEstimator (rbe_ self) clock with
      | Some (_, ns, _) => negb (bool_decide (Forall notification_ok ns))
      | None => true
      end
  | RttUpdate avg max => match UpdateRtt (rbe_ self) avg max with Some _ => false | None => true end
  | StreamRemoved s => match RemoveSsrc (rbe_ self) s with Some _ => false | None => true end
  | _ => false
  end.

(** ** Composition *)

Lemma cc_session_app c_sort ntp a : ∀ g b,
  CcGenerator.session c_sort ntp g (a ++ b) =
  ('(g, out) ← CcGenerator.session c_sort ntp g a;
   '(g, out') ← CcGenerator.session c_sort ntp g b;
   Some (g, out ++ out')).
Proof.
  induction a as [|e a IH]; intros g b; cbn [app CcGenerator.session].
  { cbn [mbind option_bind]. by destruct (CcGenerator.session c_sort ntp g b) as [[]|]. }
  destruct (CcGenerator.step c_sort ntp g e) as [[g1 out]|]; [|done]. cbn [mbind option_bind].
  rewrite IH. destruct (CcGenerator.session c_sort ntp g1 a) as [[g2 out2]|]; [|done]. cbn [mbind option_bind].
  destruct (CcGenerator.session c_sort ntp g2 b) as [[g3 out3]|]; [|done]. cbn. by rewrite app_assoc.
Qed.

Lemma wide_run_app ds a : ∀ g b,
  WideSession.run_events ds g (a ++ b) =
  ('(out, g) ← WideSession.run_events ds g a;
   '(out', g) ← WideSession.run_events ds g b;
   Some (out ++ out', g)).
Proof.
  induction a as [|e a IH]; intros g b; cbn [app WideSession.run_events].
  { cbn [mbind option_bind]. by destruct (WideSession.run_events ds g b) as [[]|]. }
  destruct (WideSession.run_event ds g e) as [[out g1]|]; [|done]. cbn [mbind option_bind].
  rewrite IH. destruct (WideSession.run_events ds g1 a) as [[out2 g2]|]; [|done]. cbn [mbind option_bind].
  destruct (WideSession.run_events ds g2 b) as [[out3 g3]|]; [|done]. cbn. by rewrite app_assoc.
Qed.

Lemma mode_stays es : foldl next_mode true es = true.
Proof. induction es as [|[] es IH]; done. Qed.

Lemma CalculateNext_min g size now g' : CcGenerator.CalculateNextPossibleSendTime g size now = Some g' →
  CcGenerator.min_time_between_feedback_ g' = CcGenerator.min_time_between_feedback_ g.
Proof.
  unfold CcGenerator.CalculateNextPossibleSendTime. intros E.
  repeat apply bind_Some in E as (? & _ & E). by injection E as <-.
Qed.

Lemma SendFeedback_min c_sort ntp g now g' f : CcGenerator.SendFeedback c_sort ntp g now = Some (g', f) →
  CcGenerator.min_time_between_feedback_ g' = CcGenerator.min_time_between_feedback_ g.
Proof.
  unfold CcGenerator.SendFeedback. intros E.
  apply bind_Some in E as (? & _ & E). apply bind_Some in E as ([m infos] & _ & E). cbv beta iota zeta in E.
  apply bind_Some in E as (? & _ & E). apply bind_Some in E as (? & _ & E).
  apply bind_Some in E as (g1 & E1 & E). injection E as <- _. by rewrite (CalculateNext_min _ _ _ _ E1).
Qed.

Lemma session_min c_sort ntp es : ∀ g g' out, CcGenerator.session c_sort ntp g es = Some (g', out) →
  CcGenerator.min_time_between_feedback_ g' = CcGenerator.min_time_between_feedback_ g.
Proof.
  induction es as [|e es IH]; intros g g' out E; cbn [CcGenerator.session] in E; [by injection E as <- _|].
  destruct (CcGenerator.step c_sort ntp g e) as [[g1 o1]|] eqn:E1; [|done]. cbn [mbind option_bind] in E.
  destruct (CcGenerator.session c_sort ntp g1 es) as [[g2 o2]|] eqn:E2; [|done]. cbn in E.
  injection E as <- _. rewrite (IH _ _ _ E2).
  destruct e as [p clock|now clock clock']; cbn [CcGenerator.step] in E1.
  - unfold CcGenerator.OnReceivedPacket in E1. set (g0 := CcGenerator.mkGen _ _ _ _ _ _ _ _ _) in E1.
    destruct (CcGenerator.NextFeedbackTime g0 clock); [|done]. cbn [mbind option_bind] in E1.
    case_match; [|by injection E1 as <- _].
    destruct (CcGenerator.SendFeedback c_sort ntp g0 clock) as [[g3 f]|] eqn:E3; [|done]. cbn in E1.
    injection E1 as <- _. by rewrite (SendFeedback_min _ _ _ _ _ _ E3).
  - unfold CcGenerator.Process in E1.
    destruct (CcGenerator.NextFeedbackTime g clock); [|done]. cbn [mbind option_bind] in E1.
    case_match; [destruct (CcGenerator.SendFeedback c_sort ntp g now) as [[g3 f]|] eqn:E3; [|done]|];
      cbn [mbind option_bind] in E1;
      (destruct (CcGenerator.NextFeedbackTime _ clock') as [next|]; [|done]); cbn [mbind option_bind] in E1;
      (destruct (ts_diff next now); [|done]); cbn in E1; injection E1 as <- _; [|done].
    by rewrite (SendFeedback_min _ _ _ _ _ _ E3).
Qed.

Lemma rfc8888_map t o : omap rfc8888_of (map (Rfc8888 t) (option_list o)) =
  match o with Some f => [(t, f)] | None => [] end.
Proof. by destruct o. Qed.

Lemma rfc8888_twcc fs : omap rfc8888_of (map Twcc fs) = [].
Proof. induction fs; [done|]. cbn. done. Qed.

Lemma twcc_rfc8888 t o : omap twcc_of (map (Rfc8888 t) (option_list o)) = [].
Proof. by destruct o. Qed.

Lemma twcc_map fs : omap twcc_of (map Twcc fs) = fs.
Proof. induction fs as [|f fs IH]; [done|]. cbn. by rewrite IH. Qed.

Section refinement.
Context {AbsSendTime SingleStream : Type}.
Context `{RemoteBitrateEstimator AbsSendTime} `{RemoteBitrateEstimator SingleStream}.
Context (new_abs_send_time : AbsSendTime) (new_single_stream : SingleStream).
Context (c_sort : list CcTracker.Received → list CcTracker.Received) `{!CcTracker.Sorts c_sort}.
Context (ntp : Z → Z * Z) (ds : list Z) (ds_ok : length ds = 14%nat).

Abbreviation controller := (ReceiveSideCongestionController AbsSendTime SingleStream).
Abbreviation wide := transport_sequence_number_feedback_generator_.
Abbreviation cc := congestion_control_feedback_generator_.

(** After [k] calls. *)
Record controller_ok (k : Z) (self : controller) : Prop := {
  c_cc : CcGenerator.gen_ok (2 * k) (cc self);
  c_wide : ∃ v, WideGenerator.gen_ok (65535 + 32768 * k) (wide self) v;
  c_throttler : state_ok (remb_throttler_ self);
}.

(** What a call does to the generators. *)
Definition tracks (self : controller) (e : event) (self' : controller) (out : list message) : Prop :=
  send_rfc8888_congestion_feedback_ self' = next_mode (send_rfc8888_congestion_feedback_ self) e ∧
  CcGenerator.session c_sort ntp (cc self) (cc_event (send_rfc8888_congestion_feedback_ self) e) =
    Some (cc self', omap rfc8888_of out) ∧
  WideSession.run_events ds (wide self) (wide_event e) = Some (omap twcc_of out, wide self').

Lemma controller_ok_le k k' self : controller_ok k self → k ≤ k' → controller_ok k' self.
Proof using All.
  intros [Hc [v Hw] Ht] Hk. split; try done.
  - apply (CcGenerator.gen_ok_le (2 * k)); [done|lia].
  - exists v. apply (WideGenerator.gen_ok_weaken (65535 + 32768 * k)); [done|lia].
Qed.

Lemma notify_ok t ns : state_ok t → Forall notification_ok ns →
  wp (notify t ns) (λ '(t', out), state_ok t' ∧ omap rfc8888_of out = [] ∧ omap twcc_of out = []).
Proof using All.
  intros Ht Hn. revert t Ht. induction Hn as [|[[clock ssrcs] bps] ns [Hc Hb] _ IH]; intros t Ht; [done|].
  cbn [notify]. apply wp_bind. wp_call (by apply estimate_state). intros [t1 sent] Hs1.
  apply wp_bind. wp_call (by apply IH). intros [t' rest] (Hs2 & E1 & E2). cbn [wp].
  split; [done|]. rewrite !omap_app, E1, E2. by destruct sent.
Qed.

Lemma PickEstimator_ok k self b : controller_ok k self →
  controller_ok k (PickEstimator new_abs_send_time new_single_stream self b) ∧
  send_rfc8888_congestion_feedback_ (PickEstimator new_abs_send_time new_single_stream self b) =
    send_rfc8888_congestion_feedback_ self ∧
  cc (PickEstimator new_abs_send_time new_single_stream self b) = cc self ∧
  wide (PickEstimator new_abs_send_time new_single_stream self b) = wide self.
Proof using All.
  intros [Hc Hw Ht]. unfold PickEstimator. repeat case_match; by split_and!.
Qed.

Lemma received_packet_ok p clock : received_ok p clock → has_transport_sequence_number p = true →
  WideGenerator.packet_ok (wide_view p).
Proof using All.
  intros [(Hs & Hq & Ha & Hc) Hn Hr] Hh. unfold CcGenerator.horizon in Hc. cbn in *. split; try done.
  right. unfold TransportFb.time_in_range. cbn. lia.
Qed.

(** The transport-wide generator's step. *)
Lemma wide_step k g e : (∃ v, WideGenerator.gen_ok (65535 + 32768 * k) g v) → 0 ≤ k ≤ 2 ^ 40 →
  WideSession.event_ok e →
  ∃ fs g', WideSession.run_event ds g e = Some (fs, g') ∧
    ∃ v', WideGenerator.gen_ok (65535 + 32768 * (k + 1)) g' v'.
Proof using All.
  intros [v Hg] Hk He.
  destruct (WideSession.run_event_ok ds (65535 + 32768 * k) g v e) as (fs & g' & v' & E & Hg');
    [done|done|unfold small; lia|lia|done|].
  exists fs, g'. split; [done|]. exists v'. by replace (65535 + 32768 * (k + 1)) with (65535 + 32768 * k + 32768) by lia.
Qed.

Lemma wide_single g e fs g' : WideSession.run_event ds g e = Some (fs, g') →
  WideSession.run_events ds g [e] = Some (fs, g').
Proof using All. intros E. cbn. rewrite E. cbn. by rewrite app_nil_r. Qed.

Lemma to_wide_ok k (self : controller) p clock : 0 ≤ k ≤ 2 ^ 40 → received_ok p clock →
  has_transport_sequence_number p = true →
  (∃ v, WideGenerator.gen_ok (65535 + 32768 * k) (wide self) v) →
  ∃ fs g', to_wide ds self p = Some (with_wide self g', map Twcc fs) ∧
    (∃ v', WideGenerator.gen_ok (65535 + 32768 * (k + 1)) g' v') ∧
    WideSession.run_events ds (wide self) [WideSession.Packet (wide_view p)] = Some (fs, g').
Proof using All.
  intros Hk Hp Hh Hw.
  destruct (wide_step k (wide self) (WideSession.Packet (wide_view p)) Hw Hk) as (fs & g' & E & Hg').
  { by apply (received_packet_ok p clock). }
  exists fs, g'. split_and!; [|done|by apply wide_single]. cbn [WideSession.run_event] in E.
  unfold to_wide. rewrite E. done.
Qed.

(** The other generator's packet, and its tick. *)
Lemma cc_packet k g p clock : CcGenerator.gen_ok (2 * k) g → 0 ≤ k → CcGenerator.calls_ok (2 * k + 1) →
  CcGenerator.arrival_ok p clock →
  ∃ g' sent, CcGenerator.OnReceivedPacket c_sort ntp g p clock = Some (g', sent) ∧
    CcGenerator.gen_ok (2 * (k + 1)) g' ∧
    CcGenerator.session c_sort ntp g [CcGenerator.Packet p clock] =
      Some (g', match sent with Some f => [(clock, f)] | None => [] end).
Proof using All.
  intros Hg Hk Hn Hp. pose proof (CcGenerator.OnReceivedPacket_ok c_sort ntp (2 * k) g p clock Hg Hn ltac:(lia) Hp) as Hw.
  cbn [CcGenerator.session CcGenerator.step].
  destruct (CcGenerator.OnReceivedPacket c_sort ntp g p clock) as [[g' sent]|]; [|done].
  destruct Hw as [Hw _]. exists g', sent. split_and!; [done| |cbn; by rewrite app_nil_r].
  by replace (2 * (k + 1)) with (2 * k + 2) by lia.
Qed.

Lemma cc_tick k g now clock clock' : CcGenerator.gen_ok (2 * k) g → 0 ≤ k → CcGenerator.calls_ok (2 * k + 1) →
  CcGenerator.moment now → CcGenerator.moment clock → CcGenerator.moment clock' →
  ∃ g' sent delay, CcGenerator.Process c_sort ntp g now clock clock' = Some (g', sent, delay) ∧
    CcGenerator.gen_ok (2 * (k + 1)) g' ∧
    CcGenerator.session c_sort ntp g [CcGenerator.Timer now clock clock'] =
      Some (g', match sent with Some f => [(now, f)] | None => [] end).
Proof using All.
  intros Hg Hk Hn Ht1 Ht2 Ht3.
  pose proof (CcGenerator.Process_ok c_sort ntp (2 * k) g now clock clock' Hg
    ltac:(unfold CcGenerator.calls_ok in *; lia) Ht1 Ht2 Ht3) as Hw.
  cbn [CcGenerator.session CcGenerator.step].
  destruct (CcGenerator.Process c_sort ntp g now clock clock') as [[[g' sent] delay]|]; [|done].
  destruct Hw as [Hw _]. exists g', sent, delay. split_and!; [done| |cbn; by rewrite app_nil_r].
  apply (CcGenerator.gen_ok_le (2 * k + 1)); [done|lia].
Qed.

Lemma received_step k self p m clock : controller_ok k self → 0 ≤ k → CcGenerator.calls_ok (2 * k + 1) →
  received_ok p clock → estimator_fails new_abs_send_time new_single_stream self (Received p m clock) = false →
  wp (OnReceivedPacket new_abs_send_time new_single_stream c_sort ntp ds self p m clock)
    (λ '(self', out), controller_ok (k + 1) self' ∧ tracks self (Received p m clock) self' out).
Proof using All.
  intros Hok Hk Hn Hp Hf. assert (Hk' : 0 ≤ k ≤ 2 ^ 40) by (unfold CcGenerator.calls_ok in *; lia).
  unfold OnReceivedPacket, tracks, cc_event, wide_event. cbn [next_mode].
  destruct (controller_ok_le k (k + 1) self Hok ltac:(lia)) as [Hc1 Hw1 Ht1].
  destruct (send_rfc8888_congestion_feedback_ self) eqn:Em.
  - destruct (cc_packet k (cc self) (cc_view p) clock) as (g & sent & E & Hg & Es); [apply Hok|done|done|apply Hp|].
    rewrite E. cbn [mbind option_bind]. destruct (has_transport_sequence_number p) eqn:Eh.
    + destruct (to_wide_ok k (with_cc self g) p clock) as (fs & g' & Ew & Hg' & Esw); [done|done|done|apply Hok|].
      rewrite Ew. cbn [mbind option_bind wp]. split; [by split|]. split; [done|].
      rewrite Es, !omap_app, rfc8888_map, rfc8888_twcc, twcc_rfc8888, twcc_map, app_nil_r. by split.
    + cbn [wp]. split; [by split|]. split; [done|]. rewrite Es, rfc8888_map, twcc_rfc8888. by split.
  - destruct (has_transport_sequence_number p) eqn:Eh.
    + rewrite andb_false_r.
      destruct (to_wide_ok k self p clock) as (fs & g' & Ew & Hg' & Esw); [done|done|done|apply Hok|].
      rewrite Ew. cbn [wp]. split; [by split|]. rewrite rfc8888_twcc, twcc_map. by split_and!.
    + cbn [estimator_fails] in Hf. rewrite Em, Eh in Hf. rewrite andb_true_r. cbn [negb andb] in Hf.
      destruct (bool_decide (m = AUDIO)); [cbn [wp]; split; [by split|]; by split_and!|]. cbn [negb andb] in Hf.
      destruct (PickEstimator_ok k self (has_abs_send_time p) Hok) as (Hok2 & E1 & E2 & E3).
      set (self2 := PickEstimator _ _ _ _) in *. destruct Hok2 as [_ _ Ht2].
      destruct (IncomingPacket (rbe_ self2) p clock) as [[e ns]|]; [|done]. cbn [mbind option_bind].
      apply negb_false_iff, bool_decide_eq_true in Hf. apply wp_bind. wp_call (by apply notify_ok). intros [t out] (Ht & Ec & Ew). cbn [wp].
      split; [split; cbn; rewrite ?E2, ?E3; done|]. cbn. rewrite Ec, Ew, E1, E2, E3. by split_and!.
Qed.

Lemma timer_step k self now clock clock' : controller_ok k self → 0 ≤ k → CcGenerator.calls_ok (2 * k + 1) →
  event_ok (Timer now clock clock') →
  estimator_fails new_abs_send_time new_single_stream self (Timer now clock clock') = false →
  wp (MaybeProcess c_sort ntp ds self now clock clock')
    (λ '(self', out, wait), controller_ok (k + 1) self' ∧ tracks self (Timer now clock clock') self' out ∧ 0 ≤ wait).
Proof using All.
  intros Hok Hk Hn (Hnow & Hcl & Hcl') Hf. assert (Hk' : 0 ≤ k ≤ 2 ^ 40) by (unfold CcGenerator.calls_ok in *; lia).
  unfold MaybeProcess, tracks, cc_event, wide_event. cbn [next_mode].
  destruct (controller_ok_le k (k + 1) self Hok ltac:(lia)) as [Hc1 Hw1 Ht1].
  assert (Hw : ∃ wait fs g', WideGenerator.Process ds (wide self) now = Some (wait, fs, g') ∧
    (∃ v', WideGenerator.gen_ok (65535 + 32768 * (k + 1)) g' v') ∧
    WideSession.run_events ds (wide self) [WideSession.Tick now] = Some (fs, g')).
  { destruct (wide_step k (wide self) (WideSession.Tick now)) as (fs & g' & E & Hg'); [apply Hok|done| |].
    { unfold CcGenerator.moment, CcGenerator.horizon in Hnow. cbn. unfold TransportFb.time_in_range. lia. }
    assert (E' := wide_single _ _ _ _ E). cbn [WideSession.run_event] in E.
    destruct (WideGenerator.Process ds (wide self) now) as [[[wait fs1] g1]|]; [|done].
    cbn in E. injection E as -> ->. by exists wait, fs, g'. }
  destruct Hw as (wait & fs & g' & Ew & Hg' & Es').
  destruct (send_rfc8888_congestion_feedback_ self) eqn:Em.
  - destruct (cc_tick k (cc self) now clock clock') as (g & sent & delay & E & Hg & Es); [apply Hok|done..|].
    rewrite E. cbn [mbind option_bind]. change (wide (with_cc self g)) with (wide self).
    rewrite Ew. cbn [mbind option_bind wp]. split_and!; [by split|done| | |lia].
    + rewrite Es, !omap_app, rfc8888_map, rfc8888_twcc, app_nil_r. done.
    + rewrite !omap_app, twcc_rfc8888, twcc_map. done.
  - cbn [estimator_fails] in Hf. rewrite Em in Hf. cbn [negb andb] in Hf.
    destruct (ProcessEstimator (rbe_ self) clock) as [[[e ns] wait']|]; [|done]. cbn [mbind option_bind].
    apply negb_false_iff, bool_decide_eq_true in Hf. apply wp_bind. wp_call (by apply notify_ok). intros [t out] (Ht & Ec & Et). cbn [wp].
    change (wide (with_throttler (with_rbe self e) t)) with (wide self).
    rewrite Ew. cbn [mbind option_bind wp]. split_and!; [by split|done| | |lia].
    + by rewrite omap_app, Ec, rfc8888_twcc.
    + by rewrite omap_app, Et, twcc_map.
Qed.

Lemma bitrate_step k self bps : controller_ok k self → 0 ≤ k → CcGenerator.calls_ok (2 * k + 1) →
  0 ≤ bps < 2147483648 →
  wp (OnBitrateChanged self bps)
    (λ self', controller_ok (k + 1) self' ∧ tracks self (BitrateChanged bps) self' []).
Proof using All.
  intros Hok Hk Hn Hb. assert (Hk' : 0 ≤ k ≤ 2 ^ 40) by (unfold CcGenerator.calls_ok in *; lia).
  destruct (controller_ok_le k (k + 1) self Hok ltac:(lia)) as [Hc1 Hw1 Ht1].
  destruct (wide_step k (wide self) (WideSession.Estimate bps)) as (fs & g' & E & Hg'); [apply Hok|done| |].
  { cbn. unfold PlusInfinity. lia. }
  assert (E' := wide_single _ _ _ _ E). cbn [WideSession.run_event] in E.
  unfold OnBitrateChanged, tracks. unfold BitsPerSec.
  rewrite FromValue_ok by (unfold finite, MinusInfinity, PlusInfinity; lia). cbn [mbind option_bind].
  destruct (WideGenerator.OnSendBandwidthEstimateChanged (wide self) bps) as [g1|]; [|done].
  cbn in E. injection E as <- ->. cbn [mbind option_bind wp]. split; [by split|].
  cbn [next_mode wide_event]. split_and!; [done| |done]. unfold cc_event. by case_match.
Qed.

(** Every call keeps the invariant and does to the generators what it should. *)
Lemma controller_event_ok k self e : controller_ok k self → 0 ≤ k → CcGenerator.calls_ok (2 * k + 1) → event_ok e →
  estimator_fails new_abs_send_time new_single_stream self e = false →
  wp (run_event new_abs_send_time new_single_stream c_sort ntp ds self e)
    (λ '(self', out), controller_ok (k + 1) self' ∧ tracks self e self' out).
Proof using All.
  intros Hok Hk Hn He Hf. destruct (controller_ok_le k (k + 1) self Hok ltac:(lia)) as [Hc1 Hw1 Ht1].
  assert (Hcc : ∀ e, match e with Received _ _ _ | Timer _ _ _ => False | _ => True end →
    CcGenerator.session c_sort ntp (cc self) (cc_event (send_rfc8888_congestion_feedback_ self) e) =
      Some (cc self, [])).
  { intros e' He'. unfold cc_event. by destruct e', (send_rfc8888_congestion_feedback_ self). }
  destruct e as [p m clock|now clock clock'|bps| |clock bitrate|avg max|s]; cbn [run_event event_ok] in *.
  - by apply received_step.
  - apply wp_bind. wp_call (by apply (timer_step k)). intros [[self' out] wait] (? & ? & _). by cbn.
  - apply wp_bind. wp_call (by apply (bitrate_step k)). intros self' [? ?]. by cbn.
  - cbn [wp]. split; [by split|]. split_and!; [done|by apply Hcc|done].
  - unfold SetMaxDesiredReceiveBitrate. apply wp_bind. destruct He as [Hcl Hb].
    wp_call (apply cap_state; [done| |done]).
    { unfold CcGenerator.moment, CcGenerator.horizon, moment in *. lia. }
    intros [t sent] Ht. cbn [wp]. split; [by split|]. split_and!; [done| |].
    + rewrite Hcc by done. by destruct sent.
    + by destruct sent.
  - unfold OnRttUpdate. cbn [estimator_fails] in Hf.
    destruct (UpdateRtt (rbe_ self) avg max); [|done]. cbn [mbind option_bind wp].
    split; [by split|]. split_and!; [done|by apply Hcc|done].
  - unfold RemoveStream. cbn [estimator_fails] in Hf.
    destruct (RemoveSsrc (rbe_ self) s); [|done]. cbn [mbind option_bind wp].
    split; [by split|]. split_and!; [done|by apply Hcc|done].
Qed.

(** After the calls [es] the generators are where their own sessions lead to. *)
Record refines (k : Z) (self : controller) (es : list event) (r : controller * list message) : Prop := {
  ref_ok : controller_ok (k + Z.of_nat (length es)) r.1;
  ref_cc : CcGenerator.session c_sort ntp (cc self) (cc_events (send_rfc8888_congestion_feedback_ self) es) =
    Some (cc r.1, omap rfc8888_of r.2);
  ref_wide : WideSession.run_events ds (wide self) (wide_events es) = Some (omap twcc_of r.2, wide r.1);
  ref_mode : send_rfc8888_congestion_feedback_ r.1 = foldl next_mode (send_rfc8888_congestion_feedback_ self) es;
}.

Lemma refines_nil k self : controller_ok k self → refines k self [] (self, []).
Proof using All. intros Hok. split; try done. cbn [length fst]. by rewrite Z.add_0_r. Qed.

Lemma refines_cons k self e self1 out es r : tracks self e self1 out → refines (k + 1) self1 es r →
  refines k self (e :: es) (r.1, out ++ r.2).
Proof using All.
  intros (Em & Ec & Ew) [Hok Ec' Ew' Em']. split; cbn [fst snd].
  - cbn [length]. rewrite Nat2Z.inj_succ. by replace (k + Z.succ _) with (k + 1 + Z.of_nat (length es)) by lia.
  - cbn [cc_events]. rewrite cc_session_app, Ec. cbn [mbind option_bind]. rewrite <- Em, Ec'. cbn.
    by rewrite omap_app.
  - unfold wide_events. cbn [mbind list_bind]. fold (wide_events es). rewrite wide_run_app, Ew. cbn [mbind option_bind].
    rewrite Ew'. cbn. by rewrite omap_app.
  - by rewrite Em', Em.
Qed.

Abbreviation run := (run_events new_abs_send_time new_single_stream c_sort ntp ds).
Abbreviation fails := (estimator_fails new_abs_send_time new_single_stream).

Lemma controller_run_ok es : ∀ k self, controller_ok k self → 0 ≤ k →
  CcGenerator.calls_ok (2 * (k + Z.of_nat (length es))) → Forall event_ok es →
  wp (run self es) (refines k self es) ∨
  ∃ before e after r, es = before ++ e :: after ∧ run self before = Some r ∧ refines k self before r ∧
    fails r.1 e = true.
Proof using All.
  induction es as [|e es IH]; intros k self Hok Hk Hn He; [left; by apply refines_nil|].
  apply Forall_cons_1 in He as [He Hes]. cbn [length] in Hn. rewrite Nat2Z.inj_succ in Hn.
  destruct (fails self e) eqn:Ef.
  { right. exists [], e, es, (self, []). split_and!; try done. by apply refines_nil. }
  pose proof (controller_event_ok k self e Hok Hk ltac:(unfold CcGenerator.calls_ok in *; lia) He Ef) as Hw.
  apply wp_exists in Hw as ([self1 out] & E & Hok1 & Ht).
  destruct (IH (k + 1) self1 Hok1) as [Hr|(before & e' & after & r & -> & Er & Hr & Hf)];
    [lia|unfold CcGenerator.calls_ok in *; lia|done|left|right].
  - cbn [run_events]. rewrite E. cbn [mbind option_bind]. apply wp_bind. wp_call (exact Hr).
    intros [self' rest] Hr'. by apply (refines_cons k self e self1 out es (self', rest)).
  - exists (e :: before), e', after, (r.1, out ++ r.2). split_and!; [done| |by apply (refines_cons _ _ _ self1)|done].
    cbn [run_events]. rewrite E. cbn [mbind option_bind]. rewrite Er. by destruct r.
Qed.

Lemma run_failed self before e after r : run self before = Some r →
  run_event new_abs_send_time new_single_stream c_sort ntp ds r.1 e = None → run self (before ++ e :: after) = None.
Proof using All.
  revert self r. induction before as [|e' before IH]; intros self r Er Ee; cbn [app run_events] in *.
  - injection Er as <-. cbn [fst] in Ee. by rewrite Ee.
  - apply bind_Some in Er as ([self1 out] & -> & Er). cbn [mbind option_bind].
    apply bind_Some in Er as ([self2 rest] & Er & [= <-]). by rewrite (IH self1 (self2, rest)).
Qed.

(** The time to the next call, when congestion control feedback is on. *)
Lemma rfc8888_wait k self now clock clock' : controller_ok k self → 0 ≤ k → CcGenerator.calls_ok (2 * k + 1) →
  event_ok (Timer now clock clock') → send_rfc8888_congestion_feedback_ self = true →
  now ≤ clock' → clock ≤ clock' → 0 < CcGenerator.min_time_between_feedback_ (cc self) →
  wp (MaybeProcess c_sort ntp ds self now clock clock') (λ '(self', _, wait), 0 < wait ∧
    ∃ next, CcGenerator.NextFeedbackTime (cc self') clock' = Some next ∧ now + wait ≤ next).
Proof using All.
  intros Hok Hk Hn (Hnow & Hcl & Hcl') Em Hle Hle' Hmin.
  assert (Hk' : 0 ≤ k ≤ 2 ^ 40) by (unfold CcGenerator.calls_ok in *; lia).
  destruct Hok as [Hcc [v Hw] _]. unfold MaybeProcess. rewrite Em. apply wp_bind.
  wp_call (apply (CcGenerator.Process_ok c_sort ntp (2 * k)); try done; unfold CcGenerator.calls_ok in *; lia).
  intros [[g' sent] delay] (_ & (next & E & Hs) & E' & Hd).
  assert (Hpos : 0 < delay).
  { destruct sent as [f|]; [specialize (Hd ltac:(done)); lia|]. destruct Hs as [Hlt ->].
    pose proof (CcGenerator.NextFeedbackTime_mono (2 * k) (cc self) clock clock' next (now + delay)
      Hle' Hcl Hcl' Hcc E E'). lia. }
  assert (Hwide : ∃ wait fs g, WideGenerator.Process ds (wide self) now = Some (wait, fs, g) ∧ 0 < wait).
  { assert (Hr : TransportFb.time_in_range now)
      by (unfold CcGenerator.moment, CcGenerator.horizon in Hnow; unfold TransportFb.time_in_range; lia).
    destruct (decide (WideGenerator.due (wide self) now)) as [Hdue|Hdue].
    - destruct (WideGenerator.periodic_due ds _ _ v now ds_ok Hw Hr Hdue) as (fs & g & -> & _).
      eexists _, fs, g. split; [done|]. destruct (WideGenerator.g_interval _ _ _ Hw) as [Hi _].
      unfold WideGenerator.kMinInterval in Hi. lia.
    - destruct (WideGenerator.Process_wait ds _ _ v now Hw Hr Hdue) as (wait & -> & ? & _). by eexists _, _, _. }
  destruct Hwide as (wait & fs & g & Ew & Hwait). cbn [wp with_cc transport_sequence_number_feedback_generator_].
  rewrite Ew. cbn [mbind option_bind wp]. split; [lia|]. exists (now + delay). split; [done|lia].
Qed.

End refinement.

Lemma new_controller_ok {A B} `{RemoteBitrateEstimator A} `{RemoteBitrateEstimator B} (new_single_stream : B)
    min_delta max_wait max_delta force :
  0 ≤ min_delta ≤ max_delta → max_delta ≤ 10 ^ 9 → 0 ≤ max_wait ≤ 10 ^ 9 →
  controller_ok (AbsSendTime := A) 0
    (new_controller new_single_stream (CcGenerator.new_generator min_delta max_wait max_delta) force).
Proof.
  intros Hd1 Hd2 Hd3. split; cbn; [by apply CcGenerator.new_generator_ok| |].
  - exists None. by apply WideGenerator.wide_new_generator_ok.
  - split; cbn; [unfold PlusInfinity; lia|by left].
Qed.



(** An estimator for examples: it counts the packets, and tells the observer. *)
#[export] Instance counting_estimator : RemoteBitrateEstimator Z := {
  IncomingPacket n p clock := Some ((n + 1) mod 1000, [(clock, [ssrc p], (n + 1) mod 1000 * 1000)]);
  ProcessEstimator n clock := Some (n, [], 500000);
  UpdateRtt n _ _ := Some n;
  RemoveSsrc _ _ := Some 0;
  LatestEstimate n := Some (n * 1000);
}.






(** The counting estimators of the example never fail. *)
Example counting_never_fails (self : ReceiveSideCongestionController Z Z) e :
  event_ok e → estimator_fails 0 0 self e = false.
Proof.
  intros He. destruct e as [p m clock|now clock clock'| | | |avg max|s]; cbn [estimator_fails]; try done;
    [|by destruct (rbe_ self); cbn; rewrite andb_false_r|by destruct (rbe_ self)..].
  destruct He as [(_ & _ & Ha & Hc) _ _]. unfold CcGenerator.horizon in Hc.
  cbn in Ha. assert (Hok : ∀ n, notification_ok (clock, [ssrc p], (n + 1) mod 1000 * 1000)).
  { intros n. pose proof (Z.mod_pos_bound (n + 1) 1000 ltac:(lia)). unfold notification_ok, moment, uint32. cbn. lia. }
  destruct (rbe_ (PickEstimator 0 0 self (has_abs_send_time p))); cbn [IncomingPacket either_estimator
    counting_estimator mbind option_bind]; rewrite (bool_decide_eq_true_2 (Forall _ _)) by (by apply Forall_cons_2; [|apply Forall_nil_2]);
    by rewrite andb_false_r.
Qed.

(** ** The choice of the estimator *)

Section choice.
Context {A B : Type} (new_abs_send_time : A) (new_single_stream : B).

(** After the packets [fs], each with or without absolute send time. *)
Definition pick (self : ReceiveSideCongestionController A B) (fs : list bool)
  : ReceiveSideCongestionController A B :=
  foldl (PickEstimator new_abs_send_time new_single_stream) self fs.

(** [k] packets without absolute send time, and one with it before them. *)
Definition since (fs : list bool) (k : nat) : Prop := ∃ before, rev fs = replicate k false ++ true :: before.

Lemma existsb_window n k before : existsb id (firstn n (replicate k false ++ true :: before)) =
  (k <? n)%nat.
Proof.
  revert k. induction n as [|n IH]; intros k; [by destruct k|].
  destruct k as [|k]; cbn; [done|]. rewrite IH. done.
Qed.

Lemma existsb_shorter n l : existsb id (firstn (S n) l) = false → existsb id (firstn n l) = false.
Proof.
  revert l. induction n as [|n IH]; intros [|b l]; try done.
  cbn [firstn existsb]. rewrite !orb_false_iff. intros [Hb Hl]. split; [done|]. by apply IH.
Qed.

Lemma pick_ok self fs : using_absolute_send_time_ self = false → (∃ b, rbe_ self = inr b) →
  let self' := pick self fs in
  (if using_absolute_send_time_ self' then
     ∃ k, since fs k ∧ (k < 30)%nat ∧ packets_since_absolute_send_time_ self' = Z.of_nat k ∧
          ∃ a, rbe_ self' = inl a
   else existsb id (firstn 30 (rev fs)) = false ∧ ∃ b, rbe_ self' = inr b).
Proof.
  intros Hu Hb. induction fs as [|f fs IH] using rev_ind; cbn zeta in *; [cbn; by rewrite Hu|].
  unfold pick in *. rewrite foldl_app. cbn [foldl]. set (s := foldl _ self fs) in *.
  unfold PickEstimator. rewrite rev_app_distr. cbn [rev app]. destruct f.
  - destruct (using_absolute_send_time_ s); cbn [negb with_estimator using_absolute_send_time_
      packets_since_absolute_send_time_ rbe_].
    + destruct IH as (_ & _ & _ & _ & Ha). exists 0%nat. split_and!; [|lia|done|done].
      exists (rev fs). by rewrite rev_app_distr.
    + exists 0%nat. split_and!; [|lia|done|by eexists]. exists (rev fs). by rewrite rev_app_distr.
  - destruct (using_absolute_send_time_ s) eqn:Es.
    + destruct IH as (k & [before Hk] & Hlt & -> & Ha).
      rewrite (u32_id (Z.of_nat k + 1)) by (unfold uint32; lia). unfold kTimeOffsetSwitchThreshold.
      rewrite Z.geb_leb. destruct (Z.leb_spec 30 (Z.of_nat k + 1)) as [Hge|Hge];
        cbn [with_estimator using_absolute_send_time_ packets_since_absolute_send_time_ rbe_].
      * split; [|by eexists]. rewrite Hk. change (false :: replicate k false ++ true :: before)
          with (replicate (S k) false ++ true :: before). rewrite existsb_window. apply Nat.ltb_ge. lia.
      * exists (S k). split_and!; [|lia|lia|done]. exists before. rewrite rev_app_distr. cbn. by rewrite Hk.
    + rewrite Es. destruct IH as [IH Hr]. split; [|done]. cbn [firstn existsb id orb].
      by apply (existsb_shorter 29).
Qed.

End choice.

(** The estimator that is used. From a new controller on, whatever the packets are,
    the estimator for absolute send times is in use exactly while one of the last thirty
    packets had an absolute send time, and the object behind the interface is one of the
    class that is in use. *)
Theorem estimator_in_use {A B : Type} (new_abs_send_time : A) (new_single_stream : B)
    (g : CcGenerator.CongestionControlFeedbackGenerator) (force_send : bool) (fs : list bool) :
  let self := pick new_abs_send_time new_single_stream (new_controller new_single_stream g force_send) fs in
  using_absolute_send_time_ self = existsb id (firstn 30 (rev fs)) ∧
  match rbe_ self with inl _ => true | inr _ => false end = using_absolute_send_time_ self.
Proof.
  intros self.
  pose proof (pick_ok new_abs_send_time new_single_stream (new_controller new_single_stream g force_send) fs
    eq_refl (ex_intro _ _ eq_refl)) as Hp. cbn zeta in Hp. fold self in Hp.
  destruct (using_absolute_send_time_ self).
  - destruct Hp as (k & [before ->] & Hk & _ & [a ->]). split; [|done].
    rewrite existsb_window. symmetry. by apply Nat.ltb_lt.
  - destruct Hp as (-> & [b ->]). done.
Qed.

(** The timer of the controller, with congestion control feedback on: it is told to
    come back after a positive time, and not later than the next feedback is due. *)
Theorem MaybeProcess_waits {A B : Type} `{RemoteBitrateEstimator A} `{RemoteBitrateEstimator B}
    (new_abs_send_time : A) (new_single_stream : B)
    (c_sort : list CcTracker.Received → list CcTracker.Received) (ntp : Z → Z * Z) (ds : list Z)
    (min_delta max_wait max_delta : Z) (now clock clock' : Z) (es : list event)
    (self : ReceiveSideCongestionController A B) (out : list message) :
  CcTracker.Sorts c_sort → length ds = 14%nat →
  0 < min_delta ≤ max_delta → max_delta ≤ 10 ^ 9 → 0 ≤ max_wait ≤ 10 ^ 9 →
  Z.of_nat (length es) < 12 * 10 ^ 6 → Forall event_ok es →
  run_events new_abs_send_time new_single_stream c_sort ntp ds
    (new_controller new_single_stream (CcGenerator.new_generator min_delta max_wait max_delta) true) es =
    Some (self, out) →
  event_ok (Timer now clock clock') → now ≤ clock' → clock ≤ clock' →
  wp (MaybeProcess c_sort ntp ds self now clock clock') (λ '(self', _, wait), 0 < wait ∧
    ∃ next, CcGenerator.NextFeedbackTime (congestion_control_feedback_generator_ self') clock' = Some next ∧
      now + wait ≤ next).
Proof.
  intros Hsort Hds Hd1 Hd2 Hd3 Hn He Er Ht Hle Hle'.
  set (c0 := new_controller new_single_stream _ true) in Er.
  destruct (controller_run_ok new_abs_send_time new_single_stream c_sort ntp ds Hds es 0 c0)
    as [Hrun|(before & e & after & r & -> & Er' & Hr & Hf)];
    [apply new_controller_ok; done || lia|lia|unfold CcGenerator.calls_ok; lia|done| |].
  - rewrite Er in Hrun. destruct Hrun as [Hok Hcc _ Hm]. cbn [fst snd] in *. rewrite mode_stays in Hm.
    assert (Hmin := session_min c_sort ntp _ _ _ _ Hcc).
    apply (rfc8888_wait new_abs_send_time new_single_stream c_sort ntp ds Hds (0 + Z.of_nat (length es)));
      try done; try lia; [unfold CcGenerator.calls_ok; lia|].
    rewrite Hmin. cbn. lia.
  - exfalso. destruct Hr as [_ _ _ Hm]. rewrite mode_stays in Hm.
    rewrite (run_failed new_abs_send_time new_single_stream c_sort ntp ds Hds c0 before e after r) in Er; [done|done|].
    destruct e; cbn [estimator_fails run_event] in *; try rewrite Hm in Hf; try done.
    + unfold OnRttUpdate. by destruct (UpdateRtt _ _ _).
    + unfold RemoveStream. by destruct (RemoveSsrc _ _).
Qed.

End ReceiveSide.
