(* ===== verification/G711.v ===== *)
(** * Companding and linear codecs
    (modules/third_party/g711/g711.h, g711.c,
    modules/audio_coding/codecs/g711/g711_interface.c,
    modules/audio_coding/codecs/pcm16b/pcm16b.c)

    G.711 writes a sample as a sign, a segment and four bits; PCM16B writes it as two
    bytes. [top_bit] and [bottom_bit] are the portable versions: the others are inline
    assembly. *)

From S2P Require Import Prelude.

Module G711.

(** ** g711.h *)

(** One halving of the search for a bit: if the masked word is not zero it is kept, and
    the position moves. *)
Definition narrow (mask move : Z) (s : Z * Z) : Z * Z :=
  let '(bits, i) := s in
  if Z.land bits mask =? 0 then (bits, i) else (Z.land bits mask, i +i move).

Definition top_bit (bits : Z) : Z :=
  if bits =? 0 then -1
  else
    let s := (bits, 0) in
    let s := narrow 0xFFFF0000 16 s in
    let s := narrow 0xFF00FF00 8 s in
    let s := narrow 0xF0F0F0F0 4 s in
    let s := narrow 0xCCCCCCCC 2 s in
    let s := narrow 0xAAAAAAAA 1 s in
    s.2.

Definition bottom_bit (bits : Z) : Z :=
  if bits =? 0 then -1
  else
    let s := (bits, 32) in
    let s := narrow 0x0000FFFF (-16) s in
    let s := narrow 0x00FF00FF (-8) s in
    let s := narrow 0x0F0F0F0F (-4) s in
    let s := narrow 0x33333333 (-2) s in
    let s := narrow 0x55555555 (-1) s in
    s.2.

Definition ULAW_BIAS : Z := 0x84.

Definition linear_to_ulaw (linear : Z) : option Z :=
  let '(linear, mask) :=
    if linear <? 0 then (ULAW_BIAS -i linear -i 1, 0x7F) else (ULAW_BIAS +i linear, 0xFF) in
  let seg := top_bit (u32 (Z.lor linear 0xFF)) -i 7 in
  if 8 <=? seg then Some (u8 (Z.lxor 0x7F mask))
  else
    low ← shr32 linear (seg +i 3);
    Some (u8 (Z.lxor (Z.lor (seg <<i 4) (Z.land low 0xF)) mask)).

(** The shift amount is three bits of the code. *)
Definition ulaw_to_linear (ulaw : Z) : Z :=
  let ulaw := u8 (Z.lnot ulaw) in
  let t := ((Z.land ulaw 0x0F <<i 3) +i ULAW_BIAS) <<i (Z.land ulaw 0x70 >>i 4) in
  s16 (if Z.land ulaw 0x80 =? 0 then t -i ULAW_BIAS else ULAW_BIAS -i t).

Definition ALAW_AMI_MASK : Z := 0x55.

Definition linear_to_alaw (linear : Z) : option Z :=
  let '(linear, mask) :=
    if 0 <=? linear then (linear, Z.lor ALAW_AMI_MASK 0x80) else ((-i linear) -i 1, ALAW_AMI_MASK) in
  let seg := top_bit (u32 (Z.lor linear 0xFF)) -i 7 in
  if 8 <=? seg then
    if 0 <=? linear then Some (u8 (Z.lxor 0x7F mask)) else Some (u8 (Z.lxor 0x00 mask))
  else
    low ← shr32 linear (if seg =? 0 then 4 else seg +i 3);
    Some (u8 (Z.lxor (Z.lor (seg <<i 4) (Z.land low 0x0F)) mask)).

Definition alaw_to_linear (alaw : Z) : Z :=
  let alaw := Z.lxor alaw ALAW_AMI_MASK in
  let i := Z.land alaw 0x0F <<i 4 in
  let seg := Z.land alaw 0x70 >>i 4 in
  let i := if seg =? 0 then i +i 8 else (i +i 0x108) <<i (seg -i 1) in
  s16 (if Z.land alaw 0x80 =? 0 then -i i else i).

(** ** g711.c *)

Definition ulaw_to_alaw_table : list Z :=
  [42; 43; 40; 41; 46; 47; 44; 45; 34; 35; 32; 33; 38; 39; 36; 37;
   58; 59; 56; 57; 62; 63; 60; 61; 50; 51; 48; 49; 54; 55; 52; 53;
   10; 11; 8; 9; 14; 15; 12; 13; 2; 3; 0; 1; 6; 7; 4; 26;
   27; 24; 25; 30; 31; 28; 29; 18; 19; 16; 17; 22; 23; 20; 21; 106;
   104; 105; 110; 111; 108; 109; 98; 99; 96; 97; 102; 103; 100; 101; 122; 120;
   126; 127; 124; 125; 114; 115; 112; 113; 118; 119; 116; 117; 75; 73; 79; 77;
   66; 67; 64; 65; 70; 71; 68; 69; 90; 91; 88; 89; 94; 95; 92; 93;
   82; 82; 83; 83; 80; 80; 81; 81; 86; 86; 87; 87; 84; 84; 85; 85;
   170; 171; 168; 169; 174; 175; 172; 173; 162; 163; 160; 161; 166; 167; 164; 165;
   186; 187; 184; 185; 190; 191; 188; 189; 178; 179; 176; 177; 182; 183; 180; 181;
   138; 139; 136; 137; 142; 143; 140; 141; 130; 131; 128; 129; 134; 135; 132; 154;
   155; 152; 153; 158; 159; 156; 157; 146; 147; 144; 145; 150; 151; 148; 149; 234;
   232; 233; 238; 239; 236; 237; 226; 227; 224; 225; 230; 231; 228; 229; 250; 248;
   254; 255; 252; 253; 242; 243; 240; 241; 246; 247; 244; 245; 203; 201; 207; 205;
   194; 195; 192; 193; 198; 199; 196; 197; 218; 219; 216; 217; 222; 223; 220; 221;
   210; 210; 211; 211; 208; 208; 209; 209; 214; 214; 215; 215; 212; 212; 213; 213].

Definition alaw_to_ulaw_table : list Z :=
  [42; 43; 40; 41; 46; 47; 44; 45; 34; 35; 32; 33; 38; 39; 36; 37;
   57; 58; 55; 56; 61; 62; 59; 60; 49; 50; 47; 48; 53; 54; 51; 52;
   10; 11; 8; 9; 14; 15; 12; 13; 2; 3; 0; 1; 6; 7; 4; 5;
   26; 27; 24; 25; 30; 31; 28; 29; 18; 19; 16; 17; 22; 23; 20; 21;
   98; 99; 96; 97; 102; 103; 100; 101; 93; 93; 92; 92; 95; 95; 94; 94;
   116; 118; 112; 114; 124; 126; 120; 122; 106; 107; 104; 105; 110; 111; 108; 109;
   72; 73; 70; 71; 76; 77; 74; 75; 64; 65; 63; 63; 68; 69; 66; 67;
   86; 87; 84; 85; 90; 91; 88; 89; 79; 79; 78; 78; 82; 83; 80; 81;
   170; 171; 168; 169; 174; 175; 172; 173; 162; 163; 160; 161; 166; 167; 164; 165;
   185; 186; 183; 184; 189; 190; 187; 188; 177; 178; 175; 176; 181; 182; 179; 180;
   138; 139; 136; 137; 142; 143; 140; 141; 130; 131; 128; 129; 134; 135; 132; 133;
   154; 155; 152; 153; 158; 159; 156; 157; 146; 147; 144; 145; 150; 151; 148; 149;
   226; 227; 224; 225; 230; 231; 228; 229; 221; 221; 220; 220; 223; 223; 222; 222;
   244; 246; 240; 242; 252; 254; 248; 250; 234; 235; 232; 233; 238; 239; 236; 237;
   200; 201; 198; 199; 204; 205; 202; 203; 192; 193; 191; 191; 196; 197; 194; 195;
   214; 215; 212; 213; 218; 219; 216; 217; 207; 207; 206; 206; 210; 211; 208; 209].

Definition alaw_to_ulaw (alaw : Z) : option Z := alaw_to_ulaw_table !! Z.to_nat alaw.
Definition ulaw_to_alaw (ulaw : Z) : option Z := ulaw_to_alaw_table !! Z.to_nat ulaw.

(** ** g711_interface.c *)

Definition WebRtcG711_EncodeA (speechIn : list Z) (len : nat) (encoded : list Z)
  : option (list Z * nat) :=
  encoded ← for_loop len 0 (λ n encoded,
    x ← speechIn !! n; c ← linear_to_alaw x; wr encoded n c) encoded;
  Some (encoded, len).

Definition WebRtcG711_EncodeU (speechIn : list Z) (len : nat) (encoded : list Z)
  : option (list Z * nat) :=
  encoded ← for_loop len 0 (λ n encoded,
    x ← speechIn !! n; c ← linear_to_ulaw x; wr encoded n c) encoded;
  Some (encoded, len).

(** The decoded samples, the type of the speech and the length. *)
Definition WebRtcG711_DecodeA (encoded : list Z) (len : nat) (decoded : list Z)
  : option (list Z * Z * nat) :=
  decoded ← for_loop len 0 (λ n decoded,
    c ← encoded !! n; wr decoded n (alaw_to_linear c)) decoded;
  Some (decoded, 1, len).

Definition WebRtcG711_DecodeU (encoded : list Z) (len : nat) (decoded : list Z)
  : option (list Z * Z * nat) :=
  decoded ← for_loop len 0 (λ n decoded,
    c ← encoded !! n; wr decoded n (ulaw_to_linear c)) decoded;
  Some (decoded, 1, len).

(** ** pcm16b.c *)

Definition WebRtcPcm16b_Encode (speech : list Z) (len : nat) (encoded : list Z)
  : option (list Z * nat) :=
  encoded ← for_loop len 0 (λ i encoded,
    x ← speech !! i;
    let s := u16 x in
    encoded ← wr encoded (2 * i) (u8 (s >>i 8));
    wr encoded (2 * i + 1) (u8 s)) encoded;
  Some (encoded, (2 * len)%nat).

Definition WebRtcPcm16b_Decode (encoded : list Z) (len : nat) (speech : list Z)
  : option (list Z * nat) :=
  speech ← for_loop (len / 2) 0 (λ i speech,
    hi ← encoded !! (2 * i)%nat;
    lo ← encoded !! (2 * i + 1)%nat;
    wr speech i (s16 (Z.lor (hi <<i 8) lo))) speech;
  Some (speech, (len / 2)%nat).

(** ** The position of a bit *)

(** The positions of the set bits lie in an interval of [2 h] from [i] on. *)
Definition within (bits i w : Z) : Prop := ∀ j, 0 ≤ j → Z.testbit bits j = true → i ≤ j < i + w.

Lemma testbit_log2 bits j : 0 < bits → Z.testbit bits j = true → j ≤ Z.log2 bits.
Proof.
  intros Hb Hj. destruct (Z.le_gt_cases j (Z.log2 bits)); [done|].
  rewrite Z.bits_above_log2 in Hj by lia. done.
Qed.

Lemma log2_unique_bit b k : 0 < b → Z.testbit b k = true → (∀ j, k < j → Z.testbit b j = false) →
  Z.log2 b = k.
Proof.
  intros Hb Hk Hj. pose proof (testbit_log2 b k Hb Hk).
  destruct (Z.eq_dec (Z.log2 b) k); [done|].
  pose proof (Hj (Z.log2 b) ltac:(lia)) as E. rewrite Z.bit_log2 in E by lia. done.
Qed.

Lemma land_pos bits mask : 0 ≤ bits → Z.land bits mask ≠ 0 → 0 < Z.land bits mask.
Proof. intros Hb Hn. pose proof (proj2 (Z.land_nonneg bits mask) (or_introl Hb)). lia. Qed.

Lemma land_witness bits mask : 0 ≤ bits → Z.land bits mask ≠ 0 →
  ∃ j, 0 ≤ j ∧ Z.testbit bits j = true ∧ Z.testbit mask j = true.
Proof.
  intros Hb Hn. exists (Z.log2 (Z.land bits mask)). pose proof (land_pos bits mask Hb Hn).
  assert (E := Z.bit_log2 (Z.land bits mask) ltac:(lia)). rewrite Z.land_spec, andb_true_iff in E.
  split; [apply Z.log2_nonneg|done].
Qed.

Lemma land_zero bits mask : Z.land bits mask = 0 →
  ∀ j, Z.testbit bits j = true → Z.testbit mask j = false.
Proof.
  intros E j Hj. assert (H : Z.testbit (Z.land bits mask) j = false) by (rewrite E; apply Z.testbit_0_l).
  rewrite Z.land_spec, Hj in H. done.
Qed.

(** The mask of a step of the search: of the positions below 32, those whose
    quotient by [h] is odd (or even). *)
Definition is_mask (mask h : Z) (odd : bool) : Prop :=
  ∀ j, 0 ≤ j < 32 → Z.testbit mask j = Bool.eqb (Z.odd (j / h)) odd.

Lemma half_parity i h j : 0 < h → i mod (2 * h) = 0 → i ≤ j < i + 2 * h →
  Z.odd (j / h) = (i + h <=? j).
Proof.
  intros Hh Hi Hj. apply Z.div_exact in Hi; [|lia]. set (k := i / (2 * h)) in *.
  destruct (Z.leb_spec (i + h) j).
  - replace (j / h) with (1 + 2 * k) by (apply Z.div_unique with (j - i - h); lia).
    by rewrite Z.odd_add_mul_2.
  - replace (j / h) with (0 + 2 * k) by (apply Z.div_unique with (j - i); lia).
    by rewrite Z.odd_add_mul_2.
Qed.

(** The search for the top bit narrows the interval and keeps the top bit. *)
Definition top_inv (top w : Z) (s : Z * Z) : Prop :=
  0 < s.1 ∧ Z.log2 s.1 = top ∧ within s.1 s.2 w ∧ 0 ≤ s.2 ∧ s.2 + w ≤ 32 ∧ s.2 mod w = 0.

Lemma top_step top h mask s : 0 < h → is_mask mask h true →
  top_inv top (2 * h) s → top_inv top h (narrow mask h s).
Proof.
  intros Hh Hm. destruct s as [bits i]. intros (Hb & Hl & Hw & Hi & Hi' & Hdiv). cbn [fst snd] in *.
  assert (Hbit : ∀ j, 0 ≤ j → Z.testbit bits j = true → i ≤ j < i + 2 * h ∧ Z.testbit mask j = (i + h <=? j)).
  { intros j Hj Ej. assert (Hr := Hw j Hj Ej). split; [done|]. rewrite Hm by lia.
    rewrite (half_parity i) by done. by destruct (i + h <=? j). }
  assert (Hdivs : i mod h = 0) by (apply Z.mod_divide; [lia|]; apply Z.mod_divide in Hdiv; [|lia];
    destruct Hdiv as [k ->]; exists (2 * k); lia).
  unfold narrow. destruct (Z.eqb_spec (Z.land bits mask) 0) as [E|Hn]; unfold top_inv; cbn [fst snd].
  - split_and!; try done; try lia. intros j Hj Ej. destruct (Hbit j Hj Ej) as [Hr Em].
    rewrite (land_zero _ _ E j Ej) in Em. symmetry in Em. apply Z.leb_gt in Em. lia.
  - rewrite s32_id by (unfold int32; lia).
    destruct (land_witness bits mask ltac:(lia) Hn) as (j0 & Hj0 & E0 & M0).
    destruct (Hbit j0 Hj0 E0) as [Hr0 Em0]. rewrite M0 in Em0. symmetry in Em0. apply Z.leb_le in Em0.
    assert (Htop := Z.bit_log2 bits Hb). assert (Hge := testbit_log2 bits j0 Hb E0).
    destruct (Hbit (Z.log2 bits) ltac:(lia) Htop) as [Hrt Emt].
    rewrite (proj2 (Z.leb_le _ _)) in Emt by lia.
    split_and!; [by apply land_pos; lia| | |lia|lia|].
    + rewrite <- Hl. apply log2_unique_bit; [by apply land_pos; lia|by rewrite Z.land_spec, Htop, Emt|].
      intros j Hj. rewrite Z.land_spec, Z.bits_above_log2 by lia. done.
    + intros j Hj Ej. rewrite Z.land_spec, andb_true_iff in Ej. destruct Ej as [Ej Mj].
      destruct (Hbit j Hj Ej) as [Hr Em]. rewrite Mj in Em. symmetry in Em. apply Z.leb_le in Em. lia.
    + replace (i + h) with (i + 1 * h) by lia. rewrite Z.mod_add by lia. done.
Qed.

Lemma is_mask_check mask h odd :
  forallb (λ i, Bool.eqb (Z.testbit mask (Z.of_nat i)) (Bool.eqb (Z.odd (Z.of_nat i / h)) odd)) (seq 0 32) = true →
  is_mask mask h odd.
Proof.
  intros H j Hj. apply eqb_prop.
  exact (check_below (λ j, Bool.eqb (Z.testbit mask j) (Bool.eqb (Z.odd (j / h)) odd)) 32 H j Hj).
Qed.

Lemma within_word bits : uint32 bits → within bits 0 32.
Proof.
  unfold uint32. intros Hb j Hj E. split; [lia|]. destruct (Z.lt_ge_cases j 32); [lia|].
  destruct (Z.eq_dec bits 0) as [->|]; [by rewrite Z.testbit_0_l in E|].
  rewrite Z.bits_above_log2 in E; [done|lia|].
  apply Z.lt_le_trans with 32; [|lia]. apply Z.log2_lt_pow2; [lia|]. change (2 ^ 32) with 4294967296. lia.
Qed.

(** The portable search finds the highest bit. *)
Lemma top_bit_log2 bits : 0 < bits ≤ 4294967295 → top_bit bits = Z.log2 bits.
Proof.
  intros Hb. unfold top_bit. rewrite (proj2 (Z.eqb_neq bits 0)) by lia. cbv zeta.
  assert (H0 : top_inv (Z.log2 bits) (2 * 16) (bits, 0)).
  { split_and!; cbn; try done; try lia. apply within_word. unfold uint32. lia. }
  apply (top_step _ 16 0xFFFF0000) in H0; [|lia|by apply is_mask_check].
  apply (top_step _ 8 0xFF00FF00) in H0; [|lia|by apply is_mask_check].
  apply (top_step _ 4 0xF0F0F0F0) in H0; [|lia|by apply is_mask_check].
  apply (top_step _ 2 0xCCCCCCCC) in H0; [|lia|by apply is_mask_check].
  apply (top_step _ 1 0xAAAAAAAA) in H0; [|lia|by apply is_mask_check].
  destruct H0 as (Hpos & Hl & Hw & _). assert (E := Z.bit_log2 _ Hpos).
  pose proof (Hw _ (Z.log2_nonneg _) E). lia.
Qed.

(** The search for the lowest bit narrows the interval too; its position is the upper
    end of the interval. *)
Definition bottom_inv (bits0 w : Z) (s : Z * Z) : Prop :=
  0 < s.1 ∧ within s.1 (s.2 - w) w ∧ 0 ≤ s.2 - w ∧ s.2 ≤ 32 ∧ s.2 mod w = 0 ∧
  (∀ j, Z.testbit s.1 j = true → Z.testbit bits0 j = true) ∧
  (∀ j, Z.testbit bits0 j = true → Z.testbit s.1 j = true ∨ s.2 ≤ j).

Lemma bottom_step bits0 h mask s : 0 < h → is_mask mask h false →
  bottom_inv bits0 (2 * h) s → bottom_inv bits0 h (narrow mask (- h) s).
Proof.
  intros Hh Hm. destruct s as [bits i]. intros (Hb & Hw & Hi & Hi' & Hdiv & Hsub & Hsup). cbn [fst snd] in *.
  assert (Hdiv' : (i - 2 * h) mod (2 * h) = 0).
  { replace (i - 2 * h) with (i + -1 * (2 * h)) by lia. by rewrite Z.mod_add by lia. }
  assert (Hbit : ∀ j, 0 ≤ j → Z.testbit bits j = true →
    i - 2 * h ≤ j < i ∧ Z.testbit mask j = negb (i - h <=? j)).
  { intros j Hj Ej. assert (Hr := Hw j Hj Ej). split; [lia|]. rewrite Hm by lia.
    rewrite (half_parity (i - 2 * h)) by (done || lia). replace (i - 2 * h + h) with (i - h) by lia.
    by destruct (i - h <=? j). }
  assert (Hdivs : i mod h = 0) by (apply Z.mod_divide; [lia|]; apply Z.mod_divide in Hdiv; [|lia];
    destruct Hdiv as [k ->]; exists (2 * k); lia).
  assert (Hneg : ∀ j, Z.testbit bits j = true → 0 ≤ j).
  { intros j Ej. destruct (Z.lt_ge_cases j 0); [by rewrite Z.testbit_neg_r in Ej|done]. }
  unfold narrow. destruct (Z.eqb_spec (Z.land bits mask) 0) as [E|Hn]; unfold bottom_inv; cbn [fst snd].
  - split_and!; try done; try lia. intros j Hj Ej. destruct (Hbit j Hj Ej) as [Hr Em].
    rewrite (land_zero _ _ E j Ej) in Em. symmetry in Em. apply negb_false_iff, Z.leb_le in Em. lia.
  - rewrite s32_id by (unfold int32; lia). split_and!; [by apply land_pos; lia| |lia|lia| | |].
    + intros j Hj Ej. rewrite Z.land_spec, andb_true_iff in Ej. destruct Ej as [Ej Mj].
      destruct (Hbit j Hj Ej) as [Hr Em]. rewrite Mj in Em. symmetry in Em. apply negb_true_iff, Z.leb_gt in Em. lia.
    + replace (i + - h) with (i + -1 * h) by lia. by rewrite Z.mod_add by lia.
    + intros j Ej. rewrite Z.land_spec, andb_true_iff in Ej. apply Hsub, Ej.
    + intros j Ej. destruct (Hsup j Ej) as [Ej'|?]; [|right; lia].
      destruct (Hbit j (Hneg j Ej') Ej') as [Hr Em]. rewrite Z.land_spec, Ej', Em.
      destruct (Z.leb_spec (i - h) j); [right; lia|by left].
Qed.

(** The portable search for the lowest bit is one too high. For every word that is
    not zero, [bottom_bit] returns the position of the lowest set bit plus one: the
    position starts at 32 instead of 31, unlike the position in [top_bit], which is the
    position of the highest set bit. *)
Theorem bottom_bit_off_by_one (bits : Z) : 0 < bits ≤ 4294967295 →
  top_bit bits = Z.log2 bits ∧
  ∃ k, bottom_bit bits = k + 1 ∧ Z.testbit bits k = true ∧ ∀ j, j < k → Z.testbit bits j = false.
Proof.
  intros Hb. split; [by apply top_bit_log2|]. unfold bottom_bit.
  rewrite (proj2 (Z.eqb_neq bits 0)) by lia. cbv zeta.
  assert (H0 : bottom_inv bits (2 * 16) (bits, 32)).
  { split_and!; cbn; [lia|apply within_word; unfold uint32; lia|lia|lia|done|done|]. intros j Ej. by left. }
  apply (bottom_step _ 16 0x0000FFFF) in H0; [|lia|by apply is_mask_check].
  apply (bottom_step _ 8 0x00FF00FF) in H0; [|lia|by apply is_mask_check].
  apply (bottom_step _ 4 0x0F0F0F0F) in H0; [|lia|by apply is_mask_check].
  apply (bottom_step _ 2 0x33333333) in H0; [|lia|by apply is_mask_check].
  apply (bottom_step _ 1 0x55555555) in H0; [|lia|by apply is_mask_check].
  change (- (2)) with (-2) in H0. change (- (1)) with (-1) in H0. change (- (4)) with (-4) in H0.
  change (- (8)) with (-8) in H0. change (- (16)) with (-16) in H0.
  set (s := narrow _ _ _) in *. destruct H0 as (Hpos & Hw & _ & _ & _ & Hsub & Hsup).
  assert (E := Z.bit_log2 _ Hpos). pose proof (Hw _ (Z.log2_nonneg _) E) as Hr.
  exists (Z.log2 s.1). split_and!; [lia|by apply Hsub|].
  intros j Hj. destruct (Z.testbit bits j) eqn:Ej; [|done]. exfalso.
  destruct (Hsup j Ej) as [Ej'|?]; [|lia].
  destruct (Z.lt_ge_cases j 0) as [?|H0j]; [by rewrite Z.testbit_neg_r in Ej|].
  pose proof (Hw j H0j Ej'). lia.
Qed.

Lemma bottom_bit_off_by_one_witness : bottom_bit 40 = 4 ∧
  (top_bit 40 = Z.log2 40 ∧
   ∃ k, bottom_bit 40 = k + 1 ∧ Z.testbit 40 k = true ∧ ∀ j, j < k → Z.testbit 40 j = false).
Proof. split; [reflexivity|]. apply (bottom_bit_off_by_one 40). lia. Defined.

(** ** Samples *)

(** The segment of a magnitude: the position of the top bit, of at least eight bits. *)
Lemma segment b : 0 ≤ b ≤ 65535 → ∃ seg, top_bit (u32 (Z.lor b 0xFF)) -i 7 = seg ∧ 0 ≤ seg ≤ 8 ∧
  b < 2 ^ (seg + 8) ∧ (seg = 0 ∨ 2 ^ (seg + 7) ≤ b).
Proof.
  intros Hb.
  assert (Hl : Z.log2 (Z.lor b 255) = Z.max (Z.log2 b) 7) by (rewrite Z.log2_lor by lia; done).
  assert (Hlog : Z.log2 b ≤ 15).
  { destruct (Z.eq_dec b 0) as [->|]; [done|]. apply Z.lt_succ_r, Z.log2_lt_pow2; [lia|].
    change (2 ^ Z.succ 15) with 65536. lia. }
  assert (Hpos : 0 < Z.lor b 255).
  { assert (0 ≤ Z.lor b 255) by (apply Z.lor_nonneg; lia).
    assert (Z.lor b 255 ≠ 0) by (intros E; apply Z.lor_eq_0_iff in E; lia). lia. }
  assert (Hsm : Z.lor b 255 < 65536).
  { change 65536 with (2 ^ 16). apply Z.log2_lt_pow2; [done|]. lia. }
  rewrite (u32_id (Z.lor b 255)) by (unfold uint32; lia). rewrite top_bit_log2 by lia.
  pose proof (Z.log2_nonneg b).
  rewrite s32_id by (unfold int32; lia). rewrite Hl. eexists. split; [done|]. split; [lia|].
  destruct (Z.eq_dec b 0) as [->|]; [split; [cbn; lia|by left]|].
  pose proof (Z.log2_spec b ltac:(lia)) as [L1 L2]. split.
  - apply Z.lt_le_trans with (2 ^ Z.succ (Z.log2 b)); [done|]. apply Z.pow_le_mono_r; lia.
  - destruct (Z.le_gt_cases (Z.log2 b) 7); [left; lia|right].
    replace (Z.max (Z.log2 b) 7 - 7 + 7) with (Z.log2 b) by lia. done.
Qed.

(** The seven bits of a code: the segment and the quantisation bits. *)
Lemma code_bits seg q : 0 ≤ seg < 8 → 0 ≤ q < 16 →
  Z.lor (seg <<i 4) q = 16 * seg + q ∧ 0 ≤ 16 * seg + q < 128.
Proof.
  intros Hs Hq. split; [|lia].
  assert (H := check_below (λ s, forallb (λ q, Z.lor (s <<i 4) (Z.of_nat q) =? 16 * s + Z.of_nat q) (seq 0 16)) 8
    eq_refl seg ltac:(lia)). cbv beta in H.
  rewrite forallb_forall in H. specialize (H (Z.to_nat q) ltac:(apply in_seq; lia)).
  rewrite Z2Nat.id in H by lia. by apply Z.eqb_eq.
Qed.

Lemma code_parts seg q : 0 ≤ q < 16 → (16 * seg + q) / 16 = seg ∧ (16 * seg + q) mod 16 = q.
Proof. intros Hq. rewrite (Z.add_comm (16 * seg)), (Z.mul_comm 16), Z.div_add, Z.mod_add by lia.
  rewrite Z.div_small, Z.mod_small by lia. done.
Qed.

(** What the seven bits stand for. *)
Definition ulaw_value (c : Z) : Z := (8 * (c mod 16) + 132) * 2 ^ (c / 16) - 132.
Definition alaw_value (c : Z) : Z :=
  if c / 16 =? 0 then 16 * (c mod 16) + 8 else (16 * (c mod 16) + 264) * 2 ^ (c / 16 - 1).

Definition ulaw_code_ok (c : Z) : bool :=
  (ulaw_to_linear (Z.lxor c 0xFF) =? ulaw_value c) && (ulaw_to_linear (Z.lxor c 0x7F) =? - ulaw_value c) &&
  (u8 (Z.lxor c 0xFF) =? Z.lxor c 0xFF) && (u8 (Z.lxor c 0x7F) =? Z.lxor c 0x7F).

Lemma ulaw_codes c : 0 ≤ c < 128 → ulaw_code_ok c = true.
Proof. apply (check_below ulaw_code_ok 128). reflexivity. Qed.

Definition alaw_code_ok (c : Z) : bool :=
  (alaw_to_linear (Z.lxor c 0xD5) =? alaw_value c) && (alaw_to_linear (Z.lxor c 0x55) =? - alaw_value c) &&
  (u8 (Z.lxor c 0xD5) =? Z.lxor c 0xD5) && (u8 (Z.lxor c 0x55) =? Z.lxor c 0x55).

Lemma alaw_codes c : 0 ≤ c < 128 → alaw_code_ok c = true.
Proof. apply (check_below alaw_code_ok 128). reflexivity. Qed.

Lemma uint8_of_u8 z : u8 z = z → uint8 z.
Proof. intros <-. apply u8_range. Qed.

(** The magnitude of a sample: negative samples are complemented. *)
Definition magnitude (x : Z) : Z := if x <? 0 then - x - 1 else x.

(** The seven bits of a magnitude. *)
Lemma ulaw_encode x : int16 x → ∃ c, 0 ≤ c < 128 ∧
  linear_to_ulaw x = Some (Z.lxor c (if x <? 0 then 0x7F else 0xFF)) ∧
  let d := ulaw_value c - magnitude x in
  (32 * Z.abs d ≤ magnitude x + 132 ∧ 32 * Z.abs (d - 1) ≤ magnitude x + 133).
Proof.
  unfold int16. intros Hx. unfold linear_to_ulaw. set (mask := if x <? 0 then 127 else 255).
  assert (E : (if x <? 0 then (ULAW_BIAS -i x -i 1, 127) else (ULAW_BIAS +i x, 255)) =
    (magnitude x + 132, mask)).
  { unfold magnitude, mask, ULAW_BIAS. destruct (Z.ltb_spec x 0); cinner; f_equal; lia. }
  rewrite E. assert (Hm : 0 ≤ magnitude x ≤ 32767) by (unfold magnitude; destruct (Z.ltb_spec x 0); lia).
  destruct (segment (magnitude x + 132) ltac:(lia)) as (seg & -> & Hs & Hhi & Hlo).
  set (m := magnitude x) in *. clearbody m.
  assert (Hmask : ∀ c, 0 ≤ c < 128 → u8 (Z.lxor c mask) = Z.lxor c mask).
  { intros c Hc. assert (Hok := ulaw_codes c Hc). unfold ulaw_code_ok in Hok.
    rewrite !andb_true_iff, !Z.eqb_eq in Hok. destruct Hok as [[_ Hp] Hn]. unfold mask.
    by destruct (x <? 0). }
  destruct (Z.leb_spec 8 seg) as [H8|H8].
  - exists 127. rewrite Hmask by lia. split; [lia|]. split; [done|].
    assert (seg = 8) as -> by lia. change (2 ^ (8 + 7)) with 32768 in Hlo. cbv zeta.
    change (ulaw_value 127) with 32124. lia.
  - assert (Hq : 0 ≤ Z.land (Z.shiftr (m + 132) (seg + 3)) 15 < 16)
      by (change 15 with (Z.ones 4); rewrite Z.land_ones by lia; apply Z.mod_pos_bound; lia).
    destruct (code_bits seg _ ltac:(lia) Hq) as [Ec Hc].
    exists (16 * seg + Z.land (Z.shiftr (m + 132) (seg + 3)) 15).
    split; [done|]. split.
    + rewrite (s32_id (seg + 3)) by (unfold int32; lia). unfold shr32.
      rewrite (proj2 (Z.leb_le 0 _)), (proj2 (Z.ltb_lt _ 32)) by lia. cbn [andb mbind option_bind].
      rewrite Ec, Hmask by done. done.
    + unfold ulaw_value. clear Ec Hmask. destruct (code_parts seg _ Hq) as [-> ->].
      change 15 with (Z.ones 4). rewrite Z.land_ones by lia. rewrite Z.shiftr_div_pow2 by lia.
      assert (H : seg = 0 ∨ seg = 1 ∨ seg = 2 ∨ seg = 3 ∨ seg = 4 ∨ seg = 5 ∨ seg = 6 ∨ seg = 7) by lia.
      destruct_or! H; subst seg; cbn [Z.add Pos.add Pos.succ] in *; cbv zeta; shift_const;
        Z.to_euclidean_division_equations; lia.
Qed.

Lemma alaw_encode x : int16 x → ∃ c, 0 ≤ c < 128 ∧
  linear_to_alaw x = Some (Z.lxor c (if x <? 0 then 0x55 else 0xD5)) ∧
  let d := alaw_value c - magnitude x in
  (32 * Z.abs d ≤ Z.max 256 (magnitude x) ∧ 32 * Z.abs (d - 1) ≤ Z.max 256 (magnitude x + 1)).
Proof.
  unfold int16. intros Hx. unfold linear_to_alaw. set (mask := if x <? 0 then 0x55 else 0xD5).
  assert (E : (if 0 <=? x then (x, Z.lor ALAW_AMI_MASK 128) else ((-i x) -i 1, ALAW_AMI_MASK)) =
    (magnitude x, mask)).
  { unfold magnitude, mask. destruct (Z.leb_spec 0 x), (Z.ltb_spec x 0); try lia; [done|]. cinner. done. }
  rewrite E. assert (Hm : 0 ≤ magnitude x ≤ 32767) by (unfold magnitude; destruct (Z.ltb_spec x 0); lia).
  destruct (segment (magnitude x) ltac:(lia)) as (seg & -> & Hs & Hhi & Hlo).
  set (m := magnitude x) in *. clearbody m.
  assert (Hmask : ∀ c, 0 ≤ c < 128 → u8 (Z.lxor c mask) = Z.lxor c mask).
  { intros c Hc. assert (Hok := alaw_codes c Hc). unfold alaw_code_ok in Hok.
    rewrite !andb_true_iff, !Z.eqb_eq in Hok. destruct Hok as [[_ Hp] Hn]. unfold mask.
    by destruct (x <? 0). }
  assert (H8 : seg < 8).
  { destruct (Z.eq_dec seg 8) as [->|]; [|lia]. change (2 ^ (8 + 7)) with 32768 in Hlo. lia. }
  rewrite (proj2 (Z.leb_gt 8 seg)) by lia. set (n := if seg =? 0 then 4 else seg +i 3).
  assert (Hn : n = if seg =? 0 then 4 else seg + 3).
  { unfold n. destruct (seg =? 0); [done|]. by rewrite s32_id by (unfold int32; lia). }
  assert (Hn' : 3 < n < 32) by (rewrite Hn; destruct (Z.eqb_spec seg 0); lia). clearbody n.
  assert (Hq : 0 ≤ Z.land (Z.shiftr m n) 15 < 16)
    by (change 15 with (Z.ones 4); rewrite Z.land_ones by lia; apply Z.mod_pos_bound; lia).
  destruct (code_bits seg _ ltac:(lia) Hq) as [Ec Hc].
  exists (16 * seg + Z.land (Z.shiftr m n) 15). split; [done|]. split.
  - unfold shr32. rewrite (proj2 (Z.leb_le 0 _)), (proj2 (Z.ltb_lt _ 32)) by lia. cbn [andb mbind option_bind].
    rewrite Ec, Hmask by done. done.
  - unfold alaw_value. clear Ec Hmask. destruct (code_parts seg _ Hq) as [-> ->].
    change 15 with (Z.ones 4). rewrite Z.land_ones by lia. rewrite Z.shiftr_div_pow2 by lia.
    assert (H : seg = 0 ∨ seg = 1 ∨ seg = 2 ∨ seg = 3 ∨ seg = 4 ∨ seg = 5 ∨ seg = 6 ∨ seg = 7) by lia.
    destruct_or! H; subst seg; cbn [Z.eqb] in Hn; subst n; cbn [Z.add Z.sub Z.opp Pos.add Pos.succ Z.eqb] in *;
      cbv zeta; shift_const; Z.to_euclidean_division_equations; lia.
Qed.

(** ** Blocks *)

(** A loop that maps the elements of one array into another. *)
Lemma map_loop (P : Z → Prop) (R : Z → Z → Prop) (f : Z → option Z) (inp out : list Z) (len : nat) :
  (∀ x, P x → wp (f x) (R x)) → Forall P inp → (len ≤ length inp)%nat → (len ≤ length out)%nat →
  wp (for_loop len 0 (λ n out, x ← inp !! n; y ← f x; wr out n y) out)
    (λ out', length out' = length out ∧ Forall2 R (take len inp) (take len out') ∧
       drop len out' = drop len out).
Proof.
  intros Hf HP Hi Ho. apply (wp_for (λ n out', (n ≤ len)%nat ∧ length out' = length out ∧
    Forall2 R (take n inp) (take n out') ∧ drop n out' = drop n out)).
  - split_and!; [lia|done|by rewrite !take_0|done].
  - intros n out' Hn (_ & Hl & H2 & Hd). destruct (lookup_lt_is_Some_2 inp n ltac:(lia)) as [x Ex].
    rewrite Ex. cbn [mbind option_bind]. apply wp_bind.
    wp_call (apply Hf; exact (Forall_lookup_1 _ _ _ _ HP Ex)). intros y Hy.
    apply wp_wr; [lia|]. rewrite length_insert. split_and!; [lia|done| |].
    + rewrite (take_S_r inp n x) by done.
      rewrite (take_S_r (<[n:=y]> out') n y) by (apply list_lookup_insert_eq; lia).
      rewrite take_insert_ge by lia. apply Forall2_app; [done|]. by apply Forall2_cons.
    + rewrite drop_insert_lt by lia. rewrite <- Nat.add_1_r, <- !drop_drop, Hd. done.
  - intros out' (_ & Hl & H2 & Hd). done.
Qed.

Lemma ulaw_sample x : int16 x →
  wp (linear_to_ulaw x) (λ c, uint8 c ∧ 32 * Z.abs (ulaw_to_linear c - x) ≤ Z.abs x + 132).
Proof.
  intros Hx. destruct (ulaw_encode x Hx) as (c & Hc & -> & H1 & H2). cbn [wp].
  assert (Hok := ulaw_codes c Hc). unfold ulaw_code_ok in Hok. rewrite !andb_true_iff, !Z.eqb_eq in Hok.
  destruct Hok as [[[V1 V2] U1%uint8_of_u8] U2%uint8_of_u8]. unfold magnitude in *.
  destruct (Z.ltb_spec x 0); [split; [done|rewrite V2]|split; [done|rewrite V1]]; lia.
Qed.

Lemma alaw_sample x : int16 x →
  wp (linear_to_alaw x) (λ c, uint8 c ∧ 32 * Z.abs (alaw_to_linear c - x) ≤ Z.max 256 (Z.abs x)).
Proof.
  intros Hx. destruct (alaw_encode x Hx) as (c & Hc & -> & H1 & H2). cbn [wp].
  assert (Hok := alaw_codes c Hc). unfold alaw_code_ok in Hok. rewrite !andb_true_iff, !Z.eqb_eq in Hok.
  destruct Hok as [[[V1 V2] U1%uint8_of_u8] U2%uint8_of_u8]. unfold magnitude in *.
  destruct (Z.ltb_spec x 0); [split; [done|rewrite V2]|split; [done|rewrite V1]]; lia.
Qed.

(** Encoding a block and decoding it, for any code with a bound on its samples. *)
Lemma block_accuracy (enc : Z → option Z) (dec : Z → Z) (R : Z → Z → Prop) speech len encoded decoded :
  (∀ x, int16 x → wp (enc x) (λ c, R x (dec c))) → Forall int16 speech →
  (len ≤ length speech)%nat → (len ≤ length encoded)%nat → (len ≤ length decoded)%nat →
  wp (encoded ← for_loop len 0 (λ n encoded, x ← speech !! n; c ← enc x; wr encoded n c) encoded;
      for_loop len 0 (λ n decoded, c ← encoded !! n; wr decoded n (dec c)) decoded)
    (λ decoded', length decoded' = length decoded ∧ Forall2 R (take len speech) (take len decoded') ∧
       drop len decoded' = drop len decoded).
Proof.
  intros He Hs H1 H2 H3. apply wp_bind.
  wp_call (apply (map_loop int16 (λ x c, R x (dec c)) enc); try done). intros enc' (Hl & HR & _).
  wp_call (apply (map_loop (λ _, True) (λ c y, y = dec c) (λ c, Some (dec c)));
    [by intros x _|by apply Forall_true|lia|done]).
  intros dec' (Hl' & HD & Hd). split_and!; [done| |done].
  apply Forall2_same_length_lookup_2.
  { apply Forall2_length in HR, HD. lia. }
  intros i x y Hx Hy. destruct (Forall2_lookup_l _ _ _ _ _ HR Hx) as (c & Hc & Hxc).
  destruct (Forall2_lookup_l _ _ _ _ _ HD Hc) as (y' & Hy' & ->). by simplify_eq.
Qed.

(** C37: G.711 keeps the samples to within a thirty-second. A block of 16-bit samples
    that is encoded and decoded again, with u-law or with A-law, comes back with every
    sample changed by at most 1/32 of its size, plus the step of the smallest segment;
    nothing else of the output is written, and every index is in range and every shift
    defined. *)
Theorem g711_accuracy (speech encoded decoded : list Z) (len : nat) :
  Forall int16 speech →
  (len ≤ length speech)%nat → (len ≤ length encoded)%nat → (len ≤ length decoded)%nat →
  wp ('(encoded', n) ← WebRtcG711_EncodeU speech len encoded; WebRtcG711_DecodeU encoded' n decoded)
    (λ '(decoded', type, n), type = 1 ∧ n = len ∧ length decoded' = length decoded ∧
       Forall2 (λ x y, 32 * Z.abs (y - x) ≤ Z.abs x + 132) (take len speech) (take len decoded') ∧
       drop len decoded' = drop len decoded) ∧
  wp ('(encoded', n) ← WebRtcG711_EncodeA speech len encoded; WebRtcG711_DecodeA encoded' n decoded)
    (λ '(decoded', type, n), type = 1 ∧ n = len ∧ length decoded' = length decoded ∧
       Forall2 (λ x y, 32 * Z.abs (y - x) ≤ Z.max 256 (Z.abs x)) (take len speech) (take len decoded') ∧
       drop len decoded' = drop len decoded).
Proof.
  intros Hs H1 H2 H3. split.
  - pose proof (block_accuracy linear_to_ulaw ulaw_to_linear (λ x y, 32 * Z.abs (y - x) ≤ Z.abs x + 132)
      speech len encoded decoded) as H.
    unfold WebRtcG711_EncodeU, WebRtcG711_DecodeU.
    destruct (for_loop len 0 _ encoded) as [enc|]; cbn [mbind option_bind] in H |- *.
    2: { apply H; [|done..]. intros x Hx. by wp_call (by apply ulaw_sample); intros ? []. }
    apply wp_bind. wp_call (apply H; [|done..]).
    { intros x Hx. by wp_call (by apply ulaw_sample); intros ? []. }
    intros dec (? & ? & ?). by cbn.
  - pose proof (block_accuracy linear_to_alaw alaw_to_linear (λ x y, 32 * Z.abs (y - x) ≤ Z.max 256 (Z.abs x))
      speech len encoded decoded) as H.
    unfold WebRtcG711_EncodeA, WebRtcG711_DecodeA.
    destruct (for_loop len 0 _ encoded) as [enc|]; cbn [mbind option_bind] in H |- *.
    2: { apply H; [|done..]. intros x Hx. by wp_call (by apply alaw_sample); intros ? []. }
    apply wp_bind. wp_call (apply H; [|done..]).
    { intros x Hx. by wp_call (by apply alaw_sample); intros ? []. }
    intros dec (? & ? & ?). by cbn.
Qed.

Definition example_speech : list Z := [0; -1; 1000; -32768; 32767].

Lemma g711_accuracy_witness :
  ('(e, n) ← WebRtcG711_EncodeU example_speech 5 (replicate 5 0); WebRtcG711_DecodeU e n (replicate 5 0)) =
    Some ([0; 0; 988; -32124; 32124], 1, 5%nat) ∧
  (wp ('(encoded', n) ← WebRtcG711_EncodeU example_speech 5 (replicate 5 0);
       WebRtcG711_DecodeU encoded' n (replicate 5 0))
    (λ '(decoded', type, n), type = 1 ∧ n = 5%nat ∧ length decoded' = 5%nat ∧
       Forall2 (λ x y, 32 * Z.abs (y - x) ≤ Z.abs x + 132) (take 5 example_speech) (take 5 decoded') ∧
       drop 5 decoded' = drop 5 (replicate 5 0)) ∧
  wp ('(encoded', n) ← WebRtcG711_EncodeA example_speech 5 (replicate 5 0);
      WebRtcG711_DecodeA encoded' n (replicate 5 0))
    (λ '(decoded', type, n), type = 1 ∧ n = 5%nat ∧ length decoded' = 5%nat ∧
       Forall2 (λ x y, 32 * Z.abs (y - x) ≤ Z.max 256 (Z.abs x)) (take 5 example_speech) (take 5 decoded') ∧
       drop 5 decoded' = drop 5 (replicate 5 0))).
Proof.
  split; [reflexivity|].
  apply (g711_accuracy example_speech (replicate 5 0) (replicate 5 0) 5); [|cbn; lia..].
  repeat (apply Forall_cons_2; [unfold int16; lia|]). apply Forall_nil_2.
Defined.

(** ** Codes *)

Definition code_ok (c : Z) : bool :=
  bool_decide (linear_to_alaw (alaw_to_linear c) = Some c) &&
  bool_decide (linear_to_ulaw (ulaw_to_linear c) = Some (if c =? 127 then 255 else c)).

(** Codes survive. Every one of the 256 A-law codes is the code of the sample it
    stands for; so is every u-law code but the negative zero, which becomes the positive
    one. So decoding and encoding again loses nothing that was not lost before. *)
Theorem g711_codes (c : Z) : uint8 c →
  linear_to_alaw (alaw_to_linear c) = Some c ∧
  linear_to_ulaw (ulaw_to_linear c) = Some (if c =? 127 then 255 else c).
Proof.
  intros Hc. assert (H : code_ok c = true).
  { apply (check_below code_ok 256); [reflexivity|unfold uint8 in Hc; lia]. }
  apply andb_true_iff in H as [H1%bool_decide_eq_true H2%bool_decide_eq_true]. done.
Qed.

Lemma g711_codes_witness : linear_to_alaw (alaw_to_linear 42) = Some 42 ∧
  linear_to_ulaw (ulaw_to_linear 42) = Some (if 42 =? 127 then 255 else 42).
Proof. apply (g711_codes 42). unfold uint8. lia. Defined.

(** The tables translate a code to one that stands for nearly the same sample. *)
Definition transcoding_ok (c : Z) : bool :=
  match alaw_to_ulaw c, ulaw_to_alaw c with
  | Some u, Some a =>
      (32 * Z.abs (ulaw_to_linear u - alaw_to_linear c) <=? Z.abs (alaw_to_linear c) + 1) &&
      (32 * Z.abs (alaw_to_linear a - ulaw_to_linear c) <=? Z.abs (ulaw_to_linear c) + 256)
  | _, _ => false
  end.

Lemma transcoding_accuracy c : uint8 c →
  wp (alaw_to_ulaw c) (λ u,
    32 * Z.abs (ulaw_to_linear u - alaw_to_linear c) ≤ Z.abs (alaw_to_linear c) + 1) ∧
  wp (ulaw_to_alaw c) (λ a,
    32 * Z.abs (alaw_to_linear a - ulaw_to_linear c) ≤ Z.abs (ulaw_to_linear c) + 256).
Proof.
  intros Hc. assert (H : transcoding_ok c = true).
  { apply (check_below transcoding_ok 256); [reflexivity|unfold uint8 in Hc; lia]. }
  unfold transcoding_ok in H. destruct (alaw_to_ulaw c), (ulaw_to_alaw c); try done.
  rewrite andb_true_iff, !Z.leb_le in H. done.
Qed.

(** The translation is not the nearest code: the first A-law code stands for -5504 and
    becomes the u-law code for -5372, although the code before it stands for -5628. *)
Example transcoding_not_nearest :
  alaw_to_ulaw 0 = Some 42 ∧ alaw_to_linear 0 = -5504 ∧ ulaw_to_linear 42 = -5372 ∧ ulaw_to_linear 41 = -5628 ∧
  linear_to_ulaw (-5504) = Some 41.
Proof. done. Qed.

(** ** PCM16B *)

Lemma split_word x : int16 x → s16 (Z.lor (u8 (Z.shiftr (u16 x) 8) <<i 8) (u8 (u16 x))) = x.
Proof.
  intros Hx. pose proof (u16_range x) as Hu. unfold int16, uint16 in *.
  assert (E : u8 (Z.shiftr (u16 x) 8) = u16 x / 256).
  { rewrite Z.shiftr_div_pow2 by lia. change (2 ^ 8) with 256. unfold u8. apply Z.mod_small.
    split; [apply Z.div_pos; lia|apply Z.div_lt_upper_bound; lia]. }
  rewrite E. assert (Hd : 0 ≤ u16 x / 256 < 256)
    by (split; [apply Z.div_pos; lia|apply Z.div_lt_upper_bound; lia]).
  rewrite Z.shiftl_mul_pow2 by lia. change (2 ^ 8) with 256. rewrite s32_id by (unfold int32; lia).
  change (u8 (u16 x)) with (u16 x mod 256).
  assert (Hor : Z.lor (u16 x / 256 * 256) (u16 x mod 256) = u16 x).
  { change 256 with (2 ^ 8) at 2. rewrite <- Z.shiftl_mul_pow2 by lia.
    change 256 with (2 ^ 8). rewrite <- (Z.land_ones _ 8) by lia.
    rewrite <- Z.shiftr_div_pow2 by lia.
    apply Z.bits_inj'. intros n Hn. rewrite Z.lor_spec, Z.land_spec, Z.shiftl_spec by lia.
    destruct (Z.lt_ge_cases n 8).
    - rewrite Z.ones_spec_low, andb_true_r by lia. rewrite Z.testbit_neg_r by lia. done.
    - rewrite Z.ones_spec_high, andb_false_r, orb_false_r by lia.
      rewrite Z.shiftr_spec by lia. f_equal. lia. }
  rewrite Hor. unfold s16, u16. Z.to_euclidean_division_equations; lia.
Qed.

(** The bytes of the first [n] samples. *)
Definition bytes_of (speech encoded : list Z) (n : nat) : Prop :=
  ∀ k x, (k < n)%nat → speech !! k = Some x →
    encoded !! (2 * k)%nat = Some (u8 (Z.shiftr (u16 x) 8)) ∧ encoded !! (2 * k + 1)%nat = Some (u8 (u16 x)).

Lemma pcm16b_encode speech len encoded : (len ≤ length speech)%nat → (2 * len ≤ length encoded)%nat →
  wp (WebRtcPcm16b_Encode speech len encoded) (λ '(encoded', n),
    n = (2 * len)%nat ∧ length encoded' = length encoded ∧ bytes_of speech encoded' len ∧
    drop (2 * len) encoded' = drop (2 * len) encoded).
Proof.
  intros Hs He. unfold WebRtcPcm16b_Encode. apply wp_bind.
  apply (wp_for (λ n e, length e = length encoded ∧ bytes_of speech e n ∧
    drop (2 * len) e = drop (2 * len) encoded)).
  - split_and!; [done|intros k x Hk; lia|done].
  - intros n e Hn (Hl & Hb & Hd). destruct (lookup_lt_is_Some_2 speech n ltac:(lia)) as [x Ex].
    rewrite Ex. cbn [mbind option_bind]. apply wp_bind, wp_wr; [lia|]. apply wp_wr; [rewrite length_insert; lia|].
    rewrite !length_insert. split_and!; [done| |].
    + intros k y Hk Ey. destruct (decide (k = n)) as [->|Hne].
      * assert (y = x) as -> by congruence. rewrite list_lookup_insert_ne by lia.
        by rewrite !list_lookup_insert_eq by (rewrite ?length_insert; lia).
      * rewrite !list_lookup_insert_ne by lia. apply Hb; [lia|done].
    + by rewrite !drop_insert_lt by lia.
  - intros e (Hl & Hb & Hd). done.
Qed.

Lemma pcm16b_decode speech len encoded decoded : Forall int16 speech → bytes_of speech encoded len →
  (len ≤ length speech)%nat → (len ≤ length decoded)%nat →
  wp (WebRtcPcm16b_Decode encoded (2 * len) decoded) (λ '(decoded', n),
    n = len ∧ length decoded' = length decoded ∧ take len decoded' = take len speech ∧
    drop len decoded' = drop len decoded).
Proof.
  intros HP Hb Hs Hd. unfold WebRtcPcm16b_Decode. rewrite half_double. apply wp_bind.
  apply (wp_for (λ n d, length d = length decoded ∧ take n d = take n speech ∧
    drop len d = drop len decoded)).
  - by rewrite !take_0.
  - intros n d Hn (Hl & Ht & Hdr). destruct (lookup_lt_is_Some_2 speech n ltac:(lia)) as [x Ex].
    destruct (Hb n x ltac:(lia) Ex) as [E1 E2]. rewrite E1, E2. cbn [mbind option_bind].
    apply wp_wr; [lia|]. rewrite split_word by exact (Forall_lookup_1 _ _ _ _ HP Ex).
    rewrite length_insert. split_and!; [done| |by rewrite drop_insert_lt by lia].
    rewrite (take_S_r speech n x) by done.
    rewrite (take_S_r (<[n:=x]> d) n x) by (apply list_lookup_insert_eq; lia).
    by rewrite take_insert_ge, Ht by lia.
  - intros d (Hl & Ht & Hdr). done.
Qed.

(** PCM16B loses nothing. A block of 16-bit samples, written as bytes and read back,
    is the same block; the rest of the output is not written. *)
Theorem pcm16b_roundtrip (speech encoded decoded : list Z) (len : nat) :
  Forall int16 speech →
  (len ≤ length speech)%nat → (2 * len ≤ length encoded)%nat → (len ≤ length decoded)%nat →
  wp ('(encoded', n) ← WebRtcPcm16b_Encode speech len encoded; WebRtcPcm16b_Decode encoded' n decoded)
    (λ '(decoded', n), n = len ∧ decoded' = take len speech ++ drop len decoded).
Proof.
  intros HP H1 H2 H3. apply wp_bind. wp_call (by apply pcm16b_encode).
  intros [e n] (-> & Hl & Hb & _). wp_call (by apply (pcm16b_decode speech)).
  intros [d n] (-> & Hl' & Ht & Hd). split; [done|]. by rewrite <- Ht, <- Hd, take_drop.
Qed.

Lemma pcm16b_roundtrip_witness :
  ('(encoded', n) ← WebRtcPcm16b_Encode example_speech 5 (replicate 10 0);
   WebRtcPcm16b_Decode encoded' n (replicate 6 9)) = Some (example_speech ++ [9], 5%nat) ∧
  wp ('(encoded', n) ← WebRtcPcm16b_Encode example_speech 5 (replicate 10 0);
      WebRtcPcm16b_Decode encoded' n (replicate 6 9))
    (λ '(decoded', n), n = 5%nat ∧ decoded' = take 5 example_speech ++ drop 5 (replicate 6 9)).
Proof.
  split; [reflexivity|].
  apply (pcm16b_roundtrip example_speech (replicate 10 0) (replicate 6 9) 5); [|cbn; lia..].
  repeat (apply Forall_cons_2; [unfold int16; lia|]). apply Forall_nil_2.
Defined.

End G711.
