(* ===== verification/G722.v ===== *)
(** The G.722 codec: modules/third_party/g722 (g722_encode.c, g722_decode.c, g722_enc_dec.h) and
    its interface modules/audio_coding/codecs/g722/g722_interface.c.

    The signal is split into two bands; in each one a predictor is adapted from what was
    transmitted, and the difference is quantised with an adaptive step. The routines are
    functions of [w], what an int does to the result of an operation: [s32] in the code,
    [id] in unbounded integers. The states of encoder and decoder have the same members
    in the source and are one record. *)

From S2P Require Import Prelude.

Module G722.

(** ** The state *)

Record Band := mkBand {
  b_s : Z; b_sp : Z; b_sz : Z;
  b_r : list Z; b_a : list Z; b_ap : list Z; b_p : list Z;
  b_d : list Z; b_b : list Z; b_bp : list Z; b_sg : list Z;
  b_nb : Z; b_det : Z;
}.

Record G722State := mkState {
  itu_test_mode : bool;
  packed : bool;
  eight_k : bool;
  bits_per_sample : Z;
  x : list Z;
  band0 : Band;
  band1 : Band;
  in_buffer : Z; in_bits : Z;
  out_buffer : Z; out_bits : Z;
}.

Definition with_x (s : G722State) (x : list Z) : G722State :=
  mkState (itu_test_mode s) (packed s) (eight_k s) (bits_per_sample s) x (band0 s) (band1 s)
    (in_buffer s) (in_bits s) (out_buffer s) (out_bits s).
Definition with_bands (s : G722State) (k0 k1 : Band) : G722State :=
  mkState (itu_test_mode s) (packed s) (eight_k s) (bits_per_sample s) (x s) k0 k1
    (in_buffer s) (in_bits s) (out_buffer s) (out_bits s).
Definition with_in (s : G722State) (buffer bits : Z) : G722State :=
  mkState (itu_test_mode s) (packed s) (eight_k s) (bits_per_sample s) (x s) (band0 s) (band1 s)
    buffer bits (out_buffer s) (out_bits s).
Definition with_out (s : G722State) (buffer bits : Z) : G722State :=
  mkState (itu_test_mode s) (packed s) (eight_k s) (bits_per_sample s) (x s) (band0 s) (band1 s)
    (in_buffer s) (in_bits s) buffer bits.

Definition G722_SAMPLE_RATE_8000 : Z := 0x0001.
Definition G722_PACKED : Z := 0x0002.

(** Both initialisations: [memset] and the members that are not zero. *)
Definition cleared_band (det : Z) : Band :=
  mkBand 0 0 0 (replicate 3 0) (replicate 3 0) (replicate 3 0) (replicate 3 0)
    (replicate 7 0) (replicate 7 0) (replicate 7 0) (replicate 7 0) 0 det.

Definition init (rate options : Z) : G722State :=
  let bits := if rate =? 48000 then 6 else if rate =? 56000 then 7 else 8 in
  mkState false (negb (Z.land options G722_PACKED =? 0) && negb (bits =? 8))
    (negb (Z.land options G722_SAMPLE_RATE_8000 =? 0)) bits (replicate 24 0)
    (cleared_band 32) (cleared_band 8) 0 0 0 0.
Definition WebRtc_g722_encode_init : Z → Z → G722State := init.
Definition WebRtc_g722_decode_init : Z → Z → G722State := init.

(** ** Tables *)

Definition q6 : list Z :=
  [0; 35; 72; 110; 150; 190; 233; 276; 323; 370; 422; 473; 530; 587; 650; 714;
   786; 858; 940; 1023; 1121; 1219; 1339; 1458; 1612; 1765; 1980; 2195; 2557; 2919; 0; 0].
Definition iln : list Z :=
  [0; 63; 62; 31; 30; 29; 28; 27; 26; 25; 24; 23; 22; 21; 20; 19;
   18; 17; 16; 15; 14; 13; 12; 11; 10; 9; 8; 7; 6; 5; 4; 0].
Definition ilp : list Z :=
  [0; 61; 60; 59; 58; 57; 56; 55; 54; 53; 52; 51; 50; 49; 48; 47;
   46; 45; 44; 43; 42; 41; 40; 39; 38; 37; 36; 35; 34; 33; 32; 0].
Definition wl : list Z := [-60; -30; 58; 172; 334; 538; 1198; 3042].
Definition rl42 : list nat := [0; 7; 6; 5; 4; 3; 2; 1; 7; 6; 5; 4; 3; 2; 1; 0]%nat.
Definition ilb : list Z :=
  [2048; 2093; 2139; 2186; 2233; 2282; 2332; 2383; 2435; 2489; 2543; 2599; 2656; 2714;
   2774; 2834; 2896; 2960; 3025; 3091; 3158; 3228; 3298; 3371; 3444; 3520; 3597; 3676;
   3756; 3838; 3922; 4008].
Definition qm4 : list Z :=
  [0; -20456; -12896; -8968; -6288; -4240; -2584; -1200;
   20456; 12896; 8968; 6288; 4240; 2584; 1200; 0].
Definition qm2 : list Z := [-7408; -1616; 7408; 1616].
Definition qmf_coeffs : list Z := [3; -11; 12; 32; -210; 951; 3876; -805; 362; -156; 53; -11].
Definition ihn : list Z := [0; 1; 0].
Definition ihp : list Z := [0; 3; 2].
Definition wh : list Z := [0; -214; 798].
Definition rh2 : list nat := [2; 1; 2; 1]%nat.
Definition qm5 : list Z :=
  [-280; -280; -23352; -17560; -14120; -11664; -9752; -8184;
   -6864; -5712; -4696; -3784; -2960; -2208; -1520; -880;
   23352; 17560; 14120; 11664; 9752; 8184; 6864; 5712;
   4696; 3784; 2960; 2208; 1520; 880; 280; -280].
Definition qm6 : list Z :=
  [-136; -136; -136; -136; -24808; -21904; -19008; -16704;
   -14984; -13512; -12280; -11192; -10232; -9360; -8576; -7856;
   -7192; -6576; -6000; -5456; -4944; -4464; -4008; -3576;
   -3168; -2776; -2400; -2032; -1688; -1360; -1040; -728;
   24808; 21904; 19008; 16704; 14984; 13512; 12280; 11192;
   10232; 9360; 8576; 7856; 7192; 6576; 6000; 5456;
   4944; 4464; 4008; 3576; 3168; 2776; 2400; 2032;
   1688; 1360; 1040; 728; 432; 136; -432; -136].

Definition saturate (amp : Z) : Z :=
  let amp16 := s16 amp in
  if amp =? amp16 then amp16 else if 32767 <? amp then 32767 else -32768.

(** A value between two limits, by two comparisons. *)
Definition limit (lo hi v : Z) : Z := if hi <? v then hi else if v <? lo then lo else v.

Section codec.
Variable w : Z → Z.

(** A read of a table or an array at an int. *)
Definition at_int {A} (l : list A) (i : Z) : option A := if 0 <=? i then l !! Z.to_nat i else None.

(** ** The predictor: block 4 *)

(** Signs of the partial signals, and the second pole. The encoder shifts where the
    decoder multiplies, and they add in different orders. *)
Definition signs (p sg : list Z) : option (list Z) :=
  for_loop 3 0 (λ i sg, v ← p !! i; wr sg i (v >>i 15)) sg.

Definition UPPOL2_encode (a p sg ap : list Z) : option (list Z * list Z) :=
  sg ← signs p sg;
  a1 ← a !! 1%nat; a2 ← a !! 2%nat;
  sg0 ← sg !! 0%nat; sg1 ← sg !! 1%nat; sg2 ← sg !! 2%nat;
  let wd1 := saturate (w (Z.shiftl a1 2)) in
  let wd2 := if sg0 =? sg1 then w (- wd1) else wd1 in
  let wd2 := if 32767 <? wd2 then 32767 else wd2 in
  let wd3 := w ((wd2 >>i 7) + (if sg0 =? sg2 then 128 else -128)) in
  let wd3 := w (wd3 + (w (a2 * 32512) >>i 15)) in
  ap ← wr ap 2 (limit (-12288) 12288 wd3);
  Some (sg, ap).

Definition UPPOL2_decode (a p sg ap : list Z) : option (list Z * list Z) :=
  sg ← signs p sg;
  a1 ← a !! 1%nat; a2 ← a !! 2%nat;
  sg0 ← sg !! 0%nat; sg1 ← sg !! 1%nat; sg2 ← sg !! 2%nat;
  let wd1 := saturate (w (a1 * 4)) in
  let wd2 := if sg0 =? sg1 then w (- wd1) else wd1 in
  let wd2 := if 32767 <? wd2 then 32767 else wd2 in
  let wd3 := if sg0 =? sg2 then 128 else -128 in
  let wd3 := w (wd3 + (wd2 >>i 7)) in
  let wd3 := w (wd3 + (w (a2 * 32512) >>i 15)) in
  ap ← wr ap 2 (limit (-12288) 12288 wd3);
  Some (sg, ap).

Definition UPPOL1 (a p sg ap : list Z) : option (list Z * list Z) :=
  p0 ← p !! 0%nat; p1 ← p !! 1%nat;
  sg ← wr sg 0 (p0 >>i 15);
  sg ← wr sg 1 (p1 >>i 15);
  sg0 ← sg !! 0%nat; sg1 ← sg !! 1%nat;
  let wd1 := if sg0 =? sg1 then 192 else -192 in
  a1 ← a !! 1%nat;
  let wd2 := w (a1 * 32640) >>i 15 in
  ap ← wr ap 1 (saturate (w (wd1 + wd2)));
  ap2 ← ap !! 2%nat;
  let wd3 := saturate (w (15360 - ap2)) in
  ap1 ← ap !! 1%nat;
  ap ← (if wd3 <? ap1 then wr ap 1 wd3
        else if ap1 <? w (- wd3) then wr ap 1 (w (- wd3)) else Some ap);
  Some (sg, ap).

Definition UPZERO (dn : Z) (d b sg bp : list Z) : option (list Z * list Z) :=
  let wd1 := if dn =? 0 then 0 else 128 in
  sg ← wr sg 0 (dn >>i 15);
  for_loop 6 1 (λ i '(sg, bp),
    di ← d !! i;
    sg ← wr sg i (di >>i 15);
    sgi ← sg !! i; sg0 ← sg !! 0%nat;
    let wd2 := if sgi =? sg0 then wd1 else w (- wd1) in
    bi ← b !! i;
    let wd3 := w (bi * 32640) >>i 15 in
    bp ← wr bp i (saturate (w (wd2 + wd3)));
    Some (sg, bp)) (sg, bp).

(** [for (i = n; i > 0; i--) to[i] = from[i - o]]; [to] and [from] are the same array when
    the values move up. *)
Definition move_up (n : nat) (l : list Z) : option (list Z) :=
  for_loop n 0 (λ k l, let i := (n - k)%nat in v ← l !! (i - 1)%nat; wr l i v) l.
Definition copy_down (n : nat) (to from : list Z) : option (list Z) :=
  for_loop n 0 (λ k l, let i := (n - k)%nat in v ← from !! i; wr l i v) to.

Definition FILTEP (r a : list Z) : option Z :=
  r1 ← r !! 1%nat; a1 ← a !! 1%nat;
  let wd1 := saturate (w (r1 + r1)) in
  let wd1 := w (a1 * wd1) >>i 15 in
  r2 ← r !! 2%nat; a2 ← a !! 2%nat;
  let wd2 := saturate (w (r2 + r2)) in
  let wd2 := w (a2 * wd2) >>i 15 in
  Some (saturate (w (wd1 + wd2))).

Definition FILTEZ (d b : list Z) : option Z :=
  sz ← for_loop 6 0 (λ k sz,
    let i := (6 - k)%nat in
    di ← d !! i; bi ← b !! i;
    let wd1 := saturate (w (di + di)) in
    Some (w (sz + (w (bi * wd1) >>i 15)))) 0;
  Some (saturate sz).

Definition block4 (UPPOL2 : list Z → list Z → list Z → list Z → option (list Z * list Z)) (k : Band) (dn : Z)
  : option Band :=
  d ← wr (b_d k) 0 dn;
  r ← wr (b_r k) 0 (saturate (w (b_s k + dn)));
  p ← wr (b_p k) 0 (saturate (w (b_sz k + dn)));
  '(sg, ap) ← UPPOL2 (b_a k) p (b_sg k) (b_ap k);
  '(sg, ap) ← UPPOL1 (b_a k) p sg ap;
  '(sg, bp) ← UPZERO dn d (b_b k) sg (b_bp k);
  (* DELAYA: the two arrays of each loop are distinct *)
  d ← move_up 6 d;
  b ← copy_down 6 (b_b k) bp;
  r ← move_up 2 r;
  p ← move_up 2 p;
  a ← copy_down 2 (b_a k) ap;
  sp ← FILTEP r a;
  sz ← FILTEZ d b;
  Some (mkBand (saturate (w (sp + sz))) sp sz r a ap p d b bp sg (b_nb k) (b_det k)).

Definition block4_encode : Band → Z → option Band := block4 UPPOL2_encode.
Definition block4_decode : Band → Z → option Band := block4 UPPOL2_decode.

(** ** The step: block 3 *)

(** The logarithm of the step, [delta] the entry of the table for the code. *)
Definition LOGSC (nb delta top : Z) : Z :=
  let wd := w (nb * 127) >>i 7 in
  let nb := w (wd + delta) in
  if nb <? 0 then 0 else if top <? nb then top else nb.

Definition SCALE (base nb : Z) : option Z :=
  let wd1 := Z.land (nb >>i 6) 31 in
  let wd2 := w (base - (nb >>i 11)) in
  v ← at_int ilb wd1;
  wd3 ← (if wd2 <? 0
         then if w (- wd2) <? 32 then Some (w (Z.shiftl v (w (- wd2)))) else None
         else if wd2 <? 32 then Some (Z.shiftr v wd2) else None);
  Some (w (Z.shiftl wd3 2)).

Definition with_step (k : Band) (nb det : Z) : Band :=
  mkBand (b_s k) (b_sp k) (b_sz k) (b_r k) (b_a k) (b_ap k) (b_p k) (b_d k) (b_b k) (b_bp k) (b_sg k) nb det.

(** Blocks 2 to 4: the quantised difference [dn], the new step and the predictor. *)
Definition adapt (block4 : Band → Z → option Band) (k : Band) (dn delta top base : Z) : option Band :=
  let nb := LOGSC (b_nb k) delta top in
  det ← SCALE base nb;
  block4 (with_step k nb det) dn.

Definition adapt_low (block4 : Band → Z → option Band) (k : Band) (ril : Z) : option Band :=
  wd2 ← at_int qm4 ril;
  let dlow := w (b_det k * wd2) >>i 15 in
  il4 ← at_int rl42 ril;
  delta ← wl !! il4;
  adapt block4 k dlow delta 18432 8.

Definition adapt_high (block4 : Band → Z → option Band) (k : Band) (ihigh : Z) : option Band :=
  wd2 ← at_int qm2 ihigh;
  let dhigh := w (b_det k * wd2) >>i 15 in
  ih2 ← at_int rh2 ihigh;
  delta ← wh !! ih2;
  adapt block4 k dhigh delta 22528 10.

(** ** The encoder *)

(** [for (i = 1; i < 30; i++)] with its break. *)
Fixpoint QUANTL (n i : nat) (wd det : Z) : option nat :=
  match n with
  | O => Some i
  | S n =>
      q ← q6 !! i;
      if wd <? (w (q * det) >>i 12) then Some i else QUANTL n (S i) wd det
  end.

Definition code_low (k : Band) (xlow : Z) : option Z :=
  let el := saturate (w (xlow - b_s k)) in
  let wd := if 0 <=? el then el else w (- w (el + 1)) in
  i ← QUANTL 29 1 wd (b_det k);
  (if el <? 0 then iln else ilp) !! i.

Definition code_high (k : Band) (xhigh : Z) : option Z :=
  let eh := saturate (w (xhigh - b_s k)) in
  let wd := if 0 <=? eh then eh else w (- w (eh + 1)) in
  let wd1 := w (564 * b_det k) >>i 12 in
  let mih := if wd1 <=? wd then 2%nat else 1%nat in
  (if eh <? 0 then ihn else ihp) !! mih.

(** The transmit filter. *)
Definition shift_x (x : list Z) (v1 v2 : Z) : option (list Z) :=
  x ← for_loop 22 0 (λ i x, v ← x !! (i + 2)%nat; wr x i v) x;
  x ← wr x 22 v1;
  wr x 23 v2.

Definition qmf (x : list Z) : option (Z * Z) :=
  for_loop 12 0 (λ i '(odd, even),
    v ← x !! (2 * i)%nat;
    c ← qmf_coeffs !! i;
    let odd := w (odd + w (v * c)) in
    v ← x !! (2 * i + 1)%nat;
    c ← qmf_coeffs !! (11 - i)%nat;
    let even := w (even + w (v * c)) in
    Some (odd, even)) (0, 0).

(** The next values of the bands, [xhigh] the last one of the high band. *)
Definition next_bands (s : G722State) (amp : list Z) (j : nat) (xhigh : Z) : option (G722State * Z * Z * nat) :=
  if itu_test_mode s then
    v ← amp !! j;
    Some (s, v >>i 1, v >>i 1, S j)
  else if eight_k s then
    v ← amp !! j;
    Some (s, v >>i 1, xhigh, S j)
  else
    v1 ← amp !! j;
    v2 ← amp !! S j;
    x ← shift_x (x s) v1 v2;
    '(sumodd, sumeven) ← qmf x;
    Some (with_x s x, w (sumeven + sumodd) >>i 14, w (sumeven - sumodd) >>i 14, S (S j)).

Definition encode_bands (s : G722State) (xlow xhigh : Z) : option (G722State * Z) :=
  ilow ← code_low (band0 s) xlow;
  k0 ← adapt_low block4_encode (band0 s) (ilow >>i 2);
  if eight_k s then
    code ← shr32 (Z.lor 0xC0 ilow) (8 -i bits_per_sample s);
    Some (with_bands s k0 (band1 s), code)
  else
    ihigh ← code_high (band1 s) xhigh;
    k1 ← adapt_high block4_encode (band1 s) ihigh;
    code ← shr32 (Z.lor (ihigh <<i 6) ilow) (8 -i bits_per_sample s);
    Some (with_bands s k0 k1, code).

(** The output of a code: a byte, or the bits of a stream. *)
Definition put_code (s : G722State) (code : Z) (g722_data : list Z) (g722_bytes : nat)
  : option (G722State * list Z * nat) :=
  if packed s then
    v ← shlu32 code (out_bits s);
    let out_buffer := Z.lor (out_buffer s) v in
    let out_bits := out_bits s +i bits_per_sample s in
    if 8 <=? out_bits then
      g722_data ← wr g722_data g722_bytes (u8 (Z.land out_buffer 0xFF));
      Some (with_out s (Z.shiftr out_buffer 8) (out_bits -i 8), g722_data, S g722_bytes)
    else Some (with_out s out_buffer out_bits, g722_data, g722_bytes)
  else
    g722_data ← wr g722_data g722_bytes (u8 code);
    Some (s, g722_data, S g722_bytes).

Fixpoint encode_loop (fuel : nat) (s : G722State) (g722_data : list Z) (g722_bytes : nat)
    (amp : list Z) (j len : nat) (xhigh : Z) : option (G722State * list Z * nat) :=
  if (j <? len)%nat then
    match fuel with
    | O => None
    | S fuel =>
        '(s, xlow, xhigh, j) ← next_bands s amp j xhigh;
        '(s, code) ← encode_bands s xlow xhigh;
        '(s, g722_data, g722_bytes) ← put_code s code g722_data g722_bytes;
        encode_loop fuel s g722_data g722_bytes amp j len xhigh
    end
  else Some (s, g722_data, g722_bytes).

(** Every step takes a sample. *)
Definition encode (s : G722State) (g722_data amp : list Z) (len : nat) : option (G722State * list Z * nat) :=
  encode_loop len s g722_data 0 amp 0 len 0.

(** ** The decoder *)

Definition take_code (s : G722State) (g722_data : list Z) (j : nat) : option (G722State * Z * nat) :=
  if packed s then
    '(in_buffer, in_bits, j) ←
      (if in_bits s <? bits_per_sample s then
         v ← g722_data !! j;
         v ← shl32 v (in_bits s);
         Some (Z.lor (in_buffer s) (u32 v), in_bits s +i 8, S j)
       else Some (in_buffer s, in_bits s, j));
    top ← shl32 1 (bits_per_sample s);
    rest ← shr32 in_buffer (bits_per_sample s);
    Some (with_in s rest (in_bits -i bits_per_sample s), s32 (Z.land in_buffer (u32 (top -i 1))), j)
  else
    v ← g722_data !! j;
    Some (s, v, S j).

(** The code of the low band as the first index, the code of the high band, and the entry
    of the table for the output. *)
Definition split_code (bits code : Z) : option (Z * Z * Z) :=
  if bits =? 7 then
    let wd1 := Z.land code 0x1F in
    wd2 ← at_int qm5 wd1;
    Some (wd1 >>i 1, Z.land (code >>i 5) 0x03, wd2)
  else if bits =? 6 then
    let wd1 := Z.land code 0x0F in
    wd2 ← at_int qm4 wd1;
    Some (wd1, Z.land (code >>i 4) 0x03, wd2)
  else
    let wd1 := Z.land code 0x3F in
    wd2 ← at_int qm6 wd1;
    Some (wd1 >>i 2, Z.land (code >>i 6) 0x03, wd2).

Definition decode_bands (s : G722State) (code rhigh : Z) : option (G722State * Z * Z) :=
  '(wd1, ihigh, wd2) ← split_code (bits_per_sample s) code;
  let wd2 := w (b_det (band0 s) * wd2) >>i 15 in
  let rlow := limit (-16384) 16383 (w (b_s (band0 s) + wd2)) in
  k0 ← adapt_low block4_decode (band0 s) wd1;
  if eight_k s then Some (with_bands s k0 (band1 s), rlow, rhigh)
  else
    wd2 ← at_int qm2 ihigh;
    let dhigh := w (b_det (band1 s) * wd2) >>i 15 in
    let rhigh := limit (-16384) 16383 (w (dhigh + b_s (band1 s))) in
    k1 ← adapt_high block4_decode (band1 s) ihigh;
    Some (with_bands s k0 k1, rlow, rhigh).

(** The output: two samples, or one in narrow-band mode. *)
Definition put_samples (s : G722State) (rlow rhigh : Z) (amp : list Z) (outlen : nat)
  : option (G722State * list Z * nat) :=
  if itu_test_mode s then
    amp ← wr amp outlen (s16 (w (Z.shiftl rlow 1)));
    amp ← wr amp (S outlen) (s16 (w (Z.shiftl rhigh 1)));
    Some (s, amp, S (S outlen))
  else if eight_k s then
    amp ← wr amp outlen (s16 (w (Z.shiftl rlow 1)));
    Some (s, amp, S outlen)
  else
    x ← shift_x (x s) (w (rlow + rhigh)) (w (rlow - rhigh));
    '(xout2, xout1) ← qmf x;
    amp ← wr amp outlen (saturate (xout1 >>i 11));
    amp ← wr amp (S outlen) (saturate (xout2 >>i 11));
    Some (with_x s x, amp, S (S outlen)).

Fixpoint decode_loop (fuel : nat) (s : G722State) (amp : list Z) (outlen : nat)
    (g722_data : list Z) (j len : nat) (rhigh : Z) : option (G722State * list Z * nat) :=
  if (j <? len)%nat then
    match fuel with
    | O => None
    | S fuel =>
        '(s, code, j) ← take_code s g722_data j;
        '(s, rlow, rhigh) ← decode_bands s code rhigh;
        '(s, amp, outlen) ← put_samples s rlow rhigh amp outlen;
        decode_loop fuel s amp outlen g722_data j len rhigh
    end
  else Some (s, amp, outlen).

(** In a packed stream a step may use bits that were left, so that there can be more
    steps than bytes. *)
Definition decode (s : G722State) (amp g722_data : list Z) (len : nat) : option (G722State * list Z * nat) :=
  decode_loop (S (2 * len)) s amp 0 g722_data 0 len 0.

End codec.

Definition WebRtc_g722_encode : G722State → list Z → list Z → nat → option (G722State * list Z * nat) := encode s32.
Definition WebRtc_g722_decode : G722State → list Z → list Z → nat → option (G722State * list Z * nat) := decode s32.

(** ** The interface *)

Definition G722_WEBRTC_SPEECH : Z := 1.

(** The instance of the caller, and the status. Without an instance the routine makes one that
    the caller does not get. *)
Definition WebRtcG722_EncoderInit (inst : option G722State) (malloc : bool) : option G722State * Z :=
  match inst with
  | Some _ => (Some (WebRtc_g722_encode_init 64000 2), 0)
  | None => (None, if malloc then 0 else -1)
  end.
(** For an instance that is not null. *)
Definition WebRtcG722_DecoderInit : G722State := WebRtc_g722_decode_init 64000 2.

(** The bytes and their number. *)
Definition WebRtcG722_Encode (inst : G722State) (speechIn : list Z) (len : nat) (encoded : list Z)
  : option (G722State * list Z * nat) := WebRtc_g722_encode inst encoded speechIn len.

(** The samples, the kind of speech and the number of samples. *)
Definition WebRtcG722_Decode (inst : G722State) (encoded : list Z) (len : nat) (decoded : list Z)
  : option (G722State * list Z * Z * nat) :=
  '(inst, decoded, n) ← WebRtc_g722_decode inst decoded encoded len;
  Some (inst, decoded, G722_WEBRTC_SPEECH, n).

(** ** Encoder and decoder have the same predictor *)

Lemma UPPOL2_same w a p sg ap : UPPOL2_encode w a p sg ap = UPPOL2_decode w a p sg ap.
Proof.
  unfold UPPOL2_encode, UPPOL2_decode. destruct (signs p sg) as [sg'|]; [|done]. cbn [mbind option_bind].
  destruct (a !! 1%nat) as [a1|]; [|done]. destruct (a !! 2%nat) as [a2|]; [|done]. cbn [mbind option_bind].
  destruct (sg' !! 0%nat) as [s0|]; [|done]. destruct (sg' !! 1%nat) as [s1|]; [|done].
  destruct (sg' !! 2%nat) as [s2|]; [|done]. cbn [mbind option_bind]. cbv zeta.
  rewrite (Z.shiftl_mul_pow2 a1 2) by lia. by rewrite (Z.add_comm (if s0 =? s2 then 128 else -128)).
Qed.

Lemma block4_same w k dn : block4_encode w k dn = block4_decode w k dn.
Proof.
  unfold block4_encode, block4_decode, block4. destruct (wr (b_d k) 0 dn); [|done]. cbn [mbind option_bind].
  destruct (wr (b_r k) 0 _); [|done]. destruct (wr (b_p k) 0 _); [|done]. cbn [mbind option_bind].
  by rewrite UPPOL2_same.
Qed.

Lemma adapt_low_same w k i : adapt_low w (block4_encode w) k i = adapt_low w (block4_decode w) k i.
Proof.
  unfold adapt_low, adapt. destruct (at_int qm4 i); [|done]. destruct (at_int rl42 i); [|done]. cbn [mbind option_bind].
  destruct (wl !! _); [|done]. cbn [mbind option_bind]. cbv zeta.
  destruct (SCALE w 8 _); [|done]. apply block4_same.
Qed.

Lemma adapt_high_same w k i : adapt_high w (block4_encode w) k i = adapt_high w (block4_decode w) k i.
Proof.
  unfold adapt_high, adapt. destruct (at_int qm2 i); [|done]. destruct (at_int rh2 i); [|done]. cbn [mbind option_bind].
  destruct (wh !! _); [|done]. cbn [mbind option_bind]. cbv zeta.
  destruct (SCALE w 10 _); [|done]. apply block4_same.
Qed.

(** ** The arithmetic of the predictor *)

(** The code and the same text in unbounded integers both return, the same result. *)
Definition agree {A} (m : (Z → Z) → option A) (Q : A → Prop) : Prop :=
  ∃ a, m s32 = Some a ∧ m id = Some a ∧ Q a.

Lemma agree_bind {A B} (m : (Z → Z) → option A) (f : (Z → Z) → A → option B) P Q :
  agree m P → (∀ a, P a → agree (λ w, f w a) Q) → agree (λ w, m w ≫= f w) Q.
Proof.
  intros (a & E1 & E2 & Ha) Hf. destruct (Hf a Ha) as (b & F1 & F2 & Hb). exists b. by rewrite E1, E2.
Qed.

Lemma agree_same {A} (m : option A) (a : A) (Q : A → Prop) : m = Some a → Q a → agree (λ _, m) Q.
Proof. intros E HQ. by exists a. Qed.

Lemma saturate_range v : int16 (saturate v).
Proof. unfold saturate. pose proof (s16_range v). destruct (v =? s16 v); [done|]. destruct (32767 <? v); unfold int16; lia. Qed.

Lemma saturate_id v : int16 v → saturate v = v.
Proof. intros. unfold saturate. rewrite s16_id by done. by rewrite Z.eqb_refl. Qed.

Lemma product_bound a b : int16 a → int16 b → -1073741824 ≤ a * b ≤ 1073741824.
Proof. unfold int16. nia. Qed.

Lemma list3 {A} (l : list A) : length l = 3%nat → ∃ a b c, l = [a; b; c].
Proof. destruct l as [|a [|b [|c [|]]]]; try done. intros _. by exists a, b, c. Qed.
Lemma list7 {A} (l : list A) : length l = 7%nat → ∃ a b c d e f g, l = [a; b; c; d; e; f; g].
Proof. destruct l as [|a [|b [|c [|d [|e [|f [|g [|]]]]]]]]; try done. intros _. by exists a, b, c, d, e, f, g. Qed.

(** Arrays of 16-bit values. *)
Definition shorts (n : nat) (l : list Z) : Prop := length l = n ∧ Forall int16 l.

(** Takes the next wrap-around away, from the inside out. *)
Ltac no_wrap :=
  cbv [id];
  repeat match goal with
  | |- context [s32 ?z] =>
      lazymatch z with
      | context [s32 _] => fail
      | _ => rewrite (s32_id z) by (solve [clia])
      end
  end.

Ltac name_sat := match goal with |- context [saturate ?z] =>
  let v := fresh "v" in pose proof (saturate_range z); set (v := saturate z) in *; clearbody v end.

Ltac run := repeat first
  [ progress cbn -[Z.mul s32 saturate limit Z.shiftr Z.shiftl Z.add Z.sub Z.opp Z.eqb Z.ltb]
  | rewrite wr_lt by (cbn [length]; lia)
  | progress unfold id ].

Lemma shorts3 l : shorts 3 l → ∃ a b c, l = [a; b; c] ∧ int16 a ∧ int16 b ∧ int16 c.
Proof.
  intros [(a & b & c & ->)%list3 H]. exists a, b, c.
  repeat (apply Forall_cons_1 in H as [? H]). by split_and!.
Qed.
Lemma shorts7 l : shorts 7 l → ∃ a b c d e f g, l = [a; b; c; d; e; f; g] ∧
  int16 a ∧ int16 b ∧ int16 c ∧ int16 d ∧ int16 e ∧ int16 f ∧ int16 g.
Proof.
  intros [(a & b & c & d & e & f & g & ->)%list7 H]. exists a, b, c, d, e, f, g.
  repeat (apply Forall_cons_1 in H as [? H]). by split_and!.
Qed.

Lemma limit_range lo hi v : lo ≤ hi → lo ≤ limit lo hi v ≤ hi.
Proof. unfold limit. intros. destruct (Z.ltb_spec hi v); [lia|]. destruct (Z.ltb_spec v lo); lia. Qed.

Lemma signs_ok p sg : length p = 3%nat → length sg = 7%nat →
  ∃ sg' s0 s1 s2, signs p sg = Some sg' ∧ length sg' = 7%nat ∧
    sg' !! 0%nat = Some s0 ∧ sg' !! 1%nat = Some s1 ∧ sg' !! 2%nat = Some s2.
Proof.
  intros (p0 & p1 & p2 & ->)%list3 (g0 & g1 & g2 & g3 & g4 & g5 & g6 & ->)%list7.
  unfold signs. run. by eexists _, _, _, _.
Qed.

Lemma UPPOL2_ok a p sg ap : shorts 3 a → length p = 3%nat → length sg = 7%nat → length ap = 3%nat →
  agree (λ w, UPPOL2_encode w a p sg ap) (λ '(sg', ap'),
    length sg' = 7%nat ∧ length ap' = 3%nat ∧ ∃ v, ap' !! 2%nat = Some v ∧ -12288 ≤ v ≤ 12288).
Proof.
  intros (a0 & a1 & a2 & -> & H0 & H1 & H2)%shorts3 Hp Hsg (b0 & b1 & b2 & ->)%list3.
  destruct (signs_ok p sg Hp Hsg) as (sg' & s0 & s1 & s2 & E & L & E0 & E1 & E2).
  unfold UPPOL2_encode, agree. rewrite E. cbn [mbind option_bind]. rewrite E0, E1, E2. run.
  no_wrap. name_sat. rewrite (s32_id (- v)) by clia.
  set (wd2 := if s0 =? s1 then - v else v). assert (Hw : -32768 ≤ wd2 ≤ 32768) by (unfold wd2; destruct (s0 =? s1); clia).
  clearbody wd2. set (wd3 := if 32767 <? wd2 then 32767 else wd2).
  assert (Hw3 : int16 wd3) by (unfold wd3, int16; destruct (Z.ltb_spec 32767 wd2); lia). clearbody wd3.
  set (c := if s0 =? s2 then 128 else -128). assert (Hc : -128 ≤ c ≤ 128) by (unfold c; destruct (s0 =? s2); lia). clearbody c.
  no_wrap. eexists. split_and!; [reflexivity|reflexivity|]. split_and!; [done|done|].
  eexists. split; [reflexivity|]. by apply limit_range.
Qed.

Lemma UPPOL1_ok a p sg ap v : shorts 3 a → length p = 3%nat → length sg = 7%nat → length ap = 3%nat →
  ap !! 2%nat = Some v → -12288 ≤ v ≤ 12288 →
  agree (λ w, UPPOL1 w a p sg ap) (λ '(sg', ap'), length sg' = 7%nat ∧ length ap' = 3%nat ∧
    (∃ v1, ap' !! 1%nat = Some v1 ∧ int16 v1) ∧ ap' !! 2%nat = Some v).
Proof.
  intros (a0 & a1 & a2 & -> & H0 & H1 & H2)%shorts3 (p0 & p1 & p2 & ->)%list3 (g0 & g1 & g2 & g3 & g4 & g5 & g6 & ->)%list7
    (b0 & b1 & b2 & ->)%list3 E Hv.
  injection E as ->. unfold UPPOL1, agree. run.
  match goal with |- context [if ?e then 192 else -192] => set (c := if e then 192 else -192);
    assert (Hc : -192 ≤ c ≤ 192) by (unfold c; destruct e; lia); clearbody c end.
  rewrite (s32_id (a1 * 32640)) by clia. rewrite (s32_id (15360 - v)) by clia.
  rewrite (s32_id (c + _)) by clia. rewrite (saturate_id (15360 - v)) by (unfold int16; lia).
  name_sat. set (t := 15360 - v). assert (Ht : 3072 ≤ t ≤ 27648) by (unfold t; lia). clearbody t.
  rewrite (s32_id (- t)) by clia.
  destruct (Z.ltb_spec t v0); [|destruct (Z.ltb_spec v0 (- t))]; (eexists; split_and!; [reflexivity|reflexivity|]);
    (split_and!; [done|done| |done]); (eexists; split; [reflexivity|]); unfold int16 in *; lia.
Qed.

Lemma UPZERO_ok dn d b sg bp : length d = 7%nat → shorts 7 b → length sg = 7%nat → length bp = 7%nat →
  agree (λ w, UPZERO w dn d b sg bp) (λ '(sg', bp'), length sg' = 7%nat ∧ length bp' = 7%nat ∧ Forall int16 (drop 1 bp')).
Proof.
  intros (d0 & d1 & d2 & d3 & d4 & d5 & d6 & ->)%list7 (b0 & b1 & b2 & b3 & b4 & b5 & b6 & -> & _ & H1 & H2 & H3 & H4 & H5 & H6)%shorts7
    (g0 & g1 & g2 & g3 & g4 & g5 & g6 & ->)%list7 (c0 & c1 & c2 & c3 & c4 & c5 & c6 & ->)%list7.
  unfold UPZERO, agree. run.
  set (c := if dn =? 0 then 0 else 128). assert (Hc : 0 ≤ c ≤ 128) by (unfold c; destruct (dn =? 0); lia). clearbody c.
  rewrite (s32_id (- c)) by clia.
  rewrite (s32_id (b1 * _)), (s32_id (b2 * _)), (s32_id (b3 * _)), (s32_id (b4 * _)), (s32_id (b5 * _)), (s32_id (b6 * _)) by clia.
  assert (Ht : ∀ (y : bool) x, int16 x → s32 ((if y then c else - c) + Z.shiftr (x * 32640) 15) =
    (if y then c else - c) + Z.shiftr (x * 32640) 15) by (intros [] x Hx; apply s32_id; clia).
  rewrite !Ht by done. eexists. split_and!; [reflexivity|reflexivity|]. split_and!; [done|done|].
  cbn [drop]. repeat (apply Forall_cons_2; [apply saturate_range|]). by apply Forall_nil_2.
Qed.

Lemma FILTEP_ok r a : shorts 3 r → shorts 3 a → agree (λ w, FILTEP w r a) int16.
Proof.
  intros (r0 & r1 & r2 & -> & _ & R1 & R2)%shorts3 (a0 & a1 & a2 & -> & _ & A1 & A2)%shorts3.
  unfold FILTEP, agree. run. rewrite (s32_id (r1 + r1)), (s32_id (r2 + r2)) by clia.
  pose proof (product_bound a1 _ A1 (saturate_range (r1 + r1))) as P1.
  pose proof (product_bound a2 _ A2 (saturate_range (r2 + r2))) as P2.
  set (v1 := a1 * _) in *. set (v2 := a2 * _) in *. clearbody v1 v2.
  rewrite (s32_id v1), (s32_id v2) by clia. rewrite (s32_id (_ + _)) by clia.
  eexists. split_and!; [reflexivity|reflexivity|apply saturate_range].
Qed.

Lemma FILTEZ_ok d b : shorts 7 d → shorts 7 b → agree (λ w, FILTEZ w d b) int16.
Proof.
  intros (d0 & d1 & d2 & d3 & d4 & d5 & d6 & -> & _ & D1 & D2 & D3 & D4 & D5 & D6)%shorts7
    (b0 & b1 & b2 & b3 & b4 & b5 & b6 & -> & _ & B1 & B2 & B3 & B4 & B5 & B6)%shorts7.
  unfold FILTEZ, agree. run.
  assert (Ht : ∀ x y, int16 x → int16 y → s32 (y * saturate (s32 (x + x))) = y * saturate (x + x) ∧
    -32768 ≤ Z.shiftr (y * saturate (x + x)) 15 ≤ 32768).
  { intros x y Hx Hy. rewrite (s32_id (x + x)) by clia. pose proof (product_bound y _ Hy (saturate_range (x + x))).
    set (z := y * saturate (x + x)) in *. clearbody z. split; [apply s32_id|]; clia. }
  destruct (Ht d1 b1), (Ht d2 b2), (Ht d3 b3), (Ht d4 b4), (Ht d5 b5), (Ht d6 b6); try done.
  repeat match goal with E : s32 (?y * saturate (s32 ?x)) = _ |- _ => rewrite !E; clear E end.
  repeat match goal with |- context [Z.shiftr (?y * saturate ?x) 15] =>
    let t := fresh "t" in set (t := Z.shiftr (y * saturate x) 15) in *; clearbody t end.
  unfold int32, s32 in *.
  repeat match goal with |- context [(?z + 2147483648) mod 4294967296 - 2147483648] =>
    lazymatch z with context [_ mod _] => fail | _ =>
    replace ((z + 2147483648) mod 4294967296 - 2147483648) with z by (rewrite Z.mod_small; lia) end end.
  eexists. split_and!; [reflexivity|reflexivity|apply saturate_range].
Qed.

(** ** The invariant of a band *)

Record band_ok (top : Z) (k : Band) : Prop := {
  k_s : int16 (b_s k); k_sp : int16 (b_sp k); k_sz : int16 (b_sz k);
  k_r : shorts 3 (b_r k); k_a : shorts 3 (b_a k); k_p : shorts 3 (b_p k);
  k_d : shorts 7 (b_d k); k_b : shorts 7 (b_b k);
  k_ap : length (b_ap k) = 3%nat; k_bp : length (b_bp k) = 7%nat; k_sg : length (b_sg k) = 7%nat;
  k_nb : 0 ≤ b_nb k ≤ top; k_det : 8 ≤ b_det k ≤ 16384;
}.

Lemma shorts_wr n l i v : shorts n l → (i < n)%nat → int16 v → ∃ l', wr l i v = Some l' ∧ shorts n l'.
Proof.
  intros [L F] Hi Hv. exists (<[i:=v]> l). rewrite wr_lt by lia. split; [done|].
  split; [by rewrite length_insert|by apply Forall_insert].
Qed.

Lemma move_up_ok n l : (n < length l)%nat → Forall int16 l → ∃ l', move_up n l = Some l' ∧ shorts (length l) l'.
Proof.
  intros Hn Hl. unfold move_up. apply (wp_exists _ (shorts (length l))).
  apply (wp_for (λ _, shorts (length l))); [done| |done].
  intros i l' Hi [L F]. destruct (lookup_lt_is_Some_2 l' (n - i - 1) ltac:(lia)) as [v Ev]. rewrite Ev. cbn [mbind option_bind].
  destruct (shorts_wr (length l) l' (n - i) v) as (l2 & -> & H2); [done|lia|exact (Forall_lookup_1 _ _ _ _ F Ev)|done].
Qed.

Lemma copy_down_ok n to from : (n < length to)%nat → Forall int16 to →
  (∀ i, (1 ≤ i ≤ n)%nat → ∃ v, from !! i = Some v ∧ int16 v) →
  ∃ l', copy_down n to from = Some l' ∧ shorts (length to) l'.
Proof.
  intros Hn Hl Hf. unfold copy_down. apply (wp_exists _ (shorts (length to))).
  apply (wp_for (λ _, shorts (length to))); [done| |done].
  intros i l' Hi Hs. destruct (Hf (n - i)%nat ltac:(lia)) as (v & -> & Hv). cbn [mbind option_bind].
  destruct (shorts_wr (length to) l' (n - i) v) as (l2 & -> & H2); [done|lia|done|done].
Qed.

(** One step of the predictor: it returns, nothing overflows, and the invariant holds. *)
Lemma block4_ok top k dn : band_ok top k → int16 dn → agree (λ w, block4_encode w k dn) (band_ok top).
Proof.
  intros [Hs Hsp Hsz Hr Ha Hp Hd Hb Hap Hbp Hsg Hnb Hdet] Hdn.
  destruct (shorts_wr 7 _ 0 dn Hd ltac:(lia) Hdn) as (d1 & Ed & Hd1).
  destruct (shorts_wr 3 _ 0 (saturate (b_s k + dn)) Hr ltac:(lia) (saturate_range _)) as (r1 & Er & Hr1).
  destruct (shorts_wr 3 _ 0 (saturate (b_sz k + dn)) Hp ltac:(lia) (saturate_range _)) as (p1 & Ep & Hp1).
  destruct (UPPOL2_ok (b_a k) p1 (b_sg k) (b_ap k) Ha (proj1 Hp1) Hsg Hap) as ([sg2 ap2] & E1 & E2 & L1 & L2 & v & Ev & Hv).
  destruct (UPPOL1_ok (b_a k) p1 sg2 ap2 v Ha (proj1 Hp1) L1 L2 Ev Hv) as ([sg3 ap3] & F1 & F2 & L3 & L4 & (v1 & Ev1 & Hv1) & Ev2).
  destruct (UPZERO_ok dn d1 (b_b k) sg3 (b_bp k) (proj1 Hd1) Hb L3 Hbp) as ([sg4 bp4] & G1 & G2 & L5 & L6 & HF).
  destruct (move_up_ok 6 d1) as (d2 & Ed2 & Hd2); [destruct Hd1; lia|apply Hd1|].
  destruct (copy_down_ok 6 (b_b k) bp4) as (b2 & Eb2 & Hb2); [destruct Hb; lia|apply Hb| |].
  { intros i Hi. destruct (lookup_lt_is_Some_2 bp4 i ltac:(lia)) as [z Ez]. exists z. split; [done|].
    apply (Forall_lookup_1 _ _ (i - 1) _ HF). rewrite lookup_drop. by replace (1 + (i - 1))%nat with i by lia. }
  destruct (move_up_ok 2 r1) as (r2 & Er2 & Hr2); [destruct Hr1; lia|apply Hr1|].
  destruct (move_up_ok 2 p1) as (p2 & Ep2 & Hp2); [destruct Hp1; lia|apply Hp1|].
  destruct (copy_down_ok 2 (b_a k) ap3) as (a2 & Ea2 & Ha2); [destruct Ha; lia|apply Ha| |].
  { intros i Hi. assert (i = 1 ∨ i = 2)%nat as [-> | ->] by lia; [by exists v1|]. exists v. split; [done|]. unfold int16. lia. }
  destruct Hd1 as [L7 _], Hb as [L8 _], Hr1 as [L9 _], Hp1 as [L10 _], Ha as [L11 _].
  rewrite L7 in Hd2. rewrite L8 in Hb2. rewrite L9 in Hr2. rewrite L10 in Hp2. rewrite L11 in Ha2.
  destruct (FILTEP_ok r2 a2 Hr2 Ha2) as (sp & P1 & P2 & Hsp'). destruct (FILTEZ_ok d2 b2 Hd2 Hb2) as (sz & Q1 & Q2 & Hsz').
  exists (mkBand (saturate (sp + sz)) sp sz r2 a2 ap3 p2 d2 b2 bp4 sg4 (b_nb k) (b_det k)).
  unfold block4_encode, block4. rewrite (s32_id (b_s k + dn)), (s32_id (b_sz k + dn)) by clia.
  change (id (b_s k + dn)) with (b_s k + dn). change (id (b_sz k + dn)) with (b_sz k + dn).
  rewrite Ed, Er, Ep. cbn [mbind option_bind].
  rewrite E1, E2. cbn [mbind option_bind]. rewrite F1, F2. cbn [mbind option_bind]. rewrite G1, G2. cbn [mbind option_bind].
  rewrite Ed2, Eb2, Er2, Ep2, Ea2. cbn [mbind option_bind]. rewrite P1, P2. cbn [mbind option_bind].
  rewrite Q1, Q2. cbn [mbind option_bind]. rewrite (s32_id (sp + sz)) by clia.
  split_and!; [done|done|]. split; cbn [b_s b_sp b_sz b_r b_a b_p b_d b_b b_ap b_bp b_sg b_nb b_det]; try done.
  apply saturate_range.
Qed.

(** The step, from the upper bits of its logarithm. *)
Definition scale_ok (base h : Z) : bool :=
  bool_decide (SCALE s32 base (64 * h) = SCALE id base (64 * h)) &&
  match SCALE id base (64 * h) with Some det => (8 <=? det) && (det <=? 16384) | None => false end.

Lemma SCALE_upper w base nb : SCALE w base nb = SCALE w base (64 * (nb / 64)).
Proof.
  unfold SCALE. replace (64 * (nb / 64) >>i 6) with (nb >>i 6).
  2: { rewrite !Z.shiftr_div_pow2 by lia. change (2 ^ 6) with 64. rewrite (Z.mul_comm 64). by rewrite Z.div_mul. }
  replace (64 * (nb / 64) >>i 11) with (nb >>i 11); [done|].
  rewrite !Z.shiftr_div_pow2 by lia. Z.to_euclidean_division_equations. lia.
Qed.

Lemma SCALE_ok base top nb : (base = 8 ∧ top = 18432) ∨ (base = 10 ∧ top = 22528) → 0 ≤ nb ≤ top →
  agree (λ w, SCALE w base nb) (λ det, 8 ≤ det ≤ 16384).
Proof.
  intros Hc Hn. assert (Hok : scale_ok base (nb / 64) = true).
  { destruct Hc as [[-> ->] | [-> ->]].
    - apply (check_below (scale_ok 8) 289); [vm_compute; reflexivity|]. Z.to_euclidean_division_equations. lia.
    - apply (check_below (scale_ok 10) 353); [vm_compute; reflexivity|]. Z.to_euclidean_division_equations. lia. }
  unfold agree. rewrite !(SCALE_upper _ base nb). unfold scale_ok in Hok. apply andb_true_iff in Hok as [E Hd].
  apply bool_decide_eq_true in E. rewrite E. destruct (SCALE id base _) as [det|]; [|done]. exists det. split_and!; [done|done|lia|lia].
Qed.

Lemma adapt_ok top base k dn delta : (base = 8 ∧ top = 18432) ∨ (base = 10 ∧ top = 22528) →
  band_ok top k → int16 dn → int16 delta → agree (λ w, adapt w (block4_encode w) k dn delta top base) (band_ok top).
Proof.
  intros Hc Hk Hdn Hdelta. assert (Htop : 0 ≤ top ≤ 22528) by lia. pose proof (k_nb _ _ Hk) as Hnb.
  assert (El : LOGSC s32 (b_nb k) delta top = LOGSC id (b_nb k) delta top ∧ 0 ≤ LOGSC id (b_nb k) delta top ≤ top).
  { unfold LOGSC, id. rewrite (s32_id (b_nb k * 127)) by clia. rewrite (s32_id (_ + delta)) by clia. split; [done|].
    destruct (Z.ltb_spec (Z.shiftr (b_nb k * 127) 7 + delta) 0); [lia|].
    destruct (Z.ltb_spec top (Z.shiftr (b_nb k * 127) 7 + delta)); lia. }
  destruct El as [El Hl]. unfold adapt, agree. rewrite El. set (nb := LOGSC id _ _ _) in *. clearbody nb.
  destruct (SCALE_ok base top nb Hc Hl) as (det & -> & -> & Hdet). cbn [mbind option_bind].
  apply (block4_ok top (with_step k nb det) dn); [|done]. destruct Hk. by split.
Qed.

Lemma step_bound det q : 8 ≤ det ≤ 16384 → -32768 ≤ q ≤ 32767 → s32 (det * q) = det * q ∧ int16 (Z.shiftr (det * q) 15).
Proof.
  intros. assert (-536870912 ≤ det * q ≤ 536870912) by nia. set (z := det * q) in *. clearbody z.
  split; [apply s32_id|]; clia.
Qed.

(** The entries of the tables for a code. *)
Definition entry_ok (qs : list Z) (ts : list nat) (ds : list Z) (i : Z) : bool :=
  match at_int qs i, at_int ts i ≫= λ t, ds !! t with
  | Some q, Some d => (-32768 <=? q) && (q <=? 32767) && (-32768 <=? d) && (d <=? 32767)
  | _, _ => false
  end.

Lemma entry_exists qs ts ds i : entry_ok qs ts ds i = true →
  ∃ q t d, at_int qs i = Some q ∧ int16 q ∧ at_int ts i = Some t ∧ ds !! t = Some d ∧ int16 d.
Proof.
  unfold entry_ok. destruct (at_int qs i) as [q|]; [|done]. destruct (at_int ts i) as [t|]; [|done]. cbn [mbind option_bind].
  destruct (ds !! t) as [d|] eqn:E; [|done]. intros. exists q, t, d. unfold int16. split_and!; (done || lia).
Qed.

Lemma adapt_low_ok k i : band_ok 18432 k → 0 ≤ i < 16 →
  agree (λ w, adapt_low w (block4_encode w) k i) (band_ok 18432).
Proof.
  intros Hk Hi. unfold adapt_low, agree.
  destruct (entry_exists qm4 rl42 wl i) as (q & t & delta & -> & Hq & -> & Ed & Hdelta).
  { apply (check_below (entry_ok qm4 rl42 wl) 16); [reflexivity|lia]. }
  cbn [mbind option_bind]. rewrite Ed. cbn [mbind option_bind]. destruct (step_bound (b_det k) q (k_det _ _ Hk) Hq) as [-> Hz].
  apply (adapt_ok 18432 8); [lia|done|done|done].
Qed.

Lemma adapt_high_ok k i : band_ok 22528 k → 0 ≤ i < 4 →
  agree (λ w, adapt_high w (block4_encode w) k i) (band_ok 22528).
Proof.
  intros Hk Hi. unfold adapt_high, agree.
  destruct (entry_exists qm2 rh2 wh i) as (q & t & delta & -> & Hq & -> & Ed & Hdelta).
  { apply (check_below (entry_ok qm2 rh2 wh) 4); [reflexivity|lia]. }
  cbn [mbind option_bind]. rewrite Ed. cbn [mbind option_bind]. destruct (step_bound (b_det k) q (k_det _ _ Hk) Hq) as [-> Hz].
  apply (adapt_ok 22528 10); [lia|done|done|done].
Qed.

(** ** One code *)

Lemma shift_x_ok l v1 v2 : shorts 24 l → int16 v1 → int16 v2 → ∃ l', shift_x l v1 v2 = Some l' ∧ shorts 24 l'.
Proof.
  intros Hl H1 H2. unfold shift_x.
  assert (∃ l', for_loop 22 0 (λ i x, v ← x !! (i + 2)%nat; wr x i v) l = Some l' ∧ shorts 24 l') as (l' & -> & Hl').
  { apply (wp_exists _ (shorts 24)). apply (wp_for (λ _, shorts 24)); [done| |done].
    intros i l' Hi [L F]. destruct (lookup_lt_is_Some_2 l' (i + 2) ltac:(lia)) as [v Ev]. rewrite Ev. cbn [mbind option_bind].
    destruct (shorts_wr 24 l' i v) as (l2 & -> & ?); [done|lia|exact (Forall_lookup_1 _ _ _ _ F Ev)|done]. }
  cbn [mbind option_bind]. destruct (shorts_wr 24 l' 22 v1) as (l2 & -> & Hl2); [done|lia|done|]. cbn [mbind option_bind].
  apply (shorts_wr 24 l2 23 v2); [done|lia|done].
Qed.

(** The filters: what is left of the weights of the taps bounds the sums. *)
Definition weight (n : nat) : Z := foldr (λ c t, Z.abs c + t) 0 (take n qmf_coeffs).
Definition weight' (n : nat) : Z := foldr (λ c t, Z.abs c + t) 0 (take n (reverse qmf_coeffs)).

Lemma qmf_ok l : shorts 24 l →
  agree (λ w, qmf w l) (λ '(o, e), Z.abs o ≤ 32768 * 6482 ∧ Z.abs e ≤ 32768 * 6482).
Proof.
  intros [L F]. unfold qmf, agree.
  apply (for_both (λ i '(o, e), Z.abs o ≤ 32768 * weight i ∧ Z.abs e ≤ 32768 * weight' i) 12 0); [cbn; lia|].
  intros i [o e] Hi [Ho He].
  destruct (lookup_lt_is_Some_2 l (2 * i) ltac:(lia)) as [v1 E1]. destruct (lookup_lt_is_Some_2 l (2 * i + 1) ltac:(lia)) as [v2 E2].
  rewrite E1, E2. pose proof (Forall_lookup_1 _ _ _ _ F E1) as H1. pose proof (Forall_lookup_1 _ _ _ _ F E2) as H2.
  cbn [mbind option_bind]. clear E1 E2 L F. unfold int16 in *.
  assert (∃ c1 c2, qmf_coeffs !! i = Some c1 ∧ qmf_coeffs !! (11 - i)%nat = Some c2 ∧ weight (S i) = weight i + Z.abs c1 ∧
    weight' (S i) = weight' i + Z.abs c2 ∧ 0 ≤ weight (S i) ≤ 6482 ∧ 0 ≤ weight' (S i) ≤ 6482 ∧ Z.abs c1 ≤ 4000 ∧ Z.abs c2 ≤ 4000)
    as (c1 & c2 & -> & -> & W1 & W2 & W3 & W4 & W5 & W6).
  { do 12 (destruct i as [|i]; [eexists _, _; split_and!; (reflexivity || (cbn; lia))|]). lia. }
  cbn [mbind option_bind]. rewrite W1, W2 in *. clear Hi W1 W2. set (u := weight i) in *. set (u' := weight' i) in *. clearbody u u'.
  assert (Z.abs (v1 * c1) ≤ 32768 * Z.abs c1 ∧ Z.abs (v2 * c2) ≤ 32768 * Z.abs c2) as [P1 P2] by (rewrite !Z.abs_mul; nia).
  set (z1 := v1 * c1) in *. set (z2 := v2 * c2) in *. clearbody z1 z2. unfold id.
  rewrite (s32_id z1), (s32_id z2) by (unfold int32; lia). rewrite (s32_id (o + z1)), (s32_id (e + z2)) by (unfold int32; lia).
  eexists. split_and!; [reflexivity|reflexivity|]. split; lia.
Qed.

(** The quantiser of the low band: the place where the search ends. *)
Lemma QUANTL_ok wd det : 8 ≤ det ≤ 16384 → ∀ n i, (1 ≤ i)%nat → (i + n = 30)%nat →
  agree (λ w, QUANTL w n i wd det) (λ j, (i ≤ j ≤ 30)%nat ∧
    (∀ q, q6 !! j = Some q → (j < 30)%nat → wd < Z.shiftr (q * det) 12) ∧
    (∀ k q, (i ≤ k < j)%nat → q6 !! k = Some q → Z.shiftr (q * det) 12 ≤ wd)).
Proof.
  intros Hdet. induction n as [|n IH]; intros i Hi Hn.
  { exists i. cbn. split_and!; [done|done|lia|lia|lia|lia]. }
  unfold agree. cbn [QUANTL]. destruct (lookup_lt_is_Some_2 q6 i ltac:(change (length q6) with 32%nat; lia)) as [q Eq]. rewrite Eq.
  cbn [mbind option_bind]. assert (Hq : 0 ≤ q ≤ 2919).
  { assert (Hall : Forall (λ q, 0 ≤ q ≤ 2919) q6) by (repeat (apply Forall_cons_2; [lia|]); apply Forall_nil_2).
    exact (Forall_lookup_1 _ _ _ _ Hall Eq). }
  assert (0 ≤ q * det ≤ 2919 * 16384) by nia. rewrite (s32_id (q * det)) by (unfold int32; lia). unfold id at 1.
  destruct (Z.ltb_spec wd (Z.shiftr (q * det) 12)) as [Hl|Hl].
  { exists i. split_and!; [done|done|lia|lia| |lia]. intros q' E' _. congruence. }
  destruct (IH (S i) ltac:(lia) ltac:(lia)) as (j & E1 & E2 & Hj & H1 & H2). exists j. split_and!; [done|done|lia|lia|done|].
  intros k q' Hk Ek. destruct (decide (k = i)) as [->|]; [|apply (H2 k); [lia|done]].
  rewrite Ek in Eq. by injection Eq as ->.
Qed.

(** The absolute value of an error as the quantisers take it. *)
Definition magnitude (e : Z) : Z := if 0 <=? e then e else - (e + 1).

Lemma error_ok x v : int16 x → int16 v →
  let e := saturate (x - v) in
  saturate (s32 (x - v)) = e ∧ (if 0 <=? e then e else s32 (- s32 (e + 1))) = magnitude e ∧ 0 ≤ magnitude e ≤ 32767.
Proof.
  intros Hx Hv e. rewrite (s32_id (x - v)) by clia. pose proof (saturate_range (x - v) : int16 e) as He. unfold magnitude.
  rewrite (s32_id (e + 1)) by clia. rewrite (s32_id (- (e + 1))) by clia.
  split_and!; [done|done|..]; unfold int16 in He; destruct (Z.leb_spec 0 e); lia.
Qed.

(** The code of the low band: the step the error falls in. *)
Definition low_code (neg : bool) (i : nat) (c : Z) : Prop :=
  (1 ≤ i ≤ 30)%nat ∧ (if neg then iln else ilp) !! i = Some c.

Lemma code_low_ok k xlow : band_ok 18432 k → int16 xlow →
  agree (λ w, code_low w k xlow) (λ c, 0 ≤ c < 64 ∧
    let e := saturate (xlow - b_s k) in
    ∃ i, low_code (e <? 0) i c ∧
      (∀ q, q6 !! i = Some q → (i < 30)%nat → magnitude e < Z.shiftr (q * b_det k) 12) ∧
      (∀ j q, (1 ≤ j < i)%nat → q6 !! j = Some q → Z.shiftr (q * b_det k) 12 ≤ magnitude e)).
Proof.
  intros Hk Hx. unfold code_low, agree. destruct (error_ok xlow (b_s k) Hx (k_s _ _ Hk)) as (E1 & E2 & H3).
  rewrite E1. change (id (xlow - b_s k)) with (xlow - b_s k). cbv zeta in *. set (e := saturate (xlow - b_s k)) in *. rewrite E2.
  change (id (- id (e + 1))) with (- (e + 1)).
  change (if 0 <=? e then e else - (e + 1)) with (magnitude e).
  destruct (QUANTL_ok (magnitude e) (b_det k) (k_det _ _ Hk) 29 1 ltac:(lia) ltac:(lia)) as (i & -> & -> & Hi & H1 & H2).
  cbn [mbind option_bind].
  assert (Hc : ∃ c, (if e <? 0 then iln else ilp) !! i = Some c ∧ 0 ≤ c < 64).
  { destruct (lookup_lt_is_Some_2 (if e <? 0 then iln else ilp) i ltac:(destruct (e <? 0); cbn; lia)) as [c Ec].
    exists c. split; [done|]. assert (Hall : Forall (λ c, 0 ≤ c < 64) (if e <? 0 then iln else ilp))
      by (destruct (e <? 0); repeat (apply Forall_cons_2; [lia|]); apply Forall_nil_2).
    exact (Forall_lookup_1 _ _ _ _ Hall Ec). }
  destruct Hc as (c & Ec & Hc). exists c. split_and!; [done|done|lia|lia|]. exists i. split_and!; [|done|done].
  split; [lia|done].
Qed.

Lemma code_high_ok k xhigh : band_ok 22528 k → int16 xhigh →
  agree (λ w, code_high w k xhigh) (λ c, 0 ≤ c < 4 ∧
    let e := saturate (xhigh - b_s k) in
    c = (if e <? 0 then 0 else 2) + (if Z.shiftr (564 * b_det k) 12 <=? magnitude e then 0 else 1)).
Proof.
  intros Hk Hx. unfold code_high, agree. destruct (error_ok xhigh (b_s k) Hx (k_s _ _ Hk)) as (E1 & E2 & H3).
  rewrite E1. change (id (xhigh - b_s k)) with (xhigh - b_s k). cbv zeta in *. set (e := saturate (xhigh - b_s k)) in *. rewrite E2.
  change (id (- id (e + 1))) with (- (e + 1)).
  change (if 0 <=? e then e else - (e + 1)) with (magnitude e). pose proof (k_det _ _ Hk).
  rewrite (s32_id (564 * b_det k)) by (unfold int32; lia). unfold id.
  destruct (e <? 0), (Z.shiftr (564 * b_det k) 12 <=? magnitude e); (eexists; split_and!; [reflexivity|reflexivity|lia|lia|done]).
Qed.

(** ** A code between encoder and decoder *)

Record state_ok (s : G722State) : Prop := {
  s_mode : itu_test_mode s = false;
  s_bits : bits_per_sample s = 6 ∨ bits_per_sample s = 7 ∨ bits_per_sample s = 8;
  s_x : shorts 24 (x s);
  s_low : band_ok 18432 (band0 s);
  s_high : band_ok 22528 (band1 s);
}.

(** The parts of a code as the decoder splits it: the index of the tables of the low band,
    the code of the high band, and the entry for the output. *)
Definition part_ok (bits c : Z) : bool :=
  match split_code bits c with
  | Some (ril, ihigh, q) => (0 <=? ril) && (ril <? 16) && (0 <=? ihigh) && (ihigh <? 4) && (-32768 <=? q) && (q <=? 32767)
  | None => false
  end.
Definition code_ok (bits c : Z) : bool :=
  match split_code bits (Z.shiftr c (8 - bits)) with
  | Some (ril, ihigh, _) => (ril =? Z.shiftr (c mod 64) 2) && (ihigh =? c / 64)
  | None => false
  end.

Lemma split_byte bits c : bits = 6 ∨ bits = 7 ∨ bits = 8 → 0 ≤ c < 256 →
  ∃ ril ihigh q, split_code bits c = Some (ril, ihigh, q) ∧ 0 ≤ ril < 16 ∧ 0 ≤ ihigh < 4 ∧ int16 q.
Proof.
  intros Hb Hc. assert (H : part_ok bits c = true).
  { destruct Hb as [-> | [-> | ->]]; [apply (check_below (part_ok 6) 256)|apply (check_below (part_ok 7) 256)|
      apply (check_below (part_ok 8) 256)]; done || (vm_compute; reflexivity). }
  unfold part_ok in H. destruct (split_code bits c) as [[[ril ihigh] q]|]; [|done].
  exists ril, ihigh, q. unfold int16. split_and!; (done || lia).
Qed.

Lemma split_shifted bits c : bits = 6 ∨ bits = 7 ∨ bits = 8 → 0 ≤ c < 256 →
  ∃ q, split_code bits (Z.shiftr c (8 - bits)) = Some (Z.shiftr (c mod 64) 2, c / 64, q).
Proof.
  intros Hb Hc. assert (H : code_ok bits c = true).
  { destruct Hb as [-> | [-> | ->]]; [apply (check_below (code_ok 6) 256)|apply (check_below (code_ok 7) 256)|
      apply (check_below (code_ok 8) 256)]; done || (vm_compute; reflexivity). }
  unfold code_ok in H. destruct (split_code bits _) as [[[ril ihigh] q]|]; [|done].
  exists q. apply andb_true_iff in H as [H1 H2]. apply Z.eqb_eq in H1 as ->. by apply Z.eqb_eq in H2 as ->.
Qed.

(** The bands after a code: the predictors of both sides take this step. *)
Definition follows (s : G722State) (ril ihigh : Z) (k0 k1 : Band) : Prop :=
  adapt_low s32 (block4_encode s32) (band0 s) ril = Some k0 ∧
  (if eight_k s then k1 = band1 s else adapt_high s32 (block4_encode s32) (band1 s) ihigh = Some k1).

Lemma follows_same s t ril ihigh k0 k1 k0' k1' : follows s ril ihigh k0 k1 → follows t ril ihigh k0' k1' →
  eight_k t = eight_k s → band0 t = band0 s → band1 t = band1 s → k0' = k0 ∧ k1' = k1.
Proof.
  unfold follows. intros [H1 H2] [H3 H4] E E0 E1. rewrite E0 in H3. rewrite E, E1 in H4.
  split; [congruence|]. destruct (eight_k s); congruence.
Qed.

Lemma next_low s ril : state_ok s → 0 ≤ ril < 16 → ∃ k0, band_ok 18432 k0 ∧
  adapt_low s32 (block4_encode s32) (band0 s) ril = Some k0 ∧ adapt_low id (block4_encode id) (band0 s) ril = Some k0.
Proof. intros Hs Hr. destruct (adapt_low_ok (band0 s) ril (s_low _ Hs) Hr) as (k0 & ? & ? & ?). by exists k0. Qed.
Lemma next_high s i : state_ok s → 0 ≤ i < 4 → ∃ k1, band_ok 22528 k1 ∧
  adapt_high s32 (block4_encode s32) (band1 s) i = Some k1 ∧ adapt_high id (block4_encode id) (band1 s) i = Some k1.
Proof. intros Hs Hi. destruct (adapt_high_ok (band1 s) i (s_high _ Hs) Hi) as (k1 & ? & ? & ?). by exists k1. Qed.

(** The two parts of a code make a byte. *)
Definition join_ok (c : Z) : bool := (Z.lor ((c / 64) <<i 6) (c mod 64) =? c) && (Z.lor 0xC0 (c mod 64) =? 192 + c mod 64).
Lemma join_code h l : 0 ≤ h < 4 → 0 ≤ l < 64 → Z.lor (h <<i 6) l = 64 * h + l ∧ Z.lor 0xC0 l = 192 + l.
Proof.
  intros Hh Hl. assert (H : join_ok (64 * h + l) = true) by (apply (check_below join_ok 256); [vm_compute; reflexivity|lia]).
  unfold join_ok in H. replace ((64 * h + l) / 64) with h in H by (Z.to_euclidean_division_equations; lia).
  replace ((64 * h + l) mod 64) with l in H by (Z.to_euclidean_division_equations; lia). lia.
Qed.

(** The two codes of a pair of values. *)
Definition coded (s : G722State) (xlow xhigh ilow ihigh : Z) : Prop :=
  code_low s32 (band0 s) xlow = Some ilow ∧ 0 ≤ ilow < 64 ∧ 0 ≤ ihigh < 4 ∧
  (if eight_k s then ihigh = 3 else code_high s32 (band1 s) xhigh = Some ihigh).

Lemma shr_bits bits c : bits = 6 ∨ bits = 7 ∨ bits = 8 → shr32 c (8 -i bits) = Some (Z.shiftr c (8 - bits)).
Proof. by intros [-> | [-> | ->]]. Qed.

Lemma encode_bands_ok s xlow xhigh : state_ok s → int16 xlow → int16 xhigh →
  agree (λ w, encode_bands w s xlow xhigh) (λ '(s', c), ∃ ilow ihigh k0 k1,
    s' = with_bands s k0 k1 ∧ state_ok s' ∧ coded s xlow xhigh ilow ihigh ∧
    follows s (Z.shiftr ilow 2) ihigh k0 k1 ∧ c = Z.shiftr (64 * ihigh + ilow) (8 - bits_per_sample s)).
Proof.
  intros Hs Hl Hh. destruct (code_low_ok (band0 s) xlow (s_low _ Hs) Hl) as (ilow & E1 & E2 & Hi & _).
  assert (Hr : 0 ≤ Z.shiftr ilow 2 < 16) by clia.
  destruct (next_low s (Z.shiftr ilow 2) Hs Hr) as (k0 & Hk0 & F1 & F2).
  unfold agree, encode_bands. rewrite E1, E2. cbn [mbind option_bind]. rewrite F1, F2. cbn [mbind option_bind].
  destruct (eight_k s) eqn:E8.
  - rewrite !(proj2 (join_code 3 ilow ltac:(lia) Hi)), !(shr_bits _ _ (s_bits _ Hs)). cbn [mbind option_bind].
    eexists. split_and!; [reflexivity|reflexivity|]. exists ilow, 3, k0, (band1 s).
    split_and!; [done|destruct Hs; by split| | |done]; [split_and!; [done|lia|lia|lia|lia|by rewrite E8]|split; [done|by rewrite E8]].
  - destruct (code_high_ok (band1 s) xhigh (s_high _ Hs) Hh) as (ihigh & G1 & G2 & Hj & _).
    destruct (next_high s ihigh Hs Hj) as (k1 & Hk1 & I1 & I2).
    rewrite G1, G2. cbn [mbind option_bind]. rewrite I1, I2. cbn [mbind option_bind].
    rewrite !(proj1 (join_code ihigh ilow Hj Hi)), !(shr_bits _ _ (s_bits _ Hs)). cbn [mbind option_bind].
    eexists. split_and!; [reflexivity|reflexivity|]. exists ilow, ihigh, k0, k1.
    split_and!; [done|destruct Hs; by split| | |done]; [split_and!; [done|lia|lia|lia|lia|by rewrite E8]|split; [done|by rewrite E8]].
Qed.

(** The decoder on any code. *)
Lemma decode_bands_ok t c rhigh : state_ok t → 0 ≤ c < 256 → -16384 ≤ rhigh ≤ 16383 →
  agree (λ w, decode_bands w t c rhigh) (λ '(t', rl, rh), ∃ ril ihigh q k0 k1,
    split_code (bits_per_sample t) c = Some (ril, ihigh, q) ∧ t' = with_bands t k0 k1 ∧ state_ok t' ∧
    follows t ril ihigh k0 k1 ∧ rl = limit (-16384) 16383 (b_s (band0 t) + Z.shiftr (b_det (band0 t) * q) 15) ∧
    -16384 ≤ rh ≤ 16383 ∧
    (if eight_k t then rh = rhigh else
       ∃ q, at_int qm2 ihigh = Some q ∧ rh = limit (-16384) 16383 (Z.shiftr (b_det (band1 t) * q) 15 + b_s (band1 t)))).
Proof.
  intros Ht Hc Hrh. destruct (split_byte _ c (s_bits _ Ht) Hc) as (ril & ihigh & q & Es & Hr & Hi & Hq).
  destruct (next_low t ril Ht Hr) as (k0 & Hk0 & F1 & F2). destruct (next_high t ihigh Ht Hi) as (k1 & Hk1 & I1 & I2).
  pose proof (s_low _ Ht) as Hlow. pose proof (s_high _ Ht) as Hhigh.
  destruct (step_bound (b_det (band0 t)) q (k_det _ _ Hlow) Hq) as [D1 D2].
  unfold agree, decode_bands. rewrite Es. cbn [mbind option_bind].
  rewrite <- !adapt_low_same, F1, F2. cbn [mbind option_bind].
  rewrite D1. pose proof (k_s _ _ Hlow). rewrite (s32_id (b_s (band0 t) + _)) by clia. unfold id at 1 2.
  destruct (eight_k t) eqn:E8.
  - eexists. split_and!; [reflexivity|reflexivity|]. exists ril, ihigh, q, k0, (band1 t).
    split_and!; [done|done|destruct Ht; by split| |done|lia|lia|done]. split; [done|by rewrite E8].
  - destruct (entry_exists qm2 rh2 wh ihigh) as (q2 & _ & _ & E2 & Hq2 & _).
    { apply (check_below (entry_ok qm2 rh2 wh) 4); [reflexivity|lia]. }
    destruct (step_bound (b_det (band1 t)) q2 (k_det _ _ Hhigh) Hq2) as [D3 D4].
    rewrite E2. cbn [mbind option_bind]. rewrite <- !adapt_high_same, I1, I2. cbn [mbind option_bind].
    rewrite D3. pose proof (k_s _ _ Hhigh). rewrite (s32_id (_ + b_s (band1 t))) by clia.
    eexists. split_and!; [reflexivity|reflexivity|]. exists ril, ihigh, q, k0, k1.
    split_and!; [done|done|destruct Ht; by split| |done| | |by exists q2]; [split; [done|by rewrite E8]|..]; by apply limit_range.
Qed.

Lemma code_bound bits h l : bits = 6 ∨ bits = 7 ∨ bits = 8 → 0 ≤ h < 4 → 0 ≤ l < 64 →
  0 ≤ Z.shiftr (64 * h + l) (8 - bits) < 2 ^ bits.
Proof. intros [-> | [-> | ->]] ? ?; [change (8 - 6) with 2|change (8 - 7) with 1|change (8 - 8) with 0; rewrite Z.shiftr_0_r; lia]; clia. Qed.

(** The decoder follows: from the same bands it ends in the same bands, whatever the output. *)
Lemma code_followed s t xlow xhigh s' c rhigh : state_ok s → state_ok t →
  bits_per_sample t = bits_per_sample s → eight_k t = eight_k s → band0 t = band0 s → band1 t = band1 s →
  int16 xlow → int16 xhigh → -16384 ≤ rhigh ≤ 16383 → encode_bands s32 s xlow xhigh = Some (s', c) →
  0 ≤ c < 2 ^ bits_per_sample s ∧
  agree (λ w, decode_bands w t c rhigh) (λ '(t', rl, rh), ∃ k0 k1, s' = with_bands s k0 k1 ∧ t' = with_bands t k0 k1 ∧
    state_ok t' ∧ -16384 ≤ rl ≤ 16383 ∧ -16384 ≤ rh ≤ 16383).
Proof.
  intros Hs Ht Eb E8 E0 E1 Hl Hh Hr E. destruct (encode_bands_ok s xlow xhigh Hs Hl Hh) as ([s1 c1] & F1 & _ & H).
  rewrite E in F1. injection F1 as <- <-. destruct H as (ilow & ihigh & k0 & k1 & -> & Hs' & (_ & Hi & Hj & _) & Hf & ->).
  pose proof (code_bound _ ihigh ilow (s_bits _ Hs) Hj Hi) as Hc. split; [done|].
  assert (Hc8 : 0 ≤ Z.shiftr (64 * ihigh + ilow) (8 - bits_per_sample s) < 256).
  { destruct (s_bits _ Hs) as [Hb | [Hb | Hb]]; rewrite Hb in Hc |- *; lia. }
  destruct (decode_bands_ok t _ rhigh Ht Hc8 Hr) as ([[t' rl] rh] & G1 & G2 & ril & ih & q & k0' & k1' & Es & -> & Ht' & Hf' & -> & Hrh & _).
  exists (with_bands t k0' k1', limit (-16384) 16383 (b_s (band0 t) + Z.shiftr (b_det (band0 t) * q) 15), rh).
  split_and!; [done|done|]. destruct (split_shifted _ (64 * ihigh + ilow) (s_bits _ Hs) ltac:(lia)) as [q' Es'].
  rewrite Eb, Es' in Es. replace ((64 * ihigh + ilow) mod 64) with ilow in Es by (Z.to_euclidean_division_equations; lia).
  replace ((64 * ihigh + ilow) / 64) with ihigh in Es by (Z.to_euclidean_division_equations; lia). injection Es as <- <- _.
  destruct (follows_same _ _ _ _ _ _ _ _ Hf Hf' E8 E0 E1) as [-> ->]. exists k0, k1.
  split_and!; try done; try lia; by apply limit_range.
Qed.

(** ** The error of a code *)

(** Entry [i] of the quantiser of the low band, its output and the two thresholds. *)
Definition level_ok (i : nat) : bool :=
  match q6 !! (i - 1)%nat, q6 !! i, ilp !! i ≫= at_int qm6, iln !! i ≫= at_int qm6 with
  | Some a, Some b, Some p, Some n =>
      (n =? - p) && (8 * a <=? p) && (p <=? 8 * b) && (p - 8 * a <=? 1448) && (8 * b - p <=? 1448)
  | _, _, _, _ => false
  end.

Lemma levels : forallb level_ok (seq 1 29) = true.
Proof. vm_compute. reflexivity. Qed.

Lemma level i : (1 ≤ i ≤ 29)%nat → ∃ a b p, q6 !! (i - 1)%nat = Some a ∧ q6 !! i = Some b ∧
  ilp !! i ≫= at_int qm6 = Some p ∧ iln !! i ≫= at_int qm6 = Some (- p) ∧ p - 8 * a ≤ 1448 ∧ 8 * b - p ≤ 1448.
Proof.
  intros Hi. pose proof (proj1 (forallb_forall _ _) levels i ltac:(apply in_seq; lia)) as H. unfold level_ok in H.
  destruct (q6 !! (i - 1)%nat) as [a|]; [|done]. destruct (q6 !! i) as [b|]; [|done].
  destruct (ilp !! i ≫= at_int qm6) as [p|]; [|done]. destruct (iln !! i ≫= at_int qm6) as [n|]; [|done].
  exists a, b, p. assert (n = - p) as -> by lia. split_and!; (done || lia).
Qed.

(** Between two thresholds, and the output close to both. *)
Lemma level_error e det a b p K : 0 ≤ det → Z.shiftr (a * det) 12 ≤ magnitude e < Z.shiftr (b * det) 12 →
  p - 8 * a ≤ K → 8 * b - p ≤ K →
  32768 * Z.abs (e - Z.shiftr (det * (if e <? 0 then - p else p)) 15) ≤ K * det + 32768.
Proof.
  intros Hd He Ha Hb. rewrite !Z.shiftr_div_pow2 in * by lia. change (2 ^ 12) with 4096 in *. change (2 ^ 15) with 32768.
  assert (det * p - 8 * (a * det) ≤ K * det) by nia. assert (8 * (b * det) - det * p ≤ K * det) by nia.
  assert (E : det * (if e <? 0 then - p else p) = if e <? 0 then - (det * p) else det * p) by (destruct (e <? 0); lia). rewrite E.
  set (A := a * det) in *. set (B := b * det) in *. set (P := det * p) in *. set (L := K * det) in *. clearbody A B P L. clear E Ha Hb.
  unfold magnitude in He. destruct (Z.leb_spec 0 e), (Z.ltb_spec e 0); try lia; Z.to_euclidean_division_equations; lia.
Qed.

Lemma limit_closer v y :
  Z.abs (limit (-16384) 16383 v - limit (-16384) 16383 y) ≤ Z.abs (y - v).
Proof.
  unfold limit. destruct (Z.ltb_spec 16383 v), (Z.ltb_spec v (-16384)), (Z.ltb_spec 16383 y),
    (Z.ltb_spec y (-16384)); lia.
Qed.

Lemma low_error k xlow ilow q : band_ok 18432 k → int16 xlow → code_low s32 k xlow = Some ilow → at_int qm6 ilow = Some q →
  Z.abs (xlow - b_s k) < Z.shiftr (2919 * b_det k) 12 →
  32768 * Z.abs (xlow - (b_s k + Z.shiftr (b_det k * q) 15)) ≤ 1448 * b_det k + 32768.
Proof.
  intros Hk Hx E Eq Hin. pose proof (k_det _ _ Hk) as Hdet.
  destruct (code_low_ok k xlow Hk Hx) as (c & E' & _ & _ & i & [Hi Ec] & H1 & H2). rewrite E in E'. injection E' as <-.
  rewrite saturate_id in * by clia. set (e := xlow - b_s k) in *.
  replace (xlow - (b_s k + Z.shiftr (b_det k * q) 15)) with (e - Z.shiftr (b_det k * q) 15) by (unfold e; lia).
  destruct (decide (i = 30%nat)) as [->|Hi30].
  { pose proof (H2 29%nat 2919 ltac:(lia) eq_refl) as H3. unfold magnitude in H3. destruct (Z.leb_spec 0 e); lia. }
  destruct (level i ltac:(lia)) as (a & b & p & Ea & Eb & Ep & En & Ha & Hb).
  assert (Hm : Z.shiftr (a * b_det k) 12 ≤ magnitude e < Z.shiftr (b * b_det k) 12).
  { split; [|apply H1; [done|lia]]. destruct (decide (i = 1%nat)) as [->|]; [|apply (H2 (i - 1)%nat); [lia|done]].
    injection Ea as <-. rewrite Z.mul_0_l, Z.shiftr_0_l. unfold magnitude. destruct (Z.leb_spec 0 e); lia. }
  pose proof (level_error e (b_det k) a b p 1448 ltac:(lia) Hm Ha Hb) as He.
  destruct (e <? 0); rewrite Ec in *; cbn [mbind option_bind] in *; congruence.
Qed.

Lemma high_error k xhigh ihigh q : band_ok 22528 k → int16 xhigh → code_high s32 k xhigh = Some ihigh → at_int qm2 ihigh = Some q →
  Z.abs (xhigh - b_s k) < Z.shiftr (1288 * b_det k) 12 →
  32768 * Z.abs (xhigh - (Z.shiftr (b_det k * q) 15 + b_s k)) ≤ 2896 * b_det k + 32768.
Proof.
  intros Hk Hx E Eq Hin. pose proof (k_det _ _ Hk) as Hdet.
  destruct (code_high_ok k xhigh Hk Hx) as (c & E' & _ & _ & Ec). rewrite E in E'. injection E' as <-.
  cbv zeta in Ec. rewrite saturate_id in * by clia. set (e := xhigh - b_s k) in *.
  replace (xhigh - (Z.shiftr (b_det k * q) 15 + b_s k)) with (e - Z.shiftr (b_det k * q) 15) by (unfold e; lia).
  assert (Hm : 0 ≤ magnitude e < Z.shiftr (1288 * b_det k) 12) by (unfold magnitude; destruct (Z.leb_spec 0 e); lia).
  destruct (Z.leb_spec (Z.shiftr (564 * b_det k) 12) (magnitude e)).
  - pose proof (level_error e (b_det k) 564 1288 7408 2896 ltac:(lia) ltac:(lia) ltac:(lia) ltac:(lia)) as He.
    destruct (e <? 0); subst ihigh; injection Eq as <-; exact He.
  - pose proof (level_error e (b_det k) 0 564 1616 2896 ltac:(lia)
      ltac:(rewrite Z.mul_0_l, Z.shiftr_0_l; lia) ltac:(lia) ltac:(lia)) as He.
    destruct (e <? 0); subst ihigh; injection Eq as <-; exact He.
Qed.

(** C20: The error of a code at 64 kbit/s and 16 kHz. For encoder and decoder states in the
    range invariant whose predictors agree, any 16-bit values of the two bands, and any
    15-bit value left in the decoder's variable for the high band, the decoder
    takes the code the encoder makes and their predictors agree again. The values it
    restores are as close to those the encoder was given, limited to 15 bits as the
    decoder limits its own, as half a step of the quantisers: 1448/32768 of the
    adaptive step size in the low band and 2896/32768 in the high one, with one unit for
    rounding. This holds for a band as long as its value is within the range of the
    quantiser around the prediction. *)
Theorem g722_accuracy (s t : G722State) (xlow xhigh rhigh : Z) : state_ok s → state_ok t →
  bits_per_sample s = 8 → bits_per_sample t = 8 → eight_k s = false → eight_k t = false →
  band0 t = band0 s → band1 t = band1 s →
  int16 xlow → int16 xhigh → -16384 ≤ rhigh ≤ 16383 →
  ∃ s' c t' rl rh, encode_bands s32 s xlow xhigh = Some (s', c) ∧ decode_bands s32 t c rhigh = Some (t', rl, rh) ∧
    band0 t' = band0 s' ∧ band1 t' = band1 s' ∧
    let low := band0 s in let high := band1 s in
    (Z.abs (xlow - b_s low) < Z.shiftr (2919 * b_det low) 12 →
       32768 * Z.abs (rl - limit (-16384) 16383 xlow) ≤ 1448 * b_det low + 32768) ∧
    (Z.abs (xhigh - b_s high) < Z.shiftr (1288 * b_det high) 12 →
       32768 * Z.abs (rh - limit (-16384) 16383 xhigh) ≤ 2896 * b_det high + 32768).
Proof.
  intros Hs Ht Bs Bt Es8 Et8 E0 E1 Il Ih Hr. pose proof (s_low _ Hs) as Hlow. pose proof (s_high _ Hs) as Hhigh.
  destruct (encode_bands_ok s xlow xhigh Hs Il Ih) as ([s' c] & F1 & _ & ilow & ihigh & k0 & k1 & Es & Hs' & (C1 & C2 & C3 & C4) & Hf & Ec).
  destruct (code_followed s t xlow xhigh s' c rhigh) as [Hc _]; try done; [congruence|congruence|]. rewrite Bs in *.
  destruct (decode_bands_ok t c rhigh Ht ltac:(lia) Hr) as ([[t' rl] rh] & G1 & _ & ril & ih & q & k0' & k1' & Sp & Et & _ & Hf' & Erl & _ & Hq2).
  change (8 - 8) with 0 in Ec. rewrite Z.shiftr_0_r in Ec.
  assert (ril = Z.shiftr ilow 2 ∧ ih = ihigh ∧ at_int qm6 ilow = Some q) as (-> & -> & Eq).
  { destruct (split_shifted 8 (64 * ihigh + ilow) ltac:(lia) ltac:(lia)) as [q' Sp']. change (8 - 8) with 0 in Sp'.
    rewrite Z.shiftr_0_r, <- Ec in Sp'. rewrite Bt in Sp. pose proof Sp as Sp2. rewrite Sp' in Sp2. injection Sp2 as <- <- ->.
    assert (El : c mod 64 = ilow) by (Z.to_euclidean_division_equations; lia). rewrite El.
    split_and!; [done|Z.to_euclidean_division_equations; lia|].
    unfold split_code in Sp. cbn [Z.eqb Pos.eqb] in Sp. change 0x3F with (Z.ones 6) in Sp. rewrite Z.land_ones in Sp by lia.
    change (2 ^ 6) with 64 in Sp. rewrite El in Sp.
    destruct (at_int qm6 ilow); [|done]. cbn in Sp. congruence. }
  destruct (follows_same s t _ _ _ _ _ _ Hf Hf') as [-> ->]; [congruence|done|done|].
  exists s', c, t', rl, rh. subst s' t'. rewrite Es8 in C4. rewrite Et8 in Hq2. destruct Hq2 as (q2 & Eq2 & Erh).
  cbv zeta. split_and!; [done|done|done|done|..]; intros Hin.
  - subst rl. rewrite E0. pose proof (low_error _ _ _ _ Hlow Il C1 Eq Hin).
    pose proof (limit_closer (b_s (band0 s) + Z.shiftr (b_det (band0 s) * q) 15) xlow). lia.
  - subst rh. rewrite E1. pose proof (high_error _ _ _ _ Hhigh Ih C4 Eq2 Hin).
    pose proof (limit_closer (Z.shiftr (b_det (band1 s) * q2) 15 + b_s (band1 s)) xhigh). lia.
Qed.

Lemma cleared_ok top det : 0 ≤ top → 8 ≤ det ≤ 16384 → band_ok top (cleared_band det).
Proof.
  intros Ht Hd. assert (Hz : ∀ n, shorts n (replicate n 0)).
  { intros n. split; [by rewrite length_replicate|]. apply Forall_replicate. unfold int16. lia. }
  unfold cleared_band. split; cbn [b_s b_sp b_sz b_r b_a b_p b_d b_b b_ap b_bp b_sg b_nb b_det];
    solve [apply Hz | unfold int16; lia | by rewrite length_replicate].
Qed.

Lemma init_ok rate options : state_ok (init rate options).
Proof.
  unfold init. split; cbn [itu_test_mode bits_per_sample x band0 band1]; [done| | |by apply cleared_ok|by apply cleared_ok].
  - destruct (rate =? 48000); [lia|]. destruct (rate =? 56000); lia.
  - split; [by rewrite length_replicate|]. apply Forall_replicate. unfold int16. lia.
Qed.

Lemma g722_accuracy_witness : let s := init 64000 2 in
  ∃ s' c t' rl rh, encode_bands s32 s 20 1 = Some (s', c) ∧ decode_bands s32 s c 0 = Some (t', rl, rh) ∧
    band0 t' = band0 s' ∧ band1 t' = band1 s' ∧
    let low := band0 s in let high := band1 s in
    (Z.abs (20 - b_s low) < Z.shiftr (2919 * b_det low) 12 →
       32768 * Z.abs (rl - limit (-16384) 16383 20) ≤ 1448 * b_det low + 32768) ∧
    (Z.abs (1 - b_s high) < Z.shiftr (1288 * b_det high) 12 →
       32768 * Z.abs (rh - limit (-16384) 16383 1) ≤ 2896 * b_det high + 32768).
Proof. apply (g722_accuracy (init 64000 2) (init 64000 2) 20 1 0); done || apply init_ok || lia || (unfold int16; lia). Defined.

End G722.
