(* ===== verification/G722Stream.v ===== *)
(** The G.722 codec: sequences of calls. What a decoder restores from the bytes of an encoder,
    with one code to a byte or with the codes packed, however the signal is cut into
    blocks and the bytes into chunks. *)

From S2P Require Import Prelude G722.
Import G722.

Module G722Stream.

(** ** Sessions *)

(** All calls have an output array [junk] with arbitrary contents. *)
Fixpoint encode_all (w : Z → Z) (junk : list Z) (s : G722State) (blocks : list (list Z))
  : option (G722State * list Z) :=
  match blocks with
  | [] => Some (s, [])
  | b :: blocks =>
      '(s, data, n) ← encode w s junk b (length b);
      '(s, bytes) ← encode_all w junk s blocks;
      Some (s, take n data ++ bytes)
  end.

Fixpoint decode_all (w : Z → Z) (junk : list Z) (t : G722State) (chunks : list (list Z))
  : option (G722State * list Z) :=
  match chunks with
  | [] => Some (t, [])
  | c :: chunks =>
      '(t, amp, n) ← decode w t junk c (length c);
      '(t, samples) ← decode_all w junk t chunks;
      Some (t, take n amp ++ samples)
  end.

(** The samples of a code. *)
Definition step (s : G722State) : nat := if eight_k s then 1 else 2.

(** ** Packed codes *)

(** The number with the given digits of [B] bits, the first one the lowest. *)
Fixpoint number (B : Z) (l : list Z) : Z :=
  match l with [] => 0 | c :: l => c + 2 ^ B * number B l end.

Definition digits (B : Z) (l : list Z) : Prop := Forall (λ c, 0 ≤ c < 2 ^ B) l.

Section number.
Context (B : Z) (HB : 0 < B).

Lemma number_app l m : number B (l ++ m) = number B l + 2 ^ (B * Z.of_nat (length l)) * number B m.
Proof using HB.
  induction l as [|c l IH]; cbn [number app length]; [rewrite Z.mul_0_r; lia|].
  rewrite IH. replace (B * Z.of_nat (S (length l))) with (B + B * Z.of_nat (length l)) by lia.
  rewrite Z.pow_add_r by lia. lia.
Qed.

Lemma number_bound l : digits B l → 0 ≤ number B l < 2 ^ (B * Z.of_nat (length l)).
Proof using HB.
  induction l as [|c l IH]; intros H; cbn [number length]; [rewrite Z.mul_0_r; lia|].
  apply Forall_cons_1 in H as [Hc Hl]. specialize (IH Hl).
  replace (B * Z.of_nat (S (length l))) with (B + B * Z.of_nat (length l)) by lia.
  rewrite Z.pow_add_r by lia. pose proof (Z.pow_pos_nonneg 2 B ltac:(lia) ltac:(lia)). nia.
Qed.

(** The digits of a number are determined. *)
Lemma number_inj l : ∀ m u v, digits B l → digits B m → length l = length m →
  number B l + 2 ^ (B * Z.of_nat (length l)) * u = number B m + 2 ^ (B * Z.of_nat (length l)) * v → l = m.
Proof using HB.
  induction l as [|c l IH]; intros [|d m] u v Hl Hm Hlen E; try done.
  apply Forall_cons_1 in Hl as [Hc Hl], Hm as [Hd Hm]. cbn [number length] in *.
  replace (B * Z.of_nat (S (length l))) with (B + B * Z.of_nat (length l)) in E by lia.
  rewrite Z.pow_add_r in E by lia. pose proof (Z.pow_pos_nonneg 2 B ltac:(lia) ltac:(lia)) as Hp.
  set (P := 2 ^ B) in *. set (Q := 2 ^ (B * Z.of_nat (length l))) in *.
  assert (E' : c + P * (number B l + Q * u) = d + P * (number B m + Q * v)) by (rewrite !Z.mul_add_distr_l, !Z.mul_assoc, !Z.add_assoc; exact E).
  assert (c = d ∧ number B l + Q * u = number B m + Q * v) as [-> E2].
  { set (X := number B l + Q * u) in *. set (Y := number B m + Q * v) in *. clearbody X Y P. clear - E' Hc Hd.
    destruct (Z.lt_trichotomy X Y) as [H|[H|H]]; [|subst X; lia|]; exfalso; nia. }
  f_equal. apply (IH m u v); try done. lia.
Qed.

End number.

(** What the encoder has put out of its codes [cs]: the bytes [bs], and the bits it keeps. *)
Record put (pk : bool) (B buffer bits : Z) (cs bs : list Z) : Prop := {
  put_codes : digits B cs;
  put_bytes : digits 8 bs;
  put_plain : pk = false → bs = cs ∧ bits = 0;
  put_packed : pk = true → 0 ≤ bits < 8 ∧ 0 ≤ buffer < 2 ^ bits ∧
    B * Z.of_nat (length cs) = 8 * Z.of_nat (length bs) + bits ∧
    number B cs = number 8 bs + 2 ^ (8 * Z.of_nat (length bs)) * buffer;
}.

Lemma put_code_ok s c data n cs bs : bits_per_sample s = 6 ∨ bits_per_sample s = 7 ∨ bits_per_sample s = 8 →
  put (packed s) (bits_per_sample s) (out_buffer s) (out_bits s) cs bs → 0 ≤ c < 2 ^ bits_per_sample s →
  (n < length data)%nat → ∃ buffer bits data' new,
    put_code s c data n = Some (with_out s buffer bits, data', n + length new)%nat ∧
    put (packed s) (bits_per_sample s) buffer bits (cs ++ [c]) (bs ++ new) ∧
    length data' = length data ∧ (length new ≤ 1)%nat ∧ take (n + length new) data' = take n data ++ new.
Proof.
  intros HB [Pc Pb Pp Pk] Hc Hn. unfold put_code.
  assert (Hc8 : 0 ≤ c < 256) by (destruct HB as [E | [E | E]]; rewrite E in Hc; lia).
  assert (Hcs : digits (bits_per_sample s) (cs ++ [c])).
  { apply Forall_app. split; [done|]. apply Forall_cons_2; [done|by apply Forall_nil_2]. }
  assert (Htake : ∀ v, take (n + 1) (<[n:=v]> data) = take n data ++ [v]).
  { intros v. rewrite Nat.add_1_r. rewrite (take_S_r _ _ v) by (rewrite list_lookup_insert_eq by lia; done). by rewrite take_insert_ge by lia. }
  destruct (packed s) eqn:Ek.
  - destruct (Pk eq_refl) as (Hbits & Hbuf & Elen & Enum). clear Pk Pp.
    assert (HB' : 6 ≤ bits_per_sample s ≤ 8) by lia. assert (Hp : 0 < 2 ^ out_bits s ≤ 128).
    { split; [apply Z.pow_pos_nonneg; lia|]. change 128 with (2 ^ 7). apply Z.pow_le_mono_r; lia. }
    unfold shlu32. rewrite (proj2 (Z.leb_le 0 _)), (proj2 (Z.ltb_lt _ 32)) by lia. cbn [andb mbind option_bind].
    assert (0 ≤ c * 2 ^ out_bits s < 65536) by nia. rewrite u32_id by (rewrite Z.shiftl_mul_pow2 by lia; unfold uint32; lia).
    rewrite Z.lor_comm, lor_shiftl by lia. rewrite (s32_id (out_bits s + _)) by (unfold int32; lia).
    set (v := c * 2 ^ out_bits s + out_buffer s). set (m := out_bits s + bits_per_sample s).
    assert (Hv : 0 ≤ v < 2 ^ m).
    { unfold v, m. rewrite Z.pow_add_r by lia. nia. }
    assert (Elen' : bits_per_sample s * Z.of_nat (length (cs ++ [c])) = 8 * Z.of_nat (length bs) + m)
      by (rewrite length_app; cbn [length]; lia).
    assert (Enum' : number (bits_per_sample s) (cs ++ [c]) = number 8 bs + 2 ^ (8 * Z.of_nat (length bs)) * v).
    { rewrite number_app by lia. rewrite Elen, Enum. unfold v. cbn [number]. rewrite Z.mul_0_r, Z.add_0_r.
      rewrite Z.pow_add_r by lia. lia. }
    assert (Hm : 0 ≤ m < 16) by lia. clearbody v m. destruct (Z.leb_spec 8 m) as [Hm8|Hm8].
    + rewrite wr_lt by done. cbn [mbind option_bind]. change 0xFF with (Z.ones 8). rewrite Z.land_ones by lia.
      rewrite (s32_id (m - 8)) by (unfold int32; lia). rewrite Z.shiftr_div_pow2 by lia. change (2 ^ 8) with 256.
      pose proof (Z.mod_pos_bound v 256 ltac:(lia)) as Hb. unfold u8. rewrite (Z.mod_small (v mod 256)) by lia.
      exists (v / 256), (m - 8), (<[n:=v mod 256]> data), [v mod 256]. split_and!; [by cbn [length]; rewrite Nat.add_1_r| |by rewrite length_insert|done|apply Htake].
      split; [done| |done|intros _].
      { apply Forall_app. split; [done|]. apply Forall_cons_2; [change (2 ^ 8) with 256; lia|by apply Forall_nil_2]. }
      rewrite Elen', (length_app bs). cbn [length]. split_and!; [lia|lia|apply Z.div_pos; lia| |lia|].
      * apply Z.div_lt_upper_bound; [lia|]. change 256 with (2 ^ 8). rewrite <- Z.pow_add_r by lia. replace (8 + (m - 8)) with m by lia. lia.
      * rewrite Enum'. rewrite number_app by lia. cbn [number]. rewrite Z.mul_0_r, Z.add_0_r.
        replace (8 * Z.of_nat (length bs + 1)) with (8 * Z.of_nat (length bs) + 8) by lia. rewrite Z.pow_add_r by lia.
        pose proof (Z.div_mod v 256 ltac:(lia)). change (2 ^ 8) with 256. nia.
    + exists v, m, data, []. rewrite Nat.add_0_r, app_nil_r. rewrite app_nil_r. split_and!; [done| |done|cbn; lia|done].
      split; [done|done|done|intros _]. by split_and!; [lia|lia|lia|lia|..].
  - destruct (Pp eq_refl) as [-> Eb]. rewrite wr_lt by done. cbn [mbind option_bind]. unfold u8. rewrite (Z.mod_small c) by lia.
    exists (out_buffer s), (out_bits s), (<[n:=c]> data), [c]. split_and!; [by destruct s; cbn [length]; rewrite Nat.add_1_r| |by rewrite length_insert|done|apply Htake].
    split; [done| |done|done]. apply Forall_app. split; [done|]. apply Forall_cons_2; [change (2 ^ 8) with 256; lia|by apply Forall_nil_2].
Qed.

(** What the decoder has taken: the codes [ds] from the bytes [bs], and the bits it keeps. *)
Record taken (pk : bool) (B buffer bits : Z) (ds bs : list Z) : Prop := {
  taken_plain : pk = false → ds = bs;
  taken_packed : pk = true → digits B ds ∧ 0 ≤ bits < 8 ∧ 0 ≤ buffer < 2 ^ bits ∧
    8 * Z.of_nat (length bs) = B * Z.of_nat (length ds) + bits ∧
    number 8 bs = number B ds + 2 ^ (B * Z.of_nat (length ds)) * buffer;
}.

(** A code taken from bits that suffice. *)
Lemma take_bits B v m ds bs : 6 ≤ B ≤ 8 → digits B ds → B ≤ m < 15 → 0 ≤ v < 2 ^ m →
  8 * Z.of_nat (length bs) = B * Z.of_nat (length ds) + m →
  number 8 bs = number B ds + 2 ^ (B * Z.of_nat (length ds)) * v → m - B < 8 →
  taken true B (v / 2 ^ B) (m - B) (ds ++ [v mod 2 ^ B]) bs.
Proof.
  intros HB Hd Hm Hv Elen Enum Hlt. assert (Hp : 0 < 2 ^ B) by (apply Z.pow_pos_nonneg; lia).
  pose proof (Z.mod_pos_bound v (2 ^ B) Hp) as Hb. split; [done|intros _]. rewrite length_app. cbn [length].
  split_and!; [|lia|lia|apply Z.div_pos; lia| |lia|].
  - apply Forall_app. split; [done|]. apply Forall_cons_2; [done|by apply Forall_nil_2].
  - apply Z.div_lt_upper_bound; [lia|]. rewrite <- Z.pow_add_r by lia. replace (B + (m - B)) with m by lia. lia.
  - rewrite Enum. rewrite number_app by lia. cbn [number]. rewrite Z.mul_0_r, Z.add_0_r.
    replace (B * Z.of_nat (length ds + 1)) with (B * Z.of_nat (length ds) + B) by lia. rewrite Z.pow_add_r by lia.
    pose proof (Z.div_mod v (2 ^ B) ltac:(lia)). nia.
Qed.

(** The last lines of the case for packed codes. *)
Lemma mask_bits B v m : B = 6 ∨ B = 7 ∨ B = 8 → 0 ≤ v < 2 ^ m → B ≤ m < 15 →
  (top ← shl32 1 B; rest ← shr32 v B; Some (rest, m -i B, s32 (Z.land v (u32 (top -i 1))))) =
  Some (v / 2 ^ B, m - B, v mod 2 ^ B).
Proof.
  intros HB Hv Hm. assert (H15 : 2 ^ m ≤ 2 ^ 15) by (apply Z.pow_le_mono_r; lia). change (2 ^ 15) with 32768 in H15.
  assert (Hland : Z.land v (2 ^ B - 1) = v mod 2 ^ B).
  { rewrite <- Z.land_ones by lia. f_equal. rewrite Z.ones_equiv. lia. }
  assert (Hmod : 0 ≤ v mod 2 ^ B ≤ v) by (split; [apply Z.mod_pos_bound; lia|apply Z.mod_le; lia]).
  assert (E1 : shl32 1 B = Some (2 ^ B) ∧ u32 (2 ^ B -i 1) = 2 ^ B - 1) by (by destruct HB as [-> | [-> | ->]]).
  destruct E1 as [-> E1]. cbn [mbind option_bind]. rewrite E1, Hland. unfold shr32.
  rewrite (proj2 (Z.leb_le 0 _)), (proj2 (Z.ltb_lt _ 32)) by lia. cbn [andb mbind option_bind].
  rewrite Z.shiftr_div_pow2 by lia. rewrite (s32_id (m - B)), (s32_id (v mod _)) by (unfold int32; lia). done.
Qed.

Lemma take_code_ok t data j ds bs : bits_per_sample t = 6 ∨ bits_per_sample t = 7 ∨ bits_per_sample t = 8 →
  taken (packed t) (bits_per_sample t) (in_buffer t) (in_bits t) ds bs → digits 8 data → (j < length data)%nat →
  ∃ buffer bits c j', take_code t data j = Some (with_in t buffer bits, c, j') ∧ (j ≤ j' ≤ S j)%nat ∧ 0 ≤ c < 256 ∧
    taken (packed t) (bits_per_sample t) buffer bits (ds ++ [c]) (bs ++ take (j' - j) (drop j data)) ∧
    (packed t = true → 8 * Z.of_nat (j' - j) + in_bits t = bits_per_sample t + bits) ∧ (packed t = false → j' = S j).
Proof.
  intros HB [Tp Tk] Hd Hj. unfold take_code.
  destruct (lookup_lt_is_Some_2 data j Hj) as [b Eb]. assert (Hb : 0 ≤ b < 256) by exact (Forall_lookup_1 _ _ _ _ Hd Eb).
  assert (E1 : take (S j - j) (drop j data) = [b]).
  { replace (S j - j)%nat with 1%nat by lia. by rewrite (drop_S data b j Eb). }
  destruct (packed t) eqn:Ek.
  - destruct (Tk eq_refl) as (Hds & Hbits & Hbuf & Elen & Enum). clear Tp Tk. set (B := bits_per_sample t) in *.
    assert (HB' : 6 ≤ B ≤ 8) by lia.
    assert (Hget : ∃ v m j', (if in_bits t <? B then v ← data !! j; v ← shl32 v (in_bits t);
        Some (Z.lor (in_buffer t) (u32 v), in_bits t +i 8, S j) else Some (in_buffer t, in_bits t, j)) = Some (v, m, j') ∧
      (j ≤ j' ≤ S j)%nat ∧ B ≤ m < 15 ∧ m - B < 8 ∧ 0 ≤ v < 2 ^ m ∧ 8 * Z.of_nat (j' - j) + in_bits t = m ∧
      8 * Z.of_nat (length (bs ++ take (j' - j) (drop j data))) = B * Z.of_nat (length ds) + m ∧
      number 8 (bs ++ take (j' - j) (drop j data)) = number B ds + 2 ^ (B * Z.of_nat (length ds)) * v).
    { destruct (Z.ltb_spec (in_bits t) B) as [Hlt|Hge].
      - assert (Hp : 0 < 2 ^ in_bits t ≤ 128).
        { split; [apply Z.pow_pos_nonneg; lia|]. change 128 with (2 ^ 7). apply Z.pow_le_mono_r; lia. }
        rewrite Eb. cbn [mbind option_bind]. unfold shl32. rewrite (proj2 (Z.leb_le 0 _)), (proj2 (Z.ltb_lt _ 32)) by lia.
        cbn [andb mbind option_bind]. assert (0 ≤ b * 2 ^ in_bits t < 65536) by (clear - Hb Hp; nia).
        rewrite s32_id by (rewrite Z.shiftl_mul_pow2 by lia; unfold int32; lia).
        rewrite u32_id by (rewrite Z.shiftl_mul_pow2 by lia; unfold uint32; lia). rewrite Z.lor_comm, lor_shiftl by lia.
        rewrite (s32_id (in_bits t + 8)) by (unfold int32; lia).
        exists (b * 2 ^ in_bits t + in_buffer t), (in_bits t + 8), (S j). rewrite E1, length_app. cbn [length].
        split_and!; try done; try lia; [rewrite Z.pow_add_r by lia; change (2 ^ 8) with 256; clear - Hb Hp Hbuf; nia|].
        rewrite number_app by lia. rewrite Elen, Enum. cbn [number]. rewrite Z.pow_add_r by lia. lia.
      - exists (in_buffer t), (in_bits t), j. rewrite Nat.sub_diag, take_0, app_nil_r. split_and!; try done; lia. }
    destruct Hget as (v & m & j' & -> & Hj' & Hm & Hm8 & Hv & Em & L' & N'). cbn [mbind option_bind].
    pose proof (mask_bits B v m HB Hv Hm) as Hmask.
    destruct (shl32 1 B) as [top|]; [|done]. cbn [mbind option_bind] in Hmask |- *.
    destruct (shr32 v B) as [rest|]; [|done]. cbn [mbind option_bind] in Hmask |- *. injection Hmask as -> -> ->.
    exists (v / 2 ^ B), (m - B), (v mod 2 ^ B), j'. split_and!; [done|lia|lia| | |by apply take_bits|lia|done].
    + apply Z.mod_pos_bound. apply Z.pow_pos_nonneg; lia.
    + pose proof (Z.mod_pos_bound v (2 ^ B) ltac:(apply Z.pow_pos_nonneg; lia)).
      assert (2 ^ B ≤ 2 ^ 8) by (apply Z.pow_le_mono_r; lia). change (2 ^ 8) with 256 in *. lia.
  - rewrite Eb. cbn [mbind option_bind]. exists (in_buffer t), (in_bits t), b, (S j). rewrite E1, (Tp eq_refl).
    split_and!; [by destruct t|lia|lia|lia|lia|by split|done|done].
Qed.

(** The codes taken are the codes put. *)
Lemma taken_put pk B ob obits cs bs bs' ib ibits ds : 0 < B → put pk B ob obits cs (bs ++ bs') → taken pk B ib ibits ds bs →
  ds = take (length ds) cs ∧ (length ds ≤ length cs)%nat.
Proof.
  intros HB [Pc Pb Pp Pk] [Tp Tk]. destruct pk.
  - destruct (Pk eq_refl) as (Ho & _ & E1 & E2), (Tk eq_refl) as (Hd & Hi & _ & E3 & E4). clear Pk Tk Pp Tp.
    assert (Hle : (length ds ≤ length cs)%nat) by (rewrite length_app in E1; apply Nat2Z.inj_le, (Z.mul_le_mono_pos_l _ _ B); lia).
    split; [|done].
    rewrite number_app, E4 in E2 by lia. rewrite <- (take_drop (length ds) cs), number_app in E2 by lia.
    rewrite length_take_le in E2 by done. set (n := B * Z.of_nat (length ds)) in *.
    rewrite length_app in E2. assert (Hn : n ≤ 8 * Z.of_nat (length bs)) by lia.
    replace (8 * Z.of_nat (length bs)) with (n + (8 * Z.of_nat (length bs) - n)) in E2 by lia.
    replace (8 * Z.of_nat (length bs + length bs')) with (n + (8 * Z.of_nat (length bs + length bs') - n)) in E2 by lia.
    rewrite !Z.pow_add_r in E2 by lia.
    eapply (number_inj B HB ds (take (length ds) cs)
      (ib + 2 ^ (8 * Z.of_nat (length bs) - n) * number 8 bs' + 2 ^ (8 * Z.of_nat (length bs + length bs') - n) * ob)
      (number B (drop (length ds) cs))); [done|by apply Forall_take|by rewrite length_take_le|].
    fold n. lia.
  - destruct (Pp eq_refl) as [<- _]. rewrite (Tp eq_refl). split; [by rewrite take_app_length|rewrite length_app; lia].
Qed.

(** ** The codes of a signal *)

Definition code_step (w : Z → Z) (s : G722State) (amp : list Z) (j : nat) (xhigh : Z)
  : option (G722State * Z * nat * Z) :=
  '(s, xlow, xhigh, j) ← next_bands w s amp j xhigh;
  '(s, c) ← encode_bands w s xlow xhigh;
  Some (s, c, j, xhigh).

(** The next [n] codes, without output. *)
Fixpoint codes (n : nat) (s : G722State) (amp : list Z) (j : nat) : option (G722State * list Z) :=
  match n with
  | O => Some (s, [])
  | S n =>
      '(s', c, _, _) ← code_step s32 s amp j 0;
      '(s', cs) ← codes n s' amp (j + step s);
      Some (s', c :: cs)
  end.

Definition has_samples (amp : list Z) (j n : nat) : Prop := ∀ i, (i < n)%nat → ∃ v, amp !! (j + i)%nat = Some v ∧ int16 v.

Lemma encode_bands_out w s a b xlow xhigh : encode_bands w (with_out s a b) xlow xhigh =
  ('(s', c) ← encode_bands w s xlow xhigh; Some (with_out s' a b, c)).
Proof.
  unfold encode_bands. cbn [band0 band1 eight_k bits_per_sample with_out].
  destruct (code_low w (band0 s) xlow); [|done]. cbn [mbind option_bind].
  destruct (adapt_low w (block4_encode w) (band0 s) _); [|done]. cbn [mbind option_bind].
  destruct (eight_k s).
  - by destruct (shr32 _ _).
  - destruct (code_high w (band1 s) xhigh); [|done]. cbn [mbind option_bind].
    destruct (adapt_high w (block4_encode w) (band1 s) _); [|done]. cbn [mbind option_bind]. by destruct (shr32 _ _).
Qed.

(** One code: the values of the bands it is made from, and the same in any stream. *)
Lemma code_step_ok s amp j : state_ok s → has_samples amp j (step s) →
  ∃ s1 l h s' c, state_ok s1 ∧ (∃ l, s1 = with_x s l) ∧ int16 l ∧ int16 h ∧ encode_bands s32 s1 l h = Some (s', c) ∧
    encode_bands id s1 l h = Some (s', c) ∧
    (∃ xhigh', code_step s32 s amp j 0 = Some (s', c, j + step s, xhigh')%nat) ∧
    ∀ a b xhigh, int16 xhigh → ∃ xhigh', int16 xhigh' ∧
      code_step s32 (with_out s a b) amp j xhigh = Some (with_out s' a b, c, j + step s, xhigh')%nat ∧
      code_step id (with_out s a b) amp j xhigh = Some (with_out s' a b, c, j + step s, xhigh')%nat.
Proof.
  intros Hs Hsig. unfold code_step, next_bands, step in *. cbn [itu_test_mode eight_k with_out]. rewrite !(s_mode _ Hs).
  destruct (Hsig 0%nat ltac:(destruct (eight_k s); lia)) as (v1 & E1 & H1). rewrite Nat.add_0_r in E1. rewrite !E1.
  destruct (eight_k s) eqn:E8; cbn [mbind option_bind].
  - assert (Hl : int16 (Z.shiftr v1 1)) by clia.
    destruct (encode_bands_ok s (Z.shiftr v1 1) 0 Hs Hl ltac:(unfold int16; lia)) as ([s' c] & F1 & F2 & _).
    exists s, (Z.shiftr v1 1), 0, s', c. rewrite Nat.add_1_r.
    assert (Ex : ∀ w xh, encode_bands w s (Z.shiftr v1 1) xh = encode_bands w s (Z.shiftr v1 1) 0)
      by (intros w xh; unfold encode_bands; by rewrite E8).
    rewrite F1. cbn [mbind option_bind].
    split_and!; [done|exists (x s); by destruct s|done|unfold int16; lia|done|done|by eexists|].
    intros a b xh Hx. exists xh. rewrite !encode_bands_out, (Ex s32 xh), (Ex id xh), F1, F2. cbn [mbind option_bind]. done.
  - destruct (Hsig 1%nat ltac:(lia)) as (v2 & E2 & H2). rewrite Nat.add_1_r in E2. rewrite !E2. cbn [mbind option_bind x with_out].
    destruct (shift_x_ok (x s) v1 v2 (s_x _ Hs) H1 H2) as (l & -> & Hl). cbn [mbind option_bind].
    destruct (qmf_ok l Hl) as ([o e] & -> & -> & Ho & He). cbn [mbind option_bind].
    change (id (e + o)) with (e + o). change (id (e - o)) with (e - o).
    rewrite !(s32_id (e + o)), !(s32_id (e - o)) by (unfold int32; lia).
    assert (Hs1 : state_ok (with_x s l)) by (destruct Hs; by split).
    assert (Hlow : int16 (Z.shiftr (e + o) 14)) by clia. assert (Hhigh : int16 (Z.shiftr (e - o) 14)) by clia.
    destruct (encode_bands_ok (with_x s l) _ _ Hs1 Hlow Hhigh) as ([s' c] & F1 & F2 & _).
    exists (with_x s l), (Z.shiftr (e + o) 14), (Z.shiftr (e - o) 14), s', c. replace (j + 2)%nat with (S (S j)) by lia.
    rewrite F1. cbn [mbind option_bind].
    split_and!; [done|by exists l|done|done|done|done|by eexists|].
    intros a b xh Hx. exists (Z.shiftr (e - o) 14). change (with_x (with_out s a b) l) with (with_out (with_x s l) a b).
    rewrite !encode_bands_out, F1, F2. cbn [mbind option_bind]. done.
Qed.

(** What a code does not change. *)
Record same_mode (s t : G722State) : Prop := {
  m_packed : packed t = packed s; m_eight : eight_k t = eight_k s; m_bits : bits_per_sample t = bits_per_sample s;
}.

Lemma same_mode_refl s : same_mode s s.
Proof. by split. Qed.
Lemma same_mode_trans s t u : same_mode s t → same_mode t u → same_mode s u.
Proof. intros [] []. split; congruence. Qed.

Lemma encode_bands_mode s xlow xhigh s' c : state_ok s → int16 xlow → int16 xhigh → encode_bands s32 s xlow xhigh = Some (s', c) →
  state_ok s' ∧ same_mode s s' ∧ 0 ≤ c < 2 ^ bits_per_sample s ∧
  out_buffer s' = out_buffer s ∧ out_bits s' = out_bits s.
Proof.
  intros Hs Hl Hh E. destruct (encode_bands_ok s xlow xhigh Hs Hl Hh) as ([s1 c1] & E1 & _ & il & ih & k0 & k1 & Es & Hs' & (_ & Hi & Hj & _) & _ & Ec).
  rewrite E in E1. injection E1 as <- <-. subst s'. split_and!; [done|by split|..]; try done; rewrite Ec; by apply code_bound; [apply s_bits|..].
Qed.

Lemma has_samples_cut amp j n k : has_samples amp j (n + k) → has_samples amp j n ∧ has_samples amp (j + n) k.
Proof.
  intros H. split; intros i Hi; [apply H; lia|]. destruct (H (n + i)%nat ltac:(lia)) as (v & E & Hv). exists v.
  split; [|done]. by rewrite <- Nat.add_assoc.
Qed.

Lemma same_step s t : same_mode s t → step t = step s.
Proof. intros []. unfold step. by rewrite m_eight0. Qed.

(** One step of [codes]. *)
Lemma codes_step s amp j : state_ok s → has_samples amp j (step s) →
  ∃ s' c, state_ok s' ∧ same_mode s s' ∧ 0 ≤ c < 2 ^ bits_per_sample s ∧
    (∃ xhigh', code_step s32 s amp j 0 = Some (s', c, j + step s, xhigh')%nat) ∧
    (∀ n, codes (S n) s amp j = ('(s', cs) ← codes n s' amp (j + step s)%nat; Some (s', c :: cs))) ∧
    (∀ t rhigh, state_ok t → same_mode s t → band0 t = band0 s → band1 t = band1 s → -16384 ≤ rhigh ≤ 16383 →
      agree (λ w, decode_bands w t c rhigh) (λ '(t', rl, rh), state_ok t' ∧ (∃ k0 k1, t' = with_bands t k0 k1) ∧
        band0 t' = band0 s' ∧ band1 t' = band1 s' ∧ -16384 ≤ rl ≤ 16383 ∧ -16384 ≤ rh ≤ 16383)) ∧
    ∀ a b xhigh, int16 xhigh → ∃ xhigh', int16 xhigh' ∧
      code_step s32 (with_out s a b) amp j xhigh = Some (with_out s' a b, c, j + step s, xhigh')%nat ∧
      code_step id (with_out s a b) amp j xhigh = Some (with_out s' a b, c, j + step s, xhigh')%nat.
Proof.
  intros Hs Hsig. destruct (code_step_ok s amp j Hs Hsig) as (s1 & l & h & s' & c & Hs1 & [x1 ->] & Hl & Hh & E1 & E2 & [xh E3] & Hout).
  destruct (encode_bands_mode _ _ _ _ _ Hs1 Hl Hh E1) as (Hs' & Hm & Hc & _ & _).
  exists s', c. split; [done|]. split; [|split; [exact Hc|split_and!]].
  - destruct Hm as [M1 M2 M3]. split; [exact M1|exact M2|exact M3].
  - by exists xh.
  - intros n. cbn [codes]. by rewrite E3.
  - intros t rhigh Ht [M1 M2 M3] B0 B1 Hr.
    destruct (code_followed (with_x s x1) t l h s' c rhigh) as (_ & [[t' rl] rh] & G1 & G2 & k0 & k1 & -> & -> & Ht' & Hrl & Hrh); try done.
    exists (with_bands t k0 k1, rl, rh). split_and!; first [done | by exists k0, k1 | lia].
  - exact Hout.
Qed.

Lemma codes_ok n : ∀ s amp j, state_ok s → has_samples amp j (n * step s) →
  ∃ s' cs, codes n s amp j = Some (s', cs) ∧ state_ok s' ∧ same_mode s s' ∧ length cs = n ∧ digits (bits_per_sample s) cs.
Proof.
  induction n as [|n IH]; intros s amp j Hs Hsig.
  { exists s, []. split_and!; [done|done|apply same_mode_refl|done|by apply Forall_nil_2]. }
  apply has_samples_cut in Hsig as [H1 H2].
  destruct (codes_step s amp j Hs H1) as (s1 & c & Hs1 & Hm & Hc & _ & E & _). rewrite <- (same_step _ _ Hm) in H2.
  destruct (IH s1 amp _ Hs1 H2) as (s2 & cs & E2 & Hs2 & Hm2 & Hl & Hd). rewrite (same_step _ _ Hm) in E2.
  exists s2, (c :: cs). rewrite E, E2. cbn [mbind option_bind].
  split_and!; [done|done|by eapply same_mode_trans|cbn; lia|]. apply Forall_cons_2; [done|]. by rewrite (m_bits _ _ Hm) in Hd.
Qed.

Lemma codes_app n m : ∀ s amp j, state_ok s → has_samples amp j ((n + m) * step s) →
  codes (n + m) s amp j = ('(s1, cs1) ← codes n s amp j; '(s2, cs2) ← codes m s1 amp (j + n * step s)%nat; Some (s2, cs1 ++ cs2)).
Proof.
  induction n as [|n IH]; intros s amp j Hs Hsig; cbn [Nat.add].
  { cbn [codes mbind option_bind Nat.mul]. rewrite Nat.add_0_r. by destruct (codes m s amp j) as [[]|]. }
  cbn [Nat.mul Nat.add] in Hsig. apply has_samples_cut in Hsig as [H1 H2].
  destruct (codes_step s amp j Hs H1) as (s1 & c & Hs1 & Hm & _ & _ & E & _). rewrite !E. rewrite <- (same_step _ _ Hm) in H2.
  rewrite <- (same_step _ _ Hm) at 1. rewrite IH by done. rewrite (same_step _ _ Hm).
  destruct (codes n s1 amp (j + step s)) as [[s2 cs1]|]; [|done]. cbn [mbind option_bind].
  replace (j + S n * step s)%nat with (j + step s + n * step s)%nat by lia.
  by destruct (codes m s2 amp _) as [[]|].
Qed.

(** The codes depend on the samples only. *)
Lemma codes_ext n : ∀ s amp amp' j j', state_ok s → has_samples amp j (n * step s) →
  (∀ i, (i < n * step s)%nat → amp' !! (j' + i)%nat = amp !! (j + i)%nat) → codes n s amp' j' = codes n s amp j.
Proof.
  induction n as [|n IH]; intros s amp amp' j j' Hs Hsig He; [done|].
  cbn [Nat.mul] in Hsig, He. apply has_samples_cut in Hsig as [H1 H2].
  destruct (codes_step s amp j Hs H1) as (s1 & c & Hs1 & Hm & _ & [xh Ec] & E & _). rewrite E. cbn [codes].
  assert (Es : code_step s32 s amp' j' 0 = ('(a, b, _, d) ← code_step s32 s amp j 0; Some (a, b, (j' + step s)%nat, d))).
  { unfold code_step, next_bands. rewrite (s_mode _ Hs). pose proof (He 0%nat) as G0. pose proof (He 1%nat) as G1.
    rewrite !Nat.add_0_r in G0. rewrite !Nat.add_1_r in G1. unfold step in *. destruct (eight_k s).
    - rewrite G0 by lia. destruct (amp !! j); [|done]. cbn [mbind option_bind]. rewrite Nat.add_1_r.
      by destruct (encode_bands s32 s _ 0) as [[]|].
    - rewrite G0, G1 by lia. destruct (amp !! j) as [v1|]; [|done]. cbn [mbind option_bind].
      destruct (amp !! S j) as [v2|]; [|done]. cbn [mbind option_bind]. replace (j' + 2)%nat with (S (S j')) by lia.
      destruct (shift_x (x s) v1 v2) as [l|]; [|done]. cbn [mbind option_bind]. destruct (qmf s32 l) as [[o e]|]; [|done].
      cbn [mbind option_bind]. by destruct (encode_bands s32 _ _ _) as [[]|]. }
  rewrite Es, Ec. cbn [mbind option_bind].
  assert (H2' : has_samples amp (j + step s) (n * step s1)) by (by rewrite (same_step _ _ Hm)).
  rewrite (IH s1 amp amp' (j + step s)%nat (j' + step s)%nat); [done|done|done|].
  intros i Hi. rewrite (same_step _ _ Hm) in Hi. rewrite <- !Nat.add_assoc. apply He. lia.
Qed.

(** ** The encoder *)

Lemma encode_loop_ok m : ∀ s a b data n amp j len xhigh fuel cs bs, state_ok s →
  put (packed s) (bits_per_sample s) a b cs bs → has_samples amp j (m * step s) → (len = j + m * step s)%nat →
  (m ≤ fuel)%nat → (n + m ≤ length data)%nat → int16 xhigh →
  ∃ s' cs' a' b' new data', codes m s amp j = Some (s', cs') ∧
    encode_loop s32 fuel (with_out s a b) data n amp j len xhigh = Some (with_out s' a' b', data', n + length new)%nat ∧
    encode_loop id fuel (with_out s a b) data n amp j len xhigh = Some (with_out s' a' b', data', n + length new)%nat ∧
    put (packed s) (bits_per_sample s) a' b' (cs ++ cs') (bs ++ new) ∧
    length data' = length data ∧ take (n + length new) data' = take n data ++ new.
Proof.
  induction m as [|m IH]; intros s a b data n amp j len xhigh fuel cs bs Hs Hput Hsig Hlen Hfuel Hdata Hx.
  { exists s, [], a, b, [], data. cbn [length]. rewrite !app_nil_r, Nat.add_0_r.
    destruct fuel; cbn [encode_loop]; rewrite (proj2 (Nat.ltb_ge j len)) by lia; done. }
  cbn [Nat.mul] in Hsig, Hlen. assert (Hstep : (1 ≤ step s)%nat) by (unfold step; destruct (eight_k s); lia).
  apply has_samples_cut in Hsig as [H1 H2].
  destruct (codes_step s amp j Hs H1) as (s1 & c & Hs1 & Hm & Hc & _ & Ecodes & _ & Hout).
  destruct (Hout a b xhigh Hx) as (xh' & Hx' & E1 & E2). destruct fuel as [|fuel]; [lia|]. cbn [encode_loop].
  rewrite (proj2 (Nat.ltb_lt j len)) by lia. unfold code_step in E1, E2. destruct Hm as [M1 M2 M3].
  destruct (put_code_ok (with_out s1 a b) c data n cs bs) as (a1 & b1 & data1 & new & P1 & Hput1 & L1 & Hn & T1);
    [exact (s_bits _ Hs1)|cbn [packed bits_per_sample out_buffer out_bits with_out]; by rewrite M1, M3|
     cbn [bits_per_sample with_out]; by rewrite M3|lia|].
  cbn [packed bits_per_sample with_out] in Hput1. rewrite M1, M3 in Hput1.
  assert (H2' : has_samples amp (j + step s) (m * step s1)) by (by rewrite (same_step s s1 ltac:(by split))).
  destruct (IH s1 a1 b1 data1 (n + length new)%nat amp (j + step s)%nat len xh' fuel (cs ++ [c]) (bs ++ new))
    as (s2 & cs' & a2 & b2 & new' & data2 & Ec & F1 & F2 & Hput2 & L2 & T2);
    [done|by rewrite M1, M3|done|rewrite (same_step s s1) by (by split); lia|lia|lia|done|].
  change (with_out (with_out s1 a b) a1 b1) with (with_out s1 a1 b1) in P1.
  exists s2, (c :: cs'), a2, b2, (new ++ new'), data2. rewrite Ecodes, Ec. cbn [mbind option_bind].
  rewrite length_app, Nat.add_assoc, T2, T1. rewrite <- !app_assoc in Hput2. rewrite M1, M3 in Hput2.
  split_and!; [done| | |done|lia|by rewrite app_assoc].
  - destruct (next_bands s32 _ amp j xhigh) as [[[[t l] h] j1]|]; [|done]. cbn [mbind option_bind] in E1 |- *.
    destruct (encode_bands s32 t l h) as [[t' c']|]; [|done]. cbn [mbind option_bind] in E1 |- *. injection E1 as -> -> -> ->.
    rewrite P1. cbn [mbind option_bind]. exact F1.
  - destruct (next_bands id _ amp j xhigh) as [[[[t l] h] j1]|]; [|done]. cbn [mbind option_bind] in E2 |- *.
    destruct (encode_bands id t l h) as [[t' c']|]; [|done]. cbn [mbind option_bind] in E2 |- *. injection E2 as -> -> -> ->.
    rewrite P1. cbn [mbind option_bind]. exact F2.
Qed.

(** One call. *)
Lemma encode_ok m s a b junk amp cs bs : state_ok s → put (packed s) (bits_per_sample s) a b cs bs →
  has_samples amp 0 (m * step s) → (m ≤ length junk)%nat →
  ∃ s' cs' a' b' data' new, codes m s amp 0 = Some (s', cs') ∧
    encode s32 (with_out s a b) junk amp (m * step s) = Some (with_out s' a' b', data', length new) ∧
    encode id (with_out s a b) junk amp (m * step s) = Some (with_out s' a' b', data', length new) ∧
    put (packed s) (bits_per_sample s) a' b' (cs ++ cs') (bs ++ new) ∧ take (length new) data' = new.
Proof.
  intros Hs Hput Hsig Hj. assert (Hstep : (1 ≤ step s)%nat) by (unfold step; destruct (eight_k s); lia).
  destruct (encode_loop_ok m s a b junk 0 amp 0 (m * step s) 0 (m * step s) cs bs Hs Hput Hsig eq_refl ltac:(nia) Hj
    ltac:(unfold int16; lia)) as (s' & cs' & a' & b' & new & data' & E0 & E1 & E2 & Hp & _ & T).
  by exists s', cs', a', b', data', new.
Qed.

(** The blocks of a session: 16-bit samples, and whole codes. *)
Definition block_ok (s : G722State) (b : list Z) : Prop :=
  Forall int16 b ∧ ∃ m, length b = (m * step s)%nat.

Lemma block_samples b : Forall int16 b → has_samples b 0 (length b).
Proof.
  intros Hb i Hi. destruct (lookup_lt_is_Some_2 b i Hi) as [v Ev]. exists v. split; [done|]. exact (Forall_lookup_1 _ _ _ _ Hb Ev).
Qed.

Lemma block_ok_same s t b : same_mode s t → block_ok s b → block_ok t b.
Proof. intros H [? [m E]]. split; [done|]. exists m. by rewrite (same_step _ _ H). Qed.

Lemma encode_all_ok junk blocks : ∀ s a b cs bs, state_ok s → put (packed s) (bits_per_sample s) a b cs bs →
  Forall (block_ok s) blocks → Forall (λ b, length b ≤ length junk)%nat blocks →
  ∃ n s' cs' a' b' bytes, (length (concat blocks) = n * step s)%nat ∧ codes n s (concat blocks) 0 = Some (s', cs') ∧
    encode_all s32 junk (with_out s a b) blocks = Some (with_out s' a' b', bytes) ∧
    encode_all id junk (with_out s a b) blocks = Some (with_out s' a' b', bytes) ∧
    put (packed s) (bits_per_sample s) a' b' (cs ++ cs') (bs ++ bytes).
Proof.
  induction blocks as [|blk blocks IH]; intros s a b cs bs Hs Hput HF HL.
  { exists 0%nat, s, [], a, b, []. rewrite !app_nil_r. by split_and!. }
  assert (Hstep : (1 ≤ step s)%nat) by (unfold step; destruct (eight_k s); lia).
  assert (HF' : Forall int16 (concat (blk :: blocks))).
  { apply Forall_concat. eapply Forall_weaken; [exact HF|]. by intros ? []. }
  apply Forall_cons_1 in HF as [[Hb [m Em]] HF], HL as [HL1 HL].
  assert (Hsig : has_samples blk 0 (m * step s)) by (rewrite <- Em; by apply block_samples).
  destruct (encode_ok m s a b junk blk cs bs Hs Hput Hsig ltac:(nia)) as (s1 & cs1 & a1 & b1 & data1 & new & E0 & E1 & E2 & Hput1 & T1).
  destruct (codes_ok m s blk 0 Hs Hsig) as (s1' & cs1' & E0' & Hs1 & Hm & _ & _). rewrite E0 in E0'. injection E0' as <- <-.
  destruct Hm as [M1 M2 M3]. destruct (IH s1 a1 b1 (cs ++ cs1) (bs ++ new)) as (n & s2 & cs2 & a2 & b2 & bytes & En & C & F1 & F2 & Hput2);
    [done|by rewrite M1, M3|eapply Forall_weaken; [exact HF|]; intros ?; by apply block_ok_same|done|].
  assert (Es : step s1 = step s) by (by apply same_step). rewrite Es in En.
  exists (m + n)%nat, s2, (cs1 ++ cs2), a2, b2, (new ++ bytes). cbn [concat encode_all]. rewrite length_app, Em, En.
  rewrite E1, E2. cbn [mbind option_bind]. rewrite F1, F2, T1. cbn [mbind option_bind].
  rewrite <- !app_assoc in Hput2. rewrite M1, M3 in Hput2. split_and!; [lia| |done|done|done].
  assert (Hall : has_samples (blk ++ concat blocks) 0 ((m + n) * step s)).
  { replace ((m + n) * step s)%nat with (length (blk ++ concat blocks)) by (rewrite length_app, Em, En; lia). by apply block_samples. }
  rewrite codes_app by done. rewrite (codes_ext m s blk (blk ++ concat blocks) 0 0 Hs Hsig).
  2: { intros i Hi. rewrite lookup_app_l by lia. done. }
  rewrite E0. cbn [mbind option_bind]. rewrite (codes_ext n s1 (concat blocks) (blk ++ concat blocks) 0 _ Hs1).
  - by rewrite C.
  - rewrite Es, <- En. apply block_samples. by apply Forall_app in HF' as [_ ?].
  - intros i Hi. rewrite lookup_app_r by lia. f_equal. lia.
Qed.

(** ** The decoder *)

Lemma put_samples_ok t rl rh amp n : state_ok t → -16384 ≤ rl ≤ 16383 → -16384 ≤ rh ≤ 16383 →
  (n + step t ≤ length amp)%nat → agree (λ w, put_samples w t rl rh amp n) (λ '(t', amp', n'),
    state_ok t' ∧ (∃ l, t' = with_x t l) ∧ length amp' = length amp ∧ n' = (n + step t)%nat).
Proof.
  intros Ht Hl Hh Hn. unfold put_samples, agree, step in *. rewrite (s_mode _ Ht). destruct (eight_k t).
  - rewrite wr_lt by lia. rewrite (s32_id (Z.shiftl rl 1)) by clia. cbn [mbind option_bind]. rewrite wr_lt by lia.
    eexists. split_and!; [reflexivity|reflexivity|]. cbv beta iota. rewrite length_insert. split_and!; [done|exists (x t); by destruct t|done|lia].
  - rewrite (s32_id (rl + rh)), (s32_id (rl - rh)) by clia. change (id (rl + rh)) with (rl + rh). change (id (rl - rh)) with (rl - rh).
    destruct (shift_x_ok (x t) (rl + rh) (rl - rh) (s_x _ Ht)) as (l & -> & Hx); [clia|clia|]. cbn [mbind option_bind].
    destruct (qmf_ok l Hx) as ([o e] & -> & -> & _ & _). cbn [mbind option_bind]. rewrite wr_lt by lia. cbn [mbind option_bind].
    rewrite wr_lt by (rewrite length_insert; lia). eexists. split_and!; [reflexivity|reflexivity|].
    cbv beta iota. rewrite !length_insert. split_and!; [destruct Ht; by split|by exists l|done|lia].
Qed.

Lemma has_samples_sub amp j o n k : has_samples amp j n → (o + k ≤ n)%nat → has_samples amp (j + o) k.
Proof.
  intros H Hk i Hi. destruct (H (o + i)%nat ltac:(lia)) as (v & E & Hv). exists v. split; [|done]. by rewrite <- Nat.add_assoc.
Qed.

(** The samples a call of the decoder can write. *)
Definition room (s : G722State) (len : nat) : nat := ((if packed s then 2 * len else len) * step s)%nat.

(** *** Calls that keep an invariant

    [I t ds bs]: the state of the decoder after the codes [ds] from the bytes [bs], and [whole]
    what is known of all bytes. One code must keep the invariant. *)

Section decoder.
Context (s : G722State) (Hs : state_ok s) (whole : list Z → Prop) (I : G722State → list Z → list Z → Prop).
Context (I_mode : ∀ t ds bs, I t ds bs → same_mode s t ∧
  taken (packed s) (bits_per_sample s) (in_buffer t) (in_bits t) ds bs).
Context (I_step : ∀ t ds bs buffer bits c new rest rhigh, I t ds bs → 0 ≤ c < 256 → -16384 ≤ rhigh ≤ 16383 →
  taken (packed s) (bits_per_sample s) buffer bits (ds ++ [c]) (bs ++ new) → whole ((bs ++ new) ++ rest) →
  agree (λ w, decode_bands w (with_in t buffer bits) c rhigh) (λ '(t', rl, rh),
    -16384 ≤ rl ≤ 16383 ∧ -16384 ≤ rh ≤ 16383 ∧ state_ok t' ∧ in_bits t' = bits ∧
    ∀ l, shorts 24 l → I (with_x t' l) (ds ++ [c]) (bs ++ new))).

(** How many codes are left at most. *)
Definition left (t : G722State) (j len k : nat) : Prop := (j < len)%nat →
  if packed s then 8 * Z.of_nat (len - j) + in_bits t < bits_per_sample s * Z.of_nat (S k) else (len - j ≤ k)%nat.

Lemma drop_cut (data : list Z) j j' : (j ≤ j')%nat → drop j data = take (j' - j) (drop j data) ++ drop j' data.
Proof. intros. rewrite <- (take_drop (j' - j) (drop j data)) at 1. by rewrite drop_drop, (Nat.add_comm j), Nat.sub_add by lia. Qed.

(** One code. *)
Lemma follow_step t ds bs data post j rhigh k : I t ds bs → digits 8 data → whole (bs ++ drop j data ++ post) →
  (j < length data)%nat → -16384 ≤ rhigh ≤ 16383 → left t j (length data) k →
  ∃ t1 c j' k', k = S k' ∧ take_code t data j = Some (t1, c, j') ∧ (j ≤ j' ≤ length data)%nat ∧
    agree (λ w, decode_bands w t1 c rhigh) (λ '(t', rl, rh), -16384 ≤ rl ≤ 16383 ∧ -16384 ≤ rh ≤ 16383 ∧ state_ok t' ∧
      left t' j' (length data) k' ∧ ∀ l, shorts 24 l → I (with_x t' l) (ds ++ [c]) (bs ++ take (j' - j) (drop j data))).
Proof using Hs I_mode I_step.
  intros Ht Hd Hw Hj Hr Hleft. destruct (I_mode _ _ _ Ht) as [[M1 M2 M3] Ttk].
  pose proof (s_bits _ Hs) as HB. rewrite <- M1, <- M3 in Ttk.
  destruct (take_code_ok t data j ds bs) as (ib & ibits & c & j' & Etc & Hj' & Hc & Htk & Epk & Epl); [by rewrite M3|done|done|done|].
  rewrite M1, M3 in *. specialize (Hleft Hj). destruct k as [|k'].
  { exfalso. destruct (packed s) eqn:Ep; [|lia]. destruct Ttk as [_ Tk]. destruct (Tk eq_refl) as (_ & ? & _). lia. }
  exists (with_in t ib ibits), c, j', k'. split_and!; [done|done|lia|lia|].
  destruct (I_step t ds bs ib ibits c (take (j' - j) (drop j data)) (drop j' data ++ post) rhigh)
    as ([[t' rl] rh] & G1 & G2 & Hrl & Hrh & Ht' & Eb & Hnext); try done.
  { by rewrite <- app_assoc, (app_assoc (take _ _)), <- drop_cut by lia. }
  exists (t', rl, rh). do 5 (split; [done|]). split; [|done].
  intros Hlt. rewrite Eb. destruct (packed s); [specialize (Epk eq_refl); lia|rewrite (Epl eq_refl) in *; lia].
Qed.

Lemma decode_loop_ok k : ∀ fuel t ds bs data post j amp n rhigh, I t ds bs → digits 8 data → whole (bs ++ drop j data ++ post) →
  (j ≤ length data)%nat → -16384 ≤ rhigh ≤ 16383 → left t j (length data) k → (k ≤ fuel)%nat → (n + k * step s ≤ length amp)%nat →
  ∃ t' amp' ds', decode_loop s32 fuel t amp n data j (length data) rhigh = Some (t', amp', n + (length ds' - length ds) * step s)%nat ∧
    decode_loop id fuel t amp n data j (length data) rhigh = Some (t', amp', n + (length ds' - length ds) * step s)%nat ∧
    I t' ds' (bs ++ drop j data) ∧ (length ds ≤ length ds')%nat ∧ length amp' = length amp ∧
    (n + (length ds' - length ds) * step s ≤ length amp)%nat.
Proof using Hs I_mode I_step.
  induction k as [|k IH]; intros fuel t ds bs data post j amp n rhigh Ht Hd Hw Hj Hr Hleft Hfuel Hroom;
    (destruct (decide (j < length data)%nat) as [Hlt|Hge];
     [|exists t, amp, ds; rewrite Nat.sub_diag, Nat.add_0_r; assert (j = length data) as -> by lia; rewrite drop_all, app_nil_r;
       destruct fuel; cbn [decode_loop]; rewrite (proj2 (Nat.ltb_ge _ _)) by lia; split_and!; done || lia]);
    destruct (follow_step t ds bs data post j rhigh _ Ht Hd Hw Hlt Hr Hleft)
      as (t1 & c & j' & k' & [= <-] & Etc & Hj' & ([[t2 rl] rh] & G1 & G2 & Hrl & Hrh & Ht2 & Hleft' & Hnext)).
  destruct fuel as [|fuel]; [lia|]. cbn [decode_loop]. rewrite (proj2 (Nat.ltb_lt _ _)) by done.
  rewrite Etc. cbn [mbind option_bind]. rewrite G1, G2. cbn [mbind option_bind].
  destruct (I_mode _ _ _ (Hnext (x t2) (s_x _ Ht2))) as [Hm _]. pose proof (same_step _ _ Hm) as Est.
  change (step (with_x t2 (x t2))) with (step t2) in Est.
  destruct (put_samples_ok t2 rl rh amp n Ht2 Hrl Hrh ltac:(rewrite Est; lia)) as ([[t3 amp'] n'] & P1 & P2 & Ht3 & [l ->] & L & ->).
  rewrite P1, P2. cbn [mbind option_bind]. pose proof (Hnext l (s_x _ Ht3)) as H3. rewrite Est.
  destruct (IH fuel (with_x t2 l) (ds ++ [c]) (bs ++ take (j' - j) (drop j data)) data post j' amp' (n + step s)%nat rh)
    as (t' & amp2 & ds' & F1 & F2 & H' & Hle & L' & Hn'); try done; try lia.
  { by rewrite <- app_assoc, (app_assoc (take _ _)), <- drop_cut by lia. }
  exists t', amp2, ds'. rewrite length_app in F1, F2, Hle, Hn'. cbn [length] in *.
  replace (n + (length ds' - length ds) * step s)%nat with (n + step s + (length ds' - (length ds + 1)) * step s)%nat by nia.
  split_and!; [done|done| |lia|lia|lia]. rewrite <- app_assoc, <- drop_cut in H' by lia. done.
Qed.

Context (junk : list Z).

Lemma decode_ok t ds bs data post : I t ds bs → digits 8 data → whole (bs ++ data ++ post) → (room s (length data) ≤ length junk)%nat →
  ∃ t' amp' ds', decode s32 t junk data (length data) = Some (t', amp', (length ds' - length ds) * step s)%nat ∧
    decode id t junk data (length data) = Some (t', amp', (length ds' - length ds) * step s)%nat ∧
    I t' ds' (bs ++ data) ∧ (length ds ≤ length ds')%nat ∧
    length (take ((length ds' - length ds) * step s) amp') = ((length ds' - length ds) * step s)%nat.
Proof using Hs I_mode I_step.
  intros Ht Hd Hw Hroom. unfold room in Hroom.
  destruct (decode_loop_ok (if packed s then 2 * length data else length data)%nat
    (S (2 * length data)) t ds bs data post 0 junk 0 0 Ht Hd) as (t' & amp' & ds' & E1 & E2 & H' & Hle & L & Hn);
    [by rewrite drop_0|lia|lia| |destruct (packed s); lia|done|].
  { intros Hlt. destruct (packed s) eqn:Ep; [|lia]. destruct (I_mode _ _ _ Ht) as [_ [_ Tk]]. destruct (Tk eq_refl) as (_ & Hb & _).
    pose proof (s_bits _ Hs). nia. }
  rewrite drop_0 in H'. exists t', amp', ds'. rewrite length_take_le by lia. by split_and!.
Qed.

Lemma decode_all_ok chunks : ∀ t ds bs post, I t ds bs → whole (bs ++ concat chunks ++ post) → digits 8 (concat chunks) →
  Forall (λ c, room s (length c) ≤ length junk)%nat chunks →
  ∃ t' ds' samples, decode_all s32 junk t chunks = Some (t', samples) ∧ decode_all id junk t chunks = Some (t', samples) ∧
    I t' ds' (bs ++ concat chunks) ∧ (length ds ≤ length ds')%nat ∧
    length samples = ((length ds' - length ds) * step s)%nat.
Proof using Hs I_mode I_step.
  induction chunks as [|c chunks IH]; intros t ds bs post Ht Hw Hd HF; cbn [decode_all concat] in *.
  { exists t, ds, []. rewrite app_nil_r, Nat.sub_diag. by split_and!. }
  apply Forall_cons_1 in HF as [Hc HF]. apply Forall_app in Hd as [Hd1 Hd]. rewrite <- app_assoc in Hw.
  destruct (decode_ok t ds bs c (concat chunks ++ post) Ht Hd1 Hw Hc) as (t1 & amp1 & ds1 & E1 & E2 & Ht1 & Hle1 & L1).
  rewrite app_assoc in Hw.
  destruct (IH t1 ds1 (bs ++ c) post Ht1 Hw Hd HF) as (t2 & ds2 & samples & F1 & F2 & Ht2 & Hle2 & L2).
  rewrite E1, E2. cbn [mbind option_bind]. rewrite F1, F2. cbn [mbind option_bind].
  exists t2, ds2, (take ((length ds1 - length ds) * step s) amp1 ++ samples). rewrite length_app, L1, L2.
  rewrite <- app_assoc in Ht2. split_and!; [done|done|done|lia|nia].
Qed.
End decoder.

(** *** Arbitrary bytes *)

Record decoding (s t : G722State) (ds bs : list Z) : Prop := {
  d_ok : state_ok t;
  d_mode : same_mode s t;
  d_taken : taken (packed s) (bits_per_sample s) (in_buffer t) (in_bits t) ds bs;
}.

Lemma decoding_start s : in_buffer s = 0 → in_bits s = 0 → state_ok s → decoding s s [] [].
Proof.
  intros E1 E2 Hs. split; [done|apply same_mode_refl|]. rewrite E1, E2. split; [done|]. intros _. cbn [length number].
  rewrite !Z.mul_0_r. split_and!; try done. by apply Forall_nil_2.
Qed.

Lemma decoding_step s t ds bs buffer bits c new (rest : list Z) rhigh : decoding s t ds bs → 0 ≤ c < 256 → -16384 ≤ rhigh ≤ 16383 →
  taken (packed s) (bits_per_sample s) buffer bits (ds ++ [c]) (bs ++ new) → True →
  agree (λ w, decode_bands w (with_in t buffer bits) c rhigh) (λ '(t', rl, rh),
    -16384 ≤ rl ≤ 16383 ∧ -16384 ≤ rh ≤ 16383 ∧ state_ok t' ∧ in_bits t' = bits ∧
    ∀ l, shorts 24 l → decoding s (with_x t' l) (ds ++ [c]) (bs ++ new)).
Proof.
  intros [Hok [M1 M2 M3] _] Hc Hr Htk _. assert (Ht : state_ok (with_in t buffer bits)) by (destruct Hok; by split).
  destruct (decode_bands_ok _ c rhigh Ht Hc Hr) as ([[t' rl] rh] & G1 & G2 & ril & ihigh & q & k0 & k1 & _ & -> & Ht' & _ & -> & Hrh & _).
  eexists. split; [exact G1|]. split; [exact G2|]. cbv beta iota. split; [by apply limit_range|]. do 3 (split; [done|]).
  intros l Hl. split; [destruct Ht'; by split|by split|done].
Qed.

(** The decoder is safe on arbitrary bytes. For every bit rate and all options, every sequence
    of calls with any bytes returns, reads no table or array out of range, and computes
    in int what it would compute in unbounded integers; when a code is a byte it puts out
    the samples of one code for each byte. *)
Theorem g722_decode_safe (rate options : Z) (junk : list Z) (chunks : list (list Z)) :
  let s0 := init rate options in
  Forall (Forall uint8) chunks → Forall (λ c, room s0 (length c) ≤ length junk)%nat chunks →
  ∃ t samples, decode_all s32 junk s0 chunks = Some (t, samples) ∧ decode_all id junk s0 chunks = Some (t, samples) ∧
    state_ok t ∧ (packed s0 = false → length samples = length (concat chunks) * step s0)%nat.
Proof.
  intros s0 HF HR. pose proof (init_ok rate options : state_ok s0) as Hs.
  destruct (decode_all_ok s0 Hs (λ _, True) (decoding s0) ltac:(by intros t ds bs []) (decoding_step s0) junk chunks s0 [] [] [])
    as (t & ds & samples & E1 & E2 & [Hok _ [Tp _]] & _ & L); try done; [by apply decoding_start| |].
  { apply Forall_concat. eapply Forall_weaken; [exact HF|]. intros l Hl. eapply Forall_weaken; [exact Hl|].
    intros c Hc. unfold uint8 in Hc. change (2 ^ 8) with 256. lia. }
  exists t, samples. split_and!; [done|done|done|]. intros Hp. cbn [length] in L. by rewrite L, (Tp Hp), Nat.sub_0_r, app_nil_l.
Qed.

Lemma g722_decode_safe_witness : let s0 := init 56000 2 in
  ∃ t samples, decode_all s32 (replicate 12 7) s0 [[255; 0; 17]; [99]] = Some (t, samples) ∧
    decode_all id (replicate 12 7) s0 [[255; 0; 17]; [99]] = Some (t, samples) ∧
    state_ok t ∧ (packed s0 = false → length samples = length (concat [[255; 0; 17]; [99]]) * step s0)%nat.
Proof.
  apply (g722_decode_safe 56000 2 (replicate 12 7) [[255; 0; 17]; [99]]).
  - repeat (apply Forall_cons_2; [repeat (apply Forall_cons_2; [unfold uint8; lia|]); by apply Forall_nil_2|]). by apply Forall_nil_2.
  - repeat (apply Forall_cons_2; [vm_compute; lia|]). by apply Forall_nil_2.
Defined.

(** *** The bytes of an encoder *)

Section follow.
Context (s : G722State) (Hs : state_ok s) (sig : list Z) (N : nat) (Hsig : has_samples sig 0 (N * step s)).
Context (sN : G722State) (cs : list Z) (HN : codes N s sig 0 = Some (sN, cs)).
Context (ob obits : Z) (all : list Z) (Hput : put (packed s) (bits_per_sample s) ob obits cs all).

Lemma codes_length : length cs = N.
Proof using Hs Hsig HN. destruct (codes_ok N s sig 0 Hs Hsig) as (s' & cs' & E & _ & _ & L & _). rewrite HN in E. by injection E as <- <-. Qed.

(** The encoder after [n] codes. *)
Lemma codes_at n : (n ≤ N)%nat → ∃ sn, codes n s sig 0 = Some (sn, take n cs) ∧ state_ok sn ∧ same_mode s sn.
Proof using Hs Hsig HN.
  intros Hn. assert (H : has_samples sig 0 (n * step s)) by (intros i Hi; apply Hsig; nia).
  destruct (codes_ok n s sig 0 Hs H) as (sn & cs1 & E & Hsn & Hm & L & _). exists sn. split_and!; [|done|done].
  pose proof HN as E'. replace N with (n + (N - n))%nat in E' by lia. rewrite codes_app in E'; [|done|].
  2: { by replace (n + (N - n))%nat with N by lia. }
  rewrite E in E'. cbn [mbind option_bind] in E'. destruct (codes (N - n) sn sig _) as [[s2 cs2]|]; [|done].
  cbn [mbind option_bind] in E'. injection E' as _ Ecs. rewrite E, <- Ecs, <- L. by rewrite take_app_length.
Qed.

(** What the decoder knows: the codes [ds] from the bytes [bs], and the predictors after them. *)
Definition tracks (t : G722State) (ds bs : list Z) : Prop :=
  decoding s t ds bs ∧ ∃ sn, codes (length ds) s sig 0 = Some (sn, ds) ∧ band0 t = band0 sn ∧ band1 t = band1 sn.

Lemma tracks_step t ds bs buffer bits c new rest rhigh : tracks t ds bs → 0 ≤ c < 256 → -16384 ≤ rhigh ≤ 16383 →
  taken (packed s) (bits_per_sample s) buffer bits (ds ++ [c]) (bs ++ new) → all = (bs ++ new) ++ rest →
  agree (λ w, decode_bands w (with_in t buffer bits) c rhigh) (λ '(t', rl, rh),
    -16384 ≤ rl ≤ 16383 ∧ -16384 ≤ rh ≤ 16383 ∧ state_ok t' ∧ in_bits t' = bits ∧
    ∀ l, shorts 24 l → tracks (with_x t' l) (ds ++ [c]) (bs ++ new)).
Proof using Hs Hsig HN Hput.
  intros [[Tok [M1 M2 M3] _] (sn & Esn & B0 & B1)] Hc Hr Htk Eall.
  assert (HB0 : 0 < bits_per_sample s) by (pose proof (s_bits _ Hs); lia). pose proof Hput as Hput'. rewrite Eall in Hput'.
  destruct (taken_put _ _ _ _ _ _ _ _ _ _ HB0 Hput' Htk) as [Eds Hlen]. rewrite length_app in Eds, Hlen. cbn [length] in Eds, Hlen.
  rewrite codes_length in Hlen.
  destruct (codes_at (length ds) ltac:(lia)) as (sn' & Esn' & Hsn & Hm). rewrite Esn in Esn'. injection Esn' as <- Eds0.
  pose proof (Nat.mul_le_mono_r (length ds + 1) N (step s) Hlen) as Hmul.
  assert (Hrest : has_samples sig (0 + length ds * step s) (step sn)).
  { rewrite (same_step _ _ Hm). apply (has_samples_sub _ _ _ _ _ Hsig). lia. }
  destruct (codes_step sn sig _ Hsn Hrest) as (s' & c' & Hs' & Hm' & _ & _ & Ec & Htrack & _).
  assert (E1 : codes (length ds + 1) s sig 0 = Some (s', ds ++ [c'])).
  { rewrite codes_app; [|done|apply (has_samples_sub _ 0 0 _ _ Hsig); lia]. rewrite Esn. cbn [mbind option_bind]. by rewrite Ec. }
  destruct (codes_at (length ds + 1) ltac:(lia)) as (s1 & E1' & _). rewrite E1 in E1'. injection E1' as <- E2.
  rewrite <- Eds in E2. apply app_inv_head in E2. injection E2 as ->.
  destruct (Htrack (with_in t buffer bits) rhigh) as ([[t' rl] rh] & G1 & G2 & Ht' & (k0 & k1 & ->) & B0' & B1' & Hrl & Hrh);
    [destruct Tok; by split|destruct Hm as [A1 A2 A3]; split; cbn; congruence|done|done|done|].
  exists (with_bands (with_in t buffer bits) k0 k1, rl, rh). do 6 (split; [done|]).
  intros l Hl. split; [split; [destruct Ht'; by split|by split|done]|]. exists s'. rewrite length_app. cbn [length]. by split_and!.
Qed.
End follow.

(** How far the decoder is behind. *)
Lemma codes_behind pk B ob obits cs all ib ibits ds : 6 ≤ B → put pk B ob obits cs all → taken pk B ib ibits ds all →
  (length ds ≤ length cs ≤ length ds + 2)%nat ∧ (pk = false → length ds = length cs).
Proof.
  intros HB [_ _ Pp Pk] [Tp Tk]. destruct pk.
  - destruct (Pk eq_refl) as (H1 & _ & E1 & _), (Tk eq_refl) as (_ & H2 & _ & E2 & _). split; [|done]. nia.
  - destruct (Pp eq_refl) as [-> _]. rewrite (Tp eq_refl). lia.
Qed.

(** C19: The decoder follows the encoder. For every bit rate and all options, however a signal of
    16-bit samples is cut into blocks of whole codes and their bytes into chunks, every
    call of encoder and decoder returns and computes in int what it would compute in
    unbounded integers. After the chunks the predictors of the decoder are those of an
    encoder that has been given the samples the decoder has put out: all samples when a
    code is a byte, and then the predictors are also those of the encoder itself; all but
    those of at most two codes when codes are packed. *)
Theorem g722_follows (rate options : Z) (junk : list Z) (blocks : list (list Z)) :
  let s0 := init rate options in
  Forall (block_ok s0) blocks → Forall (λ b, length b ≤ length junk)%nat blocks →
  ∃ s bytes, encode_all s32 junk s0 blocks = Some (s, bytes) ∧ encode_all id junk s0 blocks = Some (s, bytes) ∧
    ∀ chunks junk', concat chunks = bytes → Forall (λ c, room s0 (length c) ≤ length junk')%nat chunks →
      ∃ t samples n, decode_all s32 junk' s0 chunks = Some (t, samples) ∧ decode_all id junk' s0 chunks = Some (t, samples) ∧
        length samples = (n * step s0)%nat ∧
        (length samples ≤ length (concat blocks) ≤ length samples + 2 * step s0)%nat ∧
        (∀ junk1, (n ≤ length junk1)%nat → ∃ s1 data m,
          WebRtc_g722_encode s0 junk1 (concat blocks) (length samples) = Some (s1, data, m) ∧
          band0 t = band0 s1 ∧ band1 t = band1 s1) ∧
        (packed s0 = false → length samples = length (concat blocks) ∧ band0 t = band0 s ∧ band1 t = band1 s).
Proof.
  intros s0 HF HL. pose proof (init_ok rate options : state_ok s0) as Hs. change s0 with (with_out s0 0 0) at 2 3.
  assert (Hput0 : put (packed s0) (bits_per_sample s0) 0 0 [] []).
  { split; [by apply Forall_nil_2|by apply Forall_nil_2|done|]. intros _. cbn [length number]. rewrite !Z.mul_0_r. by split_and!. }
  destruct (encode_all_ok junk blocks s0 0 0 [] [] Hs Hput0 HF HL) as (N & sN & cs & a & b & bytes & EN & EC & E1 & E2 & Hput).
  exists (with_out sN a b), bytes. split_and!; [done|done|]. intros chunks junk' Eb HR. rewrite !app_nil_l in Hput.
  assert (Hsig : has_samples (concat blocks) 0 (N * step s0)).
  { rewrite <- EN. apply block_samples, Forall_concat. eapply Forall_weaken; [exact HF|]. by intros ? []. }
  assert (H0 : tracks s0 (concat blocks) s0 [] []) by (split; [by apply decoding_start|by exists s0]).
  destruct (decode_all_ok s0 Hs (λ l, bytes = l) (tracks s0 (concat blocks)) ltac:(by intros ? ? ? [[] _])
    (tracks_step s0 Hs (concat blocks) N Hsig sN cs EC a b bytes Hput) junk' chunks s0 [] [] [] H0)
    as (t & ds & samples & F1 & F2 & [[_ _ Htk] (sn & Esn & B0 & B1)] & _ & L);
    [by rewrite app_nil_l, app_nil_r|rewrite Eb; exact (put_bytes _ _ _ _ _ _ Hput)|done|].
  rewrite app_nil_l, Eb in Htk. cbn [length] in L. rewrite Nat.sub_0_r in L. assert (HB : 6 ≤ bits_per_sample s0) by (pose proof (s_bits _ Hs); lia).
  pose proof (codes_length s0 Hs (concat blocks) N Hsig sN cs EC) as LN.
  destruct (codes_behind _ _ _ _ _ _ _ _ _ HB Hput Htk) as [Hbehind Hplain]. rewrite LN in *.
  exists t, samples, (length ds). rewrite L, EN. split_and!; [done|done|done|nia|nia| |].
  - intros junk1 Hj. destruct (encode_ok (length ds) s0 0 0 junk1 (concat blocks) [] [] Hs Hput0) as (s1 & cs1 & a1 & b1 & data & new & C1 & G1 & _);
      [intros i Hi; apply Hsig; nia|done|]. rewrite Esn in C1. injection C1 as <- <-.
    exists (with_out sn a1 b1), data, (length new). by split_and!.
  - intros Hp. rewrite (Hplain Hp) in *. rewrite EC in Esn. injection Esn as <- _. by split_and!.
Qed.

Definition example_blocks : list (list Z) := [[0; 100; 2000; -3000]; [400; 15000; -32768; 32767]].

Lemma g722_follows_witness : let s0 := init 48000 2 in
  ∃ s bytes, encode_all s32 (replicate 4 7) s0 example_blocks = Some (s, bytes) ∧
    encode_all id (replicate 4 7) s0 example_blocks = Some (s, bytes) ∧
    ∀ chunks junk', concat chunks = bytes → Forall (λ c, room s0 (length c) ≤ length junk')%nat chunks →
      ∃ t samples n, decode_all s32 junk' s0 chunks = Some (t, samples) ∧ decode_all id junk' s0 chunks = Some (t, samples) ∧
        length samples = (n * step s0)%nat ∧
        (length samples ≤ length (concat example_blocks) ≤ length samples + 2 * step s0)%nat ∧
        (∀ junk1, (n ≤ length junk1)%nat → ∃ s1 data m,
          WebRtc_g722_encode s0 junk1 (concat example_blocks) (length samples) = Some (s1, data, m) ∧
          band0 t = band0 s1 ∧ band1 t = band1 s1) ∧
        (packed s0 = false → length samples = length (concat example_blocks) ∧ band0 t = band0 s ∧ band1 t = band1 s).
Proof.
  apply (g722_follows 48000 2 (replicate 4 7) example_blocks).
  - unfold example_blocks. repeat (apply Forall_cons_2; [split; [repeat (apply Forall_cons_2; [unfold int16; lia|]); by apply Forall_nil_2|by exists 2%nat]|]).
    by apply Forall_nil_2.
  - unfold example_blocks. repeat (apply Forall_cons_2; [cbn; lia|]). by apply Forall_nil_2.
Defined.

(** Four packed codes of six bits are three bytes; the decoder leaves the last code, though its
    bits have arrived, for the next call. *)
Example packed_code_left :
  ('(_, bytes) ← encode_all s32 (replicate 8 7) (init 48000 2) [[0; 100; 2000; -3000; 400; 15000; -32768; 32767]];
   '(t, samples) ← decode_all s32 (replicate 12 7) (init 48000 2) [bytes];
   Some (length bytes, length samples, in_bits t)) = Some (3%nat, 6%nat, 6).
Proof. vm_compute. reflexivity. Qed.

End G722Stream.
