(* ===== verification/Random.v ===== *)
(** * Random numbers
    (common_audio/signal_processing/randomization_functions.c)

    A linear congruential generator of 31 bits, from which uniform and normal numbers
    are taken. The seed is read and written through a pointer: the functions return the
    new one. *)

From S2P Require Import Prelude.

Module Random.

Definition kMaxSeedUsed : Z := 0x80000000.

Definition kRandNTable : list Z :=
  [9178; -7260; 40; 10189; 4894; -3531; -13779; 14764; -4008; -8884; -8990; 1008; 7368; 5184;
   3251; -5817; -9786; 5963; 1770; 8066; -7135; 10772; -2298; 1361; 6484; 2241; -8633; 792;
   199; -3344; 6553; -10079; -15040; 95; 11608; -12469; 14161; -4176; 2476; 6403; 13685; -16005;
   6646; 2239; 10916; -3004; -602; -3141; 2142; 14144; -5829; 5305; 8209; 4713; 2697; -5112;
   16092; -1210; -2891; -6631; -5360; -11878; -6781; -2739; -6392; 536; 10923; 10872; 5059; -4748;
   -7770; 5477; 38; -1025; -2892; 1638; 6304; 14375; -11028; 1553; -1565; 10762; -393; 4040;
   5257; 12310; 6554; -4799; 4899; -6354; 1603; -1048; -2220; 8247; -186; -8944; -12004; 2332;
   4801; -4933; 6371; 131; 8614; -5927; -8287; -22760; 4033; -15162; 3385; 3246; 3153; -5250;
   3766; 784; 6494; -62; 3531; -1582; 15572; 662; -3952; -330; -3196; 669; 7236; -2678;
   -6569; 23319; -8645; -741; 14830; -15976; 4903; 315; -11342; 10311; 1858; -7777; 2145; 5436;
   5677; -113; -10033; 826; -1353; 17210; 7768; 986; -1471; 8291; -4982; 8207; -14911; -6255;
   -2449; -11881; -7059; -11703; -4338; 8025; 7538; -2823; -12490; 9470; -1613; -2529; -10092; -7807;
   9480; 6970; -12844; 5123; 3532; 4816; 4803; -8455; -5045; 14032; -4378; -1643; 5756; -11041;
   -2732; -16618; -6430; -18375; -3320; 6098; 5131; -4269; -8840; 2482; -7048; 1547; -21890; -6505;
   -7414; -424; -11722; 7955; 1653; -17299; 1823; 473; -9232; 3337; 1111; 873; 4018; -8982;
   9889; 3531; -11763; -3799; 7373; -4539; 3231; 7054; -8537; 7616; 6244; 16635; 447; -2915;
   13967; 705; -2669; -1520; -1771; -16188; 5956; 5117; 6371; -9936; -1448; 2480; 5128; 7550;
   -8130; 5236; 8213; -6443; 7707; -1950; -13811; 7218; 7031; -3883; 67; 5731; -2874; 13480;
   -3743; 9298; -3280; 3552; -4425; -18; -3785; -9988; -5357; 5477; -11794; 2117; 1416; -9935;
   3376; 802; -5079; -8243; 12652; 66; 3653; -2368; 6781; -21895; -7227; 2487; 7839; -385;
   6646; -7016; -4658; 5531; -1705; 834; 129; 3694; -1343; 2238; -22640; -6417; -11139; 11301;
   -2945; -3494; -5626; 185; -3615; -2041; -7972; -3106; -60; -23497; -1566; 17064; 3519; 2518;
   304; -6805; -10269; 2105; 1936; -426; -736; -8122; -1467; 4238; -6939; -13309; 360; 7402;
   -7970; 12576; 3287; 12194; -6289; -16006; 9171; 4042; -9193; 9123; -2512; 6388; -4734; -8739;
   1028; -5406; -1696; 5889; -666; -4736; 4971; 3565; 9362; -6292; 3876; -3652; -19666; 7523;
   -4061; 391; -11773; 7502; -3763; 4929; -9478; 13278; 2805; 4496; 7814; 16419; 12455; -14773;
   2127; -2746; 3763; 4847; 3698; 6978; 4751; -6957; -3581; -45; 6252; 1513; -4797; -7925;
   11270; 16188; -2359; -5269; 9376; -10777; 7262; 20031; -6515; -2208; -5353; 8085; -1341; -1303;
   7333; 5576; 3625; 5763; -7931; 9833; -3371; -10305; 6534; -13539; -9971; 997; 8464; -4064;
   -1495; 1857; 13624; 5458; 9490; -11086; -4524; 12022; -550; -198; 408; -8455; -7068; 10289;
   9712; -3366; 9028; -7621; -5243; 2362; 6909; 4672; -4933; -1799; 4709; -4563; -62; -566;
   1624; -7010; 14730; -17791; -3697; -2344; -1741; 7099; -9509; -6855; -1989; 3495; -2289; 2031;
   12784; 891; 14189; -3963; -5683; 421; -12575; 1724; -12682; -5970; -8169; 3143; -1824; -5488;
   -5130; 8536; 12799; 794; 5738; 3459; -11689; -258; -3738; -3775; -8742; 2333; 8312; -9383;
   10331; 13119; 8398; 10644; -19433; -6446; -16277; -11793; 16284; 9345; 15222; 15834; 2009; -7349;
   130; -14547; 338; -5998; 3337; 21492; 2406; 7703; -951; 11196; -564; 3406; 2217; 4806;
   2374; -5797; 11839; 8940; -11874; 18213; 2855; 10492].

Definition IncreaseSeed (seed : Z) : Z :=
  Z.land (u32 (seed * 69069 + 1)) (kMaxSeedUsed - 1).

(** The number and the seed. *)
Definition WebRtcSpl_RandU (seed : Z) : Z * Z :=
  let seed := IncreaseSeed seed in
  (s16 (seed >>i 16), seed).

Definition WebRtcSpl_RandN (seed : Z) : option (Z * Z) :=
  let seed := IncreaseSeed seed in
  x ← kRandNTable !! Z.to_nat (seed >>i 23);
  Some (x, seed).

(** The vector, the length and the seed. *)
Definition WebRtcSpl_RandUArray (vector : list Z) (vector_length seed : Z)
  : option (list Z * Z * Z) :=
  '(vector, seed) ← for_loop (Z.to_nat vector_length) 0 (λ i '(vector, seed),
    let '(x, seed) := WebRtcSpl_RandU seed in
    vector ← wr vector i x;
    Some (vector, seed)) (vector, seed);
  Some (vector, vector_length, seed).

(** ** The period *)

(** The sums of the powers of the multiplier. *)
Fixpoint powers (n : nat) : Z := match n with O => 0 | S n => 69069 * powers n + 1 end.

Lemma power_sum n : 69069 ^ Z.of_nat n = 69068 * powers n + 1.
Proof.
  induction n as [|n IH]; [done|]. rewrite Nat2Z.inj_succ, Z.pow_succ_r, IH by lia. cbn [powers]. lia.
Qed.

Lemma powers_add m n : powers (m + n) = 69069 ^ Z.of_nat n * powers m + powers n.
Proof.
  induction n as [|n IH]; [rewrite Nat.add_0_r; cbn [powers]; lia|].
  rewrite Nat.add_succ_r. cbn [powers]. rewrite IH, Nat2Z.inj_succ, Z.pow_succ_r by lia. lia.
Qed.

Lemma powers_double n : powers (2 * n) = 2 * powers n * (2 * (17267 * powers n) + 1).
Proof.
  replace (2 * n)%nat with (n + n)%nat by lia. rewrite powers_add, power_sum. lia.
Qed.

Lemma odd_divide k a b : 0 ≤ k → (2 ^ k | a * (2 * b + 1)) ↔ (2 ^ k | a).
Proof.
  intros Hk. split; [|intros H; by apply Z.divide_mul_l].
  rewrite Z.mul_comm. intros H. apply (Z.gauss _ (2 * b + 1)); [done|].
  apply Z.coprime_pow_l; [done|]. apply Z.bezout_1_gcd. exists (- b), 1. lia.
Qed.

(** The sum is divisible by the powers of two that divide the number of its terms. *)
Lemma powers_divide n : ∀ k, 0 ≤ k → (2 ^ k | powers n) ↔ (2 ^ k | Z.of_nat n).
Proof.
  induction n as [n IH] using (well_founded_induction lt_wf). intros k Hk.
  destruct (Z.eq_dec k 0) as [->|Hk0].
  { split; intros _; apply Z.divide_1_l. }
  destruct (Nat.Even_or_Odd n) as [[m ->]|[m ->]].
  - destruct (Nat.eq_dec m 0) as [->|Hm]; [done|]. rewrite powers_double, odd_divide by done.
    replace k with (Z.succ (k - 1)) by lia. rewrite Z.pow_succ_r by lia.
    rewrite Nat2Z.inj_mul. change (Z.of_nat 2) with 2.
    rewrite !Z.mul_divide_cancel_l by lia. apply IH; lia.
  - assert (H2 : ∀ x, (2 ^ k | 2 * x + 1) → False).
    { intros x [y Hy]. replace k with (Z.succ (k - 1)) in Hy by lia. rewrite Z.pow_succ_r in Hy by lia. lia. }
    split; intros H; exfalso.
    + rewrite Nat.add_1_r in H. cbn [powers] in H. rewrite powers_double in H.
      apply (H2 (69069 * (powers m * (2 * (17267 * powers m) + 1)))).
      replace (2 * (69069 * (powers m * (2 * (17267 * powers m) + 1))) + 1)
        with (69069 * (2 * powers m * (2 * (17267 * powers m) + 1)) + 1) by lia. done.
    + apply (H2 (Z.of_nat m)). rewrite Nat2Z.inj_add, Nat2Z.inj_mul in H. done.
Qed.

(** The seeds of a generator that has started. *)
Definition seed_ok (x : Z) : Prop := 0 ≤ x < 2147483648.

Lemma IncreaseSeed_mod x : IncreaseSeed x = (x * 69069 + 1) mod 2147483648.
Proof.
  unfold IncreaseSeed, kMaxSeedUsed. change (2147483648 - 1) with (Z.ones 31).
  rewrite Z.land_ones by lia. change (2 ^ 31) with 2147483648. unfold u32.
  change 4294967296 with (2147483648 * 2). rewrite Z.rem_mul_r by lia.
  rewrite (Z.mul_comm 2147483648 (_ mod 2)), Z.mod_add, Z.mod_mod by lia. done.
Qed.

Lemma IncreaseSeed_range x : seed_ok (IncreaseSeed x).
Proof. rewrite IncreaseSeed_mod. apply Z.mod_pos_bound. lia. Qed.

(** The seed after [n] numbers. *)
Definition seeds (n : nat) (x : Z) : Z := Nat.iter n IncreaseSeed x.

Lemma seeds_formula n x : seed_ok x →
  seeds n x = (69069 ^ Z.of_nat n * x + powers n) mod 2147483648.
Proof.
  intros Hx. induction n as [|n IH].
  { cbn. rewrite Z.mod_small; unfold seed_ok in Hx; lia. }
  change (seeds (S n) x) with (IncreaseSeed (seeds n x)). rewrite IncreaseSeed_mod, IH.
  rewrite <- Zplus_mod_idemp_l, Zmult_mod_idemp_l, Zplus_mod_idemp_l. f_equal. cbn [powers].
  rewrite Nat2Z.inj_succ, Z.pow_succ_r by lia. lia.
Qed.

Lemma seeds_ok n x : seed_ok x → seed_ok (seeds n x).
Proof. intros Hx. rewrite seeds_formula by done. apply Z.mod_pos_bound. lia. Qed.

Lemma seeds_add m n x : seeds (m + n) x = seeds m (seeds n x).
Proof. apply Nat.iter_add. Qed.

(** The generator is back at a seed exactly after a multiple of 2^31 numbers. *)
Lemma seeds_return d x : seed_ok x → seeds d x = x ↔ (2147483648 | Z.of_nat d).
Proof.
  intros Hx. change 2147483648 with (2 ^ 31). rewrite <- (powers_divide d 31) by lia.
  change (2 ^ 31) with 2147483648. rewrite seeds_formula by done.
  assert (E : 69069 ^ Z.of_nat d * x + powers d = x + powers d * (2 * (34534 * x) + 1))
    by (rewrite power_sum; lia).
  rewrite E, <- (odd_divide 31 (powers d) (34534 * x)) by lia. change (2 ^ 31) with 2147483648.
  set (p := powers d * (2 * (34534 * x) + 1)). split.
  - intros H. exists ((x + p) / 2147483648 - 0). pose proof (Z.div_mod (x + p) 2147483648). lia.
  - intros [k Hk]. rewrite Hk, Z.mod_add, Z.mod_small by (unfold seed_ok in Hx; lia). done.
Qed.

Lemma seeds_distinct m n x : seed_ok x → (m < n)%nat → Z.of_nat n - Z.of_nat m < 2147483648 →
  seeds m x ≠ seeds n x.
Proof.
  intros Hx Hmn Hd E. replace n with ((n - m) + m)%nat in E by lia. rewrite seeds_add in E.
  symmetry in E. apply seeds_return in E as [k Hk]; [|by apply seeds_ok]. lia.
Qed.

(** Every seed is reached: the seeds of a period are different, and as many as there
    are. *)
Lemma seeds_reach x y : seed_ok x → seed_ok y → ∃ n, Z.of_nat n < 2147483648 ∧ seeds n x = y.
Proof.
  intros Hx Hy. assert (HN : ∃ N, Z.of_nat N = 2147483648) by (exists (Z.to_nat 2147483648); lia).
  destruct HN as [N HN].
  assert (Hincl : incl (map Z.of_nat (List.seq 0 N)) (map (λ n, seeds n x) (List.seq 0 N))).
  { apply NoDup_length_incl.
    - apply Finite.Injective_map_NoDup_in.
      + intros m n Hm Hn E. apply in_seq in Hm, Hn.
        destruct (Nat.lt_trichotomy m n) as [H|[H|H]]; [|done|]; exfalso;
          [apply (seeds_distinct m n x)|apply (seeds_distinct n m x)]; done || lia.
      + apply seq_NoDup.
    - by rewrite !length_map.
    - intros z Hz. apply in_map_iff in Hz as (n & <- & _). apply in_map_iff.
      pose proof (seeds_ok n x Hx) as Hr. unfold seed_ok in Hr.
      exists (Z.to_nat (seeds n x)). split; [lia|]. apply in_seq. lia. }
  specialize (Hincl y). destruct (proj1 (in_map_iff _ _ _) (Hincl ltac:(apply in_map_iff;
    exists (Z.to_nat y); unfold seed_ok in Hy; split; [lia|apply in_seq; lia]))) as (n & E & Hn).
  apply in_seq in Hn. exists n. split; [lia|done].
Qed.

(** C38: The generator has the full period. From any seed of 31 bits, two seeds less than
    2^31 numbers apart are different, after 2^31 numbers the seed is back, and every seed
    of 31 bits comes up. *)
Theorem random_full_period (x : Z) : seed_ok x →
  (∀ m n, (m < n)%nat → Z.of_nat n - Z.of_nat m < 2147483648 → seeds m x ≠ seeds n x) ∧
  (∀ n, Z.of_nat n = 2147483648 → seeds n x = x) ∧
  (∀ y, seed_ok y → ∃ n, Z.of_nat n < 2147483648 ∧ seeds n x = y).
Proof.
  intros Hx. split_and!.
  - intros m n Hmn Hd. by apply seeds_distinct.
  - intros n Hn. apply seeds_return; [done|]. rewrite Hn. exists 1. lia.
  - intros y Hy. by apply seeds_reach.
Qed.

Lemma random_full_period_witness : seeds 3 777 = 2054313332 ∧
  (∀ m n, (m < n)%nat → Z.of_nat n - Z.of_nat m < 2147483648 → seeds m 777 ≠ seeds n 777) ∧
  (∀ n, Z.of_nat n = 2147483648 → seeds n 777 = 777) ∧
  (∀ y, seed_ok y → ∃ n, Z.of_nat n < 2147483648 ∧ seeds n 777 = y).
Proof. split; [reflexivity|]. apply (random_full_period 777). unfold seed_ok. lia. Defined.

(** ** The numbers *)

(** The numbers use half of their range. A uniform number is never negative, the top
    fifteen bits of the seed of 31, although the header promises the range of a 16-bit
    integer; and a normal number comes from the first 256 entries of the table, which has
    512. *)
Theorem random_half_range (seed : Z) :
  (let '(x, seed') := WebRtcSpl_RandU seed in
   seed' = IncreaseSeed seed ∧ x = IncreaseSeed seed / 65536 ∧ 0 ≤ x ≤ 32767) ∧
  wp (WebRtcSpl_RandN seed) (λ '(x, seed'),
    seed' = IncreaseSeed seed ∧ ∃ i, (i < 256)%nat ∧ kRandNTable !! i = Some x) ∧
  length kRandNTable = 512%nat.
Proof.
  pose proof (IncreaseSeed_range seed) as Hs. unfold seed_ok in Hs. split_and!; [| |reflexivity].
  - unfold WebRtcSpl_RandU. rewrite Z.shiftr_div_pow2 by lia. change (2 ^ 16) with 65536.
    assert (0 ≤ IncreaseSeed seed / 65536 ≤ 32767)
      by (split; [apply Z.div_pos; lia|apply Z.lt_succ_r, Z.div_lt_upper_bound; lia]).
    rewrite s16_id by (unfold int16; lia). done.
  - unfold WebRtcSpl_RandN. rewrite Z.shiftr_div_pow2 by lia. change (2 ^ 23) with 8388608.
    assert (Hi : 0 ≤ IncreaseSeed seed / 8388608 < 256)
      by (split; [apply Z.div_pos; lia|apply Z.div_lt_upper_bound; lia]).
    apply wp_bind, wp_lookup; [change (length kRandNTable) with 512%nat; lia|].
    intros x Hx. cbn. split; [done|]. eexists. split; [|exact Hx]. lia.
Qed.

(** A vector of uniform numbers: those of the next seeds, in their order. *)
Lemma RandUArray_ok vector n seed : (n ≤ length vector)%nat →
  wp (WebRtcSpl_RandUArray vector (Z.of_nat n) seed) (λ '(vector', len, seed'),
    len = Z.of_nat n ∧ seed' = seeds n seed ∧ length vector' = length vector ∧
    (∀ i, (i < n)%nat → vector' !! i = Some (seeds (S i) seed / 65536)) ∧
    drop n vector' = drop n vector).
Proof.
  intros Hn. unfold WebRtcSpl_RandUArray. rewrite Nat2Z.id. apply wp_bind.
  apply (wp_for (λ k '(v, s), s = seeds k seed ∧ length v = length vector ∧
    (∀ i, (i < k)%nat → v !! i = Some (seeds (S i) seed / 65536)) ∧ drop n v = drop n vector)).
  - split_and!; [done|done|lia|done].
  - intros k [v s] Hk (-> & Hl & Hv & Hd). unfold WebRtcSpl_RandU.
    change (IncreaseSeed (seeds k seed)) with (seeds (S k) seed).
    pose proof (IncreaseSeed_range (seeds k seed)) as Hs. unfold seed_ok in Hs.
    change (IncreaseSeed (seeds k seed)) with (seeds (S k) seed) in Hs.
    rewrite Z.shiftr_div_pow2 by lia. change (2 ^ 16) with 65536.
    rewrite s16_id.
    2: { unfold int16. pose proof (Z.div_pos (seeds (S k) seed) 65536).
         pose proof (Z.div_lt_upper_bound (seeds (S k) seed) 65536 32768). lia. }
    apply wp_bind, wp_wr; [lia|]. cbn [wp]. rewrite length_insert. split_and!; [done|done| |].
    + intros i Hi. destruct (decide (i = k)) as [->|]; [rewrite list_lookup_insert_eq by lia; done|].
      rewrite list_lookup_insert_ne by lia. apply Hv. lia.
    + rewrite drop_insert_lt by lia. done.
  - intros [v s] (-> & Hl & Hv & Hd). cbn. done.
Qed.

End Random.
