(* ===== verification/Hanning.v ===== *)
(** * The Hanning window
    (common_audio/signal_processing/get_hanning_window.c)

    The rising half of the window is read from a table with a fixed-point index. *)

From stdpp Require Import sorting.
From S2P Require Import Prelude SplInl.
Import SplInl.

Module Hanning.

Definition kHanningTable : list Z :=
  [1; 2; 6; 10; 15; 22; 30; 39; 50; 62; 75; 89; 104; 121;
   138; 157; 178; 199; 222; 246; 271; 297; 324; 353; 383; 413; 446; 479;
   513; 549; 586; 624; 663; 703; 744; 787; 830; 875; 920; 967; 1015; 1064;
   1114; 1165; 1218; 1271; 1325; 1381; 1437; 1494; 1553; 1612; 1673; 1734; 1796; 1859;
   1924; 1989; 2055; 2122; 2190; 2259; 2329; 2399; 2471; 2543; 2617; 2691; 2765; 2841;
   2918; 2995; 3073; 3152; 3232; 3312; 3393; 3475; 3558; 3641; 3725; 3809; 3895; 3980;
   4067; 4154; 4242; 4330; 4419; 4509; 4599; 4689; 4781; 4872; 4964; 5057; 5150; 5244;
   5338; 5432; 5527; 5622; 5718; 5814; 5910; 6007; 6104; 6202; 6299; 6397; 6495; 6594;
   6693; 6791; 6891; 6990; 7090; 7189; 7289; 7389; 7489; 7589; 7690; 7790; 7890; 7991;
   8091; 8192; 8293; 8393; 8494; 8594; 8694; 8795; 8895; 8995; 9095; 9195; 9294; 9394;
   9493; 9593; 9691; 9790; 9889; 9987; 10085; 10182; 10280; 10377; 10474; 10570; 10666; 10762;
   10857; 10952; 11046; 11140; 11234; 11327; 11420; 11512; 11603; 11695; 11785; 11875; 11965; 12054;
   12142; 12230; 12317; 12404; 12489; 12575; 12659; 12743; 12826; 12909; 12991; 13072; 13152; 13232;
   13311; 13389; 13466; 13543; 13619; 13693; 13767; 13841; 13913; 13985; 14055; 14125; 14194; 14262;
   14329; 14395; 14460; 14525; 14588; 14650; 14711; 14772; 14831; 14890; 14947; 15003; 15059; 15113;
   15166; 15219; 15270; 15320; 15369; 15417; 15464; 15509; 15554; 15597; 15640; 15681; 15721; 15760;
   15798; 15835; 15871; 15905; 15938; 15971; 16001; 16031; 16060; 16087; 16113; 16138; 16162; 16185;
   16206; 16227; 16246; 16263; 16280; 16295; 16309; 16322; 16334; 16345; 16354; 16362; 16369; 16374;
   16378; 16382; 16383; 16384].

(** The index can be negative: then the read is outside the table. *)
Definition WebRtcSpl_GetHanningWindow (v : list Z) (size : nat) : option (list Z) :=
  let factor := 0x40000000 in
  let factor := WebRtcSpl_DivW32W16 factor (s16 (Z.of_nat size)) in
  let index := if (size <? 513)%nat then -0x200000 else -0x100000 in
  '(v, _) ← for_loop size 0 (λ jj '(v, index),
    let index := index +i factor in
    x ← rdz kHanningTable (index >>i 22);
    v ← wr v jj x;
    Some (v, index)) (v, index);
  Some v.

(** ** Properties *)

(** The table rises. *)
Fixpoint rising (l : list Z) : bool :=
  match l with
  | x :: (y :: _) as l' => (x <=? y) && rising l'
  | _ => true
  end.

Lemma rising_lookup l : rising l = true → ∀ i j x y, (i ≤ j)%nat → l !! i = Some x → l !! j = Some y → x ≤ y.
Proof.
  assert (Hstep : ∀ l, rising l = true → ∀ j x y, l !! 0%nat = Some x → l !! j = Some y → x ≤ y).
  { clear l. induction l as [|a l IH]; intros Hr j x y Hx Hy; [done|]. injection Hx as ->.
    destruct j as [|j]; [by injection Hy as ->|]. cbn in Hy. destruct l as [|b l]; [done|].
    cbn [rising] in Hr. apply andb_true_iff in Hr as [H1%Z.leb_le H2].
    transitivity b; [done|]. exact (IH H2 j b y eq_refl Hy). }
  induction l as [|a l IH]; intros Hr i j x y Hij Hx Hy; [done|].
  destruct i as [|i]; [exact (Hstep _ Hr j x y Hx Hy)|]. destruct j as [|j]; [lia|].
  cbn in Hx, Hy. apply (IH ltac:(destruct l; [done|]; cbn [rising] in Hr; apply andb_true_iff in Hr; apply Hr) i j);
    done || lia.
Qed.

Lemma kHanningTable_rising : rising kHanningTable = true.
Proof. reflexivity. Qed.

(** The start of the index and its step. *)
Definition start (size : nat) : Z := if (size <? 513)%nat then -2097152 else -1048576.
Definition step (size : nat) : Z := 1073741824 / Z.of_nat size.

Lemma factor_step size : 1 ≤ Z.of_nat size ≤ 32767 →
  WebRtcSpl_DivW32W16 1073741824 (s16 (Z.of_nat size)) = step size ∧
  0 < step size ≤ 1073741824 ∧
  Z.of_nat size * step size ≤ 1073741824 < Z.of_nat size * step size + Z.of_nat size.
Proof.
  intros Hs. rewrite s16_id by (unfold int16; lia). unfold WebRtcSpl_DivW32W16, step.
  rewrite (proj2 (Z.eqb_neq (Z.of_nat size) 0)) by lia. cbn [negb]. rewrite Z.quot_div_nonneg by lia.
  pose proof (Z.div_mod 1073741824 (Z.of_nat size) ltac:(lia)).
  pose proof (Z.mod_pos_bound 1073741824 (Z.of_nat size) ltac:(lia)).
  assert (0 < 1073741824 / Z.of_nat size) by (apply Z.div_str_pos; lia).
  assert (1073741824 / Z.of_nat size ≤ 1073741824) by (apply Z.div_le_upper_bound; lia).
  rewrite s32_id by (unfold int32; lia). lia.
Qed.

(** The index of a sample. *)
Definition index (size i : nat) : Z := start size + Z.of_nat (S i) * step size.

Lemma index_range size i : 1 ≤ Z.of_nat size ≤ 1024 → (i < size)%nat →
  0 ≤ index size i / 4194304 ≤ 255.
Proof.
  intros Hs Hi. destruct (factor_step size ltac:(lia)) as (_ & Hf & Hp & _). unfold index, start.
  assert (Z.of_nat (S i) * step size ≤ Z.of_nat size * step size) by (apply Z.mul_le_mono_nonneg_r; lia).
  assert (step size ≤ Z.of_nat (S i) * step size) by nia.
  assert (Hlo : 0 ≤ (if (size <? 513)%nat then -2097152 else -1048576) + step size).
  { destruct (Nat.ltb_spec size 513).
    - assert (2097152 ≤ step size) by (apply Z.div_le_lower_bound; lia). lia.
    - assert (1048576 ≤ step size) by (apply Z.div_le_lower_bound; lia). lia. }
  destruct (size <? 513)%nat; split; try (apply Z.div_pos; lia);
    apply Z.lt_succ_r, Z.div_lt_upper_bound; lia.
Qed.

(** The Hanning window. For sizes up to 1024, and so for the documented ones, every
    read is in the table; the window rises from sample to sample, stays between 1 and
    16384 (1.0 in Q14) and ends in 16384; nothing else is written. For larger sizes the first
    read is outside the table. *)
Theorem hanning_window (v : list Z) (size : nat) :
  1 ≤ Z.of_nat size ≤ 32767 → (size ≤ length v)%nat →
  if decide (size ≤ 1024)%nat then
    wp (WebRtcSpl_GetHanningWindow v size) (λ v',
      length v' = length v ∧ drop size v' = drop size v ∧
      (∀ i j x y, (i ≤ j < size)%nat → v' !! i = Some x → v' !! j = Some y → 1 ≤ x ≤ y ∧ y ≤ 16384) ∧
      v' !! (size - 1)%nat = Some 16384)
  else WebRtcSpl_GetHanningWindow v size = None.
Proof.
  intros Hs Hv. destruct (factor_step size ltac:(lia)) as (Ef & Hf & Hp & Hp').
  unfold WebRtcSpl_GetHanningWindow. change 0x40000000 with 1073741824. rewrite Ef.
  change (-0x200000) with (-2097152). change (-0x100000) with (-1048576). fold (start size).
  case_decide as Hd.
  - apply wp_bind. apply (wp_for (λ n '(w, ix), ix = start size + Z.of_nat n * step size ∧
      length w = length v ∧ drop size w = drop size v ∧
      ∀ i, (i < n)%nat → w !! i = kHanningTable !! Z.to_nat (index size i / 4194304))).
    + split_and!; [lia|done|done|lia].
    + intros n [w ix] Hn (-> & Hl & Hdr & Hw). pose proof (index_range size n ltac:(lia) ltac:(lia)) as Hr.
      assert (Hb : -2097152 ≤ start size ≤ 0) by (unfold start; destruct (size <? 513)%nat; lia).
      assert (Z.of_nat (S n) * step size ≤ Z.of_nat size * step size) by (apply Z.mul_le_mono_nonneg_r; lia).
      rewrite s32_id by (unfold int32; lia).
      replace (start size + Z.of_nat n * step size + step size) with (index size n) by (unfold index; lia).
      rewrite Z.shiftr_div_pow2 by lia. change (2 ^ 22) with 4194304. unfold rdz.
      rewrite (proj2 (Z.leb_le 0 _)) by lia.
      apply wp_bind, wp_lookup; [change (length kHanningTable) with 256%nat; lia|]. intros x Hx.
      apply wp_bind, wp_wr; [lia|]. cbn [wp]. rewrite length_insert. split_and!; [unfold index; lia|done| |].
      * by rewrite drop_insert_lt by lia.
      * intros i Hi. destruct (decide (i = n)) as [->|]; [by rewrite list_lookup_insert_eq by lia|].
        rewrite list_lookup_insert_ne by lia. apply Hw. lia.
    + intros [w ix] (_ & Hl & Hdr & Hw). cbn [wp]. split_and!; [done|done| |].
      * intros i j x y Hij Hx Hy. rewrite Hw in Hx, Hy by lia.
        assert (Hm : (Z.to_nat (index size i / 4194304) ≤ Z.to_nat (index size j / 4194304))%nat).
        { apply Z2Nat.inj_le; [apply index_range; lia|apply index_range; lia|].
          apply Z.div_le_mono; [lia|]. unfold index. nia. }
        pose proof (index_range size j ltac:(lia) ltac:(lia)).
        split_and!; [exact (rising_lookup _ kHanningTable_rising 0 _ 1 x ltac:(lia) eq_refl Hx)
                    |exact (rising_lookup _ kHanningTable_rising _ _ x y Hm Hx Hy)
                    |exact (rising_lookup _ kHanningTable_rising (Z.to_nat (index size j / 4194304)) 255 y 16384 ltac:(lia) Hy eq_refl)].
      * rewrite Hw by lia. replace (index size (size - 1) / 4194304) with 255; [done|].
        apply Z.div_unique with (index size (size - 1) - 255 * 4194304); [left|lia].
        unfold index, start. replace (S (size - 1)) with size by lia. destruct (size <? 513)%nat; lia.
  - assert (Hst : start size = -1048576) by (unfold start; destruct (Nat.ltb_spec size 513); [lia|done]).
    assert (step size < 1048576) by (apply Z.div_lt_upper_bound; lia).
    destruct size as [|n]; [lia|]. cbn [for_loop]. rewrite Hst, (s32_id (-1048576 + step (S n))) by (unfold int32; lia).
    rewrite Z.shiftr_div_pow2 by lia. change (2 ^ 22) with 4194304. unfold rdz.
    rewrite (proj2 (Z.leb_gt 0 _)); [done|]. apply Z.div_lt_upper_bound; lia.
Qed.

Lemma hanning_window_witness :
  WebRtcSpl_GetHanningWindow (replicate 5 0) 4 = Some [2399; 8192; 13985; 16384; 0] ∧
  if decide (4 ≤ 1024)%nat then
    wp (WebRtcSpl_GetHanningWindow (replicate 5 0) 4) (λ v',
      length v' = 5%nat ∧ drop 4 v' = drop 4 (replicate 5 0) ∧
      (∀ i j x y, (i ≤ j < 4)%nat → v' !! i = Some x → v' !! j = Some y → 1 ≤ x ≤ y ∧ y ≤ 16384) ∧
      v' !! (4 - 1)%nat = Some 16384)
  else WebRtcSpl_GetHanningWindow (replicate 5 0) 4 = None.
Proof.
  split; [reflexivity|]. apply (hanning_window (replicate 5 0) 4); [lia|cbn; lia].
Defined.

End Hanning.
