(* ===== verification/Correlation.v ===== *)
(** * Correlations and dot products
    (common_audio/signal_processing: auto_correlation.c, cross_correlation.c,
    dot_product_with_scale.cc; WebRtcSpl_CrossCorrelation and WebRtcSpl_MaxAbsValueW16 are
    the portable versions)

    Sums of scaled products of 16-bit samples. Two of the loops are unrolled by four;
    [unrolled_loop] shows once that this changes nothing. *)

From S2P Require Import Prelude SplInl Energy MinMax SeqNum.
Import SplInl Energy MinMax.

Module Correlation.

(** A loop over [n] indices, unrolled by four: [for (j = 0; j + 3 < n; j += 4)] with four
    copies of the body, then [for (; j < n; j++)]. *)
Definition unrolled {S} (n : nat) (body : nat → S → option S) (s : S) : option S :=
  s ← for_loop (n / 4) 0 (λ k s,
    s ← body (4 * k + 0)%nat s;
    s ← body (4 * k + 1)%nat s;
    s ← body (4 * k + 2)%nat s;
    body (4 * k + 3)%nat s) s;
  for_loop (n - 4 * (n / 4)) (4 * (n / 4)) body s.

(** The scale factor. *)
Definition correlation_scaling (smax : Z) (in_vector_length : nat) : Z :=
  if smax =? 0 then 0
  else
    let nbits := WebRtcSpl_GetSizeInBits (u32 (Z.of_nat in_vector_length)) in
    let t := WebRtcSpl_NormW32 (smax *i smax) in
    if nbits <? t then 0 else nbits -i t.

(** The result, the scale factor and the number of results. *)
Definition WebRtcSpl_AutoCorrelation (in_vector : list Z) (in_vector_length order : nat) (result : list Z)
  : option (list Z * Z * nat) :=
  _ ← dcheck (order <=? in_vector_length)%nat;
  smax ← WebRtcSpl_MaxAbsValueW16C in_vector in_vector_length;
  let scaling := correlation_scaling smax in_vector_length in
  result ← for_loop (order + 1) 0 (λ i result,
    sum ← unrolled (in_vector_length - i) (λ j sum,
      a ← in_vector !! j;
      b ← in_vector !! (i + j)%nat;
      p ← shr32 (a *i b) scaling;
      Some (sum +i p)) 0;
    wr result i sum) result;
  Some (result, scaling, (order + 1)%nat).

(** [seq2] is an array and a pointer into it, which moves by [step_seq2]. *)
Definition WebRtcSpl_CrossCorrelationC (cross_correlation seq1 seq2 : list Z) (seq2_ptr : Z)
    (dim_seq dim_cross_correlation : nat) (right_shifts step_seq2 : Z) : option (list Z) :=
  '(cross_correlation, _) ← for_loop dim_cross_correlation 0 (λ i '(cross_correlation, p),
    corr ← for_loop dim_seq 0 (λ j corr,
      a ← seq1 !! j;
      b ← rdz seq2 (p + Z.of_nat j);
      c ← shr32 (a *i b) right_shifts;
      Some (corr +i c)) 0;
    cross_correlation ← wr cross_correlation i corr;
    Some (cross_correlation, p + step_seq2)) (cross_correlation, seq2_ptr);
  Some cross_correlation.

(** The sum has 64 bits. *)
Definition WebRtcSpl_DotProductWithScale (vector1 vector2 : list Z) (length : nat) (scaling : Z) : option Z :=
  sum ← unrolled length (λ i sum,
    a ← vector1 !! i;
    b ← vector2 !! i;
    p ← shr32 (a *i b) scaling;
    Some (SeqNum.s64 (sum + p))) 0;
  Some (clamp (-2147483648) 2147483647 sum).

(** ** Loops *)

Lemma unrolled_loop {S} (n : nat) (body : nat → S → option S) (s : S) :
  unrolled n body s = for_loop n 0 body s.
Proof.
  transitivity (for_loop (4 * (n / 4) + (n - 4 * (n / 4))) 0 body s).
  2: { f_equal. pose proof (Nat.div_mod n 4 ltac:(lia)). lia. }
  unfold unrolled. rewrite for_loop_app. change 0%nat with (4 * 0)%nat at 4.
  rewrite <- (for_loop_nest (n / 4) 4 0). rewrite Nat.add_0_l.
  assert (E : ∀ s, for_loop (n / 4) 0 (λ k s,
      s ← body (4 * k + 0)%nat s; s ← body (4 * k + 1)%nat s; s ← body (4 * k + 2)%nat s;
      body (4 * k + 3)%nat s) s =
    for_loop (n / 4) 0 (λ b s, for_loop 4 0 (λ j, body (4 * b + j)%nat) s) s).
  { intros s0. apply for_loop_ext. intros k t Hk. cbn [for_loop].
    destruct (body (4 * k + 0)%nat t) as [t1|]; [|done]. cbn [mbind option_bind].
    destruct (body (4 * k + 1)%nat t1) as [t2|]; [|done]. cbn [mbind option_bind].
    destruct (body (4 * k + 2)%nat t2) as [t3|]; [|done]. cbn [mbind option_bind].
    by destruct (body (4 * k + 3)%nat t3). }
  by rewrite E.
Qed.

(** The sum of the terms [f 0, ..., f (n - 1)]. *)
Definition total (f : nat → Z) (n : nat) : Z := sum (map f (seq 0 n)).

Lemma total_of_app a b : sum (a ++ b) = sum a + sum b.
Proof. unfold sum. induction a as [|x a IH]; cbn [app fold_right]; [done|]. rewrite IH. lia. Qed.

Lemma total_S f n : total f (S n) = total f n + f n.
Proof. unfold total. rewrite seq_S, map_app, total_of_app. cbn. lia. Qed.

Lemma total_bound f n b : (∀ j, (j < n)%nat → Z.abs (f j) ≤ b) → Z.abs (total f n) ≤ b * Z.of_nat n.
Proof.
  induction n as [|n IH]; intros H; [cbn; lia|]. rewrite total_S.
  pose proof (H n ltac:(lia)). specialize (IH (λ j Hj, H j ltac:(lia))). lia.
Qed.

(** A loop that adds terms whose sum cannot overflow computes the sum. *)
Lemma sum_loop (wrap : Z → Z) (term : nat → option Z) (f : nat → Z) (n : nat) (b m : Z) :
  (∀ z, - m - 1 ≤ z ≤ m → wrap z = z) → (∀ j, (j < n)%nat → term j = Some (f j) ∧ Z.abs (f j) ≤ b) →
  b * Z.of_nat n ≤ m → 0 ≤ b →
  for_loop n 0 (λ j s, t ← term j; Some (wrap (s + t))) 0 = Some (total f n).
Proof.
  intros Hw Ht Hm Hb. enough (H : ∀ k, (k ≤ n)%nat →
    for_loop k 0 (λ j s, t ← term j; Some (wrap (s + t))) 0 = Some (total f k)) by (by apply H).
  induction k as [|k IH]; intros Hk; [done|].
  replace (S k) with (k + 1)%nat by lia. rewrite for_loop_app, IH by lia. cbn [mbind option_bind for_loop].
  rewrite Nat.add_0_l. destruct (Ht k ltac:(lia)) as [-> Hf]. cbn [mbind option_bind].
  replace (k + 1)%nat with (S k) by lia. rewrite total_S. f_equal. apply Hw. rewrite <- total_S.
  pose proof (total_bound f (S k) b (λ j Hj, proj2 (Ht j ltac:(lia)))). nia.
Qed.

(** ** The scale factor *)

(** A term of the auto-correlation, of the lag [i]. *)
Definition lagged (x : list Z) (s : Z) (i j : nat) : Z := Z.shiftr (x !!! j * x !!! (i + j)%nat) s.

Lemma shiftr_abs p s b : 0 ≤ s → Z.abs p ≤ b * 2 ^ s → Z.abs (Z.shiftr p s) ≤ b.
Proof.
  intros Hs Hp. rewrite Z.shiftr_div_pow2 by done. assert (0 < 2 ^ s) by (apply Z.pow_pos_nonneg; lia).
  assert (- b ≤ p / 2 ^ s) by (apply Z.div_le_lower_bound; lia).
  assert (p / 2 ^ s < b + 1) by (apply Z.div_lt_upper_bound; lia). lia.
Qed.

(** The scaled products leave room for as many additions as there are samples; the most
    negative sample, whose magnitude the maximum does not show, included. *)
Lemma scaling_ok (n : nat) (m : Z) : 0 < Z.of_nat n < 2147483648 → 0 ≤ m ≤ 32768 →
  let s := correlation_scaling (Z.min m 32767) n in
  0 ≤ s ≤ 31 ∧ ∀ a b, Z.abs a ≤ m → Z.abs b ≤ m →
    Z.abs (Z.shiftr (a * b) s) ≤ 2 ^ (30 - Z.log2 (Z.of_nat n)).
Proof.
  intros Hn Hm s. unfold correlation_scaling in s.
  pose proof (log2_small (Z.of_nat n) 31 ltac:(lia)) as Hk. set (k := Z.log2 (Z.of_nat n)) in *.
  assert (Hpos : 0 < 2 ^ (30 - k)) by (apply Z.pow_pos_nonneg; lia).
  destruct (Z.eqb_spec (Z.min m 32767) 0) as [E|E].
  { unfold s. split; [lia|]. intros a b Ha Hb. assert (m = 0) by lia. replace a with 0 by lia. rewrite Z.mul_0_l, Z.shiftr_0_l. change (Z.abs 0) with 0. lia. }
  destruct (norm_square (Z.min m 32767) E ltac:(lia)) as [Ht Hp].
  set (t := WebRtcSpl_NormW32 (Z.min m 32767 *i Z.min m 32767)) in *.
  assert (Hs : s = Z.max 0 (k + 1 - t)).
  { unfold s. cbv zeta. rewrite u32_id by (unfold uint32; lia). rewrite size_in_bits_log2 by lia.
    fold k. clearbody t. destruct (Z.ltb_spec (k + 1) t); [lia|]. rewrite s32_id by (unfold int32; lia). lia. }
  clearbody s t. subst s. split; [lia|]. intros a b Ha Hb.
  assert (Hsq : m * m * 2 ^ t ≤ 2147483648).
  { destruct (Z.eq_dec m 32768) as [->|]; [|rewrite !(Z.min_l m 32767) in Hp by lia; apply Z.lt_le_incl; exact Hp].
    assert (t = 1) as ->; [|done]. destruct (Z.eq_dec t 1); [done|]. exfalso.
    assert (2 ^ 2 ≤ 2 ^ t) by (apply Z.pow_le_mono_r; lia). change (Z.min 32768 32767) with 32767 in Hp.
    change (2 ^ 2) with 4 in *. set (w := 2 ^ t) in *. clearbody w. lia. }
  assert (Hab : Z.abs (a * b) ≤ m * m) by (rewrite Z.abs_mul; nia).
  apply shiftr_abs; [lia|]. rewrite <- Z.pow_add_r by lia.
  assert (Hmono : 2 ^ (31 - t) ≤ 2 ^ (30 - k + Z.max 0 (k + 1 - t))) by (apply Z.pow_le_mono_r; lia).
  assert (E31 : 2 ^ (31 - t) * 2 ^ t = 2147483648) by (rewrite <- Z.pow_add_r by lia; by replace (31 - t + t) with 31 by lia).
  assert (0 < 2 ^ t) by (apply Z.pow_pos_nonneg; lia). nia.
Qed.

Lemma MaxAbs_take x n : (n ≤ length x)%nat →
  WebRtcSpl_MaxAbsValueW16C x n = WebRtcSpl_MaxAbsValueW16C (take n x) (length (take n x)).
Proof.
  intros Hn. rewrite length_take_le by done. unfold WebRtcSpl_MaxAbsValueW16C.
  destruct (dcheck (0 <? n)%nat) as [[]|]; [|done]. cbn [mbind option_bind]. f_equal.
  apply for_loop_ext. intros i s Hi. by rewrite lookup_take_lt by lia.
Qed.

Lemma shr_product a b s : int16 a → int16 b → 0 ≤ s ≤ 31 → shr32 (a *i b) s = Some (Z.shiftr (a * b) s).
Proof.
  intros Ha Hb Hs. unfold shr32. rewrite (proj2 (Z.leb_le 0 s)), (proj2 (Z.ltb_lt s 32)) by lia.
  cbn [andb]. rewrite s32_id by (unfold int16, int32 in *; nia). done.
Qed.

Lemma int16_total x j : Forall int16 x → (j < length x)%nat → x !! j = Some (x !!! j) ∧ int16 (x !!! j).
Proof.
  intros Hx Hj. pose proof (lookup_total_Some x j Hj) as E. split; [done|].
  exact (Forall_lookup_1 _ _ _ _ Hx E).
Qed.

(** The loop of one lag. *)
Lemma lag_loop x n i s : Forall int16 x → (n ≤ length x)%nat → 0 < Z.of_nat n < 2147483648 → 0 ≤ s ≤ 31 →
  (∀ a b, a ∈ take n x → b ∈ take n x → Z.abs (Z.shiftr (a * b) s) ≤ 2 ^ (30 - Z.log2 (Z.of_nat n))) →
  unrolled (n - i) (λ j sum, a ← x !! j; b ← x !! (i + j)%nat; p ← shr32 (a *i b) s; Some (sum +i p)) 0 =
  Some (total (lagged x s i) (n - i)).
Proof.
  intros Hx Hl Hn Hs Hb. rewrite unrolled_loop.
  pose proof (log2_small (Z.of_nat n) 31 ltac:(lia)) as Hk.
  pose proof (Z.log2_spec (Z.of_nat n) ltac:(lia)) as [_ Hlog].
  set (k := Z.log2 (Z.of_nat n)) in *. rewrite Z.pow_succ_r in Hlog by lia.
  assert (Hbig : 2 ^ (30 - k) * 2 ^ k = 1073741824) by (rewrite <- Z.pow_add_r by lia; by replace (30 - k + k) with 30 by lia).
  assert (0 < 2 ^ (30 - k)) by (apply Z.pow_pos_nonneg; lia).
  rewrite (for_loop_ext _ _ _ (λ j s0, t ← (a ← x !! j; b ← x !! (i + j)%nat; shr32 (a *i b) s);
    Some (s32 (s0 + t)))).
  2: { intros j s0 Hj. destruct (x !! j) as [a|]; [|done]. cbn [mbind option_bind].
       by destruct (x !! (i + j)%nat). }
  apply (sum_loop s32 _ (lagged x s i) _ (2 ^ (30 - k)) 2147483647).
  - intros z Hz. apply s32_id. unfold int32. lia.
  - intros j Hj. destruct (int16_total x j Hx ltac:(lia)) as [Ea Ha].
    destruct (int16_total x (i + j) Hx ltac:(lia)) as [Eb Hb'].
    rewrite Ea, Eb. cbn [mbind option_bind]. rewrite shr_product by done. split; [done|].
    apply Hb; [apply list_elem_of_lookup_2 with (i := j)|apply list_elem_of_lookup_2 with (i := (i + j)%nat)];
      by rewrite lookup_take_lt by lia.
  - nia.
  - lia.
Qed.

(** C35: The auto-correlation does not overflow. For up to 2^31 - 1 samples of 16 bits, the
    most negative one included, and every order up to their number, each result is exactly
    the sum of the scaled products of the samples and the samples a lag later: the scale
    factor leaves room for all additions, and unrolling the loop leaves no product out. *)
Theorem autocorrelation_exact (x result : list Z) (n order : nat) :
  Forall int16 x → (n ≤ length x)%nat → 0 < Z.of_nat n < 2147483648 → (order ≤ n)%nat →
  (order < length result)%nat →
  wp (WebRtcSpl_AutoCorrelation x n order result) (λ '(result', scale, count),
    count = (order + 1)%nat ∧ 0 ≤ scale ≤ 31 ∧ length result' = length result ∧
    (∀ i, (i ≤ order)%nat → result' !! i = Some (total (lagged x scale i) (n - i)) ∧
       int32 (total (lagged x scale i) (n - i))) ∧
    drop (order + 1) result' = drop (order + 1) result).
Proof.
  intros Hx Hl Hn Ho Hr. unfold WebRtcSpl_AutoCorrelation. apply wp_bind, wp_dcheck; [by apply Nat.leb_le|].
  rewrite MaxAbs_take by done. apply wp_bind.
  wp_call (apply (proj1 (MaxAbsValue_saturates (take n x) ltac:(rewrite length_take_le by done; lia))); by apply Forall_take).
  intros smax (m & [(y & Hy & ->) Hmax] & ->).
  assert (Hy' : int16 y) by exact (range_elem _ _ _ (Forall_take int16 n x Hx) Hy).
  destruct (scaling_ok n (Z.abs y) Hn ltac:(unfold int16 in Hy'; lia)) as [Hs Hb].
  set (s := correlation_scaling (Z.min (Z.abs y) 32767) n) in *. clearbody s.
  assert (Hb' : ∀ a b, a ∈ take n x → b ∈ take n x →
    Z.abs (Z.shiftr (a * b) s) ≤ 2 ^ (30 - Z.log2 (Z.of_nat n))).
  { intros a b Ha Hb'. apply Hb; by apply Hmax. }
  assert (Hlag : ∀ i, unrolled (n - i) (λ j sum, a ← x !! j; b ← x !! (i + j)%nat;
      p ← shr32 (a *i b) s; Some (sum +i p)) 0 = Some (total (lagged x s i) (n - i)) ∧
      int32 (total (lagged x s i) (n - i))).
  { intros i. split; [by apply lag_loop|].
    pose proof (total_bound (lagged x s i) (n - i) (2 ^ (30 - Z.log2 (Z.of_nat n)))) as Ht.
    pose proof (log2_small (Z.of_nat n) 31 ltac:(lia)) as Hk.
    pose proof (Z.log2_spec (Z.of_nat n) ltac:(lia)) as [_ Hlog].
    set (k := Z.log2 (Z.of_nat n)) in *. rewrite Z.pow_succ_r in Hlog by lia.
    assert (Hbig : 2 ^ (30 - k) * 2 ^ k = 1073741824) by (rewrite <- Z.pow_add_r by lia; by replace (30 - k + k) with 30 by lia).
    assert (0 < 2 ^ (30 - k)) by (apply Z.pow_pos_nonneg; lia).
    assert (Hlt : Z.abs (total (lagged x s i) (n - i)) ≤ 2 ^ (30 - k) * Z.of_nat (n - i)).
    { apply Ht. intros j Hj. apply Hb'; [apply list_elem_of_lookup_2 with (i := j)|apply list_elem_of_lookup_2 with (i := (i + j)%nat)];
        rewrite lookup_take_lt by lia; apply lookup_total_Some; lia. }
    unfold int32. nia. }
  apply wp_bind, (wp_for (λ i r, length r = length result ∧
    (∀ j, (j < i)%nat → r !! j = Some (total (lagged x s j) (n - j))) ∧
    drop (order + 1) r = drop (order + 1) result)).
  - split_and!; [done|lia|done].
  - intros i r Hi (Hlr & Hrs & Hd). rewrite (proj1 (Hlag i)). cbn [mbind option_bind].
    apply wp_wr; [lia|]. rewrite length_insert. split_and!; [done| |by rewrite drop_insert_lt by lia].
    intros j Hj. destruct (decide (j = i)) as [->|]; [by rewrite list_lookup_insert_eq by lia|].
    rewrite list_lookup_insert_ne by lia. apply Hrs. lia.
  - intros r (Hlr & Hrs & Hd). cbn [wp]. split_and!; [done|lia|lia|done| |done].
    intros i Hi. split; [apply Hrs; lia|apply Hlag].
Qed.

Definition example_samples : list Z := [-32768; -32768; 5; -32768; 7; -32768; 1].

Lemma autocorrelation_exact_witness :
  WebRtcSpl_AutoCorrelation example_samples 7 2 [0; 0; 0; 9] = Some ([1073741842; 268230656; 536829961; 9], 2, 3%nat) ∧
  wp (WebRtcSpl_AutoCorrelation example_samples 7 2 [0; 0; 0; 9]) (λ '(result', scale, count),
    count = (2 + 1)%nat ∧ 0 ≤ scale ≤ 31 ∧ length result' = 4%nat ∧
    (∀ i, (i ≤ 2)%nat → result' !! i = Some (total (lagged example_samples scale i) (7 - i)) ∧
       int32 (total (lagged example_samples scale i) (7 - i))) ∧
    drop (2 + 1) result' = drop (2 + 1) [0; 0; 0; 9]).
Proof.
  split; [reflexivity|].
  apply (autocorrelation_exact example_samples [0; 0; 0; 9] 7 2); [|cbn; lia..].
  repeat (apply Forall_cons_2; [unfold int16; lia|]). apply Forall_nil_2.
Defined.

(** ** Dot products *)

(** The 64-bit sum is exact, and the result is the sum, cut to 32 bits. *)
Lemma DotProduct_exact x y n scaling : Forall int16 x → Forall int16 y → (n ≤ length x)%nat → (n ≤ length y)%nat →
  Z.of_nat n < 4294967296 → 0 ≤ scaling ≤ 31 →
  WebRtcSpl_DotProductWithScale x y n scaling =
  Some (clamp (-2147483648) 2147483647 (total (λ j, Z.shiftr (x !!! j * y !!! j) scaling) n)).
Proof.
  intros Hx Hy Hl Hl' Hn Hs. unfold WebRtcSpl_DotProductWithScale. rewrite unrolled_loop.
  rewrite (for_loop_ext _ _ _ (λ j s0, t ← (a ← x !! j; b ← y !! j; shr32 (a *i b) scaling);
    Some (SeqNum.s64 (s0 + t)))).
  2: { intros j s0 Hj. destruct (x !! j) as [a|]; [|done]. cbn [mbind option_bind]. by destruct (y !! j). }
  rewrite (sum_loop SeqNum.s64 _ (λ j, Z.shiftr (x !!! j * y !!! j) scaling) _ 1073741824 9223372036854775807).
  - done.
  - intros z Hz. unfold SeqNum.s64. rewrite Z.mod_small by lia. lia.
  - intros j Hj. destruct (int16_total x j Hx ltac:(lia)) as [Ea Ha]. destruct (int16_total y j Hy ltac:(lia)) as [Eb Hb].
    rewrite Ea, Eb. cbn [mbind option_bind]. rewrite shr_product by done. split; [done|].
    apply shiftr_abs; [lia|]. assert (0 < 2 ^ scaling) by (apply Z.pow_pos_nonneg; lia).
    unfold int16 in *. rewrite Z.abs_mul. nia.
  - lia.
  - lia.
Qed.

(** The cross-correlation is exact when the shift leaves room for the additions; the
    second sequence is read where the pointer has moved to. *)
Lemma CrossCorrelation_exact out x y p n m s step : Forall int16 x → Forall int16 y → (n ≤ length x)%nat →
  (m ≤ length out)%nat → 0 ≤ s ≤ 30 → Z.of_nat n < 2 ^ (s + 1) →
  (∀ i, (i < m)%nat → 0 ≤ p + Z.of_nat i * step ∧ p + Z.of_nat i * step + Z.of_nat n ≤ Z.of_nat (length y)) →
  wp (WebRtcSpl_CrossCorrelationC out x y p n m s step) (λ out', length out' = length out ∧
    (∀ i, (i < m)%nat → out' !! i = Some (total (λ j,
       Z.shiftr (x !!! j * y !!! Z.to_nat (p + Z.of_nat i * step + Z.of_nat j)) s) n)) ∧
    drop m out' = drop m out).
Proof.
  intros Hx Hy Hl Hm Hs Hn Hp. unfold WebRtcSpl_CrossCorrelationC. apply wp_bind.
  apply (wp_for (λ i '(o, q), q = p + Z.of_nat i * step ∧ length o = length out ∧
    (∀ i', (i' < i)%nat → o !! i' = Some (total (λ j,
       Z.shiftr (x !!! j * y !!! Z.to_nat (p + Z.of_nat i' * step + Z.of_nat j)) s) n)) ∧
    drop m o = drop m out)).
  - split_and!; [lia|done|lia|done].
  - intros i [o q] Hi (-> & Hlo & Ho & Hd). destruct (Hp i ltac:(lia)) as [Hq Hq'].
    set (q := p + Z.of_nat i * step) in *.
    rewrite (for_loop_ext _ _ _ (λ j s0, t ← (a ← x !! j; b ← rdz y (q + Z.of_nat j); shr32 (a *i b) s);
      Some (s32 (s0 + t)))).
    2: { intros j s0 Hj. destruct (x !! j) as [a|]; [|done]. cbn [mbind option_bind]. by destruct (rdz y _). }
    rewrite (sum_loop s32 _ (λ j, Z.shiftr (x !!! j * y !!! Z.to_nat (q + Z.of_nat j)) s) _
      (2 ^ (30 - s)) 2147483647).
    + cbn [mbind option_bind]. apply wp_bind, wp_wr; [lia|]. cbn [wp]. rewrite length_insert.
      split_and!; [unfold q; lia|done| |by rewrite drop_insert_lt by lia].
      intros j Hj. destruct (decide (j = i)) as [->|]; [by rewrite list_lookup_insert_eq by lia|].
      rewrite list_lookup_insert_ne by lia. apply Ho. lia.
    + intros z Hz. apply s32_id. unfold int32. lia.
    + intros j Hj. destruct (int16_total x j Hx ltac:(lia)) as [Ea Ha].
      destruct (int16_total y (Z.to_nat (q + Z.of_nat j)) Hy ltac:(lia)) as [Eb Hb].
      unfold rdz. rewrite (proj2 (Z.leb_le 0 _)) by lia. rewrite Ea, Eb. cbn [mbind option_bind].
      rewrite shr_product by (done || lia). split; [done|]. apply shiftr_abs; [lia|].
      rewrite <- Z.pow_add_r by lia. replace (30 - s + s) with 30 by lia. change (2 ^ 30) with 1073741824.
      unfold int16 in *. rewrite Z.abs_mul. nia.
    + assert (E : 2 ^ (30 - s) * 2 ^ (s + 1) = 2147483648)
        by (rewrite <- Z.pow_add_r by lia; by replace (30 - s + (s + 1)) with 31 by lia).
      assert (0 < 2 ^ (30 - s)) by (apply Z.pow_pos_nonneg; lia). nia.
    + apply Z.pow_nonneg. lia.
  - intros [o q] (_ & Hlo & Ho & Hd). cbn. done.
Qed.

End Correlation.
