(* ===== verification/BitReverse.v ===== *)
(** * Bit reversal
    (common_audio/signal_processing/complex_bit_reverse.c)

    The elements of a complex array are put into the bit-reversed order: for the two sizes
    that are used, by a table of the pairs to swap, for the others by counting in the
    reversed order. A complex number is two adjacent 16-bit cells, which the code loads and
    stores at once. *)

From S2P Require Import Prelude.

Module BitReverse.

Definition index_7 : list Z :=
  [1; 64; 2; 32; 3; 96; 4; 16; 5; 80; 6; 48; 7; 112; 9; 72;
   10; 40; 11; 104; 12; 24; 13; 88; 14; 56; 15; 120; 17; 68; 18; 36;
   19; 100; 21; 84; 22; 52; 23; 116; 25; 76; 26; 44; 27; 108; 29; 92;
   30; 60; 31; 124; 33; 66; 35; 98; 37; 82; 38; 50; 39; 114; 41; 74;
   43; 106; 45; 90; 46; 58; 47; 122; 49; 70; 51; 102; 53; 86; 55; 118;
   57; 78; 59; 110; 61; 94; 63; 126; 67; 97; 69; 81; 71; 113; 75; 105;
   77; 89; 79; 121; 83; 101; 87; 117; 91; 109; 95; 125; 103; 115; 111; 123].

Definition index_8 : list Z :=
  [1; 128; 2; 64; 3; 192; 4; 32; 5; 160; 6; 96; 7; 224; 8; 16;
   9; 144; 10; 80; 11; 208; 12; 48; 13; 176; 14; 112; 15; 240; 17; 136;
   18; 72; 19; 200; 20; 40; 21; 168; 22; 104; 23; 232; 25; 152; 26; 88;
   27; 216; 28; 56; 29; 184; 30; 120; 31; 248; 33; 132; 34; 68; 35; 196;
   37; 164; 38; 100; 39; 228; 41; 148; 42; 84; 43; 212; 44; 52; 45; 180;
   46; 116; 47; 244; 49; 140; 50; 76; 51; 204; 53; 172; 54; 108; 55; 236;
   57; 156; 58; 92; 59; 220; 61; 188; 62; 124; 63; 252; 65; 130; 67; 194;
   69; 162; 70; 98; 71; 226; 73; 146; 74; 82; 75; 210; 77; 178; 78; 114;
   79; 242; 81; 138; 83; 202; 85; 170; 86; 106; 87; 234; 89; 154; 91; 218;
   93; 186; 94; 122; 95; 250; 97; 134; 99; 198; 101; 166; 103; 230; 105; 150;
   107; 214; 109; 182; 110; 118; 111; 246; 113; 142; 115; 206; 117; 174; 119; 238;
   121; 158; 123; 222; 125; 190; 127; 254; 131; 193; 133; 161; 135; 225; 137; 145;
   139; 209; 141; 177; 143; 241; 147; 201; 149; 169; 151; 233; 155; 217; 157; 185;
   159; 249; 163; 197; 167; 229; 171; 213; 173; 181; 175; 245; 179; 205; 183; 237;
   187; 221; 191; 253; 199; 227; 203; 211; 207; 243; 215; 235; 223; 251; 239; 247].

(** Loading and storing a complex number. *)
Definition load (m : list Z) (i : nat) : option (Z * Z) :=
  re ← m !! (2 * i)%nat;
  im ← m !! (2 * i + 1)%nat;
  Some (re, im).
Definition store (m : list Z) (i : nat) (z : Z * Z) : option (list Z) :=
  m ← wr m (2 * i) z.1;
  wr m (2 * i + 1) z.2.

Definition swap (m : list Z) (a b : nat) : option (list Z) :=
  temp ← load m a;
  y ← load m b;
  m ← store m a y;
  store m b temp.

(** [do l >>= 1; while (l > nn - mr)]: the first half of [l] that is not larger. [l] has
    at most 31 bits: at the latest 0 is not larger. *)
Fixpoint find_bit (fuel : nat) (l rest : Z) : option Z :=
  match fuel with
  | O => None
  | S fuel =>
      let l := l >>i 1 in
      if rest <? l then find_bit fuel l rest else Some l
  end.

(** The loop over a table. *)
Definition swap_table (length : nat) (index complex_data : list Z) : option (list Z) :=
  for_loop (length / 2) 0 (λ h complex_data,
    a ← index !! (2 * h)%nat;
    b ← index !! (2 * h + 1)%nat;
    swap complex_data (Z.to_nat a) (Z.to_nat b)) complex_data.

Definition WebRtcSpl_ComplexBitReverse (complex_data : list Z) (stages : Z) : option (list Z) :=
  if (stages =? 7) || (stages =? 8) then
    if stages =? 8 then swap_table 240 index_8 complex_data else swap_table 112 index_7 complex_data
  else
    n ← shl32 1 stages;
    let nn := n -i 1 in
    '(complex_data, _) ← for_loop (Z.to_nat nn) 1 (λ m '(complex_data, mr),
      l ← find_bit 32 n (nn -i mr);
      let mr := Z.land mr (l -i 1) +i l in
      if mr <=? Z.of_nat m then Some (complex_data, mr)
      else
        complex_data ← swap complex_data m (Z.to_nat mr);
        Some (complex_data, mr)) (complex_data, 0);
    Some complex_data.

(** ** Reversing bits *)

(** The lowest [s] bits in the reversed order. *)
Fixpoint reversed (s k : nat) : nat :=
  match s with
  | O => 0
  | S s => (2 ^ s * (k mod 2) + reversed s (k / 2))%nat
  end.

Lemma reversed_bound s : ∀ k, (reversed s k < 2 ^ s)%nat.
Proof.
  induction s as [|s IH]; intros k; cbn [reversed Nat.pow]; [lia|].
  pose proof (IH (k / 2)%nat). pose proof (Nat.mod_upper_bound k 2). nia.
Qed.

Lemma reversed_low s b q : (b < 2)%nat → reversed (S s) (2 * q + b) = (2 ^ s * b + reversed s q)%nat.
Proof.
  intros Hb. cbn [reversed]. rewrite (Nat.add_comm (2 * q)), (Nat.mul_comm 2 q).
  rewrite Nat.Div0.mod_add, Nat.div_add by lia.
  rewrite Nat.mod_small, Nat.div_small by lia. done.
Qed.

Lemma reversed_top s : ∀ b r, (r < 2 ^ s)%nat → (b < 2)%nat → reversed (S s) (2 ^ s * b + r) = (2 * reversed s r + b)%nat.
Proof.
  induction s as [|s IH]; intros b r Hr Hb.
  { cbn [Nat.pow] in *. assert (r = 0%nat) as -> by lia.
    destruct b as [|[|b]]; [done|done|lia]. }
  assert (Hs : (2 ^ S s * b + r = 2 * (2 ^ s * b + r / 2) + r mod 2)%nat).
  { pose proof (Nat.div_mod r 2). cbn [Nat.pow]. lia. }
  pose proof (Nat.mod_upper_bound r 2).
  rewrite Hs, reversed_low by lia. rewrite IH; [|apply Nat.Div0.div_lt_upper_bound; cbn [Nat.pow] in Hr; lia|done].
  pose proof (reversed_low s (r mod 2) (r / 2) ltac:(lia)) as E.
  replace (2 * (r / 2) + r mod 2)%nat with r in E by (pose proof (Nat.div_mod r 2); lia).
  rewrite E. cbn [Nat.pow]. lia.
Qed.

Lemma half_parts k : ∃ q b, k = (2 * q + b)%nat ∧ (b < 2)%nat.
Proof. exists (k / 2)%nat, (k mod 2)%nat. pose proof (Nat.div_mod k 2). pose proof (Nat.mod_upper_bound k 2). lia. Qed.

Lemma reversed_involutive s : ∀ k, (k < 2 ^ s)%nat → reversed s (reversed s k) = k.
Proof.
  induction s as [|s IH]; intros k Hk; [cbn in *; lia|].
  destruct (half_parts k) as (q & b & -> & Hb). cbn [Nat.pow] in Hk.
  rewrite reversed_low by done. rewrite reversed_top by (done || apply reversed_bound).
  rewrite IH by lia. lia.
Qed.

Lemma reversed_0 s : reversed s 0 = 0%nat.
Proof. induction s as [|s IH]; [done|]. change 0%nat with (2 * 0 + 0)%nat at 1. rewrite reversed_low, IH by lia. lia. Qed.

(** ** Counting in the reversed order *)

Lemma half_of_power (s : nat) : Z.shiftr (2 ^ Z.of_nat (S s)) 1 = 2 ^ Z.of_nat s.
Proof.
  rewrite Z.shiftr_div_pow2 by lia. rewrite Nat2Z.inj_succ, Z.pow_succ_r by lia.
  change (2 ^ 1) with 2. rewrite Z.mul_comm. by rewrite Z.div_mul by lia.
Qed.

Lemma pow_nat (s : nat) : Z.of_nat (2 ^ s) = 2 ^ Z.of_nat s.
Proof. apply Nat2Z.inj_pow. Qed.

Lemma land_below a s : 0 ≤ a < 2 ^ Z.of_nat s → Z.land a (2 ^ Z.of_nat s - 1) = a.
Proof.
  intros Ha. rewrite Z.sub_1_r, <- Z.ones_equiv. rewrite Z.land_ones by lia.
  by apply Z.mod_small.
Qed.

Lemma land_top a (s t : nat) : (t ≤ s)%nat →
  Z.land (2 ^ Z.of_nat s + a) (2 ^ Z.of_nat t - 1) = Z.land a (2 ^ Z.of_nat t - 1).
Proof.
  intros Ht. rewrite Z.sub_1_r, <- Z.ones_equiv, !Z.land_ones by lia.
  replace (Z.of_nat s) with (Z.of_nat (s - t) + Z.of_nat t) by lia. rewrite Z.pow_add_r by lia.
  rewrite Z.add_comm. by rewrite Z.mod_add by (apply Z.pow_nonzero; lia).
Qed.

(** The search finds the highest zero of the reversed number, and the next number in the
    reversed order is found with it. *)
Lemma count_step s : ∀ k fuel, (s ≤ fuel)%nat → (k + 1 < 2 ^ s)%nat →
  ∃ t, (t < s)%nat ∧
    find_bit fuel (2 ^ Z.of_nat s) (2 ^ Z.of_nat s - 1 - Z.of_nat (reversed s k)) = Some (2 ^ Z.of_nat t) ∧
    Z.land (Z.of_nat (reversed s k)) (2 ^ Z.of_nat t - 1) + 2 ^ Z.of_nat t = Z.of_nat (reversed s (k + 1)).
Proof.
  induction s as [|s IH]; intros k fuel Hf Hk; [cbn in Hk; lia|]. destruct fuel as [|fuel]; [lia|].
  cbn [find_bit]. rewrite half_of_power. destruct (half_parts k) as (q & b & -> & Hb).
  rewrite reversed_low by done. pose proof (reversed_bound s q) as Hr. cbn [Nat.pow] in Hk.
  assert (E2 : 2 ^ Z.of_nat (S s) = 2 * 2 ^ Z.of_nat s) by (rewrite Nat2Z.inj_succ, Z.pow_succ_r by lia; done).
  pose proof (pow_nat s) as Ep. destruct b as [|b].
  - rewrite Nat.mul_0_r, Nat.add_0_l. exists s. split; [lia|].
    rewrite (proj2 (Z.ltb_ge _ _)) by lia. split; [done|].
    rewrite land_below by lia. replace (2 * q + 0 + 1)%nat with (2 * q + 1)%nat by lia.
    rewrite reversed_low by lia. lia.
  - assert (b = 0%nat) as -> by lia. rewrite Nat.mul_1_r.
    rewrite (proj2 (Z.ltb_lt _ _)) by lia.
    destruct (IH q fuel ltac:(lia) ltac:(lia)) as (t & Ht & E & En).
    exists t. split; [lia|].
    replace (2 ^ Z.of_nat (S s) - 1 - Z.of_nat (2 ^ s + reversed s q))
      with (2 ^ Z.of_nat s - 1 - Z.of_nat (reversed s q)) by lia.
    split; [done|]. rewrite Nat2Z.inj_add, Ep, land_top by lia. rewrite En.
    replace (2 * q + 1 + 1)%nat with (2 * (q + 1) + 0)%nat by lia. rewrite reversed_low by lia. lia.
Qed.

(** ** Swapping *)

Lemma load_ok m i : (2 * i + 1 < length m)%nat → ∃ z, load m i = Some z.
Proof.
  intros Hi. unfold load. destruct (lookup_lt_is_Some_2 m (2 * i) ltac:(lia)) as [re ->].
  destruct (lookup_lt_is_Some_2 m (2 * i + 1) ltac:(lia)) as [im ->]. by eexists.
Qed.

Lemma store_ok m i z : (2 * i + 1 < length m)%nat → ∃ m', store m i z = Some m' ∧
  length m' = length m ∧ load m' i = Some z ∧ (∀ k, k ≠ i → load m' k = load m k) ∧
  (∀ p, (p < 2 * i ∨ 2 * i + 1 < p)%nat → m' !! p = m !! p).
Proof.
  intros Hi. unfold store. rewrite wr_lt by lia. cbn [mbind option_bind].
  rewrite wr_lt by (rewrite length_insert; lia). eexists. split; [done|].
  rewrite !length_insert. split; [done|].
  assert (Hp : ∀ p, (p < 2 * i ∨ 2 * i + 1 < p)%nat → <[(2 * i + 1)%nat:=z.2]> (<[(2 * i)%nat:=z.1]> m) !! p = m !! p).
  { intros p Hp. by rewrite !list_lookup_insert_ne by lia. }
  split_and!; [| |done].
  - unfold load. rewrite (list_lookup_insert_ne _ (2 * i + 1) (2 * i)) by lia.
    rewrite (list_lookup_insert_eq m (2 * i)) by lia. cbn [mbind option_bind].
    rewrite list_lookup_insert_eq by (rewrite length_insert; lia). by destruct z.
  - intros k Hk. unfold load. by rewrite !Hp by lia.
Qed.

Lemma swap_ok m a b : (2 * a + 1 < length m)%nat → (2 * b + 1 < length m)%nat → ∃ m', swap m a b = Some m' ∧
  length m' = length m ∧ load m' a = load m b ∧ load m' b = load m a ∧
  (∀ k, k ≠ a → k ≠ b → load m' k = load m k) ∧
  (∀ p, (2 * a + 1 < p)%nat → (2 * b + 1 < p)%nat → m' !! p = m !! p).
Proof.
  intros Ha Hb. unfold swap. destruct (load_ok m a Ha) as [x Ex]. destruct (load_ok m b Hb) as [y Ey].
  rewrite Ex, Ey. cbn [mbind option_bind].
  destruct (store_ok m a y Ha) as (m1 & -> & L1 & S1 & O1 & P1). cbn [mbind option_bind].
  destruct (store_ok m1 b x ltac:(lia)) as (m2 & -> & L2 & S2 & O2 & P2).
  exists m2. split_and!; [done|lia| |done| |].
  - destruct (decide (a = b)) as [->|]; [by rewrite S2, <- Ex, <- Ey|]. by rewrite O2, S1 by done.
  - intros k Hka Hkb. by rewrite O2, O1 by done.
  - intros p Hpa Hpb. by rewrite P2, P1 by lia.
Qed.

(** ** The order of the elements *)

(** The swaps, in the order in which the first elements are counted. *)
Definition swap_step (s i : nat) (m : list Z) : option (list Z) :=
  if (reversed s i <=? i)%nat then Some m else swap m i (reversed s i).

Lemma swap_steps s m : (2 * 2 ^ s ≤ length m)%nat →
  wp (for_loop (2 ^ s - 1) 1 (swap_step s) m) (λ m', length m' = length m ∧
    (∀ k, (k < 2 ^ s)%nat → load m' k = load m (reversed s k)) ∧
    (∀ p, (2 * 2 ^ s ≤ p)%nat → m' !! p = m !! p)).
Proof.
  intros Hl. assert (0 < 2 ^ s)%nat by (pose proof (Nat.pow_nonzero 2 s); lia).
  apply (wp_for (λ i m', length m' = length m ∧
    (∀ k, (k < 2 ^ s)%nat → load m' k =
       load m (if (Nat.min k (reversed s k) <? i)%nat then reversed s k else k)) ∧
    (∀ p, (2 * 2 ^ s ≤ p)%nat → m' !! p = m !! p))).
  - split_and!; [done| |done]. intros k Hk. destruct (Nat.ltb_spec (Nat.min k (reversed s k)) 1); [|done].
    f_equal. destruct (Nat.eq_dec k 0) as [->|]; [by rewrite reversed_0|].
    assert (E : reversed s k = 0%nat) by lia. pose proof (reversed_involutive s k Hk) as Ei.
    rewrite E, reversed_0 in Ei. lia.
  - intros i m' Hi (Hl' & Hm & Hp). unfold swap_step.
    pose proof (reversed_bound s i) as Hri. pose proof (reversed_involutive s i ltac:(lia)) as Hinv.
    destruct (Nat.leb_spec (reversed s i) i) as [Hle|Hgt].
    + cbn [wp]. split_and!; [done| |done]. intros k Hk. rewrite Hm by done. f_equal.
      destruct (Nat.ltb_spec (Nat.min k (reversed s k)) i), (Nat.ltb_spec (Nat.min k (reversed s k)) (S i));
        try done; try lia.
      assert (Hmin : Nat.min k (reversed s k) = i) by lia.
      destruct (Nat.le_gt_cases k (reversed s k)).
      * rewrite Nat.min_l in Hmin by done. subst k. lia.
      * rewrite Nat.min_r in Hmin by lia. rewrite <- Hmin in Hle. rewrite reversed_involutive in Hle by done. lia.
    + destruct (swap_ok m' i (reversed s i)) as (m2 & -> & L2 & S1 & S2 & O2 & P2); [lia|lia|].
      cbn [wp]. split_and!; [lia| |].
      * intros k Hk. destruct (decide (k = i)) as [->|Hki].
        { rewrite S1, Hm by done. rewrite Hinv.
          rewrite (proj2 (Nat.ltb_ge _ i)), (proj2 (Nat.ltb_lt _ (S i))) by lia. done. }
        destruct (decide (k = reversed s i)) as [->|Hkr].
        { rewrite S2, Hm by lia. rewrite Hinv.
          rewrite (proj2 (Nat.ltb_ge _ i)), (proj2 (Nat.ltb_lt _ (S i))) by lia. done. }
        rewrite O2, Hm by done. f_equal.
        destruct (Nat.ltb_spec (Nat.min k (reversed s k)) i), (Nat.ltb_spec (Nat.min k (reversed s k)) (S i));
          try done; try lia. exfalso.
        assert (Hmin : reversed s k = i) by lia. apply Hkr. rewrite <- Hmin. by rewrite reversed_involutive.
      * intros p Hp'. rewrite P2 by lia. by apply Hp.
  - intros m' (Hl' & Hm & Hp). split_and!; [done| |done]. intros k Hk. rewrite Hm by done.
    replace (1 + (2 ^ s - 1))%nat with (2 ^ s)%nat by lia.
    rewrite (proj2 (Nat.ltb_lt _ _)) by lia. done.
Qed.

(** The pairs of the tables. *)
Fixpoint pairs (s n lo : nat) : list Z :=
  match n with
  | O => []
  | S n =>
      if (reversed s lo <=? lo)%nat then pairs s n (S lo)
      else Z.of_nat lo :: Z.of_nat (reversed s lo) :: pairs s n (S lo)
  end.

Lemma pairs_loop s n : ∀ lo pre m, (∃ h, length pre = (2 * h)%nat) →
  for_loop (length (pairs s n lo) / 2) (length pre / 2) (λ h m,
    a ← (pre ++ pairs s n lo) !! (2 * h)%nat;
    b ← (pre ++ pairs s n lo) !! (2 * h + 1)%nat;
    swap m (Z.to_nat a) (Z.to_nat b)) m =
  for_loop n lo (swap_step s) m.
Proof.
  induction n as [|n IH]; intros lo pre m [h Hh]; cbn [pairs for_loop]; [done|].
  change (swap_step s lo m) with (if (reversed s lo <=? lo)%nat then Some m else swap m lo (reversed s lo)).
  destruct (Nat.leb_spec (reversed s lo) lo) as [Hle|Hgt].
  { cbn [mbind option_bind]. apply IH. by exists h. }
  cbn [length]. replace (S (S (length (pairs s n (S lo)))) / 2)%nat with (S (length (pairs s n (S lo)) / 2)).
  2: { replace (S (S (length (pairs s n (S lo))))) with (length (pairs s n (S lo)) + 1 * 2)%nat by lia.
       rewrite Nat.div_add by lia. lia. }
  cbn [for_loop]. rewrite Hh. rewrite half_double.
  set (l := Z.of_nat lo :: Z.of_nat (reversed s lo) :: pairs s n (S lo)).
  assert (E0 : (pre ++ l) !! (2 * h)%nat = Some (Z.of_nat lo)).
  { rewrite lookup_app_r by lia. by replace (2 * h - length pre)%nat with 0%nat by lia. }
  assert (E1 : (pre ++ l) !! (2 * h + 1)%nat = Some (Z.of_nat (reversed s lo))).
  { rewrite lookup_app_r by lia. by replace (2 * h + 1 - length pre)%nat with 1%nat by lia. }
  rewrite E0, E1. cbn [mbind option_bind]. rewrite !Nat2Z.id. subst l.
  destruct (swap m lo (reversed s lo)) as [m'|]; [|done]. cbn [mbind option_bind].
  rewrite <- (IH (S lo) (pre ++ [Z.of_nat lo; Z.of_nat (reversed s lo)]) m').
  2: { exists (S h). rewrite length_app, Hh. cbn. lia. }
  rewrite length_app, Hh. cbn [length].
  replace ((2 * h + 2) / 2)%nat with (S h) by (replace (2 * h + 2)%nat with (2 * S h)%nat by lia; by rewrite half_double).
  apply for_loop_ext. intros i m2 Hi. by rewrite <- !app_assoc.
Qed.

Lemma swap_table_pairs s n lo m :
  swap_table (length (pairs s n lo)) (pairs s n lo) m = for_loop n lo (swap_step s) m.
Proof. rewrite <- (pairs_loop s n lo []) by (by exists 0%nat). done. Qed.

Lemma index_7_pairs : index_7 = pairs 7 127 1.
Proof. reflexivity. Qed.
Lemma index_8_pairs : index_8 = pairs 8 255 1.
Proof. reflexivity. Qed.

(** Counting goes through the same swaps. *)
Lemma count_loop (s : nat) : (s ≤ 30)%nat → ∀ c i mr md, (1 ≤ i)%nat → (i + c = 2 ^ s)%nat →
  mr = Z.of_nat (reversed s (i - 1)) →
  match for_loop c i (λ m '(complex_data, mr),
      l ← find_bit 32 (2 ^ Z.of_nat s) ((2 ^ Z.of_nat s - 1) -i mr);
      let mr := Z.land mr (l -i 1) +i l in
      if mr <=? Z.of_nat m then Some (complex_data, mr)
      else
        complex_data ← swap complex_data m (Z.to_nat mr);
        Some (complex_data, mr)) (md, mr) with
  | Some (md', _) => for_loop c i (swap_step s) md = Some md'
  | None => for_loop c i (swap_step s) md = None
  end.
Proof.
  intros Hs. assert (Hpow : 2 ^ Z.of_nat s ≤ 2 ^ 30) by (apply Z.pow_le_mono_r; lia).
  change (2 ^ 30) with 1073741824 in Hpow. pose proof (pow_nat s) as Ep.
  induction c as [|c IH]; intros i mr md Hi Hc ->; cbn [for_loop]; [done|].
  pose proof (reversed_bound s (i - 1)) as Hb. pose proof (reversed_bound s i) as Hbi.
  rewrite s32_id by (unfold int32; lia).
  destruct (count_step s (i - 1) 32 ltac:(lia) ltac:(lia)) as (t & Ht & -> & En). cbn [mbind option_bind].
  assert (Hpt : 1 ≤ 2 ^ Z.of_nat t ≤ 2 ^ Z.of_nat s).
  { split; [pose proof (Z.pow_pos_nonneg 2 (Z.of_nat t)); lia|apply Z.pow_le_mono_r; lia]. }
  rewrite (s32_id (2 ^ Z.of_nat t - 1)) by (unfold int32; lia). rewrite En.
  replace (i - 1 + 1)%nat with i by lia. rewrite s32_id by (unfold int32; lia).
  change (swap_step s i md) with (if (reversed s i <=? i)%nat then Some md else swap md i (reversed s i)).
  destruct (Nat.leb_spec (reversed s i) i) as [Hle|Hgt].
  - rewrite (proj2 (Z.leb_le _ _)) by lia. cbn [mbind option_bind]. apply IH; [lia|lia|].
    by replace (S i - 1)%nat with i by lia.
  - rewrite (proj2 (Z.leb_gt _ _)) by lia. rewrite Nat2Z.id.
    destruct (swap md i (reversed s i)) as [md1|]; [|done]. cbn [mbind option_bind].
    apply IH; [lia|lia|]. by replace (S i - 1)%nat with i by lia.
Qed.

(** All three variants make the swaps of the reversed numbers. *)
Lemma ComplexBitReverse_steps (complex_data : list Z) (s : nat) : (s ≤ 30)%nat →
  WebRtcSpl_ComplexBitReverse complex_data (Z.of_nat s) = for_loop (2 ^ s - 1) 1 (swap_step s) complex_data.
Proof.
  intros Hs. unfold WebRtcSpl_ComplexBitReverse.
  destruct (Nat.eq_dec s 7) as [->|H7].
  { assert ((Z.of_nat 7 =? 7) || (Z.of_nat 7 =? 8) = true) as -> by done.
    assert ((Z.of_nat 7 =? 8) = false) as -> by done.
    replace 112%nat with (length (pairs 7 127 1)) by done. rewrite index_7_pairs, swap_table_pairs.
    by replace 127%nat with (2 ^ 7 - 1)%nat by done. }
  destruct (Nat.eq_dec s 8) as [->|H8].
  { assert ((Z.of_nat 8 =? 7) || (Z.of_nat 8 =? 8) = true) as -> by done.
    assert ((Z.of_nat 8 =? 8) = true) as -> by done.
    replace 240%nat with (length (pairs 8 255 1)) by done. rewrite index_8_pairs, swap_table_pairs.
    by replace 255%nat with (2 ^ 8 - 1)%nat by done. }
  rewrite (proj2 (Z.eqb_neq _ 7)), (proj2 (Z.eqb_neq _ 8)) by lia. cbn [orb].
  assert (Hpow : 2 ^ Z.of_nat s ≤ 2 ^ 30) by (apply Z.pow_le_mono_r; lia).
  change (2 ^ 30) with 1073741824 in Hpow. pose proof (pow_nat s) as Ep.
  assert (0 < 2 ^ s)%nat by (pose proof (Nat.pow_nonzero 2 s); lia).
  unfold shl32. rewrite (proj2 (Z.leb_le 0 _)), (proj2 (Z.ltb_lt _ 32)) by lia. cbn [andb mbind option_bind].
  rewrite Z.shiftl_1_l. rewrite (s32_id (2 ^ Z.of_nat s)) by (unfold int32; lia).
  rewrite (s32_id (2 ^ Z.of_nat s - 1)) by (unfold int32; lia).
  replace (Z.to_nat (2 ^ Z.of_nat s - 1)) with (2 ^ s - 1)%nat by lia.
  pose proof (count_loop s Hs (2 ^ s - 1) 1 0 complex_data ltac:(lia) ltac:(lia)
    ltac:(cbn; by rewrite reversed_0)) as Hc.
  destruct (for_loop (2 ^ s - 1) 1 _ (complex_data, 0)) as [[md' mr']|]; by rewrite Hc.
Qed.

(** The bit reversal, by tables and by counting. For every size up to 2^30, and so for the
    two sizes with tables and the others, the element at each position of the result is
    the element of the input at the position with the bits in the reversed order; the
    cells behind them are not touched, and every access is in range. *)
Theorem bit_reverse_correct (complex_data : list Z) (s : nat) :
  (s ≤ 30)%nat → (2 * 2 ^ s ≤ length complex_data)%nat →
  wp (WebRtcSpl_ComplexBitReverse complex_data (Z.of_nat s)) (λ complex_data',
    length complex_data' = length complex_data ∧
    (∀ k, (k < 2 ^ s)%nat → load complex_data' k = load complex_data (reversed s k)) ∧
    (∀ p, (2 * 2 ^ s ≤ p)%nat → complex_data' !! p = complex_data !! p)).
Proof. intros Hs Hl. rewrite ComplexBitReverse_steps by done. by apply swap_steps. Qed.

Lemma bit_reverse_correct_witness :
  WebRtcSpl_ComplexBitReverse [0; 10; 1; 11; 2; 12; 3; 13; 9] 2 = Some [0; 10; 2; 12; 1; 11; 3; 13; 9] ∧
  wp (WebRtcSpl_ComplexBitReverse [0; 10; 1; 11; 2; 12; 3; 13; 9] (Z.of_nat 2)) (λ complex_data',
    length complex_data' = 9%nat ∧
    (∀ k, (k < 2 ^ 2)%nat → load complex_data' k = load [0; 10; 1; 11; 2; 12; 3; 13; 9] (reversed 2 k)) ∧
    (∀ p, (2 * 2 ^ 2 ≤ p)%nat → complex_data' !! p = [0; 10; 1; 11; 2; 12; 3; 13; 9] !! p)).
Proof.
  split; [reflexivity|]. apply (bit_reverse_correct [0; 10; 1; 11; 2; 12; 3; 13; 9] 2); cbn; lia.
Defined.

End BitReverse.
