(* ===== verification/Fft.v ===== *)
(** * The fast Fourier transform
    (common_audio/signal_processing: complex_fft.c, complex_fft_tables.h)

    The transform and its inverse work in place on an array of complex numbers of two 16-bit
    cells. Each pass over the array is one loop of [stage]; the butterflies of the two
    accuracy modes are the same in both directions up to the shift and the rounding. The
    definitions take the wrap-arounds to 32 and 16 bits as arguments, so that the same
    program can also be run in unbounded integers: that is what the theorems compare it
    with. The variant with ARM instructions is not modelled. *)

From S2P Require Import Prelude SplInl Energy MinMax Correlation BitReverse.
Import SplInl MinMax BitReverse.

Module Fft.

Definition kSinTable1024 : list Z :=
  [0; 201; 402; 603; 804; 1005; 1206; 1406; 1607; 1808; 2009; 2209; 2410; 2610;
   2811; 3011; 3211; 3411; 3611; 3811; 4011; 4210; 4409; 4608; 4807; 5006; 5205; 5403;
   5601; 5799; 5997; 6195; 6392; 6589; 6786; 6982; 7179; 7375; 7571; 7766; 7961; 8156;
   8351; 8545; 8739; 8932; 9126; 9319; 9511; 9703; 9895; 10087; 10278; 10469; 10659; 10849;
   11038; 11227; 11416; 11604; 11792; 11980; 12166; 12353; 12539; 12724; 12909; 13094; 13278; 13462;
   13645; 13827; 14009; 14191; 14372; 14552; 14732; 14911; 15090; 15268; 15446; 15623; 15799; 15975;
   16150; 16325; 16499; 16672; 16845; 17017; 17189; 17360; 17530; 17699; 17868; 18036; 18204; 18371;
   18537; 18702; 18867; 19031; 19194; 19357; 19519; 19680; 19840; 20000; 20159; 20317; 20474; 20631;
   20787; 20942; 21096; 21249; 21402; 21554; 21705; 21855; 22004; 22153; 22301; 22448; 22594; 22739;
   22883; 23027; 23169; 23311; 23452; 23592; 23731; 23869; 24006; 24143; 24278; 24413; 24546; 24679;
   24811; 24942; 25072; 25201; 25329; 25456; 25582; 25707; 25831; 25954; 26077; 26198; 26318; 26437;
   26556; 26673; 26789; 26905; 27019; 27132; 27244; 27355; 27466; 27575; 27683; 27790; 27896; 28001;
   28105; 28208; 28309; 28410; 28510; 28608; 28706; 28802; 28897; 28992; 29085; 29177; 29268; 29358;
   29446; 29534; 29621; 29706; 29790; 29873; 29955; 30036; 30116; 30195; 30272; 30349; 30424; 30498;
   30571; 30643; 30713; 30783; 30851; 30918; 30984; 31049; 31113; 31175; 31236; 31297; 31356; 31413;
   31470; 31525; 31580; 31633; 31684; 31735; 31785; 31833; 31880; 31926; 31970; 32014; 32056; 32097;
   32137; 32176; 32213; 32249; 32284; 32318; 32350; 32382; 32412; 32441; 32468; 32495; 32520; 32544;
   32567; 32588; 32609; 32628; 32646; 32662; 32678; 32692; 32705; 32717; 32727; 32736; 32744; 32751;
   32757; 32761; 32764; 32766; 32767; 32766; 32764; 32761; 32757; 32751; 32744; 32736; 32727; 32717;
   32705; 32692; 32678; 32662; 32646; 32628; 32609; 32588; 32567; 32544; 32520; 32495; 32468; 32441;
   32412; 32382; 32350; 32318; 32284; 32249; 32213; 32176; 32137; 32097; 32056; 32014; 31970; 31926;
   31880; 31833; 31785; 31735; 31684; 31633; 31580; 31525; 31470; 31413; 31356; 31297; 31236; 31175;
   31113; 31049; 30984; 30918; 30851; 30783; 30713; 30643; 30571; 30498; 30424; 30349; 30272; 30195;
   30116; 30036; 29955; 29873; 29790; 29706; 29621; 29534; 29446; 29358; 29268; 29177; 29085; 28992;
   28897; 28802; 28706; 28608; 28510; 28410; 28309; 28208; 28105; 28001; 27896; 27790; 27683; 27575;
   27466; 27355; 27244; 27132; 27019; 26905; 26789; 26673; 26556; 26437; 26318; 26198; 26077; 25954;
   25831; 25707; 25582; 25456; 25329; 25201; 25072; 24942; 24811; 24679; 24546; 24413; 24278; 24143;
   24006; 23869; 23731; 23592; 23452; 23311; 23169; 23027; 22883; 22739; 22594; 22448; 22301; 22153;
   22004; 21855; 21705; 21554; 21402; 21249; 21096; 20942; 20787; 20631; 20474; 20317; 20159; 20000;
   19840; 19680; 19519; 19357; 19194; 19031; 18867; 18702; 18537; 18371; 18204; 18036; 17868; 17699;
   17530; 17360; 17189; 17017; 16845; 16672; 16499; 16325; 16150; 15975; 15799; 15623; 15446; 15268;
   15090; 14911; 14732; 14552; 14372; 14191; 14009; 13827; 13645; 13462; 13278; 13094; 12909; 12724;
   12539; 12353; 12166; 11980; 11792; 11604; 11416; 11227; 11038; 10849; 10659; 10469; 10278; 10087;
   9895; 9703; 9511; 9319; 9126; 8932; 8739; 8545; 8351; 8156; 7961; 7766; 7571; 7375;
   7179; 6982; 6786; 6589; 6392; 6195; 5997; 5799; 5601; 5403; 5205; 5006; 4807; 4608;
   4409; 4210; 4011; 3811; 3611; 3411; 3211; 3011; 2811; 2610; 2410; 2209; 2009; 1808;
   1607; 1406; 1206; 1005; 804; 603; 402; 201; 0; -201; -402; -603; -804; -1005;
   -1206; -1406; -1607; -1808; -2009; -2209; -2410; -2610; -2811; -3011; -3211; -3411; -3611; -3811;
   -4011; -4210; -4409; -4608; -4807; -5006; -5205; -5403; -5601; -5799; -5997; -6195; -6392; -6589;
   -6786; -6982; -7179; -7375; -7571; -7766; -7961; -8156; -8351; -8545; -8739; -8932; -9126; -9319;
   -9511; -9703; -9895; -10087; -10278; -10469; -10659; -10849; -11038; -11227; -11416; -11604; -11792; -11980;
   -12166; -12353; -12539; -12724; -12909; -13094; -13278; -13462; -13645; -13827; -14009; -14191; -14372; -14552;
   -14732; -14911; -15090; -15268; -15446; -15623; -15799; -15975; -16150; -16325; -16499; -16672; -16845; -17017;
   -17189; -17360; -17530; -17699; -17868; -18036; -18204; -18371; -18537; -18702; -18867; -19031; -19194; -19357;
   -19519; -19680; -19840; -20000; -20159; -20317; -20474; -20631; -20787; -20942; -21096; -21249; -21402; -21554;
   -21705; -21855; -22004; -22153; -22301; -22448; -22594; -22739; -22883; -23027; -23169; -23311; -23452; -23592;
   -23731; -23869; -24006; -24143; -24278; -24413; -24546; -24679; -24811; -24942; -25072; -25201; -25329; -25456;
   -25582; -25707; -25831; -25954; -26077; -26198; -26318; -26437; -26556; -26673; -26789; -26905; -27019; -27132;
   -27244; -27355; -27466; -27575; -27683; -27790; -27896; -28001; -28105; -28208; -28309; -28410; -28510; -28608;
   -28706; -28802; -28897; -28992; -29085; -29177; -29268; -29358; -29446; -29534; -29621; -29706; -29790; -29873;
   -29955; -30036; -30116; -30195; -30272; -30349; -30424; -30498; -30571; -30643; -30713; -30783; -30851; -30918;
   -30984; -31049; -31113; -31175; -31236; -31297; -31356; -31413; -31470; -31525; -31580; -31633; -31684; -31735;
   -31785; -31833; -31880; -31926; -31970; -32014; -32056; -32097; -32137; -32176; -32213; -32249; -32284; -32318;
   -32350; -32382; -32412; -32441; -32468; -32495; -32520; -32544; -32567; -32588; -32609; -32628; -32646; -32662;
   -32678; -32692; -32705; -32717; -32727; -32736; -32744; -32751; -32757; -32761; -32764; -32766; -32767; -32766;
   -32764; -32761; -32757; -32751; -32744; -32736; -32727; -32717; -32705; -32692; -32678; -32662; -32646; -32628;
   -32609; -32588; -32567; -32544; -32520; -32495; -32468; -32441; -32412; -32382; -32350; -32318; -32284; -32249;
   -32213; -32176; -32137; -32097; -32056; -32014; -31970; -31926; -31880; -31833; -31785; -31735; -31684; -31633;
   -31580; -31525; -31470; -31413; -31356; -31297; -31236; -31175; -31113; -31049; -30984; -30918; -30851; -30783;
   -30713; -30643; -30571; -30498; -30424; -30349; -30272; -30195; -30116; -30036; -29955; -29873; -29790; -29706;
   -29621; -29534; -29446; -29358; -29268; -29177; -29085; -28992; -28897; -28802; -28706; -28608; -28510; -28410;
   -28309; -28208; -28105; -28001; -27896; -27790; -27683; -27575; -27466; -27355; -27244; -27132; -27019; -26905;
   -26789; -26673; -26556; -26437; -26318; -26198; -26077; -25954; -25831; -25707; -25582; -25456; -25329; -25201;
   -25072; -24942; -24811; -24679; -24546; -24413; -24278; -24143; -24006; -23869; -23731; -23592; -23452; -23311;
   -23169; -23027; -22883; -22739; -22594; -22448; -22301; -22153; -22004; -21855; -21705; -21554; -21402; -21249;
   -21096; -20942; -20787; -20631; -20474; -20317; -20159; -20000; -19840; -19680; -19519; -19357; -19194; -19031;
   -18867; -18702; -18537; -18371; -18204; -18036; -17868; -17699; -17530; -17360; -17189; -17017; -16845; -16672;
   -16499; -16325; -16150; -15975; -15799; -15623; -15446; -15268; -15090; -14911; -14732; -14552; -14372; -14191;
   -14009; -13827; -13645; -13462; -13278; -13094; -12909; -12724; -12539; -12353; -12166; -11980; -11792; -11604;
   -11416; -11227; -11038; -10849; -10659; -10469; -10278; -10087; -9895; -9703; -9511; -9319; -9126; -8932;
   -8739; -8545; -8351; -8156; -7961; -7766; -7571; -7375; -7179; -6982; -6786; -6589; -6392; -6195;
   -5997; -5799; -5601; -5403; -5205; -5006; -4807; -4608; -4409; -4210; -4011; -3811; -3611; -3411;
   -3211; -3011; -2811; -2610; -2410; -2209; -2009; -1808; -1607; -1406; -1206; -1005; -804; -603;
   -402; -201].

Definition CFFTSFT : Z := 14.
Definition CFFTRND : Z := 1.
Definition CFFTRND2 : Z := 16384.
Definition CIFFTSFT : Z := 14.
Definition CIFFTRND : Z := 1.

Section transform.
Context (w32 w16 : Z → Z).

(** mode 0: the complex numbers [q] at [i] and [x] at [j], with the twiddle factor. *)
Definition butterfly0 (wr wi shift : Z) (q x : Z * Z) : (Z * Z) * (Z * Z) :=
  let tr32 := w32 (w32 (wr * x.1) - w32 (wi * x.2)) >>i 15 in
  let ti32 := w32 (w32 (wr * x.2) + w32 (wi * x.1)) >>i 15 in
  ((w16 (w32 (q.1 + tr32) >>i shift), w16 (w32 (q.2 + ti32) >>i shift)),
   (w16 (w32 (q.1 - tr32) >>i shift), w16 (w32 (q.2 - ti32) >>i shift))).

(** mode 1: with rounding. *)
Definition butterfly1 (wr wi shift round2 : Z) (q x : Z * Z) : (Z * Z) * (Z * Z) :=
  let tr32 := w32 (w32 (w32 (wr * x.1) - w32 (wi * x.2)) + CFFTRND) in
  let ti32 := w32 (w32 (w32 (wr * x.2) + w32 (wi * x.1)) + CFFTRND) in
  let tr32 := tr32 >>i (15 - CFFTSFT) in
  let ti32 := ti32 >>i (15 - CFFTSFT) in
  let qr32 := w32 (q.1 * 16384) in
  let qi32 := w32 (q.2 * 16384) in
  ((w16 (w32 (w32 (qr32 + tr32) + round2) >>i (shift + CFFTSFT)),
    w16 (w32 (w32 (qi32 + ti32) + round2) >>i (shift + CFFTSFT))),
   (w16 (w32 (w32 (qr32 - tr32) + round2) >>i (shift + CFFTSFT)),
    w16 (w32 (w32 (qi32 - ti32) + round2) >>i (shift + CFFTSFT)))).

Definition butterfly (mode wr wi shift round2 : Z) (q x : Z * Z) : (Z * Z) * (Z * Z) :=
  if mode =? 0 then butterfly0 wr wi shift q x else butterfly1 wr wi shift round2 q x.

(** One pass, with blocks of [2 l]: for every twiddle factor, of the sign of the direction,
    [for (i = m; i < n; i += 2 l)]. *)
Definition stage (sign mode shift round2 : Z) (n l : nat) (k : Z) (frfi : list Z) : option (list Z) :=
  for_loop l 0 (λ m frfi,
    j ← shl32 (Z.of_nat m) k;
    wr ← rdz kSinTable1024 (j +i 256);
    wi ← rdz kSinTable1024 j;
    let wi := w16 (sign * wi) in
    for_loop ((n - m + (2 * l - 1)) / (2 * l)) 0 (λ c frfi,
      let i := (m + 2 * l * c)%nat in
      let j := (i + l)%nat in
      q ← load frfi i;
      x ← load frfi j;
      let '(a, b) := butterfly mode wr wi shift round2 q x in
      frfi ← store frfi j b;
      store frfi i a) frfi) frfi.

(** The passes; [fuel] bounds their number. *)
Fixpoint fft_loop (fuel : nat) (mode : Z) (n l : nat) (k : Z) (frfi : list Z) : option (list Z) :=
  if (l <? n)%nat then
    match fuel with
    | O => None
    | S fuel =>
        frfi ← stage (-1) mode 1 CFFTRND2 n l k frfi;
        fft_loop fuel mode n (2 * l) (k - 1) frfi
    end
  else Some frfi.

(** The return value and the array. At most ten passes: [n] is at most 1024. *)
Definition complex_fft (frfi : list Z) (stages mode : Z) : option (Z * list Z) :=
  n ← shl32 1 stages;
  if 1024 <? n then Some (-1, frfi)
  else
    frfi ← fft_loop 10 mode (Z.to_nat n) 1 9 frfi;
    Some (0, frfi).

(** The scaling of a pass depends on the largest value. *)
Definition ifft_shift (max : Z) : Z := (if 13573 <? max then 1 else 0) + (if 27146 <? max then 1 else 0).

Fixpoint ifft_loop (fuel : nat) (mode : Z) (n l : nat) (k scale : Z) (frfi : list Z)
  : option (Z * list Z) :=
  if (l <? n)%nat then
    match fuel with
    | O => None
    | S fuel =>
        tmp32 ← WebRtcSpl_MaxAbsValueW16C frfi (2 * n);
        let shift := ifft_shift tmp32 in
        frfi ← stage 1 mode shift (8192 <<i shift) n l k frfi;
        ifft_loop fuel mode n (2 * l) (k - 1) (scale + shift) frfi
    end
  else Some (scale, frfi).

Definition complex_ifft (frfi : list Z) (stages mode : Z) : option (Z * list Z) :=
  if (0 <=? stages) && (stages <? 64) then
    let n := Z.shiftl 1 stages in
    if 1024 <? n then Some (-1, frfi)
    else ifft_loop 10 mode (Z.to_nat n) 1 9 0 frfi
  else None.

End transform.

Definition WebRtcSpl_ComplexFFT : list Z → Z → Z → option (Z * list Z) := complex_fft s32 s16.
Definition WebRtcSpl_ComplexIFFT : list Z → Z → Z → option (Z * list Z) := complex_ifft s32 s16.

(** ** The twiddle factors *)

Definition twiddle (wr wi : Z) : Prop :=
  Z.abs wr + Z.abs wi ≤ 46338 ∧ Z.abs wr ≤ 32767 ∧ Z.abs wi ≤ 32767 ∧ wr * wr + wi * wi ≤ 1073741824.

Definition twiddle_ok (t : Z * Z) : bool :=
  (Z.abs t.1 + Z.abs t.2 <=? 46338) && (Z.abs t.1 <=? 32767) && (Z.abs t.2 <=? 32767) &&
  (t.1 * t.1 + t.2 * t.2 <=? 1073741824).

Lemma table_ok : forallb twiddle_ok (zip (drop 256 kSinTable1024) kSinTable1024) = true.
Proof. reflexivity. Qed.

Lemma table_length : length kSinTable1024 = 1024%nat.
Proof. reflexivity. Qed.

Lemma table_twiddle j : 0 ≤ j < 512 → ∃ wr wi,
  rdz kSinTable1024 (j +i 256) = Some wr ∧ rdz kSinTable1024 j = Some wi ∧ twiddle wr wi.
Proof.
  intros Hj. rewrite s32_id by (unfold int32; lia). unfold rdz.
  rewrite !(proj2 (Z.leb_le 0 _)) by lia.
  destruct (lookup_lt_is_Some_2 kSinTable1024 (Z.to_nat (j + 256)) ltac:(rewrite table_length; lia)) as [wr Er].
  destruct (lookup_lt_is_Some_2 kSinTable1024 (Z.to_nat j) ltac:(rewrite table_length; lia)) as [wi Ei].
  exists wr, wi. split_and!; [done|done|].
  assert (Ez : zip (drop 256 kSinTable1024) kSinTable1024 !! Z.to_nat j = Some (wr, wi)).
  { apply lookup_zip_with_Some. exists wr, wi. split_and!; [done| |done].
    rewrite lookup_drop. replace (256 + Z.to_nat j)%nat with (Z.to_nat (j + 256)) by lia. done. }
  apply list_elem_of_lookup_2, list_elem_of_In in Ez.
  pose proof (proj1 (forallb_forall _ _) table_ok _ Ez) as H. unfold twiddle_ok in H.
  rewrite !andb_true_iff, !Z.leb_le in H. cbn [fst snd] in H. unfold twiddle. lia.
Qed.

Lemma twiddle_neg wr wi : twiddle wr wi → twiddle wr (-1 * wi).
Proof. unfold twiddle. intros. replace (-1 * wi * (-1 * wi)) with (wi * wi) by lia. lia. Qed.

(** ** Butterflies *)

(** The product with a twiddle factor. *)
Lemma rotate_bound wr wi x y M : twiddle wr wi → Z.abs x ≤ M → Z.abs y ≤ M →
  Z.abs (wr * x - wi * y) ≤ 46338 * M ∧ Z.abs (wr * y + wi * x) ≤ 46338 * M ∧
  Z.abs (wr * x) ≤ 32767 * M ∧ Z.abs (wi * y) ≤ 32767 * M ∧ Z.abs (wr * y) ≤ 32767 * M ∧ Z.abs (wi * x) ≤ 32767 * M.
Proof.
  intros (H1 & H2 & H3 & _) Hx Hy.
  assert (Hp : ∀ w v, Z.abs v ≤ M → Z.abs (w * v) ≤ Z.abs w * M) by (intros; rewrite Z.abs_mul; nia).
  pose proof (Hp wr x Hx). pose proof (Hp wi y Hy). pose proof (Hp wr y Hy). pose proof (Hp wi x Hx).
  assert (Hs : Z.abs wr * M + Z.abs wi * M ≤ 46338 * M) by nia.
  assert (Z.abs wr * M ≤ 32767 * M) by nia. assert (Z.abs wi * M ≤ 32767 * M) by nia. lia.
Qed.

(** The bound on the values of a pass, and its scaling. *)
Definition scaled (M shift round2 : Z) : Prop :=
  0 ≤ M ∧ ((M ≤ 13573 ∧ shift = 0 ∧ round2 = 8192) ∨ (M ≤ 27146 ∧ shift = 1 ∧ round2 = 16384) ∨
           (M ≤ 32768 ∧ shift = 2 ∧ round2 = 32768)).

(** One value of the low-accuracy butterfly, and of the other one. *)
Lemma value0 M shift round2 q A : scaled M shift round2 → Z.abs q ≤ M → Z.abs A ≤ 46338 * M →
  int32 (q + Z.shiftr A 15) ∧ int16 (Z.shiftr (q + Z.shiftr A 15) shift) ∧
  int32 (q - Z.shiftr A 15) ∧ int16 (Z.shiftr (q - Z.shiftr A 15) shift).
Proof.
  intros [H0 Hs] Hq HA. unfold int16, int32. destruct Hs as [(HM & -> & _)|[(HM & -> & _)|(HM & -> & _)]];
    rewrite ?Z.shiftr_0_r; shift_const; Z.to_euclidean_division_equations; lia.
Qed.

Lemma value1 M shift round2 q A : scaled M shift round2 → Z.abs q ≤ M → Z.abs A ≤ 46338 * M →
  int32 (A + 1) ∧ int32 (q * 16384) ∧
  int32 (q * 16384 + Z.shiftr (A + 1) 1) ∧ int32 (q * 16384 + Z.shiftr (A + 1) 1 + round2) ∧
  int16 (Z.shiftr (q * 16384 + Z.shiftr (A + 1) 1 + round2) (shift + 14)) ∧
  int32 (q * 16384 - Z.shiftr (A + 1) 1) ∧ int32 (q * 16384 - Z.shiftr (A + 1) 1 + round2) ∧
  int16 (Z.shiftr (q * 16384 - Z.shiftr (A + 1) 1 + round2) (shift + 14)).
Proof.
  intros [H0 Hs] Hq HA. unfold int16, int32.
  destruct Hs as [(HM & -> & ->)|[(HM & -> & ->)|(HM & -> & ->)]];
    [change (0 + 14) with 14|change (1 + 14) with 15|change (2 + 14) with 16]; shift_const; Z.to_euclidean_division_equations; lia.
Qed.

Definition bounded (M : Z) (z : Z * Z) : Prop := Z.abs z.1 ≤ M ∧ Z.abs z.2 ≤ M.
Definition short (z : Z * Z) : Prop := int16 z.1 ∧ int16 z.2.

(** With the scaling of a pass nothing wraps: the butterfly is the one in unbounded
    integers. *)
Lemma butterfly_exact M mode shift round2 wr wi q x : scaled M shift round2 → twiddle wr wi →
  bounded M q → bounded M x →
  butterfly s32 s16 mode wr wi shift round2 q x = butterfly id id mode wr wi shift round2 q x ∧
  short (butterfly id id mode wr wi shift round2 q x).1 ∧ short (butterfly id id mode wr wi shift round2 q x).2.
Proof.
  intros Hs Hw [Hq1 Hq2] [Hx1 Hx2]. assert (HM : 0 ≤ M ≤ 32768) by (unfold scaled in Hs; lia).
  destruct (rotate_bound wr wi x.1 x.2 M Hw Hx1 Hx2) as (HA & HB & P1 & P2 & P3 & P4).
  set (A := wr * x.1 - wi * x.2) in *. set (B := wr * x.2 + wi * x.1) in *.
  unfold butterfly. destruct (mode =? 0).
  - destruct (value0 M shift round2 q.1 A Hs Hq1 HA) as (V1 & V2 & V3 & V4).
    destruct (value0 M shift round2 q.2 B Hs Hq2 HB) as (U1 & U2 & U3 & U4).
    unfold butterfly0, id. cbv zeta.
    rewrite (s32_id (wr * x.1)), (s32_id (wi * x.2)), (s32_id (wr * x.2)), (s32_id (wi * x.1))
      by (unfold int32; lia).
    fold A B. rewrite (s32_id A), (s32_id B) by (unfold int32; lia).
    rewrite !s32_id by done. rewrite !s16_id by done. done.
  - destruct (value1 M shift round2 q.1 A Hs Hq1 HA) as (V0 & V0' & V1 & V1' & V2 & V3 & V3' & V4).
    destruct (value1 M shift round2 q.2 B Hs Hq2 HB) as (U0 & U0' & U1 & U1' & U2 & U3 & U3' & U4).
    unfold butterfly1, id, CFFTRND, CFFTSFT. cbv zeta.
    rewrite (s32_id (wr * x.1)), (s32_id (wi * x.2)), (s32_id (wr * x.2)), (s32_id (wi * x.1))
      by (unfold int32; lia).
    fold A B. rewrite (s32_id A), (s32_id B) by (unfold int32; lia).
    rewrite (s32_id (A + 1)), (s32_id (B + 1)), (s32_id (q.1 * 16384)), (s32_id (q.2 * 16384)) by done.
    change (15 - 14) with 1.
    rewrite (s32_id (q.1 * 16384 + _)), (s32_id (q.2 * 16384 + _)), (s32_id (q.1 * 16384 - _)),
      (s32_id (q.2 * 16384 - _)) by done.
    rewrite !s32_id by done. rewrite !s16_id by done. done.
Qed.

(** ** One pass *)

(** The elements of the block [c] with the twiddle factor [m]. *)
Lemma block_index (l m c k : nat) : (m < l)%nat →
  (k mod l = m ∧ k / (2 * l) = c ↔ k = m + 2 * l * c ∨ k = m + 2 * l * c + l)%nat.
Proof.
  intros Hm. pose proof (Nat.div_mod k (2 * l) ltac:(lia)) as E. pose proof (Nat.mod_upper_bound k (2 * l) ltac:(lia)) as Hr.
  set (r := (k mod (2 * l))%nat) in *. split.
  - intros [Ek <-]. destruct (Nat.lt_ge_cases r l) as [H|H].
    + left. rewrite E in Ek at 1. replace (2 * l * (k / (2 * l)) + r)%nat with (r + 2 * (k / (2 * l)) * l)%nat in Ek by lia.
      rewrite Nat.Div0.mod_add, Nat.mod_small in Ek by lia. lia.
    + right. rewrite E in Ek at 1.
      replace (2 * l * (k / (2 * l)) + r)%nat with ((r - l) + (2 * (k / (2 * l)) + 1) * l)%nat in Ek by lia.
      rewrite Nat.Div0.mod_add, Nat.mod_small in Ek by lia. lia.
  - intros [->| ->].
    + replace (m + 2 * l * c)%nat with (m + 2 * c * l)%nat at 1 by lia. rewrite Nat.Div0.mod_add, Nat.mod_small by lia.
      split; [done|]. replace (m + 2 * l * c)%nat with (m + c * (2 * l))%nat by lia.
      rewrite Nat.div_add, Nat.div_small by lia. lia.
    + replace (m + 2 * l * c + l)%nat with (m + (2 * c + 1) * l)%nat at 1 by lia. rewrite Nat.Div0.mod_add, Nat.mod_small by lia.
      split; [done|]. replace (m + 2 * l * c + l)%nat with (m + l + c * (2 * l))%nat by lia.
      rewrite Nat.div_add, Nat.div_small by lia. lia.
Qed.

(** The elements below [n] satisfy [P]. *)
Definition all (n : nat) (P : Z * Z → Prop) (frfi : list Z) : Prop :=
  ∀ k, (k < n)%nat → ∃ z, load frfi k = Some z ∧ P z.

(** The elements that are done before the block [c] of the twiddle factor [m]. *)
Definition is_done (l m c k : nat) : Prop := (k mod l < m ∨ (k mod l = m ∧ k / (2 * l) < c))%nat.

#[export] Instance is_done_dec l m c k : Decision (is_done l m c k).
Proof. unfold is_done. apply _. Defined.

Section pass.
Context (u32 u16 v32 v16 : Z → Z) (P Q : Z * Z → Prop) (sign mode shift round2 : Z).

(** The butterfly takes values of [P] to values of [Q], with both ways to wrap. *)
Definition same_butterfly : Prop := ∀ wr wi q x, twiddle wr wi → P q → P x →
  u16 (sign * wi) = v16 (sign * wi) ∧
  butterfly u32 u16 mode wr (u16 (sign * wi)) shift round2 q x =
  butterfly v32 v16 mode wr (v16 (sign * wi)) shift round2 q x ∧
  Q (butterfly v32 v16 mode wr (v16 (sign * wi)) shift round2 q x).1 ∧
  Q (butterfly v32 v16 mode wr (v16 (sign * wi)) shift round2 q x).2.

Context (Hbf : same_butterfly).

(** What a pass has done so far to [frfi0]. *)
Record partly (n l m c : nat) (frfi0 frfi : list Z) : Prop := {
  p_length : length frfi = length frfi0;
  p_elements : ∀ k, (k < n)%nat → ∃ z, load frfi k = Some z ∧ if decide (is_done l m c k) then Q z else P z;
  p_rest : ∀ p, (2 * n ≤ p)%nat → frfi !! p = frfi0 !! p;
}.

Lemma block_step n l m c count frfi0 frfi wr wi : (m < l)%nat → n = (2 * l * count)%nat → (c < count)%nat →
  twiddle wr wi → (2 * n ≤ length frfi0)%nat → partly n l m c frfi0 frfi →
  ∃ frfi',
    (let i := (m + 2 * l * c)%nat in
     let j := (i + l)%nat in
     q ← load frfi i; x ← load frfi j;
     let '(a, b) := butterfly u32 u16 mode wr (u16 (sign * wi)) shift round2 q x in
     frfi ← store frfi j b; store frfi i a) = Some frfi' ∧
    (let i := (m + 2 * l * c)%nat in
     let j := (i + l)%nat in
     q ← load frfi i; x ← load frfi j;
     let '(a, b) := butterfly v32 v16 mode wr (v16 (sign * wi)) shift round2 q x in
     frfi ← store frfi j b; store frfi i a) = Some frfi' ∧
    partly n l m (S c) frfi0 frfi'.
Proof using Hbf.
  intros Hm -> Hc Hw Hl [Hlen Hel Hrest]. cbv zeta. set (i := (m + 2 * l * c)%nat). set (j := (i + l)%nat).
  assert (Hij : (i < 2 * l * count)%nat ∧ (j < 2 * l * count)%nat) by (unfold i, j; nia).
  destruct Hij as [Hi Hj].
  destruct (proj2 (block_index l m c i Hm) ltac:(by left)) as [Mi Di].
  destruct (proj2 (block_index l m c j Hm) ltac:(by right)) as [Mj Dj].
  destruct (Hel i Hi) as (q & Eq & Hq). rewrite decide_False in Hq by (unfold is_done; lia).
  destruct (Hel j Hj) as (x & Ex & Hx). rewrite decide_False in Hx by (unfold is_done; lia).
  destruct (Hbf wr wi q x Hw Hq Hx) as (_ & Eb & Qa & Qb). rewrite Eq, Ex. cbn [mbind option_bind]. rewrite Eb.
  destruct (butterfly v32 v16 mode wr (v16 (sign * wi)) shift round2 q x) as [a b]. cbn [fst snd] in Qa, Qb.
  destruct (store_ok frfi j b ltac:(lia)) as (f1 & -> & L1 & S1 & O1 & R1). cbn [mbind option_bind].
  destruct (store_ok f1 i a ltac:(lia)) as (f2 & -> & L2 & S2 & O2 & R2).
  exists f2. split_and!; [done|done|]. split; [lia| |].
  - intros k Hk. destruct (decide (k = i)) as [->|Hki].
    { exists a. split; [done|]. rewrite decide_True by (unfold is_done; lia). done. }
    destruct (decide (k = j)) as [->|Hkj].
    { exists b. rewrite O2 by done. split; [done|]. rewrite decide_True by (unfold is_done; lia). done. }
    destruct (Hel k Hk) as (z & Ez & Hz). exists z. rewrite O2, O1 by done. split; [done|].
    assert (Hne : ¬ (k mod l = m ∧ k / (2 * l) = c)%nat)
      by (intros Hb; apply (block_index l m c k Hm) in Hb; fold i in Hb; fold j in Hb; naive_solver).
    destruct (decide (is_done l m c k)), (decide (is_done l m (S c) k)); try done;
      exfalso; unfold is_done in *; lia.
  - intros p Hp. rewrite R2, R1 by lia. by apply Hrest.
Qed.

Lemma pass_ok n l count (k : Z) frfi : (0 < l)%nat → (0 < count)%nat → n = (2 * l * count)%nat →
  0 ≤ k → Z.of_nat l * 2 ^ k = 512 → (2 * n ≤ length frfi)%nat → all n P frfi →
  ∃ frfi', stage u32 u16 sign mode shift round2 n l k frfi = Some frfi' ∧
    stage v32 v16 sign mode shift round2 n l k frfi = Some frfi' ∧
    length frfi' = length frfi ∧ all n Q frfi' ∧ (∀ p, (2 * n ≤ p)%nat → frfi' !! p = frfi !! p).
Proof using Hbf.
  intros Hl0 Hc0 Hn Hk Hlk Hlen Hall. unfold stage.
  assert (Hkb : k ≤ 9).
  { destruct (Z.le_gt_cases k 9); [done|]. assert (2 ^ 10 ≤ 2 ^ k) by (apply Z.pow_le_mono_r; lia).
    change (2 ^ 10) with 1024 in *. nia. }
  match goal with |- ∃ _, for_loop _ _ ?b1 _ = _ ∧ for_loop _ _ ?b2 _ = _ ∧ _ =>
    destruct (for_both (λ m f, partly n l m 0 frfi f) l 0 b1 b2 frfi) as (f' & E1 & E2 & [H1 H2 H3]) end;
    [| |exists f'; split_and!; [exact E1|exact E2|done| |done]].
  - split; [done| |done]. intros i Hi. destruct (Hall i Hi) as (z & Ez & Hz). exists z. split; [done|].
    rewrite decide_False by (unfold is_done; lia). done.
  - intros m f Hm Hp. cbv beta.
    assert (Hj : 0 ≤ Z.of_nat m * 2 ^ k < 512) by (assert (0 < 2 ^ k) by (apply Z.pow_pos_nonneg; lia); nia).
    assert (Es : shl32 (Z.of_nat m) k = Some (Z.of_nat m * 2 ^ k)).
    { unfold shl32. rewrite (proj2 (Z.leb_le 0 k)), (proj2 (Z.ltb_lt k 32)) by lia. cbn [andb].
      rewrite Z.shiftl_mul_pow2 by lia. by rewrite s32_id by (unfold int32; lia). }
    rewrite Es. cbn [mbind option_bind]. destruct (table_twiddle _ Hj) as (wr & wi & -> & -> & Hw).
    cbn [mbind option_bind].
    assert (Hcount : ((n - m + (2 * l - 1)) / (2 * l) = count)%nat).
    { rewrite Hn. replace (2 * l * count - m + (2 * l - 1))%nat with ((2 * l - 1 - m) + count * (2 * l))%nat by nia.
      rewrite Nat.div_add, Nat.div_small by lia. lia. }
    rewrite Hcount.
    destruct (for_both (λ c f, partly n l m c frfi f) count 0
      (λ c frfi, let i := (m + 2 * l * c)%nat in let j := (i + l)%nat in
         q ← load frfi i; x ← load frfi j;
         let '(a, b) := butterfly u32 u16 mode wr (u16 (sign * wi)) shift round2 q x in
         frfi ← store frfi j b; store frfi i a)
      (λ c frfi, let i := (m + 2 * l * c)%nat in let j := (i + l)%nat in
         q ← load frfi i; x ← load frfi j;
         let '(a, b) := butterfly v32 v16 mode wr (v16 (sign * wi)) shift round2 q x in
         frfi ← store frfi j b; store frfi i a) f Hp) as (f2 & F1 & F2 & [G1 G2 G3]).
    { intros c g Hc Hg. apply (block_step n l m c count frfi g wr wi); done || lia. }
    exists f2. split_and!; [exact F1|exact F2|]. split; [done| |done].
    intros i Hi. destruct (G2 i Hi) as (z & Ez & Hz). exists z. split; [done|].
    assert (Hd : (i / (2 * l) < count)%nat) by (apply Nat.Div0.div_lt_upper_bound; lia).
    destruct (decide (is_done l m (0 + count) i)), (decide (is_done l (S m) 0 i)); try done;
      exfalso; unfold is_done in *; lia.
  - intros i Hi. destruct (H2 i Hi) as (z & Ez & Hz). exists z. split; [done|].
    rewrite decide_True in Hz; [done|]. unfold is_done. pose proof (Nat.mod_upper_bound i l ltac:(lia)). lia.
Qed.

End pass.

(** ** The inverse transform *)

Lemma ifft_scaled M : 0 ≤ M ≤ 32768 →
  scaled M (ifft_shift (Z.min M 32767)) (8192 <<i ifft_shift (Z.min M 32767)) ∧
  0 ≤ ifft_shift (Z.min M 32767) ≤ 2.
Proof.
  intros HM. unfold scaled, ifft_shift.
  destruct (Z.ltb_spec 13573 (Z.min M 32767)), (Z.ltb_spec 27146 (Z.min M 32767)); try lia;
    (split; [|lia]); (split; [lia|]).
  - right; right. split_and!; [lia|done|done].
  - right; left. split_and!; [lia|done|done].
  - left. split_and!; [lia|done|done].
Qed.

Lemma ifft_butterfly M mode : 0 ≤ M ≤ 32768 →
  same_butterfly s32 s16 id id (bounded M) short 1 mode (ifft_shift (Z.min M 32767))
    (8192 <<i ifft_shift (Z.min M 32767)).
Proof.
  intros HM wr wi q x Hw Hq Hx. destruct (ifft_scaled M HM) as [Hs _].
  assert (Ei : s16 (1 * wi) = wi) by (rewrite Z.mul_1_l; apply s16_id; unfold twiddle in Hw; unfold int16; lia).
  assert (Ei' : id (1 * wi) = wi) by (unfold id; lia). rewrite Ei, Ei'. split; [done|].
  by apply (butterfly_exact M).
Qed.

Lemma load_lookup f k z : load f k = Some z → f !! (2 * k)%nat = Some z.1 ∧ f !! (2 * k + 1)%nat = Some z.2.
Proof.
  unfold load. intros E. apply bind_Some in E as (re & E1 & E). apply bind_Some in E as (im & E2 & E).
  by injection E as <-.
Qed.

Lemma all_of_cells n (P : Z → Prop) f : (2 * n ≤ length f)%nat → (∀ p x, (p < 2 * n)%nat → f !! p = Some x → P x) →
  all n (λ z, P z.1 ∧ P z.2) f.
Proof.
  intros Hl HP k Hk. destruct (load_ok f k ltac:(lia)) as [z Ez]. exists z. split; [done|].
  apply load_lookup in Ez as [E1 E2]. split; [apply (HP (2 * k)%nat)|apply (HP (2 * k + 1)%nat)]; done || lia.
Qed.

Lemma cells_of_all n f f0 : all n short f → (∀ p, (2 * n ≤ p)%nat → f !! p = f0 !! p) → Forall int16 f0 →
  Forall int16 f.
Proof.
  intros Ha Hr H0. apply Forall_lookup. intros p x Hx. destruct (Nat.lt_ge_cases p (2 * n)) as [Hp|Hp].
  2: { rewrite Hr in Hx by done. exact (Forall_lookup_1 _ _ _ _ H0 Hx). }
  destruct (Ha (p / 2)%nat ltac:(apply Nat.Div0.div_lt_upper_bound; lia)) as (z & [E1 E2]%load_lookup & [Z1 Z2]).
  pose proof (Nat.div_mod p 2 ltac:(lia)) as Ed. pose proof (Nat.mod_upper_bound p 2 ltac:(lia)).
  destruct (Nat.eq_dec (p mod 2) 0) as [Em|Em].
  - replace (2 * (p / 2))%nat with p in E1 by lia. congruence.
  - replace (2 * (p / 2) + 1)%nat with p in E2 by lia. congruence.
Qed.

Lemma ifft_loop_ok mode n r : ∀ l e fuel scale f, (0 < l)%nat → (l * 2 ^ r = n)%nat → Z.of_nat l * 2 ^ Z.of_nat e = 1024 →
  (r ≤ e)%nat → (r ≤ fuel)%nat → (2 * n ≤ length f)%nat → Forall int16 f →
  ∃ scale' f', ifft_loop s32 s16 fuel mode n l (Z.of_nat e - 1) scale f = Some (scale', f') ∧
    ifft_loop id id fuel mode n l (Z.of_nat e - 1) scale f = Some (scale', f') ∧
    scale ≤ scale' ≤ scale + 2 * Z.of_nat r ∧ length f' = length f ∧ Forall int16 f'.
Proof.
  induction r as [|r IH]; intros l e fuel scale f Hl Hn He Hre Hrf Hlen Hf.
  { cbn [Nat.pow] in Hn. exists scale, f.
    destruct fuel; cbn [ifft_loop]; rewrite (proj2 (Nat.ltb_ge l n)) by lia; split_and!; done || lia. }
  destruct fuel as [|fuel]; [lia|]. destruct e as [|e]; [lia|]. cbn [Nat.pow] in Hn.
  rewrite Nat2Z.inj_succ, Z.pow_succ_r in He by lia.
  assert (0 < 2 ^ r)%nat by (pose proof (Nat.pow_nonzero 2 r); lia).
  cbn [ifft_loop]. rewrite !(proj2 (Nat.ltb_lt l n)) by nia.
  rewrite Correlation.MaxAbs_take by done.
  pose proof (proj1 (MaxAbsValue_saturates (take (2 * n) f) ltac:(rewrite length_take_le by done; nia))
    ltac:(by apply Forall_take)) as Hmax.
  destruct (WebRtcSpl_MaxAbsValueW16C (take (2 * n) f) (length (take (2 * n) f))) as [max|]; [|done].
  destruct Hmax as (M & [(y & Hy & ->) Hle] & ->). cbn [mbind option_bind].
  assert (Hy' : int16 y) by exact (range_elem _ _ _ (Forall_take int16 (2 * n) f Hf) Hy).
  assert (HM : 0 ≤ Z.abs y ≤ 32768) by (unfold int16 in Hy'; lia).
  set (M := Z.abs y) in *. destruct (ifft_scaled M HM) as [_ Hs]. set (shift := ifft_shift (Z.min M 32767)) in *.
  assert (Hall : all n (bounded M) f).
  { apply (all_of_cells n (λ x, Z.abs x ≤ M)); [done|]. intros p x Hp Hx. apply Hle.
    apply list_elem_of_lookup_2 with (i := p). by rewrite lookup_take_lt by done. }
  destruct (pass_ok s32 s16 id id (bounded M) short 1 mode shift (8192 <<i shift)
    (ifft_butterfly M mode HM) n l (2 ^ r) (Z.of_nat (S e) - 1) f) as (f1 & E1 & E2 & L1 & A1 & R1);
    [lia|lia|lia|lia| |done|done|].
  { replace (Z.of_nat (S e) - 1) with (Z.of_nat e) by lia. lia. }
  rewrite E1, E2. cbn [mbind option_bind].
  destruct (IH (2 * l)%nat e fuel (scale + shift) f1) as (scale' & f' & F1 & F2 & Hsc & L' & Hf');
    [lia|lia|lia|lia|lia|lia|exact (cells_of_all n f1 f A1 R1 Hf)|].
  replace (Z.of_nat (S e) - 1 - 1) with (Z.of_nat e - 1) by lia.
  exists scale', f'. split_and!; [done|done|lia|lia|lia|done].
Qed.

Lemma ComplexIFFT_ok (frfi : list Z) (s : nat) (mode : Z) :
  (s ≤ 10)%nat → (2 * 2 ^ s ≤ length frfi)%nat → Forall int16 frfi →
  ∃ scale frfi', WebRtcSpl_ComplexIFFT frfi (Z.of_nat s) mode = Some (scale, frfi') ∧
    complex_ifft id id frfi (Z.of_nat s) mode = Some (scale, frfi') ∧
    0 ≤ scale ≤ 2 * Z.of_nat s ∧ length frfi' = length frfi ∧ Forall int16 frfi'.
Proof.
  intros Hs Hl Hf. unfold WebRtcSpl_ComplexIFFT, complex_ifft.
  rewrite (proj2 (Z.leb_le 0 _)), (proj2 (Z.ltb_lt _ 64)) by lia. cbn [andb].
  rewrite Z.shiftl_1_l. assert (Hpow : 2 ^ Z.of_nat s ≤ 2 ^ 10) by (apply Z.pow_le_mono_r; lia).
  change (2 ^ 10) with 1024 in Hpow. rewrite (proj2 (Z.ltb_ge 1024 _)) by done.
  rewrite <- pow_nat, Nat2Z.id.
  destruct (ifft_loop_ok mode (2 ^ s) s 1 10 10 0 frfi) as (scale & f' & E1 & E2 & Hsc & L & Hf');
    [exact Nat.lt_0_1|apply Nat.mul_1_l|vm_compute; reflexivity|exact Hs|exact Hs|exact Hl|exact Hf|].
  change (Z.of_nat 10 - 1) with 9 in *. exists scale, f'.
  split_and!; [exact E1|exact E2|lia|lia|exact L|exact Hf'].
Qed.

(** C22: The inverse transform does not overflow. For every array of 16-bit numbers, both
    modes and every size up to 1024, the inverse transform returns, and computes what it
    would compute in unbounded integers: the scaling by the largest value of each pass
    keeps every product, sum and result in range. The scale factor it returns is at
    most two for each pass. *)
Theorem ifft_exact (frfi : list Z) (s : nat) (mode : Z) :
  (s ≤ 10)%nat → (2 * 2 ^ s ≤ length frfi)%nat → Forall int16 frfi →
  ∃ scale frfi', WebRtcSpl_ComplexIFFT frfi (Z.of_nat s) mode = Some (scale, frfi') ∧
    complex_ifft id id frfi (Z.of_nat s) mode = Some (scale, frfi') ∧
    0 ≤ scale ≤ 2 * Z.of_nat s ∧ length frfi' = length frfi ∧ Forall int16 frfi'.
Proof. apply ComplexIFFT_ok. Qed.

Definition example_spectrum : list Z := [13573; 0; 0; 0; 0; 0; 0; 0; 13573; -13573; 0; 0; 0; 0; 0; 0].

Lemma ifft_exact_witness :
  WebRtcSpl_ComplexIFFT example_spectrum 3 1 =
    Some (0, [27146; -13573; 32767; 0; 27146; 13573; 13573; 19194; 0; 13573; -5621; 0; 0; -13573; 13573; -19194]) ∧
  ∃ scale frfi', WebRtcSpl_ComplexIFFT example_spectrum (Z.of_nat 3) 1 = Some (scale, frfi') ∧
    complex_ifft id id example_spectrum (Z.of_nat 3) 1 = Some (scale, frfi') ∧
    0 ≤ scale ≤ 2 * Z.of_nat 3 ∧ length frfi' = length example_spectrum ∧ Forall int16 frfi'.
Proof.
  split; [vm_compute; reflexivity|]. apply (ifft_exact example_spectrum 3 1); [lia|cbn; lia|].
  repeat (apply Forall_cons_2; [unfold int16; lia|]). apply Forall_nil_2.
Defined.

(** ** The forward transform *)

(** Complex numbers by their modulus. *)
Definition within (R : Z) (z : Z * Z) : Prop := 0 ≤ R ∧ z.1 * z.1 + z.2 * z.2 ≤ R * R.

Lemma triangle R S a b : within R a → within S b → within (R + S) (a.1 + b.1, a.2 + b.2).
Proof.
  intros [HR Ha] [HS Hb]. split; [lia|]. cbn [fst snd].
  destruct a as [a c], b as [b d]. cbn [fst snd] in *.
  assert (Hcs : a * b + c * d ≤ R * S).
  { apply Z.square_le_simpl_nonneg; [nia|].
    assert ((a * b + c * d) * (a * b + c * d) + (a * d - c * b) * (a * d - c * b) =
      (a * a + c * c) * (b * b + d * d)) by ring.
    pose proof (Z.square_nonneg (a * d - c * b)).
    assert ((a * a + c * c) * (b * b + d * d) ≤ (R * R) * (S * S)) by (apply Z.mul_le_mono_nonneg; nia). nia. }
  nia.
Qed.

Lemma within_component R z : within R z → Z.abs z.1 ≤ R ∧ Z.abs z.2 ≤ R.
Proof. intros [H0 H]. split; nia. Qed.

Lemma rotate_within wr wi R x : twiddle wr wi → within R x →
  within (32768 * R) (wr * x.1 - wi * x.2, wr * x.2 + wi * x.1).
Proof.
  intros (_ & _ & _ & Hw) [H0 Hx]. split; [lia|]. cbn [fst snd]. destruct x as [x y]. cbn [fst snd] in *.
  replace ((wr * x - wi * y) * (wr * x - wi * y) + (wr * y + wi * x) * (wr * y + wi * x))
    with ((wr * wr + wi * wi) * (x * x + y * y)) by ring.
  replace (32768 * R * (32768 * R)) with (1073741824 * (R * R)) by ring.
  apply Z.mul_le_mono_nonneg; nia.
Qed.

(** A number that differs from half of [q + A / 32768] by at most one in each part. *)
Lemma half_within R q A z : within R q → within (32768 * R) A →
  Z.abs (65536 * z.1 - (32768 * q.1 + A.1)) ≤ 65536 → Z.abs (65536 * z.2 - (32768 * q.2 + A.2)) ≤ 65536 →
  within (R + 2) z.
Proof.
  intros Hq HA H1 H2.
  assert (Hq' : within (32768 * R) (32768 * q.1, 32768 * q.2)).
  { destruct Hq as [? Hq]. split; [lia|]. cbn [fst snd]. nia. }
  assert (He : within (65536 * 2) (65536 * z.1 - (32768 * q.1 + A.1), 65536 * z.2 - (32768 * q.2 + A.2))).
  { split; [lia|]. cbn [fst snd]. set (e := 65536 * z.1 - _) in *. set (f := 65536 * z.2 - _) in *.
    assert (e * e ≤ 65536 * 65536) by nia. assert (f * f ≤ 65536 * 65536) by nia. lia. }
  pose proof (triangle _ _ _ _ (triangle _ _ _ _ Hq' HA) He) as [_ H]. cbn [fst snd] in H.
  destruct Hq as [HR _]. split; [lia|].
  replace (32768 * q.1 + A.1 + (65536 * z.1 - (32768 * q.1 + A.1))) with (65536 * z.1) in H by lia.
  replace (32768 * q.2 + A.2 + (65536 * z.2 - (32768 * q.2 + A.2))) with (65536 * z.2) in H by lia.
  replace (32768 * R + 32768 * R + 65536 * 2) with (65536 * (R + 2)) in H by lia. nia.
Qed.

Lemma within_neg R z : within R z → within R (- z.1, - z.2).
Proof. intros [H0 H]. split; [done|]. cbn [fst snd]. lia. Qed.

(** In unbounded integers both butterflies halve: the modulus grows by the rounding only. *)
Lemma butterfly_within R mode wr wi q x : twiddle wr wi → within R q → within R x →
  within (R + 2) (butterfly id id mode wr wi 1 16384 q x).1 ∧
  within (R + 2) (butterfly id id mode wr wi 1 16384 q x).2.
Proof.
  intros Hw Hq Hx. pose proof (rotate_within wr wi R x Hw Hx) as HA.
  pose proof (within_neg _ _ HA) as HA'. cbn [fst snd] in HA'.
  unfold butterfly. destruct (mode =? 0); unfold butterfly0, butterfly1, id, CFFTRND, CFFTSFT; cbv zeta;
    set (A := wr * x.1 - wi * x.2) in *; set (B := wr * x.2 + wi * x.1) in *;
    change (15 - 14) with 1; change (1 + 14) with 15;
    (split; [apply (half_within R q (A, B))|apply (half_within R q (- A, - B))]); try done; cbn [fst snd];
    shift_const; Z.to_euclidean_division_equations; lia.
Qed.

(** The steps of one value of the forward transform. *)
Lemma fft_value0 q A : Z.abs q ≤ 32767 → Z.abs A ≤ 46338 * 32767 →
  int32 (q + Z.shiftr A 15) ∧ int32 (q - Z.shiftr A 15).
Proof. intros. unfold int32. shift_const. Z.to_euclidean_division_equations; lia. Qed.

Lemma fft_value1 q A : Z.abs q ≤ 32767 → Z.abs A ≤ 46338 * 32767 →
  int32 (A + 1) ∧ int32 (q * 16384) ∧
  int32 (q * 16384 + Z.shiftr (A + 1) 1) ∧ int32 (q * 16384 + Z.shiftr (A + 1) 1 + 16384) ∧
  int32 (q * 16384 - Z.shiftr (A + 1) 1) ∧ int32 (q * 16384 - Z.shiftr (A + 1) 1 + 16384).
Proof. intros. unfold int32. shift_const. Z.to_euclidean_division_equations; lia. Qed.

Lemma within_short R z : within R z → R ≤ 32767 → int16 z.1 ∧ int16 z.2.
Proof. intros H HR. apply within_component in H. unfold int16. lia. Qed.

Lemma fft_butterfly R mode : 0 ≤ R → R + 2 ≤ 32767 →
  same_butterfly s32 s16 id id (within R) (within (R + 2)) (-1) mode 1 CFFTRND2.
Proof.
  intros H0 HR wr wi' q x Hw' Hq Hx.
  assert (Ei : s16 (-1 * wi') = -1 * wi') by (apply s16_id; unfold twiddle in Hw'; unfold int16; lia).
  rewrite Ei. change (id (-1 * wi')) with (-1 * wi'). split; [done|].
  pose proof (twiddle_neg _ _ Hw') as Hw. set (wi := -1 * wi') in *. change CFFTRND2 with 16384.
  pose proof (butterfly_within R mode wr wi q x Hw Hq Hx) as [W1 W2]. split; [|done].
  destruct (within_short _ _ W1 HR) as [S1 S2]. destruct (within_short _ _ W2 HR) as [S3 S4].
  revert S1 S2 S3 S4. clear W1 W2.
  apply within_component in Hq as [Hq1 Hq2]. apply within_component in Hx as [Hx1 Hx2].
  destruct (rotate_bound wr wi x.1 x.2 32767 Hw ltac:(lia) ltac:(lia)) as (HA & HB & P1 & P2 & P3 & P4).
  assert (I1 : int32 (wr * x.1)) by (unfold int32; lia). assert (I2 : int32 (wi * x.2)) by (unfold int32; lia).
  assert (I3 : int32 (wr * x.2)) by (unfold int32; lia). assert (I4 : int32 (wi * x.1)) by (unfold int32; lia).
  unfold butterfly. destruct (mode =? 0).
  - destruct (fft_value0 q.1 _ ltac:(lia) HA) as (V1 & V2). destruct (fft_value0 q.2 _ ltac:(lia) HB) as (U1 & U2).
    unfold butterfly0, id. cbv zeta. cbn [fst snd]. intros S1 S2 S3 S4.
    rewrite (s32_id (wr * x.1)), (s32_id (wi * x.2)), (s32_id (wr * x.2)), (s32_id (wi * x.1)) by done.
    rewrite (s32_id (wr * x.1 - wi * x.2)), (s32_id (wr * x.2 + wi * x.1)) by (unfold int32; lia).
    rewrite !s32_id by done. rewrite !s16_id by done. done.
  - destruct (fft_value1 q.1 _ ltac:(lia) HA) as (V0 & V0' & V1 & V1' & V3 & V3').
    destruct (fft_value1 q.2 _ ltac:(lia) HB) as (U0 & U0' & U1 & U1' & U3 & U3').
    unfold butterfly1, id, CFFTRND, CFFTSFT. cbv zeta. cbn [fst snd]. change (15 - 14) with 1.
    change (1 + 14) with 15. intros S1 S2 S3 S4.
    rewrite (s32_id (wr * x.1)), (s32_id (wi * x.2)), (s32_id (wr * x.2)), (s32_id (wi * x.1)) by done.
    rewrite (s32_id (wr * x.1 - wi * x.2)), (s32_id (wr * x.2 + wi * x.1)) by (unfold int32; lia).
    rewrite (s32_id (wr * x.1 - wi * x.2 + 1)), (s32_id (wr * x.2 + wi * x.1 + 1)),
      (s32_id (q.1 * 16384)), (s32_id (q.2 * 16384)) by done.
    rewrite (s32_id (q.1 * 16384 + _)), (s32_id (q.2 * 16384 + _)), (s32_id (q.1 * 16384 - _)),
      (s32_id (q.2 * 16384 - _)) by done.
    rewrite !s32_id by done. rewrite !s16_id by done. done.
Qed.

Lemma fft_loop_ok mode n r : ∀ l e fuel R f, (0 < l)%nat → (l * 2 ^ r = n)%nat → Z.of_nat l * 2 ^ Z.of_nat e = 1024 →
  (r ≤ e)%nat → (r ≤ fuel)%nat → (2 * n ≤ length f)%nat → 0 ≤ R → R + 2 * Z.of_nat r ≤ 32767 → all n (within R) f →
  ∃ f', fft_loop s32 s16 fuel mode n l (Z.of_nat e - 1) f = Some f' ∧
    fft_loop id id fuel mode n l (Z.of_nat e - 1) f = Some f' ∧
    length f' = length f ∧ all n (within (R + 2 * Z.of_nat r)) f' ∧ (∀ p, (2 * n ≤ p)%nat → f' !! p = f !! p).
Proof.
  induction r as [|r IH]; intros l e fuel R f Hl Hn He Hre Hrf Hlen H0 HR Hf.
  { cbn [Nat.pow] in Hn. exists f. replace (R + 2 * Z.of_nat 0) with R by lia.
    destruct fuel; cbn [fft_loop]; rewrite (proj2 (Nat.ltb_ge l n)) by lia; split_and!; done. }
  destruct fuel as [|fuel]; [lia|]. destruct e as [|e]; [lia|]. cbn [Nat.pow] in Hn.
  rewrite Nat2Z.inj_succ, Z.pow_succ_r in He by lia.
  assert (0 < 2 ^ r)%nat by (pose proof (Nat.pow_nonzero 2 r); lia).
  cbn [fft_loop]. rewrite !(proj2 (Nat.ltb_lt l n)) by nia.
  destruct (pass_ok s32 s16 id id (within R) (within (R + 2)) (-1) mode 1 CFFTRND2
    (fft_butterfly R mode H0 ltac:(lia)) n l (2 ^ r) (Z.of_nat (S e) - 1) f) as (f1 & E1 & E2 & L1 & A1 & R1);
    [lia|lia|lia|lia| |exact Hlen|exact Hf|].
  { replace (Z.of_nat (S e) - 1) with (Z.of_nat e) by lia. lia. }
  rewrite E1, E2. cbn [mbind option_bind].
  destruct (IH (2 * l)%nat e fuel (R + 2) f1) as (f' & F1 & F2 & L' & Hf' & Hr');
    [lia|lia|lia|lia|lia|lia|lia|lia|exact A1|].
  replace (Z.of_nat (S e) - 1 - 1) with (Z.of_nat e - 1) by lia.
  exists f'. split_and!; [exact F1|exact F2|lia| |].
  - replace (R + 2 * Z.of_nat (S r)) with (R + 2 + 2 * Z.of_nat r) by lia. exact Hf'.
  - intros p Hp. rewrite Hr' by exact Hp. apply R1. exact Hp.
Qed.

Lemma ComplexFFT_within frfi (s : nat) mode : (s ≤ 10)%nat → (2 * 2 ^ s ≤ length frfi)%nat →
  all (2 ^ s) (within (32767 - 2 * Z.of_nat s)) frfi →
  ∃ frfi', WebRtcSpl_ComplexFFT frfi (Z.of_nat s) mode = Some (0, frfi') ∧
    complex_fft id id frfi (Z.of_nat s) mode = Some (0, frfi') ∧
    length frfi' = length frfi ∧ all (2 ^ s) (within 32767) frfi' ∧
    (∀ p, (2 * 2 ^ s ≤ p)%nat → frfi' !! p = frfi !! p).
Proof.
  intros Hs Hl Hf. unfold WebRtcSpl_ComplexFFT, complex_fft.
  assert (Hpow : 0 < 2 ^ Z.of_nat s ≤ 2 ^ 10) by (split; [apply Z.pow_pos_nonneg|apply Z.pow_le_mono_r]; lia).
  change (2 ^ 10) with 1024 in Hpow. unfold shl32.
  rewrite (proj2 (Z.leb_le 0 _)), (proj2 (Z.ltb_lt _ 32)) by lia. cbn [andb mbind option_bind].
  rewrite Z.shiftl_1_l, (s32_id (2 ^ Z.of_nat s)) by (unfold int32; lia).
  rewrite (proj2 (Z.ltb_ge 1024 _)) by lia. rewrite <- pow_nat, Nat2Z.id.
  destruct (fft_loop_ok mode (2 ^ s) s 1 10 10 (32767 - 2 * Z.of_nat s) frfi) as (f' & E1 & E2 & L & Hf' & Hr);
    [exact Nat.lt_0_1|apply Nat.mul_1_l|vm_compute; reflexivity|exact Hs|exact Hs|exact Hl|lia|lia|exact Hf|].
  change (Z.of_nat 10 - 1) with 9 in *. rewrite E1, E2. cbn [mbind option_bind]. exists f'.
  replace (32767 - 2 * Z.of_nat s + 2 * Z.of_nat s) with 32767 in Hf' by lia.
  split_and!; [reflexivity|reflexivity|exact L|exact Hf'|exact Hr].
Qed.

(** C36: The forward transform does not overflow on numbers of a modulus in range. For every size
    up to 1024 and both modes, when the modulus of each complex number is at most 32767
    less two for each pass, the forward transform returns 0 and computes what it would
    compute in unbounded integers: the halving of each pass keeps every product, sum and
    result in range, and the moduli of the result within 32767. *)
Theorem fft_exact (frfi : list Z) (s : nat) (mode : Z) :
  (s ≤ 10)%nat → (2 * 2 ^ s ≤ length frfi)%nat → all (2 ^ s) (within (32767 - 2 * Z.of_nat s)) frfi →
  ∃ frfi', WebRtcSpl_ComplexFFT frfi (Z.of_nat s) mode = Some (0, frfi') ∧
    complex_fft id id frfi (Z.of_nat s) mode = Some (0, frfi') ∧
    length frfi' = length frfi ∧ all (2 ^ s) (within 32767) frfi' ∧
    (∀ p, (2 * 2 ^ s ≤ p)%nat → frfi' !! p = frfi !! p).
Proof. apply ComplexFFT_within. Qed.

Definition example_signal : list Z := [12000; 0; 0; 0; -5; 30000; 0; -32761].

Lemma example_signal_within : all (2 ^ 2) (within (32767 - 2 * Z.of_nat 2)) example_signal.
Proof.
  intros k Hk. change (2 ^ 2)%nat with 4%nat in Hk.
  destruct k as [|[|[|[|k]]]]; [| | | |lia]; (eexists; split; [reflexivity|split; cbn; lia]).
Qed.

Lemma fft_exact_witness :
  WebRtcSpl_ComplexFFT example_signal (Z.of_nat 2) 1 =
    Some (0, [2999; -690; 18690; 1; 3001; 690; -12690; -1]) ∧
  ∃ frfi', WebRtcSpl_ComplexFFT example_signal (Z.of_nat 2) 1 = Some (0, frfi') ∧
    complex_fft id id example_signal (Z.of_nat 2) 1 = Some (0, frfi') ∧
    length frfi' = 8%nat ∧ all (2 ^ 2) (within 32767) frfi' ∧
    (∀ p, (2 * 2 ^ 2 ≤ p)%nat → frfi' !! p = example_signal !! p).
Proof.
  split; [vm_compute; reflexivity|]. apply (fft_exact example_signal 2 1); [lia|cbn; lia|apply example_signal_within].
Defined.

(** With larger moduli the forward transform does overflow: 39552 becomes -25984. *)
Example fft_overflows :
  let v := [32767; 0; -32767; 0; 0; 32767; 0; -32767; 32767; 32767; -32767; -32767; -32767; 32767; 32767; -32767] in
  WebRtcSpl_ComplexFFT v 3 1 = Some (0, [1; 1; -25984; 0; 1; 0; 0; 0; 0; 0; -6785; 0; 1; 0; 0; 0]) ∧
  complex_fft id id v 3 1 = Some (0, [1; 1; 39552; 0; 1; 0; 0; 0; 0; 0; -6785; 0; 1; 0; 0; 0]).
Proof. split; vm_compute; reflexivity. Qed.

(** The sign of the exponent: the transform of 32000 at the position 1 (in bit-reversed order
    the position 4) turns by 45 degrees clockwise from each element to the next. *)
Example fft_direction :
  WebRtcSpl_ComplexFFT [0; 0; 0; 0; 0; 0; 0; 0; 32000; 0; 0; 0; 0; 0; 0; 0] 3 1 =
    Some (0, [4000; 0; 2828; -2828; 0; -4000; -2828; -2828; -4000; 0; -2828; 2828; 0; 4000; 2828; 2828]).
Proof. vm_compute. reflexivity. Qed.

End Fft.
