(* ===== verification/RealFft.v ===== *)
(** * The transform of real signals (common_audio/signal_processing/real_fft.c)

    The forward transform of a real signal and the inverse of a conjugate-symmetric spectrum,
    as wrappers of the complex transforms of [Fft] and the bit reversal of [BitReverse]: the
    theorems compose theirs. The wrappers' local array is a parameter, since it is not
    initialised. *)

From S2P Require Import Prelude SplInl Energy MinMax Correlation BitReverse Fft.
Import SplInl MinMax BitReverse Fft.

Module RealFft.

Definition kMaxFFTOrder : Z := 10.

Record RealFFT := mkRealFFT { order : Z }.

(** The allocation can fail. *)
Definition WebRtcSpl_CreateRealFFT (order : Z) (malloc : bool) : option RealFFT :=
  if (kMaxFFTOrder <? order) || (order <? 0) then None
  else if malloc then Some (mkRealFFT order) else None.

(** [buffer]: the contents of the local array of 2 << kMaxFFTOrder cells. *)
Definition WebRtcSpl_RealForwardFFT (self : RealFFT) (real_data_in complex_data_out buffer : list Z)
  : option (Z * list Z) :=
  n ← shl32 1 (order self);
  complex_buffer ← for_loop (Z.to_nat n) 0 (λ i complex_buffer,
    x ← real_data_in !! i;
    store complex_buffer i (x, 0)) buffer;
  complex_buffer ← WebRtcSpl_ComplexBitReverse complex_buffer (order self);
  '(result, complex_buffer) ← WebRtcSpl_ComplexFFT complex_buffer (order self) 1;
  complex_data_out ← memcpy complex_data_out 0 complex_buffer 0 (Z.to_nat n + 2);
  Some (result, complex_data_out).

Definition WebRtcSpl_RealInverseFFT (self : RealFFT) (complex_data_in real_data_out buffer : list Z)
  : option (Z * list Z) :=
  n ← shl32 1 (order self);
  let n := Z.to_nat n in
  complex_buffer ← memcpy buffer 0 complex_data_in 0 (n + 2);
  complex_buffer ← for_loop ((2 * n - (n + 2)) / 2) 0 (λ h complex_buffer,
    let i := (n + 2 + 2 * h)%nat in
    re ← complex_data_in !! (2 * n - i)%nat;
    im ← complex_data_in !! (2 * n - i + 1)%nat;
    complex_buffer ← wr complex_buffer i re;
    wr complex_buffer (i + 1) (s16 (-i im))) complex_buffer;
  complex_buffer ← WebRtcSpl_ComplexBitReverse complex_buffer (order self);
  '(result, complex_buffer) ← WebRtcSpl_ComplexIFFT complex_buffer (order self) 1;
  real_data_out ← for_loop n 0 (λ i real_data_out,
    x ← complex_buffer !! (2 * i)%nat;
    wr real_data_out i x) real_data_out;
  Some (result, real_data_out).

(** ** The forward transform *)

Lemma interleave_ok (input buffer : list Z) (n : nat) : (n ≤ length input)%nat → (2 * n ≤ length buffer)%nat →
  wp (for_loop n 0 (λ i complex_buffer, x ← input !! i; store complex_buffer i (x, 0)) buffer)
    (λ cb, length cb = length buffer ∧ ∀ k, (k < n)%nat → load cb k = Some (input !!! k, 0)).
Proof.
  intros Hi Hb. apply (wp_for (λ i cb, length cb = length buffer ∧ ∀ k, (k < i)%nat → load cb k = Some (input !!! k, 0))).
  - split; [done|lia].
  - intros i cb Hn [Hl Hk]. rewrite (list_lookup_lookup_total_lt input i) by lia. cbn [mbind option_bind].
    destruct (store_ok cb i (input !!! i, 0) ltac:(lia)) as (cb' & -> & L & S1 & O1 & _). cbn [wp].
    split; [lia|]. intros k Hk'. destruct (decide (k = i)) as [->|]; [done|]. rewrite O1 by done. apply Hk. lia.
  - intros cb H. exact H.
Qed.

Lemma shl32_one (s : nat) : (s ≤ 10)%nat → shl32 1 (Z.of_nat s) = Some (Z.of_nat (2 ^ s)) ∧ (1 ≤ 2 ^ s ≤ 1024)%nat.
Proof.
  intros Hs. rewrite pow_nat.
  assert (Hpow : 0 < 2 ^ Z.of_nat s ≤ 2 ^ 10) by (split; [apply Z.pow_pos_nonneg|apply Z.pow_le_mono_r]; lia).
  change (2 ^ 10) with 1024 in Hpow. split.
  - unfold shl32. rewrite (proj2 (Z.leb_le 0 _)), (proj2 (Z.ltb_lt _ 32)) by lia. cbn [andb].
    by rewrite Z.shiftl_1_l, s32_id by (unfold int32; lia).
  - pose proof (pow_nat s). lia.
Qed.

(** The transform of a real signal. For every order that can be created and every signal whose values
    leave two of headroom for each pass, the wrapper returns 0, every access is in range,
    and the first 2^order + 2 cells of the output are those of the complex transform, in
    unbounded integers, of the signal in bit-reversed order with zero imaginary parts. *)
Theorem RealForwardFFT_correct (s : nat) (input out buffer : list Z) :
  (s ≤ 10)%nat → length buffer = 2048%nat → (2 ^ s ≤ length input)%nat → (2 ^ s + 2 ≤ length out)%nat →
  Forall (λ x, Z.abs x ≤ 32767 - 2 * Z.of_nat s) input →
  ∃ cb spectrum,
    WebRtcSpl_RealForwardFFT (mkRealFFT (Z.of_nat s)) input out buffer =
      Some (0, take (2 ^ s + 2) spectrum ++ drop (2 ^ s + 2) out) ∧
    (∀ k, (k < 2 ^ s)%nat → load cb k = Some (input !!! reversed s k, 0)) ∧
    complex_fft id id cb (Z.of_nat s) 1 = Some (0, spectrum) ∧ all (2 ^ s) (within 32767) spectrum.
Proof.
  intros Hs Hb Hi Ho Hx. unfold WebRtcSpl_RealForwardFFT. cbn [order].
  destruct (shl32_one s Hs) as [-> Hn]. cbn [mbind option_bind]. rewrite Nat2Z.id.
  pose proof (interleave_ok input buffer (2 ^ s) Hi ltac:(lia)) as H1.
  destruct (for_loop (2 ^ s) 0 _ buffer) as [cb0|]; [|done]. destruct H1 as [L0 H0]. cbn [mbind option_bind].
  rewrite ComplexBitReverse_steps by lia. pose proof (swap_steps s cb0 ltac:(lia)) as H2.
  destruct (for_loop (2 ^ s - 1) 1 (swap_step s) cb0) as [cb|]; [|done]. destruct H2 as (L1 & Hk & _).
  cbn [mbind option_bind].
  assert (Hk' : ∀ k, (k < 2 ^ s)%nat → load cb k = Some (input !!! reversed s k, 0)).
  { intros k Hlt. rewrite Hk by done. apply H0, reversed_bound. }
  destruct (ComplexFFT_within cb s 1 Hs ltac:(lia)) as (f & -> & E & L & W & _).
  { intros k Hlt. exists (input !!! reversed s k, 0). split; [by apply Hk'|]. pose proof (reversed_bound s k) as Hr.
    assert (Z.abs (input !!! reversed s k) ≤ 32767 - 2 * Z.of_nat s).
    { apply (Forall_lookup_1 _ _ (reversed s k) _ Hx). apply list_lookup_lookup_total_lt. lia. }
    split; cbn [fst snd]; nia. }
  cbn [mbind option_bind]. unfold memcpy. rewrite decide_True by lia.
  rewrite take_0, drop_0, app_nil_l. cbn [mbind option_bind]. exists cb, f. rewrite Nat.add_0_l.
  split_and!; [reflexivity|exact Hk'|exact E|exact W].
Qed.

Definition example_input : list Z := [100; -200; 300; -32000].
Definition example_output : list Z := [7; 7; 7; 7; 7; 7; 7].

Lemma RealForwardFFT_correct_witness :
  WebRtcSpl_RealForwardFFT (mkRealFFT (Z.of_nat 2)) example_input example_output (replicate 2048 0) =
    Some (0, [-7950; 0; -50; -7950; 8150; 0; 7]) ∧
  ∃ cb spectrum,
    WebRtcSpl_RealForwardFFT (mkRealFFT (Z.of_nat 2)) example_input example_output (replicate 2048 0) =
      Some (0, take (2 ^ 2 + 2) spectrum ++ drop (2 ^ 2 + 2) example_output) ∧
    (∀ k, (k < 2 ^ 2)%nat → load cb k = Some (example_input !!! reversed 2 k, 0)) ∧
    complex_fft id id cb (Z.of_nat 2) 1 = Some (0, spectrum) ∧ all (2 ^ 2) (within 32767) spectrum.
Proof.
  split; [vm_compute; reflexivity|].
  apply (RealForwardFFT_correct 2 example_input example_output (replicate 2048 0)); [lia|done|cbn; lia|cbn; lia|].
  repeat (apply Forall_cons_2; [lia|]). apply Forall_nil_2.
Defined.

(** ** The inverse transform *)

(** The conjugate-symmetric spectrum of 2^s numbers that 2^(s-1) + 1 of them determine. *)
Definition symmetric (s : nat) (data : list Z) (k : nat) : Z * Z :=
  if (k <=? 2 ^ s / 2)%nat then (data !!! (2 * k)%nat, data !!! (2 * k + 1)%nat)
  else (data !!! (2 * (2 ^ s - k))%nat, - data !!! (2 * (2 ^ s - k) + 1)%nat).

(** The same with the negation in 16 bits, in which -32768 stays -32768. *)
Definition mirrored (s : nat) (data : list Z) (k : nat) : Z * Z :=
  let z := symmetric s data k in (z.1, if (k <=? 2 ^ s / 2)%nat then z.2 else s16 z.2).

(** The imaginary parts that are negated have a negation in 16 bits. *)
Definition conjugable (s : nat) (data : list Z) : Prop :=
  ∀ k, (1 ≤ k < 2 ^ s / 2)%nat → data !!! (2 * k + 1)%nat ≠ -32768.

Lemma mirrored_symmetric s data k : Forall int16 data → (2 ^ s + 2 ≤ length data)%nat → conjugable s data →
  (k < 2 ^ s)%nat → mirrored s data k = symmetric s data k.
Proof.
  intros Hd Hl Hc Hk. unfold mirrored, symmetric.
  destruct (Nat.leb_spec k (2 ^ s / 2)) as [Hle|Hgt]; [done|].
  cbn [fst snd]. f_equal. pose proof (Nat.div_mod_eq (2 ^ s) 2). pose proof (Nat.mod_upper_bound (2 ^ s) 2 ltac:(lia)).
  assert (Heven : ((2 ^ s) mod 2 = 0 ∨ 2 ^ s = 1)%nat).
  { destruct s as [|s']; [by right|left]. cbn [Nat.pow]. rewrite Nat.mul_comm. apply Nat.Div0.mod_mul. }
  set (p := (2 ^ s - k)%nat) in *. assert (Hp : (1 ≤ p < 2 ^ s / 2)%nat) by lia.
  specialize (Hc p Hp). assert (int16 (data !!! (2 * p + 1)%nat)) as Hi.
  { apply (Forall_lookup_1 _ _ (2 * p + 1)%nat _ Hd), list_lookup_lookup_total_lt. lia. }
  apply s16_id. unfold int16 in *. lia.
Qed.

Lemma load_cells m k x y : m !! (2 * k)%nat = Some x → m !! (2 * k + 1)%nat = Some y → load m k = Some (x, y).
Proof. intros E1 E2. unfold load. by rewrite E1, E2. Qed.

Lemma neg_s16 x : int16 x → s16 (-i x) = s16 (- x).
Proof. intros. by rewrite s32_id by (unfold int16, int32 in *; lia). Qed.

(** Filling the second half of the array. *)
Lemma mirror_ok (s : nat) (data buffer : list Z) : (s ≤ 10)%nat → length buffer = 2048%nat → Forall int16 buffer →
  Forall int16 data → (2 ^ s + 2 ≤ length data)%nat →
  wp (complex_buffer ← memcpy buffer 0 data 0 (2 ^ s + 2);
      for_loop ((2 * 2 ^ s - (2 ^ s + 2)) / 2) 0 (λ h complex_buffer,
        let i := (2 ^ s + 2 + 2 * h)%nat in
        re ← data !! (2 * 2 ^ s - i)%nat;
        im ← data !! (2 * 2 ^ s - i + 1)%nat;
        complex_buffer ← wr complex_buffer i re;
        wr complex_buffer (i + 1) (s16 (-i im))) complex_buffer)
    (λ cb, length cb = 2048%nat ∧ Forall int16 cb ∧ ∀ k, (k < 2 ^ s)%nat → load cb k = Some (mirrored s data k)).
Proof.
  intros Hs Hb Hbuf Hdata Hl. destruct (shl32_one s Hs) as [_ Hn].
  unfold memcpy. rewrite decide_True by lia. rewrite take_0, drop_0, app_nil_l, Nat.add_0_l. cbn [mbind option_bind].
  set (n := (2 ^ s)%nat) in *. set (cb0 := take (n + 2) data ++ drop (n + 2) buffer).
  assert (L0 : length cb0 = 2048%nat) by (unfold cb0; rewrite length_app, length_take_le, length_drop by lia; lia).
  assert (Heven : n = 1%nat ∨ ∃ h, n = (2 * h)%nat).
  { subst n. destruct s as [|s']; [by left|right]. exists (2 ^ s')%nat. cbn [Nat.pow]. lia. }
  pose proof (Nat.div_mod_eq n 2) as Hd. pose proof (Nat.mod_upper_bound n 2 ltac:(lia)) as Hd'.
  apply (wp_for (λ h cb, length cb = 2048%nat ∧ Forall int16 cb ∧
    ∀ k, (k < n / 2 + 1 + h)%nat → (k < n)%nat → load cb k = Some (mirrored s data k))).
  - split_and!; [done| |].
    + unfold cb0. apply Forall_app. split; [by apply Forall_take|by apply Forall_drop].
    + intros k Hk Hkn. unfold mirrored, symmetric. fold n. rewrite (proj2 (Nat.leb_le k _)) by lia. cbn [fst snd].
      assert (2 * k + 1 < n + 2)%nat by lia.
      apply load_cells; unfold cb0; rewrite lookup_app_l by (rewrite length_take_le by lia; lia);
        rewrite lookup_take_lt by lia; apply list_lookup_lookup_total_lt; lia.
  - intros h cb Hh (L & F & Hk). cbv zeta. destruct Heven as [Hn1|[m Hm]]; [exfalso; rewrite Hn1 in Hh; cbn in Hh; lia|].
    assert (Hdiv : (n / 2 = m)%nat) by lia.
    assert (Hc : ((2 * n - (n + 2)) / 2 = m - 1)%nat) by (rewrite Hm; replace (2 * (2 * m) - (2 * m + 2))%nat with ((m - 1) * 2)%nat by lia; apply Nat.div_mul; lia).
    rewrite Hc in Hh.
    rewrite (list_lookup_lookup_total_lt data (2 * n - (n + 2 + 2 * h))) by lia.
    rewrite (list_lookup_lookup_total_lt data (2 * n - (n + 2 + 2 * h) + 1)) by lia. cbn [mbind option_bind].
    assert (Hint : ∀ p, (p < length data)%nat → int16 (data !!! p)).
    { intros p Hp. apply (Forall_lookup_1 _ _ p _ Hdata). by apply list_lookup_lookup_total_lt. }
    rewrite neg_s16 by (apply Hint; lia).
    destruct (store_ok cb (m + 1 + h) (data !!! (2 * n - (n + 2 + 2 * h))%nat,
      s16 (- data !!! (2 * n - (n + 2 + 2 * h) + 1)%nat)) ltac:(lia)) as (cb' & E & L' & S' & O' & _).
    unfold store in E. cbn [fst snd] in E. replace (2 * (m + 1 + h))%nat with (n + 2 + 2 * h)%nat in E by lia.
    rewrite wr_lt in E |- * by lia. cbn [mbind option_bind] in E |- *. rewrite E. cbn [wp].
    split_and!; [lia| |].
    + rewrite wr_lt in E by (rewrite length_insert; lia). injection E as <-.
      apply Forall_insert; [apply Forall_insert; [done|apply Hint; lia]|apply s16_range].
    + intros k Hk1 Hk2. destruct (decide (k = m + 1 + h)%nat) as [->|Hne].
      * rewrite S'. unfold mirrored, symmetric. fold n. rewrite (proj2 (Nat.leb_gt _ _)) by lia. cbn [fst snd].
        replace (2 * n - (n + 2 + 2 * h))%nat with (2 * (n - (m + 1 + h)))%nat by lia. done.
      * rewrite O' by done. apply Hk; lia.
  - intros cb (L & F & Hk). split_and!; [done|done|]. intros k Hkn. apply Hk; [|done].
    destruct Heven as [Hn1|[m Hm]]; [lia|].
    replace (2 * n - (n + 2))%nat with ((m - 1) * 2)%nat by lia. rewrite Nat.div_mul by lia. lia.
Qed.

Lemma swap_steps_int16 s m m' : (2 * 2 ^ s ≤ length m)%nat → Forall int16 m → (∀ k, (k < 2 ^ s)%nat → load m' k = load m (reversed s k)) →
  (∀ p, (2 * 2 ^ s ≤ p)%nat → m' !! p = m !! p) → Forall int16 m'.
Proof.
  intros Hl Hm Hk Hr. apply (cells_of_all (2 ^ s) m' m); [|exact Hr|exact Hm].
  intros k Hlt. pose proof (reversed_bound s k).
  destruct (load_ok m (reversed s k) ltac:(lia)) as [z Ez]. exists z. rewrite Hk by done. split; [done|].
  apply load_lookup in Ez as [E1 E2]. split; [exact (Forall_lookup_1 _ _ _ _ Hm E1)|exact (Forall_lookup_1 _ _ _ _ Hm E2)].
Qed.

(** C23: The inverse transform to a real signal. For every order that can be created and every
    spectrum of 16-bit numbers in which no imaginary part of the inner bins is -32768 (it
    has no negation in 16 bits, see conjugate_overflow), the wrapper returns the scale
    factor, every access is in range, and the output is the real parts of the inverse
    complex transform, in unbounded integers, of the conjugate-symmetric extension of the
    spectrum in bit-reversed order; the cells behind it are not touched. *)
Theorem RealInverseFFT_correct (s : nat) (spectrum out buffer : list Z) :
  (s ≤ 10)%nat → length buffer = 2048%nat → Forall int16 buffer → Forall int16 spectrum →
  (2 ^ s + 2 ≤ length spectrum)%nat → (2 ^ s ≤ length out)%nat → conjugable s spectrum →
  ∃ cb scale signal out',
    WebRtcSpl_RealInverseFFT (mkRealFFT (Z.of_nat s)) spectrum out buffer = Some (scale, out') ∧
    (∀ k, (k < 2 ^ s)%nat → load cb k = Some (symmetric s spectrum (reversed s k))) ∧
    complex_ifft id id cb (Z.of_nat s) 1 = Some (scale, signal) ∧ 0 ≤ scale ≤ 2 * Z.of_nat s ∧
    length out' = length out ∧
    ∀ i, out' !! i = if (i <? 2 ^ s)%nat then signal !! (2 * i)%nat else out !! i.
Proof.
  intros Hs Hb Hbuf Hsp Hl Ho Hcj. unfold WebRtcSpl_RealInverseFFT. cbn [order].
  destruct (shl32_one s Hs) as [-> Hn]. cbn [mbind option_bind]. rewrite Nat2Z.id.
  pose proof (mirror_ok s spectrum buffer Hs Hb Hbuf Hsp Hl) as H0.
  destruct (memcpy buffer 0 spectrum 0 (2 ^ s + 2)) as [cb1|]; [|done]. cbn [mbind option_bind] in H0 |- *.
  cbv zeta in H0 |- *. destruct (for_loop ((2 * 2 ^ s - (2 ^ s + 2)) / 2) 0 _ cb1) as [cb0|]; [|done].
  destruct H0 as (L0 & F0 & H0). cbn [mbind option_bind].
  rewrite ComplexBitReverse_steps by lia. pose proof (swap_steps s cb0 ltac:(lia)) as H2.
  destruct (for_loop (2 ^ s - 1) 1 (swap_step s) cb0) as [cb|]; [|done]. destruct H2 as (L1 & Hk & Hr).
  cbn [mbind option_bind].
  destruct (ComplexIFFT_ok cb s 1 Hs ltac:(lia) (swap_steps_int16 s cb0 cb ltac:(lia) F0 Hk Hr))
    as (scale & signal & -> & E & Hsc & L & _). cbn [mbind option_bind].
  assert (Hout : wp (for_loop (2 ^ s) 0 (λ i real_data_out, x ← signal !! (2 * i)%nat; wr real_data_out i x) out)
    (λ out', length out' = length out ∧
      ∀ i, out' !! i = if (i <? 2 ^ s)%nat then signal !! (2 * i)%nat else out !! i)).
  { apply (wp_for (λ n out', length out' = length out ∧
      ∀ i, out' !! i = if (i <? n)%nat then signal !! (2 * i)%nat else out !! i)); [done| |done].
    intros n out' Hlt [L' H']. destruct (lookup_lt_is_Some_2 signal (2 * n) ltac:(lia)) as [x Ex].
    rewrite Ex. cbn [mbind option_bind]. rewrite wr_lt by lia. cbn [wp]. rewrite length_insert. split; [done|].
    intros i. destruct (decide (i = n)) as [->|Hne].
    - rewrite list_lookup_insert_eq by lia. by rewrite (proj2 (Nat.ltb_lt n (S n))) by lia.
    - rewrite list_lookup_insert_ne by done. rewrite H'.
      destruct (Nat.ltb_spec i n), (Nat.ltb_spec i (S n)); done || lia. }
  destruct (for_loop (2 ^ s) 0 _ out) as [out'|]; [|done]. destruct Hout as [L' H']. cbn [mbind option_bind].
  exists cb, scale, signal, out'. split_and!; try done; try lia.
  intros k Hlt. pose proof (reversed_bound s k). rewrite Hk by done. rewrite H0 by done.
  by rewrite mirrored_symmetric.
Qed.

Definition example_bins : list Z := [-7950; 0; -50; -7950; 8150; 0].

Lemma RealInverseFFT_correct_witness :
  WebRtcSpl_RealInverseFFT (mkRealFFT (Z.of_nat 2)) example_bins [7; 7; 7; 7; 7] (replicate 2048 0) =
    Some (1, [50; -100; 150; -16000; 7]) ∧
  ∃ cb scale signal out',
    WebRtcSpl_RealInverseFFT (mkRealFFT (Z.of_nat 2)) example_bins [7; 7; 7; 7; 7] (replicate 2048 0) =
      Some (scale, out') ∧
    (∀ k, (k < 2 ^ 2)%nat → load cb k = Some (symmetric 2 example_bins (reversed 2 k))) ∧
    complex_ifft id id cb (Z.of_nat 2) 1 = Some (scale, signal) ∧ 0 ≤ scale ≤ 2 * Z.of_nat 2 ∧
    length out' = 5%nat ∧
    ∀ i, out' !! i = if (i <? 2 ^ 2)%nat then signal !! (2 * i)%nat else [7; 7; 7; 7; 7] !! i.
Proof.
  split; [vm_compute; reflexivity|].
  apply (RealInverseFFT_correct 2 example_bins [7; 7; 7; 7; 7] (replicate 2048 0));
    [lia|done|apply Forall_replicate; unfold int16; lia| |cbn; lia|cbn; lia|].
  - repeat (apply Forall_cons_2; [unfold int16; lia|]). apply Forall_nil_2.
  - intros [|[|k]] Hk; cbn in *; lia.
Defined.

(** The limit of the 16-bit negation. For the spectrum with the imaginary part -32768 in
    the inner bin, the mirrored bin gets the same imaginary part instead of the opposite
    one, and the signal is lost: with -32767 it is a sine, with -32768 it is zero. *)
Example conjugate_overflow :
  mirrored 2 [0; 0; 0; -32768; 0; 0] 3 = (0, -32768) ∧ symmetric 2 [0; 0; 0; -32768; 0; 0] 3 = (0, 32768) ∧
  WebRtcSpl_RealInverseFFT (mkRealFFT 2) [0; 0; 0; -32767; 0; 0] [7; 7; 7; 7] (replicate 2048 0) =
    Some (3, [0; 8191; 0; -8191]) ∧
  WebRtcSpl_RealInverseFFT (mkRealFFT 2) [0; 0; 0; -32768; 0; 0] [7; 7; 7; 7] (replicate 2048 0) =
    Some (3, [0; 0; 0; 0]).
Proof. split_and!; vm_compute; reflexivity. Qed.

End RealFft.
