(* ===== verification/Splitting.v ===== *)
(** * The splitting filter (common_audio/signal_processing/splitting_filter.c)

    The quadrature mirror filters that split a signal into two bands and put it together
    again, from two branches of three first-order all-pass sections each. The code filters
    a frame section by section, through two arrays that swap their roles, and keeps the last
    input and output of each section for the next frame. The theorems compare a whole session
    of frames with one recurrence per section on the whole signal, in unbounded integers. *)

From S2P Require Import Prelude SplInl ResampleBy2 Resample48 SampleBy2.
Import SplInl.

Module Splitting.

Definition kMaxBandFrameLength : nat := 320.
Definition WebRtcSpl_kAllPassFilter1 : list Z := [6418; 36982; 57261].
Definition WebRtcSpl_kAllPassFilter2 : list Z := [21333; 49062; 63010].

(** One all-pass section, from [src] to [dst]; its state is the cells [j] and [j + 1] of the
    filter state. *)
Definition cascade (src dst : list Z) (data_length : nat) (coefficient : Z) (filter_state : list Z) (j : nat)
  : option (list Z * list Z) :=
  x ← src !! 0%nat;
  y ← filter_state !! (j + 1)%nat;
  let diff := WebRtcSpl_SubSatW32 x y in
  x ← filter_state !! j;
  dst ← wr dst 0 (SampleBy2.MUL_ACCUM coefficient diff x);
  dst ← for_loop (data_length - 1) 1 (λ k dst,
    x ← src !! k;
    y ← dst !! (k - 1)%nat;
    let diff := WebRtcSpl_SubSatW32 x y in
    x ← src !! (k - 1)%nat;
    wr dst k (SampleBy2.MUL_ACCUM coefficient diff x)) dst;
  x ← rdz src (Z.of_nat data_length - 1);
  filter_state ← wr filter_state j x;
  y ← rdz dst (Z.of_nat data_length - 1);
  filter_state ← wr filter_state (j + 1) y;
  Some (dst, filter_state).

(** The two data arrays and the filter state. *)
Definition WebRtcSpl_AllPassQMF (in_data : list Z) (data_length : nat) (out_data : list Z)
    (filter_coefficients filter_state : list Z) : option (list Z * list Z * list Z) :=
  a1 ← filter_coefficients !! 0%nat;
  '(out_data, filter_state) ← cascade in_data out_data data_length a1 filter_state 0;
  a2 ← filter_coefficients !! 1%nat;
  '(in_data, filter_state) ← cascade out_data in_data data_length a2 filter_state 2;
  a3 ← filter_coefficients !! 2%nat;
  '(out_data, filter_state) ← cascade in_data out_data data_length a3 filter_state 4;
  Some (in_data, out_data, filter_state).

(** The four local arrays are not initialised. *)
Record Locals := mkLocals { half_in1 : list Z; half_in2 : list Z; filter1 : list Z; filter2 : list Z }.

(** The two bands and the two filter states. The index [k] of the source is an int16_t that
    the second check keeps at most 640. *)
Definition WebRtcSpl_AnalysisQMF (local : Locals) (in_data : list Z) (in_data_length : nat)
    (low_band high_band filter_state1 filter_state2 : list Z) : option (list Z * list Z * list Z * list Z) :=
  let band_length := (in_data_length / 2)%nat in
  _ ← dcheck (in_data_length mod 2 =? 0)%nat;
  _ ← dcheck (band_length <=? kMaxBandFrameLength)%nat;
  '(half_in1, half_in2) ← for_loop band_length 0 (λ i '(half_in1, half_in2),
    x ← in_data !! (2 * i)%nat;
    half_in2 ← wr half_in2 i (x *i (1 <<i 10));
    x ← in_data !! (2 * i + 1)%nat;
    half_in1 ← wr half_in1 i (x *i (1 <<i 10));
    Some (half_in1, half_in2)) (half_in1 local, half_in2 local);
  '(_, filter1, filter_state1) ←
    WebRtcSpl_AllPassQMF half_in1 band_length (filter1 local) WebRtcSpl_kAllPassFilter1 filter_state1;
  '(_, filter2, filter_state2) ←
    WebRtcSpl_AllPassQMF half_in2 band_length (filter2 local) WebRtcSpl_kAllPassFilter2 filter_state2;
  '(low_band, high_band) ← for_loop band_length 0 (λ i '(low_band, high_band),
    f1 ← filter1 !! i;
    f2 ← filter2 !! i;
    let tmp := (f1 +i f2 +i 1024) >>i 11 in
    low_band ← wr low_band i (WebRtcSpl_SatW32ToW16 tmp);
    let tmp := (f1 -i f2 +i 1024) >>i 11 in
    high_band ← wr high_band i (WebRtcSpl_SatW32ToW16 tmp);
    Some (low_band, high_band)) (low_band, high_band);
  Some (low_band, high_band, filter_state1, filter_state2).

(** The output and the two filter states. *)
Definition WebRtcSpl_SynthesisQMF (local : Locals) (low_band high_band : list Z) (band_length : nat)
    (out_data filter_state1 filter_state2 : list Z) : option (list Z * list Z * list Z) :=
  _ ← dcheck (band_length <=? kMaxBandFrameLength)%nat;
  '(half_in1, half_in2) ← for_loop band_length 0 (λ i '(half_in1, half_in2),
    l ← low_band !! i;
    h ← high_band !! i;
    half_in1 ← wr half_in1 i ((l +i h) *i (1 <<i 10));
    half_in2 ← wr half_in2 i ((l -i h) *i (1 <<i 10));
    Some (half_in1, half_in2)) (half_in1 local, half_in2 local);
  '(_, filter1, filter_state1) ←
    WebRtcSpl_AllPassQMF half_in1 band_length (filter1 local) WebRtcSpl_kAllPassFilter2 filter_state1;
  '(_, filter2, filter_state2) ←
    WebRtcSpl_AllPassQMF half_in2 band_length (filter2 local) WebRtcSpl_kAllPassFilter1 filter_state2;
  out_data ← for_loop band_length 0 (λ i out_data,
    f2 ← filter2 !! i;
    out_data ← wr out_data (2 * i) (WebRtcSpl_SatW32ToW16 ((f2 +i 512) >>i 10));
    f1 ← filter1 !! i;
    wr out_data (2 * i + 1) (WebRtcSpl_SatW32ToW16 ((f1 +i 512) >>i 10))) out_data;
  Some (out_data, filter_state1, filter_state2).

(** ** All-pass sections on signals *)

(** y[n] = x[n-1] + a * (x[n] - y[n-1]) with the product rounded down, from zero. *)
Fixpoint section (a : Z) (x : nat → Z) (n : nat) : Z :=
  match n with
  | O => x 0%nat * a / 65536
  | S m => x m + (x (S m) - section a x m) * a / 65536
  end.

(** The value before position [m]. *)
Definition prev (x : nat → Z) (m : nat) : Z := match m with O => 0 | S m => x m end.

Lemma section_eq a x n : section a x n = prev x n + (x n - prev (section a x) n) * a / 65536.
Proof. destruct n as [|n]; cbn [section prev]; [by rewrite Z.sub_0_r|done]. Qed.

(** The section is all-pass: what it adds to the largest value is bounded, and so is its
    state [x[n] - a y[n]], from which the bound follows. *)
Lemma section_bound a x M C : 0 ≤ a < 65536 → 0 ≤ M → 65536 * a ≤ C * (65536 - a) → (∀ n, Z.abs (x n) ≤ M) →
  ∀ n, Z.abs (65536 * x n - a * section a x n) ≤ (65536 + a) * M + C ∧
    65536 * Z.abs (section a x n) ≤ (65536 + 2 * a) * M + C + 65536.
Proof.
  intros Ha HM HC Hx.
  assert (HC0 : 0 ≤ C) by nia.
  assert (Hstep : ∀ S xn y, Z.abs S ≤ (65536 + a) * M + C → Z.abs xn ≤ M → (∃ r, 0 ≤ r < 65536 ∧ 65536 * y = S + a * xn - r) →
    Z.abs (65536 * xn - a * y) ≤ (65536 + a) * M + C ∧ 65536 * Z.abs y ≤ (65536 + 2 * a) * M + C + 65536).
  { intros S xn y HS Hxn (r & Hr & Hy).
    assert (H1 : Z.abs (a * xn) ≤ a * M) by nia. split; [|lia].
    assert (E : 65536 * (65536 * xn - a * y) = (65536 * 65536 - a * a) * xn - a * S + a * r) by nia.
    assert (H2 : Z.abs ((65536 * 65536 - a * a) * xn) ≤ (65536 * 65536 - a * a) * M) by nia.
    assert (H3 : Z.abs (a * S) ≤ a * ((65536 + a) * M + C)) by nia.
    assert (H4 : 0 ≤ a * r ≤ 65536 * a) by nia. nia. }
  induction n as [|n [IH _]].
  - cbn [section]. apply (Hstep 0); [nia|apply Hx|].
    exists ((x 0%nat * a) mod 65536). split; [apply Z.mod_pos_bound; lia|].
    pose proof (Z.div_mod (x 0%nat * a) 65536 ltac:(lia)). lia.
  - cbn [section]. apply (Hstep (65536 * x n - a * section a x n)); [exact IH|apply Hx|].
    exists (((x (S n) - section a x n) * a) mod 65536). split; [apply Z.mod_pos_bound; lia|].
    pose proof (Z.div_mod ((x (S n) - section a x n) * a) 65536 ltac:(lia)). lia.
Qed.

(** One step of the code while nothing overflows. *)
Lemma section_step a x xp y : 0 ≤ a < 65536 → Z.abs (x - y) ≤ 2147483647 → int32 x → int32 y →
  int32 (xp + (x - y) * a / 65536) →
  SampleBy2.MUL_ACCUM a (WebRtcSpl_SubSatW32 x y) xp = xp + (x - y) * a / 65536.
Proof.
  intros Ha Hd Hx Hy Hr. rewrite (proj2 (AddSub_SatW32_clamp x y Hx Hy)). unfold clamp.
  rewrite Z.min_r, Z.max_r by lia. rewrite SampleBy2.MUL_ACCUM_exact by (unfold int32; lia).
  by rewrite s32_id.
Qed.

(** What a section needs so that nothing overflows. *)
Record calm (a : Z) (x : nat → Z) : Prop := {
  c_coefficient : 0 ≤ a < 65536;
  c_input : ∀ n, Z.abs (x n) ≤ 1073741823;
  c_output : ∀ n, Z.abs (section a x n) ≤ 1073741823;
}.

Lemma calm_step a x n : calm a x →
  SampleBy2.MUL_ACCUM a (WebRtcSpl_SubSatW32 (x n) (prev (section a x) n)) (prev x n) = section a x n.
Proof.
  intros [Ha Hx Hy]. rewrite section_eq. apply section_step; [done| | | |].
  - pose proof (Hx n). destruct n as [|n]; cbn [prev]; [lia|]. pose proof (Hy n). lia.
  - pose proof (Hx n). unfold int32. lia.
  - destruct n as [|n]; cbn [prev]; unfold int32; [lia|]. pose proof (Hy n). lia.
  - rewrite <- section_eq. pose proof (Hy n). unfold int32. lia.
Qed.

(** The cells from [0] on hold the signal from [m] on. *)
Definition has (l : list Z) (n m : nat) (x : nat → Z) : Prop := ∀ i, (i < n)%nat → l !! i = Some (x (m + i)%nat).

Lemma cascade_ok src dst n m a fs j x : calm a x → (0 < n)%nat → (n ≤ length dst)%nat → has src n m x →
  fs !! j = Some (prev x m) → fs !! (j + 1)%nat = Some (prev (section a x) m) →
  wp (cascade src dst n a fs j) (λ '(dst', fs'), length dst' = length dst ∧ has dst' n m (section a x) ∧
    length fs' = length fs ∧ fs' !! j = Some (prev x (m + n)) ∧
    fs' !! (j + 1)%nat = Some (prev (section a x) (m + n)) ∧
    (∀ p, p ≠ j → p ≠ (j + 1)%nat → fs' !! p = fs !! p)).
Proof.
  intros Hc Hn Hd Hs Hx Hy. unfold cascade.
  pose proof (Hs 0%nat Hn) as H0. rewrite Nat.add_0_r in H0.
  rewrite H0, Hy, Hx. cbn [mbind option_bind]. rewrite calm_step by done.
  rewrite wr_lt by lia. cbn [mbind option_bind].
  apply wp_bind. apply (wp_for (λ k dst', length dst' = length dst ∧ has dst' k m (section a x))).
  - rewrite length_insert. split; [done|]. intros i Hi. assert (i = 0)%nat as -> by lia.
    rewrite Nat.add_0_r. by rewrite list_lookup_insert_eq by lia.
  - intros k dst' Hk [L' H']. rewrite (Hs k), (H' (k - 1)%nat), (Hs (k - 1)%nat) by lia. cbn [mbind option_bind].
    replace (section a x (m + (k - 1))) with (prev (section a x) (m + k)) by
      (destruct k; [lia|]; by rewrite Nat.add_succ_r; cbn [prev]; do 2 f_equal; lia).
    replace (x (m + (k - 1))%nat) with (prev x (m + k)) by
      (destruct k; [lia|]; by rewrite Nat.add_succ_r; cbn [prev]; do 2 f_equal; lia).
    rewrite calm_step by done. rewrite wr_lt by lia. cbn [wp]. rewrite length_insert. split; [done|].
    intros i Hi. destruct (decide (i = k)) as [->|].
    + by rewrite list_lookup_insert_eq by lia.
    + rewrite list_lookup_insert_ne by done. apply H'. lia.
  - intros dst' [L' H']. replace (1 + (n - 1))%nat with n in H' by lia.
    unfold rdz. rewrite !(proj2 (Z.leb_le 0 _)) by lia.
    replace (Z.to_nat (Z.of_nat n - 1)) with (n - 1)%nat by lia. rewrite (Hs (n - 1)%nat), (H' (n - 1)%nat) by lia.
    apply lookup_lt_Some in Hx as Lx. apply lookup_lt_Some in Hy as Ly.
    cbn [mbind option_bind]. rewrite wr_lt by done. cbn [mbind option_bind].
    rewrite wr_lt by (by rewrite length_insert). cbn [wp mbind option_bind]. rewrite !length_insert.
    assert (Ep : ∀ f : nat → Z, prev f (m + n) = f (m + (n - 1))%nat).
    { intros f. destruct n as [|n']; [lia|]. rewrite Nat.add_succ_r. cbn [prev]. f_equal. lia. }
    rewrite !Ep. split_and!; [done|done|done| | |].
    + rewrite list_lookup_insert_ne by lia. by rewrite list_lookup_insert_eq.
    + by rewrite list_lookup_insert_eq by (by rewrite length_insert).
    + intros p Hp1 Hp2. by rewrite !list_lookup_insert_ne by done.
Qed.

(** ** A branch of three sections *)

Definition stage1 (a : Z * Z * Z) (x : nat → Z) : nat → Z := section a.1.1 x.
Definition stage2 (a : Z * Z * Z) (x : nat → Z) : nat → Z := section a.1.2 (stage1 a x).
Definition branch (a : Z * Z * Z) (x : nat → Z) : nat → Z := section a.2 (stage2 a x).

Definition filter_1 : Z * Z * Z := (6418, 36982, 57261).
Definition filter_2 : Z * Z * Z := (21333, 49062, 63010).
Definition coefficients (a : Z * Z * Z) : list Z := [a.1.1; a.1.2; a.2].

(** The state after [m] samples. *)
Definition state_at (a : Z * Z * Z) (x : nat → Z) (m : nat) : list Z :=
  [prev x m; prev (stage1 a x) m; prev (stage1 a x) m; prev (stage2 a x) m; prev (stage2 a x) m; prev (branch a x) m].

Record branch_calm (a : Z * Z * Z) (x : nat → Z) : Prop := {
  b_1 : calm a.1.1 x; b_2 : calm a.1.2 (stage1 a x); b_3 : calm a.2 (stage2 a x);
}.

Lemma AllPassQMF_ok in_data out_data n m a fs x : branch_calm a x → (0 < n)%nat → (n ≤ length out_data)%nat →
  has in_data n m x → fs = state_at a x m →
  wp (WebRtcSpl_AllPassQMF in_data n out_data (coefficients a) fs) (λ '(_, out', fs'),
    has out' n m (branch a x) ∧ fs' = state_at a x (m + n)).
Proof.
  intros [H1 H2 H3] Hn Ho Hi Hfs. unfold WebRtcSpl_AllPassQMF. cbn [coefficients lookup list_lookup mbind option_bind].
  assert (Hli : (n ≤ length in_data)%nat).
  { pose proof (lookup_lt_Some _ _ _ (Hi (n - 1)%nat ltac:(lia))). lia. }
  apply wp_bind. refine (wp_mono _ _ _ (cascade_ok in_data out_data n m a.1.1 fs 0 x H1 Hn Ho Hi _ _) _);
    [by subst fs|by subst fs|]. intros [o1 f1] (L1 & Ho1 & LF1 & S1 & S1' & R1).
  apply wp_bind.
  refine (wp_mono _ _ _ (cascade_ok o1 in_data n m a.1.2 f1 2 (stage1 a x) H2 Hn Hli Ho1 _ _) _);
    [rewrite R1 by lia; by subst fs|rewrite R1 by lia; by subst fs|]. intros [i2 f2] (L2 & Hi2 & LF2 & S2 & S2' & R2).
  apply wp_bind.
  refine (wp_mono _ _ _ (cascade_ok i2 o1 n m a.2 f2 4 (stage2 a x) H3 Hn ltac:(lia) Hi2 _ _) _);
    [rewrite R2, R1 by lia; by subst fs|rewrite R2, R1 by lia; by subst fs|].
  intros [o3 f3] (L3 & Ho3 & LF3 & S3 & S3' & R3). cbn [wp]. split; [done|].
  rewrite Hfs in LF1. cbn in LF1. apply list_eq. intros p.
  destruct p as [|[|[|[|[|[|p]]]]]]; cbn [state_at lookup list_lookup].
  - rewrite R3, R2 by lia. exact S1.
  - rewrite R3, R2 by lia. exact S1'.
  - rewrite R3 by lia. exact S2.
  - rewrite R3 by lia. exact S2'.
  - exact S3.
  - exact S3'.
  - apply lookup_ge_None_2. lia.
Qed.

(** Both branches stay calm on signals up to 2^26 in size: in the worst case they grow to
    twelve times as much. *)
Lemma branch_bound a x : a = filter_1 ∨ a = filter_2 → (∀ n, Z.abs (x n) ≤ 67108864) →
  branch_calm a x ∧ ∀ n, Z.abs (branch a x n) ≤ 13 * 67108864.
Proof.
  intros Ha Hx.
  assert (Hs : ∀ a x M M', 0 ≤ a < 63011 → 0 ≤ M ≤ 1073741823 → M' ≤ 1073741823 →
    (65536 + 2 * a) * M + 2000000 ≤ 65536 * M' →
    (∀ n, Z.abs (x n) ≤ M) → calm a x ∧ ∀ n, Z.abs (section a x n) ≤ M').
  { intros a0 x0 M M' Ha0 HM HM' Hle Hx0.
    assert (Hb : ∀ n, Z.abs (section a0 x0 n) ≤ M').
    { intros n. pose proof (proj2 (section_bound a0 x0 M 1900000 ltac:(lia) ltac:(lia) ltac:(lia) Hx0 n)). lia. }
    split; [|exact Hb]. split; [lia| |].
    - intros n. pose proof (Hx0 n). lia.
    - intros n. pose proof (Hb n). lia. }
  destruct Ha as [-> | ->]; unfold branch, stage2, stage1, filter_1, filter_2; cbn [fst snd].
  - destruct (Hs 6418 x 67108864 81000000 ltac:(lia) ltac:(lia) ltac:(lia) ltac:(lia) Hx) as [C1 B1].
    destruct (Hs 36982 _ 81000000 173000000 ltac:(lia) ltac:(lia) ltac:(lia) ltac:(lia) B1) as [C2 B2].
    destruct (Hs 57261 _ 173000000 480000000 ltac:(lia) ltac:(lia) ltac:(lia) ltac:(lia) B2) as [C3 B3].
    split; [by split|]. intros n. pose proof (B3 n). lia.
  - destruct (Hs 21333 x 67108864 111000000 ltac:(lia) ltac:(lia) ltac:(lia) ltac:(lia) Hx) as [C1 B1].
    destruct (Hs 49062 _ 111000000 278000000 ltac:(lia) ltac:(lia) ltac:(lia) ltac:(lia) B1) as [C2 B2].
    destruct (Hs 63010 _ 278000000 815000000 ltac:(lia) ltac:(lia) ltac:(lia) ltac:(lia) B2) as [C3 B3].
    split; [by split|]. intros n. pose proof (B3 n). lia.
Qed.

(** ** One frame *)

Record locals_ok (local : Locals) : Prop := {
  l_in1 : length (half_in1 local) = kMaxBandFrameLength; l_in2 : length (half_in2 local) = kMaxBandFrameLength;
  l_f1 : length (filter1 local) = kMaxBandFrameLength; l_f2 : length (filter2 local) = kMaxBandFrameLength;
}.

(** Writing two arrays in one loop. *)
Lemma fill_two (n : nat) (body : nat → list Z * list Z → option (list Z * list Z)) (a b : list Z) (f g : nat → Z) :
  (n ≤ length a)%nat → (n ≤ length b)%nat →
  (∀ i a' b', (i < n)%nat → length a' = length a → length b' = length b →
    body i (a', b') = Some (<[i := f i]> a', <[i := g i]> b')) →
  wp (for_loop n 0 body (a, b)) (λ '(a', b'), length a' = length a ∧ length b' = length b ∧
    (∀ i, (i < n)%nat → a' !! i = Some (f i)) ∧ (∀ i, (i < n)%nat → b' !! i = Some (g i))).
Proof.
  intros Ha Hb Hbody.
  apply (wp_for (λ k '(a', b'), length a' = length a ∧ length b' = length b ∧
    (∀ i, (i < k)%nat → a' !! i = Some (f i)) ∧ (∀ i, (i < k)%nat → b' !! i = Some (g i)))).
  - split_and!; done || lia.
  - intros k [a' b'] Hk (La & Lb & Fa & Fb). rewrite Hbody by done || lia. cbn [wp].
    rewrite !length_insert. split_and!; [done|done| |]; intros i Hi;
      (destruct (decide (i = k)) as [->|]; [by rewrite list_lookup_insert_eq by lia|
        rewrite list_lookup_insert_ne by done; (apply Fa || apply Fb); lia]).
  - intros [a' b'] H. exact H.
Qed.

Definition sat (z : Z) : Z := clamp (-32768) 32767 z.

(** The bands of a signal, whose odd samples feed the first branch and whose even samples
    feed the second. *)
Definition odd_branch (s : nat → Z) : nat → Z := branch filter_1 (λ i, s (2 * i + 1)%nat * 1024).
Definition even_branch (s : nat → Z) : nat → Z := branch filter_2 (λ i, s (2 * i)%nat * 1024).
Definition low (s : nat → Z) (i : nat) : Z := sat ((odd_branch s i + even_branch s i + 1024) / 2048).
Definition high (s : nat → Z) (i : nat) : Z := sat ((odd_branch s i - even_branch s i + 1024) / 2048).

Definition signal (s : nat → Z) : Prop := ∀ n, int16 (s n).

Lemma q10 x : int16 x → x *i (1 <<i 10) = x * 1024.
Proof. intros. change (1 <<i 10) with 1024. by rewrite s32_id by (unfold int16, int32 in *; lia). Qed.

Lemma AnalysisQMF_frame local s m n in_data low_band high_band fs1 fs2 : locals_ok local → signal s →
  (0 < n ≤ 320)%nat → (n ≤ length low_band)%nat → (n ≤ length high_band)%nat → has in_data (2 * n) (2 * m) s →
  fs1 = state_at filter_1 (λ i, s (2 * i + 1)%nat * 1024) m → fs2 = state_at filter_2 (λ i, s (2 * i)%nat * 1024) m →
  wp (WebRtcSpl_AnalysisQMF local in_data (2 * n) low_band high_band fs1 fs2) (λ '(low', high', fs1', fs2'),
    length low' = length low_band ∧ length high' = length high_band ∧
    has low' n m (low s) ∧ has high' n m (high s) ∧
    fs1' = state_at filter_1 (λ i, s (2 * i + 1)%nat * 1024) (m + n) ∧
    fs2' = state_at filter_2 (λ i, s (2 * i)%nat * 1024) (m + n)).
Proof.
  intros [I1 I2 F1 F2] Hs Hn Hlo Hhi Hin Hfs1 Hfs2. unfold WebRtcSpl_AnalysisQMF. cbv zeta.
  rewrite (Nat.mul_comm 2 n), Nat.div_mul, Nat.Div0.mod_mul by lia. unfold kMaxBandFrameLength in *.
  rewrite (proj2 (Nat.leb_le n 320)) by lia. cbn [dcheck Nat.eqb mbind option_bind].
  destruct (branch_bound filter_1 (λ i, s (2 * i + 1)%nat * 1024) ltac:(by left)) as [C1 B1].
  { intros i. pose proof (Hs (2 * i + 1)%nat). unfold int16 in *. lia. }
  destruct (branch_bound filter_2 (λ i, s (2 * i)%nat * 1024) ltac:(by right)) as [C2 B2].
  { intros i. pose proof (Hs (2 * i)%nat). unfold int16 in *. lia. }
  apply wp_bind. refine (wp_mono _ _ _ (fill_two n _ _ _ (λ i, s (2 * (m + i) + 1)%nat * 1024)
    (λ i, s (2 * (m + i))%nat * 1024) _ _ _) _); [lia|lia| |].
  { intros i a b Hi La Lb. rewrite (Hin (2 * i)%nat), (Hin (2 * i + 1)%nat) by lia. cbn [mbind option_bind].
    rewrite !q10 by apply Hs. rewrite wr_lt by lia. cbn [mbind option_bind]. rewrite wr_lt by lia. cbn [mbind option_bind].
    by replace (2 * (m + i) + 1)%nat with (2 * m + (2 * i + 1))%nat by lia; replace (2 * (m + i))%nat with (2 * m + 2 * i)%nat by lia. }
  intros [h1 h2] (L1 & L2 & H1 & H2). change WebRtcSpl_kAllPassFilter1 with (coefficients filter_1).
  change WebRtcSpl_kAllPassFilter2 with (coefficients filter_2).
  apply wp_bind. refine (wp_mono _ _ _ (AllPassQMF_ok h1 _ n m filter_1 fs1 _ C1 _ _ H1 Hfs1) _); [lia|lia|].
  intros [[? f1] fs1'] [O1 ->]. apply wp_bind.
  refine (wp_mono _ _ _ (AllPassQMF_ok h2 _ n m filter_2 fs2 _ C2 _ _ H2 Hfs2) _); [lia|lia|].
  intros [[? f2] fs2'] [O2 ->]. apply wp_bind.
  refine (wp_mono _ _ _ (fill_two n _ _ _ (λ i, low s (m + i)) (λ i, high s (m + i)) Hlo Hhi _) _).
  { intros i a b Hi La Lb. rewrite (O1 i), (O2 i) by lia. cbn [mbind option_bind].
    pose proof (B1 (m + i)%nat) as Hb1. pose proof (B2 (m + i)%nat) as Hb2. unfold low, high, odd_branch, even_branch.
    set (y1 := branch filter_1 _ (m + i)) in *. set (y2 := branch filter_2 _ (m + i)) in *.
    rewrite (s32_id (y1 + y2)), (s32_id (y1 - y2)) by (unfold int32; lia). rewrite !s32_id by (unfold int32; lia).
    rewrite !SatW32ToW16_clamp, !Z.shiftr_div_pow2 by lia. change (2 ^ 11) with 2048.
    rewrite wr_lt by lia. cbn [mbind option_bind]. rewrite wr_lt by lia. done. }
  intros [lo hi] (Ll & Lh & Hl & Hh). cbn [wp]. split_and!; done.
Qed.

(** The synthesis of two bands: the even samples come from the difference, the odd samples
    from the sum. *)
Definition sum_branch (l h : nat → Z) : nat → Z := branch filter_2 (λ i, (l i + h i) * 1024).
Definition difference_branch (l h : nat → Z) : nat → Z := branch filter_1 (λ i, (l i - h i) * 1024).
Definition joined (l h : nat → Z) (k : nat) : Z :=
  let y := if Nat.even k then difference_branch l h (k / 2) else sum_branch l h (k / 2) in sat ((y + 512) / 1024).

Lemma joined_even l h k : joined l h (2 * k) = sat ((difference_branch l h k + 512) / 1024).
Proof. unfold joined. by rewrite Nat.even_even, Nat.mul_comm, Nat.div_mul by lia. Qed.

Lemma joined_odd l h k : joined l h (2 * k + 1) = sat ((sum_branch l h k + 512) / 1024).
Proof.
  unfold joined. rewrite Nat.even_odd. replace (2 * k + 1)%nat with (1 + k * 2)%nat by lia.
  by rewrite Nat.div_add, (Nat.div_small 1 2) by lia.
Qed.

Lemma SynthesisQMF_frame local l h m n low_band high_band out fs1 fs2 : locals_ok local → signal l → signal h →
  (0 < n ≤ 320)%nat → (2 * n ≤ length out)%nat → has low_band n m l → has high_band n m h →
  fs1 = state_at filter_2 (λ i, (l i + h i) * 1024) m → fs2 = state_at filter_1 (λ i, (l i - h i) * 1024) m →
  wp (WebRtcSpl_SynthesisQMF local low_band high_band n out fs1 fs2) (λ '(out', fs1', fs2'),
    length out' = length out ∧ has out' (2 * n) (2 * m) (joined l h) ∧
    fs1' = state_at filter_2 (λ i, (l i + h i) * 1024) (m + n) ∧
    fs2' = state_at filter_1 (λ i, (l i - h i) * 1024) (m + n)).
Proof.
  intros [I1 I2 F1 F2] Hl Hh Hn Ho Hlo Hhi Hfs1 Hfs2. unfold WebRtcSpl_SynthesisQMF. unfold kMaxBandFrameLength in *.
  rewrite (proj2 (Nat.leb_le n 320)) by lia. cbn [dcheck mbind option_bind].
  destruct (branch_bound filter_2 (λ i, (l i + h i) * 1024) ltac:(by right)) as [C1 B1].
  { intros i. pose proof (Hl i). pose proof (Hh i). unfold int16 in *. lia. }
  destruct (branch_bound filter_1 (λ i, (l i - h i) * 1024) ltac:(by left)) as [C2 B2].
  { intros i. pose proof (Hl i). pose proof (Hh i). unfold int16 in *. lia. }
  apply wp_bind. refine (wp_mono _ _ _ (fill_two n _ _ _ (λ i, (l (m + i)%nat + h (m + i)%nat) * 1024)
    (λ i, (l (m + i)%nat - h (m + i)%nat) * 1024) _ _ _) _); [lia|lia| |].
  { intros i a b Hi La Lb. rewrite (Hlo i), (Hhi i) by lia. cbn [mbind option_bind].
    pose proof (Hl (m + i)%nat). pose proof (Hh (m + i)%nat). unfold int16 in *. change (1 <<i 10) with 1024.
    rewrite (s32_id (_ + _)), (s32_id (_ - _)) by (unfold int32; lia). rewrite !s32_id by (unfold int32; lia).
    rewrite wr_lt by lia. cbn [mbind option_bind]. rewrite wr_lt by lia. done. }
  intros [h1 h2] (L1 & L2 & H1 & H2). change WebRtcSpl_kAllPassFilter1 with (coefficients filter_1).
  change WebRtcSpl_kAllPassFilter2 with (coefficients filter_2).
  apply wp_bind. refine (wp_mono _ _ _ (AllPassQMF_ok h1 _ n m filter_2 fs1 _ C1 _ _ H1 Hfs1) _); [lia|lia|].
  intros [[? f1] fs1'] [O1 ->]. apply wp_bind.
  refine (wp_mono _ _ _ (AllPassQMF_ok h2 _ n m filter_1 fs2 _ C2 _ _ H2 Hfs2) _); [lia|lia|].
  intros [[? f2] fs2'] [O2 ->]. apply wp_bind.
  apply (wp_for (λ k out', length out' = length out ∧ has out' (2 * k) (2 * m) (joined l h))).
  - split; [done|]. intros i Hi. lia.
  - intros k out' Hk [L' H']. rewrite (O2 k), (O1 k) by lia. cbn [mbind option_bind].
    pose proof (B1 (m + k)%nat) as Hb1. pose proof (B2 (m + k)%nat) as Hb2.
    rewrite wr_lt by lia. cbn [mbind option_bind]. rewrite wr_lt by (rewrite length_insert; lia). cbn [wp].
    rewrite !length_insert. split; [done|]. intros i Hi.
    rewrite !(s32_id (branch _ _ _ + 512)) by (unfold int32; lia).
    rewrite !SatW32ToW16_clamp, !Z.shiftr_div_pow2 by lia. change (2 ^ 10) with 1024.
    destruct (decide (i = 2 * k + 1)%nat) as [->|Hne].
    { rewrite list_lookup_insert_eq by (rewrite length_insert; lia).
      replace (2 * m + (2 * k + 1))%nat with (2 * (m + k) + 1)%nat by lia. by rewrite joined_odd. }
    rewrite list_lookup_insert_ne by lia. destruct (decide (i = 2 * k)%nat) as [->|Hne'].
    { rewrite list_lookup_insert_eq by lia.
      replace (2 * m + 2 * k)%nat with (2 * (m + k))%nat by lia. by rewrite joined_even. }
    rewrite list_lookup_insert_ne by lia. apply H'. lia.
  - intros out' [L' H']. cbn [wp]. split_and!; done.
Qed.

(** ** Sessions *)

Section session.
Context (local : Locals) (low_band high_band out_data : list Z).

(** The bands of the frames of a session. *)
Fixpoint analyse (frames : list (list Z)) (filter_state1 filter_state2 : list Z) : option (list Z * list Z) :=
  match frames with
  | [] => Some ([], [])
  | frame :: frames =>
      '(lo, hi, filter_state1, filter_state2) ←
        WebRtcSpl_AnalysisQMF local frame (length frame) low_band high_band filter_state1 filter_state2;
      '(los, his) ← analyse frames filter_state1 filter_state2;
      Some (take (length frame / 2) lo ++ los, take (length frame / 2) hi ++ his)
  end.

(** The signal of frames of two bands. *)
Fixpoint synthesise (frames : list (list Z * list Z)) (filter_state1 filter_state2 : list Z) : option (list Z) :=
  match frames with
  | [] => Some []
  | (lo, hi) :: frames =>
      '(out, filter_state1, filter_state2) ←
        WebRtcSpl_SynthesisQMF local lo hi (length lo) out_data filter_state1 filter_state2;
      outs ← synthesise frames filter_state1 filter_state2;
      Some (take (2 * length lo) out ++ outs)
  end.

Definition frame_ok (frame : list Z) : Prop :=
  ∃ n, length frame = (2 * n)%nat ∧ (0 < n ≤ 320)%nat ∧ Forall int16 frame.
Definition bands_ok (frame : list Z * list Z) : Prop :=
  (0 < length frame.1 ≤ 320)%nat ∧ length frame.2 = length frame.1 ∧ Forall int16 frame.1 ∧ Forall int16 frame.2.

(** The part of a signal from [m] on. *)
Definition part (f : nat → Z) (m n : nat) : list Z := map f (seq m n).

Lemma has_part l n m f : has l n m f → (n ≤ length l)%nat → take n l = part f m n.
Proof.
  intros H Hl. apply list_eq. intros i. unfold part. destruct (Nat.lt_ge_cases i n).
  - rewrite lookup_take_lt, H by done. symmetry. by rewrite list_lookup_fmap, lookup_seq_lt by done.
  - rewrite lookup_take_ge by done. symmetry. apply lookup_ge_None_2. by rewrite length_map, length_seq.
Qed.

Lemma part_app f m n k : part f m n ++ part f (m + n) k = part f m (n + k).
Proof. unfold part. by rewrite <- map_app, <- seq_app. Qed.

Context (Hlocal : locals_ok local).

Lemma analyse_ok s frames : signal s → (320 ≤ length low_band)%nat → (320 ≤ length high_band)%nat →
  Forall frame_ok frames → ∀ m, has (concat frames) (length (concat frames)) (2 * m) s →
  analyse frames (state_at filter_1 (λ i, s (2 * i + 1)%nat * 1024) m) (state_at filter_2 (λ i, s (2 * i)%nat * 1024) m) =
    Some (part (low s) m (length (concat frames) / 2), part (high s) m (length (concat frames) / 2)).
Proof using Hlocal.
  intros Hs Hlo Hhi HF. induction HF as [|frame frames (n & Hn & Hb & _) HF IH]; intros m Hm; cbn [analyse].
  { done. }
  cbn [concat] in *. rewrite length_app, Hn in Hm |- *.
  assert (H1 : has frame (2 * n) (2 * m) s).
  { intros i Hi. specialize (Hm i ltac:(lia)). by rewrite lookup_app_l in Hm by lia. }
  pose proof (AnalysisQMF_frame local s m n frame low_band high_band _ _ Hlocal Hs Hb ltac:(lia) ltac:(lia) H1
    eq_refl eq_refl) as H.
  destruct (WebRtcSpl_AnalysisQMF local frame (2 * n) low_band high_band _ _) as [[[[lo hi] f1] f2]|]; [|done].
  destruct H as (Ll & Lh & Hl & Hh & -> & ->).
  cbn [mbind option_bind]. rewrite (IH (m + n)%nat).
  2: { intros i Hi. specialize (Hm (2 * n + i)%nat ltac:(lia)). rewrite lookup_app_r in Hm by lia.
       replace (2 * n + i - length frame)%nat with i in Hm by lia. rewrite Hm. do 2 f_equal. lia. }
  cbn [mbind option_bind].
  replace ((2 * n + length (concat frames)) / 2)%nat with (n + length (concat frames) / 2)%nat by
    (rewrite (Nat.mul_comm 2 n), Nat.div_add_l by lia; done).
  replace (2 * n / 2)%nat with n by (rewrite Nat.mul_comm, Nat.div_mul by lia; done).
  rewrite (has_part lo n m _ Hl), (has_part hi n m _ Hh), !part_app by lia. done.
Qed.

Lemma synthesise_ok l h frames : signal l → signal h → (640 ≤ length out_data)%nat → Forall bands_ok frames →
  ∀ m, has (concat (map fst frames)) (length (concat (map fst frames))) m l →
  has (concat (map snd frames)) (length (concat (map fst frames))) m h →
  synthesise frames (state_at filter_2 (λ i, (l i + h i) * 1024) m) (state_at filter_1 (λ i, (l i - h i) * 1024) m) =
    Some (part (joined l h) (2 * m) (2 * length (concat (map fst frames)))).
Proof using Hlocal.
  intros Hl Hh Ho HF. induction HF as [|[lo hi] frames (Hn & Hlen & _) HF IH]; intros m Hm Hm'; cbn [synthesise].
  { done. }
  cbn [map concat fst snd] in *. rewrite length_app in Hm, Hm' |- *.
  assert (H1 : has lo (length lo) m l).
  { intros i Hi. specialize (Hm i ltac:(lia)). by rewrite lookup_app_l in Hm by lia. }
  assert (H2 : has hi (length lo) m h).
  { intros i Hi. specialize (Hm' i ltac:(lia)). by rewrite lookup_app_l in Hm' by lia. }
  pose proof (SynthesisQMF_frame local l h m (length lo) lo hi out_data _ _ Hlocal Hl Hh Hn ltac:(lia) H1 H2
    eq_refl eq_refl) as H.
  destruct (WebRtcSpl_SynthesisQMF local lo hi (length lo) out_data _ _) as [[[out f1] f2]|]; [|done].
  destruct H as (Lo & Hout & -> & ->). cbn [mbind option_bind]. rewrite (IH (m + length lo)%nat).
  2: { intros i Hi. specialize (Hm (length lo + i)%nat ltac:(lia)). rewrite lookup_app_r in Hm by lia.
       replace (length lo + i - length lo)%nat with i in Hm by lia. rewrite Hm. do 2 f_equal. lia. }
  2: { intros i Hi. specialize (Hm' (length lo + i)%nat ltac:(lia)). rewrite lookup_app_r in Hm' by lia.
       replace (length lo + i - length hi)%nat with i in Hm' by lia. rewrite Hm'. do 2 f_equal. lia. }
  cbn [mbind option_bind]. rewrite (has_part out _ _ _ Hout) by lia.
  replace (2 * (m + length lo))%nat with (2 * m + 2 * length lo)%nat by lia. rewrite part_app. do 2 f_equal. lia.
Qed.

End session.

(** The signal of a list, zero behind its end. *)
Definition sampled (l : list Z) (i : nat) : Z := default 0 (l !! i).

Lemma sampled_signal l : Forall int16 l → signal (sampled l).
Proof.
  intros Hl n. unfold sampled. destruct (l !! n) as [x|] eqn:E; cbn.
  - exact (Forall_lookup_1 _ _ _ _ Hl E).
  - unfold int16. lia.
Qed.

Lemma sampled_has l : has l (length l) 0 (sampled l).
Proof. intros i Hi. unfold sampled. rewrite Nat.add_0_l. by destruct (lookup_lt_is_Some_2 l i Hi) as [x ->]. Qed.

(** C21: The splitting filter is exact. From cleared states, however a signal is cut into frames
    of an even number of samples up to 640, the analysis never saturates or overflows
    inside the filters, and the two bands are those of the recurrences of the six
    all-pass sections on the whole signal, in unbounded integers; and so is the signal
    that the synthesis puts together from frames of two bands of up to 320 samples. *)
Theorem splitting_exact (local : Locals) (low_band high_band out_data : list Z)
    (frames : list (list Z)) (bands : list (list Z * list Z)) :
  locals_ok local → (320 ≤ length low_band)%nat → (320 ≤ length high_band)%nat → (640 ≤ length out_data)%nat →
  Forall frame_ok frames → Forall bands_ok bands →
  (let s := sampled (concat frames) in
   let n := (length (concat frames) / 2)%nat in
   analyse local low_band high_band frames (replicate 6 0) (replicate 6 0) = Some (part (low s) 0 n, part (high s) 0 n)) ∧
  (let l := sampled (concat (map fst bands)) in
   let h := sampled (concat (map snd bands)) in
   let n := length (concat (map fst bands)) in
   synthesise local out_data bands (replicate 6 0) (replicate 6 0) = Some (part (joined l h) 0 (2 * n))).
Proof.
  intros Hlocal Hlo Hhi Ho HF HB. split.
  - cbv zeta. refine (analyse_ok local low_band high_band Hlocal (sampled (concat frames)) frames _ Hlo Hhi HF 0 _).
    + apply sampled_signal, Forall_concat. eapply Forall_impl; [|exact HF]. by intros ? (? & ? & ? & ?).
    + apply sampled_has.
  - cbv zeta. assert (Hlen : length (concat (map snd bands)) = length (concat (map fst bands))).
    { clear -HB. induction HB as [|[a b] bands (_ & E & _) HB IH]; [done|]. cbn [map concat fst snd] in *.
      rewrite !length_app. lia. }
    refine (synthesise_ok local out_data Hlocal _ _ bands _ _ Ho HB 0 _ _).
    + apply sampled_signal, Forall_concat, Forall_map. eapply Forall_impl; [|exact HB]. by intros ? (? & ? & ? & ?).
    + apply sampled_signal, Forall_concat, Forall_map. eapply Forall_impl; [|exact HB]. by intros ? (? & ? & ? & ?).
    + apply sampled_has.
    + rewrite <- Hlen. apply sampled_has.
Qed.

Definition example_locals : Locals :=
  mkLocals (replicate 320 0) (replicate 320 0) (replicate 320 0) (replicate 320 0).
Definition example_frames : list (list Z) := [[1000; -2000; 32767; -32768]; [5; 5]].
Definition example_bands : list (list Z * list Z) := [([1000; -32768], [20; 32767]); ([7], [9])].

Lemma splitting_exact_witness :
  analyse example_locals (replicate 320 0) (replicate 320 0) example_frames (replicate 6 0) (replicate 6 0) =
    Some (part (low (sampled (concat example_frames))) 0 3, part (high (sampled (concat example_frames))) 0 3) ∧
  synthesise example_locals (replicate 640 0) example_bands (replicate 6 0) (replicate 6 0) =
    Some (part (joined (sampled [1000; -32768; 7]) (sampled [20; 32767; 9])) 0 6).
Proof.
  apply (splitting_exact example_locals (replicate 320 0) (replicate 320 0) (replicate 640 0) example_frames example_bands);
    [by split|cbn; lia|cbn; lia|cbn; lia| |].
  - repeat (apply Forall_cons_2 || apply Forall_nil_2); [exists 2%nat|exists 1%nat];
      (split_and!; [done|lia|lia|repeat (apply Forall_cons_2; [unfold int16; lia|]); apply Forall_nil_2]).
  - repeat (apply Forall_cons_2 || apply Forall_nil_2);
      (split_and!; [cbn; lia|cbn; lia|done| |]; repeat (apply Forall_cons_2; [unfold int16; lia|]); apply Forall_nil_2).
Defined.

(** An impulse through the analysis. *)
Example analysis_impulse :
  analyse example_locals (replicate 320 0) (replicate 320 0) [[10000; 0; 0; 0]; [0; 0]] (replicate 6 0) (replicate 6 0) =
    Some ([1171; 3997; 545], [-1171; -3997; -545]).
Proof. vm_compute. reflexivity. Qed.

End Splitting.
