(* ===== verification/Filters.v ===== *)
(** * Moving-average and auto-regressive filters (common_audio/signal_processing:
    filter_ma_fast_q12.c, filter_ar_fast_q12.c, filter_ar.c, downsample_fast.c)

    The filters with coefficients in Q12. Input and output are cells of larger arrays, since
    the filters read the samples before the ones they are given: the state of a filter from
    one block to the next. The theorems state the difference equation that the cells of the
    final memory satisfy, in unbounded integers. *)

From S2P Require Import Prelude SplInl VectorOps SeqNum Correlation.
Import SplInl VectorOps Correlation.

Module Filters.

(** WEBRTC_SPL_SAT(a, b, c) *)
Definition WEBRTC_SPL_SAT (a b c : Z) : Z := if a <? b then a else if b <? c then c else b.

(** [in_ptr] and [out_ptr] are positions in the arrays [inm] and [outm]. *)
Definition WebRtcSpl_FilterMAFastQ12 (inm : list Z) (in_ptr : Z) (outm : list Z) (out_ptr : nat)
    (B : list Z) (B_length length : nat) : option (list Z) :=
  for_loop length 0 (λ i outm,
    o ← for_loop B_length 0 (λ j o,
      b ← B !! j;
      x ← rdz inm (in_ptr + (Z.of_nat i - Z.of_nat j));
      Some (o +i b *i x)) 0;
    let o := WEBRTC_SPL_SAT 134215679 o (-134217728) in
    wr outm (out_ptr + i) (s16 ((o +i 2048) >>i 12))) outm.

(** [data_out] is a position in [outm]; the cells before it are the state. The sums have 64
    bits. *)
Definition WebRtcSpl_FilterARFastQ12 (inm : list Z) (data_in : nat) (outm : list Z) (data_out : nat)
    (coefficients : list Z) (coefficients_length data_length : nat) : option (list Z) :=
  _ ← dcheck (0 <? data_length)%nat;
  _ ← dcheck (1 <? coefficients_length)%nat;
  for_loop data_length 0 (λ i outm,
    sum ← for_loop (coefficients_length - 1) 0 (λ d sum,
      let j := (coefficients_length - 1 - d)%nat in
      c ← coefficients !! j;
      y ← rdz outm (Z.of_nat data_out + (Z.of_nat i - Z.of_nat j));
      Some (SeqNum.s64 (sum + c *i y))) 0;
    c ← coefficients !! 0%nat;
    x ← inm !! (data_in + i)%nat;
    let output := SeqNum.s64 (c *i x - sum) in
    let output := WEBRTC_SPL_SAT 134215679 output (-134217728) in
    wr outm (data_out + i) (s16 (Z.shiftr (output + 2048) 12))) outm.

(** The loop of the decimation: [i] and [data_out] move on. [fuel] bounds the number of steps:
    each one writes one cell more. *)
Fixpoint downsample_loop (fuel : nat) (inm : list Z) (data_in : Z) (outm : list Z) (data_out : nat)
    (coefficients : list Z) (coefficients_length : nat) (factor i endpos : Z) : option (list Z * nat) :=
  if i <? endpos then
    match fuel with
    | O => None
    | S fuel =>
        out_s32 ← for_loop coefficients_length 0 (λ j out_s32,
          c ← coefficients !! j;
          x ← rdz inm (data_in + (i - Z.of_nat j));
          Some (out_s32 +i c *i x)) 2048;
        let out_s32 := out_s32 >>i 12 in
        outm ← wr outm data_out (WebRtcSpl_SatW32ToW16 out_s32);
        downsample_loop fuel inm data_in outm (S data_out) coefficients coefficients_length factor
          (u64 (i + factor)) endpos
    end
  else Some (outm, data_out).

(** The return value and the memory of the output. The end position is a size_t, and so is
    the factor when it is added. *)
Definition WebRtcSpl_DownsampleFastC (inm : list Z) (data_in data_in_length : Z) (outm : list Z) (data_out : nat)
    (data_out_length : nat) (coefficients : list Z) (coefficients_length : nat) (factor delay : Z)
  : option (Z * list Z) :=
  let endpos := u64 (delay + factor * (Z.of_nat data_out_length - 1) + 1) in
  if (data_out_length =? 0)%nat || (coefficients_length =? 0)%nat || (data_in_length <? endpos) then
    Some (-1, outm)
  else
    '(outm, data_out') ← downsample_loop (S (length outm)) inm data_in outm data_out coefficients
       coefficients_length factor delay endpos;
    _ ← dcheck (data_out' =? data_out + data_out_length)%nat;
    Some (0, outm).

(** ** Sums *)

Lemma total_ext f g n : (∀ j, (j < n)%nat → f j = g j) → total f n = total g n.
Proof.
  induction n as [|n IH]; intros H; [done|]. rewrite !total_S, (H n) by lia. f_equal. apply IH.
  intros j Hj. apply H. lia.
Qed.

Lemma total_first f n : total f (S n) = f 0%nat + total (λ j, f (S j)) n.
Proof.
  induction n as [|n IH]; [cbn; lia|]. rewrite total_S, IH, (total_S _ n). lia.
Qed.

Lemma total_rev f n : total (λ d, f (n - 1 - d)%nat) n = total f n.
Proof.
  induction n as [|n IH]; [done|]. rewrite total_first, total_S. replace (S n - 1 - 0)%nat with n by lia.
  rewrite <- IH, Z.add_comm. f_equal. apply total_ext. intros j Hj. f_equal. lia.
Qed.

Lemma total_weighted f c n b : (∀ j, (j < n)%nat → Z.abs (f j) ≤ Z.abs (c j) * b) →
  Z.abs (total f n) ≤ total (λ j, Z.abs (c j)) n * b.
Proof.
  induction n as [|n IH]; intros H; [cbn; lia|]. rewrite !total_S.
  specialize (IH (λ j Hj, H j ltac:(lia))). pose proof (H n ltac:(lia)). lia.
Qed.

Lemma total_mono c n k : (∀ j, 0 ≤ c j) → (k ≤ n)%nat → total c k ≤ total c n.
Proof.
  intros Hc Hk. induction n as [|n IH]; [by replace k with 0%nat by lia|].
  destruct (decide (k = S n)) as [->|]; [done|]. rewrite total_S. specialize (IH ltac:(lia)). pose proof (Hc n). lia.
Qed.

(** A loop that adds terms, none of whose partial sums overflows. *)
Lemma sum_loop_from (wrap : Z → Z) (term : nat → option Z) (f : nat → Z) (n : nat) (s0 m : Z) :
  (∀ z, - m - 1 ≤ z ≤ m → wrap z = z) → (∀ j, (j < n)%nat → term j = Some (f j)) →
  (∀ k, (k ≤ n)%nat → Z.abs (s0 + total f k) ≤ m) →
  for_loop n 0 (λ j s, t ← term j; Some (wrap (s + t))) s0 = Some (s0 + total f n).
Proof.
  intros Hw Ht Hm. enough (H : ∀ k, (k ≤ n)%nat →
    for_loop k 0 (λ j s, t ← term j; Some (wrap (s + t))) s0 = Some (s0 + total f k)) by (by apply H).
  induction k as [|k IH]; intros Hk; [cbn; by rewrite Z.add_0_r|].
  replace (S k) with (k + 1)%nat by lia. rewrite for_loop_app, IH by lia. cbn [mbind option_bind for_loop].
  rewrite Nat.add_0_l, Ht by lia. cbn [mbind option_bind].
  replace (k + 1)%nat with (S k) by lia. rewrite total_S, Z.add_assoc. f_equal. apply Hw.
  pose proof (Hm (S k) ltac:(lia)) as H. rewrite total_S in H. lia.
Qed.

(** ** Values in Q12 *)

(** The nearest integer, saturated to 16 bits. *)
Definition q12 (z : Z) : Z := clamp (-32768) 32767 ((z + 2048) / 4096).

Lemma q12_saturated z : s16 (Z.shiftr (WEBRTC_SPL_SAT 134215679 z (-134217728) + 2048) 12) = q12 z.
Proof.
  unfold q12, WEBRTC_SPL_SAT, clamp. rewrite Z.shiftr_div_pow2 by lia. change (2 ^ 12) with 4096.
  destruct (Z.ltb_spec 134215679 z).
  { rewrite s16_id by (unfold int16; Z.to_euclidean_division_equations; lia).
    Z.to_euclidean_division_equations; lia. }
  destruct (Z.ltb_spec z (-134217728));
    rewrite s16_id by (unfold int16; Z.to_euclidean_division_equations; lia); Z.to_euclidean_division_equations; lia.
Qed.

Lemma q12_int16 z : int16 (q12 z).
Proof. unfold q12, clamp, int16. lia. Qed.

(** The sample at a position. *)
Definition cell (m : list Z) (p : Z) : Z := m !!! Z.to_nat p.

Lemma cell_int16 m p : Forall int16 m → 0 ≤ p < Z.of_nat (length m) → rdz m p = Some (cell m p) ∧ int16 (cell m p).
Proof.
  intros Hm Hp. unfold rdz, cell. rewrite (proj2 (Z.leb_le 0 p)) by lia. apply int16_total; [done|lia].
Qed.

Lemma product_int16 a b : int16 a → int16 b → a *i b = a * b ∧ Z.abs (a * b) ≤ Z.abs a * 32768 ∧
  Z.abs (a * b) ≤ 1073741824.
Proof.
  intros Ha Hb. assert (Z.abs (a * b) ≤ Z.abs a * 32768) by (rewrite Z.abs_mul; unfold int16 in *; nia).
  assert (Z.abs (a * b) ≤ 1073741824) by (unfold int16 in *; nia).
  split; [|done]. apply s32_id. unfold int32. lia.
Qed.

(** The products of coefficients and the samples before a position. *)
Definition convolution (c m : list Z) (n : nat) (p : Z) : Z := total (λ j, c !!! j * cell m (p - Z.of_nat j)) n.

(** The loop of a moving average, when the coefficients cannot make it overflow. *)
Lemma convolution_loop (c m : list Z) (n : nat) (p q s0 : Z) : Forall int16 c → Forall int16 m → (n ≤ length c)%nat →
  Z.of_nat n - 1 ≤ p + q → p + q < Z.of_nat (length m) → total (λ j, Z.abs (c !!! j)) n ≤ 65535 → 0 ≤ s0 ≤ 32767 →
  for_loop n 0 (λ j o, b ← c !! j; x ← rdz m (p + (q - Z.of_nat j)); Some (o +i b *i x)) s0 =
    Some (s0 + convolution c m n (p + q)) ∧ Z.abs (s0 + convolution c m n (p + q)) ≤ 2147483647.
Proof.
  intros Hc Hm Hl Hp Hp' Hg Hs0.
  assert (Hcell : ∀ j, (j < n)%nat → c !! j = Some (c !!! j) ∧ int16 (c !!! j) ∧
    rdz m (p + (q - Z.of_nat j)) = Some (cell m (p + q - Z.of_nat j)) ∧ int16 (cell m (p + q - Z.of_nat j))).
  { intros j Hj. destruct (int16_total c j Hc ltac:(lia)) as [E1 I1].
    destruct (cell_int16 m (p + q - Z.of_nat j) Hm ltac:(lia)) as [E2 I2].
    replace (p + (q - Z.of_nat j)) with (p + q - Z.of_nat j) by lia. done. }
  assert (Hk : ∀ k, (k ≤ n)%nat → Z.abs (s0 + convolution c m k (p + q)) ≤ 2147483647).
  { intros k Hk. unfold convolution.
    pose proof (total_weighted (λ j, c !!! j * cell m (p + q - Z.of_nat j)) (λ j, c !!! j) k 32768) as Hw.
    pose proof (total_mono (λ j, Z.abs (c !!! j)) n k (λ j, Z.abs_nonneg (c !!! j)) Hk) as Hmono. cbv beta in Hw, Hmono.
    enough (Z.abs (total (λ j, c !!! j * cell m (p + q - Z.of_nat j)) k) ≤ 65535 * 32768) by lia.
    etransitivity; [apply Hw|lia]. intros j Hj. destruct (Hcell j ltac:(lia)) as (_ & I1 & _ & I2).
    by apply product_int16. }
  split; [|by apply Hk].
  rewrite (for_loop_ext _ _ _ (λ j o, t ← (b ← c !! j; x ← rdz m (p + (q - Z.of_nat j)); Some (b *i x)); Some (s32 (o + t)))).
  2: { intros j o Hj. destruct (c !! j); [|done]. cbn [mbind option_bind]. by destruct (rdz m _). }
  apply (sum_loop_from s32 _ _ n s0 2147483647); [intros; apply s32_id; unfold int32; lia| |exact Hk].
  intros j Hj. destruct (Hcell j Hj) as (-> & I1 & -> & I2). cbn [mbind option_bind]. f_equal. by apply product_int16.
Qed.

(** The moving average. *)
Lemma FilterMA_exact inm in_ptr outm out_ptr B B_length n : Forall int16 B → Forall int16 inm →
  (B_length ≤ length B)%nat → total (λ j, Z.abs (B !!! j)) B_length ≤ 65535 →
  Z.of_nat B_length - 1 ≤ in_ptr → in_ptr + Z.of_nat n ≤ Z.of_nat (length inm) → (out_ptr + n ≤ length outm)%nat →
  wp (WebRtcSpl_FilterMAFastQ12 inm in_ptr outm out_ptr B B_length n) (λ outm',
    wrote outm out_ptr n (λ i, q12 (convolution B inm B_length (in_ptr + Z.of_nat i))) outm').
Proof.
  intros HB Hm Hl Hg Hp Hp' Ho. unfold WebRtcSpl_FilterMAFastQ12.
  apply (wp_for (λ k outm', wrote outm out_ptr k (λ i, q12 (convolution B inm B_length (in_ptr + Z.of_nat i))) outm'));
    [by split_and!; [|lia|]| |done].
  intros i outm' Hi Hw. destruct (convolution_loop B inm B_length in_ptr (Z.of_nat i) 0) as [-> Hb]; try done; try lia.
  cbn [mbind option_bind]. rewrite Z.add_0_l in *. rewrite (s32_id (WEBRTC_SPL_SAT _ _ _ + 2048)) by
    (unfold int32, WEBRTC_SPL_SAT; destruct (Z.ltb_spec 134215679 (convolution B inm B_length (in_ptr + Z.of_nat i))),
      (Z.ltb_spec (convolution B inm B_length (in_ptr + Z.of_nat i)) (-134217728)); lia).
  rewrite q12_saturated. by apply (wp_wrote_snoc outm out_ptr i _ outm' _ _ Hw); [lia| |].
Qed.

(** ** The auto-regressive filter *)

(** The difference equation at the position [p] of the output and the sample [x]. *)
Definition recurrence (c m : list Z) (n : nat) (x p : Z) : Z :=
  q12 (c !!! 0%nat * x - total (λ j, c !!! S j * cell m (p - 1 - Z.of_nat j)) (n - 1)).

Lemma recurrence_ext c m m' n x p : (∀ q, p - Z.of_nat n < q < p → cell m' q = cell m q) →
  recurrence c m' n x p = recurrence c m n x p.
Proof.
  intros H. unfold recurrence. do 2 f_equal. apply total_ext. intros j Hj. f_equal. apply H. lia.
Qed.

Lemma s64_small z : Z.abs z ≤ 9223372036854775807 → SeqNum.s64 z = z.
Proof. intros. unfold SeqNum.s64. rewrite Z.mod_small by lia. lia. Qed.

Lemma ar_loop (c m : list Z) (n : nat) (d i : nat) : Forall int16 c → Forall int16 m → (n ≤ length c)%nat →
  (1 < n)%nat → (n - 1 ≤ d + i)%nat → (d + i ≤ length m)%nat → Z.of_nat n < 4294967296 →
  for_loop (n - 1) 0 (λ e sum, c ← c !! (n - 1 - e)%nat; y ← rdz m (Z.of_nat d + (Z.of_nat i - Z.of_nat (n - 1 - e)));
    Some (SeqNum.s64 (sum + c *i y))) 0 =
  Some (total (λ j, c !!! S j * cell m (Z.of_nat d + Z.of_nat i - 1 - Z.of_nat j)) (n - 1)) ∧
  Z.abs (total (λ j, c !!! S j * cell m (Z.of_nat d + Z.of_nat i - 1 - Z.of_nat j)) (n - 1)) ≤
    1073741824 * Z.of_nat (n - 1).
Proof.
  intros Hc Hm Hl Hn Hd Hd' Hbig.
  set (f := λ j : nat, c !!! S j * cell m (Z.of_nat d + Z.of_nat i - 1 - Z.of_nat j)).
  assert (Hf : ∀ j, (j < n - 1)%nat → Z.abs (f j) ≤ 1073741824).
  { intros j Hj. destruct (int16_total c (S j) Hc ltac:(lia)) as [_ I1].
    destruct (cell_int16 m (Z.of_nat d + Z.of_nat i - 1 - Z.of_nat j) Hm ltac:(lia)) as [_ I2]. by apply product_int16. }
  split; [|by apply total_bound].
  rewrite (for_loop_ext _ _ _ (λ e sum, t ← (c ← c !! (n - 1 - e)%nat;
    y ← rdz m (Z.of_nat d + (Z.of_nat i - Z.of_nat (n - 1 - e))); Some (c *i y)); Some (SeqNum.s64 (sum + t)))).
  2: { intros j o Hj. destruct (c !! _); [|done]. cbn [mbind option_bind]. by destruct (rdz m _). }
  rewrite <- (total_rev f (n - 1)). rewrite <- (Z.add_0_l (total _ _)).
  apply (sum_loop_from SeqNum.s64 _ _ (n - 1) 0 9223372036854775806); [intros; apply s64_small; lia| |].
  - intros e He. destruct (int16_total c (n - 1 - e) Hc ltac:(lia)) as [-> I1].
    replace (Z.of_nat d + (Z.of_nat i - Z.of_nat (n - 1 - e))) with
      (Z.of_nat d + Z.of_nat i - 1 - Z.of_nat (n - 1 - 1 - e)) by lia.
    destruct (cell_int16 m (Z.of_nat d + Z.of_nat i - 1 - Z.of_nat (n - 1 - 1 - e)) Hm ltac:(lia)) as [-> I2].
    cbn [mbind option_bind]. unfold f. replace (S (n - 1 - 1 - e)) with (n - 1 - e)%nat by lia.
    f_equal. by apply product_int16.
  - intros k Hk. rewrite Z.add_0_l.
    pose proof (total_bound (λ e, f (n - 1 - 1 - e)%nat) k 1073741824 (λ e He, Hf (n - 1 - 1 - e)%nat ltac:(lia))). lia.
Qed.

Lemma cell_insert m k v q : (k < length m)%nat → 0 ≤ q → cell (<[k := v]> m) q = if q =? Z.of_nat k then v else cell m q.
Proof.
  intros Hk Hq. unfold cell. destruct (Z.eqb_spec q (Z.of_nat k)) as [->|Hne].
  - rewrite Nat2Z.id. by rewrite list_lookup_total_insert_eq.
  - rewrite list_lookup_total_insert_ne; [done|]. lia.
Qed.

(** The auto-regressive filter is exact. For all 16-bit samples, states and coefficients, each
    output is the nearest integer, saturated to 16 bits, of what the difference equation
    gives for the sample and the outputs before it, those of earlier calls included; no
    sum overflows, and the cells around the block are not touched. *)
Theorem FilterARFast_exact (inm outm coefficients : list Z) (data_in data_out len n : nat) :
  Forall int16 inm → Forall int16 outm → Forall int16 coefficients →
  (1 < len ≤ length coefficients)%nat → Z.of_nat len < 4294967296 → (0 < n)%nat →
  (data_in + n ≤ length inm)%nat → (len - 1 ≤ data_out)%nat → (data_out + n ≤ length outm)%nat →
  wp (WebRtcSpl_FilterARFastQ12 inm data_in outm data_out coefficients len n) (λ outm',
    length outm' = length outm ∧ Forall int16 outm' ∧
    (∀ i, (i < n)%nat → cell outm' (Z.of_nat (data_out + i)) =
       recurrence coefficients outm' len (inm !!! (data_in + i)%nat) (Z.of_nat (data_out + i))) ∧
    (∀ p, (p < data_out ∨ data_out + n ≤ p)%nat → outm' !! p = outm !! p)).
Proof.
  intros Hi Ho Hc Hlen Hbig Hn Hin Hst Hout. unfold WebRtcSpl_FilterARFastQ12.
  rewrite (proj2 (Nat.ltb_lt 0 n)), (proj2 (Nat.ltb_lt 1 len)) by lia. cbn [dcheck mbind option_bind].
  apply (wp_for (λ k outm', length outm' = length outm ∧ Forall int16 outm' ∧
    (∀ i, (i < k)%nat → cell outm' (Z.of_nat (data_out + i)) =
       recurrence coefficients outm' len (inm !!! (data_in + i)%nat) (Z.of_nat (data_out + i))) ∧
    (∀ p, (p < data_out ∨ data_out + k ≤ p)%nat → outm' !! p = outm !! p))); [by split_and!; [| |lia|]| |done].
  intros k m Hk (Lm & Fm & Hrec & Hrest). cbv zeta.
  destruct (ar_loop coefficients m len data_out k Hc Fm) as [-> Hb]; [lia|lia|lia|lia|lia|].
  cbn [mbind option_bind].
  destruct (int16_total coefficients 0 Hc ltac:(lia)) as [-> I0].
  destruct (int16_total inm (data_in + k) Hi ltac:(lia)) as [-> I1]. cbn [mbind option_bind].
  destruct (product_int16 _ _ I0 I1) as (-> & _ & Hp). rewrite s64_small by lia.
  rewrite q12_saturated. set (y := q12 _).
  assert (Hy : y = recurrence coefficients m len (inm !!! (data_in + k)%nat) (Z.of_nat (data_out + k))).
  { unfold y, recurrence. rewrite Nat2Z.inj_add. reflexivity. }
  rewrite wr_lt by lia. cbn [wp]. rewrite length_insert.
  split_and!; [done|by apply Forall_insert; [|unfold y; apply q12_int16]| |].
  - intros i Hik. rewrite (recurrence_ext _ m (<[(data_out + k)%nat := y]> m)).
    2: { intros q Hq. rewrite cell_insert by lia. rewrite (proj2 (Z.eqb_neq q _)) by lia. done. }
    rewrite cell_insert by lia. destruct (Z.eqb_spec (Z.of_nat (data_out + i)) (Z.of_nat (data_out + k))) as [E|E].
    + replace i with k by lia. exact Hy.
    + apply Hrec. lia.
  - intros p Hp'. rewrite list_lookup_insert_ne by lia. apply Hrest. lia.
Qed.

Lemma FilterARFast_exact_witness :
  let run := WebRtcSpl_FilterARFastQ12 [1000; 0; -30000] 0 [0; 0; 7; 7; 7; 7] 2 [4096; -2048; 1024] 3 3 in
  run = Some [0; 0; 1000; 500; -30000; 7] ∧
  wp run (λ outm', length outm' = 6%nat ∧ Forall int16 outm' ∧
    (∀ i, (i < 3)%nat → cell outm' (Z.of_nat (2 + i)) =
       recurrence [4096; -2048; 1024] outm' 3 ([1000; 0; -30000] !!! (0 + i)%nat) (Z.of_nat (2 + i))) ∧
    (∀ p, (p < 2 ∨ 2 + 3 ≤ p)%nat → outm' !! p = [0; 0; 7; 7; 7; 7] !! p)).
Proof.
  cbv zeta. split; [vm_compute; reflexivity|].
  apply (FilterARFast_exact [1000; 0; -30000] [0; 0; 7; 7; 7; 7] [4096; -2048; 1024] 0 2 3 3);
    try (cbn; lia); repeat (apply Forall_cons_2; [unfold int16; lia|]); apply Forall_nil_2.
Defined.

(** ** Decimation *)

Lemma downsample_loop_ok inm data_in coefficients len factor delay outm (start n : nat) :
  Forall int16 inm → Forall int16 coefficients → (0 < len ≤ length coefficients)%nat →
  total (λ j, Z.abs (coefficients !!! j)) len ≤ 65535 → 0 < factor → 0 ≤ delay →
  Z.of_nat len - 1 ≤ data_in + delay → data_in + (delay + factor * (Z.of_nat n - 1)) < Z.of_nat (length inm) →
  (start + n ≤ length outm)%nat → delay + factor * Z.of_nat n < 18446744073709551616 →
  ∀ r k fuel m, (k + r = n)%nat → (r ≤ fuel)%nat →
  wrote outm start k (λ i, clamp (-32768) 32767 ((2048 + convolution coefficients inm len
      (data_in + (delay + factor * Z.of_nat i))) / 4096)) m →
  wp (downsample_loop fuel inm data_in m (start + k) coefficients len factor (delay + factor * Z.of_nat k)
        (delay + factor * (Z.of_nat n - 1) + 1)) (λ '(m', p), p = (start + n)%nat ∧
    wrote outm start n (λ i, clamp (-32768) 32767 ((2048 + convolution coefficients inm len
      (data_in + (delay + factor * Z.of_nat i))) / 4096)) m').
Proof.
  intros Hm Hc Hlen Hg Hf Hd Hp Hp' Ho Hbig. induction r as [|r IH]; intros k fuel m Hk Hfuel Hw.
  { assert (k = n) as -> by lia. destruct fuel; cbn [downsample_loop]; rewrite (proj2 (Z.ltb_ge _ _)) by lia; done. }
  destruct fuel as [|fuel]; [lia|]. cbn [downsample_loop]. rewrite (proj2 (Z.ltb_lt _ _)) by nia.
  destruct (convolution_loop coefficients inm len data_in (delay + factor * Z.of_nat k) 2048) as [-> Hb];
    try done; try lia; try nia.
  cbn [mbind option_bind]. rewrite SatW32ToW16_clamp, Z.shiftr_div_pow2 by lia. change (2 ^ 12) with 4096.
  apply wp_bind. apply (wp_wrote_snoc outm start k _ m _ _ Hw); [lia|done|]. intros m2 Hw2.
  unfold u64. rewrite Z.mod_small by nia.
  replace (delay + factor * Z.of_nat k + factor) with (delay + factor * Z.of_nat (S k)) by lia.
  replace (S (start + k)) with (start + S k)%nat by lia. apply IH; [lia|lia|exact Hw2].
Qed.

(** Decimation by a positive factor: an error when a length is zero or the input too short,
    otherwise each output is the moving average at every [factor]-th position from the
    delay on. *)
Lemma DownsampleFast_correct inm data_in data_in_length outm start n coefficients len factor delay :
  Forall int16 inm → Forall int16 coefficients → (len ≤ length coefficients)%nat →
  total (λ j, Z.abs (coefficients !!! j)) len ≤ 65535 → 0 < factor → 0 ≤ delay →
  Z.of_nat len - 1 ≤ data_in + delay → 0 ≤ data_in_length → data_in + data_in_length ≤ Z.of_nat (length inm) →
  (start + n ≤ length outm)%nat → delay + factor * Z.of_nat n < 18446744073709551616 →
  (n = 0%nat ∨ len = 0%nat ∨ data_in_length < delay + factor * (Z.of_nat n - 1) + 1 →
   WebRtcSpl_DownsampleFastC inm data_in data_in_length outm start n coefficients len factor delay = Some (-1, outm)) ∧
  (0 < Z.of_nat n → 0 < Z.of_nat len → delay + factor * (Z.of_nat n - 1) + 1 ≤ data_in_length →
   ∃ outm', WebRtcSpl_DownsampleFastC inm data_in data_in_length outm start n coefficients len factor delay = Some (0, outm') ∧
     wrote outm start n (λ i, clamp (-32768) 32767 ((2048 + convolution coefficients inm len
       (data_in + (delay + factor * Z.of_nat i))) / 4096)) outm').
Proof.
  intros Hm Hc Hlen Hg Hf Hd Hp Hl Hl' Ho Hbig. unfold WebRtcSpl_DownsampleFastC. cbv zeta. split.
  - intros Herr. destruct (Nat.eqb_spec n 0); [done|]. destruct (Nat.eqb_spec len 0); [done|]. cbn [orb].
    unfold u64. rewrite Z.mod_small by nia. rewrite (proj2 (Z.ltb_lt _ _)) by lia. done.
  - intros Hn Hlen0 Hfit. rewrite (proj2 (Nat.eqb_neq n 0)), (proj2 (Nat.eqb_neq len 0)) by lia. cbn [orb].
    unfold u64. rewrite Z.mod_small by nia. rewrite (proj2 (Z.ltb_ge _ _)) by lia.
    pose proof (downsample_loop_ok inm data_in coefficients len factor delay outm start n Hm Hc ltac:(lia) Hg Hf Hd Hp
      ltac:(lia) Ho Hbig n 0 (S (length outm)) outm ltac:(lia) ltac:(lia)) as H.
    replace (delay + factor * Z.of_nat 0) with delay in H by lia. rewrite Nat.add_0_r in H.
    destruct (downsample_loop _ _ _ _ _ _ _ _ _ _) as [[m p]|].
    2: { exfalso. apply H. split_and!; [done|lia|done]. }
    destruct H as [-> Hw]; [by split_and!; [|lia|]|]. cbn [mbind option_bind]. rewrite Nat.eqb_refl.
    cbn [dcheck mbind option_bind]. eexists. by split.
Qed.

End Filters.
