(* ===== verification/FilterAr.v ===== *)
(** * The auto-regressive filter in two words (common_audio/signal_processing/filter_ar.c)

    The filter keeps its outputs in Q12 as two 16-bit words, the rounded integer and what is
    left over, and carries as many of both from one block to the next as there are
    coefficients. The theorem puts the words together: a session of blocks computes one
    difference equation on the whole signal. *)

From S2P Require Import Prelude SplInl VectorOps SeqNum Correlation Filters.
Import SplInl VectorOps Correlation Filters.

Module FilterAr.

(** The arrays that a call changes. *)
Record ArState := mkArState { state : list Z; state_low : list Z; filtered : list Z; filtered_low : list Z }.

(** The two accumulators after the loop over the outputs of this block. *)
Definition new_terms (a filtered filtered_low : list Z) (i stop : nat) (acc : Z * Z) : option (Z * Z) :=
  for_loop (stop - 1) 1 (λ j '(o, oLOW),
    let filtered_ix := Z.of_nat i - Z.of_nat j in
    _ ← dcheck (0 <=? filtered_ix);
    c ← a !! j;
    y ← rdz filtered filtered_ix;
    yl ← rdz filtered_low filtered_ix;
    Some (SeqNum.s64 (o - c *i y), oLOW -i c *i yl)) acc.

(** The same over the state, from its end on. *)
Definition old_terms (a state state_low : list Z) (i a_length state_length : nat) (acc : Z * Z) : option (Z * Z) :=
  for_loop (a_length - (i + 1)) (i + 1) (λ j '(o, oLOW),
    let p := Z.of_nat state_length - 1 - (Z.of_nat j - Z.of_nat (i + 1)) in
    c ← a !! j;
    y ← rdz state p;
    yl ← rdz state_low p;
    Some (SeqNum.s64 (o - c *i y), oLOW -i c *i yl)) acc.

Definition filter_sample (a : list Z) (a_length : nat) (x : list Z) (state_length : nat) (i : nat) (st : ArState)
  : option ArState :=
  x ← x !! i;
  let o := x *i (1 <<i 12) in
  let stop := if (i <? a_length)%nat then (i + 1)%nat else a_length in
  acc ← new_terms a (filtered st) (filtered_low st) i stop (o, 0);
  '(o, oLOW) ← old_terms a (state st) (state_low st) i a_length state_length acc;
  let o := SeqNum.s64 (o + (oLOW >>i 12)) in
  let y := s16 (Z.shiftr (SeqNum.s64 (o + 2048)) 12) in
  filtered ← wr (filtered st) i y;
  filtered_low ← wr (filtered_low st) i (s16 (SeqNum.s64 (o - y *i (1 <<i 12))));
  Some (mkArState (state st) (state_low st) filtered filtered_low).

(** The number of samples and the arrays. *)
Definition WebRtcSpl_FilterAR (a : list Z) (a_length : nat) (x : list Z) (x_length state_length : nat) (st : ArState)
  : option (nat * ArState) :=
  st ← for_loop x_length 0 (filter_sample a a_length x state_length) st;
  if (state_length <=? x_length)%nat then
    state ← WebRtcSpl_CopyFromEndW16 (filtered st) x_length (a_length - 1) (state st);
    state_low ← WebRtcSpl_CopyFromEndW16 (filtered_low st) x_length (a_length - 1) (state_low st);
    Some (x_length, mkArState state state_low (filtered st) (filtered_low st))
  else
    '(state, state_low) ← for_loop (state_length - x_length) 0 (λ i '(state, state_low),
      y ← state !! (i + x_length)%nat;
      state ← wr state i y;
      yl ← state_low !! (i + x_length)%nat;
      state_low ← wr state_low i yl;
      Some (state, state_low)) (state st, state_low st);
    '(state, state_low) ← for_loop x_length 0 (λ i '(state, state_low),
      y ← filtered st !! i;
      state ← wr state (state_length - x_length + i) y;
      yl ← filtered_low st !! i;
      state_low ← wr state_low (state_length - x_length + i) yl;
      Some (state, state_low)) (state, state_low);
    Some (x_length, mkArState state state_low (filtered st) (filtered_low st)).

(** ** The difference equation *)

(** The rounded integer of a value in Q12, and what is left over. *)
Definition hi (y : Z) : Z := (y + 2048) / 4096.
Definition lo (y : Z) : Z := y - 4096 * hi y.

Lemma lo_range y : -2048 ≤ lo y ≤ 2047.
Proof. unfold lo, hi. Z.to_euclidean_division_equations; lia. Qed.

(** The element at a position, zero behind the end. *)
Definition at0 (l : list Z) (d : nat) : Z := default 0 (l !! d).

Section equation.
Context (a : list Z) (order : nat).

(** The output for the sample [x] after the outputs [h], the latest one first. *)
Definition output (x : Z) (h : list Z) : Z := 4096 * x + (- total (λ j, a !!! S j * at0 h j) order) / 4096.

(** The outputs before position [n], the latest one first; before them the filter is at rest. *)
Fixpoint history (x : nat → Z) (n : nat) : list Z :=
  match n with
  | O => []
  | S n => output (x n) (history x n) :: history x n
  end.

Definition response (x : nat → Z) (n : nat) : Z := output (x n) (history x n).

Lemma history_total x n d : at0 (history x (n + S d)) d = response x n.
Proof.
  induction d as [|d IH].
  - by rewrite Nat.add_1_r.
  - rewrite Nat.add_succ_r. cbn [history]. exact IH.
Qed.

Lemma history_drop x n i d : at0 (history x (n + i)) (i + d) = at0 (history x n) d.
Proof.
  induction i as [|i IH]; [by rewrite Nat.add_0_r|]. rewrite Nat.add_succ_r. cbn [history]. exact IH.
Qed.

(** The words give the next output. *)
Lemma output_words x h : output x h =
  4096 * x - total (λ j, a !!! S j * hi (at0 h j)) order + (- total (λ j, a !!! S j * lo (at0 h j)) order) / 4096.
Proof.
  unfold output.
  assert (E : total (λ j, a !!! S j * at0 h j) order =
    4096 * total (λ j, a !!! S j * hi (at0 h j)) order + total (λ j, a !!! S j * lo (at0 h j)) order).
  { clear. induction order as [|n IH]; [done|]. rewrite !total_S, IH. unfold lo. lia. }
  rewrite E. replace (- (4096 * total (λ j, a !!! S j * hi (at0 h j)) order + total (λ j, a !!! S j * lo (at0 h j)) order))
    with (- total (λ j, a !!! S j * lo (at0 h j)) order + (- total (λ j, a !!! S j * hi (at0 h j)) order) * 4096) by lia.
  rewrite Z.div_add by lia. lia.
Qed.

End equation.

(** ** Carrying words to the next block *)

(** The last words of the outputs. *)
Lemma copy_end l n k out : (k ≤ n ≤ length l)%nat → length out = k →
  wp (WebRtcSpl_CopyFromEndW16 l n k out) (λ out', length out' = k ∧
    ∀ d, (d < k)%nat → out' !! (k - 1 - d)%nat = l !! (n - 1 - d)%nat).
Proof.
  intros Hn Hl. unfold WebRtcSpl_CopyFromEndW16. rewrite decide_True by lia. apply wp_memcpy; [lia|lia|].
  rewrite take_0, app_nil_l, Nat.add_0_l, (drop_ge out), app_nil_r by lia.
  rewrite length_take_le by (rewrite length_drop; lia). split; [done|].
  intros d Hd. rewrite lookup_take_lt, lookup_drop by lia. f_equal. lia.
Qed.

(** Moving the words of the state down by [n]. *)
Lemma shift_down k n (s1 s2 : list Z) : (k + n ≤ length s1)%nat → length s2 = length s1 →
  wp (for_loop k 0 (λ i '(s, t), y ← s !! (i + n)%nat; s ← wr s i y; yl ← t !! (i + n)%nat; t ← wr t i yl; Some (s, t)) (s1, s2))
    (λ '(t1, t2), length t1 = length s1 ∧ length t2 = length s1 ∧
      ∀ p, (p < k)%nat → t1 !! p = s1 !! (p + n)%nat ∧ t2 !! p = s2 !! (p + n)%nat).
Proof.
  intros Hk Hl.
  apply (wp_for (λ i '(t1, t2), length t1 = length s1 ∧ length t2 = length s1 ∧
    (∀ p, (p < i)%nat → t1 !! p = s1 !! (p + n)%nat ∧ t2 !! p = s2 !! (p + n)%nat) ∧
    (∀ p, (i ≤ p)%nat → t1 !! p = s1 !! p ∧ t2 !! p = s2 !! p))).
  - split_and!; done || lia.
  - intros i [t1 t2] Hi (L1 & L2 & Hd & Hr). destruct (Hr (i + n)%nat ltac:(lia)) as [-> ->].
    destruct (lookup_lt_is_Some_2 s1 (i + n) ltac:(lia)) as [u Eu].
    destruct (lookup_lt_is_Some_2 s2 (i + n) ltac:(lia)) as [v Ev]. rewrite Eu, Ev. cbn [mbind option_bind].
    rewrite wr_lt by lia. cbn [mbind option_bind]. rewrite wr_lt by lia. cbn [mbind option_bind wp].
    rewrite !length_insert. split_and!; [done|done| |].
    + intros p Hp. destruct (decide (p = i)) as [->|].
      * by rewrite !list_lookup_insert_eq by lia.
      * rewrite !list_lookup_insert_ne by done. apply Hd. lia.
    + intros p Hp. rewrite !list_lookup_insert_ne by lia. apply Hr. lia.
  - intros [t1 t2] (? & ? & ? & ?). by split_and!.
Qed.

(** Writing the outputs behind the first [k] words. *)
Lemma append_words k n (f1 f2 s1 s2 : list Z) : (k + n ≤ length s1)%nat → length s2 = length s1 →
  (n ≤ length f1)%nat → (n ≤ length f2)%nat →
  wp (for_loop n 0 (λ i '(s, t), y ← f1 !! i; s ← wr s (k + i) y; yl ← f2 !! i; t ← wr t (k + i) yl; Some (s, t)) (s1, s2))
    (λ '(t1, t2), length t1 = length s1 ∧ length t2 = length s1 ∧
      (∀ p, (p < k)%nat → t1 !! p = s1 !! p ∧ t2 !! p = s2 !! p) ∧
      (∀ i, (i < n)%nat → t1 !! (k + i)%nat = f1 !! i ∧ t2 !! (k + i)%nat = f2 !! i)).
Proof.
  intros Hk Hl H1 H2.
  apply (wp_for (λ i '(t1, t2), length t1 = length s1 ∧ length t2 = length s1 ∧
    (∀ p, (p < k)%nat → t1 !! p = s1 !! p ∧ t2 !! p = s2 !! p) ∧
    (∀ i', (i' < i)%nat → t1 !! (k + i')%nat = f1 !! i' ∧ t2 !! (k + i')%nat = f2 !! i'))).
  - split_and!; done || lia.
  - intros i [t1 t2] Hi (L1 & L2 & Hr & Hd).
    destruct (lookup_lt_is_Some_2 f1 i ltac:(lia)) as [u Eu]. destruct (lookup_lt_is_Some_2 f2 i ltac:(lia)) as [v Ev].
    rewrite Eu, Ev. cbn [mbind option_bind].
    rewrite wr_lt by lia. cbn [mbind option_bind]. rewrite wr_lt by lia. cbn [mbind option_bind wp].
    rewrite !length_insert. split_and!; [done|done| |].
    + intros p Hp. rewrite !list_lookup_insert_ne by lia. apply Hr. lia.
    + intros i' Hi'. destruct (decide (i' = i)) as [->|].
      * by rewrite !list_lookup_insert_eq, Eu, Ev by lia.
      * rewrite !list_lookup_insert_ne by lia. apply Hd. lia.
  - intros [t1 t2] H. exact H.
Qed.

(** ** One block *)

Section block.
Context (a : list Z) (order : nat) (x : nat → Z).
Context (Ha : Forall int16 a) (Hlen : length a = S order) (Horder : (order ≤ 31)%nat).
Context (Hx : ∀ n, int16 (x n)) (N : nat) (Hfit : ∀ n, (n < N)%nat → int16 (hi (response a order x n))).

Abbreviation h := (history a order x).
Abbreviation y := (response a order x).

(** The outputs of this block so far. *)
Record outputs_ok (m i : nat) (st : ArState) : Prop := {
  o_high : ∀ k, (k < i)%nat → filtered st !! k = Some (hi (y (m + k)));
  o_low : ∀ k, (k < i)%nat → filtered_low st !! k = Some (lo (y (m + k)));
}.

(** The state before position [m]. *)
Record state_ok (m : nat) (st : ArState) : Prop := {
  s_length : length (state st) = order ∧ length (state_low st) = order;
  s_high : ∀ d, (d < order)%nat → state st !! (order - 1 - d)%nat = Some (hi (at0 (h m) d));
  s_low : ∀ d, (d < order)%nat → state_low st !! (order - 1 - d)%nat = Some (lo (at0 (h m) d));
}.

Lemma history_fits m d : (m ≤ N)%nat → int16 (hi (at0 (h m) d)).
Proof using Hfit Hlen Horder.
  intros HN.
  destruct (h m !! d) as [z|] eqn:E; unfold at0; rewrite E; cbn [default from_option]; [|by compute; split].
  assert (Hd : (d < m)%nat).
  { apply lookup_lt_Some in E. enough (length (h m) = m) by lia. clear. induction m as [|m IH]; [done|]. cbn. lia. }
  replace m with (m - S d + S d)%nat in E by lia. pose proof (history_total a order x (m - S d) d) as Ht.
  unfold at0 in Ht. rewrite E in Ht. cbn in Ht. rewrite Ht. apply Hfit. lia.
Qed.

(** The accumulators after the terms of [k] coefficients. *)
Definition acc_at (m k : nat) : Z * Z :=
  (4096 * x m - total (λ j, a !!! S j * hi (at0 (h m) j)) k, - total (λ j, a !!! S j * lo (at0 (h m) j)) k).

Lemma acc_step m k : (m ≤ N)%nat → (k < order)%nat →
  a !! S k = Some (a !!! S k) ∧
  SeqNum.s64 ((acc_at m k).1 - a !!! S k *i hi (at0 (h m) k)) = (acc_at m (S k)).1 ∧
  (acc_at m k).2 -i a !!! S k *i lo (at0 (h m) k) = (acc_at m (S k)).2.
Proof using Ha Hlen Horder Hx Hfit.
  intros HN Hk. destruct (int16_total a (S k) Ha ltac:(lia)) as [E I]. split; [done|].
  assert (Hb : ∀ n, (n ≤ order)%nat → Z.abs (acc_at m n).1 ≤ 2 ^ 40 ∧ Z.abs (acc_at m n).2 ≤ 67108864 * Z.of_nat n).
  { intros n Hn. unfold acc_at. cbn [fst snd].
    assert (Hc : ∀ j, (j < n)%nat → int16 (a !!! S j)) by (intros j Hj; apply (int16_total a (S j) Ha); lia).
    pose proof (total_bound (λ j, a !!! S j * hi (at0 (h m) j)) n 1073741824) as B1.
    pose proof (total_bound (λ j, a !!! S j * lo (at0 (h m) j)) n 67108864) as B2.
    assert (H1 : Z.abs (total (λ j, a !!! S j * hi (at0 (h m) j)) n) ≤ 1073741824 * Z.of_nat n).
    { apply B1. intros j Hj. by apply product_int16; [apply Hc|apply history_fits]. }
    assert (H2 : Z.abs (total (λ j, a !!! S j * lo (at0 (h m) j)) n) ≤ 67108864 * Z.of_nat n).
    { apply B2. intros j Hj. pose proof (Hc j Hj). pose proof (lo_range (at0 (h m) j)). rewrite Z.abs_mul. unfold int16 in *. nia. }
    pose proof (Hx m). unfold int16 in *. change (2 ^ 40) with 1099511627776. lia. }
  destruct (Hb k ltac:(lia)) as [B1 B2]. destruct (Hb (S k) ltac:(lia)) as [B3 B4].
  change (2 ^ 40) with 1099511627776 in *.
  rewrite (proj1 (product_int16 _ _ I (history_fits m k HN))).
  assert (Hl : Z.abs (a !!! S k * lo (at0 (h m) k)) ≤ 67108864).
  { pose proof (lo_range (at0 (h m) k)). rewrite Z.abs_mul. unfold int16 in *. nia. }
  rewrite (s32_id (a !!! S k * _)) by (unfold int32; lia).
  assert (E1 : (acc_at m (S k)).1 = (acc_at m k).1 - a !!! S k * hi (at0 (h m) k)) by
    (unfold acc_at; cbn [fst]; rewrite total_S; lia).
  assert (E2 : (acc_at m (S k)).2 = (acc_at m k).2 - a !!! S k * lo (at0 (h m) k)) by
    (unfold acc_at; cbn [snd]; rewrite total_S; lia).
  rewrite <- E1, <- E2. split; [apply s64_small; lia|apply s32_id; unfold int32; lia].
Qed.

Lemma new_terms_ok m i stop st : (m + i ≤ N)%nat → outputs_ok m i st → (stop - 1 ≤ i)%nat → (stop - 1 ≤ order)%nat →
  new_terms a (filtered st) (filtered_low st) i stop (acc_at (m + i) 0) = Some (acc_at (m + i) (stop - 1)).
Proof using Ha Hlen Horder Hx Hfit.
  intros HN [Hh Hl] Hi Ho. unfold new_terms.
  enough (H : wp (for_loop (stop - 1) 1 _ (acc_at (m + i) 0)) (λ s, s = acc_at (m + i) (stop - 1)))
    by (apply wp_exists in H as (s & E & ->); exact E).
  apply (wp_for (λ j s, s = acc_at (m + i) (j - 1))); [done| |].
  2: { intros s ->. f_equal. lia. }
  intros j s Hj ->. destruct (acc_at (m + i) (j - 1)) as [o ol] eqn:E.
  destruct (acc_step (m + i) (j - 1) HN ltac:(lia)) as (Ea & S1 & S2). rewrite E in S1, S2. cbn [fst snd] in S1, S2.
  cbv zeta. rewrite (proj2 (Z.leb_le 0 _)) by lia. cbn [dcheck mbind option_bind].
  replace (S (j - 1)) with j in * by lia. rewrite Ea. cbn [mbind option_bind].
  unfold rdz. rewrite (proj2 (Z.leb_le 0 _)) by lia. replace (Z.to_nat (Z.of_nat i - Z.of_nat j)) with (i - j)%nat by lia.
  rewrite Hh, Hl by lia. cbn [mbind option_bind wp].
  assert (Ey : y (m + (i - j)) = at0 (h (m + i)) (j - 1)).
  { replace (m + i)%nat with (m + (i - j) + S (j - 1))%nat by lia. by rewrite history_total. }
  rewrite Ey, S1, S2. replace (S j - 1)%nat with j by lia. by destruct (acc_at (m + i) j).
Qed.

Lemma old_terms_ok m i st : (m + i ≤ N)%nat → state_ok m st → (i ≤ order)%nat →
  old_terms a (state st) (state_low st) i (S order) order (acc_at (m + i) i) = Some (acc_at (m + i) order).
Proof using Ha Hlen Horder Hx Hfit.
  intros HN [_ Hh Hl] Hi. unfold old_terms.
  enough (H : wp (for_loop (S order - (i + 1)) (i + 1) _ (acc_at (m + i) i)) (λ s, s = acc_at (m + i) order))
    by (apply wp_exists in H as (s & E & ->); exact E).
  apply (wp_for (λ j s, s = acc_at (m + i) (j - 1))); [f_equal; lia| |].
  2: { intros s ->. f_equal. lia. }
  intros j s Hj ->. destruct (acc_at (m + i) (j - 1)) as [o ol] eqn:E.
  destruct (acc_step (m + i) (j - 1) HN ltac:(lia)) as (Ea & S1 & S2). rewrite E in S1, S2. cbn [fst snd] in S1, S2.
  cbv zeta. replace (S (j - 1)) with j in * by lia. rewrite Ea. cbn [mbind option_bind].
  unfold rdz. rewrite (proj2 (Z.leb_le 0 _)) by lia.
  replace (Z.to_nat (Z.of_nat order - 1 - (Z.of_nat j - Z.of_nat (i + 1)))) with (order - 1 - (j - 1 - i))%nat by lia.
  rewrite Hh, Hl by lia. cbn [mbind option_bind wp].
  rewrite <- (history_drop a order x m i (j - 1 - i)). replace (i + (j - 1 - i))%nat with (j - 1)%nat by lia.
  rewrite S1, S2. replace (S j - 1)%nat with j by lia. by destruct (acc_at (m + i) j).
Qed.

Lemma acc_output m : (acc_at m order).1 + (acc_at m order).2 / 4096 = y m.
Proof. unfold response. rewrite output_words. unfold acc_at. cbn [fst snd]. lia. Qed.

(** One sample. *)
Lemma filter_sample_ok m i xs st : (m + i < N)%nat → state_ok m st → outputs_ok m i st → xs !! i = Some (x (m + i)%nat) →
  (i < length (filtered st))%nat → (i < length (filtered_low st))%nat →
  wp (filter_sample a (S order) xs order i st) (λ st', state_ok m st' ∧ outputs_ok m (S i) st' ∧
    length (filtered st') = length (filtered st) ∧ length (filtered_low st') = length (filtered_low st)).
Proof using Ha Hlen Horder Hx Hfit.
  intros HN Hs Ho Ex Lf Ll. unfold filter_sample. rewrite Ex. cbn [mbind option_bind]. cbv zeta.
  change (1 <<i 12) with 4096. rewrite (s32_id (x (m + i)%nat * 4096)) by (pose proof (Hx (m + i)%nat); unfold int16, int32 in *; lia).
  assert (E0 : (x (m + i)%nat * 4096, 0) = acc_at (m + i) 0) by (unfold acc_at; cbn; f_equal; lia).
  rewrite E0, new_terms_ok by (done || lia || (destruct (Nat.ltb_spec i (S order)); lia)). cbn [mbind option_bind].
  assert (Eo : old_terms a (state st) (state_low st) i (S order) order
      (acc_at (m + i) ((if (i <? S order)%nat then i + 1 else S order) - 1)) = Some (acc_at (m + i) order)).
  { destruct (Nat.ltb_spec i (S order)).
    - replace (i + 1 - 1)%nat with i by lia. by apply old_terms_ok; [lia| |lia].
    - unfold old_terms. replace (S order - (i + 1))%nat with 0%nat by lia. cbn [for_loop]. do 2 f_equal. lia. }
  rewrite Eo. cbn [mbind option_bind]. pose proof (acc_output (m + i)) as Ey. destruct (acc_at (m + i) order) as [o ol].
  cbn [fst snd] in Ey. rewrite Z.shiftr_div_pow2 by lia. change (2 ^ 12) with 4096. rewrite Ey.
  pose proof (Hfit (m + i)%nat HN) as Hf. set (v := y (m + i)) in *.
  assert (Hv : -134219776 ≤ v ≤ 134215679).
  { unfold int16, hi in Hf. Z.to_euclidean_division_equations; lia. }
  rewrite !(s64_small v), (s64_small (v + 2048)) by lia.
  rewrite Z.shiftr_div_pow2 by lia. change (2 ^ 12) with 4096. change ((v + 2048) / 4096) with (hi v).
  rewrite (s16_id (hi v)) by done. rewrite (s32_id (hi v * 4096)) by (unfold int16, int32 in *; lia).
  replace (v - hi v * 4096) with (lo v) by (unfold lo; lia). pose proof (lo_range v) as Hlo.
  rewrite s64_small by lia. rewrite s16_id by (unfold int16; lia).
  rewrite wr_lt by done. cbn [mbind option_bind]. rewrite wr_lt by done. cbn [mbind option_bind wp filtered filtered_low].
  rewrite !length_insert. split_and!; [by destruct Hs; split| |done|done].
  destruct Ho as [H1 H2]. split; cbn [filtered filtered_low]; intros k Hk;
    (destruct (decide (k = i)) as [->|]; [by rewrite list_lookup_insert_eq by done|
      rewrite list_lookup_insert_ne by done; (apply H1 || apply H2); lia]).
Qed.

(** The samples of a block. *)
Lemma block_ok m n xs st : (m + n ≤ N)%nat → state_ok m st → (∀ i, (i < n)%nat → xs !! i = Some (x (m + i)%nat)) →
  (n ≤ length (filtered st))%nat → (n ≤ length (filtered_low st))%nat →
  wp (for_loop n 0 (filter_sample a (S order) xs order) st) (λ st', state_ok m st' ∧ outputs_ok m n st' ∧
    length (filtered st') = length (filtered st) ∧ length (filtered_low st') = length (filtered_low st)).
Proof using Ha Hlen Horder Hx Hfit.
  intros HN Hs Hxs Hf Hl.
  apply (wp_for (λ i st', state_ok m st' ∧ outputs_ok m i st' ∧
    length (filtered st') = length (filtered st) ∧ length (filtered_low st') = length (filtered_low st))).
  - split_and!; [done| |done|done]. split; intros; lia.
  - intros i st' Hi (Hs' & Ho' & Lf & Ll).
    refine (wp_mono _ _ _ (filter_sample_ok m i xs st' ltac:(lia) Hs' Ho' (Hxs i ltac:(lia)) ltac:(lia) ltac:(lia)) _).
    intros st2 (? & ? & ? & ?). split_and!; done || lia.
  - intros st' H. exact H.
Qed.

(** The new state from the outputs and the old one. *)
Lemma next_state m n st : outputs_ok m n st → state_ok m st → ∀ d, (d < order)%nat →
  Some (hi (at0 (h (m + n)) d)) = (if (d <? n)%nat then filtered st !! (n - 1 - d)%nat else state st !! (order - 1 - (d - n))%nat) ∧
  Some (lo (at0 (h (m + n)) d)) = (if (d <? n)%nat then filtered_low st !! (n - 1 - d)%nat else state_low st !! (order - 1 - (d - n))%nat).
Proof.
  intros [H1 H2] [_ H3 H4] d Hd. destruct (Nat.ltb_spec d n).
  - rewrite H1, H2 by lia. replace (m + n)%nat with (m + (n - 1 - d) + S d)%nat by lia. by rewrite history_total.
  - rewrite H3, H4 by lia. replace d with (n + (d - n))%nat at 1 3 by lia. by rewrite history_drop.
Qed.

Lemma FilterAR_ok m n xs st : (m + n ≤ N)%nat → state_ok m st → (∀ i, (i < n)%nat → xs !! i = Some (x (m + i)%nat)) →
  (n ≤ length (filtered st))%nat → (n ≤ length (filtered_low st))%nat →
  wp (WebRtcSpl_FilterAR a (S order) xs n order st) (λ '(r, st'), r = n ∧ state_ok (m + n) st' ∧ outputs_ok m n st' ∧
    length (filtered st') = length (filtered st) ∧ length (filtered_low st') = length (filtered_low st)).
Proof using Ha Hlen Horder Hx Hfit.
  intros HN Hs Hxs Hf Hl. unfold WebRtcSpl_FilterAR. apply wp_bind.
  refine (wp_mono _ _ _ (block_ok m n xs st HN Hs Hxs Hf Hl) _). intros st' (Hs' & Ho' & Lf & Ll).
  pose proof (next_state m n st' Ho' Hs') as Hnext. destruct Hs' as [[L1 L2] Hh' Hl'].
  destruct (Nat.leb_spec order n) as [Hle|Hgt].
  - replace (S order - 1)%nat with order by lia. apply wp_bind.
    refine (wp_mono _ _ _ (copy_end _ _ _ _ _ L1) _); [lia|]. intros s1 [M1 C1]. apply wp_bind.
    refine (wp_mono _ _ _ (copy_end _ _ _ _ _ L2) _); [lia|]. intros s2 [M2 C2]. cbn [wp filtered filtered_low].
    split_and!; [done| |by destruct Ho'; split|done|done].
    split; cbn [state state_low]; [done| |]; intros d Hd; destruct (Hnext d Hd) as [E1 E2];
      rewrite (proj2 (Nat.ltb_lt d n)) in E1, E2 by lia; [rewrite E1; by apply C1|rewrite E2; by apply C2].
  - apply wp_bind. refine (wp_mono _ _ _ (shift_down (order - n) n _ _ _ _) _); [lia|lia|].
    intros [s1 s2] (M1 & M2 & Hd). apply wp_bind.
    refine (wp_mono _ _ _ (append_words (order - n) n (filtered st') (filtered_low st') s1 s2 _ _ _ _) _); [lia|lia|lia|lia|].
    intros [t1 t2] (N1 & N2 & Hk & Ha'). cbn [wp filtered filtered_low].
    split_and!; [done| |by destruct Ho'; split|done|done].
    assert (Hw : ∀ d, (d < order)%nat →
      t1 !! (order - 1 - d)%nat = Some (hi (at0 (h (m + n)) d)) ∧ t2 !! (order - 1 - d)%nat = Some (lo (at0 (h (m + n)) d))).
    { intros d Hdo. destruct (Hnext d Hdo) as [-> ->]. destruct (Nat.ltb_spec d n).
      - destruct (Ha' (n - 1 - d)%nat ltac:(lia)) as [A1 A2].
        replace (order - n + (n - 1 - d))%nat with (order - 1 - d)%nat in A1, A2 by lia. done.
      - destruct (Hk (order - 1 - d)%nat ltac:(lia)) as [-> ->]. destruct (Hd (order - 1 - d)%nat ltac:(lia)) as [-> ->].
        split; f_equal; lia. }
    split; cbn [state state_low]; [lia| |]; intros d Hdo; by apply Hw.
Qed.

End block.

(** ** Sessions *)

(** The two words of all outputs of a session of blocks; the output arrays are used again. *)
Fixpoint run_blocks (a : list Z) (order : nat) (st : ArState) (blocks : list (list Z)) : option (list Z * list Z) :=
  match blocks with
  | [] => Some ([], [])
  | b :: blocks =>
      '(n, st) ← WebRtcSpl_FilterAR a (S order) b (length b) order st;
      '(high, low) ← run_blocks a order st blocks;
      Some (take n (filtered st) ++ high, take n (filtered_low st) ++ low)
  end.

Definition sampled (l : list Z) (n : nat) : Z := at0 l n.

Lemma take_words l n (f : nat → Z) : (n ≤ length l)%nat → (∀ k, (k < n)%nat → l !! k = Some (f k)) →
  take n l = map f (seq 0 n).
Proof.
  intros Hl H. apply list_eq. intros i. destruct (Nat.lt_ge_cases i n).
  - rewrite lookup_take_lt, H by done. symmetry. by rewrite list_lookup_fmap, lookup_seq_lt by done.
  - rewrite lookup_take_ge by done. symmetry. apply lookup_ge_None_2. by rewrite length_map, length_seq.
Qed.

Lemma map_shift {B} (f : nat → B) m n : map (λ k, f (m + k)%nat) (seq 0 n) = map f (seq m n).
Proof.
  revert m. induction n as [|n IH]; intros m; [done|]. cbn [seq map]. rewrite Nat.add_0_r. f_equal.
  rewrite <- IH, <- seq_shift, map_map. apply map_ext. intros k. f_equal. lia.
Qed.

Lemma run_blocks_ok a order x N : Forall int16 a → length a = S order → (order ≤ 31)%nat → (∀ n, int16 (x n)) →
  (∀ n, (n < N)%nat → int16 (hi (response a order x n))) →
  ∀ blocks m st, (m + length (concat blocks) ≤ N)%nat → state_ok a order x m st →
  Forall (λ b, length b ≤ length (filtered st) ∧ length b ≤ length (filtered_low st))%nat blocks →
  (∀ i, (i < length (concat blocks))%nat → concat blocks !! i = Some (x (m + i)%nat)) →
  run_blocks a order st blocks =
    Some (map (λ n, hi (response a order x n)) (seq m (length (concat blocks))),
          map (λ n, lo (response a order x n)) (seq m (length (concat blocks)))).
Proof.
  intros Ha Hlen Ho Hx Hfit blocks. induction blocks as [|b blocks IH]; intros m st HN Hs Hb Hc; [done|].
  cbn [run_blocks concat] in *. rewrite length_app in *. apply Forall_cons_1 in Hb as [[Hb1 Hb2] Hb].
  pose proof (FilterAR_ok a order x Ha Hlen Ho Hx N Hfit m (length b) b st ltac:(lia) Hs) as H.
  destruct (WebRtcSpl_FilterAR a (S order) b (length b) order st) as [[n st']|].
  2: { exfalso. apply H; [|done|done]. intros i Hi. specialize (Hc i ltac:(lia)). by rewrite lookup_app_l in Hc by lia. }
  destruct H as (-> & Hs' & [O1 O2] & L1 & L2); [|done|done|].
  { intros i Hi. specialize (Hc i ltac:(lia)). by rewrite lookup_app_l in Hc by lia. }
  cbn [mbind option_bind]. rewrite (IH (m + length b)%nat st' ltac:(lia) Hs').
  - cbn [mbind option_bind]. rewrite (take_words (filtered st') (length b) _ ltac:(lia) O1),
      (take_words (filtered_low st') (length b) _ ltac:(lia) O2).
    rewrite (map_shift (λ n, hi (response a order x n))), (map_shift (λ n, lo (response a order x n))).
    by rewrite seq_app, !map_app.
  - rewrite L1, L2. exact Hb.
  - intros i Hi. specialize (Hc (length b + i)%nat ltac:(lia)). rewrite lookup_app_r in Hc by lia.
    replace (length b + i - length b)%nat with i in Hc by lia. rewrite Hc. do 2 f_equal. lia.
Qed.

(** C24: The two-word auto-regressive filter. From a cleared state, however a signal of 16-bit samples is
    cut into blocks, shorter than the state or longer, the two words of all outputs are
    the rounded integers and the remainders of one difference equation in Q12 on the
    whole signal: 4096 times the sample plus the floor of the weighted sum of the outputs
    before it. This holds for up to 31 coefficients besides the first, as long as the
    equation's own values fit in 16 bits. *)
Theorem FilterAR_stream (a : list Z) (order : nat) (blocks : list (list Z)) (out out_low : list Z) :
  Forall int16 a → length a = S order → (order ≤ 31)%nat → Forall (Forall int16) blocks →
  Forall (λ b, length b ≤ length out ∧ length b ≤ length out_low)%nat blocks →
  let x := sampled (concat blocks) in
  let y := response a order x in
  (∀ n, (n < length (concat blocks))%nat → int16 (hi (y n))) →
  run_blocks a order (mkArState (replicate order 0) (replicate order 0) out out_low) blocks =
    Some (map (λ n, hi (y n)) (seq 0 (length (concat blocks))), map (λ n, lo (y n)) (seq 0 (length (concat blocks)))).
Proof.
  intros Ha Hlen Ho Hb Hl x y Hfit. apply (run_blocks_ok a order x (length (concat blocks)) Ha Hlen Ho); try done.
  - intros n. unfold x, sampled, at0. destruct (concat blocks !! n) as [z|] eqn:E; cbn.
    + assert (Hall : Forall int16 (concat blocks)) by (by apply Forall_concat). exact (Forall_lookup_1 _ _ _ _ Hall E).
    + unfold int16. lia.
  - split; cbn [state state_low]; [by rewrite length_replicate| |]; intros d Hd; rewrite lookup_replicate_2 by lia;
      destruct d; reflexivity.
  - intros i Hi. unfold x, sampled, at0. rewrite Nat.add_0_l. by destruct (lookup_lt_is_Some_2 _ _ Hi) as [z ->].
Qed.

Definition example_coefficients : list Z := [4096; -6000; 3000; 77].
Definition example_blocks : list (list Z) := [[1000; -500]; [3; 4; 5; 6; 7]; [-20000]].

Lemma FilterAR_stream_witness :
  let y := response example_coefficients 3 (sampled (concat example_blocks)) in
  run_blocks example_coefficients 3 (mkArState (replicate 3 0) (replicate 3 0) (replicate 5 0) (replicate 5 0)) example_blocks =
    Some (map (λ n, hi (y n)) (seq 0 8), map (λ n, lo (y n)) (seq 0 8)) ∧
  map (λ n, hi (y n)) (seq 0 8) = [1000; 965; 684; 280; -103; -364; -455; -20399].
Proof.
  cbv zeta. split; [|vm_compute; reflexivity].
  apply (FilterAR_stream example_coefficients 3 example_blocks (replicate 5 0) (replicate 5 0));
    [repeat (apply Forall_cons_2; [unfold int16; lia|]); apply Forall_nil_2|done|lia| | |].
  - repeat (apply Forall_cons_2; [repeat (apply Forall_cons_2; [unfold int16; lia|]); apply Forall_nil_2|]). apply Forall_nil_2.
  - repeat (apply Forall_cons_2; [cbn; lia|]). apply Forall_nil_2.
  - intros n Hn. change (length (concat example_blocks)) with 8%nat in Hn.
    do 8 (destruct n as [|n]; [vm_compute; split; discriminate|]). lia.
Defined.

(** A state with more words than there are coefficients: a long block leaves its last outputs
    at the start of the state, the next block reads them from the end. The integrator
    forgets its 2. *)
Example long_state :
  ('(_, st) ← WebRtcSpl_FilterAR [4096; -4096] 2 [1; 1] 2 2 (mkArState [0; 0] [0; 0] [0; 0] [0; 0]);
   '(_, st') ← WebRtcSpl_FilterAR [4096; -4096] 2 [0] 1 2 st;
   Some (filtered st, filtered st')) = Some ([1; 2], [0; 2]).
Proof. vm_compute. reflexivity. Qed.

End FilterAr.
