(* ===== verification/Lpc.v ===== *)
(** * Linear prediction (common_audio/signal_processing: auto_corr_to_refl_coef.c,
    refl_coef_to_lpc.c, lpc_to_refl_coef.c, sqrt_of_one_minus_x_squared.c)

    The conversions between auto-correlation values, reflection coefficients and prediction
    coefficients in 16-bit arithmetic. The code works in place with moving pointers; the
    theorems compare it with the recursions on lists. *)

From S2P Require Import Prelude SplInl Sqrt Filters.
Import SplInl Sqrt Filters.

Module Lpc.

Definition WEBRTC_SPL_MAX_LPC_ORDER : nat := 14.

(** WEBRTC_SPL_ABS_W16 *)
Definition WEBRTC_SPL_ABS_W16 (a : Z) : Z := if 0 <=? a then a else - a.

(** ** auto_corr_to_refl_coef.c *)

(** [while (i--)] with [i = 15]: the coefficient and what is left of the numerator. *)
Definition divide_step (L_den : Z) (s : Z * Z) : Z * Z :=
  let '(K, L_num) := s in
  let K := s16 (K <<i 1) in
  let L_num := L_num <<i 1 in
  if L_den <=? L_num then (s16 (K + 1), L_num -i L_den) else (K, L_num).

Definition divide (num den : Z) : Z := (Nat.iter 15 (divide_step den) (0, num)).1.

(** The reflection coefficient from the first two values of P, when it is in range. *)
Definition coefficient (P p1 : Z) : Z :=
  let tmp := s16 (WEBRTC_SPL_ABS_W16 p1) in
  if tmp =? 0 then 0
  else
    let K := divide tmp P in
    if 0 <? p1 then s16 (- K) else K.

(** The product in Q15, rounded. *)
Definition scale (x K : Z) : Z := s16 ((x *i K +i 16384) >>i 15).

(** The values of P and W after one step of the recursion. *)
Definition schur_step (P W : list Z) (K : Z) (use_order n : nat) : option (list Z * list Z) :=
  p0 ← P !! 0%nat;
  p1 ← P !! 1%nat;
  P ← wr P 0 (WebRtcSpl_AddSatW16 p0 (scale p1 K));
  for_loop (use_order - n) 1 (λ i '(P, W),
    w ← W !! i;
    p ← P !! (i + 1)%nat;
    P ← wr P i (WebRtcSpl_AddSatW16 p (scale w K));
    p ← P !! (i + 1)%nat;
    w ← W !! i;
    W ← wr W i (WebRtcSpl_AddSatW16 w (scale p K));
    Some (P, W)) (P, W).

(** The loop over the coefficients; [count] is their number from [n] on. *)
Fixpoint schur_loop (count n use_order : nat) (P W K : list Z) : option (list Z) :=
  match count with
  | O => Some K
  | S count =>
      p0 ← P !! 0%nat;
      p1 ← P !! 1%nat;
      if p0 <? s16 (WEBRTC_SPL_ABS_W16 p1) then
        for_loop (use_order - n + 1) n (λ i K, wr K (i - 1) 0) K
      else
        let k := coefficient p0 p1 in
        K ← wr K (n - 1) k;
        if (n =? use_order)%nat then Some K
        else
          '(P, W) ← schur_step P W k use_order n;
          schur_loop count (n + 1) use_order P W K
  end.

(** [ACF], [P0] and [W0]: the contents of the local arrays. *)
Definition WebRtcSpl_AutoCorrToReflCoef (ACF P0 W0 : list Z) (R : list Z) (use_order : nat) (K : list Z)
  : option (list Z) :=
  r0 ← R !! 0%nat;
  let tmp := WebRtcSpl_NormW32 r0 in
  x ← shl32 r0 tmp;
  let a := s16 (x >>i 16) in
  ACF ← wr ACF 0 a;
  P ← wr P0 0 a;
  '(ACF, P, W) ← for_loop use_order 1 (λ i '(ACF, P, W),
    r ← R !! i;
    x ← shl32 r tmp;
    let a := s16 (x >>i 16) in
    ACF ← wr ACF i a;
    W ← wr W i a;
    P ← wr P i a;
    Some (ACF, P, W)) (ACF, P, W0);
  schur_loop use_order 1 use_order P W K.

(** ** refl_coef_to_lpc.c *)

(** [any]: the contents of the local array. *)
Definition WebRtcSpl_ReflCoefToLpc (any k : list Z) (use_order : nat) (a : list Z) : option (list Z) :=
  a ← wr a 0 4096;
  any ← wr any 0 4096;
  k0 ← k !! 0%nat;
  a ← wr a 1 (s16 (k0 >>i 3));
  '(a, _) ← for_loop (use_order - 1) 1 (λ m '(a, any),
    kptr ← k !! m;
    any ← wr any (m + 1) (s16 (kptr >>i 3));
    any ← for_loop m 0 (λ i any,
      aptr ← a !! (1 + i)%nat;
      aptr2 ← a !! (m - i)%nat;
      wr any (1 + i) (s16 (aptr +i s16 ((aptr2 *i kptr) >>i 15)))) any;
    a ← for_loop (m + 2) 0 (λ i a,
      x ← any !! i;
      wr a i x) a;
    Some (a, any)) (a, any);
  Some a.

(** ** lpc_to_refl_coef.c *)

Definition SPL_LPC_TO_REFL_COEF_MAX_AR_MODEL_ORDER : nat := 50.

(** The division of WebRtcSpl_DivW32W16, undefined where the quotient is not an int. *)
Definition div_int (num den : Z) : option Z :=
  if (num =? -2147483648) && (den =? -1) then None else Some (WebRtcSpl_DivW32W16 num den).

(** The prediction and the reflection coefficients; [tmp32] is the local array. *)
Definition WebRtcSpl_LpcToReflCoef (tmp32 a16 : list Z) (use_order : nat) (k16 : list Z) : option (list Z * list Z) :=
  x ← a16 !! use_order;
  k16 ← wrz k16 (Z.of_nat use_order - 1) (s16 (x <<i 3));
  '(a16, k16, _) ← for_loop (use_order - 1) 0 (λ d '(a16, k16, tmp32),
    let m := (use_order - 1 - d)%nat in
    km ← k16 !! m;
    let tmp_inv_denom32 := 1073741823 -i km *i km in
    let tmp_inv_denom16 := s16 (tmp_inv_denom32 >>i 15) in
    tmp32 ← for_loop m 1 (λ k tmp32,
      x ← a16 !! k;
      y ← a16 !! (m - k + 1)%nat;
      q ← div_int ((x <<i 16) -i ((km *i y) <<i 1)) tmp_inv_denom16;
      wr tmp32 k q) tmp32;
    a16 ← for_loop (m - 1) 1 (λ k a16,
      t ← tmp32 !! k;
      wr a16 k (s16 (t >>i 1))) a16;
    t ← tmp32 !! m;
    let t := WEBRTC_SPL_SAT 8191 t (-8191) in
    tmp32 ← wr tmp32 m t;
    k16 ← wr k16 (m - 1) (s16 (t <<i 2));
    Some (a16, k16, tmp32)) (a16, k16, tmp32);
  Some (a16, k16).

(** ** sqrt_of_one_minus_x_squared.c *)

Definition WebRtcSpl_SqrtOfOneMinusXSquared (xQ15 : list Z) (vector_length : nat) (yQ15 : list Z)
  : option (list Z) :=
  for_loop vector_length 0 (λ m yQ15,
    tmp ← xQ15 !! m;
    let sq := tmp *i tmp in
    let sq := 1073741823 -i sq in
    sq ← WebRtcSpl_Sqrt sq;
    wr yQ15 m (s16 sq)) yQ15.

(** ** The division *)

Lemma divide_steps num den n : 0 ≤ num ≤ den → 0 < den ≤ 32767 → (n ≤ 15)%nat →
  let '(K, L) := Nat.iter n (divide_step den) (0, num) in
  0 ≤ K ≤ 2 ^ Z.of_nat n - 1 ∧ K * den + L = 2 ^ Z.of_nat n * num ∧ 0 ≤ L ≤ den ∧ (num < den → L < den).
Proof.
  intros Hn Hd. induction n as [|n IH]; intros Hle; [cbn; lia|]. cbn [Nat.iter nat_rect].
  specialize (IH ltac:(lia)). unfold Nat.iter in IH. destruct (nat_rect _ _ _ n) as [K L].
  destruct IH as (HK & He & HL & Hs).
  rewrite Nat2Z.inj_succ, Z.pow_succ_r by lia.
  assert (Hp : 0 < 2 ^ Z.of_nat n ≤ 2 ^ 14) by (split; [apply Z.pow_pos_nonneg|apply Z.pow_le_mono_r]; lia).
  change (2 ^ 14) with 16384 in Hp. unfold divide_step. rewrite !Z.shiftl_mul_pow2 by lia. change (2 ^ 1) with 2.
  rewrite (s32_id (K * 2)), (s32_id (L * 2)) by (unfold int32; lia). rewrite (s16_id (K * 2)) by (unfold int16; lia).
  destruct (Z.leb_spec den (L * 2)).
  - rewrite s16_id, s32_id by (unfold int16, int32; lia). split_and!; lia.
  - split_and!; lia.
Qed.

Lemma divide_quotient num den : 0 ≤ num ≤ den → 0 < den ≤ 32767 → divide num den = Z.min 32767 (32768 * num / den).
Proof.
  intros Hn Hd. unfold divide. pose proof (divide_steps num den 15 Hn Hd ltac:(lia)) as H.
  destruct (Nat.iter 15 (divide_step den) (0, num)) as [K L]. cbn [fst].
  change (2 ^ Z.of_nat 15) with 32768 in H. destruct H as (HK & He & HL & Hs).
  destruct (Z.eq_dec num den) as [->|Hne].
  - replace (32768 * den / den) with 32768 by (by rewrite Z.div_mul by lia). nia.
  - rewrite <- He, Z.div_add_l, (Z.div_small L den) by lia. lia.
Qed.

(** The coefficient is minus the quotient of the first two values, in Q15 and rounded towards
    zero. *)
Lemma coefficient_quotient P p1 : Z.abs p1 ≤ P → 0 ≤ P ≤ 32767 →
  coefficient P p1 = - Z.sgn p1 * Z.min 32767 (32768 * Z.abs p1 / P).
Proof.
  intros Hp HP. unfold coefficient, WEBRTC_SPL_ABS_W16.
  assert (Ea : (if 0 <=? p1 then p1 else - p1) = Z.abs p1) by (destruct (Z.leb_spec 0 p1); lia). rewrite Ea.
  rewrite s16_id by (unfold int16; lia). cbv zeta. destruct (Z.eqb_spec (Z.abs p1) 0) as [E|E].
  { by replace p1 with 0 by lia. }
  rewrite divide_quotient by lia. set (q := Z.min _ _).
  assert (0 ≤ q ≤ 32767).
  { unfold q. assert (0 ≤ 32768 * Z.abs p1 / P) by (apply Z.div_pos; lia). lia. }
  destruct (Z.ltb_spec 0 p1).
  - rewrite Z.sgn_pos, s16_id by (unfold int16; lia). lia.
  - rewrite Z.sgn_neg by lia. lia.
Qed.

(** ** The recursion of Schur on lists *)

(** P[0], P[1..] and W[1..]. *)
Fixpoint schur (n : nat) (p0 : Z) (ps ws : list Z) : list Z :=
  match n, ps with
  | S n, p1 :: ps =>
      if p0 <? s16 (WEBRTC_SPL_ABS_W16 p1) then replicate (S n) 0
      else
        let k := coefficient p0 p1 in
        k :: schur n (WebRtcSpl_AddSatW16 p0 (scale p1 k))
               (zip_with (λ p w, WebRtcSpl_AddSatW16 p (scale w k)) ps ws)
               (zip_with (λ p w, WebRtcSpl_AddSatW16 w (scale p k)) ps ws)
  | _, _ => []
  end.

(** The cells from 1 on hold a list. *)
Definition from_one (m l : list Z) : Prop := ∀ i, (i < length l)%nat → m !! S i = l !! i.

Lemma schur_step_ok P W k use_order n p0 p1 ps ws : length ps = (use_order - n)%nat → length ws = S (length ps) →
  P !! 0%nat = Some p0 → from_one P (p1 :: ps) → from_one W ws →
  wp (schur_step P W k use_order n) (λ '(P', W'), length P' = length P ∧ length W' = length W ∧
    P' !! 0%nat = Some (WebRtcSpl_AddSatW16 p0 (scale p1 k)) ∧
    from_one P' (zip_with (λ p w, WebRtcSpl_AddSatW16 p (scale w k)) ps ws) ∧
    from_one W' (zip_with (λ p w, WebRtcSpl_AddSatW16 w (scale p k)) ps ws)).
Proof.
  intros Hc Hw H0 HP HW. unfold schur_step. rewrite H0.
  assert (H1 : P !! 1%nat = Some p1) by (apply (HP 0%nat); cbn; lia). rewrite H1. cbn [mbind option_bind].
  assert (HlP : ∀ i, (i < length ps)%nat → ∃ p w, P !! S (S i) = Some p ∧ ps !! i = Some p ∧
    W !! S i = Some w ∧ ws !! i = Some w).
  { intros i Hi. destruct (lookup_lt_is_Some_2 ps i Hi) as [p Ep].
    destruct (lookup_lt_is_Some_2 ws i ltac:(lia)) as [w Ew]. exists p, w.
    rewrite (HP (S i)), (HW i) by (cbn; lia). done. }
  rewrite wr_lt by (apply lookup_lt_Some in H0; done). cbn [mbind option_bind].
  set (P1 := <[0%nat := _]> P). set (f := λ p w, WebRtcSpl_AddSatW16 p (scale w k)).
  set (g := λ p w, WebRtcSpl_AddSatW16 w (scale p k)).
  apply (wp_for (λ i '(P', W'), length P' = length P ∧ length W' = length W ∧ P' !! 0%nat = P1 !! 0%nat ∧
    (∀ j, (S j < i)%nat → P' !! S j = zip_with f ps ws !! j ∧ W' !! S j = zip_with g ps ws !! j) ∧
    (∀ j, (i ≤ j)%nat → P' !! j = P !! j ∧ W' !! j = W !! j))).
  - unfold P1. rewrite length_insert. split_and!; [done|done|done|lia|].
    intros j Hj. by rewrite list_lookup_insert_ne by lia.
  - intros i [P' W'] Hi (LP & LW & E0 & Hd & Hr). destruct i as [|i]; [lia|].
    destruct (HlP i ltac:(lia)) as (p & w & EP & Ep & EW & Ew).
    rewrite Nat.add_1_r. destruct (Hr (S i) ltac:(lia)) as [_ ->]. destruct (Hr (S (S i)) ltac:(lia)) as [-> _].
    rewrite EW, EP. cbn [mbind option_bind].
    assert (HiP : (S (S i) < length P)%nat) by (by apply lookup_lt_Some in EP).
    assert (HiW : (S i < length W)%nat) by (by apply lookup_lt_Some in EW).
    rewrite wr_lt by lia. cbn [mbind option_bind]. rewrite list_lookup_insert_ne by lia.
    destruct (Hr (S (S i)) ltac:(lia)) as [-> _]. rewrite EP. cbn [mbind option_bind].
    rewrite wr_lt by lia. cbn [mbind option_bind wp].
    rewrite !length_insert. split_and!; [done|done|by rewrite list_lookup_insert_ne by lia| |].
    + intros j Hj. destruct (decide (j = i)) as [->|].
      * rewrite !list_lookup_insert_eq by lia. split; symmetry; apply lookup_zip_with_Some; by exists p, w.
      * rewrite !list_lookup_insert_ne by lia. apply Hd. lia.
    + intros j Hj. rewrite !list_lookup_insert_ne by lia. apply Hr. lia.
  - intros [P' W'] (LP & LW & E0 & Hd & _). split_and!; [done|done| | |].
    + rewrite E0. unfold P1. rewrite list_lookup_insert_eq; [done|]. by apply lookup_lt_Some in H0.
    + intros j Hj. rewrite length_zip_with in Hj. apply Hd. lia.
    + intros j Hj. rewrite length_zip_with in Hj. apply Hd. lia.
Qed.

Lemma zero_loop n c K : (n + c ≤ length K)%nat →
  wp (for_loop c (S n) (λ i K, wr K (i - 1) 0) K) (λ K', length K' = length K ∧
    (∀ i, (i < c)%nat → K' !! (n + i)%nat = Some 0) ∧ (∀ p, (p < n ∨ n + c ≤ p)%nat → K' !! p = K !! p)).
Proof.
  intros Hl. apply (wp_for (λ i K', length K' = length K ∧ (∀ j, (n + j < i - 1)%nat → K' !! (n + j)%nat = Some 0) ∧
    (∀ p, (p < n ∨ i - 1 ≤ p)%nat → K' !! p = K !! p))).
  - split_and!; [done|lia|done].
  - intros i K' Hi (L & Hz & Hr). rewrite wr_lt by lia. cbn [wp]. rewrite length_insert. split_and!; [done| |].
    + intros j Hj. destruct (decide (n + j = i - 1)%nat) as [->|]; [by rewrite list_lookup_insert_eq by lia|].
      rewrite list_lookup_insert_ne by lia. apply Hz. lia.
    + intros p Hp. rewrite list_lookup_insert_ne by lia. apply Hr. lia.
  - intros K' (L & Hz & Hr). split_and!; [done| |].
    + intros i Hi. apply Hz. lia.
    + intros p Hp. apply Hr. lia.
Qed.

Lemma schur_loop_ok use_order count : ∀ n P W K p0 ps ws, (n + count = use_order)%nat → length ps = count →
  length ws = count → P !! 0%nat = Some p0 → from_one P ps → from_one W ws → (use_order ≤ length K)%nat →
  wp (schur_loop count (S n) use_order P W K) (λ K', length K' = length K ∧
    (∀ i, (i < count)%nat → K' !! (n + i)%nat = schur count p0 ps ws !! i) ∧
    (∀ p, (p < n ∨ use_order ≤ p)%nat → K' !! p = K !! p)).
Proof.
  induction count as [|count IH]; intros n P W K p0 ps ws Hn Hps Hws H0 HP HW HK; cbn [schur_loop].
  { split_and!; [done|lia|done]. }
  destruct ps as [|p1 ps]; [done|]. cbn [length] in Hps.
  assert (H1 : P !! 1%nat = Some p1) by (apply (HP 0%nat); cbn; lia). rewrite H0, H1. cbn [mbind option_bind schur].
  destruct (p0 <? s16 (WEBRTC_SPL_ABS_W16 p1)) eqn:Eu.
  { replace (use_order - S n + 1)%nat with (S count) by lia.
    refine (wp_mono _ _ _ (zero_loop n (S count) K ltac:(lia)) _). intros K' (L & Hz & Hr). split_and!; [done| |].
    - intros i Hi. by rewrite Hz, lookup_replicate_2 by done.
    - intros p Hp. apply Hr. lia. }
  cbv zeta. set (k := coefficient p0 p1). replace (S n - 1)%nat with n by lia.
  rewrite wr_lt by lia. cbn [mbind option_bind]. destruct (Nat.eqb_spec (S n) use_order) as [E|E].
  { assert (count = 0)%nat as -> by lia. cbn [wp]. rewrite length_insert. split_and!; [done| |].
    - intros i Hi. assert (i = 0)%nat as -> by lia. rewrite Nat.add_0_r. by rewrite list_lookup_insert_eq by lia.
    - intros p Hp. by rewrite list_lookup_insert_ne by lia. }
  apply wp_bind. refine (wp_mono _ _ _ (schur_step_ok P W k use_order (S n) p0 p1 ps ws _ _ H0 HP HW) _); [lia|lia|].
  intros [P' W'] (LP & LW & H0' & HP' & HW'). replace (S n + 1)%nat with (S (S n)) by lia.
  refine (wp_mono _ _ _ (IH (S n) P' W' _ _ _ _ ltac:(lia) _ _ H0' HP' HW' _) _);
    [rewrite length_zip_with; lia|rewrite length_zip_with; lia|rewrite length_insert; lia|].
  intros K' (L & Hk & Hr). rewrite length_insert in L. split_and!; [done| |].
  - intros i Hi. destruct i as [|i].
    + rewrite Nat.add_0_r, Hr by lia. by rewrite list_lookup_insert_eq by lia.
    + replace (n + S i)%nat with (S n + i)%nat by lia. rewrite Hk by lia. done.
  - intros p Hp. rewrite Hr by lia. by rewrite list_lookup_insert_ne by lia.
Qed.

(** The auto-correlation values in 16 bits, with the first one normalised. *)
Definition normalised (R : list Z) (r0 : Z) : list Z :=
  map (λ r, s16 (Z.shiftr (s32 (Z.shiftl r (WebRtcSpl_NormW32 r0))) 16)) R.

Lemma norm_range r : int32 r → 0 ≤ WebRtcSpl_NormW32 r ≤ 31.
Proof. intros Hr. destruct (Z.eq_dec r 0) as [->|H]; [by vm_compute|]. by apply NormW32_maximal. Qed.

Lemma shl32_in a n : 0 ≤ n ≤ 31 → shl32 a n = Some (a <<i n).
Proof. intros. unfold shl32. by rewrite (proj2 (Z.leb_le 0 n)), (proj2 (Z.ltb_lt n 32)) by lia. Qed.

Lemma load_values (ACF P W R : list Z) (r0 : Z) (n : nat) : int32 r0 → (n < length ACF)%nat → (n < length P)%nat →
  (n < length W)%nat → (n < length R)%nat → P !! 0%nat = normalised R r0 !! 0%nat →
  wp (for_loop n 1 (λ i '(ACF, P, W),
        r ← R !! i;
        x ← shl32 r (WebRtcSpl_NormW32 r0);
        let a := s16 (x >>i 16) in
        ACF ← wr ACF i a; W ← wr W i a; P ← wr P i a; Some (ACF, P, W)) (ACF, P, W))
    (λ '(_, P', W'), (∀ i, (i ≤ n)%nat → P' !! i = normalised R r0 !! i) ∧
       (∀ i, (1 ≤ i ≤ n)%nat → W' !! i = normalised R r0 !! i)).
Proof.
  intros Hr HA HP HW HR H0. pose proof (norm_range r0 Hr) as Hn.
  apply (wp_for (λ i '(ACF', P', W'), length ACF' = length ACF ∧ length P' = length P ∧ length W' = length W ∧
    (∀ j, (j < i)%nat → P' !! j = normalised R r0 !! j) ∧
    (∀ j, (1 ≤ j < i)%nat → W' !! j = normalised R r0 !! j))).
  - split_and!; [done|done|done| |lia]. intros j Hj. by assert (j = 0)%nat as -> by lia.
  - intros i [[ACF' P'] W'] Hi (LA & LP & LW & Hp & Hw).
    destruct (lookup_lt_is_Some_2 R i ltac:(lia)) as [r Er]. rewrite Er. cbn [mbind option_bind].
    rewrite shl32_in by lia. cbn [mbind option_bind].
    assert (Ev : normalised R r0 !! i = Some (s16 (Z.shiftr (s32 (Z.shiftl r (WebRtcSpl_NormW32 r0))) 16))).
    { unfold normalised. by rewrite list_lookup_fmap, Er. }
    rewrite wr_lt by lia. cbn [mbind option_bind]. rewrite wr_lt by lia. cbn [mbind option_bind].
    rewrite wr_lt by lia. cbn [mbind option_bind wp]. rewrite !length_insert.
    split_and!; [done|done|done| |]; intros j Hj;
      (destruct (decide (j = i)) as [->|]; [by rewrite list_lookup_insert_eq, Ev by lia|
        rewrite list_lookup_insert_ne by lia; (apply Hp || apply Hw); lia]).
  - intros [[ACF' P'] W'] (_ & _ & _ & Hp & Hw). split; intros j Hj; [apply Hp|apply Hw]; lia.
Qed.

(** C34: Reflection coefficients by the recursion of Schur. For every order up to 13 and all 32-bit
    auto-correlation values, the routine returns, every access to its three local arrays
    is in range, and the coefficients are those of the recursion on lists of the
    normalised values, with zeros from the first unstable one on; the recursion in place,
    with its shared pointers, changes no value before its last use. *)
Theorem AutoCorrToReflCoef_correct (ACF P0 W0 R K : list Z) (use_order : nat) :
  (use_order ≤ 13)%nat → length ACF = 14%nat → length P0 = 14%nat → length W0 = 14%nat →
  (use_order < length R)%nat → (use_order ≤ length K)%nat → Forall int32 R →
  ∃ r0 a0, R !! 0%nat = Some r0 ∧ normalised R r0 !! 0%nat = Some a0 ∧
    let values := take use_order (drop 1 (normalised R r0)) in
    wp (WebRtcSpl_AutoCorrToReflCoef ACF P0 W0 R use_order K) (λ K', length K' = length K ∧
      (∀ i, (i < use_order)%nat → K' !! i = schur use_order a0 values values !! i) ∧
      (∀ p, (use_order ≤ p)%nat → K' !! p = K !! p)).
Proof.
  intros Ho LA LP LW HR HK Hint. destruct (lookup_lt_is_Some_2 R 0 ltac:(lia)) as [r0 E0].
  pose proof (Forall_lookup_1 _ _ _ _ Hint E0) as Hr0. pose proof (norm_range r0 Hr0) as Hn.
  assert (Ea : normalised R r0 !! 0%nat = Some (s16 (Z.shiftr (s32 (Z.shiftl r0 (WebRtcSpl_NormW32 r0))) 16))).
  { unfold normalised. by rewrite list_lookup_fmap, E0. }
  exists r0, (s16 (Z.shiftr (s32 (Z.shiftl r0 (WebRtcSpl_NormW32 r0))) 16)). split_and!; [done|done|]. cbv zeta.
  unfold WebRtcSpl_AutoCorrToReflCoef. rewrite E0. cbn [mbind option_bind].
  rewrite (shl32_in r0) by lia. cbn [mbind option_bind].
  set (a0 := s16 _) in *. cbv zeta.
  rewrite wr_lt by lia. cbn [mbind option_bind]. rewrite wr_lt by lia. cbn [mbind option_bind]. apply wp_bind.
  refine (wp_mono _ _ _ (load_values (<[0%nat := a0]> ACF) (<[0%nat := a0]> P0) W0 R r0 use_order Hr0 _ _ _ HR _) _);
    [rewrite length_insert; lia|rewrite length_insert; lia|lia|by rewrite list_lookup_insert_eq, Ea by lia|].
  intros [[ACF' P'] W'] [HP HW]. set (values := take use_order (drop 1 (normalised R r0))).
  assert (Lv : length values = use_order).
  { unfold values. rewrite length_take_le; [done|]. rewrite length_drop. unfold normalised. rewrite length_map. lia. }
  assert (Hv : ∀ i, (i < use_order)%nat → values !! i = normalised R r0 !! S i).
  { intros i Hi. unfold values. rewrite lookup_take_lt, lookup_drop by done. done. }
  refine (wp_mono _ _ _ (schur_loop_ok use_order use_order 0 P' W' K a0 values values eq_refl Lv Lv _ _ _ HK) _).
  - rewrite HP by lia. exact Ea.
  - intros i Hi. rewrite HP by lia. rewrite Hv by lia. done.
  - intros i Hi. rewrite HW by lia. rewrite Hv by lia. done.
  - intros K' (L & Hk & Hr). split_and!; [done|exact Hk|]. intros p Hp. apply Hr. lia.
Qed.

Definition example_acf : list Z := [1000000; 850000; 600000; 300000; 50000].
Definition any14 : list Z := replicate 14 99.

Lemma AutoCorrToReflCoef_correct_witness :
  WebRtcSpl_AutoCorrToReflCoef any14 any14 any14 example_acf 4 [7; 7; 7; 7; 7] = Some [-27852; 14459; 8792; -2143; 7] ∧
  ∃ r0 a0, example_acf !! 0%nat = Some r0 ∧ normalised example_acf r0 !! 0%nat = Some a0 ∧
    let values := take 4 (drop 1 (normalised example_acf r0)) in
    wp (WebRtcSpl_AutoCorrToReflCoef any14 any14 any14 example_acf 4 [7; 7; 7; 7; 7]) (λ K', length K' = 5%nat ∧
      (∀ i, (i < 4)%nat → K' !! i = schur 4 a0 values values !! i) ∧
      (∀ p, (4 ≤ p)%nat → K' !! p = [7; 7; 7; 7; 7] !! p)).
Proof.
  split; [vm_compute; reflexivity|].
  apply (AutoCorrToReflCoef_correct any14 any14 any14 example_acf [7; 7; 7; 7; 7] 4); try done; try (cbn; lia).
  repeat (apply Forall_cons_2; [unfold int32; lia|]). apply Forall_nil_2.
Defined.

(** The largest order does not fit: with WEBRTC_SPL_MAX_LPC_ORDER coefficients, the 15 values
    run over the local arrays of 14. *)
Example max_order_out_of_bounds :
  WebRtcSpl_AutoCorrToReflCoef any14 any14 any14 (replicate 15 1000) WEBRTC_SPL_MAX_LPC_ORDER (replicate 14 0) = None.
Proof. vm_compute. reflexivity. Qed.

(** A value of -32768 has no 16-bit magnitude: the coefficient of a signal that alternates
    should be close to one and is zero, while that of a constant one is close to -1. *)
Example alternating_signal :
  WebRtcSpl_AutoCorrToReflCoef any14 any14 any14 [2147483647; -2147483647] 1 [7] = Some [0] ∧
  WebRtcSpl_AutoCorrToReflCoef any14 any14 any14 [2147483647; 2147483647] 1 [7] = Some [-32767].
Proof. split; vm_compute; reflexivity. Qed.

(** ** The step-up recursion on lists *)

(** The coefficients 1 and up after one more reflection coefficient. *)
Definition step_up (a : list Z) (k : Z) : list Z :=
  zip_with (λ x y, s16 (x +i s16 ((y *i k) >>i 15))) a (reverse a) ++ [s16 (k >>i 3)].

Lemma step_up_length a k : length (step_up a k) = S (length a).
Proof. unfold step_up. rewrite length_app, length_zip_with, length_reverse. cbn. lia. Qed.

Lemma combine_loop (any a l : list Z) (k : Z) (m : nat) : length l = m → from_one a l → (m + 1 < length any)%nat →
  wp (for_loop m 0 (λ i any,
        aptr ← a !! (1 + i)%nat;
        aptr2 ← a !! (m - i)%nat;
        wr any (1 + i) (s16 (aptr +i s16 ((aptr2 *i k) >>i 15)))) any)
    (λ any', length any' = length any ∧
      (∀ i, (i < m)%nat → any' !! S i = zip_with (λ x y, s16 (x +i s16 ((y *i k) >>i 15))) l (reverse l) !! i) ∧
      (∀ p, (p = 0 ∨ m < p)%nat → any' !! p = any !! p)).
Proof.
  intros Hl Ha Hany.
  apply (wp_for (λ i any', length any' = length any ∧
    (∀ j, (j < i)%nat → any' !! S j = zip_with (λ x y, s16 (x +i s16 ((y *i k) >>i 15))) l (reverse l) !! j) ∧
    (∀ p, (p = 0 ∨ i < p)%nat → any' !! p = any !! p))); [by split_and!; [|lia|]| |done].
  intros i any' Hi (L & Hd & Hr). change (1 + i)%nat with (S i). rewrite (Ha i) by lia.
  replace (m - i)%nat with (S (m - 1 - i)) by lia. rewrite (Ha (m - 1 - i)%nat) by lia.
  destruct (lookup_lt_is_Some_2 l i ltac:(lia)) as [x Ex].
  destruct (lookup_lt_is_Some_2 l (m - 1 - i) ltac:(lia)) as [y Ey]. rewrite Ex, Ey. cbn [mbind option_bind].
  rewrite wr_lt by lia. cbn [wp]. rewrite length_insert. split_and!; [done| |].
  - intros j Hj. destruct (decide (j = i)) as [->|].
    + rewrite list_lookup_insert_eq by lia. symmetry. apply lookup_zip_with_Some. exists x, y. split_and!; [done|done|].
      rewrite reverse_lookup by lia. by replace (length l - S i)%nat with (m - 1 - i)%nat by lia.
    + rewrite list_lookup_insert_ne by lia. apply Hd. lia.
  - intros p Hp. rewrite list_lookup_insert_ne by lia. apply Hr. lia.
Qed.

Lemma copy_loop (a any : list Z) (n : nat) : (n ≤ length a)%nat → (n ≤ length any)%nat →
  wp (for_loop n 0 (λ i a, x ← any !! i; wr a i x) a) (λ a', length a' = length a ∧
    (∀ i, (i < n)%nat → a' !! i = any !! i) ∧ (∀ p, (n ≤ p)%nat → a' !! p = a !! p)).
Proof.
  intros Ha Hany. apply (wp_for (λ k a', length a' = length a ∧ (∀ i, (i < k)%nat → a' !! i = any !! i) ∧
    (∀ p, (k ≤ p)%nat → a' !! p = a !! p))); [by split_and!; [|lia|]| |done].
  intros i a' Hi (L & Hd & Hr). destruct (lookup_lt_is_Some_2 any i ltac:(lia)) as [x Ex]. rewrite Ex.
  cbn [mbind option_bind]. rewrite wr_lt by lia. cbn [wp]. rewrite length_insert. split_and!; [done| |].
  - intros j Hj. destruct (decide (j = i)) as [->|]; [by rewrite list_lookup_insert_eq by lia|].
    rewrite list_lookup_insert_ne by lia. apply Hd. lia.
  - intros p Hp. rewrite list_lookup_insert_ne by lia. apply Hr. lia.
Qed.

(** The prediction coefficients of the first [m] reflection coefficients. *)
Definition predictor (k : list Z) (m : nat) : list Z := foldl step_up [] (take m k).

Lemma predictor_S k m x : k !! m = Some x → predictor k (S m) = step_up (predictor k m) x.
Proof. intros E. unfold predictor. by rewrite (take_S_r k m x E), foldl_app. Qed.

Lemma predictor_length k m : (m ≤ length k)%nat → length (predictor k m) = m.
Proof.
  induction m as [|m IH]; intros Hm; [done|]. destruct (lookup_lt_is_Some_2 k m ltac:(lia)) as [x Ex].
  rewrite (predictor_S k m x Ex), step_up_length. f_equal. apply IH. lia.
Qed.

(** Prediction coefficients from reflection coefficients. For every order from 1 to 14 the conversion
    returns, every access is in range, the first coefficient is 4096 and the others are
    those of the step-up recursion on lists: each reflection coefficient combines the
    coefficients so far with their reverse; the cells behind them are not touched. *)
Theorem ReflCoefToLpc_correct (any k a : list Z) (use_order : nat) :
  (1 ≤ use_order ≤ 14)%nat → length any = 15%nat → (use_order ≤ length k)%nat → (use_order < length a)%nat →
  wp (WebRtcSpl_ReflCoefToLpc any k use_order a) (λ a', length a' = length a ∧ a' !! 0%nat = Some 4096 ∧
    (∀ i, (i < use_order)%nat → a' !! S i = predictor k use_order !! i) ∧
    (∀ p, (use_order < p)%nat → a' !! p = a !! p)).
Proof.
  intros Ho Lany Hk Ha. unfold WebRtcSpl_ReflCoefToLpc.
  rewrite wr_lt by lia. cbn [mbind option_bind]. rewrite wr_lt by lia. cbn [mbind option_bind].
  destruct (lookup_lt_is_Some_2 k 0 ltac:(lia)) as [k0 E0]. rewrite E0. cbn [mbind option_bind].
  rewrite wr_lt by (rewrite length_insert; lia). cbn [mbind option_bind]. apply wp_bind.
  apply (wp_for (λ m '(a', any'), length a' = length a ∧ length any' = 15%nat ∧ a' !! 0%nat = Some 4096 ∧
    any' !! 0%nat = Some 4096 ∧ from_one a' (predictor k m) ∧ (∀ p, (m < p)%nat → a' !! p = a !! p))).
  - rewrite !length_insert. split_and!; [done|done| |by rewrite list_lookup_insert_eq by lia| |].
    + rewrite list_lookup_insert_ne by lia. by rewrite list_lookup_insert_eq by lia.
    + rewrite (predictor_S k 0 k0 E0). intros i Hi. rewrite step_up_length in Hi.
      change (length (predictor k 0)) with 0%nat in Hi.
      assert (i = 0)%nat as -> by lia. by rewrite list_lookup_insert_eq by (rewrite length_insert; lia).
    + intros p Hp. by rewrite !list_lookup_insert_ne by lia.
  - intros m [a' any'] Hm (La & Ln & A0 & N0 & Hf & Hr).
    destruct (lookup_lt_is_Some_2 k m ltac:(lia)) as [km Ek]. rewrite Ek. cbn [mbind option_bind].
    pose proof (predictor_length k m ltac:(lia)) as Lp. rewrite wr_lt by lia. cbn [mbind option_bind]. apply wp_bind.
    refine (wp_mono _ _ _ (combine_loop _ a' (predictor k m) km m Lp Hf _) _); [rewrite length_insert; lia|].
    intros any2 (L2 & Hd & Hrest). rewrite length_insert in L2. apply wp_bind.
    refine (wp_mono _ _ _ (copy_loop a' any2 (m + 2) _ _) _); [lia|lia|]. intros a2 (L3 & Hc & Hc').
    cbn [wp]. split_and!; [lia|lia| | | |].
    + rewrite Hc, Hrest by lia. rewrite list_lookup_insert_ne by lia. done.
    + rewrite Hrest by lia. rewrite list_lookup_insert_ne by lia. done.
    + rewrite (predictor_S k m km Ek). intros i Hi. rewrite step_up_length, Lp in Hi. rewrite Hc by lia.
      unfold step_up. destruct (Nat.lt_ge_cases i m).
      * rewrite Hd by done. by rewrite lookup_app_l by (rewrite length_zip_with, length_reverse; lia).
      * assert (i = m) as -> by lia. rewrite Hrest by lia. replace (S m) with (m + 1)%nat by lia.
        rewrite list_lookup_insert_eq by lia. rewrite lookup_app_r by (rewrite length_zip_with, length_reverse; lia).
        rewrite length_zip_with, length_reverse. by replace (m - _)%nat with 0%nat by lia.
    + intros p Hp. rewrite Hc' by lia. apply Hr. lia.
  - intros [a' any'] (La & _ & A0 & _ & Hf & Hr). replace (1 + (use_order - 1))%nat with use_order in * by lia.
    cbn [wp]. split_and!; [done|done| |done]. intros i Hi. apply Hf. rewrite predictor_length by lia. done.
Qed.

Lemma ReflCoefToLpc_correct_witness :
  WebRtcSpl_ReflCoefToLpc (replicate 15 99) [-27852; 14459; 8792] 3 [7; 7; 7; 7; 7] = Some [4096; -4535; 460; 1099; 7] ∧
  wp (WebRtcSpl_ReflCoefToLpc (replicate 15 99) [-27852; 14459; 8792] 3 [7; 7; 7; 7; 7]) (λ a',
    length a' = 5%nat ∧ a' !! 0%nat = Some 4096 ∧
    (∀ i, (i < 3)%nat → a' !! S i = predictor [-27852; 14459; 8792] 3 !! i) ∧
    (∀ p, (3 < p)%nat → a' !! p = [7; 7; 7; 7; 7] !! p)).
Proof.
  split; [vm_compute; reflexivity|].
  apply (ReflCoefToLpc_correct (replicate 15 99) [-27852; 14459; 8792] [7; 7; 7; 7; 7] 3); cbn; lia.
Defined.

(** ** The step-down recursion *)

(** The denominator of a coefficient that is not -1. *)
Lemma denominator km : int16 km → km ≠ -32768 →
  1 ≤ s16 ((1073741823 -i km *i km) >>i 15) ≤ 32767.
Proof.
  intros Hk Hne. unfold int16 in Hk. assert (0 ≤ km * km ≤ 1073676289) by nia.
  rewrite (s32_id (km * km)), s32_id by (unfold int32; lia). rewrite Z.shiftr_div_pow2 by lia. change (2 ^ 15) with 32768.
  rewrite s16_id by (unfold int16; Z.to_euclidean_division_equations; lia). Z.to_euclidean_division_equations; lia.
Qed.

Lemma sat_range t : -8191 ≤ WEBRTC_SPL_SAT 8191 t (-8191) ≤ 8191.
Proof. unfold WEBRTC_SPL_SAT. destruct (Z.ltb_spec 8191 t); [lia|]. destruct (Z.ltb_spec t (-8191)); lia. Qed.

(** Reflection coefficients from prediction coefficients. For every order from 1 to 50, when the
    last prediction coefficient is not -1 in its Q15 form, the conversion returns, every
    access is in range and every division is defined: no denominator is 0 or -1; all
    reflection coefficients but the last are within 32764, so that the next step is
    defined as well. *)
Theorem LpcToReflCoef_safe (tmp32 a16 k16 : list Z) (use_order : nat) (last : Z) :
  (1 ≤ use_order ≤ 50)%nat → length tmp32 = 50%nat → (use_order ≤ length k16)%nat →
  a16 !! use_order = Some last → s16 (last <<i 3) ≠ -32768 →
  wp (WebRtcSpl_LpcToReflCoef tmp32 a16 use_order k16) (λ '(a', k'), length a' = length a16 ∧ length k' = length k16 ∧
    k' !! (use_order - 1)%nat = Some (s16 (last <<i 3)) ∧
    (∀ m, (m < use_order - 1)%nat → ∃ x, k' !! m = Some x ∧ -32764 ≤ x ≤ 32764) ∧
    (∀ p, (use_order ≤ p)%nat → a' !! p = a16 !! p ∧ k' !! p = k16 !! p)).
Proof.
  intros Ho Lt Hk El Hne. apply lookup_lt_Some in El as Hla. unfold WebRtcSpl_LpcToReflCoef. rewrite El.
  cbn [mbind option_bind]. unfold wrz. rewrite (proj2 (Z.leb_le 0 _)) by lia.
  replace (Z.to_nat (Z.of_nat use_order - 1)) with (use_order - 1)%nat by lia. rewrite wr_lt by lia.
  cbn [mbind option_bind]. set (kl := s16 (last <<i 3)) in *. apply wp_bind.
  apply (wp_for (λ d '(a', k', t'), length a' = length a16 ∧ length k' = length k16 ∧ length t' = 50%nat ∧
    k' !! (use_order - 1)%nat = Some kl ∧
    (∀ m, (use_order - 1 - d ≤ m < use_order - 1)%nat → ∃ x, k' !! m = Some x ∧ -32764 ≤ x ≤ 32764) ∧
    (∀ p, (use_order ≤ p)%nat → a' !! p = a16 !! p ∧ k' !! p = k16 !! p))).
  - rewrite length_insert. split_and!; [done|done|done|by rewrite list_lookup_insert_eq by lia|lia|].
    intros p Hp. by rewrite list_lookup_insert_ne by lia.
  - intros d [[a' k'] t'] Hd (La & Lk & Lt' & Hlast & Hin & Hr). cbv zeta.
    set (m := (use_order - 1 - d)%nat) in *.
    assert (Hkm : ∃ km, k' !! m = Some km ∧ int16 km ∧ km ≠ -32768).
    { destruct (decide (d = 0)%nat) as [->|].
      - exists kl. replace m with (use_order - 1)%nat by (unfold m; lia). split_and!; [done|apply s16_range|done].
      - destruct (Hin m) as (x & Ex & Hx); [unfold m; lia|]. exists x. split_and!; [done|unfold int16; lia|lia]. }
    destruct Hkm as (km & -> & Ik & Hk0). cbn [mbind option_bind].
    pose proof (denominator km Ik Hk0) as Hden. set (den := s16 ((1073741823 -i km *i km) >>i 15)) in *.
    apply wp_bind. apply (wp_for (λ _ t, length t = 50%nat)); [done| |].
    { intros k t Hkm Ht. destruct (lookup_lt_is_Some_2 a' k) as [x ->]; [unfold m in *; lia|].
      destruct (lookup_lt_is_Some_2 a' (m - k + 1)) as [y ->]; [unfold m in *; lia|]. cbn [mbind option_bind].
      unfold div_int. rewrite (proj2 (Z.eqb_neq den (-1))) by lia. rewrite andb_false_r. cbn [mbind option_bind].
      rewrite wr_lt by (unfold m in *; lia). cbn [wp]. by rewrite length_insert. }
    intros t Ht. apply wp_bind. apply (wp_for (λ _ a2, length a2 = length a' ∧ ∀ p, (use_order ≤ p)%nat → a2 !! p = a' !! p)); [done| |].
    { intros k a2 Hkm [L2 H2]. destruct (lookup_lt_is_Some_2 t k) as [x ->]; [unfold m in *; lia|]. cbn [mbind option_bind].
      rewrite wr_lt by (unfold m in *; lia). cbn [wp]. rewrite length_insert. split; [done|].
      intros p Hp. rewrite list_lookup_insert_ne by (unfold m in *; lia). by apply H2. }
    intros a2 [L2 H2]. destruct (lookup_lt_is_Some_2 t m) as [x ->]; [unfold m in *; lia|]. cbn [mbind option_bind].
    pose proof (sat_range x) as Hs. set (v := WEBRTC_SPL_SAT 8191 x (-8191)) in *.
    rewrite wr_lt by (unfold m in *; lia). cbn [mbind option_bind]. rewrite wr_lt by (unfold m in *; lia).
    cbn [mbind option_bind wp]. rewrite !length_insert.
    assert (Ev : s16 (v <<i 2) = 4 * v).
    { rewrite Z.shiftl_mul_pow2 by lia. change (2 ^ 2) with 4. rewrite s32_id by (unfold int32; lia).
      rewrite s16_id by (unfold int16; lia). lia. }
    split_and!; [lia|done|done| | |].
    + rewrite list_lookup_insert_ne by (unfold m in *; lia). done.
    + intros p Hp. destruct (decide (p = m - 1)%nat) as [->|].
      * exists (4 * v). rewrite list_lookup_insert_eq, Ev by (unfold m in *; lia). split; [done|lia].
      * rewrite list_lookup_insert_ne by done. apply Hin. unfold m in *. lia.
    + intros p Hp. rewrite H2, list_lookup_insert_ne by (unfold m in *; lia). by apply Hr.
  - intros [[a' k'] t'] (La & Lk & _ & Hlast & Hin & Hr). cbn [wp]. split_and!; [done|done|done| |done].
    intros m Hm. apply Hin. lia.
Qed.

Lemma LpcToReflCoef_safe_witness :
  let run := WebRtcSpl_LpcToReflCoef (replicate 50 99) [4096; -4535; 460; 1099] 3 [7; 7; 7; 7] in
  run = Some ([4096; -5020; 460; 1099], [-27868; 14452; 8792; 7]) ∧
  wp run (λ '(a', k'), length a' = 4%nat ∧ length k' = 4%nat ∧ k' !! 2%nat = Some (s16 (1099 <<i 3)) ∧
    (∀ m, (m < 3 - 1)%nat → ∃ x, k' !! m = Some x ∧ -32764 ≤ x ≤ 32764) ∧
    (∀ p, (3 ≤ p)%nat → a' !! p = [4096; -4535; 460; 1099] !! p ∧ k' !! p = [7; 7; 7; 7] !! p)).
Proof.
  cbv zeta. split; [vm_compute; reflexivity|].
  apply (LpcToReflCoef_safe (replicate 50 99) [4096; -4535; 460; 1099] [7; 7; 7; 7] 3 1099); try done; cbn; lia.
Defined.

(** With -1 as the last coefficient the denominator is -1, and the quotient of the smallest
    int by -1 is not an int. *)
Example division_overflow : WebRtcSpl_LpcToReflCoef (replicate 50 99) [4096; 16384; -4096] 2 [7; 7] = None.
Proof. vm_compute. reflexivity. Qed.

(** ** The root of one minus a square *)

Definition root_ok (x : Z) : bool :=
  match WebRtcSpl_Sqrt (1073741823 - x * x) with Some r => r <=? 32767 | None => false end.

Lemma small_roots : forallb root_ok (map Z.of_nat (seq 0 1450)) = true.
Proof. vm_compute. reflexivity. Qed.

(** The result fits in 16 bits, although the square root may be too large by one part in a
    thousand. *)
Lemma root_of x : int16 x → ∃ r, WebRtcSpl_Sqrt (1073741823 -i x *i x) = Some r ∧ 0 ≤ r ≤ 32767 ∧
  512 * (r * r) ≤ 513 * magnitude (1073741823 - x * x) ∧
  2048 * magnitude (1073741823 - x * x) < 2049 * ((r + 1) * (r + 1)).
Proof.
  intros Hx. unfold int16 in Hx. assert (Hs : 0 ≤ x * x ≤ 1073741824) by nia.
  rewrite (s32_id (x * x)), s32_id by (unfold int32; lia).
  pose proof (Sqrt_accuracy (1073741823 - x * x) ltac:(unfold int32; lia)) as H.
  apply wp_exists in H as (r & Er & H0 & H1 & H2). exists r. split_and!; [done|done| |done|done].
  destruct (Z.lt_ge_cases (Z.abs x) 1450) as [Hlt|Hge].
  - pose proof (proj1 (forallb_forall _ _) small_roots (Z.abs x)) as Hr. unfold root_ok in Hr.
    replace (Z.abs x * Z.abs x) with (x * x) in Hr by (rewrite <- Z.abs_mul; lia). rewrite Er in Hr. apply Z.leb_le, Hr.
    apply in_map_iff. exists (Z.to_nat (Z.abs x)). split; [lia|]. apply in_seq. lia.
  - assert (2102500 ≤ x * x) by nia. unfold magnitude in H1. nia.
Qed.

Lemma SqrtOfOneMinusXSquared_ok xs ys n : Forall int16 xs → (n ≤ length xs)%nat → (n ≤ length ys)%nat →
  wp (WebRtcSpl_SqrtOfOneMinusXSquared xs n ys) (λ ys', length ys' = length ys ∧
    ∀ i, (i < n)%nat → ∃ x r, xs !! i = Some x ∧ ys' !! i = Some r ∧ 0 ≤ r ≤ 32767 ∧
      512 * (r * r) ≤ 513 * magnitude (1073741823 - x * x) ∧
      2048 * magnitude (1073741823 - x * x) < 2049 * ((r + 1) * (r + 1))).
Proof.
  intros Hx Hl Hl'. unfold WebRtcSpl_SqrtOfOneMinusXSquared.
  apply (wp_for (λ k ys', length ys' = length ys ∧
    ∀ i, (i < k)%nat → ∃ x r, xs !! i = Some x ∧ ys' !! i = Some r ∧ 0 ≤ r ≤ 32767 ∧
      512 * (r * r) ≤ 513 * magnitude (1073741823 - x * x) ∧
      2048 * magnitude (1073741823 - x * x) < 2049 * ((r + 1) * (r + 1)))); [by split; [|lia]| |done].
  intros k ys' Hk [L H]. destruct (lookup_lt_is_Some_2 xs k ltac:(lia)) as [x Ex]. rewrite Ex. cbn [mbind option_bind].
  cbv zeta. destruct (root_of x (Forall_lookup_1 _ _ _ _ Hx Ex)) as (r & -> & Hr & H1 & H2). cbn [mbind option_bind].
  rewrite s16_id by (unfold int16; lia). rewrite wr_lt by lia. cbn [wp]. rewrite length_insert. split; [done|].
  intros i Hi. destruct (decide (i = k)) as [->|].
  - exists x, r. by rewrite list_lookup_insert_eq by lia.
  - rewrite list_lookup_insert_ne by done. apply H. lia.
Qed.

End Lpc.
