(* ===== verification/Levinson.v ===== *)
(** * The recursion of Levinson and Durbin (common_audio/signal_processing/levinson_durbin.c)

    Prediction coefficients from auto-correlation values, with 32-bit values kept as two
    16-bit words. The local arrays are not initialised: their cells are options, and reading
    a cell before it is written is an error like an access out of range. Signed arithmetic
    wraps around: the source has a note of the sanitizer about an overflow in this routine
    and switches the sanitizer off. The shift by the exponent of the prediction gain has no
    check of the code that bounds its amount, and the C standard gives it no meaning from
    32 on; the outcome [BadShift] says that the run reaches such a shift, and nothing about
    what follows. Whether an input of order 3 or more reaches it is not decided here. *)

From S2P Require Import Prelude SplInl Lpc.
Import SplInl Lpc.

Module Levinson.

Definition SPL_LEVINSON_MAXORDER : nat := 20.

(** Arrays of cells that may not be initialised. *)
Abbreviation cells := (list (option Z)).
Definition rdu (m : cells) (i : nat) : option Z := mjoin (m !! i).
Definition wru (m : cells) (i : nat) (v : Z) : option cells := wr m i (Some v).

(** WEBRTC_SPL_ABS_W32 *)
Definition WEBRTC_SPL_ABS_W32 (a : Z) : Z := if 0 <=? a then a else -i a.

(** The two words of a 32-bit value, and the value of two words. *)
Definition to_words (t : Z) : Z * Z :=
  let hi := s16 (t >>i 16) in (hi, s16 ((t -i hi *i 65536) >>i 1)).
Definition of_words (hi low : Z) : Z := hi *i 65536 +i (low <<i 1).

(** 1 - K * K in Q31. *)
Definition one_minus_square (K_hi K_low : Z) : Z :=
  let temp1W32 := (((K_hi *i K_low) >>i 14) +i K_hi *i K_hi) *i 2 in
  0x7fffffff -i WEBRTC_SPL_ABS_W32 temp1W32.

(** The prediction gain times 1 - K * K. *)
Definition alpha_times (hi low : Z) (tmp : Z * Z) : Z :=
  (hi *i tmp.1 +i ((hi *i tmp.2) >>i 15) +i ((low *i tmp.1) >>i 15)) <<i 1.

Inductive Outcome :=
  | Stable (A K : list Z)
  | Unstable (K : list Z)
  | BadShift.

(** The variables of the loop. *)
Record State := mkState {
  A_hi : cells; A_low : cells;
  A_upd_hi : cells; A_upd_low : cells;
  Alpha_hi : Z; Alpha_low : Z; Alpha_exp : Z;
  K : list Z;
}.

(** R in two words. *)
Definition load_R (R_hi R_low : cells) (R : list Z) (order : nat) (scale : Z) : option (cells * cells) :=
  for_loop (order + 1) 0 (λ i '(R_hi, R_low),
    r ← R !! i;
    let w := to_words (r *i scale) in
    R_hi ← wru R_hi i w.1;
    R_low ← wru R_low i w.2;
    Some (R_hi, R_low)) (R_hi, R_low).

(** The prediction error of order [i], in Q31. *)
Definition error_of (R_hi R_low A_hi A_low : cells) (i : nat) : option Z :=
  temp1W32 ← for_loop (i - 1) 1 (λ j temp1W32,
    rh ← rdu R_hi j;
    rl ← rdu R_low j;
    ah ← rdu A_hi (i - j);
    al ← rdu A_low (i - j);
    Some (temp1W32 +i (rh *i ah *i 2 +i (((rh *i al) >>i 15) +i ((rl *i ah) >>i 15)) *i 2))) 0;
  rh ← rdu R_hi i;
  rl ← rdu R_low i;
  Some (temp1W32 *i 16 +i of_words rh rl).

(** K from the error and the gain, before it is scaled back. *)
Definition quotient (temp1W32 Alpha_hi Alpha_low : Z) : Z :=
  let temp3W32 := WebRtcSpl_DivW32HiLow (WEBRTC_SPL_ABS_W32 temp1W32) Alpha_hi Alpha_low in
  if 0 <? temp1W32 then -i temp3W32 else temp3W32.

(** De-normalisation; [None] is a shift by 32 or more. *)
Definition denormalise (temp3W32 Alpha_exp : Z) : option Z :=
  let norm := WebRtcSpl_NormW32 temp3W32 in
  if (Alpha_exp <=? norm) || (temp3W32 =? 0) then
    one ← shl32 1 Alpha_exp;
    Some (temp3W32 *i one)
  else Some (if 0 <? temp3W32 then 0x7fffffff else -0x80000000).

(** The new coefficients of order [i]. *)
Definition update_A (K_hi K_low : Z) (temp3W32 : Z) (i : nat) (st : State) : option (cells * cells) :=
  '(uh, ul) ← for_loop (i - 1) 1 (λ j '(uh, ul),
    ah ← rdu (A_hi st) j;
    al ← rdu (A_low st) j;
    bh ← rdu (A_hi st) (i - j);
    bl ← rdu (A_low st) (i - j);
    let temp1W32 := of_words ah al +i
      (K_hi *i bh +i ((K_hi *i bl) >>i 15) +i ((K_low *i bh) >>i 15)) *i 2 in
    let w := to_words temp1W32 in
    uh ← wru uh j w.1;
    ul ← wru ul j w.2;
    Some (uh, ul)) (A_upd_hi st, A_upd_low st);
  let w := to_words (temp3W32 >>i 4) in
  uh ← wru uh i w.1;
  ul ← wru ul i w.2;
  Some (uh, ul).

Definition copy_A (uh ul : cells) (i : nat) (st : State) : option (cells * cells) :=
  for_loop i 1 (λ j '(ah, al),
    h ← rdu uh j;
    l ← rdu ul j;
    ah ← wru ah j h;
    al ← wru al j l;
    Some (ah, al)) (A_hi st, A_low st).

(** One order: the next state or an outcome. *)
Definition levinson_step (R_hi R_low : cells) (i : nat) (st : State) : option (State + Outcome) :=
  temp1W32 ← error_of R_hi R_low (A_hi st) (A_low st) i;
  let temp3W32 := quotient temp1W32 (Alpha_hi st) (Alpha_low st) in
  match denormalise temp3W32 (Alpha_exp st) with
  | None => Some (inr BadShift)
  | Some temp3W32 =>
      let '(K_hi, K_low) := to_words temp3W32 in
      K ← wr (K st) (i - 1) K_hi;
      if 32750 <? WEBRTC_SPL_ABS_W16 K_hi then Some (inr (Unstable K))
      else
        '(uh, ul) ← update_A K_hi K_low temp3W32 i st;
        let tmp := to_words (one_minus_square K_hi K_low) in
        let temp1W32 := alpha_times (Alpha_hi st) (Alpha_low st) tmp in
        let norm := WebRtcSpl_NormW32 temp1W32 in
        temp1W32 ← shl32 temp1W32 norm;
        let alpha := to_words temp1W32 in
        '(ah, al) ← copy_A uh ul i st;
        Some (inl (mkState ah al uh ul alpha.1 alpha.2 (s16 (Alpha_exp st + norm)) K))
  end.

(** The loop over the orders from [i] on. *)
Fixpoint levinson_loop (count : nat) (R_hi R_low : cells) (i : nat) (st : State) : option (State + Outcome) :=
  match count with
  | O => Some (inl st)
  | S count =>
      r ← levinson_step R_hi R_low i st;
      match r with
      | inl st => levinson_loop count R_hi R_low (S i) st
      | inr outcome => Some (inr outcome)
      end
  end.

(** The coefficients in Q12. *)
Definition store_A (A : list Z) (order : nat) (st : State) : option (list Z) :=
  A ← wr A 0 4096;
  for_loop order 1 (λ i A,
    h ← rdu (A_hi st) i;
    l ← rdu (A_low st) i;
    wr A i (s16 ((of_words h l *i 2 +i 32768) >>i 16))) A.

Definition empty_cells : cells := replicate (SPL_LEVINSON_MAXORDER + 1) None.

Definition WebRtcSpl_LevinsonDurbin (R A K : list Z) (order : nat) : option Outcome :=
  r0 ← R !! 0%nat;
  let norm := WebRtcSpl_NormW32 r0 in
  scale ← shl32 1 norm;
  '(R_hi, R_low) ← load_R empty_cells empty_cells R order scale;
  r1 ← R !! 1%nat;
  let temp2W32 := r1 *i scale in
  rh ← rdu R_hi 0;
  rl ← rdu R_low 0;
  let temp1W32 := quotient temp2W32 rh rl in
  let '(K_hi, K_low) := to_words temp1W32 in
  K ← wr K 0 K_hi;
  let a := to_words (temp1W32 >>i 4) in
  A_hi ← wru empty_cells 1 a.1;
  A_low ← wru empty_cells 1 a.2;
  let tmp := to_words (one_minus_square K_hi K_low) in
  let temp1W32 := alpha_times rh rl tmp in
  let Alpha_exp := WebRtcSpl_NormW32 temp1W32 in
  temp1W32 ← shl32 temp1W32 Alpha_exp;
  let alpha := to_words temp1W32 in
  r ← levinson_loop (order - 1) R_hi R_low 2
    (mkState A_hi A_low empty_cells empty_cells alpha.1 alpha.2 Alpha_exp K);
  match r with
  | inr outcome => Some outcome
  | inl st =>
      A ← store_A A order st;
      Some (Stable A (Levinson.K st))
  end.

(** ** Cells *)

(** The cells from [lo] up to [hi] are initialised. *)
Definition filled (m : cells) (lo hi : nat) : Prop :=
  length m = 21%nat ∧ ∀ j, (lo ≤ j < hi)%nat → ∃ v, rdu m j = Some v.

Lemma rdu_ok m lo hi j : filled m lo hi → (lo ≤ j < hi)%nat → ∃ v, rdu m j = Some v.
Proof. intros [_ H] Hj. by apply H. Qed.

Lemma wru_ok m lo hi j v : filled m lo hi → (j < 21)%nat →
  ∃ m', wru m j v = Some m' ∧ filled m' lo hi ∧ (j = hi → filled m' lo (S hi)).
Proof.
  intros [L H] Hj. unfold wru. rewrite wr_lt by lia. eexists. split; [done|]. unfold filled. rewrite length_insert.
  assert (Hr : ∀ i, rdu (<[j := Some v]> m) i = if decide (i = j) then Some v else rdu m i).
  { intros i. unfold rdu. destruct (decide (i = j)) as [->|]; [by rewrite list_lookup_insert_eq by lia|].
    by rewrite list_lookup_insert_ne by done. }
  split; [split; [done|]|intros ->; split; [done|]]; intros i Hi; rewrite Hr;
    (destruct (decide _); [by eexists|apply H; lia]).
Qed.

Lemma filled_empty lo : filled empty_cells lo lo.
Proof. split; [done|lia]. Qed.

Ltac read H j := let v := fresh "v" in let E := fresh "E" in
  destruct (rdu_ok _ _ _ j H ltac:(lia)) as [v E]; rewrite E; clear E; cbn [mbind option_bind].

Lemma load_R_ok R order scale : (order ≤ 20)%nat → (order < length R)%nat →
  wp (load_R empty_cells empty_cells R order scale) (λ '(h, l), filled h 0 (order + 1) ∧ filled l 0 (order + 1)).
Proof.
  intros Ho HR. unfold load_R. apply (wp_for (λ i '(h, l), filled h 0 i ∧ filled l 0 i)).
  - split; apply filled_empty.
  - intros i [h l] Hi [Hh Hl]. destruct (lookup_lt_is_Some_2 R i ltac:(lia)) as [r ->]. cbn [mbind option_bind].
    cbv zeta. destruct (wru_ok h 0 i i (to_words (r *i scale)).1 Hh ltac:(lia)) as (h' & -> & _ & Fh). cbn [mbind option_bind].
    destruct (wru_ok l 0 i i (to_words (r *i scale)).2 Hl ltac:(lia)) as (l' & -> & _ & Fl). cbn [mbind option_bind wp].
    split; [by apply Fh|by apply Fl].
  - intros [h l] H. exact H.
Qed.

Lemma error_of_ok Rh Rl Ah Al order i : filled Rh 0 (order + 1) → filled Rl 0 (order + 1) → filled Ah 1 i → filled Al 1 i →
  (2 ≤ i ≤ order)%nat → ∃ t, error_of Rh Rl Ah Al i = Some t.
Proof.
  intros H1 H2 H3 H4 Hi. unfold error_of.
  assert (Hl : wp (for_loop (i - 1) 1 (λ j temp1W32,
    rh ← rdu Rh j; rl ← rdu Rl j; ah ← rdu Ah (i - j); al ← rdu Al (i - j);
    Some (temp1W32 +i (rh *i ah *i 2 +i (((rh *i al) >>i 15) +i ((rl *i ah) >>i 15)) *i 2))) 0) (λ _, True)).
  { apply (wp_for (λ _ _, True)); [done| |done]. intros j t Hj _. read H1 j. read H2 j. read H3 (i - j)%nat.
    read H4 (i - j)%nat. done. }
  destruct (for_loop (i - 1) 1 _ 0) as [t|]; [|done]. cbn [mbind option_bind]. read H1 i. read H2 i. by eexists.
Qed.

(** ** One order *)

(** What holds before order [i]; [n] cells are there for the reflection coefficients. *)
Record state_ok (n i : nat) (st : State) : Prop := {
  s_hi : filled (A_hi st) 1 i; s_low : filled (A_low st) 1 i;
  s_upd_hi : filled (A_upd_hi st) 1 1; s_upd_low : filled (A_upd_low st) 1 1;
  s_exp : 0 ≤ Alpha_exp st ≤ 31 * (Z.of_nat i - 1);
  s_length : length (K st) = n;
  s_K : ∀ j, (1 ≤ j < i - 1)%nat → ∃ k, K st !! j = Some k ∧ Z.abs k ≤ 32750;
}.

(** An early return at an order below [hi]. *)
Definition outcome_ok (n hi : nat) (o : Outcome) : Prop :=
  match o with
  | Stable _ _ => False
  | Unstable K => length K = n ∧ ∃ j k, (1 ≤ j < hi)%nat ∧ K !! j = Some k ∧ 32750 < Z.abs k
  | BadShift => (3 ≤ hi)%nat
  end.

Lemma update_A_ok K_hi K_low t i n st : state_ok n i st → (2 ≤ i ≤ 20)%nat →
  wp (update_A K_hi K_low t i st) (λ '(uh, ul), filled uh 1 (S i) ∧ filled ul 1 (S i)).
Proof.
  intros [H1 H2 H3 H4 _ _ _] Hi. unfold update_A. apply wp_bind.
  apply (wp_for (λ j '(uh, ul), filled uh 1 j ∧ filled ul 1 j)); [by split| |].
  - intros j [uh ul] Hj [Fh Fl]. read H1 j. read H2 j. read H1 (i - j)%nat. read H2 (i - j)%nat. cbv zeta.
    set (w := to_words _).
    destruct (wru_ok uh 1 j j w.1 Fh ltac:(lia)) as (uh' & -> & _ & F1). cbn [mbind option_bind].
    destruct (wru_ok ul 1 j j w.2 Fl ltac:(lia)) as (ul' & -> & _ & F2). cbn [mbind option_bind wp].
    split; [by apply F1|by apply F2].
  - intros [uh ul] [Fh Fl]. replace (1 + (i - 1))%nat with i in * by lia. cbv zeta. set (w := to_words _).
    destruct (wru_ok uh 1 i i w.1 Fh ltac:(lia)) as (uh' & -> & _ & F1). cbn [mbind option_bind].
    destruct (wru_ok ul 1 i i w.2 Fl ltac:(lia)) as (ul' & -> & _ & F2). cbn [mbind option_bind wp].
    split; [by apply F1|by apply F2].
Qed.

Lemma copy_A_ok uh ul i n st : state_ok n i st → filled uh 1 (S i) → filled ul 1 (S i) → (i ≤ 20)%nat →
  wp (copy_A uh ul i st) (λ '(ah, al), filled ah 1 (S i) ∧ filled al 1 (S i)).
Proof.
  intros [[L1 _] [L2 _] _ _ _ _ _] Fh Fl Hi. unfold copy_A.
  apply (wp_for (λ j '(ah, al), filled ah 1 j ∧ filled al 1 j)); [split; split; done || lia| |done].
  intros j [ah al] Hj [G1 G2]. read Fh j. read Fl j.
  destruct (wru_ok ah 1 j j v G1 ltac:(lia)) as (ah' & -> & _ & F1). cbn [mbind option_bind].
  destruct (wru_ok al 1 j j v0 G2 ltac:(lia)) as (al' & -> & _ & F2). cbn [mbind option_bind wp].
  split; [by apply F1|by apply F2].
Qed.

Lemma abs_w16 k : WEBRTC_SPL_ABS_W16 k = Z.abs k.
Proof. unfold WEBRTC_SPL_ABS_W16. destruct (Z.leb_spec 0 k); lia. Qed.

Lemma denormalise_bad t e : 0 ≤ e → denormalise t e = None → 32 ≤ e.
Proof.
  intros He H. destruct (Z.le_gt_cases 32 e); [done|]. unfold denormalise in H.
  rewrite (shl32_in 1 e) in H by lia. cbn [mbind option_bind] in H. by destruct (_ || _).
Qed.

Lemma levinson_step_ok Rh Rl order n i st : filled Rh 0 (order + 1) → filled Rl 0 (order + 1) →
  (2 ≤ i ≤ order)%nat → (order ≤ 20)%nat → (order ≤ n)%nat → state_ok n i st →
  wp (levinson_step Rh Rl i st) (λ r, match r with inl st' => state_ok n (S i) st' | inr o => outcome_ok n i o end).
Proof.
  intros H1 H2 Hi Ho Hn Hs. unfold levinson_step.
  destruct (error_of_ok Rh Rl (A_hi st) (A_low st) order i H1 H2 (s_hi _ _ _ Hs) (s_low _ _ _ Hs) Hi) as [t ->].
  cbn [mbind option_bind]. cbv zeta. pose proof (s_exp _ _ _ Hs) as He.
  destruct (denormalise _ (Alpha_exp st)) as [t3|] eqn:Ed; cbn [wp outcome_ok].
  2: { apply denormalise_bad in Ed; lia. }
  destruct (to_words t3) as [kh kl]. pose proof (s_length _ _ _ Hs) as Lk. rewrite wr_lt by lia. cbn [mbind option_bind].
  rewrite abs_w16. destruct (Z.ltb_spec 32750 (Z.abs kh)) as [Hu|Hu].
  { cbn [wp outcome_ok]. rewrite length_insert. split; [done|]. exists (i - 1)%nat, kh.
    rewrite list_lookup_insert_eq by lia. split_and!; done || lia. }
  apply wp_bind. refine (wp_mono _ _ _ (update_A_ok kh kl t3 i n st Hs ltac:(lia)) _). intros [uh ul] [Fh Fl].
  set (t1 := alpha_times _ _ _). assert (Ht : int32 t1) by apply s32_range.
  pose proof (norm_range t1 Ht) as Hnorm. rewrite (shl32_in t1) by done. cbn [mbind option_bind].
  apply wp_bind. refine (wp_mono _ _ _ (copy_A_ok uh ul i n st Hs Fh Fl ltac:(lia)) _). intros [ah al] [Gh Gl].
  cbn [wp]. split; cbn [A_hi A_low A_upd_hi A_upd_low Alpha_exp K]; [done|done| | | | |].
  - destruct Fh as [L _]. split; [done|lia].
  - destruct Fl as [L _]. split; [done|lia].
  - rewrite s16_id by (unfold int16; lia). lia.
  - by rewrite length_insert.
  - intros j Hj. destruct (decide (j = i - 1)%nat) as [->|].
    + exists kh. rewrite list_lookup_insert_eq by lia. done.
    + rewrite list_lookup_insert_ne by done. apply (s_K _ _ _ Hs). lia.
Qed.

Lemma levinson_loop_ok Rh Rl order n : filled Rh 0 (order + 1) → filled Rl 0 (order + 1) →
  (order ≤ 20)%nat → (order ≤ n)%nat → ∀ count i st, (2 ≤ i)%nat → (i + count = order + 1)%nat → state_ok n i st →
  wp (levinson_loop count Rh Rl i st) (λ r,
    match r with inl st' => state_ok n (order + 1) st' | inr o => outcome_ok n order o end).
Proof.
  intros H1 H2 Ho Hn. induction count as [|count IH]; intros i st Hi Hc Hs; cbn [levinson_loop].
  { cbn [wp]. by replace (order + 1)%nat with i by lia. }
  apply wp_bind. refine (wp_mono _ _ _ (levinson_step_ok Rh Rl order n i st H1 H2 ltac:(lia) Ho Hn Hs) _).
  intros [st'|o] Hr; [apply IH; done || lia|]. cbn [wp]. destruct o as [| |]; cbn [outcome_ok] in *; [done| |lia].
  destruct Hr as (L & j & k & Hj & Hk). split; [done|]. exists j, k. split; [lia|done].
Qed.

Lemma store_A_ok A order st : filled (A_hi st) 1 (order + 1) → filled (A_low st) 1 (order + 1) → (order < length A)%nat →
  wp (store_A A order st) (λ A', length A' = length A ∧ A' !! 0%nat = Some 4096 ∧
    (∀ p, (order < p)%nat → A' !! p = A !! p)).
Proof.
  intros H1 H2 HA. unfold store_A. rewrite wr_lt by lia. cbn [mbind option_bind].
  apply (wp_for (λ _ A', length A' = length A ∧ A' !! 0%nat = Some 4096 ∧
    (∀ p, (order < p)%nat → A' !! p = A !! p))); [| |done].
  - rewrite length_insert. split_and!; [done|by rewrite list_lookup_insert_eq by lia|].
    intros p Hp. by rewrite list_lookup_insert_ne by lia.
  - intros i A' Hi (L & E & Hr). read H1 i. read H2 i. rewrite wr_lt by lia. cbn [wp]. rewrite length_insert.
    split_and!; [done|by rewrite list_lookup_insert_ne by lia|]. intros p Hp. rewrite list_lookup_insert_ne by lia. by apply Hr.
Qed.

(** Accesses of the recursion of Levinson and Durbin. For every order from 1 to 20 and all 32-bit
    auto-correlation values, up to a shift that has no meaning in C, no access is out of range and no cell of the local arrays is
    read before it is written. When the routine reports a stable filter, the first
    prediction coefficient is 4096 and all reflection coefficients but the first are at
    most 32750; when it reports an unstable one, one of these is larger. For orders up to 2
    the shift by the exponent of the gain is in range. *)
Theorem LevinsonDurbin_safe (R A K : list Z) (order : nat) :
  (1 ≤ order ≤ 20)%nat → (order < length R)%nat → (order < length A)%nat → (order ≤ length K)%nat → Forall int32 R →
  wp (WebRtcSpl_LevinsonDurbin R A K order) (λ o,
    match o with
    | Stable A' K' => length A' = length A ∧ A' !! 0%nat = Some 4096 ∧ (∀ p, (order < p)%nat → A' !! p = A !! p) ∧
        length K' = length K ∧ ∀ j, (1 ≤ j < order)%nat → ∃ k, K' !! j = Some k ∧ Z.abs k ≤ 32750
    | Unstable K' => length K' = length K ∧ ∃ j k, (1 ≤ j < order)%nat ∧ K' !! j = Some k ∧ 32750 < Z.abs k
    | BadShift => (3 ≤ order)%nat
    end).
Proof.
  intros Ho HR HA HK Hint. unfold WebRtcSpl_LevinsonDurbin.
  destruct (lookup_lt_is_Some_2 R 0 ltac:(lia)) as [r0 E0]. destruct (lookup_lt_is_Some_2 R 1 ltac:(lia)) as [r1 E1].
  rewrite E0. cbn [mbind option_bind]. cbv zeta. pose proof (norm_range r0 (Forall_lookup_1 _ _ _ _ Hint E0)) as Hn.
  rewrite (shl32_in 1) by done. cbn [mbind option_bind]. apply wp_bind.
  refine (wp_mono _ _ _ (load_R_ok R order _ ltac:(lia) HR) _). intros [Rh Rl] [H1 H2]. rewrite E1. cbn [mbind option_bind].
  read H1 0%nat. read H2 0%nat. set (t1 := quotient _ _ _). destruct (to_words t1) as [kh kl].
  rewrite wr_lt by lia. cbn [mbind option_bind]. set (a := to_words (t1 >>i 4)).
  destruct (wru_ok empty_cells 1 1 1 a.1 (filled_empty 1) ltac:(lia)) as (Ah & -> & _ & FA). cbn [mbind option_bind].
  destruct (wru_ok empty_cells 1 1 1 a.2 (filled_empty 1) ltac:(lia)) as (Al & -> & _ & FB). cbn [mbind option_bind].
  set (t2 := alpha_times _ _ _). pose proof (norm_range t2 (s32_range _)) as Hn2.
  rewrite (shl32_in t2) by done. cbn [mbind option_bind]. apply wp_bind.
  refine (wp_mono _ _ _ (levinson_loop_ok Rh Rl order (length K) H1 H2 ltac:(lia) HK (order - 1) 2 _ ltac:(lia) ltac:(lia) _) _).
  { split; cbn [A_hi A_low A_upd_hi A_upd_low Alpha_exp Levinson.K];
      [by apply FA|by apply FB|apply filled_empty|apply filled_empty|lia|by rewrite length_insert|lia]. }
  intros [st|o] Hr.
  - destruct Hr as [F1 F2 _ _ _ Lk Hk]. apply wp_bind. refine (wp_mono _ _ _ (store_A_ok A order st F1 F2 HA) _).
    intros A' (LA & EA & Hrest). cbn [wp]. split_and!; [done|done|done|done|]. intros j Hj. apply Hk. lia.
  - cbn [wp]. destruct o as [A' K'|K'|]; cbn [outcome_ok] in Hr; done.
Qed.

Lemma LevinsonDurbin_safe_witness :
  let run := WebRtcSpl_LevinsonDurbin [1000; 900; 800; 700] (replicate 5 7) (replicate 3 7) 3 in
  run = Some (Stable [4096; -3868; 0; 228; 7] [-29492; 1724; 1820]) ∧
  wp run (λ o,
    match o with
    | Stable A' K' => length A' = 5%nat ∧ A' !! 0%nat = Some 4096 ∧ (∀ p, (3 < p)%nat → A' !! p = replicate 5 7 !! p) ∧
        length K' = 3%nat ∧ ∀ j, (1 ≤ j < 3)%nat → ∃ k, K' !! j = Some k ∧ Z.abs k ≤ 32750
    | Unstable K' => length K' = 3%nat ∧ ∃ j k, (1 ≤ j < 3)%nat ∧ K' !! j = Some k ∧ 32750 < Z.abs k
    | BadShift => (3 ≤ 3)%nat
    end).
Proof.
  cbv zeta. split; [vm_compute; reflexivity|].
  apply (LevinsonDurbin_safe [1000; 900; 800; 700] (replicate 5 7) (replicate 3 7) 3); try (cbn; lia).
  repeat (apply Forall_cons_2; [unfold int32; lia|]). apply Forall_nil_2.
Defined.

(** The first reflection coefficient is not tested: the filter of a constant signal has its
    pole on the unit circle and is reported stable. *)
Example constant_signal :
  WebRtcSpl_LevinsonDurbin (replicate 6 1000) (replicate 6 0) (replicate 5 0) 5 =
    Some (Stable [4096; -4096; 0; 0; 0; 0] [-32768; 0; 0; 0; 0]).
Proof. vm_compute. reflexivity. Qed.

End Levinson.
