(* ===== verification/PaRing.v ===== *)
(** * The lock-free ring buffer (modules/third_party/portaudio: pa_ringbuffer.c, pa_ringbuffer.h)

    The ring through which the audio device thread and the render thread exchange samples
    without a lock. One thread writes and one reads; each only changes its own index, and
    both look at the other's. The operations are modelled twice: as functions, for one
    thread, and as sequences of atomic steps of two threads, of which a schedule is any
    interleaving. A call loads the other thread's index, copies elements one by one and
    stores its own index; the barriers of the source keep these three in order, and that
    order is what the model assumes. The buffer is counted in elements. The integer type of
    the indices depends on the platform: 32 bits on Apple systems, for which the library
    uses the ring, and the 64 bits of a long on others. *)

From S2P Require Import Prelude SeqNum.

Module PaRing.

(** The platforms by the width of [ring_buffer_size_t], and the arithmetic of this type. *)
Inductive Platform := Apple | Lp64.

Definition ring_buffer_size_t (platform : Platform) (z : Z) : Z :=
  match platform with Apple => s32 z | Lp64 => SeqNum.s64 z end.

Record PaUtilRingBuffer := mkRing {
  bufferSize : Z;
  writeIndex : Z;
  readIndex : Z;
  bigMask : Z;
  smallMask : Z;
  elementSizeBytes : Z;
  buffer : list Z;
}.

Definition with_write (r : PaUtilRingBuffer) (i : Z) : PaUtilRingBuffer :=
  mkRing (bufferSize r) i (readIndex r) (bigMask r) (smallMask r) (elementSizeBytes r) (buffer r).
Definition with_read (r : PaUtilRingBuffer) (i : Z) : PaUtilRingBuffer :=
  mkRing (bufferSize r) (writeIndex r) i (bigMask r) (smallMask r) (elementSizeBytes r) (buffer r).
Definition with_buffer (r : PaUtilRingBuffer) (b : list Z) : PaUtilRingBuffer :=
  mkRing (bufferSize r) (writeIndex r) (readIndex r) (bigMask r) (smallMask r) (elementSizeBytes r) b.

Definition PaUtil_FlushRingBuffer (rbuf : PaUtilRingBuffer) : PaUtilRingBuffer := with_write (with_read rbuf 0) 0.

Section operations.
Context (platform : Platform).
Abbreviation size := (ring_buffer_size_t platform).

(** The return value and the ring. *)
Definition PaUtil_InitializeRingBuffer (rbuf : PaUtilRingBuffer) (elementSizeBytes elementCount : Z) (dataPtr : list Z)
  : Z * PaUtilRingBuffer :=
  if negb (Z.land (size (elementCount - 1)) elementCount =? 0) then (-1, rbuf)
  else
    let rbuf := mkRing elementCount (writeIndex rbuf) (readIndex rbuf) (bigMask rbuf) (smallMask rbuf)
                  (PaRing.elementSizeBytes rbuf) dataPtr in
    let rbuf := PaUtil_FlushRingBuffer rbuf in
    (0, mkRing (bufferSize rbuf) (writeIndex rbuf) (readIndex rbuf)
          (size (size (elementCount * 2) - 1)) (size (elementCount - 1)) elementSizeBytes (buffer rbuf)).

Definition PaUtil_GetRingBufferReadAvailable (rbuf : PaUtilRingBuffer) : Z :=
  Z.land (size (writeIndex rbuf - readIndex rbuf)) (bigMask rbuf).

Definition PaUtil_GetRingBufferWriteAvailable (rbuf : PaUtilRingBuffer) : Z :=
  size (bufferSize rbuf - PaUtil_GetRingBufferReadAvailable rbuf).

(** The positions of the regions in the buffer; the second may be a null pointer. *)
Record Regions := mkRegions { data1 : Z; size1 : Z; data2 : option Z; size2 : Z }.

(** The regions of [elementCount] elements from an index on. *)
Definition regions_from (rbuf : PaUtilRingBuffer) (index elementCount : Z) : Regions :=
  if bufferSize rbuf <? size (index + elementCount) then
    let firstHalf := size (bufferSize rbuf - index) in
    mkRegions index firstHalf (Some 0) (size (elementCount - firstHalf))
  else mkRegions index elementCount None 0.

Definition PaUtil_GetRingBufferWriteRegions (rbuf : PaUtilRingBuffer) (elementCount : Z) : Z * Regions :=
  let available := PaUtil_GetRingBufferWriteAvailable rbuf in
  let elementCount := if available <? elementCount then available else elementCount in
  (elementCount, regions_from rbuf (Z.land (writeIndex rbuf) (smallMask rbuf)) elementCount).

Definition PaUtil_GetRingBufferReadRegions (rbuf : PaUtilRingBuffer) (elementCount : Z) : Z * Regions :=
  let available := PaUtil_GetRingBufferReadAvailable rbuf in
  let elementCount := if available <? elementCount then available else elementCount in
  (elementCount, regions_from rbuf (Z.land (readIndex rbuf) (smallMask rbuf)) elementCount).

Definition PaUtil_AdvanceRingBufferWriteIndex (rbuf : PaUtilRingBuffer) (elementCount : Z) : PaUtilRingBuffer :=
  with_write rbuf (Z.land (size (writeIndex rbuf + elementCount)) (bigMask rbuf)).

Definition PaUtil_AdvanceRingBufferReadIndex (rbuf : PaUtilRingBuffer) (elementCount : Z) : PaUtilRingBuffer :=
  with_read rbuf (Z.land (size (readIndex rbuf + elementCount)) (bigMask rbuf)).

(** [memcpy] between elements at positions that must not be negative. *)
Definition copy (dst : list Z) (doff : Z) (src : list Z) (soff n : Z) : option (list Z) :=
  if (0 <=? doff) && (0 <=? soff) && (0 <=? n)
  then memcpy dst (Z.to_nat doff) src (Z.to_nat soff) (Z.to_nat n) else None.

(** The number of elements written and the ring. *)
Definition PaUtil_WriteRingBuffer (rbuf : PaUtilRingBuffer) (data : list Z) (elementCount : Z)
  : option (Z * PaUtilRingBuffer) :=
  let '(numWritten, g) := PaUtil_GetRingBufferWriteRegions rbuf elementCount in
  b ← (if 0 <? size2 g then
         b ← copy (buffer rbuf) (data1 g) data 0 (size1 g);
         p ← data2 g;
         copy b p data (size1 g) (size2 g)
       else copy (buffer rbuf) (data1 g) data 0 (size1 g));
  Some (numWritten, PaUtil_AdvanceRingBufferWriteIndex (with_buffer rbuf b) numWritten).

(** The number of elements read, what they are copied to, and the ring. *)
Definition PaUtil_ReadRingBuffer (rbuf : PaUtilRingBuffer) (data : list Z) (elementCount : Z)
  : option (Z * list Z * PaUtilRingBuffer) :=
  let '(numRead, g) := PaUtil_GetRingBufferReadRegions rbuf elementCount in
  data ← (if 0 <? size2 g then
            data ← copy data 0 (buffer rbuf) (data1 g) (size1 g);
            p ← data2 g;
            copy data (size1 g) (buffer rbuf) p (size2 g)
          else copy data 0 (buffer rbuf) (data1 g) (size1 g));
  Some (numRead, data, PaUtil_AdvanceRingBufferReadIndex rbuf numRead).

(** ** Two threads *)

(** A call in progress: the elements to write, of which some are copied, or those read so far. *)
Inductive Writer := WIdle | WBusy (data : list Z) (g : Regions) (n done : nat).
Inductive Reader := RIdle | RBusy (g : Regions) (n : nat) (got : list Z).

Record Config := mkConfig { ring : PaUtilRingBuffer; writer : Writer; reader : Reader }.

(** Where the element [i] of the regions is. *)
Definition place (g : Regions) (i : nat) : nat :=
  if Z.of_nat i <? size1 g then Z.to_nat (data1 g + Z.of_nat i) else Z.to_nat (Z.of_nat i - size1 g).

(** What a schedule says: a thread calls its operation, or takes the next step of its call. *)
Inductive action := CallWrite (data : list Z) | StepWrite | CallRead (n : nat) | StepRead.

(** What a finished call has written or read. *)
Inductive event := Wrote (l : list Z) | Read (l : list Z).

(** An action that the thread is not ready for has no effect; [None] is an access out of
    range. *)
Definition exec (a : action) (c : Config) : option (Config * list event) :=
  match a, writer c, reader c with
  | CallWrite data, WIdle, _ =>
      let '(n, g) := PaUtil_GetRingBufferWriteRegions (ring c) (Z.of_nat (length data)) in
      Some (mkConfig (ring c) (WBusy data g (Z.to_nat n) 0) (reader c), [])
  | StepWrite, WBusy data g n done, _ =>
      if (done <? n)%nat then
        x ← data !! done;
        b ← wr (buffer (ring c)) (place g done) x;
        Some (mkConfig (with_buffer (ring c) b) (WBusy data g n (S done)) (reader c), [])
      else Some (mkConfig (PaUtil_AdvanceRingBufferWriteIndex (ring c) (Z.of_nat n)) WIdle (reader c), [Wrote (take n data)])
  | CallRead m, _, RIdle =>
      let '(n, g) := PaUtil_GetRingBufferReadRegions (ring c) (Z.of_nat m) in
      Some (mkConfig (ring c) (writer c) (RBusy g (Z.to_nat n) []), [])
  | StepRead, _, RBusy g n got =>
      if (length got <? n)%nat then
        x ← buffer (ring c) !! place g (length got);
        Some (mkConfig (ring c) (writer c) (RBusy g n (got ++ [x])), [])
      else Some (mkConfig (PaUtil_AdvanceRingBufferReadIndex (ring c) (Z.of_nat n)) (writer c) RIdle, [Read got])
  | _, _, _ => Some (c, [])
  end.

Fixpoint run (c : Config) (schedule : list action) : option (Config * list event) :=
  match schedule with
  | [] => Some (c, [])
  | a :: schedule =>
      '(c, e) ← exec a c;
      '(c, es) ← run c schedule;
      Some (c, e ++ es)
  end.

End operations.

(** ** Indices *)

(** The largest number of elements for which no index overflows is 2^[largest]. *)
Definition largest (platform : Platform) : nat := match platform with Apple => 29 | Lp64 => 61 end.

Lemma size_in platform z : -4 * 2 ^ Z.of_nat (largest platform) ≤ z < 4 * 2 ^ Z.of_nat (largest platform) →
  ring_buffer_size_t platform z = z.
Proof.
  destruct platform; cbn; intros Hz; [apply s32_id; unfold int32; lia|]. unfold SeqNum.s64.
  rewrite Z.mod_small by lia. lia.
Qed.

(** What the two threads have written and read, as a property of the events. *)
Definition written (es : list event) : list Z := concat (omap (λ e, match e with Wrote l => Some l | _ => None end) es).
Definition read (es : list event) : list Z := concat (omap (λ e, match e with Read l => Some l | _ => None end) es).

Section ring.
Context (platform : Platform) (k : nat) (Hk : (k ≤ largest platform)%nat).

Abbreviation N := (2 ^ k)%nat.

Lemma N_pos : (0 < N)%nat.
Proof using Hk. pose proof (Nat.pow_nonzero 2 k). lia. Qed.

Lemma N_bound : Z.of_nat N ≤ 2 ^ Z.of_nat (largest platform).
Proof using Hk. rewrite Nat2Z.inj_pow. change (Z.of_nat 2) with 2. apply Z.pow_le_mono_r; lia. Qed.

Lemma mask_big z : Z.land z (Z.of_nat (2 * N) - 1) = z mod Z.of_nat (2 * N).
Proof using Hk.
  rewrite Nat2Z.inj_mul, Nat2Z.inj_pow. change (Z.of_nat 2) with 2. rewrite <- Z.pow_succ_r by lia.
  rewrite <- (Z.land_ones z (Z.succ (Z.of_nat k))) by lia.
  by rewrite Z.ones_equiv, <- Z.sub_1_r.
Qed.

Lemma mask_small z : Z.land z (Z.of_nat N - 1) = z mod Z.of_nat N.
Proof using Hk.
  rewrite Nat2Z.inj_pow. change (Z.of_nat 2) with 2. rewrite <- (Z.land_ones z (Z.of_nat k)) by lia.
  by rewrite Z.ones_equiv, <- Z.sub_1_r.
Qed.

(** The ring after [w] elements written and [r] read; [log] is all that was written. *)
Record ring_ok (w r : nat) (log : list Z) (rbuf : PaUtilRingBuffer) : Prop := {
  k_size : bufferSize rbuf = Z.of_nat N;
  k_big : bigMask rbuf = Z.of_nat (2 * N) - 1;
  k_small : smallMask rbuf = Z.of_nat N - 1;
  k_write : writeIndex rbuf = Z.of_nat w mod Z.of_nat (2 * N);
  k_read : readIndex rbuf = Z.of_nat r mod Z.of_nat (2 * N);
  k_length : length (buffer rbuf) = N;
  k_order : (r ≤ w ≤ r + N)%nat;
  k_log : length log = w;
  k_content : ∀ p, (r ≤ p < w)%nat → buffer rbuf !! (p mod N)%nat = log !! p;
}.

Lemma read_available w r log rbuf : ring_ok w r log rbuf →
  PaUtil_GetRingBufferReadAvailable platform rbuf = Z.of_nat (w - r) ∧
  PaUtil_GetRingBufferWriteAvailable platform rbuf = Z.of_nat (r + N - w).
Proof using Hk.
  intros [Hs Hb _ Hw Hr _ Ho _ _]. pose proof N_pos. pose proof N_bound.
  assert (E : PaUtil_GetRingBufferReadAvailable platform rbuf = Z.of_nat (w - r)).
  { unfold PaUtil_GetRingBufferReadAvailable. rewrite Hb, mask_big, Hw, Hr.
    pose proof (Z.mod_pos_bound (Z.of_nat w) (Z.of_nat (2 * N)) ltac:(lia)).
    pose proof (Z.mod_pos_bound (Z.of_nat r) (Z.of_nat (2 * N)) ltac:(lia)).
    rewrite size_in by lia. rewrite <- Zminus_mod. rewrite Z.mod_small by lia. lia. }
  split; [done|]. unfold PaUtil_GetRingBufferWriteAvailable. rewrite E, Hs, size_in by lia. lia.
Qed.

Lemma mod_of_nat p : Z.of_nat p mod Z.of_nat (2 * N) mod Z.of_nat N = Z.of_nat (p mod N).
Proof using Hk.
  rewrite Z.mod_mod_divide; [by rewrite Nat2Z.inj_mod|]. exists 2. lia.
Qed.

(** The regions hold the elements from position [p] on, around the end of the buffer. *)
Lemma regions_place w r log rbuf p m i : ring_ok w r log rbuf → (m ≤ N)%nat → (i < m)%nat →
  place (regions_from platform rbuf (Z.of_nat (p mod N)) (Z.of_nat m)) i = ((p + i) mod N)%nat.
Proof using Hk.
  intros [Hs _ _ _ _ _ _ _ _] Hm Hi. pose proof N_pos. pose proof N_bound.
  pose proof (Nat.mod_upper_bound p N ltac:(lia)) as Hx.
  assert (Hmod : ((p + i) mod N = (p mod N + i) mod N)%nat) by (by rewrite Nat.Div0.add_mod_idemp_l).
  rewrite Hmod. unfold regions_from. rewrite Hs. clear Hs Hmod.
  set (n := N) in *. clearbody n. set (x := (p mod n)%nat) in *. clearbody x. rewrite size_in by lia.
  destruct (Z.ltb_spec (Z.of_nat n) (Z.of_nat x + Z.of_nat m)) as [Hw|Hw]; unfold place; cbn [size1 data1].
  - rewrite (size_in _ (Z.of_nat n - _)) by lia.
    destruct (Z.ltb_spec (Z.of_nat i) (Z.of_nat n - Z.of_nat x)).
    + rewrite Nat.mod_small by lia. lia.
    + replace (x + i)%nat with ((i - (n - x)) + 1 * n)%nat by lia.
      rewrite Nat.Div0.mod_add, Nat.mod_small by lia. lia.
  - rewrite (proj2 (Z.ltb_lt _ _)) by lia. rewrite Nat.mod_small by lia. lia.
Qed.

(** Two positions less than a turn apart are different cells. *)
Lemma cells_apart p q : (p < q < p + N)%nat → (p mod N)%nat ≠ (q mod N)%nat.
Proof using Hk.
  intros Hpq E. pose proof N_pos. pose proof (Nat.div_mod_eq p N). pose proof (Nat.div_mod_eq q N).
  rewrite E in *. assert (Hd : (p / N < q / N ∨ q / N ≤ p / N)%nat) by lia. destruct Hd; nia.
Qed.

(** ** The invariant of the two threads *)

(** All that was written is [log]; [r] elements of it were read. *)
Record config_ok (log : list Z) (r : nat) (c : Config) : Prop := {
  c_ring : ring_ok (length log) r log (ring c);
  c_writer : match writer c with
    | WIdle => True
    | WBusy data g n d => (d ≤ n ≤ length data)%nat ∧ (length log + n ≤ r + N)%nat ∧
        (∀ i, (i < n)%nat → place g i = ((length log + i) mod N)%nat) ∧
        (∀ i, (i < d)%nat → buffer (ring c) !! ((length log + i) mod N)%nat = data !! i)
    end;
  c_reader : match reader c with
    | RIdle => True
    | RBusy g n got => (length got ≤ n)%nat ∧ (r + n ≤ length log)%nat ∧
        (∀ i, (i < n)%nat → place g i = ((r + i) mod N)%nat) ∧
        (∀ i, (i < length got)%nat → log !! (r + i)%nat = got !! i)
    end;
}.

Lemma mod_N_bound p : (p mod N < N)%nat.
Proof using Hk. pose proof N_pos. apply Nat.mod_upper_bound. lia. Qed.

(** What an event adds to the log and to what was read. *)
Definition advances (log : list Z) (r : nat) (c : Config) (r1 : option (Config * list event)) : Prop :=
  ∃ c' es, r1 = Some (c', es) ∧ config_ok (log ++ written es) (r + length (read es)) c' ∧
    ∀ i, (i < length (read es))%nat → (log ++ written es) !! (r + i)%nat = read es !! i.

Lemma advances_quiet log r c c' : config_ok log r c' → advances log r c (Some (c', [])).
Proof using Hk.
  intros H. exists c', []. cbn. rewrite app_nil_r, Nat.add_0_r. split_and!; [done|done|lia].
Qed.

Lemma call_write_ok log r c data : config_ok log r c → writer c = WIdle → advances log r c (exec platform (CallWrite data) c).
Proof using Hk.
  intros [Hr Hw Hd] E. unfold exec. rewrite E. unfold PaUtil_GetRingBufferWriteRegions. cbv zeta.
  rewrite (proj2 (read_available _ _ _ _ Hr)).
  pose proof (k_order _ _ _ _ Hr) as Ho. pose proof (k_write _ _ _ _ Hr) as Ew.
  pose proof (k_small _ _ _ _ Hr) as Es. rewrite Ew, Es, mask_small, mod_of_nat.
  set (n := Nat.min (length data) (r + N - length log)).
  assert (En : (if Z.of_nat (r + N - length log) <? Z.of_nat (length data) then Z.of_nat (r + N - length log)
    else Z.of_nat (length data)) = Z.of_nat n) by (destruct (Z.ltb_spec (Z.of_nat (r + N - length log)) (Z.of_nat (length data))); lia).
  rewrite En. apply advances_quiet. split; cbn [ring writer reader]; [done| |done].
  rewrite Nat2Z.id. split_and!; [lia|lia|lia| |lia]. intros i Hi. apply (regions_place (length log) r log); [done|lia|lia].
Qed.

Lemma step_write_ok log r c data g n d : config_ok log r c → writer c = WBusy data g n d →
  advances log r c (exec platform StepWrite c).
Proof using Hk.
  intros [Hr Hw Hd] E. unfold exec. rewrite E. rewrite E in Hw. destruct Hw as (Hn & Hroom & Hp & Hc).
  pose proof N_pos. pose proof N_bound. pose proof (k_order _ _ _ _ Hr) as Ho.
  destruct (Nat.ltb_spec d n) as [Hlt|Hge].
  - destruct (lookup_lt_is_Some_2 data d ltac:(lia)) as [x Ex]. rewrite Ex, (Hp d) by done. cbn [mbind option_bind].
    pose proof (k_length _ _ _ _ Hr) as Hl. pose proof (mod_N_bound (length log + d)) as Hb.
    rewrite wr_lt by lia. cbn [mbind option_bind]. apply advances_quiet. split; cbn [ring writer reader].
    + destruct Hr as [? ? ? ? ? ? ? ? Hcont]. split; cbn; try done; [by rewrite length_insert|].
      intros p Hpr. rewrite list_lookup_insert_ne; [by apply Hcont|]. apply not_eq_sym, cells_apart. lia.
    + split_and!; [lia|lia|lia|done|]. intros i Hi. cbn. destruct (decide (i = d)) as [->|].
      * by rewrite list_lookup_insert_eq by lia.
      * rewrite list_lookup_insert_ne; [by apply Hc; lia|]. apply not_eq_sym, cells_apart. lia.
    + exact Hd.
  - assert (d = n) as -> by lia. exists (mkConfig (PaUtil_AdvanceRingBufferWriteIndex platform (ring c) (Z.of_nat n)) WIdle (reader c)).
    exists [Wrote (take n data)]. split; [done|]. cbn [written read omap list_omap concat length]. rewrite app_nil_r, Nat.add_0_r.
    split; [|cbn; lia]. split; cbn [ring writer reader]; [|done|].
    + rewrite length_app, length_take_le by lia. destruct Hr as [Hs Hb Hsm Hwi Hri Hl _ _ Hcont].
      split; cbn; try done.
      * rewrite Hb, mask_big, Hwi. pose proof (Z.mod_pos_bound (Z.of_nat (length log)) (Z.of_nat (2 * N)) ltac:(lia)).
        rewrite size_in by lia. rewrite Zplus_mod_idemp_l. f_equal. lia.
      * lia.
      * rewrite length_app, length_take_le by lia. done.
      * intros p Hpr. destruct (Nat.lt_ge_cases p (length log)).
        -- rewrite lookup_app_l by done. apply Hcont. lia.
        -- rewrite lookup_app_r by done. replace p with (length log + (p - length log))%nat at 1 by lia.
           rewrite Hc by lia. rewrite lookup_take_lt by lia. done.
    + destruct (reader c) as [|g' m got]; [done|]. destruct Hd as (H1 & H2 & H3 & H4).
      split_and!; [done|rewrite length_app; lia|done|]. intros i Hi. rewrite lookup_app_l by lia. by apply H4.
Qed.

Lemma call_read_ok log r c m : config_ok log r c → reader c = RIdle → advances log r c (exec platform (CallRead m) c).
Proof using Hk.
  intros [Hr Hw Hd] E. unfold exec. rewrite E.
  assert (Hread : advances log r c (let '(n, g) := PaUtil_GetRingBufferReadRegions platform (ring c) (Z.of_nat m) in
    Some (mkConfig (ring c) (writer c) (RBusy g (Z.to_nat n) []), []))); [|by destruct (writer c)].
  unfold PaUtil_GetRingBufferReadRegions. cbv zeta.
  rewrite (proj1 (read_available _ _ _ _ Hr)).
  pose proof (k_order _ _ _ _ Hr) as Ho. pose proof (k_read _ _ _ _ Hr) as Er.
  pose proof (k_small _ _ _ _ Hr) as Es. rewrite Er, Es, mask_small, mod_of_nat.
  set (n := Nat.min m (length log - r)).
  assert (En : (if Z.of_nat (length log - r) <? Z.of_nat m then Z.of_nat (length log - r) else Z.of_nat m) = Z.of_nat n)
    by (destruct (Z.ltb_spec (Z.of_nat (length log - r)) (Z.of_nat m)); lia).
  rewrite En. apply advances_quiet. split; cbn [ring writer reader]; [done|done|].
  rewrite Nat2Z.id. split_and!; [cbn; lia|lia| |cbn; lia].
  intros i Hi. apply (regions_place (length log) r log); [done|lia|lia].
Qed.

Lemma step_read_ok log r c g n got : config_ok log r c → reader c = RBusy g n got →
  advances log r c (exec platform StepRead c).
Proof using Hk.
  intros [Hr Hw Hd] E. pose proof N_pos. pose proof N_bound. pose proof (k_order _ _ _ _ Hr) as Ho.
  rewrite E in Hd. destruct Hd as (Hn & Hin & Hp & Hg).
  assert (Hstep : advances log r c (if (length got <? n)%nat then
        x ← buffer (ring c) !! place g (length got);
        Some (mkConfig (ring c) (writer c) (RBusy g n (got ++ [x])), [])
      else Some (mkConfig (PaUtil_AdvanceRingBufferReadIndex platform (ring c) (Z.of_nat n)) (writer c) RIdle, [Read got]))).
  2: { unfold exec. rewrite E. by destruct (writer c). }
  destruct (Nat.ltb_spec (length got) n) as [Hlt|Hge].
  - rewrite Hp by done. pose proof (k_content _ _ _ _ Hr (r + length got)%nat ltac:(lia)) as Ec.
    destruct (lookup_lt_is_Some_2 log (r + length got) ltac:(lia)) as [x Ex]. rewrite Ec, Ex. cbn [mbind option_bind].
    apply advances_quiet. split; cbn [ring writer reader]; [done|done|]. rewrite length_app. cbn [length].
    split_and!; [lia|lia|done|]. intros i Hi. destruct (decide (i = length got)) as [->|].
    + by rewrite Ex, lookup_app_r, Nat.sub_diag by lia.
    + rewrite lookup_app_l by lia. apply Hg. lia.
  - assert (Eg : length got = n) by lia. eexists _, [Read got]. split; [reflexivity|].
    cbn [written read omap list_omap concat]. rewrite !app_nil_r. split; [|exact Hg].
    split; cbn [ring writer reader]; [| |done].
    + destruct Hr as [Hs Hb Hsm Hwi Hri Hl _ Hlog Hcont]. split; cbn; try done.
      * rewrite Hb, mask_big, Hri. pose proof (Z.mod_pos_bound (Z.of_nat r) (Z.of_nat (2 * N)) ltac:(lia)).
        rewrite size_in by lia. rewrite Zplus_mod_idemp_l. f_equal. lia.
      * lia.
      * intros p Hpr. apply Hcont. lia.
    + destruct (writer c) as [|data g' m d]; [done|]. destruct Hw as (W1 & W2 & W3 & W4). split_and!; done || lia.
Qed.

Lemma exec_ok log r c a : config_ok log r c → advances log r c (exec platform a c).
Proof using Hk.
  intros H. destruct a as [data| |m|].
  - destruct (writer c) eqn:E; [by apply call_write_ok|]. unfold exec. rewrite E. by apply advances_quiet.
  - destruct (writer c) eqn:E; [|by eapply step_write_ok]. unfold exec. rewrite E. by apply advances_quiet.
  - destruct (reader c) eqn:E; [by apply call_read_ok|]. unfold exec. rewrite E.
    destruct (writer c); by apply advances_quiet.
  - destruct (reader c) eqn:E; [|by eapply step_read_ok]. unfold exec. rewrite E.
    destruct (writer c); by apply advances_quiet.
Qed.

Lemma events_app es es' : written (es ++ es') = written es ++ written es' ∧ read (es ++ es') = read es ++ read es'.
Proof using. unfold written, read. by rewrite !omap_app, !concat_app. Qed.

Lemma schedule_ok schedule : ∀ log r c, config_ok log r c → advances log r c (run platform c schedule).
Proof using Hk.
  induction schedule as [|a schedule IH]; intros log r c H; cbn [run]; [by apply advances_quiet|].
  destruct (exec_ok log r c a H) as (c1 & e & -> & H1 & R1). cbn [mbind option_bind].
  destruct (IH _ _ c1 H1) as (c2 & es & -> & H2 & R2). cbn [mbind option_bind].
  exists c2, (e ++ es). destruct (events_app e es) as [-> ->]. rewrite length_app, !app_assoc, Nat.add_assoc.
  split_and!; [done|done|]. intros i Hi. destruct (Nat.lt_ge_cases i (length (read e))) as [Hlt|Hge].
  - specialize (R1 i Hlt). rewrite (lookup_app_l (read e)) by done. rewrite <- R1. apply lookup_app_l.
    destruct (lookup_lt_is_Some_2 (read e) i Hlt) as [x Ex]. rewrite Ex in R1. by apply lookup_lt_Some in R1.
  - rewrite (lookup_app_r (read e)) by done. rewrite <- R2 by lia. f_equal. lia.
Qed.

(** ** One thread *)

Lemma copy_ok dst doff src soff n : 0 ≤ doff → 0 ≤ soff → 0 ≤ n → doff + n ≤ Z.of_nat (length dst) →
  soff + n ≤ Z.of_nat (length src) → ∃ out, copy dst doff src soff n = Some out ∧ length out = length dst ∧
    ∀ p, out !! p = if (Z.to_nat doff <=? p)%nat && (p <? Z.to_nat (doff + n))%nat
                    then src !! (Z.to_nat soff + (p - Z.to_nat doff))%nat else dst !! p.
Proof using Hk.
  intros H1 H2 H3 H4 H5. unfold copy. rewrite !(proj2 (Z.leb_le 0 _)) by done. cbn [andb].
  unfold memcpy. rewrite decide_True by lia. eexists. split; [done|].
  set (d := Z.to_nat doff) in *. set (m := Z.to_nat n) in *. set (o := Z.to_nat soff) in *.
  replace (Z.to_nat (doff + n)) with (d + m)%nat by lia.
  split; [rewrite !length_app, length_take_le, length_take_le, length_drop by (rewrite ?length_drop; lia); lia|].
  intros p. destruct (Nat.leb_spec d p), (Nat.ltb_spec p (d + m)); cbn [andb].
  - rewrite lookup_app_r by (rewrite length_take_le by lia; lia). rewrite length_take_le by lia.
    rewrite lookup_app_l by (rewrite length_take_le by (rewrite length_drop; lia); lia).
    rewrite lookup_take_lt, lookup_drop by lia. done.
  - rewrite lookup_app_r by (rewrite length_take_le by lia; lia). rewrite length_take_le by lia.
    rewrite lookup_app_r by (rewrite length_take_le by (rewrite length_drop; lia); lia).
    rewrite length_take_le by (rewrite length_drop; lia). rewrite lookup_drop. f_equal. lia.
  - rewrite lookup_app_l by (rewrite length_take_le by lia; lia). by rewrite lookup_take_lt by lia.
  - lia.
Qed.

(** Copying into the regions, and out of them. *)
Lemma copy_in w r log rbuf p m data : ring_ok w r log rbuf → (m ≤ N)%nat → (m ≤ length data)%nat →
  let g := regions_from platform rbuf (Z.of_nat (p mod N)) (Z.of_nat m) in
  ∃ b, (if 0 <? size2 g then b ← copy (buffer rbuf) (data1 g) data 0 (size1 g); q ← data2 g; copy b q data (size1 g) (size2 g)
        else copy (buffer rbuf) (data1 g) data 0 (size1 g)) = Some b ∧ length b = N ∧
    (∀ i, (i < m)%nat → b !! place g i = data !! i) ∧
    (∀ q, (∀ i, (i < m)%nat → q ≠ place g i) → b !! q = buffer rbuf !! q).
Proof using Hk.
  intros Hr Hm Hd g. pose proof N_pos. pose proof N_bound. pose proof (mod_N_bound p) as Hx.
  pose proof (k_size _ _ _ _ Hr) as Hs. pose proof (k_length _ _ _ _ Hr) as Hl. subst g. unfold regions_from. rewrite Hs.
  set (n := N) in *. set (x := (p mod n)%nat) in *. clearbody x. clearbody n. rewrite (size_in _ (Z.of_nat x + _)) by lia.
  destruct (Z.ltb_spec (Z.of_nat n) (Z.of_nat x + Z.of_nat m)) as [Hw|Hw]; cbn [size1 size2 data1 data2].
  - rewrite (size_in _ (Z.of_nat n - Z.of_nat x)), size_in by lia. rewrite (proj2 (Z.ltb_lt 0 _)) by lia.
    destruct (copy_ok (buffer rbuf) (Z.of_nat x) data 0 (Z.of_nat n - Z.of_nat x)) as (b1 & -> & L1 & B1); try lia.
    cbn [mbind option_bind].
    destruct (copy_ok b1 0 data (Z.of_nat n - Z.of_nat x) (Z.of_nat m - (Z.of_nat n - Z.of_nat x))) as (b2 & -> & L2 & B2); try lia.
    exists b2. split_and!; [done|lia| |].
    + intros i Hi. unfold place. cbn [size1 data1]. rewrite B2.
      destruct (Z.ltb_spec (Z.of_nat i) (Z.of_nat n - Z.of_nat x)).
      * rewrite (proj2 (Nat.ltb_ge _ _)), andb_false_r by lia. rewrite B1.
        rewrite (proj2 (Nat.leb_le _ _)), (proj2 (Nat.ltb_lt _ _)) by lia. cbn [andb]. f_equal. lia.
      * rewrite (proj2 (Nat.leb_le _ _)), (proj2 (Nat.ltb_lt _ _)) by lia. cbn [andb]. f_equal. lia.
    + intros q Hq. unfold place in Hq. cbn [size1 data1] in Hq. rewrite B2.
      destruct (Nat.ltb_spec q (Z.to_nat (0 + (Z.of_nat m - (Z.of_nat n - Z.of_nat x))))) as [Hlt|Hge].
      { exfalso. apply (Hq (q + (n - x))%nat); [lia|]. rewrite (proj2 (Z.ltb_ge _ _)) by lia. lia. }
      rewrite andb_false_r, B1. destruct (Nat.leb_spec (Z.to_nat (Z.of_nat x)) q) as [Hle|Hgt]; cbn [andb]; [|done].
      destruct (Nat.ltb_spec q (Z.to_nat (Z.of_nat x + (Z.of_nat n - Z.of_nat x)))) as [Hlt|]; [|done].
      exfalso. apply (Hq (q - x)%nat); [lia|]. rewrite (proj2 (Z.ltb_lt _ _)) by lia. lia.
  - rewrite Z.ltb_irrefl.
    destruct (copy_ok (buffer rbuf) (Z.of_nat x) data 0 (Z.of_nat m)) as (b1 & -> & L1 & B1); try lia.
    exists b1. split_and!; [done|lia| |].
    + intros i Hi. unfold place. cbn [size1 data1]. rewrite (proj2 (Z.ltb_lt _ _)) by lia. rewrite B1.
      rewrite (proj2 (Nat.leb_le _ _)), (proj2 (Nat.ltb_lt _ _)) by lia. cbn [andb]. f_equal. lia.
    + intros q Hq. unfold place in Hq. cbn [size1 data1] in Hq. rewrite B1.
      destruct (Nat.leb_spec (Z.to_nat (Z.of_nat x)) q) as [Hle|Hgt]; cbn [andb]; [|done].
      destruct (Nat.ltb_spec q (Z.to_nat (Z.of_nat x + Z.of_nat m))) as [Hlt|]; [|done].
      exfalso. apply (Hq (q - x)%nat); [lia|]. rewrite (proj2 (Z.ltb_lt _ _)) by lia. lia.
Qed.

Lemma copy_out w r log rbuf p m data : ring_ok w r log rbuf → (m ≤ N)%nat → (m ≤ length data)%nat →
  let g := regions_from platform rbuf (Z.of_nat (p mod N)) (Z.of_nat m) in
  ∃ out, (if 0 <? size2 g then d ← copy data 0 (buffer rbuf) (data1 g) (size1 g); q ← data2 g; copy d (size1 g) (buffer rbuf) q (size2 g)
        else copy data 0 (buffer rbuf) (data1 g) (size1 g)) = Some out ∧ length out = length data ∧
    (∀ i, (i < m)%nat → out !! i = buffer rbuf !! place g i) ∧ (∀ i, (m ≤ i)%nat → out !! i = data !! i).
Proof using Hk.
  intros Hr Hm Hd g. pose proof N_pos. pose proof N_bound. pose proof (mod_N_bound p) as Hx.
  pose proof (k_size _ _ _ _ Hr) as Hs. pose proof (k_length _ _ _ _ Hr) as Hl. subst g. unfold regions_from. rewrite Hs.
  set (n := N) in *. set (x := (p mod n)%nat) in *. clearbody x. clearbody n. rewrite (size_in _ (Z.of_nat x + _)) by lia.
  destruct (Z.ltb_spec (Z.of_nat n) (Z.of_nat x + Z.of_nat m)) as [Hw|Hw]; cbn [size1 size2 data1 data2].
  - rewrite (size_in _ (Z.of_nat n - Z.of_nat x)), size_in by lia. rewrite (proj2 (Z.ltb_lt 0 _)) by lia.
    destruct (copy_ok data 0 (buffer rbuf) (Z.of_nat x) (Z.of_nat n - Z.of_nat x)) as (b1 & -> & L1 & B1); try lia.
    cbn [mbind option_bind].
    destruct (copy_ok b1 (Z.of_nat n - Z.of_nat x) (buffer rbuf) 0 (Z.of_nat m - (Z.of_nat n - Z.of_nat x))) as (b2 & -> & L2 & B2); try lia.
    exists b2. split_and!; [done|lia| |].
    + intros i Hi. unfold place. cbn [size1 data1]. rewrite B2.
      destruct (Z.ltb_spec (Z.of_nat i) (Z.of_nat n - Z.of_nat x)).
      * rewrite (proj2 (Nat.leb_gt _ _)) by lia. cbn [andb]. rewrite B1.
        rewrite (proj2 (Nat.leb_le _ _)), (proj2 (Nat.ltb_lt _ _)) by lia. cbn [andb]. f_equal. lia.
      * rewrite (proj2 (Nat.leb_le _ _)), (proj2 (Nat.ltb_lt _ _)) by lia. cbn [andb]. f_equal. lia.
    + intros i Hi. rewrite B2, (proj2 (Nat.ltb_ge _ _)), andb_false_r by lia.
      by rewrite B1, (proj2 (Nat.ltb_ge _ _)), andb_false_r by lia.
  - rewrite Z.ltb_irrefl.
    destruct (copy_ok data 0 (buffer rbuf) (Z.of_nat x) (Z.of_nat m)) as (b1 & -> & L1 & B1); try lia.
    exists b1. split_and!; [done|lia| |].
    + intros i Hi. unfold place. cbn [size1 data1]. rewrite (proj2 (Z.ltb_lt _ _)) by lia. rewrite B1.
      rewrite (proj2 (Nat.leb_le _ _)), (proj2 (Nat.ltb_lt _ _)) by lia. cbn [andb]. f_equal. lia.
    + intros i Hi. by rewrite B1, (proj2 (Nat.ltb_ge _ _)), andb_false_r by lia.
Qed.

(** Called by one thread at a time, the operations are those of a bounded queue. *)
Lemma WriteRingBuffer_ok w r log rbuf data : ring_ok w r log rbuf →
  let n := Nat.min (length data) (r + N - w) in
  ∃ rbuf', PaUtil_WriteRingBuffer platform rbuf data (Z.of_nat (length data)) = Some (Z.of_nat n, rbuf') ∧
    ring_ok (w + n) r (log ++ take n data) rbuf'.
Proof using Hk.
  intros Hr n. pose proof N_pos. pose proof N_bound. pose proof (k_order _ _ _ _ Hr) as Ho.
  unfold PaUtil_WriteRingBuffer, PaUtil_GetRingBufferWriteRegions. cbv zeta.
  rewrite (proj2 (read_available _ _ _ _ Hr)), (k_write _ _ _ _ Hr), (k_small _ _ _ _ Hr), mask_small, mod_of_nat.
  assert (En : (if Z.of_nat (r + N - w) <? Z.of_nat (length data) then Z.of_nat (r + N - w)
    else Z.of_nat (length data)) = Z.of_nat n) by (destruct (Z.ltb_spec (Z.of_nat (r + N - w)) (Z.of_nat (length data))); lia).
  rewrite En. destruct (copy_in w r log rbuf w n data Hr ltac:(lia) ltac:(lia)) as (b & -> & Lb & Hin & Hout).
  cbn [mbind option_bind]. eexists. split; [reflexivity|].
  assert (Hpl : ∀ i, (i < n)%nat → place (regions_from platform rbuf (Z.of_nat (w mod N)) (Z.of_nat n)) i = ((w + i) mod N)%nat).
  { intros i Hi. apply (regions_place w r log); [done|lia|lia]. }
  destruct Hr as [Hs Hb Hsm Hwi Hri Hl _ Hlog Hcont]. split; cbn; try done.
  - rewrite Hb, mask_big, Hwi. pose proof (Z.mod_pos_bound (Z.of_nat w) (Z.of_nat (2 * N)) ltac:(lia)).
    rewrite size_in by lia. rewrite Zplus_mod_idemp_l. f_equal. lia.
  - lia.
  - rewrite length_app, length_take_le by lia. lia.
  - intros p Hp. destruct (Nat.lt_ge_cases p w).
    + rewrite lookup_app_l by lia. rewrite <- Hcont by lia. apply Hout. intros i Hi. rewrite Hpl by done.
      apply cells_apart. lia.
    + rewrite lookup_app_r by lia. rewrite Hlog. replace p with (w + (p - w))%nat at 1 by lia.
      rewrite <- Hpl, Hin by lia. by rewrite lookup_take_lt by lia.
Qed.

Lemma ReadRingBuffer_ok w r log rbuf data m : ring_ok w r log rbuf → (m ≤ length data)%nat →
  let n := Nat.min m (w - r) in
  ∃ rbuf', PaUtil_ReadRingBuffer platform rbuf data (Z.of_nat m) =
      Some (Z.of_nat n, take n (drop r log) ++ drop n data, rbuf') ∧
    ring_ok w (r + n) log rbuf'.
Proof using Hk.
  intros Hr Hm n. pose proof N_pos. pose proof N_bound. pose proof (k_order _ _ _ _ Hr) as Ho.
  unfold PaUtil_ReadRingBuffer, PaUtil_GetRingBufferReadRegions. cbv zeta.
  rewrite (proj1 (read_available _ _ _ _ Hr)), (k_read _ _ _ _ Hr), (k_small _ _ _ _ Hr), mask_small, mod_of_nat.
  assert (En : (if Z.of_nat (w - r) <? Z.of_nat m then Z.of_nat (w - r) else Z.of_nat m) = Z.of_nat n)
    by (destruct (Z.ltb_spec (Z.of_nat (w - r)) (Z.of_nat m)); lia).
  rewrite En. destruct (copy_out w r log rbuf r n data Hr ltac:(lia) ltac:(lia)) as (d & -> & Ld & Hin & Hout).
  cbn [mbind option_bind]. eexists. split.
  - do 3 f_equal. apply list_eq. intros i. pose proof (k_log _ _ _ _ Hr) as Hlog.
    destruct (Nat.lt_ge_cases i n).
    + rewrite Hin by done. rewrite lookup_app_l by (rewrite length_take_le by (rewrite length_drop; lia); lia).
      rewrite lookup_take_lt, lookup_drop by done. rewrite (regions_place w r log) by (done || lia).
      apply (k_content _ _ _ _ Hr). lia.
    + rewrite Hout by done. rewrite lookup_app_r by (rewrite length_take_le by (rewrite length_drop; lia); lia).
      rewrite length_take_le by (rewrite length_drop; lia). rewrite lookup_drop. f_equal. lia.
  - destruct Hr as [Hs Hb Hsm Hwi Hri Hl _ Hlog Hcont]. split; cbn; try done.
    + rewrite Hb, mask_big, Hri. pose proof (Z.mod_pos_bound (Z.of_nat r) (Z.of_nat (2 * N)) ltac:(lia)).
      rewrite size_in by lia. rewrite Zplus_mod_idemp_l. f_equal. lia.
    + lia.
    + intros p Hp. apply Hcont. lia.
Qed.

(** A ring of a power of two is empty. *)
Lemma InitializeRingBuffer_ok rbuf size data : length data = N →
  ∃ rbuf', PaUtil_InitializeRingBuffer platform rbuf size (Z.of_nat N) data = (0, rbuf') ∧ ring_ok 0 0 [] rbuf'.
Proof using Hk.
  intros Hd. pose proof N_pos. pose proof N_bound. unfold PaUtil_InitializeRingBuffer.
  rewrite size_in by lia. rewrite Z.land_comm, mask_small, Z.mod_same by lia. cbn [Z.eqb negb]. cbv zeta.
  eexists. split; [reflexivity|]. split; cbn [bufferSize bigMask smallMask writeIndex readIndex buffer with_read with_write PaUtil_FlushRingBuffer length];
    rewrite ?(size_in _ (Z.of_nat N * 2)), ?(size_in _ (Z.of_nat N * 2 - 1)) by lia; done || lia.
Qed.

End ring.

(** Both threads are about to touch the same cell. *)
Definition racing (c : Config) : Prop :=
  match writer c, reader c with
  | WBusy _ g n d, RBusy g' m got => (d < n)%nat ∧ (length got < m)%nat ∧ place g d = place g' (length got)
  | _, _ => False
  end.

(** C14: The ring is a queue between two threads. From an empty ring of 2^k elements, k up to 29
    where the indices have 32 bits (Apple) and up to 61 where they have 64, and under every interleaving of the steps of one writing and one reading thread, no access
    is out of range and the threads never touch the same cell; what the reading calls have
    returned is, in order, the beginning of what the writing calls have stored; the rest,
    at most 2^k elements, is what is available for reading. *)
Theorem pa_ring_queue (platform : Platform) (k : nat) (rbuf0 : PaUtilRingBuffer) (size : Z) (data : list Z)
    (schedule : list action) :
  (k ≤ largest platform)%nat → length data = (2 ^ k)%nat →
  ∃ rbuf c es queue, PaUtil_InitializeRingBuffer platform rbuf0 size (Z.of_nat (2 ^ k)) data = (0, rbuf) ∧
    run platform (mkConfig rbuf WIdle RIdle) schedule = Some (c, es) ∧
    written es = read es ++ queue ∧ (length queue ≤ 2 ^ k)%nat ∧
    PaUtil_GetRingBufferReadAvailable platform (ring c) = Z.of_nat (length queue) ∧ ¬ racing c.
Proof.
  intros Hk Hd. destruct (InitializeRingBuffer_ok platform k Hk rbuf0 size data Hd) as (rbuf & E0 & H0).
  destruct (schedule_ok platform k Hk schedule [] 0 (mkConfig rbuf WIdle RIdle)) as (c & es & E & [Hr Hw Hd'] & Hread).
  { by split. }
  rewrite app_nil_l in *. rewrite Nat.add_0_l in *.
  pose proof (k_order _ _ _ _ _ Hr) as Ho. exists rbuf, c, es, (drop (length (read es)) (written es)).
  split_and!; [done|done| |rewrite length_drop; lia| |].
  - rewrite <- (take_drop (length (read es)) (written es)) at 1. f_equal. apply list_eq. intros i.
    destruct (Nat.lt_ge_cases i (length (read es))).
    + rewrite lookup_take_lt by done. rewrite <- (Hread i) by done. done.
    + rewrite lookup_take_ge by done. symmetry. by apply lookup_ge_None_2.
  - rewrite (proj1 (read_available platform k Hk _ _ _ _ Hr)), length_drop. done.
  - unfold racing. destruct (writer c) as [|wd g n d]; [tauto|]. destruct (reader c) as [|g' m got]; [tauto|].
    intros (H1 & H2 & H3). destruct Hw as (_ & Hroom & Hp & _). destruct Hd' as (_ & Hin & Hp' & _).
    rewrite Hp, Hp' in H3 by done. revert H3. apply not_eq_sym, (cells_apart platform k Hk). lia.
Qed.

Definition example_ring : PaUtilRingBuffer := mkRing 0 77 88 0 0 0 [].

(** The second write starts while the first read is under way and sees one free element. *)
Definition example_schedule : list action :=
  [CallWrite [1; 2; 3]; StepWrite; CallRead 2; StepWrite; StepRead; StepWrite; StepWrite;
   CallRead 2; CallWrite [4; 5; 6]; StepRead; StepWrite; StepRead; StepRead; StepWrite;
   CallRead 9; StepRead; CallWrite [7; 8]; StepRead; StepWrite].

Lemma pa_ring_queue_witness :
  let ring0 := (PaUtil_InitializeRingBuffer Apple example_ring 4 4 [0; 0; 0; 0]).2 in
  (snd <$> run Apple (mkConfig ring0 WIdle RIdle) example_schedule) =
    Some [Read []; Wrote [1; 2; 3]; Read [1; 2]; Wrote [4]] ∧
  ∃ rbuf c es queue, PaUtil_InitializeRingBuffer Apple example_ring 4 (Z.of_nat (2 ^ 2)) [0; 0; 0; 0] = (0, rbuf) ∧
    run Apple (mkConfig rbuf WIdle RIdle) example_schedule = Some (c, es) ∧
    written es = read es ++ queue ∧ (length queue ≤ 2 ^ 2)%nat ∧
    PaUtil_GetRingBufferReadAvailable Apple (ring c) = Z.of_nat (length queue) ∧ ¬ racing c.
Proof.
  cbv zeta. split; [vm_compute; reflexivity|].
  apply (pa_ring_queue Apple 2 example_ring 4 [0; 0; 0; 0] example_schedule); [cbn; lia|done].
Defined.

(** ** Creating a ring *)

(** A positive number of elements is accepted exactly when it is a power of two. *)
Lemma InitializeRingBuffer_power platform rbuf size count data : 0 < count < 2 * 2 ^ Z.of_nat (largest platform) →
  (PaUtil_InitializeRingBuffer platform rbuf size count data).1 = 0 ↔ ∃ k, 0 ≤ k ∧ count = 2 ^ k.
Proof.
  intros Hc. unfold PaUtil_InitializeRingBuffer. rewrite (size_in _ (count - 1)) by lia.
  destruct (Z.eqb_spec (Z.land (count - 1) count) 0) as [E|E]; cbn [negb fst].
  - split; [|done]. intros _. exists (Z.log2 count). split; [apply Z.log2_nonneg|].
    pose proof (Z.log2_spec count ltac:(lia)) as [Hl Hu]. destruct (Z.eq_dec count (2 ^ Z.log2 count)) as [|Hne]; [done|].
    exfalso. assert (Hb : Z.testbit (Z.land (count - 1) count) (Z.log2 count) = true); [|by rewrite E, Z.bits_0 in Hb].
    rewrite Z.land_spec, Z.bit_log2, andb_true_r by lia.
    pose proof (Z.log2_nonneg count) as Hp. pose proof (Z.pow_pos_nonneg 2 (Z.log2 count) ltac:(lia) Hp) as Hp'.
    rewrite <- (Z.log2_unique (count - 1) (Z.log2 count)) at 1 by (done || lia). apply Z.bit_log2. lia.
  - split; [done|]. intros (k & Hk & ->). exfalso. apply E.
    rewrite Z.sub_1_r, <- Z.ones_equiv, Z.land_comm, Z.land_ones by done. apply Z.mod_same, Z.pow_nonzero; lia.
Qed.

(** Zero is accepted as well, although it is not a power of two: such a ring has negative masks. *)
Example zero_elements :
  PaUtil_InitializeRingBuffer Apple example_ring 4 0 [] = (0, mkRing 0 0 0 (-1) (-1) 4 []).
Proof. reflexivity. Qed.

End PaRing.
